(* ===== verification/_CoqProject ===== *)
-Q . S2P
Prelude.v
Texte.v
Bits.v
Trame.v
DnsName.v
Grammaire.v
Fnv.v
Creneaux.v
SuiviSoa.v
SuiviAaaa.v
Renouvellement.v
IcmpEcho.v
Channel.v
Correlateur.v
Ontology.v
Arena.v
Codebook.v
Localite.v
DeltaCatalog.v
GrayZone.v
Floppy.v
Lexique.v
Cascade.v
DnsQuestion.v
DnsMessage.v
GardeNonLdh.v
Preuve.v
Reputation.v
ReputationCompile.v
Entropie.v
Flottant.v
FiltreSyntaxe.v
TableSondee.v
SuiviTemporel.v
Pipeline.v
Arbitrage.v
Routeur.v
Quotients.v
Robuste.v
Profil.v
ProcTexte.v
CapteurProc.v
ArbitreCinetique.v
FileArbitrage.v
Pcap.v
Netlink.v
Quarantaine.v
TrancheOracle.v
Silo.v
