(* ===== verification/Prelude.v ===== *)
(** * c2blue55: a verification development

    c2blue55 is a detector of command-and-control traffic.  It reads what its
    callers inject (DNS packets, captures, ICMP echoes, probe and kernel events,
    readings of /proc, code samples, snapshots of a host) and returns verdicts; it
    applies no interdiction itself.  This library models its decision core function
    by function and proves what makes each part correct.

    ** How the program is put together, and where each part is modelled

    Shared by all:
    - [Prelude]: outcomes of a Go computation ([run]: normal return, panic,
      exhausted fuel), machine integers in [Z] with their wrap-around, slices and
      arrays as lists with checked accesses ([idx], [upd], [slice]), loops
      ([loop], [for_range], [parcourir]), their total-correctness rules ([wp]) and
      lock-step rules ([wp2]), little- and big-endian codings, automation.
    - [Bits] (math/bits, splitmix64), [Trame] (binary layouts), [Fnv] (FNV-1a),
      [Texte] (search, words, lines and decimal integers of texts), [Flottant]
      (binary64), [Creneaux] (parallel arrays of dated fingerprints),
      [TableSondee] (probed tables as finite maps).

    DNS on the wire (src/dns*.go):
    - [DnsName]: [decompresserNomDNS] of soa_negative.go, the bounded name reader
      of the response trackers; [Grammaire]: the census of octets outside LDH and
      the class of a query name (dns_grammar.go); [DnsQuestion]: [ParseDNSQuery],
      [ParseDNSQueryTolerant], [ParseDNSName] (dns.go); [DnsMessage]:
      [ParseDNSMessage] (dns_message.go); [Pcap]: the capture files and the link,
      network and transport layers (dns_pcap.go).

    Trackers of DNS and ICMP answers (src/internal/engine):
    - [SuiviSoa] (soa_negative.go, rule P20), [SuiviAaaa] (aaaa_iid.go, P21),
      [Renouvellement] (renouvellement_rdata.go, P15), [IcmpEcho] (icmp_echo.go,
      IC01-IC02), [GardeNonLdh] (src/nonldh_guard.go, bursts of names outside LDH).

    The packet pipeline (src/pipeline.go) and what it composes:
    - [Reputation], [ReputationCompile] (compact_reputation.go), [Entropie]
      (probe_entropy_gen.go), [SuiviTemporel] (temporal_tracker.go), [Pipeline]
      (one packet, the rules of arbitration), [Arbitrage] (the worker, the audit
      writer and the closing, interleaved).

    Probe events and the cascade (src/internal/engine):
    - [Channel] (ring_buffer_gen.go), [Routeur] (src/router.go), [Correlateur]
      (rules.go, correlator.go, context.go), [Ontology] (ontology_table.go),
      [Arena] (arena_pool.go), [Codebook] (codebook.go), [Quarantaine]
      (feedback_quarantine.go), [GrayZone] (grayzone.go), [Floppy]
      (floppy_engine.go, goclassifier/rabitq_probe.go), [Lexique] and [Cascade]
      (inference_cascade.go), [Preuve] (forensic_proof.go), [FiltreSyntaxe]
      (syntax_filter.go);
    - [Netlink]: the process and socket streams of the kernel
      (src/internal/probes/cnproc.go, inet_diag.go).

    The kinetic probe (src/internal/cinetique):
    - [ProcTexte] and [CapteurProc] (capteur_proc_linux.go), [Quotients]
      (quotients_episode.go), [Robuste] and [Profil] (profil_welford.go),
      [ArbitreCinetique] and [FileArbitrage] (arbitre_slm.go).

    Snapshots of the host:
    - [Localite] (server_oracle_locality.go), [DeltaCatalog] (delta_catalog.go),
      [TrancheOracle] (server_oracle.go, template_rarity.go), [Silo]
      (src/server_oracle_silo.go).

    Parts interact by calls and by shared state.  A packet goes through
    [DnsQuestion] (itself fed by [Pcap] for a capture), then in [Pipeline] through
    [Reputation], [Entropie] and [SuiviTemporel]; an incident enters the queue of
    [Arbitrage].  A probe event enters a [Channel], is dispatched by [Routeur] or
    polled by [Correlateur]; its payload is stored in and read back from [Arena] by
    [Cascade], which consults [Ontology], [Lexique], [Floppy]; [Preuve] seals a
    decision of [Cascade] and replays it; [GrayZone] consults [Ontology] and
    [Codebook], which [Quarantaine] extends.  [CapteurProc] reads what [Quotients]
    turns into an episode, which [Profil] compares and learns and [ArbitreCinetique]
    judges, behind [FileArbitrage].  A snapshot coded by [Localite] is kept in the
    day of [Silo], sealed in the format of [TrancheOracle], whose baseline and the
    catalogue of [DeltaCatalog] judge later ones.

    ** Correspondence

    A definition has the name of the Go function, method, type or constant it
    translates.  Methods take their receiver first and return its new value; a
    pointer that may be nil is an [option]; errors are values of an inductive
    type or of [option], texts of wrapped errors left out.  A Go [for] loop whose
    length is not known in advance is [loop] with fuel, and the theorems show
    that the fuel is never exhausted ([wp] excludes [Panic] and [Fuel] alike).
    Names in French that have no counterpart in Go are intermediate steps (a loop
    body, a guard) or specifications.

    ** What is not in this repository's source, and its interfaces
    - [Preuve.Primitives] (SHA-256, Ed25519, the page checksum of c2pkg) with the
      laws [Preuve.LoisPrimitives], which state the documented behaviour of
      Ed25519 for the keys made from a seed of 32 octets;
    - [Cascade.Detecteurs], the float kernels, and the decision head of
      [ArbitreCinetique]: every theorem holds for all of them, no law assumed;
    - [CapteurProc.Noyau], what each opening and each read of a pseudo-file gives;
    - [Reputation.Unicode], what strings.ToLower and strings.TrimSpace do outside
      ASCII: no law assumed;
    - SHA-256 and HMAC-SHA256 in [Floppy], [DeltaCatalog], [Quarantaine],
      [TrancheOracle] and [Silo], math.Log2 in [TrancheOracle], the answers of the
      language models in [Arbitrage] and [FileArbitrage]: arguments, or relations.
    Floats that decide something are computed with the binary64 and binary32 of
    [Stdlib.Floats.SpecFloat], executable and without axioms, each operation rounded
    on its own (Go on amd64 does not fuse); the result of a conversion to an integer
    that does not fit, which Go leaves to the machine, is the argument [hors].

    ** The theorems
    - safety and termination of every reader of untrusted octets: [DnsName],
      [DnsQuestion], [DnsMessage], [Pcap], [Netlink], [CapteurProc], [Grammaire],
      [Reputation], [Floppy], [Codebook], [DeltaCatalog], [TrancheOracle],
      [SuiviSoa], [SuiviAaaa], [Renouvellement], [IcmpEcho], [FiltreSyntaxe];
    - exactness against a reference: wire grammars ([DnsMessage.message_exact],
      [DnsQuestion.question_exacte], [Netlink.flux_proc_exact]), captures and texts
      read back ([Pcap.capture_relue], [CapteurProc.capture_exacte]), reference
      searches ([Reputation], [Codebook], [Localite],
      [TrancheOracle.compartiments_exacts]), fractions ([Quotients]), medians
      ([Robuste]), histograms ([Entropie]), language definitions ([Lexique]);
    - refinement: rings and tables as bounded queues and maps ([Channel],
      [Routeur], [Renouvellement], [SuiviTemporel], [Profil], [GardeNonLdh]),
      snapshots as lists ([ReputationCompile]);
    - soundness of alarms: whatever is raised is backed by observations really made
      ([SuiviSoa], [SuiviAaaa], [Renouvellement], [IcmpEcho], [Correlateur],
      [GardeNonLdh], [Pipeline], [Arbitrage], [Profil], [ArbitreCinetique]);
    - vetoes that nothing overrides ([Cascade], [Ontology], [DeltaCatalog],
      [Pipeline], [ReputationCompile], [ArbitreCinetique]);
    - what enters a store was admitted, and what was admitted is not lost
      ([Quarantaine.promotion_fondee], [Silo.journal_durable]);
    - round trips of every binary format (C2FLOP1, .c2book, C2DELTA1, C2DB,
      C2ORACL1, the DNS encodings, the arena, the forensic proof);
    - interleavings: [Channel.Spsc] (one producer and one consumer with torn
      copies), [Arena.Seqlock] (sequence locks), [Arbitrage] and [FileArbitrage]
      (queues, workers, closing), [GrayZone.Course] (a race that exceeds the
      documented rate).

    ** Granularity
    - [Arbitrage]: an evaluation is one atomic step, although the source holds a
      shared lock during it and evaluations may overlap: what overlapping ones share
      (reputation, tracker, queue, counters) has a lock or atomics of its own.  An
      arbitration and an audit callback return, as the contract of [Close] asks.
    - [FileArbitrage]: one step for each access to the mutex, the channel and the
      counters; the arbiter and the verdict callback return.
    - [Routeur]: one step is a whole turn of a loop; the finer interleaving with the
      consumers of a ring is [Channel.Spsc], which has the same protocol.
    - [Pcap]: a file is its octets; failures to open, read or close it are left out,
      and the visitor does not change the event it is given.
    - [Quarantaine], [Silo]: sessions of any calls, with the failures of the system
      that the definitions name ([issue], [ecrit]) at any of them.
    - [GardeNonLdh]: an episode is a fixed window of 300 s, as in the source; a burst
      astride two windows may pass.
    - a method under a mutex is one step.

    ** Bounds and fuel
    - 264 turns in [DnsName] (each consumes an octet of a 255-octet name or one of
      the 8 jumps); 256 labels in [DnsQuestion] and 264 in [DnsMessage] (every
      label lengthens a name of at most 254 octets);
    - dichotomies: number of entries plus one; walks up a name: its length plus one;
    - scanners of [Lexique] and [FiltreSyntaxe]: the length of the text plus one;
    - tables: 256x4 cells ([SuiviSoa], [SuiviAaaa], [Renouvellement]), 1024
      ([Channel], [Arena], [GardeNonLdh], [Netlink]), 8192 ([SuiviTemporel]), 256 per
      sub-ring ([Routeur]), 64x4 profiles ([Profil]); 2^19 states a day ([Silo]),
      2^24 entries of a codebook ([Quarantaine]).

    ** Not modelled
    - float32 feature extraction and quantisation (feature_extractor.go,
      rabitq512.go), the grammar engine (grammar.go), the drift guard, the temporal
      agent and the episodes of DNS (pipeline_dns_msg.go, dns_agent.go): their
      results are arguments where they matter; inference of the language models;
    - offline evaluation, corpora, reporting, laboratory emitters, benches;
    - the parsing of log lines and LSM records, the compilation of delta rules;
    - process start-up, eBPF, sockets and HTTP input-output, the attribution of
      sockets, logging, clocks (an instant is an argument of the operation that reads
      it);
    - allocation and garbage collection; goroutine scheduling, except where a
      step relation interleaves the atomic accesses. *)
From stdpp Require Export base list numbers option strings sets.
From Stdlib Require Export ZArith Lia Bool.
#[export] Set Default Goal Selector "!".
Open Scope Z_scope.
Open Scope bool_scope.

(** * 1. Outcomes of a Go computation

    [Done a] is a normal return, [Panic] a Go run-time panic (index or slice
    out of range, nil dereference), [Fuel] the exhaustion of the fuel with
    which a [for] loop of unknown length is unrolled.  A theorem of the form
    [wp m Q] therefore says: no panic, termination, and [Q] of the result. *)
Inductive run (A : Type) : Type :=
  | Done (a : A)
  | Panic
  | Fuel.
Arguments Done {A} _.
Arguments Panic {A}.
Arguments Fuel {A}.

#[export] Instance run_ret : MRet run := fun _ a => Done a.
#[export] Instance run_bind : MBind run := fun _ _ f m =>
  match m with Done a => f a | Panic => Panic | Fuel => Fuel end.

Lemma run_bind_done {A B} (a : A) (f : A -> run B) : (Done a ≫= f) = f a.
Proof. done. Qed.
Lemma run_bind_panic {A B} (f : A -> run B) : (Panic ≫= f) = Panic.
Proof. done. Qed.
Lemma run_bind_fuel {A B} (f : A -> run B) : (Fuel ≫= f) = Fuel.
Proof. done. Qed.

Definition wp {A} (m : run A) (Q : A -> Prop) : Prop :=
  match m with Done a => Q a | Panic | Fuel => False end.

Lemma wp_ret {A} (a : A) (Q : A -> Prop) : Q a -> wp (mret a) Q.
Proof. done. Qed.

Lemma wp_done {A} (a : A) (Q : A -> Prop) : Q a -> wp (Done a) Q.
Proof. done. Qed.

Lemma wp_bind {A B} (m : run A) (f : A -> run B) (Q : B -> Prop) :
  wp m (fun a => wp (f a) Q) -> wp (m ≫= f) Q.
Proof. by destruct m. Qed.

Lemma wp_mono {A} (m : run A) (P Q : A -> Prop) :
  wp m P -> (forall a, P a -> Q a) -> wp m Q.
Proof. destruct m; simpl; auto. Qed.

Lemma wp_conj {A} (m : run A) (P Q : A -> Prop) :
  wp m P -> wp m Q -> wp m (fun a => P a /\ Q a).
Proof. destruct m; simpl; auto. Qed.

Lemma wp_exists {A} (m : run A) (Q : A -> Prop) :
  wp m Q <-> exists a, m = Done a /\ Q a.
Proof.
  destruct m; simpl; split; [by eauto | by intros (? & [= <-] & ?) | done | by intros (? & ? & ?) | done | by intros (? & ? & ?)].
Qed.

(** Two computations in lock step. *)
Definition wp2 {A B} (m : run A) (k : run B) (Q : A -> B -> Prop) : Prop :=
  wp m (fun a => wp k (fun b => Q a b)).

Lemma wp2_bind {A B C D} (m : run A) (k : run B) (f : A -> run C) (g : B -> run D)
    (Q : C -> D -> Prop) :
  wp2 m k (fun a b => wp2 (f a) (g b) Q) -> wp2 (m ≫= f) (k ≫= g) Q.
Proof. unfold wp2. by destruct m, k. Qed.

Lemma wp2_mono {A B} (m : run A) (k : run B) (P Q : A -> B -> Prop) :
  wp2 m k P -> (forall a b, P a b -> Q a b) -> wp2 m k Q.
Proof. unfold wp2. destruct m, k; simpl; auto. Qed.

Lemma wp2_refl {A} (m : run A) (Q : A -> A -> Prop) :
  wp m (fun a => Q a a) -> wp2 m m Q.
Proof. unfold wp2. by destruct m. Qed.

Lemma wp_of_done {A} (m : run A) a (Q : A -> Prop) :
  m = Done a -> wp m Q -> Q a.
Proof. by intros ->. Qed.

Lemma wp_is_done {A} (m : run A) a (Q : A -> Prop) :
  m = Done a -> Q a -> wp m Q.
Proof. by intros ->. Qed.

(** * 2. Machine integers: values in [Z], wrap-around written out *)
Definition u8 (z : Z) : Z := z mod 2 ^ 8.
Definition u16 (z : Z) : Z := z mod 2 ^ 16.
Definition u32 (z : Z) : Z := z mod 2 ^ 32.
Definition u64 (z : Z) : Z := z mod 2 ^ 64.
Definition i64 (z : Z) : Z := (z + 2 ^ 63) mod 2 ^ 64 - 2 ^ 63.
Definition i32 (z : Z) : Z := (z + 2 ^ 31) mod 2 ^ 32 - 2 ^ 31.

Definition is_u8 (z : Z) : Prop := 0 <= z < 2 ^ 8.
Definition is_u16 (z : Z) : Prop := 0 <= z < 2 ^ 16.
Definition is_u32 (z : Z) : Prop := 0 <= z < 2 ^ 32.
Definition is_u64 (z : Z) : Prop := 0 <= z < 2 ^ 64.
Definition is_i64 (z : Z) : Prop := - 2 ^ 63 <= z < 2 ^ 63.
Definition bytes_ok (l : list Z) : Prop := Forall is_u8 l.

Lemma u8_range z : is_u8 (u8 z).
Proof. apply Z.mod_pos_bound. lia. Qed.
Lemma u16_range z : is_u16 (u16 z).
Proof. apply Z.mod_pos_bound. lia. Qed.
Lemma u32_range z : is_u32 (u32 z).
Proof. apply Z.mod_pos_bound. lia. Qed.
Lemma u64_range z : is_u64 (u64 z).
Proof. apply Z.mod_pos_bound. lia. Qed.
Lemma u8_id z : is_u8 z -> u8 z = z.
Proof. apply Z.mod_small. Qed.
Lemma u16_id z : is_u16 z -> u16 z = z.
Proof. apply Z.mod_small. Qed.
Lemma u32_id z : is_u32 z -> u32 z = z.
Proof. apply Z.mod_small. Qed.
Lemma u64_id z : is_u64 z -> u64 z = z.
Proof. apply Z.mod_small. Qed.
Lemma i64_id z : is_i64 z -> i64 z = z.
Proof. unfold is_i64, i64. intros H. rewrite Z.mod_small; lia. Qed.
Lemma i64_range z : is_i64 (i64 z).
Proof.
  unfold is_i64, i64. pose proof (Z.mod_pos_bound (z + 2 ^ 63) (2 ^ 64)). lia.
Qed.

Lemma land_mask z n : 0 <= n -> Z.land z (Z.ones n) = z mod 2 ^ n.
Proof. apply Z.land_ones. Qed.

Lemma land_range a b n : 0 <= n -> 0 <= b < 2 ^ n -> 0 <= Z.land a b < 2 ^ n.
Proof.
  intros Hn Hb. split; [apply Z.land_nonneg; lia|].
  replace b with (Z.land b (Z.ones n)) by (rewrite Z.land_ones; [apply Z.mod_small|]; lia).
  rewrite Z.land_assoc, Z.land_ones by lia. apply Z.mod_pos_bound. lia.
Qed.

Lemma lor_range a b n :
  0 <= n -> 0 <= a < 2 ^ n -> 0 <= b < 2 ^ n -> 0 <= Z.lor a b < 2 ^ n.
Proof.
  intros Hn Ha Hb. split; [apply Z.lor_nonneg; lia|].
  rewrite <- (Z.mod_small a (2 ^ n)), <- (Z.mod_small b (2 ^ n)) by lia.
  rewrite <- !Z.land_ones, <- Z.land_lor_distr_l, Z.land_ones by lia.
  apply Z.mod_pos_bound. lia.
Qed.

(** * 3. Slices and arrays of Go as lists indexed by [Z] *)
Definition zlen {A} (l : list A) : Z := Z.of_nat (length l).

Definition idx {A} (l : list A) (i : Z) : run A :=
  if i <? 0 then Panic
  else match l !! Z.to_nat i with Some x => Done x | None => Panic end.

Definition upd {A} (l : list A) (i : Z) (x : A) : run (list A) :=
  if (0 <=? i) && (i <? zlen l) then Done (<[Z.to_nat i := x]> l) else Panic.

(** [l[a:b]] *)
Definition slice {A} (l : list A) (a b : Z) : run (list A) :=
  if (0 <=? a) && (a <=? b) && (b <=? zlen l)
  then Done (take (Z.to_nat (b - a)) (drop (Z.to_nat a) l)) else Panic.

(** [copy(dst, src)] of Go: overwrites the common prefix. *)
Definition copy_into {A} (dst src : list A) : list A :=
  take (length dst) src ++ drop (length src) dst.

(** Total read with a default, used in specifications. *)
Definition bget (l : list Z) (i : Z) : Z := nth (Z.to_nat i) l 0.

Lemma zlen_nonneg {A} (l : list A) : 0 <= zlen l.
Proof. unfold zlen. lia. Qed.
Lemma zlen_app {A} (l k : list A) : zlen (l ++ k) = zlen l + zlen k.
Proof. unfold zlen. rewrite length_app. lia. Qed.
Lemma zlen_cons {A} (x : A) l : zlen (x :: l) = 1 + zlen l.
Proof. unfold zlen. simpl. lia. Qed.
Lemma zlen_nil {A} : zlen (@nil A) = 0.
Proof. done. Qed.
Lemma zlen_insert {A} (l : list A) i x : zlen (<[i := x]> l) = zlen l.
Proof. unfold zlen. by rewrite length_insert. Qed.
Lemma zlen_copy_into {A} (d s : list A) : zlen (copy_into d s) = zlen d.
Proof.
  unfold zlen, copy_into. rewrite length_app, length_take, length_drop. lia.
Qed.

Lemma wp_idx {A} (l : list A) i (Q : A -> Prop) :
  0 <= i < zlen l ->
  (forall x, l !! Z.to_nat i = Some x -> Q x) -> wp (idx l i) Q.
Proof.
  intros Hi HQ. unfold idx. destruct (Z.ltb_spec i 0); [lia|].
  destruct (l !! Z.to_nat i) eqn:E; simpl; [by apply HQ|].
  apply lookup_ge_None in E. unfold zlen in Hi. lia.
Qed.

Lemma wp_idx_byte (l : list Z) i (Q : Z -> Prop) :
  bytes_ok l -> 0 <= i < zlen l ->
  (forall x, l !! Z.to_nat i = Some x -> 0 <= x < 256 -> Q x) -> wp (idx l i) Q.
Proof.
  intros Hb Hi HQ. apply wp_idx; [done|]. intros x Hx. apply HQ; [done|].
  apply (proj1 (Forall_lookup _ _) Hb _ _ Hx).
Qed.

Lemma wp_upd {A} (l : list A) i x (Q : list A -> Prop) :
  0 <= i < zlen l -> Q (<[Z.to_nat i := x]> l) -> wp (upd l i x) Q.
Proof.
  intros Hi HQ. unfold upd.
  destruct (Z.leb_spec 0 i), (Z.ltb_spec i (zlen l)); simpl; try lia. done.
Qed.

Lemma upd_ok {A} (l : list A) i x : 0 <= i < zlen l -> upd l i x = Done (<[Z.to_nat i := x]> l).
Proof.
  intros Hi. unfold upd. by destruct (Z.leb_spec 0 i), (Z.ltb_spec i (zlen l)); try lia.
Qed.

Lemma wp_slice {A} (l : list A) a b (Q : list A -> Prop) :
  0 <= a <= b -> b <= zlen l ->
  Q (take (Z.to_nat (b - a)) (drop (Z.to_nat a) l)) -> wp (slice l a b) Q.
Proof.
  intros Ha Hb HQ. unfold slice.
  destruct (Z.leb_spec 0 a), (Z.leb_spec a b), (Z.leb_spec b (zlen l)); simpl; try lia. done.
Qed.

Lemma zlen_slice {A} (l : list A) a b :
  0 <= a <= b -> b <= zlen l ->
  zlen (take (Z.to_nat (b - a)) (drop (Z.to_nat a) l)) = b - a.
Proof. unfold zlen. intros. rewrite length_take, length_drop. lia. Qed.

Lemma bytes_ok_take l n : bytes_ok l -> bytes_ok (take n l).
Proof. apply Forall_take. Qed.
Lemma bytes_ok_drop l n : bytes_ok l -> bytes_ok (drop n l).
Proof. apply Forall_drop. Qed.
Lemma bytes_ok_app l k : bytes_ok l -> bytes_ok k -> bytes_ok (l ++ k).
Proof. apply Forall_app_2. Qed.
Lemma bytes_ok_insert l i x : bytes_ok l -> is_u8 x -> bytes_ok (<[i := x]> l).
Proof. apply Forall_insert. Qed.
Lemma bytes_ok_replicate n x : is_u8 x -> bytes_ok (replicate n x).
Proof. intros. by apply Forall_replicate. Qed.

(** Decidable form of [bytes_ok], for concrete packets. *)
Definition octets_valides (l : list Z) : bool := forallb (fun o => (0 <=? o) && (o <? 256)) l.

Lemma octets_valides_ok l : octets_valides l = true -> bytes_ok l.
Proof.
  unfold octets_valides. intros H. apply Forall_forall. intros x Hx%list_elem_of_In.
  pose proof (proj1 (forallb_forall _ _) H _ Hx) as Hb. apply andb_true_iff in Hb as [H1 H2].
  apply Z.leb_le in H1. apply Z.ltb_lt in H2. split; simpl; lia.
Qed.

Lemma idx_lookup {A} (l : list A) i x :
  0 <= i -> l !! Z.to_nat i = Some x -> idx l i = Done x.
Proof. intros Hi Hx. unfold idx. destruct (Z.ltb_spec i 0); [lia|]. by rewrite Hx. Qed.

Lemma idx_app_r {A} (l k : list A) i j :
  0 <= j -> i = zlen l + j -> idx (l ++ k) i = idx k j.
Proof.
  intros Hj ->. unfold idx. pose proof (zlen_nonneg l).
  destruct (Z.ltb_spec (zlen l + j) 0), (Z.ltb_spec j 0); try lia.
  rewrite lookup_app_r by (unfold zlen; lia).
  by replace (Z.to_nat (zlen l + j) - length l)%nat with (Z.to_nat j)
    by (unfold zlen; lia).
Qed.

Lemma idx_byte_range (l : list Z) i x : bytes_ok l -> idx l i = Done x -> 0 <= x < 256.
Proof.
  unfold idx. intros Hb. destruct (i <? 0); [done|].
  destruct (l !! Z.to_nat i) eqn:E; [|done]. intros [= <-].
  exact (proj1 (Forall_lookup _ _) Hb _ _ E).
Qed.

Lemma idx_Done_bounds {A} (l : list A) i x : idx l i = Done x -> 0 <= i < zlen l.
Proof.
  unfold idx, zlen. destruct (Z.ltb_spec i 0); [done|].
  destruct (l !! Z.to_nat i) eqn:E; [|done]. apply lookup_lt_Some in E. lia.
Qed.

Lemma idx_mid {A} (pre : list A) x post i : i = zlen pre -> idx (pre ++ x :: post) i = Done x.
Proof.
  intros ->. apply idx_lookup; [apply zlen_nonneg|].
  unfold zlen. rewrite Nat2Z.id. by apply list_lookup_middle.
Qed.

Lemma upd_mid {A} (pre : list A) x y post i :
  i = zlen pre -> upd (pre ++ x :: post) i y = Done (pre ++ y :: post).
Proof.
  intros ->. unfold upd. rewrite zlen_app, zlen_cons.
  pose proof (zlen_nonneg pre). pose proof (zlen_nonneg post).
  destruct (Z.leb_spec 0 (zlen pre)), (Z.ltb_spec (zlen pre) (zlen pre + (1 + zlen post)));
    simpl; try lia.
  unfold zlen. rewrite Nat2Z.id. by rewrite insert_app_r_alt, Nat.sub_diag by lia.
Qed.

Lemma idx_bget (l : list Z) i : 0 <= i < zlen l -> idx l i = Done (bget l i).
Proof.
  intros Hi. destruct (lookup_lt_is_Some_2 l (Z.to_nat i)) as [x Hx]; [unfold zlen in Hi; lia|].
  rewrite (idx_lookup _ _ x) by (done || lia). unfold bget. by rewrite (nth_lookup_Some _ _ _ _ Hx).
Qed.

Lemma wp_idx_bget (l : list Z) i (Q : Z -> Prop) :
  0 <= i < zlen l -> Q (bget l i) -> wp (idx l i) Q.
Proof. intros Hi HQ. by rewrite idx_bget. Qed.

Lemma bget_insert_eq (l : list Z) i x : 0 <= i < zlen l -> bget (<[Z.to_nat i := x]> l) i = x.
Proof.
  intros Hi. unfold bget. apply nth_lookup_Some. apply list_lookup_insert_eq. unfold zlen in Hi. lia.
Qed.

Lemma bget_insert_ne (l : list Z) i j x :
  0 <= i -> 0 <= j -> i <> j -> bget (<[Z.to_nat i := x]> l) j = bget l j.
Proof.
  intros. unfold bget. rewrite !nth_lookup. by rewrite list_lookup_insert_ne by lia.
Qed.

Lemma bget_Forall (P : Z -> Prop) l i : Forall P l -> 0 <= i < zlen l -> P (bget l i).
Proof.
  intros HP Hi. destruct (lookup_lt_is_Some_2 l (Z.to_nat i)) as [x Hx]; [unfold zlen in Hi; lia|].
  unfold bget. rewrite (nth_lookup_Some _ _ _ _ Hx). exact (proj1 (Forall_lookup _ _) HP _ _ Hx).
Qed.

Lemma take_insert_snoc {A} (l : list A) n x :
  0 <= n < zlen l -> take (Z.to_nat (n + 1)) (<[Z.to_nat n := x]> l) = take (Z.to_nat n) l ++ [x].
Proof.
  intros Hn. replace (Z.to_nat (n + 1)) with (S (Z.to_nat n)) by lia.
  rewrite (take_S_r _ _ x); [by rewrite take_insert_ge by lia|].
  apply list_lookup_insert_eq. unfold zlen in Hn. lia.
Qed.

(** [for _, x := range l { s += x }], the machine width aside. *)
Definition somme (l : list Z) : Z := foldr Z.add 0 l.

Lemma somme_app l k : somme (l ++ k) = somme l + somme k.
Proof. unfold somme. induction l as [|x l IH]; simpl; lia. Qed.

(** Number of distinct values of a list, as the de-duplication loops count it. *)
Definition nb_distincts (l : list Z) : Z := zlen (remove_dups l).

Lemma nb_distincts_alt l d : NoDup d -> (forall x, x ∈ d <-> x ∈ l) -> zlen d = nb_distincts l.
Proof.
  intros Hd Hx. unfold nb_distincts, zlen. f_equal. apply Permutation_length.
  apply NoDup_Permutation; [done|apply NoDup_remove_dups|].
  intros x. by rewrite elem_of_remove_dups.
Qed.

Lemma existsb_eqb_elem l (x : Z) : existsb (fun y => y =? x) l = true <-> x ∈ l.
Proof.
  rewrite existsb_exists. split.
  - intros (y & Hy & E). apply Z.eqb_eq in E. subst. by apply list_elem_of_In.
  - intros Hx. exists x. split; [by apply list_elem_of_In|]. by rewrite Z.eqb_refl.
Qed.

Lemma existsb_eqb_not_elem l (x : Z) : existsb (fun y => y =? x) l = false <-> x ∉ l.
Proof.
  rewrite <- existsb_eqb_elem. by destruct (existsb _ l).
Qed.

(** [binary.BigEndian.Uint16(l[i:i+2])] and its wider variants. *)
Definition be16 (l : list Z) (i : Z) : run Z :=
  a ← idx l i; b ← idx l (i + 1); Done (a * 256 + b).
Definition be32 (l : list Z) (i : Z) : run Z :=
  a ← be16 l i; b ← be16 l (i + 2); Done (a * 65536 + b).
Definition be64 (l : list Z) (i : Z) : run Z :=
  a ← be32 l i; b ← be32 l (i + 4); Done (a * 4294967296 + b).

Lemma wp_be16 l i (Q : Z -> Prop) :
  bytes_ok l -> 0 <= i -> i + 2 <= zlen l -> (forall x, is_u16 x -> Q x) -> wp (be16 l i) Q.
Proof.
  intros Hb Hi Hl HQ. unfold be16. apply wp_bind, wp_idx_byte; [done|lia|]. intros a _ Ha.
  apply wp_bind, wp_idx_byte; [done|lia|]. intros b _ Hb'. apply wp_done, HQ.
  unfold is_u16. lia.
Qed.

Lemma wp_be32 l i (Q : Z -> Prop) :
  bytes_ok l -> 0 <= i -> i + 4 <= zlen l -> (forall x, is_u32 x -> Q x) -> wp (be32 l i) Q.
Proof.
  intros Hb Hi Hl HQ. unfold be32. apply wp_bind, wp_be16; [done|lia..|]. intros a Ha.
  apply wp_bind, wp_be16; [done|lia..|]. intros b Hb'. apply wp_done, HQ.
  unfold is_u16, is_u32 in *. lia.
Qed.

Lemma wp_be64 l i (Q : Z -> Prop) :
  bytes_ok l -> 0 <= i -> i + 8 <= zlen l -> (forall x, is_u64 x -> Q x) -> wp (be64 l i) Q.
Proof.
  intros Hb Hi Hl HQ. unfold be64. apply wp_bind, wp_be32; [done|lia..|]. intros a Ha.
  apply wp_bind, wp_be32; [done|lia..|]. intros b Hb'. apply wp_done, HQ.
  unfold is_u32, is_u64 in *. lia.
Qed.

(** ** Little-endian encodings ([binary.LittleEndian]) *)
Fixpoint le (n : nat) (z : Z) : list Z :=
  match n with O => [] | S n => u8 z :: le n (z / 256) end.
Definition unle (l : list Z) : Z := foldr (fun b acc => b + 256 * acc) 0 l.

Lemma length_le n z : length (le n z) = n.
Proof. revert z. induction n as [|n IH]; intros z; simpl; [done|]. by rewrite IH. Qed.
Lemma zlen_le n z : zlen (le n z) = Z.of_nat n.
Proof. unfold zlen. by rewrite length_le. Qed.
Lemma bytes_ok_le n z : bytes_ok (le n z).
Proof. revert z. induction n as [|n IH]; intros z; simpl; constructor; [apply u8_range|apply IH]. Qed.

Lemma unle_le n z : 0 <= z < 256 ^ Z.of_nat n -> unle (le n z) = z.
Proof.
  revert z. induction n as [|n IH]; intros z Hz; simpl; [change (256 ^ Z.of_nat 0) with 1 in Hz; lia|].
  rewrite Nat2Z.inj_succ, Z.pow_succ_r in Hz by lia. rewrite IH.
  - unfold u8. change (2 ^ 8) with 256. pose proof (Z.div_mod z 256 ltac:(lia)). lia.
  - split; [apply Z.div_pos; lia|]. apply Z.div_lt_upper_bound; lia.
Qed.

Lemma le_unle l : bytes_ok l -> le (length l) (unle l) = l.
Proof.
  induction 1 as [|b l Hb _ IH]; [done|]. simpl. unfold is_u8 in Hb. change (2 ^ 8) with 256 in Hb. f_equal.
  - unfold u8. change (2 ^ 8) with 256. rewrite Z.mul_comm, Z.mod_add by lia. by apply Z.mod_small.
  - rewrite Z.mul_comm, Z.div_add, Z.div_small, Z.add_0_l by lia. exact IH.
Qed.

Lemma unle_range l : bytes_ok l -> 0 <= unle l < 256 ^ zlen l.
Proof.
  induction 1 as [|b l Hb _ IH]; [by vm_compute|]. rewrite zlen_cons, Z.add_1_l, Z.pow_succ_r by apply zlen_nonneg.
  simpl. unfold is_u8 in Hb. change (2 ^ 8) with 256 in Hb. lia.
Qed.

(** The octets of a sequence of 64-bit words. *)
Fixpoint octets_mots (W : list Z) : list Z :=
  match W with [] => [] | w :: W => le 8 w ++ octets_mots W end.

Lemma octets_mots_app W X : octets_mots (W ++ X) = octets_mots W ++ octets_mots X.
Proof. induction W as [|w W IH]; [done|]. cbn -[le]. by rewrite IH, app_assoc. Qed.
Lemma length_octets_mots W : length (octets_mots W) = (8 * length W)%nat.
Proof. induction W as [|w W IH]; [done|]. cbn -[le Nat.mul]. rewrite length_app, length_le, IH. lia. Qed.
Lemma take_octets_mots n W : take (8 * n) (octets_mots W) = octets_mots (take n W).
Proof.
  revert W. induction n as [|n IH]; intros [|w W]; [done..|].
  cbn -[le Nat.mul take]. rewrite take_app_ge by (rewrite length_le; lia).
  cbn -[le Nat.mul]. f_equal. rewrite length_le, <- IH. f_equal. lia.
Qed.

Lemma octets_mots_coupe W k w : W !! k = Some w ->
  octets_mots W = octets_mots (take k W) ++ le 8 w ++ octets_mots (drop (S k) W).
Proof.
  intros Hk. rewrite <- (take_drop_middle W k w Hk) at 1. by rewrite octets_mots_app.
Qed.

(** [l[a:b]], total. *)
Definition segment (l : list Z) (a b : nat) : list Z := take (b - a) (drop a l).

Lemma segment_mid (x y z : list Z) i j : length x = i -> (i + length y = j)%nat -> segment (x ++ y ++ z) i j = y.
Proof.
  intros <- <-. unfold segment. rewrite drop_app_length.
  replace (length x + length y - length x)%nat with (length y) by lia. apply take_app_length.
Qed.

(** [copy(l[off:], b)] inside the bounds. *)
Definition poser {A} (l : list A) (off : nat) (b : list A) : list A :=
  take off l ++ b ++ drop (off + length b) l.

Lemma length_poser {A} (l : list A) off b :
  (off + length b <= length l)%nat -> length (poser l off b) = length l.
Proof. intros H. unfold poser. rewrite !length_app, length_take, length_drop. lia. Qed.

(** ** Byte strings *)

(** The octets of a Go string literal. *)
Definition octets (s : string) : list Z :=
  (fun a => Z.of_N (Ascii.N_of_ascii a)) <$> String.list_ascii_of_string s.

(** [bytes.Equal], [bytes.HasPrefix], [bytes.Contains]. *)
Definition egaux (a b : list Z) : bool := bool_decide (a = b).
Fixpoint prefixe (m l : list Z) : bool :=
  match m, l with
  | [], _ => true
  | x :: m, y :: l => (x =? y) && prefixe m l
  | _ :: _, [] => false
  end.
Fixpoint contient (m l : list Z) : bool :=
  prefixe m l || match l with [] => false | _ :: l => contient m l end.

Lemma prefixe_spec m l : prefixe m l = true <-> exists r, l = m ++ r.
Proof.
  revert l. induction m as [|x m IH]; intros l; simpl; [split; [by exists l|done]|].
  destruct l as [|y l]; [split; [done|by intros [r ?]]|].
  rewrite andb_true_iff, IH, Z.eqb_eq. split.
  - intros [-> [r ->]]. by exists r.
  - intros [r [= -> ->]]. split; [done|]. by exists r.
Qed.

Lemma contient_spec m l : contient m l = true <-> exists a r, l = a ++ m ++ r.
Proof.
  induction l as [|y l IH]; simpl; rewrite orb_true_iff, prefixe_spec.
  - split; [intros [[r Hr]|]; [by exists [], r|done]|]. intros (a & r & Hr). left.
    destruct a; [by exists r|done].
  - rewrite IH. split.
    + intros [[r Hr]|(a & r & ->)]; [by exists [], r|by exists (y :: a), r].
    + intros ([|z a] & r & Hr); [left; by exists r|right]. injection Hr as -> ->. by exists a, r.
Qed.

Lemma octets_ok s : bytes_ok (octets s).
Proof.
  unfold octets, bytes_ok. apply Forall_fmap, Forall_forall. intros a _. unfold is_u8; simpl.
  pose proof (Ascii.N_ascii_bounded a). lia.
Qed.

(** * 4. Loops *)

(** [for { body }]: the body either continues with a new state or returns. *)
Section loop.
Context {S R : Type} (body : S -> run (S + R)).

Fixpoint loop (fuel : nat) (s : S) : run R :=
  match fuel with
  | O => Fuel
  | Datatypes.S n =>
      o ← body s;
      match o with inl s' => loop n s' | inr r => Done r end
  end.

(** Total correctness rule: an invariant and a variant bounded by the fuel. *)
Lemma wp_loop (I : S -> Prop) (m : S -> Z) (Q : R -> Prop) :
  (forall s, I s ->
     wp (body s) (fun o => match o with
                           | inl s' => I s' /\ 0 <= m s' < m s
                           | inr r => Q r end)) ->
  forall fuel s, I s -> 0 <= m s < Z.of_nat fuel -> wp (loop fuel s) Q.
Proof.
  intros Hbody fuel. induction fuel as [|n IH]; intros s HI Hm; [lia|].
  simpl. apply wp_bind. eapply wp_mono; [by apply Hbody|].
  intros [s'|r]; simpl; [|done]. intros [HI' Hm']. apply IH; [done|lia].
Qed.

Lemma loop_mono n s r : loop n s = Done r -> forall k, loop (n + k)%nat s = Done r.
Proof.
  revert s. induction n as [|n IH]; intros s; simpl; [done|].
  unfold mbind, run_bind. destruct (body s) as [[s'|r']| |]; try done.
  intros H k. by apply IH.
Qed.

Lemma loop_unfold n s :
  loop (Datatypes.S n) s =
  (o ← body s; match o with inl s' => loop n s' | inr r => Done r end).
Proof. done. Qed.
End loop.

(** Two loops in lock step, under the rule of [wp_loop]. *)
Lemma wp2_loop {S1 R1 S2 R2} (b1 : S1 -> run (S1 + R1)) (b2 : S2 -> run (S2 + R2))
    (I : S1 -> S2 -> Prop) (m : S1 -> Z) (Q : R1 -> R2 -> Prop) :
  (forall s1 s2, I s1 s2 ->
     wp2 (b1 s1) (b2 s2) (fun o1 o2 =>
       match o1, o2 with
       | inl s1', inl s2' => I s1' s2' /\ 0 <= m s1' < m s1
       | inr r1, inr r2 => Q r1 r2
       | _, _ => False end)) ->
  forall fuel s1 s2, I s1 s2 -> 0 <= m s1 < Z.of_nat fuel ->
  wp2 (loop b1 fuel s1) (loop b2 fuel s2) Q.
Proof.
  intros Hb fuel. induction fuel as [|n IH]; intros s1 s2 HI Hm; [lia|].
  simpl. apply wp2_bind. eapply wp2_mono; [by apply Hb|].
  intros [s1'|r1] [s2'|r2]; try done. intros [HI' Hm']. apply IH; [done|lia].
Qed.

(** [for i := range n { ... }] whose body may break out or return with [inr]. *)
Section for_range.
Context {S R : Type} (body : Z -> S -> run (S + R)).

Fixpoint for_from (i : Z) (n : nat) (s : S) : run (S + R) :=
  match n with
  | O => Done (inl s)
  | Datatypes.S n' =>
      o ← body i s;
      match o with inl s' => for_from (i + 1) n' s' | inr r => Done (inr r) end
  end.

Lemma wp_for_from (I : Z -> S -> Prop) (Q : S + R -> Prop) (i : Z) (n : nat) (s : S) :
  I i s ->
  (forall j s', i <= j < i + Z.of_nat n -> I j s' ->
     wp (body j s') (fun o => match o with
                              | inl s'' => I (j + 1) s''
                              | inr r => Q (inr r) end)) ->
  (forall s', I (i + Z.of_nat n) s' -> Q (inl s')) ->
  wp (for_from i n s) Q.
Proof.
  revert i s. induction n as [|n IH]; intros i s HI Hb HQ; simpl.
  - apply HQ. by rewrite Z.add_0_r.
  - apply wp_bind. eapply wp_mono; [apply Hb; [lia|done]|].
    intros [s'|r]; [|done]. intros HI'. apply IH; [done| |].
    + intros j s'' Hj. apply Hb. lia.
    + intros s'' H. apply HQ. by replace (i + Z.of_nat (Datatypes.S n))
        with (i + 1 + Z.of_nat n) by lia.
Qed.
End for_range.

Definition for_range {S R} (n : Z) (s : S) (body : Z -> S -> run (S + R)) : run (S + R) :=
  for_from body 0 (Z.to_nat n) s.

Lemma wp_for_range {S R} (I : Z -> S -> Prop) (Q : S + R -> Prop) n s
    (body : Z -> S -> run (S + R)) :
  0 <= n -> I 0 s ->
  (forall j s', 0 <= j < n -> I j s' ->
     wp (body j s') (fun o => match o with
                              | inl s'' => I (j + 1) s''
                              | inr r => Q (inr r) end)) ->
  (forall s', I n s' -> Q (inl s')) ->
  wp (for_range n s body) Q.
Proof.
  intros Hn HI Hb HQ. unfold for_range. eapply wp_for_from; [exact HI| |].
  - intros j s' Hj. apply Hb. lia.
  - intros s'. rewrite Z.add_0_l, Z2Nat.id by lia. apply HQ.
Qed.

(** [for i, x := range l { ... }], structurally on the list. *)
Fixpoint parcourir {S R X} (f : Z -> X -> S -> run (S + R)) (i : Z) (l : list X) (s : S) : run (S + R) :=
  match l with
  | [] => Done (inl s)
  | x :: l =>
      o ← f i x s;
      match o with inl s' => parcourir f (i + 1) l s' | inr r => Done (inr r) end
  end.

Lemma for_from_liste {S R X} (f : Z -> X -> S -> run (S + R)) l2 : forall l1 i s, i = zlen l1 ->
  for_from (fun i s => x ← idx (l1 ++ l2) i; f i x s) i (length l2) s = parcourir f i l2 s.
Proof.
  induction l2 as [|x l2 IH]; intros l1 i s Hi; [done|]. cbn [length for_from parcourir].
  rewrite idx_mid, run_bind_done by done. destruct (f i x s) as [[s'|r]| |]; cbn; try done.
  specialize (IH (l1 ++ [x]) (i + 1) s'). rewrite <- app_assoc in IH. cbn [app] in IH. apply IH.
  rewrite zlen_app, zlen_cons, zlen_nil. lia.
Qed.

Lemma for_range_liste {S R X} (f : Z -> X -> S -> run (S + R)) l s :
  for_range (zlen l) s (fun i s => x ← idx l i; f i x s) = parcourir f 0 l s.
Proof. unfold for_range, zlen. rewrite Nat2Z.id. by apply (for_from_liste f l []). Qed.

Lemma for_from_ext {S R} (f g : Z -> S -> run (S + R)) n : forall i s,
  (forall j t, i <= j < i + Z.of_nat n -> f j t = g j t) -> for_from f i n s = for_from g i n s.
Proof.
  induction n as [|n IH]; intros i s H; [done|]. cbn [for_from]. rewrite H by lia.
  destruct (g i s) as [[t|r]| |]; cbn; try done. apply IH. intros j u Hj. apply H. lia.
Qed.

(** * 5. Automation *)
Create HintDb c2 discriminated.
#[export] Hint Resolve u8_range u16_range u32_range u64_range i64_range : c2.
#[export] Hint Resolve zlen_nonneg bytes_ok_take bytes_ok_drop bytes_ok_app bytes_ok_insert : c2.

(** Boolean comparisons of [Z] in the context and goal become propositions. *)
Ltac zbool :=
  repeat match goal with
  | H : _ && _ = true |- _ => apply andb_true_iff in H; destruct H
  | H : _ || _ = false |- _ => apply orb_false_iff in H; destruct H
  | H : negb _ = true |- _ => apply negb_true_iff in H
  | H : negb _ = false |- _ => apply negb_false_iff in H
  | H : (_ <? _) = true |- _ => apply Z.ltb_lt in H
  | H : (_ <? _) = false |- _ => apply Z.ltb_ge in H
  | H : (_ <=? _) = true |- _ => apply Z.leb_le in H
  | H : (_ <=? _) = false |- _ => apply Z.leb_gt in H
  | H : (_ =? _) = true |- _ => apply Z.eqb_eq in H
  | H : (_ =? _) = false |- _ => apply Z.eqb_neq in H
  end.

Ltac wp_ret := first [apply wp_ret | apply wp_done].

(** One step of a [wp] goal: bind, conditional, return. *)
Ltac wp_step :=
  lazymatch goal with
  | |- wp (mbind _ _) _ => apply wp_bind
  | |- wp (if ?b then _ else _) _ => let E := fresh "Hc" in destruct b eqn:E; zbool
  | |- wp (mret _) _ => apply wp_ret
  | |- wp (Done _) _ => apply wp_done
  | |- wp (let '(_, _) := ?p in _) _ => destruct p
  end.
Ltac wp_steps := repeat wp_step.

(** Linear arithmetic with [/] and [mod] by constants. *)
Ltac divlia := Z.to_euclidean_division_equations; lia.

(** Same guard on both sides of a lock-step goal. *)
Ltac wp2_if :=
  match goal with
  | |- wp2 (if ?b then _ else _) (if ?b then _ else _) _ =>
      let E := fresh "Hc" in destruct b eqn:E; zbool
  end.

(** Evaluate the guard at the head of an equation when [lia] decides it. *)
Ltac zif :=
  lazymatch goal with
  | |- (if ?c then _ else _) = _ =>
      let E := fresh "Hc" in destruct c eqn:E; zbool; try (exfalso; lia); try clear E
  end.

(** Exclusive or stays within its width. *)
Lemma bits_above a n i : 0 <= n <= i -> 0 <= a < 2 ^ n -> Z.testbit a i = false.
Proof.
  intros Hi Ha. rewrite <- (Z.mod_small a (2 ^ n)) by lia. apply Z.mod_pow2_bits_high. lia.
Qed.

Lemma lxor_range a b n :
  0 <= n -> 0 <= a < 2 ^ n -> 0 <= b < 2 ^ n -> 0 <= Z.lxor a b < 2 ^ n.
Proof.
  intros Hn Ha Hb. assert (Z.lxor a b = Z.lxor a b mod 2 ^ n) as ->.
  - apply Z.bits_inj'. intros i Hi. destruct (Z.ltb_spec i n).
    + by rewrite Z.mod_pow2_bits_low.
    + rewrite Z.mod_pow2_bits_high, Z.lxor_spec, (bits_above a n), (bits_above b n) by lia. done.
  - apply Z.mod_pos_bound. lia.
Qed.
