(* ===== verification/Texte.v ===== *)
(** Text as the Go standard library handles it: search of a byte, decimal integers,
    words and lines; with the decimal parsers of
    src/internal/cinetique/capteur_proc_linux.go and the two loops, over words and
    over lines, that its readers of /proc repeat.  The theorems say that the parsers
    read exactly the decimal integers that fit, and that the loops visit exactly the
    words and the lines. *)
From stdpp Require Import list_numbers.
From S2P Require Import Prelude.
Local Open Scope Z_scope.

(** * The standard library *)

(** [bytes.IndexByte] and [bytes.LastIndexByte] *)
Fixpoint IndexByte_de (l : list Z) (c i : Z) : Z :=
  match l with [] => -1 | o :: r => if o =? c then i else IndexByte_de r c (i + 1) end.
Definition IndexByte (l : list Z) (c : Z) : Z := IndexByte_de l c 0.
Fixpoint LastIndexByte_de (l : list Z) (c i acc : Z) : Z :=
  match l with [] => acc | o :: r => LastIndexByte_de r c (i + 1) (if o =? c then i else acc) end.
Definition LastIndexByte (l : list Z) (c : Z) : Z := LastIndexByte_de l c 0 (-1).

(** [strconv.AppendUint(nil, z, 10)] and [strconv.AppendInt(nil, z, 10)], on 64 bits. *)
Fixpoint ecrire (n : nat) (z : Z) : list Z :=
  match n with
  | O => []
  | S n => if z <? 10 then [48 + z] else ecrire n (z / 10) ++ [48 + z mod 10]
  end.
Definition AppendUint (z : Z) : list Z := ecrire 20 z.
Definition AppendInt (z : Z) : list Z := if z <? 0 then 45 :: AppendUint (- z) else AppendUint z.

Definition chiffre (c : Z) : bool := (48 <=? c) && (c <=? 57).
Definition valeur_de (acc : Z) (l : list Z) : Z := fold_left (fun a c => a * 10 + (c - 48)) l acc.
Definition valeur (l : list Z) : Z := valeur_de 0 l.

(** [strconv.Atoi], without the text of its errors. *)
Definition Atoi (l : list Z) : option Z :=
  let '(negatif, l) := match l with 45 :: r => (true, r) | 43 :: r => (false, r) | _ => (false, l) end in
  if (0 <? zlen l) && forallb chiffre l then
    let z := if negatif then - valeur l else valeur l in
    if (- 2 ^ 63 <=? z) && (z <? 2 ^ 63) then Some z else None
  else None.

(** [strings.SplitSeq(s, c)] for one byte: never empty. *)
Fixpoint Split (c : Z) (l : list Z) : list (list Z) :=
  match l with
  | [] => [[]]
  | o :: r => match Split c r with
              | m :: q => if o =? c then [] :: m :: q else (o :: m) :: q
              | [] => [[o]]
              end
  end.

(** * The decimal parsers *)

Fixpoint lire_chiffres (octets : list Z) (acc : Z) : option Z :=
  match octets with
  | [] => Some acc
  | c :: octets =>
      if (c <? 48) || (57 <? c) then None else
      let chiffre := u8 (c - 48) in
      if u64 (18446744073709551615 - chiffre) / 10 <? acc then None else
      lire_chiffres octets (u64 (u64 (acc * 10) + chiffre))
  end.
Definition parserUintDecimal (octets : list Z) : option Z :=
  if zlen octets =? 0 then None else lire_chiffres octets 0.

Definition parserIntDecimal (octets : list Z) : run (option Z) :=
  if zlen octets =? 0 then Done None else
  o ← idx octets 0;
  octets' ← (if o =? 45 then slice octets 1 (zlen octets) else Done octets);
  match parserUintDecimal octets' with
  | Some mag => if 9223372036854775807 <? mag then Done None else Done (Some (if o =? 45 then i64 (- i64 mag) else i64 mag))
  | None => Done None
  end.

Definition parserCentiemesFixes (octets : list Z) : run (option Z) :=
  let point := IndexByte octets 46 in
  if (point <=? 0) || negb (point + 3 =? zlen octets) then Done None else
  a ← slice octets 0 point;
  b ← slice octets (point + 1) (zlen octets);
  match parserUintDecimal a, parserUintDecimal b with
  | Some entier, Some frac => if 1000 <? entier then Done None else Done (Some (u32 (u64 (entier * 100 + frac))))
  | _, _ => Done None
  end.

(** [for i < len(l) && p(l[i]) { i++ }] *)
Fixpoint compter (p : Z -> bool) (l : list Z) : Z :=
  match l with c :: l => if p c then 1 + compter p l else 0 | [] => 0 end.
Definition avancer (p : Z -> bool) (l : list Z) (i : Z) : Z := i + compter p (drop (Z.to_nat i) l).

Definition extrairePremierUintApresDeuxPoints (reste : list Z) : run (option Z) :=
  let i := avancer (fun c => (c =? 32) || (c =? 9)) reste 0 in
  if zlen reste <=? i then Done None else
  let fin := avancer chiffre reste i in
  if fin =? i then Done None else
  m ← slice reste i fin;
  Done (parserUintDecimal m).

(** * The loops over words and lines *)

(** The loop over the words, separated by spaces; the body may stop it. *)
Definition tour_mots {S E} (l : list Z) (corps : list Z -> S -> run (S + E)) : Z * S -> run (Z * S + (S + E)) := fun '(curseur, s) =>
  if zlen l <=? curseur then Done (inr (inl s)) else
  let curseur := avancer (fun c => c =? 32) l curseur in
  if zlen l <=? curseur then Done (inr (inl s)) else
  let fin := avancer (fun c => negb (c =? 32)) l curseur in
  jeton ← slice l curseur fin;
  o ← corps jeton s;
  match o with inl s => Done (inl (fin, s)) | inr e => Done (inr (inr e)) end.
Definition par_mots {S E} (l : list Z) (corps : list Z -> S -> run (S + E)) (s : S) : run (S + E) :=
  loop (tour_mots l corps) (Datatypes.S (length l)) (0, s).

(** The loop over the lines; [tronque] when no line ends. *)
Definition tour_lignes {S E} (tronque : E) (l : list Z) (corps : list Z -> S -> run (S * option E)) : Z * S -> run (Z * S + S * option E) := fun '(curseur, s) =>
  if zlen l <=? curseur then Done (inr (s, None)) else
  reste ← slice l curseur (zlen l);
  let finLigne := IndexByte reste 10 in
  if finLigne <? 0 then Done (inr (s, Some tronque)) else
  ligne ← slice l curseur (curseur + finLigne);
  let curseur := curseur + finLigne + 1 in
  '(s, e) ← corps ligne s;
  match e with None => Done (inl (curseur, s)) | Some e => Done (inr (s, Some e)) end.
Definition par_lignes {S E} (tronque : E) (l : list Z) (corps : list Z -> S -> run (S * option E)) (s : S) : run (S * option E) :=
  loop (tour_lignes tronque l corps) (Datatypes.S (length l)) (0, s).

(** * Search of a byte *)

Lemma IndexByte_de_absent l c i : c ∉ l -> IndexByte_de l c i = -1.
Proof.
  revert i. induction l as [|x l IH]; intros i Hc; [done|]. cbn [IndexByte_de].
  destruct (Z.eqb_spec x c); [set_solver|]. apply IH. set_solver.
Qed.

Lemma IndexByte_absent l c : c ∉ l -> IndexByte l c = -1.
Proof. apply IndexByte_de_absent. Qed.

Lemma IndexByte_spec a c b : c ∉ a -> IndexByte (a ++ c :: b) c = zlen a.
Proof.
  intros Hc. unfold IndexByte. replace (zlen a) with (0 + zlen a) by lia. revert Hc. generalize 0 as i.
  induction a as [|x a IH]; intros i Hc; cbn [app IndexByte_de].
  - rewrite Z.eqb_refl. change (zlen (@nil Z)) with 0. lia.
  - destruct (Z.eqb_spec x c); [set_solver|]. rewrite IH by set_solver. rewrite zlen_cons. lia.
Qed.

Lemma decoupe_premier (c : Z) l : c ∈ l -> exists a b, l = a ++ c :: b /\ c ∉ a.
Proof.
  induction l as [|x l IH]; [by intros ?%elem_of_nil|]. destruct (decide (x = c)) as [-> |Hx]; intros H.
  - exists [], l. split; [done|]. apply not_elem_of_nil.
  - destruct IH as (a & b & -> & Ha); [set_solver|]. exists (x :: a), b. split; [done|]. set_solver.
Qed.

Lemma LastIndexByte_de_absent l c i acc : c ∉ l -> LastIndexByte_de l c i acc = acc.
Proof.
  revert i acc. induction l as [|x l IH]; intros i acc Hc; simpl; [done|].
  rewrite IH by set_solver. destruct (Z.eqb_spec x c); [set_solver|done].
Qed.

Lemma LastIndexByte_spec a c b : c ∉ b -> LastIndexByte (a ++ c :: b) c = zlen a.
Proof.
  intros Hc. unfold LastIndexByte. replace (zlen a) with (0 + zlen a) by lia.
  generalize 0 as i, (-1) as acc. induction a as [|x a IH]; intros i acc; simpl.
  - rewrite Z.eqb_refl, LastIndexByte_de_absent by done. rewrite zlen_nil. lia.
  - rewrite IH, zlen_cons. lia.
Qed.

(** * Decimal integers *)

Lemma valeur_de_app acc a b : valeur_de acc (a ++ b) = valeur_de (valeur_de acc a) b.
Proof. apply fold_left_app. Qed.

Lemma valeur_de_croit l acc : 0 <= acc -> forallb chiffre l = true -> acc <= valeur_de acc l.
Proof.
  revert acc. induction l as [|c l IH]; intros acc Ha Hl; [cbn; lia|]. cbn in Hl |- *. unfold chiffre in Hl at 1. zbool.
  specialize (IH (acc * 10 + (c - 48)) ltac:(lia) ltac:(done)). unfold valeur_de in IH. lia.
Qed.

Lemma lire_chiffres_ok l acc : is_u64 acc ->
  lire_chiffres l acc = if forallb chiffre l && (valeur_de acc l <? 2 ^ 64) then Some (valeur_de acc l) else None.
Proof.
  revert acc. induction l as [|c l IH]; intros acc Ha; unfold is_u64 in *.
  - cbn -[Z.pow]. by destruct (Z.ltb_spec acc (2 ^ 64)); [|lia].
  - cbn [lire_chiffres forallb]. unfold chiffre at 1.
    destruct (Z.ltb_spec c 48), (Z.ltb_spec 57 c), (Z.leb_spec 48 c), (Z.leb_spec c 57); try lia; cbn [orb andb]; try done.
    rewrite (u8_id (c - 48)), u64_id by (unfold is_u8, is_u64; lia).
    change (valeur_de acc (c :: l)) with (valeur_de (acc * 10 + (c - 48)) l).
    destruct (Z.ltb_spec ((18446744073709551615 - (c - 48)) / 10) acc) as [Hd|Hd].
    + destruct (forallb chiffre l) eqn:El; [|done]. cbn [andb].
      pose proof (valeur_de_croit l (acc * 10 + (c - 48)) ltac:(lia) El).
      destruct (Z.ltb_spec (valeur_de (acc * 10 + (c - 48)) l) (2 ^ 64)); [divlia|done].
    + assert (acc * 10 + (c - 48) < 2 ^ 64) by divlia.
      rewrite (u64_id (acc * 10)), u64_id by (unfold is_u64; lia). rewrite IH by lia. done.
Qed.

Lemma parserUintDecimal_ok l : parserUintDecimal l =
  if (0 <? zlen l) && forallb chiffre l && (valeur l <? 2 ^ 64) then Some (valeur l) else None.
Proof.
  unfold parserUintDecimal. pose proof (zlen_nonneg l). rewrite lire_chiffres_ok by (split; lia). fold (valeur l).
  destruct (Z.eqb_spec (zlen l) 0), (Z.ltb_spec 0 (zlen l)); try lia; done.
Qed.

Lemma ecrire_decimal_ok n z : 0 <= z < 10 ^ Z.of_nat n -> (0 < n)%nat -> ecrire n z <> [] /\ forallb chiffre (ecrire n z) = true /\ valeur (ecrire n z) = z.
Proof.
  revert z. induction n as [|n IH]; intros z Hz Hn; [lia|]. cbn [ecrire].
  destruct (Z.ltb_spec z 10).
  - split; [done|]. unfold chiffre, valeur. cbn [forallb andb valeur_de fold_left].
    destruct (Z.leb_spec 48 (48 + z)), (Z.leb_spec (48 + z) 57); lia.
  - rewrite Nat2Z.inj_succ, Z.pow_succ_r in Hz by lia.
    assert (0 < n)%nat by (destruct n; [change (10 ^ Z.of_nat 0) with 1 in Hz|]; lia).
    destruct (IH (z / 10)) as (_ & H1 & H2); [split; [apply Z.div_pos; lia|apply Z.div_lt_upper_bound; lia]|done|].
    split; [by destruct (ecrire n (z / 10))|]. unfold valeur in *. rewrite forallb_app, valeur_de_app, H1, H2.
    cbn [forallb andb valeur_de fold_left]. unfold chiffre.
    destruct (Z.leb_spec 48 (48 + z mod 10)), (Z.leb_spec (48 + z mod 10) 57); [|exfalso; divlia..]. split; [done|]. cbn. divlia.
Qed.

Lemma AppendUint_ok z : is_u64 z -> AppendUint z <> [] /\ forallb chiffre (AppendUint z) = true /\ valeur (AppendUint z) = z.
Proof. intros Hz. apply ecrire_decimal_ok; [|lia]. unfold is_u64 in Hz. change (10 ^ Z.of_nat 20) with 100000000000000000000. lia. Qed.

Lemma zlen_pos {A} (l : list A) : l <> [] -> 0 < zlen l.
Proof. destruct l; [done|]. rewrite zlen_cons. pose proof (zlen_nonneg l). lia. Qed.

Lemma parserUintDecimal_AppendUint z : is_u64 z -> parserUintDecimal (AppendUint z) = Some z.
Proof.
  intros Hz. destruct (AppendUint_ok z Hz) as (H1 & H2 & H3). rewrite parserUintDecimal_ok, H2, H3.
  apply zlen_pos in H1. unfold is_u64 in Hz. by destruct (Z.ltb_spec 0 (zlen (AppendUint z))), (Z.ltb_spec z (2 ^ 64)); [|lia..].
Qed.

Lemma chiffre_pas c l d : forallb chiffre l = true -> chiffre d = false -> c ∈ l -> c <> d.
Proof. intros Hl Hd Hc ->. rewrite forallb_forall in Hl. apply list_elem_of_In in Hc. by rewrite Hl in Hd. Qed.

Lemma AppendUint_sans z c : is_u64 z -> chiffre c = false -> c ∉ AppendUint z.
Proof. intros Hz Hc H. destruct (AppendUint_ok z Hz) as (_ & H2 & _). by destruct (chiffre_pas c _ c H2 Hc H). Qed.

Lemma slice_tout_sauf_tete {A} (x : A) l : slice (x :: l) 1 (zlen (x :: l)) = Done l.
Proof.
  unfold slice. rewrite zlen_cons. pose proof (zlen_nonneg l).
  destruct (Z.leb_spec 0 1), (Z.leb_spec 1 (1 + zlen l)), (Z.leb_spec (1 + zlen l) (1 + zlen l)); try lia; cbn [andb].
  f_equal. change (Z.to_nat 1) with 1%nat. cbn [drop]. apply take_ge. unfold zlen. lia.
Qed.

Lemma parserIntDecimal_AppendInt z : - 2 ^ 63 < z < 2 ^ 63 -> parserIntDecimal (AppendInt z) = Done (Some z).
Proof.
  intros Hz. unfold AppendInt. destruct (Z.ltb_spec z 0).
  - unfold parserIntDecimal. rewrite zlen_cons. pose proof (zlen_nonneg (AppendUint (- z))).
    destruct (Z.eqb_spec (1 + zlen (AppendUint (- z))) 0); [lia|]. rewrite <- zlen_cons with (x := 45).
    rewrite (idx_lookup _ 0 45) by done. rewrite run_bind_done. cbn [Z.eqb Pos.eqb]. rewrite slice_tout_sauf_tete, run_bind_done.
    rewrite parserUintDecimal_AppendUint by (unfold is_u64; lia). destruct (Z.ltb_spec 9223372036854775807 (- z)); [lia|].
    rewrite (i64_id (- z)) by (unfold is_i64; lia). by rewrite Z.opp_involutive, i64_id by (unfold is_i64; lia).
  - assert (Hu : is_u64 z) by (unfold is_u64; lia). destruct (AppendUint_ok z Hu) as (H1 & H2 & H3).
    unfold parserIntDecimal. apply zlen_pos in H1 as H1'. destruct (Z.eqb_spec (zlen (AppendUint z)) 0); [lia|].
    destruct (AppendUint z) as [|c l] eqn:E; [done|]. rewrite (idx_lookup _ 0 c) by done. rewrite run_bind_done.
    destruct (Z.eqb_spec c 45) as [-> |_]; [done|]. rewrite run_bind_done, <- E, parserUintDecimal_AppendUint by done.
    destruct (Z.ltb_spec 9223372036854775807 z); [lia|]. by rewrite i64_id by (unfold is_i64; lia).
Qed.

(** ** The number at the end of a line *)

Lemma compter_app p a b : forallb p a = true -> match b with [] => true | c :: _ => negb (p c) end = true -> compter p (a ++ b) = zlen a.
Proof.
  intros Ha Hb. induction a as [|c a IH]; cbn [app compter forallb] in *.
  - destruct b as [|c b]; [done|]. apply negb_true_iff in Hb. by cbn; rewrite Hb.
  - apply andb_true_iff in Ha as [-> Ha]. rewrite IH by done. by rewrite zlen_cons.
Qed.

Lemma avancer_app p pre a b i : i = zlen pre -> forallb p a = true -> match b with [] => true | c :: _ => negb (p c) end = true ->
  avancer p (pre ++ a ++ b) i = i + zlen a.
Proof. intros -> Ha Hb. unfold avancer, zlen at 2. rewrite Nat2Z.id, drop_app_length. by rewrite compter_app. Qed.

Lemma slice_milieu {A} (a b c : list A) i j : i = zlen a -> j = i + zlen b -> slice (a ++ b ++ c) i j = Done b.
Proof.
  intros -> ->. unfold slice. rewrite !zlen_app. pose proof (zlen_nonneg a). pose proof (zlen_nonneg b). pose proof (zlen_nonneg c).
  destruct (Z.leb_spec 0 (zlen a)), (Z.leb_spec (zlen a) (zlen a + zlen b)), (Z.leb_spec (zlen a + zlen b) (zlen a + (zlen b + zlen c))); try lia.
  cbn [andb]. f_equal. replace (zlen a + zlen b - zlen a) with (zlen b) by lia. unfold zlen. rewrite !Nat2Z.id, drop_app_length. apply take_app_length.
Qed.

Definition blancs (l : list Z) : bool := forallb (fun c => (c =? 32) || (c =? 9)) l.

Lemma extraire_ok b z suite : blancs b = true -> is_u64 z -> match suite with [] => true | c :: _ => negb (chiffre c) end = true ->
  extrairePremierUintApresDeuxPoints (b ++ AppendUint z ++ suite) = Done (Some z).
Proof.
  intros Hb Hz Hs. destruct (AppendUint_ok z Hz) as (H1 & H2 & _). unfold extrairePremierUintApresDeuxPoints.
  pose proof (zlen_nonneg suite). apply zlen_pos in H1 as H1'.
  rewrite (avancer_app _ [] b (AppendUint z ++ suite) 0) by (done || (destruct (AppendUint z) as [|c l] eqn:E; [done|];
    cbn in H2 |- *; unfold chiffre in H2 at 1; zbool; destruct (Z.eqb_spec c 32), (Z.eqb_spec c 9); (done || lia))).
  rewrite Z.add_0_l, !zlen_app. destruct (Z.leb_spec (zlen b + (zlen (AppendUint z) + zlen suite)) (zlen b)); [lia|].
  rewrite (avancer_app chiffre b (AppendUint z) suite) by done.
  destruct (Z.eqb_spec (zlen b + zlen (AppendUint z)) (zlen b)); [lia|].
  rewrite slice_milieu by done. rewrite run_bind_done. by rewrite parserUintDecimal_AppendUint.
Qed.

(** ** Hundredths *)

(** A number of hundredths, as "12.34". *)
Definition centiemes (z : Z) : list Z := AppendUint (z / 100) ++ [46; 48 + z mod 100 / 10; 48 + z mod 10].

Lemma parserCentiemesFixes_ok z : 0 <= z <= 100099 -> parserCentiemesFixes (centiemes z) = Done (Some z).
Proof.
  intros Hz. assert (Hu : is_u64 (z / 100)) by (unfold is_u64; divlia). destruct (AppendUint_ok _ Hu) as (H1 & _). apply zlen_pos in H1.
  unfold parserCentiemesFixes, centiemes. rewrite IndexByte_spec by (by apply AppendUint_sans). rewrite zlen_app.
  change (zlen [46; 48 + z mod 100 / 10; 48 + z mod 10]) with 3. destruct (Z.leb_spec (zlen (AppendUint (z / 100))) 0); [lia|].
  rewrite Z.eqb_refl. cbn [orb negb].
  pose proof (slice_milieu [] (AppendUint (z / 100)) [46; 48 + z mod 100 / 10; 48 + z mod 10] 0 (zlen (AppendUint (z / 100))) eq_refl ltac:(lia)) as E1.
  cbn [app] in E1. rewrite E1, run_bind_done.
  pose proof (slice_milieu (AppendUint (z / 100) ++ [46]) [48 + z mod 100 / 10; 48 + z mod 10] [] (zlen (AppendUint (z / 100)) + 1) (zlen (AppendUint (z / 100)) + 3)) as E2.
  rewrite app_nil_r, <- app_assoc in E2. cbn [app] in E2. rewrite E2, run_bind_done;
    [|rewrite zlen_app; change (zlen [46]) with 1; lia|change (zlen [48 + z mod 100 / 10; 48 + z mod 10]) with 2; lia].
  rewrite parserUintDecimal_AppendUint, parserUintDecimal_ok by done.
  change (zlen [48 + z mod 100 / 10; 48 + z mod 10]) with 2. unfold valeur. cbn [forallb valeur_de fold_left]. unfold chiffre.
  assert (0 <= z mod 100 / 10 < 10 /\ 0 <= z mod 10 < 10 /\ z = z / 100 * 100 + z mod 100 / 10 * 10 + z mod 10 /\ z / 100 <= 1000) as (Ha & Hb & Hc & Hd) by divlia.
  destruct (Z.ltb_spec 0 2), (Z.leb_spec 48 (48 + z mod 100 / 10)), (Z.leb_spec (48 + z mod 100 / 10) 57), (Z.leb_spec 48 (48 + z mod 10)),
    (Z.leb_spec (48 + z mod 10) 57); try (exfalso; lia). cbn [andb].
  replace ((0 * 10 + (48 + z mod 100 / 10 - 48)) * 10 + (48 + z mod 10 - 48)) with (z mod 100 / 10 * 10 + z mod 10) by lia.
  destruct (Z.ltb_spec (z mod 100 / 10 * 10 + z mod 10) (2 ^ 64)); [|lia]. destruct (Z.ltb_spec 1000 (z / 100)); [lia|].
  rewrite u64_id, u32_id by (unfold is_u64, is_u32; lia). do 2 f_equal. lia.
Qed.

(** * Words *)

Fixpoint mots_de (courant : list Z) (l : list Z) : list (list Z) :=
  match l with
  | [] => match courant with [] => [] | _ => [courant] end
  | c :: l => if c =? 32 then match courant with [] => mots_de [] l | _ => courant :: mots_de [] l end
              else mots_de (courant ++ [c]) l
  end.
Definition mots : list Z -> list (list Z) := mots_de [].

(** The fold that a body stops. *)
Fixpoint plier {X S E} (f : X -> S -> run (S + E)) (l : list X) (s : S) : run (S + E) :=
  match l with [] => Done (inl s) | x :: l => o ← f x s; match o with inl s => plier f l s | inr e => Done (inr e) end end.

Lemma mots_de_mot w cour r : forallb (fun c => negb (c =? 32)) w = true -> mots_de cour (w ++ r) = mots_de (cour ++ w) r.
Proof.
  revert cour. induction w as [|c w IH]; intros cour Hw; [by rewrite app_nil_r|]. cbn in Hw |- *.
  apply andb_true_iff in Hw as [Hc Hw]. apply negb_true_iff in Hc. rewrite Hc, IH by done. by rewrite <- app_assoc.
Qed.

Lemma mots_blancs b r : forallb (fun c => c =? 32) b = true -> mots (b ++ r) = mots r.
Proof. unfold mots. induction b as [|c b IH]; intros Hb; [done|]. cbn in Hb |- *. apply andb_true_iff in Hb as [-> Hb]. by apply IH. Qed.

Lemma mots_mot w r : w <> [] -> forallb (fun c => negb (c =? 32)) w = true -> match r with [] => true | c :: _ => c =? 32 end = true ->
  mots (w ++ r) = w :: mots r.
Proof.
  intros Hn Hw Hr. unfold mots. rewrite mots_de_mot by done. cbn [app].
  destruct r as [|c r]; cbn [mots_de]; [by destruct w|]. rewrite Hr. by destruct w.
Qed.

(** A list is a maximal run of [p], then something else. *)
Lemma coupe_p (p : Z -> bool) l : exists a b, l = a ++ b /\ forallb p a = true /\ match b with [] => true | c :: _ => negb (p c) end = true.
Proof.
  induction l as [|c l (a & b & -> & Ha & Hb)]; [by exists [], []|]. destruct (p c) eqn:E.
  - exists (c :: a), b. cbn. by rewrite E.
  - exists [], (c :: a ++ b). cbn. by rewrite E.
Qed.

Lemma zlen_eq0 {A} (l : list A) : zlen l <= 0 -> l = [].
Proof. destruct l; [done|]. rewrite zlen_cons. pose proof (zlen_nonneg l). lia. Qed.

Lemma par_mots_boucle {S E} (corps : list Z -> S -> run (S + E)) l fuel : forall pre reste s, l = pre ++ reste -> (length reste < fuel)%nat ->
  loop (tour_mots l corps) fuel (zlen pre, s) = plier corps (mots reste) s.
Proof.
  induction fuel as [|fuel IH]; intros pre reste s Hl Hf; [lia|]. rewrite loop_unfold. cbn [tour_mots].
  destruct (coupe_p (fun c => c =? 32) reste) as (b & r & -> & Hb & Hr). rewrite mots_blancs by done.
  assert (Ez : zlen l = zlen pre + (zlen b + zlen r)) by (by rewrite Hl, !zlen_app). rewrite Ez.
  pose proof (zlen_nonneg b). pose proof (zlen_nonneg r).
  destruct (Z.leb_spec (zlen pre + (zlen b + zlen r)) (zlen pre)); [by rewrite (zlen_eq0 r) by lia|].
  assert (E1 : avancer (fun c => c =? 32) l (zlen pre) = zlen pre + zlen b) by (rewrite Hl; by apply avancer_app). rewrite E1. cbv zeta.
  destruct (Z.leb_spec (zlen pre + (zlen b + zlen r)) (zlen pre + zlen b)); [by rewrite (zlen_eq0 r) by lia|].
  destruct (coupe_p (fun c => negb (c =? 32)) r) as (w & r' & -> & Hw & Hr').
  assert (Ep : zlen pre + zlen b = zlen (pre ++ b)) by (by rewrite zlen_app). rewrite app_assoc in Hl.
  assert (E2 : avancer (fun c => negb (c =? 32)) l (zlen pre + zlen b) = zlen pre + zlen b + zlen w) by (rewrite Hl; by apply avancer_app).
  assert (E3 : slice l (zlen pre + zlen b) (zlen pre + zlen b + zlen w) = Done w) by (rewrite Hl; by apply slice_milieu).
  rewrite E2, E3, run_bind_done.
  assert (w <> []) by (intros ->; destruct r' as [|c r']; [change (zlen ([] ++ [] : list Z)) with 0 in *; lia|]; cbn in Hr, Hr'; by destruct (c =? 32)).
  rewrite mots_mot by (done || (destruct r' as [|c ?]; [done|]; cbn in Hr'; by rewrite negb_involutive in Hr')). cbn [plier].
  destruct (corps w s) as [[s'|e]| |]; [|done..]. rewrite !run_bind_done.
  replace (zlen pre + zlen b + zlen w) with (zlen ((pre ++ b) ++ w)) by (by rewrite !zlen_app). apply IH; [by rewrite Hl, <- !app_assoc|].
  rewrite !length_app in Hf. destruct w; [done|]. cbn in Hf. lia.
Qed.

Lemma par_mots_ok {S E} (corps : list Z -> S -> run (S + E)) l s : par_mots l corps s = plier corps (mots l) s.
Proof. apply (par_mots_boucle corps l (Datatypes.S (length l)) [] l s); [done|]. lia. Qed.

(** * Lines *)

Definition lignes (ls : list (list Z)) : list Z := concat ((fun x => x ++ [10]) <$> ls).
Fixpoint plier_lignes {S E} (f : list Z -> S -> run (S * option E)) (ls : list (list Z)) (s : S) : run (S * option E) :=
  match ls with
  | [] => Done (s, None)
  | x :: ls => '(s, e) ← f x s; match e with None => plier_lignes f ls s | Some e => Done (s, Some e) end
  end.

(** A text that ends with a line feed is a sequence of lines. *)
Lemma lignes_existe l : exists ls, l ++ [10] = lignes ls /\ Forall (fun x => 10 ∉ x) ls /\ ls <> [].
Proof.
  induction l as [|c l (ls & E & H & Hn)]; [exists [[]]; split_and!; [done|repeat constructor; by apply not_elem_of_nil|done]|].
  destruct ls as [|x ls]; [done|]. destruct (decide (c = 10)) as [-> |Hc].
  - exists ([] :: x :: ls). split_and!; [cbn; by rewrite E|constructor; [by apply not_elem_of_nil|done]|done].
  - exists ((c :: x) :: ls). split_and!; [cbn; by rewrite E|inversion H; subst; constructor; [set_solver|done]|done].
Qed.

Lemma par_lignes_boucle {S E} (t : E) (corps : list Z -> S -> run (S * option E)) l ls : forall pre s fuel,
  l = pre ++ lignes ls -> Forall (fun x => 10 ∉ x) ls -> (length ls < fuel)%nat ->
  loop (tour_lignes t l corps) fuel (zlen pre, s) = plier_lignes corps ls s.
Proof.
  induction ls as [|x ls IH]; intros pre s [|fuel] Hl Hls Hf; cbn [length] in Hf; try lia; rewrite loop_unfold; cbn [tour_lignes plier_lignes].
  - change (lignes []) with (@nil Z) in Hl. rewrite app_nil_r in Hl. subst l. by destruct (Z.leb_spec (zlen pre) (zlen pre)); [|lia].
  - apply Forall_cons in Hls as [Hx Hls]. change (lignes (x :: ls)) with ((x ++ [10]) ++ lignes ls) in Hl. rewrite <- (app_assoc x) in Hl.
    pose proof (zlen_nonneg x). pose proof (zlen_nonneg (lignes ls)).
    assert (E0 : zlen l = zlen pre + (zlen x + (1 + zlen (lignes ls)))) by (by rewrite Hl, !zlen_app).
    destruct (Z.leb_spec (zlen l) (zlen pre)); [lia|].
    assert (E1 : slice l (zlen pre) (zlen l) = Done (x ++ [10] ++ lignes ls)).
    { rewrite E0, Hl. rewrite <- (app_nil_r (x ++ [10] ++ lignes ls)) at 1. apply slice_milieu; [done|]. by rewrite !zlen_app. }
    assert (E2 : slice l (zlen pre) (zlen pre + zlen x) = Done x) by (rewrite Hl; by apply slice_milieu).
    rewrite E1, run_bind_done. cbn [app]. rewrite IndexByte_spec by done.
    destruct (Z.ltb_spec (zlen x) 0); [lia|]. rewrite E2, run_bind_done.
    destruct (corps x s) as [[s' [e|]]| |]; [done| |done..]. rewrite !run_bind_done.
    replace (zlen pre + zlen x + 1) with (zlen (pre ++ x ++ [10])) by (rewrite !zlen_app; change (zlen [10]) with 1; lia).
    apply IH; [by rewrite Hl, <- !app_assoc|done|lia].
Qed.

Lemma par_lignes_ok {S E} (t : E) (corps : list Z -> S -> run (S * option E)) ls s : Forall (fun x => 10 ∉ x) ls ->
  par_lignes t (lignes ls) corps s = plier_lignes corps ls s.
Proof.
  intros H. apply (par_lignes_boucle t corps (lignes ls) ls [] s _ eq_refl H).
  clear. unfold lignes. induction ls as [|x ls IH]; [cbn; lia|]. cbn. rewrite !length_app. cbn. lia.
Qed.
