(* ===== verification/Bits.v ===== *)
(** Bits of 64-bit words: [math/bits] (OnesCount64, Len64, RotateLeft64,
    TrailingZeros64), thermometer words and the counting lemmas they need, and
    the bijective mixer splitmix64 which several parts use. *)
From S2P Require Import Prelude.

(** ** Counting the positions below [n] that satisfy a predicate *)
Definition compter_bits (f : Z -> bool) (n : nat) : Z :=
  somme ((fun i => Z.b2z (f (Z.of_nat i))) <$> List.seq 0 n).

(** [bits.OnesCount64]. *)
Definition OnesCount64 (x : Z) : Z := compter_bits (Z.testbit x) 64.

Lemma compter_bits_S f n : compter_bits f (S n) = compter_bits f n + Z.b2z (f (Z.of_nat n)).
Proof.
  unfold compter_bits. rewrite seq_S, fmap_app, somme_app. cbn. lia.
Qed.

Lemma compter_bits_ext f g n : (forall i, 0 <= i < Z.of_nat n -> f i = g i) -> compter_bits f n = compter_bits g n.
Proof.
  induction n as [|n IH]; intros H; [done|]. rewrite !compter_bits_S, IH by (intros; apply H; lia).
  by rewrite H by lia.
Qed.

Lemma compter_bits_le f g n : (forall i, 0 <= i < Z.of_nat n -> f i = true -> g i = true) ->
  compter_bits f n <= compter_bits g n.
Proof.
  induction n as [|n IH]; intros H; [done|]. rewrite !compter_bits_S.
  assert (compter_bits f n <= compter_bits g n) by (apply IH; intros; apply H; [lia|done]).
  specialize (H (Z.of_nat n) ltac:(lia)). destruct (f _); [rewrite H by done; cbn; lia|]. destruct (g _); cbn; lia.
Qed.

Lemma compter_bits_range f n : 0 <= compter_bits f n <= Z.of_nat n.
Proof.
  induction n as [|n IH]; [done|]. rewrite compter_bits_S. destruct (f _); cbn [Z.b2z]; lia.
Qed.

Lemma compter_bits_nul f n : compter_bits f n = 0 -> forall i, 0 <= i < Z.of_nat n -> f i = false.
Proof.
  induction n as [|n IH]; intros H i Hi; [lia|]. rewrite compter_bits_S in H. pose proof (compter_bits_range f n).
  destruct (decide (i = Z.of_nat n)) as [->|]; [destruct (f (Z.of_nat n)); cbn in H; [lia|done]|].
  apply IH; [|lia]. destruct (f (Z.of_nat n)); cbn in H; lia.
Qed.

Lemma compter_bits_disjoint f g h n :
  (forall i, 0 <= i < Z.of_nat n -> Z.b2z (f i) = Z.b2z (g i) + Z.b2z (h i)) ->
  compter_bits f n = compter_bits g n + compter_bits h n.
Proof.
  induction n as [|n IH]; intros H; [done|]. rewrite !compter_bits_S, IH by (intros; apply H; lia).
  rewrite H by lia. lia.
Qed.

Lemma compter_intervalle f a b n : 0 <= a <= b -> b <= Z.of_nat n ->
  (forall i, 0 <= i < Z.of_nat n -> f i = ((a <=? i) && (i <? b))) -> compter_bits f n = b - a.
Proof.
  intros Ha Hb H. rewrite (compter_bits_ext _ (fun i => (a <=? i) && (i <? b))) by done. clear H.
  cut (compter_bits (fun i => (a <=? i) && (i <? b)) n = Z.max 0 (Z.min b (Z.of_nat n) - a)); [lia|]. clear Hb.
  induction n as [|n IH]; [change (compter_bits _ 0) with 0; lia|].
  rewrite compter_bits_S, IH. destruct (_ && _) eqn:E; cbn [Z.b2z]; lia.
Qed.

Lemma OnesCount64_range x : 0 <= OnesCount64 x <= 64.
Proof. apply (compter_bits_range _ 64). Qed.

Lemma OnesCount64_nonneg x : 0 <= OnesCount64 x.
Proof. apply OnesCount64_range. Qed.

Lemma OnesCount64_nul x : is_u64 x -> OnesCount64 x = 0 -> x = 0.
Proof.
  intros Hx H. apply Z.bits_inj'. intros i Hi. rewrite Z.bits_0. destruct (Z.ltb_spec i 64).
  - by apply (compter_bits_nul _ 64).
  - apply (bits_above x 64); [lia|done].
Qed.

Lemma OnesCount64_lxor_nul x y : is_u64 x -> is_u64 y -> OnesCount64 (Z.lxor x y) = 0 <-> x = y.
Proof.
  intros Hx Hy. split; [|intros ->; by rewrite Z.lxor_nilpotent]. intros H.
  apply OnesCount64_nul in H; [by apply Z.lxor_eq|]. apply (lxor_range _ _ 64); [lia|done..].
Qed.

(** [bits.Len64] (and the narrower variants). *)
Definition Len64 (x : Z) : Z := if x =? 0 then 0 else Z.log2 x + 1.

Lemma Len64_range x n : 0 <= n -> 0 <= x < 2 ^ n -> 0 <= Len64 x <= n.
Proof.
  intros Hn Hx. unfold Len64. destruct (Z.eqb_spec x 0); [lia|].
  pose proof (Z.log2_nonneg x). assert (Z.log2 x < n) by (apply Z.log2_lt_pow2; lia). lia.
Qed.

Lemma Len64_haut x i : 0 <= x -> Len64 x <= i -> Z.testbit x i = false.
Proof.
  intros Hx Hi. unfold Len64 in Hi. destruct (Z.eqb_spec x 0) as [->|]; [by rewrite Z.bits_0|].
  apply Z.bits_above_log2; lia.
Qed.

Lemma Len64_sommet x : 0 < x -> Z.testbit x (Len64 x - 1) = true.
Proof.
  intros Hx. unfold Len64. destruct (Z.eqb_spec x 0); [lia|].
  replace (Z.log2 x + 1 - 1) with (Z.log2 x) by lia. by apply Z.bit_log2.
Qed.

(** [bits.RotateLeft64] and [bits.TrailingZeros64]. *)
Definition RotateLeft64 (x k : Z) : Z :=
  let s := Z.land k 63 in Z.lor (u64 (Z.shiftl x s)) (Z.shiftr x (64 - s)).
Fixpoint zeros_bas (n : nat) (x : Z) : Z :=
  match n with O => 0 | S n => if Z.odd x then 0 else 1 + zeros_bas n (Z.div2 x) end.
Definition TrailingZeros64 (x : Z) : Z := zeros_bas 64 x.

(** ** splitmix64 *)
Definition splitmix64 (x : Z) : Z :=
  let x := u64 (x + 0x9E3779B97F4A7C15) in
  let x := u64 (Z.lxor x (Z.shiftr x 30) * 0xBF58476D1CE4E5B9) in
  let x := u64 (Z.lxor x (Z.shiftr x 27) * 0x94D049BB133111EB) in
  Z.lxor x (Z.shiftr x 31).

Lemma decale_inj k x y : 0 < k -> is_u64 x -> is_u64 y ->
  Z.lxor x (Z.shiftr x k) = Z.lxor y (Z.shiftr y k) -> x = y.
Proof.
  intros Hk Hx Hy H. apply Z.lxor_eq. set (d := Z.lxor x y).
  assert (0 <= d < 2 ^ 64) as Hd by (apply lxor_range; [lia|done..]).
  assert (d = Z.shiftr d k) as E.
  { apply Z.lxor_eq. unfold d. rewrite Z.shiftr_lxor.
    transitivity (Z.lxor (Z.lxor x (Z.shiftr x k)) (Z.lxor y (Z.shiftr y k))); [|by rewrite H, Z.lxor_nilpotent].
    apply Z.bits_inj'. intros i Hi. rewrite !Z.lxor_spec. by destruct (Z.testbit x i), (Z.testbit y i), (Z.testbit _ i), (Z.testbit _ i). }
  rewrite Z.shiftr_div_pow2 in E by lia. pose proof (Z.pow_gt_1 2 k ltac:(lia)).
  destruct (decide (d = 0)); [done|]. pose proof (Z.div_lt d (2 ^ k)). lia.
Qed.

Lemma impair_inj c inv x y : u64 (c * inv) = 1 -> is_u64 x -> is_u64 y -> u64 (x * c) = u64 (y * c) -> x = y.
Proof.
  intros Hc Hx Hy H. assert (forall z, is_u64 z -> u64 (u64 (z * c) * inv) = z) as Hz.
  { intros z Hz. unfold u64 in *. rewrite Zmult_mod_idemp_l, <- Z.mul_assoc, <- Zmult_mod_idemp_r, Hc, Z.mul_1_r.
    by apply Z.mod_small. }
  by rewrite <- (Hz x Hx), <- (Hz y Hy), H.
Qed.

Lemma plus_inj c x y : is_u64 x -> is_u64 y -> u64 (x + c) = u64 (y + c) -> x = y.
Proof.
  intros Hx Hy H. assert (forall z, is_u64 z -> u64 (u64 (z + c) - c) = z) as Hz.
  { intros z Hz. unfold u64. rewrite Zminus_mod_idemp_l. replace (z + c - c) with z by lia. by apply Z.mod_small. }
  by rewrite <- (Hz x Hx), <- (Hz y Hy), H.
Qed.

Lemma decale_u64 k x : 0 <= k -> is_u64 x -> is_u64 (Z.lxor x (Z.shiftr x k)).
Proof.
  intros Hk Hx. apply (lxor_range _ _ 64); [lia|done|]. rewrite Z.shiftr_div_pow2 by lia. unfold is_u64 in Hx.
  pose proof (Z.pow_pos_nonneg 2 k ltac:(lia) Hk). split; [apply Z.div_pos; lia|].
  apply Z.le_lt_trans with x; [|lia]. apply Z.div_le_upper_bound; [lia|]. nia.
Qed.

(** The mixer is a permutation of the 64-bit words: distinct words stay distinct. *)
Lemma splitmix64_inj x y : is_u64 x -> is_u64 y -> splitmix64 x = splitmix64 y -> x = y.
Proof.
  intros Hx Hy H. unfold splitmix64 in H.
  apply decale_inj in H; [|lia|apply u64_range..].
  apply (impair_inj _ 0x319642b2d24d8ec3) in H; [|by vm_compute|apply decale_u64; [lia|apply u64_range]..].
  apply decale_inj in H; [|lia|apply u64_range..].
  apply (impair_inj _ 0x96de1b173f119089) in H; [|by vm_compute|apply decale_u64; [lia|apply u64_range]..].
  apply decale_inj in H; [|lia|apply u64_range..].
  by apply plus_inj in H.
Qed.

Lemma splitmix64_range x : is_u64 (splitmix64 x).
Proof. apply decale_u64; [lia|apply u64_range]. Qed.
