(* ===== verification/Trame.v ===== *)
(** Binary layouts: slices as segments, little-endian fields read back from
    their place, sequences of records, [io.ReadFull]. *)
From S2P Require Import Prelude.

(** A sequence of records written one after the other. *)
Definition section {A} (enc : A -> list Z) (l : list A) : list Z := foldr (fun x acc => enc x ++ acc) [] l.

(** [io.ReadFull]: [n] octets and the rest, or an error. *)
Definition ReadFull (n : nat) (l : list Z) : option (list Z * list Z) :=
  if (n <=? length l)%nat then Some (take n l, drop n l) else None.

(** ** Segments *)

Lemma segment_app_r (x r : list Z) a b n : length x = n -> (n <= a)%nat -> segment (x ++ r) a b = segment r (a - n) (b - n).
Proof.
  intros <- H. unfold segment. rewrite drop_app_ge by done. f_equal. lia.
Qed.
Lemma segment_debut (x r : list Z) b : length x = b -> segment (x ++ r) 0 b = x.
Proof. intros <-. unfold segment. rewrite drop_0, Nat.sub_0_r. apply take_app_length. Qed.

Lemma length_segment (s : list Z) a b : (a <= b <= length s)%nat -> length (segment s a b) = (b - a)%nat.
Proof. intros H. unfold segment. rewrite length_take, length_drop. lia. Qed.

Lemma take_segment (s : list Z) a b : (a <= b)%nat -> take a s ++ segment s a b = take b s.
Proof.
  intros H. unfold segment. rewrite take_take_drop. f_equal. lia.
Qed.

Lemma bytes_ok_segment s a b : bytes_ok s -> bytes_ok (segment s a b).
Proof. intros H. by apply bytes_ok_take, bytes_ok_drop. Qed.

Lemma le_segment s a b n : bytes_ok s -> (a + n = b)%nat -> (b <= length s)%nat ->
  le n (unle (segment s a b)) = segment s a b.
Proof.
  intros Hs <- Hb. pose proof (le_unle _ (bytes_ok_segment s a (a + n) Hs)) as H.
  rewrite length_segment in H by lia. by replace (a + n - a)%nat with n in H by lia.
Qed.

Lemma unle_segment_range s a b n : bytes_ok s -> (a + n = b)%nat -> (b <= length s)%nat ->
  0 <= unle (segment s a b) < 256 ^ Z.of_nat n.
Proof.
  intros Hs <- Hb. pose proof (unle_range _ (bytes_ok_segment s a (a + n) Hs)) as H.
  unfold zlen in H. rewrite length_segment in H by lia. by replace (a + n - a)%nat with n in H by lia.
Qed.

Lemma slice_mid {A} (x y z : list A) a b : a = zlen x -> b = a + zlen y -> slice (x ++ y ++ z) a b = Done y.
Proof.
  intros -> ->. unfold slice. rewrite !zlen_app. pose proof (zlen_nonneg x). pose proof (zlen_nonneg y).
  pose proof (zlen_nonneg z).
  destruct (_ && _) eqn:E; [|exfalso; rewrite !andb_false_iff in E; destruct E as [[E|E]|E]; zbool; lia].
  f_equal. unfold zlen. rewrite Nat2Z.id, drop_app_length.
  replace (Z.to_nat _) with (length y) by lia. apply take_app_length.
Qed.

Lemma slice_fin {A} (x y : list A) a b : a = zlen x -> b = a + zlen y -> slice (x ++ y) a b = Done y.
Proof. intros Ha Hb. pose proof (slice_mid x y [] a b Ha Hb) as H. by rewrite app_nil_r in H. Qed.

(** A slice is a segment. *)
Lemma wp_slice_segment (l : list Z) a b (Q : list Z -> Prop) :
  0 <= a <= b -> b <= zlen l -> Q (segment l (Z.to_nat a) (Z.to_nat b)) -> wp (slice l a b) Q.
Proof.
  intros Ha Hb HQ. apply wp_slice; [done..|]. unfold segment in HQ.
  by replace (Z.to_nat (b - a)) with (Z.to_nat b - Z.to_nat a)%nat by lia.
Qed.

Lemma slice_segment (l : list Z) a b : 0 <= a <= b -> b <= zlen l -> slice l a b = Done (segment l (Z.to_nat a) (Z.to_nat b)).
Proof.
  intros Ha Hb. cut (wp (slice l a b) (fun x => x = segment l (Z.to_nat a) (Z.to_nat b))); [|by apply wp_slice_segment].
  intros (? & -> & ->)%wp_exists. done.
Qed.

(** ** Sections *)

Lemma section_app {A} (enc : A -> list Z) l k : section enc (l ++ k) = section enc l ++ section enc k.
Proof. induction l as [|x l IH]; [done|]. cbn [section foldr app]. unfold section in *. by rewrite <- app_assoc, <- IH. Qed.
Lemma section_snoc {A} (enc : A -> list Z) l x : section enc (l ++ [x]) = section enc l ++ enc x.
Proof. rewrite section_app. cbn [section foldr]. by rewrite app_nil_r. Qed.

Lemma zlen_section {A} (enc : A -> list Z) n l : Forall (fun x => zlen (enc x) = n) l ->
  zlen (section enc l) = n * zlen l.
Proof.
  induction 1 as [|x l Hx _ IH]; [by rewrite Z.mul_0_r|]. cbn [section foldr]. rewrite zlen_app, zlen_cons, Hx.
  unfold section in IH. rewrite IH. lia.
Qed.

Lemma section_coupe {A} (enc : A -> list Z) l i x : l !! i = Some x ->
  section enc l = section enc (take i l) ++ enc x ++ section enc (drop (S i) l).
Proof. intros Hi. rewrite <- (take_drop_middle l i x Hi) at 1. by rewrite section_app. Qed.

Lemma bytes_ok_section {A} (enc : A -> list Z) l : Forall (fun x => bytes_ok (enc x)) l -> bytes_ok (section enc l).
Proof. induction 1; [constructor|]. by apply bytes_ok_app. Qed.

(** ** Exact reads *)

Lemma ReadFull_app n x y : length x = n -> ReadFull n (x ++ y) = Some (x, y).
Proof.
  intros <-. unfold ReadFull. rewrite length_app.
  destruct (Nat.leb_spec (length x) (length x + length y)); [|lia]. by rewrite take_app_length, drop_app_length.
Qed.

Lemma ReadFull_court n l : (length l < n)%nat -> ReadFull n l = None.
Proof. intros H. unfold ReadFull. by destruct (Nat.leb_spec n (length l)); [lia|]. Qed.

(** ** Field by field *)

(** The [k]-th field of a layout, read back at its offset. *)
Lemma segment_champ (ls : list (list Z)) k x a b : ls !! k = Some x -> a = length (concat (take k ls)) ->
  b = (a + length x)%nat -> segment (concat ls) a b = x.
Proof.
  intros Hk -> ->. rewrite <- (take_drop_middle ls k x Hk) at 1. rewrite concat_app. cbn [concat].
  by apply segment_mid.
Qed.

Lemma segment_suivant (s : list Z) a b c : (a <= b <= c)%nat -> segment s a b ++ segment s b c = segment s a c.
Proof.
  intros [Ha Hb]. unfold segment. replace (c - a)%nat with ((b - a) + (c - b))%nat by lia.
  rewrite <- (take_take_drop (drop a s)), drop_drop. by replace (a + (b - a))%nat with b by lia.
Qed.

Lemma segment_tout (s : list Z) n : length s = n -> segment s 0 n = s.
Proof. intros <-. unfold segment. rewrite drop_0, Nat.sub_0_r. by apply take_ge. Qed.

Lemma segment_segment (s : list Z) a b i j : (a + j <= b)%nat -> segment (segment s a b) i j = segment s (a + i) (a + j).
Proof.
  intros H. unfold segment. apply list_eq. intros k.
  destruct (decide (k < j - i)%nat).
  - rewrite !lookup_take_lt, !lookup_drop by lia. destruct (decide (i + k < b - a)%nat).
    + rewrite lookup_take_lt, lookup_drop by lia. f_equal. lia.
    + lia.
  - rewrite !lookup_take_ge by lia. done.
Qed.

(** [n] 64-bit words from the offset [off]. *)
Definition mots_de (off n : nat) (s : list Z) : list Z :=
  (fun i => unle (segment s (off + i * 8) (off + i * 8 + 8))) <$> List.seq 0 n.

Lemma length_mots_de off n s : length (mots_de off n s) = n.
Proof. unfold mots_de. by rewrite length_fmap, length_seq. Qed.

Lemma mots_de_ok off n s W : segment s off (off + 8 * n) = octets_mots W -> length W = n -> Forall is_u64 W -> mots_de off n s = W.
Proof.
  intros Hs Hn HW. apply list_eq. intros k. unfold mots_de. rewrite list_lookup_fmap.
  destruct (decide (k < n)%nat) as [Hk|Hk].
  - rewrite lookup_seq_lt by done. cbn [fmap option_fmap option_map].
    destruct (lookup_lt_is_Some_2 W k) as [w Ew]; [lia|]. rewrite Ew, Nat.add_0_l. f_equal.
    assert (segment s (off + k * 8) (off + k * 8 + 8) = le 8 w) as ->.
    { transitivity (segment (segment s off (off + 8 * n)) (k * 8) (k * 8 + 8)).
      { rewrite segment_segment by lia. f_equal. lia. }
      rewrite Hs, (octets_mots_coupe W k w Ew).
      apply segment_mid; [rewrite length_octets_mots, length_take; lia|rewrite length_le; lia]. }
    apply unle_le. exact (proj1 (Forall_lookup _ _) HW _ _ Ew).
  - rewrite lookup_seq_ge by lia. cbn. symmetry. apply lookup_ge_None. lia.
Qed.

Lemma octets_mots_de off n s : bytes_ok s -> (off + 8 * n <= length s)%nat -> octets_mots (mots_de off n s) = segment s off (off + 8 * n).
Proof.
  intros Hs. induction n as [|n IH]; intros Hl.
  - cbn. unfold segment. by replace (off + 0 - off)%nat with 0%nat by lia.
  - unfold mots_de in *. rewrite seq_S, fmap_app, octets_mots_app, IH by lia. cbn [fmap list_fmap octets_mots].
    rewrite app_nil_r, (le_segment _ _ _ 8), Nat.add_0_l by (done || lia).
    replace (off + n * 8)%nat with (off + 8 * n)%nat by lia. rewrite segment_suivant by lia. f_equal. lia.
Qed.

Lemma mots_de_u64 off n s : bytes_ok s -> (off + 8 * n <= length s)%nat -> Forall is_u64 (mots_de off n s).
Proof.
  intros Hs Hl. apply Forall_fmap, Forall_forall. intros i Hi%elem_of_seq.
  apply (unle_segment_range s _ _ 8); [done|lia..].
Qed.

Lemma bytes_ok_octets_mots W : bytes_ok (octets_mots W).
Proof. induction W as [|w W IH]; [constructor|]. cbn [octets_mots]. apply bytes_ok_app; [apply bytes_ok_le|done]. Qed.

Lemma bytes_ok_concat (ls : list (list Z)) : Forall bytes_ok ls -> bytes_ok (concat ls).
Proof. induction 1; [constructor|]. cbn [concat]. by apply bytes_ok_app. Qed.
