(* ===== verification/DnsName.v ===== *)
(** Compressed DNS names as the response trackers read them:
    [decompresserNomDNS] of src/internal/engine/soa_negative.go, with its
    optional output buffer, its optional label-boundary map and its bounded
    pointer chasing.  The theorems: it never panics and always terminates, its
    results are in bounds, it does not depend on the output buffer, and it
    decodes every uncompressed encoding back to the dotted lower-case name. *)
From S2P Require Import Prelude.

(** ASCII lower-casing of one octet ([if c >= 'A' && c <= 'Z' { c += 'a' - 'A' }]). *)
Definition minuscule (c : Z) : Z :=
  if (65 <=? c) && (c <=? 90) then u8 (c + 32) else c.

Lemma minuscule_idem c : minuscule (minuscule c) = minuscule c.
Proof.
  unfold minuscule. destruct ((65 <=? c) && (c <=? 90)) eqn:E; [|by rewrite E].
  zbool. rewrite u8_id by (unfold is_u8; lia). destruct (_ && _) eqn:E'; [|done]. zbool. lia.
Qed.

(** The local variables of [decompresserNomDNS], with the caller's buffers. *)
Record etat_nom := EtatNom {
  posCourante : Z;
  finInline : Z;
  nbSauts : Z;
  longueurFilaire : Z;
  longueurNom : Z;
  indiceEtiquette : Z;
  tamponNom : option (list Z);
  frontieresLabels : option (list bool)
}.

(** The three results [(fin, taille, valide)] and the buffers after the call. *)
Record nom_lu := NomLu {
  fin : Z;
  taille : Z;
  valide : bool;
  tampon_lu : option (list Z);
  frontieres_lues : option (list bool)
}.

Section decompression.
Context (paquetFilaire : list Z) (borneInline : Z) (ignorerPremierLabel : bool).

(** [return 0, 0, false] *)
Definition refus (e : etat_nom) : run (etat_nom + nom_lu) :=
  Done (inr (NomLu 0 0 false (tamponNom e) (frontieresLabels e))).

(** [posCourante >= borneInline] before the first jump, [len(paquet)] after. *)
Definition hors_borne (e : etat_nom) (p : Z) : bool :=
  if nbSauts e =? 0 then borneInline <=? p else zlen paquetFilaire <=? p.

(** The copy of one label into the buffer, lower-cased. *)
Definition copier_etiquette (debut n longueur : Z) (tampon : list Z)
  : run (list Z * Z) :=
  o ← for_range n (tampon, longueur) (fun i '(t, l) =>
        octet ← idx paquetFilaire (debut + i);
        t' ← upd t l (minuscule octet);
        Done (inl (A := list Z * Z) (B := list Z * Z) (t', l + 1)));
  match o with inl r | inr r => Done r end.

(** The [if tamponNom != nil && ...] block; [ok = false] is [return 0, 0, false]
    with what has been written to the buffers so far. *)
Definition ecrire_etiquette (e : etat_nom) (longueurEtiquette : Z)
  : run (bool * option (list Z) * option (list bool) * Z) :=
  match tamponNom e with
  | Some t =>
      if negb ignorerPremierLabel || (0 <? indiceEtiquette e) then
        if (0 <? longueurNom e) && (255 <=? longueurNom e)
        then Done (false, Some t, frontieresLabels e, longueurNom e) else
        '(t, l) ← (if 0 <? longueurNom e
                   then t' ← upd t (longueurNom e) 46; Done (t', longueurNom e + 1)
                   else Done (t, longueurNom e));
        if 255 <? l + longueurEtiquette
        then Done (false, Some t, frontieresLabels e, l) else
        fr ← (match frontieresLabels e with
              | Some f => f' ← upd f l true; Done (Some f')
              | None => Done None end);
        '(t, l) ← copier_etiquette (posCourante e + 1) longueurEtiquette l t;
        Done (true, Some t, fr, l)
      else Done (true, tamponNom e, frontieresLabels e, longueurNom e)
  | None => Done (true, tamponNom e, frontieresLabels e, longueurNom e)
  end.

(** One turn of the [for] loop. *)
Definition pas_nom (e : etat_nom) : run (etat_nom + nom_lu) :=
  if hors_borne e (posCourante e) then refus e else
  octetLongueur ← idx paquetFilaire (posCourante e);
  if octetLongueur =? 0 then
    if 255 <? longueurFilaire e + 1 then refus e else
    let fin := if nbSauts e =? 0 then posCourante e + 1 else finInline e in
    Done (inr (NomLu fin (longueurNom e) true (tamponNom e) (frontieresLabels e)))
  else if Z.land octetLongueur 192 =? 192 then
    if hors_borne e (posCourante e + 1) then refus e else
    let fin := if nbSauts e =? 0 then posCourante e + 2 else finInline e in
    if 8 <? nbSauts e + 1 then refus e else
    bas ← idx paquetFilaire (posCourante e + 1);
    let cible := Z.lor (Z.shiftl (Z.land octetLongueur 63) 8) bas in
    if zlen paquetFilaire <=? cible then refus e else
    Done (inl (EtatNom cible fin (nbSauts e + 1) (longueurFilaire e) (longueurNom e)
                 (indiceEtiquette e) (tamponNom e) (frontieresLabels e)))
  else if negb (Z.land octetLongueur 192 =? 0) then refus e else
  let longueurEtiquette := octetLongueur in
  if (if nbSauts e =? 0 then borneInline <? posCourante e + 1 + longueurEtiquette
      else zlen paquetFilaire <? posCourante e + 1 + longueurEtiquette)
  then refus e else
  let filaire := longueurFilaire e + 1 + longueurEtiquette in
  if 255 <? filaire then refus e else
  '(ok, t, fr, l) ← ecrire_etiquette e longueurEtiquette;
  if negb ok then Done (inr (NomLu 0 0 false t fr)) else
  Done (inl (EtatNom (posCourante e + 1 + longueurEtiquette) (finInline e) (nbSauts e)
               filaire l (indiceEtiquette e + 1) t fr)).
End decompression.

(** Every turn but the last consumes one of the 8 jumps or some of the 255 wire
    octets: 264 turns are always enough. *)
Definition carburant_nom : nat := 264.

Definition decompresserNomDNS (paquetFilaire : list Z) (decalageInitial borneInline : Z)
    (ignorerPremierLabel : bool) (tampon : option (list Z))
    (frontieres : option (list bool)) : run nom_lu :=
  loop (pas_nom paquetFilaire borneInline ignorerPremierLabel) carburant_nom
    (EtatNom decalageInitial (-1) 0 0 0 0 tampon frontieres).

(** * Safety and bounds *)

(** What the callers pass as buffers: nil, or an array of 255 cells. *)
Definition tampon_ok (t : option (list Z)) : Prop :=
  match t with Some t => zlen t = 255 /\ bytes_ok t | None => True end.
Definition frontieres_ok (f : option (list bool)) : Prop :=
  match f with Some f => zlen f = 255 | None => True end.

(** Which of the two buffers are present: the calls preserve it. *)
Definition present {A} (o : option A) : bool := match o with Some _ => true | None => false end.
Definition formes (t : option (list Z)) (f : option (list bool)) : bool * bool :=
  (present t, present f).

Lemma minuscule_u8 c : is_u8 c -> is_u8 (minuscule c).
Proof. unfold minuscule. intros. destruct (_ && _); auto with c2. Qed.
#[export] Hint Resolve minuscule_u8 : c2.

Section surete.
Context (paquet : list Z) (decalage borne : Z) (ignorer : bool) (fm : bool * bool).
Hypothesis Hpaquet : bytes_ok paquet.
Hypothesis Hborne : borne <= zlen paquet.
Hypothesis Hdecalage : 0 <= decalage.

Lemma wp_copier_etiquette debut n longueur t :
  0 <= debut -> debut + n <= zlen paquet -> 0 <= n -> 0 <= longueur ->
  longueur + n <= zlen t -> bytes_ok t ->
  wp (copier_etiquette paquet debut n longueur t)
    (fun '(t', l') => zlen t' = zlen t /\ bytes_ok t' /\ l' = longueur + n).
Proof.
  intros ????? Ht. unfold copier_etiquette. apply wp_bind.
  apply (wp_for_range (fun i '(t', l) =>
    zlen t' = zlen t /\ bytes_ok t' /\ l = longueur + i)); [lia|repeat split; auto; lia| |].
  - intros j [t' l] Hj (Hz & Hb & ->). wp_steps.
    apply wp_idx_byte; [done|lia|]. intros x _ Hx. apply wp_bind.
    apply wp_upd; [lia|]. wp_steps. rewrite zlen_insert. repeat split; [done| |lia].
    apply bytes_ok_insert; [done|]. auto with c2.
  - intros [t' l] (Hz & Hb & ->). by wp_steps.
Qed.

Definition inv_nom (e : etat_nom) : Prop :=
  0 <= posCourante e /\ (nbSauts e = 0 -> decalage <= posCourante e) /\
  (nbSauts e <> 0 -> decalage < finInline e <= borne) /\
  0 <= nbSauts e <= 8 /\ 0 <= longueurFilaire e <= 255 /\
  0 <= longueurNom e /\ (longueurNom e = 0 \/ longueurNom e + 1 <= longueurFilaire e) /\
  tampon_ok (tamponNom e) /\ frontieres_ok (frontieresLabels e) /\
  formes (tamponNom e) (frontieresLabels e) = fm.

Lemma wp_ecrire_etiquette e n :
  inv_nom e -> 1 <= n -> longueurFilaire e + 1 + n <= 255 ->
  posCourante e + 1 + n <= zlen paquet ->
  wp (ecrire_etiquette paquet ignorer e n) (fun '(ok, t, fr, l) =>
    ok = true /\ tampon_ok t /\ frontieres_ok fr /\ formes t fr = fm /\ 0 <= l /\
    (l = 0 \/ l + 1 <= longueurFilaire e + 1 + n)).
Proof.
  intros (Hp & _ & _ & _ & Hf & Hl & Hl' & Ht & Hfr & Hfm) Hn Hf' Hp'. unfold ecrire_etiquette.
  destruct (tamponNom e) as [t|]; [|wp_steps; repeat split; auto; lia].
  destruct Ht as [Hz Hb].
  wp_step; [|wp_steps; repeat split; auto; lia].
  wp_step; [lia|]. wp_step.
  apply (wp_mono _ (fun '(t', l) => zlen t' = 255 /\ bytes_ok t' /\
     0 <= l <= longueurFilaire e)).
  { wp_steps; [|repeat split; auto; lia]. apply wp_upd; [lia|]. wp_steps.
    rewrite zlen_insert. repeat split; auto; [|lia|lia].
    apply bytes_ok_insert; [done|]. split; lia. }
  intros [t' l] (Hz' & Hb' & Hl2). wp_step; [lia|]. wp_step.
  apply (wp_mono _ (fun fr => frontieres_ok fr /\ present fr = present (frontieresLabels e))).
  { destruct (frontieresLabels e) as [f|]; simpl in *; [|done]. wp_step.
    apply wp_upd; [lia|]. wp_steps. simpl. by rewrite zlen_insert. }
  intros fr [Hfr' Hpf]. wp_step.
  eapply wp_mono; [apply wp_copier_etiquette; auto; lia|].
  intros [t2 l2] (Hz2 & Hb2 & ->). wp_steps. simpl.
  rewrite <- Hfm. unfold formes. rewrite Hpf. repeat split; auto; lia.
Qed.

Definition lu_ok (r : nom_lu) : Prop :=
  tampon_ok (tampon_lu r) /\ frontieres_ok (frontieres_lues r) /\
  0 <= taille r <= 253 /\ (valide r = true -> decalage < fin r <= borne) /\
  formes (tampon_lu r) (frontieres_lues r) = fm.

Definition variant_nom (e : etat_nom) : Z :=
  (8 - nbSauts e) + (255 - longueurFilaire e).

Definition suite_ok (e : etat_nom) (o : etat_nom + nom_lu) : Prop :=
  match o with
  | inl e' => inv_nom e' /\ 0 <= variant_nom e' < variant_nom e
  | inr r => lu_ok r
  end.

Lemma wp_refus e : inv_nom e -> wp (refus e) (suite_ok e).
Proof. intros (?&?&?&?&?&?&?&?&?&?). wp_steps. unfold suite_ok, lu_ok; simpl. split_and!; auto; done. Qed.

(** Before the first jump the bound is [borneInline], afterwards the packet. *)
Lemma hors_borne_false e p :
  hors_borne paquet borne e p = false ->
  p < zlen paquet /\ (nbSauts e = 0 -> p < borne).
Proof. unfold hors_borne. destruct (Z.eqb_spec (nbSauts e) 0); intros; zbool; lia. Qed.

Lemma wp_pas_nom e : inv_nom e -> wp (pas_nom paquet borne ignorer e) (suite_ok e).
Proof.
  intros He. pose proof (wp_refus e He) as Href.
  destruct (id He) as (Hp & Hp0 & Hfin & Hs & Hf & Hl & Hl' & Ht & Hfr & Hfm).
  unfold pas_nom. wp_step; [exact Href|]. apply hors_borne_false in Hc as [Hc0 Hc1].
  wp_step. apply wp_idx_byte; [done|lia|]. intros o _ Ho. wp_step.
  { wp_step; [exact Href|]. wp_step. unfold suite_ok, lu_ok; simpl.
    destruct (Z.eqb_spec (nbSauts e) 0); split_and!; auto; intros; try lia; auto. }
  wp_step.
  { wp_step; [exact Href|]. apply hors_borne_false in Hc3 as [Hc4 Hc5].
    wp_step; [exact Href|]. wp_step. apply wp_idx_byte; [done|lia|]. intros b _ Hb.
    wp_step; [exact Href|]. wp_step. unfold suite_ok, inv_nom, variant_nom; simpl.
    assert (0 <= Z.lor (Z.shiftl (Z.land o 63) 8) b)
      by (apply Z.lor_nonneg; split; [apply Z.shiftl_nonneg, Z.land_nonneg; lia|lia]).
    destruct (Z.eqb_spec (nbSauts e) 0); split_and!; auto; try lia. }
  wp_step; [exact Href|]. wp_step; [exact Href|].
  assert (posCourante e + 1 + o <= zlen paquet)
    by (destruct (Z.eqb_spec (nbSauts e) 0); zbool; lia).
  wp_step; [exact Href|]. wp_step.
  eapply wp_mono; [apply wp_ecrire_etiquette; [exact He|lia..]|].
  intros [[[ok t] fr] l] (-> & Ht' & Hfr' & Hfm' & Hl2 & Hl3). simpl.
  unfold suite_ok, inv_nom, variant_nom; simpl. split_and!; auto; intros; lia.
Qed.
End surete.

(** Whatever the packet, the start and the bound, [decompresserNomDNS] neither
    panics nor loops, keeps the sizes of the caller's arrays, and on success
    ends strictly after its start, within the bound, with at most 253 octets. *)
Lemma wp_decompresser paquet decalage borne ignorer t fr :
  bytes_ok paquet -> 0 <= decalage -> borne <= zlen paquet ->
  tampon_ok t -> frontieres_ok fr ->
  wp (decompresserNomDNS paquet decalage borne ignorer t fr) (lu_ok decalage borne (formes t fr)).
Proof.
  intros Hb Hd Hlen Ht Hf. unfold decompresserNomDNS.
  apply (wp_loop _ (inv_nom decalage borne (formes t fr)) variant_nom).
  - intros e He. by apply wp_pas_nom.
  - unfold inv_nom; simpl. split_and!; auto; intros; lia.
  - split; by vm_compute.
Qed.

(** * The buffers do not influence the walk *)

Definition meme_marche (e1 e2 : etat_nom) : Prop :=
  posCourante e1 = posCourante e2 /\ finInline e1 = finInline e2 /\
  nbSauts e1 = nbSauts e2 /\ longueurFilaire e1 = longueurFilaire e2.

Lemma hors_borne_marche paquet borne e1 e2 p :
  nbSauts e1 = nbSauts e2 -> hors_borne paquet borne e1 p = hors_borne paquet borne e2 p.
Proof. unfold hors_borne. by intros ->. Qed.

Lemma wp2_of_wp {A B} (m : run A) (k : run B) (P : A -> Prop) (Q : B -> Prop) :
  wp m P -> wp k Q -> wp2 m k (fun a b => P a /\ Q b).
Proof. unfold wp2. destruct m, k; simpl; auto. Qed.

Section marche.
Context (paquet : list Z) (decalage borne : Z) (ign1 ign2 : bool) (fm1 fm2 : bool * bool).
Hypothesis Hpaquet : bytes_ok paquet.
Hypothesis Hborne : borne <= zlen paquet.
Hypothesis Hdecalage : 0 <= decalage.

(** Same position, end and validity, whatever is written. *)
Definition suite_meme (o1 o2 : etat_nom + nom_lu) : Prop :=
  match o1, o2 with
  | inl e1, inl e2 => meme_marche e1 e2
  | inr r1, inr r2 => fin r1 = fin r2 /\ valide r1 = valide r2
  | _, _ => False
  end.

Lemma pas_meme e1 e2 :
  inv_nom decalage borne fm1 e1 -> inv_nom decalage borne fm2 e2 -> meme_marche e1 e2 ->
  wp2 (pas_nom paquet borne ign1 e1) (pas_nom paquet borne ign2 e2) suite_meme.
Proof.
  intros H1 H2 (Mp & Mf & Ms & Ml).
  pose proof (wp_ecrire_etiquette paquet decalage borne ign1 fm1 Hpaquet e1) as W1.
  pose proof (wp_ecrire_etiquette paquet decalage borne ign2 fm2 Hpaquet e2) as W2.
  unfold pas_nom, refus. rewrite <- Mp, <- Mf, <- Ms, <- Ml in *.
  rewrite !(hors_borne_marche paquet borne e1 e2) by done.
  destruct (id H1) as (Hp & _ & _ & Hs & Hf & _).
  wp2_if; [done|]. apply hors_borne_false in Hc; [|done..]. rewrite <- Ms in Hc.
  apply wp2_bind, wp2_refl, wp_idx_byte; [done|lia|]. intros o _ Ho.
  wp2_if; [by wp2_if|]. wp2_if.
  { wp2_if; [done|]. apply hors_borne_false in Hc2; [|done..]. wp2_if; [done|].
    apply wp2_bind, wp2_refl, wp_idx_byte; [done|lia|]. intros b _ Hb. wp2_if; done. }
  wp2_if; [done|]. wp2_if; [done|]. wp2_if; [done|].
  assert (posCourante e1 + 1 + o <= zlen paquet)
    by (destruct (Z.eqb_spec (nbSauts e1) 0); zbool; lia).
  apply wp2_bind. eapply wp2_mono; [apply wp2_of_wp; [apply W1|apply W2]; auto; lia|].
  by intros [[[ok1 t1] f1] l1] [[[ok2 t2] f2] l2] ((-> & _) & (-> & _)).
Qed.

End marche.

Lemma decompresser_meme paquet decalage borne ign1 ign2 t1 f1 t2 f2 :
  bytes_ok paquet -> borne <= zlen paquet -> 0 <= decalage ->
  tampon_ok t1 -> frontieres_ok f1 -> tampon_ok t2 -> frontieres_ok f2 ->
  wp2 (decompresserNomDNS paquet decalage borne ign1 t1 f1)
      (decompresserNomDNS paquet decalage borne ign2 t2 f2)
    (fun r1 r2 => fin r1 = fin r2 /\ valide r1 = valide r2).
Proof.
  intros Hpaquet Hborne Hdecalage Ht1 Hf1 Ht2 Hf2.
  set (fm1 := formes t1 f1). set (fm2 := formes t2 f2). unfold decompresserNomDNS.
  apply (wp2_loop _ _ (fun e1 e2 => inv_nom decalage borne fm1 e1 /\
           inv_nom decalage borne fm2 e2 /\ meme_marche e1 e2) variant_nom).
  - intros e1 e2 (H1 & H2 & M).
    pose proof (wp2_of_wp _ _ _ _ (wp_pas_nom paquet decalage borne ign1 fm1 Hpaquet Hborne e1 H1)
      (wp_pas_nom paquet decalage borne ign2 fm2 Hpaquet Hborne e2 H2)) as W.
    pose proof (pas_meme paquet decalage borne ign1 ign2 fm1 fm2 Hpaquet Hborne e1 e2 H1 H2 M) as W'. unfold wp2 in *.
    destruct (pas_nom paquet borne ign1 e1), (pas_nom paquet borne ign2 e2); try done.
    simpl in *. destruct W as [W1 W2]. destruct a, a0; naive_solver.
  - split_and!; [..|done]; unfold inv_nom; simpl; split_and!; auto; intros; lia.
  - split; by vm_compute.
Qed.

(** * Round trip with the RFC 1035 encoding *)

Fixpoint etiquettes_filaires (ls : list (list Z)) : list Z :=
  match ls with [] => [] | l :: r => zlen l :: l ++ etiquettes_filaires r end.
Definition nom_filaire (ls : list (list Z)) : list Z := etiquettes_filaires ls ++ [0].

(** Lower-cased labels joined by dots, appended to [acc]. *)
Fixpoint joindre (acc : list Z) (ls : list (list Z)) : list Z :=
  match ls with
  | [] => acc
  | l :: r => joindre (acc ++ (if zlen acc =? 0 then [] else [46]) ++ (minuscule <$> l)) r
  end.
Definition nom_pointe (ls : list (list Z)) : list Z := joindre [] ls.

Definition etiquette_ok (l : list Z) : Prop := 1 <= zlen l <= 63 /\ bytes_ok l.

Lemma zlen_fmap {A B} (f : A -> B) l : zlen (f <$> l) = zlen l.
Proof. unfold zlen. by rewrite length_fmap. Qed.

(** A list split at [n] exposes its [n]-th cell. *)
Lemma lookup_split_at {A} (l : list A) i :
  0 <= i < zlen l -> exists pre x post, l = pre ++ x :: post /\ zlen pre = i.
Proof.
  intros Hi. destruct (lookup_lt_is_Some_2 l (Z.to_nat i)) as [x Hx]; [unfold zlen in Hi; lia|].
  exists (take (Z.to_nat i) l), x, (drop (S (Z.to_nat i)) l). split.
  - symmetry. by apply take_drop_middle.
  - unfold zlen in *. rewrite length_take. lia.
Qed.

Lemma copier_etiquette_spec l : forall pre post avant milieu apres,
  zlen milieu = zlen l ->
  copier_etiquette (pre ++ l ++ post) (zlen pre) (zlen l) (zlen avant) (avant ++ milieu ++ apres)
  = Done (avant ++ (minuscule <$> l) ++ apres, zlen avant + zlen l).
Proof.
  intros pre post avant milieu apres Hm. unfold copier_etiquette, for_range.
  assert (forall k l1 l2 m,
    l = l1 ++ l2 -> zlen m = zlen l2 -> k = zlen l1 ->
    for_from (fun i '(t, n) =>
          octet ← idx (pre ++ l ++ post) (zlen pre + i);
          t' ← upd t n (minuscule octet);
          Done (inl (A := list Z * Z) (B := list Z * Z) (t', n + 1)))
       k (length l2) (avant ++ (minuscule <$> l1) ++ m ++ apres, zlen avant + zlen l1)
    = Done (inl (avant ++ (minuscule <$> l) ++ apres, zlen avant + zlen l))) as H.
  { intros k l1 l2. revert k l1. induction l2 as [|x l2 IH]; intros k l1 m -> Hlen ->; simpl.
    - destruct m; [|rewrite zlen_cons, zlen_nil in Hlen; pose proof (zlen_nonneg m); lia].
      by rewrite app_nil_r.
    - destruct m as [|y m]; [rewrite zlen_cons, zlen_nil in Hlen; pose proof (zlen_nonneg l2); lia|].
      replace (pre ++ (l1 ++ x :: l2) ++ post) with ((pre ++ l1) ++ x :: (l2 ++ post))
        by (by rewrite <- !app_assoc).
      rewrite idx_mid by (by rewrite zlen_app). simpl.
      rewrite (app_assoc avant), upd_mid by (by rewrite zlen_app, zlen_fmap). simpl.
      specialize (IH (zlen l1 + 1) (l1 ++ [x]) m).
      rewrite <- !app_assoc in *. simpl in *.
      rewrite fmap_app, zlen_app, zlen_cons, zlen_nil in IH. simpl in IH.
      rewrite <- !app_assoc in *. simpl in *. rewrite !zlen_cons in Hlen.
      replace (zlen avant + zlen l1 + 1) with (zlen avant + (zlen l1 + (1 + 0))) by lia.
      rewrite IH; [|done|lia|lia]. by rewrite fmap_app. }
  specialize (H 0 [] l milieu eq_refl Hm eq_refl). simpl in H. rewrite ?zlen_nil, ?Z.add_0_r in H.
  replace (Z.to_nat (zlen l)) with (length l) by (unfold zlen; lia). rewrite H. done.
Qed.

Lemma mod192_etiquette n : 1 <= n <= 63 -> Z.land n 192 = 0.
Proof.
  intros Hn. change 192 with (Z.shiftl 3 6). apply Z.bits_inj'. intros i Hi.
  rewrite Z.land_spec, Z.bits_0. destruct (Z.ltb_spec i 6).
  - rewrite Z.shiftl_spec_low by lia. apply andb_false_r.
  - rewrite (Z.bits_above_log2 n i); [done|lia|].
    apply Z.log2_lt_pow2; [lia|]. apply Z.lt_le_trans with (2 ^ 6); [lia|].
    apply Z.pow_le_mono_r; lia.
Qed.

Lemma zlen_etiquettes_cons l ls :
  zlen (etiquettes_filaires (l :: ls)) = 1 + zlen l + zlen (etiquettes_filaires ls).
Proof. simpl. rewrite zlen_cons, zlen_app. lia. Qed.

(** The terminating octet, before any jump. *)
Lemma pas_nom_fin pre post borne ign e :
  nbSauts e = 0 -> posCourante e = zlen pre -> zlen pre < borne -> longueurFilaire e + 1 <= 255 ->
  pas_nom (pre ++ 0 :: post) borne ign e
  = Done (inr (NomLu (zlen pre + 1) (longueurNom e) true (tamponNom e) (frontieresLabels e))).
Proof.
  intros Hs Hp Hb Hf. unfold pas_nom, hors_borne. rewrite Hs, Hp. simpl.
  zif. rewrite (idx_mid pre _ _ (zlen pre)) by done. simpl. by zif.
Qed.

(** One label, before any jump, copied after [avant]. *)
Lemma pas_nom_etiquette pre l post borne e avant reste :
  etiquette_ok l -> nbSauts e = 0 -> posCourante e = zlen pre ->
  zlen pre + 1 + zlen l <= borne -> longueurFilaire e + 1 + zlen l <= 255 ->
  tamponNom e = Some (avant ++ reste) -> frontieresLabels e = None ->
  longueurNom e = zlen avant -> (zlen avant = 0 \/ zlen avant + 1 <= longueurFilaire e) ->
  0 <= longueurFilaire e -> zlen avant + zlen reste = 255 ->
  let ecrit := (if zlen avant =? 0 then [] else [46]) ++ (minuscule <$> l) in
  pas_nom (pre ++ (zlen l :: l) ++ post) borne false e
  = Done (inl (EtatNom (zlen pre + 1 + zlen l) (finInline e) 0
      (longueurFilaire e + 1 + zlen l) (zlen (avant ++ ecrit)) (indiceEtiquette e + 1)
      (Some ((avant ++ ecrit) ++ drop (length ecrit) reste)) None)).
Proof.
  intros [Hl _] Hs Hp Hb Hf Ht Hfr Hn Ha Hf0 Hr ecrit. unfold pas_nom, hors_borne.
  rewrite Hs, Hp. simpl. zif. rewrite (idx_mid pre _ _ (zlen pre)) by done. simpl. zif.
  rewrite mod192_etiquette by lia. simpl. zif. zif.
  unfold ecrire_etiquette. rewrite Ht, Hfr, Hn, Hp. simpl.
  assert (forall a m ap, zlen m = zlen l ->
    copier_etiquette (pre ++ zlen l :: l ++ post) (zlen pre + 1) (zlen l) (zlen a) (a ++ m ++ ap)
    = Done (a ++ (minuscule <$> l) ++ ap, zlen a + zlen l)) as Hcop.
  { intros a m ap Hm. replace (pre ++ zlen l :: l ++ post) with ((pre ++ [zlen l]) ++ l ++ post)
      by (by rewrite <- app_assoc).
    replace (zlen pre + 1) with (zlen (pre ++ [zlen l])) by (rewrite zlen_app, zlen_cons, zlen_nil; lia).
    by apply copier_etiquette_spec. }
  unfold ecrit. destruct (Z.eqb_spec (zlen avant) 0) as [E0|E0].
  - rewrite (proj2 (Z.ltb_ge 0 (zlen avant))) by lia. simpl.
    rewrite (proj2 (Z.ltb_ge 255 (zlen avant + zlen l))) by lia.
    rewrite <- (take_drop (length l) reste) at 1.
    rewrite Hcop; [|unfold zlen in *; rewrite length_take; lia]. simpl.
    rewrite length_fmap, zlen_app, zlen_fmap, <- app_assoc. done.
  - pose proof (zlen_nonneg avant). rewrite (proj2 (Z.ltb_lt 0 (zlen avant))), (proj2 (Z.leb_gt 255 (zlen avant))) by lia. simpl.
    destruct reste as [|x reste]; [rewrite zlen_nil in Hr; lia|]. rewrite zlen_cons in Hr.
    rewrite upd_mid by done. simpl.
    rewrite (proj2 (Z.ltb_ge 255 (zlen avant + 1 + zlen l))) by lia.
    rewrite <- (take_drop (length l) reste) at 1.
    replace (avant ++ 46 :: take (length l) reste ++ drop (length l) reste)
      with ((avant ++ [46]) ++ take (length l) reste ++ drop (length l) reste)
      by (by rewrite <- app_assoc).
    replace (zlen avant + 1) with (zlen (avant ++ [46])) by (rewrite zlen_app, zlen_cons, zlen_nil; lia).
    rewrite Hcop; [|unfold zlen in *; rewrite length_take; lia]. simpl.
    rewrite length_fmap, !zlen_app, !zlen_cons, zlen_fmap, <- !app_assoc.
    rewrite (@zlen_nil Z).
    by replace (zlen avant + (1 + 0) + zlen l) with (zlen avant + (1 + zlen l)) by lia.
Qed.

Lemma joindre_length ls : forall acc, (length acc <= length (joindre acc ls))%nat.
Proof.
  induction ls as [|l ls IH]; intros acc; simpl; [lia|].
  etrans; [|apply IH]. rewrite !length_app. lia.
Qed.

(** The walk from the middle of an uncompressed name. *)
Lemma loop_nom_filaire ls : forall pre post borne avant reste filaire indice fin0 fuel,
  Forall etiquette_ok ls ->
  zlen pre + zlen (nom_filaire ls) <= borne ->
  filaire + zlen (nom_filaire ls) <= 255 ->
  (zlen avant = 0 \/ zlen avant + 1 <= filaire) -> 0 <= filaire ->
  zlen avant + zlen reste = 255 ->
  (length ls < fuel)%nat ->
  loop (pas_nom (pre ++ nom_filaire ls ++ post) borne false) fuel
    (EtatNom (zlen pre) fin0 0 filaire (zlen avant) indice (Some (avant ++ reste)) None)
  = Done (NomLu (zlen pre + zlen (nom_filaire ls)) (zlen (joindre avant ls)) true
      (Some (joindre avant ls ++ drop (length (joindre avant ls) - length avant) reste)) None).
Proof.
  induction ls as [|l ls IH]; intros pre post borne avant reste filaire indice fin0 fuel
    Hok Hb Hf Ha Hf0 Hr Hfuel; (destruct fuel as [|fuel]; [simpl in Hfuel; lia|]);
    rewrite loop_unfold.
  - change (nom_filaire []) with [0] in *. change (zlen [0]) with 1 in *.
    change ([0] ++ post) with (0 :: post).
    rewrite (pas_nom_fin pre post) by (simpl; lia). simpl. by rewrite Nat.sub_diag.
  - apply Forall_cons_iff in Hok as [Hl Hok].
    assert (pre ++ nom_filaire (l :: ls) ++ post
      = pre ++ (zlen l :: l) ++ nom_filaire ls ++ post) as ->
      by (unfold nom_filaire; simpl; by rewrite <- !app_assoc).
    assert (zlen (nom_filaire (l :: ls)) = 1 + zlen l + zlen (nom_filaire ls)) as Hz
      by (unfold nom_filaire; rewrite !zlen_app, zlen_etiquettes_cons; lia).
    rewrite Hz in *. pose proof (zlen_nonneg (nom_filaire ls)). pose proof (zlen_nonneg avant).
    rewrite (pas_nom_etiquette pre l _ borne _ avant reste) by (simpl; auto; lia).
    cbn [mbind run_bind finInline longueurFilaire indiceEtiquette joindre].
    set (ecrit := (if zlen avant =? 0 then [] else [46]) ++ (minuscule <$> l)).
    assert (zlen ecrit = (if zlen avant =? 0 then 0 else 1) + zlen l) as He.
    { unfold ecrit. rewrite zlen_app, zlen_fmap.
      by destruct (zlen avant =? 0); rewrite ?zlen_cons, ?zlen_nil. }
    assert (zlen ecrit <= zlen reste /\ zlen ecrit <= zlen l + 1 /\ zlen l <= zlen ecrit) as (He1 & He2 & He3).
    { destruct Hl. destruct (Z.eqb_spec (zlen avant) 0); lia. }
    assert (length ecrit <= length reste)%nat by (unfold zlen in He1; lia).
    rewrite app_assoc. replace (zlen pre + 1 + zlen l) with (zlen (pre ++ zlen l :: l))
      by (rewrite zlen_app, zlen_cons; lia).
    destruct Hl as [Hl _].
    assert (zlen (drop (length ecrit) reste) = zlen reste - zlen ecrit) as Hd
      by (unfold zlen; rewrite length_drop; lia).
    rewrite IH; auto.
    + assert (length avant + length ecrit <= length (joindre (avant ++ ecrit) ls))%nat as Hj
        by (rewrite <- length_app; apply joindre_length).
      rewrite drop_drop, length_app. rewrite zlen_app, zlen_cons.
      do 2 f_equal; [lia|]. do 3 f_equal. lia.
    + rewrite zlen_app, zlen_cons. lia.
    + lia.
    + rewrite zlen_app. destruct (Z.eqb_spec (zlen avant) 0); lia.
    + lia.
    + rewrite zlen_app. lia.
    + simpl in Hfuel. lia.
Qed.

Lemma etiquettes_longueur ls :
  Forall etiquette_ok ls -> 2 * zlen ls <= zlen (etiquettes_filaires ls).
Proof.
  induction 1 as [|l ls [Hl _] _ IH]; [done|].
  rewrite zlen_etiquettes_cons, zlen_cons. lia.
Qed.

Lemma decompresser_nom_filaire ls pre post borne t :
  Forall etiquette_ok ls -> zlen (nom_filaire ls) <= 255 -> zlen t = 255 ->
  zlen pre + zlen (nom_filaire ls) <= borne ->
  decompresserNomDNS (pre ++ nom_filaire ls ++ post) (zlen pre) borne false (Some t) None
  = Done (NomLu (zlen pre + zlen (nom_filaire ls)) (zlen (nom_pointe ls)) true
      (Some (nom_pointe ls ++ drop (length (nom_pointe ls)) t)) None).
Proof.
  intros Hok Hz Ht Hb. unfold decompresserNomDNS.
  pose proof (etiquettes_longueur ls Hok) as Hl.
  assert (zlen (nom_filaire ls) = zlen (etiquettes_filaires ls) + 1) as Hn
    by (unfold nom_filaire; rewrite zlen_app; done).
  rewrite (loop_nom_filaire ls pre post borne [] t 0 0 (-1)); auto; try done; try lia.
  - unfold nom_pointe. simpl. by rewrite Nat.sub_0_r.
  - unfold carburant_nom, zlen in *. lia.
Qed.

(** * What the trackers call *)

Definition tampon255 : option (list Z) := Some (replicate 255 0).
Definition frontieres255 : option (list bool) := Some (replicate 255 false).
Definition contenu (r : nom_lu) : list Z := default [] (tampon_lu r).
Definition bornes (r : nom_lu) : list bool := default [] (frontieres_lues r).

(** [for indiceQuestion := premier; ...]: skips the remaining questions;
    [inr] is [return false, ReasonNone]. *)
Definition sauter_questions (respWire : list Z) (nb : Z) (decalage : Z) : run (Z + unit) :=
  for_range nb decalage (fun _ cur =>
    r ← decompresserNomDNS respWire cur (zlen respWire) false None None;
    if negb (valide r) || (zlen respWire <? fin r + 4) then Done (inr tt)
    else Done (inl (fin r + 4))).

Lemma tampon255_ok : tampon_ok tampon255.
Proof. split; [done|]. by apply bytes_ok_replicate. Qed.
Lemma frontieres255_ok : frontieres_ok frontieres255.
Proof. done. Qed.
#[export] Hint Resolve tampon255_ok frontieres255_ok : c2.

(** Buffers passed in are buffers returned. *)
Lemma wp_nom_tampon paquet d b f :
  bytes_ok paquet -> 0 <= d -> b <= zlen paquet -> frontieres_ok f ->
  wp (decompresserNomDNS paquet d b false tampon255 f) (fun r =>
    lu_ok d b (formes tampon255 f) r /\ zlen (contenu r) = 255 /\
    (f = frontieres255 -> zlen (bornes r) = 255)).
Proof.
  intros Hp Hd Hb Hf. eapply wp_mono; [apply wp_decompresser; auto with c2|].
  intros r Hr. split; [done|]. destruct Hr as (Ht & Hfr & _ & _ & Hfm).
  unfold contenu, bornes, formes in *. injection Hfm as H1 H2. split.
  - destruct (tampon_lu r); [by destruct Ht|done].
  - intros ->. by destruct (frontieres_lues r).
Qed.

Lemma wp_nom_seul paquet d :
  bytes_ok paquet -> 0 <= d ->
  wp (decompresserNomDNS paquet d (zlen paquet) false None None) (fun r =>
    valide r = true -> d < fin r <= zlen paquet).
Proof.
  intros Hp Hd. eapply wp_mono; [by apply wp_decompresser|]. intros r Hr. apply Hr.
Qed.

Lemma wp_sauter_questions resp n d :
  bytes_ok resp -> 0 <= n -> 0 <= d ->
  wp (sauter_questions resp n d) (fun o => match o with inl c => 0 <= c | inr _ => True end).
Proof.
  intros Hb Hn Hd. unfold sauter_questions.
  apply (wp_for_range (fun _ c => 0 <= c)); [lia|done| |done].
  intros j c Hj Hc. apply wp_bind. eapply wp_mono; [by apply wp_nom_seul|]. intros r Hr.
  wp_step; [done|]. wp_step. specialize (Hr ltac:(done)). lia.
Qed.

(** * Properties *)

(** For every packet, start, bound and pair of buffers, [decompresserNomDNS]
    neither panics nor runs out of its 264 turns; the buffers keep their size,
    the decoded length fits 253 octets and on success the returned end lies
    strictly after the start and within the bound, even through compression
    pointers. *)
Theorem decompresserNomDNS_sur paquet decalage borne ignorer t fr :
  bytes_ok paquet -> 0 <= decalage -> borne <= zlen paquet -> tampon_ok t -> frontieres_ok fr ->
  wp (decompresserNomDNS paquet decalage borne ignorer t fr) (fun r =>
    tampon_ok (tampon_lu r) /\ frontieres_ok (frontieres_lues r) /\ 0 <= taille r <= 253 /\
    (valide r = true -> decalage < fin r <= borne)).
Proof.
  intros Hb Hd Hl Ht Hf. eapply wp_mono; [by apply wp_decompresser|].
  intros r (?&?&?&?&_). split_and!; auto; lia.
Qed.

(** A packet whose only name is a pointer to itself: refused, not a loop. *)
Definition paquet_boucle : list Z := replicate 12 0 ++ [192; 12].

Lemma decompresserNomDNS_sur_witness :
  wp (decompresserNomDNS paquet_boucle 12 14 false tampon255 frontieres255) (fun r =>
    tampon_ok (tampon_lu r) /\ frontieres_ok (frontieres_lues r) /\ 0 <= taille r <= 253 /\
    (valide r = true -> 12 < fin r <= 14)).
Proof.
  apply (decompresserNomDNS_sur paquet_boucle 12 14 false);
    [by apply octets_valides_ok|done|by vm_compute|apply tampon255_ok|apply frontieres255_ok].
Defined.

(** The output buffer, the boundary map and the skipped first label never
    change what the walk accepts nor where it ends: the callers that pass nil
    skip exactly the octets the callers with buffers read. *)
Theorem decompresserNomDNS_tampon_indifferent paquet decalage borne ign1 ign2 t1 f1 t2 f2 r1 r2 :
  bytes_ok paquet -> borne <= zlen paquet -> 0 <= decalage ->
  tampon_ok t1 -> frontieres_ok f1 -> tampon_ok t2 -> frontieres_ok f2 ->
  decompresserNomDNS paquet decalage borne ign1 t1 f1 = Done r1 ->
  decompresserNomDNS paquet decalage borne ign2 t2 f2 = Done r2 ->
  fin r1 = fin r2 /\ valide r1 = valide r2.
Proof.
  intros Hp Hb Hd Ht1 Hf1 Ht2 Hf2 H1 H2.
  pose proof (decompresser_meme paquet decalage borne ign1 ign2 t1 f1 t2 f2 Hp Hb Hd Ht1 Hf1 Ht2 Hf2) as W.
  unfold wp2 in W. by rewrite H1, H2 in W.
Qed.

(** [a.b] followed by a pointer to it. *)
Definition paquet_pointeur : list Z := [1; 65; 1; 98; 0; 1; 99; 192; 0].

Lemma decompresserNomDNS_tampon_indifferent_witness : exists r1 r2,
  decompresserNomDNS paquet_pointeur 5 9 false tampon255 frontieres255 = Done r1 /\
  decompresserNomDNS paquet_pointeur 5 9 true None None = Done r2 /\
  (fin r1 = fin r2 /\ valide r1 = valide r2) /\ valide r1 = true /\ taille r1 = 5.
Proof.
  eexists _, _. split; [vm_compute; reflexivity|]. split; [vm_compute; reflexivity|].
  split; [|by split].
  eapply (decompresserNomDNS_tampon_indifferent paquet_pointeur 5 9 false true
    tampon255 frontieres255 None None); first
    [by apply octets_valides_ok | apply tampon255_ok | apply frontieres255_ok
    | vm_compute; reflexivity | done].
Defined.

(** Decoding inverts the RFC 1035 encoding: wherever an uncompressed name of
    at most 255 wire octets is placed in a packet, [decompresserNomDNS] returns
    the dotted lower-cased labels and the offset just after the name. *)
Theorem decompresserNomDNS_aller_retour ls pre post borne t :
  Forall etiquette_ok ls -> zlen (nom_filaire ls) <= 255 -> zlen t = 255 ->
  zlen pre + zlen (nom_filaire ls) <= borne ->
  exists r, decompresserNomDNS (pre ++ nom_filaire ls ++ post) (zlen pre) borne false (Some t) None
      = Done r /\
    valide r = true /\ fin r = zlen pre + zlen (nom_filaire ls) /\
    taille r = zlen (nom_pointe ls) /\ take (Z.to_nat (taille r)) (contenu r) = nom_pointe ls.
Proof.
  intros Hl Hz Ht Hb. eexists. split; [by apply decompresser_nom_filaire|].
  simpl. split_and!; try done. unfold contenu, zlen; simpl. rewrite Nat2Z.id. apply take_app_length.
Qed.

Lemma decompresserNomDNS_aller_retour_witness :
  exists r, decompresserNomDNS ([7] ++ nom_filaire [[65; 66]; [99]] ++ [9]) 1 7 false tampon255 None
      = Done r /\
    valide r = true /\ fin r = 7 /\ taille r = 4 /\
    take (Z.to_nat (taille r)) (contenu r) = [97; 98; 46; 99].
Proof.
  apply (decompresserNomDNS_aller_retour [[65; 66]; [99]] [7] [9] 7 (replicate 255 0));
    [|by vm_compute..].
  repeat constructor; by vm_compute.
Defined.
