(* ===== verification/Grammaire.v ===== *)
(** The grammar of query names (src/dns_grammar.go): the census of the octets
    outside LDH in every wire label, the class it is summarised to, and the
    stand-alone profiler of an uncompressed wire name.  [utf8.Valid] of the Go
    standard library is written out with the ranges of its acceptance table.
    The theorems: the profiler is total, accepts exactly the framed names, and
    the class is the one read off the labels. *)
From S2P Require Import Prelude DnsName.

Inductive QNameGrammar : Type :=
  | QNameGrammarLDH
  | QNameGrammarDNSSDInstance
  | QNameGrammarUTF8Local
  | QNameGrammarASCIIOutsideLDH
  | QNameGrammarBinary.

#[export] Instance QNameGrammar_eq_dec : EqDecision QNameGrammar.
Proof. solve_decision. Defined.

Definition QNameGrammar_String (grammaire : QNameGrammar) : string :=
  match grammaire with
  | QNameGrammarLDH => "LDH"
  | QNameGrammarDNSSDInstance => "DNSSD_INSTANCE"
  | QNameGrammarUTF8Local => "UTF8_LOCAL"
  | QNameGrammarASCIIOutsideLDH => "ASCII_HORS_LDH"
  | QNameGrammarBinary => "BINAIRE"
  end.

Record QNameGrammarProfile := Profil {
  Classe : QNameGrammar;
  OctetsHorsLDH : Z;
  OctetsHautBit : Z;
  OctetsControle : Z;
  PointsInternes : Z;
  LabelsHorsLDH : Z;
  PremierLabelHorsLDH : bool;
  SecondLabelService : bool;
  TroisiemeLabelTransport : bool;
  UTF8Invalide : bool
}.

Definition profil_nul : QNameGrammarProfile :=
  Profil QNameGrammarLDH 0 0 0 0 0 false false false false.

(** src/dns.go *)
Definition isDNSEncodingByte (b : Z) : bool := (b =? 43) || (b =? 47) || (b =? 61).
Definition dnsLabelByte (b : Z) : bool :=
  ((97 <=? b) && (b <=? 122)) || ((48 <=? b) && (b <=? 57)) || (b =? 45) || (b =? 95).

(** ** [utf8.Valid] *)
Definition entre (a b x : Z) : bool := (a <=? x) && (x <=? b).
Definition suite (x : Z) : bool := entre 0x80 0xBF x.

Fixpoint utf8_valide (l : list Z) : bool :=
  match l with
  | [] => true
  | a :: l1 =>
      if a <? 0x80 then utf8_valide l1
      else if entre 0xC2 0xDF a then
        match l1 with b :: l2 => suite b && utf8_valide l2 | _ => false end
      else if entre 0xE0 0xEF a then
        match l1 with
        | b :: c :: l3 =>
            (if a =? 0xE0 then entre 0xA0 0xBF b else if a =? 0xED then entre 0x80 0x9F b else suite b)
            && suite c && utf8_valide l3
        | _ => false
        end
      else if entre 0xF0 0xF4 a then
        match l1 with
        | b :: c :: d :: l4 =>
            (if a =? 0xF0 then entre 0x90 0xBF b else if a =? 0xF4 then entre 0x80 0x8F b else suite b)
            && suite c && suite d && utf8_valide l4
        | _ => false
        end
      else false
  end.

(** ** Census of one label *)

Definition ldh (octet : Z) : bool :=
  dnsLabelByte (minuscule octet) || isDNSEncodingByte (minuscule octet).
Definition haut (octet : Z) : bool := 128 <=? octet.
Definition controle (octet : Z) : bool := (octet <? 32) || (octet =? 127).

(** One turn of [for _, octet := range labelBrut]; the three locals are
    [octetsHorsLDHLabel], [hautBitPresent] and [*profil]. *)
Definition observer_octet (s : Z * bool * QNameGrammarProfile) (octet : Z)
  : Z * bool * QNameGrammarProfile :=
  let '(n, h, p) := s in
  if ldh octet then (n, h, p) else
  let '(Profil c ho hb ct pt lh pr se tr ut) := p in
  if 128 <=? octet then (n + 1, true, Profil c ho (u8 (hb + 1)) ct pt lh pr se tr ut)
  else if (octet <? 32) || (octet =? 127) then (n + 1, h, Profil c ho hb (u8 (ct + 1)) pt lh pr se tr ut)
  else if octet =? 46 then (n + 1, h, Profil c ho hb ct (u8 (pt + 1)) lh pr se tr ut)
  else (n + 1, h, p).

Definition labelEgalInsensible (labelBrut attendu : list Z) : bool :=
  if negb (zlen labelBrut =? zlen attendu) then false
  else forallb (fun '(octet, a) => minuscule octet =? a) (zip labelBrut attendu).

Definition tcp : list Z := octets "_tcp".
Definition udp : list Z := octets "_udp".

Definition observerLabelGrammaire (profil : QNameGrammarProfile) (labelBrut : list Z) (indiceLabel : Z)
  : QNameGrammarProfile :=
  let '(n, h, p) := fold_left observer_octet labelBrut (0, false, profil) in
  let '(Profil c ho hb ct pt lh pr se tr ut) := p in
  let '(Profil c ho hb ct pt lh pr se tr ut) :=
    if 0 <? n then
      Profil c (u8 (ho + u8 n)) hb ct pt (u8 (lh + 1)) (if indiceLabel =? 0 then true else pr) se tr
        (if h && negb (utf8_valide labelBrut) then true else ut)
    else p in
  if indiceLabel =? 1 then
    Profil c ho hb ct pt lh pr ((n =? 0) && (2 <=? zlen labelBrut) && (bget labelBrut 0 =? 95)) tr ut
  else if indiceLabel =? 2 then
    Profil c ho hb ct pt lh pr se (labelEgalInsensible labelBrut tcp || labelEgalInsensible labelBrut udp) ut
  else Profil c ho hb ct pt lh pr se tr ut.

Definition finaliserGrammaire (p : QNameGrammarProfile) : QNameGrammarProfile :=
  let classe :=
    if OctetsHorsLDH p =? 0 then QNameGrammarLDH
    else if (LabelsHorsLDH p =? 1) && PremierLabelHorsLDH p && SecondLabelService p &&
            TroisiemeLabelTransport p && (OctetsControle p =? 0) && negb (UTF8Invalide p)
    then QNameGrammarDNSSDInstance
    else if (0 <? OctetsControle p) || UTF8Invalide p || (0 <? PointsInternes p) then QNameGrammarBinary
    else if 0 <? OctetsHautBit p then QNameGrammarUTF8Local
    else QNameGrammarASCIIOutsideLDH in
  let '(Profil _ ho hb ct pt lh pr se tr ut) := p in Profil classe ho hb ct pt lh pr se tr ut.

(** Every turn consumes at least one octet. *)
Definition ProfileWireQName (nomFilaire : list Z) : run (option QNameGrammarProfile) :=
  loop (fun '(position, indiceLabel, profil) =>
    if position <? zlen nomFilaire then
      longueurLabel ← idx nomFilaire position;
      if longueurLabel =? 0 then Done (inr (Some (finaliserGrammaire profil))) else
      if (63 <? longueurLabel) || (zlen nomFilaire <? position + 1 + longueurLabel) then Done (inr None) else
      labelBrut ← slice nomFilaire (position + 1) (position + 1 + longueurLabel);
      Done (inl (position + 1 + longueurLabel, indiceLabel + 1,
                 observerLabelGrammaire profil labelBrut indiceLabel))
    else Done (inr None)) (S (length nomFilaire)) (0, 0, profil_nul).

(** * The census read off the labels *)

Definition compte {A} (p : A -> bool) (l : list A) : Z := zlen (List.filter p l).
Definition hors (octet : Z) : bool := negb (ldh octet).
Definition point_interne (octet : Z) : bool := octet =? 46.
Definition label_hors (l : list Z) : bool := existsb hors l.
Definition service (l : list Z) : bool := negb (label_hors l) && (2 <=? zlen l) && (bget l 0 =? 95).
Definition transport (l : list Z) : bool := labelEgalInsensible l tcp || labelEgalInsensible l udp.
Definition au_rang (n : nat) (p : list Z -> bool) (ls : list (list Z)) : bool :=
  match ls !! n with Some l => p l | None => false end.

Definition releve (ls : list (list Z)) : QNameGrammarProfile :=
  Profil QNameGrammarLDH (u8 (compte hors (concat ls))) (u8 (compte haut (concat ls)))
    (u8 (compte controle (concat ls))) (u8 (compte point_interne (concat ls)))
    (u8 (compte label_hors ls)) (au_rang 0 label_hors ls) (au_rang 1 service ls)
    (au_rang 2 transport ls) (existsb (fun l => negb (utf8_valide l)) ls).

(** The class, from the labels alone. *)
Definition instance_dnssd (ls : list (list Z)) : bool :=
  match ls with
  | a :: s :: t :: r =>
      label_hors a && negb (existsb label_hors (s :: t :: r)) && (2 <=? zlen s) && (bget s 0 =? 95)
      && transport t && negb (existsb controle a) && utf8_valide a
  | _ => false
  end.

Definition classe_attendue (ls : list (list Z)) : QNameGrammar :=
  if negb (existsb label_hors ls) then QNameGrammarLDH
  else if instance_dnssd ls then QNameGrammarDNSSDInstance
  else if existsb (fun l => existsb controle l || existsb point_interne l || negb (utf8_valide l)) ls
  then QNameGrammarBinary
  else if existsb (existsb haut) ls then QNameGrammarUTF8Local
  else QNameGrammarASCIIOutsideLDH.

(** ** Counting *)

Lemma u8_plus a b : u8 (u8 a + b) = u8 (a + b).
Proof. apply Zplus_mod_idemp_l. Qed.
Lemma u8_plus_r a b : u8 (a + u8 b) = u8 (a + b).
Proof. apply Zplus_mod_idemp_r. Qed.

Lemma compte_nil {A} (p : A -> bool) : compte p [] = 0.
Proof. done. Qed.
Lemma compte_cons {A} (p : A -> bool) x l : compte p (x :: l) = (if p x then 1 else 0) + compte p l.
Proof. unfold compte. simpl. destruct (p x); [apply zlen_cons|done]. Qed.
Lemma compte_app {A} (p : A -> bool) l k : compte p (l ++ k) = compte p l + compte p k.
Proof. unfold compte. by rewrite List.filter_app, zlen_app. Qed.
Lemma compte_pos {A} (p : A -> bool) l : 0 <= compte p l.
Proof. apply zlen_nonneg. Qed.
Lemma compte_long {A} (p : A -> bool) l : compte p l <= zlen l.
Proof.
  induction l as [|x l IH]; [done|]. rewrite compte_cons, zlen_cons. destruct (p x); lia.
Qed.
Lemma compte_existe {A} (p : A -> bool) l : existsb p l = (0 <? compte p l).
Proof.
  induction l as [|x l IH]; [done|]. rewrite compte_cons. simpl. rewrite IH. pose proof (compte_pos p l).
  destruct (p x); cbn [orb]; [|by rewrite Z.add_0_l]. symmetry. apply Z.ltb_lt. lia.
Qed.

Lemma existsb_concat {A} (p : A -> bool) ls : existsb p (concat ls) = existsb (existsb p) ls.
Proof. induction ls as [|l ls IH]; [done|]. simpl. by rewrite existsb_app, IH. Qed.

(** The classes of octets are disjoint. *)
Lemma ldh_bornes o : ldh o = true -> 43 <= o <= 122 /\ o <> 46.
Proof.
  unfold ldh, dnsLabelByte, isDNSEncodingByte, minuscule.
  destruct ((65 <=? o) && (o <=? 90)) eqn:E; zbool; [lia|].
  intros H. rewrite !orb_true_iff, !andb_true_iff, !Z.eqb_eq, !Z.leb_le in H. lia.
Qed.

(** One octet adds itself to the counts it belongs to. *)
Lemma observer_un n h c ho hb ct pt lh pr se tr ut o :
  observer_octet (n, h, Profil c ho (u8 hb) (u8 ct) (u8 pt) lh pr se tr ut) o
  = (n + (if hors o then 1 else 0), h || haut o,
     Profil c ho (u8 (hb + if haut o then 1 else 0)) (u8 (ct + if controle o then 1 else 0))
       (u8 (pt + if point_interne o then 1 else 0)) lh pr se tr ut).
Proof.
  unfold observer_octet, hors, haut, controle, point_interne. destruct (ldh o) eqn:E; cbn [negb].
  - apply ldh_bornes in E as [E1 E2].
    destruct (Z.leb_spec 128 o), (Z.ltb_spec o 32), (Z.eqb_spec o 127), (Z.eqb_spec o 46); try lia.
    cbn [orb]. by rewrite orb_false_r, !Z.add_0_r.
  - destruct (Z.leb_spec 128 o), (Z.ltb_spec o 32), (Z.eqb_spec o 127), (Z.eqb_spec o 46); try lia;
      cbn [orb]; by rewrite ?u8_plus, ?orb_true_r, ?orb_false_r, ?Z.add_0_r.
Qed.

Lemma observer_octets l : forall n h c ho hb ct pt lh pr se tr ut,
  fold_left observer_octet l (n, h, Profil c ho (u8 hb) (u8 ct) (u8 pt) lh pr se tr ut)
  = (n + compte hors l, h || existsb haut l,
     Profil c ho (u8 (hb + compte haut l)) (u8 (ct + compte controle l)) (u8 (pt + compte point_interne l))
       lh pr se tr ut).
Proof.
  induction l as [|o l IH]; intros; cbn [fold_left existsb].
  - by rewrite !compte_nil, !Z.add_0_r, orb_false_r.
  - by rewrite observer_un, IH, !compte_cons, !Z.add_assoc, orb_assoc.
Qed.

(** Octets below 128 are valid UTF-8 by themselves. *)
Lemma utf8_ascii l : existsb haut l = false -> utf8_valide l = true.
Proof.
  induction l as [|a l IH]; [done|]. cbn [existsb]. intros [H1 H2]%orb_false_iff.
  unfold haut in H1. cbn. replace (a <? 128) with true by (symmetry; apply Z.ltb_lt; apply Z.leb_gt in H1; lia).
  by apply IH.
Qed.

Lemma haut_hors o : haut o = true -> hors o = true.
Proof.
  unfold haut, hors. intros H. destruct (ldh o) eqn:E; [|done]. apply ldh_bornes in E. zbool. lia.
Qed.

Lemma existsb_impl {A} (p q : A -> bool) l :
  (forall x, p x = true -> q x = true) -> existsb p l = true -> existsb q l = true.
Proof. intros Hpq. rewrite !existsb_exists. intros (x & Hx & Hp). exists x. auto. Qed.

(** Observing the labels in order computes the census. *)
Lemma observer_releve ls l : observerLabelGrammaire (releve ls) l (zlen ls) = releve (ls ++ [l]).
Proof.
  unfold observerLabelGrammaire, releve. rewrite observer_octets. cbn [orb].
  rewrite concat_app, !compte_app, existsb_app. cbn [concat existsb]. rewrite !app_nil_r, orb_false_r.
  rewrite !compte_cons, !compte_nil, Z.add_0_r.
  pose proof (compte_existe hors l : label_hors l = _) as Hlh.
  assert (service l = negb (0 <? compte hors l) && (2 <=? zlen l) && (bget l 0 =? 95)) as Hsv
    by (by rewrite <- Hlh).
  assert (negb (utf8_valide l) = existsb haut l && negb (utf8_valide l)) as ->.
  { destruct (existsb haut l) eqn:E; [done|]. by rewrite utf8_ascii. }
  assert (0 < compte hors l \/ (compte hors l = 0 /\ existsb haut l = false)) as Hc.
  { pose proof (compte_pos hors l). destruct (decide (compte hors l = 0)); [right|left; lia]. split; [done|].
    apply not_true_iff_false. intros H1%(existsb_impl haut hors l haut_hors). rewrite compte_existe in H1. zbool. lia. }
  assert (forall n p, (zlen ls =? Z.of_nat n) = false -> au_rang n p (ls ++ [l]) = au_rang n p ls) as Hrg.
  { intros n p Hn. unfold au_rang. destruct (decide (n < length ls)%nat).
    - by rewrite lookup_app_l.
    - rewrite !lookup_ge_None_2; [done| |]; rewrite ?length_app; simpl; apply Z.eqb_neq in Hn; unfold zlen in Hn; lia. }
  assert (forall n p, (zlen ls =? Z.of_nat n) = true -> au_rang n p (ls ++ [l]) = p l /\ au_rang n p ls = false) as Hrg'.
  { intros n p Hn. apply Z.eqb_eq in Hn. unfold zlen in Hn. apply Nat2Z.inj in Hn as <-. unfold au_rang.
    rewrite list_lookup_middle by done. by rewrite lookup_ge_None_2. }
  assert (compte hors l = 0 -> compte haut l = 0) as H0.
  { intros H0. destruct Hc as [?|[_ Hh]]; [lia|]. rewrite compte_existe in Hh. zbool. pose proof (compte_pos haut l). lia. }
  rewrite u8_plus, u8_plus_r, u8_plus, !(Z.add_0_l (compte hors l)).
  destruct (zlen ls =? 0) eqn:E0; [destruct (Hrg' 0%nat label_hors E0) as [-> ->]|rewrite (Hrg 0%nat) by done];
  (destruct (zlen ls =? 1) eqn:E1; [destruct (Hrg' 1%nat service E1) as [-> ->]|rewrite (Hrg 1%nat) by done]);
  (destruct (zlen ls =? 2) eqn:E2; [destruct (Hrg' 2%nat transport E2) as [-> ->]|rewrite (Hrg 2%nat) by done]);
  zbool; try lia;
  (destruct Hc as [Hc|[Hc Hh]]; [rewrite ?Hsv, ?Hlh, (proj2 (Z.ltb_lt _ _) Hc)|rewrite ?Hsv, ?Hlh, Hc, Hh]);
  cbn [Z.ltb Z.compare negb andb];
  rewrite ?(proj2 (Z.eqb_neq (compte hors l) 0)) by lia;
  destruct (existsb haut l), (utf8_valide l); cbn [andb negb]; rewrite ?orb_true_r, ?orb_false_r, ?Z.add_0_r; done.
Qed.

(** ** The class *)

Lemma existsb_orb {A} (p q : A -> bool) l : existsb (fun x => p x || q x) l = existsb p l || existsb q l.
Proof.
  induction l as [|x l IH]; [done|]. simpl. rewrite IH. by destruct (p x), (q x), (existsb p l), (existsb q l).
Qed.

Lemma compte_labels ls : compte label_hors ls <= compte hors (concat ls).
Proof.
  induction ls as [|l ls IH]; [done|]. simpl. rewrite compte_cons, compte_app.
  pose proof (compte_existe hors l : label_hors l = _) as ->. pose proof (compte_pos hors l).
  destruct (Z.ltb_spec 0 (compte hors l)); lia.
Qed.

Lemma compte_nul {A} (p : A -> bool) l : (compte p l =? 0) = negb (existsb p l).
Proof.
  rewrite compte_existe. pose proof (compte_pos p l).
  destruct (Z.eqb_spec (compte p l) 0), (Z.ltb_spec 0 (compte p l)); done || lia.
Qed.

Lemma controle_hors o : controle o = true -> hors o = true.
Proof.
  unfold controle, hors. intros H. destruct (ldh o) eqn:E; [|done]. apply ldh_bornes in E.
  apply orb_true_iff in H. rewrite Z.ltb_lt, Z.eqb_eq in H. lia.
Qed.

(** Labels without an octet outside LDH are neutral for every other count. *)
Lemma sans_hors ls : existsb label_hors ls = false ->
  existsb (existsb controle) ls = false /\ existsb (fun l => negb (utf8_valide l)) ls = false.
Proof.
  induction ls as [|l ls IH]; [done|]. simpl. intros [Hl H]%orb_false_iff. destruct (IH H) as [-> ->].
  assert (existsb controle l = false) as ->.
  { apply not_true_iff_false. intros Hc%(existsb_impl _ hors _ controle_hors). unfold label_hors in Hl. congruence. }
  rewrite utf8_ascii; [done|].
  apply not_true_iff_false. intros Hc%(existsb_impl _ hors _ haut_hors). unfold label_hors in Hl. congruence.
Qed.

Lemma instance_dnssd_ok ls :
  (compte label_hors ls =? 1) && au_rang 0 label_hors ls && au_rang 1 service ls && au_rang 2 transport ls
    && negb (existsb (existsb controle) ls) && negb (existsb (fun l => negb (utf8_valide l)) ls)
  = instance_dnssd ls.
Proof.
  destruct ls as [|a [|s [|t r]]]; unfold au_rang; cbn [lookup list_lookup];
    rewrite ?andb_false_r; [done..|].
  cbn [instance_dnssd]. set (q := s :: t :: r). rewrite compte_cons.
  destruct (label_hors a) eqn:Ea; [|by rewrite andb_false_r].
  replace (1 + compte label_hors q =? 1) with (compte label_hors q =? 0)
    by (destruct (Z.eqb_spec (compte label_hors q) 0), (Z.eqb_spec (1 + compte label_hors q) 1); done || lia).
  rewrite compte_nul. destruct (existsb label_hors q) eqn:Eq; [done|]. cbn [negb andb].
  destruct (sans_hors q Eq) as [H1 H2]. cbn [existsb]. rewrite H1, H2, !orb_false_r, negb_involutive.
  unfold service. cbn [existsb q] in Eq. apply orb_false_iff in Eq as [-> _].
  by destruct (2 <=? zlen s), (bget s 0 =? 95), (transport t), (existsb controle a), (utf8_valide a).
Qed.

Lemma u8_compte {A} (p : A -> bool) l : zlen l < 256 -> u8 (compte p l) = compte p l.
Proof.
  intros H. apply u8_id. unfold is_u8. pose proof (compte_pos p l). pose proof (compte_long p l). lia.
Qed.

(** With fewer than 256 octets no counter wraps, and the class is the expected one. *)
Lemma classe_releve ls : zlen (concat ls) < 256 ->
  Classe (finaliserGrammaire (releve ls)) = classe_attendue ls.
Proof.
  intros Hz. unfold finaliserGrammaire, releve. cbn [OctetsHorsLDH LabelsHorsLDH PremierLabelHorsLDH
    SecondLabelService TroisiemeLabelTransport OctetsControle UTF8Invalide PointsInternes OctetsHautBit Classe].
  rewrite (u8_compte hors), (u8_compte haut), (u8_compte controle), (u8_compte point_interne) by done.
  rewrite (u8_id (compte label_hors ls))
    by (unfold is_u8; pose proof (compte_pos label_hors ls); pose proof (compte_labels ls);
        pose proof (compte_long hors (concat ls)); lia).
  rewrite !compte_nul, <- !compte_existe, !existsb_concat, instance_dnssd_ok.
  unfold classe_attendue. rewrite !existsb_orb. fold label_hors. unfold label_hors at 1.
  change (existsb (existsb hors) ls) with (existsb label_hors ls).
  destruct (existsb (existsb controle) ls), (existsb (existsb point_interne) ls),
    (existsb (fun l => negb (utf8_valide l)) ls); done.
Qed.

(** ** The profiler *)

Definition cadrage_ok (w : list Z) : Prop :=
  exists ls post, w = nom_filaire ls ++ post /\ Forall (fun l => 1 <= zlen l <= 63) ls.

Lemma zlen_filaire_cons l ls : zlen (nom_filaire (l :: ls)) = 1 + zlen l + zlen (nom_filaire ls).
Proof. unfold nom_filaire. rewrite !zlen_app, zlen_etiquettes_cons. lia. Qed.

Lemma filaire_cons l ls : nom_filaire (l :: ls) = (zlen l :: l) ++ nom_filaire ls.
Proof. unfold nom_filaire. simpl. by rewrite <- app_assoc. Qed.

Lemma etiquettes_snoc ls l : etiquettes_filaires (ls ++ [l]) = etiquettes_filaires ls ++ zlen l :: l.
Proof.
  induction ls as [|k ls IH]; simpl; [by rewrite app_nil_r|]. rewrite IH. by rewrite <- app_assoc.
Qed.

Lemma zlen_concat_filaire ls : zlen (concat ls) < zlen (nom_filaire ls).
Proof.
  induction ls as [|l ls IH]; [done|]. rewrite zlen_filaire_cons. simpl. rewrite zlen_app. lia.
Qed.

(** Two framings of the same octets are the same labels. *)
Lemma filaire_inj ls : forall ks r q, Forall (fun l => 1 <= zlen l) ls -> Forall (fun l => 1 <= zlen l) ks ->
  nom_filaire ls ++ r = nom_filaire ks ++ q -> ls = ks /\ r = q.
Proof.
  induction ls as [|l ls IH]; intros [|k ks] r q Hl Hk H.
  - by injection H.
  - apply Forall_cons_iff in Hk as [Hk _]. rewrite filaire_cons in H. cbn in H. injection H as H _. lia.
  - apply Forall_cons_iff in Hl as [Hl _]. rewrite filaire_cons in H. cbn in H. injection H as H _. lia.
  - apply Forall_cons_iff in Hl as [_ Hl]. apply Forall_cons_iff in Hk as [_ Hk].
    rewrite !filaire_cons, <- !app_assoc in H. cbn [app] in H. injection H as Hz H.
    apply app_inj_1 in H as [-> H]; [|unfold zlen in Hz; lia]. destruct (IH ks r q Hl Hk H) as [-> ->]. done.
Qed.

(** What the profiler returns on [w], read from any framing of [w]. *)
Definition profil_exact_pour (w : list Z) (r : option QNameGrammarProfile) : Prop :=
  match r with
  | None => ~ cadrage_ok w
  | Some p => exists ls post, w = nom_filaire ls ++ post /\ Forall (fun l => 1 <= zlen l <= 63) ls /\
      p = finaliserGrammaire (releve ls)
  end.

(** The octets before [position] are the labels already seen. *)
Definition profil_inv (w : list Z) (s : Z * Z * QNameGrammarProfile) : Prop :=
  let '(position, indiceLabel, profil) := s in
  exists ls suf, w = etiquettes_filaires ls ++ suf /\ Forall (fun l => 1 <= zlen l <= 63) ls /\
    position = zlen (etiquettes_filaires ls) /\ indiceLabel = zlen ls /\ profil = releve ls.

Lemma Forall_zlen_pos ls : Forall (fun l : list Z => 1 <= zlen l <= 63) ls -> Forall (fun l => 1 <= zlen l) ls.
Proof. intros H. eapply Forall_impl; [exact H|]. cbn. intros. lia. Qed.

(** A framing of [etiquettes_filaires ls ++ suf] extends [ls]. *)
Lemma cadrage_suffixe ls suf : Forall (fun l => 1 <= zlen l <= 63) ls ->
  cadrage_ok (etiquettes_filaires ls ++ suf) -> cadrage_ok suf.
Proof.
  intros Hl. revert suf. induction Hl as [|l ls Hl _ IH]; intros suf H; [done|].
  destruct H as (ks & post & H & Hk). destruct Hk as [|k ks Hk Hks].
  - cbn in H. injection H as H _. lia.
  - rewrite filaire_cons in H. cbn in H. rewrite <- !app_assoc in H. injection H as Hz H.
    apply app_inj_1 in H as [-> H]; [|unfold zlen in Hz; lia]. apply IH. by exists ks, post.
Qed.

Lemma profil_decide w : bytes_ok w -> wp (ProfileWireQName w) (profil_exact_pour w).
Proof.
  intros Hw. unfold ProfileWireQName.
  apply (wp_loop _ (profil_inv w) (fun s => zlen w - s.1.1)).
  - intros [[position indice] profil] (ls & suf & -> & Hls & -> & -> & ->).
    assert (cadrage_ok (etiquettes_filaires ls ++ suf) -> cadrage_ok suf) as Hc by by apply cadrage_suffixe.
    rewrite zlen_app. destruct suf as [|o suf].
    { rewrite zlen_nil. wp_step; [lia|]. apply wp_done. intros (ks & post & H & Hk)%Hc.
      destruct ks; [done|]. by rewrite filaire_cons in H. }
    apply Forall_app in Hw as [_ [Ho Hsuf]%Forall_cons_iff]. rewrite zlen_cons. pose proof (zlen_nonneg suf).
    pose proof (zlen_nonneg (etiquettes_filaires ls)).
    wp_step; [|lia]. rewrite idx_mid, run_bind_done by done.
    wp_step; [apply wp_done; exists ls, suf; unfold nom_filaire; by rewrite <- app_assoc, Hc1|].
    unfold is_u8 in Ho.
    wp_step.
    { apply wp_done. intros (ks & post & H1 & Hk)%Hc. destruct Hk as [|k ks Hk _]; [by injection H1|].
      rewrite filaire_cons in H1. cbn in H1. injection H1 as -> ->. rewrite !zlen_app in Hc2.
      pose proof (zlen_nonneg (nom_filaire ks)). pose proof (zlen_nonneg post).
      apply orb_true_iff in Hc2. rewrite !Z.ltb_lt in Hc2. lia. }
    assert (exists l r, suf = l ++ r /\ zlen l = o) as (l & r & -> & <-).
    { exists (take (Z.to_nat o) suf), (drop (Z.to_nat o) suf). split; [by rewrite take_drop|].
      unfold zlen in *. rewrite length_take. lia. }
    wp_step. apply wp_slice; [pose proof (zlen_nonneg (etiquettes_filaires ls)); lia| |].
    { rewrite !zlen_app, zlen_cons, zlen_app in *. lia. }
    set (lab := take _ _). assert (lab = l) as ->.
    { unfold lab. change (etiquettes_filaires ls ++ zlen l :: l ++ r) with (etiquettes_filaires ls ++ [zlen l] ++ l ++ r).
      rewrite app_assoc. replace (Z.to_nat (zlen (etiquettes_filaires ls) + 1)) with (length (etiquettes_filaires ls ++ [zlen l]))
        by (rewrite length_app; unfold zlen; simpl; lia).
      rewrite drop_app_length. replace (Z.to_nat _) with (length l) by (unfold zlen; lia). apply take_app_length. }
    apply wp_done. cbn [fst snd]. rewrite zlen_app in *. split; [|lia].
    exists (ls ++ [l]), r. split_and!.
    + by rewrite etiquettes_snoc, <- app_assoc.
    + apply Forall_app. split; [done|]. apply Forall_singleton. zbool. lia.
    + rewrite etiquettes_snoc, zlen_app, zlen_cons. lia.
    + by rewrite zlen_app.
    + apply observer_releve.
  - exists [], w. done.
  - cbn [fst snd]. unfold zlen. lia.
Qed.

(** ** Properties *)

(** The profiler is total on octet strings and exact: it returns a profile
    exactly on the correctly framed names (labels of 1 to 63 octets, a final
    zero), and for a name of at most 255 octets the counters are the numbers of
    octets of each kind, without wrap-around, and the class is the one read off
    the labels (LDH, DNS-SD instance, binary, local UTF-8, other ASCII). *)
Theorem grammaire_exacte w : bytes_ok w ->
  exists r, ProfileWireQName w = Done r /\ (r = None <-> ~ cadrage_ok w) /\
    forall ls post, w = nom_filaire ls ++ post -> Forall (fun l => 1 <= zlen l <= 63) ls ->
      zlen (nom_filaire ls) <= 255 ->
      exists p, r = Some p /\ Classe p = classe_attendue ls /\
        OctetsHorsLDH p = compte hors (concat ls) /\ OctetsHautBit p = compte haut (concat ls) /\
        OctetsControle p = compte controle (concat ls) /\ PointsInternes p = compte point_interne (concat ls).
Proof.
  intros Hw. pose proof (profil_decide w Hw) as (r & Hr & Hp)%wp_exists. exists r. split; [done|]. split.
  - split; [by intros ->|]. destruct r as [p|]; [|done]. destruct Hp as (ls & post & -> & Hls & _).
    intros []. by exists ls, post.
  - intros ls post -> Hls Hz. destruct r as [p|]; [|destruct Hp; by exists ls, post].
    destruct Hp as (ks & q & H & Hks & ->). apply filaire_inj in H as [<- _]; [|by apply Forall_zlen_pos..].
    exists (finaliserGrammaire (releve ls)). assert (zlen (concat ls) < 256).
    { pose proof (zlen_concat_filaire ls). lia. }
    split; [done|]. split; [by apply classe_releve|].
    unfold finaliserGrammaire, releve; cbn.
    by rewrite (u8_compte hors), (u8_compte haut), (u8_compte controle), (u8_compte point_interne).
Qed.

(** [Mon PC._http._tcp.local], a printer service. *)
Definition nom_dnssd : list (list Z) := octets <$> ["Mon PC"; "_http"; "_TCP"; "local"]%string.

Lemma grammaire_exacte_witness :
  exists r, ProfileWireQName (nom_filaire nom_dnssd) = Done r /\ (r = None <-> ~ cadrage_ok (nom_filaire nom_dnssd)) /\
    exists p, r = Some p /\ Classe p = QNameGrammarDNSSDInstance /\ OctetsHorsLDH p = 1.
Proof.
  destruct (grammaire_exacte (nom_filaire nom_dnssd)) as (r & H & Hn & Hp); [by apply octets_valides_ok|].
  exists r. split; [done|]. split; [done|].
  destruct (Hp nom_dnssd []) as (p & -> & Hc & Ho & _).
  - by rewrite app_nil_r.
  - repeat constructor; by vm_compute.
  - by vm_compute.
  - exists p. split; [done|]. split; [rewrite Hc; by vm_compute|rewrite Ho; by vm_compute].
Defined.
