(* ===== verification/Fnv.v ===== *)
(** The hash functions every tracker keys its table with: FNV-1a over 64 bits
    (constants of src/internal/engine/dns_episode_p1p2.go, loop of
    [hacherOctetsFNV64a]) and the SplitMix64 finaliser of
    src/internal/engine/renouvellement_rdata.go. *)
From S2P Require Import Prelude.

Definition fnvOffset64 : Z := 14695981039346656037.
Definition fnvPrime64 : Z := 1099511628211.

(** [hachage ^= uint64(octet); hachage *= fnvPrime64] *)
Definition fnv_octet (hachage octet : Z) : Z := u64 (Z.lxor hachage octet * fnvPrime64).

Definition hacherOctetsFNV64a (etatInitial : Z) (octets : list Z) : Z :=
  fold_left fnv_octet octets etatInitial.

Definition melangerSplitMix64 (entree : Z) : Z :=
  let etat := u64 (entree + 0x9e3779b97f4a7c15) in
  let etat := u64 (Z.lxor etat (Z.shiftr etat 30) * 0xbf58476d1ce4e5b9) in
  let etat := u64 (Z.lxor etat (Z.shiftr etat 27) * 0x94d049bb133111eb) in
  Z.lxor etat (Z.shiftr etat 31).

Lemma fnv_octet_range h b : is_u64 (fnv_octet h b).
Proof. apply u64_range. Qed.

Lemma hacherOctetsFNV64a_range l : forall h, is_u64 h -> is_u64 (hacherOctetsFNV64a h l).
Proof. induction l; simpl; intros; auto using fnv_octet_range. Qed.

Lemma shiftr_range a k n : 0 <= k -> 0 <= a < 2 ^ n -> 0 <= Z.shiftr a k < 2 ^ n.
Proof.
  intros Hk Ha. rewrite Z.shiftr_div_pow2 by lia.
  assert (0 < 2 ^ k) by lia. split; [apply Z.div_pos; lia|].
  apply Z.div_lt_upper_bound; [lia|]. nia.
Qed.

Lemma melangerSplitMix64_range x : is_u64 (melangerSplitMix64 x).
Proof.
  unfold melangerSplitMix64; cbv zeta. apply lxor_range; [lia|apply u64_range|].
  apply shiftr_range; [lia|apply u64_range].
Qed.
#[export] Hint Resolve fnv_octet_range hacherOctetsFNV64a_range melangerSplitMix64_range : c2.
