(* ===== verification/Creneaux.v ===== *)
(** Parallel arrays of a tracker lane: [empreintes[i]] is live when it is not
    zero and [horodatages[i]] is its date.  The SOA, AAAA and renewal trackers
    all keep such pairs of arrays; their invariants are stated here. *)
From S2P Require Import Prelude.

(** The reason returned when no rule fires (dns_forensic_ttd.go). *)
Definition ReasonNone : string := "REASON_NONE".

(** Every live cell satisfies [P]. *)
Definition creneaux (P : Z -> Z -> Prop) (E H : list Z) : Prop :=
  forall j e h, E !! j = Some e -> H !! j = Some h -> e <> 0 -> P e h.

(** No live value occurs twice. *)
Definition sans_doublon (E : list Z) : Prop :=
  forall i j e, E !! i = Some e -> E !! j = Some e -> e <> 0 -> i = j.

Lemma creneaux_mono (P Q : Z -> Z -> Prop) E H :
  (forall e h, P e h -> Q e h) -> creneaux P E H -> creneaux Q E H.
Proof. unfold creneaux. eauto. Qed.

Lemma creneaux_insert P E H i e h :
  creneaux P E H -> (e <> 0 -> P e h) -> creneaux P (<[i := e]> E) (<[i := h]> H).
Proof.
  intros HP He j e' h' HE HH Hn.
  apply list_lookup_insert_Some in HE as [(? & ? & _)|[? HE]];
  apply list_lookup_insert_Some in HH as [(? & ? & _)|[? HH]]; subst; try congruence; eauto.
Qed.

Lemma creneaux_zero P n H : creneaux P (replicate n 0) H.
Proof. intros j e h HE _ Hn. apply lookup_replicate in HE as [-> _]. done. Qed.

Lemma sans_doublon_zero n : sans_doublon (replicate n 0).
Proof. intros i j e HE _ Hn. apply lookup_replicate in HE as [-> _]. done. Qed.

Lemma sans_doublon_insert E i e :
  sans_doublon E -> (e <> 0 -> forall j, E !! j <> Some e) -> sans_doublon (<[i := e]> E).
Proof.
  intros HE He a b x Ha Hb Hx.
  apply list_lookup_insert_Some in Ha as [(? & ? & _)|[? Ha]];
  apply list_lookup_insert_Some in Hb as [(? & ? & _)|[? Hb]]; subst; try done.
  - by destruct (He Hx b).
  - by destruct (He Hx a).
  - eauto.
Qed.

(** Number of live cells ([if e != 0 { n++ }]). *)
Definition nb_vivants (E : list Z) : Z := zlen (filter (fun e => e <> 0) E).

(** Three live cells of a duplicate-free array are three distinct values. *)
Lemma vivants_distincts E n :
  sans_doublon E -> n <= nb_vivants E ->
  exists L, NoDup L /\ n <= zlen L /\ forall e, e ∈ L -> e <> 0 /\ exists j, E !! j = Some e.
Proof.
  intros Hd Hn. exists (filter (fun e => e <> 0) E). split_and!; [|done|].
  - clear Hn. induction E as [|x E IH]; [constructor|].
    assert (sans_doublon E) as HE.
    { intros i j e Hi Hj Hx. assert (S i = S j) by (by apply (Hd (S i) (S j) e)). lia. }
    rewrite filter_cons. destruct (decide (x <> 0)) as [Hx|Hx]; [|auto].
    apply NoDup_cons. split; [|auto]. intros [_ [j Hj]%list_elem_of_lookup]%list_elem_of_filter.
    by assert (0%nat = S j) by (by apply (Hd 0%nat (S j) x)).
  - intros e [He [j Hj]%list_elem_of_lookup]%list_elem_of_filter. eauto.
Qed.

(** Enough distinct live values make enough live cells. *)
Lemma nb_vivants_ge E L :
  NoDup L -> (forall e, e ∈ L -> e <> 0 /\ exists j, E !! j = Some e) -> zlen L <= nb_vivants E.
Proof.
  intros Hn HL. unfold nb_vivants, zlen. apply inj_le. apply submseteq_length.
  apply NoDup_submseteq; [done|]. intros e He. destruct (HL e He) as [H0 [j Hj]].
  apply list_elem_of_filter. split; [done|]. by apply list_elem_of_lookup_2 in Hj.
Qed.

Lemma nb_vivants_plein E :
  (forall j, (j < length E)%nat -> E !! j <> Some 0) -> nb_vivants E = zlen E.
Proof.
  unfold nb_vivants. induction E as [|x E IH]; intros H; [done|].
  rewrite filter_cons_True by (intros ->; apply (H 0%nat); simpl; auto; lia).
  rewrite !zlen_cons, IH; [done|]. intros j Hj. apply (H (S j)). simpl. lia.
Qed.

(** The live cells dated from [seuil] on are distinct values with such a date. *)
Lemma vivants_depuis_distincts E H seuil :
  zlen E = zlen H -> sans_doublon E ->
  exists L, NoDup L /\
    zlen (filter (fun '(e, h) => e <> 0 /\ seuil <= h) (zip E H)) = zlen L /\
    forall e, e ∈ L -> e <> 0 /\ exists j d, E !! j = Some e /\ H !! j = Some d /\ seuil <= d.
Proof.
  intros Hz Hd. exists (fst <$> filter (fun '(e, h) => e <> 0 /\ seuil <= h) (zip E H)).
  split_and!.
  - revert H Hz. induction E as [|x E IH]; intros [|y H] Hz; try (constructor).
    assert (sans_doublon E) as HE.
    { intros i j e Hi Hj Hx. assert (S i = S j) by (by apply (Hd (S i) (S j) e)). lia. }
    rewrite !zlen_cons in Hz. specialize (IH HE H ltac:(lia)). simpl.
    rewrite filter_cons. case_decide as Hx; [|done]. simpl. apply NoDup_cons. split; [|done].
    intros ([e h] & He & Hin)%list_elem_of_fmap. simpl in He. subst e.
    apply list_elem_of_filter in Hin as [_ [j Hj]%list_elem_of_lookup].
    apply lookup_zip_Some in Hj as [Hj _]. destruct Hx as [Hx _].
    by assert (0%nat = S j) by (by apply (Hd 0%nat (S j) x)).
  - unfold zlen. by rewrite length_fmap.
  - intros e ([x h] & -> & Hin)%list_elem_of_fmap. simpl.
    apply list_elem_of_filter in Hin as [[Hx Hs] [j Hj]%list_elem_of_lookup].
    apply lookup_zip_Some in Hj as [Hj1 Hj2]. split; [done|]. eauto.
Qed.
