(* ===== verification/SuiviSoa.v ===== *)
(** [SOANegativeTracker] (src/internal/engine/soa_negative.go): rule P20, a
    downlink hidden in the SOA fields of negative DNS answers.  The wire part
    ([extraire_soa]) reads one response; the table part ([inserer_soa]) is the
    256x4 associative table of 8 fingerprints; [ObserveResponse] composes them.
    The theorems: no input panics or loops, the table keeps its shape and its
    duplicate-freedom, and every alarm is backed by three distinct SOA
    fingerprints really observed for the key within the ten-minute window. *)
From S2P Require Import Prelude DnsName Fnv Creneaux.

Definition ReasonP20SOANegDownlink : string := "REASON_P20_SOA_NEG_DOWNLINK".

(** One way of the table: key, 8 fingerprints, 8 dates. *)
Record voie_soa := VoieSoa {
  cleSuivi : Z;
  empreintesSOA : list Z;
  horodatagesNs : list Z
}.
(** [tableCreneaux [256][4]struct{...}] *)
Definition SOANegativeTracker : Type := list (list voie_soa).

Definition voie_soa_vide : voie_soa := VoieSoa 0 (replicate 8 0) (replicate 8 0).
Definition tracker_soa_vide : SOANegativeTracker := replicate 256 (replicate 4 voie_soa_vide).

Definition cleSuiviSOA (clientIP proprietaire : list Z) : Z :=
  fold_left (fun h b => fnv_octet h (minuscule b)) proprietaire
    (hacherOctetsFNV64a fnvOffset64 clientIP).

Definition indexAlveoleSOA (cle : Z) : Z := Z.land cle 255.

(** ** Wire part *)

(** What the SOA branch retains: owner, MNAME, RNAME, offset of the serial. *)
Record soa_lue := SoaLue {
  proprietaireSOA : list Z;
  nomM : list Z;
  nomR : list Z;
  decalageSerial : Z
}.

(** The suffix comparison between the question and the SOA owner. *)
Definition suffixe_identique (tq : list Z) (fq : list bool) (tp : list Z) (fp : list bool)
    (debutSuffixe n : Z) : run bool :=
  o ← for_range n tt (fun i _ =>
        q ← idx tq (debutSuffixe + i); p ← idx tp i;
        if negb (q =? p) then Done (inr tt) else
        bq ← idx fq (debutSuffixe + i); bp ← idx fp i;
        if negb (Bool.eqb bq bp) then Done (inr tt) else Done (inl tt));
  Done (match o with inl _ => true | inr _ => false end).

(** The [if typeEnregistrement == 6] block; [None] is [return false, ReasonNone]. *)
Definition lire_soa (respWire tq : list Z) (fq : list bool) (longueurQuestion
    decalageCourant finProprietaire debutDonnees finDonnees : Z) : run (option soa_lue) :=
  r ← decompresserNomDNS respWire decalageCourant finProprietaire false tampon255 frontieres255;
  if negb (valide r) || (longueurQuestion <? taille r) then Done None else
  fp ← slice (bornes r) 0 (taille r);
  let nombreLabels := zlen (filter (fun b => b = true) fp) in
  let debutSuffixe := longueurQuestion - taille r in
  if nombreLabels <? 2 then Done None else
  bd ← idx fq debutSuffixe;
  if negb bd then Done None else
  ok ← suffixe_identique tq fq (contenu r) (bornes r) debutSuffixe (taille r);
  if negb ok then Done None else
  m ← decompresserNomDNS respWire debutDonnees finDonnees false tampon255 None;
  if negb (valide m) then Done None else
  rn ← decompresserNomDNS respWire (fin m) finDonnees false tampon255 None;
  if negb (valide rn) || (finDonnees <? fin rn + 20) then Done None else
  p ← slice (contenu r) 0 (taille r);
  nm ← slice (contenu m) 0 (taille m);
  nr ← slice (contenu rn) 0 (taille rn);
  Done (Some (SoaLue p nm nr (fin rn))).

(** [for range nbAutorites]: stops at the first SOA, [None] when there is none
    or when the response is refused. *)
Definition chercher_soa (respWire tq : list Z) (fq : list bool) (longueurQuestion
    nbAutorites decalage : Z) : run (option soa_lue) :=
  o ← for_range nbAutorites decalage (fun _ cur =>
        r ← decompresserNomDNS respWire cur (zlen respWire) false None None;
        if negb (valide r) || (zlen respWire <? fin r + 10) then Done (inr None) else
        typeEnregistrement ← be16 respWire (fin r);
        longueurDonnees ← be16 respWire (fin r + 8);
        let debutDonnees := fin r + 10 in
        let finDonnees := debutDonnees + longueurDonnees in
        if zlen respWire <? finDonnees then Done (inr None) else
        if typeEnregistrement =? 6 then
          s ← lire_soa respWire tq fq longueurQuestion cur (fin r) debutDonnees finDonnees;
          Done (inr s)
        else Done (inl finDonnees));
  Done (match o with inl _ => None | inr s => s end).

Definition extraire_soa (respWire : list Z) : run (option soa_lue) :=
  if zlen respWire <? 12 then Done None else
  o2 ← idx respWire 2;
  if Z.land o2 128 =? 0 then Done None else
  o3 ← idx respWire 3;
  let codeReponse := Z.land o3 15 in
  if negb (codeReponse =? 0) && negb (codeReponse =? 3) then Done None else
  nbQuestions ← be16 respWire 4;
  nbReponses ← be16 respWire 6;
  nbAutorites ← be16 respWire 8;
  if (nbQuestions =? 0) || (0 <? nbReponses) || (nbAutorites =? 0) then Done None else
  q ← decompresserNomDNS respWire 12 (zlen respWire) false tampon255 frontieres255;
  if negb (valide q) || (zlen respWire <? fin q + 4) then Done None else
  o ← sauter_questions respWire (nbQuestions - 1) (fin q + 4);
  match o with
  | inr _ => Done None
  | inl cur => chercher_soa respWire (contenu q) (bornes q) (taille q) nbAutorites cur
  end.

(** FNV-1a of MNAME, 0, RNAME, 0, serial; 0 is reserved for free cells. *)
Definition empreinte_soa (respWire : list Z) (s : soa_lue) : run Z :=
  let e := hacherOctetsFNV64a fnvOffset64 (nomM s) in
  let e := fnv_octet e 0 in
  let e := hacherOctetsFNV64a e (nomR s) in
  let e := fnv_octet e 0 in
  serial ← slice respWire (decalageSerial s) (decalageSerial s + 4);
  let e := hacherOctetsFNV64a e serial in
  Done (if e =? 0 then 1 else e).

(** ** Table part *)

(** The most recent date of the live cells of a way ([dateRecente]). *)
Definition date_recente (E H : list Z) : Z :=
  fst (fold_left (fun '(d, trouvee) '(e, h) =>
         if negb (e =? 0) && (negb trouvee || (d <? h)) then (h, true) else (d, trouvee))
       (zip E H) (0, false)).

Record choix_voie := ChoixVoie {
  indiceVoieLibre : Z;
  indiceVoieAncienne : Z;
  dateVoieAncienne : Z
}.

(** The search over the four ways: [inr] is the way that holds the key. *)
Definition chercher_voie_soa (alveole : list voie_soa) (hachageCle : Z)
  : run (choix_voie + Z) :=
  for_range 4 (ChoixVoie (-1) 0 0) (fun i c =>
    v ← idx alveole i;
    if forallb (fun e => e =? 0) (empreintesSOA v) then
      Done (inl (if indiceVoieLibre c <? 0
                 then ChoixVoie i (indiceVoieAncienne c) (dateVoieAncienne c) else c))
    else if cleSuivi v =? hachageCle then Done (inr i)
    else
      let d := date_recente (empreintesSOA v) (horodatagesNs v) in
      Done (inl (if (i =? 0) || (d <? dateVoieAncienne c)
                 then ChoixVoie (indiceVoieLibre c) i d else c))).

(** The loop that expires, recognises and finds a free cell. *)
Definition rafraichir_soa (E H : list Z) (empreinteSOA tsNs seuilExpirationNs : Z)
  : run (list Z * list Z * bool * Z) :=
  o ← for_range 8 (E, H, false, -1) (fun i '(E, H, connue, libre) =>
        e ← idx E i; h ← idx H i;
        '(E, H) ← (if negb (e =? 0) && (h <? seuilExpirationNs)
                   then E' ← upd E i 0; H' ← upd H i 0; Done (E', H')
                   else Done (E, H));
        e ← idx E i;
        if e =? empreinteSOA then
          H ← upd H i tsNs;
          Done (inl (B := list Z * list Z * bool * Z) (E, H, true, libre))
        else if (e =? 0) && (libre <? 0) then Done (inl (E, H, connue, i))
        else Done (inl (E, H, connue, libre)));
  Done (match o with inl s | inr s => s end).

(** [indicePlusAncien]: the first cell with the smallest date. *)
Definition plus_ancien_soa (H : list Z) : run Z :=
  o ← for_range 7 0 (fun i ancien =>
        a ← idx H (i + 1); b ← idx H ancien;
        Done (inl (B := Z) (if a <? b then i + 1 else ancien)));
  Done (match o with inl s | inr s => s end).

(** The update of the chosen way. *)
Definition inserer_voie_soa (v : voie_soa) (empreinteSOA tsNs : Z) : run voie_soa :=
  '(E, H, connue, libre) ←
    rafraichir_soa (empreintesSOA v) (horodatagesNs v) empreinteSOA tsNs (i64 (tsNs - 600000000000));
  if (connue : bool) then Done (VoieSoa (cleSuivi v) E H) else
  cible ← (if 0 <=? libre then Done libre else plus_ancien_soa H);
  E ← upd E cible empreinteSOA;
  H ← upd H cible tsNs;
  Done (VoieSoa (cleSuivi v) E H).

Definition inserer_soa (t : SOANegativeTracker) (hachageCle empreinteSOA tsNs : Z)
  : run (SOANegativeTracker * bool) :=
  alveole ← idx t (indexAlveoleSOA hachageCle);
  c ← chercher_voie_soa alveole hachageCle;
  let '(indice, absente) := match c with
    | inr i => (i, false)
    | inl c => (if indiceVoieLibre c <? 0 then indiceVoieAncienne c else indiceVoieLibre c, true)
    end in
  v ← idx alveole indice;
  let v := if absente then VoieSoa hachageCle (replicate 8 0) (replicate 8 0) else v in
  v ← inserer_voie_soa v empreinteSOA tsNs;
  alveole ← upd alveole indice v;
  t ← upd t (indexAlveoleSOA hachageCle) alveole;
  Done (t, 3 <=? nb_vivants (empreintesSOA v)).

(** [ObserveResponse] *)
Definition observer_soa (t : SOANegativeTracker) (tsNs : Z) (clientIP respWire : list Z)
  : run (SOANegativeTracker * (bool * string)) :=
  s ← extraire_soa respWire;
  match s with
  | None => Done (t, (false, ReasonNone))
  | Some s =>
      let hachageCle := cleSuiviSOA clientIP (proprietaireSOA s) in
      e ← empreinte_soa respWire s;
      '(t, alarme) ← inserer_soa t hachageCle e tsNs;
      Done (t, if (alarme : bool) then (true, ReasonP20SOANegDownlink) else (false, ReasonNone))
  end.

(** * Invariants of the table *)

(** [Obs cle empreinte date]: a response with this fingerprint was observed for
    this key at this date. *)
Section invariant.
Context (Obs : Z -> Z -> Z -> Prop).

Definition voie_inv (v : voie_soa) : Prop :=
  zlen (empreintesSOA v) = 8 /\ zlen (horodatagesNs v) = 8 /\
  sans_doublon (empreintesSOA v) /\
  creneaux (Obs (cleSuivi v)) (empreintesSOA v) (horodatagesNs v).

Definition tracker_inv (t : SOANegativeTracker) : Prop :=
  zlen t = 256 /\ Forall (fun a => zlen a = 4 /\ Forall voie_inv a) t.
End invariant.

Lemma voie_inv_mono (O1 O2 : Z -> Z -> Z -> Prop) v :
  (forall k e h, O1 k e h -> O2 k e h) -> voie_inv O1 v -> voie_inv O2 v.
Proof. intros H (?&?&?&?). split_and!; eauto using creneaux_mono. Qed.

Lemma soa_inv_mono (O1 O2 : Z -> Z -> Z -> Prop) t :
  (forall k e h, O1 k e h -> O2 k e h) -> tracker_inv O1 t -> tracker_inv O2 t.
Proof.
  intros H [Hz Ht]. split; [done|]. eapply Forall_impl; [exact Ht|].
  intros a [Ha Hv]. split; [done|]. eapply Forall_impl; [exact Hv|]. eauto using voie_inv_mono.
Qed.

Lemma soa_inv_vide Obs : tracker_inv Obs tracker_soa_vide.
Proof.
  split; [done|]. apply Forall_replicate. split; [done|]. apply Forall_replicate.
  split_and!; [done..|apply sans_doublon_zero|apply creneaux_zero].
Qed.

Section lane.
Context (fp ts seuil : Z) (P : Z -> Z -> Prop) (E0 H0 : list Z).
Hypothesis Hfp : fp <> 0.

Definition nouveau (e h : Z) : Prop := P e h \/ (e = fp /\ h = ts).
Definition frais (h : Z) : Prop := seuil <= h \/ h = ts.

(** After the first [i] cells: sizes, uniqueness, provenance, freshness,
    retention of the unexpired cells, and the meaning of the two locals. *)
Definition raf_inv (i : Z) (s : list Z * list Z * bool * Z) : Prop :=
  let '(E, H, connue, libre) := s in
  zlen E = 8 /\ zlen H = 8 /\ sans_doublon E /\ creneaux nouveau E H /\
  (forall j e h, Z.of_nat j < i -> E !! j = Some e -> H !! j = Some h -> e <> 0 -> frais h) /\
  (forall j, i <= Z.of_nat j -> E !! j = E0 !! j /\ H !! j = H0 !! j) /\
  (forall j e h, Z.of_nat j < i -> E0 !! j = Some e -> H0 !! j = Some h -> e <> 0 ->
     seuil <= h -> E !! j = Some e) /\
  (if (connue : bool) then exists j, Z.of_nat j < i /\ E !! j = Some fp
   else forall j, Z.of_nat j < i -> E !! j <> Some fp) /\
  (libre = -1 /\ (forall j, Z.of_nat j < i -> E !! j <> Some 0) \/
   0 <= libre < i /\ E !! Z.to_nat libre = Some 0).

Lemma raf_step i E H connue libre e h e' h' connue' libre' :
  raf_inv i (E, H, connue, libre) -> 0 <= i < 8 ->
  E !! Z.to_nat i = Some e -> H !! Z.to_nat i = Some h ->
  (e' = e \/ e' = 0 /\ h < seuil) ->
  (e' <> 0 -> nouveau e' h' /\ frais h') ->
  (if (connue' : bool) then connue = true \/ e' = fp else connue = false /\ e' <> fp) ->
  (libre' = libre /\ (e' <> 0 \/ 0 <= libre) \/ libre' = i /\ e' = 0) ->
  raf_inv (i + 1) (<[Z.to_nat i := e']> E, <[Z.to_nat i := h']> H, connue', libre').
Proof.
  intros (Hz & Hz' & Hd & Hc & Hf & Hs & Hr & Hk & Hl) Hi HEi HHi He Hn Hk' Hl'.
  assert (Z.to_nat i < length E)%nat as Hlt by (unfold zlen in *; lia).
  pose proof (Hs (Z.to_nat i) ltac:(lia)) as [HE0 HH0]. rewrite HEi in HE0. rewrite HHi in HH0.
  unfold raf_inv. rewrite !zlen_insert. split_and!; [done|done| | | | | | |].
  - destruct He as [-> |[-> _]]; [by rewrite list_insert_id|]. by apply sans_doublon_insert.
  - apply creneaux_insert; [done|]. intros ?. by apply Hn.
  - intros j x y Hj HE HH Hne.
    apply list_lookup_insert_Some in HE as [(? & ? & _)|[? HE]];
    apply list_lookup_insert_Some in HH as [(? & ? & _)|[? HH]]; subst; try done.
    + by apply Hn.
    + apply (Hf j x y); [lia|done..].
  - intros j Hj. rewrite !list_lookup_insert_ne by lia. apply Hs. lia.
  - intros j x y Hj HE HH Hne Hy. destruct (decide (j = Z.to_nat i)) as [-> |].
    + rewrite list_lookup_insert_eq by done. rewrite <- HE0 in HE. rewrite <- HH0 in HH.
      destruct He as [-> |[_ ?]]; congruence || (injection HH as <-; lia).
    + rewrite list_lookup_insert_ne by done. apply (Hr j x y); [lia|done..].
  - destruct connue'.
    + destruct (decide (e' = fp)) as [-> |].
      { exists (Z.to_nat i). split; [lia|]. by apply list_lookup_insert_eq. }
      destruct Hk' as [-> |]; [|done]. destruct Hk as [j [Hj HE]]. exists j.
      split; [lia|]. by rewrite list_lookup_insert_ne by lia.
    + destruct Hk' as [-> Hne]. intros j Hj HE.
      apply list_lookup_insert_Some in HE as [(? & ? & _)|[? HE]]; [congruence|].
      apply (Hk j); [lia|done].
  - destruct Hl' as [[-> He']|[-> ->]]; [|right; split; [lia|by apply list_lookup_insert_eq]].
    destruct Hl as [[-> Hz0]|[? HE]].
    + left. split; [done|]. intros j Hj HE.
      apply list_lookup_insert_Some in HE as [(? & ? & _)|[? HE]]; [lia|].
      apply (Hz0 j); [lia|done].
    + right. split; [lia|]. by rewrite list_lookup_insert_ne by lia.
Qed.

Lemma wp_rafraichir :
  zlen E0 = 8 -> zlen H0 = 8 -> sans_doublon E0 -> creneaux P E0 H0 ->
  wp (rafraichir_soa E0 H0 fp ts seuil) (raf_inv 8).
Proof.
  intros Hz Hz' Hd Hc. unfold rafraichir_soa. apply wp_bind.
  apply (wp_for_range raf_inv); [lia| | |].
  - split_and!; auto; try (intros; lia).
    + eapply creneaux_mono; [|done]. by left.
    + left. split; [done|]. intros; lia.
  - intros i [[[E H] connue] libre] Hi Hinv.
    destruct (id Hinv) as (Hz1 & Hz2 & _ & Hc1 & _ & Hs & _).
    assert (Z.to_nat i < length E)%nat by (unfold zlen in *; lia).
    apply wp_bind, wp_idx; [lia|]. intros e He. apply wp_bind, wp_idx; [lia|]. intros h Hh.
    apply wp_bind.
    apply (wp_mono _ (fun '(E2, H2) => exists e2 h2,
      E2 = <[Z.to_nat i := e2]> E /\ H2 = <[Z.to_nat i := h2]> H /\
      (e2 = e \/ e2 = 0 /\ h < seuil) /\ (e2 <> 0 -> nouveau e2 h2 /\ frais h2))).
    { wp_step.
      - apply wp_bind, wp_upd; [lia|]. apply wp_bind, wp_upd; [lia|]. wp_step.
        exists 0, 0. split_and!; auto; done.
      - wp_step. apply andb_false_iff in Hc0. exists e, h. rewrite !list_insert_id by done.
        split_and!; auto. intros He0. split; [by eapply Hc1|]. left.
        destruct Hc0; zbool; [done|lia]. }
    intros [E2 H2] (e2 & h2 & -> & -> & He2 & Hn2). apply wp_bind.
    apply wp_idx; [rewrite zlen_insert; lia|]. intros x Hx.
    rewrite list_lookup_insert_eq in Hx by done. injection Hx as <-.
    wp_step; [|wp_step; wp_step].
    + subst e2. apply wp_bind, wp_upd; [rewrite zlen_insert; lia|]. wp_step.
      rewrite list_insert_insert_eq. eapply raf_step; eauto.
      intros _. split; by right.
    + subst e2. eapply raf_step; eauto. destruct connue; auto.
    + apply andb_false_iff in Hc2.
      eapply raf_step; eauto; [destruct connue; auto|]. left. split; [done|].
      destruct Hc2; zbool; auto.
  - intros [[[E1 H1] c] l] Hi. by wp_step.
Qed.
End lane.

Lemma wp_plus_ancien_soa H : zlen H = 8 -> wp (plus_ancien_soa H) (fun i => 0 <= i < 8).
Proof.
  intros Hz. unfold plus_ancien_soa. apply wp_bind.
  apply (wp_for_range (fun i a => 0 <= a < 8)); [lia|lia| |].
  - intros i a Hi Ha. apply wp_bind, wp_idx; [lia|]. intros x _.
    apply wp_bind, wp_idx; [lia|]. intros y _. wp_step. destruct (x <? y); lia.
  - intros a Ha. by wp_step.
Qed.

(** What one insertion does to a way: the new fingerprint is live, everything
    live is fresh and has a provenance, and an unexpired fingerprint is only
    lost when the way is full. *)
Definition voie_apres (P : Z -> Z -> Prop) (v : voie_soa) (fp ts seuil : Z) (v' : voie_soa) : Prop :=
  cleSuivi v' = cleSuivi v /\ zlen (empreintesSOA v') = 8 /\ zlen (horodatagesNs v') = 8 /\
  sans_doublon (empreintesSOA v') /\
  creneaux (fun e h => nouveau fp ts P e h /\ frais ts seuil h) (empreintesSOA v') (horodatagesNs v') /\
  (exists j, empreintesSOA v' !! j = Some fp) /\
  ((forall j, (j < 8)%nat -> empreintesSOA v' !! j <> Some 0) \/
   (forall j e h, empreintesSOA v !! j = Some e -> horodatagesNs v !! j = Some h -> e <> 0 ->
      seuil <= h -> exists j', empreintesSOA v' !! j' = Some e)).

Lemma wp_inserer_voie_soa P v fp ts :
  fp <> 0 -> zlen (empreintesSOA v) = 8 -> zlen (horodatagesNs v) = 8 ->
  sans_doublon (empreintesSOA v) -> creneaux P (empreintesSOA v) (horodatagesNs v) ->
  wp (inserer_voie_soa v fp ts) (voie_apres P v fp ts (i64 (ts - 600000000000))).
Proof.
  intros Hfp Hz Hz' Hd Hc. unfold inserer_voie_soa. set (seuil := i64 _). apply wp_bind.
  eapply wp_mono; [by apply wp_rafraichir|].
  intros [[[E H] connue] libre] (Hz1 & Hz2 & Hd1 & Hc1 & Hf & _ & Hr & Hk & Hl).
  assert (forall A (l : list A) j x, zlen l = 8 -> l !! j = Some x -> Z.of_nat j < 8) as Hlt
    by (intros A l j x ? ?%lookup_lt_Some; unfold zlen in *; lia).
  assert (creneaux (fun e h => nouveau fp ts P e h /\ frais ts seuil h) E H) as Hc2
    by (intros j e h ?? ?; split; eauto).
  wp_step.
  - wp_step. destruct Hk as (j & _ & Hj). split_and!; eauto.
  - apply wp_bind, (wp_mono _ (fun c => 0 <= c < 8 /\ (0 <= libre -> c = libre))).
    { wp_step; [wp_step; lia|]. eapply wp_mono; [by apply wp_plus_ancien_soa|]. simpl. lia. }
    intros c [Hc8 Hcl]. apply wp_bind, wp_upd; [lia|]. apply wp_bind, wp_upd; [lia|]. wp_step.
    assert (Z.to_nat c < length E)%nat by (unfold zlen in *; lia).
    split_and!; simpl; rewrite ?zlen_insert; auto.
    + apply sans_doublon_insert; [done|]. intros _ j Hj. apply (Hk j); [eauto|done].
    + apply creneaux_insert; [done|]. intros _. split; by right.
    + exists (Z.to_nat c). by apply list_lookup_insert_eq.
    + destruct Hl as [[-> Hn]|[Hl Hl0]].
      * left. intros j Hj HE. apply list_lookup_insert_Some in HE as [(? & ? & _)|[? HE]]; [done|].
        apply (Hn j); [lia|done].
      * right. intros j e h He Hh He0 Hs. exists j. rewrite list_lookup_insert_ne; [eauto|].
        intros <-. rewrite (Hcl (proj1 Hl)) in *.
        specialize (Hr _ _ _ ltac:(eauto) He Hh He0 Hs). congruence.
Qed.

(** The way that is searched: in range, and the key's own way if it is found. *)
Lemma wp_chercher_voie_soa Obs alveole cle :
  zlen alveole = 4 -> Forall (voie_inv Obs) alveole ->
  wp (chercher_voie_soa alveole cle) (fun c =>
    match c with
    | inr i => 0 <= i < 4 /\ exists v, alveole !! Z.to_nat i = Some v /\ cleSuivi v = cle
    | inl c => (indiceVoieLibre c = -1 \/ 0 <= indiceVoieLibre c < 4) /\ 0 <= indiceVoieAncienne c < 4
    end).
Proof.
  intros Hz Hv. unfold chercher_voie_soa.
  apply (wp_for_range (fun i c => (indiceVoieLibre c = -1 \/ 0 <= indiceVoieLibre c < 4) /\
           0 <= indiceVoieAncienne c < 4)); [lia|simpl; lia| |done].
  intros i c Hi Hc. apply wp_bind, wp_idx; [lia|]. intros v Hvi. wp_step; [|wp_step].
  - wp_step. destruct (_ <? 0); simpl; lia.
  - wp_step. split; [lia|]. eauto.
  - wp_step. destruct (_ || _); simpl; lia.
Qed.

(** Every history step of the table adds exactly one observation. *)
Definition avec (Obs : Z -> Z -> Z -> Prop) (cle fp ts : Z) (k e h : Z) : Prop :=
  Obs k e h \/ (k = cle /\ e = fp /\ h = ts).

Lemma indexAlveoleSOA_range cle : 0 <= indexAlveoleSOA cle < 256.
Proof. unfold indexAlveoleSOA. apply (land_range _ _ 8); lia. Qed.

(** The way of a key: the first whose key matches among the non-empty ones. *)
Definition voie_de (t : SOANegativeTracker) (cle : Z) (v : voie_soa) : Prop :=
  exists a i, t !! Z.to_nat (indexAlveoleSOA cle) = Some a /\ a !! i = Some v /\ cleSuivi v = cle.

Lemma wp_inserer_soa Obs t cle fp ts :
  tracker_inv Obs t -> fp <> 0 ->
  wp (inserer_soa t cle fp ts) (fun '(t', alarme) =>
    tracker_inv (avec Obs cle fp ts) t' /\
    exists v', voie_de t' cle v' /\ alarme = (3 <=? nb_vivants (empreintesSOA v')) /\
      exists v, (v = VoieSoa cle (replicate 8 0) (replicate 8 0) \/ voie_de t cle v) /\
        voie_apres (Obs cle) v fp ts (i64 (ts - 600000000000)) v').
Proof.
  intros [Hz Ht] Hfp. unfold inserer_soa. pose proof (indexAlveoleSOA_range cle) as Hi.
  apply wp_bind, wp_idx; [lia|]. intros alv Halv.
  destruct (proj1 (Forall_lookup _ _) Ht _ _ Halv) as [Ha Hv].
  apply wp_bind. eapply wp_mono; [by eapply wp_chercher_voie_soa|]. intros c Hc.
  set (choix := match c with inr i => (i, false) | inl c0 => _ end).
  assert (0 <= fst choix < 4 /\ (snd choix = false ->
    exists v, alv !! Z.to_nat (fst choix) = Some v /\ cleSuivi v = cle)) as [Hic Hcle].
  { destruct c as [c|i]; simpl; [|naive_solver].
    destruct (Z.ltb_spec (indiceVoieLibre c) 0); simpl; split; lia || done. }
  destruct choix as [indice absente]. simpl in Hic, Hcle.
  apply wp_bind, wp_idx; [lia|]. intros v Hvi.
  set (v0 := if absente then _ else v).
  assert (zlen (empreintesSOA v0) = 8 /\ zlen (horodatagesNs v0) = 8 /\
    sans_doublon (empreintesSOA v0) /\ cleSuivi v0 = cle /\
    creneaux (Obs cle) (empreintesSOA v0) (horodatagesNs v0) /\
    (v0 = VoieSoa cle (replicate 8 0) (replicate 8 0) \/ voie_de t cle v0))
    as (H1 & H2 & H3 & H4 & H5 & H6).
  { unfold v0. destruct absente; simpl.
    - split_and!; auto; [apply (sans_doublon_zero 8)|apply (creneaux_zero _ 8)].
    - destruct (proj1 (Forall_lookup _ _) Hv _ _ Hvi) as (?&?&?&?).
      destruct (Hcle eq_refl) as (v1 & Hv1 & <-). rewrite Hvi in Hv1. injection Hv1 as <-.
      split_and!; auto. right. unfold voie_de. eauto. }
  apply wp_bind. eapply wp_mono; [by apply (wp_inserer_voie_soa (Obs cle))|].
  intros v' Hap. destruct (id Hap) as (K1 & K2 & K3 & K4 & K5 & _).
  assert (voie_inv (avec Obs cle fp ts) v') as Hv'.
  { split_and!; auto. eapply creneaux_mono; [|exact K5]. rewrite K1, H4.
    unfold nouveau, avec. naive_solver. }
  apply wp_bind, wp_upd; [lia|]. apply wp_bind, wp_upd; [lia|]. wp_step. split.
  - split; [by rewrite zlen_insert|]. apply Forall_insert.
    + eapply Forall_impl; [exact Ht|]. intros a [? Hav]. split; [done|].
      eapply Forall_impl; [exact Hav|]. intros w. apply voie_inv_mono. by left.
    + split; [by rewrite zlen_insert|]. apply Forall_insert; [|done].
      eapply Forall_impl; [exact Hv|]. intros w. apply voie_inv_mono. by left.
  - exists v'. split_and!; [|done|eauto].
    exists (<[Z.to_nat indice := v']> alv), (Z.to_nat indice). split_and!; [| |congruence];
      apply list_lookup_insert_eq; unfold zlen in *; lia.
Qed.

(** * The wire part never panics *)

Lemma wp_suffixe tq fq tp fp d n :
  zlen tp = 255 -> zlen fp = 255 -> 0 <= d -> 0 <= n <= 255 -> d + n <= 255 ->
  zlen tq = 255 -> zlen fq = 255 ->
  wp (suffixe_identique tq fq tp fp d n) (fun _ => True).
Proof.
  intros. unfold suffixe_identique. apply wp_bind.
  apply (wp_for_range (fun _ _ => True)); [lia|done| |by intros; wp_step].
  intros i [] Hi _. apply wp_bind, wp_idx; [lia|]. intros q _. apply wp_bind, wp_idx; [lia|].
  intros p _. wp_step; [done|]. apply wp_bind, wp_idx; [lia|]. intros bq _.
  apply wp_bind, wp_idx; [lia|]. intros bp _. by wp_step.
Qed.

Definition soa_ok (respWire : list Z) (s : soa_lue) : Prop :=
  0 <= decalageSerial s /\ decalageSerial s + 20 <= zlen respWire.

Lemma wp_lire_soa resp tq fq lq cur fp dd fd :
  bytes_ok resp -> zlen tq = 255 -> zlen fq = 255 -> 0 <= lq <= 253 ->
  0 <= cur -> fp <= zlen resp -> 0 <= dd -> fd <= zlen resp ->
  wp (lire_soa resp tq fq lq cur fp dd fd)
     (fun o => match o with Some s => soa_ok resp s | None => True end).
Proof.
  intros Hb Ht Hf Hlq Hc Hfp Hdd Hfd. unfold lire_soa. apply wp_bind.
  eapply wp_mono; [apply wp_nom_tampon; first [done | lia | auto with c2]|]. intros r (Hr & Hcr & Hbr).
  destruct Hr as (_ & _ & Hrt & Hrv & _). specialize (Hbr eq_refl).
  wp_step; [done|]. apply wp_bind, wp_slice; [lia..|]. wp_step; [done|].
  apply wp_bind, wp_idx; [lia|]. intros bd _. wp_step; [done|].
  apply wp_bind. eapply wp_mono; [apply wp_suffixe; lia|]. intros ok _. wp_step; [done|].
  apply wp_bind. eapply wp_mono; [apply wp_nom_tampon; first [done | lia | auto with c2]|]. intros m (Hm & Hcm & _).
  destruct Hm as (_ & _ & Hmt & Hmv & _). wp_step; [done|].
  specialize (Hmv ltac:(done)).
  apply wp_bind. eapply wp_mono; [apply wp_nom_tampon; first [done | lia | auto with c2]|]. intros n (Hn & Hcn & _).
  destruct Hn as (_ & _ & Hnt & Hnv & _). wp_step; [done|].
  specialize (Hnv ltac:(done)).
  do 3 (apply wp_bind, wp_slice; [lia..|]). wp_step. split; simpl; lia.
Qed.

Lemma wp_chercher_soa resp tq fq lq nb d :
  bytes_ok resp -> zlen tq = 255 -> zlen fq = 255 -> 0 <= lq <= 253 -> 0 <= nb -> 0 <= d ->
  wp (chercher_soa resp tq fq lq nb d)
     (fun o => match o with Some s => soa_ok resp s | None => True end).
Proof.
  intros Hb Ht Hf Hlq Hnb Hd. unfold chercher_soa. apply wp_bind.
  apply (wp_for_range (fun _ c => 0 <= c)); [lia|done| |done].
  intros j c Hj Hc. apply wp_bind. eapply wp_mono; [by apply wp_nom_seul|]. intros r Hr.
  wp_step; [done|]. specialize (Hr ltac:(done)).
  apply wp_bind, wp_be16; [done|lia..|]. intros ty Hty.
  apply wp_bind, wp_be16; [done|lia..|]. intros lg Hlg. unfold is_u16 in Hlg.
  wp_step; [done|]. wp_step; [|wp_step; lia].
  apply wp_bind. eapply wp_mono; [apply wp_lire_soa; auto; lia|]. by intros [s|] Hs.
Qed.

Lemma wp_extraire_soa resp :
  bytes_ok resp ->
  wp (extraire_soa resp) (fun o => match o with Some s => soa_ok resp s | None => True end).
Proof.
  intros Hb. unfold extraire_soa. wp_step; [done|].
  apply wp_bind, wp_idx_byte; [done|lia|]. intros o2 _ _. wp_step; [done|].
  apply wp_bind, wp_idx_byte; [done|lia|]. intros o3 _ _. wp_step; [done|].
  do 3 (apply wp_bind, wp_be16; [done|lia..|]; intros ? ?). unfold is_u16 in *.
  wp_step; [done|]. apply wp_bind.
  eapply wp_mono; [apply wp_nom_tampon; first [done|lia|auto with c2]|].
  intros q (Hq & Hcq & Hbq). destruct Hq as (_ & _ & Hqt & Hqv & _). specialize (Hbq eq_refl).
  wp_step; [done|]. specialize (Hqv ltac:(done)). apply wp_bind.
  eapply wp_mono; [apply wp_sauter_questions; [done|lia..]|].
  intros [cur|] Hcur; [|done]. apply wp_chercher_soa; auto; lia.
Qed.

Lemma wp_empreinte_soa resp s :
  soa_ok resp s -> wp (empreinte_soa resp s) (fun e => e <> 0).
Proof.
  intros [H1 H2]. unfold empreinte_soa. apply wp_bind, wp_slice; [lia..|]. wp_step.
  destruct (Z.eqb_spec (hacherOctetsFNV64a (fnv_octet (hacherOctetsFNV64a (fnv_octet
    (hacherOctetsFNV64a fnvOffset64 (nomM s)) 0) (nomR s)) 0)
    (take (Z.to_nat (decalageSerial s + 4 - decalageSerial s))
       (drop (Z.to_nat (decalageSerial s)) resp))) 0); done.
Qed.

(** * Histories *)

(** The observation a response contributes: its key and fingerprint. *)
Definition observation_soa (clientIP resp : list Z) : run (option (Z * Z)) :=
  s ← extraire_soa resp;
  match s with
  | None => Done None
  | Some s => e ← empreinte_soa resp s; Done (Some (cleSuiviSOA clientIP (proprietaireSOA s), e))
  end.

Lemma observer_soa_spec t ts ip resp :
  observer_soa t ts ip resp =
  (o ← observation_soa ip resp;
   match o with
   | None => Done (t, (false, ReasonNone))
   | Some (k, e) => '(t', a) ← inserer_soa t k e ts;
       Done (t', if (a : bool) then (true, ReasonP20SOANegDownlink) else (false, ReasonNone))
   end).
Proof.
  unfold observer_soa, observation_soa. destruct (extraire_soa resp) as [[s|]| |]; try done.
  simpl. by destruct (empreinte_soa resp s).
Qed.

Lemma wp_observation_soa ip resp :
  bytes_ok resp ->
  wp (observation_soa ip resp) (fun o => match o with Some (_, e) => e <> 0 | None => True end).
Proof.
  intros Hb. unfold observation_soa. apply wp_bind.
  eapply wp_mono; [by apply wp_extraire_soa|]. intros [s|] Hs; [|done].
  apply wp_bind. eapply wp_mono; [by apply wp_empreinte_soa|]. done.
Qed.

(** The trackers a sequence of calls can produce, with the observations made. *)
Inductive atteint_soa : list (Z * Z * Z) -> SOANegativeTracker -> Prop :=
  | atteint_soa_vide : atteint_soa [] tracker_soa_vide
  | atteint_soa_rien h t ts ip resp t' r :
      atteint_soa h t -> bytes_ok resp -> observation_soa ip resp = Done None ->
      observer_soa t ts ip resp = Done (t', r) -> atteint_soa h t'
  | atteint_soa_obs h t ts ip resp t' r k e :
      atteint_soa h t -> bytes_ok resp -> observation_soa ip resp = Done (Some (k, e)) ->
      observer_soa t ts ip resp = Done (t', r) -> atteint_soa ((k, e, ts) :: h) t'.

Definition dans (h : list (Z * Z * Z)) (k e d : Z) : Prop := (k, e, d) ∈ h.

Lemma atteint_soa_inv h t : atteint_soa h t -> tracker_inv (dans h) t.
Proof.
  induction 1 as [|h t ts ip resp t' r _ IH Hb Ho Hr|h t ts ip resp t' r k e _ IH Hb Ho Hr].
  - apply soa_inv_vide.
  - rewrite observer_soa_spec, Ho in Hr. simpl in Hr. by injection Hr as <- _.
  - rewrite observer_soa_spec, Ho in Hr. simpl in Hr.
    pose proof (wp_of_done _ _ _ Ho (wp_observation_soa ip resp Hb)) as He. simpl in He.
    pose proof (wp_inserer_soa (dans h) t k e ts IH He) as W.
    destruct (inserer_soa t k e ts) as [[t1 a]| |]; [|done..]. simpl in *.
    injection Hr as <- _. eapply soa_inv_mono; [|apply W].
    unfold dans, avec. intros k0 e0 h0 [?|(-> & -> & ->)]; set_solver.
Qed.

(** * Properties *)

(** On any packet and any date, [ObserveResponse] of the SOA tracker neither
    panics nor loops, keeps the table at 256 sets of 4 ways of 8 duplicate-free
    cells, and returns the P20 reason exactly with the alarm. *)
Theorem observer_soa_sur t ts ip resp :
  tracker_inv (fun _ _ _ => True) t -> bytes_ok resp ->
  wp (observer_soa t ts ip resp) (fun '(t', (alarme, raison)) =>
    tracker_inv (fun _ _ _ => True) t' /\
    raison = (if alarme then ReasonP20SOANegDownlink else ReasonNone)).
Proof.
  intros Ht Hb. rewrite observer_soa_spec. apply wp_bind.
  eapply wp_mono; [by apply wp_observation_soa|]. intros [[k e]|] He; [|by wp_step].
  apply wp_bind. eapply wp_mono; [by apply (wp_inserer_soa (fun _ _ _ => True))|].
  intros [t' []] [Ht' _]; (split; [|done]); (eapply soa_inv_mono; [|exact Ht']; done).
Qed.

(** A negative answer for [a.b] whose SOA carries the given serial octet. *)
Definition reponse_soa (serial : Z) : list Z :=
  [0; 0; 129; 131; 0; 1; 0; 0; 0; 1; 0; 0] ++ [1; 97; 1; 98; 0; 0; 1; 0; 1] ++
  [192; 12; 0; 6; 0; 1; 0; 0; 0; 60; 0; 26] ++ [1; 109; 0; 1; 114; 0] ++
  [0; 0; 0; serial] ++ replicate 16 0.
Definition client_exemple : list Z := [10; 0; 0; 1].

Lemma exemple_soa : exists h t t' r,
  atteint_soa h t /\ observer_soa t 3 client_exemple (reponse_soa 3) = Done (t', (true, r)).
Proof.
  do 4 eexists. split.
  - eapply (atteint_soa_obs _ _ 2 client_exemple (reponse_soa 2));
      [eapply (atteint_soa_obs _ _ 1 client_exemple (reponse_soa 1));
         [apply atteint_soa_vide|..]|..];
      first [by apply octets_valides_ok | vm_compute; reflexivity].
  - vm_compute. reflexivity.
Qed.

Lemma observer_soa_sur_witness :
  wp (observer_soa tracker_soa_vide 3 client_exemple (reponse_soa 3)) (fun '(t', (alarme, raison)) =>
    tracker_inv (fun _ _ _ => True) t' /\
    raison = (if alarme then ReasonP20SOANegDownlink else ReasonNone)).
Proof.
  apply (observer_soa_sur tracker_soa_vide 3 client_exemple (reponse_soa 3));
    [apply soa_inv_vide|by apply octets_valides_ok].
Defined.

(** No unfounded P20 alarm. After any sequence of calls from the empty
    tracker, an alarm means that three distinct SOA fingerprints were really
    observed for the key of this response (this response included), each dated
    inside the ten-minute window. *)
Theorem alarme_soa_fondee h t ts ip resp t' r :
  atteint_soa h t -> bytes_ok resp -> observer_soa t ts ip resp = Done (t', (true, r)) ->
  exists k e0 L, observation_soa ip resp = Done (Some (k, e0)) /\ NoDup L /\ 3 <= zlen L /\
    forall e, e ∈ L -> exists d, (k, e, d) ∈ (k, e0, ts) :: h /\
      (i64 (ts - 600000000000) <= d \/ d = ts).
Proof.
  intros Hat Hb. rewrite observer_soa_spec.
  pose proof (wp_observation_soa ip resp Hb) as Wo.
  destruct (observation_soa ip resp) as [[[k e]|]| |]; try done. simpl in Wo |- *.
  pose proof (wp_inserer_soa (dans h) t k e ts (atteint_soa_inv h t Hat) Wo) as W.
  destruct (inserer_soa t k e ts) as [[t1 a]| |]; [|done..]. simpl in W |- *.
  destruct W as (_ & v' & _ & Ha & v & _ & Hap).
  destruct a; [|done]. intros _. symmetry in Ha. apply Z.leb_le in Ha.
  destruct Hap as (_ & HzE & HzH & Hd & Hc & _).
  destruct (vivants_distincts _ 3 Hd Ha) as (L & HL & HL3 & HLe).
  exists k, e, L. split_and!; [done..|]. intros x Hx. destruct (HLe x Hx) as [Hx0 [j Hj]].
  destruct (lookup_lt_is_Some_2 (horodatagesNs v') j) as [d Hd'].
  { apply lookup_lt_Some in Hj. unfold zlen in *. lia. }
  destruct (Hc j x d Hj Hd' Hx0) as [Hn Hf]. exists d. split; [|done].
  destruct Hn as [?|[-> ->]]; unfold dans in *; set_solver.
Qed.

Lemma alarme_soa_fondee_witness : exists (k e0 : Z) (L : list Z),
  observation_soa client_exemple (reponse_soa 3) = Done (Some (k, e0)) /\ NoDup L /\ 3 <= zlen L.
Proof.
  destruct exemple_soa as (h & t & t' & r & Hat & Ho).
  destruct (alarme_soa_fondee h t 3 client_exemple (reponse_soa 3) t' r Hat
    (octets_valides_ok (reponse_soa 3) eq_refl) Ho) as (k & e0 & L & H1 & H2 & H3 & _).
  exists k, e0, L. exact (conj H1 (conj H2 H3)).
Defined.

(** No missed P20 alarm while the lane holds the evidence: if the new
    fingerprint and the still valid cells of the lane make three distinct
    values, the update leaves at least three live cells, the alarm condition. *)
Theorem alarme_soa_complete v fp ts L :
  fp <> 0 -> voie_inv (fun _ _ _ => True) v -> NoDup L -> 3 <= zlen L ->
  (forall e, e ∈ L -> e = fp \/ e <> 0 /\ exists j d, empreintesSOA v !! j = Some e /\
     horodatagesNs v !! j = Some d /\ i64 (ts - 600000000000) <= d) ->
  wp (inserer_voie_soa v fp ts) (fun v' => 3 <= nb_vivants (empreintesSOA v')).
Proof.
  intros Hfp (Hz & Hz' & Hd & Hc) HL HL3 HLe.
  eapply wp_mono; [by apply (wp_inserer_voie_soa (fun _ _ => True))|].
  intros v' (_ & HzE & _ & _ & _ & [j0 Hj0] & [Hp|Hk]).
  - rewrite nb_vivants_plein; [lia|]. intros j Hj. apply Hp. unfold zlen in HzE. lia.
  - etrans; [exact HL3|]. apply nb_vivants_ge; [done|]. intros e He.
    destruct (HLe e He) as [-> |(He0 & j & d & H1 & H2 & H3)]; [by eauto|]. split; [done|]. eauto.
Qed.

Lemma alarme_soa_complete_witness :
  wp (inserer_voie_soa (VoieSoa 5 [7; 8; 0; 0; 0; 0; 0; 0] [10; 20; 0; 0; 0; 0; 0; 0]) 9 30)
    (fun v' => 3 <= nb_vivants (empreintesSOA v')).
Proof.
  apply (alarme_soa_complete (VoieSoa 5 [7; 8; 0; 0; 0; 0; 0; 0] [10; 20; 0; 0; 0; 0; 0; 0]) 9 30 [7; 8; 9]).
  - done.
  - split_and!; [done..| |done]. intros i j e. simpl.
    do 8 (destruct i as [|i]; [do 8 (destruct j as [|j]; [simpl; congruence|]); done|]); done.
  - apply (bool_decide_unpack _). by vm_compute.
  - by vm_compute.
  - intros e He. repeat (apply elem_of_cons in He; destruct He as [He|He]; [subst e|]).
    + right. split; [lia|]. exists 0%nat, 10. split_and!; by vm_compute.
    + right. split; [lia|]. exists 1%nat, 20. split_and!; by vm_compute.
    + by left.
    + by apply not_elem_of_nil in He.
Defined.
