(* ===== verification/SuiviAaaa.v ===== *)
(** [AAAAIIDTracker] (src/internal/engine/aaaa_iid.go): rule P21, a downlink
    hidden in the interface identifiers of AAAA answers.  A response is first
    validated entirely, then its admissible identifiers are inserted in a 256x4
    table of 16 dated cells per (client, /64 prefix), then the alarm is decided.
    The theorems: no panic and no loop, the table invariant, and every alarm is
    backed by eight distinct identifiers observed under one key in ten minutes. *)
From S2P Require Import Prelude DnsName Fnv Creneaux.

Definition ReasonP21AAAAIIDDownlink : string := "REASON_P21_AAAA_IID_DOWNLINK".

Record voie_aaaa := VoieAaaa {
  cleSuivi : Z;
  identifiants : list Z;
  horodatagesNs : list Z
}.
Definition AAAAIIDTracker : Type := list (list voie_aaaa).
Definition tracker_aaaa_vide : AAAAIIDTracker :=
  replicate 256 (replicate 4 (VoieAaaa 0 (replicate 16 0) (replicate 16 0))).

Definition cleSuiviAAAAIID (clientIP prefixe : list Z) : Z :=
  hacherOctetsFNV64a (hacherOctetsFNV64a fnvOffset64 clientIP) prefixe.

(** [lireEnregistrementAAAAIID]: next offset, data offset, admissible; [None]
    is the result [valide = false]. *)
Definition lireEnregistrementAAAAIID (paquetFilaire : list Z) (decalageCourant : Z)
  : run (option (Z * Z * bool)) :=
  n ← decompresserNomDNS paquetFilaire decalageCourant (zlen paquetFilaire) false None None;
  if negb (valide n) || (zlen paquetFilaire <? fin n + 10) then Done None else
  longueurDonnees ← be16 paquetFilaire (fin n + 8);
  let debutDonnees := fin n + 10 in
  let decalageSuivant := debutDonnees + longueurDonnees in
  if zlen paquetFilaire <? decalageSuivant then Done None else
  ty ← be16 paquetFilaire (fin n);
  cl ← be16 paquetFilaire (fin n + 2);
  Done (Some (decalageSuivant, debutDonnees, (ty =? 28) && (cl =? 1) && (longueurDonnees =? 16))).

(** [!slices.Contains(paquet[debut+8:debut+16], 0)] *)
Definition identifiantPleineLargeurAAAAIID (paquetFilaire : list Z) (debutDonnees : Z) : run bool :=
  s ← slice paquetFilaire (debutDonnees + 8) (debutDonnees + 16);
  Done (forallb (fun o => negb (o =? 0)) s).

(** ** [insererIdentifiant] *)

(** [dateRecente], [dateTrouvee] over the live cells. *)
Definition date_recente (E H : list Z) : Z * bool :=
  fold_left (fun '(d, trouvee) '(e, h) =>
      if negb (e =? 0) && (negb trouvee || (d <? h)) then (h, true) else (d, trouvee))
    (zip E H) (0, false).

Record choix_voie := ChoixVoie {
  indiceVoieLibre : Z;
  indiceVoieAncienne : Z;
  dateVoieAncienne : Z
}.

Definition chercher_voie_aaaa (alveole : list voie_aaaa) (cle : Z) : run (choix_voie + Z) :=
  for_range 4 (ChoixVoie (-1) 0 0) (fun i c =>
    v ← idx alveole i;
    let '(d, trouvee) := date_recente (identifiants v) (horodatagesNs v) in
    if negb trouvee then
      Done (inl (if indiceVoieLibre c <? 0
                 then ChoixVoie i (indiceVoieAncienne c) (dateVoieAncienne c) else c))
    else if cleSuivi v =? cle then Done (inr i)
    else Done (inl (if (i =? 0) || (d <? dateVoieAncienne c)
                    then ChoixVoie (indiceVoieLibre c) i d else c))).

(** The loop over the 16 cells; [inr] is the early [return] on a known
    identifier, [inl] carries [indiceLibre] and [indiceAncien]. *)
Definition parcourir_cases (E H : list Z) (identifiant tsNs seuilExpirationNs : Z)
  : run (list Z * list Z * Z * Z + list Z * list Z) :=
  for_range 16 (E, H, -1, 0) (fun i '(E, H, libre, ancien) =>
    e ← idx E i; h ← idx H i;
    '(E, H) ← (if negb (e =? 0) && (h <? seuilExpirationNs)
               then E' ← upd E i 0; H' ← upd H i 0; Done (E', H')
               else Done (E, H));
    e ← idx E i;
    if e =? identifiant then H ← upd H i tsNs; Done (inr (E, H)) else
    let libre := if (e =? 0) && (libre <? 0) then i else libre in
    h ← idx H i; a ← idx H ancien;
    Done (inl (E, H, libre, if h <? a then i else ancien))).

Definition inserer_voie_aaaa (v : voie_aaaa) (identifiant tsNs : Z) : run voie_aaaa :=
  o ← parcourir_cases (identifiants v) (horodatagesNs v) identifiant tsNs (i64 (tsNs - 600000000000));
  match o with
  | inr (E, H) => Done (VoieAaaa (cleSuivi v) E H)
  | inl (E, H, libre, ancien) =>
      let ancien := if 0 <=? libre then libre else ancien in
      E ← upd E ancien identifiant; H ← upd H ancien tsNs;
      Done (VoieAaaa (cleSuivi v) E H)
  end.

Definition insererIdentifiant (t : AAAAIIDTracker) (cle identifiant tsNs : Z) : run AAAAIIDTracker :=
  alveole ← idx t (Z.land cle 255);
  c ← chercher_voie_aaaa alveole cle;
  let '(indice, absente) := match c with
    | inr i => (i, false)
    | inl c => (if indiceVoieLibre c <? 0 then indiceVoieAncienne c else indiceVoieLibre c, true)
    end in
  v ← idx alveole indice;
  let v := if absente then VoieAaaa cle (replicate 16 0) (replicate 16 0) else v in
  v ← inserer_voie_aaaa v identifiant tsNs;
  alveole ← upd alveole indice v;
  upd t (Z.land cle 255) alveole.

(** ** [ObserveResponse] *)

(** First pass: every record must be readable; [false] is a refusal. *)
Definition valider_reponses (respWire : list Z) (nbReponses debut : Z) : run bool :=
  o ← for_range nbReponses debut (fun _ cur =>
        r ← lireEnregistrementAAAAIID respWire cur;
        match r with
        | None => Done (inr tt)
        | Some (suivant, _, _) => Done (inl suivant)
        end);
  Done (match o with inl _ => true | inr _ => false end).

(** An unreadable record leaves [(0, 0, false, _)] in the two later passes. *)
Definition lire_ou_zero (respWire : list Z) (cur : Z) : run (Z * Z * bool) :=
  r ← lireEnregistrementAAAAIID respWire cur;
  Done (default (0, 0, false) r).

Definition retenu (respWire : list Z) (debutDonnees : Z) (admissible : bool) : run bool :=
  if admissible then identifiantPleineLargeurAAAAIID respWire debutDonnees else Done false.

(** Second pass: insertion of every admissible full-width identifier. *)
Definition inserer_reponses (t : AAAAIIDTracker) (tsNs : Z) (clientIP respWire : list Z)
    (nbReponses debut : Z) : run AAAAIIDTracker :=
  o ← for_range nbReponses (t, debut) (fun _ '(t, cur) =>
        '(suivant, debutDonnees, admissible) ← lire_ou_zero respWire cur;
        b ← retenu respWire debutDonnees admissible;
        if (b : bool) then
          prefixe ← slice respWire debutDonnees (debutDonnees + 8);
          identifiant ← be64 respWire (debutDonnees + 8);
          t ← insererIdentifiant t (cleSuiviAAAAIID clientIP prefixe) identifiant tsNs;
          Done (inl (B := AAAAIIDTracker) (t, suivant))
        else Done (inl (t, suivant)));
  Done (match o with inl (t, _) => t | inr t => t end).

(** Live identifiers of a way since [seuil]. *)
Definition nb_identifiants_vivants (v : voie_aaaa) (seuil : Z) : Z :=
  zlen (filter (fun '(e, h) => e <> 0 /\ seuil <= h) (zip (identifiants v) (horodatagesNs v))).

Definition voie_en_alarme (cle seuil : Z) (v : voie_aaaa) : bool :=
  (cleSuivi v =? cle) && (8 <=? nb_identifiants_vivants v seuil).

(** Third pass: does a way of one of the keys hold eight live identifiers? *)
Definition decider_reponses (t : AAAAIIDTracker) (tsNs : Z) (clientIP respWire : list Z)
    (nbReponses debut : Z) : run bool :=
  o ← for_range nbReponses debut (fun _ cur =>
        '(suivant, debutDonnees, admissible) ← lire_ou_zero respWire cur;
        b ← retenu respWire debutDonnees admissible;
        if (b : bool) then
          prefixe ← slice respWire debutDonnees (debutDonnees + 8);
          let cle := cleSuiviAAAAIID clientIP prefixe in
          alveole ← idx t (Z.land cle 255);
          if existsb (voie_en_alarme cle (i64 (tsNs - 600000000000))) alveole
          then Done (inr tt) else Done (inl suivant)
        else Done (inl suivant));
  Done (match o with inl _ => false | inr _ => true end).

Definition observer_aaaa (t : AAAAIIDTracker) (tsNs : Z) (clientIP respWire : list Z)
  : run (AAAAIIDTracker * (bool * string)) :=
  let refus := (t, (false, ReasonNone)) in
  if zlen respWire <? 12 then Done refus else
  o2 ← idx respWire 2;
  if Z.land o2 128 =? 0 then Done refus else
  o3 ← idx respWire 3;
  if negb (Z.land o3 15 =? 0) then Done refus else
  nbQuestions ← be16 respWire 4;
  nbReponses ← be16 respWire 6;
  if (nbQuestions =? 0) || (nbReponses =? 0) then Done refus else
  o ← sauter_questions respWire nbQuestions 12;
  match o with
  | inr _ => Done refus
  | inl debutReponses =>
      ok ← valider_reponses respWire nbReponses debutReponses;
      if negb ok then Done refus else
      t ← inserer_reponses t tsNs clientIP respWire nbReponses debutReponses;
      alarme ← decider_reponses t tsNs clientIP respWire nbReponses debutReponses;
      Done (t, if (alarme : bool) then (true, ReasonP21AAAAIIDDownlink) else (false, ReasonNone))
  end.

(** * Invariant of the table *)

Section invariant.
Context (Obs : Z -> Z -> Z -> Prop).

Definition voie_inv (v : voie_aaaa) : Prop :=
  zlen (identifiants v) = 16 /\ zlen (horodatagesNs v) = 16 /\
  sans_doublon (identifiants v) /\
  creneaux (Obs (cleSuivi v)) (identifiants v) (horodatagesNs v).

Definition tracker_inv (t : AAAAIIDTracker) : Prop :=
  zlen t = 256 /\ Forall (fun a => zlen a = 4 /\ Forall voie_inv a) t.

Lemma aaaa_inv_vide : tracker_inv tracker_aaaa_vide.
Proof.
  split; [done|]. apply Forall_replicate. split; [done|]. apply Forall_replicate.
  split_and!; [done..|apply sans_doublon_zero|apply creneaux_zero].
Qed.

(** ** Insertion of one identifier whose observation is recorded *)
Context (cle fp ts : Z).
Hypothesis Hfp : fp <> 0.
Hypothesis Hobs : Obs cle fp ts.

Definition cases_ok (E H : list Z) : Prop :=
  zlen E = 16 /\ zlen H = 16 /\ sans_doublon E /\ creneaux (Obs cle) E H.

Definition parcours_inv (i : Z) (s : list Z * list Z * Z * Z) : Prop :=
  let '(E, H, libre, ancien) := s in
  cases_ok E H /\ (forall j, Z.of_nat j < i -> E !! j <> Some fp) /\
  -1 <= libre < 16 /\ 0 <= ancien < 16.

(** Expiring or keeping a cell. *)
Lemma wp_expirer i E H e h seuil :
  cases_ok E H -> 0 <= i < 16 -> E !! Z.to_nat i = Some e -> H !! Z.to_nat i = Some h ->
  wp (if negb (e =? 0) && (h <? seuil)
      then E' ← upd E i 0; H' ← upd H i 0; Done (E', H') else Done (E, H))
    (fun '(E2, H2) => cases_ok E2 H2 /\ exists e2, E2 = <[Z.to_nat i := e2]> E).
Proof.
  intros (Hz & Hz' & Hd & Hc) Hi He Hh. wp_step.
  - apply wp_bind, wp_upd; [lia|]. apply wp_bind, wp_upd; [lia|]. wp_step. split; [|eauto].
    unfold cases_ok. rewrite !zlen_insert. split_and!; auto.
    + by apply sans_doublon_insert.
    + by apply creneaux_insert.
  - wp_step. split; [done|]. exists e. by rewrite list_insert_id.
Qed.

Lemma wp_parcourir_cases E0 H0 seuil :
  cases_ok E0 H0 ->
  wp (parcourir_cases E0 H0 fp ts seuil) (fun o => match o with
    | inr (E, H) => cases_ok E H
    | inl s => parcours_inv 16 s end).
Proof.
  intros Hok. unfold parcourir_cases. apply (wp_for_range parcours_inv); [lia| | |done].
  - split_and!; auto; intros; lia.
  - intros i [[[E H] libre] ancien] Hi (Hc & Hn & Hl & Ha).
    destruct (id Hc) as (Hz & Hz' & _).
    apply wp_bind, wp_idx; [lia|]. intros e He. apply wp_bind, wp_idx; [lia|]. intros h Hh.
    apply wp_bind. eapply wp_mono; [by apply wp_expirer|]. intros [E2 H2] (Hok2 & e2 & ->).
    destruct (id Hok2) as (Hz2 & Hz2' & Hd2 & Hc2).
    apply wp_bind, wp_idx; [lia|]. intros x Hx. wp_step.
    + apply wp_bind, wp_upd; [lia|]. wp_step. subst x. split_and!; auto.
      * by rewrite zlen_insert.
      * rewrite <- (list_insert_id _ _ _ Hx). by apply creneaux_insert.
    + apply wp_bind, wp_idx; [lia|]. intros y _. apply wp_bind, wp_idx; [lia|]. intros z _.
      wp_step. split_and!; auto; try lia.
      * intros j Hj Hf. destruct (decide (j = Z.to_nat i)) as [-> |Hne].
        { rewrite Hx in Hf. congruence. }
        rewrite list_lookup_insert_ne in Hf by done. apply (Hn j); [lia|done].
      * destruct (_ && _); lia.
      * destruct (_ && _); lia.
      * destruct (_ <? _); lia.
      * destruct (_ <? _); lia.
Qed.

Lemma wp_inserer_voie v :
  voie_inv v -> cleSuivi v = cle ->
  wp (inserer_voie_aaaa v fp ts) (fun v' => voie_inv v' /\ cleSuivi v' = cle).
Proof.
  intros (K1&K2&K3&K4) Hk. rewrite Hk in K4. unfold inserer_voie_aaaa. apply wp_bind.
  eapply wp_mono; [by apply wp_parcourir_cases|]. intros [[[[E H'] libre] ancien]|[E H']].
  - intros ((Hz & Hz' & Hd & Hc) & Hn & Hl & Ha). set (a := if 0 <=? libre then libre else ancien).
    assert (0 <= a < 16) by (unfold a; destruct (Z.leb_spec 0 libre); lia).
    apply wp_bind, wp_upd; [lia|]. apply wp_bind, wp_upd; [lia|]. wp_step. split; [|done].
    unfold voie_inv; simpl. rewrite !zlen_insert, Hk. split_and!; auto.
    + apply sans_doublon_insert; [done|]. intros _ j Hj. apply (Hn j); [|done].
      apply lookup_lt_Some in Hj. unfold zlen in Hz. lia.
    + by apply creneaux_insert.
  - intros (Hz & Hz' & Hd & Hc). wp_step. split; [|done]. unfold voie_inv; simpl. rewrite Hk. by split_and!.
Qed.

Lemma wp_chercher_voie_aaaa alveole :
  zlen alveole = 4 ->
  wp (chercher_voie_aaaa alveole cle) (fun c =>
    match c with
    | inr i => 0 <= i < 4 /\ exists v, alveole !! Z.to_nat i = Some v /\ cleSuivi v = cle
    | inl c => (indiceVoieLibre c = -1 \/ 0 <= indiceVoieLibre c < 4) /\ 0 <= indiceVoieAncienne c < 4
    end).
Proof.
  intros Hz. unfold chercher_voie_aaaa.
  apply (wp_for_range (fun i c => (indiceVoieLibre c = -1 \/ 0 <= indiceVoieLibre c < 4) /\
           0 <= indiceVoieAncienne c < 4)); [lia|simpl; lia| |done].
  intros i c Hi Hc. apply wp_bind, wp_idx; [lia|]. intros v Hv. wp_step. wp_step; [|wp_step].
  - wp_step. destruct (_ <? 0); simpl; lia.
  - wp_step. split; [lia|]. eauto.
  - wp_step. destruct (_ || _); simpl; lia.
Qed.

Lemma wp_insererIdentifiant t :
  tracker_inv t -> wp (insererIdentifiant t cle fp ts) tracker_inv.
Proof.
  intros [Hz Ht]. unfold insererIdentifiant.
  pose proof (land_range cle 255 8 ltac:(lia) ltac:(lia)) as Hi. change (2 ^ 8) with 256 in Hi.
  apply wp_bind, wp_idx; [lia|]. intros alv Halv.
  destruct (proj1 (Forall_lookup _ _) Ht _ _ Halv) as [Ha Hv].
  apply wp_bind. eapply wp_mono; [by eapply wp_chercher_voie_aaaa|]. intros c Hc.
  set (choix := match c with inr i => (i, false) | inl c0 => _ end).
  assert (0 <= fst choix < 4 /\ (snd choix = false ->
    exists v, alv !! Z.to_nat (fst choix) = Some v /\ cleSuivi v = cle)) as [Hic Hcle].
  { destruct c as [c|i]; simpl; [|naive_solver].
    destruct (Z.ltb_spec (indiceVoieLibre c) 0); simpl; split; lia || done. }
  destruct choix as [indice absente]. simpl in Hic, Hcle.
  apply wp_bind, wp_idx; [lia|]. intros v Hvi.
  set (v0 := if absente then _ else v).
  assert (voie_inv v0 /\ cleSuivi v0 = cle) as [H1 H2].
  { unfold v0. destruct absente.
    - split; [|done]. split_and!; [done..|apply (sans_doublon_zero 16)|apply (creneaux_zero _ 16)].
    - split; [exact (proj1 (Forall_lookup _ _) Hv _ _ Hvi)|]. naive_solver. }
  apply wp_bind. eapply wp_mono; [by apply wp_inserer_voie|]. intros v' [Hv' _].
  apply wp_bind, wp_upd; [lia|]. apply wp_upd; [lia|].
  split; [by rewrite zlen_insert|]. apply Forall_insert; [done|].
  split; [by rewrite zlen_insert|]. by apply Forall_insert.
Qed.
End invariant.

Lemma aaaa_inv_mono (O1 O2 : Z -> Z -> Z -> Prop) t :
  (forall k e h, O1 k e h -> O2 k e h) -> tracker_inv O1 t -> tracker_inv O2 t.
Proof.
  intros H [Hz Ht]. split; [done|]. eapply Forall_impl; [exact Ht|].
  intros a [Ha Hv]. split; [done|]. eapply Forall_impl; [exact Hv|].
  intros v (?&?&?&?). split_and!; eauto using creneaux_mono.
Qed.

(** * The wire part *)

Definition enregistrement_ok (resp : list Z) (cur suivant dd : Z) (adm : bool) : Prop :=
  0 <= dd <= suivant /\ suivant <= zlen resp /\ (adm = true -> suivant = dd + 16).

Lemma wp_lireEnregistrement resp cur :
  bytes_ok resp -> 0 <= cur ->
  wp (lireEnregistrementAAAAIID resp cur) (fun o => match o with
    | Some (s, d, a) => enregistrement_ok resp cur s d a
    | None => True end).
Proof.
  intros Hb Hc. unfold lireEnregistrementAAAAIID. apply wp_bind.
  eapply wp_mono; [by apply wp_nom_seul|]. intros r Hr. wp_step; [done|].
  specialize (Hr ltac:(done)). apply wp_bind, wp_be16; [done|lia..|]. intros lg Hlg.
  unfold is_u16 in Hlg. wp_step; [done|].
  apply wp_bind, wp_be16; [done|lia..|]. intros ty _.
  apply wp_bind, wp_be16; [done|lia..|]. intros cl _. wp_step.
  unfold enregistrement_ok. split_and!; try lia; intros; zbool; lia.
Qed.

Lemma wp_retenu resp d a s cur :
  enregistrement_ok resp cur s d a \/ a = false -> wp (retenu resp d a) (fun b => b = true -> a = true).
Proof.
  intros [(H1 & H2 & H3)| ->]; unfold retenu; [|by wp_step].
  wp_step; [|by wp_step]. specialize (H3 eq_refl).
  unfold identifiantPleineLargeurAAAAIID. apply wp_bind, wp_slice; [lia..|]. by wp_step.
Qed.

(** Identifier [e] of key [k] read in an admissible record of the response. *)
Definition releve (ip resp : list Z) (k e : Z) : Prop :=
  exists cur suivant d prefixe, lireEnregistrementAAAAIID resp cur = Done (Some (suivant, d, true)) /\
    identifiantPleineLargeurAAAAIID resp d = Done true /\
    slice resp d (d + 8) = Done prefixe /\ k = cleSuiviAAAAIID ip prefixe /\
    be64 resp (d + 8) = Done e.

(** A full-width identifier is not zero, so it never looks like a free cell. *)
Lemma pleine_largeur_non_nul resp d e :
  bytes_ok resp -> identifiantPleineLargeurAAAAIID resp d = Done true -> be64 resp (d + 8) = Done e -> e <> 0.
Proof.
  intros Hb Hp He. unfold be64, be32, be16 in He.
  destruct (idx resp (d + 8)) as [x| |] eqn:Ex; try done. simpl in He.
  pose proof (idx_byte_range _ _ _ Hb Ex). pose proof (idx_Done_bounds _ _ _ Ex) as Hi.
  assert (x <> 0).
  { intros ->. unfold identifiantPleineLargeurAAAAIID, slice in Hp.
    destruct (_ && _) eqn:Eb; [|done]. zbool. simpl in Hp. injection Hp as Hp.
    unfold idx in Ex. destruct (Z.ltb_spec (d + 8) 0); [done|].
    destruct (resp !! Z.to_nat (d + 8)) as [y|] eqn:Ey; [|done]. injection Ex as ->.
    rewrite (drop_S _ _ _ Ey) in Hp.
    replace (Z.to_nat (d + 16 - (d + 8))) with 8%nat in Hp by lia. done. }
  repeat match type of He with
  | context [idx resp ?i] => let E := fresh "E" in destruct (idx resp i) eqn:E;
      [simpl in He; apply (idx_byte_range _ _ _ Hb) in E|done|done]
  end.
  injection He as <-. lia.
Qed.

Section passes.
Context (ts : Z) (ip resp : list Z).
Hypothesis Hb : bytes_ok resp.

Lemma wp_lire_ou_zero cur :
  0 <= cur ->
  wp (lire_ou_zero resp cur) (fun '(s, d, a) => 0 <= s /\
    (enregistrement_ok resp cur s d a \/ a = false) /\
    (a = true -> lireEnregistrementAAAAIID resp cur = Done (Some (s, d, true)))).
Proof.
  intros Hc. unfold lire_ou_zero. pose proof (wp_lireEnregistrement resp cur Hb Hc) as W.
  destruct (lireEnregistrementAAAAIID resp cur) as [[[[s d] a]|]| |] eqn:E; try done; simpl in *.
  - destruct (id W) as (?&?&?). split_and!; [lia|by left|]. by intros ->.
  - split_and!; [lia|by right|done].
Qed.

(** The common part of the two passes over an admissible record. *)
Lemma releve_lu cur s d a :
  lireEnregistrementAAAAIID resp cur = Done (Some (s, d, true)) ->
  a = true -> retenu resp d a = Done true -> enregistrement_ok resp cur s d a ->
  wp (slice resp d (d + 8)) (fun p => wp (be64 resp (d + 8)) (fun e =>
    releve ip resp (cleSuiviAAAAIID ip p) e /\ e <> 0)).
Proof.
  intros Hl -> Hr (H1 & H2 & H3). specialize (H3 eq_refl). unfold retenu in Hr.
  destruct (slice resp d (d + 8)) as [p| |] eqn:Ep;
    [|unfold slice in Ep; destruct (_ && _) eqn:Ec; [done|];
      rewrite (proj2 (Z.leb_le 0 d)), (proj2 (Z.leb_le d (d + 8))),
        (proj2 (Z.leb_le (d + 8) (zlen resp))) in Ec by lia; done|
     unfold slice in Ep; by destruct (_ && _)].
  simpl. destruct (be64 resp (d + 8)) as [e| |] eqn:Ee;
    [|pose proof (wp_be64 resp (d + 8) (fun _ => True) Hb) as W; rewrite Ee in W; simpl in W; apply W; auto; lia..].
  simpl. split; [|by eapply pleine_largeur_non_nul].
  exists cur, s, d, p. split_and!; auto.
Qed.

Lemma wp_inserer_reponses Obs t n debut :
  (forall k e, releve ip resp k e -> Obs k e ts) -> tracker_inv Obs t -> 0 <= n -> 0 <= debut ->
  wp (inserer_reponses t ts ip resp n debut) (tracker_inv Obs).
Proof.
  intros HO Ht Hn Hd. unfold inserer_reponses. apply wp_bind.
  apply (wp_for_range (fun _ '(t, cur) => tracker_inv Obs t /\ 0 <= cur)); [lia|done| |].
  - intros j [t1 cur] Hj [Ht1 Hc]. apply wp_bind.
    eapply wp_mono; [by apply wp_lire_ou_zero|]. intros [[s d] a] (Hs & Hok & Hl).
    pose proof (wp_retenu resp d a s cur Hok) as W.
    destruct (retenu resp d a) as [b| |] eqn:Er; try done. simpl in W |- *.
    wp_step; [|by wp_step]. specialize (W eq_refl). destruct Hok as [Hok| ->]; [|done].
    subst b. pose proof (releve_lu cur s d a (Hl W) W Er Hok) as R.
    apply wp_bind. eapply wp_mono; [exact R|]. intros p Rp.
    apply wp_bind. eapply wp_mono; [exact Rp|]. intros e [Hrel He].
    apply wp_bind. eapply wp_mono; [eapply (wp_insererIdentifiant Obs _ e ts); eauto|].
    intros t2 Ht2. by wp_step.
  - intros [t1 cur] [Ht1 _]. by wp_step.
Qed.

Lemma wp_decider_reponses Obs t n debut :
  tracker_inv Obs t -> 0 <= n -> 0 <= debut ->
  wp (decider_reponses t ts ip resp n debut) (fun alarme => alarme = true ->
    exists k e0 v, releve ip resp k e0 /\ voie_inv Obs v /\
      voie_en_alarme k (i64 (ts - 600000000000)) v = true).
Proof.
  intros Ht Hn Hd. unfold decider_reponses. apply wp_bind.
  apply (wp_for_range (fun _ cur => 0 <= cur)); [lia|done| |by intros; wp_step].
  intros j cur Hj Hc. apply wp_bind.
  eapply wp_mono; [by apply wp_lire_ou_zero|]. intros [[s d] a] (Hs & Hok & Hl).
  pose proof (wp_retenu resp d a s cur Hok) as W.
  destruct (retenu resp d a) as [b| |] eqn:Er; try done. simpl in W |- *.
  wp_step; [|by wp_step]. specialize (W eq_refl). destruct Hok as [Hok| ->]; [|done].
  subst b. pose proof (releve_lu cur s d a (Hl W) W Er Hok) as R.
  apply wp_bind. eapply wp_mono; [exact R|]. intros p Rp.
  destruct (be64 resp (d + 8)) as [e| |]; try done. destruct Rp as [Hrel _].
  pose proof (land_range (cleSuiviAAAAIID ip p) 255 8 ltac:(lia) ltac:(lia)) as Hi.
  change (2 ^ 8) with 256 in Hi. destruct (id Ht) as [Hz Hf].
  apply wp_bind, wp_idx; [lia|]. intros alv Halv. wp_step; [|by wp_step].
  wp_step. intros _. apply existsb_exists in Hc0 as (v & Hin & Hv).
  exists (cleSuiviAAAAIID ip p), e, v. split_and!; [done| |done].
  destruct (proj1 (Forall_lookup _ _) Hf _ _ Halv) as [_ Hfv].
  by eapply Forall_forall; [|apply list_elem_of_In].
Qed.
End passes.

Lemma wp_valider_reponses resp n debut :
  bytes_ok resp -> 0 <= debut -> 0 <= n -> wp (valider_reponses resp n debut) (fun _ => True).
Proof.
  intros Hb Hd Hn. unfold valider_reponses. apply wp_bind.
  apply (wp_for_range (fun _ cur => 0 <= cur)); [lia|done| |by intros; wp_step].
  intros j cur Hj Hc. apply wp_bind.
  eapply wp_mono; [by apply wp_lireEnregistrement|]. intros [[[s d] a]|] H; wp_step; [|done].
  destruct H as (?&?&?). lia.
Qed.

(** ** One call, for any predicate on observations that the response extends *)
Lemma wp_observer_aaaa Obs t ts ip resp :
  bytes_ok resp -> (forall k e, releve ip resp k e -> Obs k e ts) -> tracker_inv Obs t ->
  wp (observer_aaaa t ts ip resp) (fun '(t', (alarme, raison)) =>
    tracker_inv Obs t' /\ raison = (if alarme then ReasonP21AAAAIIDDownlink else ReasonNone) /\
    (alarme = true -> exists k e0 v, releve ip resp k e0 /\ voie_inv Obs v /\
       voie_en_alarme k (i64 (ts - 600000000000)) v = true)).
Proof.
  intros Hb HO Ht. unfold observer_aaaa. wp_step; [done|].
  apply wp_bind, wp_idx_byte; [done|lia|]. intros o2 _ _. wp_step; [done|].
  apply wp_bind, wp_idx_byte; [done|lia|]. intros o3 _ _. wp_step; [done|].
  do 2 (apply wp_bind, wp_be16; [done|lia..|]; intros ? ?). unfold is_u16 in *.
  wp_step; [done|]. apply wp_bind.
  eapply wp_mono; [apply wp_sauter_questions; [done|lia..]|].
  intros [debut|] Hcur; [|done]. apply wp_bind.
  eapply wp_mono; [apply wp_valider_reponses; [done|lia..]|]. intros ok _. wp_step; [done|].
  apply wp_bind. eapply wp_mono; [apply (wp_inserer_reponses ts ip resp Hb Obs); auto; lia|].
  intros t' Ht'. apply wp_bind.
  eapply wp_mono; [apply (wp_decider_reponses ts ip resp Hb Obs); auto; lia|].
  intros [] Ha; wp_step; split_and!; auto; done.
Qed.

(** * Histories *)

(** The trackers a sequence of calls can produce, with the calls made. *)
Inductive atteint_aaaa : list (list Z * list Z * Z) -> AAAAIIDTracker -> Prop :=
  | atteint_aaaa_vide : atteint_aaaa [] tracker_aaaa_vide
  | atteint_aaaa_appel h t ts ip resp t' r :
      atteint_aaaa h t -> bytes_ok resp ->
      observer_aaaa t ts ip resp = Done (t', r) -> atteint_aaaa ((ip, resp, ts) :: h) t'.

Definition vu (h : list (list Z * list Z * Z)) (k e d : Z) : Prop :=
  exists ip resp, (ip, resp, d) ∈ h /\ releve ip resp k e.

Lemma vu_cons h c k e d : vu h k e d -> vu (c :: h) k e d.
Proof. intros (ip & resp & Hin & Hr). exists ip, resp. set_solver. Qed.

Lemma vu_tete h ip resp ts k e : releve ip resp k e -> vu ((ip, resp, ts) :: h) k e ts.
Proof. intros Hr. exists ip, resp. set_solver. Qed.

Lemma atteint_aaaa_inv h t : atteint_aaaa h t -> tracker_inv (vu h) t.
Proof.
  induction 1 as [|h t ts ip resp t' r _ IH Hb Hr]; [apply aaaa_inv_vide|].
  pose proof (wp_observer_aaaa (vu ((ip, resp, ts) :: h)) t ts ip resp Hb
    (vu_tete h ip resp ts) (aaaa_inv_mono _ _ _ (vu_cons h _) IH)) as W.
  rewrite Hr in W. destruct r. apply W.
Qed.

(** * Properties *)

(** A response for [a] with [n] AAAA records of one /64, identifiers 1..n. *)
Definition enregistrement_aaaa (i : Z) : list Z :=
  [192; 12; 0; 28; 0; 1; 0; 0; 0; 60; 0; 16] ++ [32; 1; 13; 184; 0; 0; 0; 0] ++ replicate 8 (i + 1).
Definition reponse_aaaa (n : Z) : list Z :=
  [0; 0; 129; 128; 0; 1; 0; n; 0; 0; 0; 0] ++ [1; 97; 0; 0; 28; 0; 1] ++
  concat (enregistrement_aaaa <$> seqZ 0 n).
Definition client_exemple : list Z := [10; 0; 0; 1].

(** On any packet and any date, [ObserveResponse] of the AAAA tracker
    neither panics nor loops, keeps the table at 256 sets of 4 ways of 16
    duplicate-free cells, and returns the P21 reason exactly with the alarm. *)
Theorem observer_aaaa_sur t ts ip resp :
  tracker_inv (fun _ _ _ => True) t -> bytes_ok resp ->
  wp (observer_aaaa t ts ip resp) (fun '(t', (alarme, raison)) =>
    tracker_inv (fun _ _ _ => True) t' /\
    raison = (if alarme then ReasonP21AAAAIIDDownlink else ReasonNone)).
Proof.
  intros Ht Hb. eapply wp_mono; [by apply (wp_observer_aaaa (fun _ _ _ => True))|].
  intros [t' [al ra]] (?&?&_). done.
Qed.

Lemma observer_aaaa_sur_witness :
  wp (observer_aaaa tracker_aaaa_vide 3 client_exemple (reponse_aaaa 8)) (fun '(t', (alarme, raison)) =>
    tracker_inv (fun _ _ _ => True) t' /\
    raison = (if alarme then ReasonP21AAAAIIDDownlink else ReasonNone)).
Proof.
  apply (observer_aaaa_sur tracker_aaaa_vide 3 client_exemple (reponse_aaaa 8));
    [apply aaaa_inv_vide|by apply octets_valides_ok].
Defined.

(** No unfounded P21 alarm. After any sequence of calls from the empty
    tracker, an alarm means that some (client, /64) key of this response has
    eight distinct full-width interface identifiers, each read from an
    admissible AAAA record of a response of the sequence no older than ten
    minutes. *)
Theorem alarme_aaaa_fondee h t ts ip resp t' r :
  atteint_aaaa h t -> bytes_ok resp -> observer_aaaa t ts ip resp = Done (t', (true, r)) ->
  exists k L, NoDup L /\ 8 <= zlen L /\ (exists e0, releve ip resp k e0) /\
    forall e, e ∈ L -> exists ip' resp' d, (ip', resp', d) ∈ (ip, resp, ts) :: h /\
      releve ip' resp' k e /\ i64 (ts - 600000000000) <= d.
Proof.
  intros Hat Hb Ho.
  pose proof (wp_observer_aaaa (vu ((ip, resp, ts) :: h)) t ts ip resp Hb (vu_tete h ip resp ts)
    (aaaa_inv_mono _ _ _ (vu_cons h _) (atteint_aaaa_inv _ _ Hat))) as W.
  rewrite Ho in W. simpl in W. destruct W as (_ & _ & W).
  destruct (W eq_refl) as (k & e0 & v & Hrel & (Hz & Hz' & Hd & Hc) & Ha).
  unfold voie_en_alarme, nb_identifiants_vivants in Ha. zbool. subst k.
  destruct (vivants_depuis_distincts (identifiants v) (horodatagesNs v)
    (i64 (ts - 600000000000)) ltac:(lia) Hd) as (L & HL & HLz & HLe).
  exists (cleSuivi v), L. split_and!; [done|lia|by eexists|].
  intros e He. destruct (HLe e He) as (Hn & j & d & H1 & H2 & H3).
  destruct (Hc j e d H1 H2 Hn) as (ip' & resp' & Hin & Hr). eauto 10.
Qed.

Lemma alarme_aaaa_fondee_witness : exists k L, NoDup L /\ 8 <= zlen L /\
  forall e, e ∈ L -> releve client_exemple (reponse_aaaa 8) k e.
Proof.
  destruct (alarme_aaaa_fondee [] tracker_aaaa_vide 3 client_exemple (reponse_aaaa 8)
    (match observer_aaaa tracker_aaaa_vide 3 client_exemple (reponse_aaaa 8) with
     | Done (t', _) => t' | _ => tracker_aaaa_vide end) ReasonP21AAAAIIDDownlink)
    as (k & L & H1 & H2 & _ & H3).
  - apply atteint_aaaa_vide.
  - by apply octets_valides_ok.
  - vm_compute. reflexivity.
  - exists k, L. split_and!; [done..|]. intros e He.
    destruct (H3 e He) as (ip & resp & d & Hin & Hr & _).
    apply list_elem_of_singleton in Hin. by injection Hin as -> -> ->.
Defined.
