(* ===== verification/Renouvellement.v ===== *)
(** [RenouvellementRDataTracker] (src/internal/engine/renouvellement_rdata.go):
    rule P15, abnormal renewal of large RRset fingerprints per (client, apex,
    qtype).  A 256x4 LRU table of 16-slot circular buffers.  The theorems: the
    circular buffer refines a bounded queue of dated responses, the decision is
    the P15 criterion on that queue, keys are unique in a set, alarms are backed
    by real responses of the window, and the RRset fingerprint does not depend
    on the order of the records. *)
From S2P Require Import Prelude DnsName Fnv.

Definition fenetreRenouvellementRDataNs : Z := 600000000000.
Definition seuilReponsesRenouvellementRData : Z := 8.
Definition seuilPermilleRenouvellementRData : Z := 750.
Definition seuilMoyenneRDLengthRenouvellement : Z := 128.

Record RenouvellementRDataObs := Obs {
  Reponses : Z;
  Distinctes : Z;
  MoyenneRDLength : Z;
  Permille : Z;
  Valide : bool
}.
Definition obs_vide : RenouvellementRDataObs := Obs 0 0 0 0 false.

Record voieRenouvellementRData := VoieRData {
  cleCouple : Z;
  dernierAccesNs : Z;
  empreintesAnneau : list Z;
  horodatagesNs : list Z;
  taillesRData : list Z;
  debutAnneau : Z;
  nbEntrees : Z
}.

(** [voieRenouvellementRData{cleCouple: cle}] *)
Definition voie_neuve (cle : Z) : voieRenouvellementRData :=
  VoieRData cle 0 (replicate 16 0) (replicate 16 0) (replicate 16 0) 0 0.

Definition RenouvellementRDataTracker : Type := list (list voieRenouvellementRData).
Definition tracker_rdata_vide : RenouvellementRDataTracker := replicate 256 (replicate 4 (voie_neuve 0)).

Definition qtypeAdmissibleRenouvellementRData (qtype : Z) : bool :=
  (qtype =? 2) || (qtype =? 15) || (qtype =? 16) || (qtype =? 33) || (qtype =? 257).

(** ** The key of a couple *)

Definition normaliserCleClientRData (clientIP : list Z) : list Z :=
  let estIPv4Mappee := (bget clientIP 10 =? 255) && (bget clientIP 11 =? 255) &&
                       forallb (fun o => o =? 0) (take 10 clientIP) in
  if estIPv4Mappee then copy_into (replicate 4 0) (drop 12 clientIP) ++ replicate 12 0 else
  let estIPv6Reelle := existsb (fun o => negb (o =? 0)) (drop 4 clientIP) in
  if estIPv6Reelle then copy_into (replicate 8 0) (take 8 clientIP) ++ replicate 8 0 else
  copy_into (replicate 4 0) (take 4 clientIP) ++ replicate 12 0.

(** [for longueurApex > 0 && parentApex[longueurApex-1] == '.' { longueurApex-- }] *)
Fixpoint longueur_apex (parentApex : list Z) (longueurApex : nat) : nat :=
  match longueurApex with
  | O => O
  | S n => if bget parentApex (Z.of_nat n) =? 46 then longueur_apex parentApex n else S n
  end.

Definition calculerCleRenouvellementRData (clientIP parentApex : list Z) (qtype : Z) : Z :=
  let hachage := hacherOctetsFNV64a fnvOffset64 (normaliserCleClientRData clientIP) in
  let hachage := fnv_octet hachage 0 in
  let apex := take (longueur_apex parentApex (length parentApex)) parentApex in
  let hachage := fold_left (fun h c => fnv_octet h (minuscule c)) apex hachage in
  let hachage := fnv_octet hachage 0 in
  let hachage := fnv_octet hachage (u8 (Z.shiftr qtype 8)) in
  let hachage := fnv_octet hachage (u8 qtype) in
  let cleFinale := melangerSplitMix64 hachage in
  if cleFinale =? 0 then 1 else cleFinale.

(** ** The fingerprint of a response *)

(** The name at [debut], canonical when it fills the RDATA, raw otherwise. *)
Definition hacher_nom_ou_brut (paquetFilaire : list Z) (hachage debut finRData : Z) (espaceNom : list Z)
  : run (Z * list Z) :=
  r ← decompresserNomDNS paquetFilaire debut finRData false (Some espaceNom) None;
  let espaceNom := contenu r in
  if valide r && (fin r =? finRData) then
    nom ← slice espaceNom 0 (taille r); Done (hacherOctetsFNV64a hachage nom, espaceNom)
  else
    brut ← slice paquetFilaire debut finRData; Done (hacherOctetsFNV64a hachage brut, espaceNom).

(** A fixed prefix, a separator, then the name ([case 15], [case 33]). *)
Definition hacher_prefixe_nom (paquetFilaire : list Z) (hachage n debutRData finRData : Z)
    (espaceNom : list Z) : run (Z * list Z) :=
  if n + 1 <=? finRData - debutRData then
    prefixe ← slice paquetFilaire debutRData (debutRData + n);
    let hachage := fnv_octet (hacherOctetsFNV64a hachage prefixe) 0 in
    hacher_nom_ou_brut paquetFilaire hachage (debutRData + n) finRData espaceNom
  else
    brut ← slice paquetFilaire debutRData finRData; Done (hacherOctetsFNV64a hachage brut, espaceNom).

Definition hacherEnregistrementAnswerCanonique (paquetFilaire : list Z)
    (typeRR classeRR debutRData finRData : Z) (espaceNom : list Z) : run (Z * list Z) :=
  let hachage := fnv_octet fnvOffset64 (u8 (Z.shiftr typeRR 8)) in
  let hachage := fnv_octet hachage (u8 typeRR) in
  let hachage := fnv_octet hachage (u8 (Z.shiftr classeRR 8)) in
  let hachage := fnv_octet hachage (u8 classeRR) in
  '(hachage, espaceNom) ←
    (if (typeRR =? 2) || (typeRR =? 5) || (typeRR =? 12)
     then hacher_nom_ou_brut paquetFilaire hachage debutRData finRData espaceNom
     else if typeRR =? 15 then hacher_prefixe_nom paquetFilaire hachage 2 debutRData finRData espaceNom
     else if typeRR =? 33 then hacher_prefixe_nom paquetFilaire hachage 6 debutRData finRData espaceNom
     else brut ← slice paquetFilaire debutRData finRData; Done (hacherOctetsFNV64a hachage brut, espaceNom));
  let empreinteRR := melangerSplitMix64 hachage in
  Done (if empreinteRR =? 0 then 1 else empreinteRR, espaceNom).

(** The per-packet duplicate table of 16 fingerprints and the commutative sum. *)
Definition accumuler_rr (vues : list Z) (somme empreinteRR : Z) : list Z * Z :=
  if existsb (fun v => v =? empreinteRR) vues then (vues, somme)
  else (if zlen vues <? 16 then vues ++ [empreinteRR] else vues, u64 (somme + empreinteRR)).

Record cumul_rr := CumulRR {
  curseur : Z;
  espaceNomRR : list Z;
  empreintesVuesPaquet : list Z;
  sommeCommutative : Z;
  sommeRDLength : Z;
  nbRRsRetenus : Z
}.

(** One answer record; [inr tt] is [return 0, 0, false]. *)
Definition pas_rr (paquetFilaire : list Z) (c : cumul_rr) : run (cumul_rr + unit) :=
  r ← decompresserNomDNS paquetFilaire (curseur c) (zlen paquetFilaire) false None None;
  if negb (valide r) || (zlen paquetFilaire <? fin r + 10) then Done (inr tt) else
  typeRR ← be16 paquetFilaire (fin r);
  classeRR ← be16 paquetFilaire (fin r + 2);
  longueurRData ← be16 paquetFilaire (fin r + 8);
  let debutRData := fin r + 10 in
  let finRData := debutRData + longueurRData in
  if zlen paquetFilaire <? finRData then Done (inr tt) else
  if typeRR =? 46 then
    Done (inl (CumulRR finRData (espaceNomRR c) (empreintesVuesPaquet c) (sommeCommutative c)
                 (sommeRDLength c) (nbRRsRetenus c)))
  else
    '(empreinteRR, espaceNom) ←
      hacherEnregistrementAnswerCanonique paquetFilaire typeRR classeRR debutRData finRData (espaceNomRR c);
    let '(vues, somme) := accumuler_rr (empreintesVuesPaquet c) (sommeCommutative c) empreinteRR in
    Done (inl (CumulRR finRData espaceNom vues somme (sommeRDLength c + longueurRData) (nbRRsRetenus c + 1))).

Definition extraireEmpreinteRRsetAnswer (paquetFilaire : list Z) : run (option (Z * Z)) :=
  if zlen paquetFilaire <? 12 then Done None else
  drapeaux ← be16 paquetFilaire 2;
  if (Z.land drapeaux 0x8000 =? 0) || negb (Z.land (Z.shiftr drapeaux 11) 15 =? 0) ||
     negb (Z.land drapeaux 0x0200 =? 0) || negb (Z.land drapeaux 0x000F =? 0) then Done None else
  nbQuestions ← be16 paquetFilaire 4;
  nbReponses ← be16 paquetFilaire 6;
  if (nbQuestions =? 0) || (nbReponses =? 0) then Done None else
  q ← sauter_questions paquetFilaire nbQuestions 12;
  match q with
  | inr _ => Done None
  | inl curseur =>
      o ← for_range nbReponses (CumulRR curseur (replicate 255 0) [] 0 0 0) (fun _ c => pas_rr paquetFilaire c);
      match o with
      | inr _ => Done None
      | inl c =>
          if nbRRsRetenus c =? 0 then Done None else
          Done (Some (if sommeCommutative c =? 0 then 1 else sommeCommutative c,
                      u16 (if 65535 <? sommeRDLength c then 65535 else sommeRDLength c)))
      end
  end.

(** ** The circular buffer of a way *)

Definition expiree (tsNs horodatage : Z) : bool :=
  (horodatage <? tsNs) && (fenetreRenouvellementRDataNs <? i64 (tsNs - horodatage)).

Definition indice_anneau (v : voieRenouvellementRData) (decalage : Z) : Z :=
  Z.land (u8 (debutAnneau v + decalage)) 15.

Definition purgerEntreesExpireesRData (v : voieRenouvellementRData) (tsNs : Z) : run voieRenouvellementRData :=
  if nbEntrees v =? 0 then Done v else
  aExpire ← for_range (nbEntrees v) tt (fun decalage _ =>
    horodatage ← idx (horodatagesNs v) (indice_anneau v decalage);
    if expiree tsNs horodatage then Done (inr tt) else Done (inl tt));
  match aExpire with
  | inl _ => Done v
  | inr _ =>
      o ← for_range (nbEntrees v) (replicate 16 0, replicate 16 0, replicate 16 0, 0)
        (fun decalage '(E, H, T, n) =>
          let indiceAnneau := indice_anneau v decalage in
          horodatage ← idx (horodatagesNs v) indiceAnneau;
          if expiree tsNs horodatage then Done (inl (E, H, T, n)) else
          e ← idx (empreintesAnneau v) indiceAnneau;
          t ← idx (taillesRData v) indiceAnneau;
          E ← upd E n e; H ← upd H n horodatage; T ← upd T n t;
          Done (inl (B := list Z * list Z * list Z * Z) (E, H, T, u8 (n + 1))));
      let '(E, H, T, n) := match o with inl s | inr s => s end in
      Done (VoieRData (cleCouple v) (dernierAccesNs v) E H T 0 n)
  end.

(** The write of one response, with [dernierAccesNs = tsNs]. *)
Definition ajouter_anneau (v : voieRenouvellementRData) (empreinteRRset tsNs tailleReponse : Z)
  : run voieRenouvellementRData :=
  if nbEntrees v <? 16 then
    let i := indice_anneau v (nbEntrees v) in
    E ← upd (empreintesAnneau v) i empreinteRRset;
    H ← upd (horodatagesNs v) i tsNs;
    T ← upd (taillesRData v) i tailleReponse;
    Done (VoieRData (cleCouple v) tsNs E H T (debutAnneau v) (u8 (nbEntrees v + 1)))
  else
    let i := Z.land (debutAnneau v) 15 in
    E ← upd (empreintesAnneau v) i empreinteRRset;
    H ← upd (horodatagesNs v) i tsNs;
    T ← upd (taillesRData v) i tailleReponse;
    Done (VoieRData (cleCouple v) tsNs E H T (indice_anneau v 1) (nbEntrees v)).

Definition mesurerFenetreAnneauRData (v : voieRenouvellementRData) (decalageLogique longueurFenetre : Z)
  : run RenouvellementRDataObs :=
  if longueurFenetre <=? 0 then Done obs_vide else
  o ← for_range longueurFenetre (replicate 16 0, 0, 0) (fun pas '(D, nb, somme) =>
        let indiceAnneau := Z.land (debutAnneau v + decalageLogique + pas) 15 in
        empreinte ← idx (empreintesAnneau v) indiceAnneau;
        t ← idx (taillesRData v) indiceAnneau;
        vues ← slice D 0 nb;
        if existsb (fun d => d =? empreinte) vues then Done (inl (D, nb, somme + t)) else
        D ← upd D nb empreinte;
        Done (inl (B := list Z * Z * Z) (D, nb + 1, somme + t)));
  let '(_, nbDistinctes, sommeTailles) := match o with inl s | inr s => s end in
  Done (Obs (u16 longueurFenetre) (u8 nbDistinctes)
          (u16 (Z.min (Z.quot sommeTailles longueurFenetre) 65535))
          (Z.quot (nbDistinctes * 1000) longueurFenetre)
          (seuilReponsesRenouvellementRData <=? longueurFenetre)).

Definition franchi (o : RenouvellementRDataObs) : bool :=
  Valide o && (seuilPermilleRenouvellementRData <=? Permille o) &&
  (seuilMoyenneRDLengthRenouvellement <=? MoyenneRDLength o).

(** The decision after the write: whole buffer, then the last 8 responses. *)
Definition decider_rdata (v : voieRenouvellementRData) : run (bool * RenouvellementRDataObs) :=
  let nbActives := nbEntrees v in
  obsAnneau ← mesurerFenetreAnneauRData v 0 nbActives;
  if franchi obsAnneau then Done (true, obsAnneau) else
  if seuilReponsesRenouvellementRData <? nbActives then
    obsRecentes ← mesurerFenetreAnneauRData v (nbActives - seuilReponsesRenouvellementRData)
                    seuilReponsesRenouvellementRData;
    if franchi obsRecentes then Done (true, obsRecentes) else Done (false, obsAnneau)
  else Done (false, obsAnneau).

(** ** The table *)

Record choix_rdata := ChoixRData {
  indiceLibre : Z;
  indiceVictimeLRU : Z;
  horodatageVictimeLRU : Z;
  victimeInitialisee : bool
}.

Definition chercher_voie_rdata (alveole : list voieRenouvellementRData) (cle tsNs : Z)
  : run (choix_rdata + Z) :=
  for_range (zlen alveole) (ChoixRData (-1) 0 0 false) (fun i c =>
    v ← idx alveole i;
    if cleCouple v =? cle then Done (inr i) else
    if (cleCouple v =? 0) || (nbEntrees v =? 0) || expiree tsNs (dernierAccesNs v) then
      Done (inl (if indiceLibre c <? 0
                 then ChoixRData i (indiceVictimeLRU c) (horodatageVictimeLRU c) (victimeInitialisee c)
                 else c))
    else if negb (victimeInitialisee c) || (dernierAccesNs v <? horodatageVictimeLRU c) then
      Done (inl (ChoixRData (indiceLibre c) i (dernierAccesNs v) true))
    else Done (inl c)).

(** The way the response goes to, purged or reset. *)
Definition voie_active (alveole : list voieRenouvellementRData) (cle tsNs : Z)
  : run (Z * voieRenouvellementRData) :=
  c ← chercher_voie_rdata alveole cle tsNs;
  match c with
  | inr i => v ← idx alveole i; v ← purgerEntreesExpireesRData v tsNs; Done (i, v)
  | inl c => Done (if indiceLibre c <? 0 then indiceVictimeLRU c else indiceLibre c, voie_neuve cle)
  end.

(** The table part: way, write, decision. *)
Definition enregistrer (t : RenouvellementRDataTracker) (k e ts taille : Z)
  : run (RenouvellementRDataTracker * (bool * RenouvellementRDataObs)) :=
  alveole ← idx t (Z.land k 255);
  '(i, v) ← voie_active alveole k ts;
  v ← ajouter_anneau v e ts taille;
  alveole ← upd alveole i v;
  t ← upd t (Z.land k 255) alveole;
  r ← decider_rdata v;
  Done (t, r).

Definition observer_rdata (t : RenouvellementRDataTracker) (tsNs : Z) (clientIP parentApex : list Z)
    (qtype : Z) (respWire : list Z) : run (RenouvellementRDataTracker * (bool * RenouvellementRDataObs)) :=
  if negb (qtypeAdmissibleRenouvellementRData qtype) then Done (t, (false, obs_vide)) else
  e ← extraireEmpreinteRRsetAnswer respWire;
  match e with
  | None => Done (t, (false, obs_vide))
  | Some (empreinteRRset, tailleReponse) =>
      let cle := calculerCleRenouvellementRData clientIP parentApex qtype in
      enregistrer t cle empreinteRRset tsNs tailleReponse
  end.

(** * The buffer as a queue *)

Definition reponse_datee : Type := (Z * Z * Z)%type.
Definition empreinte_de (x : reponse_datee) : Z := x.1.1.
Definition date_de (x : reponse_datee) : Z := x.1.2.
Definition taille_de (x : reponse_datee) : Z := x.2.

Definition cellule (E H T : list Z) (i : Z) : reponse_datee := (bget E i, bget H i, bget T i).

(** The responses of a way, oldest first. *)
Definition vue (v : voieRenouvellementRData) : list reponse_datee :=
  (fun k => cellule (empreintesAnneau v) (horodatagesNs v) (taillesRData v)
              (Z.land (debutAnneau v + k) 15)) <$> seqZ 0 (nbEntrees v).

Definition voie_ok (v : voieRenouvellementRData) : Prop :=
  zlen (empreintesAnneau v) = 16 /\ zlen (horodatagesNs v) = 16 /\ zlen (taillesRData v) = 16 /\
  0 <= debutAnneau v < 16 /\ 0 <= nbEntrees v <= 16 /\ Forall is_u16 (taillesRData v).

Lemma land15 a : Z.land a 15 = a mod 16.
Proof. apply (Z.land_ones a 4). lia. Qed.

Lemma indice_anneau_mod v k : 0 <= debutAnneau v < 16 -> 0 <= k <= 16 ->
  indice_anneau v k = Z.land (debutAnneau v + k) 15.
Proof. intros. unfold indice_anneau. rewrite u8_id by (unfold is_u8; lia). done. Qed.

Lemma seqZ_succ n : 0 <= n -> seqZ 0 (n + 1) = seqZ 0 n ++ [n].
Proof. intros. rewrite seqZ_app by lia. by rewrite (seqZ_cons (0 + n) 1) by lia. Qed.

Lemma fmap_seqZ_ext {A} (f g : Z -> A) n :
  (forall k, 0 <= k < n -> f k = g k) -> f <$> seqZ 0 n = g <$> seqZ 0 n.
Proof.
  intros H. apply list_fmap_ext. intros i k Hk%list_elem_of_lookup_2.
  apply elem_of_seqZ in Hk. apply H. lia.
Qed.

Lemma zlen_vue v : voie_ok v -> zlen (vue v) = nbEntrees v.
Proof. intros (_&_&_&_&?&_). unfold zlen, vue. rewrite length_fmap, length_seqZ. lia. Qed.

Lemma voie_neuve_ok cle : voie_ok (voie_neuve cle).
Proof. split_and!; try done. by apply Forall_replicate. Qed.

Lemma vue_neuve cle : vue (voie_neuve cle) = [].
Proof. done. Qed.

Lemma vue_lookup v k : voie_ok v -> 0 <= k < nbEntrees v ->
  vue v !! Z.to_nat k = Some (cellule (empreintesAnneau v) (horodatagesNs v) (taillesRData v)
    (Z.land (debutAnneau v + k) 15)).
Proof.
  intros Hv Hk. unfold vue. rewrite list_lookup_fmap, lookup_seqZ_lt by lia. simpl.
  by rewrite Z2Nat.id by lia.
Qed.

(** ** Insertion *)

Definition pousser (q : list reponse_datee) (x : reponse_datee) : list reponse_datee :=
  (if zlen q <? 16 then q else tail q) ++ [x].

Lemma cellule_insert E H T p e h t i :
  0 <= p < 16 -> zlen E = 16 -> zlen H = 16 -> zlen T = 16 -> 0 <= i ->
  cellule (<[Z.to_nat p := e]> E) (<[Z.to_nat p := h]> H) (<[Z.to_nat p := t]> T) i
  = if i =? p then (e, h, t) else cellule E H T i.
Proof.
  intros. unfold cellule. destruct (Z.eqb_spec i p) as [-> |].
  - by rewrite !bget_insert_eq by lia.
  - by rewrite !bget_insert_ne by lia.
Qed.

Lemma wp_ajouter_anneau v e ts taille :
  voie_ok v -> is_u16 taille ->
  wp (ajouter_anneau v e ts taille) (fun v' => voie_ok v' /\ cleCouple v' = cleCouple v /\
    dernierAccesNs v' = ts /\ vue v' = pousser (vue v) (e, ts, taille)).
Proof.
  intros Hv Ht. pose proof (zlen_vue v Hv) as Hz. destruct (id Hv) as (HE & HH & HT & Hd & Hn & HF).
  unfold ajouter_anneau, pousser. rewrite Hz. wp_step.
  - rewrite indice_anneau_mod, land15 by lia. set (p := (debutAnneau v + nbEntrees v) mod 16).
    assert (0 <= p < 16) by (apply Z.mod_pos_bound; lia).
    do 3 (apply wp_bind, wp_upd; [lia|]). wp_step. split; [|split_and!; try done].
    + unfold voie_ok; simpl. rewrite !zlen_insert, u8_id by (unfold is_u8; lia).
      split_and!; auto; try lia. by apply Forall_insert.
    + unfold vue at 1; simpl. rewrite u8_id by (unfold is_u8; lia). rewrite seqZ_succ, fmap_app by lia. f_equal.
      * apply fmap_seqZ_ext. intros k Hk. rewrite land15.
        rewrite cellule_insert by (try lia; apply Z.mod_pos_bound; lia).
        destruct (Z.eqb_spec ((debutAnneau v + k) mod 16) p) as [E|]; [|done].
        unfold p in E. exfalso. divlia.
      * simpl. rewrite land15, cellule_insert by (try lia; apply Z.mod_pos_bound; lia).
        by rewrite Z.eqb_refl.
  - rewrite land15. replace (debutAnneau v mod 16) with (debutAnneau v) by (symmetry; apply Z.mod_small; lia).
    do 3 (apply wp_bind, wp_upd; [lia|]). wp_step. rewrite indice_anneau_mod, land15 by lia.
    assert (nbEntrees v = 16) as H16 by lia.
    split; [|split_and!; try done].
    + unfold voie_ok; simpl. rewrite !zlen_insert. split_and!; auto; try divlia.
      by apply Forall_insert.
    + unfold vue; simpl. rewrite H16.
      assert (seqZ 0 16 = seqZ 0 15 ++ [15]) as E1 by done.
      assert (seqZ 0 16 = 0 :: (Z.succ <$> seqZ 0 15)) as E2 by done.
      rewrite E1 at 1. rewrite E2, fmap_app. f_equal.
      * rewrite fmap_cons. cbn [tail]. rewrite <- list_fmap_compose. apply fmap_seqZ_ext. intros k Hk. simpl. rewrite !land15.
        rewrite cellule_insert by (try lia; apply Z.mod_pos_bound; lia).
        replace (((debutAnneau v + 1) mod 16 + k) mod 16) with ((debutAnneau v + Z.succ k) mod 16) by divlia.
        destruct (Z.eqb_spec ((debutAnneau v + Z.succ k) mod 16) (debutAnneau v)); [exfalso; divlia|done].
      * simpl. rewrite land15, cellule_insert by (try lia; apply Z.mod_pos_bound; lia).
        destruct (Z.eqb_spec (((debutAnneau v + 1) mod 16 + 15) mod 16) (debutAnneau v)); [done|exfalso; divlia].
Qed.

(** ** Purge *)

Definition vivantes (ts : Z) (q : list reponse_datee) : list reponse_datee :=
  filter (fun x => expiree ts (date_de x) = false) q.

Lemma vivantes_id ts q : Forall (fun x => expiree ts (date_de x) = false) q -> vivantes ts q = q.
Proof.
  unfold vivantes. induction 1 as [|x q Hx _ IH]; [done|]. rewrite filter_cons_True by done. by rewrite IH.
Qed.

(** The first [n] cells of three arrays, before they are wrapped in a way. *)
Definition cellules (E H T : list Z) (n : Z) : list reponse_datee := cellule E H T <$> seqZ 0 n.

Definition tableau_ok (E H T : list Z) : Prop :=
  zlen E = 16 /\ zlen H = 16 /\ zlen T = 16 /\ Forall is_u16 T.

Lemma cellules_ajout E H T n e h t :
  tableau_ok E H T -> 0 <= n < 16 -> is_u16 t ->
  tableau_ok (<[Z.to_nat n := e]> E) (<[Z.to_nat n := h]> H) (<[Z.to_nat n := t]> T) /\
  cellules (<[Z.to_nat n := e]> E) (<[Z.to_nat n := h]> H) (<[Z.to_nat n := t]> T) (n + 1)
  = cellules E H T n ++ [(e, h, t)].
Proof.
  intros (HE & HH & HT & HF) Hn Ht. split.
  - unfold tableau_ok. rewrite !zlen_insert. split_and!; auto. by apply Forall_insert.
  - unfold cellules. rewrite seqZ_succ, fmap_app by lia. f_equal.
    + apply fmap_seqZ_ext. intros k Hk. rewrite cellule_insert by lia. by destruct (Z.eqb_spec k n); [lia|].
    + simpl. rewrite cellule_insert by lia. by rewrite Z.eqb_refl.
Qed.

Lemma vue_prefixe_succ v i : voie_ok v -> 0 <= i < nbEntrees v ->
  take (Z.to_nat (i + 1)) (vue v) = take (Z.to_nat i) (vue v) ++
    [cellule (empreintesAnneau v) (horodatagesNs v) (taillesRData v) (Z.land (debutAnneau v + i) 15)].
Proof.
  intros Hv Hi. replace (Z.to_nat (i + 1)) with (S (Z.to_nat i)) by lia.
  apply take_S_r. by apply vue_lookup.
Qed.

Lemma take_vue v : voie_ok v -> take (Z.to_nat (nbEntrees v)) (vue v) = vue v.
Proof.
  intros Hv. apply take_ge. pose proof (zlen_vue v Hv). unfold zlen in *. lia.
Qed.

Lemma vivantes_snoc ts q x :
  vivantes ts (q ++ [x]) = vivantes ts q ++ (if expiree ts (date_de x) then [] else [x]).
Proof.
  unfold vivantes. rewrite filter_app. f_equal. rewrite filter_cons.
  destruct (expiree ts (date_de x)) eqn:E; case_decide; try done; congruence.
Qed.

Definition purge_inv v ts (i : Z) (s : list Z * list Z * list Z * Z) : Prop :=
  let '(E, H, T, n) := s in
  tableau_ok E H T /\ 0 <= n <= i /\ cellules E H T n = vivantes ts (take (Z.to_nat i) (vue v)).

Lemma wp_purge_pas v ts i E H T n :
  voie_ok v -> 0 <= i < nbEntrees v -> purge_inv v ts i (E, H, T, n) ->
  wp (let indiceAnneau := indice_anneau v i in
      horodatage ← idx (horodatagesNs v) indiceAnneau;
      if expiree ts horodatage then Done (inl (E, H, T, n)) else
      e ← idx (empreintesAnneau v) indiceAnneau;
      t ← idx (taillesRData v) indiceAnneau;
      E ← upd E n e; H ← upd H n horodatage; T ← upd T n t;
      Done (inl (B := list Z * list Z * list Z * Z) (E, H, T, u8 (n + 1))))
    (fun o => match o with inl s => purge_inv v ts (i + 1) s | inr _ => False end).
Proof.
  intros Hv Hi (Htab & Hn & Hc). destruct (id Hv) as (HE & HH & HT & Hd & Hnb & HF).
  cbv zeta. rewrite indice_anneau_mod by lia.
  pose proof (vue_prefixe_succ v i Hv Hi) as Hs. rewrite land15 in Hs |- *.
  set (p := (debutAnneau v + i) mod 16) in *. assert (0 <= p < 16) by (apply Z.mod_pos_bound; lia).
  apply wp_bind, wp_idx_bget; [lia|]. wp_step.
  - wp_step. split_and!; auto; try lia. rewrite Hs, vivantes_snoc. unfold date_de; simpl.
    by rewrite Hc0, app_nil_r.
  - apply wp_bind, wp_idx_bget; [lia|]. apply wp_bind, wp_idx_bget; [lia|].
    destruct (id Htab) as (KE & KH & KT & KF).
    do 3 (apply wp_bind, wp_upd; [lia|]). wp_step. rewrite u8_id by (unfold is_u8; lia).
    destruct (cellules_ajout E H T n (bget (empreintesAnneau v) p) (bget (horodatagesNs v) p)
      (bget (taillesRData v) p) Htab ltac:(lia)) as [K1 K2].
    { apply bget_Forall; [done|lia]. }
    split_and!; auto; try lia. rewrite K2, Hs, vivantes_snoc, Hc. unfold date_de; simpl.
    by rewrite Hc0.
Qed.

Lemma wp_purger v ts :
  voie_ok v ->
  wp (purgerEntreesExpireesRData v ts) (fun v' => voie_ok v' /\ cleCouple v' = cleCouple v /\
    vue v' = vivantes ts (vue v)).
Proof.
  intros Hv. destruct (id Hv) as (HE & HH & HT & Hd & Hnb & HF).
  unfold purgerEntreesExpireesRData. wp_step.
  { wp_step. split_and!; auto. assert (vue v = []) as -> by (unfold vue; by rewrite Hc). done. }
  apply wp_bind.
  apply (wp_for_range (fun i _ => Forall (fun x => expiree ts (date_de x) = false)
    (take (Z.to_nat i) (vue v)))); [lia|constructor| |].
  - intros i [] Hi HI. rewrite indice_anneau_mod by lia.
    pose proof (vue_prefixe_succ v i Hv Hi) as Hs. rewrite land15 in Hs |- *.
    apply wp_bind, wp_idx_bget; [rewrite HH; apply Z.mod_pos_bound; lia|]. wp_step; wp_step.
    + apply wp_bind. apply (wp_for_range (purge_inv v ts)); [lia| | |].
      * split_and!; try done. split_and!; try done. by apply Forall_replicate.
      * intros j [[[E H] T] n] Hj HI'. eapply wp_mono; [by apply wp_purge_pas|]. by intros [s|r].
      * intros [[[E H] T] n] ((KE & KH & KT & KF) & Kn & Kc). wp_step. rewrite take_vue in Kc by done.
        split; [split_and!; simpl; auto; lia|]. split; [done|]. rewrite <- Kc. unfold vue, cellules; simpl.
        apply fmap_seqZ_ext. intros k Hk. by rewrite land15, Z.mod_small by lia.
    + rewrite Hs. apply Forall_app. split; [done|]. by constructor.
  - intros _ HI. rewrite take_vue in HI by done. wp_step. split_and!; auto. by rewrite vivantes_id.
Qed.

(** ** Measure *)

(** The measure of a window of responses, as the rule states it. *)
Definition mesure (q : list reponse_datee) : RenouvellementRDataObs :=
  if zlen q =? 0 then obs_vide else
  let d := nb_distincts (empreinte_de <$> q) in
  Obs (zlen q) d (Z.min (somme (taille_de <$> q) / zlen q) 65535) (d * 1000 / zlen q) (8 <=? zlen q).

Definition mesure_inv (w : list reponse_datee) (i : Z) (s : list Z * Z * Z) : Prop :=
  let '(D, nb, total) := s in
  zlen D = 16 /\ 0 <= nb <= i /\ NoDup (take (Z.to_nat nb) D) /\
  (forall x, x ∈ take (Z.to_nat nb) D <-> x ∈ empreinte_de <$> take (Z.to_nat i) w) /\
  total = somme (taille_de <$> take (Z.to_nat i) w) /\ 0 <= total <= i * 65535.

Lemma wp_mesurer v off len :
  voie_ok v -> 0 <= off -> 0 <= len -> off + len <= nbEntrees v ->
  wp (mesurerFenetreAnneauRData v off len)
    (fun o => o = mesure (take (Z.to_nat len) (drop (Z.to_nat off) (vue v)))).
Proof.
  intros Hv Ho Hl Hb. destruct (id Hv) as (HE & HH & HT & Hd & Hnb & HF).
  set (w := take (Z.to_nat len) (drop (Z.to_nat off) (vue v))).
  assert (zlen w = len) as Hw.
  { unfold w, zlen. rewrite length_take, length_drop. pose proof (zlen_vue v Hv). unfold zlen in *. lia. }
  assert (forall i, 0 <= i < len -> w !! Z.to_nat i = Some (cellule (empreintesAnneau v)
    (horodatagesNs v) (taillesRData v) ((debutAnneau v + off + i) mod 16))) as Hwi.
  { intros i Hi. unfold w. rewrite lookup_take_lt, lookup_drop by lia.
    replace (Z.to_nat off + Z.to_nat i)%nat with (Z.to_nat (off + i)) by lia.
    rewrite vue_lookup, land15 by (done || lia). by rewrite Z.add_assoc. }
  unfold mesurerFenetreAnneauRData. unfold mesure. rewrite Hw. wp_step.
  { wp_step. assert (len = 0) as -> by lia. done. }
  destruct (Z.eqb_spec len 0); [lia|].
  apply wp_bind, (wp_for_range (mesure_inv w)); [lia| | |].
  - split_and!; try done. constructor.
  - intros i [[D nb] total] Hi (HD & Hn & Hnd & Hx & Ht & Htr). rewrite land15.
    set (p := (debutAnneau v + off + i) mod 16) in *.
    assert (0 <= p < 16) by (apply Z.mod_pos_bound; lia).
    assert (is_u16 (bget (taillesRData v) p)) as Ht16 by (apply bget_Forall; [done|lia]).
    assert (take (Z.to_nat (i + 1)) w = take (Z.to_nat i) w ++
      [cellule (empreintesAnneau v) (horodatagesNs v) (taillesRData v) p]) as Hs.
    { replace (Z.to_nat (i + 1)) with (S (Z.to_nat i)) by lia. apply take_S_r, Hwi; lia. }
    apply wp_bind, wp_idx_bget; [lia|]. apply wp_bind, wp_idx_bget; [lia|].
    apply wp_bind, wp_slice; [lia..|]. rewrite Z.sub_0_r, drop_0. unfold is_u16 in Ht16.
    wp_step.
    + apply existsb_eqb_elem in Hc0. wp_step. unfold mesure_inv. rewrite Hs, !fmap_app, somme_app. simpl.
      split_and!; auto; try lia. intros x. rewrite elem_of_app, <- Hx, list_elem_of_singleton. set_solver.
    + apply existsb_eqb_not_elem in Hc0. apply wp_bind, wp_upd; [lia|]. wp_step. unfold mesure_inv.
      rewrite Hs, !fmap_app, somme_app, zlen_insert, take_insert_snoc by lia. simpl.
      split_and!; auto; try lia.
      * apply NoDup_app. split_and!; [done| |apply NoDup_singleton]. intros x H1 H2%list_elem_of_singleton. by rewrite H2 in H1.
      * intros x. rewrite !elem_of_app, <- Hx, !list_elem_of_singleton. done.
  - intros [[D nb] total] (HD & Hn & Hnd & Hx & -> & Htr). wp_step.
    assert (take (Z.to_nat len) w = w) as Hww by (apply take_ge; unfold zlen in Hw; lia).
    rewrite Hww in *. rewrite <- (nb_distincts_alt _ _ Hnd Hx).
    assert (zlen (take (Z.to_nat nb) D) = nb) as -> by (unfold zlen in *; rewrite length_take; lia).
    rewrite !Z.quot_div_nonneg, u16_id, u8_id by (unfold is_u8, is_u16; lia).
    f_equal. apply u16_id. unfold is_u16. pose proof (Z.div_pos (somme (taille_de <$> w)) len). lia.
Qed.

(** The criterion of P15 on a queue: whole queue, or its last eight responses. *)
Definition decision (q : list reponse_datee) : bool * RenouvellementRDataObs :=
  if franchi (mesure q) then (true, mesure q)
  else let q8 := drop (length q - 8) q in
       if (8 <? zlen q) && franchi (mesure q8) then (true, mesure q8) else (false, mesure q).

Lemma wp_decider_rdata v : voie_ok v -> wp (decider_rdata v) (fun r => r = decision (vue v)).
Proof.
  intros Hv. pose proof (zlen_vue v Hv) as Hz. destruct (id Hv) as (_ & _ & _ & _ & Hnb & _).
  unfold decider_rdata, decision. apply wp_bind. eapply wp_mono; [apply wp_mesurer; auto; lia|].
  intros o ->. change (Z.to_nat 0) with 0%nat. rewrite drop_0, take_vue by done. rewrite Hz. unfold seuilReponsesRenouvellementRData.
  wp_step; [by wp_step|]. wp_step; [|by wp_step].
  apply wp_bind. eapply wp_mono; [apply wp_mesurer; auto; lia|]. intros o ->.
  rewrite take_ge by (rewrite length_drop; unfold zlen in Hz; lia).
  replace (Z.to_nat (nbEntrees v - 8)) with (length (vue v) - 8)%nat by (unfold zlen in Hz; lia).
  by wp_step; wp_step.
Qed.

(** * The table as a map from couples to queues *)

Definition cles_uniques (alveole : list voieRenouvellementRData) : Prop :=
  forall i j v w, alveole !! i = Some v -> alveole !! j = Some w ->
    cleCouple v = cleCouple w -> cleCouple v <> 0 -> i = j.

(** The queue an associative set holds for a key. *)
Definition file_alveole (alveole : list voieRenouvellementRData) (cle : Z) : list reponse_datee :=
  match list_find (fun v => cleCouple v = cle) alveole with Some (_, v) => vue v | None => [] end.

Definition alveole_de (t : RenouvellementRDataTracker) (cle : Z) : list voieRenouvellementRData :=
  nth (Z.to_nat (Z.land cle 255)) t [].

Definition file_de (t : RenouvellementRDataTracker) (cle : Z) : list reponse_datee :=
  file_alveole (alveole_de t cle) cle.

Lemma file_alveole_trouvee alv i v :
  cles_uniques alv -> alv !! i = Some v -> cleCouple v <> 0 -> file_alveole alv (cleCouple v) = vue v.
Proof.
  intros Hu Hi Hn. unfold file_alveole.
  destruct (list_find _ alv) as [[j w]|] eqn:E.
  - apply list_find_Some in E as (Hj & Hc & _). assert (j = i) as -> by (eapply Hu; eauto; congruence).
    congruence.
  - apply list_find_None in E. exfalso. by apply (proj1 (Forall_lookup _ _) E _ _ Hi).
Qed.

Lemma file_alveole_absente alv k :
  (forall j w, alv !! j = Some w -> cleCouple w <> k) -> file_alveole alv k = [].
Proof.
  intros H. unfold file_alveole. destruct (list_find _ alv) as [[j w]|] eqn:E; [|done].
  apply list_find_Some in E as (Hj & Hc & _). by destruct (H _ _ Hj).
Qed.

(** Either some way holds the key, and it is the only one, or none does. *)
Lemma file_alveole_cas alv k : k <> 0 -> cles_uniques alv ->
  (exists i v, alv !! i = Some v /\ cleCouple v = k /\ file_alveole alv k = vue v) \/
  ((forall j w, alv !! j = Some w -> cleCouple w <> k) /\ file_alveole alv k = []).
Proof.
  intros Hk Hu. destruct (list_find (fun v => cleCouple v = k) alv) as [[i v]|] eqn:E.
  - apply list_find_Some in E as (Hi & <- & _). left. exists i, v. split_and!; auto.
    by apply (file_alveole_trouvee _ i).
  - right. apply list_find_None in E.
    assert (forall j w, alv !! j = Some w -> cleCouple w <> k) as H
      by (intros j w Hj; exact (proj1 (Forall_lookup _ _) E _ _ Hj)).
    split; [done|]. by apply file_alveole_absente.
Qed.

(** Replacing a way by one that holds [k], when no other way does. *)
Lemma cles_uniques_insert alv i v k :
  cles_uniques alv -> cleCouple v = k -> (forall j w, alv !! j = Some w -> cleCouple w = k -> j = i) ->
  cles_uniques (<[i := v]> alv).
Proof.
  intros Hu Hv Hi a b x y Ha Hb Hxy Hx.
  apply list_lookup_insert_Some in Ha as [(? & ? & _)|[? Ha]];
  apply list_lookup_insert_Some in Hb as [(? & ? & _)|[? Hb]]; subst; try done.
  - by rewrite (Hi b y) by auto.
  - by rewrite (Hi a x) by auto.
  - by eapply Hu.
Qed.

Lemma file_alveole_insert alv i v k :
  cles_uniques alv -> (i < length alv)%nat -> cleCouple v = k -> k <> 0 ->
  (forall j w, alv !! j = Some w -> cleCouple w = k -> j = i) ->
  file_alveole (<[i := v]> alv) k = vue v /\
  forall k', k' <> k -> k' <> 0 ->
    file_alveole (<[i := v]> alv) k' = file_alveole alv k' \/ file_alveole (<[i := v]> alv) k' = [].
Proof.
  intros Hu Hl Hv Hk Hi. pose proof (cles_uniques_insert _ _ _ _ Hu Hv Hi) as Hu'. split.
  - rewrite <- Hv. apply (file_alveole_trouvee _ i); [done|by apply list_lookup_insert_eq|congruence].
  - intros k' Hk' Hk0. destruct (file_alveole_cas _ k' Hk0 Hu') as [(j & w & Hj & Hw & ->)|[_ ?]]; [|by right].
    left. apply list_lookup_insert_Some in Hj as [(? & ? & _)|[? Hj]]; [congruence|].
    rewrite <- Hw. symmetry. apply (file_alveole_trouvee _ j); auto. congruence.
Qed.

Section table.
Context (Vu : Z -> reponse_datee -> Prop).

Definition voie_inv (v : voieRenouvellementRData) : Prop :=
  voie_ok v /\ Forall (Vu (cleCouple v)) (vue v).
Definition alveole_inv (a : list voieRenouvellementRData) : Prop :=
  zlen a = 4 /\ Forall voie_inv a /\ cles_uniques a.
Definition tracker_inv (t : RenouvellementRDataTracker) : Prop := zlen t = 256 /\ Forall alveole_inv t.

Lemma rdata_inv_vide : tracker_inv tracker_rdata_vide.
Proof.
  split; [done|]. apply Forall_replicate. split; [done|]. split.
  - apply Forall_replicate. split; [apply voie_neuve_ok|]. rewrite vue_neuve. constructor.
  - intros i j v w Hv Hw Hc Hn. apply lookup_replicate in Hv as [-> _]. done.
Qed.

Lemma file_alveole_vu a k : alveole_inv a -> Forall (Vu k) (file_alveole a k).
Proof.
  intros (_ & Hf & _). unfold file_alveole. destruct (list_find _ a) as [[i v]|] eqn:E; [|constructor].
  apply list_find_Some in E as (Hi & <- & _). exact (proj2 (proj1 (Forall_lookup _ _) Hf _ _ Hi)).
Qed.

Lemma wp_chercher_voie_rdata a k ts :
  alveole_inv a ->
  wp (chercher_voie_rdata a k ts) (fun o => match o with
    | inr i => 0 <= i < 4 /\ exists v, a !! Z.to_nat i = Some v /\ cleCouple v = k
    | inl c => -1 <= indiceLibre c < 4 /\ 0 <= indiceVictimeLRU c < 4 /\
               forall j w, a !! j = Some w -> cleCouple w <> k
    end).
Proof.
  intros (Hz & _ & _). unfold chercher_voie_rdata. rewrite Hz.
  apply (wp_for_range (fun i c => -1 <= indiceLibre c < 4 /\ 0 <= indiceVictimeLRU c < 4 /\
    forall j w, a !! j = Some w -> Z.of_nat j < i -> cleCouple w <> k)); [lia| | |].
  - simpl. split_and!; try lia; intros; lia.
  - intros i c Hi (Hl & Hv & Hn). apply wp_bind, wp_idx; [lia|]. intros v Hvi.
    assert (cleCouple v <> k -> forall j w, a !! j = Some w -> Z.of_nat j < i + 1 -> cleCouple w <> k) as Hn'.
    { intros Hne j w Hj Hji. destruct (decide (Z.of_nat j = i)) as [E|E].
      - subst i. rewrite Nat2Z.id in Hvi. congruence.
      - apply (Hn j); [done|lia]. }
    wp_step; [wp_step; eauto|]. specialize (Hn' ltac:(done)). wp_step.
    + wp_step. destruct (indiceLibre c <? 0); simpl; split_and!; auto; lia.
    + wp_step; wp_step; simpl; split_and!; auto; lia.
  - intros c (Hl & Hv & Hn). split_and!; auto; try lia. intros j w Hj. apply (Hn j); [done|].
    apply lookup_lt_Some in Hj. unfold zlen in Hz. lia.
Qed.

Lemma wp_voie_active a k ts :
  alveole_inv a -> k <> 0 ->
  wp (voie_active a k ts) (fun '(i, v) => 0 <= i < 4 /\ voie_ok v /\ cleCouple v = k /\
    vue v = vivantes ts (file_alveole a k) /\
    forall j w, a !! j = Some w -> cleCouple w = k -> j = Z.to_nat i).
Proof.
  intros Ha Hk. unfold voie_active. apply wp_bind.
  eapply wp_mono; [by apply wp_chercher_voie_rdata|]. destruct (id Ha) as (Hz & Hf & Hu).
  intros [c|i].
  - intros (Hl & Hv & Hn). wp_step. split_and!; try apply voie_neuve_ok; try done.
    + destruct (Z.ltb_spec (indiceLibre c) 0); lia.
    + destruct (Z.ltb_spec (indiceLibre c) 0); lia.
    + by rewrite file_alveole_absente.
    + intros j w Hj Hw. by destruct (Hn j w).
  - intros (Hi & v & Hv & Hc). apply wp_bind, wp_idx; [lia|]. intros v' Hv'.
    rewrite Hv in Hv'. injection Hv' as <-.
    destruct (proj1 (Forall_lookup _ _) Hf _ _ Hv) as [Hok _].
    apply wp_bind. eapply wp_mono; [by apply wp_purger|]. intros v' (Hok' & Hc' & Hvue). wp_step.
    split_and!; auto; try lia; try congruence.
    + rewrite Hvue, <- Hc, (file_alveole_trouvee _ (Z.to_nat i)) by (auto; congruence). done.
    + intros j w Hj Hw. eapply Hu; eauto; congruence.
Qed.
End table.

(** * The wire part never panics *)

Definition espace_ok (e : list Z) : Prop := zlen e = 255 /\ bytes_ok e.

Lemma wp_hacher_nom_ou_brut p h d f esp :
  bytes_ok p -> 0 <= d <= f -> f <= zlen p -> espace_ok esp ->
  wp (hacher_nom_ou_brut p h d f esp) (fun '(_, e) => espace_ok e).
Proof.
  intros Hp Hd Hf He. unfold hacher_nom_ou_brut. apply wp_bind.
  eapply wp_mono; [apply wp_decompresser; first [done | lia]|]. intros r (Ht & _ & Hr & _ & Hfm).
  assert (espace_ok (contenu r)) as Hc.
  { unfold contenu, formes in *. injection Hfm as H1 _. by destruct (tampon_lu r). }
  destruct (id Hc) as [Hz _]. wp_step; (apply wp_bind, wp_slice; [lia..|]); by wp_step.
Qed.

Lemma wp_hacher_prefixe_nom p h n d f esp :
  bytes_ok p -> 0 <= n -> 0 <= d <= f -> f <= zlen p -> espace_ok esp ->
  wp (hacher_prefixe_nom p h n d f esp) (fun '(_, e) => espace_ok e).
Proof.
  intros Hp Hn Hd Hf He. unfold hacher_prefixe_nom. wp_step.
  - apply wp_bind, wp_slice; [lia..|]. apply wp_hacher_nom_ou_brut; auto; lia.
  - apply wp_bind, wp_slice; [lia..|]. by wp_step.
Qed.

Lemma wp_hacher_enregistrement p ty cl d f esp :
  bytes_ok p -> 0 <= d <= f -> f <= zlen p -> espace_ok esp ->
  wp (hacherEnregistrementAnswerCanonique p ty cl d f esp) (fun '(_, e) => espace_ok e).
Proof.
  intros Hp Hd Hf He. unfold hacherEnregistrementAnswerCanonique. cbv zeta. apply wp_bind.
  eapply (wp_mono _ (fun '(_, e) => espace_ok e)); [|intros [h e] H; by wp_step].
  repeat (wp_step; [by auto using wp_hacher_nom_ou_brut, wp_hacher_prefixe_nom with lia|]).
  apply wp_bind, wp_slice; [lia..|]. by wp_step.
Qed.

Definition cumul_ok (c : cumul_rr) : Prop :=
  0 <= curseur c /\ espace_ok (espaceNomRR c) /\ is_u64 (sommeCommutative c) /\ 0 <= sommeRDLength c.

Lemma wp_pas_rr p c :
  bytes_ok p -> cumul_ok c ->
  wp (pas_rr p c) (fun o => match o with inl c' => cumul_ok c' | inr _ => True end).
Proof.
  intros Hp (Hc & He & Hs & Hr). unfold pas_rr. apply wp_bind.
  eapply wp_mono; [by apply wp_nom_seul|]. intros r Hf. wp_step; [done|].
  specialize (Hf ltac:(done)).
  do 3 (apply wp_bind, wp_be16; [done|lia..|]; intros ? ?). unfold is_u16 in *.
  wp_step; [done|]. wp_step; [wp_step; split_and!; simpl; auto; lia|].
  apply wp_bind. eapply wp_mono; [apply wp_hacher_enregistrement; auto; lia|].
  intros [e esp] He'. unfold accumuler_rr.
  destruct (existsb _ _); wp_step; split_and!; simpl; auto with c2; try lia.
Qed.

Lemma wp_extraire_rrset p :
  bytes_ok p ->
  wp (extraireEmpreinteRRsetAnswer p) (fun o => match o with
    | Some (e, taille) => is_u64 e /\ e <> 0 /\ is_u16 taille | None => True end).
Proof.
  intros Hp. unfold extraireEmpreinteRRsetAnswer. wp_step; [done|].
  apply wp_bind, wp_be16; [done|lia..|]. intros dr _. wp_step; [done|].
  do 2 (apply wp_bind, wp_be16; [done|lia..|]; intros ? ?). unfold is_u16 in *.
  wp_step; [done|]. apply wp_bind.
  eapply wp_mono; [apply wp_sauter_questions; [done|lia..]|]. intros [cur|] Hcur; [|done].
  apply wp_bind. apply (wp_for_range (fun _ => cumul_ok)); [lia| | |].
  - split_and!; try done. split; [done|]. by apply bytes_ok_replicate.
  - intros j c Hj Hcu. eapply wp_mono; [by apply wp_pas_rr|]. by intros [c'|].
  - intros c (_ & _ & Hs & _). wp_step; [done|]. wp_step.
    destruct (Z.eqb_spec (sommeCommutative c) 0); split_and!; auto with c2; try done; unfold is_u64, is_u16; try lia; apply u16_range.
Qed.

(** ** The key *)

Lemma calculerCle_non_nulle ip apex q : calculerCleRenouvellementRData ip apex q <> 0.
Proof.
  unfold calculerCleRenouvellementRData. cbv zeta.
  match goal with |- (if ?b then _ else _) <> 0 => destruct b eqn:E end; zbool; [done|exact E].
Qed.

(** * One observation *)

(** What an exploitable response contributes. *)
Definition contribution (ip apex : list Z) (qtype : Z) (resp : list Z) : run (option (Z * (Z * Z))) :=
  if negb (qtypeAdmissibleRenouvellementRData qtype) then Done None else
  e ← extraireEmpreinteRRsetAnswer resp;
  Done (match e with
        | Some x => Some (calculerCleRenouvellementRData ip apex qtype, x) | None => None end).

Lemma observer_rdata_spec t ts ip apex q resp :
  observer_rdata t ts ip apex q resp =
  (o ← contribution ip apex q resp;
   match o with
   | None => Done (t, (false, obs_vide))
   | Some (k, (e, taille)) => enregistrer t k e ts taille
   end).
Proof.
  unfold observer_rdata, contribution. destruct (negb _); [done|].
  destruct (extraireEmpreinteRRsetAnswer resp) as [[[e taille]|]| |];
    rewrite ?run_bind_done, ?run_bind_panic, ?run_bind_fuel; reflexivity.
Qed.

Lemma wp_contribution ip apex q resp :
  bytes_ok resp ->
  wp (contribution ip apex q resp) (fun o => match o with
    | Some (k, (e, taille)) => k <> 0 /\ is_u16 taille | None => True end).
Proof.
  intros Hb. unfold contribution. wp_step; [done|]. apply wp_bind.
  eapply wp_mono; [by apply wp_extraire_rrset|]. intros [[e taille]|] H; wp_step; [|done].
  split; [apply calculerCle_non_nulle|apply H].
Qed.

Lemma alveole_de_lookup t k : zlen t = 256 -> t !! Z.to_nat (Z.land k 255) = Some (alveole_de t k).
Proof.
  intros Hz. pose proof (land_range k 255 8 ltac:(lia) ltac:(lia)) as Hi.
  unfold alveole_de.
  destruct (lookup_lt_is_Some_2 t (Z.to_nat (Z.land k 255))) as [a Ha]; [unfold zlen in Hz; lia|].
  rewrite Ha. f_equal. symmetry. by apply nth_lookup_Some.
Qed.

(** The update of a set seen from every key. *)
Lemma file_de_insert t k a :
  zlen t = 256 -> file_de (<[Z.to_nat (Z.land k 255) := a]> t) k = file_alveole a k /\
  forall k', file_de (<[Z.to_nat (Z.land k 255) := a]> t) k' =
    if Z.land k' 255 =? Z.land k 255 then file_alveole a k' else file_de t k'.
Proof.
  intros Hz. pose proof (land_range k 255 8 ltac:(lia) ltac:(lia)) as Hi.
  assert (forall k', file_de (<[Z.to_nat (Z.land k 255) := a]> t) k' =
    if Z.land k' 255 =? Z.land k 255 then file_alveole a k' else file_de t k') as H.
  { intros k'. pose proof (land_range k' 255 8 ltac:(lia) ltac:(lia)).
    unfold file_de, alveole_de. rewrite !nth_lookup.
    destruct (Z.eqb_spec (Z.land k' 255) (Z.land k 255)) as [E|E].
    - rewrite E, list_lookup_insert_eq by (unfold zlen in Hz; lia). done.
    - by rewrite list_lookup_insert_ne by lia. }
  split; [|done]. rewrite H. by rewrite Z.eqb_refl.
Qed.

Lemma wp_enregistrer Vu t k e ts taille :
  tracker_inv Vu t -> k <> 0 -> is_u16 taille -> Vu k (e, ts, taille) ->
  wp (enregistrer t k e ts taille) (fun '(t', r) => tracker_inv Vu t' /\
    file_de t' k = pousser (vivantes ts (file_de t k)) (e, ts, taille) /\
    (forall k', k' <> k -> k' <> 0 -> file_de t' k' = file_de t k' \/ file_de t' k' = []) /\
    r = decision (file_de t' k)).
Proof.
  intros [Hz Ht] Hk Hta Hvu. unfold enregistrer.
  pose proof (land_range k 255 8 ltac:(lia) ltac:(lia)) as Hi. change (2 ^ 8) with 256 in Hi.
  pose proof (alveole_de_lookup t k Hz) as Ha.
  rewrite (idx_lookup _ _ _ (proj1 Hi) Ha), run_bind_done.
  pose proof (proj1 (Forall_lookup _ _) Ht _ _ Ha) as Hinv. destruct (id Hinv) as (Hza & Hf & Hu).
  apply wp_bind. eapply wp_mono; [by eapply wp_voie_active|].
  intros [i v] (Hi4 & Hok & Hc & Hvue & Huniq).
  apply wp_bind. eapply wp_mono; [by apply wp_ajouter_anneau|]. intros v' (Hok' & Hc' & _ & Hvue').
  rewrite Hvue in Hvue'. rewrite Hc in Hc'.
  apply wp_bind, wp_upd; [lia|]. apply wp_bind, wp_upd; [lia|].
  apply wp_bind. eapply wp_mono; [by apply wp_decider_rdata|]. intros r ->. wp_step.
  destruct (file_alveole_insert (alveole_de t k) (Z.to_nat i) v' k Hu ltac:(unfold zlen in Hza; lia)
    Hc' Hk Huniq) as [Hfk Hfo].
  destruct (file_de_insert t k (<[Z.to_nat i := v']> (alveole_de t k)) Hz) as [Hk1 Hk2].
  rewrite Hk1, Hfk. split_and!; auto.
  - split; [by rewrite zlen_insert|].
    apply Forall_insert; [done|]. split_and!; [by rewrite zlen_insert| |by eapply cles_uniques_insert].
    apply Forall_insert; [done|]. split; [done|]. rewrite Hc', Hvue'. unfold pousser.
    pose proof (file_alveole_vu Vu _ k Hinv) as HF.
    assert (Forall (Vu k) (vivantes ts (file_alveole (alveole_de t k) k))) as HF' by 
      by (apply Forall_forall; intros x [_ Hx]%list_elem_of_filter; by apply (proj1 (Forall_forall _ _) HF)).
    apply Forall_app. split; [|by constructor]. destruct (_ <? _); [done|].
    destruct (vivantes _ _); [done|]. by inversion HF'.
  - intros k' Hk' Hk0. rewrite Hk2. destruct (Z.eqb_spec (Z.land k' 255) (Z.land k 255)) as [E|]; [|by left].
    unfold file_de. replace (alveole_de t k') with (alveole_de t k) by (unfold alveole_de; by rewrite E).
    by apply Hfo.
Qed.

Lemma rdata_inv_mono (V1 V2 : Z -> reponse_datee -> Prop) t :
  (forall k x, V1 k x -> V2 k x) -> tracker_inv V1 t -> tracker_inv V2 t.
Proof.
  intros H [Hz Ht]. split; [done|]. eapply Forall_impl; [exact Ht|]. intros a (?&Hf&?).
  split_and!; auto. eapply Forall_impl; [exact Hf|]. intros v [? Hv]. split; [done|].
  eapply Forall_impl; [exact Hv|]. auto.
Qed.

(** * Histories *)

Inductive atteint_rdata : list (Z * reponse_datee) -> RenouvellementRDataTracker -> Prop :=
  | atteint_rdata_vide : atteint_rdata [] tracker_rdata_vide
  | atteint_rdata_rien h t ts ip apex q resp t' r :
      atteint_rdata h t -> bytes_ok resp -> contribution ip apex q resp = Done None ->
      observer_rdata t ts ip apex q resp = Done (t', r) -> atteint_rdata h t'
  | atteint_rdata_obs h t ts ip apex q resp t' r k e taille :
      atteint_rdata h t -> bytes_ok resp -> contribution ip apex q resp = Done (Some (k, (e, taille))) ->
      observer_rdata t ts ip apex q resp = Done (t', r) ->
      atteint_rdata ((k, (e, ts, taille)) :: h) t'.

Definition dans (h : list (Z * reponse_datee)) (k : Z) (x : reponse_datee) : Prop := (k, x) ∈ h.

Lemma atteint_rdata_inv h t : atteint_rdata h t -> tracker_inv (dans h) t.
Proof.
  induction 1 as [|h t ts ip apex q resp t' r _ IH Hb Ho Hr
                  |h t ts ip apex q resp t' r k e taille _ IH Hb Ho Hr].
  - apply rdata_inv_vide.
  - rewrite observer_rdata_spec, Ho, run_bind_done in Hr. by injection Hr as <- _.
  - rewrite observer_rdata_spec, Ho, run_bind_done in Hr.
    destruct (wp_of_done _ _ _ Ho (wp_contribution ip apex q resp Hb)) as [Hk Hta].
    eassert (tracker_inv (dans ((k, (e, ts, taille)) :: h)) t) as IH'.
    { eapply rdata_inv_mono; [|exact IH]. unfold dans. intros. by apply elem_of_cons; right. }
    pose proof (wp_enregistrer (dans ((k, (e, ts, taille)) :: h)) t k e ts taille IH' Hk Hta) as W.
    rewrite Hr in W. destruct r. apply W. unfold dans. apply elem_of_cons. by left.
Qed.

Lemma decision_fondee q o : decision q = (true, o) -> exists w, w `suffix_of` q /\ o = mesure w /\ franchi o = true.
Proof.
  unfold decision. destruct (franchi (mesure q)) eqn:E; [intros [= <-]; by exists q|].
  destruct (_ && _) eqn:E2; intros [= <-]. apply andb_true_iff in E2 as [_ E2].
  exists (drop (length q - 8) q). split_and!; [|done..]. exists (take (length q - 8) q). by rewrite take_drop.
Qed.

Lemma pousser_vivantes ts q e taille :
  Forall (fun x => expiree ts (date_de x) = false) (pousser (vivantes ts q) (e, ts, taille)).
Proof.
  assert (Forall (fun x => expiree ts (date_de x) = false) (vivantes ts q)) as HF.
  { apply Forall_forall. intros x [Hx _]%list_elem_of_filter. done. }
  unfold pousser. apply Forall_app. split.
  - destruct (_ <? _); [done|]. destruct (vivantes _ _); [done|]. by inversion HF.
  - constructor; [|constructor]. unfold expiree, date_de; simpl. by rewrite Z.ltb_irrefl.
Qed.

Lemma pousser_dans ts q x y : y ∈ pousser (vivantes ts q) x -> y = x \/ y ∈ q.
Proof.
  unfold pousser. intros [H|H%list_elem_of_singleton]%elem_of_app; [right|by left].
  assert (y ∈ vivantes ts q) as H'.
  { destruct (_ <? _); [done|]. destruct (vivantes ts q); [done|]. apply elem_of_cons. by right. }
  by apply list_elem_of_filter in H' as [_ H'].
Qed.

(** ** The order of the records *)

Definition accumuler (L : list Z) : list Z * Z :=
  fold_left (fun '(vues, total) e => accumuler_rr vues total e) L ([], 0).

Lemma u64_add_l a b : u64 (u64 a + b) = u64 (a + b).
Proof. unfold u64. apply Z.add_mod_idemp_l. lia. Qed.

Lemma nb_distincts_mono L1 L2 : (forall x, x ∈ L1 -> x ∈ L2) -> nb_distincts L1 <= nb_distincts L2.
Proof.
  intros H. unfold nb_distincts, zlen. apply inj_le, submseteq_length, NoDup_submseteq.
  - apply NoDup_remove_dups.
  - intros x. rewrite !elem_of_remove_dups. auto.
Qed.

Lemma accumuler_spec L : nb_distincts L <= 16 ->
  exists V, accumuler L = (V, u64 (somme V)) /\ NoDup V /\ forall x, x ∈ V <-> x ∈ L.
Proof.
  induction L as [|e L IH] using rev_ind; intros Hn.
  - exists []. split_and!; [done|constructor|done].
  - destruct IH as (V & HV & Hnd & Hx).
    { etrans; [|exact Hn]. apply nb_distincts_mono. set_solver. }
    unfold accumuler in *. rewrite fold_left_app, HV. simpl. unfold accumuler_rr.
    destruct (existsb _ V) eqn:E.
    + apply existsb_eqb_elem in E. exists V. split_and!; auto. set_solver.
    + apply existsb_eqb_not_elem in E.
      assert (NoDup (V ++ [e])) as Hnd'.
      { apply NoDup_app. split_and!; [done| |apply NoDup_singleton]. set_solver. }
      assert (forall x, x ∈ V ++ [e] <-> x ∈ L ++ [e]) as Hx' by set_solver.
      pose proof (nb_distincts_alt _ _ Hnd' Hx') as Hd. rewrite zlen_app, zlen_cons in Hd.
      rewrite (proj2 (Z.ltb_lt (zlen V) 16)) by (pose proof (@zlen_nil Z); lia).
      exists (V ++ [e]). rewrite somme_app, u64_add_l. simpl. by rewrite Z.add_0_r.
Qed.

Lemma somme_permutation V W : V ≡ₚ W -> somme V = somme W.
Proof. unfold somme. induction 1; simpl in *; lia. Qed.

(** ** The spelling of the apex *)

Lemma longueur_apex_ext p p' n :
  (forall i, 0 <= i < Z.of_nat n -> (bget p i =? 46) = (bget p' i =? 46)) ->
  longueur_apex p n = longueur_apex p' n.
Proof.
  induction n as [|n IH]; intros H; [done|]. cbn [longueur_apex]. rewrite <- (H (Z.of_nat n)) by lia.
  destruct (_ =? _); [|done]. apply IH. intros i Hi. apply H. lia.
Qed.

Lemma longueur_apex_le p n : (longueur_apex p n <= n)%nat.
Proof. induction n as [|n IH]; cbn [longueur_apex]; [done|]. destruct (_ =? _); lia. Qed.

Lemma bget_app_l (l k : list Z) i : 0 <= i < zlen l -> bget (l ++ k) i = bget l i.
Proof. intros. unfold bget. apply app_nth1. unfold zlen in *. lia. Qed.

Lemma longueur_apex_points p n :
  longueur_apex (p ++ replicate n 46) (length (p ++ replicate n 46)) = longueur_apex p (length p).
Proof.
  induction n as [|n IH].
  - by rewrite app_nil_r.
  - rewrite replicate_S_end, app_assoc. set (p' := p ++ replicate n 46) in *.
    replace (length (p' ++ [46])) with (S (length p')) by (rewrite length_app; simpl; lia).
    cbn [longueur_apex]. assert (bget (p' ++ [46]) (Z.of_nat (length p')) = 46) as ->.
    { unfold bget. by rewrite Nat2Z.id, nth_middle. }
    rewrite Z.eqb_refl, <- IH. apply longueur_apex_ext. intros i Hi. by rewrite bget_app_l.
Qed.

Lemma minuscule_point c : (minuscule c =? 46) = (c =? 46).
Proof.
  unfold minuscule. destruct (_ && _) eqn:E; [|done]. zbool. rewrite u8_id by (unfold is_u8; lia).
  destruct (Z.eqb_spec (c + 32) 46), (Z.eqb_spec c 46); lia || done.
Qed.

Lemma bget_minuscule p i : 0 <= i < zlen p -> bget (minuscule <$> p) i = minuscule (bget p i).
Proof.
  intros Hi. unfold bget. rewrite !nth_lookup, list_lookup_fmap.
  destruct (lookup_lt_is_Some_2 p (Z.to_nat i)) as [x ->]; [unfold zlen in Hi; lia|done].
Qed.

Definition hacher_apex (apex : list Z) (h : Z) : Z := fold_left (fun h c => fnv_octet h (minuscule c)) apex h.

Lemma hacher_apex_minuscule l h : hacher_apex (minuscule <$> l) h = hacher_apex l h.
Proof. revert h. induction l as [|x l IH]; intros h; [done|]. cbn. rewrite minuscule_idem. apply IH. Qed.

(** * Properties *)

Definition Tout (_ : Z) (_ : reponse_datee) : Prop := True.

(** A positive TXT answer for [a] with 130 octets of RDATA, the last one [s]. *)
Definition reponse_txt (s : Z) : list Z :=
  [0; 0; 128; 0; 0; 1; 0; 1; 0; 0; 0; 0] ++ [1; 97; 0; 0; 16; 0; 1] ++
  [192; 12; 0; 16; 0; 1; 0; 0; 0; 60; 0; 130] ++ replicate 129 7 ++ [s].
Definition client_exemple : list Z := [10; 0; 0; 1] ++ replicate 12 0.
Definition apex_exemple : list Z := [97; 46; 98].

(** One more response of the example history. *)
Ltac observer_exemple s suite :=
  eapply (atteint_rdata_obs _ _ s client_exemple apex_exemple 16 (reponse_txt s));
  [suite|by apply octets_valides_ok|vm_compute; reflexivity|vm_compute; reflexivity].

Lemma exemple_rdata : exists h t t' o, atteint_rdata h t /\
  observer_rdata t 8 client_exemple apex_exemple 16 (reponse_txt 8) = Done (t', (true, o)).
Proof.
  do 4 eexists. split.
  - observer_exemple 7 ltac:(observer_exemple 6 ltac:(observer_exemple 5 ltac:(observer_exemple 4
      ltac:(observer_exemple 3 ltac:(observer_exemple 2 ltac:(observer_exemple 1
      ltac:(apply atteint_rdata_vide))))))).
  - vm_compute. reflexivity.
Qed.

(** [ObserveResponse] of the P15 tracker refines a map from couples to
    bounded queues. It never panics; a response without fingerprint changes
    nothing; otherwise the queue of the couple loses its expired responses, its
    oldest one when 16 remain, and receives the new one at the end, any other
    queue is unchanged or evicted entirely, and the result is the decision of
    the rule on the new queue (the circular buffer computes exactly the measure
    of the queue and of its last eight responses). *)
Theorem observer_rdata_raffine t ts ip apex q resp :
  tracker_inv Tout t -> bytes_ok resp ->
  wp (observer_rdata t ts ip apex q resp) (fun '(t', r) => tracker_inv Tout t' /\
    match contribution ip apex q resp with
    | Done (Some (k, (e, taille))) =>
        file_de t' k = pousser (vivantes ts (file_de t k)) (e, ts, taille) /\
        (forall k', k' <> k -> k' <> 0 -> file_de t' k' = file_de t k' \/ file_de t' k' = []) /\
        r = decision (file_de t' k)
    | _ => t' = t /\ r = (false, obs_vide)
    end).
Proof.
  intros Ht Hb. rewrite observer_rdata_spec.
  pose proof (wp_contribution ip apex q resp Hb) as W.
  destruct (contribution ip apex q resp) as [[[k [e taille]]|]| |]; [|by split|done..].
  destruct W as [Hk Hta]. rewrite run_bind_done.
  eapply wp_mono; [by apply (wp_enregistrer Tout)|]. intros [t' r] (H1 & H2 & H3 & H4). by split_and!.
Qed.

Lemma observer_rdata_raffine_witness :
  wp (observer_rdata tracker_rdata_vide 1 client_exemple apex_exemple 16 (reponse_txt 1))
    (fun '(t', r) => tracker_inv Tout t' /\
    match contribution client_exemple apex_exemple 16 (reponse_txt 1) with
    | Done (Some (k, (e, taille))) =>
        file_de t' k = pousser (vivantes 1 (file_de tracker_rdata_vide k)) (e, 1, taille) /\
        (forall k', k' <> k -> k' <> 0 -> file_de t' k' = file_de tracker_rdata_vide k' \/ file_de t' k' = []) /\
        r = decision (file_de t' k)
    | _ => t' = tracker_rdata_vide /\ r = (false, obs_vide)
    end).
Proof.
  apply (observer_rdata_raffine tracker_rdata_vide 1 client_exemple apex_exemple 16 (reponse_txt 1));
    [apply rdata_inv_vide|by apply octets_valides_ok].
Defined.

(** No unfounded P15 alarm. After any sequence of calls from the empty
    tracker, an alarm means at least eight responses really received for the
    couple of this call (this one included), none older than the window, at
    least 750 permille of them with distinct RRset fingerprints and at least 128
    octets of RDATA on average. *)
Theorem alarme_rdata_fondee h t ts ip apex q resp t' o :
  atteint_rdata h t -> bytes_ok resp -> observer_rdata t ts ip apex q resp = Done (t', (true, o)) ->
  exists k e taille (w : list reponse_datee),
    contribution ip apex q resp = Done (Some (k, (e, taille))) /\
    (forall x, x ∈ w -> (k, x) ∈ (k, (e, ts, taille)) :: h /\ expiree ts (date_de x) = false) /\
    8 <= zlen w /\ 750 * zlen w <= 1000 * nb_distincts (empreinte_de <$> w) /\
    128 * zlen w <= somme (taille_de <$> w).
Proof.
  intros Hat Hb. rewrite observer_rdata_spec. pose proof (wp_contribution ip apex q resp Hb) as W.
  destruct (contribution ip apex q resp) as [[[k [e taille]]|]| |]; try done.
  destruct W as [Hk Hta]. rewrite run_bind_done. intros Ho.
  set (h' := (k, (e, ts, taille)) :: h).
  assert (tracker_inv (dans h') t) as Ht.
  { eapply rdata_inv_mono; [|by apply atteint_rdata_inv]. intros k0 x Hx. apply elem_of_cons. by right. }
  pose proof (wp_enregistrer (dans h') t k e ts taille Ht Hk Hta) as W.
  rewrite Ho in W. destruct W as (_ & Hf & _ & Hr); [apply elem_of_cons; by left|].
  symmetry in Hr. apply decision_fondee in Hr as (w & Hs & -> & Hfr).
  exists k, e, taille, w. split; [done|]. rewrite Hf in Hs.
  assert (forall x, x ∈ w -> x ∈ pousser (vivantes ts (file_de t k)) (e, ts, taille)) as Hin.
  { intros x Hx. destruct Hs as [u ->]. apply elem_of_app. by right. }
  unfold franchi, mesure, seuilPermilleRenouvellementRData, seuilMoyenneRDLengthRenouvellement in Hfr.
  pose proof (zlen_nonneg w). destruct (Z.eqb_spec (zlen w) 0) as [E|E]; [done|]. simpl in Hfr. zbool.
  split; [|split_and!; [done| |]].
  - intros x Hx. specialize (Hin x Hx). split.
    + apply pousser_dans in Hin as [-> |Hin]; apply elem_of_cons; [by left|right].
      pose proof (atteint_rdata_inv h t Hat) as [Hz Hall].
      pose proof (proj1 (Forall_lookup _ _) Hall _ _ (alveole_de_lookup t k Hz)) as Ha.
      exact (proj1 (Forall_forall _ _) (file_alveole_vu _ _ _ Ha) _ Hin).
    + exact (proj1 (Forall_forall _ _) (pousser_vivantes ts (file_de t k) e taille) _ Hin).
  - pose proof (Z.mul_div_le (nb_distincts (empreinte_de <$> w) * 1000) (zlen w) ltac:(lia)). nia.
  - pose proof (Z.mul_div_le (somme (taille_de <$> w)) (zlen w) ltac:(lia)).
    assert (128 <= somme (taille_de <$> w) / zlen w) by (etrans; [eassumption|apply Z.le_min_l]). nia.
Qed.

Lemma alarme_rdata_fondee_witness : exists (k e taille : Z) (w : list reponse_datee),
  contribution client_exemple apex_exemple 16 (reponse_txt 8) = Done (Some (k, (e, taille))) /\
  8 <= zlen w /\ 750 * zlen w <= 1000 * nb_distincts (empreinte_de <$> w).
Proof.
  destruct exemple_rdata as (h & t & t' & o & Hat & Ho).
  destruct (alarme_rdata_fondee h t 8 client_exemple apex_exemple 16 (reponse_txt 8) t' o Hat
    (octets_valides_ok (reponse_txt 8) eq_refl) Ho) as (k & e & taille & w & H1 & _ & H2 & H3 & _).
  exists k, e, taille, w. exact (conj H1 (conj H2 H3)).
Defined.

(** The RRset fingerprint does not depend on the order or the repetition of
    the records: two answers whose records have the same set of fingerprints,
    of at most sixteen elements (the capacity of the per-packet table), get the
    same commutative sum. *)
Theorem accumuler_ordre L1 L2 :
  nb_distincts L1 <= 16 -> (forall x, x ∈ L1 <-> x ∈ L2) -> snd (accumuler L1) = snd (accumuler L2).
Proof.
  intros Hn Hx. assert (nb_distincts L2 <= 16) as Hn2.
  { etrans; [|exact Hn]. apply nb_distincts_mono. naive_solver. }
  destruct (accumuler_spec L1 Hn) as (V1 & -> & Hd1 & H1).
  destruct (accumuler_spec L2 Hn2) as (V2 & -> & Hd2 & H2). simpl. f_equal.
  apply somme_permutation, NoDup_Permutation; [done..|]. naive_solver.
Qed.

Lemma accumuler_ordre_witness : snd (accumuler [5; 7; 5]) = snd (accumuler [7; 5]).
Proof.
  apply (accumuler_ordre [5; 7; 5] [7; 5]); [by vm_compute|].
  intros x. rewrite !elem_of_cons, elem_of_nil. tauto.
Defined.

(** The key of a couple ignores the letter case and the trailing dots of the
    apex, and the IPv4-mapped form of an IPv4 client. *)
Lemma calculerCle_insensible a b c d apex n q :
  calculerCleRenouvellementRData (replicate 10 0 ++ [255; 255; a; b; c; d])
    ((minuscule <$> apex) ++ replicate n 46) q
  = calculerCleRenouvellementRData ([a; b; c; d] ++ replicate 12 0) apex q.
Proof.
  unfold calculerCleRenouvellementRData. cbv zeta.
  rewrite longueur_apex_points, length_fmap.
  rewrite (longueur_apex_ext (minuscule <$> apex) apex).
  2: { intros i Hi. rewrite bget_minuscule by (unfold zlen; lia). apply minuscule_point. }
  rewrite take_app_le by (rewrite length_fmap; apply longueur_apex_le). rewrite <- fmap_take.
  assert (forall l h, fold_left (fun h c => fnv_octet h (minuscule c)) l h = hacher_apex l h) as Hh by done.
  rewrite !Hh, hacher_apex_minuscule.
  assert (normaliserCleClientRData (replicate 10 0 ++ [255; 255; a; b; c; d])
    = normaliserCleClientRData ([a; b; c; d] ++ replicate 12 0)) as -> by done.
  done.
Qed.
