(* ===== verification/IcmpEcho.v ===== *)
(** [ICMPEchoParityTracker] (src/internal/engine/icmp_echo.go): rules IC01 (a
    reply that does not echo its request) and IC02 (a reply nobody asked for).
    The theorems: no frame panics, the exact verdict on a reply that follows its
    request, and every alarm is backed by a request really observed within the
    minute. *)
From S2P Require Import Prelude Fnv Creneaux.

Definition ReasonIC01ICMPEchoAsymmetry : string := "REASON_IC01_ICMP_ECHO_ASYMMETRY".
Definition ReasonIC02ICMPEchoUnsolicited : string := "REASON_IC02_ICMP_ECHO_UNSOLICITED".

Record creneauEchoICMP := CreneauEcho {
  cle : Z;
  empreinte : Z;
  horodatage : Z;
  occupe : bool
}.
Record creneauIdentifiantEchoICMP := CreneauId {
  cleId : Z;
  horodatageId : Z;
  occupeId : bool
}.
Record ICMPEchoParityTracker := Tracker {
  alveoles : list (list creneauEchoICMP);
  identifiantsRequete : list (list creneauIdentifiantEchoICMP)
}.
Definition tracker_icmp_vide : ICMPEchoParityTracker :=
  Tracker (replicate 1024 (replicate 4 (CreneauEcho 0 0 0 false)))
          (replicate 256 (replicate 4 (CreneauId 0 0 false))).

(** ** Wire part *)

(** What an echo frame says: request or reply, keys, payload fingerprint. *)
Record echo := Echo { requete : bool; cle_echo : Z; cleIdentifiant : Z; empreinte_echo : Z }.

Definition lire_icmp (frame : list Z) : run (option echo) :=
  if zlen frame <? 20 then Done None else
  o0 ← idx frame 0;
  if negb (Z.shiftr o0 4 =? 4) then Done None else
  o9 ← idx frame 9;
  if negb (o9 =? 1) then Done None else
  let entete := Z.land o0 15 * 4 in
  o2 ← idx frame 2; o3 ← idx frame 3;
  let longueur := Z.lor (Z.shiftl o2 8) o3 in
  if (entete <? 20) || (zlen frame <? entete) || (zlen frame <? longueur) || (longueur <? entete + 8)
  then Done None else
  icmp ← slice frame entete longueur;
  ty ← idx icmp 0; code ← idx icmp 1;
  if (negb (ty =? 0) && negb (ty =? 8)) || negb (code =? 0) then Done None else
  let '(debut, fin) := if ty =? 0 then (16, 12) else (12, 16) in
  a ← slice frame debut (debut + 4);
  b ← slice frame fin (fin + 4);
  id ← slice icmp 4 6;
  sequence ← slice icmp 6 8;
  charge ← slice icmp 8 (zlen icmp);
  let cleIdentifiant := hacherOctetsFNV64a (hacherOctetsFNV64a (hacherOctetsFNV64a fnvOffset64 a) b) id in
  Done (Some (Echo (ty =? 8) (hacherOctetsFNV64a cleIdentifiant sequence) cleIdentifiant
                (hacherOctetsFNV64a fnvOffset64 charge))).

(** ** Tables *)

(** The choice of the slot to write, shared by the two tables: the slot of the
    key, else a free one, else the oldest. *)
Definition choisir {A} (occ : A -> bool) (cl hor : A -> Z) (voies : list A) (k : Z) : run Z :=
  o ← for_range (zlen voies) 0 (fun indice choix =>
        v ← idx voies indice;
        if occ v && (cl v =? k) then Done (inr indice) else
        c ← idx voies choix;
        if negb (occ v) || (occ c && (hor v <? hor c)) then Done (inl indice) else Done (inl choix));
  Done (match o with inl c | inr c => c end).

Definition observer_requete (t : ICMPEchoParityTracker) (tsNs : Z) (e : echo) : run ICMPEchoParityTracker :=
  voies ← idx (alveoles t) (Z.land (cle_echo e) 1023);
  choix ← choisir occupe cle horodatage voies (cle_echo e);
  voies ← upd voies choix (CreneauEcho (cle_echo e) (empreinte_echo e) tsNs true);
  A ← upd (alveoles t) (Z.land (cle_echo e) 1023) voies;
  voiesIdentifiant ← idx (identifiantsRequete t) (Z.land (cleIdentifiant e) 255);
  choix ← choisir occupeId cleId horodatageId voiesIdentifiant (cleIdentifiant e);
  voiesIdentifiant ← upd voiesIdentifiant choix (CreneauId (cleIdentifiant e) tsNs true);
  I ← upd (identifiantsRequete t) (Z.land (cleIdentifiant e) 255) voiesIdentifiant;
  Done (Tracker A I).

Definition est_cle (k : Z) (v : creneauEchoICMP) : bool := occupe v && (cle v =? k).
Definition est_recent (k tsNs : Z) (v : creneauIdentifiantEchoICMP) : bool :=
  occupeId v && (cleId v =? k) && (horodatageId v <=? tsNs) &&
  (i64 (tsNs - horodatageId v) <? 60000000000).

Definition observer_reponse (t : ICMPEchoParityTracker) (tsNs : Z) (e : echo) : run (bool * string) :=
  voies ← idx (alveoles t) (Z.land (cle_echo e) 1023);
  match find (est_cle (cle_echo e)) voies with
  | Some entree =>
      if (tsNs <? horodatage entree) || (60000000000 <? i64 (tsNs - horodatage entree))
      then Done (false, ReasonNone)
      else if negb (empreinte entree =? empreinte_echo e) then Done (true, ReasonIC01ICMPEchoAsymmetry)
      else Done (false, ReasonNone)
  | None =>
      voiesIdentifiant ← idx (identifiantsRequete t) (Z.land (cleIdentifiant e) 255);
      if existsb (est_recent (cleIdentifiant e) tsNs) voiesIdentifiant
      then Done (true, ReasonIC02ICMPEchoUnsolicited) else Done (false, ReasonNone)
  end.

(** [ObserveIPv4] *)
Definition observer_icmp (t : ICMPEchoParityTracker) (tsNs : Z) (frame : list Z)
  : run (ICMPEchoParityTracker * (bool * string)) :=
  e ← lire_icmp frame;
  match e with
  | None => Done (t, (false, ReasonNone))
  | Some e =>
      if requete e then t ← observer_requete t tsNs e; Done (t, (false, ReasonNone))
      else r ← observer_reponse t tsNs e; Done (t, r)
  end.

(** * Wire safety *)

Lemma wp_lire_icmp frame : bytes_ok frame -> wp (lire_icmp frame) (fun _ => True).
Proof.
  intros Hb. unfold lire_icmp. wp_step; [done|].
  apply wp_bind, wp_idx_byte; [done|lia|]. intros o0 _ Ho0. wp_step; [done|].
  apply wp_bind, wp_idx_byte; [done|lia|]. intros o9 _ _. wp_step; [done|]. cbv zeta.
  do 2 (apply wp_bind, wp_idx_byte; [done|lia|]; intros ? _ ?). wp_step; [done|].
  set (entete := Z.land o0 15 * 4) in *. set (longueur := Z.lor (Z.shiftl x 8) x0) in *.
  apply wp_bind, wp_slice; [lia..|]. set (icmp := take _ _).
  assert (zlen icmp = longueur - entete) as Hz by (apply zlen_slice; lia).
  apply wp_bind, wp_idx; [lia|]. intros ty _. apply wp_bind, wp_idx; [lia|]. intros code _.
  wp_step; [done|]. destruct (ty =? 0); (do 5 (apply wp_bind, wp_slice; [lia..|])); by wp_step.
Qed.

(** * Table part *)

Lemma wp_choisir {A} (occ : A -> bool) (cl hor : A -> Z) voies k :
  zlen voies = 4 ->
  wp (choisir occ cl hor voies k) (fun c => 0 <= c < 4 /\
    forall j w, voies !! j = Some w -> occ w && (cl w =? k) = true -> (Z.to_nat c <= j)%nat).
Proof.
  intros Hz. unfold choisir. rewrite Hz. apply wp_bind.
  apply (wp_for_range (fun i c => 0 <= c < 4 /\ forall j w, voies !! j = Some w -> Z.of_nat j < i ->
    occ w && (cl w =? k) = false)).
  - lia.
  - split; [lia|]. intros; lia.
  - intros i c Hi [Hc Hn]. apply wp_bind, wp_idx; [lia|]. intros v Hv.
    destruct (occ v && (cl v =? k)) eqn:E.
    + wp_step. wp_step. split; [lia|]. intros j w Hj Hm.
      destruct (Nat.lt_ge_cases j (Z.to_nat i)); [|lia]. rewrite (Hn j w) in Hm by (done || lia). done.
    + assert (forall j w, voies !! j = Some w -> Z.of_nat j < i + 1 -> occ w && (cl w =? k) = false) as Hn'.
      { intros j w Hj Hji. destruct (decide (Z.of_nat j = i)) as [<-|]; [|apply (Hn j); [done|lia]].
        rewrite Nat2Z.id in Hv. congruence. }
      apply wp_bind, wp_idx; [lia|]. intros w Hw.
      destruct (_ || _); wp_step; (split; [lia|exact Hn']).
  - intros c [Hc Hn]. wp_step. split; [lia|]. intros j w Hj Hm. exfalso.
    rewrite (Hn j w) in Hm; [done|done|]. apply lookup_lt_Some in Hj. unfold zlen in Hz. lia.
Qed.

Lemma find_insert {A} (p : A -> bool) (l : list A) c v :
  (c < length l)%nat -> p v = true -> (forall j w, l !! j = Some w -> p w = true -> (c <= j)%nat) ->
  find p (<[c := v]> l) = Some v.
Proof.
  revert c. induction l as [|x l IH]; intros [|c] Hl Hv Hn; simpl in *; try lia.
  - by rewrite Hv.
  - destruct (p x) eqn:E; [specialize (Hn 0%nat x eq_refl E); lia|].
    apply IH; [lia|done|]. intros j w Hj Hw. specialize (Hn (S j) w Hj Hw). lia.
Qed.

Section invariant.
(** [Req k ki e ts]: a request with these keys and fingerprint was observed at [ts]. *)
Context (Req : Z -> Z -> Z -> Z -> Prop).

Definition creneau_ok (v : creneauEchoICMP) : Prop :=
  occupe v = true -> exists ki, Req (cle v) ki (empreinte v) (horodatage v).
Definition creneau_id_ok (v : creneauIdentifiantEchoICMP) : Prop :=
  occupeId v = true -> exists k e, Req k (cleId v) e (horodatageId v).
Definition tracker_inv (t : ICMPEchoParityTracker) : Prop :=
  (zlen (alveoles t) = 1024 /\ Forall (fun a => zlen a = 4 /\ Forall creneau_ok a) (alveoles t)) /\
  (zlen (identifiantsRequete t) = 256 /\
   Forall (fun a => zlen a = 4 /\ Forall creneau_id_ok a) (identifiantsRequete t)).

Lemma icmp_inv_vide : tracker_inv tracker_icmp_vide.
Proof. split; (split; [done|]; apply Forall_replicate; split; [done|]; by apply Forall_replicate). Qed.

Lemma wp_observer_requete t ts e :
  tracker_inv t -> Req (cle_echo e) (cleIdentifiant e) (empreinte_echo e) ts ->
  wp (observer_requete t ts e) (fun t' => tracker_inv t' /\
    exists a, alveoles t' !! Z.to_nat (Z.land (cle_echo e) 1023) = Some a /\
      find (est_cle (cle_echo e)) a = Some (CreneauEcho (cle_echo e) (empreinte_echo e) ts true)).
Proof.
  intros [[Hz1 H1] [Hz2 H2]] Hr. unfold observer_requete.
  pose proof (land_range (cle_echo e) 1023 10 ltac:(lia) ltac:(lia)) as Hi. change (2 ^ 10) with 1024 in Hi.
  pose proof (land_range (cleIdentifiant e) 255 8 ltac:(lia) ltac:(lia)) as Hj. change (2 ^ 8) with 256 in Hj.
  apply wp_bind, wp_idx; [lia|]. intros a Ha.
  destruct (proj1 (Forall_lookup _ _) H1 _ _ Ha) as [Hza Hfa].
  apply wp_bind. eapply wp_mono; [by apply wp_choisir|]. intros c [Hc Hn].
  apply wp_bind, wp_upd; [lia|]. apply wp_bind, wp_upd; [lia|].
  apply wp_bind, wp_idx; [lia|]. intros b Hb.
  destruct (proj1 (Forall_lookup _ _) H2 _ _ Hb) as [Hzb Hfb].
  apply wp_bind. eapply wp_mono; [by apply wp_choisir|]. intros d [Hd _].
  apply wp_bind, wp_upd; [lia|]. apply wp_bind, wp_upd; [lia|]. wp_step. split.
  - split; simpl; (split; [by rewrite zlen_insert|]); (apply Forall_insert; [done|]);
      (split; [by rewrite zlen_insert|]); (apply Forall_insert; [done|]).
    + intros _. by exists (cleIdentifiant e).
    + intros _. by exists (cle_echo e), (empreinte_echo e).
  - exists (<[Z.to_nat c := CreneauEcho (cle_echo e) (empreinte_echo e) ts true]> a). simpl. split.
    + apply list_lookup_insert_eq. unfold zlen in Hz1. lia.
    + apply find_insert; [unfold zlen in Hza; lia| |exact Hn]. unfold est_cle; simpl. by rewrite Z.eqb_refl.
Qed.

(** The verdict on a reply, and what it says of the past. *)
Definition verdict_fonde (ts : Z) (e : echo) (r : bool * string) : Prop :=
  r = (false, ReasonNone) \/
  (r = (true, ReasonIC01ICMPEchoAsymmetry) /\ exists ki f d, Req (cle_echo e) ki f d /\
     f <> empreinte_echo e /\ d <= ts /\ i64 (ts - d) <= 60000000000) \/
  (r = (true, ReasonIC02ICMPEchoUnsolicited) /\ exists k f d, Req k (cleIdentifiant e) f d /\
     d <= ts /\ i64 (ts - d) < 60000000000).

Lemma wp_observer_reponse t ts e :
  tracker_inv t -> wp (observer_reponse t ts e) (verdict_fonde ts e).
Proof.
  intros [[Hz1 H1] [Hz2 H2]]. unfold observer_reponse, verdict_fonde.
  pose proof (land_range (cle_echo e) 1023 10 ltac:(lia) ltac:(lia)) as Hi. change (2 ^ 10) with 1024 in Hi.
  pose proof (land_range (cleIdentifiant e) 255 8 ltac:(lia) ltac:(lia)) as Hj. change (2 ^ 8) with 256 in Hj.
  apply wp_bind, wp_idx; [lia|]. intros a Ha.
  destruct (proj1 (Forall_lookup _ _) H1 _ _ Ha) as [Hza Hfa].
  destruct (find _ a) as [v|] eqn:Ef.
  - apply find_some in Ef as [Hin Hv]. apply list_elem_of_In in Hin. unfold est_cle in Hv. zbool.
    destruct (proj1 (Forall_forall _ _) Hfa v Hin) as [ki Hki]; [done|].
    wp_step; [wp_step; by left|]. wp_step; wp_step; [|by left].
    right; left. split; [done|]. exists ki, (empreinte v), (horodatage v).
    replace (cle_echo e) with (cle v). split_and!; auto; lia.
  - apply wp_bind, wp_idx; [lia|]. intros b Hb.
    destruct (proj1 (Forall_lookup _ _) H2 _ _ Hb) as [Hzb Hfb].
    wp_step; wp_step; [|by left]. apply existsb_exists in Hc as (v & Hin & Hv).
    apply list_elem_of_In in Hin. unfold est_recent in Hv. zbool.
    destruct (proj1 (Forall_forall _ _) Hfb v Hin) as (k & f & Hk); [done|].
    right; right. split; [done|]. exists k, f, (horodatageId v).
    replace (cleIdentifiant e) with (cleId v). split_and!; auto; lia.
Qed.
End invariant.

Lemma icmp_inv_mono (R1 R2 : Z -> Z -> Z -> Z -> Prop) t :
  (forall a b c d, R1 a b c d -> R2 a b c d) -> tracker_inv R1 t -> tracker_inv R2 t.
Proof.
  intros H [[? H1] [? H2]]. split; (split; [done|]).
  - eapply Forall_impl; [exact H1|]. intros a [? Ha]. split; [done|]. eapply Forall_impl; [exact Ha|].
    intros v Hv Ho. destruct (Hv Ho) as [ki ?]. eauto.
  - eapply Forall_impl; [exact H2|]. intros a [? Ha]. split; [done|]. eapply Forall_impl; [exact Ha|].
    intros v Hv Ho. destruct (Hv Ho) as (k & f & ?). eauto.
Qed.

(** * Histories *)

Inductive atteint_icmp : list (list Z * Z) -> ICMPEchoParityTracker -> Prop :=
  | atteint_icmp_vide : atteint_icmp [] tracker_icmp_vide
  | atteint_icmp_trame h t ts frame t' r :
      atteint_icmp h t -> bytes_ok frame -> observer_icmp t ts frame = Done (t', r) ->
      atteint_icmp ((frame, ts) :: h) t'.

(** A request of the history. *)
Definition demande (h : list (list Z * Z)) (k ki f d : Z) : Prop :=
  exists frame, (frame, d) ∈ h /\ lire_icmp frame = Done (Some (Echo true k ki f)).

Lemma wp_observer_icmp Req t ts frame :
  bytes_ok frame -> tracker_inv Req t ->
  (forall k ki f, lire_icmp frame = Done (Some (Echo true k ki f)) -> Req k ki f ts) ->
  wp (observer_icmp t ts frame) (fun '(t', r) => tracker_inv Req t' /\
    match lire_icmp frame with
    | Done (Some e) => if requete e then r = (false, ReasonNone) else t' = t /\ verdict_fonde Req ts e r
    | _ => t' = t /\ r = (false, ReasonNone)
    end).
Proof.
  intros Hb Ht Hr. unfold observer_icmp. pose proof (wp_lire_icmp frame Hb) as W.
  destruct (lire_icmp frame) as [[e|]| |]; [|by split|done..]. rewrite run_bind_done.
  destruct e as [[] k ki f]; simpl.
  - apply wp_bind. eapply wp_mono; [by apply (wp_observer_requete Req); auto|]. intros t' [Ht' _]. by wp_step.
  - apply wp_bind. eapply wp_mono; [by apply (wp_observer_reponse Req)|]. intros r Hv. by wp_step.
Qed.

Lemma atteint_icmp_inv h t : atteint_icmp h t -> tracker_inv (demande h) t.
Proof.
  induction 1 as [|h t ts frame t' r _ IH Hb Hr]; [apply icmp_inv_vide|].
  pose proof (wp_observer_icmp (demande ((frame, ts) :: h)) t ts frame Hb) as W. rewrite Hr in W.
  destruct W as [W _]; [| |done].
  - eapply icmp_inv_mono; [|exact IH]. intros a b c d (fr & Hin & Hl). exists fr. set_solver.
  - intros k ki f Hl. exists frame. set_solver.
Qed.

(** * Properties *)

(** No unfounded ICMP alarm. [ObserveIPv4] never panics, and after any
    sequence of frames from the empty tracker it is silent on everything but a
    reply; IC01 means that a request with the keys of the reply and another
    payload was observed at most sixty seconds before, IC02 that a request with
    its addresses and identifier was observed strictly less than sixty seconds
    before. *)
Theorem observer_icmp_fonde h t ts frame :
  atteint_icmp h t -> bytes_ok frame ->
  wp (observer_icmp t ts frame) (fun '(t', r) => tracker_inv (fun _ _ _ _ => True) t' /\
    match lire_icmp frame with
    | Done (Some e) => if requete e then r = (false, ReasonNone)
                       else t' = t /\ verdict_fonde (demande h) ts e r
    | _ => t' = t /\ r = (false, ReasonNone)
    end).
Proof.
  intros Hat Hb.
  assert (tracker_inv (demande ((frame, ts) :: h)) t) as Ht'.
  { eapply icmp_inv_mono; [|by apply atteint_icmp_inv]. intros a b c d (fr & Hin & Hl). exists fr. set_solver. }
  pose proof (wp_observer_icmp (demande ((frame, ts) :: h)) t ts frame Hb Ht') as W.
  pose proof (wp_lire_icmp frame Hb) as Wl. unfold observer_icmp in *.
  destruct (lire_icmp frame) as [[e|]| |] eqn:El; try done; rewrite run_bind_done in *.
  - destruct e as [[] k ki f]; simpl in *.
    + eapply wp_mono; [apply W; intros; exists frame; split; [set_solver|congruence]|].
      intros [t' r] [Hi ->]. split; [|done]. by eapply icmp_inv_mono; [|exact Hi].
    + apply wp_bind. eapply wp_mono; [by apply (wp_observer_reponse (demande h)), atteint_icmp_inv|].
      intros r Hv. wp_step. split; [|done]. by eapply icmp_inv_mono; [|exact Ht'].
  - wp_step. split; [|done]. by eapply icmp_inv_mono; [|exact Ht'].
Qed.

(** An echo frame 10.0.0.1 <-> 10.0.0.2, identifier 0x0001, sequence 0x0002. *)
Definition trame_echo (ty charge : Z) : list Z :=
  [69; 0; 0; 30; 0; 0; 0; 0; 64; 1; 0; 0] ++
  (if ty =? 8 then [10; 0; 0; 1; 10; 0; 0; 2] else [10; 0; 0; 2; 10; 0; 0; 1]) ++
  [ty; 0; 0; 0; 0; 1; 0; 2; charge; 9].

Definition tracker_apres_requete : ICMPEchoParityTracker :=
  match observer_icmp tracker_icmp_vide 5 (trame_echo 8 1) with Done (t, _) => t | _ => tracker_icmp_vide end.

Lemma observer_icmp_fonde_witness :
  wp (observer_icmp tracker_apres_requete 7 (trame_echo 0 2)) (fun '(t', r) =>
    tracker_inv (fun _ _ _ _ => True) t' /\
    match lire_icmp (trame_echo 0 2) with
    | Done (Some e) => if requete e then r = (false, ReasonNone)
        else t' = tracker_apres_requete /\ verdict_fonde (demande [(trame_echo 8 1, 5)]) 7 e r
    | _ => t' = tracker_apres_requete /\ r = (false, ReasonNone)
    end).
Proof.
  apply (observer_icmp_fonde [(trame_echo 8 1, 5)] tracker_apres_requete 7 (trame_echo 0 2)).
  - eapply (atteint_icmp_trame [] tracker_icmp_vide 5 (trame_echo 8 1));
      [apply atteint_icmp_vide|by apply octets_valides_ok|vm_compute; reflexivity].
  - by apply octets_valides_ok.
Defined.

(** The exact verdict on the reply that follows its request: whatever the
    tracker held, once a request has been observed at [d], a reply with the same
    addresses, identifier and sequence is IC01 if and only if its payload
    fingerprint differs and it arrives at [d] or within the following sixty
    seconds (in 64-bit arithmetic); a faithful echo never fires, nor does IC02. *)
Theorem reponse_apres_requete t d frame1 k ki f t1 r1 ts frame2 ki2 f2 :
  tracker_inv (fun _ _ _ _ => True) t ->
  bytes_ok frame1 -> lire_icmp frame1 = Done (Some (Echo true k ki f)) ->
  observer_icmp t d frame1 = Done (t1, r1) ->
  bytes_ok frame2 -> lire_icmp frame2 = Done (Some (Echo false k ki2 f2)) ->
  observer_icmp t1 ts frame2 = Done (t1,
    if (d <=? ts) && (i64 (ts - d) <=? 60000000000) && negb (f =? f2)
    then (true, ReasonIC01ICMPEchoAsymmetry) else (false, ReasonNone)).
Proof.
  intros Ht Hb1 H1 Ho Hb2 H2. unfold observer_icmp in *. rewrite H1, run_bind_done in Ho.
  rewrite H2, run_bind_done. cbn [requete] in *.
  pose proof (wp_observer_requete (fun _ _ _ _ => True) t d (Echo true k ki f) Ht I) as W.
  destruct (observer_requete t d (Echo true k ki f)) as [t2| |]; [|done..].
  injection Ho as -> _. destruct W as (_ & a & Ha & Hf). unfold observer_reponse. cbn [cle_echo empreinte_echo] in *.
  pose proof (land_range k 1023 10 ltac:(lia) ltac:(lia)) as Hi.
  rewrite (idx_lookup _ _ _ (proj1 Hi) Ha), run_bind_done, Hf. simpl.
  destruct (Z.ltb_spec ts d), (Z.leb_spec d ts), (Z.ltb_spec 60000000000 (i64 (ts - d))),
    (Z.leb_spec (i64 (ts - d)) 60000000000); try lia; try done. by destruct (f =? f2).
Qed.

Lemma reponse_apres_requete_witness :
  observer_icmp tracker_apres_requete 7 (trame_echo 0 2)
  = Done (tracker_apres_requete, (true, ReasonIC01ICMPEchoAsymmetry)).
Proof.
  etrans; [eapply (reponse_apres_requete tracker_icmp_vide 5 (trame_echo 8 1) _ _ _
    tracker_apres_requete (false, ReasonNone) 7 (trame_echo 0 2)); first
    [apply icmp_inv_vide | by apply octets_valides_ok | vm_compute; reflexivity]|].
  reflexivity.
Defined.
