(* ===== verification/Channel.v ===== *)
(** The probe channels: [Probe_event_t], [Probe_channel_t]
    (src/internal/engine/types_gen.go) and the lock-free ring of 1024 events of
    src/internal/engine/ring_buffer_gen.go.  Sequentially the operations refine
    a bounded queue; [Module Spsc] interleaves the atomic accesses of one
    producer and one consumer, with slot copies that may be torn, and shows that
    the consumer still reads exactly a prefix of what was written. *)
From S2P Require Import Prelude.

Record Probe_event_t := Event {
  Ts_ns : Z;
  Pid : Z;
  Tid : Z;
  Subsystem : Z;
  Action : Z;
  Flags : Z;
  Src : Z;
  Payload : list Z
}.
Definition event_zero : Probe_event_t := Event 0 0 0 0 0 0 0 (replicate 96 0).

(** The padding fields are never read or written. *)
Record Probe_channel_t := Channel {
  Slots : list Probe_event_t;
  Head : Z;
  Drops : Z;
  Tail : Z
}.

(** [nil] pointers are [None]; a call returns the new channel and its result. *)
Definition C2bt_channel_init (ch : option Probe_channel_t) : option Probe_channel_t :=
  match ch with
  | None => None
  | Some ch => Some (Channel (replicate (length (Slots ch)) event_zero) 0 0 0)
  end.

Definition C2bt_channel_write (ch : option Probe_channel_t) (ev : option Probe_event_t)
  : run (option Probe_channel_t * Z) :=
  match ch, ev with
  | Some c, Some ev =>
      let head := Head c in
      if 0x400 <=? u64 (head - Tail c) then
        Done (Some (Channel (Slots c) head (u64 (Drops c + 1)) (Tail c)), -2)
      else
        S ← upd (Slots c) (Z.land head 0x3ff) ev;
        Done (Some (Channel S (u64 (head + 1)) (Drops c) (Tail c)), 0)
  | _, _ => Done (ch, -1)
  end.

Definition C2bt_channel_read (ch : option Probe_channel_t) (ev : option Probe_event_t)
  : run (option Probe_channel_t * option Probe_event_t * Z) :=
  match ch, ev with
  | Some c, Some _ =>
      let tail := Tail c in
      if Head c <=? tail then Done (ch, ev, 0) else
      e ← idx (Slots c) (Z.land tail 0x3ff);
      Done (Some (Channel (Slots c) (Head c) (Drops c) (u64 (tail + 1))), Some e, 1)
  | _, _ => Done (ch, ev, -1)
  end.

(** A [nil] slice is [None]. *)
Definition C2bt_channel_read_batch (ch : option Probe_channel_t) (out_events : option (list Probe_event_t))
    (max_events : Z) : run (option Probe_channel_t * option (list Probe_event_t) * Z) :=
  let lg := match out_events with Some o => zlen o | None => 0 end in
  let max_events := if lg <? max_events then lg else max_events in
  match ch, out_events with
  | Some c, Some out =>
      if max_events <=? 0 then Done (ch, out_events, 0) else
      let tail := Tail c in
      let n := u64 (Head c - tail) in
      if n =? 0 then Done (ch, out_events, 0) else
      let n := i64 n in
      let n := if max_events <? n then max_events else n in
      _ ← slice out 0 n;
      o ← for_range n out (fun k out =>
            e ← idx (Slots c) (Z.land (u64 (tail + k)) 0x3ff);
            out ← upd out k e;
            Done (inl (B := list Probe_event_t) out));
      let out := match o with inl s | inr s => s end in
      Done (Some (Channel (Slots c) (Head c) (Drops c) (u64 (tail + n))), Some out, n)
  | _, _ => Done (ch, out_events, 0)
  end.

Definition C2bt_channel_get_drops (ch : option Probe_channel_t) : Z :=
  match ch with None => 0 | Some c => Drops c end.

(** * Sequential refinement of a bounded queue *)

Lemma land1023 a : Z.land a 1023 = a mod 1024.
Proof. apply (Z.land_ones a 10). lia. Qed.

(** [ch] holds the queue [q], oldest first; the head is far from wrapping. *)
Definition tient (ch : Probe_channel_t) (q : list Probe_event_t) : Prop :=
  zlen (Slots ch) = 1024 /\ 0 <= Tail ch /\ Head ch = Tail ch + zlen q /\ Head ch < 2 ^ 64 /\
  zlen q <= 1024 /\
  forall k e, q !! k = Some e -> Slots ch !! Z.to_nat ((Tail ch + Z.of_nat k) mod 1024) = Some e.

Lemma tient_init ch : zlen (Slots ch) = 1024 ->
  exists c, C2bt_channel_init (Some ch) = Some c /\ tient c [].
Proof.
  intros Hz. eexists. split; [done|]. unfold tient; simpl.
  split_and!; try done. unfold zlen in *. by rewrite length_replicate.
Qed.

(** What a write does to the queue. *)
Definition ecrire (q : list Probe_event_t) (ev : Probe_event_t) : list Probe_event_t * Z :=
  if zlen q <? 1024 then (q ++ [ev], 0) else (q, -2).
(** What a read does. *)
Definition lire (q : list Probe_event_t) (ev : Probe_event_t) : list Probe_event_t * Probe_event_t * Z :=
  match q with [] => ([], ev, 0) | e :: q => (q, e, 1) end.

Lemma tient_ecrit ch q ev S :
  tient ch q -> zlen q < 1024 -> Head ch + 1 < 2 ^ 64 ->
  S = <[Z.to_nat (Head ch mod 1024) := ev]> (Slots ch) ->
  tient (Channel S (Head ch + 1) (Drops ch) (Tail ch)) (q ++ [ev]).
Proof.
  intros (Hz & Ht & Hh & Hw & Hl & Hq) Hn Hw' ->. unfold tient; simpl.
  rewrite zlen_insert, zlen_app, zlen_cons, (@zlen_nil Probe_event_t). split_and!; try done; try lia.
  assert (0 <= Head ch mod 1024 < 1024) by (apply Z.mod_pos_bound; lia).
  intros k e [Hk|[Hk1 Hk2]]%lookup_app_Some.
  - rewrite list_lookup_insert_ne; [by apply Hq|]. apply lookup_lt_Some in Hk.
    unfold zlen in *. rewrite Hh. intros E. apply Z2Nat.inj in E; try (apply Z.mod_pos_bound; lia). divlia.
  - destruct (k - length q)%nat eqn:E; [|done]. injection Hk2 as <-.
    replace (Tail ch + Z.of_nat k) with (Head ch) by (unfold zlen in *; lia).
    apply list_lookup_insert_eq. unfold zlen in Hz. lia.
Qed.

Lemma write_spec ch q ev :
  tient ch q -> Head ch + 1 < 2 ^ 64 ->
  wp (C2bt_channel_write (Some ch) (Some ev)) (fun '(ch', r) =>
    exists c, ch' = Some c /\ tient c (fst (ecrire q ev)) /\ r = snd (ecrire q ev) /\
      Head c <= Head ch + 1 /\ Drops c = (if r =? 0 then Drops ch else u64 (Drops ch + 1))).
Proof.
  intros Hc Hw. destruct (id Hc) as (Hz & Ht & Hh & Hw0 & Hl & Hq). pose proof (zlen_nonneg q).
  unfold C2bt_channel_write, ecrire.
  rewrite u64_id by (unfold is_u64; lia). replace (Head ch - Tail ch) with (zlen q) by lia.
  wp_step; [rewrite (proj2 (Z.ltb_ge (zlen q) 1024)) by lia|rewrite (proj2 (Z.ltb_lt (zlen q) 1024)) by lia].
  - wp_step. eexists. split_and!; try done. simpl. lia.
  - rewrite land1023. apply wp_bind, wp_upd; [rewrite Hz; apply Z.mod_pos_bound; lia|]. wp_step.
    rewrite u64_id by (unfold is_u64; lia). eexists. split_and!; try done. by eapply tient_ecrit.
Qed.

Lemma tient_lu ch e q n :
  tient ch (e :: q) -> n = Tail ch + 1 -> tient (Channel (Slots ch) (Head ch) (Drops ch) n) q.
Proof.
  intros (Hz & Ht & Hh & Hw & Hl & Hq) ->. rewrite zlen_cons in *. unfold tient; simpl.
  split_and!; try lia. intros k x Hx. replace (Tail ch + 1 + Z.of_nat k) with (Tail ch + Z.of_nat (S k)) by lia.
  by apply Hq.
Qed.

Lemma read_spec ch q ev :
  tient ch q ->
  wp (C2bt_channel_read (Some ch) (Some ev)) (fun '(ch', ev', r) =>
    exists c, ch' = Some c /\ tient c (fst (fst (lire q ev))) /\
      ev' = Some (snd (fst (lire q ev))) /\ r = snd (lire q ev) /\ Head c = Head ch).
Proof.
  intros Hc. destruct (id Hc) as (Hz & Ht & Hh & Hw & Hl & Hq). unfold C2bt_channel_read.
  destruct q as [|e q]; [rewrite zlen_nil in Hh|rewrite zlen_cons in Hh; pose proof (zlen_nonneg q)]; wp_step; try lia.
  - wp_step. simpl. eexists; split_and!; try done.
  - rewrite land1023. specialize (Hq 0%nat e eq_refl). rewrite Z.add_0_r in Hq.
    rewrite (idx_lookup _ _ _ (proj1 (Z.mod_pos_bound (Tail ch) 1024 ltac:(lia))) Hq), run_bind_done.
    wp_step. rewrite u64_id by (unfold is_u64; lia). eexists; split_and!; try done.
    by eapply tient_lu.
Qed.

(** A batch reads the [n] oldest events. *)
Lemma tient_drop ch q n :
  tient ch q -> 0 <= n <= zlen q ->
  tient (Channel (Slots ch) (Head ch) (Drops ch) (Tail ch + n)) (drop (Z.to_nat n) q).
Proof.
  intros (Hz & Ht & Hh & Hw & Hl & Hq) Hn. unfold tient; simpl.
  unfold zlen in *. rewrite length_drop. split_and!; try lia. intros k e. rewrite lookup_drop. intros Hk.
  replace (Tail ch + n + Z.of_nat k) with (Tail ch + Z.of_nat (Z.to_nat n + k)) by lia. by apply Hq.
Qed.

Lemma read_batch_spec ch q out max :
  tient ch q -> 0 <= max ->
  wp (C2bt_channel_read_batch (Some ch) (Some out) max) (fun '(ch', out', n) =>
    exists c, n = Z.min (Z.min max (zlen out)) (zlen q) /\ ch' = Some c /\ Head c = Head ch /\
      tient c (drop (Z.to_nat n) q) /\
      out' = Some (take (Z.to_nat n) q ++ drop (Z.to_nat n) out)).
Proof.
  intros Hc Hm. destruct (id Hc) as (Hz & Ht & Hh & Hw & Hl & Hq). unfold C2bt_channel_read_batch.
  pose proof (zlen_nonneg q). pose proof (zlen_nonneg out).
  set (m := if zlen out <? max then zlen out else max).
  assert (m = Z.min max (zlen out)) as Em by (unfold m; destruct (Z.ltb_spec (zlen out) max); lia).
  rewrite u64_id by (unfold is_u64; lia). replace (Head ch - Tail ch) with (zlen q) by lia.
  assert (forall n, n = 0 -> exists c, n = 0 /\ Some ch = Some c /\ Head c = Head ch /\
    tient c (drop (Z.to_nat n) q) /\ Some out = Some (take (Z.to_nat n) q ++ drop (Z.to_nat n) out)) as H00
    by (intros n ->; exists ch; by split_and!).
  wp_step; [wp_step; rewrite <- Em; replace (Z.min m (zlen q)) with 0 by lia; by apply H00|].
  wp_step; [wp_step; rewrite <- Em; replace (Z.min m (zlen q)) with 0 by lia; by apply H00|].
  rewrite i64_id by (unfold is_i64; lia). cbv zeta.
  set (n := if m <? zlen q then m else zlen q).
  assert (n = Z.min m (zlen q)) as En by (unfold n; destruct (Z.ltb_spec m (zlen q)); lia).
  apply wp_bind, wp_slice; [lia..|]. apply wp_bind.
  apply (wp_for_range (fun k o => o = take (Z.to_nat k) q ++ drop (Z.to_nat k) out)); [lia|by destruct q| |].
  - intros k o Hk ->. rewrite u64_id by (unfold is_u64; lia). rewrite land1023.
    destruct (lookup_lt_is_Some_2 q (Z.to_nat k)) as [e He]; [unfold zlen in *; lia|].
    pose proof (Hq _ _ He) as Hs. rewrite Z2Nat.id in Hs by lia.
    rewrite (idx_lookup _ _ _ (proj1 (Z.mod_pos_bound (Tail ch + k) 1024 ltac:(lia))) Hs), run_bind_done.
    destruct (lookup_lt_is_Some_2 out (Z.to_nat k)) as [x Hx]; [unfold zlen in *; lia|].
    rewrite (drop_S _ _ _ Hx), upd_mid, run_bind_done by (unfold zlen in *; rewrite length_take; lia).
    wp_step. replace (Z.to_nat (k + 1)) with (S (Z.to_nat k)) by lia.
    by rewrite (take_S_r _ _ _ He), <- app_assoc.
  - intros o ->. wp_step. rewrite u64_id by (unfold is_u64; lia). rewrite <- Em, <- En.
    eexists; split_and!; try done. apply tient_drop; [done|lia].
Qed.

(** * One producer, one consumer, any interleaving *)
Module Spsc.

(** A copy of an event interrupted half-way. *)
Definition melange (neuf ancien : Probe_event_t) : Probe_event_t :=
  Event (Ts_ns neuf) (Pid neuf) (Tid neuf) (Subsystem neuf) (Action ancien) (Flags ancien)
    (Src ancien) (Payload ancien).

(** Where the producer stands in [C2bt_channel_write], with its locals. *)
Inductive producteur : Type :=
  | PRepos
  | PTete (ev : Probe_event_t) (v14 : Z)
  | PPret (ev : Probe_event_t) (v14 : Z)
  | PCopie (ev : Probe_event_t) (v14 : Z)
  | PEcrit (ev : Probe_event_t) (v14 : Z).

(** Where the consumer stands in [C2bt_channel_read]. *)
Inductive consommateur : Type :=
  | CRepos
  | CQueue (v14 : Z)
  | CPret (v14 : Z)
  | CCopie (v14 : Z) (debut : Probe_event_t)
  | CLu (v14 : Z) (ev : Probe_event_t).

(** [ecrits] and [lus] are the events of the completed writes and reads. *)
Record etat := Etat {
  canal : Probe_channel_t;
  prod : producteur;
  cons : consommateur;
  ecrits : list Probe_event_t;
  lus : list Probe_event_t
}.

Definition initial : etat := Etat (Channel (replicate 1024 event_zero) 0 0 0) PRepos CRepos [] [].

Definition avec_case (c : Probe_channel_t) (i : Z) (ev : Probe_event_t) : Probe_channel_t :=
  Channel (<[Z.to_nat i := ev]> (Slots c)) (Head c) (Drops c) (Tail c).

(** One atomic access or half a copy of either side. *)
Inductive pas : etat -> etat -> Prop :=
  | pas_tete ev c q e l :
      pas (Etat c PRepos q e l) (Etat c (PTete ev (Head c)) q e l)
  | pas_plein ev h c q e l :
      0x400 <= u64 (h - Tail c) ->
      pas (Etat c (PTete ev h) q e l)
          (Etat (Channel (Slots c) (Head c) (u64 (Drops c + 1)) (Tail c)) PRepos q e l)
  | pas_place ev h c q e l :
      u64 (h - Tail c) < 0x400 ->
      pas (Etat c (PTete ev h) q e l) (Etat c (PPret ev h) q e l)
  | pas_debut_copie ev h c q e l ancien :
      Slots c !! Z.to_nat (Z.land h 0x3ff) = Some ancien ->
      pas (Etat c (PPret ev h) q e l)
          (Etat (avec_case c (Z.land h 0x3ff) (melange ev ancien)) (PCopie ev h) q e l)
  | pas_fin_copie ev h c q e l :
      pas (Etat c (PCopie ev h) q e l) (Etat (avec_case c (Z.land h 0x3ff) ev) (PEcrit ev h) q e l)
  | pas_publie ev h c q e l :
      pas (Etat c (PEcrit ev h) q e l)
          (Etat (Channel (Slots c) (u64 (h + 1)) (Drops c) (Tail c)) PRepos q (e ++ [ev]) l)
  | pas_queue c p e l :
      pas (Etat c p CRepos e l) (Etat c p (CQueue (Tail c)) e l)
  | pas_vide t c p e l :
      Head c <= t -> pas (Etat c p (CQueue t) e l) (Etat c p CRepos e l)
  | pas_present t c p e l :
      t < Head c -> pas (Etat c p (CQueue t) e l) (Etat c p (CPret t) e l)
  | pas_debut_lecture t c p e l x :
      Slots c !! Z.to_nat (Z.land t 0x3ff) = Some x ->
      pas (Etat c p (CPret t) e l) (Etat c p (CCopie t x) e l)
  | pas_fin_lecture t c p e l x y :
      Slots c !! Z.to_nat (Z.land t 0x3ff) = Some y ->
      pas (Etat c p (CCopie t x) e l) (Etat c p (CLu t (melange x y)) e l)
  | pas_libere t x c p e l :
      pas (Etat c p (CLu t x) e l)
          (Etat (Channel (Slots c) (Head c) (Drops c) (u64 (t + 1))) p CRepos e (l ++ [x])).

Inductive atteint : etat -> Prop :=
  | atteint_initial : atteint initial
  | atteint_pas s s' : atteint s -> pas s s' -> atteint s'.

Definition case (c : Probe_channel_t) (i : Z) : option Probe_event_t := Slots c !! Z.to_nat (i mod 1024).

Definition canal_ok (c : Probe_channel_t) (e l : list Probe_event_t) : Prop :=
  zlen (Slots c) = 1024 /\ Head c = zlen e /\ Tail c = zlen l /\ l = take (length l) e /\
  Tail c <= Head c <= Tail c + 1024 /\
  forall k, Tail c <= k < Head c -> case c k = e !! Z.to_nat k.

Definition prod_ok (c : Probe_channel_t) (p : producteur) : Prop :=
  match p with
  | PRepos => True
  | PTete _ h => h = Head c
  | PPret _ h | PCopie _ h => h = Head c /\ Head c < Tail c + 1024
  | PEcrit ev h => h = Head c /\ Head c < Tail c + 1024 /\ case c h = Some ev
  end.

Definition cons_ok (c : Probe_channel_t) (q : consommateur) (e : list Probe_event_t) : Prop :=
  match q with
  | CRepos => True
  | CQueue t => t = Tail c
  | CPret t => t = Tail c /\ t < Head c
  | CCopie t x | CLu t x => t = Tail c /\ t < Head c /\ e !! Z.to_nat t = Some x
  end.

Definition inv (s : etat) : Prop :=
  canal_ok (canal s) (ecrits s) (lus s) /\ prod_ok (canal s) (prod s) /\
  cons_ok (canal s) (cons s) (ecrits s).

Lemma melange_diag e : melange e e = e.
Proof. by destruct e. Qed.

Lemma case_insert c i j ev : zlen (Slots c) = 1024 ->
  case (avec_case c (j mod 1024) ev) i = if i mod 1024 =? j mod 1024 then Some ev else case c i.
Proof.
  intros Hz. unfold case, avec_case; simpl.
  pose proof (Z.mod_pos_bound i 1024 ltac:(lia)). pose proof (Z.mod_pos_bound j 1024 ltac:(lia)).
  destruct (Z.eqb_spec (i mod 1024) (j mod 1024)) as [->|].
  - apply list_lookup_insert_eq. unfold zlen in Hz. lia.
  - apply list_lookup_insert_ne. lia.
Qed.

(** A write to the slot of the head touches no live event. *)
Lemma canal_ok_ecrit c e l ev :
  canal_ok c e l -> Head c < Tail c + 1024 -> canal_ok (avec_case c (Head c mod 1024) ev) e l.
Proof.
  intros (Hz & Hh & Ht & Hl & Hb & Hc) Hn. pose proof (zlen_nonneg l).
  unfold canal_ok. unfold avec_case at 1 2 3 4 5 6; simpl. rewrite zlen_insert.
  split_and!; try done; try lia.
  intros k Hk. unfold avec_case in Hk; simpl in Hk. rewrite case_insert by done.
  destruct (Z.eqb_spec (k mod 1024) (Head c mod 1024)); [exfalso; divlia|by apply Hc].
Qed.

Lemma inv_pas s s' : zlen (ecrits s') < 2 ^ 64 -> inv s -> pas s s' -> inv s'.
Proof.
  intros Hw (Hok & Hp & Hq) Hpas. destruct (id Hok) as (Hz & Hh & Ht & Hl & Hb & Hc).
  pose proof (zlen_nonneg (lus s)). unfold inv.
  destruct Hpas; cbn [canal prod cons ecrits lus prod_ok cons_ok] in *; rewrite ?land1023 in *.
  - done.
  - done.
  - subst h. rewrite u64_id in * by (unfold is_u64; lia). split_and!; auto; lia.
  - destruct Hp as [-> Hp]. split_and!; auto. by apply canal_ok_ecrit.
  - destruct Hp as [-> Hp]. split_and!; auto; [by apply canal_ok_ecrit|].
    simpl. rewrite case_insert by done. by rewrite Z.eqb_refl.
  - destruct Hp as (-> & Hp & Hs). rewrite zlen_app, zlen_cons, (@zlen_nil Probe_event_t) in Hw.
    rewrite u64_id by (unfold is_u64; lia). split; [|split; [done|]].
    + unfold canal_ok; simpl. rewrite zlen_app, zlen_cons, (@zlen_nil Probe_event_t).
      split_and!; try done; try lia.
      * rewrite take_app_le by (unfold zlen in *; lia). done.
      * intros k Hk. unfold case; simpl. destruct (decide (k = Head c)) as [-> |].
        -- rewrite lookup_app_r by (unfold zlen in *; lia).
           replace (Z.to_nat (Head c) - length e)%nat with 0%nat by (unfold zlen in *; lia). done.
        -- rewrite lookup_app_l by (unfold zlen in *; lia). apply Hc. lia.
    + destruct q; simpl in *; auto; [lia|..]; (destruct Hq as (-> & ? & ?); split_and!; auto; [lia|]);
        by apply lookup_app_l_Some.
  - done.
  - done.
  - subst t. split_and!; auto.
  - destruct Hq as [-> Hlt]. split_and!; auto. rewrite <- Hc by lia. done.
  - destruct Hq as (-> & Hlt & Hx). split_and!; auto.
    rewrite <- Hc in Hx by lia. unfold case in Hx. assert (x = y) as -> by congruence.
    rewrite melange_diag, <- Hc by lia. done.
  - destruct Hq as (-> & Hlt & Hx). rewrite u64_id by (unfold is_u64; lia). split; [|split; [|done]].
    + unfold canal_ok; simpl. rewrite zlen_app, zlen_cons, (@zlen_nil Probe_event_t).
      split_and!; try done; try lia.
      * rewrite length_app. simpl. replace (length l + 1)%nat with (S (length l)) by lia.
        rewrite Ht in Hx. unfold zlen in Hx. rewrite Nat2Z.id in Hx.
        rewrite (take_S_r _ _ _ Hx). by f_equal.
      * intros k Hk. apply Hc. lia.
    + destruct p; simpl in *; auto; lia || (split_and!; try done; try lia; apply Hp).
Qed.

Lemma ecrits_pas s s' : pas s s' -> zlen (ecrits s) <= zlen (ecrits s').
Proof. destruct 1; simpl; rewrite ?zlen_app, ?zlen_cons, ?zlen_nil; lia. Qed.

Lemma atteint_inv s : atteint s -> zlen (ecrits s) < 2 ^ 64 -> inv s.
Proof.
  induction 1 as [|s s' _ IH Hp]; intros Hw.
  - split; [|done]. unfold canal_ok; simpl. split_and!; try done. intros; lia.
  - apply (inv_pas s); [done| |done]. apply IH. pose proof (ecrits_pas _ _ Hp). lia.
Qed.
End Spsc.

(** * Properties *)

(** A sequential client of a channel, with the results it observes. *)
Inductive operation : Type :=
  | Ecrire (ev : Probe_event_t)
  | Lire (ev : Probe_event_t)
  | LireLot (out : list Probe_event_t) (max_events : Z).

(** [executer] runs the code, [specifier] the bounded queue; both return the
    events copied out and the integer result. *)
Definition executer1 (o : operation) (ch : option Probe_channel_t)
  : run (option Probe_channel_t * (list Probe_event_t * Z)) :=
  match o with
  | Ecrire ev => '(ch, r) ← C2bt_channel_write ch (Some ev); Done (ch, ([], r))
  | Lire ev => '(ch, ev, r) ← C2bt_channel_read ch (Some ev); Done (ch, (from_option (fun e => [e]) [] ev, r))
  | LireLot out n => '(ch, out, r) ← C2bt_channel_read_batch ch (Some out) n; Done (ch, (default [] out, r))
  end.

Fixpoint executer (os : list operation) (ch : option Probe_channel_t)
  : run (option Probe_channel_t * list (list Probe_event_t * Z)) :=
  match os with
  | [] => Done (ch, [])
  | o :: os => '(ch, r) ← executer1 o ch; '(ch, rs) ← executer os ch; Done (ch, r :: rs)
  end.

Definition specifier1 (o : operation) (q : list Probe_event_t)
  : list Probe_event_t * (list Probe_event_t * Z) :=
  match o with
  | Ecrire ev => let '(q, r) := ecrire q ev in (q, ([], r))
  | Lire ev => let '(q, ev, r) := lire q ev in (q, ([ev], r))
  | LireLot out max =>
      let n := Z.min (Z.min (Z.max max 0) (zlen out)) (zlen q) in
      (drop (Z.to_nat n) q, (take (Z.to_nat n) q ++ drop (Z.to_nat n) out, n))
  end.

Fixpoint specifier (os : list operation) (q : list Probe_event_t) : list (list Probe_event_t * Z) :=
  match os with
  | [] => []
  | o :: os => let '(q, r) := specifier1 o q in r :: specifier os q
  end.

Lemma read_batch_negatif ch out max : max < 0 ->
  C2bt_channel_read_batch (Some ch) (Some out) max = C2bt_channel_read_batch (Some ch) (Some out) 0.
Proof.
  intros Hm. unfold C2bt_channel_read_batch. pose proof (zlen_nonneg out).
  destruct (Z.ltb_spec (zlen out) max), (Z.ltb_spec (zlen out) 0); try lia.
  rewrite (proj2 (Z.leb_le max 0)) by lia. done.
Qed.

Lemma executer1_spec o ch q :
  tient ch q -> Head ch + 1 < 2 ^ 64 ->
  wp (executer1 o (Some ch)) (fun '(ch', r) =>
    exists c, ch' = Some c /\ tient c (fst (specifier1 o q)) /\ r = snd (specifier1 o q) /\ Head c <= Head ch + 1).
Proof.
  intros Hc Hw. unfold executer1, specifier1. destruct o as [ev|ev|out max]; apply wp_bind.
  - eapply wp_mono; [by apply write_spec|]. intros [ch' r] (c & -> & H1 & -> & H2 & _). wp_step.
    destruct (ecrire q ev). by eexists.
  - eapply wp_mono; [by apply read_spec|]. intros [[ch' ev'] r] (c & -> & H1 & -> & -> & H2). wp_step.
    destruct (lire q ev) as [[q' e] r]. simpl in *. eexists; split_and!; try done. lia.
  - assert (C2bt_channel_read_batch (Some ch) (Some out) max
      = C2bt_channel_read_batch (Some ch) (Some out) (Z.max max 0)) as ->.
    { destruct (Z.ltb_spec max 0); [rewrite Z.max_r by lia; by apply read_batch_negatif|by rewrite Z.max_l by lia]. }
    eapply wp_mono; [apply read_batch_spec; [done|lia]|].
    intros [[ch' out'] n] (c & -> & -> & H1 & H2 & ->). wp_step. eexists; split_and!; try done. lia.
Qed.

(** Seen by any sequential client, the ring of 1024 slots is a bounded FIFO
    queue: any sequence of writes, reads and batch reads from the initialised
    channel returns exactly what the queue returns (a full queue refuses the
    event with -2, an empty one reads 0), as long as the head has not wrapped. *)
Theorem canal_file os :
  zlen os < 2 ^ 63 ->
  wp (executer os (C2bt_channel_init (Some (Channel (replicate 1024 event_zero) 0 0 0))))
    (fun '(_, rs) => rs = specifier os []).
Proof.
  intros Hn. destruct (tient_init (Channel (replicate 1024 event_zero) 0 0 0) eq_refl) as (c & Hc & Ht).
  rewrite Hc. assert (Head c + zlen os < 2 ^ 64) as Hb.
  { injection Hc as <-. simpl. lia. }
  clear Hn Hc. revert c Ht Hb. generalize (@nil Probe_event_t) as q.
  induction os as [|o os IH]; intros q c Ht Hb; [done|]. rewrite zlen_cons in Hb. pose proof (zlen_nonneg os).
  cbn [executer specifier]. apply wp_bind. eapply wp_mono; [apply executer1_spec; [done|lia]|].
  intros [ch' r] (c' & -> & H1 & -> & H2). destruct (specifier1 o q) as [q' r].
  apply wp_bind. eapply wp_mono; [apply IH; [exact H1|lia]|]. intros [ch'' rs] ->. by wp_step.
Qed.

Definition evenement_exemple (n : Z) : Probe_event_t := Event n 7 7 1 1 8 0 (replicate 96 0).

Lemma canal_file_witness :
  wp (executer [Ecrire (evenement_exemple 1); Ecrire (evenement_exemple 2); Lire event_zero]
       (C2bt_channel_init (Some (Channel (replicate 1024 event_zero) 0 0 0))))
    (fun '(_, rs) => rs = [([], 0); ([], 0); ([evenement_exemple 1], 1)]).
Proof.
  apply (canal_file [Ecrire (evenement_exemple 1); Ecrire (evenement_exemple 2); Lire event_zero]).
  by vm_compute.
Defined.

(** C3: with one producer and one consumer interleaved at the grain of the
    atomic accesses and of half a slot copy, the events the consumer has read
    are at every moment a prefix of the events the producer has published: no
    event is lost, duplicated, reordered or torn, and at most 1024 are pending. *)
Theorem spsc_prefixe s :
  Spsc.atteint s -> zlen (Spsc.ecrits s) < 2 ^ 64 ->
  Spsc.lus s `prefix_of` Spsc.ecrits s /\ zlen (Spsc.ecrits s) - zlen (Spsc.lus s) <= 1024 /\
  forall t x, Spsc.cons s = Spsc.CLu t x -> (Spsc.lus s ++ [x]) `prefix_of` Spsc.ecrits s.
Proof.
  intros Ha Hw. destruct (Spsc.atteint_inv s Ha Hw) as ((Hz & Hh & Ht & Hl & Hb & Hc) & _ & Hq).
  split_and!.
  - rewrite Hl. apply prefix_take.
  - lia.
  - intros t x E. rewrite E in Hq. destruct Hq as (-> & Hlt & Hx). rewrite Hl at 1.
    rewrite <- (take_S_r (Spsc.ecrits s) (length (Spsc.lus s)) x); [apply prefix_take|].
    rewrite Ht in Hx. unfold zlen in Hx. by rewrite Nat2Z.id in Hx.
Qed.

(** One more step of the example run, its premise evaluated. *)
Ltac avancer H regle :=
  let H' := fresh in
  pose proof (Spsc.atteint_pas _ _ H ltac:(eapply regle; vm_compute; reflexivity)) as H';
  clear H; rename H' into H.

(** A write completed while the consumer polls. *)
Lemma exemple_spsc : exists s, Spsc.atteint s /\ Spsc.ecrits s = [evenement_exemple 1] /\
  Spsc.cons s = Spsc.CLu 0 (evenement_exemple 1).
Proof.
  pose proof (Spsc.atteint_pas _ _ Spsc.atteint_initial (Spsc.pas_tete (evenement_exemple 1) _ _ _ _)) as H.
  avancer H (Spsc.pas_place (evenement_exemple 1)).
  avancer H (Spsc.pas_debut_copie (evenement_exemple 1)).
  avancer H (Spsc.pas_fin_copie (evenement_exemple 1)).
  avancer H (Spsc.pas_publie (evenement_exemple 1)).
  avancer H Spsc.pas_queue.
  avancer H Spsc.pas_present.
  avancer H Spsc.pas_debut_lecture.
  avancer H Spsc.pas_fin_lecture.
  eexists. split; [exact H|]. split; reflexivity.
Qed.

Lemma spsc_prefixe_witness : exists s, Spsc.cons s = Spsc.CLu 0 (evenement_exemple 1) /\
  (Spsc.lus s ++ [evenement_exemple 1]) `prefix_of` Spsc.ecrits s.
Proof.
  destruct exemple_spsc as (s & Ha & He & Hc). exists s. split; [exact Hc|].
  apply (spsc_prefixe s Ha) with (t := 0); [rewrite He; by vm_compute|exact Hc].
Defined.
