(* ===== verification/Correlateur.v ===== *)
(** Rules and correlation over probe events: src/internal/engine/rules.go,
    correlator.go and the lifecycle of context.go.  The theorems: what the rules
    change in the flags, the exact escalation condition of the correlator and
    the two hostile events behind every escalation, and the polling loop, which
    drains the channels fairly, completely and in order. *)
From S2P Require Import Prelude Texte Channel.

Definition avec_flags (ev : Probe_event_t) (f : Z) : Probe_event_t :=
  Event (Ts_ns ev) (Pid ev) (Tid ev) (Subsystem ev) (Action ev) f (Src ev) (Payload ev).

(** * rules.go *)

Definition blanc (o : Z) : bool := (o =? 32) || (o =? 9).
Definition separateur (o : Z) : bool := (o =? 0) || (o =? 32) || (o =? 9) || (o =? 13) || (o =? 10).

(** The two loops that delimit the first word. *)
Fixpoint sauter_blancs (comm : list Z) : list Z :=
  match comm with o :: r => if blanc o then sauter_blancs r else comm | [] => [] end.
Fixpoint premier_mot (comm : list Z) : list Z :=
  match comm with o :: r => if separateur o then [] else o :: premier_mot r | [] => [] end.

Definition binaires_lolbas : list (list Z) :=
  octets <$> ["curl"; "wget"; "nc"; "ncat"; "netcat"; "socat"; "base64"; "perl"; "ruby"; "sh"; "bash";
              "zsh"; "dash"; "ash"]%string.
Definition prefixes_lolbas : list (list Z) := octets <$> ["python"; "php"; "lua"]%string.

Definition Check_lolbas_comm (comm : list Z) : Z :=
  let word := premier_mot (sauter_blancs comm) in
  let slash := LastIndexByte word 47 in
  let word := if 0 <=? slash then drop (Z.to_nat (slash + 1)) word else word in
  if existsb (egaux word) binaires_lolbas then 1
  else if existsb (fun p => prefixe p word) prefixes_lolbas then 1 else 0.

(** [payload[:bytes.IndexByte(payload, 0)]] *)
Fixpoint avant_nul (payload : list Z) : list Z :=
  match payload with o :: r => if o =? 0 then [] else o :: avant_nul r | [] => [] end.

Definition marque (f bits : Z) : bool := negb (Z.land f bits =? 0).

(** The flags after the [switch], before the observe bit is settled. *)
Definition regles (ev : Probe_event_t) : Z :=
  let payload := avant_nul (Payload ev) in
  let has (text : string) := contient (octets text) payload in
  let flags := Flags ev in
  if Subsystem ev =? 1 then
    if (Action ev =? 1) && negb (Check_lolbas_comm payload =? 0) then Z.lor flags 12 else flags
  else if Subsystem ev =? 4 then
    if Action ev =? 4 then
      let piped := (has "curl" || has "wget") && (has "| sh" || has "| bash" || has "|sh" || has "|bash") in
      if piped || has "rm -rf" || has "rm -r " || has "chmod 777" || has "mkfs" || has "dd if=" ||
         has ".claude" || has "CLAUDE.md" || has "AGENTS.md" || marque flags 0x100
      then Z.lor flags 6 else flags
    else flags
  else if Subsystem ev =? 6 then
    let class := u32 (Z.shiftr (Src ev) 32) in
    if (class =? 4) || (0x780 <=? u32 (Src ev)) || marque flags 0x100 then Z.lor flags 0x106
    else if (class =? 3) || marque flags 0x80 then Z.lor flags 0x84
    else if (class =? 2) || marque flags 0x40 then Z.lor flags 0x44 else flags
  else if Subsystem ev =? 2 then
    if (Action ev =? 6) && (has ".claude" || has "CLAUDE.md" || has "AGENTS.md") then Z.lor flags 6 else flags
  else flags.

(** One turn of the loop over the batch. *)
Definition evaluer_evenement (ev : Probe_event_t) : Probe_event_t :=
  let flags := regles ev in
  avec_flags ev (if marque flags 6 then Z.ldiff flags 1 else Z.lor flags 1).

(** Distinct input and output slices. *)
Definition C2bt_eval_rules_batch (inEvents outEvents : list Probe_event_t) (batchCount : Z)
  : run (list Probe_event_t * Z) :=
  let n := Z.min (Z.min batchCount (zlen inEvents)) (zlen outEvents) in
  if n <=? 0 then Done (outEvents, 0) else
  o ← for_range n outEvents (fun i out =>
        ev ← idx inEvents i;
        out ← upd out i (evaluer_evenement ev);
        Done (inl (B := list Probe_event_t) out));
  Done (match o with inl s | inr s => s end, n).

(** The same call when both slices are the same array, as [C2bt_poll_batch]
    makes it: the input is read from what has been written so far. *)
Definition eval_rules_en_place (events : list Probe_event_t) (batchCount : Z)
  : run (list Probe_event_t * Z) :=
  let n := Z.min batchCount (zlen events) in
  if n <=? 0 then Done (events, 0) else
  o ← for_range n events (fun i out =>
        ev ← idx out i;
        out ← upd out i (evaluer_evenement ev);
        Done (inl (B := list Probe_event_t) out));
  Done (match o with inl s | inr s => s end, n).

(** * correlator.go *)

Record C2bt_process_tracker_t := Entree {
  Last_ts_ns : Z;
  pid_suivi : Z;
  Subsystems_mask : Z;
  Accumulated_score : Z;
  Last_action : Z;
  Event_count : Z
}.
Definition entree_zero : C2bt_process_tracker_t := Entree 0 0 0 0 0 0.
Definition C2bt_tracker_table_t : Type := list C2bt_process_tracker_t.

Definition C2bt_tracker_init (table : option C2bt_tracker_table_t) : option C2bt_tracker_table_t :=
  match table with Some _ => Some (replicate 1024 entree_zero) | None => None end.

Definition C2bt_tracker_reset_entry (pid tsNS : Z) : C2bt_process_tracker_t := Entree tsNS pid 0 0 0 0.

Definition hostile (ev : Probe_event_t) : bool :=
  if Subsystem ev =? 1 then (Action ev =? 1) && marque (Flags ev) 8
  else if Subsystem ev =? 2 then (Action ev =? 6) && (Z.land (Flags ev) 6 =? 6)
  else if Subsystem ev =? 3 then marque (Flags ev) 0x10
  else if Subsystem ev =? 4 then (Action ev =? 4) && (marque (Flags ev) 0x400 || (Z.land (Flags ev) 6 =? 6))
  else if Subsystem ev =? 5 then marque (Flags ev) 0x20
  else if Subsystem ev =? 6 then marque (Flags ev) 0x100
  else false.

(** Must the entry be reset for this event? *)
Definition perimee (entry : C2bt_process_tracker_t) (ev : Probe_event_t) (windowNS : Z) : bool :=
  (Event_count entry =? 0) || negb (pid_suivi entry =? Pid ev) || (Ts_ns ev <? Last_ts_ns entry) ||
  (windowNS <=? u64 (Ts_ns ev - Last_ts_ns entry)).

(** The update of an entry that is not to be reset. *)
Definition compter (entry : C2bt_process_tracker_t) (ev : Probe_event_t) : C2bt_process_tracker_t :=
  Entree (Last_ts_ns entry) (pid_suivi entry) (Subsystems_mask entry) (Accumulated_score entry) (Action ev)
    (if Event_count entry <? 65535 then u16 (Event_count entry + 1) else Event_count entry).

Definition crediter (entry : C2bt_process_tracker_t) (ev : Probe_event_t) : C2bt_process_tracker_t :=
  let bit := u32 (Z.shiftl 1 (Subsystem ev)) in
  if Z.land (Subsystems_mask entry) bit =? 0 then
    Entree (Last_ts_ns entry) (pid_suivi entry) (Z.lor (Subsystems_mask entry) bit)
      (u32 (Accumulated_score entry + 50)) (Last_action entry) (Event_count entry)
  else entry.

Definition C2bt_correlate_event (table : option C2bt_tracker_table_t) (ev : option Probe_event_t)
    (outFlags : option Z) (windowNS : Z) : run (option C2bt_tracker_table_t * option Z * Z) :=
  match table, ev, outFlags with
  | Some t, Some ev, Some _ =>
      let out := Z.ldiff (Flags ev) 0x200 in
      if Pid ev =? 0 then Done (table, Some out, 0) else
      let windowNS := if windowNS =? 0 then 1000000000 else windowNS in
      let i := Z.land (Pid ev) 1023 in
      entry ← idx t i;
      let entry := if perimee entry ev windowNS
                   then C2bt_tracker_reset_entry (Pid ev) (Ts_ns ev) else entry in
      let entry := compter entry ev in
      if negb (hostile ev) then t ← upd t i entry; Done (Some t, Some out, 0) else
      let entry := crediter entry ev in
      t ← upd t i entry;
      Done (Some t, Some (if 100 <=? Accumulated_score entry
                          then Z.ldiff (Z.lor (Flags ev) 0x204) 1 else out), 0)
  | _, _, _ => Done (table, outFlags, -1)
  end.

(** * context.go *)

Record C2bt_config_t := Config {
  Enable_proc : Z; Enable_file : Z; Enable_net : Z; Enable_mcp : Z; Enable_entropy : Z; Enable_gpu : Z;
  Enforce_mode : Z; Fail_safe_policy : Z;
  Mcp_socket_path : list Z; Harness_dir : list Z
}.
Definition config_zero : C2bt_config_t := Config 0 0 0 0 0 0 0 0 [] [].

(** The descriptors and the batch buffer take no part in the operations. *)
Record C2bt_ctx_t := Ctx {
  config : C2bt_config_t;
  canaux : list Probe_channel_t;   (* Chan_proc, Chan_file, Chan_net, Chan_mcp *)
  Tracker_table : C2bt_tracker_table_t;
  Running : Z
}.
Definition channel_zero : Probe_channel_t := Channel (replicate 1024 event_zero) 0 0 0.

Definition C2bt_init_inplace (ctx : option C2bt_ctx_t) (cfg : option C2bt_config_t) : option C2bt_ctx_t * Z :=
  match ctx with
  | None => (None, -1)
  | Some _ => (Some (Ctx (default config_zero cfg) (replicate 4 channel_zero) (replicate 1024 entree_zero) 0), 0)
  end.

Definition C2bt_start (ctx : option C2bt_ctx_t) : option C2bt_ctx_t * Z :=
  match ctx with
  | None => (None, -1)
  | Some c =>
      let cfg := config c in
      if negb (Enable_proc cfg =? 0) || negb (Enable_file cfg =? 0) || negb (Enable_net cfg =? 0) ||
         negb (Enable_mcp cfg =? 0) || negb (Enable_entropy cfg =? 0) || negb (Enable_gpu cfg =? 0) ||
         negb (Enforce_mode cfg =? 0) || negb (Fail_safe_policy cfg =? 0) ||
         negb (zlen (Mcp_socket_path cfg) =? 0) || negb (zlen (Harness_dir cfg) =? 0)
      then (ctx, -2) else (Some (Ctx cfg (canaux c) (Tracker_table c) 1), 0)
  end.

Definition C2bt_stop (ctx : option C2bt_ctx_t) : option C2bt_ctx_t * Z :=
  match ctx with
  | None => (None, -1)
  | Some c => (Some (Ctx (config c) (canaux c) (Tracker_table c) 0), 0)
  end.

(** One round over the four channels. *)
Definition tour (maxEvents : Z) (s : list Probe_channel_t * list Probe_event_t * Z)
  : run (list Probe_channel_t * list Probe_event_t * Z) :=
  o ← for_range 4 s (fun i '(chs, out, n) =>
        if n <? maxEvents then
          ch ← idx chs i;
          case ← idx out n;
          '(ch, ev, r) ← C2bt_channel_read (Some ch) (Some case);
          chs ← upd chs i (default channel_zero ch);
          out ← upd out n (default case ev);
          Done (inl (chs, out, if r =? 1 then n + 1 else n))
        else Done (inl (B := list Probe_channel_t * list Probe_event_t * Z) (chs, out, n)));
  Done (match o with inl s | inr s => s end).

(** [for polledCount < maxEvents]: every round but the last reads an event. *)
Definition vidanger (maxEvents : Z) (s : list Probe_channel_t * list Probe_event_t * Z)
  : run (list Probe_channel_t * list Probe_event_t * Z) :=
  loop (fun '(chs, out, n) =>
      if n <? maxEvents then
        '(chs, out, n') ← tour maxEvents (chs, out, n);
        if n' =? n then Done (inr (chs, out, n')) else Done (inl (chs, out, n'))
      else Done (inr (chs, out, n)))
    (S (Z.to_nat maxEvents)) s.

Definition C2bt_poll_batch (ctx : option C2bt_ctx_t) (out : list Probe_event_t) (maxEvents : Z)
  : run (option C2bt_ctx_t * list Probe_event_t * Z) :=
  match ctx with
  | None => Done (None, out, 0)
  | Some c =>
      if Running c =? 0 then Done (ctx, out, 0) else
      let maxEvents := Z.min maxEvents (zlen out) in
      '(chs, out, polledCount) ← vidanger maxEvents (canaux c, out, 0);
      '(out, _) ← eval_rules_en_place out polledCount;
      o ← for_range polledCount (Tracker_table c, out) (fun i '(t, out) =>
            ev ← idx out i;
            '(t', flags, _) ← C2bt_correlate_event (Some t) (Some ev) (Some 0) 1000000000;
            out ← upd out i (avec_flags ev (default 0 flags));
            Done (inl (B := C2bt_tracker_table_t * list Probe_event_t) (default t t', out)));
      let '(t, out) := match o with inl s | inr s => s end in
      Done (Some (Ctx (config c) chs t (Running c)), out, polledCount)
  end.

(** * What the rules do *)

Lemma avant_nul_in o l : o ∈ avant_nul l -> o <> 0.
Proof.
  induction l as [|x l IH]; simpl; [by intros ?%elem_of_nil|].
  destruct (Z.eqb_spec x 0); [by intros ?%elem_of_nil|]. intros [-> |?]%elem_of_cons; auto.
Qed.

Lemma premier_mot_coupe m s r :
  Forall (fun o => separateur o = false) m -> separateur s = true -> premier_mot (m ++ s :: r) = m.
Proof. induction 1 as [|x m Hx _ IH]; intros Hs; simpl; [by rewrite Hs|]. by rewrite Hx, IH. Qed.

Lemma premier_mot_entier m : Forall (fun o => separateur o = false) m -> premier_mot m = m.
Proof. induction 1 as [|x m Hx _ IH]; simpl; [done|]. by rewrite Hx, IH. Qed.

Lemma sauter_blancs_app b m :
  Forall (fun o => blanc o = true) b -> match m with o :: _ => blanc o = false | [] => True end ->
  sauter_blancs (b ++ m) = m.
Proof.
  intros Hb Hm. induction Hb as [|x b Hx _ IH]; simpl; [destruct m; simpl; by rewrite ?Hm|]. by rewrite Hx.
Qed.

Lemma avant_nul_app m r : Forall (fun o => o <> 0) m -> avant_nul (m ++ r) = m ++ avant_nul r.
Proof.
  induction 1 as [|x m Hx _ IH]; simpl; [done|]. destruct (Z.eqb_spec x 0); [done|]. by rewrite IH.
Qed.

Lemma separateur_non_nul o : separateur o = false -> o <> 0.
Proof. unfold separateur. intros H. zbool. done. Qed.

Lemma binaires_lolbas_mots : Forall (fun m => Forall (fun o => separateur o = false /\ o <> 47) m) binaires_lolbas.
Proof.
  assert (forallb (forallb (fun o => negb (separateur o) && negb (o =? 47))) binaires_lolbas = true) as H by done.
  apply Forall_forall. intros m Hm%list_elem_of_In. apply Forall_forall. intros o Ho%list_elem_of_In.
  pose proof (proj1 (forallb_forall _ _) (proj1 (forallb_forall _ _) H _ Hm) _ Ho) as Hb. cbv beta in Hb. zbool. by split.
Qed.

Lemma check_lolbas_chemin blancs dir name sep suite :
  Forall (fun o => blanc o = true) blancs -> Forall (fun o => separateur o = false) dir ->
  name ∈ binaires_lolbas -> separateur sep = true ->
  Check_lolbas_comm (avant_nul (blancs ++ dir ++ 47 :: name ++ sep :: suite)) = 1.
Proof.
  intros Hb Hd Hn Hs. pose proof (proj1 (Forall_forall _ _) binaires_lolbas_mots _ Hn) as Hm.
  assert (Forall (fun o => separateur o = false) (dir ++ 47 :: name)) as Hw.
  { apply Forall_app. split; [done|]. constructor; [done|]. eapply Forall_impl; [exact Hm|]. by intros o [? _]. }
  replace (blancs ++ dir ++ 47 :: name ++ sep :: suite) with ((blancs ++ dir ++ 47 :: name) ++ sep :: suite)
    by (by rewrite <- !app_assoc).
  rewrite avant_nul_app.
  2: { apply Forall_app. split.
       - eapply Forall_impl; [exact Hb|]. unfold blanc. intros o Ho ->. done.
       - eapply Forall_impl; [exact Hw|]. intros o. apply separateur_non_nul. }
  unfold Check_lolbas_comm. rewrite <- app_assoc, sauter_blancs_app; [|done|].
  2: { destruct dir as [|o dir]; simpl; [done|]. apply Forall_cons_iff in Hd as [Ho _].
       unfold separateur, blanc in *. zbool. by rewrite (proj2 (Z.eqb_neq o 32)), (proj2 (Z.eqb_neq o 9)). }
  assert (premier_mot ((dir ++ 47 :: name) ++ avant_nul (sep :: suite)) = dir ++ 47 :: name) as ->.
  { simpl. destruct (sep =? 0); [rewrite app_nil_r; by apply premier_mot_entier|by apply premier_mot_coupe]. }
  rewrite LastIndexByte_spec.
  2: { intros Hin. by destruct (proj1 (Forall_forall _ _) Hm _ Hin). }
  pose proof (zlen_nonneg dir). rewrite (proj2 (Z.leb_le 0 (zlen dir))) by done.
  replace (Z.to_nat (zlen dir + 1)) with (length dir + 1)%nat by (unfold zlen; lia).
  assert (drop (length dir + 1) (dir ++ 47 :: name) = name) as ->.
  { rewrite drop_app_ge by lia. by replace (length dir + 1 - length dir)%nat with 1%nat by lia. }
  assert (existsb (egaux name) binaires_lolbas = true) as ->; [|done].
  apply existsb_exists. exists name. split; [by apply list_elem_of_In|]. by apply bool_decide_eq_true.
Qed.

Lemma marque_bit f n : 0 <= n -> marque f (2 ^ n) = Z.testbit f n.
Proof.
  intros Hn. unfold marque. destruct (Z.testbit f n) eqn:E.
  - destruct (Z.eqb_spec (Z.land f (2 ^ n)) 0) as [H|]; [|done]. exfalso.
    assert (Z.testbit (Z.land f (2 ^ n)) n = false) as Hb by (rewrite H; apply Z.bits_0).
    rewrite Z.land_spec, E, Z.pow2_bits_true in Hb by lia. done.
  - replace (Z.land f (2 ^ n)) with 0; [done|]. symmetry. apply Z.bits_inj'. intros k Hk.
    rewrite Z.land_spec, Z.bits_0. destruct (Z.eqb_spec n k) as [<-|]; [by rewrite E|].
    rewrite Z.pow2_bits_false by lia. apply andb_false_r.
Qed.

Lemma marque_6 f : marque f 6 = Z.testbit f 1 || Z.testbit f 2.
Proof.
  unfold marque. destruct (Z.testbit f 1 || Z.testbit f 2) eqn:E.
  - destruct (Z.eqb_spec (Z.land f 6) 0) as [H|]; [|done]. exfalso.
    assert (forall n, Z.testbit (Z.land f 6) n = false) as Hb by (intros n; rewrite H; apply Z.bits_0).
    pose proof (Hb 1) as H1. pose proof (Hb 2) as H2. rewrite Z.land_spec in H1, H2.
    change (Z.testbit 6 1) with true in H1. change (Z.testbit 6 2) with true in H2.
    rewrite andb_true_r in *. by rewrite H1, H2 in E.
  - apply orb_false_iff in E as [E1 E2]. replace (Z.land f 6) with 0; [done|]. symmetry.
    apply Z.bits_inj'. intros k Hk. rewrite Z.land_spec, Z.bits_0.
    destruct (decide (k = 1)) as [-> |]; [by rewrite E1|]. destruct (decide (k = 2)) as [-> |]; [by rewrite E2|].
    assert (Z.testbit 6 k = false) as ->; [|apply andb_false_r].
    destruct (decide (k = 0)) as [-> |]; [done|]. apply Z.bits_above_log2; [lia|]. change (Z.log2 6) with 2. lia.
Qed.

Lemma regles_conserve ev n : Z.testbit (Flags ev) n = true -> Z.testbit (regles ev) n = true.
Proof.
  intros H. unfold regles. cbv zeta.
  repeat match goal with |- context [if ?b then _ else _] => destruct b end;
    rewrite ?Z.lor_spec, ?H; done.
Qed.

(** The aliased batch maps the rules over the first [n] events. *)
Lemma eval_rules_en_place_spec events n :
  0 <= n <= zlen events ->
  eval_rules_en_place events n = Done ((evaluer_evenement <$> take (Z.to_nat n) events) ++ drop (Z.to_nat n) events, n).
Proof.
  intros Hn. assert (wp (eval_rules_en_place events n) (fun r =>
    r = ((evaluer_evenement <$> take (Z.to_nat n) events) ++ drop (Z.to_nat n) events, n))) as W.
  { unfold eval_rules_en_place. rewrite Z.min_l by lia. wp_step.
    { wp_step. replace n with 0 by lia. done. }
    apply wp_bind, (wp_for_range (fun i out =>
      out = (evaluer_evenement <$> take (Z.to_nat i) events) ++ drop (Z.to_nat i) events)); [lia|done| |].
    - intros i out Hi ->.
      destruct (lookup_lt_is_Some_2 events (Z.to_nat i)) as [e He]; [unfold zlen in *; lia|].
      rewrite (drop_S _ _ _ He).
      assert (i = zlen (evaluer_evenement <$> take (Z.to_nat i) events)) as Hz
        by (unfold zlen in *; rewrite length_fmap, length_take; lia).
      rewrite idx_mid, run_bind_done, upd_mid, run_bind_done by done. wp_step.
      replace (Z.to_nat (i + 1)) with (S (Z.to_nat i)) by lia.
      by rewrite (take_S_r _ _ _ He), fmap_app, <- app_assoc.
    - intros out ->. by wp_step. }
  apply wp_exists in W as (? & -> & ->). done.
Qed.

Lemma eval_rules_batch_spec inE outE n :
  0 <= n -> n <= zlen inE -> n <= zlen outE ->
  C2bt_eval_rules_batch inE outE n = Done ((evaluer_evenement <$> take (Z.to_nat n) inE) ++ drop (Z.to_nat n) outE, n).
Proof.
  intros Hn Hi Ho. assert (wp (C2bt_eval_rules_batch inE outE n) (fun r =>
    r = ((evaluer_evenement <$> take (Z.to_nat n) inE) ++ drop (Z.to_nat n) outE, n))) as W.
  { unfold C2bt_eval_rules_batch. rewrite !Z.min_l by lia. wp_step.
    { wp_step. replace n with 0 by lia. done. }
    apply wp_bind, (wp_for_range (fun i out =>
      out = (evaluer_evenement <$> take (Z.to_nat i) inE) ++ drop (Z.to_nat i) outE)); [lia|done| |].
    - intros i out Hin ->.
      destruct (lookup_lt_is_Some_2 inE (Z.to_nat i)) as [e He]; [unfold zlen in *; lia|].
      destruct (lookup_lt_is_Some_2 outE (Z.to_nat i)) as [x Hx]; [unfold zlen in *; lia|].
      rewrite (idx_lookup _ _ _ (proj1 Hin) He), run_bind_done, (drop_S _ _ _ Hx).
      rewrite upd_mid, run_bind_done by (unfold zlen in *; rewrite length_fmap, length_take; lia). wp_step.
      replace (Z.to_nat (i + 1)) with (S (Z.to_nat i)) by lia.
      by rewrite (take_S_r _ _ _ He), fmap_app, <- app_assoc.
    - intros out ->. by wp_step. }
  apply wp_exists in W as (? & -> & ->). done.
Qed.

(** * The correlator *)

#[local] Arguments Z.testbit : simpl never.
#[local] Arguments Z.land : simpl never.
#[local] Arguments Z.lor : simpl never.
#[local] Arguments Z.ldiff : simpl never.

(** Number of subsystems in a mask. *)
Definition nb_sous_systemes (m : Z) : Z :=
  Z.b2z (Z.testbit m 1) + Z.b2z (Z.testbit m 2) + Z.b2z (Z.testbit m 3) +
  Z.b2z (Z.testbit m 4) + Z.b2z (Z.testbit m 5) + Z.b2z (Z.testbit m 6).

Definition entree_ok (e : C2bt_process_tracker_t) : Prop :=
  Accumulated_score e = 50 * nb_sous_systemes (Subsystems_mask e).

Lemma hostile_sous_systeme ev : hostile ev = true -> 1 <= Subsystem ev <= 6.
Proof.
  unfold hostile. repeat match goal with |- context [Subsystem ev =? ?k] =>
    destruct (Z.eqb_spec (Subsystem ev) k); [intros _; lia|] end. done.
Qed.

Definition autre_bit (m s : Z) : bool :=
  existsb (fun k => negb (k =? s) && Z.testbit m k) [1; 2; 3; 4; 5; 6].

Lemma testbit_bit s k : 1 <= s <= 6 -> 0 <= k -> Z.testbit (u32 (Z.shiftl 1 s)) k = (k =? s).
Proof.
  intros Hs Hk. rewrite Z.shiftl_1_l. rewrite u32_id.
  - rewrite Z.pow2_bits_eqb by lia. apply Z.eqb_sym.
  - split; [lia|]. apply Z.pow_lt_mono_r; lia.
Qed.

Lemma score_credite m s : 1 <= s <= 6 -> Z.testbit m s = false ->
  nb_sous_systemes (Z.lor m (u32 (Z.shiftl 1 s))) = nb_sous_systemes m + 1.
Proof.
  intros Hs Hm. unfold nb_sous_systemes. rewrite !Z.lor_spec, !testbit_bit by lia.
  assert (s = 1 \/ s = 2 \/ s = 3 \/ s = 4 \/ s = 5 \/ s = 6) as H by lia.
  destruct H as [->|[->|[->|[->|[->| ->]]]]]; rewrite Hm; simpl; rewrite ?orb_false_r; lia.
Qed.

Lemma deux_sous_systemes m s : 1 <= s <= 6 -> Z.testbit m s = true ->
  (2 <=? nb_sous_systemes m) = autre_bit m s.
Proof.
  intros Hs Hm. unfold nb_sous_systemes, autre_bit. simpl.
  assert (s = 1 \/ s = 2 \/ s = 3 \/ s = 4 \/ s = 5 \/ s = 6) as H by lia.
  destruct H as [->|[->|[->|[->|[->| ->]]]]]; rewrite Hm; simpl;
    repeat match goal with |- context [Z.testbit m ?k] => destruct (Z.testbit m k) end; done.
Qed.

Lemma nb_sous_systemes_range m : 0 <= nb_sous_systemes m <= 6.
Proof.
  unfold nb_sous_systemes.
  repeat match goal with |- context [Z.testbit m ?k] => destruct (Z.testbit m k) end; simpl; lia.
Qed.

(** The bit of a subsystem is set in the mask, or it is the event's own. *)
Lemma crediter_spec e ev :
  entree_ok e -> 1 <= Subsystem ev <= 6 ->
  entree_ok (crediter e ev) /\ (forall k, 0 <= k -> Z.testbit (Subsystems_mask (crediter e ev)) k =
    Z.testbit (Subsystems_mask e) k || (k =? Subsystem ev)) /\
  (100 <=? Accumulated_score (crediter e ev)) = autre_bit (Subsystems_mask e) (Subsystem ev).
Proof.
  intros Hok Hs. set (m := Subsystems_mask e). set (s := Subsystem ev) in *.
  assert (entree_ok (crediter e ev) /\ forall k, 0 <= k -> Z.testbit (Subsystems_mask (crediter e ev)) k =
    Z.testbit m k || (k =? s)) as [H1 H2].
  { unfold crediter. fold s m.
    assert (Z.land m (u32 (Z.shiftl 1 s)) =? 0 = negb (Z.testbit m s)) as ->.
    { pose proof (marque_bit m s ltac:(lia)) as Hb. unfold marque in Hb. rewrite <- Hb, negb_involutive.
      rewrite Z.shiftl_1_l, u32_id; [done|]. split; [lia|]. apply Z.pow_lt_mono_r; lia. }
    destruct (Z.testbit m s) eqn:E; simpl.
    - split; [done|]. intros k Hk. destruct (Z.eqb_spec k s) as [->|]; [by rewrite E|by rewrite orb_false_r].
    - split; [|intros k Hk; by rewrite Z.lor_spec, testbit_bit by lia].
      unfold entree_ok in *; simpl. rewrite score_credite by (done || lia). rewrite Hok. fold m.
      pose proof (nb_sous_systemes_range m). rewrite u32_id by (unfold is_u32; lia). lia. }
  split_and!; auto. unfold entree_ok in H1. rewrite H1.
  assert (autre_bit m s = autre_bit (Subsystems_mask (crediter e ev)) s) as ->.
  { unfold autre_bit. cbn [existsb]. rewrite !H2 by lia.
    repeat match goal with |- context [?k =? s] => destruct (Z.eqb_spec k s) end;
      cbn [negb andb orb]; rewrite ?orb_false_r; done. }
  rewrite <- deux_sous_systemes; [|done|rewrite H2, Z.eqb_refl by lia; apply orb_true_r].
  destruct (Z.leb_spec 100 (50 * nb_sous_systemes (Subsystems_mask (crediter e ev)))),
    (Z.leb_spec 2 (nb_sous_systemes (Subsystems_mask (crediter e ev)))); lia.
Qed.

Section correlation.
(** [Obs ev]: the event went through the correlator; [W] is the window. *)
Context (Obs : Probe_event_t -> Prop) (W : Z).

Definition entree_inv (e : C2bt_process_tracker_t) : Prop :=
  entree_ok e /\ is_u64 (Last_ts_ns e) /\
  forall s, 1 <= s <= 6 -> Z.testbit (Subsystems_mask e) s = true ->
    exists ev, Obs ev /\ Pid ev = pid_suivi e /\ hostile ev = true /\ Subsystem ev = s /\
      Last_ts_ns e <= Ts_ns ev < Last_ts_ns e + W.

Definition table_inv (t : C2bt_tracker_table_t) : Prop := zlen t = 1024 /\ Forall entree_inv t.

Definition entree_de (t : C2bt_tracker_table_t) (pid : Z) : C2bt_process_tracker_t :=
  nth (Z.to_nat (Z.land pid 1023)) t entree_zero.

(** Does the event escalate, given the table? *)
Definition escalade (t : C2bt_tracker_table_t) (ev : Probe_event_t) : bool :=
  negb (Pid ev =? 0) && hostile ev && negb (perimee (entree_de t (Pid ev)) ev W) &&
  autre_bit (Subsystems_mask (entree_de t (Pid ev))) (Subsystem ev).

Lemma entree_inv_zero : entree_inv entree_zero.
Proof. split_and!; try done. intros s _ H. by rewrite Z.testbit_0_l in H. Qed.

Lemma table_inv_init t : zlen t = 1024 -> exists t', C2bt_tracker_init (Some t) = Some t' /\ table_inv t'.
Proof.
  intros Hz. eexists. split; [done|]. split; [done|]. apply Forall_replicate, entree_inv_zero.
Qed.

Lemma entree_inv_neuve ev : is_u64 (Ts_ns ev) -> entree_inv (C2bt_tracker_reset_entry (Pid ev) (Ts_ns ev)).
Proof. intros Ht. split_and!; try done; try apply Ht. intros s _ H. simpl in H. by rewrite Z.testbit_0_l in H. Qed.

Lemma perimee_false e ev :
  entree_inv e -> is_u64 (Ts_ns ev) -> perimee e ev W = false ->
  pid_suivi e = Pid ev /\ Last_ts_ns e <= Ts_ns ev < Last_ts_ns e + W.
Proof.
  unfold perimee. intros (_ & Hl & _) Ht Hp. zbool. unfold is_u64 in *.
  rewrite u64_id in * by (unfold is_u64; lia). lia.
Qed.

Lemma entree_inv_compter e ev : entree_inv e -> entree_inv (compter e ev).
Proof. done. Qed.

Lemma entree_inv_crediter e ev :
  entree_inv e -> Obs ev -> hostile ev = true -> pid_suivi e = Pid ev ->
  Last_ts_ns e <= Ts_ns ev < Last_ts_ns e + W -> entree_inv (crediter e ev).
Proof.
  intros (Hok & Hl & Hm) Ho Hh Hp Ht. pose proof (hostile_sous_systeme ev Hh) as Hs.
  destruct (crediter_spec e ev Hok Hs) as (H1 & H2 & _).
  assert (Last_ts_ns (crediter e ev) = Last_ts_ns e /\ pid_suivi (crediter e ev) = pid_suivi e) as [E1 E2]
    by (unfold crediter; by destruct (_ =? 0)).
  split; [done|]. rewrite E1, E2. split; [done|]. intros s Hs' Hb. rewrite H2 in Hb by lia.
  apply orb_true_iff in Hb as [Hb|Hb]; [by apply Hm|]. zbool. exists ev. split_and!; auto; lia.
Qed.

Lemma wp_correler t ev f w :
  table_inv t -> is_u64 (Ts_ns ev) -> Obs ev -> 0 < W -> (if w =? 0 then 1000000000 else w) = W ->
  wp (C2bt_correlate_event (Some t) (Some ev) (Some f) w) (fun '(t', o, r) => exists t1,
    t' = Some t1 /\ table_inv t1 /\ r = 0 /\
    o = Some (if escalade t ev then Z.ldiff (Z.lor (Flags ev) 0x204) 1 else Z.ldiff (Flags ev) 0x200)).
Proof.
  intros [Hz Ht] Hts Ho HW Hw. unfold C2bt_correlate_event, escalade. rewrite Hw.
  pose proof (land_range (Pid ev) 1023 10 ltac:(lia) ltac:(lia)) as Hi. change (2 ^ 10) with 1024 in Hi.
  destruct (lookup_lt_is_Some_2 t (Z.to_nat (Z.land (Pid ev) 1023))) as [e He]; [unfold zlen in Hz; lia|].
  assert (entree_de t (Pid ev) = e) as -> by (by apply nth_lookup_Some).
  destruct (Pid ev =? 0); [wp_step; by exists t|].
  rewrite (idx_lookup _ _ _ (proj1 Hi) He), run_bind_done. cbv zeta.
  pose proof (proj1 (Forall_lookup _ _) Ht _ _ He) as Hinv.
  set (e1 := if perimee e ev W then _ else e).
  assert (entree_inv e1 /\ pid_suivi e1 = Pid ev /\ Last_ts_ns e1 <= Ts_ns ev < Last_ts_ns e1 + W /\
    Subsystems_mask e1 = if perimee e ev W then 0 else Subsystems_mask e) as (H1 & H2 & H3 & H4).
  { unfold e1. destruct (perimee e ev W) eqn:E.
    - split; [by apply entree_inv_neuve|]. simpl. split_and!; try done; lia.
    - split; [done|]. by destruct (perimee_false e ev Hinv Hts E). }
  destruct (hostile ev) eqn:Eh; simpl.
  - destruct (id H1) as (Hok1 & _).
    destruct (crediter_spec (compter e1 ev) ev Hok1 (hostile_sous_systeme ev Eh)) as (_ & _ & Hsc).
    rewrite Hsc. apply wp_bind, wp_upd; [lia|]. wp_step. eexists. split_and!; try done.
    + split; [by rewrite zlen_insert|]. apply Forall_insert; [done|]. by apply entree_inv_crediter.
    + simpl. rewrite H4. destruct (perimee e ev W); [|done].
      assert (autre_bit 0 (Subsystem ev) = false) as ->; [|done]. unfold autre_bit. cbn [existsb].
      by rewrite !Z.testbit_0_l, !andb_false_r.
  - apply wp_bind, wp_upd; [lia|]. wp_step. eexists. split_and!; try done.
    + split; [by rewrite zlen_insert|]. by apply Forall_insert.
Qed.
End correlation.

(** The tables a sequence of events can produce under one window. *)
Inductive correle (W : Z) : list Probe_event_t -> C2bt_tracker_table_t -> Prop :=
  | correle_init t t' : zlen t = 1024 -> C2bt_tracker_init (Some t) = Some t' -> correle W [] t'
  | correle_evenement h t ev f t' o r :
      correle W h t -> is_u64 (Ts_ns ev) ->
      C2bt_correlate_event (Some t) (Some ev) (Some f) W = Done (Some t', o, r) ->
      correle W (ev :: h) t'.

Lemma table_inv_mono (O1 O2 : Probe_event_t -> Prop) W t :
  (forall ev, O1 ev -> O2 ev) -> table_inv O1 W t -> table_inv O2 W t.
Proof.
  intros H [Hz Ht]. split; [done|]. eapply Forall_impl; [exact Ht|]. intros e (H1 & H2 & H3).
  split_and!; try apply H2; try done. intros s Hs Hb. destruct (H3 s Hs Hb) as (ev & ? & ?). eauto.
Qed.

Lemma correle_inv W h t : 0 < W -> correle W h t -> table_inv (fun ev => ev ∈ h) W t.
Proof.
  intros HW. induction 1 as [t t' Hz E|h t ev f t' o r _ IH Hts Hc].
  - destruct (table_inv_init (fun ev => ev ∈ []) W t Hz) as (t2 & E2 & ?). congruence.
  - pose proof (wp_correler (fun ev' => ev' ∈ ev :: h) W t ev f W) as Wp.
    rewrite Hc in Wp. destruct Wp as (t1 & [= <-] & Ht & _); try done.
    + eapply table_inv_mono; [|exact IH]. intros x Hx. apply elem_of_cons. by right.
    + apply elem_of_cons. by left.
    + destruct (Z.eqb_spec W 0); [lia|done].
Qed.

(** * Properties *)

(** The rules only add alarm bits and keep the observe bit exact: every flag
    above bit 0 survives, and bit 0 is set if and only if neither bit 1 nor bit 2
    is, so no event is both allowed and flagged. *)
Theorem regles_drapeaux ev :
  Z.testbit (Flags (evaluer_evenement ev)) 0
    = negb (Z.testbit (Flags (evaluer_evenement ev)) 1 || Z.testbit (Flags (evaluer_evenement ev)) 2) /\
  forall n, 1 <= n -> Z.testbit (Flags ev) n = true -> Z.testbit (Flags (evaluer_evenement ev)) n = true.
Proof.
  unfold evaluer_evenement; simpl. rewrite marque_6.
  destruct (Z.testbit (regles ev) 1 || Z.testbit (regles ev) 2) eqn:E; split.
  - rewrite !Z.ldiff_spec. change (Z.testbit 1 0) with true. change (Z.testbit 1 1) with false.
    change (Z.testbit 1 2) with false. cbn [negb]. by rewrite andb_false_r, !andb_true_r, E.
  - intros n Hn Hb. rewrite Z.ldiff_spec, (regles_conserve _ _ Hb).
    rewrite Z.bits_above_log2 by (simpl; lia). done.
  - rewrite !Z.lor_spec. change (Z.testbit 1 0) with true. change (Z.testbit 1 1) with false.
    change (Z.testbit 1 2) with false. by rewrite orb_true_r, !orb_false_r, E.
  - intros n Hn Hb. by rewrite Z.lor_spec, (regles_conserve _ _ Hb).
Qed.

(** The living-off-the-land rule sees through paths, leading blanks and
    arguments: a process-exec event whose payload starts with any directory,
    a slash and one of the listed binaries, followed by a separator, leaves the
    rules with bits 2 and 3 set and the observe bit cleared. *)
Theorem lolbas_chemin ts pid tid fl src blancs dir name sep suite :
  Forall (fun o => blanc o = true) blancs -> Forall (fun o => separateur o = false) dir ->
  name ∈ binaires_lolbas -> separateur sep = true -> 0 <= fl ->
  let ev := Event ts pid tid 1 1 fl src (blancs ++ dir ++ 47 :: name ++ sep :: suite) in
  let f := Flags (evaluer_evenement ev) in
  Z.testbit f 2 = true /\ Z.testbit f 3 = true /\ Z.testbit f 0 = false.
Proof.
  intros Hb Hd Hn Hs Hfl ev f.
  assert (Check_lolbas_comm (avant_nul (Payload ev)) = 1) as Hc.
  { apply (check_lolbas_chemin blancs dir name sep suite); done. }
  assert (Flags (evaluer_evenement ev) = Z.ldiff (Z.lor fl 12) 1) as Hf.
  { unfold evaluer_evenement, regles. cbn [Subsystem Action Flags ev Z.eqb Pos.eqb andb]. rewrite Hc.
    cbn [Z.eqb Pos.eqb negb]. rewrite marque_6, !Z.lor_spec. change (Z.testbit 12 2) with true.
    rewrite !orb_true_r. done. }
  unfold f. rewrite Hf, !Z.ldiff_spec, !Z.lor_spec. change (Z.testbit 12 2) with true.
  change (Z.testbit 12 3) with true. change (Z.testbit 1 0) with true. change (Z.testbit 1 2) with false.
  change (Z.testbit 1 3) with false. by rewrite !orb_true_r, !andb_false_r.
Qed.

Lemma lolbas_chemin_witness :
  let ev := Event 1 2 3 1 1 0 0 (octets "  /usr/bin" ++ 47 :: octets "curl" ++ 32 :: octets "-s http://x") in
  let f := Flags (evaluer_evenement ev) in
  Z.testbit f 2 = true /\ Z.testbit f 3 = true /\ Z.testbit f 0 = false.
Proof.
  apply (lolbas_chemin 1 2 3 0 0 (octets "  ") (octets "/usr/bin") (octets "curl") 32 (octets "-s http://x"));
    [repeat constructor|repeat constructor| |done|done].
  apply list_elem_of_fmap. exists "curl"%string. split; [done|]. apply elem_of_cons. by left.
Defined.

(** The exact verdict of the correlator. On any consistent table an event
    with a stable PID escalates (flags 0x200 and 0x4 set, observe bit cleared)
    exactly when it is hostile, its entry is live in the window and another
    subsystem has already been credited to the process; every other event only
    loses the 0x200 flag; the call never panics. *)
Theorem correlation_exacte h t ev f W :
  0 < W -> correle W h t -> is_u64 (Ts_ns ev) ->
  wp (C2bt_correlate_event (Some t) (Some ev) (Some f) W) (fun '(t', o, r) =>
    r = 0 /\ o = Some (if escalade W t ev then Z.ldiff (Z.lor (Flags ev) 0x204) 1
                       else Z.ldiff (Flags ev) 0x200)).
Proof.
  intros HW Hc Hts. eapply wp_mono.
  - apply (wp_correler (fun _ => True) W t ev f W); auto.
    + eapply table_inv_mono; [|by apply correle_inv]. done.
    + destruct (Z.eqb_spec W 0); [lia|done].
  - intros [[t' o] r] (t1 & _ & _ & -> & ->). done.
Qed.

Definition ev_processus (ts : Z) : Probe_event_t := Event ts 7 7 1 1 8 0 (replicate 96 0).
Definition ev_gpu (ts : Z) : Probe_event_t := Event ts 7 7 6 0 0x100 0 (replicate 96 0).

Lemma correlation_exacte_witness :
  wp (C2bt_correlate_event (Some (replicate 1024 entree_zero)) (Some (ev_gpu 5)) (Some 0) 1000)
    (fun '(t', o, r) => r = 0 /\ o = Some (if escalade 1000 (replicate 1024 entree_zero) (ev_gpu 5)
      then Z.ldiff (Z.lor 0x100 0x204) 1 else Z.ldiff 0x100 0x200)).
Proof.
  apply (correlation_exacte [] (replicate 1024 entree_zero) (ev_gpu 5) 0 1000); [lia| |done].
  by apply (correle_init _ (replicate 1024 entree_zero)).
Defined.

(** No escalation without two subsystems. After any sequence of events under
    one window, an event that leaves the correlator with 0x200 is hostile and
    the sequence contains a hostile event of the same process from another
    subsystem, less than the window apart. *)
Theorem escalade_fondee h t ev f W t' fl r :
  0 < W -> correle W h t -> is_u64 (Ts_ns ev) ->
  C2bt_correlate_event (Some t) (Some ev) (Some f) W = Done (t', Some fl, r) ->
  Z.testbit fl 9 = true ->
  hostile ev = true /\ exists ev', ev' ∈ h /\ hostile ev' = true /\ Pid ev' = Pid ev /\
    Subsystem ev' <> Subsystem ev /\ Z.abs (Ts_ns ev - Ts_ns ev') < W.
Proof.
  intros HW Hc Hts Hcall Hb. pose proof (correle_inv W h t HW Hc) as Hinv.
  pose proof (wp_correler (fun _ => True) W t ev f W) as Wp. rewrite Hcall in Wp.
  destruct Wp as (t1 & _ & _ & _ & E); try done.
  { by eapply table_inv_mono; [|exact Hinv]. }
  { destruct (Z.eqb_spec W 0); [lia|done]. }
  injection E as ->. destruct (escalade W t ev) eqn:Ee.
  2: { rewrite Z.ldiff_spec in Hb. change (Z.testbit 0x200 9) with true in Hb. by rewrite andb_false_r in Hb. }
  unfold escalade in Ee. apply andb_true_iff in Ee as [Ee Ha]. zbool.
  destruct Hinv as [Hz Ht].
  assert (entree_inv (fun x => x ∈ h) W (entree_de t (Pid ev))) as He.
  { unfold entree_de. pose proof (land_range (Pid ev) 1023 10 ltac:(lia) ltac:(lia)).
    destruct (lookup_lt_is_Some_2 t (Z.to_nat (Z.land (Pid ev) 1023))) as [e He]; [unfold zlen in Hz; lia|].
    rewrite (nth_lookup_Some _ _ _ _ He). exact (proj1 (Forall_lookup _ _) Ht _ _ He). }
  split; [done|]. destruct (perimee_false _ _ _ _ He Hts H0) as [Hp Hr].
  apply existsb_exists in Ha as (k & Hk & Hkb). zbool.
  destruct He as (_ & _ & Hm). destruct (Hm k) as (ev' & H1' & H2' & H3' & H4' & H5').
  { simpl in Hk. lia. }
  { done. }
  exists ev'. split_and!; auto; try congruence. lia.
Qed.

Lemma escalade_fondee_witness : exists ev', ev' ∈ [ev_processus 3] /\ hostile ev' = true /\
  Subsystem ev' <> Subsystem (ev_gpu 5).
Proof.
  destruct (escalade_fondee [ev_processus 3]
    (match C2bt_correlate_event (Some (replicate 1024 entree_zero)) (Some (ev_processus 3)) (Some 0) 1000 with
     | Done (Some t, _, _) => t | _ => [] end) (ev_gpu 5) 0 1000
    (match C2bt_correlate_event (match C2bt_correlate_event (Some (replicate 1024 entree_zero))
       (Some (ev_processus 3)) (Some 0) 1000 with Done (t, _, _) => t | _ => None end)
       (Some (ev_gpu 5)) (Some 0) 1000 with Done (t, _, _) => t | _ => None end) 0x304 0)
    as (_ & ev' & H1 & H2 & _ & H3 & _).
  - lia.
  - eapply (correle_evenement _ [] (replicate 1024 entree_zero) (ev_processus 3) 0);
      [by apply (correle_init _ (replicate 1024 entree_zero))|done|vm_compute; reflexivity].
  - done.
  - vm_compute. reflexivity.
  - done.
  - by exists ev'.
Defined.

(** * Polling *)

(** The heads of the non-empty queues, in channel order, and what is left. *)
Definition tetes (qs : list (list Probe_event_t)) : list Probe_event_t := omap head qs.
Definition restes (qs : list (list Probe_event_t)) : list (list Probe_event_t) := tail <$> qs.
(** [n] fair rounds. *)
Fixpoint tournee (n : nat) (qs : list (list Probe_event_t)) : list Probe_event_t :=
  match n with O => [] | S n => tetes qs ++ tournee n (restes qs) end.

Definition canaux_tiennent (chs : list Probe_channel_t) (qs : list (list Probe_event_t)) : Prop :=
  Forall2 tient chs qs.

(** What has been read so far and what the channels still hold, after [i] of the
    four channels of a round that started with [evs0] and [qs]. *)
Definition tour_inv (qs : list (list Probe_event_t)) (evs0 out0 : list Probe_event_t) (max : Z)
    (i : Z) (s : list Probe_channel_t * list Probe_event_t * Z) : Prop :=
  let '(chs, out, n) := s in
  exists qs' evs, canaux_tiennent chs qs' /\ length qs' = 4%nat /\
    evs = take (Z.to_nat max) (evs0 ++ tetes (take (Z.to_nat i) qs)) /\
    n = zlen evs /\ out = evs ++ drop (length evs) out0 /\
    (n < max -> qs' = restes (take (Z.to_nat i) qs) ++ drop (Z.to_nat i) qs).

Lemma take_app_plein {A} n (l k1 k2 : list A) :
  (n <= length (take n (l ++ k1)))%nat -> take n (l ++ k1 ++ k2) = take n (l ++ k1).
Proof. rewrite length_take. intros H. rewrite app_assoc. apply take_app_le. lia. Qed.

Lemma tour_pas qs evs0 out0 max i chs out n :
  length qs = 4%nat -> 0 <= i < 4 -> 0 <= max <= zlen out0 ->
  tour_inv qs evs0 out0 max i (chs, out, n) ->
  wp (if n <? max then
        ch ← idx chs i;
        case ← idx out n;
        '(ch, ev, r) ← C2bt_channel_read (Some ch) (Some case);
        chs ← upd chs i (default channel_zero ch);
        out ← upd out n (default case ev);
        Done (inl (chs, out, if r =? 1 then n + 1 else n))
      else Done (inl (B := list Probe_channel_t * list Probe_event_t * Z) (chs, out, n)))
    (fun o => match o with inl s => tour_inv qs evs0 out0 max (i + 1) s | inr _ => False end).
Proof.
  intros Hq Hi Hmax (qs' & evs & Hc & Hl & Hevs & Hn & Hout & Hqs).
  destruct (lookup_lt_is_Some_2 qs (Z.to_nat i)) as [q Hqi]; [lia|].
  assert (take (Z.to_nat (i + 1)) qs = take (Z.to_nat i) qs ++ [q]) as Hs
    by (replace (Z.to_nat (i + 1)) with (S (Z.to_nat i)) by lia; by apply take_S_r).
  pose proof (drop_S _ _ _ Hqi) as Hd. replace (S (Z.to_nat i)) with (Z.to_nat (i + 1)) in Hd by lia.
  wp_step.
  - specialize (Hqs ltac:(done)).
    assert (length (restes (take (Z.to_nat i) qs)) = Z.to_nat i) as Hri
      by (unfold restes; rewrite length_fmap, length_take; lia).
    assert (qs' !! Z.to_nat i = Some q) as Hq'i.
    { rewrite Hqs, lookup_app_r, Hri, Nat.sub_diag by lia. by rewrite Hd. }
    destruct (Forall2_lookup_r _ _ _ _ _ Hc Hq'i) as (ch & Hch & Hct).
    rewrite (idx_lookup _ _ _ (proj1 Hi) Hch), run_bind_done.
    assert (zlen evs < zlen out0) as Hlt by lia.
    destruct (lookup_lt_is_Some_2 out0 (length evs)) as [x Hx]; [unfold zlen in *; lia|].
    rewrite Hout, (drop_S _ _ _ Hx), idx_mid, run_bind_done by done.
    apply wp_bind. eapply wp_mono; [by apply read_spec|]. intros [[ch' ev'] r] (c & -> & Ht & -> & -> & _).
    apply wp_bind, wp_upd; [unfold canaux_tiennent in Hc; apply Forall2_length in Hc; unfold zlen; lia|].
    cbn [default from_option]. rewrite upd_mid, run_bind_done by done. wp_step.
    assert (canaux_tiennent (<[Z.to_nat i := c]> chs) (<[Z.to_nat i := fst (fst (lire q x))]> qs')) as Hc'
      by (by apply Forall2_insert).
    assert (evs = evs0 ++ tetes (take (Z.to_nat i) qs)) as Hevs'.
    { rewrite Hevs. apply take_ge. assert (length evs < Z.to_nat max)%nat as Hm by (unfold zlen in *; lia).
      rewrite Hevs, length_take in Hm. lia. }
    assert (length (restes (take (Z.to_nat i) qs ++ [q])) = S (Z.to_nat i)) as Hri'
      by (unfold restes; rewrite length_fmap, length_app, length_take; simpl; lia).
    exists (<[Z.to_nat i := fst (fst (lire q x))]> qs'), (evs ++ tetes [q]).
    assert (<[Z.to_nat i := fst (fst (lire q x))]> qs' = restes (take (Z.to_nat i) qs ++ [q]) ++ drop (Z.to_nat (i + 1)) qs) as Eqs.
    { rewrite Hqs, Hd. unfold restes in *. rewrite fmap_app. rewrite <- app_assoc.
      rewrite insert_app_r_alt by lia. rewrite Hri, Nat.sub_diag. simpl. by destruct q. }
    split; [done|]. split; [by rewrite length_insert|]. rewrite Hs. unfold tetes at 2. rewrite omap_app. fold (tetes [q]).
    split; [|split; [|split]].
    + rewrite app_assoc. unfold tetes in Hevs'. rewrite <- Hevs'. symmetry. apply take_ge. rewrite length_app.
      assert (length (tetes [q]) <= 1)%nat by (by destruct q; simpl; lia). unfold zlen in *. lia.
    + destruct q as [|e q]; simpl; rewrite zlen_app; [rewrite zlen_nil; lia|rewrite zlen_cons, zlen_nil; lia].
    + rewrite length_app. destruct q as [|e q]; simpl.
      * by rewrite app_nil_r, Nat.add_0_r, (drop_S _ _ _ Hx).
      * rewrite <- app_assoc. simpl. by replace (length evs + 1)%nat with (S (length evs)) by lia.
    + intros _. exact Eqs.
  - wp_step. exists qs', evs. rewrite Hs. unfold tetes. rewrite omap_app. fold (tetes (take (Z.to_nat i) qs)).
    assert (length evs <= Z.to_nat max)%nat by (rewrite Hevs, length_take; lia).
    split_and!; try done; try lia.
    rewrite take_app_plein; [done|]. rewrite <- Hevs. unfold zlen in *. lia.
Qed.

Lemma wp_tour qs evs0 out0 max chs :
  length qs = 4%nat -> 0 <= max <= zlen out0 -> zlen evs0 <= max -> canaux_tiennent chs qs ->
  wp (tour max (chs, evs0 ++ drop (length evs0) out0, zlen evs0)) (fun '(chs', out, n) =>
    exists qs' evs, canaux_tiennent chs' qs' /\ length qs' = 4%nat /\
      evs = take (Z.to_nat max) (evs0 ++ tetes qs) /\ n = zlen evs /\
      out = evs ++ drop (length evs) out0 /\ (n < max -> qs' = restes qs)).
Proof.
  intros Hq Hmax Hn Hc. unfold tour. apply wp_bind.
  apply (wp_for_range (tour_inv qs evs0 out0 max)); [lia| | |].
  - exists qs, evs0. rewrite take_0, drop_0. simpl. rewrite app_nil_r.
    split_and!; try done. symmetry. apply take_ge. unfold zlen in Hn. lia.
  - intros i [[ch out] n] Hi HI. eapply wp_mono; [by apply (tour_pas qs evs0 out0)|]. by intros [s|r].
  - intros [[ch out] n] (qs' & evs & H1 & H2 & H3 & H4 & H5 & H6). wp_step.
    change (Z.to_nat 4) with 4%nat in *. rewrite (take_ge qs) in H3, H6 by lia. rewrite (drop_ge qs), app_nil_r in H6 by lia.
    exists qs', evs. by split_and!.
Qed.

Lemma tetes_nil qs : tetes qs = [] -> Forall (fun q => q = []) qs.
Proof.
  induction qs as [|[|e q] qs IH]; simpl; intros H; [constructor|constructor; auto|done].
Qed.

Lemma tournee_vide n qs : Forall (fun q => q = []) qs -> tournee n qs = [].
Proof.
  revert qs. induction n as [|n IH]; intros qs H; [done|]. simpl.
  assert (tetes qs = [] /\ Forall (fun q => q = []) (restes qs)) as [-> H'].
  { split.
    - induction H as [|q qs -> _ IHq]; [done|]. exact IHq.
    - induction H as [|q qs -> _ IHq]; [constructor|]. by constructor. }
  by rewrite IH.
Qed.


Lemma tournee_add n m qs : tournee (n + m) qs = tournee n qs ++ tournee m (Nat.iter n restes qs).
Proof.
  revert qs. induction n as [|n IH]; intros qs; [done|]. simpl. rewrite IH, <- app_assoc.
  by rewrite <- Nat.iter_succ_r.
Qed.

Lemma tournee_succ n qs : tournee (S n) qs = tournee n qs ++ tetes (Nat.iter n restes qs).
Proof. rewrite <- Nat.add_1_r, tournee_add. simpl. by rewrite app_nil_r. Qed.

(** After [k] rounds. *)
Definition rondes (qs : list (list Probe_event_t)) (out0 : list Probe_event_t) (max : Z) (k : nat)
    (s : list Probe_channel_t * list Probe_event_t * Z) : Prop :=
  let '(chs, out, n) := s in
  exists qs1 evs, canaux_tiennent chs qs1 /\ length qs1 = 4%nat /\
    evs = take (Z.to_nat max) (tournee k qs) /\ n = zlen evs /\
    out = evs ++ drop (length evs) out0 /\ (n < max -> qs1 = Nat.iter k restes qs).

Lemma rondes_tour qs out0 max k chs out n :
  0 <= max <= zlen out0 -> n < max -> rondes qs out0 max k (chs, out, n) ->
  wp (tour max (chs, out, n)) (fun s => rondes qs out0 max (S k) s /\ n <= s.2 <= max /\
    (s.2 = n -> tetes (Nat.iter k restes qs) = [])).
Proof.
  intros Hmax Hn (qs1 & evs & Hc & Hl & Hevs & Hz & -> & Hqs). specialize (Hqs Hn). subst qs1.
  assert (evs = tournee k qs) as Hevs'.
  { rewrite Hevs. apply take_ge. unfold zlen in Hz. rewrite Hevs, length_take in Hz. lia. }
  subst n. eapply wp_mono; [apply (wp_tour (Nat.iter k restes qs) evs out0 max); (done || lia)|].
  intros [[chs' out] n] (qs' & evs' & H1 & H2 & H3 & H4 & H5 & H6). cbn [snd].
  assert (length evs <= length evs' <= Z.to_nat max)%nat as Hle.
  { rewrite H3, length_take, length_app. unfold zlen in *. lia. }
  split; [|split; [unfold zlen in *; lia|]].
  - exists qs', evs'. rewrite tournee_succ, <- Hevs'. split_and!; try done.
  - intros E. assert (length evs' = length evs) as El by (unfold zlen in *; lia).
    rewrite H3, length_take, length_app in El. apply nil_length_inv. unfold zlen in *. lia.
Qed.

(** The loop reads the first [max] events of the fair rounds. *)
Lemma wp_vidanger max out0 chs qs :
  length qs = 4%nat -> 0 <= max <= zlen out0 -> canaux_tiennent chs qs ->
  wp (vidanger max (chs, out0, 0)) (fun '(chs', out, n) =>
    exists qs' evs, canaux_tiennent chs' qs' /\ n = zlen evs /\
      evs = take (Z.to_nat max) (tournee (Z.to_nat max) qs) /\ out = evs ++ drop (length evs) out0 /\
      (n < max -> Forall (fun q => q = []) qs')).
Proof.
  intros Hq Hmax Hc. unfold vidanger.
  apply (wp_loop _ (fun s => exists k, rondes qs out0 max k s /\ Z.of_nat k <= s.2 <= max) (fun s => max - s.2)).
  2: { exists 0%nat. split; [|simpl; lia]. exists qs, []. cbn [tournee]; rewrite take_nil. by split_and!. }
  2: { simpl. lia. }
  intros [[chs1 out1] n1] (k & HI & Hk). simpl in Hk.
  assert (forall qs' evs, evs = take (Z.to_nat max) (tournee k qs) ->
    zlen evs = max \/ tetes (Nat.iter k restes qs) = [] -> zlen evs = qs' ->
    take (Z.to_nat max) (tournee (Z.to_nat max) qs) = evs) as Hfin.
  { intros _ evs -> Hor _. replace (Z.to_nat max) with (k + (Z.to_nat max - k))%nat at 2 by lia.
    rewrite tournee_add. destruct Hor as [Hz|Ht].
    - apply take_app_le. unfold zlen in Hz. rewrite length_take in Hz. lia.
    - rewrite (tournee_vide _ (Nat.iter k restes qs)) by (by apply tetes_nil). by rewrite app_nil_r. }
  wp_step.
  - apply wp_bind. eapply wp_mono; [by apply (rondes_tour qs out0 max k)|].
    intros [[chs2 out2] n2] (HI2 & Hn2 & Ht). cbn [snd] in *. wp_step; wp_step.
    + subst n2. specialize (Ht eq_refl).
      destruct HI2 as (qs' & evs & H1 & H2 & H3 & H4 & H5 & H6). exists qs', evs.
      rewrite tournee_succ, Ht, app_nil_r in H3. split_and!; try done.
      * symmetry. by apply (Hfin n1); [|right|].
      * intros Hlt. rewrite (H6 Hlt). apply tetes_nil in Ht. simpl.
        clear -Ht. induction Ht as [|q l -> _ IH]; [constructor|]. by constructor.
    + cbn [snd] in *. split; [|lia]. exists (S k). split; [done|]. lia.
  - wp_step. destruct HI as (qs' & evs & H1 & H2 & H3 & H4 & H5 & H6). exists qs', evs.
    split_and!; try done; [|lia]. symmetry. apply (Hfin n1); [done|left; lia|done].
Qed.

Lemma tournee_Forall (P : Probe_event_t -> Prop) n qs : Forall (Forall P) qs -> Forall P (tournee n qs).
Proof.
  revert qs. induction n as [|n IH]; intros qs H; [constructor|]. simpl. apply Forall_app. split.
  - induction H as [|q qs Hq _ IHq]; [constructor|]. destruct q as [|e q]; [exact IHq|].
    apply Forall_cons_iff in Hq as [He _]. by constructor.
  - apply IH. induction H as [|q qs Hq _ IHq]; [constructor|]. constructor; [|done].
    destruct q as [|e q]; [done|]. by apply Forall_cons_iff in Hq as [_ Hq].
Qed.

Definition fenetre_poll : Z := 1000000000.

(** The correlation pass over the polled events. *)
Definition correles (evs sortis : list Probe_event_t) : Prop :=
  Forall2 (fun ev s => exists f, s = avec_flags ev f) evs sortis.

Lemma wp_correler_lot h t evs reste :
  correle fenetre_poll h t -> Forall (fun ev => is_u64 (Ts_ns ev)) evs ->
  wp (for_range (zlen evs) (t, evs ++ reste) (fun i '(t, out) =>
        ev ← idx out i;
        '(t', flags, _) ← C2bt_correlate_event (Some t) (Some ev) (Some 0) 1000000000;
        out ← upd out i (avec_flags ev (default 0 flags));
        Done (inl (B := C2bt_tracker_table_t * list Probe_event_t) (default t t', out))))
    (fun o => match o with
      | inl (t', out) => correle fenetre_poll (rev evs ++ h) t' /\
          exists sortis, out = sortis ++ reste /\ correles evs sortis
      | inr _ => False end).
Proof.
  intros Hc Hts.
  apply (wp_for_range (fun i '(t', out) => correle fenetre_poll (rev (take (Z.to_nat i) evs) ++ h) t' /\
    exists sortis, out = sortis ++ drop (Z.to_nat i) evs ++ reste /\ correles (take (Z.to_nat i) evs) sortis)).
  - apply zlen_nonneg.
  - rewrite take_0. split; [done|]. exists []. split; [done|constructor].
  - intros i [t1 out] Hi (Hc1 & sortis & -> & Hs).
    destruct (lookup_lt_is_Some_2 evs (Z.to_nat i)) as [ev Hev]; [unfold zlen in *; lia|].
    assert (i = zlen sortis) as Hz.
    { apply Forall2_length in Hs. rewrite length_take in Hs. unfold zlen in *. lia. }
    rewrite (drop_S _ _ _ Hev), <- app_comm_cons, idx_mid, run_bind_done by done.
    pose proof (proj1 (Forall_lookup _ _) Hts _ _ Hev) as Hev64.
    pose proof (wp_correler (fun _ => True) fenetre_poll t1 ev 0 fenetre_poll) as W.
    destruct (C2bt_correlate_event (Some t1) (Some ev) (Some 0) fenetre_poll) as [[[t2 o] r]| |] eqn:E;
      [|exfalso; apply W; try done; (eapply table_inv_mono; [|by eapply correle_inv]; done)..].
    destruct W as (t3 & -> & _ & _ & ->); try done.
    { eapply table_inv_mono; [|by eapply correle_inv]. done. }
    change 1000000000 with fenetre_poll. rewrite E, run_bind_done, upd_mid, run_bind_done by done.
    wp_step. replace (Z.to_nat (i + 1)) with (S (Z.to_nat i)) by lia.
    rewrite (take_S_r _ _ _ Hev), rev_app_distr. split.
    + simpl. by eapply correle_evenement.
    + eexists (sortis ++ [_]). rewrite <- app_assoc. split; [done|].
      apply Forall2_app; [done|]. constructor; [by eexists|constructor].
  - intros [t' out] H. rewrite take_ge, drop_ge in H by (unfold zlen; lia). done.
Qed.

(** One poll of a running context reads, copies and correlates exactly the
    first [min maxEvents (len out)] events of the fair rounds over the four
    channels (one event of each non-empty channel per round, in channel order),
    stops early only when every channel is empty, leaves the rest of the buffer
    and the order of every channel untouched, changes nothing but the flags of
    the events after the rules, and never loops nor panics. *)
Theorem poll_batch_equitable c qs h out maxEvents :
  Running c <> 0 -> length qs = 4%nat -> canaux_tiennent (canaux c) qs -> 0 <= maxEvents ->
  correle fenetre_poll h (Tracker_table c) -> Forall (Forall (fun ev => is_u64 (Ts_ns ev))) qs ->
  let m := Z.to_nat (Z.min maxEvents (zlen out)) in
  let evs := take m (tournee m qs) in
  wp (C2bt_poll_batch (Some c) out maxEvents) (fun '(c', out', n) => exists c1 qs' sortis,
    c' = Some c1 /\ n = zlen evs /\ canaux_tiennent (canaux c1) qs' /\
    (n < Z.min maxEvents (zlen out) -> Forall (fun q => q = []) qs') /\
    out' = sortis ++ drop (length evs) out /\ correles (evaluer_evenement <$> evs) sortis /\
    correle fenetre_poll (rev (evaluer_evenement <$> evs) ++ h) (Tracker_table c1)).
Proof.
  intros Hrun Hq Hc Hmax Hcor Hts m evs. unfold C2bt_poll_batch.
  rewrite (proj2 (Z.eqb_neq _ _) Hrun). pose proof (zlen_nonneg out).
  apply wp_bind. eapply wp_mono; [apply (wp_vidanger _ out (canaux c) qs); auto; lia|].
  intros [[chs out1] n] (qs' & evs1 & H1 & -> & Hevs & -> & H2).
  assert (evs1 = evs) as -> by done. clear Hevs.
  rewrite eval_rules_en_place_spec by (rewrite zlen_app; pose proof (zlen_nonneg evs);
    pose proof (zlen_nonneg (drop (length evs) out)); lia).
  assert (Z.to_nat (zlen evs) = length evs) as El by (unfold zlen; lia).
  rewrite run_bind_done, El, take_app_length, drop_app_length.
  assert (zlen evs = zlen (evaluer_evenement <$> evs)) as Hz by (unfold zlen; by rewrite length_fmap).
  apply wp_bind. rewrite Hz at 1. eapply wp_mono.
  - apply wp_correler_lot; [done|]. apply Forall_fmap. unfold evs. apply Forall_take.
    by apply (tournee_Forall (fun ev => is_u64 (Ts_ns ev))).
  - intros [[t' out2]|]; [|done]. intros (Hc' & sortis & -> & Hs). wp_step.
    eexists _, qs', sortis. split_and!; try done.
Qed.

Definition canal_un (ev : Probe_event_t) : Probe_channel_t :=
  Channel (<[0%nat := ev]> (replicate 1024 event_zero)) 1 0 0.

Lemma canal_un_tient ev : tient (canal_un ev) [ev].
Proof.
  apply (tient_ecrit channel_zero [] ev); [|done..]. split_and!; try done; simpl; lia.
Qed.

Definition contexte_exemple : C2bt_ctx_t :=
  Ctx config_zero (canal_un <$> [ev_processus 1; ev_processus 2; ev_gpu 3; ev_gpu 4])
    (replicate 1024 entree_zero) 1.

Lemma poll_batch_equitable_witness :
  wp (C2bt_poll_batch (Some contexte_exemple) (replicate 3 event_zero) 5) (fun '(_, _, n) => n = 3).
Proof.
  eapply wp_mono.
  - apply (poll_batch_equitable contexte_exemple [[ev_processus 1]; [ev_processus 2]; [ev_gpu 3]; [ev_gpu 4]] []).
    + done.
    + done.
    + repeat (constructor; [apply canal_un_tient|]). constructor.
    + lia.
    + by apply (correle_init _ (replicate 1024 entree_zero)).
    + repeat constructor; by vm_compute.
  - intros [[c' out'] n] (c1 & qs' & sortis & _ & -> & _). by vm_compute.
Defined.
