(* ===== verification/Ontology.v ===== *)
(** The 4-axis ontology (src/internal/engine/ontology_table.go): the 20-bit key,
    the axioms A1-A9 and B1, the derivation of the context from system facts and
    the textual diagnostic.  The theorems: packing round trips, the exact set of
    allowed keys, the denials no argument can escape, and the substring search
    used by the derivation. *)
From S2P Require Import Prelude.

Definition SubjUnknown : Z := 0.
Definition SubjRootSystemd : Z := 1.
Definition SubjRootInteractive : Z := 2.
Definition SubjUserInteractive : Z := 3.
Definition SubjServiceUnpriv : Z := 4.
Definition SubjContainerK8s : Z := 5.
Definition SubjMemfdAnon : Z := 6.
Definition SubjDeletedBinary : Z := 7.
Definition SubjKernelWorker : Z := 8.

Definition ActUnknown : Z := 0.
Definition ActExecve : Z := 1.
Definition ActMemfdCreate : Z := 2.
Definition ActMprotectWX : Z := 3.
Definition ActConnectNet : Z := 4.
Definition ActWriteFile : Z := 5.
Definition ActUnlinkFile : Z := 6.
Definition ActSetxattr : Z := 7.
Definition ActPrctlMasq : Z := 8.
Definition ActDnsTunnel : Z := 9.

Definition TgtUnknown : Z := 0.
Definition TgtFIMEtc : Z := 1.
Definition TgtFIMSsh : Z := 2.
Definition TgtTmpExec : Z := 3.
Definition TgtProcSelf : Z := 4.
Definition TgtNetExternal : Z := 5.
Definition TgtBinSystem : Z := 6.
Definition TgtPipeInterpreter : Z := 7.

Definition CtxDefault : Z := 0.
Definition CtxBootInit : Z := 1.
Definition CtxSystemdUnit : Z := 2.
Definition CtxInteractiveTTY : Z := 3.
Definition CtxCronBatch : Z := 4.
Definition CtxHighEntropy : Z := 5.
Definition CtxNetworkBurst : Z := 6.
Definition CtxMemfdSpoof : Z := 7.
Definition CtxDeletedExe : Z := 8.
Definition CtxAnonWX : Z := 9.
Definition CtxTmpResidence : Z := 10.
Definition CtxKworkerSpoof : Z := 11.

Definition OntoVerdictUnknown : Z := 0.
Definition OntoVerdictAllow : Z := 1.
Definition OntoVerdictDeny : Z := 2.
Definition OntoVerdictAmbiguous : Z := 3.

Definition PackOntoKey (subject action target context : Z) : Z :=
  Z.lor (Z.lor (Z.lor (Z.land subject 0x3F) (Z.shiftl (Z.land action 0x1F) 6))
           (Z.shiftl (Z.land target 0x1F) 11)) (Z.shiftl (Z.land context 0x0F) 16).

Definition Unpack (k : Z) : Z * Z * Z * Z :=
  (Z.land k 0x3F, Z.land (Z.shiftr k 6) 0x1F, Z.land (Z.shiftr k 11) 0x1F, Z.land (Z.shiftr k 16) 0x0F).

Definition EvaluateOntology (k : Z) : Z :=
  let '(subj, act, tgt, ctx) := Unpack k in
  if ((tgt =? TgtFIMEtc) || (tgt =? TgtFIMSsh)) &&
     ((act =? ActWriteFile) || (act =? ActUnlinkFile) || (act =? ActSetxattr))
  then if (subj =? SubjRootSystemd) && (ctx =? CtxSystemdUnit) then OntoVerdictAllow else OntoVerdictDeny
  else if ((subj =? SubjMemfdAnon) || (subj =? SubjDeletedBinary)) &&
          ((act =? ActExecve) || (act =? ActConnectNet) || (act =? ActMprotectWX)) then OntoVerdictDeny
  else if ((act =? ActMemfdCreate) || (act =? ActMprotectWX)) &&
          ((subj =? SubjServiceUnpriv) || (subj =? SubjContainerK8s)) then OntoVerdictDeny
  else if (act =? ActPrctlMasq) && negb (subj =? SubjKernelWorker) then OntoVerdictDeny
  else if (tgt =? TgtTmpExec) && (act =? ActExecve) &&
          ((subj =? SubjServiceUnpriv) || (ctx =? CtxSystemdUnit)) then OntoVerdictDeny
  else if (tgt =? TgtPipeInterpreter) && (act =? ActExecve) then OntoVerdictDeny
  else if (act =? ActDnsTunnel) && (ctx =? CtxHighEntropy) && (tgt =? TgtNetExternal) then OntoVerdictDeny
  else if (ctx =? CtxKworkerSpoof) || (ctx =? CtxMemfdSpoof) || (ctx =? CtxDeletedExe) || (ctx =? CtxAnonWX)
  then OntoVerdictDeny
  else if (ctx =? CtxTmpResidence) && ((act =? ActExecve) || (act =? ActConnectNet)) then OntoVerdictDeny
  else if (subj =? SubjRootSystemd) && (ctx =? CtxSystemdUnit) && (act =? ActExecve) && (tgt =? TgtBinSystem)
  then OntoVerdictAllow
  else if ((subj =? SubjUserInteractive) || (subj =? SubjRootInteractive)) && (ctx =? CtxInteractiveTTY) &&
          (act =? ActExecve) && (tgt =? TgtBinSystem) then OntoVerdictAllow
  else OntoVerdictAmbiguous.

Definition isKworker (comm : list Z) : bool :=
  (7 <=? zlen comm) && egaux (take 7 comm) (octets "kworker").

Definition indexOfStr (b s : list Z) : run Z :=
  let n := zlen s in
  if n =? 0 then Done 0 else
  if zlen b <? n then Done (-1) else
  o ← for_range (zlen b - n + 1) tt (fun i _ =>
        m ← for_range n tt (fun j _ =>
              x ← idx b (i + j); y ← idx s j;
              if negb (x =? y) then Done (inr tt) else Done (inl tt));
        match m with inl _ => Done (inr i) | inr _ => Done (inl tt) end);
  Done (match o with inl _ => -1 | inr i => i end).

Definition DeriveOntoContext (exeTarget : list Z) (isMemfd isDeleted hasWXAnon : bool) (comm : list Z)
    (pid : Z) : run Z :=
  if isKworker comm && ((2 <? pid) || (0 <? zlen exeTarget)) then Done CtxKworkerSpoof else
  m ← (if isMemfd then Done true else i ← indexOfStr exeTarget (octets "/memfd:"); Done (0 <=? i));
  if (m : bool) then Done CtxMemfdSpoof else
  d ← (if isDeleted then Done true else i ← indexOfStr exeTarget (octets "(deleted)"); Done (0 <=? i));
  if (d : bool) then Done CtxDeletedExe else
  if hasWXAnon then Done CtxAnonWX else
  a ← indexOfStr exeTarget (octets "/tmp/");
  t ← (if 0 <=? a then Done true else
       b ← indexOfStr exeTarget (octets "/var/tmp/");
       if 0 <=? b then Done true else c ← indexOfStr exeTarget (octets "/dev/shm/"); Done (0 <=? c));
  Done (if (t : bool) then CtxTmpResidence else CtxDefault).

(** The [switch] statements of [OntoDiagnostic]. *)
Definition choisir_texte (defaut : string) (cas : list (Z * string)) (v : Z) : string :=
  match find (fun c => fst c =? v) cas with Some (_, s) => s | None => defaut end.

Definition OntoDiagnostic (k : Z) : string :=
  let '(subj, act, tgt, ctx) := Unpack k in
  let v := EvaluateOntology k in
  let subjStr := choisir_texte "Inconnu"
    [(SubjRootSystemd, "RootSystemd"); (SubjRootInteractive, "RootInteractif");
     (SubjUserInteractive, "UserInteractif"); (SubjServiceUnpriv, "ServiceNonPrivilege");
     (SubjContainerK8s, "ConteneurK8s"); (SubjMemfdAnon, "MemfdAnonyme");
     (SubjDeletedBinary, "BinaireSupprime"); (SubjKernelWorker, "KernelWorker")]%string subj in
  let actStr := choisir_texte "Inconnue"
    [(ActExecve, "Execve"); (ActMemfdCreate, "MemfdCreate"); (ActMprotectWX, "MprotectWX");
     (ActConnectNet, "ConnectNet"); (ActWriteFile, "WriteFile"); (ActUnlinkFile, "UnlinkFile");
     (ActSetxattr, "Setxattr"); (ActPrctlMasq, "PrctlMasquerade"); (ActDnsTunnel, "DnsTunnel")]%string act in
  let tgtStr := choisir_texte "Inconnue"
    [(TgtFIMEtc, "FIM:/etc"); (TgtFIMSsh, "FIM:~/.ssh"); (TgtTmpExec, "TmpExec:/tmp");
     (TgtProcSelf, "ProcSelf:/proc"); (TgtNetExternal, "ReseauExterne"); (TgtBinSystem, "BinairesSysteme");
     (TgtPipeInterpreter, "PipeInterpreteur")]%string tgt in
  let ctxStr := choisir_texte "Defaut"
    [(CtxBootInit, "BootInit"); (CtxSystemdUnit, "SystemdUnit"); (CtxInteractiveTTY, "InteractiveTTY");
     (CtxCronBatch, "CronBatch"); (CtxHighEntropy, "HighEntropy"); (CtxNetworkBurst, "NetworkBurst");
     (CtxMemfdSpoof, "MemfdSpoof"); (CtxDeletedExe, "DeletedExe"); (CtxAnonWX, "AnonWX");
     (CtxTmpResidence, "TmpResidence"); (CtxKworkerSpoof, "KworkerSpoof")]%string ctx in
  let vStr := (if (v =? OntoVerdictAllow)%Z then "CONFORME"
               else if (v =? OntoVerdictDeny)%Z then "VIOLATION" else "AMBIGU")%string in
  ("[Onto4x:" +:+ vStr +:+ "] Sujet=" +:+ subjStr +:+ " Action=" +:+ actStr +:+ " Cible=" +:+ tgtStr +:+
   " Contexte=" +:+ ctxStr)%string.

(** * The key *)

#[local] Arguments Z.testbit : simpl never.
#[local] Arguments Z.land : simpl never.
#[local] Arguments Z.lor : simpl never.
#[local] Arguments Z.shiftl : simpl never.
#[local] Arguments Z.shiftr : simpl never.

(** The bits of a mask. *)
Lemma testbit_mask z m w n : 0 <= w -> m = Z.ones w -> 0 <= n ->
  Z.testbit (Z.land z m) n = (n <? w) && Z.testbit z n.
Proof.
  intros Hw -> Hn. rewrite Z.land_spec, Z.testbit_ones_nonneg by lia. apply andb_comm.
Qed.

(** Equality of two masked words, bit by bit. *)
Ltac bits_egaux :=
  apply Z.bits_inj'; let n := fresh "n" in let Hn := fresh "Hn" in intros n Hn;
  rewrite ?(testbit_mask _ 0x3F 6), ?(testbit_mask _ 0x1F 5), ?(testbit_mask _ 0x0F 4) by (done || lia);
  rewrite ?Z.shiftr_spec, ?Z.lor_spec, ?Z.shiftl_spec by lia;
  rewrite ?Z.lor_spec, ?Z.shiftl_spec by lia;
  repeat match goal with
  | |- context [Z.testbit (Z.land ?z 0x3F) ?k] =>
      destruct (Z.ltb_spec k 0); [rewrite (Z.testbit_neg_r (Z.land z 0x3F) k) by done
                                 |rewrite (testbit_mask z 0x3F 6 k) by (done || lia)]
  | |- context [Z.testbit (Z.land ?z 0x1F) ?k] =>
      destruct (Z.ltb_spec k 0); [rewrite (Z.testbit_neg_r (Z.land z 0x1F) k) by done
                                 |rewrite (testbit_mask z 0x1F 5 k) by (done || lia)]
  | |- context [Z.testbit (Z.land ?z 0x0F) ?k] =>
      destruct (Z.ltb_spec k 0); [rewrite (Z.testbit_neg_r (Z.land z 0x0F) k) by done
                                 |rewrite (testbit_mask z 0x0F 4 k) by (done || lia)]
  end;
  repeat match goal with |- context [?a <? ?b] => destruct (Z.ltb_spec a b); try lia end;
  cbn [andb orb]; rewrite ?orb_false_r, ?orb_false_l; try done; try (f_equal; lia).

Lemma Unpack_Pack s a t c :
  Unpack (PackOntoKey s a t c) = (Z.land s 0x3F, Z.land a 0x1F, Z.land t 0x1F, Z.land c 0x0F).
Proof. unfold Unpack, PackOntoKey. apply pair_eq; split; [apply pair_eq; split; [apply pair_eq; split|]|]; bits_egaux. Qed.

Lemma Pack_Unpack k : 0 <= k < 2 ^ 20 ->
  (let '(s, a, t, c) := Unpack k in PackOntoKey s a t c) = k.
Proof.
  intros Hk. unfold Unpack, PackOntoKey. apply Z.bits_inj'. intros n Hn.
  assert (20 <= n -> Z.testbit k n = false) as Hhaut.
  { intros H. apply (Z.bits_above_log2); [lia|]. destruct (decide (k = 0)) as [-> |]; [simpl; lia|].
    apply Z.log2_lt_pow2; [lia|]. apply Z.lt_le_trans with (2 ^ 20); [lia|]. apply Z.pow_le_mono_r; lia. }
  rewrite !Z.lor_spec, !Z.shiftl_spec by lia.
  assert (forall z m w i, 0 <= w -> m = Z.ones w ->
    Z.testbit (Z.land z m) i = (0 <=? i) && (i <? w) && Z.testbit z i) as Hm.
  { intros z m w i Hw Em. destruct (Z.leb_spec 0 i); [by rewrite (testbit_mask z m w)|by rewrite Z.testbit_neg_r]. }
  rewrite !(Hm _ 0x3F 6), !(Hm _ 0x1F 5), !(Hm _ 0x0F 4) by (done || lia).
  assert (forall i j, Z.testbit (Z.shiftr k i) j = if 0 <=? j then Z.testbit k (j + i) else Z.testbit (Z.shiftr k i) j) as Hs.
  { intros i j. destruct (Z.leb_spec 0 j); [by apply Z.shiftr_spec|done]. }
  rewrite (Hs 6), (Hs 11), (Hs 16). clear Hs Hm.
  destruct (Z.leb_spec 20 n) as [H20|H20]; [rewrite (Hhaut H20)|clear Hhaut].
  - repeat match goal with |- context [?a <? ?b] => destruct (Z.ltb_spec a b); try lia end.
  - repeat match goal with
    | |- context [?a <? ?b] => destruct (Z.ltb_spec a b); try lia
    | |- context [?a <=? ?b] => destruct (Z.leb_spec a b); try lia
    end; cbn [andb orb]; rewrite ?orb_false_r; try done; f_equal; lia.
Qed.

(** * The verdict *)

Section verdict.
Context (subj act tgt ctx : Z).

Definition A1 : bool :=
  ((tgt =? TgtFIMEtc) || (tgt =? TgtFIMSsh)) &&
  ((act =? ActWriteFile) || (act =? ActUnlinkFile) || (act =? ActSetxattr)) &&
  negb ((subj =? SubjRootSystemd) && (ctx =? CtxSystemdUnit)).
Definition A2 : bool :=
  ((subj =? SubjMemfdAnon) || (subj =? SubjDeletedBinary)) &&
  ((act =? ActExecve) || (act =? ActConnectNet) || (act =? ActMprotectWX)).
Definition A3 : bool :=
  ((act =? ActMemfdCreate) || (act =? ActMprotectWX)) &&
  ((subj =? SubjServiceUnpriv) || (subj =? SubjContainerK8s)).
Definition A4 : bool := (act =? ActPrctlMasq) && negb (subj =? SubjKernelWorker).
Definition A5 : bool :=
  (tgt =? TgtTmpExec) && (act =? ActExecve) && ((subj =? SubjServiceUnpriv) || (ctx =? CtxSystemdUnit)).
Definition A6 : bool := (tgt =? TgtPipeInterpreter) && (act =? ActExecve).
Definition A7 : bool := (act =? ActDnsTunnel) && (ctx =? CtxHighEntropy) && (tgt =? TgtNetExternal).
Definition A8 : bool :=
  (ctx =? CtxKworkerSpoof) || (ctx =? CtxMemfdSpoof) || (ctx =? CtxDeletedExe) || (ctx =? CtxAnonWX).
Definition A9 : bool := (ctx =? CtxTmpResidence) && ((act =? ActExecve) || (act =? ActConnectNet)).
(** The two certified behaviours. *)
Definition B0 : bool :=
  ((tgt =? TgtFIMEtc) || (tgt =? TgtFIMSsh)) &&
  ((act =? ActWriteFile) || (act =? ActUnlinkFile) || (act =? ActSetxattr)) &&
  (subj =? SubjRootSystemd) && (ctx =? CtxSystemdUnit).
Definition B1 : bool :=
  (act =? ActExecve) && (tgt =? TgtBinSystem) &&
  (((subj =? SubjRootSystemd) && (ctx =? CtxSystemdUnit)) ||
   (((subj =? SubjUserInteractive) || (subj =? SubjRootInteractive)) && (ctx =? CtxInteractiveTTY))).

Definition viole : bool := A1 || A2 || A3 || A4 || A5 || A6 || A7 || A8 || A9.
End verdict.

(** What systemd does to a protected file violates no other axiom. *)
Lemma B0_seul s a t c : B0 s a t c = true -> viole s a t c = false.
Proof.
  unfold B0. intros H. zbool. subst s c.
  repeat match goal with H : _ || _ = true |- _ => apply orb_true_iff in H as [H|H] end; zbool; by subst.
Qed.

Lemma B1_seul s a t c : B1 s a t c = true -> viole s a t c = false.
Proof.
  unfold B1. intros H. zbool. subst a t.
  repeat match goal with H : _ || _ = true |- _ => apply orb_true_iff in H as [H|H]; zbool end; by subst.
Qed.

Lemma evaluer_spec k s a t c : Unpack k = (s, a, t, c) ->
  EvaluateOntology k =
    if viole s a t c then OntoVerdictDeny
    else if B0 s a t c || B1 s a t c then OntoVerdictAllow else OntoVerdictAmbiguous.
Proof.
  intros E. pose proof (B0_seul s a t c) as Hseul. unfold EvaluateOntology. rewrite E. clear E.
  fold (A2 s a) (A3 s a) (A4 s a) (A5 s a t c) (A6 a t) (A7 a t c) (A8 c) (A9 a c).
  set (ecriture := ((t =? TgtFIMEtc) || (t =? TgtFIMSsh)) &&
    ((a =? ActWriteFile) || (a =? ActUnlinkFile) || (a =? ActSetxattr))) in *.
  set (unite := (s =? SubjRootSystemd) && (c =? CtxSystemdUnit)) in *.
  assert (A1 s a t c = ecriture && negb unite) as E1 by done.
  assert (B0 s a t c = ecriture && unite) as E0 by (unfold B0, unite; apply eq_sym, andb_assoc).
  assert (B1 s a t c = (unite && (a =? ActExecve) && (t =? TgtBinSystem)) ||
    (((s =? SubjUserInteractive) || (s =? SubjRootInteractive)) && (c =? CtxInteractiveTTY) &&
     (a =? ActExecve) && (t =? TgtBinSystem))) as ->.
  { unfold B1. fold unite. destruct (a =? ActExecve), (t =? TgtBinSystem), unite; simpl;
      rewrite ?andb_true_r, ?andb_false_r; done. }
  unfold viole in *. rewrite E1, E0 in *.
  destruct ecriture, unite; cbn [andb orb negb] in *; try (rewrite Hseul by done); try done;
    destruct (A2 s a), (A3 s a), (A4 s a), (A5 s a t c), (A6 a t), (A7 a t c), (A8 c), (A9 a c);
    cbn [andb orb]; try done;
    destruct (a =? ActExecve), (t =? TgtBinSystem); rewrite ?andb_true_r, ?andb_false_r; cbn [andb orb]; try done;
    by destruct (((s =? SubjUserInteractive) || (s =? SubjRootInteractive)) && (c =? CtxInteractiveTTY)).
Qed.

(** * Substring search *)

Lemma prefixe_lookup m l : prefixe m l = true <-> forall j x, m !! j = Some x -> l !! j = Some x.
Proof.
  rewrite prefixe_spec. split.
  - intros [r ->] j x Hj. by apply lookup_app_l_Some.
  - intros H. exists (drop (length m) l). symmetry. rewrite <- (take_drop (length m) l) at 2. f_equal.
    symmetry. apply list_eq. intros j. destruct (m !! j) as [x|] eqn:E.
    + rewrite lookup_take_lt by (by apply lookup_lt_Some in E). by apply H.
    + apply lookup_take_ge. by apply lookup_ge_None.
Qed.

Lemma contient_drop m l : contient m l = true <-> exists i, (i <= length l)%nat /\ prefixe m (drop i l) = true.
Proof.
  rewrite contient_spec. split.
  - intros (a & r & ->). exists (length a). rewrite drop_app_length, !length_app. split; [lia|].
    apply prefixe_spec. by exists r.
  - intros (i & _ & Hp). apply prefixe_spec in Hp as [r Hr]. exists (take i l), r. by rewrite <- Hr, take_drop.
Qed.

Lemma wp_comparer b s i : 0 <= i -> i + zlen s <= zlen b ->
  wp (for_range (zlen s) tt (fun j _ =>
        x ← idx b (i + j); y ← idx s j; if negb (x =? y) then Done (inr tt) else Done (inl tt)))
    (fun m => prefixe s (drop (Z.to_nat i) b) = match m with inl _ => true | inr _ => false end).
Proof.
  intros Hi Hl.
  apply (wp_for_range (fun j _ => forall k x, s !! k = Some x -> Z.of_nat k < j -> drop (Z.to_nat i) b !! k = Some x)).
  - apply zlen_nonneg.
  - intros; lia.
  - intros j [] Hj HI. apply wp_bind, wp_idx; [lia|]. intros x Hx. apply wp_bind, wp_idx; [lia|]. intros y Hy.
    assert (drop (Z.to_nat i) b !! Z.to_nat j = Some x) as Hx'.
    { rewrite lookup_drop. by replace (Z.to_nat i + Z.to_nat j)%nat with (Z.to_nat (i + j)) by lia. }
    wp_step; wp_step.
    + destruct (prefixe s _) eqn:E; [|done]. exfalso.
      rewrite (proj1 (prefixe_lookup _ _) E _ _ Hy) in Hx'. congruence.
    + intros k z Hk Hkj. destruct (decide (k = Z.to_nat j)) as [-> |]; [congruence|]. apply (HI k); [done|lia].
  - intros [] HI. apply prefixe_lookup. intros j x Hj. apply (HI j); [done|].
    apply lookup_lt_Some in Hj. unfold zlen. lia.
Qed.

Lemma wp_indexOfStr b s :
  wp (indexOfStr b s) (fun r => (0 <=? r) = contient s b /\
    (0 <= r -> prefixe s (drop (Z.to_nat r) b) = true /\
       forall j, (j < Z.to_nat r)%nat -> prefixe s (drop j b) = false)).
Proof.
  unfold indexOfStr. wp_step.
  { wp_step. assert (s = []) as ->. { apply nil_length_inv. unfold zlen in Hc. lia. }
    split; [destruct b; done|]. split; [done|]. intros j Hj. simpl in Hj. lia. }
  assert (zlen b < zlen s -> forall i, prefixe s (drop i b) = false) as Hcourt.
  { intros Hlt i. destruct (prefixe s (drop i b)) eqn:E; [|done]. apply prefixe_spec in E as [r Hr].
    assert (length (drop i b) = length (s ++ r)) as El by (by rewrite Hr).
    rewrite length_drop, length_app in El. unfold zlen in *. lia. }
  wp_step.
  { wp_step. split; [|lia]. destruct (contient s b) eqn:E; [|done]. apply contient_drop in E as (i & _ & Hp).
    by rewrite Hcourt in Hp. }
  apply wp_bind. apply (wp_for_range (fun i _ => forall j, Z.of_nat j < i -> prefixe s (drop j b) = false)).
  - lia.
  - intros; lia.
  - intros i [] Hi HI. apply wp_bind. eapply wp_mono; [apply wp_comparer; lia|].
    intros [[]|[]] Hm; wp_step.
    + wp_step. split; [|split; [done|intros j Hj; apply HI; lia]].
      rewrite (proj2 (Z.leb_le 0 i)) by lia. symmetry. apply contient_drop.
      exists (Z.to_nat i). split; [unfold zlen in *; lia|done].
    + intros j Hj. destruct (decide (j = Z.to_nat i)) as [-> |]; [done|]. apply HI. lia.
  - intros [] HI. wp_step. split; [|lia]. destruct (contient s b) eqn:E; [|done].
    apply contient_drop in E as (i & Hi & Hp).
    assert (Z.of_nat i < zlen b - zlen s + 1).
    { apply prefixe_spec in Hp as [r Hr]. assert (length (drop i b) = length (s ++ r)) as El by (by rewrite Hr).
      rewrite length_drop, length_app in El. unfold zlen in *. lia. }
    by rewrite HI in Hp.
Qed.

(** The derivation as a function. *)
Definition contexte (exeTarget : list Z) (isMemfd isDeleted hasWXAnon : bool) (comm : list Z) (pid : Z) : Z :=
  let has (s : string) := contient (octets s) exeTarget in
  if isKworker comm && ((2 <? pid) || (0 <? zlen exeTarget)) then CtxKworkerSpoof
  else if isMemfd || has "/memfd:" then CtxMemfdSpoof
  else if isDeleted || has "(deleted)" then CtxDeletedExe
  else if hasWXAnon then CtxAnonWX
  else if has "/tmp/" || has "/var/tmp/" || has "/dev/shm/" then CtxTmpResidence else CtxDefault.

Lemma indexOfStr_contient b s : exists r, indexOfStr b s = Done r /\ (0 <=? r) = contient s b.
Proof.
  pose proof (wp_indexOfStr b s) as W. destruct (indexOfStr b s) as [r| |]; [|done..].
  exists r. split; [done|]. apply W.
Qed.

(** Evaluate one search of the derivation. *)
Ltac chercher exe s :=
  let r := fresh "r" in let E := fresh "E" in let H := fresh "H" in
  destruct (indexOfStr_contient exe (octets s)) as (r & E & H); rewrite E, run_bind_done, H.

Lemma DeriveOntoContext_spec exe m d w comm pid :
  DeriveOntoContext exe m d w comm pid = Done (contexte exe m d w comm pid).
Proof.
  unfold DeriveOntoContext, contexte. cbv zeta. destruct (isKworker comm && _); [done|].
  destruct m; cbn [orb]; [done|]. cbv iota. chercher exe "/memfd:"%string. rewrite run_bind_done.
  destruct (contient (octets "/memfd:") exe); [done|].
  destruct d; cbn [orb]; [done|]. cbv iota. chercher exe "(deleted)"%string. rewrite run_bind_done.
  destruct (contient (octets "(deleted)") exe); [done|]. destruct w; [done|].
  chercher exe "/tmp/"%string. destruct (contient (octets "/tmp/") exe); [done|].
  chercher exe "/var/tmp/"%string. destruct (contient (octets "/var/tmp/") exe); [done|].
  chercher exe "/dev/shm/"%string. by rewrite run_bind_done.
Qed.

(** * Properties *)

(** [Unpack] inverts [PackOntoKey] up to the width of each axis, and packing
    the components of a 20-bit key gives the key back. *)
Theorem cle_aller_retour s a t c k :
  Unpack (PackOntoKey s a t c) = (Z.land s 0x3F, Z.land a 0x1F, Z.land t 0x1F, Z.land c 0x0F) /\
  (0 <= k < 2 ^ 20 -> (let '(s, a, t, c) := Unpack k in PackOntoKey s a t c) = k).
Proof. split; [apply Unpack_Pack|apply Pack_Unpack]. Qed.

Lemma cle_aller_retour_witness :
  Unpack (PackOntoKey 70 1 6 2) = (6, 1, 6, 2) /\
  (let '(s, a, t, c) := Unpack 143425 in PackOntoKey s a t c) = 143425.
Proof.
  destruct (cle_aller_retour 70 1 6 2 143425) as [H1 H2]. split; [exact H1|]. by apply H2.
Defined.

(** The axioms form a consistent policy that does not depend on their order:
    the verdict is Deny exactly when one of A1-A9 is violated, else Allow exactly
    for the two certified behaviours (the systemd unit writing protected files,
    nominal executions of system binaries), else Ambiguous; no key is Unknown. *)
Theorem verdict_exact k :
  let '(s, a, t, c) := Unpack k in
  (EvaluateOntology k = OntoVerdictDeny <-> viole s a t c = true) /\
  (EvaluateOntology k = OntoVerdictAllow <-> B0 s a t c || B1 s a t c = true) /\
  (EvaluateOntology k = OntoVerdictAmbiguous <-> viole s a t c || B0 s a t c || B1 s a t c = false).
Proof.
  destruct (Unpack k) as [[[s a] t] c] eqn:E. rewrite (evaluer_spec k s a t c E).
  pose proof (B0_seul s a t c) as H0. pose proof (B1_seul s a t c) as H1.
  destruct (viole s a t c), (B0 s a t c), (B1 s a t c); cbn [orb]; unfold OntoVerdictDeny, OntoVerdictAllow,
    OntoVerdictAmbiguous; split_and!; split; intros; try done; try (by specialize (H0 eq_refl)); by specialize (H1 eq_refl).
Qed.

(** No evasion survives the derivation: whatever a process claims (subject,
    action, target, name, PID), a memfd image, a deleted binary or anonymous
    writable-executable memory, found by a flag or in the executable link, makes
    the verdict Deny. *)
Theorem evasion_refusee exe m d w comm pid s a t :
  m = true \/ d = true \/ w = true \/ contient (octets "/memfd:") exe = true \/
  contient (octets "(deleted)") exe = true ->
  wp (DeriveOntoContext exe m d w comm pid) (fun ctx =>
    EvaluateOntology (PackOntoKey s a t ctx) = OntoVerdictDeny).
Proof.
  intros H. rewrite DeriveOntoContext_spec. cbn [wp].
  assert (A8 (contexte exe m d w comm pid) = true /\ Z.land (contexte exe m d w comm pid) 0x0F
    = contexte exe m d w comm pid) as [H8 Hl].
  { unfold contexte. cbv zeta. destruct (isKworker comm && _); [done|].
    destruct m; cbn [orb]; [done|]. destruct (contient (octets "/memfd:") exe); [done|].
    destruct d; cbn [orb]; [done|]. destruct (contient (octets "(deleted)") exe); [done|].
    destruct w; [done|]. naive_solver. }
  rewrite (evaluer_spec _ _ _ _ _ (Unpack_Pack s a t _)), Hl. unfold viole. by rewrite H8, !orb_true_r.
Qed.

Lemma evasion_refusee_witness :
  wp (DeriveOntoContext (octets "/usr/bin/x (deleted)") false false false (octets "x") 10) (fun ctx =>
    EvaluateOntology (PackOntoKey SubjRootSystemd ActExecve TgtBinSystem ctx) = OntoVerdictDeny).
Proof.
  apply (evasion_refusee (octets "/usr/bin/x (deleted)") false false false (octets "x") 10).
  right; right; right; right. by vm_compute.
Defined.

(** A genuine kernel worker (no executable link, PID above 2) is classified as
    a spoofed one and refused. *)
Lemma kworker_authentique_refuse :
  DeriveOntoContext [] false false false (octets "kworker/0:1") 57 = Done CtxKworkerSpoof /\
  EvaluateOntology (PackOntoKey SubjKernelWorker ActUnknown TgtUnknown CtxKworkerSpoof) = OntoVerdictDeny.
Proof. by vm_compute. Qed.
