(* ===== verification/Arena.v ===== *)
(** The payload arena (src/internal/engine/arena_pool.go): 1024 pages of 4096
    octets, each behind a sequence lock, and the descriptor sealed in the event.
    The theorems: the streamed CRC32-C is that of the completed page, storing
    then resolving gives the payload back as long as the page has not been
    recycled and an error afterwards, and ([Module Seqlock]) under any
    interleaving a successful read returns the words of one single deposit. *)
From S2P Require Import Prelude Channel.

Definition PageSize : Z := 4096.
Definition ArenaCapacity : Z := 1024.
Definition arenaMask : Z := ArenaCapacity - 1.
Definition FlagLongPayload : Z := 0x1000.
Definition metaOffsetPageIdx : nat := 80.
Definition metaOffsetLen : nat := 84.
Definition metaOffsetCRC : nat := 86.
Definition metaOffsetEpoch : nat := 90.
Definition metaOffsetRes : nat := 94.

(** ** CRC32-C: [crc32.Update] over the Castagnoli table, bit by bit *)

Definition crc_bit (crc : Z) : Z :=
  if Z.odd crc then Z.lxor (Z.shiftr crc 1) 0x82F63B78 else Z.shiftr crc 1.
Definition crc_octet (crc octet : Z) : Z := Nat.iter 8 crc_bit (Z.lxor crc octet).
Definition crc32_update (crc : Z) (p : list Z) : Z :=
  Z.lxor (fold_left crc_octet p (Z.lxor crc 0xFFFFFFFF)) 0xFFFFFFFF.

Definition zeroPage : list Z := replicate (Z.to_nat PageSize) 0.
Definition arenaPageCRC32C (payloadBytes : list Z) : run Z :=
  let crc := crc32_update 0 payloadBytes in
  z ← slice zeroPage 0 (PageSize - zlen payloadBytes);
  Done (crc32_update crc z).

(** ** State *)

Inductive erreur_arene : Type := ErrArenaDescriptor | ErrArenaStale | ErrArenaTorn | ErrArenaCorrupt.

Record ArenaPage := Page { words : list Z; seq : Z; Epoch : Z; Len : Z; CRC32 : Z }.
Record ArenaPool := Pool { pages : list ArenaPage; alloc : Z }.
Definition page_zero : ArenaPage := Page (replicate 512 0) 0 0 0 0.
Definition NewArenaPool : ArenaPool := Pool (replicate 1024 page_zero) 0.

Definition avec_payload (ev : Probe_event_t) (p : list Z) : Probe_event_t :=
  Event (Ts_ns ev) (Pid ev) (Tid ev) (Subsystem ev) (Action ev) (Flags ev) (Src ev) p.
Definition avec_drapeaux (ev : Probe_event_t) (f : Z) : Probe_event_t :=
  Event (Ts_ns ev) (Pid ev) (Tid ev) (Subsystem ev) (Action ev) f (Src ev) (Payload ev).

(** Index of the first NUL, bounded by 96 ([inlinePayloadUsed]). *)
Definition inlinePayloadUsed (buf : list Z) : run Z :=
  let fin := Z.min (zlen buf) 96 in
  o ← for_range fin tt (fun i _ => b ← idx buf i; if b =? 0 then Done (inr i) else Done (inl tt));
  Done (match o with inl _ => fin | inr i => i end).

(** The acquisition loop: alone, a caller waits forever on an odd [seq]. *)
Definition acquerir (page : ArenaPage) : run Z :=
  loop (fun _ : unit => if Z.land (seq page) 1 =? 0 then Done (inr (seq page)) else Done (inl tt)) 1 tt.

(** The word-by-word copy of the payload into the page. *)
Definition ecrire_mots (W payload : list Z) (length_ : Z) : run (list Z) :=
  o ← for_range ((length_ + 7) / 8) W (fun w W =>
        s ← slice payload (w * 8) (Z.min (w * 8 + 8) length_);
        W ← upd W w (unle (copy_into (replicate 8 0) s));
        Done (inl (B := list Z) W));
  Done (match o with inl s | inr s => s end).

Definition StorePayload (p : ArenaPool) (ev : option Probe_event_t) (payloadBytes : list Z)
  : run (ArenaPool * option Probe_event_t * Z) :=
  match ev with
  | None => Done (p, None, 0)
  | Some ev =>
      if zlen payloadBytes =? 0 then Done (p, Some ev, 0) else
      let efface := replicate (length (Payload ev)) 0 in
      if zlen payloadBytes <=? 96 then
        Done (p, Some (avec_drapeaux (avec_payload ev (copy_into efface payloadBytes))
                         (Z.ldiff (Flags ev) FlagLongPayload)), zlen payloadBytes)
      else
        let length_ := Z.min (zlen payloadBytes) PageSize in
        prefixe ← slice payloadBytes 0 80;
        let payload := copy_into (take 80 efface) prefixe ++ drop 80 efface in
        data ← slice payloadBytes 0 length_;
        crc ← arenaPageCRC32C data;
        let alloc' := u64 (alloc p + 1) in
        let slotIdx := u64 (alloc' - 1) in
        let pageIdx := u32 (Z.land slotIdx arenaMask) in
        page ← idx (pages p) pageIdx;
        let epoch := u32 (slotIdx / ArenaCapacity) in
        s ← acquerir page;
        W ← ecrire_mots (words page) payloadBytes length_;
        P ← upd (pages p) pageIdx (Page W (u32 (s + 2)) epoch (u32 length_) crc);
        let payload := poser payload metaOffsetPageIdx (le 4 pageIdx) in
        let payload := poser payload metaOffsetLen (le 2 (u16 length_)) in
        let payload := poser payload metaOffsetCRC (le 4 crc) in
        let payload := poser payload metaOffsetEpoch (le 4 epoch) in
        let payload := poser payload metaOffsetRes (le 2 0) in
        Done (Pool P alloc', Some (avec_drapeaux (avec_payload ev payload)
                                     (Z.lor (Flags ev) FlagLongPayload)), length_)
  end.

Inductive resolution : Type :=
  | Charge (octets : list Z)
  | Erreur (e : erreur_arene).

(** The word-by-word copy of the page into [dst]. *)
Definition lire_mots (W dst : list Z) (n : Z) : run (list Z) :=
  o ← for_range n dst (fun w dst =>
        x ← idx W w;
        _ ← slice dst (w * 8) (w * 8 + 8);
        Done (inl (B := list Z) (poser dst (Z.to_nat (w * 8)) (le 8 x))));
  Done (match o with inl s | inr s => s end).

Definition champ (payload : list Z) (a b : nat) : Z := unle (take (b - a) (drop a payload)).

(** [dst] is returned as the call leaves it. *)
Definition ResolvePayload (p : ArenaPool) (ev : option Probe_event_t) (dst : option (list Z))
  : run (resolution * option (list Z)) :=
  match ev with
  | None => Done (Charge [], dst)
  | Some ev =>
      if Z.land (Flags ev) FlagLongPayload =? 0 then
        n ← inlinePayloadUsed (Payload ev);
        b ← slice (Payload ev) 0 n; Done (Charge b, dst)
      else
      match dst with
      | None => Done (Erreur ErrArenaDescriptor, dst)
      | Some d =>
          let pageIdx := champ (Payload ev) metaOffsetPageIdx metaOffsetLen in
          let length_ := champ (Payload ev) metaOffsetLen metaOffsetCRC in
          if (ArenaCapacity <=? pageIdx) || (length_ <=? 96) || (PageSize <? length_)
          then Done (Erreur ErrArenaDescriptor, dst) else
          let expectedCRC := champ (Payload ev) metaOffsetCRC metaOffsetEpoch in
          let expectedEpoch := champ (Payload ev) metaOffsetEpoch metaOffsetRes in
          page ← idx (pages p) pageIdx;
          let s := seq page in
          if negb (Z.land s 1 =? 0) || negb (Epoch page =? expectedEpoch)
          then Done (Erreur ErrArenaStale, dst) else
          if negb (Len page =? length_) || negb (CRC32 page =? expectedCRC)
          then Done (Erreur ErrArenaCorrupt, dst) else
          d ← lire_mots (words page) d ((length_ + 7) / 8);
          let d := take (Z.to_nat length_) d ++ replicate (length d - Z.to_nat length_) 0 in
          if negb (seq page =? s) then Done (Erreur ErrArenaTorn, Some d) else
          b ← slice d 0 length_;
          Done (Charge b, Some d)
      end
  end.

(** ** The copy loops *)

(** The checksum of the whole page, payload then zeros
    ([c2archtsim.C2archtsim_page4k_crc32c] on the completed page). *)
Definition crc_page (d : list Z) : Z :=
  crc32_update 0 (d ++ replicate (Z.to_nat PageSize - length d) 0).

#[local] Arguments crc32_update : simpl never.
#[local] Arguments zeroPage : simpl never.

Lemma crc32_update_app c a b : crc32_update (crc32_update c a) b = crc32_update c (a ++ b).
Proof.
  unfold crc32_update. rewrite fold_left_app. f_equal. f_equal.
  by rewrite Z.lxor_assoc, Z.lxor_nilpotent, Z.lxor_0_r.
Qed.

Lemma arenaPageCRC32C_page d : zlen d <= PageSize -> arenaPageCRC32C d = Done (crc_page d).
Proof.
  intros Hd. unfold arenaPageCRC32C, crc_page. pose proof (zlen_nonneg d).
  assert (slice zeroPage 0 (PageSize - zlen d) = Done (replicate (Z.to_nat PageSize - length d) 0)) as ->;
    [|by rewrite run_bind_done, crc32_update_app].
  unfold slice, zeroPage, PageSize, zlen in *. rewrite length_replicate.
  destruct (_ && _) eqn:E; [|apply andb_false_iff in E as [E|E]; [apply andb_false_iff in E as [E|E]|]; zbool; lia].
  rewrite drop_0, take_replicate. do 2 f_equal. lia.
Qed.

(** One word of the payload, completed with zeros. *)
Lemma mot_payload d (n w : nat) : (8 * w < n <= length d)%nat ->
  copy_into (replicate 8 0) (take (Nat.min 8 (n - 8 * w)) (drop (8 * w) d)) =
  take 8 (drop (8 * w) (take n d ++ replicate 8 0)).
Proof.
  intros Hw. rewrite drop_app_le by (rewrite length_take; lia).
  rewrite skipn_firstn_comm, take_app, take_take, take_replicate.
  unfold copy_into. rewrite length_replicate, take_take, drop_replicate.
  rewrite !length_take, length_drop. f_equal; f_equal; lia.
Qed.

Lemma wp_ecrire_mots W d n Q :
  bytes_ok d -> 0 <= n <= zlen d -> (n + 7) / 8 <= zlen W ->
  (forall W', zlen W' = zlen W -> take (Z.to_nat n) (octets_mots W') = take (Z.to_nat n) d ->
     Q W') -> wp (ecrire_mots W d n) Q.
Proof.
  intros Hd Hn HW HQ. set (pad := take (Z.to_nat n) d ++ replicate 8 0).
  assert (Hpad : bytes_ok pad) by (apply bytes_ok_app; [by apply bytes_ok_take|by apply bytes_ok_replicate]).
  assert (Hlp : length pad = (Z.to_nat n + 8)%nat)
    by (unfold pad, zlen in *; rewrite length_app, length_take, length_replicate; lia).
  unfold ecrire_mots. apply wp_bind.
  apply (wp_for_range (fun w W' => zlen W' = zlen W /\
           octets_mots (take (Z.to_nat w) W') = take (8 * Z.to_nat w) pad)).
  - divlia.
  - split; [done|]. by rewrite Nat.mul_0_r.
  - intros w W' Hw [Hl Ho]. apply wp_bind, wp_slice; [divlia..|].
    apply wp_bind, wp_upd; [lia|]. apply wp_done. split; [by rewrite zlen_insert|].
    rewrite take_insert_snoc by lia. rewrite octets_mots_app, Ho.
    assert (Hm : (8 * Z.to_nat w < Z.to_nat n <= length d)%nat) by (unfold zlen in *; divlia).
    replace (Z.to_nat (Z.min (w * 8 + 8) n - w * 8)) with (Nat.min 8 (Z.to_nat n - 8 * Z.to_nat w)) by lia.
    replace (Z.to_nat (w * 8)) with (8 * Z.to_nat w)%nat by lia.
    rewrite mot_payload by done. fold pad. cbn [octets_mots]. rewrite app_nil_r.
    assert (H8 : length (take 8 (drop (8 * Z.to_nat w) pad)) = 8%nat) by (rewrite length_take, length_drop; lia).
    pose proof (le_unle _ (bytes_ok_take _ 8 (bytes_ok_drop _ (8 * Z.to_nat w) Hpad))) as Hle.
    rewrite H8 in Hle. rewrite Hle.
    replace (8 * Z.to_nat (w + 1))%nat with (8 * Z.to_nat w + 8)%nat by lia. by rewrite take_take_drop.
  - intros W' [Hl Ho]. apply wp_done, HQ; [done|].
    assert (Hk : (Z.to_nat n <= 8 * Z.to_nat ((n + 7) / 8))%nat) by divlia.
    rewrite <- (Nat.min_l _ _ Hk), <- take_take, take_octets_mots, Ho, take_take, Nat.min_l by done.
    unfold pad. rewrite take_app_le; [by rewrite take_take, Nat.min_id|].
    rewrite length_take. unfold zlen in *. lia.
Qed.

Lemma take_poser {A} (l : list A) off b :
  (off <= length l)%nat -> take (off + length b) (poser l off b) = take off l ++ b.
Proof.
  intros H. unfold poser. rewrite app_assoc. apply take_app_length'.
  rewrite length_app, length_take. lia.
Qed.

Lemma wp_lire_mots W dst n Q :
  0 <= n <= zlen W -> 8 * n <= zlen dst ->
  (forall dst', zlen dst' = zlen dst ->
     take (8 * Z.to_nat n) dst' = take (8 * Z.to_nat n) (octets_mots W) -> Q dst') ->
  wp (lire_mots W dst n) Q.
Proof.
  intros Hn Hd HQ. unfold lire_mots. apply wp_bind.
  apply (wp_for_range (fun w dst' => zlen dst' = zlen dst /\
           take (8 * Z.to_nat w) dst' = take (8 * Z.to_nat w) (octets_mots W))).
  - lia.
  - split; [done|]. by rewrite Nat.mul_0_r.
  - intros w dst' Hw [Hl Ho]. apply wp_bind, wp_idx; [lia|]. intros x Hx.
    apply wp_bind, wp_slice; [lia..|]. apply wp_done.
    unfold zlen in Hl, Hd. split.
    + unfold zlen. rewrite length_poser; [lia|]. rewrite length_le. lia.
    + replace (Z.to_nat (w * 8)) with (8 * Z.to_nat w)%nat by lia.
      replace (8 * Z.to_nat (w + 1))%nat with (8 * Z.to_nat w + 8)%nat by lia.
      pose proof (take_poser dst' (8 * Z.to_nat w) (le 8 x)) as Hp. rewrite length_le in Hp. rewrite Hp by lia.
      rewrite Ho. replace (8 * Z.to_nat w + 8)%nat with (8 * S (Z.to_nat w))%nat by lia.
      rewrite !take_octets_mots, (take_S_r _ _ x Hx), octets_mots_app. f_equal.
  - intros dst' [Hl Ho]. apply wp_done, HQ; [done|]. done.
Qed.

(** ** Widths *)

Lemma crc_bit_u32 c : is_u32 c -> is_u32 (crc_bit c).
Proof.
  unfold crc_bit, is_u32. intros Hc.
  assert (0 <= Z.shiftr c 1 < 2 ^ 32) by (rewrite Z.shiftr_div_pow2 by lia; change (2 ^ 1) with 2; divlia).
  destruct (Z.odd c); [|done]. apply lxor_range; [lia|done|lia].
Qed.

Lemma crc_octet_u32 c o : is_u32 c -> is_u8 o -> is_u32 (crc_octet c o).
Proof.
  intros Hc Ho. unfold crc_octet. cbn [Nat.iter Nat.iter]. do 8 apply crc_bit_u32.
  apply lxor_range; [lia|done|]. unfold is_u8 in Ho. lia.
Qed.

Lemma crc_fold_u32 d c : is_u32 c -> bytes_ok d -> is_u32 (fold_left crc_octet d c).
Proof.
  intros Hc Hd. revert c Hc. induction Hd as [|o d Ho _ IH]; intros c Hc; [done|].
  apply IH. by apply crc_octet_u32.
Qed.

Lemma crc_page_u32 d : bytes_ok d -> is_u32 (crc_page d).
Proof.
  intros Hd. unfold crc_page, crc32_update. apply lxor_range; [lia| |lia].
  apply crc_fold_u32; [by vm_compute|]. apply bytes_ok_app; [done|by apply bytes_ok_replicate].
Qed.

(** ** Fields of the descriptor *)

Lemma lookup_poser (l b : list Z) off i : (off + length b <= length l)%nat ->
  poser l off b !! i =
  if decide (off <= i < off + length b)%nat then b !! (i - off)%nat else l !! i.
Proof.
  intros H. unfold poser. case_decide as Hi.
  - rewrite lookup_app_r by (rewrite length_take; lia). rewrite length_take, Nat.min_l by lia.
    by rewrite lookup_app_l by lia.
  - destruct (decide (i < off)%nat).
    + rewrite lookup_app_l by (rewrite length_take; lia). by rewrite lookup_take_lt.
    + rewrite lookup_app_r by (rewrite length_take; lia). rewrite length_take, Nat.min_l by lia.
      rewrite lookup_app_r by lia. rewrite lookup_drop. f_equal. lia.
Qed.

Lemma segment_poser_ne (l b : list Z) off a n : (off + length b <= length l)%nat ->
  (a + n <= off \/ off + length b <= a)%nat -> take n (drop a (poser l off b)) = take n (drop a l).
Proof.
  intros Hl Hd. apply list_eq. intros i. destruct (decide (i < n)%nat).
  - rewrite !lookup_take_lt, !lookup_drop, lookup_poser by done. case_decide; [lia|done].
  - by rewrite !lookup_take_ge by lia.
Qed.

Lemma segment_poser_eq (l b : list Z) off n : (off + length b <= length l)%nat ->
  n = length b -> take n (drop off (poser l off b)) = b.
Proof.
  intros Hl ->. unfold poser. rewrite drop_app_ge by (rewrite length_take; lia).
  rewrite length_take, Nat.min_l, Nat.sub_diag by lia. by rewrite drop_0, take_app_length.
Qed.

(** The five fields written one after the other. *)
Definition sceller (base : list Z) (pageIdx length_ crc epoch : Z) : list Z :=
  poser (poser (poser (poser (poser base 80 (le 4 pageIdx)) 84 (le 2 (u16 length_)))
    86 (le 4 crc)) 90 (le 4 epoch)) 94 (le 2 0).

Lemma sceller_champs base i n c e : length base = 96%nat -> is_u32 i -> is_u16 n -> is_u32 c -> is_u32 e ->
  length (sceller base i n c e) = 96%nat /\ take 80 (sceller base i n c e) = take 80 base /\
  champ (sceller base i n c e) 80 84 = i /\ champ (sceller base i n c e) 84 86 = n /\
  champ (sceller base i n c e) 86 90 = c /\ champ (sceller base i n c e) 90 94 = e.
Proof.
  intros Hb Hi Hn Hc He. unfold is_u32, is_u16 in *.
  assert (L : forall l off k z, length l = 96%nat -> (off + k <= 96)%nat -> length (poser l off (le k z)) = 96%nat)
    by (intros; rewrite length_poser; rewrite ?length_le; lia).
  assert (N : forall l off k z a n, length l = 96%nat -> (off + k <= 96)%nat ->
            (a + n <= off \/ off + k <= a)%nat ->
            take n (drop a (poser l off (le k z))) = take n (drop a l))
    by (intros; apply segment_poser_ne; rewrite length_le; lia).
  assert (F : forall l off k z, length l = 96%nat -> (off + k <= 96)%nat ->
            take k (drop off (poser l off (le k z))) = le k z)
    by (intros; apply segment_poser_eq; rewrite length_le; lia).
  unfold sceller, champ. rewrite (u16_id n) by done.
  split; [repeat (apply L; [|lia]); done|].
  split.
  { rewrite <- (drop_0 base) at 2. rewrite <- (drop_0 (poser _ 94 _)).
    rewrite !N; [done|..]; try lia; repeat (apply L; [|lia]); done. }
  change (84 - 80)%nat with 4%nat. change (86 - 84)%nat with 2%nat.
  change (90 - 86)%nat with 4%nat. change (94 - 90)%nat with 4%nat.
  split_and!.
  all: repeat rewrite N by (first [lia | repeat (apply L; [|lia]); done]).
  all: rewrite F by (first [lia | repeat (apply L; [|lia]); done]).
  all: apply unle_le; simpl; lia.
Qed.

(** ** Deposits *)

(** What a page holds of deposit number [j] of the arena. *)
Definition page_porte (P : ArenaPage) (d : list Z) (e : Z) : Prop :=
  Epoch P = e /\ Len P = zlen d /\ CRC32 P = crc_page d /\
  take (length d) (octets_mots (words P)) = d.
Definition page_ok (P : ArenaPage) : Prop := zlen (words P) = 512 /\ Z.land (seq P) 1 = 0.

(** [deps]: every long payload stored so far, oldest first. *)
Definition arene_ok (deps : list (list Z)) (p : ArenaPool) : Prop :=
  alloc p = zlen deps /\ zlen (pages p) = 1024 /\ Forall page_ok (pages p) /\
  forall j d, 0 <= j -> deps !! Z.to_nat j = Some d -> zlen deps <= j + 1024 ->
    exists P, pages p !! Z.to_nat (j mod 1024) = Some P /\ page_porte P d (j / 1024).

(** The descriptor sealed for deposit number [j]. *)
Definition scelle (ev : Probe_event_t) (j : Z) (d : list Z) : Prop :=
  Z.land (Flags ev) FlagLongPayload <> 0 /\ length (Payload ev) = 96%nat /\
  take 80 (Payload ev) = take 80 d /\
  champ (Payload ev) 80 84 = j mod 1024 /\ champ (Payload ev) 84 86 = zlen d /\
  champ (Payload ev) 86 90 = crc_page d /\ champ (Payload ev) 90 94 = j / 1024.

Definition tronquer (d : list Z) : list Z := take (Z.to_nat PageSize) d.

Lemma arene_ok_init : arene_ok [] NewArenaPool.
Proof.
  split; [done|]. split; [by vm_compute|]. split; [|intros j d _ H; by rewrite lookup_nil in H].
  apply Forall_replicate. by vm_compute.
Qed.

Lemma acquerir_pair P : Z.land (seq P) 1 = 0 -> acquerir P = Done (seq P).
Proof. intros H. unfold acquerir, loop. by rewrite H. Qed.

Lemma pair_suivant s : Z.land s 1 = 0 -> Z.land (u32 (s + 2)) 1 = 0.
Proof.
  change 1 with (Z.ones 1). rewrite !Z.land_ones by lia. unfold u32. change (2 ^ 1) with 2.
  change (2 ^ 32) with 4294967296. intros. divlia.
Qed.

Lemma page_suivante j n : 0 <= j < n -> n < j + 1024 -> Z.to_nat (j mod 1024) <> Z.to_nat (n mod 1024).
Proof. intros. divlia. Qed.

Lemma arene_ok_depot deps p P W c d :
  let n := zlen deps in
  arene_ok deps p -> pages p !! Z.to_nat (n mod 1024) = Some P ->
  zlen W = 512 -> take (length d) (octets_mots W) = d -> c = crc_page d ->
  arene_ok (deps ++ [d])
    (Pool (<[Z.to_nat (n mod 1024) := Page W (u32 (seq P + 2)) (n / 1024) (zlen d) c]> (pages p)) (n + 1)).
Proof.
  intros n (Ha & Hl & Hp & Hd) HP HW Ht ->. pose proof (zlen_nonneg deps).
  assert (Hpo : page_ok P) by exact (proj1 (Forall_lookup _ _) Hp _ _ HP).
  assert (Hr : (Z.to_nat (n mod 1024) < length (pages p))%nat) by by eapply lookup_lt_Some.
  split; [cbn [alloc]; by rewrite zlen_app|]. cbn [pages]. split; [by rewrite zlen_insert|].
  split; [apply Forall_insert; [done|]; split; [done|apply pair_suivant, Hpo]|].
  intros j x Hj Hx Hlt. rewrite zlen_app, zlen_cons, zlen_nil in Hlt. fold n in Hlt.
  destruct (decide (j = n)) as [->|Hn].
  - rewrite lookup_app_r in Hx by (unfold n, zlen; lia).
    replace (Z.to_nat n - length deps)%nat with 0%nat in Hx by (unfold n, zlen; lia). injection Hx as ->.
    eexists. split; [by apply list_lookup_insert_eq|]. done.
  - assert (j < n).
    { apply lookup_lt_Some in Hx. rewrite length_app in Hx. cbn [length] in Hx. unfold n, zlen in *. lia. }
    rewrite lookup_app_l in Hx by (unfold n, zlen in *; lia).
    rewrite list_lookup_insert_ne by (apply not_eq_sym, page_suivante; lia).
    apply Hd; [done..|lia].
Qed.

Lemma land_lor_flag f : Z.land (Z.lor f FlagLongPayload) FlagLongPayload <> 0.
Proof.
  intros E. apply (f_equal (fun z => Z.testbit z 12)) in E.
  rewrite Z.land_spec, Z.lor_spec, Z.bits_0 in E. by destruct (Z.testbit f 12).
Qed.

Lemma copie_prefixe (d : list Z) : (80 <= length d)%nat ->
  copy_into (take 80 (replicate 96 0)) (take (Z.to_nat 80) d) = take 80 d.
Proof.
  intros H. unfold copy_into. change (Z.to_nat 80) with 80%nat.
  rewrite take_replicate, length_replicate, take_take, length_take, drop_replicate.
  rewrite (Nat.min_l 80 (length d)) by lia. by rewrite app_nil_r.
Qed.

(** A long payload: the deposit, the page and the sealed descriptor. *)
Lemma StorePayload_long deps p ev d :
  arene_ok deps p -> zlen deps < 2 ^ 42 -> length (Payload ev) = 96%nat -> bytes_ok d -> 96 < zlen d ->
  wp (StorePayload p (Some ev) d) (fun '(p', ev', n) =>
    n = zlen (tronquer d) /\ arene_ok (deps ++ [tronquer d]) p' /\
    exists e, ev' = Some e /\ scelle e (zlen deps) (tronquer d)).
Proof.
  intros Hok Hdeps Hev Hb Hd. pose proof Hok as (Ha & Hl & Hp & _). pose proof (zlen_nonneg deps).
  set (n := zlen deps) in *.
  assert (Hn : zlen (tronquer d) = Z.min (zlen d) PageSize)
    by (unfold tronquer, zlen, PageSize; rewrite length_take; lia).
  assert (HL : length (tronquer d) = Z.to_nat (Z.min (zlen d) PageSize)) by (rewrite <- Hn; unfold zlen; lia).
  assert (Hbt : bytes_ok (tronquer d)) by by apply bytes_ok_take.
  assert (Htk : take (Z.to_nat (Z.min (zlen d) PageSize)) d = tronquer d).
  { unfold tronquer. destruct (Z.min_spec (zlen d) PageSize) as [[? ->]|[? ->]]; [|done].
    unfold zlen, PageSize in *. rewrite !take_ge; [done|lia..]. }
  unfold StorePayload.
  destruct (Z.eqb_spec (zlen d) 0); [lia|]. destruct (Z.leb_spec (zlen d) 96); [lia|].
  set (L := Z.min (zlen d) PageSize) in *.
  apply wp_bind, wp_slice; [unfold L, PageSize; lia..|].
  apply wp_bind, wp_slice; [unfold L, PageSize; lia..|].
  rewrite Z.sub_0_r, Z.sub_0_r, !drop_0, Htk, arenaPageCRC32C_page by (unfold PageSize in *; lia).
  rewrite run_bind_done, Ha. fold n. rewrite (u64_id (n + 1)) by (unfold is_u64; lia).
  replace (n + 1 - 1) with n by lia. rewrite (u64_id n) by (unfold is_u64; lia).
  unfold arenaMask, ArenaCapacity. change (1024 - 1) with (Z.ones 10). rewrite Z.land_ones by lia.
  change (2 ^ 10) with 1024. rewrite (u32_id (n mod 1024)) by (unfold is_u32; divlia).
  rewrite (u32_id (n / 1024)) by (unfold is_u32; divlia).
  apply wp_bind, wp_idx; [divlia|]. intros P HP.
  assert (Hpo : page_ok P) by exact (proj1 (Forall_lookup _ _) Hp _ _ HP).
  rewrite acquerir_pair, run_bind_done by apply Hpo.
  apply wp_bind, wp_ecrire_mots; [done|unfold L, PageSize; lia|..].
  { destruct Hpo as [-> _]. unfold L, PageSize. divlia. }
  intros W HW Hoct. apply wp_bind, wp_upd; [divlia|]. apply wp_done.
  rewrite (u32_id L) by (unfold is_u32, L, PageSize; lia).
  split; [by rewrite Hn|]. split.
  - rewrite <- Hn. apply arene_ok_depot; [done|done| |by rewrite HL, <- Htk|done].
    rewrite HW. apply Hpo.
  - eexists. split; [done|].
    match goal with |- context [avec_payload ev ?q] =>
      change q with (sceller (copy_into (take 80 (replicate (length (Payload ev)) 0)) (take (Z.to_nat 80) d) ++
        drop 80 (replicate (length (Payload ev)) 0)) (n mod 1024) L (crc_page (tronquer d)) (n / 1024)) end.
    rewrite Hev, copie_prefixe by (unfold zlen in Hd; lia).
    destruct (sceller_champs (take 80 d ++ drop 80 (replicate 96 0)) (n mod 1024) L
      (crc_page (tronquer d)) (n / 1024)) as (S1 & S2 & S3 & S4 & S5 & S6).
    + unfold zlen in Hd. rewrite length_app, length_take, length_drop, length_replicate. lia.
    + unfold is_u32. divlia.
    + unfold is_u16, L, PageSize. lia.
    + by apply crc_page_u32.
    + unfold is_u32. divlia.
    + unfold scelle, avec_drapeaux, avec_payload; cbn [Flags Payload]. rewrite Hn.
      split; [apply land_lor_flag|]. split; [done|]. split; [|done].
      rewrite S2, take_app_le by (unfold zlen in Hd; rewrite length_take; lia).
      unfold tronquer, PageSize. by rewrite !take_take.
Qed.

(** ** Resolution *)

(** Resolving the descriptor of deposit [j]. *)
Lemma ResolvePayload_scelle deps p ev dst j d :
  arene_ok deps p -> zlen deps < 2 ^ 42 -> scelle ev j d -> 0 <= j -> deps !! Z.to_nat j = Some d ->
  96 < zlen d <= PageSize -> zlen dst = PageSize ->
  wp (ResolvePayload p (Some ev) (Some dst)) (fun '(r, _) =>
    r = if zlen deps <=? j + 1024 then Charge d else Erreur ErrArenaStale).
Proof.
  intros Hok Hdeps (Hf & _ & _ & F1 & F2 & F3 & F4) Hj Hd Hl Hdst.
  pose proof Hok as (Ha & Hlp & Hp & Hpages).
  assert (Hjn : j < zlen deps) by (apply lookup_lt_Some in Hd; unfold zlen; lia).
  unfold ResolvePayload. destruct (Z.eqb_spec (Z.land (Flags ev) FlagLongPayload) 0); [done|].
  unfold metaOffsetPageIdx, metaOffsetLen, metaOffsetCRC, metaOffsetEpoch, metaOffsetRes.
  rewrite F1, F2, F3, F4. unfold ArenaCapacity.
  destruct (_ || _) eqn:E; [exfalso; rewrite !orb_true_iff in E; destruct E as [[E|E]|E]; zbool; divlia|clear E].
  apply wp_bind, wp_idx; [divlia|]. intros P HP.
  assert (Hpo : page_ok P) by exact (proj1 (Forall_lookup _ _) Hp _ _ HP). destruct Hpo as [HW Hs].
  rewrite Hs, Z.eqb_refl. cbn [negb orb].
  destruct (Z.leb_spec (zlen deps) (j + 1024)) as [Hlt|Hlt].
  - destruct (Hpages j d Hj Hd Hlt) as (P' & HP' & E1 & E2 & E3 & E4).
    rewrite HP in HP'. injection HP' as <-. rewrite E1, E2, E3, !Z.eqb_refl. cbn [negb orb].
    apply wp_bind, wp_lire_mots; [rewrite HW; unfold PageSize in Hl; divlia|rewrite Hdst; unfold PageSize in *; divlia|].
    intros dst' Hd' Ho.
    assert (Hk : (length d <= 8 * Z.to_nat ((zlen d + 7) / 8))%nat) by (unfold zlen; divlia).
    assert (Hdd : take (length d) dst' = d).
    { rewrite <- (Nat.min_l _ _ Hk), <- take_take, Ho, take_take, Nat.min_l by done. exact E4. }
    assert (HZ : Z.to_nat (zlen d) = length d) by (unfold zlen; lia). rewrite HZ, Hdd.
    apply wp_bind, wp_slice; [lia| |].
    { rewrite zlen_app. pose proof (zlen_nonneg (replicate (length dst' - length d) 0)). lia. }
    apply wp_done. rewrite Z.sub_0_r, drop_0, HZ. by rewrite take_app_length.
  - set (k := zlen deps - 1024 + (j - zlen deps) mod 1024).
    assert (Hk : 0 <= k < zlen deps /\ zlen deps <= k + 1024 /\ k mod 1024 = j mod 1024 /\ k / 1024 <> j / 1024)
      by (unfold k; divlia).
    destruct Hk as (Hk & Hk1 & Hk2 & Hk3).
    destruct (lookup_lt_is_Some_2 deps (Z.to_nat k)) as [x Hx]; [unfold zlen in *; lia|].
    destruct (Hpages k x (proj1 Hk) Hx Hk1) as (P' & HP' & E1 & _).
    rewrite Hk2, HP in HP'. injection HP' as <-. rewrite E1.
    destruct (Z.eqb_spec (k / 1024) (j / 1024)); [done|]. by apply wp_done.
Qed.

(** The deposits of a run, from an empty arena; the sealed events are kept. *)
Fixpoint deposer (p : ArenaPool) (l : list (Probe_event_t * list Z))
  : run (ArenaPool * list (option Probe_event_t)) :=
  match l with
  | [] => Done (p, [])
  | (ev, d) :: l =>
      r ← StorePayload p (Some ev) d;
      r' ← deposer r.1.1 l;
      Done (r'.1, r.1.2 :: r'.2)
  end.

Definition depot_valide (x : Probe_event_t * list Z) : Prop :=
  length (Payload x.1) = 96%nat /\ bytes_ok x.2 /\ 96 < zlen x.2.

Lemma deposer_ok l deps p :
  arene_ok deps p -> Forall depot_valide l -> zlen deps + zlen l < 2 ^ 42 ->
  wp (deposer p l) (fun '(p', evs) =>
    arene_ok (deps ++ (tronquer <$> l.*2)) p' /\
    forall i x, l !! i = Some x -> exists e, evs !! i = Some (Some e) /\
      scelle e (zlen deps + Z.of_nat i) (tronquer x.2)).
Proof.
  intros Hok Hl. revert deps p Hok. induction Hl as [|[ev d] l (Hev & Hb & Hd) _ IH]; intros deps p Hok Hn.
  - apply wp_done. by rewrite app_nil_r.
  - cbn [deposer]. rewrite zlen_cons in Hn. pose proof (zlen_nonneg l).
    apply wp_bind. eapply wp_mono; [apply (StorePayload_long deps); [done|lia|done..]|].
    intros [[p' ev'] n] (_ & Hok' & e & -> & He). cbn [fst snd].
    apply wp_bind. eapply wp_mono; [apply (IH _ _ Hok'); rewrite zlen_app, zlen_cons, zlen_nil; lia|].
    intros [p'' evs] [Hok'' Hevs]. apply wp_done. cbn [fst snd]. split.
    + cbn [fmap list_fmap fst snd]. by rewrite <- app_assoc in Hok''.
    + intros [|i] x Hx; cbn in Hx.
      * injection Hx as <-. exists e. by rewrite Z.add_0_r.
      * destruct (Hevs i x Hx) as (e' & ? & He'). exists e'. split; [done|].
        rewrite zlen_app, zlen_cons, zlen_nil in He'.
        by replace (zlen deps + Z.of_nat (S i)) with (zlen deps + (1 + 0) + Z.of_nat i) by lia.
Qed.

Lemma inlinePayloadUsed_spec a t :
  zlen (a ++ t) = 96 -> Forall (fun x => x <> 0) a -> t = [] \/ head t = Some 0 ->
  inlinePayloadUsed (a ++ t) = Done (zlen a).
Proof.
  intros Hl Ha Ht. cut (wp (inlinePayloadUsed (a ++ t)) (fun n => n = zlen a)).
  { intros H. by apply wp_exists in H as (? & -> & ->). }
  unfold inlinePayloadUsed. rewrite Hl. apply wp_bind.
  rewrite zlen_app in Hl. pose proof (zlen_nonneg t). pose proof (zlen_nonneg a).
  apply (wp_for_range (fun i _ => i <= zlen a)); [lia|lia| |].
  - intros i _ Hi Hia. apply wp_bind, wp_idx; [rewrite zlen_app; lia|]. intros x Hx.
    destruct (decide (i < zlen a)) as [Hlt|Hge].
    + rewrite lookup_app_l in Hx by (unfold zlen in *; lia).
      pose proof (proj1 (Forall_lookup _ _) Ha _ _ Hx) as Hnz. cbn in Hnz.
      destruct (Z.eqb_spec x 0); [done|]. apply wp_done. lia.
    + assert (i = zlen a) as -> by lia. unfold zlen in Hx. rewrite Nat2Z.id, lookup_app_r, Nat.sub_diag in Hx by lia.
      destruct Ht as [->|Ht]; [done|]. destruct t as [|y t]; [done|]. cbn in Ht, Hx.
      injection Ht as ->. injection Hx as <-. by apply wp_done.
  - intros _ Hi. apply wp_done. change (Z.min 96 96) with 96 in *. lia.
Qed.

(** ** One page under concurrency

    Any number of writers and one reader, one atomic access per step.  A deposit
    is the pair of the octets stored (at most 4096) and the epoch. *)
Module Seqlock.

Inductive ecrivain : Type :=
  | ERepos
  | EVu (d : list Z) (e s : Z)
  | EMots (d : list Z) (e s w : Z)
  | ELen (d : list Z) (e s : Z)
  | ECrc (d : list Z) (e s : Z)
  | EEpoque (d : list Z) (e s : Z)
  | EPublie (d : list Z) (e s : Z).

(** Word [w] of the payload, as the copy loop of [StorePayload] forms it. *)
Definition mot (d : list Z) (w : Z) : Z :=
  unle (copy_into (replicate 8 0) (take (Nat.min 8 (length d - 8 * Z.to_nat w)) (drop (8 * Z.to_nat w) d))).
Definition avec_mot (P : ArenaPage) (w x : Z) : ArenaPage :=
  Page (<[Z.to_nat w := x]> (words P)) (seq P) (Epoch P) (Len P) (CRC32 P).
Definition avec_seq (P : ArenaPage) (s : Z) : ArenaPage := Page (words P) s (Epoch P) (Len P) (CRC32 P).

(** One atomic access of a writer; the last argument is the deposit completed. *)
Inductive ecrit (P : ArenaPage) : ecrivain -> ArenaPage -> ecrivain -> option (list Z * Z) -> Prop :=
  | ecrit_charge d e : bytes_ok d -> 96 < zlen d <= PageSize ->
      ecrit P ERepos P (EVu d e (seq P)) None
  | ecrit_recharge d e s : Z.land s 1 <> 0 \/ seq P <> s -> ecrit P (EVu d e s) P (EVu d e (seq P)) None
  | ecrit_acquiert d e s : Z.land s 1 = 0 -> seq P = s ->
      ecrit P (EVu d e s) (avec_seq P (u32 (s + 1))) (EMots d e s 0) None
  | ecrit_mot d e s w : w < (zlen d + 7) / 8 ->
      ecrit P (EMots d e s w) (avec_mot P w (mot d w)) (EMots d e s (w + 1)) None
  | ecrit_fin_mots d e s w : (zlen d + 7) / 8 <= w -> ecrit P (EMots d e s w) P (ELen d e s) None
  | ecrit_len d e s :
      ecrit P (ELen d e s) (Page (words P) (seq P) (Epoch P) (zlen d) (CRC32 P)) (ECrc d e s) None
  | ecrit_crc d e s :
      ecrit P (ECrc d e s) (Page (words P) (seq P) (Epoch P) (Len P) (crc_page d)) (EEpoque d e s) None
  | ecrit_epoque d e s :
      ecrit P (EEpoque d e s) (Page (words P) (seq P) e (Len P) (CRC32 P)) (EPublie d e s) None
  | ecrit_publie d e s :
      ecrit P (EPublie d e s) (avec_seq P (u32 (s + 2))) ERepos (Some (d, e)).

Inductive lecteur : Type :=
  | LRepos
  | LSeq (s : Z)
  | LEpoque (s : Z)
  | LLen (s : Z)
  | LMots (s : Z) (lus : list Z)
  | LRendu (lus : list Z).

(** One atomic access of [ResolvePayload] for the descriptor [(n, c, e)]; an
    error returns to [LRepos]. *)
Inductive lit (n c e : Z) (P : ArenaPage) : lecteur -> lecteur -> Prop :=
  | lit_seq : Z.land (seq P) 1 = 0 -> lit n c e P LRepos (LSeq (seq P))
  | lit_epoque s : Epoch P = e -> lit n c e P (LSeq s) (LEpoque s)
  | lit_perime s : Epoch P <> e -> lit n c e P (LSeq s) LRepos
  | lit_len s : Len P = n -> lit n c e P (LEpoque s) (LLen s)
  | lit_len_faux s : Len P <> n -> lit n c e P (LEpoque s) LRepos
  | lit_crc s : CRC32 P = c -> lit n c e P (LLen s) (LMots s [])
  | lit_crc_faux s : CRC32 P <> c -> lit n c e P (LLen s) LRepos
  | lit_mot s lus x : zlen lus < (n + 7) / 8 -> words P !! length lus = Some x ->
      lit n c e P (LMots s lus) (LMots s (lus ++ [x]))
  | lit_fin s lus : (n + 7) / 8 <= zlen lus -> seq P = s -> lit n c e P (LMots s lus) (LRendu lus)
  | lit_dechire s lus : (n + 7) / 8 <= zlen lus -> seq P <> s -> lit n c e P (LMots s lus) LRepos.

(** [histoire]: the completed deposits, oldest first; [ouverture]: how many of
    them there were when the reader loaded [seq]. *)
Record etat := Etat {
  page : ArenaPage;
  ecrivains : list ecrivain;
  lect : lecteur;
  histoire : list (list Z * Z);
  ouverture : Z
}.

Definition initial (nb : nat) : etat := Etat page_zero (replicate nb ERepos) LRepos [] 0.

Definition ouvre (q : lecteur) (h : list (list Z * Z)) (o : Z) : Z :=
  match q with LRepos => zlen h | _ => o end.

Inductive pas (n c e : Z) : etat -> etat -> Prop :=
  | pas_ecrit P P' E i w w' q h o fait :
      E !! i = Some w -> ecrit P w P' w' fait ->
      pas n c e (Etat P E q h o) (Etat P' (<[i := w']> E) q (h ++ option_list fait) o)
  | pas_lit P E q q' h o :
      lit n c e P q q' -> pas n c e (Etat P E q h o) (Etat P E q' h (ouvre q h o)).

Inductive atteint (n c e : Z) (nb : nat) : etat -> Prop :=
  | atteint_initial : atteint n c e nb (initial nb)
  | atteint_pas s s' : atteint n c e nb s -> pas n c e s s' -> atteint n c e nb s'.

Definition critique (w : ecrivain) : bool :=
  match w with ERepos | EVu _ _ _ => false | _ => true end.

Definition depot_ok (d : list Z) : Prop := bytes_ok d /\ 96 < zlen d <= PageSize.

(** What the page holds when no writer is inside. *)
Definition contenu (P : ArenaPage) (h : list (list Z * Z)) : Prop :=
  match last h with Some (d, e) => depot_ok d /\ page_porte P d e | None => Len P = 0 end.

(** Progress of the writer that holds the page. *)
Definition avance (P : ArenaPage) (w : ecrivain) (k : Z) : Prop :=
  match w with
  | ERepos | EVu _ _ _ => False
  | EMots d e s w => depot_ok d /\ s = u32 (2 * k) /\ 0 <= w <= (zlen d + 7) / 8 /\
      octets_mots (take (Z.to_nat w) (words P)) = take (8 * Z.to_nat w) (d ++ replicate 8 0)
  | ELen d e s => depot_ok d /\ s = u32 (2 * k) /\ take (length d) (octets_mots (words P)) = d
  | ECrc d e s => depot_ok d /\ s = u32 (2 * k) /\ take (length d) (octets_mots (words P)) = d /\ Len P = zlen d
  | EEpoque d e s => depot_ok d /\ s = u32 (2 * k) /\ take (length d) (octets_mots (words P)) = d /\
      Len P = zlen d /\ CRC32 P = crc_page d
  | EPublie d e s => depot_ok d /\ s = u32 (2 * k) /\ page_porte P d e
  end.

Definition local_ok (w : ecrivain) : Prop :=
  match w with EVu d _ _ => depot_ok d | _ => True end.

(** [tenant]: the writer inside, if any. *)
Definition verrou (P : ArenaPage) (E : list ecrivain) (h : list (list Z * Z)) (tenant : option nat) : Prop :=
  zlen (words P) = 512 /\ Forall local_ok E /\
  (forall i w, E !! i = Some w -> critique w = true -> tenant = Some i) /\
  match tenant with
  | None => seq P = u32 (2 * zlen h) /\ contenu P h
  | Some i => seq P = u32 (2 * zlen h + 1) /\ exists w, E !! i = Some w /\ avance P w (zlen h)
  end.

Definition lecture_ok (n c e : Z) (P : ArenaPage) (q : lecteur) (h : list (list Z * Z)) (tenant : option nat)
    (o : Z) : Prop :=
  let calme := zlen h = o /\ tenant = None in
  match q with
  | LRepos => True
  | LSeq s => s = u32 (2 * o)
  | LEpoque s => s = u32 (2 * o) /\ (calme -> Epoch P = e)
  | LLen s => s = u32 (2 * o) /\ (calme -> Epoch P = e /\ Len P = n)
  | LMots s lus => s = u32 (2 * o) /\
      (calme -> Epoch P = e /\ Len P = n /\ CRC32 P = c /\ lus = take (length lus) (words P))
  | LRendu lus => exists d, (d, e) ∈ h /\ zlen d = n /\ crc_page d = c /\
      take (length d) (octets_mots lus) = d
  end.
Lemma impair_pair k s : s = u32 (2 * k + 1) -> Z.land s 1 <> 0.
Proof.
  intros ->. change 1 with (Z.ones 1) at 2. rewrite Z.land_ones by lia. unfold u32.
  change (2 ^ 1) with 2. change (2 ^ 32) with 4294967296. divlia.
Qed.

Lemma u32_succ k j s : s = u32 k -> u32 (s + j) = u32 (k + j).
Proof. intros ->. unfold u32. by rewrite Z.add_mod_idemp_l. Qed.

(** Same holder, same page: only the local state of a writer outside changes. *)
Lemma verrou_local P E h t i w w' :
  verrou P E h t -> E !! i = Some w -> critique w = false -> critique w' = false -> local_ok w' ->
  verrou P (<[i := w']> E) h t.
Proof.
  intros (HW & HE & Hc & Ht) Hi Hw Hw' Hl. split; [done|]. split; [by apply Forall_insert|]. split.
  - intros j x Hj Hx. apply list_lookup_insert_Some in Hj as [(-> & <- & _)|[_ Hj]]; [congruence|by eapply Hc].
  - destruct t as [k|]; [|done]. destruct Ht as [Hs (x & Hk & Ha)]. split; [done|].
    exists x. split; [|done]. destruct (decide (i = k)) as [->|Hne]; [|by rewrite list_lookup_insert_ne].
    rewrite Hi in Hk. injection Hk as <-. by destruct w.
Qed.

(** The holder moves on, still inside. *)
Lemma verrou_tenant P P' E h t i w w' :
  verrou P E h t -> E !! i = Some w -> critique w' = true -> t = None \/ t = Some i -> local_ok w' ->
  zlen (words P') = 512 -> seq P' = u32 (2 * zlen h + 1) -> avance P' w' (zlen h) ->
  verrou P' (<[i := w']> E) h (Some i).
Proof.
  intros (HW & HE & Hc & _) Hi Hw' Ht Hl HW' Hs Ha. split; [done|]. split; [by apply Forall_insert|]. split.
  - intros j x Hj Hx. apply list_lookup_insert_Some in Hj as [(-> & _ & _)|[_ Hj]]; [done|].
    specialize (Hc _ _ Hj Hx). destruct Ht as [->| ->]; congruence.
  - split; [done|]. exists w'. split; [|done]. apply list_lookup_insert_eq. by eapply lookup_lt_Some.
Qed.

(** The holder leaves. *)
Lemma verrou_sortie P P' E h i w d e :
  verrou P E h (Some i) -> E !! i = Some w -> depot_ok d ->
  zlen (words P') = 512 -> seq P' = u32 (2 * (zlen h + 1)) -> page_porte P' d e ->
  verrou P' (<[i := ERepos]> E) (h ++ [(d, e)]) None.
Proof.
  intros (HW & HE & Hc & _) Hi Hd HW' Hs Hp. split; [done|]. split; [by apply Forall_insert|]. split.
  - intros j x Hj Hx. apply list_lookup_insert_Some in Hj as [(-> & <- & _)|[Hne Hj]]; [done|].
    specialize (Hc _ _ Hj Hx). congruence.
  - split; [by rewrite zlen_app|]. unfold contenu. by rewrite last_snoc.
Qed.

Lemma tenant_unique P E h t i w :
  verrou P E h t -> E !! i = Some w -> critique w = true ->
  t = Some i /\ seq P = u32 (2 * zlen h + 1) /\ avance P w (zlen h).
Proof.
  intros (_ & _ & Hc & Ht) Hi Hw. pose proof (Hc _ _ Hi Hw) as ->. destruct Ht as [Hs (x & Hx & Ha)].
  rewrite Hi in Hx. by injection Hx as <-.
Qed.

Lemma avance_mot P d e s w k : zlen (words P) = 512 -> w < (zlen d + 7) / 8 ->
  avance P (EMots d e s w) k -> avance (avec_mot P w (mot d w)) (EMots d e s (w + 1)) k.
Proof.
  intros HW Hlt (Hd & Hs & Hw & Ho). destruct Hd as [Hb Hd]. split; [done|]. split; [done|]. split; [lia|].
  assert (H8 : (8 * Z.to_nat w < length d <= length d)%nat) by (unfold zlen in *; divlia).
  unfold avec_mot; cbn [words]. unfold PageSize in Hd.
  rewrite take_insert_snoc by (rewrite HW; divlia). rewrite octets_mots_app, Ho.
  unfold mot. rewrite mot_payload, (take_ge d) by lia. cbn [octets_mots]. rewrite app_nil_r.
  set (pad := d ++ replicate 8 0).
  assert (Hpad : bytes_ok pad) by (apply bytes_ok_app; [done|by apply bytes_ok_replicate]).
  assert (Hl8 : length (take 8 (drop (8 * Z.to_nat w) pad)) = 8%nat)
    by (unfold pad; rewrite length_take, length_drop, length_app, length_replicate; lia).
  pose proof (le_unle _ (bytes_ok_take _ 8 (bytes_ok_drop _ (8 * Z.to_nat w) Hpad))) as Hle.
  rewrite Hl8 in Hle. rewrite Hle, take_take_drop. f_equal. lia.
Qed.

Lemma avance_fin_mots P d e s w k : (zlen d + 7) / 8 <= w ->
  avance P (EMots d e s w) k -> avance P (ELen d e s) k.
Proof.
  intros Hge (Hd & Hs & Hw & Ho). split; [done|]. split; [done|].
  assert (Hk : (length d <= 8 * Z.to_nat w)%nat) by (unfold zlen in *; divlia).
  rewrite <- (Nat.min_l _ _ Hk), <- take_take, take_octets_mots, Ho, take_take, Nat.min_l by done.
  by rewrite take_app_length.
Qed.

(** A step of a writer keeps the lock invariant; if the page is at rest
    afterwards with no new deposit, nothing moved. *)
Lemma verrou_ecrit P E h t i w P' w' fait :
  verrou P E h t -> E !! i = Some w -> ecrit P w P' w' fait ->
  exists t', verrou P' (<[i := w']> E) (h ++ option_list fait) t' /\
    (t' = None -> fait = None -> P' = P /\ t = None).
Proof.
  intros Hv Hi He. pose proof Hv as (HW & HE & _ & Ht).
  assert (Hloc : local_ok w) by exact (proj1 (Forall_lookup _ _) HE _ _ Hi).
  destruct He as [d e Hb Hd|d e s _|d e s Hp Hs|d e s w Hw|d e s w Hw|d e s|d e s|d e s|d e s];
    cbn [option_list]; rewrite ?app_nil_r.
  - exists t. split; [by eapply verrou_local|done].
  - exists t. split; [by eapply verrou_local|done].
  - assert (t = None) as ->.
    { destruct t as [k|]; [|done]. exfalso. apply (impair_pair (zlen h) s); [|done]. subst s. apply Ht. }
    destruct Ht as [Hsq _]. exists (Some i). split; [|done].
    assert (s = u32 (2 * zlen h)) as Hs' by congruence.
    eapply verrou_tenant; [exact Hv|exact Hi|done|by left|done|done| |].
    + cbn. by apply u32_succ.
    + split; [exact Hloc|]. split; [done|]. split; [|done].
      destruct Hloc as [_ Hl]. unfold PageSize in Hl. divlia.
  - destruct (tenant_unique _ _ _ _ _ _ Hv Hi eq_refl) as (-> & Hs & Ha). exists (Some i). split; [|done].
    eapply verrou_tenant; [exact Hv|exact Hi|done|by right|done|cbn; by rewrite zlen_insert|done|by apply avance_mot].
  - destruct (tenant_unique _ _ _ _ _ _ Hv Hi eq_refl) as (-> & Hs & Ha). exists (Some i). split; [|done].
    eapply verrou_tenant; [exact Hv|exact Hi|done|by right|done|done|done|by eapply avance_fin_mots].
  - destruct (tenant_unique _ _ _ _ _ _ Hv Hi eq_refl) as (-> & Hs & Ha). exists (Some i). split; [|done].
    eapply verrou_tenant; [exact Hv|exact Hi|done|by right|done|done|done|].
    destruct Ha as (H1 & H2 & H3). done.
  - destruct (tenant_unique _ _ _ _ _ _ Hv Hi eq_refl) as (-> & Hs & Ha). exists (Some i). split; [|done].
    eapply verrou_tenant; [exact Hv|exact Hi|done|by right|done|done|done|].
    destruct Ha as (H1 & H2 & H3 & H4). done.
  - destruct (tenant_unique _ _ _ _ _ _ Hv Hi eq_refl) as (-> & Hs & Ha). exists (Some i). split; [|done].
    eapply verrou_tenant; [exact Hv|exact Hi|done|by right|done|done|done|].
    destruct Ha as (H1 & H2 & H3 & H4 & H5). done.
  - destruct (tenant_unique _ _ _ _ _ _ Hv Hi eq_refl) as (-> & Hs & Ha). exists None. split; [|done].
    destruct Ha as (H1 & H2 & H3).
    eapply verrou_sortie; [exact Hv|exact Hi|done|done| |done].
    cbn. rewrite (u32_succ (2 * zlen h) 2 s H2). f_equal. lia.
Qed.

(** The closing test of the reader. *)
Lemma fermeture P E h t o : verrou P E h t -> o <= zlen h -> zlen h - o < 2 ^ 31 ->
  seq P = u32 (2 * o) -> zlen h = o /\ t = None.
Proof.
  intros (_ & _ & _ & Ht) Ho Hb Hs. destruct t as [i|]; destruct Ht as [Hq _]; rewrite Hq in Hs;
    unfold u32 in Hs; change (2 ^ 32) with 4294967296 in Hs; change (2 ^ 31) with 2147483648 in Hb.
  - exfalso. divlia.
  - split; [divlia|done].
Qed.

Lemma lecture_lit n c e P E q q' h t o :
  96 < n -> verrou P E h t -> o <= zlen h -> (q <> LRepos -> zlen h - o < 2 ^ 31) ->
  lecture_ok n c e P q h t o -> lit n c e P q q' -> lecture_ok n c e P q' h t (ouvre q h o).
Proof.
  intros Hn Hv Ho Hb Hq Hl. pose proof Hv as (_ & _ & _ & Ht).
  destruct Hl as [Hs|s He|s He|s He|s He|s He|s He|s lus x Hx Hw|s lus Hf Hs|s lus Hf Hs]; cbn in *; try done.
  - destruct t as [i|]; [|apply Ht]. exfalso. eapply impair_pair; [apply Ht|done].
  - destruct Hq as [-> Hq]. split; [done|]. intros Hc. destruct (Hq Hc). done.
  - destruct Hq as [-> Hq]. split; [done|]. intros Hc. by destruct (Hq Hc).
  - destruct Hq as [-> Hq]. split; [done|]. intros Hc. destruct (Hq Hc) as (H1 & H2 & H3 & H4).
    split; [done|]. split; [done|]. split; [done|]. rewrite length_app, Nat.add_1_r.
    rewrite (take_S_r _ _ x Hw). by rewrite <- H4.
  - destruct Hq as [-> Hq]. pose proof (fermeture _ _ _ _ _ Hv Ho (Hb ltac:(done)) Hs) as Hc.
    destruct (Hq Hc) as (H1 & H2 & H3 & H4). destruct Hc as [_ ->]. destruct Ht as [_ Hct].
    unfold contenu in Hct. destruct (last h) as [[d e']|] eqn:El; [|lia].
    destruct Hct as (_ & G1 & G2 & G3 & G4). exists d.
    split; [apply last_Some in El as [l ->]; rewrite <- H1, G1; apply elem_of_app; right; apply list_elem_of_singleton; done|].
    split; [by rewrite <- G2|]. split; [by rewrite <- G3|].
    assert (Hk : (length d <= 8 * length lus)%nat) by (unfold zlen in *; divlia).
    rewrite H4, <- take_octets_mots, take_take, Nat.min_l by done. exact G4.
Qed.

Lemma lecture_ecrit n c e P P' h h' t t' q o :
  o <= zlen h <= zlen h' -> (forall x, x ∈ h -> x ∈ h') ->
  (t' = None -> zlen h' = zlen h -> P' = P /\ t = None) ->
  lecture_ok n c e P q h t o -> lecture_ok n c e P' q h' t' o.
Proof.
  intros Hh Hin Hf Hq.
  assert (Hc : zlen h' = o /\ t' = None -> P' = P /\ zlen h = o /\ t = None).
  { intros [Hz Ht']. destruct (Hf Ht' ltac:(lia)) as [HP Ht]. split; [done|]. split; [lia|done]. }
  destruct q as [|s|s|s|s lus|lus]; cbn in *; try done.
  - destruct Hq as [-> Hq]. split; [done|]. intros Hx. destruct (Hc Hx) as (-> & Hy). by apply Hq.
  - destruct Hq as [-> Hq]. split; [done|]. intros Hx. destruct (Hc Hx) as (-> & Hy). by apply Hq.
  - destruct Hq as [-> Hq]. split; [done|]. intros Hx. destruct (Hc Hx) as (-> & Hy). by apply Hq.
  - destruct Hq as (d & Hd & Hq). exists d. split; [by apply Hin|done].
Qed.

Definition inv (n c e : Z) (s : etat) : Prop :=
  exists t, verrou (page s) (ecrivains s) (histoire s) t /\ 0 <= ouverture s <= zlen (histoire s) /\
    (lect s <> LRepos -> zlen (histoire s) - ouverture s < 2 ^ 31 ->
     lecture_ok n c e (page s) (lect s) (histoire s) t (ouverture s)).

Lemma page_inv_initial n c e nb : inv n c e (initial nb).
Proof.
  exists None. split; [|by split]. split; [by vm_compute|]. split; [by apply Forall_replicate|].
  split; [|done]. intros i w Hi. apply lookup_replicate in Hi as [-> _]. done.
Qed.

Lemma page_inv_pas n c e s s' : 96 < n -> inv n c e s -> pas n c e s s' -> inv n c e s'.
Proof.
  intros Hn (t & Hv & Ho & Hq) Hp. destruct Hp as [P P' E i w w' q h o fait Hi He|P E q q' h o Hl].
  - destruct (verrou_ecrit _ _ _ _ _ _ _ _ _ Hv Hi He) as (t' & Hv' & Hf). exists t'. cbn in *.
    pose proof (zlen_nonneg (option_list fait)).
    split; [done|]. rewrite zlen_app. split; [lia|]. intros Hr Hb.
    apply (lecture_ecrit n c e P P' h _ t t'); [rewrite zlen_app; lia| | |apply Hq; [done|lia]].
    + intros x Hx. apply elem_of_app. by left.
    + intros Ht' Hz. rewrite zlen_app in Hz. destruct fait; [cbn in Hz; rewrite zlen_cons, zlen_nil in Hz; lia|]. by apply Hf.
  - exists t. cbn in *. split; [done|].
    assert (Hoo : 0 <= ouvre q h o <= zlen h) by (destruct q; cbn; lia).
    split; [done|]. intros Hr Hb. assert (q = LRepos \/ q <> LRepos) as [->|Hne] by (destruct q; auto).
    + eapply lecture_lit; [done|done|lia|done|done|done].
    + assert (Ho' : ouvre q h o = o) by by destruct q. rewrite Ho' in Hb.
      eapply lecture_lit; [done|done|lia|done|by apply Hq|done].
Qed.

Lemma page_atteint_inv n c e nb s : 96 < n -> atteint n c e nb s -> inv n c e s.
Proof. intros Hn. induction 1; [apply page_inv_initial|by eapply page_inv_pas]. Qed.
End Seqlock.

(** ** Properties *)

(** C5: after any sequence of fewer than 2^42 long deposits ([StorePayload] on
    payloads of more than 96 octets), every call returned, every event carries
    its first 80 octets in clear, and resolving the event of any earlier deposit
    gives exactly its payload (cut at 4096 octets) while at most 1024 deposits
    separate it from the end, and [ErrArenaStale] as soon as its page has been
    recycled: never the octets of another deposit. *)
Theorem depot_resolution l :
  Forall depot_valide l -> zlen l < 2 ^ 42 ->
  exists p evs, deposer NewArenaPool l = Done (p, evs) /\
    forall i ev d, l !! i = Some (ev, d) -> exists e, evs !! i = Some (Some e) /\
      take 80 (Payload e) = take 80 d /\
      forall dst, zlen dst = PageSize -> exists dst',
        ResolvePayload p (Some e) (Some dst) =
        Done (if zlen l <=? Z.of_nat i + 1024 then Charge (take 4096 d) else Erreur ErrArenaStale, dst').
Proof.
  intros Hl Hn. pose proof (deposer_ok l [] NewArenaPool arene_ok_init Hl Hn) as H.
  apply wp_exists in H as ([p evs] & -> & Hok & Hevs). exists p, evs. split; [done|].
  intros i ev d Hi. destruct (Hevs i _ Hi) as (e & He & Hs). rewrite zlen_nil, Z.add_0_l in Hs. cbn [snd] in Hs.
  pose proof (proj1 (Forall_lookup _ _) Hl _ _ Hi) as (_ & _ & Hd). cbn [snd] in Hd.
  exists e. split; [done|]. split.
  { destruct Hs as (_ & _ & -> & _). unfold tronquer, PageSize. by rewrite take_take. }
  intros dst Hdst.
  assert (Hz : zlen ([] ++ (tronquer <$> l.*2)) = zlen l) by (unfold zlen; by rewrite app_nil_l, !length_fmap).
  pose proof (ResolvePayload_scelle _ p e dst (Z.of_nat i) (tronquer d) Hok) as H.
  rewrite Hz in H. pose proof (H Hn Hs ltac:(lia)) as H'. clear H.
  rewrite app_nil_l, !list_lookup_fmap, Nat2Z.id, Hi in H'. specialize (H' eq_refl).
  assert (96 < zlen (tronquer d) <= PageSize)
    by (unfold tronquer, zlen, PageSize in *; rewrite length_take; lia).
  apply wp_exists in H' as ([r dst'] & -> & ->); [|done..]. by exists dst'.
Qed.

(** A short payload (at most 96 octets) is stored in the event itself, the
    long-payload bit is cleared and resolving gives back its octets up to the
    first NUL: the whole payload when it holds none. *)
Theorem charge_courte p ev d a r dst :
  length (Payload ev) = 96%nat -> 0 < zlen d <= 96 ->
  d = a ++ r -> Forall (fun x => x <> 0) a -> r = [] \/ head r = Some 0 ->
  exists e, StorePayload p (Some ev) d = Done (p, Some e, zlen d) /\
    Z.land (Flags e) FlagLongPayload = 0 /\ take (length d) (Payload e) = d /\
    ResolvePayload p (Some e) dst = Done (Charge a, dst).
Proof.
  intros Hev Hd -> Ha Hr. set (d := a ++ r) in *.
  unfold StorePayload. destruct (Z.eqb_spec (zlen d) 0); [lia|]. destruct (Z.leb_spec (zlen d) 96); [|lia].
  eexists. split; [done|]. cbn [Flags Payload avec_drapeaux avec_payload]. rewrite Hev.
  assert (Hc : copy_into (replicate 96 0) d = a ++ (r ++ replicate (96 - length d) 0)).
  { unfold copy_into. rewrite length_replicate, drop_replicate, take_ge by (unfold zlen in Hd; lia).
    unfold d. by rewrite app_assoc. }
  assert (Hl : zlen (a ++ (r ++ replicate (96 - length d) 0)) = 96).
  { rewrite <- Hc, zlen_copy_into. by vm_compute. }
  assert (Hz : Z.land (Z.ldiff (Flags ev) FlagLongPayload) FlagLongPayload = 0).
  { apply Z.land_ldiff. }
  split; [done|]. rewrite Hc. split.
  { rewrite app_assoc. fold d. by apply take_app_length. }
  unfold ResolvePayload. cbn [Flags Payload avec_drapeaux avec_payload].
  rewrite Hz, Z.eqb_refl. rewrite inlinePayloadUsed_spec; [|done|done|].
  - rewrite run_bind_done. unfold slice. pose proof (zlen_nonneg a).
    rewrite Hl. destruct (Z.leb_spec (zlen a) 96) as [_|Hlt]; [|rewrite zlen_app in Hl; pose proof (zlen_nonneg (r ++ replicate (96 - length d) 0)); lia].
    destruct (Z.leb_spec 0 (zlen a)); [|lia]. cbn [andb Z.leb Z.compare]. rewrite run_bind_done, Z.sub_0_r, drop_0.
    unfold zlen. rewrite Nat2Z.id. by rewrite take_app_length.
  - destruct Hr as [->|Hr]; [|right; by destruct r].
    destruct (96 - length d)%nat; [by left|by right].
Qed.

(** C2: any number of writers and a reader interleave one atomic access at a
    time on one page.  At most one writer is ever between its acquisition and its
    release.  When [ResolvePayload] closes successfully on the descriptor
    [(n, c, e)] - no error - the octets it returns are exactly those of one
    completed deposit of epoch [e], length [n] and checksum [c]: never a mixture
    of two deposits nor a deposit in progress.  (Fewer than 2^31 deposits on this
    page since the reader opened it, the width of [seq].) *)
Theorem page_indechirable n c e nb s :
  96 < n -> Seqlock.atteint n c e nb s ->
  (forall i j w x, Seqlock.ecrivains s !! i = Some w -> Seqlock.ecrivains s !! j = Some x ->
     Seqlock.critique w = true -> Seqlock.critique x = true -> i = j) /\
  forall lus, Seqlock.lect s = Seqlock.LRendu lus ->
    zlen (Seqlock.histoire s) - Seqlock.ouverture s < 2 ^ 31 ->
    exists d, (d, e) ∈ Seqlock.histoire s /\ zlen d = n /\ crc_page d = c /\
      take (Z.to_nat n) (octets_mots lus) = d.
Proof.
  intros Hn Hs. destruct (Seqlock.page_atteint_inv _ _ _ _ _ Hn Hs) as (t & (_ & _ & Hc & _) & _ & Hq). split.
  - intros i j w x Hi Hj Hw Hx. pose proof (Hc _ _ Hi Hw). pose proof (Hc _ _ Hj Hx). congruence.
  - intros lus Hl Hb. rewrite Hl in Hq. destruct (Hq ltac:(done) Hb) as (d & Hd & Hz & Hcrc & Ht).
    exists d. split; [done|]. split; [done|]. split; [done|]. rewrite <- Hz. unfold zlen. by rewrite Nat2Z.id.
Qed.

(** ** Witnesses *)

Lemma ecrivain_seul n c e nb P w P' w' q h h' o fait :
  Seqlock.ecrit P w P' w' fait -> h' = h ++ option_list fait ->
  Seqlock.atteint n c e nb (Seqlock.Etat P [w] q h o) ->
  Seqlock.atteint n c e nb (Seqlock.Etat P' [w'] q h' o).
Proof.
  intros He -> Ha. eapply Seqlock.atteint_pas; [exact Ha|].
  by apply (Seqlock.pas_ecrit _ _ _ P P' [w] 0 w w' q h o fait eq_refl).
Qed.

Lemma mots_ecrits n c e' nb P d e s k q h o : (k <= Z.to_nat ((zlen d + 7) / 8))%nat ->
  Seqlock.atteint n c e' nb (Seqlock.Etat P [Seqlock.EMots d e s 0] q h o) ->
  exists W, zlen W = zlen (words P) /\
    Seqlock.atteint n c e' nb
      (Seqlock.Etat (Page W (seq P) (Epoch P) (Len P) (CRC32 P)) [Seqlock.EMots d e s (Z.of_nat k)] q h o).
Proof.
  intros Hk Ha. induction k as [|k IH]; [exists (words P); split; [done|]; by destruct P|].
  destruct IH as (W & HW & H); [lia|].
  exists (<[Z.to_nat (Z.of_nat k) := Seqlock.mot d (Z.of_nat k)]> W). split; [by rewrite zlen_insert|].
  eapply (ecrivain_seul _ _ _ _ _ _ _ _ q h h o None); [|symmetry; apply app_nil_r|exact H].
  rewrite Nat2Z.inj_succ, <- Z.add_1_r. apply Seqlock.ecrit_mot. lia.
Qed.

Lemma mots_lus n c e nb P E s k h o : (k <= Z.to_nat ((n + 7) / 8))%nat -> (n + 7) / 8 <= zlen (words P) ->
  Seqlock.atteint n c e nb (Seqlock.Etat P E (Seqlock.LMots s []) h o) ->
  exists lus, length lus = k /\ Seqlock.atteint n c e nb (Seqlock.Etat P E (Seqlock.LMots s lus) h o).
Proof.
  intros Hk Hn Ha. induction k as [|k IH]; [by exists []|].
  destruct IH as (lus & Hl & H); [lia|].
  destruct (lookup_lt_is_Some_2 (words P) (length lus)) as [x Hx]; [unfold zlen in *; lia|].
  exists (lus ++ [x]). split; [rewrite length_app; cbn; lia|].
  eapply Seqlock.atteint_pas; [exact H|]. apply (Seqlock.pas_lit n c e P E (Seqlock.LMots s lus) (Seqlock.LMots s (lus ++ [x])) h o).
  apply Seqlock.lit_mot; [unfold zlen; lia|done].
Qed.

(** A deposit followed by its resolution. *)
Lemma depot_puis_lecture d e : bytes_ok d -> 96 < zlen d <= PageSize ->
  exists s lus, Seqlock.atteint (zlen d) (crc_page d) e 1 s /\ Seqlock.lect s = Seqlock.LRendu lus /\
    Seqlock.histoire s = [(d, e)] /\ Seqlock.ouverture s = 1.
Proof.
  intros Hb Hd. pose proof (Seqlock.atteint_initial (zlen d) (crc_page d) e 1) as H.
  unfold Seqlock.initial in H. cbn [replicate] in H.
  eapply ecrivain_seul in H; [|by apply (Seqlock.ecrit_charge _ d e)|reflexivity].
  eapply ecrivain_seul in H; [|by apply Seqlock.ecrit_acquiert|reflexivity].
  apply (mots_ecrits _ _ _ _ _ _ _ _ (Z.to_nat ((zlen d + 7) / 8))) in H as (M & HM & H); [|lia].
  unfold PageSize in Hd.
  eapply ecrivain_seul in H; [|apply Seqlock.ecrit_fin_mots; divlia|reflexivity].
  eapply ecrivain_seul in H; [|apply Seqlock.ecrit_len|reflexivity].
  eapply ecrivain_seul in H; [|apply Seqlock.ecrit_crc|reflexivity].
  eapply ecrivain_seul in H; [|apply Seqlock.ecrit_epoque|reflexivity].
  eapply ecrivain_seul in H; [|apply Seqlock.ecrit_publie|reflexivity].
  cbn [Seqlock.avec_seq words seq Epoch Len CRC32 option_list app] in H.
  assert (L : forall P q q' o, Seqlock.lit (zlen d) (crc_page d) e P q q' ->
     Seqlock.atteint (zlen d) (crc_page d) e 1 (Seqlock.Etat P [Seqlock.ERepos] q [(d, e)] o) ->
     Seqlock.atteint (zlen d) (crc_page d) e 1
       (Seqlock.Etat P [Seqlock.ERepos] q' [(d, e)] (Seqlock.ouvre q [(d, e)] o))).
  { intros P q q' o Hl Ha. eapply Seqlock.atteint_pas; [exact Ha|]. by apply Seqlock.pas_lit. }
  eapply L in H; [|by apply Seqlock.lit_seq].
  eapply L in H; [|by apply Seqlock.lit_epoque].
  eapply L in H; [|by apply Seqlock.lit_len].
  eapply L in H; [|by apply Seqlock.lit_crc].
  apply (mots_lus _ _ _ _ _ _ _ (Z.to_nat ((zlen d + 7) / 8))) in H as (lus & Hl & H); [|lia|].
  2: { change (zlen M = 512) in HM. cbn [words Seqlock.avec_seq]. rewrite HM. divlia. }
  eapply L in H; [|apply Seqlock.lit_fin; [unfold zlen at 2; rewrite Hl; divlia|done]].
  eexists _, lus. split; [exact H|done].
Qed.

Definition longue_exemple : list Z := replicate 100 65.

Lemma page_indechirable_witness : exists s lus,
  Seqlock.lect s = Seqlock.LRendu lus /\ exists d, (d, 7) ∈ Seqlock.histoire s /\ zlen d = 100 /\
    crc_page d = crc_page longue_exemple /\ take (Z.to_nat 100) (octets_mots lus) = d.
Proof.
  destruct (depot_puis_lecture longue_exemple 7) as (s & lus & Hs & Hl & Hh & Ho);
    [by apply octets_valides_ok|by vm_compute|].
  exists s, lus. split; [exact Hl|].
  refine (proj2 (page_indechirable 100 (crc_page longue_exemple) 7 1 s _ Hs) lus Hl _);
    [reflexivity|rewrite Hh, Ho; by vm_compute].
Defined.

Lemma depot_resolution_witness :
  Forall depot_valide [(event_zero, longue_exemple)] /\
  exists p evs, deposer NewArenaPool [(event_zero, longue_exemple)] = Done (p, evs) /\
    exists e, evs !! 0%nat = Some (Some e) /\ forall dst, zlen dst = PageSize -> exists dst',
      ResolvePayload p (Some e) (Some dst) = Done (Charge longue_exemple, dst').
Proof.
  assert (H : Forall depot_valide [(event_zero, longue_exemple)]).
  { apply Forall_singleton. split; [reflexivity|]. split; [by apply octets_valides_ok|reflexivity]. }
  split; [exact H|].
  destruct (depot_resolution [(event_zero, longue_exemple)] H) as (p & evs & Hd & Hr); [reflexivity|].
  exists p, evs. split; [exact Hd|]. destruct (Hr 0%nat _ _ eq_refl) as (e & He & _ & Hx).
  exists e. split; [exact He|exact Hx].
Defined.

Lemma charge_courte_witness : exists e,
  StorePayload NewArenaPool (Some event_zero) [104; 105; 0; 1] = Done (NewArenaPool, Some e, 4) /\
  ResolvePayload NewArenaPool (Some e) None = Done (Charge [104; 105], None).
Proof.
  destruct (charge_courte NewArenaPool event_zero [104; 105; 0; 1] [104; 105] [0; 1] None)
    as (e & H1 & _ & _ & H2); [reflexivity|vm_compute; split; [reflexivity|discriminate]|reflexivity| |right; reflexivity|].
  - constructor; [discriminate|]. constructor; [discriminate|constructor].
  - exists e. split; [exact H1|exact H2].
Defined.
