(* ===== verification/Codebook.v ===== *)
(** The RaBitQ codebook (src/internal/engine/codebook.go): entries of 512-bit
    codes, the contiguous .c2book image, and the Hamming searches.  The
    theorems: loading the image just saved gives the entries back whatever
    follows, every truncation is refused, and the searches with early
    abandon return exactly the nearest (first among equals) and all the
    entries within the radius. *)
From S2P Require Import Prelude Trame Bits.

(** ** Data *)

Record CodebookEntry := Entry {
  Bitcode : list Z;
  ThreatID : Z;
  Subsystem : Z;
  Severity : Z
}.
Definition entry_zero : CodebookEntry := Entry (replicate 8 0) 0 0 0.
Record CodebookMatch := Match { Entry_ : CodebookEntry; Distance : Z }.
Record CodebookHeader := Header {
  Magic : list Z;
  Version : Z;
  VectorDim : Z;
  EntryCount : Z;
  Reserved : list Z
}.

Definition codebookEntrySize : nat := 72.
Definition codebookHeaderSize : nat := 32.
Definition codebookVersion : Z := 1.
Definition codebookVectorDim : Z := 512.
Definition codebookBits : Z := 512.
Definition codebookMaxEntries : Z := 2 ^ 24.
Definition codebookMagic : list Z := octets "C2BOOK1" ++ [0].

Inductive erreur_codebook : Type :=
  | ErrCodebookMagic | ErrCodebookVersion (v : Z) | ErrCodebookDim (d : Z) | ErrCodebookCorrupt | ErrCodebookHuge (n : Z).

(** ** Serialisation *)

Definition encodeCodebookHeader (h : CodebookHeader) : list Z :=
  Magic h ++ le 2 (Version h) ++ le 2 (VectorDim h) ++ le 4 (EntryCount h) ++ Reserved h.
Definition decodeCodebookHeader (src : list Z) : CodebookHeader :=
  Header (segment src 0 8) (unle (segment src 8 10)) (unle (segment src 10 12))
    (unle (segment src 12 16)) (segment src 16 32).

Definition encodeCodebookEntry (e : CodebookEntry) : list Z :=
  octets_mots (Bitcode e) ++ le 4 (ThreatID e) ++ le 2 (Subsystem e) ++ le 2 (Severity e).
Definition decodeCodebookEntry (src : list Z) : CodebookEntry :=
  Entry ((fun k => unle (segment src (k * 8) (k * 8 + 8))) <$> List.seq 0 8)
    (unle (segment src 64 68)) (unle (segment src 68 70)) (unle (segment src 70 72)).

(** The octets written to the file. *)
Definition SaveCodebook (entries : list CodebookEntry) : list Z :=
  encodeCodebookHeader (Header codebookMagic codebookVersion codebookVectorDim
    (u32 (zlen entries)) (replicate 16 0)) ++
  foldr (fun e acc => encodeCodebookEntry e ++ acc) [] entries.

Fixpoint lire_entrees (n : nat) (l : list Z) : option (list CodebookEntry) :=
  match n with
  | O => Some []
  | S n =>
      '(eb, l) ← ReadFull codebookEntrySize l;
      r ← lire_entrees n l;
      Some (decodeCodebookEntry eb :: r)
  end.

(** [LoadCodebook] on the contents of an opened file. *)
Definition LoadCodebook (l : list Z) : erreur_codebook + list CodebookEntry :=
  match ReadFull codebookHeaderSize l with
  | None => inl ErrCodebookCorrupt
  | Some (hb, l) =>
      let hdr := decodeCodebookHeader hb in
      if negb (egaux (Magic hdr) codebookMagic) then inl ErrCodebookMagic else
      if negb (Version hdr =? codebookVersion) then inl (ErrCodebookVersion (Version hdr)) else
      if negb (VectorDim hdr =? codebookVectorDim) then inl (ErrCodebookDim (VectorDim hdr)) else
      if codebookMaxEntries <? EntryCount hdr then inl (ErrCodebookHuge (EntryCount hdr)) else
      match lire_entrees (Z.to_nat (EntryCount hdr)) l with
      | Some e => inr e
      | None => inl ErrCodebookCorrupt
      end
  end.

(** ** Hamming distance *)

Definition codebookHamming (q : list Z) (e : CodebookEntry) : Z :=
  somme (zip_with (fun x y => OnesCount64 (Z.lxor x y)) q (Bitcode e)).

(** Word by word, giving up as soon as the threshold is passed. *)
Fixpoint hamming_suite (d : Z) (q b : list Z) (maxHamming : Z) : Z :=
  match q, b with
  | x :: q, y :: b =>
      let d := d + OnesCount64 (Z.lxor x y) in
      if maxHamming <? d then d else hamming_suite d q b maxHamming
  | _, _ => d
  end.
Definition codebookHammingBounded (q : list Z) (e : CodebookEntry) (maxHamming : Z) : Z :=
  hamming_suite 0 q (Bitcode e) maxHamming.

(** ** Searches: [None] is a nil codebook or query *)

Definition distance_cherchee (q : list Z) (e : CodebookEntry) (maxHamming : Z) : Z :=
  if maxHamming <? codebookBits then codebookHammingBounded q e maxHamming else codebookHamming q e.

(** One turn of the nearest-neighbour loop, on (best, match, found). *)
Definition retenir (dist : CodebookEntry -> Z) (maxHamming : Z) (s : Z * CodebookEntry * bool) (e : CodebookEntry)
  : Z * CodebookEntry * bool :=
  let '(best, m, found) := s in
  let d := dist e in
  if (d <=? maxHamming) && (d <? best) then (d, e, true) else (best, m, found).

Definition SearchNearest (cb : option (list CodebookEntry)) (query : option (list Z)) (maxHamming : Z)
  : CodebookEntry * Z * bool :=
  match cb, query with
  | Some entries, Some q =>
      let '(best, m, found) :=
        fold_left (retenir (fun e => distance_cherchee q e maxHamming) maxHamming) entries
          (maxHamming + 1, entry_zero, false) in
      if found then (m, best, true) else (entry_zero, 0, false)
  | _, _ => (entry_zero, 0, false)
  end.

(** [outMatches] is written in place up to its length. *)
Definition SearchAll (cb : option (list CodebookEntry)) (query : option (list Z)) (maxHamming : Z)
    (outMatches : list CodebookMatch) : list CodebookMatch * Z :=
  match cb, query with
  | Some entries, Some q =>
      fold_left (fun (s : list CodebookMatch * Z) e =>
        let '(out, total) := s in
        let d := distance_cherchee q e maxHamming in
        if d <=? maxHamming then
          ((if total <? zlen out then <[Z.to_nat total := Match e d]> out else out), total + 1)
        else (out, total)) entries (outMatches, 0)
  | _, _ => (outMatches, 0)
  end.

Definition Len (cb : option (list CodebookEntry)) : Z :=
  match cb with None => 0 | Some l => zlen l end.
Definition Entries (cb : option (list CodebookEntry)) : list CodebookEntry :=
  match cb with None => [] | Some l => l end.

(** ** Hot replacement: the atomic pointer is one cell *)

Definition Swap (ac cb : option (list CodebookEntry)) : option (list CodebookEntry) := cb.
Definition ReloadFile (ac : option (list CodebookEntry)) (l : list Z)
  : option (list CodebookEntry) * option erreur_codebook :=
  match LoadCodebook l with
  | inl err => (ac, Some err)
  | inr cb => (Swap ac (Some cb), None)
  end.

(** ** Image *)

Definition entry_ok (e : CodebookEntry) : Prop :=
  length (Bitcode e) = 8%nat /\ Forall is_u64 (Bitcode e) /\ is_u32 (ThreatID e) /\
  is_u16 (Subsystem e) /\ is_u16 (Severity e).

Lemma length_encodeCodebookEntry e : length (Bitcode e) = 8%nat -> length (encodeCodebookEntry e) = 72%nat.
Proof. intros H. unfold encodeCodebookEntry. rewrite !length_app, !length_le, length_octets_mots, H. done. Qed.

Lemma decode_encode_entry e : entry_ok e -> decodeCodebookEntry (encodeCodebookEntry e) = e.
Proof.
  destruct e as [W t s v]. intros (HW & Hw & Ht & Hs & Hv). cbn in HW, Hw, Ht, Hs, Hv.
  unfold decodeCodebookEntry, encodeCodebookEntry. cbn [Bitcode ThreatID Subsystem Severity].
  f_equal.
  - apply list_eq. intros k. rewrite list_lookup_fmap.
    destruct (decide (k < 8)%nat) as [Hk|Hk].
    + rewrite lookup_seq_lt by done. cbn [fmap option_fmap option_map].
      destruct (lookup_lt_is_Some_2 W k) as [w Ew]; [lia|]. rewrite Ew. f_equal.
      rewrite (octets_mots_coupe W k w Ew), <- !app_assoc.
      rewrite segment_mid; [|rewrite length_octets_mots, length_take; lia|rewrite length_le; lia].
      apply unle_le. exact (proj1 (Forall_lookup _ _) Hw _ _ Ew).
    + rewrite lookup_seq_ge by lia. by rewrite lookup_ge_None_2 by lia.
  - rewrite segment_mid; [by apply unle_le|rewrite length_octets_mots; lia|by rewrite length_le].
  - rewrite app_assoc, segment_mid; [by apply unle_le|rewrite length_app, length_octets_mots, length_le; lia|by rewrite length_le].
  - rewrite <- (app_nil_r (le 2 v)), !app_assoc, <- (app_assoc _ (le 2 v)).
    rewrite segment_mid; [by apply unle_le|rewrite !length_app, length_octets_mots, !length_le; lia|by rewrite length_le].
Qed.

Definition encoder_entrees (l : list CodebookEntry) : list Z :=
  foldr (fun e acc => encodeCodebookEntry e ++ acc) [] l.

Lemma length_encoder_entrees l : Forall entry_ok l -> length (encoder_entrees l) = (72 * length l)%nat.
Proof.
  induction 1 as [|e l (He & _) _ IH]; [done|]. cbn [encoder_entrees foldr length].
  rewrite length_app, length_encodeCodebookEntry by done. fold (encoder_entrees l). lia.
Qed.

Lemma lire_entrees_ok l r : Forall entry_ok l -> lire_entrees (length l) (encoder_entrees l ++ r) = Some l.
Proof.
  induction 1 as [|e l He _ IH]; [done|]. cbn [lire_entrees length encoder_entrees foldr].
  rewrite <- app_assoc, ReadFull_app by by apply length_encodeCodebookEntry, He.
  cbn [mbind option_bind]. fold (encoder_entrees l). rewrite IH. cbn. by rewrite decode_encode_entry.
Qed.

Lemma lire_entrees_court n l : (length l < 72 * n)%nat -> lire_entrees n l = None.
Proof.
  revert l. induction n as [|n IH]; intros l Hl; [lia|]. cbn [lire_entrees].
  unfold ReadFull, codebookEntrySize. destruct (Nat.leb_spec 72 (length l)); [|done].
  cbn [mbind option_bind]. rewrite IH; [done|]. rewrite length_drop. lia.
Qed.

Definition entete (n : Z) : CodebookHeader := Header codebookMagic codebookVersion codebookVectorDim n (replicate 16 0).

Lemma decode_encode_header n : is_u32 n -> decodeCodebookHeader (encodeCodebookHeader (entete n)) = entete n.
Proof.
  intros Hn. unfold decodeCodebookHeader, encodeCodebookHeader, entete.
  cbn [Magic Version VectorDim EntryCount Reserved].
  set (m := le 4 n). assert (Hm : length m = 4%nat) by apply length_le.
  assert (unle (segment ((codebookMagic ++ le 2 1 ++ le 2 512) ++ m ++ replicate 16 0) 12 16) = n) as E.
  { rewrite segment_mid; [by apply unle_le|reflexivity|by rewrite Hm]. }
  assert (segment ((codebookMagic ++ le 2 1 ++ le 2 512) ++ m ++ replicate 16 0) 16 32 = replicate 16 0) as E'.
  { rewrite app_assoc, <- (app_nil_r (replicate 16 0)), segment_mid; [done| |done].
    by rewrite length_app, Hm. }
  rewrite <- !app_assoc in E, E'. unfold codebookVersion, codebookVectorDim. rewrite E, E'. reflexivity.
Qed.

Lemma length_encodeCodebookHeader n : length (encodeCodebookHeader (entete n)) = 32%nat.
Proof. unfold encodeCodebookHeader. rewrite !length_app, !length_le. done. Qed.

(** What [LoadCodebook] does after a valid header. *)
Lemma LoadCodebook_entete n r : 0 <= n <= codebookMaxEntries ->
  LoadCodebook (encodeCodebookHeader (entete n) ++ r) =
  match lire_entrees (Z.to_nat n) r with Some e => inr e | None => inl ErrCodebookCorrupt end.
Proof.
  intros Hn. unfold LoadCodebook. rewrite ReadFull_app by apply length_encodeCodebookHeader.
  unfold codebookMaxEntries in *.
  rewrite decode_encode_header by (unfold is_u32; lia). cbn [entete Magic Version VectorDim EntryCount].
  unfold egaux. rewrite bool_decide_eq_true_2, !Z.eqb_refl by done. cbn [negb].
  unfold codebookMaxEntries. by destruct (Z.ltb_spec (2 ^ 24) n); [lia|].
Qed.

Lemma SaveCodebook_eq l : zlen l <= codebookMaxEntries ->
  SaveCodebook l = encodeCodebookHeader (entete (zlen l)) ++ encoder_entrees l.
Proof.
  intros Hl. unfold SaveCodebook. pose proof (zlen_nonneg l). unfold codebookMaxEntries in Hl.
  rewrite u32_id; [done|unfold is_u32; lia].
Qed.

(** ** Nearest neighbour *)

Lemma somme_popcount_nonneg q b : 0 <= somme (zip_with (fun x y => OnesCount64 (Z.lxor x y)) q b).
Proof.
  revert b. induction q as [|x q IH]; intros [|y b]; cbn [zip_with somme foldr]; try lia.
  pose proof (OnesCount64_nonneg (Z.lxor x y)). specialize (IH b). unfold somme in IH. lia.
Qed.

(** The early exit never changes a comparison with the threshold. *)
Lemma hamming_suite_ok q b d m :
  let h := d + somme (zip_with (fun x y => OnesCount64 (Z.lxor x y)) q b) in
  let s := hamming_suite d q b m in d <= m -> (s <= m <-> h <= m) /\ (h <= m -> s = h).
Proof.
  revert b d. induction q as [|x q IH]; intros [|y b] d; cbn [zip_with somme foldr hamming_suite]; try (intros; split; [split|]; lia).
  intros Hd. pose proof (somme_popcount_nonneg q b) as Hp. unfold somme in Hp.
  destruct (Z.ltb_spec m (d + OnesCount64 (Z.lxor x y))) as [Hlt|Hge]; [split; lia|].
  destruct (IH b _ Hge) as [I1 I2]. unfold somme in I1, I2. split.
  - rewrite I1. lia.
  - intros. rewrite I2; lia.
Qed.

Lemma distance_cherchee_ok q e m : 0 <= m ->
  (distance_cherchee q e m <= m <-> codebookHamming q e <= m) /\
  (codebookHamming q e <= m -> distance_cherchee q e m = codebookHamming q e).
Proof.
  intros Hm. unfold distance_cherchee. destruct (m <? codebookBits); [|done].
  exact (hamming_suite_ok q (Bitcode e) 0 m Hm).
Qed.

Lemma codebookHamming_nonneg q e : 0 <= codebookHamming q e.
Proof. apply somme_popcount_nonneg. Qed.

(** [e] is the first nearest entry of [l] within [m] of the query. *)
Definition plus_proche (q : list Z) (l : list CodebookEntry) (m : Z) (e : CodebookEntry) : Prop :=
  codebookHamming q e <= m /\ exists i, l !! i = Some e /\
  forall j x, l !! j = Some x -> codebookHamming q e <= codebookHamming q x /\
    (codebookHamming q x = codebookHamming q e -> (i <= j)%nat).

Definition recherche_ok (q : list Z) (l : list CodebookEntry) (m : Z) (s : Z * CodebookEntry * bool) : Prop :=
  let '(best, e, found) := s in
  if found then best = codebookHamming q e /\ plus_proche q l m e
  else best = m + 1 /\ e = entry_zero /\ forall x, x ∈ l -> m < codebookHamming q x.

Lemma retenir_ok q l m s x dist :
  (forall e, (dist e <= m <-> codebookHamming q e <= m) /\ (codebookHamming q e <= m -> dist e = codebookHamming q e)) ->
  recherche_ok q l m s -> recherche_ok q (l ++ [x]) m (retenir dist m s x).
Proof.
  intros Hd Hs. destruct s as [[best e] found]. unfold retenir. destruct (Hd x) as [D1 D2].
  assert (Hsnoc : forall j y, (l ++ [x]) !! j = Some y -> (j < length l)%nat /\ l !! j = Some y \/ j = length l /\ y = x).
  { intros j y Hj. apply lookup_app_Some in Hj as [Hj|[Hlt Hj]]; [left; split; [by eapply lookup_lt_Some|done]|].
    right. apply list_lookup_singleton_Some in Hj as [? ->]. split; [lia|done]. }
  destruct ((dist x <=? m) && (dist x <? best)) eqn:E.
  - zbool. assert (Hx : dist x = codebookHamming q x) by (apply D2, D1; lia). split; [done|].
    split; [apply D1; lia|]. exists (length l). split; [by rewrite lookup_app_r, Nat.sub_diag by lia|].
    intros j y Hj. apply Hsnoc in Hj as [[Hlt Hj]|[-> ->]]; [|lia].
    destruct found; [|destruct Hs as (-> & _ & Hall); pose proof (Hall y ltac:(eapply list_elem_of_lookup_2; exact Hj)); lia].
    destruct Hs as [-> (He & i & Hi & Hmin)]. destruct (Hmin j y Hj). lia.
  - apply andb_false_iff in E. destruct found.
    + destruct Hs as [-> (He & i & Hi & Hmin)]. split; [done|]. split; [done|]. exists i.
      pose proof (lookup_lt_Some _ _ _ Hi).
      split; [by rewrite lookup_app_l|]. intros j y Hj. apply Hsnoc in Hj as [[Hlt Hj]|[-> ->]]; [by apply Hmin|].
      split; [|lia]. destruct (Z.le_gt_cases (codebookHamming q x) m) as [Hle|]; [|lia].
      specialize (D2 Hle). destruct E as [E|E]; zbool; [apply D1 in Hle; lia|lia].
    + destruct Hs as (-> & -> & Hall). split; [done|]. split; [done|]. intros y Hy.
      apply elem_of_app in Hy as [Hy|Hy%list_elem_of_singleton]; [by apply Hall|]. subst y.
      destruct (Z.le_gt_cases (codebookHamming q x) m) as [Hle|]; [|lia].
      specialize (D2 Hle). pose proof (proj2 D1 Hle). destruct E as [E|E]; zbool; lia.
Qed.

Lemma fold_retenir_ok q l m dist s pre :
  (forall e, (dist e <= m <-> codebookHamming q e <= m) /\ (codebookHamming q e <= m -> dist e = codebookHamming q e)) ->
  recherche_ok q pre m s -> recherche_ok q (pre ++ l) m (fold_left (retenir dist m) l s).
Proof.
  intros Hd. revert pre s. induction l as [|x l IH]; intros pre s Hs; [by rewrite app_nil_r|].
  cbn [fold_left]. change (x :: l) with ([x] ++ l). rewrite app_assoc. by apply IH, retenir_ok.
Qed.

Lemma recherche_initiale q m : recherche_ok q [] m (m + 1, entry_zero, false).
Proof. split; [done|]. split; [done|]. intros x Hx. by apply not_elem_of_nil in Hx. Qed.

(** ** Properties *)

(** Loading what [SaveCodebook] wrote gives back the entries bit for bit,
    whatever octets follow them; the image has exactly 32 + 72 n octets, and
    every strict prefix of it is refused as corrupt. *)
Theorem codebook_aller_retour l :
  Forall entry_ok l -> zlen l <= codebookMaxEntries ->
  (forall r, LoadCodebook (SaveCodebook l ++ r) = inr l) /\
  length (SaveCodebook l) = (32 + 72 * length l)%nat /\
  forall k, (k < length (SaveCodebook l))%nat -> LoadCodebook (take k (SaveCodebook l)) = inl ErrCodebookCorrupt.
Proof.
  intros Hl Hn. pose proof (zlen_nonneg l). rewrite SaveCodebook_eq by done.
  assert (Hlen : length (encodeCodebookHeader (entete (zlen l)) ++ encoder_entrees l) = (32 + 72 * length l)%nat)
    by (rewrite length_app, length_encodeCodebookHeader, length_encoder_entrees by done; done).
  assert (HZ : Z.to_nat (zlen l) = length l) by (unfold zlen; lia).
  split; [|split; [done|]].
  - intros r. rewrite <- app_assoc, LoadCodebook_entete, HZ by lia. by rewrite lire_entrees_ok.
  - intros k Hk. rewrite Hlen in Hk. destruct (decide (k < 32)%nat) as [Hs|Hs].
    + unfold LoadCodebook. rewrite ReadFull_court; [done|]. rewrite length_take. unfold codebookHeaderSize. lia.
    + rewrite take_app_ge by (rewrite length_encodeCodebookHeader; lia).
      rewrite LoadCodebook_entete, HZ by lia. rewrite lire_entrees_court; [done|].
      rewrite length_take, length_encodeCodebookHeader. lia.
Qed.

(** [SearchNearest] with early abandon returns exactly the first entry at
    the minimal Hamming distance of the query, with that distance, when it is
    within the radius; otherwise it reports nothing and every entry is farther
    than the radius. *)
Theorem recherche_exacte l q m : 0 <= m ->
  let '(e, d, found) := SearchNearest (Some l) (Some q) m in
  if found then d = codebookHamming q e /\ plus_proche q l m e
  else e = entry_zero /\ d = 0 /\ forall x, x ∈ l -> m < codebookHamming q x.
Proof.
  intros Hm. unfold SearchNearest.
  pose proof (fold_retenir_ok q l m (fun e => distance_cherchee q e m) _ [] ltac:(intros e; by apply distance_cherchee_ok)
    (recherche_initiale q m)) as H.
  destruct (fold_left _ l _) as [[best e] found]. cbn in H. destruct found; [done|].
  split; [done|]. split; [done|]. apply H.
Qed.

Definition entree_exemple : CodebookEntry := Entry [1; 2; 3; 4; 5; 6; 7; 2 ^ 63] 42 3 4.

Lemma codebook_aller_retour_witness :
  LoadCodebook (SaveCodebook [entree_exemple] ++ [9; 9]) = inr [entree_exemple].
Proof.
  apply (codebook_aller_retour [entree_exemple]); [|vm_compute; discriminate].
  apply Forall_singleton. split; [reflexivity|].
  split; [repeat (constructor; [vm_compute; split; [discriminate|reflexivity]|]); constructor|].
  split_and!; vm_compute; split; (discriminate || reflexivity).
Defined.

Lemma recherche_exacte_witness :
  SearchNearest (Some [entry_zero; entree_exemple]) (Some [1; 2; 3; 4; 5; 6; 7; 0]) 16 = (entree_exemple, 1, true) /\
  plus_proche [1; 2; 3; 4; 5; 6; 7; 0] [entry_zero; entree_exemple] 16 entree_exemple.
Proof.
  assert (E : SearchNearest (Some [entry_zero; entree_exemple]) (Some [1; 2; 3; 4; 5; 6; 7; 0]) 16 =
    (entree_exemple, 1, true)) by (vm_compute; reflexivity).
  split; [exact E|].
  pose proof (recherche_exacte [entry_zero; entree_exemple] [1; 2; 3; 4; 5; 6; 7; 0] 16) as H.
  rewrite E in H. apply H. discriminate.
Defined.
