(* ===== verification/Localite.v ===== *)
(** The 512-bit locality code of a server snapshot (src/internal/engine/
    server_oracle_locality.go, the mixer and the snapshot of server_oracle.go,
    the slot decoder of template_rarity.go): thermometers, circular hour code,
    categorical mixing, SimHash of the payload, and the comparison of two codes
    by groups of words.  The theorems give the distance between the codes of two
    snapshots field by field, so that a nominal neighbour is what the comments
    say it is. *)
From stdpp Require Import list_numbers.
From S2P Require Import Prelude Bits.
Local Open Scope Z_scope.

Definition FeaturePayloadBytes : Z := 96.
Definition SeverityCritical : Z := 4.

Record ServerHealthSnapshot := Snapshot {
  TimestampSec : Z; Subsystem : Z; Action : Z; HealthScore : Z; Severity : Z; CorrelatedCount : Z;
  EntropyQ8 : Z; EntityID : Z; ContextFlags : Z; RawPayload : list Z
}.

Definition mixSpatial64 (x : Z) : Z := splitmix64 x.

Definition localityScoreMax : Z := 1000.
Definition localityEntropyMax : Z := 2048.
Definition localitySlotsPerDay : Z := 64.

Definition thermo64 (n : Z) : Z := if 64 <=? n then 2 ^ 64 - 1 else u64 (Z.shiftl 1 n) - 1.

(** [for n < len(p) && p[n] != 0 { n++ }] *)
Fixpoint longueur_utile (p : list Z) : Z :=
  match p with
  | x :: p => if x =? 0 then 0 else 1 + longueur_utile p
  | [] => 0
  end.

Definition i16 (z : Z) : Z := (z + 2 ^ 15) mod 2 ^ 16 - 2 ^ 15.

(** One trigram votes on the 64 counters. *)
Definition voter (acc : list Z) (h : Z) : list Z :=
  zip_with (fun b a => i16 (a + (i16 (Z.land (Z.shiftr h b) 1) * 2 - 1))) (seqZ 0 64) acc.

Definition payloadSimHash64 (p : list Z) : run Z :=
  let n := longueur_utile p in
  if n <? 3 then Done 0 else
  o ← for_range (n - 2) (replicate 64 0) (fun i acc =>
        a ← idx p i; b ← idx p (i + 1); c ← idx p (i + 2);
        Done (inl (voter acc (mixSpatial64 (Z.lor (Z.lor a (Z.shiftl b 8)) (Z.shiftl c 16))))));
  match o with
  | inl acc => Done (foldr (fun '(b, a) out => if 0 <? a then Z.lor out (Z.shiftl 1 b) else out) 0 (zip (seqZ 0 64) acc))
  | inr x => Done x
  end.

Definition mot2 (severity correlated : Z) : Z :=
  Z.lor (thermo64 (Z.min severity SeverityCritical * 8)) (u64 (Z.shiftl (thermo64 (Len64 correlated * 2)) 32)).
Definition creneau (t : Z) : Z := t mod 86400 * localitySlotsPerDay / 86400.
Definition mot5 (slot : Z) : Z := RotateLeft64 0x00000000FFFFFFFF slot.

(** [VectorizeServerHealthLocality]; [None] is a nil pointer. *)
Definition vectoriser (s : ServerHealthSnapshot) : run (list Z) :=
  simhash ← payloadSimHash64 (RawPayload s);
  Done [mixSpatial64 (Z.lxor (Subsystem s) 0x5B5B000000000001);
        mixSpatial64 (Z.lxor (Action s) 0x5B5B000000000002);
        mot2 (Severity s) (CorrelatedCount s);
        thermo64 (Z.min (HealthScore s) localityScoreMax * 64 / localityScoreMax);
        thermo64 (Z.min (EntropyQ8 s) localityEntropyMax * 64 / localityEntropyMax);
        mot5 (creneau (TimestampSec s));
        mixSpatial64 (Z.lxor (EntityID s) 0x5B5B000000000006);
        simhash].
Definition VectorizeServerHealthLocality (s : option ServerHealthSnapshot) (out : option (list Z)) : run (option (list Z)) :=
  match s, out with
  | Some s, Some _ => c ← vectoriser s; Done (Some c)
  | _, _ => Done out
  end.

Record LocalityDistance := Distance { Categorical : Z; SeverityRise : Z; Scalar : Z; Entity : Z; Content : Z }.
Record LocalityThresholds := Thresholds {
  MaxSeverityRise : Z; MaxScalar : Z; MaxEntity : Z; MaxContent : Z; MaxContentSurpriseBits : Z
}.
Definition MaxEntityToleranceBits : Z := 16.
Definition DefaultMaxContentSurpriseBits : Z := 24.
Definition DefaultLocalityThresholds : LocalityThresholds := Thresholds 0 24 0 24 DefaultMaxContentSurpriseBits.

Definition localitySeverityMask : Z := 0x00000000FFFFFFFF.

(** The codes are arrays of eight words: [bget] never leaves them. *)
Definition ecart (a b : list Z) (w : Z) : Z := OnesCount64 (Z.lxor (bget a w) (bget b w)).
Definition LocalityDistanceOf (target reference : list Z) : LocalityDistance :=
  Distance (ecart target reference 0 + ecart target reference 1)
    (Z.quot (OnesCount64 (Z.land (bget target 2) localitySeverityMask)
             - OnesCount64 (Z.land (bget reference 2) localitySeverityMask)) 8)
    (foldl (fun d w => d + ecart target reference w) 0 [2; 3; 4; 5])
    (ecart target reference 6) (ecart target reference 7).

Definition Within (d : LocalityDistance) (cfg : LocalityThresholds) : bool :=
  (Categorical d =? 0) && (SeverityRise d <=? MaxSeverityRise cfg) && (Scalar d <=? MaxScalar cfg)
  && (Entity d <=? Z.min (MaxEntity cfg) MaxEntityToleranceBits) && (Content d <=? MaxContent cfg).

Definition EvaluateLocalityMatch (target candidate : option (list Z)) (cfg : LocalityThresholds) : bool :=
  match target, candidate with
  | Some t, Some c => Within (LocalityDistanceOf t c) cfg
  | _, _ => false
  end.

(** template_rarity.go *)
Definition TemplateRaritySlots : Z := 16.
Definition LocalitySlotOf (w5 : Z) : Z :=
  let starts := Z.ldiff w5 (RotateLeft64 w5 1) in
  if starts =? 0 then 0 else TrailingZeros64 starts.
Definition TemplateSlotOf (code : list Z) : Z :=
  Z.quot (LocalitySlotOf (bget code 5) * TemplateRaritySlots) localitySlotsPerDay.

(** * Thermometers *)

Lemma thermo_ones n : 0 <= n <= 64 -> thermo64 n = Z.ones n.
Proof.
  intros Hn. unfold thermo64. destruct (Z.leb_spec 64 n).
  - by replace n with 64 by lia.
  - rewrite Z.ones_equiv, Z.shiftl_mul_pow2, Z.mul_1_l by lia. rewrite u64_id; [lia|].
    unfold is_u64. pose proof (Z.pow_lt_mono_r 2 n 64). pose proof (Z.pow_pos_nonneg 2 n). lia.
Qed.

Lemma thermo_bit n i : 0 <= n <= 64 -> 0 <= i -> Z.testbit (thermo64 n) i = (i <? n).
Proof.
  intros Hn Hi. rewrite thermo_ones by done. rewrite Z.testbit_ones_nonneg by lia. done.
Qed.

Lemma thermo_u64 n : 0 <= n <= 64 -> is_u64 (thermo64 n).
Proof.
  intros Hn. rewrite thermo_ones, Z.ones_equiv by done. unfold is_u64.
  pose proof (Z.pow_le_mono_r 2 n 64). pose proof (Z.pow_pos_nonneg 2 n). lia.
Qed.

Lemma thermo_compte n : 0 <= n <= 64 -> OnesCount64 (thermo64 n) = n.
Proof.
  intros Hn. unfold OnesCount64. rewrite (compter_intervalle _ 0 n); [lia..|].
  intros i Hi. rewrite thermo_bit by lia. lia.
Qed.

(** Two thermometers differ by the gap of their levels. *)
Lemma thermo_ecart a b : 0 <= a <= 64 -> 0 <= b <= 64 ->
  OnesCount64 (Z.lxor (thermo64 a) (thermo64 b)) = Z.abs (a - b).
Proof.
  intros Ha Hb. unfold OnesCount64. rewrite (compter_intervalle _ (Z.min a b) (Z.max a b)); [lia..|].
  intros i Hi. rewrite Z.lxor_spec, !thermo_bit by lia. destruct (Z.ltb_spec i a), (Z.ltb_spec i b); cbn; lia.
Qed.

Definition niveau (severity : Z) : Z := Z.min severity SeverityCritical.
Definition octave (correlated : Z) : Z := Len64 correlated.

Lemma mot2_bit severity correlated i : 0 <= severity -> 0 <= correlated < 2 ^ 16 -> 0 <= i < 64 ->
  Z.testbit (mot2 severity correlated) i =
  if i <? 32 then i <? 8 * niveau severity else i - 32 <? 2 * octave correlated.
Proof.
  intros Hs Hc Hi. unfold mot2, niveau, octave, SeverityCritical. pose proof (Len64_range correlated 16 ltac:(lia) Hc).
  rewrite Z.lor_spec, thermo_bit by lia. unfold u64. rewrite Z.mod_pow2_bits_low by lia.
  rewrite Z.shiftl_spec by lia. destruct (Z.ltb_spec i 32).
  - rewrite (Z.testbit_neg_r _ (i - 32)) by lia. lia.
  - rewrite thermo_bit by lia. lia.
Qed.

Lemma compter_deux f a b c d : 0 <= a <= b -> b <= c <= d -> d <= 64 ->
  (forall i, 0 <= i < 64 -> f i = ((a <=? i) && (i <? b)) || ((c <=? i) && (i <? d))) -> compter_bits f 64 = b - a + (d - c).
Proof.
  intros Ha Hb Hd H. rewrite (compter_bits_disjoint f (fun i => (a <=? i) && (i <? b)) (fun i => (c <=? i) && (i <? d))).
  - rewrite (compter_intervalle _ a b), (compter_intervalle _ c d) by (lia || done). done.
  - intros i Hi. rewrite H by lia. destruct ((a <=? i) && (i <? b)) eqn:E1, ((c <=? i) && (i <? d)) eqn:E2; cbn; lia.
Qed.

Lemma niveau_range s : 0 <= s -> 0 <= niveau s <= 4.
Proof. unfold niveau, SeverityCritical. lia. Qed.

Lemma octave_range c : 0 <= c < 2 ^ 16 -> 0 <= octave c <= 16.
Proof. intros Hc. apply (Len64_range c 16); [lia|done]. Qed.

Lemma mot2_u64 s c : 0 <= s -> 0 <= c < 2 ^ 16 -> is_u64 (mot2 s c).
Proof.
  intros Hs Hc. pose proof (niveau_range s Hs). pose proof (octave_range c Hc). unfold niveau, octave in *.
  apply (lor_range _ _ 64); [lia| |apply u64_range]. apply thermo_u64. lia.
Qed.

(** Severity and correlation live in separate halves of word 2. *)
Lemma mot2_ecart s1 c1 s2 c2 : 0 <= s1 -> 0 <= s2 -> 0 <= c1 < 2 ^ 16 -> 0 <= c2 < 2 ^ 16 ->
  OnesCount64 (Z.lxor (mot2 s1 c1) (mot2 s2 c2)) = 8 * Z.abs (niveau s1 - niveau s2) + 2 * Z.abs (octave c1 - octave c2).
Proof.
  intros Hs1 Hs2 Hc1 Hc2. pose proof (niveau_range s1 Hs1). pose proof (niveau_range s2 Hs2).
  pose proof (octave_range c1 Hc1). pose proof (octave_range c2 Hc2). unfold OnesCount64.
  rewrite (compter_deux _ (8 * Z.min (niveau s1) (niveau s2)) (8 * Z.max (niveau s1) (niveau s2))
             (32 + 2 * Z.min (octave c1) (octave c2)) (32 + 2 * Z.max (octave c1) (octave c2))); [lia..|].
  intros i Hi. rewrite Z.lxor_spec, !mot2_bit by done. destruct (Z.ltb_spec i 32).
  - destruct (Z.ltb_spec i (8 * niveau s1)), (Z.ltb_spec i (8 * niveau s2)); cbn [xorb]; lia.
  - destruct (Z.ltb_spec (i - 32) (2 * octave c1)), (Z.ltb_spec (i - 32) (2 * octave c2)); cbn [xorb]; lia.
Qed.

Lemma mot2_severite s c : 0 <= s -> 0 <= c < 2 ^ 16 ->
  OnesCount64 (Z.land (mot2 s c) localitySeverityMask) = 8 * niveau s.
Proof.
  intros Hs Hc. pose proof (niveau_range s Hs). unfold OnesCount64. rewrite (compter_intervalle _ 0 (8 * niveau s)); [lia..|].
  intros i Hi. change localitySeverityMask with (Z.ones 32). rewrite Z.land_spec, mot2_bit, Z.testbit_ones_nonneg by (done || lia).
  destruct (Z.ltb_spec i 32); cbn; lia.
Qed.

(** * The circular hour code *)

Definition ecart_circulaire (s t : Z) : Z := Z.min ((s - t) mod 64) ((t - s) mod 64).

Lemma creneau_range t : 0 <= creneau t < 64.
Proof. unfold creneau, localitySlotsPerDay. pose proof (Z.mod_pos_bound t 86400). divlia. Qed.

Lemma forallb_seqZ (p : Z -> bool) i : forallb p (seqZ 0 64) = true -> 0 <= i < 64 -> p i = true.
Proof.
  intros H Hi. apply (proj1 (forallb_forall p _) H). apply list_elem_of_In, elem_of_seqZ. lia.
Qed.

(** Checked on the 64 slots, and on the 64 x 64 pairs of slots. *)
Definition paire_ok (s t : Z) : bool := OnesCount64 (Z.lxor (mot5 s) (mot5 t)) =? 2 * ecart_circulaire s t.
Definition decode_ok (s : Z) : bool := LocalitySlotOf (mot5 s) =? s.

Lemma paires_controlees : forallb (fun s => forallb (paire_ok s) (seqZ 0 64)) (seqZ 0 64) = true.
Proof. vm_compute. reflexivity. Qed.
Lemma decodes_controles : forallb decode_ok (seqZ 0 64) = true.
Proof. vm_compute. reflexivity. Qed.

Lemma mot5_ecart s t : 0 <= s < 64 -> 0 <= t < 64 ->
  OnesCount64 (Z.lxor (mot5 s) (mot5 t)) = 2 * ecart_circulaire s t.
Proof.
  intros Hs Ht. apply Z.eqb_eq. change (paire_ok s t = true). apply forallb_seqZ; [|done].
  exact (forallb_seqZ (fun s => forallb (paire_ok s) (seqZ 0 64)) s paires_controlees Hs).
Qed.

Lemma mot5_decode s : 0 <= s < 64 -> LocalitySlotOf (mot5 s) = s.
Proof. intros Hs. apply Z.eqb_eq. exact (forallb_seqZ decode_ok s decodes_controles Hs). Qed.

(** * The SimHash *)

Definition compteurs_ok (acc : list Z) : Prop := length acc = 64%nat.

Lemma longueur_utile_range p : 0 <= longueur_utile p <= zlen p.
Proof.
  induction p as [|x p IH]; [done|]. cbn [longueur_utile]. rewrite zlen_cons. destruct (x =? 0); lia.
Qed.

Lemma simhash_bits (l : list (Z * Z)) : Forall (fun x => 0 <= fst x < 64) l ->
  is_u64 (foldr (fun '(b, a) out => if 0 <? a then Z.lor out (Z.shiftl 1 b) else out) 0 l).
Proof.
  induction 1 as [|[b a] l Hb _ IH]; [done|]. cbn [foldr]. destruct (0 <? a); [|done].
  apply (lor_range _ _ 64); [lia|done|]. cbn in Hb. rewrite Z.shiftl_1_l. split; [lia|]. apply Z.pow_lt_mono_r; lia.
Qed.

Lemma payloadSimHash64_ok p : zlen p = FeaturePayloadBytes -> wp (payloadSimHash64 p) is_u64.
Proof.
  intros Hp. unfold payloadSimHash64. pose proof (longueur_utile_range p) as Hn.
  destruct (Z.ltb_spec (longueur_utile p) 3); [by apply wp_done|]. apply wp_bind.
  apply (wp_for_range (fun _ (_ : list Z) => True)); [lia|done| |].
  - intros i acc Hi _. apply wp_bind, wp_idx; [lia|]. intros a _. apply wp_bind, wp_idx; [lia|]. intros b _.
    apply wp_bind, wp_idx; [lia|]. intros c _. by apply wp_done.
  - intros acc _. apply wp_done. apply simhash_bits. apply Forall_forall. intros [b a] Hx.
    apply elem_of_zip_l, elem_of_seqZ in Hx. cbn. lia.
Qed.

(** * The code of a snapshot *)

Definition snapshot_ok (s : ServerHealthSnapshot) : Prop :=
  is_u64 (TimestampSec s) /\ is_u16 (Subsystem s) /\ is_u16 (Action s) /\ is_u16 (HealthScore s) /\ is_u16 (Severity s) /\
  is_u16 (CorrelatedCount s) /\ is_u32 (EntropyQ8 s) /\ is_u64 (EntityID s) /\
  bytes_ok (RawPayload s) /\ zlen (RawPayload s) = FeaturePayloadBytes.

(** Steps of 15.6 points of score, of 0.125 bit of entropy. *)
Definition pas_score (s : ServerHealthSnapshot) : Z := Z.min (HealthScore s) 1000 * 64 / 1000.
Definition pas_entropie (s : ServerHealthSnapshot) : Z := Z.min (EntropyQ8 s) 2048 * 64 / 2048.

Definition code_de (s : ServerHealthSnapshot) (h : Z) : list Z :=
  [mixSpatial64 (Z.lxor (Subsystem s) 0x5B5B000000000001); mixSpatial64 (Z.lxor (Action s) 0x5B5B000000000002);
   mot2 (Severity s) (CorrelatedCount s); thermo64 (pas_score s); thermo64 (pas_entropie s);
   mot5 (creneau (TimestampSec s)); mixSpatial64 (Z.lxor (EntityID s) 0x5B5B000000000006); h].

Lemma vectoriser_ok s : snapshot_ok s -> exists h, payloadSimHash64 (RawPayload s) = Done h /\ is_u64 h /\ vectoriser s = Done (code_de s h).
Proof.
  intros (_ & _ & _ & _ & _ & _ & _ & _ & _ & Hp). pose proof (payloadSimHash64_ok _ Hp) as H.
  apply wp_exists in H as (h & E & Hh). exists h. split; [done|]. split; [done|]. unfold vectoriser. by rewrite E.
Qed.

(** The mixer keeps categories apart: no two of them share a code. *)
Lemma categorie_ecart k a b : is_u64 k -> is_u64 a -> is_u64 b ->
  OnesCount64 (Z.lxor (mixSpatial64 (Z.lxor a k)) (mixSpatial64 (Z.lxor b k))) = 0 <-> a = b.
Proof.
  intros Hk Ha Hb. unfold mixSpatial64. rewrite OnesCount64_lxor_nul by apply splitmix64_range. split; [|by intros ->].
  intros H. apply splitmix64_inj in H; [|by apply (lxor_range _ _ 64)..].
  rewrite <- (Z.lxor_0_r a), <- (Z.lxor_nilpotent k), <- Z.lxor_assoc, H, Z.lxor_assoc, Z.lxor_nilpotent. apply Z.lxor_0_r.
Qed.

Lemma u16_u64 z : is_u16 z -> is_u64 z.
Proof. unfold is_u16, is_u64. lia. Qed.

Definition derive_scalaire (s t : ServerHealthSnapshot) : Z :=
  8 * Z.abs (niveau (Severity s) - niveau (Severity t)) + 2 * Z.abs (octave (CorrelatedCount s) - octave (CorrelatedCount t))
  + Z.abs (pas_score s - pas_score t) + Z.abs (pas_entropie s - pas_entropie t)
  + 2 * ecart_circulaire (creneau (TimestampSec s)) (creneau (TimestampSec t)).

Lemma somme_nulle a b : 0 <= a -> 0 <= b -> a + b = 0 <-> a = 0 /\ b = 0.
Proof. lia. Qed.

Lemma distance_decide s t h k : snapshot_ok s -> snapshot_ok t ->
  let d := LocalityDistanceOf (code_de s h) (code_de t k) in
  (Categorical d = 0 <-> Subsystem s = Subsystem t /\ Action s = Action t) /\
  SeverityRise d = niveau (Severity s) - niveau (Severity t) /\ Scalar d = derive_scalaire s t /\
  (Entity d = 0 <-> EntityID s = EntityID t) /\ Content d = OnesCount64 (Z.lxor h k).
Proof.
  intros (_ & Hs1 & Ha1 & Hh1 & Hv1 & Hc1 & He1 & Hi1 & _) (_ & Hs2 & Ha2 & Hh2 & Hv2 & Hc2 & He2 & Hi2 & _).
  unfold is_u16, is_u32 in *. cbn [LocalityDistanceOf Categorical SeverityRise Scalar Entity Content foldl]. unfold ecart.
  repeat match goal with |- context [bget (code_de ?s ?h) ?i] =>
    let x := eval lazy [bget nth Z.to_nat Pos.to_nat Pos.iter_op Nat.add code_de] in (bget (code_de s h) i) in
    change (bget (code_de s h) i) with x end.
  split; [|split; [|split; [|split; [|done]]]].
  - rewrite <- (categorie_ecart 0x5B5B000000000001 (Subsystem s)), <- (categorie_ecart 0x5B5B000000000002 (Action s))
      by (done || apply u16_u64; done || (unfold is_u64; lia)).
    apply somme_nulle; apply OnesCount64_nonneg.
  - rewrite !mot2_severite by lia. replace (8 * niveau (Severity s) - 8 * niveau (Severity t))
      with ((niveau (Severity s) - niveau (Severity t)) * 8) by lia. by rewrite Z.quot_mul.
  - unfold derive_scalaire. rewrite mot2_ecart by lia. rewrite !thermo_ecart, mot5_ecart; [lia|apply creneau_range..| | | |].
    all: unfold pas_score, pas_entropie; divlia.
  - apply categorie_ecart; [unfold is_u64; lia|done..].
Qed.

(** The code is a total function of the snapshot and its neighbourhoods are
    what they claim.  With thresholds that demand the same entity, one snapshot
    is a neighbour of another exactly when sub-system, action and entity are
    equal, the severity has risen by at most the tolerance (none by default),
    the payload hashes differ by at most the tolerance, and the drift -- eight
    bits a severity level, two an octave of correlation, one a step of score or
    entropy, two a slot of 22.5 minutes around the clock -- stays within its
    bound.  The slot is read back from the code. *)
Theorem voisinage_exact (s t : ServerHealthSnapshot) (cfg : LocalityThresholds) (o p : list Z) :
  snapshot_ok s -> snapshot_ok t -> MaxEntity cfg = 0 ->
  exists a b, VectorizeServerHealthLocality (Some s) (Some o) = Done (Some a) /\
    VectorizeServerHealthLocality (Some t) (Some p) = Done (Some b) /\
    LocalitySlotOf (bget a 5) = creneau (TimestampSec s) /\
    (EvaluateLocalityMatch (Some a) (Some b) cfg = true <->
       Subsystem s = Subsystem t /\ Action s = Action t /\ EntityID s = EntityID t /\
       niveau (Severity s) - niveau (Severity t) <= MaxSeverityRise cfg /\
       derive_scalaire s t <= MaxScalar cfg /\ OnesCount64 (Z.lxor (bget a 7) (bget b 7)) <= MaxContent cfg).
Proof.
  intros Hs Ht He. destruct (vectoriser_ok s Hs) as (h & _ & _ & Eh). destruct (vectoriser_ok t Ht) as (k & _ & _ & Ek).
  exists (code_de s h), (code_de t k). cbn [VectorizeServerHealthLocality]. rewrite Eh, Ek. split; [done|]. split; [done|].
  split; [apply mot5_decode, creneau_range|].
  pose proof (distance_decide s t h k Hs Ht) as H. cbv zeta in H.
  change (OnesCount64 (Z.lxor (bget (code_de s h) 7) (bget (code_de t k) 7)))
    with (Content (LocalityDistanceOf (code_de s h) (code_de t k))).
  assert (0 <= Entity (LocalityDistanceOf (code_de s h) (code_de t k))) as Hnn by apply OnesCount64_nonneg.
  cbn [EvaluateLocalityMatch]. revert H Hnn. generalize (LocalityDistanceOf (code_de s h) (code_de t k)). clear - He.
  intros d (H1 & H2 & H3 & H4 & _) Hnn.
  rewrite <- H2, <- H3, <- H4. unfold Within. rewrite He. change (Z.min 0 MaxEntityToleranceBits) with 0.
  rewrite !andb_true_iff, !Z.leb_le, Z.eqb_eq, H1.
  split; [intros [[[[[? ?] ?] ?] ?] ?]|intros (? & ? & ? & ? & ? & ?)]; repeat split; try done; lia.
Qed.

Definition snapshot_exemple (severity score : Z) : ServerHealthSnapshot :=
  Snapshot 1700000000 3 7 score severity 12 900 42 0 (octets "GET /index.html 200" ++ replicate 77 0).

Lemma snapshot_exemple_ok severity score : 0 <= severity < 2 ^ 16 -> 0 <= score < 2 ^ 16 -> snapshot_ok (snapshot_exemple severity score).
Proof.
  intros H1 H2. unfold snapshot_ok, is_u64, is_u32, is_u16. cbn -[octets]. repeat split; try lia.
  by apply octets_valides_ok.
Qed.

Lemma voisinage_exact_witness :
  snapshot_ok (snapshot_exemple 2 900) /\
  exists a b, VectorizeServerHealthLocality (Some (snapshot_exemple 2 900)) (Some []) = Done (Some a) /\
    VectorizeServerHealthLocality (Some (snapshot_exemple 2 700)) (Some []) = Done (Some b) /\
    EvaluateLocalityMatch (Some a) (Some b) DefaultLocalityThresholds = true.
Proof.
  split; [apply snapshot_exemple_ok; lia|].
  destruct (voisinage_exact (snapshot_exemple 2 900) (snapshot_exemple 2 700) DefaultLocalityThresholds [] [])
    as (a & b & Ea & Eb & _ & H); [apply snapshot_exemple_ok; lia..|done|].
  exists a, b. split; [done|]. split; [done|]. apply H.
  vm_compute in Ea. vm_compute in Eb. injection Ea as <-. injection Eb as <-. by vm_compute.
Defined.
