(* ===== verification/DeltaCatalog.v ===== *)
(** The sealed catalogue of authorised disparities (src/internal/engine/
    delta_catalog.go): rules that excuse, for a bounded time, the states near a
    512-bit pattern.  The theorems: no rule of a loaded catalogue excuses a state
    graver than its pattern -- and this already follows from the guards of
    [ValidateDeltaRule], the run-time guard being redundant --, the loader
    accepts exactly the sealed, valid catalogues of the machine, and saving then
    loading is the identity.  SHA-256 and HMAC are arguments; a stream is the list
    of its octets; the texts of wrapped errors are left out. *)
From stdpp Require Import list_numbers.
From S2P Require Import Prelude Trame Bits Localite.
Local Open Scope Z_scope.

Definition DeltaHeaderSize : nat := 64.
Definition DeltaRuleSize : nat := 192.
Definition DeltaVersion : Z := 1.
Definition DeltaDim : Z := 512.
Definition DeltaMaxRuleCount : Z := 65536.
Definition DeltaSlotsPerDay : Z := localitySlotsPerDay.
Definition DeltaMagic : list Z := octets "C2DELTA1".
Definition DeltaScaleAll : Z := 127.
Definition DeltaCriticalMaxRadius : Z := 8.
Definition DeltaAllDays : Z := 127.
Definition SealKeyMinLen : Z := 16.

Inductive erreur_delta : Type :=
  | ErrDeltaMagic | ErrDeltaVersion | ErrDeltaDim | ErrDeltaCorrupt | ErrDeltaSeal | ErrDeltaTooLarge
  | ErrDeltaMachine | ErrDeltaEternal | ErrDeltaSeverity | ErrDeltaRule | ErrSealKey.

Record DeltaHeader := DHeader {
  DMagic : list Z; DVersion : Z; DDimension : Z; RuleCount : Z; MachineID : Z; DSeal : list Z; DReserved : list Z
}.

Record DeltaRule := Rule {
  Pattern : list Z; Mask : list Z; NotBeforeSec : Z; NotAfterSec : Z; RuleID : Z; MaxRadius : Z; ScaleMask : Z;
  DaysOfWeekMask : Z; TimeSlotMin : Z; TimeSlotMax : Z; Label : list Z; RReserved : list Z
}.

(** ** Layouts *)

Definition champs_entete (h : DeltaHeader) : list (list Z) :=
  [DMagic h; le 2 (DVersion h); le 2 (DDimension h); le 4 (RuleCount h); le 8 (MachineID h); DSeal h; DReserved h].
Definition EncodeDeltaHeader (h : DeltaHeader) : list Z := concat (champs_entete h).
Definition DecodeDeltaHeader (src : list Z) : DeltaHeader :=
  DHeader (segment src 0 8) (unle (segment src 8 10)) (unle (segment src 10 12)) (unle (segment src 12 16))
    (unle (segment src 16 24)) (segment src 24 56) (segment src 56 64).

Definition champs_regle (r : DeltaRule) : list (list Z) :=
  [octets_mots (Pattern r); octets_mots (Mask r); le 8 (NotBeforeSec r); le 8 (NotAfterSec r); le 4 (RuleID r);
   le 2 (MaxRadius r); le 2 (ScaleMask r); le 1 (DaysOfWeekMask r); le 1 (TimeSlotMin r); le 1 (TimeSlotMax r);
   Label r; RReserved r].
Definition EncodeDeltaRule (r : DeltaRule) : list Z := concat (champs_regle r).
Definition DecodeDeltaRule (src : list Z) : DeltaRule :=
  Rule (mots_de 0 8 src) (mots_de 64 8 src) (unle (segment src 128 136)) (unle (segment src 136 144))
    (unle (segment src 144 148)) (unle (segment src 148 150)) (unle (segment src 150 152)) (unle (segment src 152 153))
    (unle (segment src 153 154)) (unle (segment src 154 155)) (segment src 155 187) (segment src 187 192).

(** ** Severity *)

Definition deltaSeverityLevel (word2 : Z) : option Z :=
  let field := Z.land word2 localitySeverityMask in
  let n := OnesCount64 field in
  if negb (n mod 8 =? 0) || negb (field =? thermo64 n) then None else Some (u16 (n / 8)).

Definition deltaSeverityCeil (word2 : Z) : Z :=
  (Len64 (Z.land word2 localitySeverityMask) + 7) / 8.

(** ** Validation *)

Definition bits_masques (r : DeltaRule) : Z := foldl (fun m i => m + OnesCount64 (bget (Mask r) i)) 0 (seqZ 0 8).

Definition ValidateDeltaRule (r : DeltaRule) : option erreur_delta :=
  if (NotAfterSec r =? 0) || (NotAfterSec r <=? NotBeforeSec r) then Some ErrDeltaEternal else
  if RuleID r =? 0 then Some ErrDeltaRule else
  if bget (Label r) 0 =? 0 then Some ErrDeltaRule else
  if (ScaleMask r =? 0) || negb (Z.ldiff (ScaleMask r) DeltaScaleAll =? 0) then Some ErrDeltaRule else
  if (DaysOfWeekMask r =? 0) || negb (Z.ldiff (DaysOfWeekMask r) DeltaAllDays =? 0) then Some ErrDeltaRule else
  if (TimeSlotMax r <? TimeSlotMin r) || (DeltaSlotsPerDay <=? TimeSlotMax r) then Some ErrDeltaRule else
  let masked := bits_masques r in
  if (masked =? 0) || (masked <=? MaxRadius r) then Some ErrDeltaRule else
  if negb (Z.land (bget (Mask r) 2) localitySeverityMask =? localitySeverityMask) then Some ErrDeltaSeverity else
  match deltaSeverityLevel (bget (Pattern r) 2) with
  | None => Some ErrDeltaSeverity
  | Some level =>
      if (level <? SeverityCritical) && (8 <=? MaxRadius r) then Some ErrDeltaSeverity else
      if (level =? SeverityCritical) && (DeltaCriticalMaxRadius <? MaxRadius r) then Some ErrDeltaSeverity else None
  end.

Fixpoint valider (seen : list Z) (rules : list DeltaRule) : option erreur_delta :=
  match rules with
  | [] => None
  | r :: rules =>
      match ValidateDeltaRule r with
      | Some e => Some e
      | None => if bool_decide (RuleID r ∈ seen) then Some ErrDeltaRule else valider (RuleID r :: seen) rules
      end
  end.
Definition validateDeltaRules (rules : list DeltaRule) : option erreur_delta := valider [] rules.

Definition checkSealKey (key : list Z) : option erreur_delta :=
  if negb (zlen key =? 0) && (zlen key <? SealKeyMinLen) then Some ErrSealKey else None.

Record DeltaCatalog := Catalog { machineID : Z; rules : list DeltaRule }.

Definition zeros32 : list Z := replicate 32 0.
Definition sceller (h : DeltaHeader) (seal : list Z) : DeltaHeader :=
  DHeader (DMagic h) (DVersion h) (DDimension h) (RuleCount h) (MachineID h) seal (DReserved h).

(** The records of the stream, one after the other. *)
Fixpoint lire_regles (n : nat) (l : list Z) : option (list DeltaRule) :=
  match n with
  | O => Some []
  | S n =>
      '(rb, l) ← ReadFull DeltaRuleSize l;
      r ← lire_regles n l;
      Some (DecodeDeltaRule rb :: r)
  end.

Section sceau.
Context (sha256 : list Z -> list Z) (hmac_sha256 : list Z -> list Z -> list Z).

(** [newSealHash]: what the hash of the written octets is. *)
Definition newSealHash (key : list Z) : list Z -> list Z :=
  if zlen key =? 0 then sha256 else hmac_sha256 key.

Definition ComputeDeltaSealHMAC (hdr : DeltaHeader) (rs : list DeltaRule) (key : list Z) : list Z :=
  copy_into zeros32 (newSealHash key (EncodeDeltaHeader (sceller hdr zeros32) ++ section EncodeDeltaRule rs)).
Definition ComputeDeltaSeal (hdr : DeltaHeader) (rs : list DeltaRule) : list Z := ComputeDeltaSealHMAC hdr rs [].

(** The octets written, or the refusal. *)
Definition SaveDeltaCatalogHMAC (machine : Z) (rs : list DeltaRule) (key : list Z) : erreur_delta + list Z :=
  match checkSealKey key with
  | Some e => inl e
  | None =>
      if DeltaMaxRuleCount <? zlen rs then inl ErrDeltaTooLarge else
      match validateDeltaRules rs with
      | Some e => inl e
      | None =>
          let hdr := DHeader DeltaMagic DeltaVersion DeltaDim (u32 (zlen rs)) machine zeros32 (replicate 8 0) in
          inr (EncodeDeltaHeader (sceller hdr (ComputeDeltaSealHMAC hdr rs key)) ++ section EncodeDeltaRule rs)
      end
  end.
Definition SaveDeltaCatalog (machine : Z) (rs : list DeltaRule) : erreur_delta + list Z := SaveDeltaCatalogHMAC machine rs [].

Definition LoadDeltaCatalogHMAC (l : list Z) (machine : Z) (key : list Z) : erreur_delta + DeltaCatalog :=
  match checkSealKey key with
  | Some e => inl e
  | None =>
      match ReadFull DeltaHeaderSize l with
      | None => inl ErrDeltaCorrupt
      | Some (hb, l) =>
          let hdr := DecodeDeltaHeader hb in
          if negb (egaux (DMagic hdr) DeltaMagic) then inl ErrDeltaMagic else
          if negb (DVersion hdr =? DeltaVersion) then inl ErrDeltaVersion else
          if negb (DDimension hdr =? DeltaDim) then inl ErrDeltaDim else
          if DeltaMaxRuleCount <? RuleCount hdr then inl ErrDeltaTooLarge else
          match lire_regles (Z.to_nat (RuleCount hdr)) l with
          | None => inl ErrDeltaCorrupt
          | Some rs =>
              if negb (egaux (ComputeDeltaSealHMAC hdr rs key) (DSeal hdr)) then inl ErrDeltaSeal else
              if negb (MachineID hdr =? machine) then inl ErrDeltaMachine else
              match validateDeltaRules rs with
              | Some e => inl e
              | None => inr (Catalog machine rs)
              end
          end
      end
  end.
Definition LoadDeltaCatalog (l : list Z) (machine : Z) : erreur_delta + DeltaCatalog := LoadDeltaCatalogHMAC l machine [].
End sceau.

Definition Len (c : option DeltaCatalog) : Z := match c with None => 0 | Some c => zlen (rules c) end.

(** ** Evaluation; [None] is a nil pointer *)

Definition jour (tsSec : Z) : Z := u8 ((tsSec / 86400 + 4) mod 7).

(** The guards of the loop, the severity one aside. *)
Definition en_vigueur (r : DeltaRule) (tsSec scale : Z) : bool :=
  negb ((tsSec <? NotBeforeSec r) || (NotAfterSec r <? tsSec) || (Z.land (ScaleMask r) scale =? 0)
        || (Z.land (DaysOfWeekMask r) (u8 (Z.shiftl 1 (jour tsSec))) =? 0)
        || (u8 (creneau tsSec) <? TimeSlotMin r) || (TimeSlotMax r <? u8 (creneau tsSec))).
Definition severite_admise (r : DeltaRule) (observed : list Z) : bool :=
  negb (deltaSeverityCeil (bget (Pattern r) 2) <? deltaSeverityCeil (bget observed 2)).
Definition ecart_masque (observed : list Z) (r : DeltaRule) (w : Z) : Z :=
  OnesCount64 (Z.land (Z.lxor (bget observed w) (bget (Pattern r) w)) (bget (Mask r) w)).
Definition distance_masquee (observed : list Z) (r : DeltaRule) : Z :=
  foldl (fun d w => d + ecart_masque observed r w) 0 (seqZ 0 8).

Fixpoint chercher_regle (observed : list Z) (tsSec scale : Z) (rs : list DeltaRule) : bool * Z :=
  match rs with
  | [] => (false, 0)
  | r :: rs =>
      if negb (en_vigueur r tsSec scale && severite_admise r observed) then chercher_regle observed tsSec scale rs else
      if distance_masquee observed r <=? MaxRadius r then (true, RuleID r) else chercher_regle observed tsSec scale rs
  end.

Definition EvaluateDelta (c : option DeltaCatalog) (observed : option (list Z)) (tsSec scale : Z) : bool * Z :=
  match c, observed with
  | Some c, Some observed =>
      if negb (OnesCount64 scale =? 1) then (false, 0) else chercher_regle observed tsSec scale (rules c)
  | _, _ => (false, 0)
  end.

(** ** A rule from a snapshot *)

Definition DeltaMatchSubsystem : Z := 1.
Definition DeltaMatchAction : Z := 2.
Definition DeltaMatchCorrelated : Z := 4.
Definition DeltaMatchScore : Z := 8.
Definition DeltaMatchEntropy : Z := 16.
Definition DeltaMatchSlot : Z := 32.
Definition DeltaMatchEntity : Z := 64.
Definition DeltaMatchPayload : Z := 128.

Definition masque_champs (fields : Z) : list Z :=
  imap (fun w f =>
    let m := if (w =? 2)%nat then localitySeverityMask else 0 in
    let m := if negb (f =? 0) && negb (Z.land fields f =? 0) then 2 ^ 64 - 1 else m in
    if (w =? 2)%nat && negb (Z.land fields DeltaMatchCorrelated =? 0) then Z.lor m (Z.ldiff (2 ^ 64 - 1) localitySeverityMask) else m)
    [DeltaMatchSubsystem; DeltaMatchAction; 0; DeltaMatchScore; DeltaMatchEntropy; DeltaMatchSlot; DeltaMatchEntity; DeltaMatchPayload].
Definition DeltaPatternFromSnapshot (s : option ServerHealthSnapshot) (fields : Z) : run (list Z * list Z) :=
  p ← VectorizeServerHealthLocality s (Some (replicate 8 0));
  Done (default (replicate 8 0) p, masque_champs fields).

(** * Layouts *)

Definition mots_ok (W : list Z) : Prop := length W = 8%nat /\ Forall is_u64 W.
Definition regle_ok (r : DeltaRule) : Prop :=
  mots_ok (Pattern r) /\ mots_ok (Mask r) /\ is_u64 (NotBeforeSec r) /\ is_u64 (NotAfterSec r) /\ is_u32 (RuleID r) /\
  is_u16 (MaxRadius r) /\ is_u16 (ScaleMask r) /\ is_u8 (DaysOfWeekMask r) /\ is_u8 (TimeSlotMin r) /\ is_u8 (TimeSlotMax r) /\
  length (Label r) = 32%nat /\ bytes_ok (Label r) /\ length (RReserved r) = 5%nat /\ bytes_ok (RReserved r).
Definition entete_ok (h : DeltaHeader) : Prop :=
  length (DMagic h) = 8%nat /\ bytes_ok (DMagic h) /\ is_u16 (DVersion h) /\ is_u16 (DDimension h) /\ is_u32 (RuleCount h) /\
  is_u64 (MachineID h) /\ length (DSeal h) = 32%nat /\ bytes_ok (DSeal h) /\ length (DReserved h) = 8%nat /\ bytes_ok (DReserved h).

(** Read the [k]-th field of a layout at its offset. *)
Ltac longueurs :=
  cbn [take concat champs_regle champs_entete Pattern Mask NotBeforeSec NotAfterSec RuleID MaxRadius ScaleMask DaysOfWeekMask
    TimeSlotMin TimeSlotMax Label RReserved DMagic DVersion DDimension RuleCount MachineID DSeal DReserved]; rewrite ?length_app, ?length_octets_mots, ?length_le; cbn [length]; lia.
Ltac champ k :=
  match goal with |- context [segment (concat ?ls) ?a ?b] => rewrite (segment_champ ls k _ a b eq_refl) by longueurs end.

Lemma decode_encode_regle r : regle_ok r -> DecodeDeltaRule (EncodeDeltaRule r) = r.
Proof.
  destruct r as [P M nb na id rad sc dw t1 t2 lab res].
  intros ((HP & HPu) & (HM & HMu) & Hnb & Hna & Hid & Hrad & Hsc & Hdw & Ht1 & Ht2 & Hlab & _ & Hres & _).
  cbn [Pattern Mask NotBeforeSec NotAfterSec RuleID MaxRadius ScaleMask DaysOfWeekMask TimeSlotMin TimeSlotMax Label RReserved] in *.
  unfold DecodeDeltaRule, EncodeDeltaRule, is_u8, is_u16, is_u32, is_u64 in *.
  assert (forall off W k, (champs_regle (Rule P M nb na id rad sc dw t1 t2 lab res)) !! k = Some (octets_mots W) -> length W = 8%nat ->
    off = length (concat (take k (champs_regle (Rule P M nb na id rad sc dw t1 t2 lab res)))) -> Forall is_u64 W ->
    mots_de off 8 (concat (champs_regle (Rule P M nb na id rad sc dw t1 t2 lab res))) = W) as Hm.
  { intros off W k Hk HW Hoff HWu. apply mots_de_ok; [|done..]. apply (segment_champ _ k); [done..|].
    rewrite length_octets_mots. lia. }
  f_equal; [by apply (Hm _ _ 0%nat)|apply (Hm _ _ 1%nat); [done..| |done]; longueurs|..].
  all: [> champ 2%nat | champ 3%nat | champ 4%nat | champ 5%nat | champ 6%nat | champ 7%nat | champ 8%nat | champ 9%nat
    | champ 10%nat; done | champ 11%nat; done]; apply unle_le; simpl; lia.
Qed.

Lemma encode_decode_regle s : bytes_ok s -> length s = DeltaRuleSize -> EncodeDeltaRule (DecodeDeltaRule s) = s.
Proof.
  intros Hs Hl. unfold DeltaRuleSize in Hl. unfold EncodeDeltaRule, champs_regle, DecodeDeltaRule.
  cbn [Pattern Mask NotBeforeSec NotAfterSec RuleID MaxRadius ScaleMask DaysOfWeekMask TimeSlotMin TimeSlotMax Label RReserved concat].
  rewrite !octets_mots_de by (done || lia). rewrite !le_segment by (done || lia). cbn [Nat.add Nat.mul].
  rewrite app_nil_r, !segment_suivant by lia. by apply segment_tout.
Qed.

Lemma decode_regle_ok s : bytes_ok s -> length s = DeltaRuleSize -> regle_ok (DecodeDeltaRule s).
Proof.
  intros Hs Hl. unfold DeltaRuleSize in Hl. unfold regle_ok, mots_ok, DecodeDeltaRule.
  cbn [Pattern Mask NotBeforeSec NotAfterSec RuleID MaxRadius ScaleMask DaysOfWeekMask TimeSlotMin TimeSlotMax Label RReserved].
  rewrite !length_mots_de, !length_segment by lia. unfold is_u8, is_u16, is_u32, is_u64.
  repeat split; try done; try (by apply mots_de_u64; [done|lia]); try (by apply bytes_ok_segment).
  all: match goal with |- context [segment ?x ?a ?b] => destruct (unle_segment_range x a b (b - a) ltac:(assumption)); [lia|lia|]; cbn in *; lia end.
Qed.

Lemma length_encode_regle r : regle_ok r -> length (EncodeDeltaRule r) = 192%nat.
Proof.
  intros ((HP & _) & (HM & _) & _ & _ & _ & _ & _ & _ & _ & _ & Hlab & _ & Hres & _). unfold EncodeDeltaRule, champs_regle.
  cbn [concat]. rewrite !length_app, !length_octets_mots, !length_le, HP, HM, Hlab, Hres. done.
Qed.

Lemma decode_encode_entete h : entete_ok h -> DecodeDeltaHeader (EncodeDeltaHeader h) = h.
Proof.
  destruct h as [m v d n id sl res]. intros (Hm & _ & Hv & Hd & Hn & Hid & Hsl & _ & Hres & _).
  cbn [DMagic DVersion DDimension RuleCount MachineID DSeal DReserved] in *.
  unfold DecodeDeltaHeader, EncodeDeltaHeader, is_u16, is_u32, is_u64 in *.
  f_equal; [> champ 0%nat; done | champ 1%nat | champ 2%nat | champ 3%nat | champ 4%nat | champ 5%nat; done | champ 6%nat; done].
  all: apply unle_le; simpl; lia.
Qed.

Lemma encode_decode_entete s : bytes_ok s -> length s = 64%nat -> EncodeDeltaHeader (DecodeDeltaHeader s) = s.
Proof.
  intros Hs Hl. unfold EncodeDeltaHeader, champs_entete, DecodeDeltaHeader.
  cbn [DMagic DVersion DDimension RuleCount MachineID DSeal DReserved concat].
  rewrite !le_segment by (done || lia). rewrite app_nil_r, !segment_suivant by lia. by apply segment_tout.
Qed.

Lemma length_encode_entete h : entete_ok h -> length (EncodeDeltaHeader h) = 64%nat.
Proof.
  intros (Hm & _ & _ & _ & _ & _ & Hs & _ & Hr & _). unfold EncodeDeltaHeader, champs_entete. cbn [concat].
  rewrite !length_app, !length_le, Hm, Hs, Hr. done.
Qed.

Lemma lire_regles_ok rs tl : Forall regle_ok rs -> lire_regles (length rs) (section EncodeDeltaRule rs ++ tl) = Some rs.
Proof.
  induction 1 as [|r rs Hr _ IH]; [done|]. cbn [lire_regles length section foldr]. rewrite <- app_assoc.
  rewrite (ReadFull_app DeltaRuleSize) by by apply length_encode_regle. cbn [mbind option_bind].
  fold (section EncodeDeltaRule rs). rewrite IH. cbn [mbind option_bind]. by rewrite decode_encode_regle.
Qed.

(** What is read re-encodes to the octets read. *)
Lemma lire_regles_inv n l rs : bytes_ok l -> lire_regles n l = Some rs ->
  length rs = n /\ Forall regle_ok rs /\ exists tl, l = section EncodeDeltaRule rs ++ tl.
Proof.
  revert l rs. induction n as [|n IH]; intros l rs Hl; cbn [lire_regles].
  { intros [= <-]. split; [done|]. split; [constructor|]. by exists l. }
  unfold ReadFull, DeltaRuleSize. destruct (Nat.leb_spec 192 (length l)) as [Hlen|]; [|done]. cbn [mbind option_bind].
  destruct (lire_regles n (drop 192 l)) as [rs'|] eqn:E; [|done]. cbn. intros [= <-].
  destruct (IH _ _ (bytes_ok_drop _ _ Hl) E) as (H1 & H2 & tl & H3).
  assert (length (take 192 l) = 192%nat) as Ht by (rewrite length_take; lia).
  split; [cbn; congruence|]. split; [constructor; [|done]; by apply decode_regle_ok; [apply bytes_ok_take|]|].
  exists tl. cbn [section foldr]. rewrite encode_decode_regle by (done || by apply bytes_ok_take). fold (section EncodeDeltaRule rs').
  by rewrite <- app_assoc, <- H3, take_drop.
Qed.

(** * Loading *)

Lemma valider_ok seen rs : valider seen rs = None <->
  Forall (fun r => ValidateDeltaRule r = None) rs /\ NoDup (RuleID <$> rs) /\ Forall (fun r => RuleID r ∉ seen) rs.
Proof.
  revert seen. induction rs as [|r rs IH]; intros seen; cbn [valider].
  { split; [intros _|done]. split; [constructor|]. split; constructor. }
  change (RuleID <$> r :: rs) with (RuleID r :: (RuleID <$> rs)). rewrite !Forall_cons_iff, NoDup_cons.
  destruct (ValidateDeltaRule r); [split; [done|naive_solver]|].
  destruct (bool_decide_reflect (RuleID r ∈ seen)); [split; [done|naive_solver]|]. rewrite IH.
  assert (Forall (fun x => RuleID x ∉ RuleID r :: seen) rs <-> RuleID r ∉ RuleID <$> rs /\ Forall (fun x => RuleID x ∉ seen) rs) as ->.
  { rewrite !Forall_forall. split.
    - intros H. split; [|intros x Hx; specialize (H x Hx); set_solver].
      intros (x & E & Hx)%list_elem_of_fmap. specialize (H x Hx). rewrite <- E in H. set_solver.
    - intros [H1 H2] x Hx. rewrite not_elem_of_cons. split; [|by apply H2]. intros E. apply H1. rewrite <- E.
      by apply list_elem_of_fmap_2. }
  naive_solver.
Qed.

Definition regles_valides (rs : list DeltaRule) : Prop :=
  Forall (fun r => ValidateDeltaRule r = None) rs /\ NoDup (RuleID <$> rs).

Lemma valider_regles rs : validateDeltaRules rs = None <-> regles_valides rs.
Proof.
  unfold validateDeltaRules, regles_valides. rewrite valider_ok. split; [naive_solver|]. intros [H1 H2]. split; [done|].
  split; [done|]. apply Forall_forall. intros r _. apply not_elem_of_nil.
Qed.

Lemma bytes_ok_entete h : bytes_ok (DMagic h) -> bytes_ok (DSeal h) -> bytes_ok (DReserved h) -> bytes_ok (EncodeDeltaHeader h).
Proof. intros. apply bytes_ok_concat. do 7 (constructor; [first [assumption|apply bytes_ok_le]|]). constructor. Qed.

Section chargement.
Context (sha256 : list Z -> list Z) (hmac_sha256 : list Z -> list Z -> list Z).

Definition entete_de (n machine : Z) (reserved seal : list Z) : DeltaHeader :=
  DHeader DeltaMagic DeltaVersion DeltaDim n machine seal reserved.

(** The sealed image of a catalogue; the loader ignores the reserved octets,
    which the seal covers, and whatever follows the last rule. *)
Definition image_scellee (key : list Z) (machine : Z) (reserved : list Z) (rs : list DeltaRule) : list Z :=
  let h := entete_de (zlen rs) machine reserved zeros32 in
  EncodeDeltaHeader (sceller h (ComputeDeltaSealHMAC sha256 hmac_sha256 h rs key)) ++ section EncodeDeltaRule rs.

Lemma sceau_insensible h s rs key :
  ComputeDeltaSealHMAC sha256 hmac_sha256 (sceller h s) rs key = ComputeDeltaSealHMAC sha256 hmac_sha256 h rs key.
Proof. done. Qed.

Lemma length_sceau h rs key : length (ComputeDeltaSealHMAC sha256 hmac_sha256 h rs key) = 32%nat.
Proof.
  apply Nat2Z.inj. change (zlen (ComputeDeltaSealHMAC sha256 hmac_sha256 h rs key) = 32). apply zlen_copy_into.
Qed.

Hypothesis sha256_octets : forall m, bytes_ok (sha256 m).
Hypothesis hmac_octets : forall k m, bytes_ok (hmac_sha256 k m).

Lemma bytes_ok_sceau h rs key : bytes_ok (ComputeDeltaSealHMAC sha256 hmac_sha256 h rs key).
Proof.
  unfold ComputeDeltaSealHMAC, copy_into. apply bytes_ok_app; [|by apply bytes_ok_drop, bytes_ok_replicate].
  apply bytes_ok_take. unfold newSealHash. by destruct (zlen key =? 0).
Qed.

Lemma entete_de_ok n machine reserved s : is_u32 n -> is_u64 machine -> length reserved = 8%nat -> bytes_ok reserved ->
  length s = 32%nat -> bytes_ok s -> entete_ok (entete_de n machine reserved s).
Proof.
  intros. unfold entete_ok, entete_de. cbn [DMagic DVersion DDimension RuleCount MachineID DSeal DReserved].
  split; [done|]. split; [by apply octets_valides_ok|]. split; [unfold is_u16, DeltaVersion; lia|].
  split; [unfold is_u16, DeltaDim; lia|]. done.
Qed.

(** A sealed image loads. *)
Lemma charger_image key machine reserved rs tl : checkSealKey key = None -> zlen rs <= DeltaMaxRuleCount -> is_u64 machine ->
  length reserved = 8%nat -> bytes_ok reserved -> Forall regle_ok rs -> regles_valides rs ->
  LoadDeltaCatalogHMAC sha256 hmac_sha256 (image_scellee key machine reserved rs ++ tl) machine key = inr (Catalog machine rs).
Proof.
  intros Hk Hn Hm Hr1 Hr2 Hrs Hv. unfold LoadDeltaCatalogHMAC, image_scellee. rewrite Hk. cbv zeta.
  pose proof (zlen_nonneg rs). unfold DeltaMaxRuleCount in *.
  set (h := entete_de (zlen rs) machine reserved zeros32). set (s := ComputeDeltaSealHMAC sha256 hmac_sha256 h rs key).
  assert (entete_ok (sceller h s)) as Hok.
  { change (sceller h s) with (entete_de (zlen rs) machine reserved s). apply entete_de_ok; try done;
      [unfold is_u32; lia|apply length_sceau|apply bytes_ok_sceau]. }
  rewrite <- app_assoc, (ReadFull_app DeltaHeaderSize) by by apply length_encode_entete.
  rewrite decode_encode_entete by done. cbn [sceller h entete_de DMagic DVersion DDimension RuleCount MachineID DSeal].
  unfold egaux. rewrite bool_decide_eq_true_2 by done. cbn [negb]. rewrite !Z.eqb_refl. cbn [negb].
  destruct (Z.ltb_spec 65536 (zlen rs)); [lia|]. unfold zlen. rewrite Nat2Z.id, lire_regles_ok by done.
  change (DHeader DeltaMagic DeltaVersion DeltaDim (Z.of_nat (length rs)) machine s reserved) with (sceller h s).
  rewrite sceau_insensible. fold s. rewrite bool_decide_eq_true_2 by done. cbn [negb].
  by rewrite (proj2 (valider_regles rs)).
Qed.

(** And nothing else does. *)
Lemma charger_inv l machine key c : bytes_ok l -> LoadDeltaCatalogHMAC sha256 hmac_sha256 l machine key = inr c ->
  checkSealKey key = None /\ zlen (rules c) <= DeltaMaxRuleCount /\ Forall regle_ok (rules c) /\ regles_valides (rules c) /\
  c = Catalog machine (rules c) /\
  exists reserved tl, length reserved = 8%nat /\ bytes_ok reserved /\ l = image_scellee key machine reserved (rules c) ++ tl.
Proof.
  intros Hl. unfold LoadDeltaCatalogHMAC. destruct (checkSealKey key); [done|].
  unfold ReadFull at 1, DeltaHeaderSize. destruct (Nat.leb_spec 64 (length l)) as [Hlen|]; [|done].
  assert (length (take 64 l) = 64%nat) as Ht by (rewrite length_take; lia).
  pose proof (encode_decode_entete (take 64 l) (bytes_ok_take _ _ Hl) Ht) as Henc.
  destruct (DecodeDeltaHeader (take 64 l)) as [m v d n id sl res] eqn:Eh.
  cbn [DMagic DVersion DDimension RuleCount MachineID DSeal].
  destruct (egaux m DeltaMagic) eqn:E1; cbn [negb]; [|done]. apply bool_decide_eq_true in E1. subst m.
  destruct (Z.eqb_spec v DeltaVersion) as [->|]; cbn [negb]; [|done].
  destruct (Z.eqb_spec d DeltaDim) as [->|]; cbn [negb]; [|done].
  destruct (Z.ltb_spec DeltaMaxRuleCount n) as [|Hn]; [done|].
  destruct (lire_regles (Z.to_nat n) (drop 64 l)) as [rs|] eqn:Er; [|done].
  destruct (lire_regles_inv _ _ _ (bytes_ok_drop _ _ Hl) Er) as (H1 & H2 & tl & H3).
  set (s := ComputeDeltaSealHMAC _ _ _ _ _). destruct (egaux s sl) eqn:E2; cbn [negb]; [|done]. apply bool_decide_eq_true in E2.
  destruct (Z.eqb_spec id machine) as [->|]; cbn [negb]; [|done].
  destruct (validateDeltaRules rs) eqn:Ev; [done|]. intros [= <-]. cbn [rules]. apply valider_regles in Ev.
  assert (0 <= n) as Hn0.
  { assert (n = unle (segment (take 64 l) 12 16)) as -> by (unfold DecodeDeltaHeader in Eh; by injection Eh).
    apply (unle_segment_range _ _ _ 4); [by apply bytes_ok_take|lia|lia]. }
  assert (n = zlen rs) as -> by (unfold zlen; lia).
  split; [done|]. split; [done|]. split; [done|]. split; [done|]. split; [done|].
  assert (res = segment (take 64 l) 56 64) as Hres by (unfold DecodeDeltaHeader in Eh; by injection Eh).
  exists res, tl. split; [rewrite Hres, length_segment; lia|]. split; [rewrite Hres; by apply bytes_ok_segment, bytes_ok_take|].
  unfold image_scellee. rewrite <- app_assoc, <- H3. rewrite <- (take_drop 64 l) at 1. f_equal.
  rewrite <- Henc, <- E2. done.
Qed.
End chargement.

(** * Severity *)

Lemma champ_severite_bit w i : 0 <= i -> Z.testbit (Z.land w localitySeverityMask) i = Z.testbit w i && (i <? 32).
Proof. intros Hi. change localitySeverityMask with (Z.ones 32). by rewrite Z.land_spec, Z.testbit_ones_nonneg by lia. Qed.

Lemma niveau_lu w lv : deltaSeverityLevel w = Some lv -> Z.land w localitySeverityMask = thermo64 (8 * lv) /\ 0 <= lv <= 4.
Proof.
  unfold deltaSeverityLevel. set (f := Z.land w localitySeverityMask). pose proof (OnesCount64_range f).
  assert (OnesCount64 f <= 32) as H32.
  { assert (compter_bits (fun i => i <? 32) 64 = 32 - 0) as E32 by (apply compter_intervalle; [lia..|intros; lia]).
    change 32 with (32 - 0). rewrite <- E32.
    apply compter_bits_le. intros i Hi Hb. unfold f in Hb. rewrite champ_severite_bit in Hb by lia. by apply andb_true_iff in Hb as [_ ?]. }
  destruct (Z.eqb_spec (OnesCount64 f mod 8) 0) as [Hm|]; [|done]. destruct (Z.eqb_spec f (thermo64 (OnesCount64 f))) as [E|]; [|done].
  cbn [negb orb]. intros [= <-]. rewrite u16_id by (unfold is_u16; divlia).
  split; [|divlia]. by replace (8 * (OnesCount64 f / 8)) with (OnesCount64 f) by divlia.
Qed.

Lemma ceil_niveau w lv : deltaSeverityLevel w = Some lv -> deltaSeverityCeil w = lv.
Proof.
  intros (E & Hlv)%niveau_lu. unfold deltaSeverityCeil. rewrite E, thermo_ones by lia. unfold Len64.
  destruct (Z.eqb_spec (Z.ones (8 * lv)) 0) as [H0|H0].
  - destruct (decide (lv = 0)) as [->|]; [done|]. rewrite Z.ones_equiv in H0. pose proof (Z.pow_gt_1 2 (8 * lv) ltac:(lia)). lia.
  - assert (lv <> 0) as Hne by (intros ->; done). assert (Z.log2 (Z.ones (8 * lv)) = 8 * lv - 1) as ->; [|divlia].
    apply Z.log2_unique; [lia|]. rewrite Z.ones_equiv. pose proof (Z.pow_pos_nonneg 2 (8 * lv - 1) ltac:(lia) ltac:(lia)).
    replace (Z.succ (8 * lv - 1)) with (8 * lv) by lia. replace (2 ^ (8 * lv)) with (2 * 2 ^ (8 * lv - 1)); [lia|].
    rewrite <- Z.pow_succ_r by lia. f_equal. lia.
Qed.

(** Between two whole thermometers, a level costs eight masked bits. *)
Lemma cout_niveau wo wp m lo lp : deltaSeverityLevel wo = Some lo -> deltaSeverityLevel wp = Some lp ->
  Z.land m localitySeverityMask = localitySeverityMask ->
  8 * Z.abs (lo - lp) <= OnesCount64 (Z.land (Z.lxor wo wp) m).
Proof.
  intros (Eo & Ho)%niveau_lu (Ep & Hp)%niveau_lu Hm.
  replace (8 * Z.abs (lo - lp)) with (Z.abs (8 * lo - 8 * lp)) by lia. rewrite <- thermo_ecart, <- Eo, <- Ep by lia.
  apply compter_bits_le. intros i Hi. rewrite Z.lxor_spec, !champ_severite_bit, Z.land_spec, Z.lxor_spec by lia.
  assert ((i <? 32) = true -> Z.testbit m i = true) as Hb.
  { intros Hlt. pose proof (champ_severite_bit m i ltac:(lia)) as H. rewrite Hm in H.
    change localitySeverityMask with (Z.ones 32) in H. rewrite Z.testbit_ones_nonneg, Hlt, andb_true_r in H by lia. done. }
  destruct (i <? 32); [rewrite Hb by done; by rewrite !andb_true_r|]. by rewrite !andb_false_r.
Qed.

Lemma niveau_snapshot s c : 0 <= s -> 0 <= c < 2 ^ 16 -> deltaSeverityLevel (mot2 s c) = Some (niveau s).
Proof.
  intros Hs Hc. pose proof (niveau_range s Hs). unfold deltaSeverityLevel. rewrite mot2_severite by done.
  assert (Z.land (mot2 s c) localitySeverityMask = thermo64 (8 * niveau s)) as ->.
  { apply Z.bits_inj'. intros i Hi. rewrite champ_severite_bit, thermo_bit by lia.
    destruct (Z.ltb_spec i 32); [rewrite mot2_bit by (done || lia); destruct (Z.ltb_spec i 32); [by rewrite andb_true_r|lia]|].
    rewrite andb_false_r. lia. }
  rewrite Z.eqb_refl. destruct (Z.eqb_spec ((8 * niveau s) mod 8) 0); [|divlia]. cbn [negb orb]. f_equal.
  rewrite u16_id by (unfold is_u16; divlia). divlia.
Qed.

Lemma ecart_masque_pos a r w : 0 <= ecart_masque a r w.
Proof. apply OnesCount64_nonneg. Qed.

Lemma distance_masquee_mot2 a r : ecart_masque a r 2 <= distance_masquee a r.
Proof.
  unfold distance_masquee. cbn [seqZ Z.to_nat Pos.to_nat Pos.iter_op Nat.add seq fmap list_fmap foldl].
  pose proof (ecart_masque_pos a r). change (foldl (fun d w => d + ecart_masque a r w) 0 (seqZ 0 8))
    with (0 + ecart_masque a r 0 + ecart_masque a r 1 + ecart_masque a r 2 + ecart_masque a r 3 + ecart_masque a r 4
          + ecart_masque a r 5 + ecart_masque a r 6 + ecart_masque a r 7).
  pose proof (H 0). pose proof (H 1). pose proof (H 3). pose proof (H 4). pose proof (H 5). pose proof (H 6). pose proof (H 7). lia.
Qed.

(** What the guards of [ValidateDeltaRule] leave. *)
Lemma valide_inv r : ValidateDeltaRule r = None ->
  NotBeforeSec r < NotAfterSec r /\ NotAfterSec r <> 0 /\ RuleID r <> 0 /\ TimeSlotMin r <= TimeSlotMax r < 64 /\
  MaxRadius r < bits_masques r /\ Z.land (bget (Mask r) 2) localitySeverityMask = localitySeverityMask /\
  exists lv, deltaSeverityLevel (bget (Pattern r) 2) = Some lv /\ (lv < 4 -> MaxRadius r < 8) /\ (lv = 4 -> MaxRadius r <= 8).
Proof.
  unfold ValidateDeltaRule, DeltaSlotsPerDay, localitySlotsPerDay, SeverityCritical, DeltaCriticalMaxRadius.
  repeat match goal with |- (if ?b then _ else _) = None -> _ => let E := fresh "E" in destruct b eqn:E; [done|] end.
  destruct (deltaSeverityLevel (bget (Pattern r) 2)) as [lv|]; [|done].
  repeat match goal with |- (if ?b then _ else _) = None -> _ => let E := fresh "E" in destruct b eqn:E; [done|] end.
  intros _. zbool. split; [lia|]. split; [lia|]. split; [done|]. split; [lia|]. split; [lia|]. split; [done|].
  exists lv. split; [done|]. split; intros; lia.
Qed.

(** The distance alone already rules out a graver state. *)
Lemma distance_protege r a lo : ValidateDeltaRule r = None -> deltaSeverityLevel (bget a 2) = Some lo ->
  distance_masquee a r <= MaxRadius r -> deltaSeverityCeil (bget a 2) <= deltaSeverityCeil (bget (Pattern r) 2) <= lo + 1 /\
  (deltaSeverityCeil (bget (Pattern r) 2) < 4 -> deltaSeverityCeil (bget (Pattern r) 2) = lo).
Proof.
  intros (_ & _ & _ & _ & _ & Hm & lv & Hlv & H1 & H2)%valide_inv Ho Hd.
  pose proof (cout_niveau _ _ _ _ _ Ho Hlv Hm) as Hc. pose proof (distance_masquee_mot2 a r) as H3.
  unfold ecart_masque in H3. rewrite (ceil_niveau _ _ Ho), (ceil_niveau _ _ Hlv).
  destruct (niveau_lu _ _ Ho) as [_ ?]. destruct (niveau_lu _ _ Hlv) as [_ ?]. lia.
Qed.

(** * Evaluation *)

Definition applicable (observed : list Z) (tsSec scale : Z) (r : DeltaRule) : bool :=
  en_vigueur r tsSec scale && severite_admise r observed && (distance_masquee observed r <=? MaxRadius r).

Lemma chercher_regle_ok a t sc rs : match chercher_regle a t sc rs with
  | (true, id) => exists rs1 r rs2, rs = rs1 ++ r :: rs2 /\ RuleID r = id /\ applicable a t sc r = true /\
                    Forall (fun r => applicable a t sc r = false) rs1
  | (false, id) => id = 0 /\ Forall (fun r => applicable a t sc r = false) rs
  end.
Proof.
  induction rs as [|r rs IH]; cbn [chercher_regle]; [split; [done|constructor]|].
  assert (forall b, applicable a t sc r = b ->
    (if negb (en_vigueur r t sc && severite_admise r a) then chercher_regle a t sc rs else
     if distance_masquee a r <=? MaxRadius r then (true, RuleID r) else chercher_regle a t sc rs)
    = if b then (true, RuleID r) else chercher_regle a t sc rs) as H.
  { intros b <-. unfold applicable. destruct (en_vigueur r t sc && severite_admise r a); [|done]. cbn. by destruct (_ <=? _). }
  destruct (applicable a t sc r) eqn:E; rewrite (H _ eq_refl).
  - exists [], r, rs. split; [done|]. split; [done|]. split; [done|constructor].
  - destruct (chercher_regle a t sc rs) as [[] id].
    + destruct IH as (rs1 & r' & rs2 & -> & ? & ? & ?). exists (r :: rs1), r', rs2. split; [done|]. split; [done|]. split; [done|].
      by constructor.
    + destruct IH as [? ?]. split; [done|by constructor].
Qed.

Lemma land_puissance x j : 0 <= j -> Z.land x (2 ^ j) <> 0 -> Z.testbit x j = true.
Proof.
  intros Hj H. destruct (Z.testbit x j) eqn:E; [done|]. exfalso. apply H. apply Z.bits_inj'. intros i Hi.
  rewrite Z.land_spec, Z.bits_0, Z.pow2_bits_eqb by done. destruct (Z.eqb_spec j i) as [->|]; [by rewrite E|apply andb_false_r].
Qed.

(** Readable form of the guards of a rule. *)
Lemma en_vigueur_inv r t sc : is_u64 t -> en_vigueur r t sc = true ->
  NotBeforeSec r <= t <= NotAfterSec r /\ Z.land (ScaleMask r) sc <> 0 /\
  Z.testbit (DaysOfWeekMask r) ((t / 86400 + 4) mod 7) = true /\ TimeSlotMin r <= creneau t <= TimeSlotMax r.
Proof.
  intros Ht H. unfold en_vigueur in H. pose proof (creneau_range t).
  assert (jour t = (t / 86400 + 4) mod 7) as Ej by (unfold jour; apply u8_id; unfold is_u8; divlia).
  rewrite Ej in H. assert (0 <= (t / 86400 + 4) mod 7 < 7) as Hd by divlia. set (d := (t / 86400 + 4) mod 7) in *.
  assert (u8 (Z.shiftl 1 d) = 2 ^ d) as E1.
  { rewrite Z.shiftl_1_l. apply u8_id. unfold is_u8. pose proof (Z.pow_lt_mono_r 2 d 8). pose proof (Z.pow_pos_nonneg 2 d). lia. }
  rewrite E1 in H. rewrite (u8_id (creneau t)) in H by (unfold is_u8; lia). zbool.
  split; [lia|]. split; [done|]. split; [|lia]. apply land_puissance; [lia|done].
Qed.

Lemma identifiant_unique (rs : list DeltaRule) r r' : NoDup (RuleID <$> rs) -> r ∈ rs -> r' ∈ rs -> RuleID r' = RuleID r -> r' = r.
Proof.
  intros Hnd (i & Hi)%list_elem_of_lookup (j & Hj)%list_elem_of_lookup E.
  assert (i = j) as ->; [|congruence]. eapply (proj1 (NoDup_alt _) Hnd i j (RuleID r)); rewrite list_lookup_fmap.
  - by rewrite Hi.
  - rewrite Hj. cbn. by rewrite E.
Qed.

Lemma code_niveau s o a : snapshot_ok s -> VectorizeServerHealthLocality (Some s) (Some o) = Done (Some a) ->
  deltaSeverityLevel (bget a 2) = Some (niveau (Severity s)).
Proof.
  intros Hs H. destruct (vectoriser_ok s Hs) as (h & _ & _ & E). cbn [VectorizeServerHealthLocality] in H. rewrite E in H.
  injection H as <-. destruct Hs as (_ & _ & _ & _ & Hv & Hc & _). unfold is_u16 in *. apply niveau_snapshot; lia.
Qed.

(** C11: a dispensation is founded.  When a loaded catalogue excuses the code of
    a snapshot at some instant for some scale, the rule it names is the first
    applicable one and the only one of that identifier; the instant lies in its
    bounded window, its day and its slot, the scale is a single one it covers;
    the state lies within a radius smaller than the number of masked bits; and
    no aggravation is excused: the severity is at most the rule's, and exactly
    the rule's below Critical. *)
Theorem dispense_fondee sha256 hmac_sha256 l machine key c s o a ts scale id :
  bytes_ok l -> LoadDeltaCatalogHMAC sha256 hmac_sha256 l machine key = inr c ->
  snapshot_ok s -> VectorizeServerHealthLocality (Some s) (Some o) = Done (Some a) -> is_u64 ts ->
  EvaluateDelta (Some c) (Some a) ts scale = (true, id) ->
  exists rs1 r rs2, rules c = rs1 ++ r :: rs2 /\ Forall (fun x => applicable a ts scale x = false) rs1 /\
    RuleID r = id /\ (forall r', r' ∈ rules c -> RuleID r' = id -> r' = r) /\
    NotBeforeSec r <= ts <= NotAfterSec r /\ Z.testbit (DaysOfWeekMask r) ((ts / 86400 + 4) mod 7) = true /\
    TimeSlotMin r <= creneau ts <= TimeSlotMax r /\ OnesCount64 scale = 1 /\ Z.land (ScaleMask r) scale <> 0 /\
    distance_masquee a r <= MaxRadius r < bits_masques r /\
    exists lv, deltaSeverityLevel (bget (Pattern r) 2) = Some lv /\ niveau (Severity s) <= lv /\ (lv < 4 -> niveau (Severity s) = lv).
Proof.
  intros Hl Hload Hs Ha Hts He. destruct (charger_inv _ _ _ _ _ _ Hl Hload) as (_ & _ & _ & [Hv Hnd] & _ & _).
  cbn [EvaluateDelta] in He. destruct (Z.eqb_spec (OnesCount64 scale) 1) as [H1|]; [|done]. cbn [negb] in He.
  pose proof (chercher_regle_ok a ts scale (rules c)) as H. rewrite He in H. destruct H as (rs1 & r & rs2 & E & Hid & Happ & Hrs1).
  exists rs1, r, rs2. assert (r ∈ rules c) as Hin by (rewrite E; apply elem_of_app; right; left).
  pose proof (proj1 (Forall_forall _ _) Hv r Hin) as Hvr. cbv beta in Hvr.
  unfold applicable in Happ. apply andb_true_iff in Happ as [[Hen _]%andb_true_iff Hdist]. apply Z.leb_le in Hdist.
  destruct (en_vigueur_inv _ _ _ Hts Hen) as (Hw & Hsc & Hday & Hslot).
  split; [done|]. split; [done|]. split; [done|]. split; [intros r' Hr' <-; by apply (identifiant_unique (rules c))|].
  split; [done|]. split; [done|]. split; [done|]. split; [done|]. split; [done|].
  pose proof (code_niveau s o a Hs Ha) as Hlo. destruct (distance_protege r a _ Hvr Hlo Hdist) as [Hp1 Hp2].
  destruct (valide_inv r Hvr) as (_ & _ & _ & _ & Hb & _ & lv & Hlv & _). split; [lia|].
  exists lv. split; [done|]. rewrite (ceil_niveau _ _ Hlv) in Hp1, Hp2. rewrite (ceil_niveau _ _ Hlo) in Hp1. split; [lia|].
  intros H4. symmetry. by apply Hp2.
Qed.

(** The evaluation without the run-time severity guard. *)
Fixpoint chercher_sans_garde (observed : list Z) (tsSec scale : Z) (rs : list DeltaRule) : bool * Z :=
  match rs with
  | [] => (false, 0)
  | r :: rs =>
      if en_vigueur r tsSec scale && (distance_masquee observed r <=? MaxRadius r) then (true, RuleID r)
      else chercher_sans_garde observed tsSec scale rs
  end.

(** The run-time severity guard is a second lock.  On the code of any
    snapshot, a loaded catalogue answers exactly as it would without that guard:
    the guards of [ValidateDeltaRule] already keep every rule at less than eight
    bits from a pattern whose severity it fixes, and a level costs eight. *)
Theorem garde_redondante sha256 hmac_sha256 l machine key c s o a ts scale :
  bytes_ok l -> LoadDeltaCatalogHMAC sha256 hmac_sha256 l machine key = inr c ->
  snapshot_ok s -> VectorizeServerHealthLocality (Some s) (Some o) = Done (Some a) ->
  EvaluateDelta (Some c) (Some a) ts scale
  = if OnesCount64 scale =? 1 then chercher_sans_garde a ts scale (rules c) else (false, 0).
Proof.
  intros Hl Hload Hs Ha. destruct (charger_inv _ _ _ _ _ _ Hl Hload) as (_ & _ & _ & [Hv _] & _ & _).
  cbn [EvaluateDelta]. destruct (OnesCount64 scale =? 1); [|done]. cbn [negb].
  pose proof (code_niveau s o a Hs Ha) as Hlo. clear Hload. induction Hv as [|r rs Hr _ IH]; [done|].
  cbn [chercher_regle chercher_sans_garde]. rewrite IH. destruct (en_vigueur r ts scale); [|done]. cbn [andb].
  destruct (Z.leb_spec (distance_masquee a r) (MaxRadius r)) as [Hd|]; [|by destruct (severite_admise r a)].
  destruct (distance_protege r a _ Hr Hlo Hd) as [[Hp _] _]. unfold severite_admise.
  by destruct (Z.ltb_spec (deltaSeverityCeil (bget (Pattern r) 2)) (deltaSeverityCeil (bget a 2))); [lia|].
Qed.

(** C38: the loader accepts exactly the sealed catalogues of the machine: the key
    is acceptable, there are at most 65536 rules, all valid and of distinct
    identifiers, and the stream begins with their image, whose seal is the
    SHA-256 (the HMAC under a non-empty key) of every other octet of the image. *)
Theorem chargement_exact sha256 hmac_sha256 l machine key c :
  (forall m, bytes_ok (sha256 m)) -> (forall k m, bytes_ok (hmac_sha256 k m)) -> bytes_ok l -> is_u64 machine ->
  LoadDeltaCatalogHMAC sha256 hmac_sha256 l machine key = inr c <->
  exists rs reserved tl, c = Catalog machine rs /\ checkSealKey key = None /\ zlen rs <= DeltaMaxRuleCount /\
    Forall regle_ok rs /\ regles_valides rs /\ length reserved = 8%nat /\ bytes_ok reserved /\
    l = image_scellee sha256 hmac_sha256 key machine reserved rs ++ tl.
Proof.
  intros H1 H2 Hl Hm. split.
  - intros H. destruct (charger_inv _ _ _ _ _ _ Hl H) as (Hk & Hn & Hok & Hv & Hc & reserved & tl & Hr1 & Hr2 & E).
    by exists (rules c), reserved, tl.
  - intros (rs & reserved & tl & -> & Hk & Hn & Hok & Hv & Hr1 & Hr2 & ->). by apply charger_image.
Qed.

(** Saving then loading a catalogue, under the same key and for the same
    machine, gives its rules back, whatever follows in the stream; and saving
    refuses exactly what loading would: a short key, too many rules, an invalid
    rule or a repeated identifier. *)
Theorem catalogue_aller_retour sha256 hmac_sha256 machine rs key tl :
  (forall m, bytes_ok (sha256 m)) -> (forall k m, bytes_ok (hmac_sha256 k m)) -> is_u64 machine -> Forall regle_ok rs ->
  match SaveDeltaCatalogHMAC sha256 hmac_sha256 machine rs key with
  | inr l => LoadDeltaCatalogHMAC sha256 hmac_sha256 (l ++ tl) machine key = inr (Catalog machine rs)
  | inl e => checkSealKey key = Some e \/ (e = ErrDeltaTooLarge /\ DeltaMaxRuleCount < zlen rs) \/
             (validateDeltaRules rs = Some e /\ ~ regles_valides rs)
  end.
Proof.
  intros H1 H2 Hm Hrs. unfold SaveDeltaCatalogHMAC. destruct (checkSealKey key) eqn:Hk; [by left|].
  destruct (Z.ltb_spec DeltaMaxRuleCount (zlen rs)) as [|Hn]; [by right; left|].
  destruct (validateDeltaRules rs) eqn:Hv; [right; right; split; [done|]; intros Hr%valider_regles; congruence|].
  rewrite u32_id by (unfold is_u32, DeltaMaxRuleCount in *; pose proof (zlen_nonneg rs); lia).
  apply (charger_image sha256 hmac_sha256 H1 H2 key machine (replicate 8 0)); [done|done|done|done|by apply octets_valides_ok|done|].
  by apply valider_regles.
Qed.

(** * Rules made from a snapshot *)

Lemma masque_severite fields : Z.land (bget (masque_champs fields) 2) localitySeverityMask = localitySeverityMask /\
  length (masque_champs fields) = 8%nat /\ (forall w, 0 <= OnesCount64 (bget (masque_champs fields) w)) /\
  32 <= OnesCount64 (bget (masque_champs fields) 2).
Proof.
  assert (bget (masque_champs fields) 2 = localitySeverityMask \/ bget (masque_champs fields) 2 = 2 ^ 64 - 1) as [E|E].
  { unfold masque_champs, bget. cbn [imap nth Z.to_nat Pos.to_nat Pos.iter_op Nat.add Nat.eqb].
    change (negb (0 =? 0)) with false. cbn [andb]. destruct (negb (Z.land fields DeltaMatchCorrelated =? 0)); [right|left]; by vm_compute. }
  all: rewrite E; split; [by vm_compute|]; split; [done|]; split; [intros w; apply OnesCount64_nonneg|by vm_compute].
Qed.

Lemma bits_masques_mot2 r : OnesCount64 (bget (Mask r) 2) <= bits_masques r.
Proof.
  unfold bits_masques. change (foldl (fun m i => m + OnesCount64 (bget (Mask r) i)) 0 (seqZ 0 8))
    with (0 + OnesCount64 (bget (Mask r) 0) + OnesCount64 (bget (Mask r) 1) + OnesCount64 (bget (Mask r) 2) + OnesCount64 (bget (Mask r) 3)
          + OnesCount64 (bget (Mask r) 4) + OnesCount64 (bget (Mask r) 5) + OnesCount64 (bget (Mask r) 6) + OnesCount64 (bget (Mask r) 7)).
  pose proof (OnesCount64_nonneg (bget (Mask r) 0)). pose proof (OnesCount64_nonneg (bget (Mask r) 1)).
  pose proof (OnesCount64_nonneg (bget (Mask r) 3)). pose proof (OnesCount64_nonneg (bget (Mask r) 4)).
  pose proof (OnesCount64_nonneg (bget (Mask r) 5)). pose proof (OnesCount64_nonneg (bget (Mask r) 6)).
  pose proof (OnesCount64_nonneg (bget (Mask r) 7)). lia.
Qed.

Lemma distance_nulle a r : Pattern r = a -> distance_masquee a r = 0.
Proof.
  intros E. assert (forall w, ecart_masque a r w = 0) as H.
  { intros w. unfold ecart_masque. by rewrite E, Z.lxor_nilpotent, Z.land_0_l. }
  unfold distance_masquee. generalize (seqZ 0 8). intros L. induction L as [|w L IH] using rev_ind; [done|].
  rewrite foldl_app, IH. cbn [foldl]. by rewrite H.
Qed.

(** The calendar, identity and radius an operator chooses. *)
Definition calendrier_ok (r : DeltaRule) : Prop :=
  NotBeforeSec r < NotAfterSec r /\ 0 <= NotBeforeSec r /\ RuleID r <> 0 /\ bget (Label r) 0 <> 0 /\
  0 < ScaleMask r <= DeltaScaleAll /\ 0 < DaysOfWeekMask r <= DeltaAllDays /\ TimeSlotMin r <= TimeSlotMax r < 64 /\
  MaxRadius r < 8.

(** A rule made from a snapshot, whatever the fields it fixes, with a
    sensible calendar and a radius below 8, is valid, and a catalogue that holds
    it first excuses that very snapshot whenever the rule is in force. *)
Theorem regle_d_instantane s fields r m rs ts scale : snapshot_ok s ->
  DeltaPatternFromSnapshot (Some s) fields = Done (Pattern r, Mask r) -> calendrier_ok r ->
  ValidateDeltaRule r = None /\
  (en_vigueur r ts scale = true -> OnesCount64 scale = 1 -> 0 <= MaxRadius r ->
   forall o a, VectorizeServerHealthLocality (Some s) (Some o) = Done (Some a) ->
   EvaluateDelta (Some (Catalog m (r :: rs))) (Some a) ts scale = (true, RuleID r)).
Proof.
  intros Hs Hp (Hw & Hnb & Hid & Hlab & Hsc & Hdw & Hsl & Hrad). destruct (vectoriser_ok s Hs) as (h & _ & _ & E).
  unfold DeltaPatternFromSnapshot in Hp. cbn [VectorizeServerHealthLocality] in Hp. rewrite E in Hp.
  injection Hp as HP HM. change (code_de s h = Pattern r) in HP.
  pose proof (masque_severite fields) as (Hm1 & _ & _ & Hm2). rewrite HM in Hm1, Hm2. pose proof (bits_masques_mot2 r) as Hb.
  assert (deltaSeverityLevel (bget (Pattern r) 2) = Some (niveau (Severity s))) as Hlv.
  { rewrite <- HP. destruct Hs as (_ & _ & _ & _ & Hv & Hc & _). unfold is_u16 in *. apply niveau_snapshot; lia. }
  assert (forall x, 0 < x <= 127 -> Z.ldiff x 127 = 0) as Hld.
  { intros x Hx. change 127 with (Z.ones 7). rewrite Z.ldiff_ones_r, Z.shiftr_div_pow2 by lia.
    rewrite Z.div_small by (change (2 ^ 7) with 128; lia). done. }
  split.
  - unfold ValidateDeltaRule, DeltaScaleAll, DeltaAllDays, DeltaSlotsPerDay, localitySlotsPerDay, DeltaCriticalMaxRadius in *.
    rewrite !Hld by lia. rewrite Hm1, Hlv, Z.eqb_refl. repeat zif; [..|done]; exfalso; lia.
  - intros Hen H1 Hr o a Ha. cbn [VectorizeServerHealthLocality] in Ha. rewrite E in Ha. injection Ha as <-.
    cbn [EvaluateDelta rules chercher_regle]. rewrite H1, Hen. rewrite HP.
    rewrite (distance_nulle (Pattern r) r eq_refl). unfold severite_admise. rewrite Z.ltb_irrefl. cbn.
    by destruct (Z.leb_spec 0 (MaxRadius r)); [|lia].
Qed.

(** * Witnesses: a catalogue of one rule, under a toy keyed hash *)

Definition empreinte (m : list Z) : list Z := le 32 (somme m).
Definition empreinte_cle (k m : list Z) : list Z := le 32 (somme k + 3 * somme m).
Lemma empreinte_octets m : bytes_ok (empreinte m).
Proof. apply bytes_ok_le. Qed.
Lemma empreinte_cle_octets k m : bytes_ok (empreinte_cle k m).
Proof. apply bytes_ok_le. Qed.

Definition etat : ServerHealthSnapshot := snapshot_exemple 2 900.
Definition code_etat : list Z := match vectoriser etat with Done c => c | _ => [] end.
Definition regle_exemple : DeltaRule :=
  Rule code_etat (masque_champs (DeltaMatchSubsystem + DeltaMatchScore)) 1600000000 1800000000 7 4 1 127 0 63
    (octets "nightly backup" ++ replicate 18 0) (replicate 5 0).
Definition cle_exemple : list Z := replicate 16 5.
Definition image_exemple : list Z :=
  match SaveDeltaCatalogHMAC empreinte empreinte_cle 99 [regle_exemple] cle_exemple with inr l => l | inl _ => [] end.

Definition mots_controle (W : list Z) : bool := (length W =? 8)%nat && forallb (fun w => (0 <=? w) && (w <? 2 ^ 64)) W.
Lemma mots_controle_ok W : mots_controle W = true -> mots_ok W.
Proof.
  unfold mots_controle, mots_ok. intros [H1 H2]%andb_true_iff. split; [by apply Nat.eqb_eq|].
  apply Forall_forall. intros w Hw%list_elem_of_In. pose proof (proj1 (forallb_forall _ _) H2 w Hw) as H. cbv beta in H. zbool. unfold is_u64. lia.
Qed.

Lemma regle_exemple_ok : Forall regle_ok [regle_exemple].
Proof.
  constructor; [|constructor]. unfold regle_ok, is_u64, is_u32, is_u16, is_u8. split; [by apply mots_controle_ok; vm_compute|].
  split; [by apply mots_controle_ok; vm_compute|]. cbn -[octets]. repeat (split; [lia|]).
  split; [done|]. split; [by apply octets_valides_ok|]. split; [done|]. by apply octets_valides_ok.
Qed.

Lemma image_exemple_ok : bytes_ok image_exemple.
Proof. apply octets_valides_ok. by vm_compute. Qed.
Lemma image_exemple_chargee : LoadDeltaCatalogHMAC empreinte empreinte_cle image_exemple 99 cle_exemple = inr (Catalog 99 [regle_exemple]).
Proof. vm_compute. reflexivity. Qed.
Lemma etat_ok : snapshot_ok etat.
Proof. apply snapshot_exemple_ok; lia. Qed.
Lemma etat_code : VectorizeServerHealthLocality (Some etat) (Some []) = Done (Some code_etat).
Proof. vm_compute. reflexivity. Qed.

Lemma catalogue_aller_retour_witness :
  zlen image_exemple = 256 /\
  LoadDeltaCatalogHMAC empreinte empreinte_cle (image_exemple ++ [1; 2]) 99 cle_exemple = inr (Catalog 99 [regle_exemple]).
Proof.
  split; [by vm_compute|].
  pose proof (catalogue_aller_retour empreinte empreinte_cle 99 [regle_exemple] cle_exemple [1; 2]
    empreinte_octets empreinte_cle_octets ltac:(unfold is_u64; lia) regle_exemple_ok) as H.
  assert (SaveDeltaCatalogHMAC empreinte empreinte_cle 99 [regle_exemple] cle_exemple = inr image_exemple) as E by by vm_compute.
  rewrite E in H. exact H.
Defined.

Lemma chargement_exact_witness :
  exists rs reserved tl, Catalog 99 [regle_exemple] = Catalog 99 rs /\
    image_exemple = image_scellee empreinte empreinte_cle cle_exemple 99 reserved rs ++ tl.
Proof.
  destruct (proj1 (chargement_exact empreinte empreinte_cle image_exemple 99 cle_exemple (Catalog 99 [regle_exemple])
    empreinte_octets empreinte_cle_octets image_exemple_ok ltac:(unfold is_u64; lia)) image_exemple_chargee)
    as (rs & reserved & tl & H1 & _ & _ & _ & _ & _ & _ & H2).
  exists rs, reserved, tl. exact (conj H1 H2).
Defined.

Lemma dispense_fondee_witness :
  exists rs1 r rs2, [regle_exemple] = rs1 ++ r :: rs2 /\ RuleID r = 7 /\ niveau (Severity etat) = 2.
Proof.
  destruct (dispense_fondee empreinte empreinte_cle image_exemple 99 cle_exemple (Catalog 99 [regle_exemple]) etat [] code_etat
    1700000000 1 7 image_exemple_ok image_exemple_chargee etat_ok etat_code) as (rs1 & r & rs2 & H & _ & Hid & _).
  - unfold is_u64. lia.
  - vm_compute. reflexivity.
  - exists rs1, r, rs2. exact (conj H (conj Hid eq_refl)).
Defined.

Lemma garde_redondante_witness :
  EvaluateDelta (Some (Catalog 99 [regle_exemple])) (Some code_etat) 1700000000 1
  = chercher_sans_garde code_etat 1700000000 1 [regle_exemple].
Proof.
  rewrite (garde_redondante empreinte empreinte_cle image_exemple 99 cle_exemple (Catalog 99 [regle_exemple]) etat [] code_etat
    1700000000 1 image_exemple_ok image_exemple_chargee etat_ok etat_code). reflexivity.
Defined.

Lemma regle_d_instantane_witness :
  ValidateDeltaRule regle_exemple = None /\
  EvaluateDelta (Some (Catalog 99 [regle_exemple])) (Some code_etat) 1700000000 1 = (true, 7).
Proof.
  destruct (regle_d_instantane etat (DeltaMatchSubsystem + DeltaMatchScore) regle_exemple 99 [] 1700000000 1 etat_ok) as [H1 H2].
  - vm_compute. reflexivity.
  - unfold calendrier_ok, DeltaScaleAll, DeltaAllDays. cbn -[octets]. repeat split; try lia; by vm_compute.
  - split; [exact H1|]. apply (H2 ltac:(vm_compute; reflexivity) eq_refl ltac:(cbn; lia) [] code_etat etat_code).
Defined.
