(* ===== verification/GrayZone.v ===== *)
(** The grey-zone decider (src/internal/engine/grayzone.go): ontology verdict,
    Hamming search, then a per-source and a global token bucket.  [time.Now()]
    is an argument of the operations, one per reading.  The theorems: the
    exact decision table, and the rate bounds of the two buckets for callers
    that do not overlap; [Module Course] shows the interleaving in which two
    overlapping callers exceed the bound. *)
From stdpp Require Import relations.
From S2P Require Import Prelude Codebook Ontology.

Definition CascadeFastPass : Z := 1.
Definition CascadeFastDrop : Z := 2.
Definition CascadeEscalate : Z := 3.
Definition CascadeQueueFull : Z := 4.
Definition CascadeSourceThrottled : Z := 5.
Definition Second : Z := 1000000000.

Record sourceSlot := Slot { sourceID : Z; stokens : Z; slastRefill : Z }.
Definition slot_zero : sourceSlot := Slot 0 0 0.

Record GrayZoneConfig := Config {
  DistStrict : Z;
  DistFar : Z;
  MaxBurst : Z;
  RefillPerSec : Z;
  SourceMaxBurst : Z;
  SourceRefillPerSec : Z
}.
Definition DefaultGrayZoneConfig : GrayZoneConfig := Config 16 64 100 25 20 5.

Record GrayZoneDecider := Decider {
  cfg : GrayZoneConfig;
  tokens : Z;
  lastRefill : Z;
  escalated : Z;
  throttledGlobal : Z;
  throttledSource : Z;
  sources : list sourceSlot
}.

Definition NewGrayZoneDecider (cfg : GrayZoneConfig) (now : Z) : GrayZoneDecider :=
  let strict := if DistStrict cfg <=? 0 then 16 else DistStrict cfg in
  let far := if DistFar cfg <=? strict then 64 else DistFar cfg in
  let defaut (v d : Z) := if v =? 0 then d else v in
  let cfg := Config strict far (defaut (MaxBurst cfg) 100) (defaut (RefillPerSec cfg) 25)
               (defaut (SourceMaxBurst cfg) 20) (defaut (SourceRefillPerSec cfg) 5) in
  Decider cfg (MaxBurst cfg) now 0 0 0 (replicate 256 slot_zero).

(** ** Buckets *)

(** The refill step of a bucket (tokens, last): shared by the two buckets. *)
Definition recharger (burst rate now : Z) (tok last : Z) : Z * Z :=
  let elapsed := i64 (now - last) in
  if Second <? elapsed then
    let added := u32 (u32 (Z.quot elapsed Second) * rate) in
    (Z.min (u32 (tok + added)) burst, now)
  else (tok, last).

Definition avec_seau (d : GrayZoneDecider) (tok last esc thr : Z) : GrayZoneDecider :=
  Decider (cfg d) tok last esc thr (throttledSource d) (sources d).

Definition tryAcquireGlobalToken (d : GrayZoneDecider) (now : Z) : GrayZoneDecider * bool :=
  let '(tok, last) := recharger (MaxBurst (cfg d)) (RefillPerSec (cfg d)) now (tokens d) (lastRefill d) in
  if tok =? 0 then (avec_seau d tok last (escalated d) (u64 (throttledGlobal d + 1)), false)
  else (avec_seau d (u32 (tok - 1)) last (u64 (escalated d + 1)) (throttledGlobal d), true).

Definition anonymousSourceID : Z := 0xAAAAAAAAAAAAAAAA.

Definition sipHashMix (x : Z) : Z :=
  let x := Z.lxor x 0x9e3779b97f4a7c15 in
  let x := u64 (Z.lxor x (Z.shiftr x 30) * 0xbf58476d1ce4e5b9) in
  let x := u64 (Z.lxor x (Z.shiftr x 27) * 0x94d049bb133111eb) in
  let x := Z.lxor x (Z.shiftr x 31) in
  Z.land x 255.

(** The slot of a source, taken over when it is free or idle for 3 s. *)
Definition attribuer (burst id now : Z) (s : sourceSlot) : sourceSlot :=
  if negb (sourceID s =? id) &&
     ((sourceID s =? 0) || (3 * Second <? i64 (now - slastRefill s)))
  then Slot id burst now else s.

Definition avec_source (d : GrayZoneDecider) (S : list sourceSlot) (thr : Z) : GrayZoneDecider :=
  Decider (cfg d) (tokens d) (lastRefill d) (escalated d) (throttledGlobal d) thr S.

Definition tryAcquireSourceToken (d : GrayZoneDecider) (id now : Z) : run (GrayZoneDecider * bool) :=
  let id := if id =? 0 then anonymousSourceID else id in
  let slotIdx := sipHashMix id in
  slot ← idx (sources d) slotIdx;
  let slot := attribuer (SourceMaxBurst (cfg d)) id now slot in
  let '(tok, last) := recharger (SourceMaxBurst (cfg d)) (SourceRefillPerSec (cfg d)) now
                        (stokens slot) (slastRefill slot) in
  if tok =? 0 then
    S ← upd (sources d) slotIdx (Slot (sourceID slot) tok last);
    Done (avec_source d S (u64 (throttledSource d + 1)), false)
  else
    S ← upd (sources d) slotIdx (Slot (sourceID slot) (u32 (tok - 1)) last);
    Done (avec_source d S (throttledSource d), true).

(** ** Decision *)

Record CascadeResult := Result {
  Verdict : Z;
  HammingDist : Z;
  MatchedEntry : CodebookEntry;
  OntoVerdict : Z;
  Diagnostic : string;
  RequiresSlowPath : bool
}.

Definition diag_source : string :=
  "[Anti-DoS:SourceThrottled] Quota unitaire depasse pour la source, rejet conservateur".
Definition diag_global : string :=
  "[Anti-DoS:GlobalQueueFull] File d arbitrage global saturee, rejet conservateur".

(** [now1] and [now2] are the readings of the two bucket operations. *)
Definition DecideWithSource (d : GrayZoneDecider) (query : option (list Z)) (cb : option (list CodebookEntry))
    (ontoKey id now1 now2 : Z) : run (GrayZoneDecider * CascadeResult) :=
  let onto := EvaluateOntology ontoKey in
  if onto =? OntoVerdictDeny then Done (d, Result CascadeFastDrop 0 entry_zero onto "" false) else
  let '(m, bestDist, found) :=
    match cb, query with
    | Some _, Some _ => SearchNearest cb query (DistFar (cfg d))
    | _, _ => (entry_zero, DistFar (cfg d) + 1, false)
    end in
  if found && (bestDist <=? DistStrict (cfg d))
  then Done (d, Result CascadeFastDrop bestDist m onto "" false) else
  if (onto =? OntoVerdictAllow) && (negb found || (DistFar (cfg d) <? bestDist))
  then Done (d, Result CascadeFastPass bestDist m onto "" false) else
  '(d, ok) ← tryAcquireSourceToken d id now1;
  if negb (ok : bool) then Done (d, Result CascadeSourceThrottled bestDist m onto diag_source true) else
  let '(d, ok) := tryAcquireGlobalToken d now2 in
  if (ok : bool) then Done (d, Result CascadeEscalate bestDist m onto (OntoDiagnostic ontoKey) true)
  else Done (d, Result CascadeQueueFull bestDist m onto diag_global true).

Definition Decide (d : GrayZoneDecider) (query : option (list Z)) (cb : option (list CodebookEntry))
    (ontoKey now1 now2 : Z) : run (GrayZoneDecider * CascadeResult) :=
  DecideWithSource d query cb ontoKey 0 now1 now2.

Definition Stats (d : GrayZoneDecider) : Z * Z * Z := (escalated d, throttledGlobal d, throttledSource d).

(** ** The refill bound *)

Lemma min_le_div a b : 0 <= a -> 0 <= b -> a / Second + b / Second <= (a + b) / Second.
Proof. unfold Second. intros. divlia. Qed.

(** A bucket that has granted [g] tokens since [t0]. *)
Definition seau_ok (burst rate t0 now g tok last : Z) : Prop :=
  0 <= tok <= burst /\ t0 <= last <= now /\ 0 <= g /\ g + tok <= burst + rate * ((last - t0) / Second).

Lemma u32_le z : 0 <= z -> 0 <= u32 z <= z.
Proof. intros Hz. unfold u32. split; [apply Z.mod_pos_bound; lia|by apply Z.mod_le]. Qed.

Lemma recharger_ok burst rate t0 t now g tok last :
  0 <= burst -> 0 <= rate -> 0 <= t0 -> t <= now < 2 ^ 63 -> seau_ok burst rate t0 t g tok last ->
  let '(tok', last') := recharger burst rate now tok last in seau_ok burst rate t0 now g tok' last'.
Proof.
  intros Hb Hr Ht0 Hnow (Htok & Hl & Hg & Hs). unfold recharger. rewrite i64_id by (unfold is_i64; lia).
  destruct (Z.ltb_spec Second (now - last)) as [He|He]; [|split; [done|]; split; [lia|done]].
  unfold Second in He. rewrite Z.quot_div_nonneg by (unfold Second; lia).
  pose proof (u32_le ((now - last) / Second) ltac:(apply Z.div_pos; unfold Second; lia)) as Hq.
  assert (Hm : 0 <= u32 ((now - last) / Second) * rate) by nia.
  pose proof (u32_le _ Hm) as Ha. set (added := u32 (u32 ((now - last) / Second) * rate)) in *.
  pose proof (u32_le (tok + added) ltac:(lia)) as Hc.
  split; [lia|]. split; [lia|]. split; [lia|].
  pose proof (min_le_div (last - t0) (now - last) ltac:(lia) ltac:(lia)) as Hd.
  replace (last - t0 + (now - last)) with (now - t0) in Hd by lia. nia.
Qed.

Lemma prelever_ok burst rate t0 now g tok last :
  seau_ok burst rate t0 now g tok last -> tok <> 0 -> burst < 2 ^ 32 ->
  seau_ok burst rate t0 now (g + 1) (u32 (tok - 1)) last.
Proof. intros (H1 & H2 & H3 & H4) Hn Hb. rewrite u32_id by (unfold is_u32; lia). repeat split; lia. Qed.

(** ** Sequences of requests *)

Record demande := Demande {
  requete : option (list Z);
  livre : option (list CodebookEntry);
  cle : Z;
  source : Z;
  t_source : Z;
  t_global : Z
}.

Definition normaliser (id : Z) : Z := if id =? 0 then anonymousSourceID else id.

Fixpoint executer (d : GrayZoneDecider) (ops : list demande) : run (GrayZoneDecider * list (demande * CascadeResult)) :=
  match ops with
  | [] => Done (d, [])
  | o :: ops =>
      r ← DecideWithSource d (requete o) (livre o) (cle o) (source o) (t_source o) (t_global o);
      r' ← executer r.1 ops;
      Done (r'.1, (o, r.2) :: r'.2)
  end.

(** Readings of a monotone clock from [t] on, ending at [fin]. *)
Fixpoint horloge (t : Z) (ops : list demande) (fin : Z) : Prop :=
  match ops with
  | [] => t = fin
  | o :: ops => t <= t_source o /\ t_source o <= t_global o /\ t_global o < 2 ^ 63 /\ horloge (t_global o) ops fin
  end.

Definition escalade (x : demande * CascadeResult) : bool := Verdict x.2 =? CascadeEscalate.
Definition escalade_de (s : Z) (x : demande * CascadeResult) : bool :=
  (normaliser (source x.1) =? s) && escalade x.
Definition compte (f : demande * CascadeResult -> bool) (l : list (demande * CascadeResult)) : Z :=
  somme ((fun x => Z.b2z (f x)) <$> l).

Definition config_ok (c : GrayZoneConfig) : Prop :=
  is_u32 (MaxBurst c) /\ is_u32 (RefillPerSec c) /\ is_u32 (SourceMaxBurst c) /\ is_u32 (SourceRefillPerSec c).

Lemma sipHashMix_range x : 0 <= sipHashMix x < 256.
Proof. unfold sipHashMix. cbv zeta. change 256 with (2 ^ 8). apply land_range; lia. Qed.

Lemma seau_moins burst rate t0 now g g' tok last :
  seau_ok burst rate t0 now g tok last -> 0 <= g' <= g -> seau_ok burst rate t0 now g' tok last.
Proof. intros (H1 & H2 & H3 & H4) Hg. repeat split; lia. Qed.

Lemma seau_temps burst rate t0 t now g tok last :
  seau_ok burst rate t0 t g tok last -> t <= now -> seau_ok burst rate t0 now g tok last.
Proof. intros (H1 & H2 & H3 & H4) Ht. repeat split; lia. Qed.

(** [s] is the only source of its slot. *)
Definition slot_ok (c : GrayZoneConfig) (s t0 t g : Z) (x : sourceSlot) : Prop :=
  (x = slot_zero /\ g = 0) \/
  (sourceID x = s /\ seau_ok (SourceMaxBurst c) (SourceRefillPerSec c) t0 t g (stokens x) (slastRefill x)).

Definition decideur_ok (c : GrayZoneConfig) (s t0 t g gs : Z) (d : GrayZoneDecider) : Prop :=
  cfg d = c /\ seau_ok (MaxBurst c) (RefillPerSec c) t0 t g (tokens d) (lastRefill d) /\
  zlen (sources d) = 256 /\
  exists x, sources d !! Z.to_nat (sipHashMix s) = Some x /\ slot_ok c s t0 t gs x.

Lemma source_ok c s t0 t now g gs d id :
  config_ok c -> s <> 0 -> 0 <= t0 <= t -> t <= now < 2 ^ 63 -> decideur_ok c s t0 t g gs d ->
  (sipHashMix (normaliser id) = sipHashMix s -> normaliser id = s) ->
  wp (tryAcquireSourceToken d id now) (fun '(d', ok) =>
    decideur_ok c s t0 now g (gs + Z.b2z ((normaliser id =? s) && ok)) d').
Proof.
  intros (_ & _ & Hcb & Hcr) Hs Ht0 Hnow (Hc & Hg & Hl & x & Hx & Hslot) Hcol. unfold is_u32 in Hcb, Hcr.
  unfold tryAcquireSourceToken. fold (normaliser id). pose proof (sipHashMix_range (normaliser id)) as Hr.
  apply wp_bind, wp_idx; [lia|]. intros y Hy. rewrite Hc.
  pose proof (seau_temps _ _ _ _ _ _ _ _ Hg (proj1 Hnow)) as Hg'.
  set (b := SourceMaxBurst c) in *. set (r := SourceRefillPerSec c) in *.
  destruct (decide (sipHashMix (normaliser id) = sipHashMix s)) as [He|He].
  - pose proof (Hcol He) as Hid. rewrite He in *. rewrite Hx in Hy. injection Hy as <-. rewrite Hid, Z.eqb_refl.
    assert (sourceID (attribuer b s now x) = s /\
      seau_ok b r t0 now gs (stokens (attribuer b s now x)) (slastRefill (attribuer b s now x))) as [Hi Ha].
    { destruct Hslot as [[-> ->]|[Hi Hsl]].
      - unfold attribuer, slot_zero. cbn [sourceID]. destruct (Z.eqb_spec 0 s); [congruence|]. cbn.
        split; [done|]. repeat split; try lia. enough (0 <= r * ((now - t0) / Second)) by lia.
        apply Z.mul_nonneg_nonneg; [lia|]. apply Z.div_pos; unfold Second; lia.
      - unfold attribuer. rewrite Hi, Z.eqb_refl. cbn. split; [done|]. eapply seau_temps; [exact Hsl|lia]. }
    pose proof (recharger_ok b r t0 now now gs _ _ ltac:(lia) ltac:(lia) ltac:(lia) ltac:(lia) Ha) as Hrec.
    destruct (recharger b r now _ _) as [tok last]. destruct (Z.eqb_spec tok 0) as [Hz|Hz].
    + apply wp_bind, wp_upd; [lia|]. apply wp_done. cbn [andb Z.b2z]. rewrite Z.add_0_r.
      split; [done|]. split; [done|]. split; [cbn; by rewrite zlen_insert|]. eexists.
      split; [apply list_lookup_insert_eq; by eapply lookup_lt_Some|]. right. done.
    + apply wp_bind, wp_upd; [lia|]. apply wp_done. cbn [andb Z.b2z].
      split; [done|]. split; [done|]. split; [cbn; by rewrite zlen_insert|]. eexists.
      split; [apply list_lookup_insert_eq; by eapply lookup_lt_Some|]. right. split; [done|].
      apply prelever_ok; [done|done|lia].
  - assert (Hne : normaliser id =? s = false) by (apply Z.eqb_neq; congruence). rewrite Hne. cbn [andb Z.b2z]. rewrite Z.add_0_r.
    assert (Hstay : forall z thr, decideur_ok c s t0 now g gs
       (avec_source d (<[Z.to_nat (sipHashMix (normaliser id)) := z]> (sources d)) thr)).
    { intros z thr. split; [done|]. split; [done|]. split; [cbn; by rewrite zlen_insert|]. exists x.
      pose proof (sipHashMix_range s).
      split; [cbn; rewrite list_lookup_insert_ne by lia; done|].
      destruct Hslot as [?|[? ?]]; [by left|right]. split; [done|]. eapply seau_temps; [done|lia]. }
    destruct (recharger b r now _ _) as [tok last].
    destruct (tok =? 0); apply wp_bind, wp_upd; [lia|by apply wp_done|lia|by apply wp_done].
Qed.

Lemma global_ok c s t0 t now g gs d :
  config_ok c -> 0 <= t0 <= t -> t <= now < 2 ^ 63 -> decideur_ok c s t0 t g gs d ->
  let '(d', ok) := tryAcquireGlobalToken d now in decideur_ok c s t0 now (g + Z.b2z ok) gs d'.
Proof.
  intros (Hb & Hr & _) Ht0 Hnow (Hc & Hg & Hl & x & Hx & Hslot). unfold is_u32 in Hb, Hr.
  unfold tryAcquireGlobalToken. rewrite Hc.
  pose proof (recharger_ok _ _ t0 t now g _ _ (proj1 Hb) (proj1 Hr) (proj1 Ht0) Hnow Hg) as Hrec.
  assert (Hslot' : slot_ok c s t0 now gs x)
    by (destruct Hslot as [?|[? ?]]; [by left|right; split; [done|eapply seau_temps; [done|lia]]]).
  destruct (recharger _ _ now _ _) as [tok last]. destruct (Z.eqb_spec tok 0) as [Hz|Hz].
  - cbn [Z.b2z]. rewrite Z.add_0_r. split; [done|]. split; [done|]. split; [done|]. by exists x.
  - cbn [Z.b2z]. split; [done|]. split; [apply prelever_ok; [done|done|lia]|]. split; [done|]. by exists x.
Qed.

Lemma decideur_temps c s t0 t now g gs d :
  decideur_ok c s t0 t g gs d -> t <= now -> decideur_ok c s t0 now g gs d.
Proof.
  intros (Hc & Hg & Hl & x & Hx & Hslot) Ht. split; [done|]. split; [by eapply seau_temps|]. split; [done|].
  exists x. split; [done|]. destruct Hslot as [?|[? ?]]; [by left|right; split; [done|by eapply seau_temps]].
Qed.

Lemma decideur_moins c s t0 t g gs gs' d :
  decideur_ok c s t0 t g gs d -> 0 <= gs' <= gs -> decideur_ok c s t0 t g gs' d.
Proof.
  intros (Hc & Hg & Hl & x & Hx & Hslot) Ht. split; [done|]. split; [done|]. split; [done|].
  exists x. split; [done|]. destruct Hslot as [[? ?]|[? ?]]; [left; split; [done|lia]|right; split; [done|by eapply seau_moins]].
Qed.

Lemma decideur_gs c s t0 t g gs d : decideur_ok c s t0 t g gs d -> 0 <= gs.
Proof. intros (_ & _ & _ & x & _ & [[_ ->]|[_ (_ & _ & ? & _)]]); lia. Qed.

(** One request. *)
Lemma decision_ok c s t0 t g gs d o :
  config_ok c -> s <> 0 -> 0 <= t0 <= t -> t <= t_source o -> t_source o <= t_global o < 2 ^ 63 ->
  decideur_ok c s t0 t g gs d ->
  (sipHashMix (normaliser (source o)) = sipHashMix s -> normaliser (source o) = s) ->
  wp (DecideWithSource d (requete o) (livre o) (cle o) (source o) (t_source o) (t_global o)) (fun '(d', r) =>
    decideur_ok c s t0 (t_global o) (g + Z.b2z (escalade (o, r))) (gs + Z.b2z (escalade_de s (o, r))) d').
Proof.
  intros Hcfg Hs Ht0 Ht1 Ht2 Hd Hcol. unfold DecideWithSource, escalade_de, escalade. cbn [fst snd].
  assert (Hrien : forall r, Verdict r =? CascadeEscalate = false ->
    decideur_ok c s t0 (t_global o) (g + Z.b2z (Verdict r =? CascadeEscalate))
      (gs + Z.b2z ((normaliser (source o) =? s) && (Verdict r =? CascadeEscalate))) d).
  { intros r ->. rewrite andb_false_r. cbn [Z.b2z]. rewrite !Z.add_0_r. eapply decideur_temps; [exact Hd|lia]. }
  destruct (EvaluateOntology (cle o) =? OntoVerdictDeny); [by apply wp_done, Hrien|].
  destruct (match livre o, requete o with Some _, Some _ => _ | _, _ => _ end) as [[m bd] found].
  destruct (found && _); [by apply wp_done, Hrien|].
  destruct ((_ =? OntoVerdictAllow) && _); [by apply wp_done, Hrien|].
  apply wp_bind. eapply wp_mono; [apply (source_ok c s t0 t (t_source o) g gs); (done || lia)|].
  intros [d1 ok] H1. destruct ok; cbn [negb].
  - pose proof (global_ok c s t0 (t_source o) (t_global o) g _ d1 Hcfg ltac:(lia) ltac:(lia) H1) as H2.
    rewrite andb_true_r in H2. destruct (tryAcquireGlobalToken d1 (t_global o)) as [d2 ok2].
    destruct ok2; apply wp_done; cbn [Verdict]; [by rewrite Z.eqb_refl, andb_true_r|].
    change (CascadeQueueFull =? CascadeEscalate) with false. rewrite andb_false_r. cbn [Z.b2z] in *. rewrite !Z.add_0_r in *.
    eapply decideur_moins; [exact H2|]. pose proof (decideur_gs _ _ _ _ _ _ _ Hd). destruct (normaliser (source o) =? s); cbn; lia.
  - apply wp_done. cbn [Verdict]. change (CascadeSourceThrottled =? CascadeEscalate) with false.
    rewrite andb_false_r in *. cbn [Z.b2z] in *. rewrite !Z.add_0_r in *. eapply decideur_temps; [exact H1|lia].
Qed.

Lemma executer_ok c s t0 ops : forall t g gs d fin,
  config_ok c -> s <> 0 -> 0 <= t0 <= t -> horloge t ops fin -> decideur_ok c s t0 t g gs d ->
  Forall (fun o => sipHashMix (normaliser (source o)) = sipHashMix s -> normaliser (source o) = s) ops ->
  wp (executer d ops) (fun '(d', rs) =>
    decideur_ok c s t0 fin (g + compte escalade rs) (gs + compte (escalade_de s) rs) d').
Proof.
  induction ops as [|o ops IH]; intros t g gs d fin Hc Hs Ht Hh Hd Hcol.
  - cbn in Hh. subst. apply wp_done. by rewrite !Z.add_0_r.
  - destruct Hh as (H1 & H2 & H3 & Hh). apply Forall_cons_iff in Hcol as [Ho Hcol].
    cbn [executer]. apply wp_bind. eapply wp_mono; [apply (decision_ok c s t0 t g gs); (done || lia)|].
    intros [d1 r] Hd1. cbn [fst snd]. apply wp_bind.
    eapply wp_mono; [apply (IH (t_global o) _ _ _ fin Hc Hs (conj (proj1 Ht) (ltac:(lia) : t0 <= t_global o)) Hh Hd1 Hcol)|].
    intros [d2 rs] Hd2. apply wp_done. cbn [fst snd]. unfold compte, somme in *. cbn [fmap list_fmap foldr].
    by rewrite !Z.add_assoc.
Qed.

Lemma config_effective c now : config_ok c -> config_ok (cfg (NewGrayZoneDecider c now)).
Proof.
  intros (H1 & H2 & H3 & H4). unfold NewGrayZoneDecider, config_ok, is_u32 in *. cbn.
  repeat split; match goal with |- context [if ?b then _ else _] => destruct b end; lia.
Qed.

Lemma decideur_initial c s t0 : config_ok c -> 0 <= t0 ->
  decideur_ok (cfg (NewGrayZoneDecider c t0)) s t0 t0 0 0 (NewGrayZoneDecider c t0).
Proof.
  intros Hc Ht. pose proof (config_effective c t0 Hc) as (Hb & _). split; [done|]. split.
  - unfold is_u32 in Hb. cbn [tokens lastRefill NewGrayZoneDecider cfg MaxBurst] in *.
    repeat split; try lia. rewrite Z.sub_diag. change (0 / Second) with 0. lia.
  - split; [by vm_compute|]. exists slot_zero. split; [|by left].
    apply lookup_replicate. split; [done|]. pose proof (sipHashMix_range s). lia.
Qed.

(** The global bucket alone, whatever the sources. *)
Definition seau_global_ok (c : GrayZoneConfig) (t0 t g : Z) (d : GrayZoneDecider) : Prop :=
  cfg d = c /\ seau_ok (MaxBurst c) (RefillPerSec c) t0 t g (tokens d) (lastRefill d) /\ zlen (sources d) = 256.

Lemma source_global c t0 t g d id now : seau_global_ok c t0 t g d ->
  wp (tryAcquireSourceToken d id now) (fun '(d', _) => seau_global_ok c t0 t g d').
Proof.
  intros (Hc & Hs & Hl). unfold tryAcquireSourceToken. fold (normaliser id).
  pose proof (sipHashMix_range (normaliser id)).
  apply wp_bind, wp_idx; [lia|]. intros y _. destruct (recharger _ _ now _ _) as [tok last].
  destruct (tok =? 0); apply wp_bind, wp_upd; [lia| |lia|]; apply wp_done;
    (split; [done|]; split; [done|]; cbn; by rewrite zlen_insert).
Qed.

Lemma decision_global c t0 t g d o :
  config_ok c -> 0 <= t0 <= t -> t <= t_source o -> t_source o <= t_global o < 2 ^ 63 ->
  seau_global_ok c t0 t g d ->
  wp (DecideWithSource d (requete o) (livre o) (cle o) (source o) (t_source o) (t_global o)) (fun '(d', r) =>
    seau_global_ok c t0 (t_global o) (g + Z.b2z (escalade (o, r))) d').
Proof.
  intros Hcfg Ht0 Ht1 Ht2 Hd. unfold DecideWithSource, escalade. cbn [fst snd].
  assert (Hrien : forall d' r, seau_global_ok c t0 t g d' -> Verdict r =? CascadeEscalate = false ->
    seau_global_ok c t0 (t_global o) (g + Z.b2z (Verdict r =? CascadeEscalate)) d').
  { intros d' r (H1 & H2 & H3) ->. rewrite Z.add_0_r. split; [done|]. split; [eapply seau_temps; [done|lia]|done]. }
  destruct (EvaluateOntology (cle o) =? OntoVerdictDeny); [by apply wp_done, Hrien|].
  destruct (match livre o, requete o with Some _, Some _ => _ | _, _ => _ end) as [[m bd] found].
  destruct (found && _); [by apply wp_done, Hrien|].
  destruct ((_ =? OntoVerdictAllow) && _); [by apply wp_done, Hrien|].
  apply wp_bind. eapply wp_mono; [by apply source_global|]. intros [d1 ok] H1.
  destruct ok; cbn [negb]; [|by apply wp_done, Hrien]. destruct H1 as (Hc & Hs & Hl).
  unfold tryAcquireGlobalToken. rewrite Hc. destruct Hcfg as (Hb & Hr & _). unfold is_u32 in Hb, Hr.
  pose proof (recharger_ok _ _ t0 t (t_global o) g _ _ (proj1 Hb) (proj1 Hr) (proj1 Ht0) (ltac:(lia) : t <= t_global o < 2 ^ 63) Hs) as Hrec.
  destruct (recharger _ _ (t_global o) _ _) as [tok last]. destruct (Z.eqb_spec tok 0) as [Hz|Hz]; apply wp_done.
  - change (Verdict _ =? CascadeEscalate) with false. cbn [Z.b2z]. rewrite Z.add_0_r. by split.
  - cbn [Verdict]. rewrite Z.eqb_refl. cbn [Z.b2z]. split; [done|]. split; [|done].
    apply prelever_ok; [done|done|lia].
Qed.

Lemma executer_global c t0 ops : forall t g d fin,
  config_ok c -> 0 <= t0 <= t -> horloge t ops fin -> seau_global_ok c t0 t g d ->
  wp (executer d ops) (fun '(d', rs) => seau_global_ok c t0 fin (g + compte escalade rs) d').
Proof.
  induction ops as [|o ops IH]; intros t g d fin Hc Ht Hh Hd.
  - cbn in Hh. subst. apply wp_done. by rewrite !Z.add_0_r.
  - destruct Hh as (H1 & H2 & H3 & Hh).
    cbn [executer]. apply wp_bind. eapply wp_mono; [apply (decision_global c t0 t g); (done || lia)|].
    intros [d1 r] Hd1. cbn [fst snd]. apply wp_bind.
    eapply wp_mono; [apply (IH (t_global o) _ _ fin Hc (conj (proj1 Ht) (ltac:(lia) : t0 <= t_global o)) Hh Hd1)|].
    intros [d2 rs] Hd2. apply wp_done. cbn [fst snd]. unfold compte, somme in *. cbn [fmap list_fmap foldr].
    by rewrite Z.add_assoc.
Qed.

Lemma seau_borne burst rate t0 t g tok last :
  0 <= rate -> seau_ok burst rate t0 t g tok last -> g <= burst + rate * ((t - t0) / Second).
Proof.
  intros Hr (H1 & H2 & H3 & H4).
  assert ((last - t0) / Second <= (t - t0) / Second) by (apply Z.div_le_mono; unfold Second; lia). nia.
Qed.

Lemma source_total d id now : zlen (sources d) = 256 ->
  exists d1 ok, tryAcquireSourceToken d id now = Done (d1, ok).
Proof.
  intros Hl. cut (wp (tryAcquireSourceToken d id now) (fun _ => True)).
  { intros H. apply wp_exists in H as ([d1 ok] & H & _). by exists d1, ok. }
  unfold tryAcquireSourceToken. fold (normaliser id). pose proof (sipHashMix_range (normaliser id)).
  apply wp_bind, wp_idx; [lia|]. intros y _. destruct (recharger _ _ now _ _) as [tok last].
  destruct (tok =? 0); apply wp_bind, wp_upd; [lia|by apply wp_done|lia|by apply wp_done].
Qed.

(** ** Properties *)

(** The decision is exact.  An ontological veto drops at once and takes no
    token; an entry within the strict radius drops; Allow with nothing within
    [DistFar] passes, and nothing else ever does; every other request goes to
    the slow path, first against the bucket of its source and, only once that
    is granted, against the global bucket. *)
Theorem decision_exacte d q l k id now1 now2 :
  0 <= DistFar (cfg d) -> zlen (sources d) = 256 ->
  let proche r := exists e, e ∈ l /\ codebookHamming q e <= DistFar (cfg d) /\ codebookHamming q e <= r in
  exists d1 ok, tryAcquireSourceToken d id now1 = Done (d1, ok) /\
  wp (DecideWithSource d (Some q) (Some l) k id now1 now2) (fun '(d', r) =>
    OntoVerdict r = EvaluateOntology k /\
    (Verdict r = CascadeFastDrop <->
       EvaluateOntology k = OntoVerdictDeny \/ proche (DistStrict (cfg d))) /\
    (Verdict r = CascadeFastPass <->
       EvaluateOntology k = OntoVerdictAllow /\ forall e, e ∈ l -> DistFar (cfg d) < codebookHamming q e) /\
    (if RequiresSlowPath r then
       if ok then d' = (tryAcquireGlobalToken d1 now2).1 /\
         Verdict r = (if (tryAcquireGlobalToken d1 now2).2 then CascadeEscalate else CascadeQueueFull)
       else d' = d1 /\ Verdict r = CascadeSourceThrottled
     else d' = d)).
Proof.
  intros Hf Hl proche. destruct (source_total d id now1 Hl) as (d1 & ok & Hok). exists d1, ok. split; [done|].
  unfold DecideWithSource. rewrite Hok.
  pose proof (recherche_exacte l q (DistFar (cfg d)) Hf) as Hrec.
  destruct (Z.eqb_spec (EvaluateOntology k) OntoVerdictDeny) as [Hd|Hd].
  { apply wp_done. cbn [OntoVerdict Verdict RequiresSlowPath]. rewrite Hd. split; [done|]. split; [split; [by left|done]|]. split; [|done].
    split; [done|by intros [? _]]. }
  destruct (SearchNearest (Some l) (Some q) (DistFar (cfg d))) as [[e bd] found].
  assert (Hp : forall r, proche r <-> found = true /\ bd <= r).
  { intros r. destruct found.
    - destruct Hrec as [-> (Hle & i & Hi & Hmin)]. split.
      + intros (x & [j Hj]%list_elem_of_lookup & _ & Hx). split; [done|]. destruct (Hmin j x Hj). lia.
      + intros [_ Hr]. exists e. split; [by eapply list_elem_of_lookup_2|]. done.
    - destruct Hrec as (_ & _ & Hall). split; [|by intros [? _]]. intros (x & Hx & H1 & _).
      specialize (Hall x Hx). lia. }
  assert (Hloin : (forall x, x ∈ l -> DistFar (cfg d) < codebookHamming q x) <-> found = false).
  { destruct found; [|by destruct Hrec as (_ & _ & ?)]. destruct Hrec as [-> (Hle & i & Hi & _)]. split; [|done].
    intros H. specialize (H e ltac:(by eapply list_elem_of_lookup_2)). lia. }
  apply (wp_mono _ (fun '(d', r) => OntoVerdict r = EvaluateOntology k /\
    (Verdict r = CascadeFastDrop <->
       EvaluateOntology k = OntoVerdictDeny \/ (found = true /\ bd <= DistStrict (cfg d))) /\
    (Verdict r = CascadeFastPass <-> EvaluateOntology k = OntoVerdictAllow /\ found = false) /\
    (if RequiresSlowPath r then
       if ok then d' = (tryAcquireGlobalToken d1 now2).1 /\
         Verdict r = (if (tryAcquireGlobalToken d1 now2).2 then CascadeEscalate else CascadeQueueFull)
       else d' = d1 /\ Verdict r = CascadeSourceThrottled
     else d' = d))); [|intros [d' r] H; rewrite Hp, Hloin; exact H].
  destruct (found && (bd <=? DistStrict (cfg d))) eqn:E1.
  { apply andb_true_iff in E1 as [-> E1]. zbool. apply wp_done. cbn [OntoVerdict Verdict RequiresSlowPath]. split; [done|].
    split; [split; [by right|done]|]. split; [|done]. split; [done|by intros [_ ?]]. }
  assert (Hn : ~ (found = true /\ bd <= DistStrict (cfg d))).
  { intros [-> Hb]. apply andb_false_iff in E1 as [E1|E1]; [done|zbool; lia]. }
  destruct ((EvaluateOntology k =? OntoVerdictAllow) && (negb found || (DistFar (cfg d) <? bd))) eqn:E2.
  { apply andb_true_iff in E2 as [Ha E2]. zbool. apply wp_done. cbn [OntoVerdict Verdict RequiresSlowPath]. split; [done|].
    assert (found = false) as ->.
    { destruct found; [|done]. cbn in E2. zbool. destruct Hrec as [-> (Hle & _)]. lia. }
    split; [split; [done|]; intros [?|[? _]]; [done|done]|]. split; [|done]. done. }
  assert (Hn2 : ~ (EvaluateOntology k = OntoVerdictAllow /\ found = false)).
  { intros [Ha ->]. rewrite Ha in E2. done. }
  rewrite run_bind_done. destruct ok; cbn [negb].
  - destruct (tryAcquireGlobalToken d1 now2) as [d2 ok2]. destruct ok2; apply wp_done; cbn [OntoVerdict Verdict RequiresSlowPath fst snd];
      (split; [done|]; split; [split; [done|by intros [?|?]]|]; split; [split; [done|by intros ?]|done]).
  - apply wp_done. cbn [OntoVerdict Verdict RequiresSlowPath]. split; [done|]. split; [split; [done|by intros [?|?]]|]. split; [split; [done|by intros ?]|done].
Qed.

(** Rate bound of the global bucket.  From a fresh decider, over any
    sequence of requests from any sources on a monotone clock, every call
    returns and the escalations granted never exceed the burst plus
    [RefillPerSec] per elapsed second. *)
Theorem debit_global c t0 ops fin :
  config_ok c -> 0 <= t0 -> horloge t0 ops fin ->
  wp (executer (NewGrayZoneDecider c t0) ops) (fun '(_, rs) =>
    let c' := cfg (NewGrayZoneDecider c t0) in
    compte escalade rs <= MaxBurst c' + RefillPerSec c' * ((fin - t0) / Second)).
Proof.
  intros Hc Ht Hh. pose proof (config_effective c t0 Hc) as Hc'.
  eapply wp_mono; [apply (executer_global (cfg (NewGrayZoneDecider c t0)) t0 ops t0 0); [done|lia|exact Hh|]|].
  - destruct (decideur_initial c 1 t0 Hc Ht) as (H1 & H2 & H3 & _). done.
  - intros [d rs] (_ & Hs & _). cbv zeta. destruct Hc' as (_ & Hr & _).
    pose proof (seau_borne _ _ _ _ _ _ _ (proj1 Hr) Hs). lia.
Qed.

(** Rate bound of a source.  A source that shares its slot with no other
    obtains at most [SourceMaxBurst] escalations plus [SourceRefillPerSec] per
    elapsed second, however many requests it and the others send. *)
Theorem debit_source c t0 ops fin s :
  config_ok c -> 0 <= t0 -> horloge t0 ops fin -> s <> 0 ->
  Forall (fun o => sipHashMix (normaliser (source o)) = sipHashMix s -> normaliser (source o) = s) ops ->
  wp (executer (NewGrayZoneDecider c t0) ops) (fun '(_, rs) =>
    let c' := cfg (NewGrayZoneDecider c t0) in
    compte (escalade_de s) rs <= SourceMaxBurst c' + SourceRefillPerSec c' * ((fin - t0) / Second)).
Proof.
  intros Hc Ht Hh Hs Hcol. pose proof (config_effective c t0 Hc) as Hc'.
  eapply wp_mono; [apply (executer_ok (cfg (NewGrayZoneDecider c t0)) s t0 ops t0 0 0);
    [done|done|lia|exact Hh|by apply decideur_initial|exact Hcol]|].
  intros [d rs] (_ & _ & _ & x & _ & Hx). cbv zeta. destruct Hc' as (_ & _ & Hb & Hr). unfold is_u32 in Hb, Hr.
  destruct Hx as [[_ Hg]|[_ Hx]].
  - enough (0 <= SourceRefillPerSec (cfg (NewGrayZoneDecider c t0)) * ((fin - t0) / Second)) by lia.
    assert (t0 <= fin) by (clear -Hh; revert t0 Hh; induction ops as [|o ops IH]; cbn; intros t0 Hh; [lia|];
      destruct Hh as (? & ? & ? & Hh); specialize (IH _ Hh); lia).
    apply Z.mul_nonneg_nonneg; [lia|]. apply Z.div_pos; unfold Second; lia.
  - pose proof (seau_borne _ _ _ _ _ _ _ (proj1 Hr) Hx). lia.
Qed.

(** Nothing within [DistFar]: the reported distance is 0, not [DistFar + 1]. *)
Lemma distance_sans_correspondance :
  wp (DecideWithSource (NewGrayZoneDecider DefaultGrayZoneConfig 0) (Some (replicate 8 0)) (Some [])
        (PackOntoKey SubjUserInteractive ActExecve TgtBinSystem CtxInteractiveTTY) 1 5 6)
    (fun '(_, r) => Verdict r = CascadeFastPass /\ HammingDist r = 0).
Proof. vm_compute. done. Qed.

(** ** Overlapping callers

    The refill reads [tokens], then stores the new value: tokens taken between
    the two are given back. *)
Module Course.

(** Where a caller of [tryAcquireGlobalToken] stands. *)
Inductive appelant : Type :=
  | Entre (now : Z)
  | Lu (now last : Z)
  | Recharge (added : Z)
  | Ecrire (newTok : Z)
  | Prelever
  | Charge (cur : Z)
  | Rendu (ok : bool).

Section pas.
Context (burst rate : Z).

(** One atomic access, on (tokens, lastRefill). *)
Inductive avance : Z * Z -> appelant -> Z * Z -> appelant -> Prop :=
  | avance_lit tok last now : avance (tok, last) (Entre now) (tok, last) (Lu now last)
  | avance_frais tok cour now last : i64 (now - last) <= Second -> avance (tok, cour) (Lu now last) (tok, cour) Prelever
  | avance_cas tok now last : Second < i64 (now - last) ->
      avance (tok, last) (Lu now last) (tok, now) (Recharge (u32 (u32 (Z.quot (i64 (now - last)) Second) * rate)))
  | avance_cas_perdu tok cour now last : Second < i64 (now - last) -> cour <> last ->
      avance (tok, cour) (Lu now last) (tok, cour) Prelever
  | avance_charge tok last added :
      avance (tok, last) (Recharge added) (tok, last) (Ecrire (Z.min (u32 (tok + added)) burst))
  | avance_ecrit tok last n : avance (tok, last) (Ecrire n) (n, last) Prelever
  | avance_cur tok last : avance (tok, last) Prelever (tok, last) (Charge tok)
  | avance_vide tok last : avance (tok, last) (Charge 0) (tok, last) (Rendu false)
  | avance_pris tok last : tok <> 0 -> avance (tok, last) (Charge tok) (u32 (tok - 1), last) (Rendu true)
  | avance_rate tok last cur : cur <> 0 -> cur <> tok -> avance (tok, last) (Charge cur) (tok, last) Prelever.

Inductive pas : (Z * Z) * list appelant -> (Z * Z) * list appelant -> Prop :=
  | pas_appelant s s' A i a a' : A !! i = Some a -> avance s a s' a' -> pas (s, A) (s', <[i := a']> A).
End pas.

Ltac pas_de i regle :=
  eapply rtc_l; [refine (pas_appelant 2 1 _ _ _ i _ _ _ _); [reflexivity|eapply regle; first [reflexivity | discriminate]]|];
  cbn [insert list_insert].

(** Burst 2, one token per second, 1.5 s after the start: four callers are
    granted, above the bound 2 + 1 of [debit_global]. *)
Lemma course_depasse : let now := 1500000000 in exists s,
  rtc (pas 2 1) ((2, 0), replicate 4 (Entre now)) (s, replicate 4 (Rendu true)) /\
  2 + 1 * (now / Second) < 4.
Proof.
  cbv zeta. eexists. split; [|reflexivity]. cbn [replicate].
  pas_de 0%nat avance_lit. pas_de 0%nat avance_cas. pas_de 0%nat avance_charge.
  pas_de 1%nat avance_lit. pas_de 1%nat avance_frais. pas_de 1%nat avance_cur. pas_de 1%nat avance_pris.
  pas_de 2%nat avance_lit. pas_de 2%nat avance_frais. pas_de 2%nat avance_cur. pas_de 2%nat avance_pris.
  pas_de 0%nat avance_ecrit. pas_de 0%nat avance_cur. pas_de 0%nat avance_pris.
  pas_de 3%nat avance_lit. pas_de 3%nat avance_frais. pas_de 3%nat avance_cur. pas_de 3%nat avance_pris.
  apply rtc_refl.
Qed.
End Course.


(** ** Witnesses *)

Definition demande_ambigue (id t : Z) : demande :=
  Demande (Some (replicate 8 0)) (Some []) (PackOntoKey SubjUnknown ActUnknown TgtUnknown CtxDefault) id t t.

Lemma decision_exacte_witness : exists d1 ok,
  tryAcquireSourceToken (NewGrayZoneDecider DefaultGrayZoneConfig 0) 7 5 = Done (d1, ok) /\
  wp (DecideWithSource (NewGrayZoneDecider DefaultGrayZoneConfig 0) (Some (replicate 8 1)) (Some [entry_zero])
        (PackOntoKey SubjUnknown ActUnknown TgtUnknown CtxDefault) 7 5 6)
    (fun '(_, r) => Verdict r = CascadeFastDrop).
Proof.
  destruct (decision_exacte (NewGrayZoneDecider DefaultGrayZoneConfig 0) (replicate 8 1) [entry_zero]
    (PackOntoKey SubjUnknown ActUnknown TgtUnknown CtxDefault) 7 5 6) as (d1 & ok & H & Hw);
    [discriminate|reflexivity|].
  exists d1, ok. split; [exact H|]. eapply wp_mono; [exact Hw|]. intros [d' r] (_ & Hd & _). apply Hd. right.
  exists entry_zero. split; [apply list_elem_of_singleton; reflexivity|]. split; vm_compute; discriminate.
Defined.

Definition rafale : list demande := demande_ambigue 7 <$> [1000; 1000; 2000; 1500000000; 1500000000].

Lemma horloge_rafale : horloge 0 rafale 1500000000.
Proof. vm_compute. repeat split; discriminate. Qed.
Lemma config_exemple_ok : config_ok (Config 16 64 3 1 2 1).
Proof. vm_compute. repeat split; discriminate. Qed.

Lemma debit_global_witness :
  wp (executer (NewGrayZoneDecider (Config 16 64 3 1 2 1) 0) rafale)
    (fun '(_, rs) => compte escalade rs <= 3 + 1 * ((1500000000 - 0) / Second)).
Proof.
  apply (debit_global (Config 16 64 3 1 2 1) 0 rafale 1500000000 config_exemple_ok); [discriminate|exact horloge_rafale].
Defined.

Lemma debit_source_witness :
  wp (executer (NewGrayZoneDecider (Config 16 64 3 1 2 1) 0) rafale)
    (fun '(_, rs) => compte (escalade_de 7) rs <= 2 + 1 * ((1500000000 - 0) / Second)).
Proof.
  apply (debit_source (Config 16 64 3 1 2 1) 0 rafale 1500000000 7 config_exemple_ok);
    [discriminate|exact horloge_rafale|discriminate|].
  unfold rafale. cbn [fmap list_fmap]. repeat (apply Forall_cons; split; [reflexivity|]). apply Forall_nil. exact I.
Defined.
