(* ===== verification/Floppy.v ===== *)
(** The vector disks (src/internal/engine/floppy_engine.go): the C2FLOP1 image,
    its integrity controls, the hot-swap slot and the reflex searches; with
    the prototype store of src/internal/goclassifier/rabitq_probe.go.

    Floats are their 32-bit patterns.  HMAC-SHA256 and the float kernel that
    quantises a prototype are arguments ([hmac_sha256], [quantifier]).  The
    theorems: decoding never panics and what it accepts re-encodes to the very
    image it read, under the integrity policy; saving then loading gives the
    disk back; the keyword search is exact. *)
From S2P Require Import Prelude Trame Arena Codebook.

Definition FloppyHeaderSize : Z := 64.
Definition FloppyVersion : Z := 1.
Definition EmbeddingDim : Z := 512.
Definition FloppyFamilyLOLBAS : Z := 1.
Definition FloppyFamilyDNSC2 : Z := 2.
Definition FloppyFamilyAgentMCP : Z := 3.
Definition FloppyFlagSealed : Z := 1.
Definition FloppyDefaultBlockRadius : Z := 12.
Definition FloppyMagic : list Z := octets "C2FLOP1" ++ [0].
Definition classRecSize : Z := 520.
Definition floppyProtoRecSize : Z := 2052.

Record FloppyHeader := FHeader {
  FMagic : list Z;
  FVersion : Z;
  FamilyID : Z;
  FVectorDim : Z;
  FFlags : Z;
  BlockRadius_ : Z;
  FEntryCount : Z;
  KwCount : Z;
  CRC32C : Z;
  HeadClasses : Z;
  ProtoCount : Z;
  Seal : list Z
}.

(** [QHat] and the components of a vector are float32 patterns. *)
Record DecisionClass := Classe { Weights : list Z; Bias : Z; QHat : Z }.
Record FloppyPrototype := Proto { Class_ : Z; Vector : list Z }.

Inductive erreur_disquette : Type :=
  | ErrMagie
  | ErrVersion (v : Z)
  | ErrDimension (d : Z)
  | ErrFloppyUnsealed
  | ErrFloppySeal
  | ErrSomme
  | ErrFloppyTruncated
  | ErrClassePrototype (c : Z)
  | ErrPrototypeNonFini (i : Z)
  | ErrTropDePrototypes
  | ErrSonde.

(** ** Header: the 64 octets of the structure, little-endian *)

Definition encoder_entete (h : FloppyHeader) : list Z :=
  FMagic h ++ le 2 (FVersion h) ++ le 2 (FamilyID h) ++ le 2 (FVectorDim h) ++ le 1 (FFlags h) ++ le 1 (BlockRadius_ h) ++
  le 4 (FEntryCount h) ++ le 4 (KwCount h) ++ le 4 (CRC32C h) ++ le 2 (HeadClasses h) ++ le 2 (ProtoCount h) ++
  Seal h.
Definition decoder_entete (s : list Z) : FloppyHeader :=
  FHeader (segment s 0 8) (unle (segment s 8 10)) (unle (segment s 10 12)) (unle (segment s 12 14))
    (unle (segment s 14 15)) (unle (segment s 15 16)) (unle (segment s 16 20)) (unle (segment s 20 24))
    (unle (segment s 24 28)) (unle (segment s 28 30)) (unle (segment s 30 32)) (segment s 32 64).

Definition i8 (z : Z) : Z := (z + 128) mod 256 - 128.

(** ** Records of the body *)

Definition encoder_mot_cle (kw : list Z) : list Z := le 2 (u16 (zlen kw)) ++ kw.
Definition encoder_classe (c : DecisionClass) : list Z := (u8 <$> Weights c) ++ le 4 (u32 (Bias c)) ++ le 4 (QHat c).
Definition encoder_proto (p : FloppyPrototype) : list Z := le 2 (Class_ p) ++ le 2 0 ++ (Vector p ≫= le 4).


Definition corps (kws : list (list Z)) (entries : list CodebookEntry) (head : list DecisionClass)
    (protos : list FloppyPrototype) : list Z :=
  section encoder_mot_cle kws ++ section encodeCodebookEntry entries ++ section encoder_classe head ++
  section encoder_proto protos.

(** Not a finite number: every exponent bit set. *)
Definition non_fini (v : Z) : bool := Z.land (Z.shiftr v 23) 255 =? 255.

(** ** The prototype store of the conformal probe *)
Section sonde.
Context {RabitqCode : Type} (quantifier : list Z -> RabitqCode).

Definition MaxClasses : Z := 1024.
Record RabitqProbe := Probe_ { classes : Z; protos_ : list (list RabitqCode) }.

Definition NewRabitqProbe (n : Z) : option RabitqProbe :=
  if (n <=? 0) || (MaxClasses <? n) then None else Some (Probe_ n (replicate (Z.to_nat n) [])).
Definition PrototypeCount (p : option RabitqProbe) (class : Z) : run Z :=
  match p with
  | None => Done 0
  | Some p =>
      if (class <? 0) || (classes p <=? class) then Done 0 else l ← idx (protos_ p) class; Done (zlen l)
  end.
(** [None] in the result is an error. *)
Definition AddPrototype (p : RabitqProbe) (class : Z) (features : list Z) : run (option RabitqProbe) :=
  if (class <? 0) || (classes p <=? class) then Done None else
  if (zlen features =? 0) || (512 <? zlen features) then Done None else
  l ← idx (protos_ p) class;
  P ← upd (protos_ p) class (l ++ [quantifier features]);
  Done (Some (Probe_ (classes p) P)).

(** The two-class count, then the probe. *)
Definition compter_un (acc : run (list Z)) (p : FloppyPrototype) : run (list Z) :=
  n ← acc; c ← idx n (Class_ p); upd n (Class_ p) (c + 1).
Definition compter_classes (protos : list FloppyPrototype) : run (list Z) :=
  foldl compter_un (Done [0; 0]) protos.

Definition ajouter_un (acc : run (option RabitqProbe)) (p : FloppyPrototype) : run (option RabitqProbe) :=
  a ← acc; match a with None => Done None | Some pr => AddPrototype pr (Class_ p) (Vector p) end.
Definition ajouter_tous (pr : RabitqProbe) (protos : list FloppyPrototype) : run (option RabitqProbe) :=
  foldl ajouter_un (Done (Some pr)) protos.

Definition buildFloppyProbe (protos : list FloppyPrototype) : run (erreur_disquette + option RabitqProbe) :=
  n ← compter_classes protos;
  a ← idx n 0; b ← idx n 1;
  if (a =? 0) || (b =? 0) then Done (inr None) else
  match NewRabitqProbe 2 with
  | None => Done (inl ErrSonde)
  | Some pr =>
      r ← ajouter_tous pr protos;
      match r with None => Done (inl ErrSonde) | Some pr => Done (inr (Some pr)) end
  end.

Record FloppyDisk := Disk {
  Header_ : FloppyHeader;
  Keywords : list (list Z);
  DEntries : list CodebookEntry;
  Head : list DecisionClass;
  Prototypes : list FloppyPrototype;
  probe : option RabitqProbe
}.
Definition Probe (d : option FloppyDisk) : option RabitqProbe := d ≫= probe.

(** ** The hot-swap slot: one atomic pointer and an epoch *)

Record FloppySlot := FSlot { current : option FloppyDisk; epoch : Z }.
Definition NewFloppySlot : FloppySlot := FSlot None 0.
Definition Current (s : option FloppySlot) : option FloppyDisk := s ≫= current.
Definition FSwap (s : option FloppySlot) (d : option FloppyDisk) : option FloppySlot * option FloppyDisk :=
  match s with
  | None => (None, None)
  | Some s => (Some (FSlot d (u64 (epoch s + 1))), current s)
  end.
Definition FEpoch (s : option FloppySlot) : Z := match s with None => 0 | Some s => epoch s end.

(** ** Decoding *)
Context (hmac_sha256 : list Z -> list Z -> list Z).

Definition lire_mots_cles (image : list Z) (n o : Z) : run (Z * list (list Z) + erreur_disquette) :=
  for_range n (o, []) (fun _ '(o, acc) =>
    if zlen image <? o + 2 then Done (inr ErrFloppyTruncated) else
    b ← slice image o (o + 2);
    let kwLen := unle b in
    let o := o + 2 in
    if zlen image <? o + kwLen then Done (inr ErrFloppyTruncated) else
    k ← slice image o (o + kwLen);
    Done (inl (o + kwLen, acc ++ [k]))).

Definition lire_entrees_disque (image : list Z) (n o : Z) : run (list CodebookEntry + erreur_disquette) :=
  for_range n [] (fun i acc =>
    e ← slice image (o + i * 72) (o + (i + 1) * 72);
    Done (inl (B := erreur_disquette) (acc ++ [decodeCodebookEntry e]))).

Definition lire_classes (image : list Z) (n o : Z) : run (list DecisionClass + erreur_disquette) :=
  for_range n [] (fun i acc =>
    let base := o + i * classRecSize in
    w ← slice image base (base + EmbeddingDim);
    b ← slice image (base + EmbeddingDim) (base + EmbeddingDim + 4);
    q ← slice image (base + EmbeddingDim + 4) (base + classRecSize);
    Done (inl (B := erreur_disquette) (acc ++ [Classe (i8 <$> w) (i32 (unle b)) (unle q)]))).

Definition lire_vecteur (image : list Z) (base i : Z) : run (list Z + erreur_disquette) :=
  for_range EmbeddingDim [] (fun d acc =>
    let o := base + 4 + d * 4 in
    b ← slice image o (o + 4);
    let v := unle b in
    if non_fini v then Done (inr (ErrPrototypeNonFini i)) else Done (inl (acc ++ [v]))).

Definition lire_protos (image : list Z) (n o : Z) : run (list FloppyPrototype + erreur_disquette) :=
  for_range n [] (fun i acc =>
    let base := o + i * floppyProtoRecSize in
    c ← slice image base (base + 2);
    if 1 <? unle c then Done (inr (ErrClassePrototype (unle c))) else
    v ← lire_vecteur image base i;
    Done (match v with inl v => inl (acc ++ [Proto (unle c) v]) | inr e => inr e end)).

(** The integrity policy; [isStrict] is the reading of the environment. *)
Definition controler_sceau (isStrict : bool) (hdr : FloppyHeader) (entete32 body hmacKey : list Z)
  : option erreur_disquette :=
  let scelle := negb (Z.land (FFlags hdr) FloppyFlagSealed =? 0) in
  if isStrict && negb scelle then Some ErrFloppyUnsealed else
  if scelle then
    if zlen hmacKey =? 0 then Some ErrFloppyUnsealed else
    if negb (egaux (hmac_sha256 hmacKey (entete32 ++ body)) (Seal hdr)) then Some ErrFloppySeal else None
  else if 0 <? zlen hmacKey then Some ErrFloppyUnsealed else None.

Definition taille_minimale (hdr : FloppyHeader) : Z :=
  u64 (u64 (u64 (u64 (KwCount hdr * 2) + u64 (FEntryCount hdr * 72)) + u64 (HeadClasses hdr * classRecSize)) +
       u64 (ProtoCount hdr * floppyProtoRecSize)).

(** The sections of the body, once the controls have passed. *)
Definition decoder_sections (image : list Z) (hdr : FloppyHeader) : run (erreur_disquette + FloppyDisk) :=
  r ← lire_mots_cles image (KwCount hdr) FloppyHeaderSize;
  match r with inr e => Done (inl e) | inl (o, kws) =>
  let entryBytes := FEntryCount hdr * 72 in
  if zlen image <? o + entryBytes then Done (inl ErrFloppyTruncated) else
  r ← lire_entrees_disque image (FEntryCount hdr) o;
  match r with inr e => Done (inl e) | inl entries =>
  let o := o + entryBytes in
  let headBytes := HeadClasses hdr * classRecSize in
  if zlen image <? o + headBytes then Done (inl ErrFloppyTruncated) else
  r ← lire_classes image (HeadClasses hdr) o;
  match r with inr e => Done (inl e) | inl head =>
  let o := o + headBytes in
  let protoBytes := ProtoCount hdr * floppyProtoRecSize in
  if zlen image <? o + protoBytes then Done (inl ErrFloppyTruncated) else
  r ← lire_protos image (ProtoCount hdr) o;
  match r with inr e => Done (inl e) | inl protos =>
  let o := o + protoBytes in
  if negb (o =? zlen image) then Done (inl ErrFloppyTruncated) else
  r ← buildFloppyProbe protos;
  Done (match r with
        | inl e => inl e
        | inr pr => inr (Disk hdr kws entries head protos pr)
        end)
  end end end end.

Definition decodeFloppy (isStrict : bool) (image hmacKey : list Z) : run (erreur_disquette + FloppyDisk) :=
  h ← slice image 0 FloppyHeaderSize;
  let hdr := decoder_entete h in
  if negb (egaux (FMagic hdr) FloppyMagic) then Done (inl ErrMagie) else
  if negb (FVersion hdr =? FloppyVersion) then Done (inl (ErrVersion (FVersion hdr))) else
  if negb (FVectorDim hdr =? EmbeddingDim) then Done (inl (ErrDimension (FVectorDim hdr))) else
  body ← slice image FloppyHeaderSize (zlen image);
  e32 ← slice image 0 32;
  match controler_sceau isStrict hdr e32 body hmacKey with
  | Some e => Done (inl e)
  | None =>
      if negb (crc32_update 0 body =? CRC32C hdr) then Done (inl ErrSomme) else
      if zlen body <? taille_minimale hdr then Done (inl ErrFloppyTruncated) else
      decoder_sections image hdr
  end.

(** ** Saving: the octets of the file *)
Definition SaveFloppyFile (familyID : Z) (keywords : list (list Z)) (entries : list CodebookEntry)
    (head : list DecisionClass) (protos : list FloppyPrototype) (blockRadius : Z) (hmacKey : list Z)
  : erreur_disquette + list Z :=
  if 65535 <? zlen protos then inl ErrTropDePrototypes else
  match filter (fun p => 1 < Class_ p) protos with
  | p :: _ => inl (ErrClassePrototype (Class_ p))
  | [] =>
      let body := corps keywords entries head protos in
      let hdr flags seal :=
        FHeader FloppyMagic FloppyVersion familyID EmbeddingDim flags blockRadius (u32 (zlen entries))
          (u32 (zlen keywords)) (crc32_update 0 body) (u16 (zlen head)) (u16 (zlen protos)) seal in
      let zero := replicate 32 0 in
      if 0 <? zlen hmacKey then
        let e32 := take 32 (encoder_entete (hdr FloppyFlagSealed zero)) in
        inr (encoder_entete (hdr FloppyFlagSealed (copy_into zero (hmac_sha256 hmacKey (e32 ++ body)))) ++ body)
      else inr (encoder_entete (hdr 0 zero) ++ body)
  end.
End sonde.

(** ** Reflex searches *)

Definition majuscule (c : Z) : bool := (65 <=? c) && (c <=? 90).
Definition replier (c : Z) : Z := if majuscule c then u8 (c + 32) else c.

(** One position of [containsSubsliceFold]. *)
Definition position_egale (haystack needle : list Z) (i : Z) : run bool :=
  o ← for_range (zlen needle) tt (fun j _ =>
        c1 ← idx haystack (i + j); c2 ← idx needle j;
        if (c1 =? c2) || (replier c1 =? replier c2) then Done (inl (B := bool) tt) else Done (inr false));
  Done (match o with inl _ => true | inr b => b end).

Definition containsSubsliceFold (haystack needle : list Z) : run bool :=
  if zlen needle =? 0 then Done true else
  if zlen haystack <? zlen needle then Done false else
  o ← for_range (zlen haystack - zlen needle + 1) tt (fun i _ =>
        m ← position_egale haystack needle i;
        if (m : bool) then Done (inr true) else Done (inl (B := bool) tt));
  Done (match o with inl _ => false | inr b => b end).

Section recherches.
Context {RabitqCode : Type}.

Fixpoint chercher_mot (kws : list (list Z)) (payload : list Z) : run (option (list Z)) :=
  match kws with
  | [] => Done None
  | kw :: kws =>
      if (0 <? zlen kw) && (zlen kw <=? zlen payload) then
        c ← containsSubsliceFold payload kw;
        if (c : bool) then Done (Some kw) else chercher_mot kws payload
      else chercher_mot kws payload
  end.
(** [None]: no keyword hit. *)
Definition MatchKeyword (d : option (FloppyDisk (RabitqCode := RabitqCode))) (payload : list Z) : run (option (list Z)) :=
  match d with
  | None => Done None
  | Some d => if zlen payload =? 0 then Done None else chercher_mot (Keywords d) payload
  end.

Definition SearchCentroid (d : option (FloppyDisk (RabitqCode := RabitqCode))) (query : option (list Z)) (maxHamming : Z)
  : CodebookEntry * Z * bool :=
  match d, query with
  | Some d, Some q =>
      if zlen (DEntries d) =? 0 then (entry_zero, 0, false) else
      let '(best, m, found) :=
        fold_left (retenir (fun e => codebookHammingBounded q e maxHamming) maxHamming) (DEntries d)
          (maxHamming + 1, entry_zero, false) in
      (m, best, found)
  | _, _ => (entry_zero, 0, false)
  end.

Definition BlockRadius (d : option (FloppyDisk (RabitqCode := RabitqCode))) : Z :=
  match d with
  | None => FloppyDefaultBlockRadius
  | Some d => if BlockRadius_ (Header_ d) =? 0 then FloppyDefaultBlockRadius else BlockRadius_ (Header_ d)
  end.

Definition nearThreatWithin (d : option (FloppyDisk (RabitqCode := RabitqCode))) (query : list Z) (radius : Z) : bool :=
  match d with
  | None => false
  | Some _ => let '(_, dist, found) := SearchCentroid d (Some query) radius in found && (dist <=? radius)
  end.
Definition nearThreat (d : option (FloppyDisk (RabitqCode := RabitqCode))) (query : list Z) : bool :=
  nearThreatWithin d query (BlockRadius d).
End recherches.

(** ** Loops *)

(** A [for] loop that appends element after element. *)
Lemma for_from_etats {A S R} (body : Z -> S -> run (S + R)) (st : nat -> S) (l : list A) i0 :
  (forall i x, l !! i = Some x -> body (i0 + Z.of_nat i) (st i) = Done (inl (st (Datatypes.S i)))) ->
  for_from body i0 (length l) (st 0%nat) = Done (inl (st (length l))).
Proof.
  revert st i0. induction l as [|x l IH]; intros st i0 H; [done|]. cbn [for_from length].
  pose proof (H 0%nat x eq_refl) as H0. rewrite Z.add_0_r in H0. rewrite H0, run_bind_done.
  apply (IH (fun i => st (Datatypes.S i))). intros i y Hi.
  specialize (H (Datatypes.S i) y Hi). by rewrite Nat2Z.inj_succ, <- Z.add_1_l, Z.add_assoc in H.
Qed.

Lemma for_range_etats {A S R} (body : Z -> S -> run (S + R)) (st : nat -> S) (l : list A) n :
  n = zlen l ->
  (forall i x, l !! i = Some x -> body (Z.of_nat i) (st i) = Done (inl (st (Datatypes.S i)))) ->
  for_range n (st 0%nat) body = Done (inl (st (length l))).
Proof.
  intros -> H. unfold for_range, zlen. rewrite Nat2Z.id. by apply for_from_etats.
Qed.

(** ** Header *)

Definition entete_ok (h : FloppyHeader) : Prop :=
  length (FMagic h) = 8%nat /\ is_u16 (FVersion h) /\ is_u16 (FamilyID h) /\ is_u16 (FVectorDim h) /\
  is_u8 (FFlags h) /\ is_u8 (BlockRadius_ h) /\ is_u32 (FEntryCount h) /\ is_u32 (KwCount h) /\
  is_u32 (CRC32C h) /\ is_u16 (HeadClasses h) /\ is_u16 (ProtoCount h) /\ length (Seal h) = 32%nat.

Lemma encoder_decoder_entete s : bytes_ok s -> length s = 64%nat -> encoder_entete (decoder_entete s) = s.
Proof.
  intros Hs Hl. unfold encoder_entete, decoder_entete.
  cbn [FMagic FVersion FamilyID FVectorDim FFlags BlockRadius_ FEntryCount KwCount CRC32C HeadClasses ProtoCount Seal].
  rewrite !le_segment by (done || lia).
  rewrite !app_assoc. change (segment s 0 8) with (take 0 s ++ segment s 0 8).
  rewrite !take_segment by lia. by rewrite take_ge by lia.
Qed.

Lemma decoder_entete_ok s : bytes_ok s -> length s = 64%nat -> entete_ok (decoder_entete s).
Proof.
  intros Hs Hl. unfold entete_ok, decoder_entete, is_u8, is_u16, is_u32.
  cbn [FMagic FVersion FamilyID FVectorDim FFlags BlockRadius_ FEntryCount KwCount CRC32C HeadClasses ProtoCount Seal].
  split; [by rewrite length_segment by lia|].
  repeat (split; [first [apply (unle_segment_range s _ _ 2); (done || lia) | apply (unle_segment_range s _ _ 1); (done || lia)
    | apply (unle_segment_range s _ _ 4); (done || lia)]|]). by rewrite length_segment by lia.
Qed.

Ltac champ_suivant :=
  match goal with |- context [segment (le ?n ?z ++ ?r) (S ?a) ?b] =>
    rewrite (segment_app_r (le n z) r (S a) b n (length_le n z)) by lia; cbn [Nat.sub] end.

Lemma decoder_encoder_entete h r : entete_ok h -> decoder_entete (encoder_entete h ++ r) = h.
Proof.
  destruct h as [m v f d fl br ne nk crc hc pc sl]. unfold entete_ok, encoder_entete, decoder_entete.
  cbn [FMagic FVersion FamilyID FVectorDim FFlags BlockRadius_ FEntryCount KwCount CRC32C HeadClasses ProtoCount Seal].
  intros (Hm & Hv & Hf & Hd & Hfl & Hbr & Hne & Hnk & Hcrc & Hhc & Hpc & Hsl).
  unfold is_u8, is_u16, is_u32 in *. rewrite <- !app_assoc.
  rewrite (segment_debut m) by done. rewrite !(segment_app_r m _ _ _ 8 Hm) by lia. cbn [Nat.sub].
  rewrite (segment_debut (le 2 v)) by apply length_le. repeat champ_suivant.
  rewrite (segment_debut (le 2 f)), (segment_debut (le 2 d)), (segment_debut (le 1 fl)), (segment_debut (le 1 br)),
    (segment_debut (le 4 ne)), (segment_debut (le 4 nk)), (segment_debut (le 4 crc)), (segment_debut (le 2 hc)),
    (segment_debut (le 2 pc)), (segment_debut sl) by (done || apply length_le).
  rewrite !unle_le by (simpl; lia). done.
Qed.

Lemma length_encoder_entete h : entete_ok h -> length (encoder_entete h) = 64%nat.
Proof.
  intros (Hm & _ & _ & _ & _ & _ & _ & _ & _ & _ & _ & Hs). unfold encoder_entete.
  rewrite !length_app, !length_le, Hm, Hs. done.
Qed.

(** ** Records of the body, from octets to values and back *)

Lemma mots_segments s n : bytes_ok s -> (8 * n <= length s)%nat ->
  octets_mots ((fun k => unle (segment s (k * 8) (k * 8 + 8))) <$> List.seq 0 n) = take (8 * n) s.
Proof.
  intros Hs. induction n as [|n IH]; intros Hn; [done|].
  rewrite seq_S, fmap_app, octets_mots_app, IH by lia. cbn [fmap list_fmap octets_mots Nat.add].
  rewrite app_nil_r, le_segment by (done || lia).
  replace (n * 8)%nat with (8 * n)%nat by lia. rewrite take_segment by lia. f_equal. lia.
Qed.

Lemma encode_decode_entry s : bytes_ok s -> length s = 72%nat -> encodeCodebookEntry (decodeCodebookEntry s) = s.
Proof.
  intros Hs Hl. unfold encodeCodebookEntry, decodeCodebookEntry. cbn [Bitcode ThreatID Subsystem Severity].
  rewrite mots_segments, !le_segment by (done || lia). rewrite !app_assoc.
  change (8 * 8)%nat with 64%nat. rewrite !take_segment by lia. by rewrite take_ge by lia.
Qed.

Lemma decode_entry_ok s : bytes_ok s -> length s = 72%nat -> entry_ok (decodeCodebookEntry s).
Proof.
  intros Hs Hl. unfold entry_ok, decodeCodebookEntry. cbn [Bitcode ThreatID Subsystem Severity].
  split; [done|]. split.
  - apply Forall_fmap, Forall_forall. intros k Hk%list_elem_of_In%in_seq. unfold compose, is_u64.
    apply (unle_segment_range s _ _ 8); [done|lia|lia].
  - split; [apply (unle_segment_range s _ _ 4); (done || lia)|].
    split; apply (unle_segment_range s _ _ 2); (done || lia).
Qed.

Lemma u8_i8 b : is_u8 b -> u8 (i8 b) = b.
Proof. unfold is_u8, u8, i8. change (2 ^ 8) with 256. intros. divlia. Qed.
Lemma i8_u8 w : -128 <= w < 128 -> i8 (u8 w) = w.
Proof. unfold u8, i8. change (2 ^ 8) with 256. intros. divlia. Qed.
Lemma i8_range b : -128 <= i8 b < 128.
Proof. unfold i8. divlia. Qed.
Lemma u32_i32 b : is_u32 b -> u32 (i32 b) = b.
Proof. unfold is_u32, u32, i32. change (2 ^ 32) with 4294967296. change (2 ^ 31) with 2147483648. intros. divlia. Qed.
Lemma i32_u32 b : - 2 ^ 31 <= b < 2 ^ 31 -> i32 (u32 b) = b.
Proof. unfold u32, i32. change (2 ^ 32) with 4294967296. change (2 ^ 31) with 2147483648. intros. divlia. Qed.
Lemma i32_range b : - 2 ^ 31 <= i32 b < 2 ^ 31.
Proof. unfold i32. change (2 ^ 32) with 4294967296. change (2 ^ 31) with 2147483648. divlia. Qed.

Definition mot_cle_ok (k : list Z) : Prop := bytes_ok k /\ zlen k < 2 ^ 16.
Definition classe_ok (c : DecisionClass) : Prop :=
  length (Weights c) = 512%nat /\ Forall (fun w => -128 <= w < 128) (Weights c) /\
  - 2 ^ 31 <= Bias c < 2 ^ 31 /\ is_u32 (QHat c).
Definition proto_ok (p : FloppyPrototype) : Prop :=
  0 <= Class_ p <= 1 /\ length (Vector p) = 512%nat /\
  Forall (fun v => is_u32 v /\ non_fini v = false) (Vector p).

Lemma map_u8_i8 l : bytes_ok l -> u8 <$> (i8 <$> l) = l.
Proof. induction 1 as [|b l Hb _ IH]; [done|]. cbn. by rewrite u8_i8, IH. Qed.
Lemma map_i8_u8 l : Forall (fun w => -128 <= w < 128) l -> i8 <$> (u8 <$> l) = l.
Proof. induction 1 as [|b l Hb _ IH]; [done|]. cbn. by rewrite i8_u8, IH. Qed.

Lemma encoder_classe_lue s a b c d : bytes_ok s -> b = (a + 512)%nat -> c = (b + 4)%nat -> d = (c + 4)%nat -> (d <= length s)%nat ->
  encoder_classe (Classe (i8 <$> segment s a b) (i32 (unle (segment s b c))) (unle (segment s c d))) = segment s a d.
Proof.
  intros Hs -> -> -> Hd. unfold encoder_classe. cbn [Weights Bias QHat].
  rewrite map_u8_i8 by by apply bytes_ok_segment.
  rewrite u32_i32 by (apply (unle_segment_range s _ _ 4); (done || lia)).
  rewrite !le_segment by (done || lia).
  apply (app_inv_head (take a s)). rewrite !app_assoc, !take_segment by lia. done.
Qed.

Lemma classe_lue_ok s a b c d : bytes_ok s -> b = (a + 512)%nat -> c = (b + 4)%nat -> d = (c + 4)%nat -> (d <= length s)%nat ->
  classe_ok (Classe (i8 <$> segment s a b) (i32 (unle (segment s b c))) (unle (segment s c d))).
Proof.
  intros Hs -> -> -> Hd. unfold classe_ok. cbn [Weights Bias QHat].
  split; [rewrite length_fmap, length_segment by lia; lia|].
  split; [apply Forall_fmap, Forall_forall; intros x _; apply i8_range|].
  split; [apply i32_range|]. apply (unle_segment_range s _ _ 4); (done || lia).
Qed.

Definition encoder_proto_reserve (x : FloppyPrototype * list Z) : list Z :=
  le 2 (Class_ x.1) ++ x.2 ++ (Vector x.1 ≫= le 4).

(** ** Loops of the decoder, on any image *)
Section image.
Context (image : list Z) (Himage : bytes_ok image).

Definition pris (o : Z) : list Z := take (Z.to_nat o) image.

Lemma pris_segment a b : 0 <= a <= b -> pris a ++ segment image (Z.to_nat a) (Z.to_nat b) = pris b.
Proof. intros H. apply take_segment. lia. Qed.

Lemma lire_mots_cles_lit n o : 0 <= n -> 0 <= o <= zlen image ->
  wp (lire_mots_cles image n o) (fun r =>
    match r with
    | inr _ => True
    | inl (o', kws) => zlen kws = n /\ o <= o' <= zlen image /\ pris o' = pris o ++ section encoder_mot_cle kws /\
        Forall mot_cle_ok kws
    end).
Proof.
  intros Hn Ho. unfold lire_mots_cles.
  apply (wp_for_range (fun i '(o', kws) => zlen kws = i /\ o <= o' <= zlen image /\
    pris o' = pris o ++ section encoder_mot_cle kws /\ Forall mot_cle_ok kws)); [done| | |by intros [o' kws]].
  - split; [done|]. split; [lia|]. split; [by rewrite app_nil_r|constructor].
  - intros i [o' kws] Hi (Hk & Ho' & Hp & Hok).
    destruct (Z.ltb_spec (zlen image) (o' + 2)); [by apply wp_done|].
    apply wp_bind, wp_slice_segment; [lia..|]. set (L := unle (segment image (Z.to_nat o') (Z.to_nat (o' + 2)))).
    assert (HL : 0 <= L < 2 ^ 16) by (apply (unle_segment_range image _ _ 2); [done|lia|unfold zlen in *; lia]).
    destruct (Z.ltb_spec (zlen image) (o' + 2 + L)); [by apply wp_done|].
    apply wp_bind, wp_slice_segment; [lia..|]. apply wp_done.
    assert (Hzl : zlen (segment image (Z.to_nat (o' + 2)) (Z.to_nat (o' + 2 + L))) = L)
      by (unfold zlen in *; rewrite length_segment by lia; lia).
    split; [rewrite zlen_app, zlen_cons, zlen_nil; lia|]. split; [lia|]. split.
    + rewrite section_snoc, app_assoc, <- Hp. unfold encoder_mot_cle. rewrite Hzl, u16_id by done. unfold L at 2.
      rewrite le_segment by (try done; unfold zlen in *; lia).
      by rewrite app_assoc, !pris_segment by lia.
    + apply Forall_app. split; [done|]. apply Forall_singleton. split; [by apply bytes_ok_segment|lia].
Qed.

Lemma lire_entrees_lit n o : 0 <= n -> 0 <= o -> o + n * 72 <= zlen image ->
  wp (lire_entrees_disque image n o) (fun r =>
    match r with
    | inr _ => False
    | inl l => zlen l = n /\ pris (o + n * 72) = pris o ++ section encodeCodebookEntry l /\ Forall entry_ok l
    end).
Proof.
  intros Hn Ho Hb. unfold lire_entrees_disque.
  apply (wp_for_range (fun i l => zlen l = i /\
    pris (o + i * 72) = pris o ++ section encodeCodebookEntry l /\ Forall entry_ok l)); [done| | |done].
  - split; [done|]. split; [|constructor]. rewrite Z.mul_0_l, Z.add_0_r. by rewrite app_nil_r.
  - intros i l Hi (Hl & Hp & Hok). apply wp_bind, wp_slice_segment; [lia..|]. apply wp_done.
    assert (Hs : length (segment image (Z.to_nat (o + i * 72)) (Z.to_nat (o + (i + 1) * 72))) = 72%nat)
      by (unfold zlen in *; rewrite length_segment by lia; lia).
    split; [rewrite zlen_app, zlen_cons, zlen_nil; lia|]. split.
    + rewrite section_snoc, app_assoc, <- Hp, encode_decode_entry by (done || by apply bytes_ok_segment).
      by rewrite pris_segment by lia.
    + apply Forall_app. split; [done|]. apply Forall_singleton, decode_entry_ok; [by apply bytes_ok_segment|done].
Qed.

Lemma lire_classes_lit n o : 0 <= n -> 0 <= o -> o + n * 520 <= zlen image ->
  wp (lire_classes image n o) (fun r =>
    match r with
    | inr _ => False
    | inl l => zlen l = n /\ pris (o + n * 520) = pris o ++ section encoder_classe l /\ Forall classe_ok l
    end).
Proof.
  intros Hn Ho Hb. unfold lire_classes, classRecSize, EmbeddingDim.
  apply (wp_for_range (fun i l => zlen l = i /\
    pris (o + i * 520) = pris o ++ section encoder_classe l /\ Forall classe_ok l)); [done| | |done].
  - split; [done|]. split; [|constructor]. rewrite Z.mul_0_l, Z.add_0_r. by rewrite app_nil_r.
  - intros i l Hi (Hl & Hp & Hok). do 3 (apply wp_bind, wp_slice_segment; [lia..|]). apply wp_done.
    split; [rewrite zlen_app, zlen_cons, zlen_nil; lia|]. split.
    + rewrite section_snoc, app_assoc, <- Hp, encoder_classe_lue by (try done; unfold zlen in *; lia).
      rewrite pris_segment by lia. f_equal. lia.
    + apply Forall_app. split; [done|]. apply Forall_singleton, classe_lue_ok; (try done; unfold zlen in *; lia).
Qed.

Lemma lire_vecteur_lit base i : 0 <= base -> base + 2052 <= zlen image ->
  wp (lire_vecteur image base i) (fun r =>
    match r with
    | inr _ => True
    | inl v => length v = 512%nat /\ pris (base + 2052) = pris (base + 4) ++ (v ≫= le 4) /\
        Forall (fun x => is_u32 x /\ non_fini x = false) v
    end).
Proof.
  intros Hb Hl. unfold lire_vecteur, EmbeddingDim.
  apply (wp_for_range (fun d v => zlen v = d /\ pris (base + 4 + d * 4) = pris (base + 4) ++ (v ≫= le 4) /\
    Forall (fun x => is_u32 x /\ non_fini x = false) v)); [done| | |].
  - split; [done|]. split; [|constructor]. rewrite Z.mul_0_l, Z.add_0_r. by rewrite app_nil_r.
  - intros d v Hd (Hv & Hp & Hok). apply wp_bind, wp_slice_segment; [lia..|].
    destruct (non_fini _) eqn:En; [by apply wp_done|]. apply wp_done.
    split; [rewrite zlen_app, zlen_cons, zlen_nil; lia|]. split.
    + rewrite bind_app. cbn [mbind list_bind]. rewrite app_nil_r, app_assoc, <- Hp.
      rewrite le_segment by (try done; unfold zlen in *; lia). rewrite pris_segment by lia. f_equal. lia.
    + apply Forall_app. split; [done|]. apply Forall_singleton. split; [|done].
      apply (unle_segment_range image _ _ 4); [done|unfold zlen in *; lia..].
  - intros v (Hv & Hp & Hok). split; [unfold zlen in Hv; lia|]. split; [|done].
    rewrite <- Hp. f_equal. lia.
Qed.

(** The two reserved octets of a prototype are not read. *)
Lemma lire_protos_lit n o : 0 <= n -> 0 <= o -> o + n * 2052 <= zlen image ->
  wp (lire_protos image n o) (fun r =>
    match r with
    | inr _ => True
    | inl l => zlen l = n /\ Forall proto_ok l /\ exists L, L.*1 = l /\ Forall (fun x => length x.2 = 2%nat) L /\
        pris (o + n * 2052) = pris o ++ section encoder_proto_reserve L
    end).
Proof.
  intros Hn Ho Hb. unfold lire_protos, floppyProtoRecSize.
  apply (wp_for_range (fun i l => zlen l = i /\ Forall proto_ok l /\ exists L, L.*1 = l /\
    Forall (fun x => length x.2 = 2%nat) L /\
    pris (o + i * 2052) = pris o ++ section encoder_proto_reserve L)); [done| | |done].
  { split; [done|]. split; [constructor|]. exists []. split; [done|]. split; [constructor|].
    rewrite Z.mul_0_l, Z.add_0_r. by rewrite app_nil_r. }
  intros i l Hi (Hl & Hok & L & HL & Hr & Hp). apply wp_bind, wp_slice_segment; [lia..|].
  set (a := Z.to_nat (o + i * 2052)). set (b := Z.to_nat (o + i * 2052 + 2)).
  assert (Hab : (a + 2 = b /\ b + 2 <= length image)%nat) by (unfold a, b, zlen in *; lia). destruct Hab as [Hab Hbl].
  pose proof (unle_segment_range image a b 2 Himage Hab ltac:(lia)) as Hc.
  destruct (Z.ltb_spec 1 (unle (segment image a b))); [by apply wp_done|].
  apply wp_bind. eapply wp_mono; [apply lire_vecteur_lit; lia|]. intros [v|e]; [|by intros _; apply wp_done].
  intros (Hv & Hpv & Hvok). apply wp_done. split; [rewrite zlen_app, zlen_cons, zlen_nil; lia|]. split.
  - apply Forall_app. split; [done|]. apply Forall_singleton. split; [cbn [Class_]; lia|]. done.
  - exists (L ++ [(Proto (unle (segment image a b)) v, segment image b (b + 2))]).
    split; [by rewrite fmap_app, HL|]. split.
    { apply Forall_app. split; [done|]. apply Forall_singleton. cbn [snd]. rewrite length_segment by lia. lia. }
    rewrite section_snoc, app_assoc, <- Hp. unfold encoder_proto_reserve. cbn [fst snd Class_ Vector].
    rewrite le_segment by (try done; lia). replace (o + (i + 1) * 2052) with (o + i * 2052 + 2052) by lia.
    rewrite Hpv. unfold pris. fold a. rewrite !app_assoc, !take_segment by lia. do 2 f_equal. unfold b. lia.
Qed.
End image.

(** ** Loops of the decoder, on an encoded image *)

(** Element [i] of a section inside an image. *)
Lemma image_coupe {A} (enc : A -> list Z) (pre post : list Z) l i x : l !! i = Some x ->
  pre ++ section enc l ++ post =
  (pre ++ section enc (take i l)) ++ enc x ++ (section enc (drop (S i) l) ++ post).
Proof. intros Hi. rewrite (section_coupe enc l i x Hi). by rewrite <- !app_assoc. Qed.

Lemma lire_mots_cles_exact pre kws post o : Forall mot_cle_ok kws -> o = zlen pre ->
  lire_mots_cles (pre ++ section encoder_mot_cle kws ++ post) (zlen kws) o =
  Done (inl (o + zlen (section encoder_mot_cle kws), kws)).
Proof.
  intros Hk ->. unfold lire_mots_cles.
  pose proof (for_range_etats (R := erreur_disquette)
    (fun (_ : Z) '(o, acc) =>
      if zlen (pre ++ section encoder_mot_cle kws ++ post) <? o + 2 then Done (inr ErrFloppyTruncated) else
      b ← slice (pre ++ section encoder_mot_cle kws ++ post) o (o + 2);
      let kwLen := unle b in
      let o := o + 2 in
      if zlen (pre ++ section encoder_mot_cle kws ++ post) <? o + kwLen then Done (inr ErrFloppyTruncated) else
      k ← slice (pre ++ section encoder_mot_cle kws ++ post) o (o + kwLen);
      Done (inl (o + kwLen, acc ++ [k])))
    (fun i => (zlen pre + zlen (section encoder_mot_cle (take i kws)), take i kws)) kws (zlen kws) eq_refl) as H.
  cbv beta in H. rewrite (take_ge kws (length kws)) in H by lia.
  change (take 0 kws) with (@nil (list Z)) in H. change (section encoder_mot_cle []) with (@nil Z) in H. rewrite zlen_nil, Z.add_0_r in H. apply H. clear H.
  intros i k Hi. pose proof (proj1 (Forall_lookup _ _) Hk _ _ Hi) as [Hb Hl].
  rewrite (image_coupe _ pre post kws i k Hi).
  set (a := pre ++ section encoder_mot_cle (take i kws)). set (z := section encoder_mot_cle (drop (S i) kws) ++ post).
  assert (Ha : zlen pre + zlen (section encoder_mot_cle (take i kws)) = zlen a) by (unfold a; by rewrite zlen_app).
  pose proof (zlen_nonneg z). pose proof (zlen_nonneg k).
  assert (Ek : encoder_mot_cle k = le 2 (zlen k) ++ k)
    by (unfold encoder_mot_cle; rewrite u16_id by (unfold is_u16; lia); done).
  rewrite Ha, Ek.
  rewrite <- !app_assoc. rewrite (slice_mid a (le 2 (zlen k)) (k ++ z)) by (rewrite ?zlen_le; lia).
  rewrite !zlen_app, zlen_le, run_bind_done, unle_le by (simpl; lia).
  cbv zeta. zif. zif.
  rewrite (app_assoc a). rewrite (slice_mid (a ++ le 2 (zlen k)) k z) by (rewrite ?zlen_app, ?zlen_le; lia).
  rewrite run_bind_done, (take_S_r _ _ k Hi), section_snoc, zlen_app, Ek, zlen_app, zlen_le.
  replace (zlen a + 2 + zlen k) with (zlen pre + (zlen (section encoder_mot_cle (take i kws)) + (Z.of_nat 2 + zlen k))) by lia.
  done.
Qed.

(** Records of a fixed size [sz]. *)
Lemma lire_fixe {A R} (enc : A -> list Z) sz (body : Z -> list A -> run (list A + R)) l pre post image :
  image = pre ++ section enc l ++ post -> Forall (fun x => zlen (enc x) = sz) l ->
  (forall i x acc a z, l !! i = Some x -> image = a ++ enc x ++ z -> zlen a = zlen pre + Z.of_nat i * sz ->
     body (Z.of_nat i) acc = Done (inl (acc ++ [x]))) ->
  for_range (zlen l) [] body = Done (inl l).
Proof.
  intros -> Hl Hbody.
  pose proof (for_range_etats body (fun i => take i l) l (zlen l) eq_refl) as H. cbv beta in H.
  rewrite (take_ge l (length l)) in H by lia. apply H. clear H. intros i x Hi.
  rewrite (take_S_r _ _ x Hi). eapply Hbody; [exact Hi|exact (image_coupe enc pre post l i x Hi)|].
  rewrite zlen_app, (zlen_section enc sz) by by apply Forall_take. unfold zlen.
  apply lookup_lt_Some in Hi. rewrite length_take. lia.
Qed.

Lemma zlen_encode_entry e : entry_ok e -> zlen (encodeCodebookEntry e) = 72.
Proof. intros [He _]. unfold zlen. by rewrite length_encodeCodebookEntry. Qed.
Lemma zlen_encoder_classe c : classe_ok c -> zlen (encoder_classe c) = 520.
Proof. intros [Hc _]. unfold encoder_classe, zlen. by rewrite !length_app, !length_le, length_fmap, Hc. Qed.
Lemma bind_section v : (v ≫= le 4) = section (le 4) v.
Proof. induction v as [|x v IH]; [done|]. cbn [section foldr mbind list_bind]. by f_equal. Qed.
Lemma zlen_encoder_proto p : proto_ok p -> zlen (encoder_proto p) = 2052.
Proof.
  intros (_ & Hv & _). unfold encoder_proto. rewrite bind_section, !zlen_app, !zlen_le, (zlen_section _ 4).
  - unfold zlen. rewrite Hv. done.
  - apply Forall_forall. intros x _. apply zlen_le.
Qed.

Lemma lire_entrees_exact pre l post o : Forall entry_ok l -> o = zlen pre ->
  lire_entrees_disque (pre ++ section encodeCodebookEntry l ++ post) (zlen l) o = Done (inl l).
Proof.
  intros Hl ->. unfold lire_entrees_disque.
  apply (lire_fixe encodeCodebookEntry 72 _ l pre post _ eq_refl).
  { eapply Forall_impl; [exact Hl|]. intros e. apply zlen_encode_entry. }
  intros i x acc a z Hi -> Ha. pose proof (proj1 (Forall_lookup _ _) Hl _ _ Hi) as Hx. cbn in Hx.
  rewrite slice_mid by (rewrite ?zlen_encode_entry by done; lia).
  by rewrite run_bind_done, decode_encode_entry.
Qed.

Lemma lire_classes_exact pre l post o : Forall classe_ok l -> o = zlen pre ->
  lire_classes (pre ++ section encoder_classe l ++ post) (zlen l) o = Done (inl l).
Proof.
  intros Hl ->. unfold lire_classes, classRecSize, EmbeddingDim.
  apply (lire_fixe encoder_classe 520 _ l pre post _ eq_refl).
  { eapply Forall_impl; [exact Hl|]. intros c. apply zlen_encoder_classe. }
  intros i c acc a z Hi -> Ha. pose proof (proj1 (Forall_lookup _ _) Hl _ _ Hi) as (Hw & Hr & Hb & Hq).
  cbv zeta. rewrite <- Ha. unfold encoder_classe. rewrite <- !app_assoc.
  assert (H512 : zlen (u8 <$> Weights c) = 512) by (unfold zlen; by rewrite length_fmap, Hw).
  set (W := u8 <$> Weights c) in *.
  rewrite (slice_mid a W _ (zlen a) (zlen a + 512)) by lia. rewrite run_bind_done, (app_assoc a).
  rewrite (slice_mid (a ++ W) (le 4 (u32 (Bias c))) _ (zlen a + 512) (zlen a + 512 + 4)) by (rewrite ?zlen_app, ?zlen_le; lia).
  rewrite run_bind_done, (app_assoc (a ++ W)).
  rewrite (slice_mid ((a ++ W) ++ _) (le 4 (QHat c))) by (rewrite ?zlen_app, ?zlen_le; lia).
  unfold W.
  rewrite run_bind_done, map_i8_u8 by done. pose proof (u32_range (Bias c)) as Hu. unfold is_u32 in *.
  rewrite !unle_le by (simpl; lia). rewrite i32_u32 by done. by destruct c.
Qed.

Lemma lire_vecteur_exact pre v post base i : length v = 512%nat ->
  Forall (fun x => is_u32 x /\ non_fini x = false) v -> base + 4 = zlen pre ->
  lire_vecteur (pre ++ section (le 4) v ++ post) base i = Done (inl v).
Proof.
  intros Hl Hv Hb. unfold lire_vecteur. replace EmbeddingDim with (zlen v) by (unfold zlen; by rewrite Hl).
  apply (lire_fixe (le 4) 4 _ v pre post _ eq_refl); [apply Forall_forall; intros x _; apply zlen_le|].
  intros d x acc a z Hi -> Ha. pose proof (proj1 (Forall_lookup _ _) Hv _ _ Hi) as [Hx Hf]. cbv zeta.
  rewrite slice_mid by (rewrite ?zlen_le; lia). rewrite run_bind_done, unle_le by (unfold is_u32 in Hx; simpl; lia).
  by rewrite Hf.
Qed.

Lemma lire_protos_exact pre l post o : Forall proto_ok l -> o = zlen pre ->
  lire_protos (pre ++ section encoder_proto l ++ post) (zlen l) o = Done (inl l).
Proof.
  intros Hl ->. unfold lire_protos, floppyProtoRecSize.
  apply (lire_fixe encoder_proto 2052 _ l pre post _ eq_refl).
  { eapply Forall_impl; [exact Hl|]. intros c. apply zlen_encoder_proto. }
  intros i p acc a z Hi -> Ha. pose proof (proj1 (Forall_lookup _ _) Hl _ _ Hi) as (Hc & Hv & Hok).
  cbv zeta. rewrite <- Ha. unfold encoder_proto. rewrite bind_section, <- !app_assoc.
  rewrite (slice_mid a (le 2 (Class_ p))) by (rewrite ?zlen_le; lia).
  rewrite run_bind_done, unle_le by (simpl; lia). zif. rewrite !(app_assoc a).
  rewrite (app_assoc (a ++ _)), lire_vecteur_exact; [|done|done|rewrite !zlen_app, !zlen_le; lia].
  rewrite run_bind_done. by destruct p.
Qed.

(** ** An encoded disk *)

(** What [SaveFloppyFile] can store: the counts and lengths fit their fields. *)
Definition disque_valide (kws : list (list Z)) (entries : list CodebookEntry) (head : list DecisionClass)
    (protos : list FloppyPrototype) : Prop :=
  Forall mot_cle_ok kws /\ zlen kws < 2 ^ 32 /\ Forall entry_ok entries /\ zlen entries < 2 ^ 32 /\
  Forall classe_ok head /\ zlen head < 2 ^ 16 /\ Forall proto_ok protos /\ zlen protos < 2 ^ 16.

Lemma bytes_ok_corps kws entries head protos : disque_valide kws entries head protos ->
  bytes_ok (corps kws entries head protos).
Proof.
  intros (Hk & _ & _ & _ & _ & _ & _ & _). unfold corps.
  repeat apply bytes_ok_app; apply bytes_ok_section, Forall_forall.
  - intros k Hin. apply bytes_ok_app; [apply bytes_ok_le|]. rewrite Forall_forall in Hk. by apply Hk.
  - intros e _. unfold encodeCodebookEntry. repeat apply bytes_ok_app; try apply bytes_ok_le.
    induction (Bitcode e); [constructor|]. apply bytes_ok_app; [apply bytes_ok_le|done].
  - intros c _. repeat apply bytes_ok_app; try apply bytes_ok_le. apply Forall_fmap, Forall_forall.
    intros x _. apply u8_range.
  - intros p _. repeat apply bytes_ok_app; try apply bytes_ok_le. rewrite bind_section.
    apply bytes_ok_section, Forall_forall. intros x _. apply bytes_ok_le.
Qed.

Lemma zlen_mots_cles kws : Forall mot_cle_ok kws -> 2 * zlen kws <= zlen (section encoder_mot_cle kws).
Proof.
  induction 1 as [|k l _ _ IH]; [done|]. cbn [section foldr]. rewrite zlen_app, zlen_cons.
  fold (section encoder_mot_cle l). unfold encoder_mot_cle at 1. rewrite zlen_app, zlen_le. pose proof (zlen_nonneg k). lia.
Qed.

Lemma zlen_corps kws entries head protos : disque_valide kws entries head protos ->
  zlen (corps kws entries head protos) =
  zlen (section encoder_mot_cle kws) + 72 * zlen entries + 520 * zlen head + 2052 * zlen protos.
Proof.
  intros (_ & _ & He & _ & Hc & _ & Hp & _). unfold corps. rewrite !zlen_app.
  rewrite (zlen_section encodeCodebookEntry 72), (zlen_section encoder_classe 520), (zlen_section encoder_proto 2052); [lia|..];
    eapply Forall_impl; eauto using zlen_encode_entry, zlen_encoder_classe, zlen_encoder_proto.
Qed.

(** ** The probe built from the prototypes *)
Section construire.
Context {RabitqCode : Type} (quantifier : list Z -> RabitqCode).

Definition de_classe (c : Z) (l : list FloppyPrototype) : list FloppyPrototype := filter (fun p => Class_ p = c) l.

(** Both classes present: one list of codes per class, in order. *)
Definition sonde_de (l : list FloppyPrototype) : option (RabitqProbe (RabitqCode := RabitqCode)) :=
  match de_classe 0 l, de_classe 1 l with
  | _ :: _, _ :: _ =>
      Some (Probe_ 2 [quantifier ∘ Vector <$> de_classe 0 l; quantifier ∘ Vector <$> de_classe 1 l])
  | _, _ => None
  end.

Lemma de_classe_cons c p l : de_classe c (p :: l) = if decide (Class_ p = c) then p :: de_classe c l else de_classe c l.
Proof. unfold de_classe. by rewrite filter_cons. Qed.

Lemma classe_01 p : proto_ok p -> Class_ p = 0 \/ Class_ p = 1.
Proof. intros [H _]. lia. Qed.

Lemma compter_classes_ok l : Forall proto_ok l ->
  compter_classes l = Done [zlen (de_classe 0 l); zlen (de_classe 1 l)].
Proof.
  intros Hl. unfold compter_classes.
  enough (H : forall a b, foldl compter_un (Done [a; b]) l =
    Done [a + zlen (de_classe 0 l); b + zlen (de_classe 1 l)]) by apply H.
  induction Hl as [|p l Hp _ IH]; intros a b; [by rewrite !Z.add_0_r|]. cbn [foldl]. rewrite !de_classe_cons.
  destruct (classe_01 p Hp) as [E|E]; rewrite E.
  - assert (compter_un (Done [a; b]) p = Done [a + 1; b]) as -> by (unfold compter_un; by rewrite E).
    rewrite IH, decide_True, decide_False by done. by rewrite zlen_cons, Z.add_assoc.
  - assert (compter_un (Done [a; b]) p = Done [a; b + 1]) as -> by (unfold compter_un; by rewrite E).
    rewrite IH. rewrite decide_False, decide_True by done. by rewrite zlen_cons, Z.add_assoc.
Qed.

Lemma ajouter_tous_ok l : Forall proto_ok l -> forall x y,
  ajouter_tous quantifier (Probe_ 2 [x; y]) l =
  Done (Some (Probe_ 2 [x ++ (quantifier ∘ Vector <$> de_classe 0 l); y ++ (quantifier ∘ Vector <$> de_classe 1 l)])).
Proof.
  unfold ajouter_tous. induction 1 as [|p l Hp _ IH]; intros x y; [by rewrite !app_nil_r|]. cbn [foldl].
  rewrite !de_classe_cons. pose proof Hp as (_ & Hv & _).
  assert (Hz : zlen (Vector p) = 512) by (unfold zlen; by rewrite Hv).
  destruct (classe_01 p Hp) as [E|E]; rewrite E.
  - assert (ajouter_un quantifier (Done (Some (Probe_ 2 [x; y]))) p =
      Done (Some (Probe_ 2 [x ++ [quantifier (Vector p)]; y]))) as ->
      by (unfold ajouter_un, AddPrototype; rewrite run_bind_done, E, Hz; done).
    rewrite IH, decide_True, decide_False, fmap_cons, <- app_assoc by done. done.
  - assert (ajouter_un quantifier (Done (Some (Probe_ 2 [x; y]))) p =
      Done (Some (Probe_ 2 [x; y ++ [quantifier (Vector p)]]))) as ->
      by (unfold ajouter_un, AddPrototype; rewrite run_bind_done, E, Hz; done).
    rewrite IH, decide_False, decide_True, fmap_cons, <- app_assoc by done. done.
Qed.

Lemma buildFloppyProbe_ok l : Forall proto_ok l -> buildFloppyProbe quantifier l = Done (inr (sonde_de l)).
Proof.
  intros Hl. unfold buildFloppyProbe. rewrite compter_classes_ok, run_bind_done by done.
  assert (I0 : forall a b : Z, idx [a; b] 0 = Done a) by done.
  assert (I1 : forall a b : Z, idx [a; b] 1 = Done b) by done.
  rewrite I0, I1, !run_bind_done.
  unfold sonde_de. destruct (de_classe 0 l) as [|p0 l0] eqn:E0; [done|].
  destruct (de_classe 1 l) as [|p1 l1] eqn:E1; [by rewrite orb_true_r|].
  destruct (Z.eqb_spec (zlen (p0 :: l0)) 0) as [H|_]; [rewrite zlen_cons in H; pose proof (zlen_nonneg l0); lia|].
  destruct (Z.eqb_spec (zlen (p1 :: l1)) 0) as [H|_]; [rewrite zlen_cons in H; pose proof (zlen_nonneg l1); lia|].
  cbn [orb]. change (NewRabitqProbe 2) with (Some (Probe_ 2 [[]; []] : RabitqProbe (RabitqCode := RabitqCode))).
  cbv iota. rewrite ajouter_tous_ok, run_bind_done, E0, E1 by done. done.
Qed.
End construire.

Section decodage.
Context {RabitqCode : Type} (quantifier : list Z -> RabitqCode) (hmac_sha256 : list Z -> list Z -> list Z).

(** The contents of a disk whose header is [h]. *)
Definition contenu_ok (h : FloppyHeader) (d : FloppyDisk (RabitqCode := RabitqCode)) : Prop :=
  Header_ d = h /\
  zlen (Keywords d) = KwCount h /\ Forall mot_cle_ok (Keywords d) /\
  zlen (DEntries d) = FEntryCount h /\ Forall entry_ok (DEntries d) /\
  zlen (Head d) = HeadClasses h /\ Forall classe_ok (Head d) /\
  zlen (Prototypes d) = ProtoCount h /\ Forall proto_ok (Prototypes d) /\
  probe d = sonde_de quantifier (Prototypes d).

(** The body re-encoded; the reserved octets of the prototypes come from [L]. *)
Definition corps_lu (d : FloppyDisk (RabitqCode := RabitqCode)) (L : list (FloppyPrototype * list Z)) : list Z :=
  section encoder_mot_cle (Keywords d) ++ section encodeCodebookEntry (DEntries d) ++
  section encoder_classe (Head d) ++ section encoder_proto_reserve L.

Lemma decoder_sections_lit image h : bytes_ok image -> 64 <= zlen image -> entete_ok h ->
  wp (decoder_sections quantifier image h) (fun r =>
    match r with
    | inl _ => True
    | inr d => contenu_ok h d /\ exists L, L.*1 = Prototypes d /\ Forall (fun x => length x.2 = 2%nat) L /\
        image = pris image 64 ++ corps_lu d L
    end).
Proof.
  intros Hi Hl (_ & _ & _ & _ & _ & _ & Hne & Hnk & _ & Hnc & Hnp & _). unfold is_u32, is_u16 in *.
  unfold decoder_sections, classRecSize, floppyProtoRecSize, FloppyHeaderSize.
  apply wp_bind. eapply wp_mono; [apply lire_mots_cles_lit; [done|lia|lia]|].
  intros [[o kws]|e]; [|by intros _; apply wp_done]. intros (K1 & K2 & K3 & K4).
  destruct (Z.ltb_spec (zlen image) (o + FEntryCount h * 72)); [by apply wp_done|].
  apply wp_bind. eapply wp_mono; [apply lire_entrees_lit; [done|lia..]|].
  intros [entries|e]; [|done]. intros (E1 & E2 & E3).
  destruct (Z.ltb_spec (zlen image) (o + FEntryCount h * 72 + HeadClasses h * 520)); [by apply wp_done|].
  apply wp_bind. eapply wp_mono; [apply lire_classes_lit; [done|lia..]|].
  intros [head|e]; [|done]. intros (C1 & C2 & C3).
  destruct (Z.ltb_spec (zlen image) (o + FEntryCount h * 72 + HeadClasses h * 520 + ProtoCount h * 2052)); [by apply wp_done|].
  apply wp_bind. eapply wp_mono; [apply lire_protos_lit; [done|lia..]|].
  intros [protos|e]; [|by intros _; apply wp_done]. intros (P1 & P2 & L & L1 & L2 & L3).
  destruct (Z.eqb_spec (o + FEntryCount h * 72 + HeadClasses h * 520 + ProtoCount h * 2052) (zlen image)) as [Hend|];
    [|by apply wp_done]. cbn [negb].
  rewrite buildFloppyProbe_ok, run_bind_done by done. apply wp_done.
  split; [by split_and!|]. exists L. split; [done|]. split; [done|].
  unfold corps_lu. cbn [Keywords DEntries Head]. rewrite !app_assoc, <- K3, <- E2, <- C2, <- L3, Hend.
  unfold pris, zlen. by rewrite Nat2Z.id, take_ge by lia.
Qed.

Lemma decoder_sections_exact E kws entries head protos h :
  disque_valide kws entries head protos -> zlen E = 64 ->
  KwCount h = zlen kws -> FEntryCount h = zlen entries -> HeadClasses h = zlen head -> ProtoCount h = zlen protos ->
  decoder_sections quantifier (E ++ corps kws entries head protos) h =
  Done (inr (Disk h kws entries head protos (sonde_de quantifier protos))).
Proof.
  intros Hd HE Hk He Hh Hp. pose proof (zlen_corps _ _ _ _ Hd) as Hz.
  destruct Hd as (Dk & _ & De & _ & Dh & _ & Dp & _).
  unfold decoder_sections, classRecSize, floppyProtoRecSize, FloppyHeaderSize. rewrite Hk, He, Hh, Hp, zlen_app, HE, Hz.
  set (K := section encoder_mot_cle kws) in *. set (N := section encodeCodebookEntry entries).
  set (C := section encoder_classe head). set (P := section encoder_proto protos).
  change (corps kws entries head protos) with (K ++ N ++ C ++ P).
  assert (HN : zlen N = 72 * zlen entries)
    by (apply (zlen_section encodeCodebookEntry 72); eapply Forall_impl; [exact De|intros x; apply zlen_encode_entry]).
  assert (HC : zlen C = 520 * zlen head)
    by (apply (zlen_section encoder_classe 520); eapply Forall_impl; [exact Dh|intros x; apply zlen_encoder_classe]).
  pose proof (zlen_nonneg entries). pose proof (zlen_nonneg head). pose proof (zlen_nonneg protos).
  pose proof (lire_mots_cles_exact E kws (N ++ C ++ P) 64 Dk (eq_sym HE)) as R1.
  pose proof (lire_entrees_exact (E ++ K) entries (C ++ P) (64 + zlen K) De) as R2.
  pose proof (lire_classes_exact (E ++ K ++ N) head P (64 + zlen K + zlen entries * 72) Dh) as R3.
  pose proof (lire_protos_exact (E ++ K ++ N ++ C) protos [] (64 + zlen K + zlen entries * 72 + zlen head * 520) Dp) as R4.
  fold K in R1. fold N in R2. fold C in R3. fold P in R4. rewrite app_nil_r in R4. 
  repeat rewrite <- app_assoc in R2. repeat rewrite <- app_assoc in R3. repeat rewrite <- app_assoc in R4.
  repeat rewrite zlen_app in R2. repeat rewrite zlen_app in R3. repeat rewrite zlen_app in R4.
  rewrite R1, run_bind_done. zif. rewrite R2, run_bind_done by lia. zif.
  rewrite R3, run_bind_done by lia. zif. rewrite R4, run_bind_done by lia. zif.
  rewrite buildFloppyProbe_ok by done. done.
Qed.

Lemma decodeFloppy_exact isStrict kws entries head protos h hmacKey :
  disque_valide kws entries head protos -> entete_ok h ->
  FMagic h = FloppyMagic -> FVersion h = FloppyVersion -> FVectorDim h = EmbeddingDim ->
  KwCount h = zlen kws -> FEntryCount h = zlen entries -> HeadClasses h = zlen head -> ProtoCount h = zlen protos ->
  CRC32C h = crc32_update 0 (corps kws entries head protos) ->
  controler_sceau hmac_sha256 isStrict h (take 32 (encoder_entete h)) (corps kws entries head protos) hmacKey = None ->
  decodeFloppy quantifier hmac_sha256 isStrict (encoder_entete h ++ corps kws entries head protos) hmacKey =
  Done (inr (Disk h kws entries head protos (sonde_de quantifier protos))).
Proof.
  intros Hd Hok Hm Hv Hdim Hk He Hh Hp Hcrc Hs.
  pose proof (length_encoder_entete h Hok) as HE. assert (HZ : zlen (encoder_entete h) = 64) by (unfold zlen; by rewrite HE).
  pose proof (zlen_corps _ _ _ _ Hd) as Hz. set (body := corps kws entries head protos) in *.
  pose proof (zlen_nonneg body).
  unfold decodeFloppy, FloppyHeaderSize.
  assert (slice (encoder_entete h ++ body) 0 64 = Done (encoder_entete h)) as ->
    by (apply (slice_mid []); [done|by rewrite HZ]). rewrite run_bind_done.
  pose proof (decoder_encoder_entete h [] Hok) as Hdec. rewrite app_nil_r in Hdec. rewrite Hdec.
  rewrite Hm, Hv, Hdim. unfold egaux. rewrite bool_decide_eq_true_2, !Z.eqb_refl by done. cbn [negb].
  assert (slice (encoder_entete h ++ body) 64 (zlen (encoder_entete h ++ body)) = Done body) as ->.
  { rewrite <- (app_nil_r body) at 1. apply slice_mid; [done|]. by rewrite zlen_app, HZ. }
  rewrite run_bind_done.
  assert (slice (encoder_entete h ++ body) 0 32 = Done (take 32 (encoder_entete h))) as ->.
  { rewrite <- (take_drop 32 (encoder_entete h)) at 1. rewrite <- app_assoc.
    apply (slice_mid []); [done|]. unfold zlen. rewrite length_take, HE. done. }
  rewrite run_bind_done, Hs, Hcrc, Z.eqb_refl. cbn [negb].
  destruct (Z.ltb_spec (zlen body) (taille_minimale h)) as [Hlt|_].
  - exfalso. pose proof Hd as (Dk & Dk' & _ & De' & _ & Dh' & _ & Dp'). pose proof (zlen_mots_cles _ Dk).
    pose proof (zlen_nonneg entries). pose proof (zlen_nonneg head). pose proof (zlen_nonneg protos). pose proof (zlen_nonneg kws).
    unfold taille_minimale, classRecSize, floppyProtoRecSize in Hlt. rewrite Hk, He, Hh, Hp in Hlt.
    rewrite (u64_id (zlen kws * 2)), (u64_id (zlen entries * 72)), (u64_id (zlen head * 520)),
      (u64_id (zlen protos * 2052)) in Hlt by (unfold is_u64; lia).
    rewrite (u64_id (zlen kws * 2 + _)) in Hlt by (unfold is_u64; lia).
    rewrite (u64_id (_ + zlen head * 520)) in Hlt by (unfold is_u64; lia).
    rewrite (u64_id (_ + zlen protos * 2052)) in Hlt by (unfold is_u64; lia). lia.
  - by apply decoder_sections_exact.
Qed.
End decodage.

(** ** Reflex searches *)

(** Case-insensitive containment. *)
Definition contient_replie (m l : list Z) : bool := contient (replier <$> m) (replier <$> l).

Lemma prefixe_lu m l : prefixe m l = true <-> forall j x, m !! j = Some x -> l !! j = Some x.
Proof.
  revert l. induction m as [|x m IH]; intros l; cbn; [split; [intros _ j y Hj; by rewrite lookup_nil in Hj|done]|].
  destruct l as [|y l].
  - split; [done|]. intros H. by specialize (H 0%nat x eq_refl).
  - rewrite andb_true_iff, IH, Z.eqb_eq. split.
    + intros [-> H] [|j] z Hz; [done|by apply H].
    + intros H. split; [|intros j z; apply (H (S j))]. specialize (H 0%nat x eq_refl). by injection H as ->.
Qed.

Lemma contient_position m l : contient m l = true <-> exists i, (i + length m <= length l)%nat /\ prefixe m (drop i l) = true.
Proof.
  rewrite contient_spec. split.
  - intros (a & r & ->). exists (length a). rewrite !length_app, drop_app_length. split; [lia|].
    apply prefixe_spec. by exists r.
  - intros (i & Hi & (r & Hr)%prefixe_spec). exists (take i l), r. by rewrite <- Hr, take_drop.
Qed.

Lemma wp_position_egale h n i : 0 <= i -> i + zlen n <= zlen h ->
  wp (position_egale h n i) (fun b => b = prefixe (replier <$> n) (drop (Z.to_nat i) (replier <$> h))).
Proof.
  intros Hi Hl. unfold position_egale. apply wp_bind.
  apply (wp_for_range (fun j _ => forall k x, (k < Z.to_nat j)%nat -> n !! k = Some x ->
    (replier <$> h) !! (Z.to_nat i + k)%nat = Some (replier x))).
  - apply zlen_nonneg.
  - intros k x Hk. lia.
  - intros j [] Hj Hinv. apply wp_bind, wp_idx; [lia|]. intros c1 H1. apply wp_bind, wp_idx; [lia|]. intros c2 H2.
    destruct ((c1 =? c2) || (replier c1 =? replier c2)) eqn:E; apply wp_done.
    + intros k x Hk Hx. destruct (decide (k = Z.to_nat j)) as [->|].
      * rewrite H2 in Hx. injection Hx as <-. rewrite list_lookup_fmap.
        replace (Z.to_nat i + Z.to_nat j)%nat with (Z.to_nat (i + j)) by lia. rewrite H1. cbn. f_equal.
        apply orb_true_iff in E as [E|E]; zbool; congruence.
      * apply Hinv; [lia|done].
    + symmetry. apply not_true_is_false. rewrite prefixe_lu. intros H.
      specialize (H (Z.to_nat j) (replier c2)). rewrite list_lookup_fmap, H2 in H. specialize (H eq_refl).
      rewrite lookup_drop, list_lookup_fmap in H. replace (Z.to_nat i + Z.to_nat j)%nat with (Z.to_nat (i + j)) in H by lia.
      rewrite H1 in H. cbn in H. injection H as H. apply orb_false_iff in E as [_ E]. zbool. done.
  - intros [] Hinv. apply wp_done. symmetry. apply prefixe_lu. intros k x Hk.
    rewrite list_lookup_fmap in Hk. destruct (n !! k) as [y|] eqn:Ey; [|done]. cbn in Hk. injection Hk as <-.
    rewrite lookup_drop. apply Hinv; [|done]. apply lookup_lt_Some in Ey. unfold zlen. lia.
Qed.

Lemma containsSubsliceFold_ok h n : containsSubsliceFold h n = Done (contient_replie n h).
Proof.
  cut (wp (containsSubsliceFold h n) (fun b => b = contient_replie n h)).
  { intros H. by apply wp_exists in H as (? & -> & ->). }
  unfold containsSubsliceFold, contient_replie. destruct (Z.eqb_spec (zlen n) 0) as [Hn|Hn].
  { destruct n as [|x n]; [|rewrite zlen_cons in Hn; pose proof (zlen_nonneg n); lia]. apply wp_done. symmetry.
    apply contient_spec. by exists [], (replier <$> h). }
  destruct (Z.ltb_spec (zlen h) (zlen n)) as [Hl|Hl].
  { apply wp_done. symmetry. apply not_true_is_false. rewrite contient_position. intros (i & Hi & _).
    rewrite !length_fmap in Hi. unfold zlen in Hl. lia. }
  apply wp_bind. apply (wp_for_range (fun i _ => forall k, (k < Z.to_nat i)%nat ->
    prefixe (replier <$> n) (drop k (replier <$> h)) = false)).
  - lia.
  - intros k Hk. lia.
  - intros i [] Hi Hinv. apply wp_bind. eapply wp_mono; [apply wp_position_egale; lia|]. intros b ->.
    destruct (prefixe _ (drop (Z.to_nat i) _)) eqn:E; apply wp_done.
    + symmetry. apply contient_position. exists (Z.to_nat i). split; [|done]. rewrite !length_fmap. unfold zlen in *. lia.
    + intros k Hk. destruct (decide (k = Z.to_nat i)) as [->|]; [done|apply Hinv; lia].
  - intros [] Hinv. apply wp_done. symmetry. apply not_true_is_false. rewrite contient_position.
    intros (k & Hk & Hp). rewrite !length_fmap in Hk. rewrite Hinv in Hp; [done|]. unfold zlen in *. lia.
Qed.

(** The first non-empty keyword found in the payload. *)
Definition mot_trouve (kws : list (list Z)) (payload : list Z) : option (list Z) :=
  head (filter (fun kw => 0 <? zlen kw = true /\ contient_replie kw payload = true) kws).

Lemma contient_replie_court n h : zlen h < zlen n -> contient_replie n h = false.
Proof.
  intros H. apply not_true_is_false. unfold contient_replie. rewrite contient_position. intros (i & Hi & _).
  rewrite !length_fmap in Hi. unfold zlen in H. lia.
Qed.

Lemma chercher_mot_ok kws payload : chercher_mot kws payload = Done (mot_trouve kws payload).
Proof.
  unfold mot_trouve. induction kws as [|kw kws IH]; [done|]. cbn [chercher_mot]. rewrite filter_cons.
  destruct (Z.ltb_spec 0 (zlen kw)) as [H0|H0], (Z.leb_spec (zlen kw) (zlen payload)) as [Hl|Hl]; cbn [andb].
  - rewrite containsSubsliceFold_ok, run_bind_done. destruct (contient_replie kw payload).
    + by rewrite decide_True.
    + rewrite decide_False by (by intros [_ ?]). exact IH.
  - rewrite decide_False; [exact IH|]. intros [_ H]. by rewrite contient_replie_court in H.
  - rewrite decide_False; [exact IH|]. by intros [? _].
  - rewrite decide_False; [exact IH|]. by intros [? _].
Qed.

Lemma MatchKeyword_ok {RabitqCode} (d : option (FloppyDisk (RabitqCode := RabitqCode))) payload :
  MatchKeyword d payload = Done (match d with None => None | Some d => mot_trouve (Keywords d) payload end).
Proof.
  unfold MatchKeyword. destruct d as [d|]; [|done]. destruct (Z.eqb_spec (zlen payload) 0) as [Hz|Hz]; [|apply chercher_mot_ok].
  f_equal. unfold mot_trouve. induction (Keywords d) as [|kw kws IH]; [done|]. rewrite filter_cons, decide_False; [exact IH|].
  intros [H1 H2]. zbool. rewrite contient_replie_court in H2; [done|lia].
Qed.

(** The nearest centroid, as [SearchNearest] of the codebook. *)
Lemma SearchCentroid_ok {RabitqCode} (d : FloppyDisk (RabitqCode := RabitqCode)) q m : 0 <= m ->
  let '(e, dist, found) := SearchCentroid (Some d) (Some q) m in
  if found then dist = codebookHamming q e /\ plus_proche q (DEntries d) m e
  else forall x, x ∈ DEntries d -> m < codebookHamming q x.
Proof.
  intros Hm. unfold SearchCentroid. destruct (Z.eqb_spec (zlen (DEntries d)) 0) as [Hz|Hz].
  { destruct (DEntries d) as [|x l]; [intros x Hx; by apply not_elem_of_nil in Hx|]. rewrite zlen_cons in Hz.
    pose proof (zlen_nonneg l). lia. }
  pose proof (fold_retenir_ok q (DEntries d) m (fun e => codebookHammingBounded q e m) _ []
    ltac:(intros e; exact (hamming_suite_ok q (Bitcode e) 0 m Hm)) (recherche_initiale q m)) as H.
  destruct (fold_left _ (DEntries d) _) as [[best e] found]. cbn [recherche_ok app] in H.
  destruct found; [exact H|apply H].
Qed.

Lemma nearThreatWithin_ok {RabitqCode} (d : FloppyDisk (RabitqCode := RabitqCode)) q r : 0 <= r ->
  nearThreatWithin (Some d) q r = true <-> exists e, e ∈ DEntries d /\ codebookHamming q e <= r.
Proof.
  intros Hr. unfold nearThreatWithin. pose proof (SearchCentroid_ok d q r Hr) as H.
  destruct (SearchCentroid (Some d) (Some q) r) as [[e dist] found]. destruct found; cbn [andb].
  - destruct H as [-> (Hle & i & Hi & _)]. rewrite Z.leb_le. split; [|lia]. intros _. exists e.
    split; [by eapply list_elem_of_lookup_2|lia].
  - split; [done|]. intros (x & Hx & Hle). specialize (H x Hx). lia.
Qed.

(** ** Properties *)

(** Decoding an image of at least 64 octets never panics, whatever the
    octets, and an accepted image obeys the integrity policy: sealed when the
    strict mode asks for it, sealed exactly when a key was given, the HMAC of
    the first 32 octets of the header and of the body equal to the seal, the
    CRC32-C of the body equal to the declared one.  The disk read re-encodes to
    the image octet for octet (nothing is skipped, nothing trails), its sections
    have the declared counts and well-formed records, and its probe holds the
    prototypes of both classes or is absent. *)
Theorem decodeFloppy_sur {RabitqCode} (quantifier : list Z -> RabitqCode) hmac isStrict image hmacKey :
  bytes_ok image -> 64 <= zlen image ->
  wp (decodeFloppy quantifier hmac isStrict image hmacKey) (fun r =>
    match r with
    | inl _ => True
    | inr d =>
        let h := Header_ d in
        let body := drop 64 image in
        let scelle := negb (Z.land (FFlags h) FloppyFlagSealed =? 0) in
        (isStrict = true -> scelle = true) /\ (scelle = true <-> hmacKey <> []) /\
        (scelle = true -> hmac hmacKey (take 32 image ++ body) = Seal h) /\
        crc32_update 0 body = CRC32C h /\ FMagic h = FloppyMagic /\
        contenu_ok quantifier h d /\
        exists L, L.*1 = Prototypes d /\ Forall (fun x => length x.2 = 2%nat) L /\
          image = encoder_entete h ++ corps_lu d L
    end).
Proof.
  intros Hi Hl. unfold decodeFloppy, FloppyHeaderSize.
  apply wp_bind, wp_slice_segment; [lia..|]. change (segment image (Z.to_nat 0) (Z.to_nat 64)) with (take 64 image).
  assert (H64 : length (take 64 image) = 64%nat) by (unfold zlen in Hl; rewrite length_take; lia).
  pose proof (encoder_decoder_entete _ (bytes_ok_take _ 64 Hi) H64) as Henc.
  pose proof (decoder_entete_ok _ (bytes_ok_take _ 64 Hi) H64) as Hok.
  set (h := decoder_entete (take 64 image)) in *.
  destruct (egaux (FMagic h) FloppyMagic) eqn:Em; cbn [negb]; [|by apply wp_done].
  destruct (FVersion h =? FloppyVersion); cbn [negb]; [|by apply wp_done].
  destruct (FVectorDim h =? EmbeddingDim); cbn [negb]; [|by apply wp_done].
  apply wp_bind, wp_slice_segment; [lia..|].
  assert (segment image (Z.to_nat 64) (Z.to_nat (zlen image)) = drop 64 image) as ->.
  { unfold segment. apply take_ge. rewrite length_drop. unfold zlen. lia. }
  apply wp_bind, wp_slice_segment; [lia..|]. change (segment image (Z.to_nat 0) (Z.to_nat 32)) with (take 32 image).
  destruct (controler_sceau _ _ _ _ _ _) as [e|] eqn:Es; [by apply wp_done|].
  destruct (Z.eqb_spec (crc32_update 0 (drop 64 image)) (CRC32C h)) as [Hcrc|]; cbn [negb]; [|by apply wp_done].
  destruct (zlen (drop 64 image) <? taille_minimale h); [by apply wp_done|].
  eapply wp_mono; [by apply decoder_sections_lit|]. intros [e|d]; [done|]. intros (Hd & L & L1 & L2 & L3).
  pose proof Hd as (Hh & _). rewrite Hh. cbv zeta.
  unfold controler_sceau in Es. set (scelle := negb (Z.land (FFlags h) FloppyFlagSealed =? 0)) in *.
  assert (Hstrict : isStrict = true -> scelle = true) by (destruct isStrict, scelle; done).
  assert (isStrict && negb scelle = false) as Hs0 by (destruct isStrict, scelle; done). rewrite Hs0 in Es.
  split; [done|]. apply bool_decide_eq_true in Em.
  split; [|split; [|split; [done|split; [done|split; [done|]]]]].
  - destruct scelle, hmacKey; done.
  - intros Hsc. rewrite Hsc in Es. destruct (zlen hmacKey =? 0); [done|].
    destruct (egaux _ (Seal h)) eqn:Eh; [|done]. by apply bool_decide_eq_true in Eh.
  - exists L. split; [done|]. split; [done|]. rewrite Henc. exact L3.
Qed.

Lemma take32_entete m v f d fl br ne nk crc hc pc s s' : length m = 8%nat ->
  take 32 (encoder_entete (FHeader m v f d fl br ne nk crc hc pc s)) =
  take 32 (encoder_entete (FHeader m v f d fl br ne nk crc hc pc s')).
Proof.
  intros Hm. unfold encoder_entete.
  cbn [FMagic FVersion FamilyID FVectorDim FFlags BlockRadius_ FEntryCount KwCount CRC32C HeadClasses ProtoCount Seal].
  rewrite !app_assoc, !(take_app_le _ s), !(take_app_le _ s'); [done|..]; rewrite !length_app, !length_le, Hm; done.
Qed.

Lemma crc32_update_u32 d : bytes_ok d -> is_u32 (crc32_update 0 d).
Proof.
  intros Hd. unfold crc32_update. apply lxor_range; [lia| |lia]. apply crc_fold_u32; [by vm_compute|done].
Qed.

Lemma aucune_classe_hors_bornes protos : Forall proto_ok protos -> filter (fun p => 1 < Class_ p) protos = [].
Proof.
  induction 1 as [|p l [Hp _] _ IH]; [done|]. rewrite filter_cons, decide_False; [done|lia].
Qed.

(** Saving a disk that fits the format and loading the file gives the disk
    back - header, keywords, centroids, decision head, prototypes, and the probe
    built from them - under the same key, sealed or not, in strict mode as soon
    as a key is given. *)
Theorem disquette_aller_retour {RabitqCode} (quantifier : list Z -> RabitqCode) hmac isStrict
    familyID kws entries head protos blockRadius hmacKey :
  (forall k m, length (hmac k m) = 32%nat) ->
  disque_valide kws entries head protos -> is_u16 familyID -> is_u8 blockRadius ->
  (isStrict = true -> hmacKey <> []) ->
  exists image h, SaveFloppyFile hmac familyID kws entries head protos blockRadius hmacKey = inr image /\
    FamilyID h = familyID /\ BlockRadius_ h = blockRadius /\
    decodeFloppy quantifier hmac isStrict image hmacKey =
    Done (inr (Disk h kws entries head protos (sonde_de quantifier protos))).
Proof.
  intros Hmac Hd Hf Hb Hstrict. pose proof Hd as (_ & Dk & _ & De & _ & Dh & Dp & Dp').
  pose proof (zlen_nonneg kws). pose proof (zlen_nonneg entries). pose proof (zlen_nonneg head). pose proof (zlen_nonneg protos).
  unfold SaveFloppyFile. destruct (Z.ltb_spec 65535 (zlen protos)); [lia|].
  rewrite aucune_classe_hors_bornes by done.
  rewrite !(u32_id (zlen entries)), !(u32_id (zlen kws)), !(u16_id (zlen head)), !(u16_id (zlen protos))
    by (unfold is_u32, is_u16; lia).
  pose proof (crc32_update_u32 _ (bytes_ok_corps _ _ _ _ Hd)) as Hcrc.
  set (body := corps kws entries head protos) in *.
  set (hdr := fun flags seal => FHeader FloppyMagic FloppyVersion familyID EmbeddingDim flags blockRadius
    (zlen entries) (zlen kws) (crc32_update 0 body) (zlen head) (zlen protos) seal).
  assert (Hok : forall fl s, is_u8 fl -> length s = 32%nat -> entete_ok (hdr fl s)).
  { intros fl s Hfl Hs. unfold hdr, entete_ok; cbn -[crc32_update body]. unfold is_u8, is_u16, is_u32 in *. split_and!; try done; lia. }
  destruct (Z.ltb_spec 0 (zlen hmacKey)) as [Hk|Hk].
  - change (take 32 (encoder_entete _)) with (take 32 (encoder_entete (hdr FloppyFlagSealed (replicate 32 0)))).
    set (sceau := hmac hmacKey (take 32 (encoder_entete (hdr FloppyFlagSealed (replicate 32 0))) ++ body)).
    assert (Hc : copy_into (replicate 32 0) sceau = sceau).
    { unfold copy_into. rewrite length_replicate. unfold sceau. rewrite Hmac, take_ge by (rewrite Hmac; lia). apply app_nil_r. }
    rewrite Hc. eexists _, (hdr FloppyFlagSealed sceau). split; [done|]. split; [done|]. split; [done|].
    apply decodeFloppy_exact; [done|apply Hok; [by vm_compute|apply Hmac]|done..|].
    unfold controler_sceau. change (negb (Z.land (FFlags (hdr FloppyFlagSealed sceau)) FloppyFlagSealed =? 0)) with true.
    cbn [negb]. rewrite andb_false_r. destruct (Z.eqb_spec (zlen hmacKey) 0); [lia|].
    change (Seal (hdr FloppyFlagSealed sceau)) with sceau. unfold hdr at 1.
    rewrite (take32_entete _ _ _ _ _ _ _ _ _ _ _ _ (replicate 32 0)) by done.
    unfold egaux. by rewrite bool_decide_eq_true_2.
  - assert (hmacKey = []) as ->.
    { destruct hmacKey as [|x l]; [done|]. rewrite zlen_cons in Hk. pose proof (zlen_nonneg l). lia. }
    eexists _, (hdr 0 (replicate 32 0)). split; [done|]. split; [done|]. split; [done|].
    apply decodeFloppy_exact; [done|apply Hok; [by vm_compute|done]|done..|].
    destruct isStrict; [by specialize (Hstrict eq_refl)|]. done.
Qed.

Lemma mot_trouve_spec kws payload :
  match mot_trouve kws payload with
  | Some kw => exists a b, kws = a ++ kw :: b /\ kw <> [] /\ contient_replie kw payload = true /\
      forall k, k ∈ a -> k = [] \/ contient_replie k payload = false
  | None => forall k, k ∈ kws -> k = [] \/ contient_replie k payload = false
  end.
Proof.
  unfold mot_trouve. induction kws as [|kw kws IH]; [intros k Hk; by apply not_elem_of_nil in Hk|]. rewrite filter_cons.
  case_decide as Hd.
  - destruct Hd as [H0 H1]. exists [], kws. split; [done|]. split; [by intros ->|]. split; [done|].
    intros k Hk. by apply not_elem_of_nil in Hk.
  - assert (Hkw : kw = [] \/ contient_replie kw payload = false).
    { destruct (contient_replie kw payload) eqn:E; [left|by right]. destruct kw as [|x kw]; [done|]. exfalso. apply Hd.
      split; [|done]. rewrite zlen_cons. pose proof (zlen_nonneg kw). apply Z.ltb_lt. lia. }
    destruct (head (filter _ kws)) as [k'|].
    + destruct IH as (a & b & -> & H1 & H2 & H3). exists (kw :: a), b. split; [done|]. split; [done|]. split; [done|].
      intros k [->|Hk]%elem_of_cons; [done|by apply H3].
    + intros k [->|Hk]%elem_of_cons; [done|by apply IH].
Qed.

(** The keyword reflex is exact: it reports the first non-empty keyword of
    the disk that occurs in the payload up to ASCII case, and reports nothing
    only when none occurs. *)
Theorem mot_cle_exact {RabitqCode} (d : FloppyDisk (RabitqCode := RabitqCode)) payload :
  match MatchKeyword (Some d) payload with
  | Done (Some kw) => exists a b, Keywords d = a ++ kw :: b /\ kw <> [] /\ contient_replie kw payload = true /\
      forall k, k ∈ a -> k = [] \/ contient_replie k payload = false
  | Done None => forall k, k ∈ Keywords d -> k = [] \/ contient_replie k payload = false
  | _ => False
  end.
Proof. rewrite MatchKeyword_ok. exact (mot_trouve_spec (Keywords d) payload). Qed.

(** ** Witnesses *)

Definition hmac_exemple (k m : list Z) : list Z := replicate 32 (u8 (somme k + somme m)).
Definition quantifier_exemple (v : list Z) : list Z := take 2 v.
Definition classe_exemple : DecisionClass := Classe (replicate 512 (-3)) (-7) 1056964608.
Definition proto_exemple (c : Z) : FloppyPrototype := Proto c (replicate 512 1065353216).

Lemma disque_exemple_valide :
  disque_valide [octets "nc -e"; octets "curl"] [entree_exemple] [classe_exemple] [proto_exemple 0; proto_exemple 1].
Proof.
  assert (Hp : forall c, 0 <= c <= 1 -> proto_ok (proto_exemple c)).
  { intros c Hc. split; [exact Hc|]. split; [done|]. apply Forall_replicate. by vm_compute. }
  split; [|split; [done|split; [|split; [done|split; [|split; [done|split; [|done]]]]]]].
  - repeat (apply Forall_cons; split; [split; [apply octets_ok|done]|]). by apply Forall_nil.
  - apply Forall_singleton. split; [done|]. split; [|by vm_compute].
    repeat (apply Forall_cons; split; [by vm_compute|]). by apply Forall_nil.
  - apply Forall_singleton. split; [done|]. split; [apply Forall_replicate; lia|]. by vm_compute.
  - apply Forall_cons. split; [apply Hp; lia|]. apply Forall_singleton, Hp. lia.
Qed.

Lemma disquette_aller_retour_witness : exists image h,
  SaveFloppyFile hmac_exemple 2 [octets "nc -e"; octets "curl"] [entree_exemple] [classe_exemple]
    [proto_exemple 0; proto_exemple 1] 9 [1; 2] = inr image /\ FamilyID h = 2 /\ BlockRadius_ h = 9 /\
  decodeFloppy quantifier_exemple hmac_exemple true image [1; 2] =
    Done (inr (Disk h [octets "nc -e"; octets "curl"] [entree_exemple] [classe_exemple]
      [proto_exemple 0; proto_exemple 1] (sonde_de quantifier_exemple [proto_exemple 0; proto_exemple 1]))).
Proof.
  apply (disquette_aller_retour quantifier_exemple hmac_exemple true 2 [octets "nc -e"; octets "curl"]
    [entree_exemple] [classe_exemple] [proto_exemple 0; proto_exemple 1] 9 [1; 2]).
  - intros k m. apply length_replicate.
  - exact disque_exemple_valide.
  - split; reflexivity || discriminate.
  - split; reflexivity || discriminate.
  - intros _. discriminate.
Defined.

Definition image_exemple : list Z :=
  match SaveFloppyFile hmac_exemple 2 [octets "nc -e"] [] [] [] 9 [] with inr i => i | inl _ => [] end.

Lemma decodeFloppy_sur_witness :
  bytes_ok image_exemple /\ 64 <= zlen image_exemple /\
  wp (decodeFloppy quantifier_exemple hmac_exemple false image_exemple []) (fun r =>
    match r with inl _ => True | inr d => crc32_update 0 (drop 64 image_exemple) = CRC32C (Header_ d) end).
Proof.
  assert (Hb : bytes_ok image_exemple) by (apply octets_valides_ok; vm_compute; reflexivity).
  assert (Hl : 64 <= zlen image_exemple) by (vm_compute; discriminate).
  split; [exact Hb|]. split; [exact Hl|].
  eapply wp_mono; [apply (decodeFloppy_sur quantifier_exemple hmac_exemple false image_exemple [] Hb Hl)|].
  intros [e|d]; [exact (fun _ => I)|]. intros (_ & _ & _ & H & _). exact H.
Defined.

(** [SaveFloppyFile] does not bound keywords: the length of one of 65536 octets
    wraps to zero, and the reader takes its octets for the next sections. *)
Lemma mot_cle_trop_long k : zlen k = 65536 -> encoder_mot_cle k = [0; 0] ++ k.
Proof. intros H. unfold encoder_mot_cle. by rewrite H. Qed.
