(* ===== verification/Lexique.v ===== *)
(** The lexical reflexes of the cascade (src/internal/engine/inference_cascade.go):
    netcat with an execution option, registrable domains, encoding characters.
    The theorems: the hand-written scanners terminate and decide exactly the
    languages given by a tokenisation and by a splitting into labels. *)
From S2P Require Import Prelude Texte Correlateur.

(** ** Scanners *)

Definition dnsHasEncodingChars (qname : list Z) : bool :=
  existsb (fun c => (c =? 43) || (c =? 47) || (c =? 61)) qname.

Definition twoLevelSuffixes : list (list Z) := octets <$>
  ["com.br"; "net.br"; "org.br"; "gov.br"; "co.uk"; "org.uk"; "ac.uk"; "gov.uk"; "me.uk";
   "com.au"; "net.au"; "org.au"; "edu.au"; "co.jp"; "ne.jp"; "or.jp"; "ac.jp";
   "co.nz"; "co.za"; "co.in"; "co.kr"; "co.il"; "co.id"; "co.th";
   "com.cn"; "net.cn"; "org.cn"; "com.hk"; "com.tw"; "com.sg"; "com.my";
   "com.mx"; "com.ar"; "com.co"; "com.pe"; "com.tr"; "com.ua"; "com.pl";
   "com.eg"; "com.sa"; "com.ng"; "com.pk"; "com.vn"; "com.ph"]%string.

Definition abaisser (c : Z) : Z := if (65 <=? c) && (c <=? 90) then u8 (c + 32) else c.

Definition equalFoldASCII (b s : list Z) : run bool :=
  o ← for_range (zlen b) tt (fun i _ =>
        c ← idx b i; x ← idx s i;
        if negb (abaisser c =? x) then Done (inr false) else Done (inl (B := bool) tt));
  Done (match o with inl _ => true | inr r => r end).

Fixpoint suffixe_public (suffixes : list (list Z)) (suffix : list Z) : run bool :=
  match suffixes with
  | [] => Done false
  | s :: r =>
      if zlen suffix =? zlen s then
        e ← equalFoldASCII suffix s; if (e : bool) then Done true else suffixe_public r suffix
      else suffixe_public r suffix
  end.

(** Host characters, the dot aside. *)
Definition hote (c : Z) : bool :=
  ((97 <=? c) && (c <=? 122)) || ((65 <=? c) && (c <=? 90)) || ((48 <=? c) && (c <=? 57)) || (c =? 45).

(** The trailing dot of a fully qualified name. *)
Definition sans_point (name : list Z) : run (list Z) :=
  let n := zlen name in
  if 0 <? n then c ← idx name (n - 1); if c =? 46 then slice name 0 (n - 1) else Done name else Done name.

Definition isApexDomain (name : list Z) : run bool :=
  name ← sans_point name;
  if zlen name =? 0 then Done false else
  o ← for_range (zlen name) (1, -1, -1) (fun i '(labels, lastDot, prevDot) =>
        c ← idx name i;
        if c =? 46 then
          if (i =? 0) || (i =? lastDot + 1) then Done (inr false)
          else Done (inl (labels + 1, i, lastDot))
        else if hote c then Done (inl (labels, lastDot, prevDot))
        else Done (inr (A := Z * Z * Z) false));
  match o with
  | inr b => Done b
  | inl (labels, lastDot, prevDot) =>
      if lastDot =? zlen name - 1 then Done false else
      if labels =? 2 then Done true else
      if labels =? 3 then
        suffix ← slice name (prevDot + 1) (zlen name);
        suffixe_public twoLevelSuffixes suffix
      else Done false
  end.

Definition est_separateur (c : Z) : bool :=
  (c =? 124) || (c =? 59) || (c =? 38) || (c =? 10) || (c =? 40) || (c =? 41) || (c =? 96).
Definition est_blanc (c : Z) : bool := (c =? 32) || (c =? 9) || (c =? 13) || (c =? 34) || (c =? 39).
Definition fin_mot (d : Z) : bool :=
  (d =? 32) || (d =? 9) || (d =? 13) || (d =? 10) || (d =? 124) || (d =? 59) || (d =? 38) || (d =? 34) ||
  (d =? 39) || (d =? 40) || (d =? 41) || (d =? 96).

(** The part before the first [c]. *)
Fixpoint avant (c : Z) (l : list Z) : list Z :=
  match l with [] => [] | x :: r => if x =? c then [] else x :: avant c r end.

Definition isNetcatBinary (tok : list Z) : bool :=
  let k := LastIndexByte tok 47 in
  let tok := if 0 <=? k then drop (Z.to_nat (k + 1)) tok else tok in
  let s := avant 46 tok in
  egaux s (octets "nc") || egaux s (octets "ncat") || egaux s (octets "netcat").

Definition lettre (c : Z) : bool := ((97 <=? c) && (c <=? 122)) || ((65 <=? c) && (c <=? 90)).

Definition isNetcatExecOption (tok : list Z) : bool :=
  match tok with
  | t0 :: t1 :: r =>
      if negb (t0 =? 45) then false else
      if t1 =? 45 then
        let s := avant 61 r in egaux s (octets "exec") || egaux s (octets "sh-exec")
      else if (t1 =? 101) || (t1 =? 99) then
        match r with [] => true | t2 :: _ => t2 =? 47 end
      else forallb lettre (t1 :: r) && (List.last tok 0 =? 101)
  | _ => false
  end.

(** End of the word that starts at [i]. *)
Definition fin_du_mot (cmd : list Z) (i : Z) : run Z :=
  loop (fun j => if j <? zlen cmd then d ← idx cmd j; if fin_mot d then Done (inr j) else Done (inl (j + 1))
                 else Done (inr j)) (S (length cmd)) i.

Definition netcatWithExec (cmd : list Z) : run bool :=
  loop (fun '(inNetcat, i) =>
    if i <? zlen cmd then
      c ← idx cmd i;
      if est_separateur c then Done (inl (false, i + 1)) else
      if est_blanc c then Done (inl (inNetcat, i + 1)) else
      j ← fin_du_mot cmd i;
      tok ← slice cmd i j;
      if (inNetcat : bool) && isNetcatExecOption tok then Done (inr true)
      else Done (inl (inNetcat || isNetcatBinary tok, j))
    else Done (inr false)) (S (length cmd)) (false, 0).

(** ** Tokens of a command line *)

(** [None] is a command separator, [Some t] a word. *)
Definition clore (cur : list Z) (r : list (option (list Z))) : list (option (list Z)) :=
  match cur with [] => r | _ => Some cur :: r end.
Fixpoint jetons (cur l : list Z) : list (option (list Z)) :=
  match l with
  | [] => clore cur []
  | c :: l =>
      if est_separateur c then clore cur (None :: jetons [] l)
      else if est_blanc c then clore cur (jetons [] l)
      else jetons (cur ++ [c]) l
  end.

(** One pass over the tokens. *)
Fixpoint balayer (inNetcat : bool) (toks : list (option (list Z))) : bool :=
  match toks with
  | [] => false
  | None :: r => balayer false r
  | Some t :: r => if inNetcat && isNetcatExecOption t then true else balayer (inNetcat || isNetcatBinary t) r
  end.

Lemma fin_mot_eq c : fin_mot c = est_separateur c || est_blanc c.
Proof.
  unfold fin_mot, est_separateur, est_blanc.
  destruct (c =? 32), (c =? 9), (c =? 13), (c =? 10), (c =? 124), (c =? 59), (c =? 38), (c =? 34), (c =? 39),
    (c =? 40), (c =? 41), (c =? 96); reflexivity.
Qed.

Lemma drop_idx (l : list Z) i : 0 <= i < zlen l -> exists c, idx l i = Done c /\ drop (Z.to_nat i) l = c :: drop (Z.to_nat (i + 1)) l.
Proof.
  intros Hi. destruct (lookup_lt_is_Some_2 l (Z.to_nat i)) as [c Hc]; [unfold zlen in Hi; lia|].
  exists c. split; [by apply idx_lookup; [lia|]|]. rewrite (drop_S _ _ _ Hc). do 2 f_equal. lia.
Qed.

(** The word read by the inner loop is the run the tokeniser accumulates. *)
Lemma wp_fin_du_mot cmd i : 0 <= i <= zlen cmd ->
  wp (fin_du_mot cmd i) (fun j => i <= j <= zlen cmd /\
    Forall (fun c => fin_mot c = false) (segment cmd (Z.to_nat i) (Z.to_nat j)) /\
    (j = zlen cmd \/ exists d r, drop (Z.to_nat j) cmd = d :: r /\ fin_mot d = true)).
Proof.
  intros Hi. unfold fin_du_mot.
  apply (wp_loop _ (fun j => i <= j <= zlen cmd /\
    Forall (fun c => fin_mot c = false) (segment cmd (Z.to_nat i) (Z.to_nat j))) (fun j => zlen cmd - j)).
  - intros j [Hj Hs]. destruct (Z.ltb_spec j (zlen cmd)) as [Hlt|Hge]; [|apply wp_done; split; [done|]; split; [done|left; lia]].
    destruct (drop_idx cmd j) as (d & Hd & Hdr); [lia|]. rewrite Hd, run_bind_done.
    destruct (fin_mot d) eqn:Ed; apply wp_done.
    + split; [lia|]. split; [done|]. right. by exists d, (drop (Z.to_nat (j + 1)) cmd).
    + split; [|lia]. split; [lia|].
      assert (segment cmd (Z.to_nat i) (Z.to_nat (j + 1)) = segment cmd (Z.to_nat i) (Z.to_nat j) ++ [d]) as ->.
      { unfold segment. replace (Z.to_nat (j + 1) - Z.to_nat i)%nat with (S (Z.to_nat j - Z.to_nat i)) by lia.
        apply take_S_r. rewrite lookup_drop. replace (Z.to_nat i + (Z.to_nat j - Z.to_nat i))%nat with (Z.to_nat j) by lia.
        pose proof (lookup_drop cmd (Z.to_nat j) 0) as Hl. rewrite Hdr, Nat.add_0_r in Hl. by symmetry. }
      apply Forall_app. split; [done|by apply Forall_singleton].
  - split; [lia|]. unfold segment. rewrite Nat.sub_diag. constructor.
  - unfold zlen in *. lia.
Qed.

Lemma jetons_mot cur m r : Forall (fun c => fin_mot c = false) m -> jetons cur (m ++ r) = jetons (cur ++ m) r.
Proof.
  intros Hm. revert cur. induction Hm as [|c m Hc _ IH]; intros cur; [by rewrite app_nil_r|].
  rewrite fin_mot_eq in Hc. apply orb_false_iff in Hc as [H1 H2]. cbn [app jetons].
  rewrite H1, H2, IH. by rewrite <- app_assoc.
Qed.

Lemma jetons_fin cur r : cur <> [] -> (r = [] \/ exists d q, r = d :: q /\ fin_mot d = true) ->
  jetons cur r = Some cur :: jetons [] r.
Proof.
  intros Hc [->|(d & q & -> & Hd)]; [by destruct cur|]. rewrite fin_mot_eq in Hd. cbn [jetons].
  destruct (est_separateur d); [by destruct cur|]. cbn in Hd. rewrite Hd. by destruct cur.
Qed.

Lemma netcatWithExec_balayer cmd : netcatWithExec cmd = Done (balayer false (jetons [] cmd)).
Proof.
  cut (wp (netcatWithExec cmd) (fun b => b = balayer false (jetons [] cmd))).
  { intros H. by apply wp_exists in H as (? & -> & ->). }
  unfold netcatWithExec.
  apply (wp_loop _ (fun '(b, i) => 0 <= i <= zlen cmd /\
    balayer b (jetons [] (drop (Z.to_nat i) cmd)) = balayer false (jetons [] cmd)) (fun s => zlen cmd - s.2)).
  - intros [b i] [Hi Hb]. destruct (Z.ltb_spec i (zlen cmd)) as [Hlt|Hge].
    2: { apply wp_done. rewrite <- Hb, drop_ge by (unfold zlen in *; lia). done. }
    destruct (drop_idx cmd i) as (c & Hc & Hdr); [lia|]. rewrite Hc, run_bind_done.
    destruct (est_separateur c) eqn:E1.
    { apply wp_done. cbn [snd]. split; [|lia]. split; [lia|]. rewrite <- Hb, Hdr. cbn [jetons]. by rewrite E1. }
    destruct (est_blanc c) eqn:E2.
    { apply wp_done. cbn [snd]. split; [|lia]. split; [lia|]. rewrite <- Hb, Hdr. cbn [jetons]. by rewrite E1, E2. }
    apply wp_bind. eapply wp_mono; [apply wp_fin_du_mot; lia|]. intros j (Hj & Hm & Hend).
    apply wp_bind, wp_slice; [lia..|].
    set (tok := take _ _). assert (Htok : tok = segment cmd (Z.to_nat i) (Z.to_nat j))
      by (unfold tok, segment; f_equal; lia).
    assert (Hsplit : drop (Z.to_nat i) cmd = tok ++ drop (Z.to_nat j) cmd).
    { rewrite Htok. unfold segment. rewrite <- (take_drop (Z.to_nat j - Z.to_nat i) (drop (Z.to_nat i) cmd)) at 1.
      rewrite drop_drop. do 2 f_equal. lia. }
    assert (Hji : i < j).
    { destruct Hend as [->|(d & r & Hd & Ed)]; [done|]. destruct (decide (i = j)) as [->|]; [|lia].
      rewrite Hdr in Hd. injection Hd as -> _. rewrite fin_mot_eq, E1, E2 in Ed. done. }
    assert (Hne : tok <> []).
    { intros H0. apply (f_equal length) in H0. rewrite Htok in H0. unfold segment in H0.
      rewrite length_take, length_drop in H0. cbn in H0. unfold zlen in *. lia. }
    assert (Hj0 : jetons [] (drop (Z.to_nat i) cmd) = Some tok :: jetons [] (drop (Z.to_nat j) cmd)).
    { rewrite Hsplit, jetons_mot by by rewrite Htok. cbn [app]. apply jetons_fin; [done|].
      destruct Hend as [->|(d & r & Hd & Ed)]; [left; apply drop_ge; unfold zlen; lia|right; by exists d, r]. }
    rewrite Hj0 in Hb. cbn [balayer] in Hb.
    destruct (b && isNetcatExecOption tok); apply wp_done; [done|]. cbn [snd]. split; [|lia]. split; [lia|done].
  - split; [pose proof (zlen_nonneg cmd); lia|]. done.
  - cbn [snd]. unfold zlen. lia.
Qed.

(** A netcat invocation with an execution option inside one simple command. *)
Definition invocation (toks : list (option (list Z))) : Prop :=
  exists a b y o z, toks = a ++ Some b :: y ++ Some o :: z /\ isNetcatBinary b = true /\
    isNetcatExecOption o = true /\ None ∉ y.

Lemma balayer_ok toks : forall b, balayer b toks = true <->
  invocation toks \/ (b = true /\ exists y o z, toks = y ++ Some o :: z /\ isNetcatExecOption o = true /\ None ∉ y).
Proof.
  induction toks as [|[t|] toks IH]; intros b; cbn [balayer].
  - split; [done|]. intros [(a & c & y & o & z & H & _)|(_ & y & o & z & H & _)]; by destruct a + destruct y.
  - destruct (b && isNetcatExecOption t) eqn:E.
    + apply andb_true_iff in E as [-> E]. split; [|done]. intros _. right. split; [done|].
      exists [], t, toks. split; [done|]. split; [done|apply not_elem_of_nil].
    + rewrite IH. split.
      * intros [(a & c & y & o & z & -> & H)|(Hb & y & o & z & -> & Ho & Hy)].
        -- left. by exists (Some t :: a), c, y, o, z.
        -- apply orb_true_iff in Hb as [->|Hb].
           ++ right. split; [done|]. exists (Some t :: y), o, z. split; [done|]. split; [done|].
              rewrite elem_of_cons. by intros [?|?].
           ++ left. by exists [], t, y, o, z.
      * intros [([|x a] & c & y & o & z & H & Hc & Ho & Hy)|(-> & [|x y] & o & z & H & Ho & Hy)].
        -- simplify_eq/=. right. rewrite Hc, orb_true_r. split; [done|]. by exists y, o, z.
        -- simplify_eq/=. left. by exists a, c, y, o, z.
        -- simplify_eq/=. rewrite Ho in E. done.
        -- simplify_eq/=. right. split; [done|]. exists y, o, z. split; [done|]. split; [done|].
           intros Hn. apply Hy. apply elem_of_cons. by right.
  - rewrite IH. split.
    + intros [(a & c & y & o & z & -> & H)|[? _]]; [|done]. left. by exists (None :: a), c, y, o, z.
    + intros [([|x a] & c & y & o & z & H & Hc)|(_ & [|x y] & o & z & H & Ho & Hy)]; simplify_eq/=.
      * left. by exists a, c, y, o, z.
      * exfalso. apply Hy, elem_of_cons. by left.
Qed.

(** ** Labels of a name *)

Fixpoint decoupe (cur l : list Z) : list (list Z) :=
  match l with
  | [] => [cur]
  | c :: l => if c =? 46 then cur :: decoupe [] l else decoupe (cur ++ [c]) l
  end.

Lemma decoupe_app l1 : forall cur, exists L k, decoupe cur l1 = L ++ [k] /\
  forall l2, decoupe cur (l1 ++ l2) = L ++ decoupe k l2.
Proof.
  induction l1 as [|c l1 IH]; intros cur; [by exists [], cur|]. cbn [decoupe app].
  destruct (c =? 46); [|apply IH]. destruct (IH []) as (L & k & H1 & H2). exists (cur :: L), k.
  split; [by rewrite H1|]. intros l2. by rewrite H2.
Qed.

Lemma decoupe_tete l : forall k, exists r T, decoupe k l = (k ++ r) :: T.
Proof.
  induction l as [|c l IH]; intros k; [exists [], []; by rewrite app_nil_r|]. cbn [decoupe].
  destruct (c =? 46); [exists [], (decoupe [] l); by rewrite app_nil_r|].
  destruct (IH (k ++ [c])) as (r & T & H). exists (c :: r), T. rewrite H. by rewrite <- app_assoc.
Qed.

Definition libelle_ok (k : list Z) : Prop := k <> [] /\ Forall (fun c => hote c = true) k.

(** A name [domain.suffix] or [domain.second-level.suffix]. *)
Definition enregistrable (name : list Z) : Prop :=
  Forall libelle_ok (decoupe [] name) /\
  match decoupe [] name with
  | [_; _] => True
  | [_; b; c] => (abaisser <$> (b ++ 46 :: c)) ∈ twoLevelSuffixes
  | _ => False
  end.

Lemma joindre_decoupe l : forall cur L k, decoupe cur l = L ++ [k] ->
  exists p, cur ++ l = p ++ k /\ match last L with None => p = [] | Some x => exists q, p = q ++ x ++ [46] end.
Proof.
  induction l as [|c l IH]; intros cur L k H; cbn [decoupe] in H.
  - destruct L as [|x L]; [|destruct L; done]. injection H as ->. exists []. by rewrite app_nil_r.
  - destruct (Z.eqb_spec c 46) as [->|Hc].
    + destruct L as [|x L]; [destruct (decoupe_tete l []) as (? & ? & E); rewrite E in H; done|].
      injection H as <- H. destruct (IH [] L k H) as (p & Hp & Hl). exists (cur ++ 46 :: p).
      split; [cbn in Hp; rewrite Hp; by rewrite <- app_assoc|].
      destruct L as [|y L]; [cbn in *; subst p; by exists []|].
      change (last (cur :: y :: L)) with (last (y :: L)). destruct (last (y :: L)) as [x|] eqn:E; [|by apply last_None in E].
      destruct Hl as (q & ->). exists (cur ++ 46 :: q). by rewrite <- app_assoc.
    + destruct (IH (cur ++ [c]) L k H) as (p & Hp & Hl). exists p. split; [|done]. rewrite <- Hp. by rewrite <- app_assoc.
Qed.

Lemma equalFoldASCII_ok b s : zlen b = zlen s -> equalFoldASCII b s = Done (bool_decide ((abaisser <$> b) = s)).
Proof.
  intros Hl. cut (wp (equalFoldASCII b s) (fun r => r = bool_decide ((abaisser <$> b) = s))).
  { intros H. by apply wp_exists in H as (? & -> & ->). }
  unfold equalFoldASCII. apply wp_bind.
  apply (wp_for_range (fun i _ => forall k, (k < Z.to_nat i)%nat -> (abaisser <$> b) !! k = s !! k)).
  - apply zlen_nonneg.
  - intros k Hk. lia.
  - intros i [] Hi Hinv. apply wp_bind, wp_idx; [done|]. intros c Hc. apply wp_bind, wp_idx; [lia|]. intros x Hx.
    destruct (Z.eqb_spec (abaisser c) x) as [E|E]; cbn [negb]; apply wp_done.
    + intros k Hk. destruct (decide (k = Z.to_nat i)) as [->|]; [|apply Hinv; lia].
      rewrite list_lookup_fmap, Hc, Hx. cbn. by rewrite E.
    + symmetry. apply bool_decide_eq_false_2. intros Heq. apply E.
      assert (H : (abaisser <$> b) !! Z.to_nat i = s !! Z.to_nat i) by by rewrite Heq.
      rewrite list_lookup_fmap, Hc, Hx in H. by injection H.
  - intros [] Hinv. apply wp_done. symmetry. apply bool_decide_eq_true_2. apply list_eq. intros k.
    destruct (decide (k < length b)%nat); [apply Hinv; unfold zlen in *; lia|].
    unfold zlen in Hl. rewrite !lookup_ge_None_2; [done|lia|rewrite length_fmap; lia].
Qed.

Lemma suffixe_public_ok l suffix : suffixe_public l suffix = Done (bool_decide ((abaisser <$> suffix) ∈ l)).
Proof.
  induction l as [|s l IH]; [done|]. cbn [suffixe_public].
  destruct (Z.eqb_spec (zlen suffix) (zlen s)) as [Hl|Hl].
  - rewrite equalFoldASCII_ok, run_bind_done by done.
    destruct (decide ((abaisser <$> suffix) = s)) as [E|E];
      [rewrite (bool_decide_eq_true_2 _ E)|rewrite (bool_decide_eq_false_2 _ E)].
    + f_equal. symmetry. apply bool_decide_eq_true_2. rewrite E. apply elem_of_cons. by left.
    + rewrite IH. f_equal. apply bool_decide_ext. rewrite elem_of_cons. naive_solver.
  - rewrite IH. f_equal. apply bool_decide_ext. rewrite elem_of_cons. split; [by right|]. intros [E|?]; [|done].
    exfalso. apply Hl. rewrite <- E. unfold zlen. by rewrite length_fmap.
Qed.

(** State of the scan after [i] characters: complete labels [L], current one [k]. *)
Definition etat_apex (name : list Z) (i : Z) (s : Z * Z * Z) : Prop :=
  let '(labels, lastDot, prevDot) := s in
  exists L k, decoupe [] (take (Z.to_nat i) name) = L ++ [k] /\
    (forall l2, decoupe [] (take (Z.to_nat i) name ++ l2) = L ++ decoupe k l2) /\
    Forall libelle_ok L /\ Forall (fun c => hote c = true) k /\
    labels = zlen L + 1 /\ lastDot = i - zlen k - 1 /\
    prevDot = match last L with None => -1 | Some x => lastDot - zlen x - 1 end.

Lemma decoupe_reste name i L k c r :
  (forall l2, decoupe [] (take (Z.to_nat i) name ++ l2) = L ++ decoupe k l2) ->
  drop (Z.to_nat i) name = c :: r -> decoupe [] name = L ++ decoupe k (c :: r).
Proof. intros H Hd. rewrite <- H, <- Hd. by rewrite take_drop. Qed.

Lemma take_suivant (l : list Z) i c r : 0 <= i -> drop (Z.to_nat i) l = c :: r ->
  take (Z.to_nat (i + 1)) l = take (Z.to_nat i) l ++ [c].
Proof.
  intros Hi Hd. replace (Z.to_nat (i + 1)) with (S (Z.to_nat i)) by lia. apply take_S_r.
  pose proof (lookup_drop l (Z.to_nat i) 0) as H. by rewrite Hd, Nat.add_0_r in H.
Qed.

Lemma apex_pas name i s : 0 <= i < zlen name -> etat_apex name i s ->
  wp (let '(labels, lastDot, prevDot) := s in
      c ← idx name i;
      if c =? 46 then
        if (i =? 0) || (i =? lastDot + 1) then Done (inr false)
        else Done (inl (labels + 1, i, lastDot))
      else if hote c then Done (inl (labels, lastDot, prevDot))
      else Done (inr (A := Z * Z * Z) false))
    (fun o => match o with
              | inl s' => etat_apex name (i + 1) s'
              | inr b => b = false /\ ~ enregistrable name
              end).
Proof.
  intros Hi Hs. destruct s as [[labels lastDot] prevDot]. destruct Hs as (L & k & Hd & Happ & HL & Hk & -> & -> & ->).
  destruct (drop_idx name i Hi) as (c & Hc & Hdr). rewrite Hc, run_bind_done.
  pose proof (decoupe_reste _ _ _ _ _ _ Happ Hdr) as Hall. pose proof (take_suivant _ _ _ _ (proj1 Hi) Hdr) as Ht.
  assert (Hki : zlen k <= i).
  { destruct (joindre_decoupe _ _ _ _ Hd) as (p & Hp & _). cbn in Hp. apply (f_equal length) in Hp.
    rewrite length_take, length_app in Hp. unfold zlen in *. lia. }
  destruct (Z.eqb_spec c 46) as [->|Hne].
  - destruct ((i =? 0) || (i =? i - zlen k - 1 + 1)) eqn:E; apply wp_done.
    + split; [done|]. intros [Hok _]. rewrite Hall in Hok. apply Forall_app in Hok as [_ Hok].
      cbn [decoupe] in Hok. rewrite Z.eqb_refl in Hok. apply Forall_cons_iff in Hok as [[Hok _] _]. apply Hok.
      apply orb_true_iff in E as [E|E]; zbool; destruct k as [|x k]; try done; rewrite zlen_cons in *; pose proof (zlen_nonneg k); lia.
    + apply orb_false_iff in E as [_ E]. zbool. exists (L ++ [k]), []. rewrite Ht, Happ. cbn [decoupe].
      rewrite Z.eqb_refl. split; [by rewrite <- app_assoc|]. split.
      { intros l2. rewrite <- app_assoc, Happ. cbn [decoupe app]. rewrite Z.eqb_refl. by rewrite <- app_assoc. }
      split; [apply Forall_app; split; [done|]; apply Forall_singleton; split; [intros ->; rewrite zlen_nil in E; lia|done]|].
      split; [constructor|]. split; [rewrite zlen_app, zlen_cons, zlen_nil; lia|]. split; [rewrite zlen_nil; lia|].
      rewrite last_snoc. lia.
  - destruct (hote c) eqn:Eh; apply wp_done.
    + exists L, (k ++ [c]). rewrite Ht, Happ. cbn [decoupe]. destruct (Z.eqb_spec c 46); [done|].
      split; [done|]. split.
      { intros l2. rewrite <- app_assoc, Happ. cbn [decoupe app]. by destruct (Z.eqb_spec c 46). }
      split; [done|]. split; [apply Forall_app; split; [done|by apply Forall_singleton]|]. split; [done|].
      rewrite zlen_app, zlen_cons, zlen_nil. split; [lia|]. destruct (last L); lia.
    + split; [done|]. intros [Hok _]. rewrite Hall in Hok. apply Forall_app in Hok as [_ Hok].
      cbn [decoupe] in Hok. destruct (Z.eqb_spec c 46); [done|].
      destruct (decoupe_tete (drop (Z.to_nat (i + 1)) name) (k ++ [c])) as (r & T & E). rewrite E in Hok.
      apply Forall_cons_iff in Hok as [[_ Hok] _]. rewrite <- app_assoc in Hok. apply Forall_app in Hok as [_ Hok].
      apply Forall_cons_iff in Hok as [Hok _]. congruence.
Qed.

Lemma sans_point_ok name : sans_point name = Done (if bool_decide (last name = Some 46) then removelast name else name).
Proof.
  unfold sans_point. destruct (decide (name = [])) as [->|Hne]; [done|].
  destruct (exists_last Hne) as (l & x & ->). pose proof (zlen_nonneg l).
  assert (Hz : zlen (l ++ [x]) = zlen l + 1) by (rewrite zlen_app; done). cbv zeta. rewrite Hz.
  destruct (Z.ltb_spec 0 (zlen l + 1)); [|lia]. rewrite idx_mid by lia. rewrite run_bind_done, last_snoc.
  rewrite removelast_last. destruct (Z.eqb_spec x 46) as [->|Hx].
  - rewrite bool_decide_eq_true_2 by done. unfold slice. rewrite Hz.
    destruct (_ && _) eqn:E; [|exfalso; rewrite !andb_false_iff in E; destruct E as [[E|E]|E]; zbool; lia].
    rewrite drop_0. f_equal. apply take_app_length'. unfold zlen. lia.
  - assert (Some x <> Some 46) as H46 by congruence. by rewrite (bool_decide_eq_false_2 _ H46).
Qed.

Lemma apex_fin name s : name <> [] -> etat_apex name (zlen name) s ->
  wp (let '(labels, lastDot, prevDot) := s in
      if lastDot =? zlen name - 1 then Done false else
      if labels =? 2 then Done true else
      if labels =? 3 then
        suffix ← slice name (prevDot + 1) (zlen name);
        suffixe_public twoLevelSuffixes suffix
      else Done false) (fun b => b = true <-> enregistrable name).
Proof.
  intros Hne Hs. destruct s as [[labels lastDot] prevDot]. destruct Hs as (L & k & Hd & _ & HL & Hk & -> & -> & ->).
  assert (Ht : take (Z.to_nat (zlen name)) name = name) by (apply take_ge; unfold zlen; lia). rewrite Ht in Hd.
  unfold enregistrable. rewrite Hd. destruct (Z.eqb_spec (zlen name - zlen k - 1) (zlen name - 1)) as [E|E].
  - apply wp_done. split; [done|]. intros [Hok _]. apply Forall_app in Hok as [_ Hok].
    apply Forall_singleton in Hok as [Hok _]. exfalso. apply Hok. destruct k; [done|].
    rewrite zlen_cons in E. pose proof (zlen_nonneg k). lia.
  - assert (Hkok : libelle_ok k) by (split; [intros ->; rewrite zlen_nil in E; lia|done]).
    assert (Hall : Forall libelle_ok (L ++ [k])) by (apply Forall_app; split; [done|by apply Forall_singleton]).
    destruct L as [|a [|b [|c L]]].
    + apply wp_done. split; [done|]. by intros [_ ?].
    + apply wp_done. done.
    + change (zlen [a; b] + 1 =? 2) with false. change (zlen [a; b] + 1 =? 3) with true. cbv iota.
      destruct (joindre_decoupe _ _ _ _ Hd) as (p & Hp & q & ->). cbn [app last] in *.
      change (last [a; b]) with (Some b). cbv iota.
      assert (Hz : zlen name = zlen q + zlen b + 1 + zlen k)
        by (rewrite Hp; rewrite !zlen_app, zlen_cons, zlen_nil; lia).
      pose proof (zlen_nonneg q). pose proof (zlen_nonneg b). pose proof (zlen_nonneg k).
      apply wp_bind, wp_slice; [lia..|].
      assert (take (Z.to_nat (zlen name - (zlen name - zlen k - 1 - zlen b - 1 + 1)))
        (drop (Z.to_nat (zlen name - zlen k - 1 - zlen b - 1 + 1)) name) = b ++ 46 :: k) as ->.
      { replace (Z.to_nat (zlen name - zlen k - 1 - zlen b - 1 + 1)) with (length q) by (unfold zlen in *; lia).
        assert (Hdq : drop (length q) name = b ++ 46 :: k).
        { rewrite Hp, <- app_assoc, drop_app_length. by rewrite <- app_assoc. }
        rewrite Hdq. apply take_ge. rewrite length_app. cbn [length]. unfold zlen in *. lia. }
      rewrite suffixe_public_ok. apply wp_done. rewrite bool_decide_eq_true. split; [by split|by intros [_ ?]].
    + assert (zlen (a :: b :: c :: L) + 1 =? 2 = false /\ zlen (a :: b :: c :: L) + 1 =? 3 = false) as [-> ->]
        by (rewrite !zlen_cons; pose proof (zlen_nonneg L); split; apply Z.eqb_neq; lia).
      apply wp_done. split; [done|]. intros [_ H]. by destruct L.
Qed.

Lemma netcat_decide cmd :
  exists b, netcatWithExec cmd = Done b /\ (b = true <-> invocation (jetons [] cmd)).
Proof.
  eexists. split; [apply netcatWithExec_balayer|]. rewrite balayer_ok. split; [by intros [?|[? _]]|by left].
Qed.

Lemma apex_decide name :
  let nom := if bool_decide (last name = Some 46) then removelast name else name in
  exists b, isApexDomain name = Done b /\ (b = true <-> enregistrable nom).
Proof.
  intros nom. cut (wp (isApexDomain name) (fun b => b = true <-> enregistrable nom)).
  { intros H. by apply wp_exists in H as (b & ? & ?); exists b. }
  unfold isApexDomain. rewrite sans_point_ok, run_bind_done. fold nom.
  destruct (Z.eqb_spec (zlen nom) 0) as [Hz|Hz].
  - apply wp_done. split; [done|]. destruct nom as [|x l]; [by intros [_ ?]|]. rewrite zlen_cons in Hz.
    pose proof (zlen_nonneg l). lia.
  - apply wp_bind. apply (wp_for_range (etat_apex nom)); [apply zlen_nonneg| | |].
    + exists [], []. split; [done|]. split; [done|]. split; [constructor|]. split; [constructor|done].
    + intros i s Hi Hs. eapply wp_mono; [by apply apex_pas|]. intros [s'|b]; [done|]. intros [-> Hn]. apply wp_done.
      split; [done|]. by intros ?.
    + intros s Hs. apply apex_fin; [|done]. by intros ->.
Qed.

(** ** Properties *)

(** The netcat scanner terminates on every command line and answers true
    exactly when some simple command (no separator in between) has a netcat
    word followed, anywhere later, by an execution option. *)
Theorem netcat_exact cmd :
  exists b, netcatWithExec cmd = Done b /\ (b = true <-> invocation (jetons [] cmd)).
Proof. exact (netcat_decide cmd). Qed.

(** [isApexDomain] decides exactly the registrable names: the labels of the
    name, one trailing dot aside, are all non-empty host labels, and there are
    two of them, or three the last two of which form a known public suffix up to
    case. *)
Theorem apex_exact name :
  let nom := if bool_decide (last name = Some 46) then removelast name else name in
  exists b, isApexDomain name = Done b /\ (b = true <-> enregistrable nom).
Proof. exact (apex_decide name). Qed.
