(* ===== verification/Cascade.v ===== *)
(** The inference cascade (src/internal/engine/inference_cascade.go): L0
    reflexes and ontology, L1a conformal probe, L1b centroids and decision head,
    on a payload resolved from the arena.

    The float kernels (feature extraction, Hadamard quantisation, probe
    distances, INT8 head) are the interface [Detecteurs]; every theorem holds
    for all of its instances.  [DurationNs] is not modelled.  The theorems: the
    vetoes of layer 0, fail-closed on an unreadable payload, what a pass
    certifies, and when a benign context may be derived. *)
From S2P Require Import Prelude Arena Codebook Ontology Floppy Lexique Channel.

Definition StageL0 : Z := 0.
Definition StageL1a : Z := 1.
Definition StageL1b : Z := 2.
Definition VerdictPass : Z := 1.
Definition VerdictBlock : Z := 2.
Definition VerdictQuarantine : Z := 3.
Definition FlagArenaInvalid : Z := 0x2000.

Record CascadeVerdict := CVerdict {
  Stage : Z;
  CAction : Z;
  CFlags : Z;
  CThreatID : Z;
  CHammingDist : Z;
  ConfidenceQ8 : Z;
  OntoSubject : Z;
  OntoContext : Z
}.

Record CascadeContext := CContext { CSubject : Z; CContext_ : Z }.
Definition contexte_nul : CascadeContext := CContext 0 0.

Record ProcessProvenance := Provenance {
  PID : Z;
  UID : Z;
  EUID : Z;
  LoginSession : bool;
  HasTTY : bool;
  SystemdUnit : bool;
  ExeTarget : list Z;
  IsMemfd : bool;
  IsDeleted : bool;
  HasWXAnon : bool;
  Comm : list Z
}.

(** ** Context of a process *)

Definition sujet (pv : ProcessProvenance) : Z :=
  if IsMemfd pv then SubjMemfdAnon
  else if IsDeleted pv then SubjDeletedBinary
  else if SystemdUnit pv && negb (LoginSession pv) && (UID pv =? 0) then SubjRootSystemd
  else if SystemdUnit pv && negb (LoginSession pv) then SubjServiceUnpriv
  else if LoginSession pv && HasTTY pv && (UID pv =? 0) then SubjRootInteractive
  else if LoginSession pv && HasTTY pv then SubjUserInteractive
  else SubjUnknown.

Definition DeriveCascadeContext (pv : ProcessProvenance) : run CascadeContext :=
  let s := sujet pv in
  hostile ← DeriveOntoContext (ExeTarget pv) (IsMemfd pv) (IsDeleted pv) (HasWXAnon pv) (Comm pv) (PID pv);
  if negb (hostile =? CtxDefault) then Done (CContext s hostile) else
  if negb (EUID pv =? UID pv) then Done (CContext s CtxDefault) else
  if (s =? SubjRootSystemd) || (s =? SubjServiceUnpriv) then Done (CContext s CtxSystemdUnit) else
  if (s =? SubjUserInteractive) || (s =? SubjRootInteractive) then Done (CContext s CtxInteractiveTTY) else
  Done (CContext s CtxDefault).

Definition deriveCascadeOntoKey (ev : Probe_event_t) (cctx : CascadeContext) : Z :=
  let act := if Action ev =? 1 then ActExecve else if Action ev =? 2 then ActWriteFile
             else if Action ev =? 3 then ActConnectNet else if Action ev =? 7 then ActMprotectWX else ActUnknown in
  let tgt := if Subsystem ev =? 1 then TgtBinSystem else if Subsystem ev =? 2 then TgtTmpExec
             else if Subsystem ev =? 3 then TgtNetExternal else if Subsystem ev =? 4 then TgtPipeInterpreter
             else TgtUnknown in
  PackOntoKey (CSubject cctx) act tgt (CContext_ cctx).

Definition applyNonSoftening (priorAction newAction : Z) : Z :=
  if priorAction =? VerdictBlock then VerdictBlock
  else if (priorAction =? VerdictQuarantine) && (newAction =? VerdictPass) then VerdictQuarantine
  else newAction.

(** ** The numeric detectors *)

Definition ProbeConfirm : Z := 0.
Definition ProbeContradiction : Z := 1.
Definition ProbeAnomaly : Z := 2.

Class Detecteurs := {
  RabitqCode : Type;
  quantifier : list Z -> RabitqCode;
  features : Type;
  (** [None]: the extraction failed. *)
  ExtractResolvedTo : Probe_event_t -> list Z -> option features;
  QuantizeFHT512 : features -> list Z;
  (** [None]: an error. *)
  sonder : RabitqProbe (RabitqCode := RabitqCode) -> features -> option Z;
  (** Predicted class, score, conformity. *)
  PredictINT8 : FloppyDisk (RabitqCode := RabitqCode) -> features -> Z * Z * bool
}.

Section cascade.
Context `{D : Detecteurs}.
Notation disque := (FloppyDisk (RabitqCode := RabitqCode)).
Notation sonde := (RabitqProbe (RabitqCode := RabitqCode)).

Record CascadeEngine := Cascade {
  arena : ArenaPool;
  floppies : list (FloppySlot (RabitqCode := RabitqCode));
  repli : option sonde
}.

Definition NewCascadeEngine (a : ArenaPool) : CascadeEngine :=
  Cascade a (replicate 4 (NewFloppySlot (RabitqCode := RabitqCode))) (NewRabitqProbe 4).

Definition MountFloppy (ce : CascadeEngine) (family : Z) (disk : option disque) : run CascadeEngine :=
  if (1 <=? family) && (family <? zlen (floppies ce)) then
    s ← idx (floppies ce) family;
    F ← upd (floppies ce) family (default s (FSwap (Some s) disk).1);
    Done (Cascade (arena ce) F (repli ce))
  else Done ce.

Definition CAddPrototype (ce : CascadeEngine) (class : Z) (f : list Z) : run (CascadeEngine * bool) :=
  match repli ce with
  | None => Done (ce, true)
  | Some pr =>
      r ← AddPrototype quantifier pr class f;
      match r with
      | None => Done (ce, false)
      | Some pr => Done (Cascade (arena ce) (floppies ce) (Some pr), true)
      end
  end.

Definition GetFloppy (ce : CascadeEngine) (family : Z) : run (option disque) :=
  if (1 <=? family) && (family <? zlen (floppies ce)) then s ← idx (floppies ce) family; Done (current s)
  else Done None.

Definition diskFor (ce : CascadeEngine) (subsystem : Z) : run (option disque) :=
  if subsystem =? 1 then s ← idx (floppies ce) FloppyFamilyLOLBAS; Done (current s)
  else if subsystem =? 3 then s ← idx (floppies ce) FloppyFamilyDNSC2; Done (current s)
  else if subsystem =? 4 then s ← idx (floppies ce) FloppyFamilyAgentMCP; Done (current s)
  else Done None.

Definition avec_action (v : CascadeVerdict) (stage action fl conf : Z) : CascadeVerdict :=
  CVerdict stage action (Z.lor (CFlags v) fl) (CThreatID v) (CHammingDist v) conf (OntoSubject v) (OntoContext v).

(** The probe consulted: that of the disk, else the fallback once fed. *)
Definition sonde_active (ce : CascadeEngine) (disk : option disque) : run (option sonde) :=
  match Probe disk with
  | Some p => Done (Some p)
  | None =>
      match repli ce with
      | None => Done None
      | Some p =>
          a ← PrototypeCount (Some p) 0;
          if 0 <? a then b ← PrototypeCount (Some p) 1; if 0 <? b then Done (Some p) else Done None
          else Done None
      end
  end.

(** Layer 1b on a mounted disk. *)
Definition couche_L1b (ev : Probe_event_t) (payload : list Z) (disk : disque) (f : features) (bitcode : list Z)
    (onto : Z) (v : CascadeVerdict) : run CascadeVerdict :=
  let '(m, dist, found) := SearchCentroid (Some disk) (Some bitcode) 128 in
  let radius := BlockRadius (Some disk) in
  apex ← (if (found : bool) && (dist <=? Z.max radius 24) && (Subsystem ev =? 3) then isApexDomain payload else Done false);
  let '(c1, _, k1) := PredictINT8 disk f in
  let apexCertified := (apex : bool) && (c1 =? 0) && (k1 : bool) in
  let v := if found then CVerdict (Stage v) (CAction v) (CFlags v) (ThreatID m) dist (ConfidenceQ8 v)
                           (OntoSubject v) (OntoContext v) else v in
  if found && (dist <=? radius) && negb apexCertified then
    Done (avec_action v StageL1b (applyNonSoftening (CAction v) VerdictBlock) 0x0002 (u16 ((128 - dist) * 2)))
  else
    let v :=
      if found && (radius <? dist) && (dist <=? 24) && negb apexCertified && negb (onto =? OntoVerdictAllow)
      then avec_action v StageL1b (applyNonSoftening (CAction v) VerdictQuarantine) 0x0004 160 else v in
    let '(predClass, _, conforms) := PredictINT8 disk f in
    if (predClass =? 1) && (conforms : bool) then
      Done (avec_action v StageL1b (applyNonSoftening (CAction v) VerdictBlock) 0x0002 220)
    else if (predClass =? 1) && negb conforms then
      Done (avec_action v StageL1b (applyNonSoftening (CAction v) VerdictQuarantine) 0x0004 128)
    else Done (avec_action v StageL1b (applyNonSoftening (CAction v) VerdictPass) 0 (ConfidenceQ8 v)).

(** Layer 1a: a verdict, or the verdict so far for layer 1b. *)
Definition couche_L1a (ce : CascadeEngine) (disk : option disque) (f : features) (bitcode : list Z) (onto : Z)
    (v : CascadeVerdict) : run (CascadeVerdict + CascadeVerdict) :=
  p ← sonde_active ce disk;
  Done (match p with
        | None => inr v
        | Some p =>
            match sonder p f with
            | None => inr v
            | Some verdict =>
                let near := BlockRadius disk in
                let near := if negb (onto =? OntoVerdictAllow) then Z.max near 24 else near in
                if (verdict =? ProbeConfirm) && negb (nearThreatWithin disk bitcode near) then
                  inl (avec_action v StageL1a (applyNonSoftening (CAction v) VerdictPass) 0 (ConfidenceQ8 v))
                else if verdict =? ProbeAnomaly then inr (avec_action v StageL1a (CAction v) 0x0004 (ConfidenceQ8 v))
                else inr v
            end
        end).

Definition evaluateResolved (ce : CascadeEngine) (ev : Probe_event_t) (payload : list Z) (cctx : CascadeContext)
    (disk : option disque) : run CascadeVerdict :=
  let v := CVerdict StageL0 VerdictPass (Flags ev) 0 0 0 (CSubject cctx) (CContext_ cctx) in
  hit ← MatchKeyword disk payload;
  match hit with
  | Some _ => Done (avec_action v StageL0 VerdictBlock (Z.lor 0x0002 0x0008) 256)
  | None =>
      netcat ← (if Subsystem ev =? 1 then netcatWithExec payload else Done false);
      if ((Subsystem ev =? 3) && dnsHasEncodingChars payload) || (netcat : bool)
      then Done (avec_action v StageL0 VerdictBlock 0x0002 256) else
      let onto := EvaluateOntology (deriveCascadeOntoKey ev cctx) in
      if onto =? OntoVerdictDeny then Done (avec_action v StageL0 VerdictBlock 0x0002 256) else
      if (onto =? OntoVerdictAllow) && (zlen payload <? 32) then Done v else
      let v := avec_action v StageL1a (CAction v) 0 0 in
      match ExtractResolvedTo ev payload with
      | None => Done (avec_action v StageL1a VerdictQuarantine 0x0004 0)
      | Some f =>
          let bitcode := QuantizeFHT512 f in
          r ← couche_L1a ce disk f bitcode onto v;
          match r with
          | inl v => Done v
          | inr v =>
              match disk with
              | Some disk => couche_L1b ev payload disk f bitcode onto v
              | None => Done (avec_action v StageL1b (applyNonSoftening (CAction v) VerdictPass) 0 (ConfidenceQ8 v))
              end
          end
      end
  end.

Definition EvaluateEventCtx (ce : CascadeEngine) (ev : option Probe_event_t) (cctx : CascadeContext) : run CascadeVerdict :=
  match ev with
  | None => Done (CVerdict StageL0 VerdictPass 0 0 0 0 0 0)
  | Some ev =>
      disk ← diskFor ce (Subsystem ev);
      if Z.land (Flags ev) FlagLongPayload =? 0 then
        n ← inlinePayloadUsed (Payload ev);
        p ← slice (Payload ev) 0 n;
        evaluateResolved ce ev p cctx disk
      else
        r ← ResolvePayload (arena ce) (Some ev) (Some (replicate (Z.to_nat PageSize) 0));
        match r.1 with
        | Charge payload => evaluateResolved ce ev payload cctx disk
        | Erreur _ =>
            let v := CVerdict StageL0 VerdictQuarantine (Z.lor (Z.lor (Flags ev) 0x0004) FlagArenaInvalid) 0 0 0
                       (CSubject cctx) (CContext_ cctx) in
            prefixe ← slice (Payload ev) 0 80;
            hit ← MatchKeyword disk prefixe;
            match hit with
            | Some _ => Done (avec_action v StageL0 VerdictBlock (Z.lor 0x0002 0x0008) 256)
            | None => Done v
            end
        end
  end.

Definition EvaluateEvent (ce : CascadeEngine) (ev : option Probe_event_t) : run CascadeVerdict :=
  EvaluateEventCtx ce ev contexte_nul.
End cascade.

(** ** Well-formed engine *)
Section proprietes.
Context `{D : Detecteurs}.
Notation disque := (FloppyDisk (RabitqCode := RabitqCode)).

Definition sonde_ok (p : RabitqProbe (RabitqCode := RabitqCode)) : Prop := zlen (protos_ p) = classes p.
Definition cascade_ok (ce : CascadeEngine) : Prop :=
  zlen (floppies ce) = 4 /\ match repli ce with None => True | Some p => sonde_ok p end.

Lemma PrototypeCount_total p c : sonde_ok p -> exists n, PrototypeCount (Some p) c = Done n /\ 0 <= n.
Proof.
  unfold sonde_ok, PrototypeCount. intros Hp. destruct ((c <? 0) || (classes p <=? c)) eqn:E; [by exists 0|].
  apply orb_false_iff in E as [E1 E2]. zbool.
  destruct (lookup_lt_is_Some_2 (protos_ p) (Z.to_nat c)) as [l Hl]; [unfold zlen in Hp; lia|].
  rewrite (idx_lookup _ _ l) by (done || lia). exists (zlen l). split; [done|apply zlen_nonneg].
Qed.

Lemma sonde_active_total ce disk : cascade_ok ce -> exists p, sonde_active ce disk = Done p.
Proof.
  intros [_ Hr]. unfold sonde_active. destruct (Probe disk) as [p|]; [by exists (Some p)|].
  destruct (repli ce) as [p|]; [|by exists None].
  destruct (PrototypeCount_total p 0 Hr) as (a & -> & _). rewrite run_bind_done. destruct (0 <? a); [|by exists None].
  destruct (PrototypeCount_total p 1 Hr) as (b & -> & _). rewrite run_bind_done. destruct (0 <? b); by eexists.
Qed.

Lemma diskFor_total ce s : cascade_ok ce -> exists disk, diskFor ce s = Done disk.
Proof.
  intros [Hf _]. unfold diskFor, FloppyFamilyLOLBAS, FloppyFamilyDNSC2, FloppyFamilyAgentMCP.
  assert (I : forall k, 0 <= k < 4 -> exists x, idx (floppies ce) k = Done x).
  { intros k Hk. destruct (lookup_lt_is_Some_2 (floppies ce) (Z.to_nat k)) as [x Hx]; [unfold zlen in Hf; lia|].
    exists x. apply idx_lookup; [lia|done]. }
  destruct (s =? 1); [destruct (I 1) as [x ->]; [lia|by eexists]|].
  destruct (s =? 3); [destruct (I 2) as [x ->]; [lia|by eexists]|].
  destruct (s =? 4); [destruct (I 3) as [x ->]; [lia|by eexists]|by eexists].
Qed.

(** The vetoes of layer 0. *)
Definition mot_cle_present (disk : option disque) (payload : list Z) : Prop :=
  exists d, disk = Some d /\ mot_trouve (Keywords d) payload <> None.
Definition reflexe (ev : Probe_event_t) (payload : list Z) : Prop :=
  (Subsystem ev = 3 /\ dnsHasEncodingChars payload = true) \/
  (Subsystem ev = 1 /\ invocation (jetons [] payload)).
Definition veto (ev : Probe_event_t) (payload : list Z) (cctx : CascadeContext) (disk : option disque) : Prop :=
  mot_cle_present disk payload \/ reflexe ev payload \/
  EvaluateOntology (deriveCascadeOntoKey ev cctx) = OntoVerdictDeny.

(** What a pass may rest on, stage by stage. *)
Definition eloigne (q : list Z) (disk : option disque) (r : Z) : Prop :=
  forall d e, disk = Some d -> e ∈ DEntries d -> r < codebookHamming q e.
Definition certifie (ev : Probe_event_t) (payload : list Z) (d : disque) (f : features) : Prop :=
  Subsystem ev = 3 /\ (exists b, isApexDomain payload = Done b /\ b = true) /\
  (PredictINT8 d f).1.1 = 0 /\ (PredictINT8 d f).2 = true.
Definition passage_fonde (ce : CascadeEngine) (ev : Probe_event_t) (payload : list Z) (cctx : CascadeContext)
    (disk : option disque) (stage : Z) : Prop :=
  let onto := EvaluateOntology (deriveCascadeOntoKey ev cctx) in
  (stage = StageL0 /\ onto = OntoVerdictAllow /\ zlen payload < 32) \/
  exists f, ExtractResolvedTo ev payload = Some f /\
    ((stage = StageL1a /\ exists p, sonde_active ce disk = Done (Some p) /\ sonder p f = Some ProbeConfirm /\
        eloigne (QuantizeFHT512 f) disk (BlockRadius disk) /\
        (onto <> OntoVerdictAllow -> eloigne (QuantizeFHT512 f) disk 24)) \/
     (stage = StageL1b /\ forall d, disk = Some d ->
        (PredictINT8 d f).1.1 <> 1 /\
        (eloigne (QuantizeFHT512 f) disk (Z.min 128 (BlockRadius disk)) \/ certifie ev payload d f) /\
        (onto <> OntoVerdictAllow -> eloigne (QuantizeFHT512 f) disk 24 \/ certifie ev payload d f))).

(** Headers come from an octet. *)
Definition disque_ok (disk : option disque) : Prop :=
  forall d, disk = Some d -> is_u8 (BlockRadius_ (Header_ d)).

Lemma BlockRadius_range disk : disque_ok disk -> 0 <= BlockRadius disk < 256.
Proof.
  unfold BlockRadius, FloppyDefaultBlockRadius. intros H. destruct disk as [d|]; [|lia].
  specialize (H d eq_refl). unfold is_u8 in H. destruct (_ =? 0); lia.
Qed.

Lemma loin_du_disque disk q r : 0 <= r -> nearThreatWithin disk q r = false -> eloigne q disk r.
Proof.
  intros Hr Hn d e -> He. destruct (Z.le_gt_cases (codebookHamming q e) r); [|lia].
  assert (nearThreatWithin (Some d) q r = true) by (apply nearThreatWithin_ok; [done|by exists e]). congruence.
Qed.

Lemma eloigne_mono q disk r r' : eloigne q disk r -> r' <= r -> eloigne q disk r'.
Proof. intros H Hr d e Hd He. specialize (H d e Hd He). lia. Qed.

(** Layer 1b: total; a pass implies the conditions, and never a softening. *)
Lemma couche_L1b_ok ev payload d f onto v :
  disque_ok (Some d) -> CAction v = VerdictPass ->
  wp (couche_L1b ev payload d f (QuantizeFHT512 f) onto v) (fun r =>
    Stage r = StageL1b /\
    (CAction r = VerdictPass ->
       (PredictINT8 d f).1.1 <> 1 /\
       (eloigne (QuantizeFHT512 f) (Some d) (Z.min 128 (BlockRadius (Some d))) \/ certifie ev payload d f) /\
       (onto <> OntoVerdictAllow -> eloigne (QuantizeFHT512 f) (Some d) 24 \/ certifie ev payload d f))).
Proof.
  intros Hd Hv. unfold couche_L1b. pose proof (BlockRadius_range _ Hd) as Hr.
  set (q := QuantizeFHT512 f). pose proof (SearchCentroid_ok d q 128 ltac:(lia)) as Hs.
  destruct (SearchCentroid (Some d) (Some q) 128) as [[m dist] found]. cbv zeta.
  set (radius := BlockRadius (Some d)) in *.
  destruct (apex_decide payload) as (ba & Hba & _).
  assert (exists apex, (if found && (dist <=? Z.max radius 24) && (Subsystem ev =? 3) then isApexDomain payload else Done false)
    = Done apex /\ (apex = true -> Subsystem ev = 3 /\ exists b, isApexDomain payload = Done b /\ b = true)) as (apex & -> & Hapex).
  { destruct (found && (dist <=? Z.max radius 24) && (Subsystem ev =? 3)) eqn:E; [|by exists false].
    exists ba. split; [done|]. intros ->. apply andb_true_iff in E as [_ E]. zbool. split; [done|by exists true]. }
  rewrite run_bind_done. destruct (PredictINT8 d f) as [[c1 s1] k1] eqn:Ep.
  set (cert := apex && (c1 =? 0) && k1).
  assert (Hcert : cert = true -> certifie ev payload d f).
  { unfold cert, certifie. rewrite Ep. intros H. zbool. destruct (Hapex ltac:(done)) as [G1 G2]. by split_and!. }
  clearbody cert. cbn [fst snd].
  destruct (found && (dist <=? radius) && negb cert) eqn:E1.
  { apply wp_done. cbn [Stage CAction avec_action]. split; [done|]. intros H. exfalso.
    destruct found; cbn [CAction] in H; rewrite Hv in H; done. }
  assert (Hrad : eloigne q (Some d) (Z.min 128 radius) \/ certifie ev payload d f).
  { destruct cert; [right; by apply Hcert|left]. intros d' e [= <-] He. destruct found.
    - destruct Hs as [-> (_ & i & Hi & Hmin)]. apply list_elem_of_lookup in He as [j Hj].
      destruct (Hmin j e Hj) as [Hle _]. cbn [andb negb] in E1. rewrite andb_true_r in E1. zbool. lia.
    - specialize (Hs e He). lia. }
  set (zone := found && (radius <? dist) && (dist <=? 24) && negb cert && negb (onto =? OntoVerdictAllow)).
  assert (Hzone : zone = false -> onto <> OntoVerdictAllow -> eloigne q (Some d) 24 \/ certifie ev payload d f).
  { unfold zone. intros Hz Ho. apply Z.eqb_neq in Ho. rewrite Ho in Hz. destruct cert; [right; by apply Hcert|left].
    intros d' e [= <-] He. destruct found; [|specialize (Hs e He); lia].
    destruct Hs as [-> (_ & i & Hi & Hmin)]. apply list_elem_of_lookup in He as [j Hj]. destruct (Hmin j e Hj) as [Hle _].
    cbn [andb negb] in E1, Hz. rewrite !andb_true_r in *. zbool.
    apply andb_false_iff in Hz as [Hz|Hz]; zbool; lia. }
  set (v1 := if found then _ else v). assert (Hv1 : CAction v1 = VerdictPass) by (unfold v1; by destruct found).
  clearbody v1.
  destruct ((c1 =? 1) && k1) eqn:E2; [|destruct ((c1 =? 1) && negb k1) eqn:E3].
  - apply wp_done. cbn [Stage CAction avec_action]. split; [done|]. intros H. exfalso.
    destruct zone; cbn [CAction avec_action] in H; rewrite Hv1 in H; done.
  - apply wp_done. cbn [Stage CAction avec_action]. split; [done|]. intros H. exfalso.
    destruct zone; cbn [CAction avec_action] in H; rewrite Hv1 in H; done.
  - apply wp_done. cbn [Stage CAction avec_action]. split; [done|]. intros H.
    assert (Hc1 : c1 <> 1) by (intros ->; destruct k1; done). split; [done|]. split; [done|].
    apply Hzone. destruct zone; [|done]. cbn [CAction avec_action] in H. rewrite Hv1 in H. done.
Qed.

(** Layer 1a. *)
Lemma couche_L1a_ok ce disk f onto v :
  cascade_ok ce -> disque_ok disk -> CAction v = VerdictPass ->
  wp (couche_L1a ce disk f (QuantizeFHT512 f) onto v) (fun r =>
    match r with
    | inl r => Stage r = StageL1a /\ exists p, sonde_active ce disk = Done (Some p) /\ sonder p f = Some ProbeConfirm /\
        eloigne (QuantizeFHT512 f) disk (BlockRadius disk) /\
        (onto <> OntoVerdictAllow -> eloigne (QuantizeFHT512 f) disk 24)
    | inr r => CAction r = VerdictPass
    end).
Proof.
  intros Hce Hd Hv. unfold couche_L1a. pose proof (BlockRadius_range _ Hd) as Hr.
  destruct (sonde_active_total ce disk Hce) as (p & Hp). rewrite Hp, run_bind_done. apply wp_done.
  destruct p as [p|]; [|done]. destruct (sonder p f) as [verdict|] eqn:Es; [|done]. cbv zeta.
  set (near := if negb (onto =? OntoVerdictAllow) then Z.max (BlockRadius disk) 24 else BlockRadius disk).
  assert (Hnear : BlockRadius disk <= near) by (unfold near; destruct (negb _); lia).
  destruct (Z.eqb_spec verdict ProbeConfirm) as [->|Hne]; cbn [andb].
  - destruct (nearThreatWithin disk (QuantizeFHT512 f) near) eqn:En; cbn [negb]; [done|].
    apply loin_du_disque in En; [|lia]. split; [done|]. exists p. split; [done|]. split; [done|].
    split; [by eapply eloigne_mono|]. intros Ho. apply Z.eqb_neq in Ho. unfold near in En. rewrite Ho in En.
    eapply eloigne_mono; [exact En|]. cbn [negb]. lia.
  - by destruct (verdict =? ProbeAnomaly).
Qed.

Lemma netcat_reflexe ev payload :
  exists b, (if Subsystem ev =? 1 then netcatWithExec payload else Done false) = Done b /\
    (((Subsystem ev =? 3) && dnsHasEncodingChars payload) || b = true <-> reflexe ev payload).
Proof.
  unfold reflexe. destruct (netcat_decide payload) as (b & Hb & Hi). destruct (Z.eqb_spec (Subsystem ev) 1) as [E|E].
  - exists b. split; [done|]. rewrite E. cbn [Z.eqb Z.compare Pos.compare Pos.compare_cont andb orb].
    change (1 =? 3) with false. cbn [andb orb]. rewrite Hi. split; [by right|]. intros [[? _]|[_ ?]]; [lia|done].
  - exists false. split; [done|]. rewrite orb_false_r, andb_true_iff, Z.eqb_eq. split; [by left|].
    intros [?|[? _]]; [done|lia].
Qed.

Lemma verdicts_distincts onto : onto = OntoVerdictAllow -> onto <> OntoVerdictDeny.
Proof. by intros ->. Qed.

(** The whole cascade on a resolved payload. *)
Lemma evaluateResolved_ok ce ev payload cctx disk :
  cascade_ok ce -> disque_ok disk ->
  wp (evaluateResolved ce ev payload cctx disk) (fun v =>
    (veto ev payload cctx disk <-> Stage v = StageL0 /\ CAction v = VerdictBlock) /\
    (CAction v = VerdictPass -> ~ veto ev payload cctx disk /\ passage_fonde ce ev payload cctx disk (Stage v))).
Proof.
  intros Hce Hd. unfold evaluateResolved. cbv zeta. rewrite MatchKeyword_ok, run_bind_done.
  assert (Hmot : forall x, match disk with Some d => mot_trouve (Keywords d) payload | None => None end = x ->
    (x <> None <-> mot_cle_present disk payload)).
  { intros x <-. unfold mot_cle_present. destruct disk as [d|]; [|split; [done|by intros (? & ? & _)]].
    split; [intros H; by exists d|]. by intros (d' & [= <-] & ?). }
  destruct (match disk with Some d => mot_trouve (Keywords d) payload | None => None end) as [kw|] eqn:Em;
    specialize (Hmot _ eq_refl).
  { apply wp_done. split; [split; [done|left; by apply Hmot]|done]. }
  assert (Hnm : ~ mot_cle_present disk payload) by (intros H; by apply Hmot in H).
  destruct (netcat_reflexe ev payload) as (b & -> & Hr). rewrite run_bind_done.
  destruct (((Subsystem ev =? 3) && dnsHasEncodingChars payload) || b).
  { apply wp_done. split; [split; [done|right; left; by apply Hr]|done]. }
  assert (Hnr : ~ reflexe ev payload) by (intros H; by apply Hr in H).
  set (onto := EvaluateOntology (deriveCascadeOntoKey ev cctx)) in *.
  destruct (Z.eqb_spec onto OntoVerdictDeny) as [Ho|Ho].
  { apply wp_done. split; [split; [done|by right; right]|done]. }
  assert (Hnv : ~ veto ev payload cctx disk) by (intros [?|[?|?]]; done).
  set (v0 := avec_action _ StageL1a _ 0 0). assert (Hv0 : CAction v0 = VerdictPass) by done.
  destruct ((onto =? OntoVerdictAllow) && (zlen payload <? 32)) eqn:E.
  { zbool. apply wp_done. cbn [Stage CAction]. split; [split; [done|by intros [_ ?]]|]. intros _. split; [done|by left]. }
  destruct (ExtractResolvedTo ev payload) as [f|] eqn:Ef.
  2: { apply wp_done. cbn [Stage CAction avec_action]. split; [split; [done|by intros [_ ?]]|]. intros ?. done. }
  clearbody v0. apply wp_bind. eapply wp_mono; [by apply (couche_L1a_ok ce disk f onto v0)|]. intros [v|v] Hv.
  - apply wp_done. destruct Hv as [Hst Hv]. split; [split; [done|by rewrite Hst; intros [? _]]|]. intros _.
    split; [done|]. right. exists f. split; [done|]. by left.
  - destruct disk as [d|].
    + eapply wp_mono; [by apply (couche_L1b_ok ev payload d f onto v)|]. intros r [Hst Hp].
      split; [split; [done|by rewrite Hst; intros [? _]]|]. intros Hpass. split; [done|]. right. exists f.
      split; [done|]. right. split; [done|]. intros d' [= <-]. by apply Hp.
    + apply wp_done. cbn [Stage CAction avec_action]. rewrite Hv. split; [split; [done|by intros [? _]]|]. intros _.
      split; [done|]. right. exists f. split; [done|]. right. split; [done|]. done.
Qed.

Lemma prefixe_authentique ev d : take 80 (Payload ev) = take 80 d -> length (Payload ev) = 96%nat ->
  slice (Payload ev) 0 80 = Done (take 80 d).
Proof.
  intros H Hl. rewrite <- H. unfold slice, zlen. rewrite Hl. cbn. by rewrite drop_0.
Qed.
End proprietes.

(** ** Benign contexts *)

Lemma allow_inv ev c : EvaluateOntology (deriveCascadeOntoKey ev c) = OntoVerdictAllow ->
  Action ev = 1 /\ Subsystem ev = 1 /\
  ((Z.land (CSubject c) 0x3F = SubjRootSystemd /\ Z.land (CContext_ c) 0x0F = CtxSystemdUnit) \/
   ((Z.land (CSubject c) 0x3F = SubjUserInteractive \/ Z.land (CSubject c) 0x3F = SubjRootInteractive) /\
    Z.land (CContext_ c) 0x0F = CtxInteractiveTTY)).
Proof.
  unfold deriveCascadeOntoKey. cbv zeta. rewrite (evaluer_spec _ _ _ _ _ (Unpack_Pack _ _ _ _)).
  destruct (viole _ _ _ _); [done|]. destruct (B0 _ _ _ _ || B1 _ _ _ _) eqn:E; [|done]. intros _.
  apply orb_true_iff in E as [E|E].
  - exfalso. unfold B0 in E. rewrite <- andb_assoc in E. apply andb_true_iff in E as [E _].
    apply andb_true_iff in E as [E _]. repeat (case_match; try done).
  - unfold B1 in E. zbool.
    assert (Hact : Action ev = 1).
    { destruct (Z.eqb_spec (Action ev) 1); [done|]. exfalso. repeat (case_match; try done). }
    assert (Hsub : Subsystem ev = 1).
    { destruct (Z.eqb_spec (Subsystem ev) 1); [done|]. exfalso. repeat (case_match; try done). }
    split; [done|]. split; [done|].
    match goal with H : _ || _ = true |- _ => apply orb_true_iff in H as [H|H] end; zbool; [by left|right].
    split; [|done]. match goal with H : _ || _ = true |- _ => apply orb_true_iff in H as [H|H] end; zbool; [by left|by right].
Qed.

Lemma contexte_valeurs exe m d w comm pid : let h := contexte exe m d w comm pid in
  h = CtxDefault \/ h = CtxKworkerSpoof \/ h = CtxMemfdSpoof \/ h = CtxDeletedExe \/ h = CtxAnonWX \/ h = CtxTmpResidence.
Proof. unfold contexte. cbv zeta. repeat case_match; tauto. Qed.

Lemma contexte_defaut exe m d w comm pid : contexte exe m d w comm pid = CtxDefault ->
  m = false /\ d = false /\ w = false /\
  Forall (fun s => contient (octets s) exe = false) ["/memfd:"; "(deleted)"; "/tmp/"; "/var/tmp/"; "/dev/shm/"]%string.
Proof.
  unfold contexte. cbv zeta. destruct (isKworker comm && _); [done|].
  destruct (m || _) eqn:E1; [done|]. destruct (d || _) eqn:E2; [done|]. destruct w; [done|].
  destruct (_ || _ || _) eqn:E3; [done|]. intros _. zbool. split; [done|]. split; [done|]. split; [done|].
  repeat (apply Forall_cons; split; [done|]). apply Forall_nil. done.
Qed.

(** ** Properties *)

(** C1: the layer-0 veto is exact and inviolable.  Whatever the numeric
    detectors answer, the evaluation of a resolved payload terminates without
    panic, and it blocks at stage L0 exactly when a keyword of the mounted disk
    occurs, a structural reflex fires (encoding characters in a DNS name, netcat
    with an execution option in a process event) or the ontology denies; no
    later layer can soften it. *)
Theorem veto_inviolable `{D : Detecteurs} ce ev payload cctx disk :
  cascade_ok ce -> disque_ok disk ->
  exists v, evaluateResolved ce ev payload cctx disk = Done v /\
    (veto ev payload cctx disk <-> Stage v = StageL0 /\ CAction v = VerdictBlock).
Proof.
  intros Hce Hd. pose proof (evaluateResolved_ok ce ev payload cctx disk Hce Hd) as H.
  apply wp_exists in H as (v & ? & ? & _). by exists v.
Qed.

(** What a pass certifies.  A verdict Pass is never given against a veto, and
    it rests on one of three grounds: at L0, ontological benignity and fewer than
    32 octets; at L1a, the conformal probe confirms and every centroid of the
    disk is beyond its veto radius (and beyond 24 without ontological benignity);
    at L1b, the head does not predict the hostile class and the same distances
    hold, unless the name is a registrable domain certified by the head. *)
Theorem passage_justifie `{D : Detecteurs} ce ev payload cctx disk v :
  cascade_ok ce -> disque_ok disk ->
  evaluateResolved ce ev payload cctx disk = Done v -> CAction v = VerdictPass ->
  ~ veto ev payload cctx disk /\ passage_fonde ce ev payload cctx disk (Stage v).
Proof.
  intros Hce Hd Hv Hp. pose proof (evaluateResolved_ok ce ev payload cctx disk Hce Hd) as H.
  rewrite Hv in H. by apply H.
Qed.

(** C4: fail-closed on long payloads.  For an event sealed by deposit [j] of the
    arena: while its page has not been recycled, the verdict is that of the exact
    payload deposited; once it has, the verdict is given at L0 with the invalid
    arena flag - Block if a keyword occurs in the authentic 80-octet prefix,
    Quarantine otherwise, never Pass. *)
Theorem charge_longue_evaluee `{D : Detecteurs} ce deps ev cctx j d :
  cascade_ok ce -> arene_ok deps (arena ce) -> zlen deps < 2 ^ 42 -> 0 <= j -> deps !! Z.to_nat j = Some d ->
  96 < zlen d <= PageSize -> scelle ev j d ->
  exists disk, diskFor ce (Subsystem ev) = Done disk /\
    if zlen deps <=? j + 1024
    then EvaluateEventCtx ce (Some ev) cctx = evaluateResolved ce ev d cctx disk
    else exists v, EvaluateEventCtx ce (Some ev) cctx = Done v /\ Stage v = StageL0 /\
      Z.land (CFlags v) FlagArenaInvalid <> 0 /\
      (CAction v = VerdictBlock /\ mot_cle_present disk (take 80 d) \/
       CAction v = VerdictQuarantine /\ ~ mot_cle_present disk (take 80 d)).
Proof.
  intros Hce Hok Hn Hj Hd Hl Hs. destruct (diskFor_total ce (Subsystem ev) Hce) as (disk & Hdisk).
  exists disk. split; [done|]. unfold EvaluateEventCtx. rewrite Hdisk, run_bind_done.
  pose proof Hs as (Hf & Hp & Hpre & _). destruct (Z.eqb_spec (Z.land (Flags ev) FlagLongPayload) 0); [done|].
  pose proof (ResolvePayload_scelle deps (arena ce) ev (replicate (Z.to_nat PageSize) 0) j d Hok Hn Hs Hj Hd Hl
    ltac:(by unfold zlen; rewrite length_replicate)) as H.
  apply wp_exists in H as ([r dst] & -> & ->). rewrite run_bind_done. cbn [fst].
  destruct (zlen deps <=? j + 1024); [done|]. cbv zeta. rewrite (prefixe_authentique ev d) by done.
  rewrite run_bind_done, MatchKeyword_ok, run_bind_done.
  assert (Hflag : forall x, Z.land (Z.lor x FlagArenaInvalid) FlagArenaInvalid <> 0).
  { intros x E. apply (f_equal (fun z => Z.testbit z 13)) in E. rewrite Z.land_spec, Z.lor_spec, Z.bits_0 in E.
    by destruct (Z.testbit x 13). }
  unfold mot_cle_present. destruct (match disk with Some d0 => mot_trouve (Keywords d0) (take 80 d) | None => None end) as [kw|] eqn:Em.
  - eexists. split; [done|]. split; [done|]. split.
    { cbn [CFlags avec_action]. rewrite <- Z.lor_assoc, (Z.lor_comm FlagArenaInvalid), Z.lor_assoc. apply Hflag. }
    left. split; [done|]. destruct disk as [d0|]; [|done]. exists d0. split; [done|]. by rewrite Em.
  - eexists. split; [done|]. split; [done|]. split; [apply Hflag|]. right. split; [done|].
    intros (d0 & -> & Hne). by rewrite Em in Hne.
Qed.

(** Ontological benignity is never declared, only established.  If the
    context derived from a provenance makes the ontology allow an event, the
    event is the execution of a system binary by a process that is not elevated
    (effective and real users agree), is neither memfd, deleted nor W+X, whose
    executable is not in a temporary directory, and that belongs to a systemd
    unit outside any login session, or to a login session with a terminal. *)
Theorem benignite_etablie pv ev :
  wp (DeriveCascadeContext pv) (fun c =>
    EvaluateOntology (deriveCascadeOntoKey ev c) = OntoVerdictAllow ->
    Action ev = 1 /\ Subsystem ev = 1 /\ EUID pv = UID pv /\
    IsMemfd pv = false /\ IsDeleted pv = false /\ HasWXAnon pv = false /\
    Forall (fun m => contient (octets m) (ExeTarget pv) = false)
      ["/memfd:"; "(deleted)"; "/tmp/"; "/var/tmp/"; "/dev/shm/"]%string /\
    ((SystemdUnit pv = true /\ LoginSession pv = false) \/ (LoginSession pv = true /\ HasTTY pv = true))).
Proof.
  unfold DeriveCascadeContext. rewrite DeriveOntoContext_spec, run_bind_done. cbv zeta.
  pose proof (contexte_defaut (ExeTarget pv) (IsMemfd pv) (IsDeleted pv) (HasWXAnon pv) (Comm pv) (PID pv)) as Hdef.
  pose proof (contexte_valeurs (ExeTarget pv) (IsMemfd pv) (IsDeleted pv) (HasWXAnon pv) (Comm pv) (PID pv)) as Hval.
  set (h := contexte _ _ _ _ _ _) in *.
  destruct (Z.eqb_spec h CtxDefault) as [Hh|Hh]; cbn [negb].
  2: { apply wp_done. intros Ha. apply allow_inv in Ha as (_ & _ & Hc). cbn [CContext_ CSubject] in Hc.
       destruct Hval as [?|Hval]; [done|]. exfalso. clearbody h. clear Hdef Hh.
       repeat (destruct Hval as [->|Hval]; [destruct Hc as [[_ ?]|[_ ?]]; done|]). subst h. destruct Hc as [[_ ?]|[_ ?]]; done. }
  specialize (Hdef Hh) as (Hm & Hdl & Hw & Hexe). clearbody h. clear Hval. subst h.
  destruct (Z.eqb_spec (EUID pv) (UID pv)) as [He|He]; cbn [negb].
  2: { apply wp_done. intros Ha. apply allow_inv in Ha as (_ & _ & [[_ ?]|[_ ?]]); done. }
  assert (Hfin : forall c, CSubject c = sujet pv -> EvaluateOntology (deriveCascadeOntoKey ev c) = OntoVerdictAllow ->
    Action ev = 1 /\ Subsystem ev = 1 /\
    ((SystemdUnit pv = true /\ LoginSession pv = false) \/ (LoginSession pv = true /\ HasTTY pv = true))).
  { intros c Hs Ha. apply allow_inv in Ha as (H1 & H2 & Hc). split; [done|]. split; [done|]. rewrite Hs in Hc. clear Hs.
    unfold sujet in Hc. rewrite Hm, Hdl in Hc.
    destruct (SystemdUnit pv), (LoginSession pv), (HasTTY pv); cbn [andb negb] in Hc; try (by left); try (by right);
      destruct Hc as [[? _]|[[?|?] _]]; done. }
  repeat match goal with |- wp (if ?b then _ else _) _ => destruct b end; apply wp_done; intros Ha;
    apply Hfin in Ha as (? & ? & ?); [by split_and!|done|by split_and!|done|by split_and!|done].
Qed.

(** ** Witnesses *)

Definition detecteurs_exemple : Detecteurs := {|
  RabitqCode := list Z;
  quantifier := take 2;
  features := list Z;
  ExtractResolvedTo := fun _ p => Some p;
  QuantizeFHT512 := fun _ => replicate 8 (2 ^ 64 - 1);
  sonder := fun _ _ => Some ProbeConfirm;
  PredictINT8 := fun _ _ => (0, 0, true)
|}.
#[local] Existing Instance detecteurs_exemple.

Definition moteur_exemple (a : ArenaPool) : CascadeEngine := NewCascadeEngine a.
Definition disque_exemple : FloppyDisk (RabitqCode := list Z) :=
  Disk (FHeader FloppyMagic 1 1 512 0 0 0 1 0 0 0 (replicate 32 0)) [octets "nc -e"] [entree_exemple] [] [] None.
Definition execution_exemple : Probe_event_t := Event 0 1 1 1 1 0 0 (replicate 96 0).

Lemma moteur_exemple_ok a : cascade_ok (moteur_exemple a).
Proof. split; reflexivity. Qed.
Lemma disque_exemple_ok : disque_ok (Some disque_exemple).
Proof. intros d [= <-]. vm_compute. split; [discriminate|reflexivity]. Qed.

Lemma veto_inviolable_witness : exists v,
  evaluateResolved (moteur_exemple NewArenaPool) execution_exemple (octets "echo; NC -E sh") contexte_nul (Some disque_exemple) = Done v /\
  Stage v = StageL0 /\ CAction v = VerdictBlock.
Proof.
  destruct (veto_inviolable (moteur_exemple NewArenaPool) execution_exemple (octets "echo; NC -E sh") contexte_nul
    (Some disque_exemple) (moteur_exemple_ok _) disque_exemple_ok) as (v & Hv & Hi).
  exists v. split; [exact Hv|]. apply Hi. left. exists disque_exemple. split; [reflexivity|]. vm_compute. discriminate.
Defined.

Lemma passage_justifie_witness : exists v,
  evaluateResolved (moteur_exemple NewArenaPool) execution_exemple (octets "ls") contexte_nul (Some disque_exemple) = Done v /\
  CAction v = VerdictPass /\
  ~ veto execution_exemple (octets "ls") contexte_nul (Some disque_exemple) /\
  passage_fonde (moteur_exemple NewArenaPool) execution_exemple (octets "ls") contexte_nul (Some disque_exemple) (Stage v).
Proof.
  eexists. split; [vm_compute; reflexivity|]. split; [reflexivity|].
  eapply (passage_justifie (moteur_exemple NewArenaPool) execution_exemple (octets "ls") contexte_nul
    (Some disque_exemple) _ (moteur_exemple_ok _) disque_exemple_ok); [vm_compute; reflexivity|reflexivity].
Defined.

Lemma charge_longue_evaluee_witness : exists a ev (deps : list (list Z)) disk,
  scelle ev 0 longue_exemple /\ deps !! 0%nat = Some longue_exemple /\
  diskFor (moteur_exemple a) (Subsystem ev) = Done disk /\
  EvaluateEventCtx (moteur_exemple a) (Some ev) contexte_nul =
  evaluateResolved (moteur_exemple a) ev longue_exemple contexte_nul disk.
Proof.
  assert (Hl : Forall depot_valide [(execution_exemple, longue_exemple)]).
  { apply Forall_singleton. split; [reflexivity|]. split; [by apply octets_valides_ok|reflexivity]. }
  pose proof (deposer_ok [(execution_exemple, longue_exemple)] [] NewArenaPool arene_ok_init Hl eq_refl) as H.
  apply wp_exists in H as ([a evs] & _ & Hok & Hevs). destruct (Hevs 0%nat _ eq_refl) as (e & _ & He).
  exists a, e, [longue_exemple].
  destruct (charge_longue_evaluee (moteur_exemple a) [longue_exemple] e contexte_nul 0 longue_exemple
    (moteur_exemple_ok a) Hok) as (disk & Hd & Hx);
    [reflexivity|discriminate|reflexivity|vm_compute; split; [reflexivity|discriminate]|exact He|].
  exists disk. split; [exact He|]. split; [reflexivity|]. split; [exact Hd|exact Hx].
Defined.

Definition provenance_exemple : ProcessProvenance :=
  Provenance 4242 1000 1000 true true false (octets "/usr/bin/ls") false false false (octets "ls").

Lemma benignite_etablie_witness : exists c, DeriveCascadeContext provenance_exemple = Done c /\
  EvaluateOntology (deriveCascadeOntoKey execution_exemple c) = OntoVerdictAllow /\
  EUID provenance_exemple = UID provenance_exemple.
Proof.
  pose proof (benignite_etablie provenance_exemple execution_exemple) as H.
  eexists. split; [vm_compute; reflexivity|]. split; [vm_compute; reflexivity|].
  assert (E : exists c, DeriveCascadeContext provenance_exemple = Done c /\
    EvaluateOntology (deriveCascadeOntoKey execution_exemple c) = OntoVerdictAllow)
    by (eexists; split; vm_compute; reflexivity).
  destruct E as (c & Ec & Ea). rewrite Ec in H. apply (H Ea).
Defined.
