(* ===== verification/DnsQuestion.v ===== *)
(** DNS questions (src/dns.go): [ParseDNSName] on textual names, the strict and
    tolerant wire parsers [ParseDNSQuery] and [ParseDNSQueryTolerant] with their
    single compression jump, and the split of a name into sub-domain, parent,
    registrable label and public suffix.  The theorems: both parsers are total
    and accept exactly the packets (texts) that spell a name, with the event
    that the labels determine; the two agree; the tolerant parser differs from
    the strict one by its grammar census only. *)
From S2P Require Import Prelude DnsName Grammaire Lexique.

Inductive erreurDNS : Type :=
  | ErrPacketTooShort
  | ErrInvalidLabel
  | ErrLoopPointer
  | ErrNameTooLong
  | ErrQuestionContract
  | ErrTooManyRRs
  | ErrRDataTooLong.

Definition maxDNSLabels : Z := 128.

(** The domain fields that [DNSEvent] and [DNSMessage] share. *)
Record parties := Parties {
  SubdomainLen : Z; Subdomain : list Z;
  ParentDomainLen : Z; ParentDomain : list Z;
  SLDLen : Z; SLD : list Z;
  TLDLen : Z; TLD : list Z
}.

Record DNSEvent := Event {
  Timestamp : Z;
  ID : Z;
  Flags : Z;
  QType : Z;
  QClass : Z;
  NameLen : Z;
  Name : list Z;
  domaine : parties;
  LabelCount : Z;
  MaxLabelLen : Z;
  HasEncoding : bool;
  ClientIP : list Z;
  Grammar : QNameGrammarProfile
}.

Definition zeros (n : nat) : list Z := replicate n 0.
Definition parties_nulles : parties := Parties 0 (zeros 256) 0 (zeros 128) 0 (zeros 64) 0 (zeros 64).

(** [DNSEvent{Timestamp: stamp, ClientIP: client}] *)
Definition event_nul (stamp : Z) (client : list Z) : DNSEvent :=
  Event stamp 0 0 0 0 0 (zeros 256) parties_nulles 0 0 false client profil_nul.

Definition RegistrableSLD (e : DNSEvent) : run (list Z) :=
  if SLDLen (domaine e) =? 0 then Done [] else slice (SLD (domaine e)) 0 (SLDLen (domaine e)).
Definition PublicSuffix (e : DNSEvent) : run (list Z) :=
  if TLDLen (domaine e) =? 0 then Done [] else slice (TLD (domaine e)) 0 (TLDLen (domaine e)).
Definition FQDN (e : DNSEvent) : run (list Z) :=
  if NameLen e =? 0 then Done [] else slice (Name e) 0 (NameLen e).
Definition Parent (e : DNSEvent) : run (list Z) :=
  if ParentDomainLen (domaine e) =? 0 then Done [] else slice (ParentDomain (domaine e)) 0 (ParentDomainLen (domaine e)).
Definition Sub (e : DNSEvent) : run (list Z) :=
  if SubdomainLen (domaine e) =? 0 then Done [] else slice (Subdomain (domaine e)) 0 (SubdomainLen (domaine e)).

Definition suffixesPublics : list (list Z) := octets <$>
  ["co.uk"; "org.uk"; "ac.uk"; "gov.uk"; "me.uk";
   "com.br"; "net.br"; "org.br"; "gov.br";
   "com.au"; "net.au"; "org.au"; "edu.au";
   "co.jp"; "ne.jp"; "or.jp"; "ac.jp";
   "co.nz"; "co.za"; "co.in"; "co.kr"; "co.il"; "co.id"; "co.th";
   "com.cn"; "net.cn"; "org.cn"; "com.hk"; "com.tw"; "com.sg"; "com.my";
   "com.mx"; "com.ar"; "com.co"; "com.pe"; "com.tr"; "com.ua"; "com.pl";
   "com.eg"; "com.sa"; "com.ng"; "com.pk"; "com.vn"; "com.ph"]%string.

Definition isTwoLevelPublicSuffix (suffix : list Z) : bool := existsb (egaux suffix) suffixesPublics.

(** [if n > 0 && n <= len(champ) { copy(champ[:], nom[a:b]); champLen = uint8(n) }] *)
Definition remplir (champ : Z * list Z) (nom : list Z) (a b : Z) : run (Z * list Z) :=
  if (0 <? b - a) && (b - a <=? zlen champ.2)
  then s ← slice nom a b; Done (u8 (b - a), copy_into champ.2 s)
  else Done champ.

Definition populateDomainParts (nom : list Z) (p : parties) (outPos labelCount : Z) (offs : list Z)
  : run parties :=
  if (2 <=? labelCount) && (labelCount - 2 <? maxDNSLabels) then
    '(tldIdx, sldIdx) ←
      (if (3 <=? labelCount) && (labelCount - 3 <? maxDNSLabels) then
         twoLvlStart ← idx offs (labelCount - 2);
         s ← slice nom twoLvlStart outPos;
         Done (if isTwoLevelPublicSuffix s then (labelCount - 2, labelCount - 3)
               else (labelCount - 1, labelCount - 2))
       else Done (labelCount - 1, labelCount - 2));
    parentStartIdx ← idx offs sldIdx;
    tldStartIdx ← idx offs tldIdx;
    '(parentLen, parent) ← remplir (ParentDomainLen p, ParentDomain p) nom parentStartIdx outPos;
    '(sldLen, sld) ←
      (if parentStartIdx + 1 <? tldStartIdx
       then remplir (SLDLen p, SLD p) nom parentStartIdx (tldStartIdx - 1) else Done (SLDLen p, SLD p));
    '(tldLen, tld) ← remplir (TLDLen p, TLD p) nom tldStartIdx outPos;
    '(subLen, sub) ←
      (if 1 <? parentStartIdx
       then remplir (SubdomainLen p, Subdomain p) nom 0 (parentStartIdx - 1)
       else Done (SubdomainLen p, Subdomain p));
    Done (Parties subLen sub parentLen parent sldLen sld tldLen tld)
  else if labelCount =? 1 then
    '(parentLen, parent) ←
      (if outPos <=? zlen (ParentDomain p)
       then s ← slice nom 0 outPos; Done (u8 outPos, copy_into (ParentDomain p) s)
       else Done (ParentDomainLen p, ParentDomain p));
    '(sldLen, sld) ←
      (if outPos <=? zlen (SLD p)
       then s ← slice nom 0 outPos; Done (u8 outPos, copy_into (SLD p) s)
       else Done (SLDLen p, SLD p));
    Done (Parties 0 (Subdomain p) parentLen parent sldLen sld (TLDLen p) (TLD p))
  else Done p.

(** ** Copying labels *)

(** [ev.Name], [ev.HasEncoding] and [ev.Grammar] with the locals [outPos],
    [labelCount], [maxLabelLen] and [totalLabelOffsets]. *)
Record copie := Copie {
  c_nom : list Z;
  c_encodage : bool;
  c_grammaire : QNameGrammarProfile;
  outPos : Z;
  labelCount : Z;
  maxLabelLen : Z;
  totalLabelOffsets : list Z
}.

Definition copie_vide : copie := Copie (zeros 256) false profil_nul 0 0 0 (zeros 128).

(** The body of [for indice, octet := range labelBrut]. *)
Definition pas_copie (tolerant : bool) (debutSortie : Z) (indice octet : Z) (s : list Z * bool)
  : run ((list Z * bool) + erreurDNS) :=
  let '(nom, encodage) := s in
  let octet := minuscule octet in
  if negb (dnsLabelByte octet) && negb (isDNSEncodingByte octet) && negb tolerant
  then Done (inr ErrInvalidLabel) else
  nom ← upd nom (debutSortie + indice) octet;
  Done (inl (nom, if negb (dnsLabelByte octet) && isDNSEncodingByte octet then true else encodage)).

Definition copierLabelQuestion (nom : list Z) (encodage : bool) (labelBrut : list Z) (debutSortie : Z)
    (tolerant : bool) : run ((list Z * bool) + erreurDNS) :=
  for_range (zlen labelBrut) (nom, encodage)
    (fun indice s => octet ← idx labelBrut indice; pas_copie tolerant debutSortie indice octet s).

(** The part of both loops from the [outPos] test to the advance of [outPos]. *)
Definition ajouter_label (tolerant : bool) (c : copie) (labelBrut : list Z) : run (copie + erreurDNS) :=
  let n := zlen labelBrut in
  if 254 <? outPos c + n + 1 then Done (inr ErrNameTooLong) else
  '(nom, out) ←
    (if 0 <? outPos c then nom ← upd (c_nom c) (outPos c) 46; Done (nom, outPos c + 1)
     else Done (c_nom c, outPos c));
  offs ← (if labelCount c <? maxDNSLabels then upd (totalLabelOffsets c) (labelCount c) (u8 out)
          else Done (totalLabelOffsets c));
  o ← copierLabelQuestion nom (c_encodage c) labelBrut out tolerant;
  match o with
  | inr e => Done (inr e)
  | inl (nom, enc) =>
      Done (inl (Copie nom enc
        (if tolerant then observerLabelGrammaire (c_grammaire c) labelBrut (labelCount c) else c_grammaire c)
        (out + n) (labelCount c + 1) (if maxLabelLen c <? n then n else maxLabelLen c) offs))
  end.

(** Every label lengthens the name, of at most 254 octets. *)
Definition carburant_question : nat := 256.

(** The labels behind a compression pointer; no second pointer. *)
Definition suivre_pointeur (raw : list Z) (tolerant : bool) (ptrOffset : Z) (c : copie)
  : run (copie + erreurDNS) :=
  loop (fun '(pOffset, c) =>
    if zlen raw <=? pOffset then Done (inr (inr ErrPacketTooShort)) else
    pLen ← idx raw pOffset;
    if pLen =? 0 then Done (inr (inl c)) else
    if Z.land pLen 192 =? 192 then Done (inr (inr ErrLoopPointer)) else
    if 63 <? pLen then Done (inr (inr ErrInvalidLabel)) else
    if zlen raw <? pOffset + 1 + pLen then Done (inr (inr ErrPacketTooShort)) else
    label ← slice raw (pOffset + 1) (pOffset + 1 + pLen);
    o ← ajouter_label tolerant c label;
    match o with
    | inr e => Done (inr (inr e))
    | inl c => Done (inl (pOffset + 1 + pLen, c))
    end) carburant_question (ptrOffset, c).

(** The main [for]: the name from octet 12; the result is the offset after it. *)
Definition lire_nom_question (raw : list Z) (tolerant : bool) : run ((Z * copie) + erreurDNS) :=
  loop (fun '(offset, c) =>
    if zlen raw <=? offset then Done (inr (inr ErrPacketTooShort)) else
    lenByte ← idx raw offset;
    if lenByte =? 0 then Done (inr (inl (offset + 1, c))) else
    if Z.land lenByte 192 =? 192 then
      if zlen raw <=? offset + 1 then Done (inr (inr ErrPacketTooShort)) else
      mot ← be16 raw offset;
      let ptrOffset := Z.land mot 16383 in
      if (zlen raw <=? ptrOffset) || (ptrOffset <? 12) then Done (inr (inr ErrInvalidLabel)) else
      if ptrOffset =? offset then Done (inr (inr ErrLoopPointer)) else
      o ← suivre_pointeur raw tolerant ptrOffset c;
      match o with
      | inr e => Done (inr (inr e))
      | inl c => Done (inr (inl (offset + 2, c)))
      end
    else
    if 63 <? lenByte then Done (inr (inr ErrInvalidLabel)) else
    if zlen raw <? offset + 1 + lenByte then Done (inr (inr ErrPacketTooShort)) else
    label ← slice raw (offset + 1) (offset + 1 + lenByte);
    o ← ajouter_label tolerant c label;
    match o with
    | inr e => Done (inr (inr e))
    | inl c => Done (inl (offset + 1 + lenByte, c))
    end) carburant_question (12, copie_vide).

(** The event after the call and the error; [None] is the nil pointer. *)
Definition parseDNSQueryWire (raw : list Z) (ev : option DNSEvent) (tolerant : bool)
  : run (option DNSEvent * option erreurDNS) :=
  match ev with
  | None => Done (None, Some ErrQuestionContract)
  | Some ev =>
      let vide := event_nul (Timestamp ev) (ClientIP ev) in
      let rejet e := Done (Some vide, Some e) in
      if zlen raw <? 12 then rejet ErrPacketTooShort else
      id ← be16 raw 0; flags ← be16 raw 2; qdCount ← be16 raw 4;
      if negb (qdCount =? 1) || negb (Z.land flags 0xf800 =? 0) then rejet ErrQuestionContract else
      o ← lire_nom_question raw tolerant;
      match o with
      | inr e => rejet e
      | inl (offset, c) =>
          if negb (offset + 4 <=? zlen raw) then rejet ErrPacketTooShort else
          qtype ← be16 raw offset; qclass ← be16 raw (offset + 2);
          if 253 <? outPos c then rejet ErrNameTooLong else
          if (outPos c =? 0) || (qtype =? 0) || negb (qclass =? 1) then rejet ErrQuestionContract else
          let g := if tolerant then finaliserGrammaire (c_grammaire c) else c_grammaire c in
          p ← populateDomainParts (c_nom c) parties_nulles (outPos c) (labelCount c) (totalLabelOffsets c);
          Done (Some (Event (Timestamp ev) id flags qtype qclass (u8 (outPos c)) (c_nom c) p
                   (u8 (labelCount c)) (u8 (maxLabelLen c)) (c_encodage c) (ClientIP ev) g), None)
      end
  end.

Definition ParseDNSQuery (raw : list Z) (ev : option DNSEvent) := parseDNSQueryWire raw ev false.
Definition ParseDNSQueryTolerant (raw : list Z) (ev : option DNSEvent) := parseDNSQueryWire raw ev true.

(** ** Textual names *)

(** One turn of [for i := range n]; the first component is [labelStart]. *)
Definition pas_texte (qname : list Z) (i : Z) (s : Z * copie) : run ((Z * copie) + erreurDNS) :=
  let '(labelStart, c) := s in
  b ← idx qname i;
  if b =? 46 then
    let lLen := i - labelStart in
    if (lLen =? 0) || (63 <? lLen) then Done (inr ErrInvalidLabel) else
    offs ← (if labelCount c <? maxDNSLabels then upd (totalLabelOffsets c) (labelCount c) (u8 labelStart)
            else Done (totalLabelOffsets c));
    nom ← upd (c_nom c) i 46;
    Done (inl (i + 1, Copie nom (c_encodage c) (c_grammaire c) (outPos c) (labelCount c + 1)
                        (if maxLabelLen c <? lLen then lLen else maxLabelLen c) offs))
  else
    let b := minuscule b in
    if negb (dnsLabelByte b) && negb (isDNSEncodingByte b) then Done (inr ErrInvalidLabel) else
    let enc := if negb (dnsLabelByte b) then true else c_encodage c in
    nom ← upd (c_nom c) i b;
    Done (inl (labelStart, Copie nom enc (c_grammaire c) (outPos c) (labelCount c) (maxLabelLen c)
                             (totalLabelOffsets c))).

Definition ParseDNSName (qname : list Z) (qtype : Z) (ev : option DNSEvent)
  : run (option DNSEvent * option erreurDNS) :=
  match ev with
  | None => Done (None, Some ErrQuestionContract)
  | Some ev =>
      let vide := event_nul (Timestamp ev) (ClientIP ev) in
      let rejet e := Done (Some vide, Some e) in
      if qtype =? 0 then rejet ErrQuestionContract else
      qname ← sans_point qname;
      let n := zlen qname in
      if n =? 0 then rejet ErrQuestionContract else
      if 253 <? n then rejet ErrNameTooLong else
      o ← for_range n (0, copie_vide) (pas_texte qname);
      match o with
      | inr e => rejet e
      | inl (labelStart, c) =>
          let lastLen := n - labelStart in
          if (lastLen =? 0) || (63 <? lastLen) then rejet ErrInvalidLabel else
          offs ← (if labelCount c <? maxDNSLabels then upd (totalLabelOffsets c) (labelCount c) (u8 labelStart)
                  else Done (totalLabelOffsets c));
          let lc := labelCount c + 1 in
          let ml := if maxLabelLen c <? lastLen then lastLen else maxLabelLen c in
          p ← populateDomainParts (c_nom c) parties_nulles n lc offs;
          Done (Some (Event (Timestamp ev) 0 0 qtype 1 (u8 n) (c_nom c) p (u8 lc) (u8 ml)
                   (c_encodage c) (ClientIP ev) profil_nul), None)
      end
  end.

(** * The event determined by the labels *)

(** An array of [cap] cells filled from the left. *)
Definition tableau (cap : nat) (s : list Z) : list Z := s ++ zeros (cap - length s).

Definition bas (l : list Z) : list Z := minuscule <$> l.
Definition encodage (octet : Z) : bool := isDNSEncodingByte (minuscule octet).
Definition avec_encodage (ls : list (list Z)) : bool := existsb (existsb encodage) ls.

(** Wire octets of the labels, and the offset of each label in the dotted name. *)
Definition taille_labels (ls : list (list Z)) : Z := foldr (fun l a => zlen l + 1 + a) 0 ls.
Fixpoint debuts (pos : Z) (ls : list (list Z)) : list Z :=
  match ls with [] => [] | l :: r => pos :: debuts (pos + zlen l + 1) r end.
Definition plus_long (ls : list (list Z)) : Z := foldr Z.max 0 (zlen <$> ls).

Definition copie_de (tolerant : bool) (ls : list (list Z)) : copie :=
  Copie (tableau 256 (nom_pointe ls)) (avec_encodage ls) (if tolerant then releve ls else profil_nul)
    (zlen (nom_pointe ls)) (zlen ls) (plus_long ls) (tableau 128 (debuts 0 ls)).

Definition champ (cap : nat) (s : list Z) : Z * list Z := (zlen s, tableau cap s).

(** Number of labels of the public suffix: two for the listed ones. *)
Definition labels_suffixe (ls : list (list Z)) : nat :=
  if (3 <=? zlen ls) && isTwoLevelPublicSuffix (nom_pointe (drop (length ls - 2) ls)) then 2 else 1.

Definition sous_domaine (ls : list (list Z)) : list Z := nom_pointe (take (length ls - S (labels_suffixe ls)) ls).
Definition parent (ls : list (list Z)) : list Z := nom_pointe (drop (length ls - S (labels_suffixe ls)) ls).
Definition enregistre (ls : list (list Z)) : list Z :=
  bas (default [] (ls !! (length ls - S (labels_suffixe ls))%nat)).
Definition suffixe (ls : list (list Z)) : list Z :=
  if zlen ls =? 1 then [] else nom_pointe (drop (length ls - labels_suffixe ls) ls).

Definition parties_de (ls : list (list Z)) : parties :=
  let '(subLen, sub) := champ 256 (sous_domaine ls) in
  let '(parentLen, par) := champ 128 (parent ls) in
  let '(sldLen, sld) := champ 64 (enregistre ls) in
  let '(tldLen, tld) := champ 64 (suffixe ls) in
  Parties subLen sub parentLen par sldLen sld tldLen tld.

Definition evenement (stamp : Z) (client : list Z) (id flags qtype : Z) (g : QNameGrammarProfile)
    (ls : list (list Z)) : DNSEvent :=
  Event stamp id flags qtype 1 (zlen (nom_pointe ls)) (tableau 256 (nom_pointe ls)) (parties_de ls)
    (zlen ls) (plus_long ls) (avec_encodage ls) client g.

(** Labels of the wire: 1 to 63 octets. *)
Definition labels_ok (ls : list (list Z)) : Prop := Forall (fun l => 1 <= zlen l <= 63) ls.

(** ** Dotted names *)

Lemma joindre_app ls ks : forall acc, joindre acc (ls ++ ks) = joindre (joindre acc ls) ks.
Proof. induction ls as [|l ls IH]; intros acc; [done|]. apply IH. Qed.

Lemma pointe_snoc ls l :
  nom_pointe (ls ++ [l]) = nom_pointe ls ++ (if zlen (nom_pointe ls) =? 0 then [] else [46]) ++ bas l.
Proof. unfold nom_pointe. by rewrite joindre_app. Qed.

Lemma zlen_bas l : zlen (bas l) = zlen l.
Proof. apply zlen_fmap. Qed.

Lemma taille_app ls ks : taille_labels (ls ++ ks) = taille_labels ls + taille_labels ks.
Proof. unfold taille_labels. induction ls as [|l ls IH]; simpl; lia. Qed.

Lemma taille_cons l ls : taille_labels (l :: ls) = zlen l + 1 + taille_labels ls.
Proof. done. Qed.

Lemma taille_nonneg ls : 0 <= taille_labels ls.
Proof. induction ls as [|l ls IH]; [done|]. rewrite taille_cons. pose proof (zlen_nonneg l). lia. Qed.

Lemma zlen_filaire ls : zlen (nom_filaire ls) = taille_labels ls + 1.
Proof. induction ls as [|l ls IH]; [done|]. rewrite zlen_filaire_cons, IH, taille_cons. lia. Qed.

Lemma zlen_pointe ls : labels_ok ls ->
  zlen (nom_pointe ls) = match ls with [] => 0 | _ => taille_labels ls - 1 end.
Proof.
  intros Hls. induction ls as [|l ls IH] using rev_ind; [done|].
  apply Forall_app in Hls as [Hls [Hl _]%Forall_cons_iff]. specialize (IH Hls).
  rewrite pointe_snoc, !zlen_app, zlen_bas, taille_app, taille_cons.
  change (taille_labels []) with 0. destruct ls as [|k ls]; [rewrite IH; cbn -[zlen]; change (@zlen Z []) with 0; lia|].
  pose proof (taille_nonneg ls). apply Forall_cons_iff in Hls as [Hk _].
  rewrite IH, taille_cons. destruct (Z.eqb_spec (zlen k + 1 + taille_labels ls - 1) 0); [lia|].
  cbn [app]. rewrite zlen_cons, zlen_nil. lia.
Qed.

Lemma pointe_nonvide ls : labels_ok ls -> (zlen (nom_pointe ls) =? 0) = true <-> ls = [].
Proof.
  intros Hls. pose proof (zlen_pointe ls Hls) as H. rewrite Z.eqb_eq, H.
  destruct ls as [|l ls]; [done|]. apply Forall_cons_iff in Hls as [Hl _].
  pose proof (taille_nonneg ls). rewrite taille_cons. split; [lia|done].
Qed.

Lemma length_debuts ls : forall pos, length (debuts pos ls) = length ls.
Proof. induction ls as [|l ls IH]; intros pos; simpl; auto. Qed.

Lemma debuts_snoc ls l : forall pos, debuts pos (ls ++ [l]) = debuts pos ls ++ [pos + taille_labels ls].
Proof.
  induction ls as [|k ls IH]; intros pos; cbn [app debuts]; [by rewrite Z.add_0_r|].
  rewrite IH, taille_cons. by replace (pos + zlen k + 1 + taille_labels ls) with (pos + (zlen k + 1 + taille_labels ls)) by lia.
Qed.

Lemma plus_long_snoc ls l : plus_long (ls ++ [l]) = Z.max (plus_long ls) (zlen l).
Proof.
  induction ls as [|k ls IH].
  - unfold plus_long. cbn -[zlen]. pose proof (zlen_nonneg l). lia.
  - change (Z.max (zlen k) (plus_long (ls ++ [l])) = Z.max (Z.max (zlen k) (plus_long ls)) (zlen l)).
    rewrite IH. lia.
Qed.

Lemma zlen_labels ls : labels_ok ls -> 2 * zlen ls <= taille_labels ls.
Proof.
  induction 1 as [|l ls Hl _ IH]; [done|]. rewrite zlen_cons, taille_cons. lia.
Qed.

(** ** Arrays *)

Lemma length_zeros n : length (zeros n) = n.
Proof. apply length_replicate. Qed.

Lemma zlen_tableau cap s : (length s <= cap)%nat -> zlen (tableau cap s) = Z.of_nat cap.
Proof. intros H. unfold tableau, zlen. rewrite length_app, length_zeros. lia. Qed.

Lemma upd_tableau cap s i x : i = zlen s -> (length s < cap)%nat ->
  upd (tableau cap s) i x = Done (tableau cap (s ++ [x])).
Proof.
  intros -> Hc. unfold tableau. rewrite length_app. cbn [length].
  replace (cap - length s)%nat with (S (cap - (length s + 1)))%nat by lia.
  unfold zeros. cbn [replicate]. rewrite upd_mid by done. by rewrite <- app_assoc.
Qed.

Lemma tableau_nil cap : tableau cap [] = zeros cap.
Proof. unfold tableau. simpl. by rewrite Nat.sub_0_r. Qed.

Lemma copy_tableau cap s : (length s <= cap)%nat -> copy_into (zeros cap) s = tableau cap s.
Proof.
  intros H. unfold copy_into, tableau, zeros. rewrite length_replicate, drop_replicate.
  by rewrite take_ge by lia.
Qed.

Lemma slice_tableau cap s a b : 0 <= a <= b -> b <= zlen s ->
  slice (tableau cap s) a b = Done (take (Z.to_nat (b - a)) (drop (Z.to_nat a) s)).
Proof.
  intros Ha Hb. unfold slice, tableau. rewrite zlen_app.
  destruct (_ && _) eqn:E; [|exfalso; rewrite !andb_false_iff in E; pose proof (zlen_nonneg (zeros (cap - length s)));
    destruct E as [[E|E]|E]; zbool; lia].
  f_equal. unfold zlen in *. rewrite drop_app_le, take_app_le by (rewrite ?length_drop; lia). done.
Qed.

(** ** One label *)

Lemma encodage_pas_label o : isDNSEncodingByte o = true -> dnsLabelByte o = false.
Proof.
  unfold isDNSEncodingByte, dnsLabelByte. intros H. rewrite !orb_true_iff, !Z.eqb_eq in H.
  destruct H as [[-> | ->] | ->]; done.
Qed.

Lemma pas_copie_exact tolerant d i o s e : d + i = zlen s -> zlen s < 256 ->
  pas_copie tolerant d i o (tableau 256 s, e)
  = Done (if hors o && negb tolerant then inr ErrInvalidLabel
          else inl (tableau 256 (s ++ [minuscule o]), e || encodage o)).
Proof.
  intros Hi Hs. unfold pas_copie, hors, ldh, encodage. rewrite negb_orb.
  pose proof (encodage_pas_label (minuscule o)) as He.
  rewrite upd_tableau by (done || (unfold zlen in Hs; lia)).
  destruct (dnsLabelByte (minuscule o)), (isDNSEncodingByte (minuscule o)), tolerant; cbn [negb andb];
    rewrite ?run_bind_done, ?orb_true_r, ?orb_false_r; try done; by specialize (He eq_refl).
Qed.

Lemma parcourir_copie tolerant d l : forall i s e, d + i = zlen s -> zlen s + zlen l <= 256 ->
  parcourir (pas_copie tolerant d) i l (tableau 256 s, e)
  = Done (if label_hors l && negb tolerant then inr ErrInvalidLabel
          else inl (tableau 256 (s ++ bas l), e || existsb encodage l)).
Proof.
  induction l as [|o l IH]; intros i s e Hi Hs; cbn [parcourir].
  - change (bas []) with (@nil Z). by rewrite app_nil_r, orb_false_r.
  - rewrite zlen_cons in Hs. pose proof (zlen_nonneg l). rewrite pas_copie_exact, run_bind_done by lia.
    unfold label_hors. cbn [existsb]. destruct (hors o && negb tolerant) eqn:E.
    { apply andb_true_iff in E as [-> ->]. by cbn. }
    rewrite IH by (rewrite ?zlen_app, ?zlen_cons, ?zlen_nil; lia).
    rewrite <- app_assoc, orb_assoc. cbn [app].
    assert ((hors o || existsb hors l) && negb tolerant = label_hors l && negb tolerant) as ->; [|done].
    unfold label_hors. by destruct (hors o), tolerant; rewrite ?andb_false_r.
Qed.

Lemma copier_exact s e l tolerant : zlen s + zlen l <= 256 ->
  copierLabelQuestion (tableau 256 s) e l (zlen s) tolerant
  = Done (if label_hors l && negb tolerant then inr ErrInvalidLabel
          else inl (tableau 256 (s ++ bas l), e || existsb encodage l)).
Proof.
  intros H. unfold copierLabelQuestion. rewrite (for_range_liste (pas_copie tolerant (zlen s))).
  apply parcourir_copie; [lia|done].
Qed.

(** The beginning of a new label in the dotted name. *)
Lemma debut_pointe ls : labels_ok ls ->
  zlen (nom_pointe ls ++ (if zlen (nom_pointe ls) =? 0 then [] else [46])) = taille_labels ls.
Proof.
  intros Hls. rewrite zlen_app. pose proof (zlen_pointe ls Hls) as Hz. pose proof (pointe_nonvide ls Hls) as He.
  destruct (zlen (nom_pointe ls) =? 0) eqn:E in He |- *.
  - destruct He as [He _]. specialize (He eq_refl). by subst ls.
  - rewrite Hz. change (zlen [46]) with 1. destruct ls; [by discriminate (proj2 He eq_refl)|]. lia.
Qed.

(** Adding a label to the copy of [ls] gives the copy of [ls ++ [l]]. *)
Lemma ajouter_exact tolerant ls l :
  labels_ok ls -> 1 <= zlen l <= 63 -> zlen (nom_pointe ls) <= 254 ->
  ajouter_label tolerant (copie_de tolerant ls) l
  = Done (if 254 <? zlen (nom_pointe ls) + zlen l + 1 then inr ErrNameTooLong
          else if label_hors l && negb tolerant then inr ErrInvalidLabel
          else inl (copie_de tolerant (ls ++ [l]))).
Proof.
  intros Hls Hl Hp. unfold ajouter_label. cbn [copie_de outPos c_nom labelCount totalLabelOffsets c_encodage c_grammaire maxLabelLen].
  destruct (Z.ltb_spec 254 (zlen (nom_pointe ls) + zlen l + 1)) as [|Hlen]; [done|].
  pose proof (zlen_nonneg (nom_pointe ls)) as Hp0. pose proof (debut_pointe ls Hls) as Hd.
  set (sep := if zlen (nom_pointe ls) =? 0 then [] else [46]) in *.
  assert ((if 0 <? zlen (nom_pointe ls)
           then nom ← upd (tableau 256 (nom_pointe ls)) (zlen (nom_pointe ls)) 46; Done (nom, zlen (nom_pointe ls) + 1)
           else Done (tableau 256 (nom_pointe ls), zlen (nom_pointe ls)))
          = Done (tableau 256 (nom_pointe ls ++ sep), taille_labels ls)) as ->.
  { rewrite <- Hd. unfold sep. destruct (Z.ltb_spec 0 (zlen (nom_pointe ls))), (Z.eqb_spec (zlen (nom_pointe ls)) 0); try lia.
    - rewrite upd_tableau by (done || (unfold zlen in *; lia)). rewrite run_bind_done.
      by rewrite zlen_app, zlen_cons, zlen_nil.
    - by rewrite app_nil_r. }
  assert (taille_labels ls <= 255) as Ht.
  { rewrite <- Hd, zlen_app. unfold sep. destruct (_ =? 0); rewrite ?zlen_cons, ?zlen_nil; lia. }
  assert (taille_labels ls + zlen l <= 254) as Ht2.
  { rewrite <- Hd, zlen_app. unfold sep. destruct (Z.eqb_spec (zlen (nom_pointe ls)) 0); rewrite ?zlen_cons, ?zlen_nil; lia. }
  pose proof (zlen_labels ls Hls) as Hc. pose proof (taille_nonneg ls) as Ht0.
  rewrite run_bind_done. replace (zlen ls <? maxDNSLabels) with true by (symmetry; apply Z.ltb_lt; unfold maxDNSLabels; lia).
  assert (zlen (debuts 0 ls) = zlen ls) as Hdl by (unfold zlen; by rewrite length_debuts).
  rewrite upd_tableau by (done || (unfold zlen in *; rewrite ?length_debuts; lia)).
  rewrite run_bind_done, (u8_id (taille_labels ls)) by (unfold is_u8; lia).
  rewrite <- Hd, copier_exact, run_bind_done by (rewrite Hd; lia).
  destruct (label_hors l && negb tolerant); [done|]. do 2 f_equal. unfold copie_de.
  rewrite pointe_snoc. fold sep. rewrite app_assoc, debuts_snoc, plus_long_snoc.
  rewrite (zlen_app (nom_pointe ls ++ sep)), zlen_bas, Z.add_0_l, Hd.
  unfold avec_encodage. rewrite existsb_app. cbn [existsb]. rewrite orb_false_r. f_equal.
  - destruct tolerant; [|done]. apply observer_releve.
  - by rewrite zlen_app.
  - destruct (Z.ltb_spec (plus_long ls) (zlen l)); lia.
Qed.

(** ** The split of a name *)

Lemma labels_ok_app ls ks : labels_ok (ls ++ ks) <-> labels_ok ls /\ labels_ok ks.
Proof. apply Forall_app. Qed.

Lemma labels_ok_take n ls : labels_ok ls -> labels_ok (take n ls).
Proof. apply Forall_take. Qed.
Lemma labels_ok_drop n ls : labels_ok ls -> labels_ok (drop n ls).
Proof. apply Forall_drop. Qed.

Lemma pointe_app ls ks : labels_ok ls -> labels_ok ks -> ls <> [] -> ks <> [] ->
  nom_pointe (ls ++ ks) = nom_pointe ls ++ 46 :: nom_pointe ks.
Proof.
  intros Hls Hks Hn. induction ks as [|k ks IH] using rev_ind; [done|]. intros _.
  apply labels_ok_app in Hks as [Hks Hk].
  rewrite app_assoc, pointe_snoc, (pointe_snoc ks k).
  destruct (decide (ks = [])) as [->|Hne].
  - rewrite app_nil_r. change (nom_pointe []) with (@nil Z). cbn [app]. change (zlen [] =? 0) with true. cbn [app].
    destruct (zlen (nom_pointe ls) =? 0) eqn:E; [|done]. by apply pointe_nonvide in E.
  - rewrite (IH Hks Hne), <- app_assoc. cbn [app].
    destruct (zlen (nom_pointe ks) =? 0) eqn:E; [by apply pointe_nonvide in E|].
    rewrite zlen_app, zlen_cons. pose proof (zlen_nonneg (nom_pointe ls)). pose proof (zlen_nonneg (nom_pointe ks)).
    by destruct (Z.eqb_spec (zlen (nom_pointe ls) + (1 + zlen (nom_pointe ks))) 0); [lia|].
Qed.

(** Start of label [k] in the dotted name. *)
Definition debut (ls : list (list Z)) (k : nat) : Z := taille_labels (take k ls).

Lemma lookup_debuts ls : forall pos k, (k < length ls)%nat ->
  debuts pos ls !! k = Some (pos + debut ls k).
Proof.
  unfold debut. induction ls as [|l ls IH]; intros pos [|k] Hk; cbn [length] in Hk; [lia|lia| |].
  - cbn. by rewrite Z.add_0_r.
  - cbn [debuts lookup list_lookup take]. rewrite IH by lia. rewrite taille_cons. f_equal. lia.
Qed.

Lemma idx_debuts ls k i : i = Z.of_nat k -> (k < length ls)%nat ->
  idx (tableau 128 (debuts 0 ls)) i = Done (debut ls k).
Proof.
  intros -> Hk. apply idx_lookup; [lia|]. rewrite Nat2Z.id. unfold tableau.
  rewrite lookup_app_l by (by rewrite length_debuts). by rewrite lookup_debuts.
Qed.

Lemma debut_zero ls : debut ls 0 = 0.
Proof. done. Qed.

Lemma debut_suivant ls k l : ls !! k = Some l -> debut ls (S k) = debut ls k + zlen l + 1.
Proof.
  intros H. unfold debut. rewrite (take_S_r _ _ _ H), taille_app, taille_cons.
  change (taille_labels []) with 0. lia.
Qed.

Lemma zlen_pointe_take ls k : labels_ok ls -> (0 < k <= length ls)%nat ->
  zlen (nom_pointe (take k ls)) = debut ls k - 1.
Proof.
  intros Hls Hk. rewrite zlen_pointe by by apply labels_ok_take. unfold debut.
  destruct ls as [|l ls]; [cbn in Hk; lia|]. destruct k; [lia|]. done.
Qed.

(** The dotted name cut at the start of label [k]. *)
Lemma pointe_coupe ls k : labels_ok ls -> (0 < k < length ls)%nat ->
  nom_pointe ls = nom_pointe (take k ls) ++ 46 :: nom_pointe (drop k ls).
Proof.
  intros Hls Hk. rewrite <- (take_drop k ls) at 1. apply pointe_app; [by apply labels_ok_take|by apply labels_ok_drop| |].
  - intros H. apply (f_equal length) in H. rewrite length_take in H. cbn in H. lia.
  - intros H. apply (f_equal length) in H. rewrite length_drop in H. cbn in H. lia.
Qed.

Lemma pointe_depuis ls k : labels_ok ls -> (k < length ls)%nat ->
  drop (Z.to_nat (debut ls k)) (nom_pointe ls) = nom_pointe (drop k ls).
Proof.
  intros Hls Hk. destruct k as [|k]; [done|]. rewrite (pointe_coupe ls (S k)) by (done || lia).
  pose proof (zlen_pointe_take ls (S k) Hls ltac:(lia)) as Hz.
  replace (Z.to_nat (debut ls (S k))) with (length (nom_pointe (take (S k) ls)) + 1)%nat by (unfold zlen in Hz; lia).
  rewrite <- drop_drop, drop_app_length. done.
Qed.

Lemma pointe_avant ls k : labels_ok ls -> (0 < k <= length ls)%nat ->
  take (Z.to_nat (debut ls k - 1)) (nom_pointe ls) = nom_pointe (take k ls).
Proof.
  intros Hls Hk. pose proof (zlen_pointe_take ls k Hls Hk) as Hz.
  replace (Z.to_nat (debut ls k - 1)) with (length (nom_pointe (take k ls))) by (unfold zlen in Hz; lia).
  destruct (decide (k = length ls)) as [->|].
  - by rewrite (take_ge ls), take_ge.
  - rewrite (pointe_coupe ls k) by (done || lia). apply take_app_length.
Qed.

Lemma zlen_depuis ls k : labels_ok ls -> (k < length ls)%nat ->
  zlen (nom_pointe (drop k ls)) = zlen (nom_pointe ls) - debut ls k.
Proof.
  intros Hls Hk. destruct k as [|k]; [rewrite debut_zero, drop_0; lia|].
  rewrite (pointe_coupe ls (S k)), zlen_app, zlen_cons, zlen_pointe_take by (done || lia). lia.
Qed.

Lemma pointe_un l : nom_pointe [l] = bas l.
Proof. done. Qed.

Lemma remplir_exact cap p a b : 0 <= a -> a < b <= zlen p -> zlen p <= 253 -> b - a <= Z.of_nat cap ->
  remplir (0, zeros cap) (tableau 256 p) a b
  = Done (champ cap (take (Z.to_nat (b - a)) (drop (Z.to_nat a) p))).
Proof.
  intros Ha Hab Hp Hc. unfold remplir. cbn [snd].
  assert (zlen (zeros cap) = Z.of_nat cap) as -> by (unfold zlen; by rewrite length_zeros).
  destruct (_ && _) eqn:E; [|exfalso; apply andb_false_iff in E; destruct E; zbool; lia].
  rewrite slice_tableau, run_bind_done by lia.
  pose proof (zlen_slice p a b ltac:(lia) ltac:(lia)) as Hz. set (s := take _ _) in *.
  rewrite copy_tableau by (unfold zlen in Hz; lia). unfold champ. by rewrite Hz, u8_id by (unfold is_u8; lia).
Qed.

Lemma public_court s : isTwoLevelPublicSuffix s = true -> zlen s <= 6.
Proof.
  unfold isTwoLevelPublicSuffix. rewrite existsb_exists. intros (x & Hx & He).
  assert (forallb (fun s => zlen s <=? 6) suffixesPublics = true) as H by by vm_compute.
  pose proof (proj1 (forallb_forall _ _) H _ Hx) as Hl. apply Z.leb_le in Hl.
  apply bool_decide_eq_true in He as ->. exact Hl.
Qed.

Lemma labels_suffixe_bornes ls : 2 <= zlen ls -> (1 <= labels_suffixe ls < length ls)%nat.
Proof.
  unfold labels_suffixe, zlen. intros H. destruct (Z.leb_spec 3 (Z.of_nat (length ls))); cbn [andb]; [|lia].
  destruct (isTwoLevelPublicSuffix _); lia.
Qed.

(** Parent and suffix fit their arrays. *)
Lemma suffixe_court ls : labels_ok ls -> 2 <= zlen ls ->
  1 <= zlen (nom_pointe (drop (length ls - labels_suffixe ls) ls)) <= 63.
Proof.
  intros Hls Hn. pose proof (labels_suffixe_bornes ls Hn) as Hk.
  pose proof (labels_ok_drop (length ls - labels_suffixe ls) ls Hls) as Hd.
  assert (length (drop (length ls - labels_suffixe ls) ls) = labels_suffixe ls) as Hl by (rewrite length_drop; lia).
  split.
  - rewrite zlen_pointe by done. revert Hd Hl. destruct (drop _ ls) as [|l r]; intros Hd Hl; [cbn in Hl; lia|].
    apply Forall_cons_iff in Hd as [Hd _]. rewrite taille_cons. pose proof (taille_nonneg r). lia.
  - revert Hd Hl. unfold labels_suffixe. destruct (_ && _) eqn:E.
    + apply andb_true_iff in E as [_ E]. apply public_court in E. lia.
    + destruct (drop (length ls - 1) ls) as [|l [|]]; intros Hd Hl; [cbn in Hl; lia| |cbn in Hl; lia]. rewrite pointe_un, zlen_bas.
      apply Forall_cons_iff in Hd as [Hd _]. lia.
Qed.

Lemma choix_suffixe ls : labels_ok ls -> 2 <= zlen ls <= 128 -> zlen (nom_pointe ls) <= 253 ->
  (if (3 <=? zlen ls) && (zlen ls - 3 <? maxDNSLabels) then
     twoLvlStart ← idx (tableau 128 (debuts 0 ls)) (zlen ls - 2);
     s ← slice (tableau 256 (nom_pointe ls)) twoLvlStart (zlen (nom_pointe ls));
     Done (if isTwoLevelPublicSuffix s then (zlen ls - 2, zlen ls - 3) else (zlen ls - 1, zlen ls - 2))
   else Done (zlen ls - 1, zlen ls - 2))
  = Done (zlen ls - Z.of_nat (labels_suffixe ls), zlen ls - Z.of_nat (labels_suffixe ls) - 1).
Proof.
  intros Hls Hn Hp. unfold labels_suffixe, maxDNSLabels.
  destruct (Z.leb_spec 3 (zlen ls)); cbn [andb]; [|do 2 f_equal; lia].
  destruct (Z.ltb_spec (zlen ls - 3) 128); [|lia].
  assert (length ls - 2 < length ls)%nat as Hk by (unfold zlen in *; lia).
  rewrite (idx_debuts ls (length ls - 2)), run_bind_done by (unfold zlen in *; lia).
  pose proof (zlen_depuis ls _ Hls Hk) as Hz. pose proof (zlen_nonneg (nom_pointe (drop (length ls - 2) ls))).
  assert (0 <= debut ls (length ls - 2)) by apply taille_nonneg.
  rewrite slice_tableau, run_bind_done by lia.
  rewrite pointe_depuis by done.
  rewrite take_ge by (unfold zlen in *; lia). destruct (isTwoLevelPublicSuffix _); do 2 f_equal; lia.
Qed.

Lemma populate_exact ls : labels_ok ls -> ls <> [] -> zlen ls <= 128 -> zlen (nom_pointe ls) <= 253 ->
  populateDomainParts (tableau 256 (nom_pointe ls)) parties_nulles (zlen (nom_pointe ls)) (zlen ls)
    (tableau 128 (debuts 0 ls)) = Done (parties_de ls).
Proof.
  intros Hls Hne Hn Hp. unfold populateDomainParts, parties_nulles.
  cbn [ParentDomainLen ParentDomain SLDLen SLD TLDLen TLD SubdomainLen Subdomain].
  destruct (decide (2 <= zlen ls)) as [H2|H2].
  - destruct (_ && _) eqn:E; [clear E|exfalso; apply andb_false_iff in E; unfold maxDNSLabels in E; destruct E; zbool; lia].
    rewrite choix_suffixe, run_bind_done by (done || lia).
    pose proof (labels_suffixe_bornes ls H2) as Hk. pose proof (suffixe_court ls Hls H2) as Hsuf.
    unfold parties_de, sous_domaine, parent, enregistre, suffixe.
    rewrite (proj2 (Z.eqb_neq (zlen ls) 1)) by lia.
    set (i := (length ls - S (labels_suffixe ls))%nat).
    replace (length ls - labels_suffixe ls)%nat with (S i) in * by lia.
    assert (Hi : (S i < length ls)%nat) by lia.
    assert (Hz2 : zlen ls - Z.of_nat (labels_suffixe ls) = Z.of_nat (S i)) by (unfold zlen; lia).
    assert (Hz1 : zlen ls - Z.of_nat (labels_suffixe ls) - 1 = Z.of_nat i) by lia.
    clearbody i.
    rewrite Hz1, Hz2, (idx_debuts ls i (Z.of_nat i)), run_bind_done by lia.
    rewrite (idx_debuts ls (S i) (Z.of_nat (S i))), run_bind_done by lia.
    destruct (lookup_lt_is_Some_2 ls i) as [l Hl]; [lia|]. rewrite Hl. cbn [default].
    pose proof (proj1 (Forall_lookup _ _) Hls _ _ Hl) as Hll. cbn in Hll.
    pose proof (debut_suivant ls i l Hl) as Hds. pose proof (taille_nonneg (take i ls)) as H0. fold (debut ls i) in H0.
    rewrite zlen_depuis in Hsuf by (done || lia).
    set (p := nom_pointe ls) in *.
    rewrite (remplir_exact 128 p (debut ls i) (zlen p)), run_bind_done by lia; unfold champ at 1.
    destruct (Z.ltb_spec (debut ls i + 1) (debut ls (S i))); [|lia].
    rewrite (remplir_exact 64 p (debut ls i) (debut ls (S i) - 1)), run_bind_done by lia; unfold champ at 1.
    rewrite (remplir_exact 64 p (debut ls (S i)) (zlen p)), run_bind_done by lia; unfold champ at 1.
    unfold champ, p. rewrite !pointe_depuis by (done || lia). fold p.
    assert (drop i ls = l :: drop (S i) ls) as Hdi by by apply drop_S.
    pose proof (pointe_coupe (drop i ls) 1 (labels_ok_drop i ls Hls)) as Hc. rewrite Hdi in Hc.
    specialize (Hc ltac:(cbn [length]; rewrite length_drop; lia)). change (take 1 (l :: drop (S i) ls)) with [l] in Hc.
    change (drop 1 (l :: drop (S i) ls)) with (drop (S i) ls) in Hc. rewrite pointe_un in Hc.
    pose proof (zlen_depuis ls i Hls ltac:(lia)) as Hz3. pose proof (zlen_depuis ls (S i) Hls Hi) as Hz4. fold p in Hz3, Hz4.
    rewrite (take_ge (nom_pointe (drop i ls))) by (unfold zlen in *; lia).
    rewrite (take_ge (nom_pointe (drop (S i) ls))) by (unfold zlen in *; lia).
    assert (take (Z.to_nat (debut ls (S i) - 1 - debut ls i)) (nom_pointe (drop i ls)) = bas l) as ->.
    { rewrite Hdi, Hc. apply take_app_length'. unfold bas, zlen in *. rewrite length_fmap. lia. }
    destruct i as [|i].
    + change (debut ls 0) with 0. cbn [Z.ltb Z.compare]. by rewrite run_bind_done.
    + destruct (lookup_lt_is_Some_2 ls i) as [l' Hl']; [lia|].
      pose proof (debut_suivant ls i l' Hl'). pose proof (proj1 (Forall_lookup _ _) Hls _ _ Hl') as Hll'. cbn in Hll'.
      assert (0 <= debut ls i) by apply taille_nonneg.
      destruct (Z.ltb_spec 1 (debut ls (S i))); [|lia].
      rewrite (remplir_exact 256 p 0 (debut ls (S i) - 1)), run_bind_done by lia; unfold champ at 1.
      rewrite Z.sub_0_r. unfold p. by rewrite drop_0, pointe_avant by (done || lia).
  - destruct ls as [|l [|k ls]]; [done| |rewrite !zlen_cons in H2; pose proof (zlen_nonneg ls); lia].
    pose proof (proj1 (Forall_cons_iff _ _ _) Hls) as [Hl _]. change (nom_pointe [l]) with (bas l) in *.
    change (zlen [l]) with 1. cbn [Z.leb Z.compare andb Z.eqb Pos.eqb Pos.compare Pos.compare_cont].
    pose proof (zlen_bas l) as Hzb. rewrite Hzb in *.
    change (zlen (zeros 128)) with 128. change (zlen (zeros 64)) with 64.
    replace (zlen l <=? 128) with true by (symmetry; apply Z.leb_le; lia).
    replace (zlen l <=? 64) with true by (symmetry; apply Z.leb_le; lia).
    rewrite slice_tableau, !run_bind_done by lia. change (Z.to_nat 0) with 0%nat. rewrite drop_0.
    assert (length (bas l) <= 64)%nat by (unfold zlen in *; lia).
    rewrite take_ge by (unfold zlen in *; lia).
    rewrite !copy_tableau, u8_id by (lia || (unfold is_u8; lia)).
    unfold parties_de, champ. change (parent [l]) with (bas l). change (enregistre [l]) with (bas l). by rewrite Hzb.
Qed.

(** * What a packet spells *)

(** The labels [ls] spelled at offset [o], whose in-line encoding ends at [e];
    [saut] tells whether one compression pointer may still be followed. *)
Inductive nom_en (raw : list Z) : bool -> Z -> list (list Z) -> Z -> Prop :=
  | nom_fin saut o : idx raw o = Done 0 -> nom_en raw saut o [] (o + 1)
  | nom_label saut o l ls e :
      idx raw o = Done (zlen l) -> 1 <= zlen l <= 63 ->
      slice raw (o + 1) (o + 1 + zlen l) = Done l ->
      nom_en raw saut (o + 1 + zlen l) ls e -> nom_en raw saut o (l :: ls) e
  | nom_saut o b mot ls e :
      idx raw o = Done b -> Z.land b 192 = 192 -> be16 raw o = Done mot ->
      12 <= Z.land mot 16383 < zlen raw -> Z.land mot 16383 <> o ->
      nom_en raw false (Z.land mot 16383) ls e -> nom_en raw true o ls (o + 2).

(** Names that fit and, for the strict parser, hold no octet outside LDH and [+/=]. *)
Definition admissible (tolerant : bool) (ls : list (list Z)) : Prop :=
  zlen (nom_pointe ls) <= 253 /\ (tolerant = false -> existsb label_hors ls = false).

Lemma slice_bornes {A} (l : list A) a b r : slice l a b = Done r -> 0 <= a <= b /\ b <= zlen l /\ zlen r = b - a.
Proof.
  unfold slice. destruct (_ && _) eqn:E; [|done]. intros [= <-]. zbool.
  split; [lia|]. split; [done|]. by apply zlen_slice.
Qed.

Lemma nom_en_labels raw s o ls e : nom_en raw s o ls e -> labels_ok ls.
Proof. induction 1; [constructor|by constructor|done]. Qed.

Lemma nom_en_debut raw s o ls e : nom_en raw s o ls e -> 0 <= o < zlen raw.
Proof. intros H. destruct H; by eapply idx_Done_bounds. Qed.

(** Two reads of the same place agree. *)
Ltac lectures :=
  repeat match goal with
  | H : ?m = Done ?a, H' : ?m = Done ?b |- _ =>
      first [constr_eq a b; clear H' | assert (b = a) by congruence; clear H']
  end.

(** Inversion at each kind of octet. *)
Lemma nom_en_zero raw s o ls e : idx raw o = Done 0 -> nom_en raw s o ls e <-> ls = [] /\ e = o + 1.
Proof.
  intros H0. split; [|intros [-> ->]; by constructor].
  intros H. inversion H; subst; lectures; [done|lia|by subst].
Qed.

Lemma nom_en_etiquette raw s o n l ls e :
  idx raw o = Done n -> 1 <= n <= 63 -> slice raw (o + 1) (o + 1 + n) = Done l ->
  nom_en raw s o ls e <-> exists r, ls = l :: r /\ nom_en raw s (o + 1 + n) r e.
Proof.
  intros Hn Hr Hl. pose proof (slice_bornes _ _ _ _ Hl) as (_ & _ & Hz).
  assert (zlen l = n) as Hzl by lia. split.
  - intros H. inversion H; clear H; subst; lectures; [lia| |subst; by rewrite mod192_etiquette in *].
    match goal with E : zlen _ = zlen l |- _ => rewrite E in * end.
    lectures. subst. eauto.
  - intros (r & -> & Hr'). rewrite <- Hzl in *. by econstructor.
Qed.

Lemma nom_en_pointeur raw s o b mot ls e :
  idx raw o = Done b -> Z.land b 192 = 192 -> be16 raw o = Done mot ->
  nom_en raw s o ls e <-> s = true /\ e = o + 2 /\ 12 <= Z.land mot 16383 < zlen raw /\ Z.land mot 16383 <> o /\
    exists e', nom_en raw false (Z.land mot 16383) ls e'.
Proof.
  intros Hb H192 Hm. split.
  - intros H. inversion H; clear H; subst; lectures; subst.
    + done.
    + by rewrite mod192_etiquette in H192.
    + naive_solver.
  - intros (-> & -> & ? & ? & e' & ?). by econstructor.
Qed.

(** Octets that start neither a label, nor a pointer, nor the end. *)
Lemma nom_en_octet raw s o b ls e : idx raw o = Done b -> nom_en raw s o ls e ->
  b = 0 \/ (1 <= b <= 63 /\ o + 1 + b <= zlen raw) \/ (Z.land b 192 = 192 /\ o + 2 <= zlen raw).
Proof.
  intros Hb H. inversion H; clear H; subst; lectures; subst; [by left|right; left|right; right].
  - split; [done|]. match goal with E : slice _ _ _ = _ |- _ => by apply slice_bornes in E as (_ & ? & _) end.
  - split; [done|]. match goal with E : be16 _ _ = _ |- _ => unfold be16 in E; rewrite Hb, run_bind_done in E end.
    destruct (idx raw (o + 1)) eqn:E; [|done..]. apply idx_Done_bounds in E. lia.
Qed.

(** ** The loops of the wire parser *)

Section lecture.
Context (raw : list Z) (tolerant : bool).
Hypothesis Hraw : bytes_ok raw.

(** Names copied so far. *)
Definition bien (ls : list (list Z)) : Prop :=
  labels_ok ls /\ zlen (nom_pointe ls) <= 254 /\ (tolerant = false -> existsb label_hors ls = false).

Lemma zlen_pointe_snoc ls l : labels_ok ls -> 1 <= zlen l <= 63 ->
  zlen (nom_pointe (ls ++ [l])) = zlen (nom_pointe ls) + zlen l + (if zlen (nom_pointe ls) =? 0 then 0 else 1).
Proof.
  intros Hls Hl. rewrite pointe_snoc, !zlen_app, zlen_bas.
  destruct (_ =? 0); [change (@zlen Z []) with 0|change (zlen [46]) with 1]; lia.
Qed.

Lemma zlen_pointe_mono ls r : labels_ok (ls ++ r) -> zlen (nom_pointe ls) <= zlen (nom_pointe (ls ++ r)).
Proof.
  induction r as [|l r IH] using rev_ind; intros H; [rewrite app_nil_r; lia|].
  rewrite app_assoc in *. apply labels_ok_app in H as [H [Hl _]%Forall_cons_iff].
  rewrite zlen_pointe_snoc by done. specialize (IH H). destruct (_ =? 0); lia.
Qed.

Lemma wp_ajouter ls l : bien ls -> 1 <= zlen l <= 63 ->
  wp (ajouter_label tolerant (copie_de tolerant ls) l) (fun r =>
    match r with
    | inl c => c = copie_de tolerant (ls ++ [l]) /\ bien (ls ++ [l]) /\
        zlen (nom_pointe ls) < zlen (nom_pointe (ls ++ [l]))
    | inr _ => forall r, labels_ok r -> ~ admissible tolerant (ls ++ l :: r)
    end).
Proof.
  intros (Hls & Hz & Hh) Hl. rewrite ajouter_exact by done. apply wp_done.
  assert (labels_ok [l]) as Hl1 by by constructor.
  assert (labels_ok (ls ++ [l])) as Hok by by apply labels_ok_app.
  pose proof (zlen_pointe_snoc ls l Hls Hl) as Hs. pose proof (zlen_nonneg (nom_pointe ls)).
  destruct (Z.ltb_spec 254 (zlen (nom_pointe ls) + zlen l + 1)).
  - intros r Hr [Ha _]. replace (ls ++ l :: r) with ((ls ++ [l]) ++ r) in Ha by by rewrite <- app_assoc.
    pose proof (zlen_pointe_mono (ls ++ [l]) r ltac:(by apply labels_ok_app)) as Hm.
    destruct (Z.eqb_spec (zlen (nom_pointe ls)) 0); lia.
  - destruct (label_hors l && negb tolerant) eqn:E.
    + apply andb_true_iff in E as [E1 E2%negb_true_iff]. intros r _ [_ Ha]. specialize (Ha E2).
      rewrite existsb_app in Ha. cbn [existsb] in Ha. by rewrite E1, orb_true_r in Ha.
    + split; [done|]. split; [|destruct (Z.eqb_spec (zlen (nom_pointe ls)) 0); lia]. split; [done|].
      split; [destruct (Z.eqb_spec (zlen (nom_pointe ls)) 0); lia|].
      intros Ht. rewrite existsb_app, (Hh Ht). cbn [existsb]. rewrite Ht, andb_true_r in E. by rewrite E.
Qed.

(** The state of a walk started at [t] after the labels [ls0]. *)
Definition marche (saut : bool) (t : Z) (ls0 : list (list Z)) (s : Z * copie) : Prop :=
  exists ls, s.2 = copie_de tolerant (ls0 ++ ls) /\ bien (ls0 ++ ls) /\ 0 <= s.1 /\
    forall all e, nom_en raw saut t all e <-> exists r, all = ls ++ r /\ nom_en raw saut s.1 r e.

Lemma marche_debut saut t ls0 : bien ls0 -> 0 <= t -> marche saut t ls0 (t, copie_de tolerant ls0).
Proof.
  intros Hb Ht. exists []. rewrite app_nil_r. split; [done|]. split; [done|]. split; [done|].
  intros all e. split; [by exists all|]. by intros (r & -> & ?).
Qed.

(** A label is read: the walk goes on, or no admissible name is spelled. *)
Lemma wp_marche_label saut t ls0 o c n l :
  marche saut t ls0 (o, c) -> idx raw o = Done n -> 1 <= n <= 63 -> slice raw (o + 1) (o + 1 + n) = Done l ->
  wp (ajouter_label tolerant c l) (fun r =>
    match r with
    | inl c' => marche saut t ls0 (o + 1 + n, c') /\ 0 <= 254 - outPos c' < 254 - outPos c
    | inr _ => forall all e, nom_en raw saut t all e -> ~ admissible tolerant (ls0 ++ all)
    end).
Proof.
  intros (ls & Hc & Hb & Ho & Hall) Hn Hr Hs. cbn [fst snd] in *. subst c.
  pose proof (slice_bornes _ _ _ _ Hs) as (_ & _ & Hz).
  eapply wp_mono; [apply wp_ajouter; [done|lia]|]. intros [c'|err]; cbn beta iota.
  - intros (-> & Hb' & Hlt). split; [|destruct Hb' as (_ & ? & _); cbn [outPos copie_de]; lia].
    exists (ls ++ [l]). cbn [fst snd]. rewrite !app_assoc. split; [done|]. split; [done|]. split; [lia|].
    intros all e. rewrite Hall. split.
    + intros (r & -> & H). apply (nom_en_etiquette _ _ _ _ _ _ _ Hn Hr Hs) in H as (r' & -> & H).
      exists r'. by rewrite <- app_assoc.
    + intros (r & -> & H). exists (l :: r). split; [by rewrite <- app_assoc|].
      apply (nom_en_etiquette _ _ _ _ _ _ _ Hn Hr Hs). by exists r.
  - intros Hno all e H. apply Hall in H as (r & -> & H).
    apply (nom_en_etiquette _ _ _ _ _ _ _ Hn Hr Hs) in H as (r' & -> & H). rewrite app_assoc.
    apply Hno. by eapply nom_en_labels.
Qed.

(** A malformed octet: nothing is spelled. *)
Lemma marche_echec saut t ls0 o c : marche saut t ls0 (o, c) ->
  (forall r e, ~ nom_en raw saut o r e) -> forall all e, nom_en raw saut t all e -> ~ admissible tolerant (ls0 ++ all).
Proof. intros (ls & _ & _ & _ & Hall) Hno all e H. apply Hall in H as (r & _ & H). by destruct (Hno r e). Qed.

Lemma wp_suivre_pointeur t ls0 : bien ls0 -> 0 <= t ->
  wp (suivre_pointeur raw tolerant t (copie_de tolerant ls0)) (fun r =>
    match r with
    | inl c => exists ls e, nom_en raw false t ls e /\ c = copie_de tolerant (ls0 ++ ls) /\ bien (ls0 ++ ls)
    | inr _ => forall ls e, nom_en raw false t ls e -> ~ admissible tolerant (ls0 ++ ls)
    end).
Proof.
  intros Hb Ht. unfold suivre_pointeur.
  apply (wp_loop _ (marche false t ls0) (fun s => 254 - outPos s.2)).
  - intros [o c] Hm. pose proof Hm as (ls & Hc & Hbl & Ho & Hall). cbn [fst snd] in *.
    pose proof (marche_echec _ _ _ _ _ Hm) as Hech.
    wp_step; [apply wp_done, Hech; intros r e H; apply nom_en_debut in H; lia|].
    wp_step. apply wp_idx_byte; [done|lia|]. intros b Hlk Hbr. apply idx_lookup in Hlk; [|done].
    wp_step.
    { subst b. apply wp_done. exists ls, (o + 1). split; [|done]. apply Hall. exists [].
      rewrite app_nil_r. split; [done|by constructor]. }
    wp_step.
    { apply wp_done, Hech. intros r e H. inversion H; clear H; subst; lectures; subst; try done.
      by rewrite mod192_etiquette in *. }
    wp_step; [apply wp_done, Hech; intros r e H; apply (nom_en_octet _ _ _ _ _ _ Hlk) in H as [?|[?|[? _]]]; lia|].
    wp_step; [apply wp_done, Hech; intros r e H; apply (nom_en_octet _ _ _ _ _ _ Hlk) in H as [?|[?|[? _]]]; lia|].
    destruct (slice raw (o + 1) (o + 1 + b)) as [l| |] eqn:Hs;
      [|exfalso; unfold slice in Hs; destruct (_ && _) eqn:E in Hs; [done|];
        rewrite !andb_false_iff in E; destruct E as [[E|E]|E]; zbool; lia..].
    rewrite run_bind_done. wp_step. eapply wp_mono; [eapply wp_marche_label; [exact Hm|exact Hlk|lia|exact Hs]|].
    intros [c'|err]; cbn beta iota; intros H; by apply wp_done.
  - by apply marche_debut.
  - cbn [snd]. destruct Hb as (_ & Hz & _). cbn [outPos copie_de]. pose proof (zlen_nonneg (nom_pointe ls0)).
    change (Z.of_nat carburant_question) with 256. lia.
Qed.

Lemma copie_vide_de : copie_vide = copie_de tolerant [].
Proof. by destruct tolerant. Qed.

Lemma bien_nil : bien [].
Proof. split; [constructor|]. by split. Qed.

Lemma wp_lire_nom : 12 <= zlen raw ->
  wp (lire_nom_question raw tolerant) (fun r =>
    match r with
    | inl (o, c) => exists ls, nom_en raw true 12 ls o /\ c = copie_de tolerant ls /\ bien ls
    | inr _ => forall ls e, nom_en raw true 12 ls e -> ~ admissible tolerant ls
    end).
Proof.
  intros Hlen. unfold lire_nom_question.
  apply (wp_loop _ (marche true 12 []) (fun s => 254 - outPos s.2)).
  - intros [o c] Hm. pose proof Hm as (ls & Hc & Hbl & Ho & Hall). cbn [fst snd app] in *.
    pose proof (marche_echec _ _ _ _ _ Hm) as Hech. cbn [app] in Hech.
    wp_step; [apply wp_done, Hech; intros r e H; apply nom_en_debut in H; lia|].
    wp_step. apply wp_idx_byte; [done|lia|]. intros b Hlk Hbr. apply idx_lookup in Hlk; [|done].
    wp_step.
    { subst b. apply wp_done. exists ls. split; [|done]. apply Hall. exists [].
      rewrite app_nil_r. split; [done|by constructor]. }
    destruct (Z.eqb_spec (Z.land b 192) 192) as [H192|H192].
    { wp_step; [apply wp_done, Hech; intros r e H; apply (nom_en_octet _ _ _ _ _ _ Hlk) in H as [?|[[? ?]|?]]; try lia|].
      destruct (wp_exists (be16 raw o) (fun m => is_u16 m)) as [Hbe _].
      destruct Hbe as (mot & Hmot & Hm16); [apply wp_be16; [done|lia|lia|done]|].
      rewrite Hmot, run_bind_done.
      assert (forall r e, nom_en raw true o r e <-> _) as Hpt
        by (intros r e; exact (nom_en_pointeur raw true o b mot r e Hlk H192 Hmot)).
      destruct (Z.leb_spec (zlen raw) (Z.land mot 16383)) as [Hge|Hlt]; cbn [orb].
      { apply wp_done, Hech. intros r e H. apply Hpt in H as (_ & _ & H & _). lia. }
      wp_step; [apply wp_done, Hech; intros r e H; apply Hpt in H as (_ & _ & H & _); lia|].
      wp_step; [apply wp_done, Hech; intros r e H; by apply Hpt in H as (_ & _ & _ & H & _)|].
      wp_step. eapply wp_mono; [subst c; apply wp_suivre_pointeur; [done|lia]|].
      intros [c'|err]; cbn beta iota; intros H; apply wp_done.
      - destruct H as (ks & e & H & -> & Hb'). exists (ls ++ ks). split; [|done]. apply Hall. exists ks.
        split; [done|]. apply Hpt. split; [done|]. split; [done|]. split; [lia|]. split; [done|by exists e].
      - intros all e H2. apply Hall in H2 as (r & -> & H2). apply Hpt in H2 as (_ & _ & _ & _ & e' & H2). by eapply H. }
    wp_step; [apply wp_done, Hech; intros r e H; apply (nom_en_octet _ _ _ _ _ _ Hlk) in H as [?|[?|[? _]]]; lia|].
    wp_step; [apply wp_done, Hech; intros r e H; apply (nom_en_octet _ _ _ _ _ _ Hlk) in H as [?|[?|[? _]]]; lia|].
    destruct (slice raw (o + 1) (o + 1 + b)) as [l| |] eqn:Hs;
      [|exfalso; unfold slice in Hs; destruct (_ && _) eqn:E in Hs; [done|];
        rewrite !andb_false_iff in E; destruct E as [[E|E]|E]; zbool; lia..].
    rewrite run_bind_done. wp_step. eapply wp_mono; [eapply wp_marche_label; [exact Hm|exact Hlk|lia|exact Hs]|].
    intros [c'|err]; cbn beta iota; intros H; by apply wp_done.
  - rewrite copie_vide_de. apply (marche_debut true 12 []); [apply bien_nil|lia].
  - cbn [snd]. change (Z.of_nat carburant_question) with 256. cbn. lia.
Qed.
End lecture.

(** * The wire parser *)

(** [raw] is one standard IN question for the labels [ls] and the type [qtype]. *)
Definition question_lue (raw : list Z) (tolerant : bool) (ls : list (list Z)) (qtype : Z) : Prop :=
  12 <= zlen raw /\ be16 raw 4 = Done 1 /\ (exists flags, be16 raw 2 = Done flags /\ Z.land flags 0xf800 = 0) /\
  exists fin, nom_en raw true 12 ls fin /\ fin + 4 <= zlen raw /\
    be16 raw fin = Done qtype /\ be16 raw (fin + 2) = Done 1 /\ qtype <> 0 /\ ls <> [] /\ admissible tolerant ls.

Definition grammaire_de (tolerant : bool) (ls : list (list Z)) : QNameGrammarProfile :=
  if tolerant then finaliserGrammaire (releve ls) else profil_nul.

Lemma nom_en_unique raw s o ls e : nom_en raw s o ls e -> forall ls' e', nom_en raw s o ls' e' -> ls' = ls /\ e' = e.
Proof.
  induction 1 as [s o H0|s o l ls e Hn Hl Hs _ IH|o b mot ls e Hb H192 Hm _ _ _ IH]; intros ls' e' H.
  - by apply (nom_en_zero _ _ _ _ _ H0) in H as [-> ->].
  - apply (nom_en_etiquette _ _ _ _ _ _ _ Hn Hl Hs) in H as (r & -> & H). by destruct (IH _ _ H) as [-> ->].
  - apply (nom_en_pointeur _ _ _ _ _ _ _ Hb H192 Hm) in H as (_ & -> & _ & _ & e2 & H).
    by destruct (IH _ _ H) as [-> _].
Qed.

Lemma be16_bornes l i x : be16 l i = Done x -> 0 <= i /\ i + 2 <= zlen l.
Proof.
  unfold be16. destruct (idx l i) eqn:E1; [|done..]. rewrite run_bind_done.
  destruct (idx l (i + 1)) eqn:E2; [|done..]. intros _. apply idx_Done_bounds in E1, E2. lia.
Qed.

Lemma be16_total l i : bytes_ok l -> 0 <= i -> i + 2 <= zlen l -> exists x, be16 l i = Done x /\ is_u16 x.
Proof. intros Hb Hi Hz. apply wp_exists. by apply wp_be16. Qed.

Lemma plus_long_borne ls : labels_ok ls -> 0 <= plus_long ls <= 63.
Proof.
  induction 1 as [|l ls Hl _ IH]; [done|]. change (0 <= Z.max (zlen l) (plus_long ls) <= 63). lia.
Qed.

(** The name of an accepted question: its bounds. *)
Lemma admissible_bornes tolerant ls : labels_ok ls -> ls <> [] -> admissible tolerant ls ->
  1 <= zlen (nom_pointe ls) <= 253 /\ zlen ls <= 127 /\ taille_labels ls <= 254.
Proof.
  intros Hls Hne [Hz _]. pose proof (zlen_pointe ls Hls) as Hp. destruct ls as [|l ls]; [done|].
  pose proof (zlen_labels _ Hls). apply Forall_cons_iff in Hls as [Hl _]. rewrite taille_cons in *.
  pose proof (taille_nonneg ls). lia.
Qed.

Section question.
Context (raw : list Z) (tolerant : bool) (ev : DNSEvent).
Hypothesis Hraw : bytes_ok raw.

Definition reponse_fil (r : option DNSEvent * option erreurDNS) : Prop :=
  match r.2 with
  | Some _ => r.1 = Some (event_nul (Timestamp ev) (ClientIP ev)) /\ forall ls qt, ~ question_lue raw tolerant ls qt
  | None => exists ls qt id flags, question_lue raw tolerant ls qt /\ be16 raw 0 = Done id /\ be16 raw 2 = Done flags /\
      r.1 = Some (evenement (Timestamp ev) (ClientIP ev) id flags qt (grammaire_de tolerant ls) ls)
  end.

Lemma rejet_fil e : (forall ls qt, ~ question_lue raw tolerant ls qt) ->
  wp (Done (Some (event_nul (Timestamp ev) (ClientIP ev)), Some e)) reponse_fil.
Proof. intros H. apply wp_done. by split. Qed.

Lemma fil_decide : wp (parseDNSQueryWire raw (Some ev) tolerant) reponse_fil.
Proof.
  unfold parseDNSQueryWire. cbv zeta.
  wp_step; [apply rejet_fil; intros ls qt (H & _); lia|].
  destruct (be16_total raw 0) as (id & Hid & _); [done|lia|lia|]. rewrite Hid, run_bind_done.
  destruct (be16_total raw 2) as (fl & Hfl & _); [done|lia|lia|]. rewrite Hfl, run_bind_done.
  destruct (be16_total raw 4) as (qd & Hqd & _); [done|lia|lia|]. rewrite Hqd, run_bind_done.
  destruct (Z.eqb_spec qd 1) as [->|Hq]; cbn [negb orb];
    [|apply rejet_fil; intros ls qt (_ & H & _); congruence].
  destruct (Z.eqb_spec (Z.land fl 0xf800) 0) as [Hf|Hf]; cbn [negb];
    [|apply rejet_fil; intros ls qt (_ & _ & (fl' & H & H') & _); congruence].
  apply wp_bind. eapply wp_mono; [by apply wp_lire_nom|]. intros [[o c]|e]; cbn beta iota.
  2: { intros H. apply rejet_fil. intros ls qt (_ & _ & _ & fin & Hn & _ & _ & _ & _ & _ & Ha). by eapply H. }
  intros (ls & Hn & -> & Hls & Hz & Hh). cbn [copie_de outPos c_nom labelCount maxLabelLen c_encodage c_grammaire totalLabelOffsets].
  assert (forall ls' qt, question_lue raw tolerant ls' qt ->
    ls' = ls /\ o + 4 <= zlen raw /\ be16 raw o = Done qt /\ be16 raw (o + 2) = Done 1 /\ qt <> 0 /\ ls <> [] /\
    admissible tolerant ls) as Hq.
  { intros ls' qt (_ & _ & _ & fin & Hn' & H). destruct (nom_en_unique _ _ _ _ _ Hn _ _ Hn') as [-> ->]. by split. }
  destruct (Z.leb_spec (o + 4) (zlen raw)); cbn [negb]; [|apply rejet_fil; intros ls' qt (_ & ? & _)%Hq; lia].
  pose proof (nom_en_debut _ _ _ _ _ Hn) as Ho0.
  assert (0 <= o) as Ho.
  { revert Hn. generalize true, 12. intros s p Hn. pose proof (nom_en_debut _ _ _ _ _ Hn).
    clear -Hn. induction Hn as [s o H|s o l ls e H Hl Hs Hn IH|o b mot ls e H]; apply idx_Done_bounds in H; lia. }
  destruct (be16_total raw o) as (qt & Hqt & _); [done|lia|lia|]. rewrite Hqt, run_bind_done.
  destruct (be16_total raw (o + 2)) as (qc & Hqc & _); [done|lia|lia|]. rewrite Hqc, run_bind_done.
  wp_step; [apply rejet_fil; intros ls' q' (_ & _ & _ & _ & _ & _ & [? _])%Hq; lia|].
  destruct (Z.eqb_spec (zlen (nom_pointe ls)) 0) as [E1|E1]; cbn [orb].
  { apply rejet_fil. intros ls' q' (_ & _ & _ & _ & _ & H4 & _)%Hq. apply H4, pointe_nonvide; [done|by apply Z.eqb_eq]. }
  destruct (Z.eqb_spec qt 0) as [E2|E2]; cbn [orb]; [apply rejet_fil; intros ls' q' (_ & _ & H1 & _ & H3 & _)%Hq; congruence|].
  destruct (Z.eqb_spec qc 1) as [->|E3]; cbn [negb]; [|apply rejet_fil; intros ls' q' (_ & _ & _ & H2 & _)%Hq; congruence].
  assert (ls <> []) as Hne by (intros ->; by vm_compute in E1).
  assert (admissible tolerant ls) as Ha by by split.
  destruct (admissible_bornes tolerant ls Hls Hne Ha) as (Hb1 & Hb2 & Hb3).
  rewrite populate_exact, run_bind_done by (done || lia).
  apply wp_done. exists ls, qt, id, fl. split_and!; try done.
  - split_and!; try done; [by exists fl|]. by exists o.
  - unfold evenement. cbn [fst]. pose proof (plus_long_borne ls Hls). pose proof (zlen_nonneg ls).
    rewrite (u8_id (zlen (nom_pointe ls))), (u8_id (zlen ls)), (u8_id (plus_long ls)) by (unfold is_u8; lia).
    unfold grammaire_de. by destruct tolerant.
Qed.
End question.

(** * The text parser *)

(** The name without its final dot. *)
Definition sans_point_final (qname : list Z) : list Z :=
  if bool_decide (last qname = Some 46) then removelast qname else qname.

(** [qname] is a textual name with the labels [ls]. *)
Definition texte_lu (qname : list Z) (qtype : Z) (ls : list (list Z)) : Prop :=
  qtype <> 0 /\ zlen (sans_point_final qname) <= 253 /\ decoupe [] (sans_point_final qname) = ls /\
  labels_ok ls /\ existsb label_hors ls = false.

(** The dotted name when the labels [ls] are complete and [cur] is in progress. *)
Definition en_cours (ls : list (list Z)) (cur : list Z) : list Z :=
  match ls with [] => [] | _ => nom_pointe ls ++ [46] end ++ bas cur.

Lemma en_cours_clos ls cur : labels_ok ls -> nom_pointe (ls ++ [cur]) = en_cours ls cur.
Proof.
  intros Hls. rewrite pointe_snoc. unfold en_cours. pose proof (pointe_nonvide ls Hls) as Hv.
  destruct ls as [|l ls]; [done|]. destruct (_ =? 0); [by discriminate (proj1 Hv eq_refl)|]. by rewrite app_assoc.
Qed.

Lemma zlen_en_cours ls cur : labels_ok ls -> zlen (en_cours ls cur) = taille_labels ls + zlen cur.
Proof.
  intros Hls. unfold en_cours. rewrite zlen_app, zlen_bas. f_equal. destruct ls as [|l ls]; [done|].
  rewrite zlen_app, (zlen_pointe _ Hls). change (zlen [46]) with 1. lia.
Qed.

Definition copie_texte (ls : list (list Z)) (cur : list Z) : copie :=
  Copie (tableau 256 (en_cours ls cur)) (avec_encodage ls || existsb encodage cur) profil_nul 0 (zlen ls)
    (plus_long ls) (tableau 128 (debuts 0 ls)).

Definition texte_inv (q : list Z) (i : Z) (s : Z * copie) : Prop :=
  exists ls cur, decoupe [] q = ls ++ decoupe cur (drop (Z.to_nat i) q) /\ labels_ok ls /\
    existsb label_hors ls = false /\ label_hors cur = false /\ i = taille_labels ls + zlen cur /\
    s = (taille_labels ls, copie_texte ls cur).

Definition texte_refuse (q : list Z) : Prop :=
  ~ (labels_ok (decoupe [] q) /\ existsb label_hors (decoupe [] q) = false).

(** The offset of a label, in the 128 cells of [totalLabelOffsets]. *)
Lemma upd_debuts ls : labels_ok ls -> taille_labels ls <= 255 ->
  (if zlen ls <? maxDNSLabels then upd (tableau 128 (debuts 0 ls)) (zlen ls) (u8 (taille_labels ls))
   else Done (tableau 128 (debuts 0 ls))) = Done (tableau 128 (debuts 0 ls ++ [taille_labels ls])).
Proof.
  intros Hls Ht. pose proof (zlen_labels ls Hls). pose proof (taille_nonneg ls).
  unfold maxDNSLabels. destruct (Z.ltb_spec (zlen ls) 128); [|lia].
  rewrite u8_id by (unfold is_u8; lia). apply upd_tableau; unfold zlen in *; rewrite length_debuts; [done|lia].
Qed.

Lemma max_test a b : (if a <? b then b else a) = Z.max a b.
Proof. destruct (Z.ltb_spec a b); lia. Qed.

Lemma wp_pas_texte q i s : zlen q <= 253 -> 0 <= i < zlen q -> texte_inv q i s ->
  wp (pas_texte q i s) (fun o => match o with inl s' => texte_inv q (i + 1) s' | inr _ => texte_refuse q end).
Proof.
  intros Hq Hi (ls & cur & Hd & Hls & Hh & Hc & Hz & ->). unfold pas_texte.
  destruct (drop_idx q i Hi) as (b & Hb & Hdr). rewrite Hb, run_bind_done. rewrite Hdr in Hd. cbn [decoupe] in Hd.
  pose proof (taille_nonneg ls) as Ht0. pose proof (zlen_nonneg cur) as Hc0. pose proof (zlen_en_cours ls cur Hls) as Hen.
  destruct (Z.eqb_spec b 46) as [H46|Hne].
  - destruct ((i - taille_labels ls =? 0) || (63 <? i - taille_labels ls)) eqn:Ec.
    { apply wp_done. intros [Hok _]. rewrite Hd in Hok. apply Forall_app in Hok as [_ [Hok _]%Forall_cons_iff].
      apply orb_true_iff in Ec. rewrite Z.eqb_eq, Z.ltb_lt in Ec. lia. }
    zbool. cbn [labelCount totalLabelOffsets copie_texte c_nom c_encodage c_grammaire outPos maxLabelLen].
    rewrite upd_debuts, run_bind_done by (done || lia).
    rewrite upd_tableau, run_bind_done by (lia || (unfold zlen in *; lia)).
    apply wp_done. exists (ls ++ [cur]), []. rewrite <- app_assoc.
    assert (labels_ok (ls ++ [cur])) as Hok by (apply labels_ok_app; split; [done|]; constructor; [lia|constructor]).
    assert (taille_labels (ls ++ [cur]) = taille_labels ls + zlen cur + 1) as Hts
      by (rewrite taille_app, taille_cons; change (taille_labels []) with 0; lia).
    split; [done|]. split; [done|]. split; [rewrite existsb_app, Hh; cbn [existsb]; by rewrite Hc|].
    split; [done|]. split; [change (@zlen Z []) with 0; lia|].
    rewrite Hts, <- Hz. f_equal. unfold copie_texte. f_equal.
    + f_equal. unfold en_cours at 2. destruct (ls ++ [cur]) eqn:E; [by destruct ls|]. rewrite <- E.
      rewrite en_cours_clos by done. by rewrite app_nil_r.
    + unfold avec_encodage. rewrite existsb_app. cbn [existsb]. by rewrite !orb_false_r.
    + by rewrite zlen_app.
    + rewrite plus_long_snoc, max_test. f_equal. lia.
    + by rewrite debuts_snoc.
  - rewrite <- negb_orb. change (negb (dnsLabelByte (minuscule b) || isDNSEncodingByte (minuscule b))) with (hors b).
    destruct (hors b) eqn:Eb.
    { apply wp_done. intros [_ Hok]. rewrite Hd, existsb_app in Hok.
      destruct (decoupe_tete (drop (Z.to_nat (i + 1)) q) (cur ++ [b])) as (r & T & E). rewrite E in Hok.
      cbn [existsb] in Hok. unfold label_hors at 2 in Hok. rewrite !existsb_app in Hok. cbn [existsb] in Hok.
      by rewrite Eb, !orb_true_r in Hok. }
    cbn [c_nom copie_texte c_encodage c_grammaire outPos labelCount maxLabelLen totalLabelOffsets].
    rewrite upd_tableau, run_bind_done by (lia || (unfold zlen in *; lia)).
    apply wp_done. exists ls, (cur ++ [b]).
    split; [done|]. split; [done|]. split; [done|].
    split; [unfold label_hors in *; rewrite existsb_app, Hc; cbn [existsb]; by rewrite Eb|].
    split; [rewrite zlen_app; change (zlen [b]) with 1; lia|]. f_equal. unfold copie_texte. f_equal.
    + f_equal. unfold en_cours, bas. by rewrite fmap_app, app_assoc.
    + rewrite existsb_app. cbn [existsb]. rewrite orb_false_r. unfold encodage at 3.
      unfold hors, ldh in Eb. apply negb_false_iff in Eb. pose proof (encodage_pas_label (minuscule b)) as He.
      destruct (dnsLabelByte (minuscule b)), (isDNSEncodingByte (minuscule b)); cbn [negb]; rewrite ?orb_true_r, ?orb_false_r; try done.
      by specialize (He eq_refl).
Qed.

Section texte.
Context (qname : list Z) (qtype : Z) (ev : DNSEvent).

Definition reponse_texte (r : option DNSEvent * option erreurDNS) : Prop :=
  match r.2 with
  | Some _ => r.1 = Some (event_nul (Timestamp ev) (ClientIP ev)) /\ forall ls, ~ texte_lu qname qtype ls
  | None => exists ls, texte_lu qname qtype ls /\
      r.1 = Some (evenement (Timestamp ev) (ClientIP ev) 0 0 qtype profil_nul ls)
  end.

Lemma rejet_texte e : (forall ls, ~ texte_lu qname qtype ls) ->
  wp (Done (Some (event_nul (Timestamp ev) (ClientIP ev)), Some e)) reponse_texte.
Proof. intros H. apply wp_done. by split. Qed.

Lemma texte_decide : wp (ParseDNSName qname qtype (Some ev)) reponse_texte.
Proof.
  unfold ParseDNSName. cbv zeta.
  destruct (Z.eqb_spec qtype 0) as [->|Hq]; [apply rejet_texte; by intros ls (? & _)|].
  rewrite sans_point_ok, run_bind_done. fold (sans_point_final qname). remember (sans_point_final qname) as q eqn:Eq.
  destruct (Z.eqb_spec (zlen q) 0) as [E|E].
  { apply rejet_texte. intros ls (_ & _ & Hd & Hls & _). rewrite <- Eq in Hd.
    rewrite (nil_length_inv q) in Hd by (unfold zlen in E; lia). cbn in Hd. subst ls. apply Forall_cons_iff in Hls as [Hls _]. change (@zlen Z []) with 0 in Hls. lia. }
  destruct (Z.ltb_spec 253 (zlen q)) as [Hbig|Hz]; [apply rejet_texte; intros ls (_ & ? & _); rewrite <- Eq in *; lia|].
  assert (texte_refuse q -> forall ls, ~ texte_lu qname qtype ls) as Href.
  { intros Hr ls (_ & _ & Hd & Hls & Hh). rewrite <- Eq in Hd. subst ls. by apply Hr. }
  apply wp_bind.
  apply (wp_for_range (texte_inv q)); [apply zlen_nonneg| | |].
  2: { intros j s' Hj Hs. eapply wp_mono; [by apply wp_pas_texte|].
    intros [s''|err]; [done|]. intros Hr. by apply rejet_texte, Href. }
  - exists [], []. split; [done|]. split; [constructor|]. done.
  - intros s (ls & cur & Hd & Hls & Hh & Hc & Hzq & ->). cbn beta iota.
    rewrite drop_ge in Hd by (unfold zlen; lia). cbn [decoupe] in Hd.
    replace (zlen q - taille_labels ls) with (zlen cur) by lia.
    destruct ((zlen cur =? 0) || (63 <? zlen cur)) eqn:Ec.
    { apply rejet_texte, Href. intros [Hok _]. rewrite Hd in Hok. apply Forall_app in Hok as [_ [Hok _]%Forall_cons_iff].
      apply orb_true_iff in Ec. rewrite Z.eqb_eq, Z.ltb_lt in Ec. lia. }
    zbool. pose proof (taille_nonneg ls). pose proof (zlen_nonneg cur).
    cbn [labelCount totalLabelOffsets copie_texte c_nom c_encodage c_grammaire outPos maxLabelLen].
    rewrite upd_debuts, run_bind_done by (done || lia). rewrite max_test, <- plus_long_snoc.
    change (taille_labels ls) with (0 + taille_labels ls). rewrite <- (debuts_snoc ls cur 0), <- (en_cours_clos ls cur Hls).
    assert (labels_ok (ls ++ [cur])) as Hok by (apply labels_ok_app; split; [done|]; constructor; [lia|constructor]).
    assert (zlen (nom_pointe (ls ++ [cur])) = zlen q) as Hpz by (rewrite en_cours_clos, zlen_en_cours; done || lia).
    assert (zlen ls + 1 = zlen (ls ++ [cur])) as -> by by rewrite zlen_app.
    assert (ls ++ [cur] <> []) as Hne by by destruct ls.
    assert (existsb label_hors (ls ++ [cur]) = false) as Hh2 by (rewrite existsb_app, Hh; cbn [existsb]; by rewrite Hc).
    assert (admissible false (ls ++ [cur])) as Ha by (split; [lia|done]).
    destruct (admissible_bornes false _ Hok Hne Ha) as (Hb1 & Hb2 & Hb3).
    rewrite <- Hpz, populate_exact, run_bind_done by (done || lia).
    apply wp_done. exists (ls ++ [cur]). unfold texte_lu. rewrite <- Eq. split; [by split_and!|]. unfold evenement. cbn [fst].
    pose proof (plus_long_borne _ Hok). pose proof (zlen_nonneg (ls ++ [cur])).
    rewrite (u8_id (zlen (nom_pointe (ls ++ [cur])))), (u8_id (zlen (ls ++ [cur]))), (u8_id (plus_long (ls ++ [cur])))
      by (unfold is_u8; lia).
    unfold avec_encodage. rewrite existsb_app. cbn [existsb]. by rewrite orb_false_r.
Qed.
End texte.

(** * Canonical names *)

Lemma bas_idem l : bas (bas l) = bas l.
Proof. unfold bas. rewrite <- list_fmap_compose. apply list_fmap_ext. intros i x _. apply minuscule_idem. Qed.

Lemma existsb_bas (p : Z -> bool) l : (forall o, p (minuscule o) = p o) -> existsb p (bas l) = existsb p l.
Proof. intros Hp. induction l as [|o l IH]; [done|]. cbn [existsb]. rewrite <- IH, <- Hp. done. Qed.

Lemma label_hors_bas l : label_hors (bas l) = label_hors l.
Proof. apply existsb_bas. intros o. unfold hors, ldh. by rewrite minuscule_idem. Qed.

Lemma existsb_fmap {A B} (f : A -> B) (p : B -> bool) l : existsb p (f <$> l) = existsb (fun x => p (f x)) l.
Proof. induction l as [|x l IH]; [done|]. cbn. by rewrite IH. Qed.

Lemma existsb_ext {A} (p q : A -> bool) l : (forall x, p x = q x) -> existsb p l = existsb q l.
Proof. intros H. induction l as [|x l IH]; [done|]. cbn. by rewrite H, IH. Qed.

Lemma pointe_bas ls : nom_pointe (bas <$> ls) = nom_pointe ls.
Proof.
  unfold nom_pointe. generalize (@nil Z). induction ls as [|l ls IH]; intros acc; [done|].
  cbn [fmap list_fmap joindre]. rewrite IH. do 3 f_equal. apply bas_idem.
Qed.

Lemma labels_ok_bas ls : labels_ok ls -> labels_ok (bas <$> ls).
Proof. intros H. apply Forall_fmap. eapply Forall_impl; [exact H|]. intros l Hl. cbn. by rewrite zlen_bas. Qed.

Lemma evenement_bas stamp client id fl qt g ls :
  evenement stamp client id fl qt g (bas <$> ls) = evenement stamp client id fl qt g ls.
Proof.
  assert (labels_suffixe (bas <$> ls) = labels_suffixe ls) as Hs
    by (unfold labels_suffixe; by rewrite zlen_fmap, length_fmap, <- fmap_drop, pointe_bas).
  unfold evenement. rewrite pointe_bas, zlen_fmap. f_equal.
  - unfold parties_de, sous_domaine, parent, enregistre, suffixe.
    rewrite Hs, length_fmap, zlen_fmap, <- fmap_take, <- !fmap_drop, !pointe_bas, list_lookup_fmap.
    destruct (ls !! _) as [l|]; cbn; [|done]. by rewrite bas_idem.
  - clear Hs. induction ls as [|l ls IH]; [done|].
    change (Z.max (zlen (bas l)) (plus_long (bas <$> ls)) = Z.max (zlen l) (plus_long ls)).
    by rewrite IH, zlen_bas.
  - unfold avec_encodage. rewrite existsb_fmap. apply existsb_ext. intros l. apply existsb_bas.
    intros o. unfold encodage. by rewrite minuscule_idem.
Qed.

Lemma sans_hors_point l : label_hors l = false -> 46 ∉ bas l.
Proof.
  unfold label_hors. induction l as [|o l IH]; cbn [existsb]; intros H; [apply not_elem_of_nil|].
  apply orb_false_iff in H as [H1 H2]. change (bas (o :: l)) with (minuscule o :: bas l).
  rewrite elem_of_cons. intros [E|E]; [|by apply IH]. unfold hors, ldh in H1. by rewrite <- E in H1.
Qed.

Lemma decoupe_sans m r : forall cur, 46 ∉ m -> decoupe cur (m ++ r) = decoupe (cur ++ m) r.
Proof.
  induction m as [|c m IH]; intros cur H; cbn [app decoupe]; [by rewrite app_nil_r|].
  apply not_elem_of_cons in H as [H1 H2]. destruct (Z.eqb_spec c 46); [done|].
  rewrite IH by done. by rewrite <- app_assoc.
Qed.

Lemma decoupe_pointe ls : labels_ok ls -> existsb label_hors ls = false -> ls <> [] ->
  decoupe [] (nom_pointe ls) = bas <$> ls.
Proof.
  induction ls as [|l ls IH]; [done|]. intros Hls [Hl Hh]%orb_false_iff _. apply sans_hors_point in Hl.
  destruct (decide (ls = [])) as [->|Hne].
  - rewrite pointe_un, <- (app_nil_r (bas l)), decoupe_sans by done. done.
  - change (l :: ls) with ([l] ++ ls) in *. apply labels_ok_app in Hls as [H1 H2].
    rewrite pointe_app, pointe_un, decoupe_sans by done. cbn [app decoupe]. rewrite IH by done. done.
Qed.

Lemma last_decoupe q : forall cur, last (cur ++ q) = Some 46 -> 46 ∉ cur -> exists L, decoupe cur q = L ++ [[]].
Proof.
  induction q as [|c q IH]; intros cur Hl Hc; cbn [decoupe].
  - rewrite app_nil_r in Hl. destruct Hc. apply last_Some in Hl as (l & ->). apply elem_of_app. right. by apply list_elem_of_singleton.
  - destruct (Z.eqb_spec c 46) as [->|Hne].
    + destruct q as [|d q]; [by exists [cur]|]. destruct (IH []) as (L & HL); [|apply not_elem_of_nil|].
      * rewrite last_app in Hl. change (last (46 :: d :: q)) with (last (d :: q)) in Hl.
        destruct (last (d :: q)) eqn:E; [|by apply last_None in E]. cbn [app]. by rewrite E.
      * exists (cur :: L). by rewrite HL.
    + apply IH; [by rewrite <- app_assoc|]. rewrite elem_of_app, list_elem_of_singleton. naive_solver.
Qed.

(** A canonical name holds no final dot and spells its own labels. *)
Lemma pointe_sans_point ls : labels_ok ls -> existsb label_hors ls = false -> ls <> [] ->
  sans_point_final (nom_pointe ls) = nom_pointe ls.
Proof.
  intros Hls Hh Hne. unfold sans_point_final. rewrite bool_decide_eq_false_2; [done|]. intros Hl.
  destruct (last_decoupe (nom_pointe ls) [] Hl) as (L & HL); [apply not_elem_of_nil|].
  rewrite decoupe_pointe in HL by done. pose proof (labels_ok_bas ls Hls) as Hb. rewrite HL in Hb.
  apply Forall_app in Hb as [_ [Hb _]%Forall_cons_iff]. change (@zlen Z []) with 0 in Hb. lia.
Qed.

Lemma texte_canonique ls qt ev : labels_ok ls -> existsb label_hors ls = false -> ls <> [] ->
  zlen (nom_pointe ls) <= 253 -> qt <> 0 ->
  ParseDNSName (nom_pointe ls) qt (Some ev)
  = Done (Some (evenement (Timestamp ev) (ClientIP ev) 0 0 qt profil_nul ls), None).
Proof.
  intros Hls Hh Hne Hz Hq. pose proof (texte_decide (nom_pointe ls) qt ev) as (r & Hr & Hp)%wp_exists.
  rewrite Hr. f_equal. unfold reponse_texte in Hp. destruct r as [e [err|]]; cbn [fst snd] in Hp.
  - destruct Hp as [_ Hno]. destruct (Hno (bas <$> ls)). unfold texte_lu. rewrite pointe_sans_point by done.
    split_and!; [done|done|by apply decoupe_pointe|by apply labels_ok_bas|].
    rewrite existsb_fmap. rewrite <- Hh. apply existsb_ext. apply label_hors_bas.
  - destruct Hp as (ls' & (_ & _ & Hd & _) & ->). rewrite pointe_sans_point, decoupe_pointe in Hd by done.
    subst ls'. by rewrite evenement_bas.
Qed.

(** ** Reading the fields back *)

Lemma lire_champ cap s : (length s <= cap)%nat ->
  (if zlen s =? 0 then Done [] else slice (tableau cap s) 0 (zlen s)) = Done s.
Proof.
  intros Hc. destruct (Z.eqb_spec (zlen s) 0) as [E|E].
  - by rewrite (nil_length_inv s) by (unfold zlen in E; lia).
  - rewrite slice_tableau by (pose proof (zlen_nonneg s); lia). rewrite Z.sub_0_r.
    change (Z.to_nat 0) with 0%nat. rewrite drop_0. f_equal. apply take_ge. unfold zlen. lia.
Qed.

(** The five views of an event: whole name, parent, sub-domain, registrable label, suffix. *)
Definition vues (e : DNSEvent) (nom par sub sld tld : list Z) : Prop :=
  FQDN e = Done nom /\ Parent e = Done par /\ Sub e = Done sub /\ RegistrableSLD e = Done sld /\ PublicSuffix e = Done tld.

Definition avec_point (a b : list Z) : list Z :=
  match a, b with [], _ => b | _, [] => a | _, _ => a ++ 46 :: b end.

Lemma zlen_avec_point a b : zlen (avec_point a b) <= zlen a + 1 + zlen b.
Proof.
  unfold avec_point. pose proof (zlen_nonneg b). destruct a, b; rewrite ?zlen_app, ?zlen_cons in *; try lia.
  all: change (@zlen Z []) with 0; lia.
Qed.

Lemma evenement_vues tolerant stamp client id fl qt g ls : labels_ok ls -> ls <> [] -> admissible tolerant ls ->
  vues (evenement stamp client id fl qt g ls) (nom_pointe ls) (parent ls) (sous_domaine ls) (enregistre ls) (suffixe ls)
  /\ parent ls = avec_point (enregistre ls) (suffixe ls) /\ nom_pointe ls = avec_point (sous_domaine ls) (parent ls)
  /\ enregistre ls <> [].
Proof.
  intros Hls Hne Ha. destruct (admissible_bornes tolerant ls Hls Hne Ha) as (Hb & Hn & _).
  assert (exists l, ls !! (length ls - S (labels_suffixe ls))%nat = Some l) as [l Hl].
  { apply lookup_lt_is_Some_2. destruct ls; [done|]. cbn [length]. lia. }
  pose proof (proj1 (Forall_lookup _ _) Hls _ _ Hl) as Hll. cbn in Hll.
  assert (enregistre ls = bas l) as He by (unfold enregistre; by rewrite Hl).
  assert (Hbl : zlen (bas l) = zlen l) by apply zlen_bas.
  assert (parent ls = avec_point (bas l) (suffixe ls) /\ nom_pointe ls = avec_point (sous_domaine ls) (parent ls) /\
    zlen (suffixe ls) <= 63) as (Hp & Hs & Ht).
  { unfold parent, sous_domaine, suffixe. destruct (Z.eqb_spec (zlen ls) 1) as [H1|H1].
    - destruct ls as [|k [|]]; [done| |rewrite !zlen_cons in H1; pose proof (zlen_nonneg l1); lia].
      cbn in Hl. injection Hl as ->. change (drop _ [l]) with [l]. change (take _ [l]) with (@nil (list Z)).
      rewrite pointe_un. change (nom_pointe []) with (@nil Z). cbn [avec_point]. split; [by destruct (bas l)|done].
    - assert (2 <= zlen ls) as H2 by (destruct ls as [|? [|]]; [done|done|rewrite !zlen_cons; pose proof (zlen_nonneg l2); lia]).
      pose proof (labels_suffixe_bornes ls H2) as Hk. pose proof (suffixe_court ls Hls H2) as Hsc.
      replace (length ls - labels_suffixe ls)%nat with (S (length ls - S (labels_suffixe ls))) in * by lia.
      set (i := (length ls - S (labels_suffixe ls))%nat) in *.
      assert (drop i ls = [l] ++ drop (S i) ls) as Hdi by by apply drop_S.
      assert (drop (S i) ls <> []) as Hd1 by (intros H; rewrite H in Hsc; change (zlen (nom_pointe [])) with 0 in Hsc; lia).
      assert (nom_pointe (drop i ls) = bas l ++ 46 :: nom_pointe (drop (S i) ls)) as Hpi.
      { rewrite Hdi, pointe_app; [by rewrite pointe_un| |by apply labels_ok_drop|done|done].
        constructor; [done|constructor]. }
      split_and!; [| |lia].
      + rewrite Hpi. unfold avec_point. destruct (bas l); [change (@zlen Z []) with 0 in Hbl; lia|].
        destruct (nom_pointe (drop (S i) ls)); [change (@zlen Z []) with 0 in Hsc; lia|done].
      + destruct (decide (i = 0%nat)) as [->|Hi]; [done|].
        rewrite (pointe_coupe ls i) at 1 by (done || lia). rewrite Hpi. unfold avec_point.
        pose proof (zlen_pointe_take ls i Hls ltac:(lia)) as Hzt.
        destruct (nom_pointe (take i ls)); [|by destruct (bas l)].
        change (@zlen Z []) with 0 in Hzt. destruct (lookup_lt_is_Some_2 ls (i - 1)) as [k Hk']; [lia|].
        pose proof (debut_suivant _ _ _ Hk') as Hds. replace (S (i - 1)) with i in Hds by lia.
        pose proof (proj1 (Forall_lookup _ _) Hls _ _ Hk') as Hkk. cbn in Hkk.
        assert (0 <= debut ls (i - 1)) by apply taille_nonneg. lia. }
  assert (zlen (parent ls) <= 127).
  { rewrite Hp. pose proof (zlen_avec_point (bas l) (suffixe ls)). lia. }
  assert (zlen (sous_domaine ls) <= 253).
  { etrans; [|apply Hb]. unfold sous_domaine.
    pose proof (zlen_pointe_mono (take (length ls - S (labels_suffixe ls)) ls) (drop (length ls - S (labels_suffixe ls)) ls)) as Hm.
    rewrite take_drop in Hm. by apply Hm. }
  split; [|rewrite He; split; [done|]; split; [done|]; intros Hnil; rewrite Hnil in Hbl; change (@zlen Z []) with 0 in Hbl; lia].
  unfold vues, FQDN, Parent, Sub, RegistrableSLD, PublicSuffix, evenement, parties_de, champ.
  cbn [NameLen Name domaine SLDLen SLD TLDLen TLD ParentDomainLen ParentDomain SubdomainLen Subdomain].
  rewrite !lire_champ; [done|..]; rewrite ?He; unfold zlen in *; lia.
Qed.

Lemma question_lue_unique raw tol1 tol2 ls1 qt1 ls2 qt2 :
  question_lue raw tol1 ls1 qt1 -> question_lue raw tol2 ls2 qt2 -> ls2 = ls1 /\ qt2 = qt1.
Proof.
  intros (_ & _ & _ & f1 & H1 & _ & Hq1 & _) (_ & _ & _ & f2 & H2 & _ & Hq2 & _).
  destruct (nom_en_unique _ _ _ _ _ H1 _ _ H2) as [-> ->]. split; [done|]. congruence.
Qed.

(** The strict questions are the tolerant ones without an octet outside LDH. *)
Lemma question_stricte raw ls qt :
  question_lue raw false ls qt <-> question_lue raw true ls qt /\ existsb label_hors ls = false.
Proof.
  unfold question_lue, admissible. split.
  - intros (? & ? & ? & fin & ? & ? & ? & ? & ? & ? & ? & Hh). split; [|by apply Hh].
    split_and!; try done. by exists fin.
  - intros [(? & ? & ? & fin & ? & ? & ? & ? & ? & ? & ? & _) Hh]. split_and!; try done. by exists fin.
Qed.

Lemma question_labels raw tolerant ls qt : question_lue raw tolerant ls qt ->
  labels_ok ls /\ ls <> [] /\ admissible tolerant ls /\ qt <> 0.
Proof. intros (_ & _ & _ & fin & Hn & _ & _ & _ & ? & ? & ?). split_and!; try done. by eapply nom_en_labels. Qed.

Lemma classe_ldh tolerant ls : labels_ok ls -> ls <> [] -> admissible tolerant ls ->
  Classe (finaliserGrammaire (releve ls)) = QNameGrammarLDH <-> existsb label_hors ls = false.
Proof.
  intros Hls Hne Ha. destruct (admissible_bornes tolerant ls Hls Hne Ha) as (_ & _ & Ht).
  pose proof (zlen_concat_filaire ls). rewrite zlen_filaire in *.
  rewrite classe_releve by lia. unfold classe_attendue. destruct (existsb label_hors ls); cbn [negb]; [|done].
  split; [|done]. intros H1. by repeat case_match.
Qed.

(** * Properties *)

(** Both wire parsers are total and exact: they never panic and always
    terminate; they accept exactly the packets whose header announces one
    standard question and whose octet 12 spells, with at most one compression
    jump, a non-empty name of at most 253 octets (without octets outside LDH and
    [+/=] for the strict one) followed by a non-zero type and class IN; the
    event is then the one the labels determine, and on error it is empty but
    for the caller's timestamp and address. *)
Theorem question_exacte raw tolerant ev : bytes_ok raw ->
  exists ev' err, parseDNSQueryWire raw (Some ev) tolerant = Done (Some ev', err) /\
    (err = None <-> exists ls qt, question_lue raw tolerant ls qt) /\
    (err <> None -> ev' = event_nul (Timestamp ev) (ClientIP ev)) /\
    (forall ls qt id flags, question_lue raw tolerant ls qt -> be16 raw 0 = Done id -> be16 raw 2 = Done flags ->
       ev' = evenement (Timestamp ev) (ClientIP ev) id flags qt (grammaire_de tolerant ls) ls).
Proof.
  intros Hraw. pose proof (fil_decide raw tolerant ev Hraw) as ([e err] & Hr & Hp)%wp_exists.
  unfold reponse_fil in Hp. cbn [fst snd] in Hp. destruct err as [err|].
  - destruct Hp as [-> Hno]. eexists _, _. split; [exact Hr|]. split; [|split; [done|]].
    + split; [done|]. intros (ls & qt & H). by apply Hno in H.
    + intros ls qt id fl H. by apply Hno in H.
  - destruct Hp as (ls & qt & id & fl & Hq & Hi & Hf & ->). eexists _, _. split; [exact Hr|]. split; [|split; [done|]].
    + split; [|done]. intros _. by exists ls, qt.
    + intros ls' qt' id' fl' Hq' Hi' Hf'. destruct (question_lue_unique _ _ _ _ _ _ _ Hq Hq') as [-> ->]. congruence.
Qed.

(** [WWW.Example.co.uk IN TXT], and an event that already holds a time. *)
Definition noms_exemple : list (list Z) := octets <$> ["WWW"; "Example"; "co"; "uk"]%string.
Definition question_exemple : list Z :=
  [18; 52; 1; 0; 0; 1; 0; 0; 0; 0; 0; 0] ++ nom_filaire noms_exemple ++ [0; 16; 0; 1].
Definition event_exemple : DNSEvent := event_nul 7 (zeros 16).

Lemma nom_exemple : nom_en question_exemple true 12 noms_exemple 31.
Proof. do 4 (eapply nom_label; [by vm_compute|by vm_compute|by vm_compute|]). by apply (nom_fin _ _ 30). Qed.

Lemma question_exemple_lue : question_lue question_exemple false noms_exemple 16.
Proof.
  split; [by vm_compute|]. split; [by vm_compute|]. split; [by exists 256|]. exists 31.
  split; [apply nom_exemple|]. by split_and!.
Qed.

Lemma question_exacte_witness : exists ev',
  parseDNSQueryWire question_exemple (Some event_exemple) false = Done (Some ev', None) /\
  ev' = evenement 7 (zeros 16) 0x1234 0x100 16 profil_nul noms_exemple /\
  FQDN ev' = Done (octets "www.example.co.uk").
Proof.
  destruct (question_exacte question_exemple false event_exemple) as (ev' & err & H & Hacc & _ & Hev);
    [by apply octets_valides_ok|]. pose proof question_exemple_lue as Hq.
  exists ev'. rewrite (proj2 Hacc) in H by by exists noms_exemple, 16. split; [exact H|].
  specialize (Hev noms_exemple 16 0x1234 0x100 Hq eq_refl eq_refl).
  split; [exact Hev|]. rewrite Hev. by vm_compute.
Defined.

(** The tolerant parser is the strict one plus a grammar census: the strict
    parser accepts a packet exactly when the tolerant one accepts it with class
    LDH, the two events then agree field by field but for the census, and a
    packet the tolerant parser rejects is rejected by the strict one. *)
Theorem tolerant_strict raw ev : bytes_ok raw ->
  exists es errs et errt,
    ParseDNSQuery raw (Some ev) = Done (Some es, errs) /\ ParseDNSQueryTolerant raw (Some ev) = Done (Some et, errt) /\
    (errs = None <-> errt = None /\ Classe (Grammar et) = QNameGrammarLDH) /\
    (errs = None ->
       es = Event (Timestamp et) (ID et) (Flags et) (QType et) (QClass et) (NameLen et) (Name et) (domaine et)
              (LabelCount et) (MaxLabelLen et) (HasEncoding et) (ClientIP et) profil_nul).
Proof.
  intros Hraw. unfold ParseDNSQuery, ParseDNSQueryTolerant.
  pose proof (fil_decide raw false ev Hraw) as ([es errs] & Hs & Ps)%wp_exists.
  pose proof (fil_decide raw true ev Hraw) as ([et errt] & Ht & Pt)%wp_exists.
  unfold reponse_fil in Ps, Pt. cbn [fst snd] in Ps, Pt. destruct errt as [errt|].
  - destruct Pt as [-> Hnt]. destruct errs as [errs|].
    + destruct Ps as [-> _]. eexists _, _, _, _. split; [exact Hs|]. split; [exact Ht|]. split; [|done].
      split; [done|]. by intros [? _].
    + destruct Ps as (ls & qt & id & fl & Hq & _). apply question_stricte in Hq as [Hq _]. by apply Hnt in Hq.
  - destruct Pt as (lt & qt & id & fl & Hqt & Hi & Hf & ->).
    destruct (question_labels _ _ _ _ Hqt) as (Hlt & Hnt & Hat & _). pose proof (classe_ldh _ _ Hlt Hnt Hat) as Hcl.
    destruct errs as [errs|].
    + destruct Ps as [-> Hno]. eexists _, _, _, _. split; [exact Hs|]. split; [exact Ht|]. split; [|done].
      split; [done|]. intros [_ Hc]. apply Hcl in Hc. destruct (Hno lt qt). by apply question_stricte.
    + destruct Ps as (ls & qt' & id' & fl' & Hqs & Hi' & Hf' & ->).
      destruct (question_lue_unique _ _ _ _ _ _ _ Hqt Hqs) as [-> ->].
      apply question_stricte in Hqs as [_ Hh]. assert (id' = id) as -> by congruence. assert (fl' = fl) as -> by congruence.
      eexists _, _, _, _. split; [exact Hs|]. split; [exact Ht|]. split; [|done]. split; [|done].
      intros _. split; [done|]. by apply Hcl.
Qed.

(** [a b.uk]: a space is tolerated and counted, the strict parser refuses it. *)
Definition question_espace : list Z :=
  [0; 1; 1; 0; 0; 1; 0; 0; 0; 0; 0; 0] ++ nom_filaire (octets <$> ["a b"; "uk"]%string) ++ [0; 1; 0; 1].

Lemma tolerant_strict_witness :
  exists es errs et errt,
    ParseDNSQuery question_espace (Some event_exemple) = Done (Some es, errs) /\
    ParseDNSQueryTolerant question_espace (Some event_exemple) = Done (Some et, errt) /\
    (errs = None <-> errt = None /\ Classe (Grammar et) = QNameGrammarLDH) /\
    Classe (Grammar et) = QNameGrammarASCIIOutsideLDH /\ errt = None /\ errs = Some ErrInvalidLabel.
Proof.
  destruct (tolerant_strict question_espace event_exemple) as (es & errs & et & errt & Hs & Ht & Heq & _);
    [by apply octets_valides_ok|].
  exists es, errs, et, errt. split; [exact Hs|]. split; [exact Ht|]. split; [exact Heq|].
  vm_compute in Ht. injection Ht as <- <-. vm_compute in Hs. injection Hs as _ <-. done.
Defined.

(** The textual and the wire parsers agree: whenever [ParseDNSQuery] accepts
    a packet, [ParseDNSName] accepts the dotted name it returns, with the same
    type, and fills the same fields; only the header fields are left at zero. *)
Theorem texte_filaire raw ev ev' :
  bytes_ok raw -> ParseDNSQuery raw (Some ev) = Done (Some ev', None) ->
  exists nom, FQDN ev' = Done nom /\
    ParseDNSName nom (QType ev') (Some ev) = Done (Some
      (Event (Timestamp ev') 0 0 (QType ev') (QClass ev') (NameLen ev') (Name ev') (domaine ev')
         (LabelCount ev') (MaxLabelLen ev') (HasEncoding ev') (ClientIP ev') (Grammar ev')), None).
Proof.
  intros Hraw H. pose proof (wp_of_done _ _ _ H (fil_decide raw false ev Hraw)) as Hp. unfold reponse_fil in Hp.
  cbn [fst snd] in Hp. destruct Hp as (ls & qt & id & fl & Hq & _ & _ & [= ->]).
  destruct (question_labels _ _ _ _ Hq) as (Hls & Hne & Ha & Hqt).
  destruct (evenement_vues false (Timestamp ev) (ClientIP ev) id fl qt (grammaire_de false ls) ls Hls Hne Ha) as [(Hf & _) _].
  exists (nom_pointe ls). split; [exact Hf|]. destruct Ha as [Hz Hh]. cbn [QType evenement].
  by rewrite texte_canonique by auto.
Qed.

Lemma texte_filaire_witness :
  ParseDNSQuery question_exemple (Some event_exemple)
  = Done (Some (evenement 7 (zeros 16) 0x1234 0x100 16 profil_nul noms_exemple), None) /\
  exists nom, FQDN (evenement 7 (zeros 16) 0x1234 0x100 16 profil_nul noms_exemple) = Done nom /\
    ParseDNSName nom 16 (Some event_exemple)
    = Done (Some (evenement 7 (zeros 16) 0 0 16 profil_nul noms_exemple), None).
Proof.
  assert (H : ParseDNSQuery question_exemple (Some event_exemple)
    = Done (Some (evenement 7 (zeros 16) 0x1234 0x100 16 profil_nul noms_exemple), None)) by by vm_compute.
  split; [exact H|].
  apply (texte_filaire question_exemple event_exemple _ ltac:(by apply octets_valides_ok) H).
Defined.

(** The split loses nothing: for every accepted packet the five views of the
    event are defined, the parent is the registrable label followed by the public
    suffix, the whole name is the sub-domain followed by the parent, and the
    registrable label is never empty. *)
Theorem decoupage_domaine raw tolerant ev ev' :
  bytes_ok raw -> parseDNSQueryWire raw (Some ev) tolerant = Done (Some ev', None) ->
  exists nom par sub sld tld, vues ev' nom par sub sld tld /\
    par = avec_point sld tld /\ nom = avec_point sub par /\ sld <> [].
Proof.
  intros Hraw H. pose proof (wp_of_done _ _ _ H (fil_decide raw tolerant ev Hraw)) as Hp. unfold reponse_fil in Hp.
  cbn [fst snd] in Hp. destruct Hp as (ls & qt & id & fl & Hq & _ & _ & [= ->]).
  destruct (question_labels _ _ _ _ Hq) as (Hls & Hne & Ha & _). eexists _, _, _, _, _. by eapply evenement_vues.
Qed.

Lemma decoupage_domaine_witness :
  let e := evenement 7 (zeros 16) 0x1234 0x100 16 profil_nul noms_exemple in
  parseDNSQueryWire question_exemple (Some event_exemple) false = Done (Some e, None) /\
  RegistrableSLD e = Done (octets "example") /\ PublicSuffix e = Done (octets "co.uk") /\
  exists nom par sub sld tld, vues e nom par sub sld tld /\
    par = avec_point sld tld /\ nom = avec_point sub par /\ sld <> [].
Proof.
  intros e. assert (H : parseDNSQueryWire question_exemple (Some event_exemple) false = Done (Some e, None))
    by by vm_compute.
  split; [exact H|]. split; [by vm_compute|]. split; [by vm_compute|].
  apply (decoupage_domaine question_exemple false event_exemple e ltac:(by apply octets_valides_ok) H).
Defined.
