(* ===== verification/DnsMessage.v ===== *)
(** Complete DNS messages (src/dns_message.go): names with up to eight backward
    compression jumps, resource-record sections of at most 16 records of at most
    1536 octets of data, the census of the first label and the split of the
    query name.  The theorems: the decoder is total and accepts exactly the
    messages given by a relational grammar of the wire, with the record that the
    grammar determines; encoded messages decode to themselves. *)
From S2P Require Import Prelude DnsName Grammaire Lexique DnsQuestion.

Definition MaxDNSMessageRRs : Z := 16.
Definition MaxDNSRDataBytes : Z := 1536.
Definition maxPointerJumps : Z := 8.

Record DNSRR := RR {
  rr_NameLen : Z; rr_Name : list Z;
  rr_Type : Z; rr_Class : Z; rr_TTL : Z;
  rr_RDLength : Z; rr_RDataLen : Z; rr_RData : list Z
}.
Definition rr_zero : DNSRR := RR 0 (zeros 256) 0 0 0 0 0 (zeros 1536).

(** [DNSMessage], its fields grouped: header, question, census of the first
    label, domain parts, and the three sections (count and array). *)
Record entete := Entete {
  m_ID : Z; m_Flags : Z; m_IsResponse : bool; m_Opcode : Z;
  m_AA : bool; m_TC : bool; m_RD : bool; m_RA : bool; m_RCode : Z;
  m_QDCount : Z; m_ANCount : Z; m_NSCount : Z; m_ARCount : Z
}.
Record question := Question {
  m_QType : Z; m_QClass : Z; m_QNameLen : Z; m_QName : list Z;
  m_LabelCount : Z; m_MaxLabelLen : Z; m_HasNonLDH : bool
}.
Record premier_label := Premier {
  FirstLabelUpper : Z; FirstLabelLower : Z; FirstLabelDigits : Z;
  FirstLabelHasZeroOIl : bool; FirstLabelHasHyphen : bool
}.
Record DNSMessage := Message {
  m_entete : entete;
  m_question : question;
  m_premier : premier_label;
  m_domaine : parties;
  m_reponses : Z * list DNSRR;
  m_autorites : Z * list DNSRR;
  m_additionnels : Z * list DNSRR
}.

Definition entete_zero : entete := Entete 0 0 false 0 false false false false 0 0 0 0 0.
Definition question_zero : question := Question 0 0 0 (zeros 256) 0 0 false.
Definition premier_zero : premier_label := Premier 0 0 0 false false.
Definition section_zero : Z * list DNSRR := (0, replicate 16 rr_zero).
Definition message_zero : DNSMessage :=
  Message entete_zero question_zero premier_zero parties_nulles section_zero section_zero section_zero.

(** ** [decodeDNSWireName] *)

(** The locals, with the caller's [dst] and [labelOffsets]. *)
Record etat_fil := EtatFil {
  f_pos : Z; f_nextOff : Z; f_jumps : Z; f_outLen : Z;
  f_labelCount : Z; f_maxLbl : Z; f_hasNonLDH : bool;
  f_dst : list Z; f_offs : option (list Z)
}.

(** The six results and the caller's buffers. *)
Record nom_decode := NomDecode {
  d_len : Z; d_next : Z; d_labels : Z; d_max : Z; d_nonLDH : bool; d_err : option erreurDNS;
  d_dst : list Z; d_offs : option (list Z)
}.

Definition echec (e : etat_fil) (dst : list Z) (offs : option (list Z)) (err : erreurDNS) : run (etat_fil + nom_decode) :=
  Done (inr (NomDecode 0 0 0 0 false (Some err) dst offs)).

(** [for i := range lLen]: the copy of one label. *)
Definition pas_octet (_ : Z) (ch : Z) (s : list Z * Z * bool) : run ((list Z * Z * bool) + (list Z * Z * bool)) :=
  let '(dst, outLen, nonLDH) := s in
  let ch := minuscule ch in
  dst ← upd dst outLen ch;
  Done (inl (dst, outLen + 1, if negb (dnsLabelByte ch) then true else nonLDH)).

Definition copier_octets (label : list Z) (outLen : Z) (nonLDH : bool) (dst : list Z)
  : run ((list Z * Z * bool) + (list Z * Z * bool)) :=
  for_range (zlen label) (dst, outLen, nonLDH) (fun i s => ch ← idx label i; pas_octet i ch s).

(** From the test of the name's length to the end of the body; [e] is at the
    first octet of the label. *)
Definition poser_label (raw : list Z) (e : etat_fil) (lLen : Z) : run (etat_fil + nom_decode) :=
  let '(EtatFil pos nextOff jumps outLen labelCount maxLbl nonLDH dst offs) := e in
  if (0 <? outLen) && (253 <? outLen + 1) then echec e dst offs ErrNameTooLong else
  '(dst, outLen) ←
    (if 0 <? outLen then dst ← upd dst outLen 46; Done (dst, outLen + 1) else Done (dst, outLen));
  if 253 <? outLen + lLen then echec e dst offs ErrNameTooLong else
  offs ← (match offs with
          | Some o => if labelCount <? maxDNSLabels then o ← upd o labelCount (u8 outLen); Done (Some o) else Done (Some o)
          | None => Done None
          end);
  label ← slice raw pos (pos + lLen);
  o ← copier_octets label outLen nonLDH dst;
  let '(dst, outLen, nonLDH) := match o with inl s | inr s => s end in
  Done (inl (EtatFil (pos + lLen) nextOff jumps outLen (u8 (labelCount + 1))
               (if maxLbl <? u8 lLen then u8 lLen else maxLbl) nonLDH dst offs)).

Definition pas_fil (raw : list Z) (e : etat_fil) : run (etat_fil + nom_decode) :=
  let '(EtatFil pos nextOff jumps outLen labelCount maxLbl nonLDH dst offs) := e in
  if zlen raw <=? pos then echec e dst offs ErrInvalidLabel else
  b ← idx raw pos;
  if b =? 0 then
    Done (inr (NomDecode (u8 outLen) (if nextOff <? 0 then pos + 1 else nextOff) labelCount maxLbl nonLDH None dst offs))
  else if Z.land b 192 =? 192 then
    if zlen raw <=? pos + 1 then echec e dst offs ErrInvalidLabel else
    bas ← idx raw (pos + 1);
    let target := Z.lor (Z.shiftl (Z.land b 63) 8) bas in
    if (target <? 12) || (pos <=? target) then echec e dst offs ErrLoopPointer else
    if maxPointerJumps <? jumps + 1 then echec e dst offs ErrLoopPointer else
    Done (inl (EtatFil target (if nextOff <? 0 then pos + 2 else nextOff) (jumps + 1) outLen labelCount maxLbl
                 nonLDH dst offs))
  else if negb (Z.land b 192 =? 0) then echec e dst offs ErrInvalidLabel else
  if (63 <? b) || (zlen raw <? pos + 1 + b) then echec e dst offs ErrInvalidLabel else
  poser_label raw (EtatFil (pos + 1) nextOff jumps outLen labelCount maxLbl nonLDH dst offs) b.

(** Every turn but the last takes one of the 8 jumps or lengthens the name. *)
Definition carburant_fil : nat := 264.

Definition decodeDNSWireName (raw : list Z) (startOff : Z) (dst : list Z) (labelOffsets : option (list Z))
  : run nom_decode :=
  loop (pas_fil raw) carburant_fil (EtatFil startOff (-1) 0 0 0 0 false dst labelOffsets).

(** ** Sections *)

(** One turn of [for range rrCount]; [inr] is [return 0, 0, err] with [dst] as it stands. *)
Definition pas_section (raw : list Z) (s : Z * Z * list DNSRR) : run ((Z * Z * list DNSRR) + (list DNSRR * erreurDNS)) :=
  let '(off, stored, dst) := s in
  d ← decodeDNSWireName raw off (zeros 256) None;
  match d_err d with
  | Some e => Done (inr (dst, e))
  | None =>
      let nextOff := d_next d in
      if zlen raw <? nextOff + 10 then Done (inr (dst, ErrInvalidLabel)) else
      type ← be16 raw nextOff; class ← be16 raw (nextOff + 2); ttl ← be32 raw (nextOff + 4);
      rdLen ← be16 raw (nextOff + 8);
      let rdataStart := nextOff + 10 in
      let rdataEnd := rdataStart + rdLen in
      if zlen raw <? rdataEnd then Done (inr (dst, ErrInvalidLabel)) else
      if MaxDNSRDataBytes <? rdLen then Done (inr (dst, ErrRDataTooLong)) else
      data ← slice raw rdataStart rdataEnd;
      dst ← upd dst stored (RR (d_len d) (d_dst d) type class ttl rdLen rdLen (copy_into (zeros 1536) data));
      Done (inl (rdataEnd, u8 (stored + 1), dst))
  end.

(** [(off, stored, err)] and the array. *)
Definition decodeRRSection (raw : list Z) (off : Z) (rrCount : Z) (dst : list DNSRR)
  : run (Z * Z * option erreurDNS * list DNSRR) :=
  if MaxDNSMessageRRs <? rrCount then Done (0, 0, Some ErrTooManyRRs, dst) else
  o ← for_range rrCount (off, 0, dst) (fun _ s => pas_section raw s);
  match o with
  | inr (dst, e) => Done (0, 0, Some e, dst)
  | inl (off, stored, dst) => Done (off, stored, None, dst)
  end.

(** ** The query name *)

Definition copier_champ (champ : list Z) (s : list Z) : Z * list Z :=
  (u8 (Z.min (zlen champ) (zlen s)), copy_into champ s).

(** The last and last but one dots of [qname[:n]]. *)
Definition derniers_points (qname : list Z) : run (Z * Z) :=
  o ← for_range (zlen qname) (-1, -1) (fun i '(lastDot, prevDot) =>
        c ← idx qname i;
        Done (inl (B := Z * Z) (if c =? 46 then (i, lastDot) else (lastDot, prevDot))));
  Done (match o with inl s | inr s => s end).

(** The fallback of [splitWireQName], on raw dots. *)
Definition decouper_points (q : question) (d : parties) (nom : list Z) : run parties :=
  let n := m_QNameLen q in
  '(lastDot, prevDot) ← derniers_points nom;
  if lastDot <=? 0 then
    let '(sldLen, sld) := copier_champ (SLD d) nom in
    let '(parentLen, par) := copier_champ (ParentDomain d) nom in
    Done (Parties (SubdomainLen d) (Subdomain d) parentLen par sldLen sld (TLDLen d) (TLD d))
  else
    tld ← slice (m_QName q) (lastDot + 1) n;
    let '(tldLen, tld) := copier_champ (TLD d) tld in
    '(pStart, subLen, sub) ←
      (if 0 <=? prevDot
       then s ← slice (m_QName q) 0 prevDot;
            let '(subLen, sub) := copier_champ (Subdomain d) s in Done (prevDot + 1, subLen, sub)
       else Done (0, SubdomainLen d, Subdomain d));
    sld ← slice (m_QName q) pStart lastDot;
    let '(sldLen, sld) := copier_champ (SLD d) sld in
    par ← slice (m_QName q) pStart n;
    let '(parentLen, par) := copier_champ (ParentDomain d) par in
    Done (Parties subLen sub parentLen par sldLen sld tldLen tld).

Definition splitWireQName (q : question) (d : parties) (labelOffsets : option (list Z)) : run parties :=
  let n := m_QNameLen q in
  if n =? 0 then Done d else
  nom ← slice (m_QName q) 0 n;
  texte ← (if negb (m_HasNonLDH q) && negb (m_QType q =? 0)
           then '(ev, err) ← ParseDNSName nom (m_QType q) (Some (event_nul 0 (zeros 16)));
                Done (match err, ev with None, Some ev => Some (domaine ev) | _, _ => None end)
           else Done None);
  match texte, labelOffsets with
  | Some p, _ => Done p
  | None, Some offs =>
      if 0 <? m_LabelCount q then populateDomainParts (m_QName q) parties_nulles n (m_LabelCount q) offs
      else decouper_points q d nom
  | None, None => decouper_points q d nom
  end.

(** ** [ParseDNSMessage] *)

Definition compter_octet (p : premier_label) (b : Z) : premier_label :=
  let '(Premier up lo di zo hy) := p in
  let '(up, lo, di) :=
    if (65 <=? b) && (b <=? 90) then (u8 (up + 1), lo, di)
    else if (97 <=? b) && (b <=? 122) then (up, u8 (lo + 1), di)
    else if (48 <=? b) && (b <=? 57) then (up, lo, u8 (di + 1))
    else (up, lo, di) in
  Premier up lo di (if (b =? 48) || (b =? 79) || (b =? 73) || (b =? 108) then true else zo)
    (if b =? 45 then true else hy).

(** The census of the first label, read at octet 12. *)
Definition recenser_premier (raw : list Z) : run premier_label :=
  if negb (13 <? zlen raw) then Done premier_zero else
  l0 ← idx raw 12;
  if (0 <? l0) && (l0 <=? 63) && (13 + l0 <=? zlen raw) then
    o ← for_range l0 premier_zero (fun i p => b ← idx raw (13 + i); Done (inl (B := premier_label) (compter_octet p b)));
    Done (match o with inl p | inr p => p end)
  else Done premier_zero.

Definition lire_entete (raw : list Z) : run entete :=
  flags ← be16 raw 2; id ← be16 raw 0;
  qd ← be16 raw 4; an ← be16 raw 6; ns ← be16 raw 8; ar ← be16 raw 10;
  Done (Entete id flags (negb (Z.land flags 0x8000 =? 0)) (u8 (Z.land (Z.shiftr flags 11) 0x0F))
    (negb (Z.land flags 0x0400 =? 0)) (negb (Z.land flags 0x0200 =? 0)) (negb (Z.land flags 0x0100 =? 0))
    (negb (Z.land flags 0x0080 =? 0)) (u8 (Z.land flags 0x000F)) qd an ns ar).

(** [for q := uint16(1); q < msg.QDCount; q++]: the further questions are skipped. *)
Definition sauter_autres (raw : list Z) (qd off : Z) : run (Z + erreurDNS) :=
  for_range (qd - 1) off (fun _ off =>
    d ← decodeDNSWireName raw off (zeros 256) None;
    match d_err d with
    | Some e => Done (inr e)
    | None => if zlen raw <? d_next d + 4 then Done (inr ErrQuestionContract) else Done (inl (d_next d + 4))
    end).

(** The message after the call (partly filled on error) and the error. *)
Definition ParseDNSMessage (raw : list Z) (msg : option DNSMessage) : run (option DNSMessage * option erreurDNS) :=
  match msg with
  | None => Done (None, Some ErrQuestionContract)
  | Some _ =>
      let z := section_zero in
      if zlen raw <? 12 then Done (Some message_zero, Some ErrPacketTooShort) else
      h ← lire_entete raw;
      if m_QDCount h =? 0
      then Done (Some (Message h question_zero premier_zero parties_nulles z z z), Some ErrQuestionContract) else
      d ← decodeDNSWireName raw 12 (zeros 256) (Some (zeros 128));
      let q0 := Question 0 0 0 (d_dst d) 0 0 false in
      match d_err d with
      | Some e => Done (Some (Message h q0 premier_zero parties_nulles z z z), Some e)
      | None =>
          let off := d_next d in
          if zlen raw <? off + 4
          then Done (Some (Message h q0 premier_zero parties_nulles z z z), Some ErrQuestionContract) else
          qtype ← be16 raw off; qclass ← be16 raw (off + 2);
          let q := Question qtype qclass (d_len d) (d_dst d) (d_labels d) (d_max d) (d_nonLDH d) in
          p ← recenser_premier raw;
          dom ← splitWireQName q parties_nulles (d_offs d);
          o ← sauter_autres raw (m_QDCount h) (off + 4);
          match o with
          | inr e => Done (Some (Message h q p dom z z z), Some e)
          | inl off =>
              '(off, nb1, err, s1) ← decodeRRSection raw off (m_ANCount h) z.2;
              match err with
              | Some e => Done (Some (Message h q p dom (nb1, s1) z z), Some e)
              | None =>
                  '(off, nb2, err, s2) ← decodeRRSection raw off (m_NSCount h) z.2;
                  match err with
                  | Some e => Done (Some (Message h q p dom (nb1, s1) (nb2, s2) z), Some e)
                  | None =>
                      '(off, nb3, err, s3) ← decodeRRSection raw off (m_ARCount h) z.2;
                      Done (Some (Message h q p dom (nb1, s1) (nb2, s2) (nb3, s3)), err)
                  end
              end
          end
      end
  end.

(** * Names with compression *)

(** The labels [ls] spelled at [o] with at most [j] backward jumps; [e] ends the
    in-line encoding. *)
Inductive nom_comp (raw : list Z) : nat -> Z -> list (list Z) -> Z -> Prop :=
  | comp_fin j o : idx raw o = Done 0 -> nom_comp raw j o [] (o + 1)
  | comp_label j o l ls e :
      idx raw o = Done (zlen l) -> 1 <= zlen l <= 63 ->
      slice raw (o + 1) (o + 1 + zlen l) = Done l ->
      nom_comp raw j (o + 1 + zlen l) ls e -> nom_comp raw j o (l :: ls) e
  | comp_saut j o b c ls e :
      idx raw o = Done b -> Z.land b 192 = 192 -> idx raw (o + 1) = Done c ->
      12 <= Z.lor (Z.shiftl (Z.land b 63) 8) c < o ->
      nom_comp raw j (Z.lor (Z.shiftl (Z.land b 63) 8) c) ls e -> nom_comp raw (S j) o ls (o + 2).

Lemma nom_comp_debut raw j o ls e : nom_comp raw j o ls e -> 0 <= o < zlen raw.
Proof. intros H. destruct H; by eapply idx_Done_bounds. Qed.

Lemma nom_comp_labels raw j o ls e : nom_comp raw j o ls e -> labels_ok ls.
Proof. induction 1; [constructor|by constructor|done]. Qed.

Lemma nom_comp_zero raw j o ls e : idx raw o = Done 0 -> nom_comp raw j o ls e <-> ls = [] /\ e = o + 1.
Proof.
  intros H0. split; [|intros [-> ->]; by constructor].
  intros H. inversion H; subst; lectures; [done|lia|by subst].
Qed.

Lemma nom_comp_etiquette raw j o n l ls e :
  idx raw o = Done n -> 1 <= n <= 63 -> slice raw (o + 1) (o + 1 + n) = Done l ->
  nom_comp raw j o ls e <-> exists r, ls = l :: r /\ nom_comp raw j (o + 1 + n) r e.
Proof.
  intros Hn Hr Hl. pose proof (slice_bornes _ _ _ _ Hl) as (_ & _ & Hz).
  assert (zlen l = n) as Hzl by lia. split.
  - intros H. inversion H; clear H; subst; lectures; [lia| |subst; by rewrite mod192_etiquette in *].
    match goal with E : zlen _ = zlen l |- _ => rewrite E in * end.
    lectures. subst. eauto.
  - intros (r & -> & Hr'). rewrite <- Hzl in *. by econstructor.
Qed.

Lemma nom_comp_pointeur raw j o b c ls e :
  idx raw o = Done b -> Z.land b 192 = 192 -> idx raw (o + 1) = Done c ->
  nom_comp raw j o ls e <-> e = o + 2 /\ 12 <= Z.lor (Z.shiftl (Z.land b 63) 8) c < o /\
    exists j' e', j = S j' /\ nom_comp raw j' (Z.lor (Z.shiftl (Z.land b 63) 8) c) ls e'.
Proof.
  intros Hb H192 Hc. split.
  - intros H. inversion H; clear H; subst; lectures; subst.
    + done.
    + by rewrite mod192_etiquette in H192.
    + naive_solver.
  - intros (-> & ? & j' & e' & -> & ?). by econstructor.
Qed.

Lemma nom_comp_octet raw j o b ls e : idx raw o = Done b -> nom_comp raw j o ls e ->
  b = 0 \/ (1 <= b <= 63 /\ o + 1 + b <= zlen raw) \/ (Z.land b 192 = 192 /\ o + 2 <= zlen raw).
Proof.
  intros Hb H. inversion H; clear H; subst; lectures; subst; [by left|right; left|right; right].
  - split; [done|]. match goal with E : slice _ _ _ = _ |- _ => by apply slice_bornes in E as (_ & ? & _) end.
  - split; [done|]. match goal with E : idx raw (o + 1) = _ |- _ => apply idx_Done_bounds in E end. lia.
Qed.

Lemma nom_comp_unique raw j o ls e : nom_comp raw j o ls e ->
  forall ls' e', nom_comp raw j o ls' e' -> ls' = ls /\ e' = e.
Proof.
  induction 1 as [j o H0|j o l ls e Hn Hl Hs _ IH|j o b c ls e Hb H192 Hc _ _ IH]; intros ls' e' H.
  - by apply (nom_comp_zero _ _ _ _ _ H0) in H as [-> ->].
  - apply (nom_comp_etiquette _ _ _ _ _ _ _ Hn Hl Hs) in H as (r & -> & H). by destruct (IH _ _ H) as [-> ->].
  - apply (nom_comp_pointeur _ _ _ _ _ _ _ Hb H192 Hc) in H as (-> & _ & j' & e2 & [= <-] & H).
    by destruct (IH _ _ H) as [-> _].
Qed.

(** ** The state that copied [ls] *)

Definition hors_lettre (o : Z) : bool := negb (dnsLabelByte (minuscule o)).
Definition non_ldh (ls : list (list Z)) : bool := existsb (existsb hors_lettre) ls.
Definition offs_de (avec : bool) (ls : list (list Z)) : option (list Z) :=
  if avec then Some (tableau 128 (debuts 0 ls)) else None.

Definition fil_de (avec : bool) (pos next jumps : Z) (ls : list (list Z)) : etat_fil :=
  EtatFil pos next jumps (zlen (nom_pointe ls)) (zlen ls) (plus_long ls) (non_ldh ls) (tableau 256 (nom_pointe ls))
    (offs_de avec ls).

Definition decode_de (avec : bool) (fin : Z) (ls : list (list Z)) : nom_decode :=
  NomDecode (zlen (nom_pointe ls)) fin (zlen ls) (plus_long ls) (non_ldh ls) None (tableau 256 (nom_pointe ls))
    (offs_de avec ls).

Lemma pas_octet_exact i o s e : zlen s < 256 ->
  pas_octet i o (tableau 256 s, zlen s, e)
  = Done (inl (tableau 256 (s ++ [minuscule o]), zlen (s ++ [minuscule o]), e || hors_lettre o)).
Proof.
  intros Hs. unfold pas_octet. rewrite upd_tableau, run_bind_done by (done || (unfold zlen in *; lia)).
  rewrite zlen_app. unfold hors_lettre. by destruct (dnsLabelByte (minuscule o)), e.
Qed.

Lemma parcourir_octets l : forall i s e, zlen s + zlen l <= 256 ->
  parcourir pas_octet i l (tableau 256 s, zlen s, e)
  = Done (inl (tableau 256 (s ++ bas l), zlen (s ++ bas l), e || existsb hors_lettre l)).
Proof.
  induction l as [|o l IH]; intros i s e Hs; cbn [parcourir].
  - change (bas []) with (@nil Z). by rewrite app_nil_r, orb_false_r.
  - rewrite zlen_cons in *. pose proof (zlen_nonneg l). rewrite pas_octet_exact, run_bind_done by lia.
    rewrite IH by (rewrite zlen_app; change (zlen [minuscule o]) with 1; lia).
    rewrite <- !app_assoc. by rewrite <- orb_assoc.
Qed.

Lemma copier_octets_exact s e l : zlen s + zlen l <= 256 ->
  copier_octets l (zlen s) e (tableau 256 s)
  = Done (inl (tableau 256 (s ++ bas l), zlen (s ++ bas l), e || existsb hors_lettre l)).
Proof. intros H. unfold copier_octets. rewrite (for_range_liste pas_octet). by apply parcourir_octets. Qed.

(** ** The loop *)

Section decodage.
Context (raw : list Z) (avec : bool) (start : Z).
Hypothesis Hraw : bytes_ok raw.
Hypothesis Hstart : 0 <= start.

Definition decode_ok (r : nom_decode) : Prop :=
  match d_err r with
  | None => exists ls fin, nom_comp raw 8 start ls fin /\ zlen (nom_pointe ls) <= 253 /\ r = decode_de avec fin ls
  | Some _ => zlen (d_dst r) = 256 /\ forall ls fin, nom_comp raw 8 start ls fin -> 253 < zlen (nom_pointe ls)
  end.

(** One label after [ls]. *)
Lemma wp_poser_label pos next jumps ls l :
  labels_ok ls -> zlen (nom_pointe ls) <= 253 -> 1 <= zlen l <= 63 -> slice raw pos (pos + zlen l) = Done l ->
  wp (poser_label raw (fil_de avec pos next jumps ls) (zlen l)) (fun o =>
    match o with
    | inl e => e = fil_de avec (pos + zlen l) next jumps (ls ++ [l]) /\
        zlen (nom_pointe ls) < zlen (nom_pointe (ls ++ [l])) <= 253
    | inr r => d_err r <> None /\ zlen (d_dst r) = 256 /\ 253 < zlen (nom_pointe (ls ++ [l]))
    end).
Proof.
  intros Hls Hp Hl Hs. unfold poser_label, fil_de. cbn beta iota.
  pose proof (zlen_nonneg (nom_pointe ls)) as Hp0. pose proof (debut_pointe ls Hls) as Hd.
  pose proof (zlen_pointe_snoc ls l Hls Hl) as Hsn.
  set (sep := if zlen (nom_pointe ls) =? 0 then [] else [46]) in *.
  assert (zlen sep = if zlen (nom_pointe ls) =? 0 then 0 else 1) as Hsep by (unfold sep; by destruct (_ =? 0)).
  rewrite zlen_app in Hd.
  assert (forall p, zlen p <= 256 -> zlen (tableau 256 p) = 256) as Hlen
    by (intros p Hz; apply zlen_tableau; unfold zlen in Hz; lia).
  destruct ((0 <? zlen (nom_pointe ls)) && (253 <? zlen (nom_pointe ls) + 1)) eqn:E1.
  { zbool. apply wp_done. cbn [d_err d_dst]. split; [done|]. split; [apply Hlen; lia|].
    destruct (Z.eqb_spec (zlen (nom_pointe ls)) 0); lia. }
  assert ((if 0 <? zlen (nom_pointe ls)
           then dst ← upd (tableau 256 (nom_pointe ls)) (zlen (nom_pointe ls)) 46; Done (dst, zlen (nom_pointe ls) + 1)
           else Done (tableau 256 (nom_pointe ls), zlen (nom_pointe ls)))
          = Done (tableau 256 (nom_pointe ls ++ sep), zlen (nom_pointe ls ++ sep))) as ->.
  { rewrite zlen_app, Hsep. unfold sep. destruct (Z.ltb_spec 0 (zlen (nom_pointe ls))), (Z.eqb_spec (zlen (nom_pointe ls)) 0); try lia.
    - by rewrite upd_tableau, run_bind_done by (done || (unfold zlen in *; lia)).
    - by rewrite app_nil_r, Z.add_0_r. }
  rewrite run_bind_done. rewrite zlen_app, Hd.
  assert (zlen (nom_pointe (ls ++ [l])) = taille_labels ls + zlen l) as Hnew by lia.
  destruct (Z.ltb_spec 253 (taille_labels ls + zlen l)).
  { apply wp_done. cbn [d_err d_dst]. split; [done|]. split; [|lia]. apply Hlen. rewrite zlen_app.
    destruct (Z.eqb_spec (zlen (nom_pointe ls)) 0); lia. }
  pose proof (taille_nonneg ls) as Ht0.
  assert ((match offs_de avec ls with
           | Some o => if zlen ls <? maxDNSLabels then o ← upd o (zlen ls) (u8 (taille_labels ls)); Done (Some o) else Done (Some o)
           | None => Done None end) = Done (offs_de avec (ls ++ [l]))) as ->.
  { unfold offs_de. destruct avec; [|done]. rewrite debuts_snoc, Z.add_0_l.
    pose proof (upd_debuts ls Hls ltac:(lia)) as Hu. destruct (zlen ls <? maxDNSLabels); [by rewrite Hu|congruence]. }
  rewrite run_bind_done, Hs, run_bind_done.
  assert (zlen (nom_pointe ls ++ sep) = taille_labels ls) as Hz by (by rewrite zlen_app, Hd).
  rewrite <- Hz at 1. rewrite copier_octets_exact, run_bind_done by lia.
  apply wp_done. assert (Hpn : nom_pointe (ls ++ [l]) = (nom_pointe ls ++ sep) ++ bas l)
    by (rewrite pointe_snoc; fold sep; by rewrite app_assoc).
  split; [|rewrite Hnew; destruct (Z.eqb_spec (zlen (nom_pointe ls)) 0); lia].
  unfold fil_de. rewrite Hpn. pose proof (zlen_labels ls Hls). pose proof (zlen_nonneg ls).
  rewrite (u8_id (zlen ls + 1)), (u8_id (zlen l)) by (unfold is_u8; lia). f_equal.
  - by rewrite zlen_app.
  - rewrite plus_long_snoc. apply max_test.
  - unfold non_ldh. rewrite existsb_app. cbn [existsb]. by rewrite orb_false_r.
Qed.

Definition marche_fil (e : etat_fil) : Prop :=
  exists ls pos next jumps j, e = fil_de avec pos next jumps ls /\ labels_ok ls /\ zlen (nom_pointe ls) <= 253 /\
    0 <= pos /\ 0 <= jumps /\ jumps + Z.of_nat j = 8 /\
    forall all fin, nom_comp raw 8 start all fin <->
      exists r fin', all = ls ++ r /\ nom_comp raw j pos r fin' /\ fin = (if next <? 0 then fin' else next).

Definition variant_fil (e : etat_fil) : Z := (8 - f_jumps e) + (253 - f_outLen e).

(** What one turn owes. *)
Definition suite_fil (e : etat_fil) (o : etat_fil + nom_decode) : Prop :=
  match o with
  | inl e' => marche_fil e' /\ 0 <= variant_fil e' < variant_fil e
  | inr r => decode_ok r
  end.

Lemma zlen_tableau_pointe ls : zlen (nom_pointe ls) <= 253 -> zlen (tableau 256 (nom_pointe ls)) = 256.
Proof. intros H. apply zlen_tableau. unfold zlen in H. lia. Qed.

Lemma wp_pas_fil e : marche_fil e -> wp (pas_fil raw e) (suite_fil e).
Proof.
  intros (ls & pos & next & jumps & j & -> & Hls & Hz & Hpos & Hj0 & Hj & Hall).
  unfold pas_fil, fil_de. cbn beta iota. fold (fil_de avec pos next jumps ls).
  assert (forall err, (forall r fin, ~ nom_comp raw j pos r fin) ->
    wp (echec (fil_de avec pos next jumps ls) (tableau 256 (nom_pointe ls)) (offs_de avec ls) err)
      (suite_fil (fil_de avec pos next jumps ls))) as Hech.
  { intros err Hno. apply wp_done. split; [cbn; by apply zlen_tableau_pointe|].
    intros all fin H. apply Hall in H as (r & fin' & _ & H & _). by destruct (Hno r fin'). }
  wp_step; [apply Hech; intros r fin H; apply nom_comp_debut in H; lia|].
  wp_step. apply wp_idx_byte; [done|lia|]. intros b Hlk Hb. apply idx_lookup in Hlk; [|done].
  destruct (Z.eqb_spec b 0) as [->|Hb0].
  { apply wp_done. unfold suite_fil, decode_ok. cbn [d_err].
    exists ls, (if next <? 0 then pos + 1 else next). split; [|split; [done|]].
    - apply Hall. exists [], (pos + 1). rewrite app_nil_r. split; [done|]. split; [by constructor|done].
    - unfold decode_de. f_equal. pose proof (zlen_nonneg (nom_pointe ls)). apply u8_id. unfold is_u8. lia. }
  destruct (Z.eqb_spec (Z.land b 192) 192) as [H192|H192].
  { wp_step; [apply Hech; intros r fin H; apply (nom_comp_octet _ _ _ _ _ _ Hlk) in H as [?|[[? ?]|[? ?]]]; lia|].
    wp_step. apply wp_idx_byte; [done|lia|]. intros c Hlc Hcr. apply idx_lookup in Hlc; [|lia].
    pose proof (fun r fin => nom_comp_pointeur raw j pos b c r fin Hlk H192 Hlc) as Hpt.
    set (t := Z.lor (Z.shiftl (Z.land b 63) 8) c) in *.
    wp_step.
    { apply Hech. intros r fin H. apply Hpt in H as (_ & H & _).
      match goal with E : _ || _ = true |- _ => apply orb_true_iff in E; rewrite Z.ltb_lt, Z.leb_le in E end. lia. }
    unfold maxPointerJumps. destruct (Z.ltb_spec 8 (jumps + 1)) as [Hj8|Hj8].
    { apply Hech. intros r fin Hr. apply Hpt in Hr as (_ & _ & j' & e' & -> & _). lia. }
    destruct j as [|j]; [lia|]. apply wp_done. split.
    - exists ls, t, (if next <? 0 then pos + 2 else next), (jumps + 1), j. split; [done|]. split; [done|].
      split; [done|]. split; [lia|]. split; [lia|]. split; [lia|]. intros all fin. rewrite Hall. split.
      + intros (r & fin' & -> & H1 & ->). apply Hpt in H1 as (-> & _ & j' & e' & [= <-] & H1).
        exists r, e'. split; [done|]. split; [done|].
        destruct (Z.ltb_spec next 0) as [Hn|Hn]; [|by rewrite (proj2 (Z.ltb_ge next 0))].
        by rewrite (proj2 (Z.ltb_ge (pos + 2) 0)) by lia.
      + intros (r & e' & -> & H1 & ->). exists r, (pos + 2). split; [done|]. split.
        * apply Hpt. split; [done|]. split; [lia|]. by exists j, e'.
        * destruct (Z.ltb_spec next 0) as [Hn|Hn]; [|by rewrite (proj2 (Z.ltb_ge next 0))].
          by rewrite (proj2 (Z.ltb_ge (pos + 2) 0)) by lia.
    - unfold variant_fil, fil_de. cbn [f_jumps f_outLen]. pose proof (zlen_nonneg (nom_pointe ls)). lia. }
  wp_step.
  { apply Hech. intros r fin H. apply (nom_comp_octet _ _ _ _ _ _ Hlk) in H as [?|[[? ?]|[? ?]]]; try lia.
    match goal with E : Z.land b 192 <> 0 |- _ => apply E, mod192_etiquette; lia end. }
  wp_step.
  { apply Hech. intros r fin H. apply (nom_comp_octet _ _ _ _ _ _ Hlk) in H as [?|[[? ?]|[? ?]]]; lia. }
  zbool. destruct (slice raw (pos + 1) (pos + 1 + b)) as [l| |] eqn:Hs;
    [|exfalso; unfold slice in Hs; destruct (_ && _) eqn:E in Hs; [done|];
      rewrite !andb_false_iff in E; destruct E as [[E|E]|E]; zbool; lia..].
  pose proof (slice_bornes _ _ _ _ Hs) as (_ & _ & Hzl). assert (b = zlen l) as Hbl by lia.
  pose proof (fun r fin => nom_comp_etiquette raw j pos b l r fin Hlk ltac:(lia) Hs) as Het.
  rewrite Hbl in Hs |- *.
  eapply wp_mono; [apply (wp_poser_label (pos + 1) next jumps ls l Hls Hz); [lia|exact Hs]|].
  intros [e'|r]; cbn beta iota.
  - intros [-> Hlt]. split.
    + exists (ls ++ [l]), (pos + 1 + zlen l), next, jumps, j. split; [done|].
      split; [apply labels_ok_app; split; [done|]; constructor; [lia|constructor]|].
      split; [lia|]. split; [lia|]. split; [done|]. split; [done|]. intros all fin. rewrite Hall. split.
      * intros (r & fin' & -> & H1 & ->). apply Het in H1 as (r' & -> & H1). exists r', fin'.
        rewrite <- app_assoc. rewrite <- Hbl. done.
      * intros (r & fin' & -> & H1 & ->). exists (l :: r), fin'. rewrite <- app_assoc. split; [done|].
        split; [|done]. apply Het. exists r. by rewrite Hbl.
    + unfold variant_fil, fil_de. cbn [f_jumps f_outLen]. lia.
  - intros (He & Hd & Hbig). unfold suite_fil, decode_ok. destruct (d_err r) as [err|]; [|done]. split; [done|].
    intros all fin H1. apply Hall in H1 as (r' & fin' & -> & H1 & _). apply Het in H1 as (r2 & -> & H1).
    eapply Z.lt_le_trans; [exact Hbig|]. replace (ls ++ l :: r2) with ((ls ++ [l]) ++ r2) by (by rewrite <- app_assoc).
    apply zlen_pointe_mono. rewrite <- app_assoc. apply labels_ok_app. split; [done|].
    constructor; [lia|]. by eapply nom_comp_labels.
Qed.

Lemma decode_exact : wp (decodeDNSWireName raw start (zeros 256) (offs_de avec [])) decode_ok.
Proof.
  unfold decodeDNSWireName. apply (wp_loop _ marche_fil variant_fil).
  - intros e He. eapply wp_mono; [by apply wp_pas_fil|]. by intros [e'|r].
  - exists [], start, (-1), 0, 8%nat. split; [done|]. split; [constructor|]. split; [done|]. split; [done|].
    split; [done|]. split; [done|]. intros all fin. split.
    + intros H. by exists all, fin.
    + by intros (r & fin' & -> & H & ->).
  - split; by vm_compute.
Qed.
End decodage.

(** * Records and sections *)

Definition rr_en (raw : list Z) (o : Z) (rr : DNSRR) (e : Z) : Prop :=
  exists ls n type class ttl len data,
    nom_comp raw 8 o ls n /\ zlen (nom_pointe ls) <= 253 /\
    be16 raw n = Done type /\ be16 raw (n + 2) = Done class /\ be32 raw (n + 4) = Done ttl /\
    be16 raw (n + 8) = Done len /\ len <= MaxDNSRDataBytes /\ e = n + 10 + len /\ slice raw (n + 10) e = Done data /\
    rr = RR (zlen (nom_pointe ls)) (tableau 256 (nom_pointe ls)) type class ttl len len (tableau 1536 data).

Inductive rrs_en (raw : list Z) : Z -> list DNSRR -> Z -> Prop :=
  | rrs_nil o : rrs_en raw o [] o
  | rrs_cons o rr m rrs e : rr_en raw o rr m -> rrs_en raw m rrs e -> rrs_en raw o (rr :: rrs) e.

(** An array of 16 records filled from the left. *)
Definition section_de (rrs : list DNSRR) : Z * list DNSRR := (zlen rrs, rrs ++ replicate (16 - length rrs) rr_zero).

Lemma rr_en_unique raw o rr e rr' e' : rr_en raw o rr e -> rr_en raw o rr' e' -> rr' = rr /\ e' = e.
Proof.
  intros (ls & n & ty & cl & tt & le & da & Hn & _ & H1 & H2 & H3 & H4 & _ & -> & H5 & ->)
    (ls' & n' & ty' & cl' & tt' & le' & da' & Hn' & _ & H1' & H2' & H3' & H4' & _ & -> & H5' & ->).
  destruct (nom_comp_unique _ _ _ _ _ Hn _ _ Hn') as [-> ->].
  assert (le' = le) as -> by congruence. split; [|done]. f_equal; congruence.
Qed.

Lemma nom_comp_apres raw j o ls e : nom_comp raw j o ls e -> o < e <= zlen raw.
Proof.
  induction 1 as [j o H|j o l ls e H Hl Hs Hn IH|j o b c ls e Hb H192 Hc]; [apply idx_Done_bounds in H; lia|lia|].
  apply idx_Done_bounds in Hc. lia.
Qed.

Lemma rrs_en_snoc raw o rrs m rr e : rrs_en raw o rrs m -> rr_en raw m rr e -> rrs_en raw o (rrs ++ [rr]) e.
Proof. induction 1 as [o|o r m' rrs m Hr _ IH]; intros H; [econstructor; [done|constructor]|econstructor; eauto]. Qed.

(** A longer section at the same place starts with the shorter one. *)
Lemma rrs_en_prefixe raw o a m : rrs_en raw o a m -> forall b e, rrs_en raw o b e -> (length a < length b)%nat ->
  exists rr e', rr_en raw m rr e'.
Proof.
  induction 1 as [o|o r m rrs e Hr _ IH]; intros b e' Hb Hl.
  - destruct Hb as [|o r m b e' Hr _]; [cbn in Hl; lia|by exists r, m].
  - destruct Hb as [|o r' m' b e' Hr' Hb]; [cbn in Hl; lia|]. destruct (rr_en_unique _ _ _ _ _ _ Hr Hr') as [-> ->].
    eapply IH; [exact Hb|cbn in Hl; lia].
Qed.

Lemma rrs_en_unique raw o a m : rrs_en raw o a m -> forall b e, rrs_en raw o b e -> length a = length b -> b = a /\ e = m.
Proof.
  induction 1 as [o|o r m rrs e Hr _ IH]; intros b e' Hb Hl.
  - by destruct Hb.
  - destruct Hb as [|o r' m' b e' Hr' Hb]; [done|]. destruct (rr_en_unique _ _ _ _ _ _ Hr Hr') as [-> ->].
    cbn in Hl. destruct (IH _ _ Hb ltac:(lia)) as [-> ->]. done.
Qed.

Section sections.
Context (raw : list Z).
Hypothesis Hraw : bytes_ok raw.

Lemma be32_total i : 0 <= i -> i + 4 <= zlen raw -> exists x, be32 raw i = Done x.
Proof.
  intros Hi Hz. destruct (wp_exists (be32 raw i) (fun _ => True)) as [H _].
  destruct H as (x & Hx & _); [by apply wp_be32|by exists x].
Qed.

Lemma slice_total {A} (l : list A) a b : 0 <= a <= b -> b <= zlen l -> exists r, slice l a b = Done r /\ zlen r = b - a.
Proof.
  intros Ha Hb. destruct (wp_exists (slice l a b) (fun r => zlen r = b - a)) as [H _].
  apply H, wp_slice; [done|done|]. by apply zlen_slice.
Qed.

(** The state after the records [rrs]. *)
Definition section_inv (off0 i : Z) (s : Z * Z * list DNSRR) : Prop :=
  exists rrs off, rrs_en raw off0 rrs off /\ zlen rrs = i /\ 0 <= off /\
    s = (off, i, rrs ++ replicate (16 - length rrs) rr_zero).

Lemma wp_pas_section off0 i s : 0 <= i < 16 -> section_inv off0 i s ->
  wp (pas_section raw s) (fun o =>
    match o with
    | inl s' => section_inv off0 (i + 1) s'
    | inr _ => forall rrs e, rrs_en raw off0 rrs e -> zlen rrs <= i
    end).
Proof.
  intros Hi (rrs & off & Hrrs & Hz & Hoff & ->). unfold pas_section.
  assert (forall (r : list DNSRR * erreurDNS), (forall rr e, ~ rr_en raw off rr e) ->
    forall rrs' e, rrs_en raw off0 rrs' e -> zlen rrs' <= i) as Hno.
  { intros _ Hn rrs' e H. destruct (decide (zlen rrs' <= i)); [done|].
    destruct (rrs_en_prefixe _ _ _ _ Hrrs _ _ H) as (rr & e' & Hrr); [unfold zlen in *; lia|by destruct (Hn rr e')]. }
  apply wp_bind. eapply wp_mono; [apply (decode_exact raw false off Hraw Hoff)|]. intros d Hd.
  unfold decode_ok in Hd. destruct (d_err d) as [err|] eqn:Ed.
  { apply wp_done. apply Hno; [exact ([], err)|]. intros rr e (ls & n & ty & cl & tt & le & da & Hn & Hsz & _).
    destruct Hd as [_ Hd]. specialize (Hd _ _ Hn). lia. }
  destruct Hd as (ls & n & Hn & Hsz & ->). cbn [d_next decode_de d_len d_dst].
  pose proof (nom_comp_apres _ _ _ _ _ Hn) as Hap.
  assert (forall rr e, rr_en raw off rr e -> exists type class ttl len data,
    be16 raw n = Done type /\ be16 raw (n + 2) = Done class /\ be32 raw (n + 4) = Done ttl /\
    be16 raw (n + 8) = Done len /\ len <= MaxDNSRDataBytes /\ e = n + 10 + len /\ slice raw (n + 10) e = Done data) as Hrr.
  { intros rr e (ls' & n' & ty & cl & tt & le & da & Hn' & _ & H).
    destruct (nom_comp_unique _ _ _ _ _ Hn _ _ Hn') as [-> ->]. exists ty, cl, tt, le, da. tauto. }
  wp_step.
  { apply wp_done. apply Hno; [exact ([], ErrInvalidLabel)|]. intros rr e H.
    apply Hrr in H as (ty & cl & tt & le & da & _ & _ & _ & H & _). apply be16_bornes in H. lia. }
  destruct (be16_total raw n) as (ty & Hty & _); [done|lia|lia|]. rewrite Hty, run_bind_done.
  destruct (be16_total raw (n + 2)) as (cl & Hcl & _); [done|lia|lia|]. rewrite Hcl, run_bind_done.
  destruct (be32_total (n + 4)) as (tt & Htt); [lia|lia|]. rewrite Htt, run_bind_done.
  destruct (be16_total raw (n + 8)) as (le & Hle & Hu); [done|lia|lia|]. rewrite Hle, run_bind_done.
  unfold is_u16 in Hu. wp_step.
  { apply wp_done. apply Hno; [exact ([], ErrInvalidLabel)|]. intros rr e H.
    apply Hrr in H as (ty' & cl' & tt' & le' & da & _ & _ & _ & H & _ & -> & Hs). apply slice_bornes in Hs.
    assert (le' = le) as -> by congruence. lia. }
  wp_step.
  { apply wp_done. apply Hno; [exact ([], ErrInvalidLabel)|]. intros rr e H.
    apply Hrr in H as (ty' & cl' & tt' & le' & da & _ & _ & _ & H & Hm & _).
    assert (le' = le) as -> by congruence. lia. }
  destruct (slice_total raw (n + 10) (n + 10 + le)) as (da & Hda & Hzd); [lia|lia|]. rewrite Hda, run_bind_done.
  unfold MaxDNSRDataBytes in *.
  rewrite copy_tableau by (unfold zlen in *; lia).
  set (rr := RR _ _ _ _ _ _ _ _).
  destruct (16 - length rrs)%nat as [|k] eqn:Ek; [unfold zlen in *; lia|]. cbn [replicate].
  rewrite upd_mid, run_bind_done by done. apply wp_done. rewrite u8_id by (unfold is_u8; lia).
  exists (rrs ++ [rr]), (n + 10 + le). split_and!.
  - eapply rrs_en_snoc; [exact Hrrs|]. exists ls, n, ty, cl, tt, le, da. by split_and!.
  - by rewrite zlen_app, Hz.
  - lia.
  - rewrite length_app. cbn [length]. replace (16 - (length rrs + 1))%nat with k by lia. by rewrite <- app_assoc.
Qed.

(** A section decodes exactly when it spells [n] records, at most 16. *)
Definition section_lue (off0 n : Z) (r : Z * Z * option erreurDNS * list DNSRR) : Prop :=
  let '(off, nb, err, dst) := r in
  match err with
  | None => exists rrs, rrs_en raw off0 rrs off /\ zlen rrs = n /\ n <= 16 /\ (nb, dst) = section_de rrs /\ 0 <= off
  | Some _ => forall rrs e, rrs_en raw off0 rrs e -> zlen rrs = n -> 16 < n
  end.

Lemma section_exacte off0 n : 0 <= off0 -> 0 <= n -> wp (decodeRRSection raw off0 n section_zero.2) (section_lue off0 n).
Proof.
  intros Ho Hn. unfold decodeRRSection, MaxDNSMessageRRs.
  destruct (Z.ltb_spec 16 n) as [H16|H16]; [apply wp_done; intros rrs e _ _; exact H16|].
  apply wp_bind.
  apply (wp_for_range (section_inv off0)); [done| | |].
  - exists [], off0. split; [constructor|]. done.
  - intros i s Hi Hs. eapply wp_mono; [apply (wp_pas_section off0 i); [lia|exact Hs]|].
    intros [s'|[dst err]]; [done|]. intros Hno. apply wp_done. intros rrs e H Hz. specialize (Hno _ _ H). lia.
  - intros s (rrs & off & H & Hz & Hoff & ->). apply wp_done. exists rrs. split_and!; try done.
    unfold section_de. by rewrite Hz.
Qed.
End sections.

(** * Messages *)

(** [k] questions skipped from [o]. *)
Inductive passees (raw : list Z) : nat -> Z -> Z -> Prop :=
  | passees_zero o : passees raw 0 o o
  | passees_suite k o ls n e : nom_comp raw 8 o ls n -> zlen (nom_pointe ls) <= 253 -> n + 4 <= zlen raw ->
      passees raw k (n + 4) e -> passees raw (S k) o e.

Definition parties_ou (ls : list (list Z)) : parties := match ls with [] => parties_nulles | _ => parties_de ls end.

Definition message_lu (raw : list Z) (m : DNSMessage) : Prop :=
  exists h ls n qtype qclass p off s1 s2 s3 e1 e2 e3,
    12 <= zlen raw /\ lire_entete raw = Done h /\ m_QDCount h <> 0 /\
    nom_comp raw 8 12 ls n /\ zlen (nom_pointe ls) <= 253 /\
    be16 raw n = Done qtype /\ be16 raw (n + 2) = Done qclass /\
    recenser_premier raw = Done p /\ passees raw (Z.to_nat (m_QDCount h - 1)) (n + 4) off /\
    rrs_en raw off s1 e1 /\ zlen s1 = m_ANCount h /\ rrs_en raw e1 s2 e2 /\ zlen s2 = m_NSCount h /\
    rrs_en raw e2 s3 e3 /\ zlen s3 = m_ARCount h /\
    m_ANCount h <= 16 /\ m_NSCount h <= 16 /\ m_ARCount h <= 16 /\
    m = Message h (Question qtype qclass (zlen (nom_pointe ls)) (tableau 256 (nom_pointe ls)) (zlen ls) (plus_long ls) (non_ldh ls))
          p (parties_ou ls) (section_de s1) (section_de s2) (section_de s3).

Lemma passees_unique raw k o e : passees raw k o e -> forall e', passees raw k o e' -> e' = e.
Proof.
  induction 1 as [o|k o ls n e Hn _ _ _ IH]; intros e' H; inversion H as [|k' ? ls' n' ? Hn' _ _ Hp]; subst; [done|].
  destruct (nom_comp_unique _ _ _ _ _ Hn _ _ Hn') as [_ ->]. by apply IH.
Qed.

Lemma passees_snoc raw k o m ls n : passees raw k o m -> nom_comp raw 8 m ls n -> zlen (nom_pointe ls) <= 253 ->
  n + 4 <= zlen raw -> passees raw (S k) o (n + 4).
Proof. induction 1; intros; econstructor; eauto; constructor. Qed.

(** More questions than [k] need a further one after [k] of them. *)
Lemma passees_prefixe raw k o m : passees raw k o m -> forall k' e, passees raw k' o e -> (k < k')%nat ->
  exists ls n, nom_comp raw 8 m ls n /\ zlen (nom_pointe ls) <= 253 /\ n + 4 <= zlen raw.
Proof.
  induction 1 as [o|k o ls n e Hn _ _ _ IH]; intros k' e' H Hk; inversion H as [|j ? ls' n' ? Hn' Hz' Hl' Hp]; subst; try lia.
  - by exists ls', n'.
  - destruct (nom_comp_unique _ _ _ _ _ Hn _ _ Hn') as [_ ->]. eapply IH; [exact Hp|lia].
Qed.

Lemma hors_lettre_label l : existsb hors_lettre l = false -> label_hors l = false.
Proof.
  intros H. apply not_true_iff_false. intros Hh. apply not_true_iff_false in H. apply H. revert Hh.
  unfold label_hors. apply existsb_impl. intros o. unfold hors, ldh, hors_lettre.
  by destruct (dnsLabelByte (minuscule o)).
Qed.

Lemma non_ldh_faux ls : non_ldh ls = false -> existsb label_hors ls = false.
Proof.
  unfold non_ldh. induction ls as [|l ls IH]; [done|]. cbn [existsb]. intros [H1 H2]%orb_false_iff.
  rewrite IH by done. by rewrite hors_lettre_label.
Qed.

(** The three ways of splitting agree on the labels; the raw-dot fallback is never taken. *)
Lemma split_exact qt qc ls : labels_ok ls -> zlen (nom_pointe ls) <= 253 ->
  splitWireQName (Question qt qc (zlen (nom_pointe ls)) (tableau 256 (nom_pointe ls)) (zlen ls) (plus_long ls) (non_ldh ls))
    parties_nulles (offs_de true ls) = Done (parties_ou ls).
Proof.
  intros Hls Hz. unfold splitWireQName. cbn [m_QNameLen m_QName m_HasNonLDH m_QType m_LabelCount offs_de].
  destruct (decide (ls = [])) as [->|Hne]; [done|].
  pose proof (pointe_nonvide ls Hls) as Hv. destruct (Z.eqb_spec (zlen (nom_pointe ls)) 0) as [E|E]; [by destruct Hne; apply Hv|].
  pose proof (zlen_nonneg (nom_pointe ls)). rewrite slice_tableau, run_bind_done by lia.
  rewrite Z.sub_0_r. change (Z.to_nat 0) with 0%nat. rewrite drop_0, take_ge by (unfold zlen; lia).
  assert (Ha : admissible true ls) by by split.
  destruct (admissible_bornes true ls Hls Hne Ha) as (_ & Hn & _).
  assert (parties_ou ls = parties_de ls) as -> by by destruct ls.
  assert (0 <? zlen ls = true) as Hlc by (apply Z.ltb_lt; destruct ls; [done|rewrite zlen_cons; pose proof (zlen_nonneg ls); lia]).
  destruct (non_ldh ls) eqn:En; cbn [negb andb]; [rewrite run_bind_done, Hlc; apply populate_exact; done || lia|].
  destruct (Z.eqb_spec qt 0) as [->|Hq]; cbn [negb]; [rewrite run_bind_done, Hlc; apply populate_exact; done || lia|].
  rewrite texte_canonique by (done || by apply non_ldh_faux). by rewrite !run_bind_done.
Qed.

Section message.
Context (raw : list Z).
Hypothesis Hraw : bytes_ok raw.

Lemma sauter_exact qd o : 1 <= qd -> 0 <= o ->
  wp (sauter_autres raw qd o) (fun r =>
    match r with
    | inl e => passees raw (Z.to_nat (qd - 1)) o e /\ 0 <= e
    | inr _ => forall e, ~ passees raw (Z.to_nat (qd - 1)) o e
    end).
Proof.
  intros Hqd Ho. unfold sauter_autres.
  apply (wp_for_range (fun i off => passees raw (Z.to_nat i) o off /\ 0 <= off)); [lia| | |done].
  - split; [constructor|done].
  - intros i off Hi [Hp Hoff].
    assert ((forall ls n, nom_comp raw 8 off ls n -> zlen (nom_pointe ls) <= 253 -> zlen raw < n + 4) ->
      forall e, ~ passees raw (Z.to_nat (qd - 1)) o e) as Hno.
    { intros Hn e H. destruct (passees_prefixe _ _ _ _ Hp _ _ H) as (ls & n & H1 & H2 & H3); [lia|].
      specialize (Hn _ _ H1 H2). lia. }
    apply wp_bind. eapply wp_mono; [apply (decode_exact raw false off Hraw Hoff)|]. intros d Hd.
    unfold decode_ok in Hd. destruct (d_err d) as [err|].
    { apply wp_done, Hno. intros ls n Hn Hz. destruct Hd as [_ Hd]. specialize (Hd _ _ Hn). lia. }
    destruct Hd as (ls & n & Hn & Hz & ->). cbn [d_next decode_de]. pose proof (nom_comp_apres _ _ _ _ _ Hn).
    wp_step.
    { apply wp_done, Hno. intros ls' n' Hn' _. destruct (nom_comp_unique _ _ _ _ _ Hn _ _ Hn') as [_ ->]. lia. }
    apply wp_done. split; [|lia]. replace (Z.to_nat (i + 1)) with (S (Z.to_nat i)) by lia. by eapply passees_snoc.
Qed.

Lemma premier_total : 12 <= zlen raw -> exists p, recenser_premier raw = Done p.
Proof.
  intros Hz. assert (H : wp (recenser_premier raw) (fun _ => True)).
  { unfold recenser_premier. wp_step; [done|]. wp_step. apply wp_idx_byte; [done|lia|]. intros l0 _ Hl.
    wp_step; [|done]. zbool. apply wp_bind. apply (wp_for_range (fun _ _ => True)); [lia|done| |done].
    intros i p Hi _. wp_step. apply wp_idx_byte; [done|lia|]. done. }
  apply wp_exists in H as (p & Hp & _). by exists p.
Qed.

Lemma entete_total : 12 <= zlen raw -> exists h, lire_entete raw = Done h /\
  0 <= m_QDCount h /\ 0 <= m_ANCount h /\ 0 <= m_NSCount h /\ 0 <= m_ARCount h.
Proof.
  intros Hz. unfold lire_entete.
  destruct (be16_total raw 2) as (f & Hf & _); [done|lia|lia|]. rewrite Hf, run_bind_done.
  destruct (be16_total raw 0) as (i & Hi & _); [done|lia|lia|]. rewrite Hi, run_bind_done.
  destruct (be16_total raw 4) as (a & Ha & Ra); [done|lia|lia|]. rewrite Ha, run_bind_done.
  destruct (be16_total raw 6) as (b & Hb & Rb); [done|lia|lia|]. rewrite Hb, run_bind_done.
  destruct (be16_total raw 8) as (c & Hc & Rc); [done|lia|lia|]. rewrite Hc, run_bind_done.
  destruct (be16_total raw 10) as (d & Hd & Rd); [done|lia|lia|]. rewrite Hd, run_bind_done.
  unfold is_u16 in *. eexists. split; [done|]. cbn. lia.
Qed.

Lemma message_lu_unique m m' : message_lu raw m -> message_lu raw m' -> m' = m.
Proof.
  intros (h & ls & n & qt & qc & p & off & s1 & s2 & s3 & e1 & e2 & e3 & _ & Hh & _ & Hn & _ & Hq & Hc & Hp & Hpa &
    H1 & Z1 & H2 & Z2 & H3 & Z3 & _ & _ & _ & ->)
    (h' & ls' & n' & qt' & qc' & p' & off' & s1' & s2' & s3' & e1' & e2' & e3' & _ & Hh' & _ & Hn' & _ & Hq' & Hc' & Hp' & Hpa' &
    H1' & Z1' & H2' & Z2' & H3' & Z3' & _ & _ & _ & ->).
  assert (h' = h) as -> by congruence. destruct (nom_comp_unique _ _ _ _ _ Hn _ _ Hn') as [-> ->].
  pose proof (passees_unique _ _ _ _ Hpa _ Hpa') as ->.
  assert (forall (a b : list DNSRR) k, zlen a = k -> zlen b = k -> length a = length b) as Hz by (unfold zlen; lia).
  destruct (rrs_en_unique _ _ _ _ H1 _ _ H1' (Hz _ _ _ Z1 Z1')) as [-> ->].
  destruct (rrs_en_unique _ _ _ _ H2 _ _ H2' (Hz _ _ _ Z2 Z2')) as [-> ->].
  destruct (rrs_en_unique _ _ _ _ H3 _ _ H3' (Hz _ _ _ Z3 Z3')) as [-> ->].
  do 2 f_equal; congruence.
Qed.

Definition reponse_message (r : option DNSMessage * option erreurDNS) : Prop :=
  exists m, r.1 = Some m /\
    match r.2 with None => message_lu raw m | Some _ => forall m', ~ message_lu raw m' end.

Lemma rejet_message m e : (forall m', ~ message_lu raw m') -> wp (Done (Some m, Some e)) reponse_message.
Proof. intros H. apply wp_done. by exists m. Qed.

Lemma message_decide m0 : wp (ParseDNSMessage raw (Some m0)) reponse_message.
Proof.
  unfold ParseDNSMessage. cbv zeta.
  wp_step; [apply rejet_message; intros m' (? & ? & ? & ? & ? & ? & ? & ? & ? & ? & ? & ? & ? & ? & _); lia|].
  destruct entete_total as (h & Hh & Hqd & Han & Hns & Har); [lia|]. rewrite Hh, run_bind_done.
  assert (forall m', message_lu raw m' -> exists ls n off s1 s2 s3 e1 e2 e3, m_QDCount h <> 0 /\
    nom_comp raw 8 12 ls n /\ zlen (nom_pointe ls) <= 253 /\ n + 4 <= zlen raw /\
    passees raw (Z.to_nat (m_QDCount h - 1)) (n + 4) off /\
    (rrs_en raw off s1 e1 /\ zlen s1 = m_ANCount h /\ m_ANCount h <= 16) /\
    (rrs_en raw e1 s2 e2 /\ zlen s2 = m_NSCount h /\ m_NSCount h <= 16) /\
    (rrs_en raw e2 s3 e3 /\ zlen s3 = m_ARCount h /\ m_ARCount h <= 16)) as Hlu.
  { intros m' (h' & ls & n & qt & qc & p & off & s1 & s2 & s3 & e1 & e2 & e3 & _ & Hh' & Hq0 & Hn & Hz & _ & Hbq & _ & Hpa &
      H1 & Z1 & H2 & Z2 & H3 & Z3 & B1 & B2 & B3 & _). assert (h' = h) as -> by congruence.
    apply be16_bornes in Hbq. exists ls, n, off, s1, s2, s3, e1, e2, e3. split_and!; done || lia. }
  wp_step; [apply rejet_message; intros m' (? & ? & ? & ? & ? & ? & ? & ? & ? & ? & _)%Hlu; lia|].
  apply wp_bind. eapply wp_mono; [apply (decode_exact raw true 12 Hraw ltac:(lia))|]. intros d Hd.
  unfold decode_ok in Hd. destruct (d_err d) as [err|] eqn:Ed.
  { apply rejet_message. intros m' (ls & n & _ & _ & _ & _ & _ & _ & _ & _ & Hn & Hz & _)%Hlu.
    destruct Hd as [_ Hd]. specialize (Hd _ _ Hn). lia. }
  destruct Hd as (ls & n & Hn & Hz & ->). cbn [d_next decode_de d_len d_dst d_labels d_max d_nonLDH d_offs].
  pose proof (nom_comp_apres _ _ _ _ _ Hn) as Hap. pose proof (nom_comp_labels _ _ _ _ _ Hn) as Hls.
  assert (forall m', message_lu raw m' -> exists off s1 s2 s3 e1 e2 e3, n + 4 <= zlen raw /\
    passees raw (Z.to_nat (m_QDCount h - 1)) (n + 4) off /\
    (rrs_en raw off s1 e1 /\ zlen s1 = m_ANCount h /\ m_ANCount h <= 16) /\
    (rrs_en raw e1 s2 e2 /\ zlen s2 = m_NSCount h /\ m_NSCount h <= 16) /\
    (rrs_en raw e2 s3 e3 /\ zlen s3 = m_ARCount h /\ m_ARCount h <= 16)) as Hlu2.
  { intros m' (ls' & n' & off & s1 & s2 & s3 & e1 & e2 & e3 & _ & Hn' & _ & H)%Hlu.
    destruct (nom_comp_unique _ _ _ _ _ Hn _ _ Hn') as [-> ->]. by exists off, s1, s2, s3, e1, e2, e3. }
  clear Hlu. wp_step; [apply rejet_message; intros m' (? & ? & ? & ? & ? & ? & ? & ? & _)%Hlu2; lia|].
  destruct (be16_total raw n) as (qt & Hqt & _); [done|lia|lia|]. rewrite Hqt, run_bind_done.
  destruct (be16_total raw (n + 2)) as (qc & Hqc & _); [done|lia|lia|]. rewrite Hqc, run_bind_done.
  destruct premier_total as (p & Hp); [lia|]. rewrite Hp, run_bind_done.
  rewrite split_exact, run_bind_done by done.
  apply wp_bind. eapply wp_mono; [apply sauter_exact; lia|]. intros [off|err]; cbn beta iota.
  2: { intros Hno. apply rejet_message. intros m' (off & _ & _ & _ & _ & _ & _ & _ & Hpa & _)%Hlu2. by apply Hno in Hpa. }
  intros [Hpa Hoff]. apply wp_bind. eapply wp_mono; [by apply section_exacte|]. intros [[[o1 n1] er1] d1] Hs1.
  assert (forall m', message_lu raw m' -> exists s1 s2 s3 e1 e2 e3,
    (rrs_en raw off s1 e1 /\ zlen s1 = m_ANCount h /\ m_ANCount h <= 16) /\
    (rrs_en raw e1 s2 e2 /\ zlen s2 = m_NSCount h /\ m_NSCount h <= 16) /\
    (rrs_en raw e2 s3 e3 /\ zlen s3 = m_ARCount h /\ m_ARCount h <= 16)) as Hlu3.
  { intros m' (off' & s1 & s2 & s3 & e1 & e2 & e3 & _ & Hpa' & H)%Hlu2.
    pose proof (passees_unique _ _ _ _ Hpa _ Hpa') as ->. by exists s1, s2, s3, e1, e2, e3. }
  clear Hlu2. unfold section_lue in Hs1. destruct er1 as [er1|].
  { apply rejet_message. intros m' (s1 & _ & _ & e1 & _ & _ & (H & Hz1 & Hb) & _)%Hlu3. specialize (Hs1 _ _ H Hz1). lia. }
  destruct Hs1 as (s1 & Hr1 & Hz1 & Hb1 & E1 & Ho1).
  assert (forall (a b : list DNSRR) k, zlen a = k -> zlen b = k -> length a = length b) as Hzl by (unfold zlen; lia).
  apply wp_bind. eapply wp_mono; [by apply section_exacte|]. intros [[[o2 n2] er2] d2] Hs2.
  unfold section_lue in Hs2. destruct er2 as [er2|].
  { apply rejet_message. intros m' (s1' & s2 & _ & e1 & e2 & _ & (H & Hz1' & _) & (H2 & Hz2 & Hb) & _)%Hlu3.
    destruct (rrs_en_unique _ _ _ _ Hr1 _ _ H (Hzl _ _ _ Hz1 Hz1')) as [-> ->]. specialize (Hs2 _ _ H2 Hz2). lia. }
  destruct Hs2 as (s2 & Hr2 & Hz2 & Hb2 & E2 & Ho2).
  apply wp_bind. eapply wp_mono; [by apply section_exacte|]. intros [[[o3 n3] er3] d3] Hs3.
  unfold section_lue in Hs3. destruct er3 as [er3|].
  { apply rejet_message. intros m' (s1' & s2' & s3 & e1 & e2 & e3 & (H & Hz1' & _) & (H2 & Hz2' & _) & (H3 & Hz3 & Hb))%Hlu3.
    destruct (rrs_en_unique _ _ _ _ Hr1 _ _ H (Hzl _ _ _ Hz1 Hz1')) as [-> ->].
    destruct (rrs_en_unique _ _ _ _ Hr2 _ _ H2 (Hzl _ _ _ Hz2 Hz2')) as [-> ->]. specialize (Hs3 _ _ H3 Hz3). lia. }
  destruct Hs3 as (s3 & Hr3 & Hz3 & Hb3 & E3 & Ho3).
  apply wp_done. eexists. split; [done|]. cbn [snd]. rewrite E1, E2, E3.
  exists h, ls, n, qt, qc, p, off, s1, s2, s3, o1, o2, o3. split_and!; done || lia.
Qed.
End message.

(** * Encoded messages *)

Definition be16e (z : Z) : list Z := [z / 256; z mod 256].
Definition be32e (z : Z) : list Z := be16e (z / 65536) ++ be16e (z mod 65536).

(** A record before encoding; its name is a list of labels. *)
Record rr_source := Source { s_nom : list (list Z); s_type : Z; s_class : Z; s_ttl : Z; s_data : list Z }.

Definition encoder_rr (r : rr_source) : list Z :=
  nom_filaire (s_nom r) ++ be16e (s_type r) ++ be16e (s_class r) ++ be32e (s_ttl r) ++ be16e (zlen (s_data r)) ++ s_data r.
Definition encoder_rrs (rs : list rr_source) : list Z := concat (encoder_rr <$> rs).

Definition nom_ok (ls : list (list Z)) : Prop := labels_ok ls /\ Forall bytes_ok ls /\ zlen (nom_pointe ls) <= 253.
Definition rr_ok (r : rr_source) : Prop :=
  nom_ok (s_nom r) /\ is_u16 (s_type r) /\ is_u16 (s_class r) /\ is_u32 (s_ttl r) /\
  zlen (s_data r) <= MaxDNSRDataBytes /\ bytes_ok (s_data r).

Definition rr_attendu (r : rr_source) : DNSRR :=
  RR (zlen (nom_pointe (s_nom r))) (tableau 256 (nom_pointe (s_nom r))) (s_type r) (s_class r) (s_ttl r)
    (zlen (s_data r)) (zlen (s_data r)) (tableau 1536 (s_data r)).

Definition encoder_entete (id flags an ns ar : Z) : list Z :=
  be16e id ++ be16e flags ++ be16e 1 ++ be16e an ++ be16e ns ++ be16e ar.

Definition encoder_message (id flags : Z) (qls : list (list Z)) (qtype qclass : Z) (rs1 rs2 rs3 : list rr_source) : list Z :=
  encoder_entete id flags (zlen rs1) (zlen rs2) (zlen rs3) ++
  nom_filaire qls ++ be16e qtype ++ be16e qclass ++ encoder_rrs rs1 ++ encoder_rrs rs2 ++ encoder_rrs rs3.

Definition bit (flags k : Z) : bool := negb (Z.land flags k =? 0).
Definition entete_attendu (id flags an ns ar : Z) : entete :=
  Entete id flags (bit flags 0x8000) (u8 (Z.land (Z.shiftr flags 11) 0x0F)) (bit flags 0x0400) (bit flags 0x0200)
    (bit flags 0x0100) (bit flags 0x0080) (u8 (Z.land flags 0x000F)) 1 an ns ar.
Definition premier_de (ls : list (list Z)) : premier_label :=
  match ls with [] => premier_zero | l :: _ => fold_left compter_octet l premier_zero end.

Definition message_attendu (id flags : Z) (qls : list (list Z)) (qtype qclass : Z) (rs1 rs2 rs3 : list rr_source) : DNSMessage :=
  Message (entete_attendu id flags (zlen rs1) (zlen rs2) (zlen rs3))
    (Question qtype qclass (zlen (nom_pointe qls)) (tableau 256 (nom_pointe qls)) (zlen qls) (plus_long qls) (non_ldh qls))
    (premier_de qls) (parties_ou qls)
    (section_de (rr_attendu <$> rs1)) (section_de (rr_attendu <$> rs2)) (section_de (rr_attendu <$> rs3)).

Lemma bytes_ok_be16e z : is_u16 z -> bytes_ok (be16e z).
Proof. unfold is_u16. intros H. repeat constructor; unfold is_u8; divlia. Qed.

Lemma bytes_ok_be32e z : is_u32 z -> bytes_ok (be32e z).
Proof. unfold is_u32. intros H. apply bytes_ok_app; apply bytes_ok_be16e; unfold is_u16; divlia. Qed.

Lemma zlen_be16e z : zlen (be16e z) = 2.
Proof. done. Qed.
Lemma zlen_be32e z : zlen (be32e z) = 4.
Proof. done. Qed.

(** Reading back after any prefix. *)
Lemma be16_apres pre z post o : o = zlen pre -> be16 (pre ++ be16e z ++ post) o = Done z.
Proof.
  intros ->. unfold be16, be16e. cbn [app]. rewrite (idx_mid pre _ _ (zlen pre)), run_bind_done by done.
  change (pre ++ z / 256 :: z mod 256 :: post) with (pre ++ [z / 256] ++ z mod 256 :: post). rewrite app_assoc.
  rewrite idx_mid, run_bind_done by (by rewrite zlen_app). f_equal. pose proof (Z.div_mod z 256). lia.
Qed.

Lemma be32_apres pre z post o : o = zlen pre -> be32 (pre ++ be32e z ++ post) o = Done z.
Proof.
  intros ->. unfold be32, be32e. rewrite <- app_assoc, (be16_apres pre _ _ (zlen pre)), run_bind_done by done.
  rewrite app_assoc, (be16_apres (pre ++ _)), run_bind_done by (by rewrite zlen_app). f_equal. pose proof (Z.div_mod z 65536). lia.
Qed.

Lemma slice_apres {A} (pre l post : list A) a b : a = zlen pre -> b = a + zlen l -> slice (pre ++ l ++ post) a b = Done l.
Proof.
  intros -> ->. pose proof (zlen_nonneg pre). pose proof (zlen_nonneg l). pose proof (zlen_nonneg post). unfold slice.
  rewrite !zlen_app. destruct (_ && _) eqn:E; [|exfalso; rewrite !andb_false_iff in E; destruct E as [[E|E]|E]; zbool; lia].
  replace (Z.to_nat (zlen pre)) with (length pre) by (unfold zlen; lia). rewrite drop_app_length.
  f_equal. apply take_app_length'. unfold zlen. lia.
Qed.

Lemma nom_comp_filaire j ls : forall pre post, labels_ok ls ->
  nom_comp (pre ++ nom_filaire ls ++ post) j (zlen pre) ls (zlen pre + zlen (nom_filaire ls)).
Proof.
  induction ls as [|l ls IH]; intros pre post Hls.
  - change (nom_filaire []) with [0]. change (zlen [0]) with 1. constructor. by apply idx_mid.
  - apply Forall_cons_iff in Hls as [Hl Hls]. rewrite filaire_cons, zlen_app, zlen_cons.
    rewrite <- app_assoc. change ((zlen l :: l) ++ nom_filaire ls ++ post) with (zlen l :: l ++ nom_filaire ls ++ post).
    apply comp_label.
    + by apply idx_mid.
    + done.
    + change (pre ++ zlen l :: l ++ nom_filaire ls ++ post) with (pre ++ [zlen l] ++ l ++ nom_filaire ls ++ post).
      rewrite app_assoc. apply slice_apres; [by rewrite zlen_app|done].
    + specialize (IH (pre ++ zlen l :: l) post Hls). rewrite <- app_assoc in IH. rewrite zlen_app, zlen_cons in IH.
      replace (zlen pre + 1 + zlen l) with (zlen pre + (1 + zlen l)) by lia.
      replace (zlen pre + (1 + zlen l + zlen (nom_filaire ls))) with (zlen pre + (1 + zlen l) + zlen (nom_filaire ls)) by lia.
      exact IH.
Qed.

Lemma rr_en_encode pre r post : rr_ok r ->
  rr_en (pre ++ encoder_rr r ++ post) (zlen pre) (rr_attendu r) (zlen pre + zlen (encoder_rr r)).
Proof.
  intros ((Hls & _ & Hz) & Ht & Hc & Htt & Hd & _).
  exists (s_nom r), (zlen pre + zlen (nom_filaire (s_nom r))), (s_type r), (s_class r), (s_ttl r), (zlen (s_data r)), (s_data r).
  unfold encoder_rr. rewrite !zlen_app, !zlen_be16e, zlen_be32e, <- !app_assoc.
  set (nf := nom_filaire (s_nom r)). split_and!; try done.
  - by apply nom_comp_filaire.
  - rewrite app_assoc. apply be16_apres. by rewrite zlen_app.
  - rewrite app_assoc, (app_assoc (pre ++ nf)). apply be16_apres. by rewrite !zlen_app.
  - rewrite app_assoc, (app_assoc (pre ++ nf)), (app_assoc ((pre ++ nf) ++ _)). apply be32_apres.
    rewrite !zlen_app, !zlen_be16e. lia.
  - rewrite app_assoc, (app_assoc (pre ++ nf)), (app_assoc ((pre ++ nf) ++ _)), (app_assoc (((pre ++ nf) ++ _) ++ _)).
    apply be16_apres. rewrite !zlen_app, !zlen_be16e, zlen_be32e. lia.
  - lia.
  - rewrite app_assoc, (app_assoc (pre ++ nf)), (app_assoc ((pre ++ nf) ++ _)), (app_assoc (((pre ++ nf) ++ _) ++ _)),
      (app_assoc ((((pre ++ nf) ++ _) ++ _) ++ _)).
    apply slice_apres; rewrite ?zlen_app, ?zlen_be16e, ?zlen_be32e; lia.
Qed.

Lemma rrs_en_encode rs : forall pre post o, Forall rr_ok rs -> o = zlen pre ->
  rrs_en (pre ++ encoder_rrs rs ++ post) o (rr_attendu <$> rs) (o + zlen (encoder_rrs rs)).
Proof.
  induction rs as [|r rs IH]; intros pre post o Hrs ->.
  - change (zlen (encoder_rrs [])) with 0. rewrite Z.add_0_r. constructor.
  - apply Forall_cons_iff in Hrs as [Hr Hrs]. change (encoder_rrs (r :: rs)) with (encoder_rr r ++ encoder_rrs rs).
    rewrite <- app_assoc, zlen_app. cbn [fmap list_fmap]. econstructor; [by apply rr_en_encode|].
    rewrite app_assoc, Z.add_assoc. apply IH; [done|]. by rewrite zlen_app.
Qed.

Lemma bytes_ok_filaire ls : labels_ok ls -> Forall bytes_ok ls -> bytes_ok (nom_filaire ls).
Proof.
  induction ls as [|l ls IH]; intros Hl Hb; [by repeat constructor|]. rewrite filaire_cons.
  apply Forall_cons_iff in Hl as [Hl Hls]. apply Forall_cons_iff in Hb as [Hb Hbs].
  apply bytes_ok_app; [|by apply IH]. constructor; [unfold is_u8; lia|done].
Qed.

Lemma bytes_ok_rrs rs : Forall rr_ok rs -> bytes_ok (encoder_rrs rs).
Proof.
  induction 1 as [|r rs ((Hl & Hb & _) & Ht & Hc & Htt & Hd & Hdb) _ IH]; [constructor|].
  change (encoder_rrs (r :: rs)) with (encoder_rr r ++ encoder_rrs rs). apply bytes_ok_app; [|done]. unfold encoder_rr.
  unfold MaxDNSRDataBytes in Hd. pose proof (zlen_nonneg (s_data r)).
  apply bytes_ok_app; [by apply bytes_ok_filaire|]. apply bytes_ok_app; [by apply bytes_ok_be16e|].
  apply bytes_ok_app; [by apply bytes_ok_be16e|]. apply bytes_ok_app; [by apply bytes_ok_be32e|].
  apply bytes_ok_app; [|done]. apply bytes_ok_be16e. unfold is_u16. lia.
Qed.

(** The census of the first label of an encoded name. *)
Lemma premier_encode hdr ls post : zlen hdr = 12 -> labels_ok ls -> post <> [] ->
  recenser_premier (hdr ++ nom_filaire ls ++ post) = Done (premier_de ls).
Proof.
  intros Hh Hls Hpost. unfold recenser_premier. pose proof (zlen_nonneg post) as Hp0.
  assert (0 < zlen post) as Hp by (destruct post; [done|]; rewrite zlen_cons in *; pose proof (zlen_nonneg post); lia).
  rewrite !zlen_app, Hh. pose proof (zlen_nonneg (nom_filaire ls)).
  destruct ls as [|l ls].
  - change (zlen (nom_filaire [])) with 1. rewrite (proj2 (Z.ltb_lt 13 _)) by lia. cbn [negb].
    change (nom_filaire [] ++ post) with (0 :: post). rewrite (idx_mid hdr _ _ 12), run_bind_done by lia. done.
  - apply Forall_cons_iff in Hls as [Hl Hls]. rewrite zlen_filaire_cons. pose proof (zlen_nonneg (nom_filaire ls)).
    rewrite (proj2 (Z.ltb_lt 13 _)) by lia. cbn [negb]. rewrite filaire_cons, <- app_assoc.
    change ((zlen l :: l) ++ nom_filaire ls ++ post) with (zlen l :: (l ++ nom_filaire ls ++ post)).
    rewrite (idx_mid hdr _ _ 12), run_bind_done by lia.
    rewrite (proj2 (Z.ltb_lt 0 (zlen l))), (proj2 (Z.leb_le (zlen l) 63)), (proj2 (Z.leb_le (13 + zlen l) _)) by lia. cbn [andb].
    set (raw := hdr ++ zlen l :: l ++ nom_filaire ls ++ post).
    cut (wp (for_range (zlen l) premier_zero (fun i p => b ← idx raw (13 + i); Done (inl (B := premier_label) (compter_octet p b))))
           (fun o => o = inl (premier_de (l :: ls)))).
    { intros H1. apply wp_exists in H1 as (o & Ho & ->). by rewrite Ho, run_bind_done. }
    apply (wp_for_range (fun i p => p = fold_left compter_octet (take (Z.to_nat i) l) premier_zero)); [lia|done| |].
    + intros i p Hi ->. destruct (drop_idx l i Hi) as (c & Hc & Hdr).
      assert (idx raw (13 + i) = Done c) as ->.
      { unfold raw. change (hdr ++ zlen l :: l ++ nom_filaire ls ++ post) with (hdr ++ [zlen l] ++ l ++ nom_filaire ls ++ post).
        rewrite app_assoc, (idx_app_r _ _ _ i) by (rewrite ?zlen_app, ?zlen_cons, ?zlen_nil; lia).
        unfold idx in Hc |- *. destruct (i <? 0); [done|]. destruct (l !! Z.to_nat i) eqn:El; [|done].
        by rewrite (lookup_app_l_Some _ _ _ _ El). }
      rewrite run_bind_done. apply wp_done. rewrite (take_suivant l i _ _ (proj1 Hi) Hdr), fold_left_app. done.
    + intros p ->. by rewrite take_ge by (unfold zlen; lia).
Qed.

Lemma entete_encode id flags an ns ar post :
  lire_entete (encoder_entete id flags an ns ar ++ post) = Done (entete_attendu id flags an ns ar).
Proof.
  unfold lire_entete. set (raw := encoder_entete id flags an ns ar ++ post).
  rewrite (be16_apres (be16e id) flags (be16e 1 ++ be16e an ++ be16e ns ++ be16e ar ++ post) 2 eq_refl : be16 raw 2 = _).
  rewrite (be16_apres [] id (be16e flags ++ be16e 1 ++ be16e an ++ be16e ns ++ be16e ar ++ post) 0 eq_refl : be16 raw 0 = _).
  rewrite (be16_apres (be16e id ++ be16e flags) 1 (be16e an ++ be16e ns ++ be16e ar ++ post) 4 eq_refl : be16 raw 4 = _).
  rewrite (be16_apres (be16e id ++ be16e flags ++ be16e 1) an (be16e ns ++ be16e ar ++ post) 6 eq_refl : be16 raw 6 = _).
  rewrite (be16_apres (be16e id ++ be16e flags ++ be16e 1 ++ be16e an) ns (be16e ar ++ post) 8 eq_refl : be16 raw 8 = _).
  rewrite (be16_apres (be16e id ++ be16e flags ++ be16e 1 ++ be16e an ++ be16e ns) ar post 10 eq_refl : be16 raw 10 = _).
  done.
Qed.

Lemma encoder_message_lu id flags qls qtype qclass rs1 rs2 rs3 :
  is_u16 id -> is_u16 flags -> is_u16 qtype -> is_u16 qclass -> nom_ok qls ->
  Forall rr_ok rs1 -> Forall rr_ok rs2 -> Forall rr_ok rs3 ->
  zlen rs1 <= 16 -> zlen rs2 <= 16 -> zlen rs3 <= 16 ->
  message_lu (encoder_message id flags qls qtype qclass rs1 rs2 rs3) (message_attendu id flags qls qtype qclass rs1 rs2 rs3).
Proof.
  intros Hid Hfl Hqt Hqc (Hls & _ & Hz) H1 H2 H3 L1 L2 L3.
  unfold encoder_message. set (hdr := encoder_entete id flags (zlen rs1) (zlen rs2) (zlen rs3)).
  assert (zlen hdr = 12) as Hh by done. set (nf := nom_filaire qls).
  exists (entete_attendu id flags (zlen rs1) (zlen rs2) (zlen rs3)), qls, (12 + zlen nf), qtype, qclass, (premier_de qls),
    (12 + zlen nf + 4), (rr_attendu <$> rs1), (rr_attendu <$> rs2), (rr_attendu <$> rs3),
    (12 + zlen nf + 4 + zlen (encoder_rrs rs1)), (12 + zlen nf + 4 + zlen (encoder_rrs rs1) + zlen (encoder_rrs rs2)),
    (12 + zlen nf + 4 + zlen (encoder_rrs rs1) + zlen (encoder_rrs rs2) + zlen (encoder_rrs rs3)).
  rewrite !zlen_fmap. cbn [m_QDCount m_ANCount m_NSCount m_ARCount entete_attendu].
  pose proof (zlen_nonneg (encoder_rrs rs1)). pose proof (zlen_nonneg (encoder_rrs rs2)). pose proof (zlen_nonneg (encoder_rrs rs3)).
  split_and!; try done.
  - rewrite zlen_app, Hh. pose proof (zlen_nonneg (nf ++ be16e qtype ++ be16e qclass ++ encoder_rrs rs1 ++ encoder_rrs rs2 ++ encoder_rrs rs3)). lia.
  - apply entete_encode.
  - rewrite <- Hh at 1 2. by apply nom_comp_filaire.
  - rewrite app_assoc. apply be16_apres. by rewrite zlen_app, Hh.
  - rewrite app_assoc, (app_assoc (hdr ++ nf)). apply be16_apres. rewrite !zlen_app, Hh, zlen_be16e. lia.
  - by apply premier_encode.
  - replace (Z.to_nat (1 - 1)) with 0%nat by lia. constructor.
  - rewrite app_assoc, (app_assoc (hdr ++ nf)), (app_assoc ((hdr ++ nf) ++ _)).
    apply rrs_en_encode; [done|]. rewrite !zlen_app, Hh, !zlen_be16e. lia.
  - rewrite app_assoc, (app_assoc (hdr ++ nf)), (app_assoc ((hdr ++ nf) ++ _)), (app_assoc (((hdr ++ nf) ++ _) ++ _)).
    apply rrs_en_encode; [done|]. rewrite !zlen_app, Hh, !zlen_be16e. lia.
  - rewrite app_assoc, (app_assoc (hdr ++ nf)), (app_assoc ((hdr ++ nf) ++ _)), (app_assoc (((hdr ++ nf) ++ _) ++ _)),
      (app_assoc ((((hdr ++ nf) ++ _) ++ _) ++ _)).
    rewrite <- (app_nil_r (encoder_rrs rs3)) at 1. apply rrs_en_encode; [done|]. rewrite !zlen_app, Hh, !zlen_be16e. lia.
Qed.

Lemma encoder_message_octets id flags qls qtype qclass rs1 rs2 rs3 :
  is_u16 id -> is_u16 flags -> is_u16 qtype -> is_u16 qclass -> nom_ok qls ->
  Forall rr_ok rs1 -> Forall rr_ok rs2 -> Forall rr_ok rs3 ->
  zlen rs1 <= 16 -> zlen rs2 <= 16 -> zlen rs3 <= 16 ->
  bytes_ok (encoder_message id flags qls qtype qclass rs1 rs2 rs3).
Proof.
  intros Hid Hfl Hqt Hqc (Hls & Hb & _) H1 H2 H3 L1 L2 L3.
  assert (forall rs : list rr_source, zlen rs <= 16 -> is_u16 (zlen rs)) as Hz
    by (intros rs H; unfold is_u16; pose proof (zlen_nonneg rs); lia).
  apply bytes_ok_app.
  - unfold encoder_entete. do 5 (apply bytes_ok_app; [apply bytes_ok_be16e; auto; unfold is_u16; lia|]).
    apply bytes_ok_be16e. auto.
  - apply bytes_ok_app; [by apply bytes_ok_filaire|].
    do 2 (apply bytes_ok_app; [by apply bytes_ok_be16e|]). do 2 (apply bytes_ok_app; [by apply bytes_ok_rrs|]).
    by apply bytes_ok_rrs.
Qed.

(** * Properties *)

(** C14: [ParseDNSMessage] is total and exact: for every packet it neither panics
    nor loops; it accepts exactly the packets given by the grammar (header with
    at least one question, names with at most eight strictly backward jumps and
    253 octets, at most 16 records a section, 1536 octets of data a record), and
    the message is then the one the grammar determines, the domain parts being
    those of the labels whatever path of [splitWireQName] computed them. *)
Theorem message_exact raw m0 : bytes_ok raw ->
  exists m err, ParseDNSMessage raw (Some m0) = Done (Some m, err) /\
    (err = None <-> exists m', message_lu raw m') /\ (forall m', message_lu raw m' -> m = m').
Proof.
  intros Hraw. pose proof (message_decide raw Hraw m0) as ([mo err] & Hr & (m & Hm & Hp))%wp_exists.
  cbn [fst snd] in *. subst mo. exists m, err. split; [done|]. destruct err as [err|].
  - split; [split; [done|intros (m' & H); by apply Hp in H]|]. intros m' H. by apply Hp in H.
  - split; [split; [by exists m|done]|]. intros m' H. by eapply message_lu_unique.
Qed.

(** An answer whose owner name is a pointer to the question, and one whose jump
    is not backwards. *)
Definition reponse_pointeur (cible : Z) : list Z :=
  encoder_entete 7 0x8400 1 0 0 ++ nom_filaire (octets <$> ["A"; "fr"]%string) ++ be16e 1 ++ be16e 1 ++
  [192; cible] ++ be16e 1 ++ be16e 1 ++ be32e 60 ++ be16e 4 ++ [10; 0; 0; 1].

Definition erreur_de (r : run (option DNSMessage * option erreurDNS)) : option erreurDNS :=
  match r with Done (_, e) => e | _ => Some ErrPacketTooShort end.

Lemma message_exact_witness :
  exists m err, ParseDNSMessage (reponse_pointeur 12) (Some message_zero) = Done (Some m, err) /\ err = None /\
    (err = None <-> exists m', message_lu (reponse_pointeur 12) m') /\
    erreur_de (ParseDNSMessage (reponse_pointeur 22) (Some message_zero)) = Some ErrLoopPointer.
Proof.
  destruct (message_exact (reponse_pointeur 12) message_zero) as (m & err & H & Hacc & _); [by apply octets_valides_ok|].
  exists m, err. split; [exact H|]. assert (erreur_de (ParseDNSMessage (reponse_pointeur 12) (Some message_zero)) = None) as He
    by by vm_compute.
  rewrite H in He. cbn in He. split; [exact He|]. split; [exact Hacc|]. by vm_compute.
Defined.

(** Decoding inverts encoding: a message with one question and up to 16
    records in each section, names of at most 253 octets and data of at most 1536
    octets, decodes without error to its header, question, label census, domain
    parts and records, in order. *)
Theorem message_aller_retour id flags qls qtype qclass rs1 rs2 rs3 m0 :
  is_u16 id -> is_u16 flags -> is_u16 qtype -> is_u16 qclass -> nom_ok qls ->
  Forall rr_ok rs1 -> Forall rr_ok rs2 -> Forall rr_ok rs3 ->
  zlen rs1 <= 16 -> zlen rs2 <= 16 -> zlen rs3 <= 16 ->
  ParseDNSMessage (encoder_message id flags qls qtype qclass rs1 rs2 rs3) (Some m0)
  = Done (Some (message_attendu id flags qls qtype qclass rs1 rs2 rs3), None).
Proof.
  intros Hid Hfl Hqt Hqc Hn H1 H2 H3 L1 L2 L3.
  pose proof (encoder_message_lu id flags qls qtype qclass rs1 rs2 rs3 Hid Hfl Hqt Hqc Hn H1 H2 H3 L1 L2 L3) as Hlu.
  pose proof (encoder_message_octets id flags qls qtype qclass rs1 rs2 rs3 Hid Hfl Hqt Hqc Hn H1 H2 H3 L1 L2 L3) as Hb.
  pose proof (message_decide _ Hb m0) as ([mo err] & Hr & (m & Hm & Hp))%wp_exists.
  cbn [fst snd] in *. subst mo. rewrite Hr. destruct err as [err|]; [by apply Hp in Hlu|].
  by rewrite (message_lu_unique _ _ _ Hp Hlu).
Qed.

Definition source_exemple : rr_source := Source (octets <$> ["a"; "fr"]%string) 16 1 300 (octets "v=spf1").

Lemma message_aller_retour_witness :
  ParseDNSMessage (encoder_message 7 0x8180 (octets <$> ["A"; "fr"]%string) 16 1 [source_exemple] [] [source_exemple])
    (Some message_zero)
  = Done (Some (message_attendu 7 0x8180 (octets <$> ["A"; "fr"]%string) 16 1 [source_exemple] [] [source_exemple]), None).
Proof.
  assert (rr_ok source_exemple) as Hr.
  { split; [|split; [done|]; split; [done|]; split; [done|]; split; [by vm_compute|by apply octets_valides_ok]].
    split; [|split; [|by vm_compute]]; repeat constructor; by vm_compute. }
  apply message_aller_retour;
    [split; by vm_compute|split; by vm_compute|split; by vm_compute|split; by vm_compute|
    |constructor; [exact Hr|constructor]|constructor|constructor; [exact Hr|constructor]|by vm_compute|by vm_compute|by vm_compute].
  split; [|split; [|by vm_compute]]; repeat constructor; by vm_compute.
Defined.
