(* ===== verification/GardeNonLdh.v ===== *)
(** The episode guard of query names outside LDH (src/nonldh_guard.go): a fixed
    table of 1024 cases probed eight at a time, one 300 s episode per parent
    domain with its questions, its tunnel questions and its last 32 distinct
    sub-domains.  The theorems: every call is safe whatever the interleaving of
    parents, the verdict is the one read off the questions of the running
    episode, and a burst within one episode is condemned.  An episode starts at a
    question and ends 300 s later, when the counts start again: a burst astride two
    episodes may pass ([salve_a_cheval]). *)
From Stdlib Require Import Sorted.
From stdpp Require Import gmap.
From S2P Require Import Prelude DnsName Grammaire Fnv.

Local Open Scope Z_scope.

Definition capaciteGardeNonLDH : Z := 1024.
Definition sondesGardeNonLDH : Z := 8.
Definition empreintesSousGardeNonLDH : Z := 32.
Definition FenetreGardeNonLDHNs : Z := 300000000000.
Definition seuilSousDistinctsSalveBinaire : Z := 3.
Definition seuilQuestionsTypeTunnel : Z := 2.
Definition seuilSousDistinctsSalveUTF8 : Z := 8.

Definition IndicatorNonLDHBinaryBurst : string := "NON_LDH_BINARY_BURST".
Definition IndicatorNonLDHTunnelQType : string := "NON_LDH_TUNNEL_QTYPE".
Definition IndicatorNonLDHUTF8UniqueBurst : string := "NON_LDH_UTF8_UNIQUE_BURST".
Definition ReasonV1NonLDHBinaryBurst : string := "REASON_V1_NONLDH_BINARY_BURST".
Definition ReasonV1NonLDHTunnelQType : string := "REASON_V1_NONLDH_TUNNEL_QTYPE".
Definition ReasonV1NonLDHUTF8UniqueBurst : string := "REASON_V1_NONLDH_UTF8_UNIQUE_BURST".

Record NonLDHVerdict := Verdict {
  Hostile : bool; Indicator : string; Reason : string; QuestionsFenetre : Z; SousDistincts : Z
}.
Definition verdict_nul : NonLDHVerdict := Verdict false "" "" 0 0.

Record caseGardeNonLDH := Case {
  empreinteParent : Z; debutFenetreNs : Z; derniereVueNs : Z;
  questions : Z; sousDistincts : Z; questionsTunnel : Z; curseurEmpreinte : Z;
  occupee : bool; empreintesSous : list Z
}.
Definition case_libre : caseGardeNonLDH := Case 0 0 0 0 0 0 0 false (replicate 32 0).

(** [caseGardeNonLDH{empreinteParent: e, debutFenetreNs: t, occupee: true}] *)
Definition case_neuve (e t : Z) : caseGardeNonLDH := Case e t 0 0 0 0 0 true (replicate 32 0).

Record NonLDHBurstGuard := Garde { cases : list caseGardeNonLDH; evictions : Z }.
Definition garde_vide : NonLDHBurstGuard := Garde (replicate 1024 case_libre) 0.

Definition Reset (_ : NonLDHBurstGuard) : NonLDHBurstGuard := garde_vide.
Definition Evictions (garde : NonLDHBurstGuard) : Z := evictions garde.

Definition TypeNULL : Z := 10.
Definition IsTunnelQType (qtype : Z) : bool := (qtype =? TypeNULL) || ((65280 <=? qtype) && (qtype <=? 65534)).

Definition fnv64Msg (b : list Z) : Z := hacherOctetsFNV64a fnvOffset64 b.

Definition empreinteRecente (entree : caseGardeNonLDH) (empreinte : Z) : run bool :=
  let retenues := Z.min (sousDistincts entree) empreintesSousGardeNonLDH in
  o ← for_range retenues tt (fun indice _ =>
        e ← idx (empreintesSous entree) indice;
        if e =? empreinte then Done (inr true) else Done (inl tt));
  Done (match o with inl _ => false | inr b => b end).

(** [instantNs-derniereVueNs > FenetreGardeNonLDHNs] on 64-bit integers. *)
Definition perime (instantNs date : Z) : bool := FenetreGardeNonLDHNs <? i64 (instantNs - date).

(** The probe: [inr k] when case [k] is the parent's, otherwise the candidate.
    Pointers into the table are indices. *)
Definition sonder (garde : NonLDHBurstGuard) (empreinteP instantNs : Z) : run (option Z + Z) :=
  let depart := Z.land empreinteP (capaciteGardeNonLDH - 1) in
  for_range sondesGardeNonLDH None (fun sonde candidate =>
    let k := Z.land (depart + sonde) (capaciteGardeNonLDH - 1) in
    entree ← idx (cases garde) k;
    if occupee entree && (empreinteParent entree =? empreinteP) then Done (inr k) else
    let expiree := occupee entree && perime instantNs (derniereVueNs entree) in
    if negb (occupee entree) || expiree then
      remplace ← (match candidate with
                  | None => Done true
                  | Some c => e ← idx (cases garde) c; Done (occupee e)
                  end);
      Done (inl (if (remplace : bool) then Some k else candidate))
    else
      remplace ← (match candidate with
                  | None => Done true
                  | Some c => e ← idx (cases garde) c; Done (occupee e && (derniereVueNs entree <? derniereVueNs e))
                  end);
      Done (inl (if (remplace : bool) then Some k else candidate))).

(** The case of the parent and the table after the reservation, if any. *)
Definition trouverOuReserver (garde : NonLDHBurstGuard) (empreinteP instantNs : Z) : run (NonLDHBurstGuard * Z) :=
  o ← sonder garde empreinteP instantNs;
  match o with
  | inr k => Done (garde, k)
  | inl None => Panic
  | inl (Some k) =>
      c ← idx (cases garde) k;
      let ev := if occupee c && negb (perime instantNs (derniereVueNs c)) then u64 (evictions garde + 1) else evictions garde in
      cs ← upd (cases garde) k (case_neuve empreinteP instantNs);
      Done (Garde cs ev, k)
  end.

(** The beginning of [Observe]: the case, rewound if its window is over, and
    the instant, clamped to the last one seen. *)
Definition ouvrir (garde : NonLDHBurstGuard) (empreinteP instantNs : Z) : run (NonLDHBurstGuard * Z * caseGardeNonLDH * Z) :=
  '(garde, k) ← trouverOuReserver garde empreinteP instantNs;
  entree ← idx (cases garde) k;
  let instantNs := if instantNs <? derniereVueNs entree then derniereVueNs entree else instantNs in
  let entree := if perime instantNs (debutFenetreNs entree) then case_neuve empreinteP instantNs else entree in
  Done (garde, k, entree, instantNs).

(** One more question in the case, at the clamped instant. *)
Definition compter_question (entree : caseGardeNonLDH) (empreinteSous qtype instantNs : Z) : run caseGardeNonLDH :=
  let '(Case ep deb _ q sd qt cur occ sous) := entree in
  let q := if q <? 65535 then u16 (q + 1) else q in
  let qt := if IsTunnelQType qtype && (qt <? 65535) then u16 (qt + 1) else qt in
  recente ← empreinteRecente entree empreinteSous;
  if (recente : bool) then Done (Case ep deb instantNs q sd qt cur occ sous) else
  sous ← upd sous cur empreinteSous;
  Done (Case ep deb instantNs q (if sd <? 65535 then u16 (sd + 1) else sd) qt
          ((cur + 1) mod empreintesSousGardeNonLDH) occ sous).

Definition decider (entree : caseGardeNonLDH) (classe : QNameGrammar) (qtype : Z) : NonLDHVerdict :=
  let q := questions entree in
  let sd := sousDistincts entree in
  if IsTunnelQType qtype && (seuilQuestionsTypeTunnel <=? questionsTunnel entree)
  then Verdict true IndicatorNonLDHTunnelQType ReasonV1NonLDHTunnelQType q sd
  else if (bool_decide (classe = QNameGrammarBinary) || bool_decide (classe = QNameGrammarASCIIOutsideLDH))
          && (seuilSousDistinctsSalveBinaire <=? sd)
  then Verdict true IndicatorNonLDHBinaryBurst ReasonV1NonLDHBinaryBurst q sd
  else if bool_decide (classe = QNameGrammarUTF8Local) && (seuilSousDistinctsSalveUTF8 <=? sd)
          && (u32 (q * 9) <=? u32 (sd * 10))
  then Verdict true IndicatorNonLDHUTF8UniqueBurst ReasonV1NonLDHUTF8UniqueBurst q sd
  else Verdict false "" "" q sd.

Definition ignoree (classe : QNameGrammar) : bool :=
  bool_decide (classe = QNameGrammarLDH) || bool_decide (classe = QNameGrammarDNSSDInstance).

Definition Observe (garde : NonLDHBurstGuard) (parent sousDomaine : list Z) (profil : QNameGrammarProfile)
    (qtype instantNs : Z) : run (NonLDHBurstGuard * NonLDHVerdict) :=
  if ignoree (Classe profil) then Done (garde, verdict_nul) else
  '(garde, k, entree, instantNs) ← ouvrir garde (fnv64Msg parent) instantNs;
  entree ← compter_question entree (fnv64Msg sousDomaine) qtype instantNs;
  cs ← upd (cases garde) k entree;
  Done (Garde cs (evictions garde), decider entree (Classe profil) qtype).

(** * Episodes *)

(** One question of a parent: sub-domain fingerprint, type, clamped instant. *)
Record vue := Vue { v_sous : Z; v_type : Z; v_date : Z }.

Definition tunnels (ep : list vue) : Z := compte (fun v => IsTunnelQType (v_type v)) ep.
Definition distincts (ep : list vue) : Z := nb_distincts (v_sous <$> ep).

(** The ring holds the distinct sub-domains of [ep] as long as there are at most 32. *)
Definition anneau_ok (c : caseGardeNonLDH) (ep : list vue) : Prop :=
  zlen (empreintesSous c) = 32 /\ 0 <= curseurEmpreinte c < 32 /\ 0 <= sousDistincts c <= 65535 /\
  ((sousDistincts c <= 32 /\ sousDistincts c = distincts ep /\
    NoDup (take (Z.to_nat (sousDistincts c)) (empreintesSous c)) /\
    (forall x, x ∈ take (Z.to_nat (sousDistincts c)) (empreintesSous c) <-> x ∈ v_sous <$> ep) /\
    (sousDistincts c < 32 -> curseurEmpreinte c = sousDistincts c))
   \/ (32 < sousDistincts c /\ 32 < distincts ep /\ Z.min 65535 (distincts ep) <= sousDistincts c <= zlen ep /\
       (forall x, x ∈ take 32 (empreintesSous c) -> x ∈ v_sous <$> ep))).

(** The counters of a case count the questions of [ep], saturating at 65535. *)
Definition compteurs (c : caseGardeNonLDH) (ep : list vue) : Prop :=
  questions c = Z.min 65535 (zlen ep) /\ questionsTunnel c = Z.min 65535 (tunnels ep) /\ anneau_ok c ep.

Lemma distincts_nil : distincts [] = 0.
Proof. done. Qed.

Lemma distincts_cons v ep :
  distincts (v :: ep) = if bool_decide (v_sous v ∈ v_sous <$> ep) then distincts ep else distincts ep + 1.
Proof.
  unfold distincts, nb_distincts. change (v_sous <$> v :: ep) with (v_sous v :: (v_sous <$> ep)). cbn [remove_dups].
  destruct (bool_decide_reflect (v_sous v ∈ v_sous <$> ep)) as [H|H]; case_decide; try done.
  rewrite zlen_cons. lia.
Qed.

Lemma compteurs_neuve e t : compteurs (case_neuve e t) [].
Proof.
  split; [done|]. split; [done|]. split; [done|]. split; [done|]. split; [done|]. left.
  split; [done|]. split; [done|]. split; [constructor|]. split; [|done]. intros x. cbn. done.
Qed.

Lemma recente_exacte c e : zlen (empreintesSous c) = 32 -> 0 <= sousDistincts c ->
  empreinteRecente c e
  = Done (bool_decide (e ∈ take (Z.to_nat (Z.min (sousDistincts c) 32)) (empreintesSous c))).
Proof.
  intros Hz Hs. cut (wp (empreinteRecente c e)
    (fun b => b = bool_decide (e ∈ take (Z.to_nat (Z.min (sousDistincts c) 32)) (empreintesSous c)))).
  { intros H. by apply wp_exists in H as (? & -> & ->). }
  unfold empreinteRecente, empreintesSousGardeNonLDH. set (n := Z.min (sousDistincts c) 32). apply wp_bind.
  apply (wp_for_range (fun i _ => e ∉ take (Z.to_nat i) (empreintesSous c))); [lia|apply not_elem_of_nil| |].
  - intros i [] Hi Hno. apply wp_bind, wp_idx; [lia|]. intros x Hx.
    assert (take (Z.to_nat (i + 1)) (empreintesSous c) = take (Z.to_nat i) (empreintesSous c) ++ [x]) as Ht
      by (replace (Z.to_nat (i + 1)) with (S (Z.to_nat i)) by lia; by apply take_S_r).
    destruct (Z.eqb_spec x e) as [->|Hne]; apply wp_done.
    + symmetry. apply bool_decide_eq_true_2.
      assert (e ∈ take (Z.to_nat (i + 1)) (empreintesSous c)) as Hin
        by (rewrite Ht; apply elem_of_app; right; by apply list_elem_of_singleton).
      apply list_elem_of_lookup in Hin as (j & Hj). apply list_elem_of_lookup. exists j.
      apply lookup_take_Some in Hj as [Hj Hlt]. apply lookup_take_Some. split; [done|lia].
    + rewrite Ht, elem_of_app, list_elem_of_singleton. naive_solver.
  - intros [] Hno. apply wp_done. symmetry. by apply bool_decide_eq_false_2.
Qed.

(** ** One question *)

Lemma distincts_borne ep : distincts ep <= zlen ep.
Proof.
  induction ep as [|v ep IH]; [done|]. rewrite distincts_cons, zlen_cons. destruct (bool_decide _); lia.
Qed.

Lemma sous_cons x v ep : x ∈ v_sous <$> v :: ep <-> x = v_sous v \/ x ∈ v_sous <$> ep.
Proof. change (v_sous <$> v :: ep) with (v_sous v :: (v_sous <$> ep)). apply elem_of_cons. Qed.

Lemma anneau_recente c ep v : anneau_ok c ep ->
  v_sous v ∈ take (Z.to_nat (Z.min (sousDistincts c) 32)) (empreintesSous c) ->
  forall c', empreintesSous c' = empreintesSous c -> curseurEmpreinte c' = curseurEmpreinte c ->
    sousDistincts c' = sousDistincts c -> anneau_ok c' (v :: ep).
Proof.
  intros (Hz & Hc & Hs & H) Hin c' E1 E2 E3. unfold anneau_ok. rewrite E1, E2, E3, distincts_cons, zlen_cons.
  split; [done|]. split; [done|]. split; [done|]. destruct H as [(H1 & H2 & H3 & H4 & H5)|(H1 & H2 & H3 & H4)].
  - left. rewrite Z.min_l in Hin by lia. pose proof (proj1 (H4 _) Hin) as Hin'.
    rewrite bool_decide_eq_true_2 by done. split; [done|]. split; [done|]. split; [done|]. split; [|done].
    intros x. rewrite H4, sous_cons. naive_solver.
  - right. rewrite Z.min_r in Hin by lia. rewrite bool_decide_eq_true_2 by by apply H4.
    split; [done|]. split; [done|]. split; [lia|]. intros x Hx. rewrite sous_cons. right. by apply H4.
Qed.

(** Insertion at any place of the ring keeps it inside the episode. *)
Lemma anneau_inclus (l : list Z) i v ep : (forall x, x ∈ take 32 l -> x ∈ v_sous <$> ep) ->
  forall x, x ∈ take 32 (<[i := v_sous v]> l) -> x ∈ v_sous <$> v :: ep.
Proof.
  intros H x Hx. rewrite sous_cons. apply list_elem_of_lookup in Hx as (j & Hj).
  apply lookup_take_Some in Hj as [Hj Hlt]. apply list_lookup_insert_Some in Hj as [(_ & <- & _)|[_ Hj]]; [by left|].
  right. apply H. apply list_elem_of_lookup. exists j. by apply lookup_take_Some.
Qed.

Lemma anneau_nouvelle c ep v : anneau_ok c ep ->
  v_sous v ∉ take (Z.to_nat (Z.min (sousDistincts c) 32)) (empreintesSous c) ->
  forall c', empreintesSous c' = <[Z.to_nat (curseurEmpreinte c) := v_sous v]> (empreintesSous c) ->
    curseurEmpreinte c' = (curseurEmpreinte c + 1) mod 32 ->
    sousDistincts c' = (if sousDistincts c <? 65535 then u16 (sousDistincts c + 1) else sousDistincts c) ->
    anneau_ok c' (v :: ep).
Proof.
  intros (Hz & Hc & Hs & H) Hin c' E1 E2 E3. unfold anneau_ok. rewrite E1, E2, E3, distincts_cons, zlen_insert, zlen_cons.
  assert ((if sousDistincts c <? 65535 then u16 (sousDistincts c + 1) else sousDistincts c)
          = Z.min 65535 (sousDistincts c + 1)) as ->.
  { destruct (Z.ltb_spec (sousDistincts c) 65535); [rewrite u16_id by (unfold is_u16; lia)|]; lia. }
  split; [done|]. split; [apply Z.mod_pos_bound; lia|]. split; [lia|]. pose proof (distincts_borne ep) as Hb.
  destruct H as [(H1 & H2 & H3 & H4 & H5)|(H1 & H2 & H3 & H4)].
  2: { right. split; [lia|]. split; [destruct (bool_decide _); lia|]. split; [destruct (bool_decide _); lia|].
       by apply anneau_inclus. }
  rewrite Z.min_l in Hin by lia.
  assert (v_sous v ∉ v_sous <$> ep) as Hnew by (intros Hx; by apply Hin, H4).
  rewrite bool_decide_eq_false_2 by done. destruct (decide (sousDistincts c < 32)) as [Hlt|Hge].
  2: { right. split; [lia|]. split; [lia|]. split; [lia|]. apply anneau_inclus. intros x Hx. apply H4.
       by replace (sousDistincts c) with 32 by lia. }
  left. specialize (H5 Hlt). rewrite Z.min_r by lia. split; [lia|]. split; [lia|].
  assert (take (Z.to_nat (sousDistincts c + 1)) (<[Z.to_nat (curseurEmpreinte c) := v_sous v]> (empreintesSous c))
          = take (Z.to_nat (sousDistincts c)) (empreintesSous c) ++ [v_sous v]) as ->
    by (rewrite H5; apply take_insert_snoc; lia).
  split; [|split].
  - apply NoDup_app. split; [done|]. split; [|apply NoDup_singleton]. intros x Hx Hx'.
    apply list_elem_of_singleton in Hx' as ->. done.
  - intros x. rewrite elem_of_app, list_elem_of_singleton, sous_cons, H4. tauto.
  - intros H32. rewrite H5. apply Z.mod_small. lia.
Qed.

Lemma sature n : 0 <= n -> (if Z.min 65535 n <? 65535 then u16 (Z.min 65535 n + 1) else Z.min 65535 n) = Z.min 65535 (n + 1).
Proof.
  intros Hn. destruct (Z.ltb_spec (Z.min 65535 n) 65535); [rewrite u16_id by (unfold is_u16; lia)|]; lia.
Qed.

Lemma wp_compter c ep s q t : compteurs c ep ->
  wp (compter_question c s q t) (fun c' => compteurs c' (Vue s q t :: ep) /\ empreinteParent c' = empreinteParent c /\
    debutFenetreNs c' = debutFenetreNs c /\ derniereVueNs c' = t /\ occupee c' = occupee c).
Proof.
  intros (Hq & Hqt & Han). pose proof Han as (Hz & Hc & Hs & _). unfold compter_question.
  destruct c as [epp deb der qs sd qt cur occ sous].
  cbn [questions questionsTunnel empreintesSous curseurEmpreinte sousDistincts empreinteParent debutFenetreNs occupee] in *.
  rewrite (recente_exacte (Case epp deb der qs sd qt cur occ sous)), run_bind_done by (cbn; lia).
  cbn [sousDistincts empreintesSous]. pose proof (zlen_nonneg ep) as Hz0. pose proof (compte_pos (fun v => IsTunnelQType (v_type v)) ep) as Ht0.
  assert ((if qs <? 65535 then u16 (qs + 1) else qs) = Z.min 65535 (zlen (Vue s q t :: ep))) as ->
    by (rewrite Hq, sature, zlen_cons by done; f_equal; lia).
  assert ((if IsTunnelQType q && (qt <? 65535) then u16 (qt + 1) else qt) = Z.min 65535 (tunnels (Vue s q t :: ep))) as ->.
  { rewrite Hqt. unfold tunnels. rewrite compte_cons. cbn [v_type].
    destruct (IsTunnelQType q); cbn [andb]; [|f_equal; lia]. rewrite sature by done. f_equal. lia. }
  destruct (bool_decide_reflect (s ∈ take (Z.to_nat (Z.min sd 32)) sous)) as [Hin|Hin].
  - apply wp_done. split; [|done]. split; [done|]. split; [done|].
    by apply (anneau_recente _ ep (Vue s q t) Han Hin).
  - apply wp_bind, wp_upd; [lia|]. apply wp_done. split; [|done]. split; [done|]. split; [done|].
    by apply (anneau_nouvelle _ ep (Vue s q t) Han Hin).
Qed.

(** * The probe of the table *)

Definition DATE_MAX : Z := 2 ^ 62.
Definition date_ok (t : Z) : Prop := 0 <= t < DATE_MAX.

(** The [j]-th case probed for the fingerprint [e]. *)
Definition sonde_de (e j : Z) : Z := Z.land (Z.land e 1023 + j) 1023.
Definition fenetre (e k : Z) : Prop := exists j, 0 <= j < 8 /\ k = sonde_de e j.

Definition lire (g : NonLDHBurstGuard) (k : Z) : option caseGardeNonLDH := cases g !! Z.to_nat k.

(** The table itself: its length, the dates of its occupied cases. *)
Definition table_ok (g : NonLDHBurstGuard) : Prop :=
  zlen (cases g) = 1024 /\ is_u64 (evictions g) /\
  forall k c, lire g k = Some c -> occupee c = true -> date_ok (derniereVueNs c).

Lemma perime_ok t d : date_ok t -> date_ok d -> perime t d = (FenetreGardeNonLDHNs <? t - d).
Proof. unfold date_ok, DATE_MAX. intros. unfold perime. rewrite i64_id by (unfold is_i64; lia). done. Qed.

Lemma sonde_range e j : 0 <= sonde_de e j < 1024.
Proof. unfold sonde_de. apply (land_range _ 1023 10); lia. Qed.

Lemma lire_idx g k c : 0 <= k -> lire g k = Some c -> idx (cases g) k = Done c.
Proof. apply idx_lookup. Qed.

Lemma wp_lire g k (Q : caseGardeNonLDH -> Prop) : table_ok g -> 0 <= k < 1024 ->
  (forall c, lire g k = Some c -> Q c) -> wp (idx (cases g) k) Q.
Proof. intros (Hz & _) Hk HQ. apply wp_idx; [lia|]. exact HQ. Qed.

Definition vivante (t : Z) (c : caseGardeNonLDH) : Prop := occupee c = true /\ perime t (derniereVueNs c) = false.

(** What the candidate is after [j] probes. *)
Definition candidat_ok (g : NonLDHBurstGuard) (e t j : Z) (o : option Z) : Prop :=
  (forall i c, 0 <= i < j -> lire g (sonde_de e i) = Some c -> occupee c = true -> empreinteParent c <> e) /\
  match o with
  | None => j = 0
  | Some k => (exists i, 0 <= i < j /\ k = sonde_de e i) /\
      forall c, lire g k = Some c -> vivante t c ->
      forall i c', 0 <= i < j -> lire g (sonde_de e i) = Some c' -> vivante t c' /\ derniereVueNs c <= derniereVueNs c'
  end.

Lemma candidat_neuf g e t j o c : candidat_ok g e t j o -> 0 <= j -> lire g (sonde_de e j) = Some c ->
  (occupee c = true -> empreinteParent c <> e) ->
  (vivante t c -> forall i c', 0 <= i < j -> lire g (sonde_de e i) = Some c' -> vivante t c' /\ derniereVueNs c <= derniereVueNs c') ->
  candidat_ok g e t (j + 1) (Some (sonde_de e j)).
Proof.
  intros [H1 _] Hj Hc Hne Hv. split.
  - intros i c' Hi Hc'. destruct (decide (i = j)) as [->|]; [|apply (H1 i); [lia|done]]. rewrite Hc in Hc'.
    by injection Hc' as ->.
  - split; [exists j; split; [lia|done]|]. intros c0 Hc0 Hv0 i c' Hi Hc'. rewrite Hc in Hc0. injection Hc0 as <-.
    destruct (decide (i = j)) as [->|]; [|apply (Hv Hv0 i); [lia|done]].
    rewrite Hc in Hc'. injection Hc' as <-. split; [done|lia].
Qed.

Lemma candidat_garde g e t j k c : candidat_ok g e t j (Some k) -> lire g (sonde_de e j) = Some c ->
  (occupee c = true -> empreinteParent c <> e) ->
  (forall ck, lire g k = Some ck -> vivante t ck -> vivante t c /\ derniereVueNs ck <= derniereVueNs c) ->
  candidat_ok g e t (j + 1) (Some k).
Proof.
  intros [H1 [(i & Hi & ->) H2]] Hc Hne Hv. split.
  - intros i' c' Hi' Hc'. destruct (decide (i' = j)) as [->|]; [|apply (H1 i'); [lia|done]]. rewrite Hc in Hc'.
    by injection Hc' as ->.
  - split; [exists i; split; [lia|done]|]. intros ck Hck Hvk i' c' Hi' Hc'.
    destruct (decide (i' = j)) as [->|]; [|apply (H2 ck Hck Hvk i'); [lia|done]].
    rewrite Hc in Hc'. injection Hc' as <-. by apply Hv.
Qed.

(** The probe finds the parent's case, or proves it absent from its window and
    picks a case that is dead or the least recently seen of eight live ones. *)
Lemma wp_sonder g e t : table_ok g -> date_ok t ->
  wp (sonder g e t) (fun o => match o with
    | inr k => fenetre e k /\ exists c, lire g k = Some c /\ occupee c = true /\ empreinteParent c = e
    | inl o => o <> None /\ candidat_ok g e t 8 o
    end).
Proof.
  intros Hg Ht. pose proof Hg as (_ & _ & Hd). unfold sonder, sondesGardeNonLDH, capaciteGardeNonLDH. change (1024 - 1) with 1023.
  apply (wp_for_range (candidat_ok g e t)); [lia| | |].
  - split; [intros; lia|done].
  - intros j o Hj Hok. change (Z.land (Z.land e 1023 + j) 1023) with (sonde_de e j).
    apply wp_bind, wp_lire; [done|apply sonde_range|]. intros c Hc.
    destruct (occupee c && (empreinteParent c =? e)) eqn:Hm.
    { zbool. apply wp_done. split; [by exists j|]. by exists c. }
    assert (occupee c = true -> empreinteParent c <> e) as Hne by (intros Ho; rewrite Ho in Hm; cbn in Hm; by zbool).
    assert (forall k ck, o = Some k -> lire g k = Some ck -> occupee ck = true ->
              occupee c && perime t (derniereVueNs c) = false -> occupee c = true ->
              derniereVueNs ck <= derniereVueNs c \/ vivante t ck) as Hdate.
    { intros k ck _ Hck Hok' Hp Ho. rewrite Ho in Hp. cbn in Hp. unfold vivante.
      pose proof (Hd _ _ Hc Ho). pose proof (Hd _ _ Hck Hok'). rewrite perime_ok in Hp by done.
      rewrite perime_ok by done. zbool. destruct (Z.ltb_spec FenetreGardeNonLDHNs (t - derniereVueNs ck)); [left; lia|auto]. }
    destruct (negb (occupee c) || occupee c && perime t (derniereVueNs c)) eqn:Hfree.
    + assert (~ vivante t c) as Hnv by (intros [Hv1 Hv2]; by rewrite Hv1, Hv2 in Hfree).
      apply wp_bind. destruct o as [k|]; [|by apply wp_done; eapply candidat_neuf; [done|lia|done..|]].
      pose proof Hok as [_ [(i & Hi & ->) H2]]. apply wp_bind, wp_lire; [done|apply sonde_range|]. intros ck Hck.
      apply wp_done. destruct (occupee ck) eqn:Hock; cbn.
      * by eapply candidat_neuf; [done|lia|done..|].
      * apply (candidat_garde _ _ _ _ _ c); [done|done|done|]. intros ck' Hck'. rewrite Hck in Hck'. injection Hck' as <-.
        intros [Ho _]. congruence.
    + assert (vivante t c) as Hv.
      { unfold vivante. destruct (occupee c), (perime t (derniereVueNs c)); done. }
      destruct Hv as [Hv1 Hv2]. rewrite Hv1 in Hdate. cbn in Hdate.
      apply wp_bind. destruct o as [k|].
      2: { apply wp_done. cbn. eapply candidat_neuf; [done|lia|done|done|]. intros _ i c' Hi. destruct Hok as [_ ->]. lia. }
      pose proof Hok as [_ [(i & Hi & ->) H2]]. apply wp_bind, wp_lire; [done|apply sonde_range|]. intros ck Hck.
      apply wp_done. destruct (occupee ck && (derniereVueNs c <? derniereVueNs ck)) eqn:Hrep; cbn.
      * zbool. eapply candidat_neuf; [done|lia|done|done|]. intros _ i' c' Hi' Hc'.
        assert (vivante t ck) as Hvk by (destruct (Hdate _ ck eq_refl Hck) as [|]; [done|done|done|lia|done]).
        destruct (H2 ck Hck Hvk i' c' Hi' Hc'). split; [done|lia].
      * apply (candidat_garde _ _ _ _ _ c); [done|done|done|]. intros ck' Hck'. rewrite Hck in Hck'. injection Hck' as <-.
        intros [Ho _]. rewrite Ho in Hrep. cbn in Hrep. zbool. split; [done|lia].
  - intros o Hok. split; [|done]. intros ->. by destruct Hok as [_ ?].
Qed.

(** * The abstract machine: a finite map from parents to running episodes *)

(** Episodes are newest first. *)
Definition vu (ep : list vue) : Z := match ep with v :: _ => v_date v | [] => 0 end.
Definition debut (ep : list vue) : Z := match last ep with Some v => v_date v | None => 0 end.

Definition episode_ok (ep : list vue) : Prop :=
  ep <> [] /\ Forall (fun v => debut ep <= v_date v <= vu ep) ep /\ vu ep - debut ep <= FenetreGardeNonLDHNs /\
  date_ok (debut ep) /\ date_ok (vu ep).

(** One more question of a parent: the episode goes on, or starts again when
    300 s have passed since its first question. *)
Definition poursuivre (o : option (list vue)) (s q t : Z) : list vue :=
  match o with
  | None => [Vue s q t]
  | Some ep =>
      let t := Z.max t (vu ep) in
      if FenetreGardeNonLDHNs <? t - debut ep then [Vue s q t] else Vue s q t :: ep
  end.

Definition case_ok (c : caseGardeNonLDH) (ep : list vue) : Prop :=
  compteurs c ep /\ episode_ok ep /\ derniereVueNs c = vu ep /\ debutFenetreNs c = debut ep.

Definition represente (g : NonLDHBurstGuard) (A : gmap Z (list vue)) : Prop :=
  zlen (cases g) = 1024 /\ is_u64 (evictions g) /\
  (forall k c, 0 <= k -> lire g k = Some c -> occupee c = true ->
     fenetre (empreinteParent c) k /\ exists ep, A !! empreinteParent c = Some ep /\ case_ok c ep) /\
  (forall e ep, A !! e = Some ep -> exists k c, 0 <= k /\ lire g k = Some c /\ occupee c = true /\ empreinteParent c = e) /\
  (forall k k' c c', 0 <= k -> 0 <= k' -> lire g k = Some c -> lire g k' = Some c' -> occupee c = true -> occupee c' = true ->
     empreinteParent c = empreinteParent c' -> k = k').

(** Making room for [p]: nothing to do, a dead episode dropped, or, when eight
    live episodes fill the window of [p], the least recently seen one. *)
Inductive reserve (A : gmap Z (list vue)) (p t : Z) : gmap Z (list vue) -> Z -> Prop :=
  | reserve_present ep : A !! p = Some ep -> reserve A p t A 0
  | reserve_libre : A !! p = None -> reserve A p t A 0
  | reserve_perimee r ep : A !! p = None -> A !! r = Some ep -> FenetreGardeNonLDHNs < t - vu ep ->
      reserve A p t (delete r A) 0
  | reserve_eviction r ep L : A !! p = None -> A !! r = Some ep -> t - vu ep <= FenetreGardeNonLDHNs ->
      length L = 8%nat -> NoDup L ->
      (forall e, e ∈ L -> exists ep', A !! e = Some ep' /\ t - vu ep' <= FenetreGardeNonLDHNs /\ vu ep <= vu ep') ->
      reserve A p t (delete r A) 1.

Lemma represente_vide : represente garde_vide ∅.
Proof.
  assert (forall k c, lire garde_vide k = Some c -> occupee c = false) as H.
  { intros k c Hc. change (replicate 1024 case_libre !! Z.to_nat k = Some c) in Hc. by apply lookup_replicate in Hc as [-> _]. }
  split; [done|]. split; [unfold is_u64; cbn; lia|]. split; [|split].
  - intros k c _ Hc Ho. by rewrite (H k c) in Ho.
  - intros e ep He. by rewrite lookup_empty in He.
  - intros k k' c c' _ _ Hc _ Ho. by rewrite (H k c) in Ho.
Qed.

Lemma represente_table g A : represente g A -> table_ok g.
Proof.
  intros (Hz & Hev & Hc & _). split; [done|]. split; [done|]. intros k c Hk Ho.
  destruct (decide (0 <= k)).
  - destruct (Hc k c) as (_ & ep & _ & _ & (_ & _ & _ & _ & Hd) & -> & _); [lia|done..].
  - assert (lire g 0 = Some c) as H0 by (unfold lire in *; replace (Z.to_nat 0) with (Z.to_nat k) by lia; done).
    destruct (Hc 0 c) as (_ & ep & _ & _ & (_ & _ & _ & _ & Hd) & -> & _); [lia|done..].
Qed.

Lemma represente_absent g A p : represente g A ->
  (forall k c, fenetre p k -> lire g k = Some c -> occupee c = true -> empreinteParent c <> p) -> A !! p = None.
Proof.
  intros (_ & _ & Hc & Ha & _) H. destruct (A !! p) as [ep|] eqn:E; [|done]. exfalso.
  destruct (Ha _ _ E) as (k & c & Hk & Hl & Ho & He). destruct (Hc k c Hk Hl Ho) as [Hf _]. rewrite He in Hf.
  by apply (H k c).
Qed.

Lemma lire_pose g k c' ev i : 0 <= k < zlen (cases g) -> 0 <= i ->
  lire (Garde (<[Z.to_nat k := c']> (cases g)) ev) i = if decide (i = k) then Some c' else lire g i.
Proof.
  intros Hk Hi. unfold lire, zlen in *. cbn. case_decide; [subst; apply list_lookup_insert_eq; lia|].
  apply list_lookup_insert_ne. lia.
Qed.

Definition vider (c : caseGardeNonLDH) (A : gmap Z (list vue)) : gmap Z (list vue) :=
  if occupee c then delete (empreinteParent c) A else A.

(** Writing the case of [p] at an index which is the only one [p] can have. *)
Lemma represente_pose g A p k ck c' ep ev : represente g A -> is_u64 ev ->
  fenetre p k -> lire g k = Some ck ->
  (forall i c, fenetre p i -> lire g i = Some c -> occupee c = true -> empreinteParent c = p -> i = k) ->
  case_ok c' ep -> occupee c' = true -> empreinteParent c' = p ->
  represente (Garde (<[Z.to_nat k := c']> (cases g)) ev) (<[p := ep]> (vider ck A)).
Proof.
  intros (Hz & _ & Hc & Ha & Hu) Hev Hf Hck Hseul Hc' Ho' Hp'.
  assert (0 <= k < 1024) as Hk by (destruct Hf as (j & _ & ->); apply sonde_range).
  assert (forall i c, 0 <= i -> i <> k -> lire g i = Some c -> occupee c = true -> empreinteParent c <> p) as Hne.
  { intros i c Hi Hik Hl Ho He. apply Hik, (Hseul i c); [|done..]. rewrite <- He. by apply (Hc i c). }
  split; [by cbn; rewrite zlen_insert|]. split; [done|]. split; [|split].
  - intros i c Hi. rewrite lire_pose by lia. case_decide as Hik.
    + intros [= <-] _. rewrite Hp'. subst i. split; [done|]. exists ep. by rewrite lookup_insert_eq.
    + intros Hl Ho. destruct (Hc i c Hi Hl Ho) as (Hf' & ep' & Hep' & Hok). split; [done|]. exists ep'.
      split; [|done]. rewrite lookup_insert_ne by (apply not_eq_sym; eauto). unfold vider.
      destruct (occupee ck) eqn:Hock; [|done]. rewrite lookup_delete_ne; [done|]. intros E. apply Hik.
      by apply (Hu i k c ck); [lia|lia|..].
  - intros e ep' He. destruct (decide (e = p)) as [->|Hep].
    { exists k, c'. split; [lia|]. rewrite lire_pose by lia. by rewrite decide_True. }
    rewrite lookup_insert_ne in He by done. assert (A !! e = Some ep' /\ (occupee ck = true -> empreinteParent ck <> e)) as [He' Hcke].
    { unfold vider in He. destruct (occupee ck); [|done]. apply lookup_delete_Some in He as [? ?]. done. }
    destruct (Ha _ _ He') as (i & c & Hi & Hl & Ho & Hpc). exists i, c. split; [done|]. rewrite lire_pose by lia.
    rewrite decide_False; [done|]. intros ->. rewrite Hck in Hl. injection Hl as ->. by apply Hcke.
  - intros i j c d Hi Hj. rewrite !lire_pose by lia. case_decide as H1; case_decide as H2; intros Hlc Hld Hoc Hod E;
      [congruence|injection Hlc as <-|injection Hld as <-|by apply (Hu i j c d)]; exfalso.
    + apply (Hne j d); [done|done|done|done|congruence].
    + apply (Hne i c); [done|done|done|done|congruence].
Qed.

Lemma sonde_distincte e i j : 0 <= i < 8 -> 0 <= j < 8 -> sonde_de e i = sonde_de e j -> i = j.
Proof.
  unfold sonde_de. change 1023 with (Z.ones 10). rewrite !Z.land_ones by lia. change (2 ^ 10) with 1024.
  intros Hi Hj H. divlia.
Qed.

(** The eight parents of a full window. *)
Definition voisins (g : NonLDHBurstGuard) (e : Z) : list Z :=
  (fun j => match lire g (sonde_de e j) with Some c => empreinteParent c | None => 0 end) <$> seqZ 0 8.

Lemma voisins_vivants g A e t (P : caseGardeNonLDH -> Prop) : represente g A ->
  (forall i c, 0 <= i < 8 -> lire g (sonde_de e i) = Some c -> vivante t c /\ P c) ->
  length (voisins g e) = 8%nat /\ NoDup (voisins g e) /\
  forall x, x ∈ voisins g e -> exists c ep, A !! x = Some ep /\ case_ok c ep /\ vivante t c /\ P c.
Proof.
  intros Hr H. pose proof Hr as (Hz & _ & Hc & _ & Hu).
  assert (forall i, 0 <= i < 8 -> exists c, lire g (sonde_de e i) = Some c) as Hl.
  { intros i _. pose proof (sonde_range e i). apply lookup_lt_is_Some. unfold zlen in Hz. lia. }
  split; [done|]. split.
  - apply NoDup_fmap_2_strong; [|apply NoDup_seqZ]. intros i j Hi Hj E. apply elem_of_seqZ in Hi, Hj.
    destruct (Hl i) as (c & Hci); [lia|]. destruct (Hl j) as (d & Hdj); [lia|]. rewrite Hci, Hdj in E.
    destruct (H i c) as [[Ho _] _]; [lia|done|]. destruct (H j d) as [[Ho' _] _]; [lia|done|].
    apply (sonde_distincte e); [lia|lia|]. by apply (Hu _ _ c d); [apply sonde_range|apply sonde_range|..].
  - intros x Hx. apply list_elem_of_fmap in Hx as (j & -> & Hj). apply elem_of_seqZ in Hj.
    destruct (Hl j) as (c & Hcj); [lia|]. rewrite Hcj. destruct (H j c) as [Hv HP]; [lia|done|].
    destruct (Hc (sonde_de e j) c) as (_ & ep & He & Hok); [apply sonde_range|done|apply Hv|]. by exists c, ep.
Qed.

(** What a reservation does: [k] is the only place of [e], the table changes at
    most there, and the episode lost, if any, is the one [reserve] allows. *)
Definition reservation (g : NonLDHBurstGuard) (A : gmap Z (list vue)) (e t : Z) (g' : NonLDHBurstGuard) (k : Z) : Prop :=
  exists ck A0 n, lire g k = Some ck /\ fenetre e k /\
    (forall i c, fenetre e i -> lire g i = Some c -> occupee c = true -> empreinteParent c = e -> i = k) /\
    zlen (cases g') = 1024 /\ (forall c, <[Z.to_nat k := c]> (cases g') = <[Z.to_nat k := c]> (cases g)) /\
    reserve A e t A0 n /\ evictions g' = u64 (evictions g + n) /\ (forall ep, <[e := ep]> (vider ck A) = <[e := ep]> A0) /\
    ((exists ep, A !! e = Some ep /\ case_ok ck ep /\ occupee ck = true /\ empreinteParent ck = e /\ lire g' k = Some ck)
     \/ (A !! e = None /\ lire g' k = Some (case_neuve e t))).

Lemma reserve_candidat g A e t k ck : represente g A -> date_ok t -> candidat_ok g e t 8 (Some k) ->
  lire g k = Some ck -> A !! e = None ->
  exists n, reserve A e t (vider ck A) n /\
    (if occupee ck && negb (perime t (derniereVueNs ck)) then u64 (evictions g + 1) else evictions g) = u64 (evictions g + n).
Proof.
  intros Hr Ht [Hne [(i & Hi & ->) Hv]] Hck Habs. pose proof Hr as (_ & Hev & Hc & _).
  assert (evictions g = u64 (evictions g + 0)) as H0 by (rewrite Z.add_0_r, u64_id by done; done).
  unfold vider. destruct (occupee ck) eqn:Ho; [|exists 0; split; [by apply reserve_libre|done]]. cbn.
  destruct (Hc _ _ (proj1 (sonde_range e i)) Hck Ho) as (_ & ep & Hep & (Hcp & Hok & Hd & Hdeb)).
  assert (date_ok (derniereVueNs ck)) as Hdd by (rewrite Hd; apply Hok).
  destruct (perime t (derniereVueNs ck)) eqn:Hp; cbn.
  { exists 0. split; [|done]. rewrite perime_ok in Hp by done. zbool. apply (reserve_perimee _ _ _ _ ep); [done|done|lia]. }
  exists 1. split; [|done].
  destruct (voisins_vivants g A e t (fun c => derniereVueNs ck <= derniereVueNs c) Hr) as (HL1 & HL2 & HL3).
  { intros j c Hj Hl. by apply (Hv ck Hck (conj Ho Hp) j). }
  apply (reserve_eviction _ _ _ _ ep (voisins g e)); [done|done| |done|done|].
  { rewrite perime_ok in Hp by done. zbool. lia. }
  intros x (c & epx & Hx & (_ & Hokx & Hdx & _) & [_ Hpx] & Hle)%HL3. exists epx. split; [done|].
  rewrite perime_ok in Hpx by (done || (rewrite Hdx; apply Hokx)). zbool. lia.
Qed.

Lemma wp_trouver g A e t : represente g A -> date_ok t ->
  wp (trouverOuReserver g e t) (fun '(g', k) => reservation g A e t g' k).
Proof.
  intros Hr Ht. pose proof Hr as (Hz & Hev & Hc & Ha & Hu). pose proof (represente_table g A Hr) as Hg.
  unfold trouverOuReserver. apply wp_bind. eapply wp_mono; [by apply wp_sonder|]. intros [[k|]|k]; cbn; [|by intros [? _]|].
  - intros [_ Hok]. pose proof Hok as [Hne [(i & Hi & ->) _]]. apply wp_bind, wp_lire; [done|apply sonde_range|].
    intros ck Hck. pose proof (sonde_range e i) as Hk. apply wp_bind, wp_upd; [lia|]. apply wp_done.
    assert (forall k c, fenetre e k -> lire g k = Some c -> occupee c = true -> empreinteParent c <> e) as Hne'
      by (intros k c (j & Hj & ->); by apply Hne).
    assert (A !! e = None) as Habs by by apply (represente_absent g).
    destruct (reserve_candidat g A e t _ ck Hr Ht Hok Hck Habs) as (n & Hres & He).
    exists ck, (vider ck A), n. split; [done|]. split; [by exists i; split; [lia|]|].
    split; [intros i' c Hf Hl Ho Hp; by destruct (Hne' i' c)|]. split; [by cbn; rewrite zlen_insert|].
    split; [intros c; apply list_insert_insert_eq|]. split; [done|]. split; [done|]. split; [done|]. right.
    split; [done|]. rewrite lire_pose by lia. by rewrite decide_True.
  - intros (Hf & c & Hl & Ho & Hp). apply wp_done. assert (0 <= k < 1024) as Hk by (destruct Hf as (j & _ & ->); apply sonde_range).
    destruct (Hc k c) as (_ & ep & Hep & Hok); [lia|done|done|]. rewrite Hp in Hep. exists c, A, 0.
    split; [done|]. split; [done|]. split.
    { intros i d (j & _ & ->) Hld Hod Hpd. apply (Hu _ _ d c); [apply sonde_range|lia|done|done|done|done|congruence]. }
    split; [done|]. split; [done|]. split; [by eapply reserve_present|]. split; [by rewrite Z.add_0_r, u64_id|].
    split; [|left; by exists ep]. intros ep'. unfold vider. rewrite Ho, Hp. apply insert_delete_eq.
Qed.

(** * One call of [Observe] is one step of the abstract machine *)

(** The verdict read off an episode.  [sd], the returned count of sub-domains,
    is exact up to 32; past that the ring forgets, and [sd] lies between the
    number of distinct sub-domains and the number of questions. *)
Definition sous_compte (ep : list vue) (sd : Z) : Prop :=
  (distincts ep <= 32 -> sd = distincts ep) /\ Z.min 65535 (distincts ep) <= sd <= Z.min 65535 (zlen ep).

Definition condamnation (ep : list vue) (sd : Z) (classe : QNameGrammar) (qtype : Z) : option (string * string) :=
  if IsTunnelQType qtype && (2 <=? tunnels ep) then Some (IndicatorNonLDHTunnelQType, ReasonV1NonLDHTunnelQType)
  else match classe with
       | QNameGrammarBinary | QNameGrammarASCIIOutsideLDH =>
           if 3 <=? distincts ep then Some (IndicatorNonLDHBinaryBurst, ReasonV1NonLDHBinaryBurst) else None
       | QNameGrammarUTF8Local =>
           if (8 <=? distincts ep) && (9 * Z.min 65535 (zlen ep) <=? 10 * sd)
           then Some (IndicatorNonLDHUTF8UniqueBurst, ReasonV1NonLDHUTF8UniqueBurst) else None
       | _ => None
       end.

Definition verdict_de (ep : list vue) (sd : Z) (classe : QNameGrammar) (qtype : Z) : NonLDHVerdict :=
  let '(h, i, r) := match condamnation ep sd classe qtype with Some (i, r) => (true, i, r) | None => (false, ""%string, ""%string) end in
  Verdict h i r (Z.min 65535 (zlen ep)) sd.

Definition verdict_ok (ep : list vue) (classe : QNameGrammar) (qtype : Z) (v : NonLDHVerdict) : Prop :=
  exists sd, sous_compte ep sd /\ v = verdict_de ep sd classe qtype.

Lemma compteurs_sous c ep : compteurs c ep ->
  sous_compte ep (sousDistincts c) /\ (forall n, n <= 32 -> (n <=? sousDistincts c) = (n <=? distincts ep)).
Proof.
  intros (_ & _ & _ & _ & Hs & H). pose proof (distincts_borne ep).
  destruct H as [(H1 & H2 & _)|(H1 & H2 & H3 & _)].
  - split; [split; lia|]. intros n _. by rewrite H2.
  - split; [split; lia|]. intros n Hn. lia.
Qed.

Lemma decider_ok c ep classe q : compteurs c ep -> decider c classe q = verdict_de ep (sousDistincts c) classe q.
Proof.
  intros Hcp. pose proof (compteurs_sous c ep Hcp) as [[Hs1 Hs2] Hn]. destruct Hcp as (Hq & Hqt & _).
  pose proof (zlen_nonneg ep) as Hz0. pose proof (compte_pos (fun v => IsTunnelQType (v_type v)) ep) as Ht0.
  change (0 <= tunnels ep) in Ht0. assert (0 <= distincts ep) as Hd0 by apply zlen_nonneg.
  unfold decider, verdict_de, condamnation, seuilQuestionsTypeTunnel, seuilSousDistinctsSalveBinaire, seuilSousDistinctsSalveUTF8.
  rewrite (Hn 3), (Hn 8) by lia.
  rewrite !u32_id by (unfold is_u32; lia). rewrite Hqt.
  replace (2 <=? Z.min 65535 (tunnels ep)) with (2 <=? tunnels ep) by lia.
  replace (questions c * 9 <=? sousDistincts c * 10) with (9 * Z.min 65535 (zlen ep) <=? 10 * sousDistincts c) by lia.
  rewrite Hq. destruct (IsTunnelQType q && (2 <=? tunnels ep)); [done|].
  destruct classe, (3 <=? distincts ep), (8 <=? distincts ep), (9 * Z.min 65535 (zlen ep) <=? 10 * sousDistincts c); reflexivity.
Qed.

Lemma debut_cons v ep : ep <> [] -> debut (v :: ep) = debut ep.
Proof. destruct ep; [done|]. intros _. unfold debut. by rewrite last_cons_cons. Qed.

Lemma episode_neuf s q t : date_ok t -> episode_ok [Vue s q t].
Proof.
  intros Ht. split; [done|]. unfold debut, FenetreGardeNonLDHNs. cbn. split; [|split; [lia|done]].
  constructor; [cbn; lia|constructor].
Qed.

Lemma poursuivre_ok o s q t : (forall ep, o = Some ep -> episode_ok ep) -> date_ok t -> episode_ok (poursuivre o s q t).
Proof.
  intros Ho Ht. destruct o as [ep|]; [|by apply episode_neuf]. destruct (Ho ep eq_refl) as (Hne & Hall & Hw & Hd & Hv).
  cbn. assert (date_ok (Z.max t (vu ep))) as Hm by (unfold date_ok in *; lia).
  destruct (Z.ltb_spec FenetreGardeNonLDHNs (Z.max t (vu ep) - debut ep)); [by apply episode_neuf|].
  split; [done|]. rewrite debut_cons by done. cbn [vu v_date]. split; [|split; [lia|done]].
  assert (debut ep <= vu ep) as Hdv by (destruct ep as [|v ep']; [done|]; apply Forall_cons_iff in Hall as [? _]; lia).
  constructor; [cbn; lia|]. eapply Forall_impl; [exact Hall|]. cbn. intros v. lia.
Qed.

Lemma wp_ouvrir g A e t : represente g A -> date_ok t ->
  wp (ouvrir g e t) (fun '(g', k, c, t') => reservation g A e t g' k /\ occupee c = true /\ empreinteParent c = e /\
    exists ep, compteurs c ep /\ forall s q, poursuivre (A !! e) s q t = Vue s q t' :: ep /\
      debutFenetreNs c = debut (Vue s q t' :: ep)).
Proof.
  intros Hr Ht. unfold ouvrir. apply wp_bind. eapply wp_mono; [by apply wp_trouver|]. intros [g' k] H.
  pose proof H as (ck & A0 & n & Hck & Hf & _ & Hz & _ & _ & _ & _ & Hcas).
  assert (0 <= k < 1024) as Hk by (destruct Hf as (j & _ & ->); apply sonde_range).
  apply wp_bind, wp_idx; [lia|]. intros c Hc.
  destruct Hcas as [(ep & Hep & (Hcp & Hok & Hd & Hdeb) & Ho & Hp & Hl)|[Habs Hl]]; unfold lire in Hl; rewrite Hc in Hl; injection Hl as ->.
  - pose proof Hok as (Hne & Hall & Hw & Hdd & Hdv). rewrite Hep. cbn [poursuivre].
    assert ((if t <? derniereVueNs ck then derniereVueNs ck else t) = Z.max t (vu ep)) as ->
      by (rewrite Hd; destruct (Z.ltb_spec t (vu ep)); lia).
    assert (date_ok (Z.max t (vu ep))) as Hm by (unfold date_ok in *; lia).
    rewrite perime_ok, Hdeb by (done || by rewrite Hdeb). apply wp_done.
    destruct (FenetreGardeNonLDHNs <? Z.max t (vu ep) - debut ep).
    + split; [done|]. split; [done|]. split; [done|]. exists []. by split; [apply compteurs_neuve|].
    + split; [done|]. split; [done|]. split; [done|]. exists ep. split; [done|]. intros s q. split; [done|].
      by rewrite debut_cons.
  - cbn [derniereVueNs case_neuve]. unfold date_ok in Ht. destruct (Z.ltb_spec t 0); [lia|].
    cbn [debutFenetreNs case_neuve]. rewrite perime_ok by done. rewrite Z.sub_diag. apply wp_done. cbn.
    split; [done|]. split; [done|]. split; [done|]. rewrite Habs. exists []. by split; [apply compteurs_neuve|].
Qed.

(** One abstract step: room for the parent, the episode goes on, the verdict. *)
Definition etape (A : gmap Z (list vue)) (p s q t : Z) (classe : QNameGrammar) (A' : gmap Z (list vue)) (v : NonLDHVerdict) (n : Z) : Prop :=
  exists A0, reserve A p t A0 n /\ A' = <[p := poursuivre (A !! p) s q t]> A0 /\
    verdict_ok (poursuivre (A !! p) s q t) classe q v.

Lemma wp_Observe g A parent sous profil q t : represente g A -> date_ok t -> ignoree (Classe profil) = false ->
  wp (Observe g parent sous profil q t) (fun '(g', v) =>
    exists A' n, etape A (fnv64Msg parent) (fnv64Msg sous) q t (Classe profil) A' v n /\ represente g' A' /\
      evictions g' = u64 (evictions g + n)).
Proof.
  intros Hr Ht Hi. pose proof Hr as (_ & _ & Hc & Ha & _). unfold Observe. rewrite Hi.
  set (p := fnv64Msg parent). set (s := fnv64Msg sous).
  apply wp_bind. eapply wp_mono; [by apply wp_ouvrir|]. intros [[[g' k] c] t'] (H & Ho & Hp & ep & Hcp & Hep).
  destruct H as (ck & A0 & n & Hck & Hf & Hseul & Hz & Hins & Hres & Hev & HA0 & _).
  assert (0 <= k < 1024) as Hk by (destruct Hf as (j & _ & ->); apply sonde_range).
  apply wp_bind. eapply wp_mono; [by apply (wp_compter c ep s q t')|]. intros c' (Hcp' & Hp' & Hdeb & Hder & Ho').
  destruct (Hep s q) as [Hep1 Hep2].
  assert (episode_ok (poursuivre (A !! p) s q t)) as Hok.
  { apply poursuivre_ok; [|done]. intros ep0 E. destruct (Ha _ _ E) as (i & d & Hi0 & Hl & Hod & Hpd).
    destruct (Hc i d Hi0 Hl Hod) as (_ & ep1 & E1 & _ & Hok1 & _). rewrite Hpd in E1. congruence. }
  apply wp_bind, wp_upd; [lia|]. apply wp_done.
  exists (<[p := poursuivre (A !! p) s q t]> A0), n. split; [|split].
  - exists A0. split; [done|]. split; [done|]. rewrite Hep1. exists (sousDistincts c').
    split; [by apply compteurs_sous|]. by apply decider_ok.
  - rewrite Hins, <- HA0. apply (represente_pose g A p k ck); [done|rewrite Hev; apply u64_range|done|done|done| |congruence|congruence].
    rewrite Hep1 in Hok |- *. split; [done|]. split; [done|]. split; [done|congruence].
  - done.
Qed.

(** * Histories of calls *)

Record question_garde := Question {
  q_parent : list Z; q_sous : list Z; q_profil : QNameGrammarProfile; q_type : Z; q_date : Z
}.
Definition comptee (q : question_garde) : bool := negb (ignoree (Classe (q_profil q))).
Definition q_cle (q : question_garde) : Z := fnv64Msg (q_parent q).
Definition suite_de (A : gmap Z (list vue)) (q : question_garde) : list vue :=
  poursuivre (A !! q_cle q) (fnv64Msg (q_sous q)) (q_type q) (q_date q).

Fixpoint observer_tout (g : NonLDHBurstGuard) (H : list question_garde) : run (NonLDHBurstGuard * list NonLDHVerdict) :=
  match H with
  | [] => Done (g, [])
  | q :: H =>
      '(g, v) ← Observe g (q_parent q) (q_sous q) (q_profil q) (q_type q) (q_date q);
      '(g, vs) ← observer_tout g H;
      Done (g, v :: vs)
  end.

(** Executions of the abstract machine, with their number of evictions. *)
Inductive execution (A : gmap Z (list vue)) : list question_garde -> gmap Z (list vue) -> list NonLDHVerdict -> Z -> Prop :=
  | exec_fin : execution A [] A [] 0
  | exec_ignoree q H A' vs n : comptee q = false -> execution A H A' vs n -> execution A (q :: H) A' (verdict_nul :: vs) n
  | exec_pas q H A1 A' v vs n m : comptee q = true ->
      etape A (q_cle q) (fnv64Msg (q_sous q)) (q_type q) (q_date q) (Classe (q_profil q)) A1 v n ->
      execution A1 H A' vs m -> execution A (q :: H) A' (v :: vs) (n + m).

Lemma u64_somme a n m : u64 (u64 (a + n) + m) = u64 (a + (n + m)).
Proof. unfold u64. rewrite Zplus_mod_idemp_l. f_equal. lia. Qed.

Lemma wp_observer_tout H : forall g A, represente g A -> Forall (fun q => date_ok (q_date q)) H ->
  wp (observer_tout g H) (fun '(g', vs) => exists A' n, execution A H A' vs n /\ represente g' A' /\
    evictions g' = u64 (evictions g + n)).
Proof.
  induction H as [|q H IH]; intros g A Hr Hd.
  { apply wp_done. exists A, 0. split; [constructor|]. split; [done|]. rewrite Z.add_0_r, u64_id; [done|]. apply Hr. }
  apply Forall_cons_iff in Hd as [Hq Hd]. cbn [observer_tout]. apply wp_bind.
  destruct (comptee q) eqn:Hc; unfold comptee in Hc; zbool.
  - eapply wp_mono; [by apply (wp_Observe g A)|]. intros [g1 v] (A1 & n & He & Hr1 & Hev). apply wp_bind.
    eapply wp_mono; [by apply (IH g1 A1)|]. intros [g2 vs] (A2 & m & Hx & Hr2 & Hev2). apply wp_done.
    exists A2, (n + m). split; [|split; [done|by rewrite Hev2, Hev, u64_somme]].
    by apply (exec_pas A q H A1); [unfold comptee; rewrite Hc|..].
  - unfold Observe. rewrite Hc. apply wp_done, wp_bind. eapply wp_mono; [by apply (IH g A)|].
    intros [g2 vs] (A2 & m & Hx & Hr2 & Hev2). apply wp_done. exists A2, m. split; [|done].
    apply exec_ignoree; [by unfold comptee; rewrite Hc|done].
Qed.

Lemma reserve_inclus A p t A0 n e ep : reserve A p t A0 n -> A0 !! e = Some ep -> A !! e = Some ep.
Proof.
  intros [] He; try done; by apply lookup_delete_Some in He as [_ ?].
Qed.

(** ** Every episode is made of questions really asked *)

(** [v] records the question [q] of the parent [p], at its instant or, when a
    later one had been seen, at that one. *)
Definition vue_de (p : Z) (v : vue) (q : question_garde) : Prop :=
  q_cle q = p /\ comptee q = true /\ v_sous v = fnv64Msg (q_sous q) /\ v_type v = q_type q /\ q_date q <= v_date v.

(** An episode of [p]: a sub-sequence of the history, newest first, of at most 300 s. *)
Definition temoigne (p : Z) (R : list question_garde) (ep : list vue) : Prop :=
  episode_ok ep /\ exists qs, qs `sublist_of` R /\ Forall2 (vue_de p) ep qs.

Lemma temoigne_suite A R q : (forall p ep, A !! p = Some ep -> temoigne p R ep) -> comptee q = true -> date_ok (q_date q) ->
  temoigne (q_cle q) (q :: R) (suite_de A q).
Proof.
  intros HA Hc Hd. split.
  { apply poursuivre_ok; [|done]. intros ep He. by apply (HA _ _ He). }
  assert (forall t, q_date q <= t -> exists qs, qs `sublist_of` q :: R /\
    Forall2 (vue_de (q_cle q)) [Vue (fnv64Msg (q_sous q)) (q_type q) t] qs) as H1.
  { intros t Ht. exists [q]. split; [apply sublist_skip, sublist_nil_l|]. by repeat constructor. }
  unfold suite_de. destruct (A !! q_cle q) as [ep|] eqn:E; cbn [poursuivre]; [|apply H1; lia].
  destruct (_ <? _); [apply H1; lia|]. destruct (HA _ _ E) as (_ & qs & Hs & Hf). exists (q :: qs).
  split; [by apply sublist_skip|]. constructor; [|done]. split; [done|]. split; [done|]. cbn. lia.
Qed.

Lemma execution_temoigne A H A' vs n : execution A H A' vs n -> forall R,
  (forall p ep, A !! p = Some ep -> temoigne p R ep) -> Forall (fun q => date_ok (q_date q)) H ->
  length vs = length H /\ forall i q v, H !! i = Some q -> vs !! i = Some v ->
    if comptee q then exists ep, temoigne (q_cle q) (rev (take (S i) H) ++ R) ep /\ verdict_ok ep (Classe (q_profil q)) (q_type q) v
    else v = verdict_nul.
Proof.
  induction 1 as [A|A q H A' vs n Hc Hx IH|A q H A1 A' v vs n m Hc He Hx IH]; intros R HR Hd.
  - split; [done|]. intros i q v Hi. by rewrite lookup_nil in Hi.
  - apply Forall_cons_iff in Hd as [Hq Hd]. destruct (IH (q :: R)) as [Hl Hall]; [|done|].
    { intros p ep He. destruct (HR _ _ He) as (Hok & qs & Hs & Hf). split; [done|]. exists qs. split; [by apply sublist_cons|done]. }
    split; [cbn; congruence|]. intros [|i] q' v' Hq' Hv'; [injection Hq' as <-; injection Hv' as <-; by rewrite Hc|].
    specialize (Hall i q' v' Hq' Hv'). cbn [take rev]. by rewrite <- app_assoc.
  - apply Forall_cons_iff in Hd as [Hq Hd]. destruct He as (A0 & Hres & -> & Hv).
    pose proof (temoigne_suite A R q HR Hc Hq) as Hs. destruct (IH (q :: R)) as [Hl Hall]; [|done|].
    { intros p ep. destruct (decide (p = q_cle q)) as [->|Hne]; [rewrite lookup_insert_eq; by intros [= <-]|].
      rewrite lookup_insert_ne by done. intros He%(reserve_inclus _ _ _ _ _ _ _ Hres).
      destruct (HR _ _ He) as (Hok & qs & Hsub & Hf). split; [done|]. exists qs. split; [by apply sublist_cons|done]. }
    split; [cbn; congruence|]. intros [|i] q' v' Hq' Hv'.
    + injection Hq' as <-. injection Hv' as <-. rewrite Hc. by exists (suite_de A q).
    + specialize (Hall i q' v' Hq' Hv'). cbn [take rev]. by rewrite <- app_assoc.
Qed.

(** ** The unbounded guard *)









(** * The properties *)

(** The guard implements the abstract machine.  From an empty guard and for
    any sequence of calls, whatever the interleaving of parents and even when
    instants go backwards, no call panics, the table always represents exactly
    one running episode per parent it holds, every verdict is the one read off
    the running episode, and [Evictions] counts, modulo 2^64, the steps in which
    a live episode was dropped -- which only happens when eight live episodes
    fill the window of the new parent, none seen earlier than the one lost. *)
Theorem garde_raffine (g0 : NonLDHBurstGuard) (H : list question_garde) :
  Forall (fun q => date_ok (q_date q)) H ->
  wp (observer_tout (Reset g0) H) (fun '(g, vs) =>
    exists A n, execution ∅ H A vs n /\ represente g A /\ Evictions g = u64 n).
Proof.
  intros Hd. eapply wp_mono; [by apply (wp_observer_tout H garde_vide ∅ represente_vide)|].
  intros [g vs] (A & n & Hx & Hr & Hev). by exists A, n.
Qed.

Lemma condamne_motif ep sd classe q : Hostile (verdict_de ep sd classe q) = true ->
  (Indicator (verdict_de ep sd classe q) = IndicatorNonLDHTunnelQType /\ IsTunnelQType q = true /\ 2 <= tunnels ep) \/
  (Indicator (verdict_de ep sd classe q) = IndicatorNonLDHBinaryBurst /\
     (classe = QNameGrammarBinary \/ classe = QNameGrammarASCIIOutsideLDH) /\ 3 <= distincts ep) \/
  (Indicator (verdict_de ep sd classe q) = IndicatorNonLDHUTF8UniqueBurst /\ classe = QNameGrammarUTF8Local /\
     8 <= distincts ep /\ 9 * Z.min 65535 (zlen ep) <= 10 * sd).
Proof.
  unfold verdict_de, condamnation. destruct (IsTunnelQType q && (2 <=? tunnels ep)) eqn:E.
  { zbool. intros _. left. done. }
  destruct classe; cbn; try done.
  - destruct (_ <=? distincts ep) eqn:E1, (9 * _ <=? _) eqn:E2; cbn; try done. zbool. intros _. right. right. done.
  - destruct (_ <=? distincts ep) eqn:E1; cbn; [|done]. zbool. intros _. right. left. auto.
  - destruct (_ <=? distincts ep) eqn:E1; cbn; [|done]. zbool. intros _. right. left. auto.
Qed.

(** A condemnation rests on evidence.  In any run, a question whose verdict
    is hostile belongs to an episode of its parent, a sub-sequence of the
    questions asked so far spanning at most 300 s, which holds at least two
    questions of tunnel types, or at least three distinct sub-domains (for the
    binary and ASCII classes), or at least eight of them (for local UTF-8).  LDH
    names and DNS-SD instances are never condemned. *)
Theorem condamnation_fondee (g0 : NonLDHBurstGuard) (H : list question_garde) :
  Forall (fun q => date_ok (q_date q)) H ->
  wp (observer_tout (Reset g0) H) (fun '(_, vs) => length vs = length H /\
    forall i q v, H !! i = Some q -> vs !! i = Some v -> Hostile v = true ->
    comptee q = true /\ exists ep, temoigne (q_cle q) (rev (take (S i) H)) ep /\
      ((Indicator v = IndicatorNonLDHTunnelQType /\ IsTunnelQType (q_type q) = true /\ 2 <= tunnels ep) \/
       (Indicator v = IndicatorNonLDHBinaryBurst /\ 3 <= distincts ep /\
          (Classe (q_profil q) = QNameGrammarBinary \/ Classe (q_profil q) = QNameGrammarASCIIOutsideLDH)) \/
       (Indicator v = IndicatorNonLDHUTF8UniqueBurst /\ 8 <= distincts ep /\ Classe (q_profil q) = QNameGrammarUTF8Local))).
Proof.
  intros Hd. eapply wp_mono; [by apply (wp_observer_tout H garde_vide ∅ represente_vide)|].
  intros [g vs] (A & n & Hx & _). destruct (execution_temoigne _ _ _ _ _ Hx []) as [Hl Hall]; [|done|].
  { intros p ep He. by rewrite lookup_empty in He. }
  split; [done|]. intros i q v Hq Hv Hh. specialize (Hall i q v Hq Hv). rewrite app_nil_r in Hall.
  destruct (comptee q); [|by subst]. split; [done|]. destruct Hall as (ep & Hep & sd & _ & ->). exists ep. split; [done|].
  destruct (condamne_motif _ _ _ _ Hh) as [|[(? & ? & ?)|(? & ? & ? & _)]]; auto.
Qed.




(** Three binary sub-domains of one parent, one second apart, and a question of
    another parent in between. *)
Definition profil_binaire : QNameGrammarProfile := Profil QNameGrammarBinary 4 4 0 0 1 true false false false.
Definition salve : list question_garde :=
  [Question (octets "evil.example") [200; 1] profil_binaire 1 1000000000;
   Question (octets "evil.example") [200; 2] profil_binaire 1 2000000000;
   Question (octets "other.example") [200; 3] profil_binaire 1 2000000000;
   Question (octets "evil.example") [200; 3] profil_binaire 1 3000000000].

Definition hostiles (m : run (NonLDHBurstGuard * list NonLDHVerdict)) : list bool :=
  match m with Done (_, vs) => Hostile <$> vs | _ => [] end.

Lemma salve_dates : Forall (fun q => date_ok (q_date q)) salve.
Proof. by repeat constructor. Qed.

Lemma garde_raffine_witness : hostiles (observer_tout garde_vide salve) = [false; false; false; true] /\
  wp (observer_tout (Reset garde_vide) salve) (fun '(g, vs) =>
    exists A n, execution ∅ salve A vs n /\ represente g A /\ Evictions g = u64 n).
Proof. split; [vm_compute; reflexivity|]. apply garde_raffine, salve_dates. Defined.

Lemma condamnation_fondee_witness : hostiles (observer_tout garde_vide salve) = [false; false; false; true] /\
  wp (observer_tout (Reset garde_vide) salve) (fun '(_, vs) => length vs = 4%nat).
Proof.
  split; [vm_compute; reflexivity|]. eapply wp_mono; [apply (condamnation_fondee garde_vide salve salve_dates)|].
  intros [g vs] [Hl _]. exact Hl.
Defined.

(** A first question at 0 s, then three distinct sub-domains in four seconds around
    300 s: no eviction, and no condemnation. *)
Definition a_cheval : list question_garde :=
  let q s t := Question (octets "evil.example") [200; s] profil_binaire 1 (t * 1000000000) in [q 1 0; q 1 298; q 2 301; q 3 302].
Example salve_a_cheval : hostiles (observer_tout garde_vide a_cheval) = [false; false; false; false].
Proof. vm_compute. reflexivity. Qed.

