(* ===== verification/Preuve.v ===== *)
(** The forensic proof (src/internal/engine/forensic_proof.go): a decision of
    the cascade, sealed with the payload it was taken on, signed, verified and
    replayed.  Ed25519, SHA-256 and the page checksum of c2pkg are the interface
    [Primitives].  The theorems: the signed projection determines every field it
    claims to cover, the replay succeeds exactly when the checks it names hold, and a
    proof made of what the cascade decided on a payload it could read is always
    verified and replayed, whatever becomes of the arena. *)
From S2P Require Import Prelude Trame Arena Codebook Ontology Floppy Lexique Cascade Channel.

Definition ProofMagic : list Z := octets "C2PROOF1".
Definition proofCanonicalSize : nat := 230.
Definition PrivateKeySize : Z := 64.
Definition PublicKeySize : Z := 32.

Record ForensicProof := Preuve {
  PMagic : list Z;
  SeqID : Z;
  TimestampNs : Z;
  PEvent : Probe_event_t;
  FloppyFamily : Z;
  FloppyCRC32 : Z;
  PHammingDist : Z;
  DecisionStage : Z;
  VerdictAction : Z;
  PConfidenceQ8 : Z;
  POntoSubject : Z;
  POntoContext : Z;
  PayloadHash : list Z;
  SignerPubKey : list Z;
  Signature : list Z;
  PPayload : list Z
}.

Inductive erreur_preuve : Type :=
  | ErrParametres | ErrSansCharge | errProofPayloadShort | errProofPayloadLong.

(** The 128 octets of the event in memory, on a little-endian machine. *)
Definition champs_evenement (ev : Probe_event_t) : list (list Z) :=
  [le 8 (Ts_ns ev); le 4 (Pid ev); le 4 (Tid ev); le 2 (Subsystem ev); le 2 (Action ev); le 4 (Flags ev); le 8 (Src ev); Payload ev].

Definition champs_preuve (p : ForensicProof) : list (list Z) :=
  [PMagic p; le 8 (SeqID p); le 8 (TimestampNs p)] ++ champs_evenement (PEvent p) ++
  [le 2 (FloppyFamily p); le 4 (FloppyCRC32 p); le 2 (PHammingDist p); le 1 (DecisionStage p); le 1 (VerdictAction p);
   le 2 (PConfidenceQ8 p); PayloadHash p; SignerPubKey p; le 1 (POntoSubject p); le 1 (POntoContext p)].
Definition CanonicalBytes (p : ForensicProof) : list Z := concat (champs_preuve p).

(** Cryptographic primitives and the page checksum. *)
Class Primitives := {
  NewKeyFromSeed : list Z -> list Z;
  public : list Z -> list Z;
  sign : list Z -> list Z -> list Z;
  verify : list Z -> list Z -> list Z -> bool;
  sha256 : list Z -> list Z;
  page4k_crc32c : list Z -> Z
}.

(** Their documented behaviour.  A signature verifies under the public half of a key
    made of a seed, which is how every private key comes to be; other 64 octets, whose
    halves need not match, promise nothing. *)
Class LoisPrimitives `{P : Primitives} := {
  public_longueur k : length k = 64%nat -> length (public k) = 32%nat;
  sign_longueur k m : length k = 64%nat -> length (sign k m) = 64%nat;
  cle_longueur seed : length seed = 32%nat -> length (NewKeyFromSeed seed) = 64%nat;
  verify_sign seed m : length seed = 32%nat -> let k := NewKeyFromSeed seed in verify (public k) m (sign k m) = true;
  sha256_longueur m : length (sha256 m) = 32%nat;
  page4k_crc32c_ok p : zlen p = PageSize -> page4k_crc32c p = crc32_update 0 p
}.

Section preuve.
Context `{P : Primitives} `{D : Detecteurs}.
Notation disque := (FloppyDisk (RabitqCode := RabitqCode)).

Definition bindPayloadToEvent (ev : Probe_event_t) (payload : list Z) : run (option erreur_preuve) :=
  if Z.land (Flags ev) FlagLongPayload =? 0 then
    n ← inlinePayloadUsed (Payload ev);
    p ← slice (Payload ev) 0 n;
    Done (if egaux payload p then None else Some errProofPayloadShort)
  else
    l ← slice (Payload ev) 84 86;
    let length := unle l in
    if negb (zlen payload =? length) || (length <=? 96) || (PageSize <? length) then Done (Some errProofPayloadLong) else
    a ← slice payload 0 80;
    b ← slice (Payload ev) 0 80;
    if negb (egaux a b) then Done (Some errProofPayloadLong) else
    let img := copy_into (replicate (Z.to_nat PageSize) 0) payload in
    c ← slice (Payload ev) 86 90;
    Done (if page4k_crc32c img =? unle c then None else Some errProofPayloadLong).

(** [None] is a nil event. *)
Definition SignForensicProof (privKey : list Z) (seqID : Z) (ev : option Probe_event_t) (payload : list Z)
    (v : CascadeVerdict) (floppyFamily floppyCRC : Z) : run (erreur_preuve + ForensicProof) :=
  match ev with
  | None => Done (inl ErrParametres)
  | Some ev =>
      if negb (zlen privKey =? PrivateKeySize) then Done (inl ErrParametres) else
      if negb (Z.land (CFlags v) FlagArenaInvalid =? 0) then Done (inl ErrSansCharge) else
      err ← bindPayloadToEvent ev payload;
      match err with
      | Some e => Done (inl e)
      | None =>
          let proof := Preuve ProofMagic seqID (Ts_ns ev) ev floppyFamily floppyCRC (u16 (CHammingDist v)) (Stage v) (CAction v)
                         (ConfidenceQ8 v) (OntoSubject v) (OntoContext v) (sha256 payload)
                         (copy_into (replicate 32 0) (public privKey)) (replicate 64 0) payload in
          Done (inr (Preuve (PMagic proof) (SeqID proof) (TimestampNs proof) (PEvent proof) (FloppyFamily proof) (FloppyCRC32 proof)
                  (PHammingDist proof) (DecisionStage proof) (VerdictAction proof) (PConfidenceQ8 proof) (POntoSubject proof)
                  (POntoContext proof) (PayloadHash proof) (SignerPubKey proof)
                  (copy_into (replicate 64 0) (sign privKey (CanonicalBytes proof))) payload))
      end
  end.

(** [subtle.ConstantTimeCompare(a, b) == 1] is equality. *)
Definition VerifyForensicProof (trustedPubKey : list Z) (proof : option ForensicProof) : bool :=
  if negb (zlen trustedPubKey =? PublicKeySize) then false else
  match proof with
  | None => false
  | Some p =>
      if negb (egaux (PMagic p) ProofMagic) then false else
      if negb (egaux (SignerPubKey p) trustedPubKey) then false else
      if negb (egaux (sha256 (PPayload p)) (PayloadHash p)) then false else
      verify trustedPubKey (CanonicalBytes p) (Signature p)
  end.

(** Why a replay is refused, in the order of the code. *)
Inductive rejeu : Type :=
  | EntreeInvalide | PreuveRefusee | ChargeNonLiee | DisqueNonMonte | FamilleDivergente | SommeDivergente
  | ActionDivergente | EtageDivergent | MesuresDivergentes | RejeuParfait.

Definition parite_disque (disk : option disque) (p : ForensicProof) : option rejeu :=
  match disk with
  | None => if negb (FloppyFamily p =? 0) then Some DisqueNonMonte else None
  | Some d =>
      if negb (FamilyID (Header_ d) =? FloppyFamily p) then Some FamilleDivergente else
      if negb (CRC32C (Header_ d) =? FloppyCRC32 p) then Some SommeDivergente else None
  end.

Definition comparer_verdict (v : CascadeVerdict) (p : ForensicProof) : rejeu :=
  if negb (CAction v =? VerdictAction p) then ActionDivergente else
  if negb (Stage v =? DecisionStage p) then EtageDivergent else
  if negb (u16 (CHammingDist v) =? PHammingDist p) || negb (ConfidenceQ8 v =? PConfidenceQ8 p) then MesuresDivergentes
  else RejeuParfait.

Definition ReplayForensicProof (trustedPubKey : list Z) (proof : option ForensicProof) (cascade : option CascadeEngine)
  : run (bool * rejeu) :=
  match proof, cascade with
  | Some p, Some ce =>
      if negb (VerifyForensicProof trustedPubKey (Some p)) then Done (false, PreuveRefusee) else
      err ← bindPayloadToEvent (PEvent p) (PPayload p);
      match err with
      | Some _ => Done (false, ChargeNonLiee)
      | None =>
          disk ← diskFor ce (Subsystem (PEvent p));
          match parite_disque disk p with
          | Some e => Done (false, e)
          | None =>
              v ← evaluateResolved ce (PEvent p) (PPayload p) (CContext (POntoSubject p) (POntoContext p)) disk;
              match comparer_verdict v p with
              | RejeuParfait => Done (true, RejeuParfait)
              | e => Done (false, e)
              end
          end
      end
  | _, _ => Done (false, EntreeInvalide)
  end.
End preuve.

(** * The signed projection *)

Definition evenement_ok (ev : Probe_event_t) : Prop :=
  is_u64 (Ts_ns ev) /\ is_u32 (Pid ev) /\ is_u32 (Tid ev) /\ is_u16 (Subsystem ev) /\ is_u16 (Action ev) /\ is_u32 (Flags ev) /\
  is_u64 (Src ev) /\ length (Payload ev) = 96%nat.
Definition preuve_ok (p : ForensicProof) : Prop :=
  length (PMagic p) = 8%nat /\ is_u64 (SeqID p) /\ is_u64 (TimestampNs p) /\ evenement_ok (PEvent p) /\ is_u16 (FloppyFamily p) /\
  is_u32 (FloppyCRC32 p) /\ is_u16 (PHammingDist p) /\ is_u8 (DecisionStage p) /\ is_u8 (VerdictAction p) /\
  is_u16 (PConfidenceQ8 p) /\ length (PayloadHash p) = 32%nat /\ length (SignerPubKey p) = 32%nat /\
  is_u8 (POntoSubject p) /\ is_u8 (POntoContext p).

(** The proof [p] with another signature and payload: what the projection leaves out. *)
Definition avec_charge (p : ForensicProof) (signature payload : list Z) : ForensicProof :=
  Preuve (PMagic p) (SeqID p) (TimestampNs p) (PEvent p) (FloppyFamily p) (FloppyCRC32 p) (PHammingDist p) (DecisionStage p)
    (VerdictAction p) (PConfidenceQ8 p) (POntoSubject p) (POntoContext p) (PayloadHash p) (SignerPubKey p) signature payload.

Lemma concat_inj (ls ks : list (list Z)) : Forall2 (fun x y => length x = length y) ls ks -> concat ls = concat ks -> ls = ks.
Proof.
  induction 1 as [|x y ls ks Hxy _ IH]; [done|]. cbn [concat]. intros H. apply app_inj_1 in H as [-> H]; [|done].
  f_equal. by apply IH.
Qed.

Lemma le_inj n x y : 0 <= x < 256 ^ Z.of_nat n -> 0 <= y < 256 ^ Z.of_nat n -> le n x = le n y -> x = y.
Proof. intros Hx Hy H. by rewrite <- (unle_le n x), <- (unle_le n y), H. Qed.

Lemma longueurs_preuve p q : preuve_ok p -> preuve_ok q ->
  Forall2 (fun x y => length x = length y) (champs_preuve p) (champs_preuve q).
Proof.
  intros (Hm & _ & _ & (_ & _ & _ & _ & _ & _ & _ & He) & _ & _ & _ & _ & _ & _ & Hh & Hk & _)
    (Hm' & _ & _ & (_ & _ & _ & _ & _ & _ & _ & He') & _ & _ & _ & _ & _ & _ & Hh' & Hk' & _).
  unfold champs_preuve, champs_evenement. cbn [app].
  repeat (constructor; [first [by rewrite !length_le | congruence]|]). constructor.
Qed.

Lemma length_CanonicalBytes p : preuve_ok p -> length (CanonicalBytes p) = proofCanonicalSize.
Proof.
  intros (Hm & _ & _ & (_ & _ & _ & _ & _ & _ & _ & He) & _ & _ & _ & _ & _ & _ & Hh & Hk & _).
  unfold CanonicalBytes, champs_preuve, champs_evenement. cbn [app concat].
  rewrite !length_app, !length_le, Hm, He, Hh, Hk. done.
Qed.

Lemma projection_egale p q : preuve_ok p -> preuve_ok q -> CanonicalBytes p = CanonicalBytes q ->
  p = avec_charge q (Signature p) (PPayload p).
Proof.
  intros Hp Hq H. pose proof (concat_inj _ _ (longueurs_preuve p q Hp Hq) H) as E.
  destruct p as [m s t [ts pi ti su ac fl sr pl] ff fc hd ds va cq os oc ph sk sg pp].
  destruct q as [m' s' t' [ts' pi' ti' su' ac' fl' sr' pl'] ff' fc' hd' ds' va' cq' os' oc' ph' sk' sg' pp'].
  unfold champs_preuve, champs_evenement in E.
  cbn [PMagic SeqID TimestampNs PEvent FloppyFamily FloppyCRC32 PHammingDist DecisionStage VerdictAction PConfidenceQ8 POntoSubject
    POntoContext PayloadHash SignerPubKey Ts_ns Pid Tid Subsystem Action Flags Src Payload app] in E.
  unfold preuve_ok, evenement_ok, is_u64, is_u32, is_u16, is_u8 in Hp, Hq.
  cbn [PMagic SeqID TimestampNs PEvent FloppyFamily FloppyCRC32 PHammingDist DecisionStage VerdictAction PConfidenceQ8 POntoSubject
    POntoContext PayloadHash SignerPubKey Ts_ns Pid Tid Subsystem Action Flags Src Payload] in Hp, Hq.
  destruct Hp as (_ & ? & ? & (? & ? & ? & ? & ? & ? & ? & _) & ? & ? & ? & ? & ? & ? & _ & _ & ? & ?).
  destruct Hq as (_ & ? & ? & (? & ? & ? & ? & ? & ? & ? & _) & ? & ? & ? & ? & ? & ? & _ & _ & ? & ?).
  assert (Hle : forall n x y (r r' : list (list Z)), le n x :: r = le n y :: r' -> 0 <= x < 256 ^ Z.of_nat n -> 0 <= y < 256 ^ Z.of_nat n -> x = y /\ r = r').
  { intros n x y r r' Hxy Hx Hy. injection Hxy as Hxy ->. split; [by apply (le_inj n)|done]. }
  assert (Hc : forall x y (r r' : list (list Z)), x :: r = y :: r' -> x = y /\ r = r') by (intros x y r r' Hxy; by injection Hxy).
  unfold avec_charge. cbn [PMagic SeqID TimestampNs PEvent FloppyFamily FloppyCRC32 PHammingDist DecisionStage VerdictAction
    PConfidenceQ8 POntoSubject POntoContext PayloadHash SignerPubKey Signature PPayload].
  repeat match type of E with
    | le ?n _ :: _ = le ?n _ :: _ => apply Hle in E as [-> E]; [|change (256 ^ Z.of_nat n) with (256 ^ Z.of_nat n); simpl; lia..]
    | _ :: _ = _ :: _ => apply Hc in E as [-> E]
    end. done.
Qed.

(** The signature covers what it claims to cover: the projection has its 230
    octets, and two well-formed proofs have the same one exactly when they agree
    on every field but the signature and the embedded payload, of which it holds
    the SHA-256. *)
Theorem projection_injective (p q : ForensicProof) : preuve_ok p -> preuve_ok q ->
  length (CanonicalBytes p) = proofCanonicalSize /\
  (CanonicalBytes p = CanonicalBytes q <-> p = avec_charge q (Signature p) (PPayload p)).
Proof.
  intros Hp Hq. split; [by apply length_CanonicalBytes|]. split; [by apply projection_egale|]. intros ->. done.
Qed.

(** * Verification *)

Section verification.
Context `{P : Primitives}.

Lemma verifier_inv k p : VerifyForensicProof k (Some p) = true <->
  zlen k = PublicKeySize /\ PMagic p = ProofMagic /\ SignerPubKey p = k /\ sha256 (PPayload p) = PayloadHash p /\
  verify k (CanonicalBytes p) (Signature p) = true.
Proof.
  unfold VerifyForensicProof, egaux. split.
  - destruct (Z.eqb_spec (zlen k) PublicKeySize); [|done]. cbn [negb].
    destruct (bool_decide_reflect (PMagic p = ProofMagic)); [|done]. cbn [negb].
    destruct (bool_decide_reflect (SignerPubKey p = k)); [|done]. cbn [negb].
    by destruct (bool_decide_reflect (sha256 (PPayload p) = PayloadHash p)).
  - intros (-> & H1 & H2 & H3 & H4). rewrite Z.eqb_refl, !bool_decide_eq_true_2 by done. done.
Qed.
End verification.

(** * Replay *)

Section rejouer.
Context `{P : Primitives} `{D : Detecteurs}.

Lemma bind_inv {A B} (m : run A) (f : A -> run B) b : (m ≫= f) = Done b -> exists a, m = Done a /\ f a = Done b.
Proof. destruct m as [a| |]; [|done..]. intros H. by exists a. Qed.

Lemma wp_inline (buf : list Z) : wp (inlinePayloadUsed buf) (fun n => 0 <= n <= Z.min (zlen buf) 96).
Proof.
  unfold inlinePayloadUsed. pose proof (zlen_nonneg buf). apply wp_bind.
  apply (wp_for_range (fun _ (_ : unit) => True)); [lia|done| |].
  - intros i _ Hi _. apply wp_bind, wp_idx; [lia|]. intros x _. destruct (x =? 0); apply wp_done; [apply wp_done; lia|done].
  - intros _ _. apply wp_done. lia.
Qed.

Lemma bind_total ev payload : length (Payload ev) = 96%nat -> wp (bindPayloadToEvent ev payload) (fun _ => True).
Proof.
  intros Hl. assert (zlen (Payload ev) = 96) as Hz by (unfold zlen; lia). unfold bindPayloadToEvent.
  destruct (Z.land (Flags ev) FlagLongPayload =? 0).
  - apply wp_bind. eapply wp_mono; [apply wp_inline|]. intros n Hn. cbv beta in Hn. rewrite Hz in Hn.
    apply wp_bind, wp_slice; [lia|lia|]. by apply wp_done.
  - apply wp_bind, wp_slice; [lia|lia|]. set (len := unle _).
    destruct (_ || _ || _) eqn:E; [by apply wp_done|]. zbool.
    apply wp_bind, wp_slice; [lia|lia|]. apply wp_bind, wp_slice; [lia|lia|]. destruct (negb _); [by apply wp_done|].
    apply wp_bind, wp_slice; [lia|lia|]. by apply wp_done.
Qed.

Lemma comparer_parfait v p : comparer_verdict v p = RejeuParfait <->
  CAction v = VerdictAction p /\ Stage v = DecisionStage p /\ u16 (CHammingDist v) = PHammingDist p /\ ConfidenceQ8 v = PConfidenceQ8 p.
Proof.
  unfold comparer_verdict. destruct (Z.eqb_spec (CAction v) (VerdictAction p)); cbn [negb]; [|naive_solver].
  destruct (Z.eqb_spec (Stage v) (DecisionStage p)); cbn [negb]; [|naive_solver].
  destruct (Z.eqb_spec (u16 (CHammingDist v)) (PHammingDist p)); cbn [negb orb]; [|naive_solver].
  destruct (Z.eqb_spec (ConfidenceQ8 v) (PConfidenceQ8 p)); cbn [negb]; naive_solver.
Qed.

(** The disk consulted by the replay is the one the proof sealed. *)
Definition disque_scelle (disk : option (FloppyDisk (RabitqCode := RabitqCode))) (p : ForensicProof) : Prop :=
  match disk with
  | None => FloppyFamily p = 0
  | Some d => FamilyID (Header_ d) = FloppyFamily p /\ CRC32C (Header_ d) = FloppyCRC32 p
  end.

Lemma parite_ok disk p : parite_disque disk p = None <-> disque_scelle disk p.
Proof.
  unfold parite_disque, disque_scelle. destruct disk as [d|].
  - destruct (Z.eqb_spec (FamilyID (Header_ d)) (FloppyFamily p)); cbn [negb]; [|naive_solver].
    destruct (Z.eqb_spec (CRC32C (Header_ d)) (FloppyCRC32 p)); cbn [negb]; naive_solver.
  - destruct (Z.eqb_spec (FloppyFamily p) 0); cbn [negb]; naive_solver.
Qed.

(** The replay is total and its verdict exact: it reports success exactly
    when the proof verifies under the trusted key, the embedded payload is the
    one the event carries, the disk of the event's sub-system is the sealed one,
    and the cascade, given the sealed payload and context, decides the same
    action at the same layer with the same distance and confidence. *)
Theorem rejeu_exact (trusted : list Z) (p : ForensicProof) (ce : CascadeEngine) :
  length (Payload (PEvent p)) = 96%nat -> cascade_ok ce ->
  (forall s disk, diskFor ce s = Done disk -> disque_ok disk) ->
  exists b d, ReplayForensicProof trusted (Some p) (Some ce) = Done (b, d) /\
    (b = true <-> VerifyForensicProof trusted (Some p) = true /\ bindPayloadToEvent (PEvent p) (PPayload p) = Done None /\
       exists disk v, diskFor ce (Subsystem (PEvent p)) = Done disk /\ disque_scelle disk p /\
         evaluateResolved ce (PEvent p) (PPayload p) (CContext (POntoSubject p) (POntoContext p)) disk = Done v /\
         CAction v = VerdictAction p /\ Stage v = DecisionStage p /\ u16 (CHammingDist v) = PHammingDist p /\
         ConfidenceQ8 v = PConfidenceQ8 p).
Proof.
  intros He Hce Hd. unfold ReplayForensicProof.
  destruct (VerifyForensicProof trusted (Some p)) eqn:Hv; cbn [negb]; [|eexists _, _; split; [done|]; split; [done|by intros [? _]]].
  pose proof (bind_total (PEvent p) (PPayload p) He) as (err & -> & _)%wp_exists. rewrite run_bind_done.
  destruct err as [e|]; [eexists _, _; split; [done|]; split; [done|by intros (_ & ? & _)]|].
  destruct (diskFor_total ce (Subsystem (PEvent p)) Hce) as (disk & Hdisk). rewrite Hdisk, run_bind_done.
  pose proof (parite_ok disk p) as Hpar. destruct (parite_disque disk p) as [e|].
  { eexists _, _. split; [done|]. split; [done|]. intros (_ & _ & disk' & v & [= <-] & Hs & _). by apply Hpar in Hs. }
  pose proof (evaluateResolved_ok ce (PEvent p) (PPayload p) (CContext (POntoSubject p) (POntoContext p)) disk Hce (Hd _ _ Hdisk))
    as (v & Ev & _)%wp_exists. rewrite Ev, run_bind_done. pose proof (comparer_parfait v p) as Hcmp.
  destruct (comparer_verdict v p); eexists _, _; (split; [done|]); (split; [try done|]).
  all: try (intros (_ & _ & disk' & v' & [= <-] & _ & Ev' & Hm); rewrite Ev in Ev'; injection Ev' as <-; by apply Hcmp in Hm).
  intros _. split; [done|]. split; [done|]. exists disk, v. split; [done|]. split; [by apply Hpar|]. split; [done|]. by apply Hcmp.
Qed.
(** ** A decision of the cascade, sealed, verified and replayed *)

Lemma avec_action_contexte v s a f c : OntoSubject (avec_action v s a f c) = OntoSubject v /\ OntoContext (avec_action v s a f c) = OntoContext v.
Proof. done. Qed.

Lemma land_lor_hors x k m : Z.land k m = 0 -> Z.land (Z.lor x k) m = Z.land x m.
Proof. intros H. by rewrite Z.land_lor_distr_l, H, Z.lor_0_r. Qed.
(** What the layers leave as it is: the context, and the mark of an unread payload. *)
Definition conserve (cctx : CascadeContext) (ev : Probe_event_t) (v : CascadeVerdict) : Prop :=
  OntoSubject v = CSubject cctx /\ OntoContext v = CContext_ cctx /\ Z.land (CFlags v) FlagArenaInvalid = Z.land (Flags ev) FlagArenaInvalid.
Lemma conserve_action cctx ev v s a f c : Z.land f FlagArenaInvalid = 0 -> conserve cctx ev v -> conserve cctx ev (avec_action v s a f c).
Proof. intros Hf (H1 & H2 & H3). split; [done|]. split; [done|]. cbn [CFlags avec_action]. by rewrite land_lor_hors. Qed.
Lemma conserve_menace cctx ev v m d : conserve cctx ev v -> conserve cctx ev (CVerdict (Stage v) (CAction v) (CFlags v) m d (ConfidenceQ8 v) (OntoSubject v) (OntoContext v)).
Proof. done. Qed.
Ltac conserver := repeat (apply conserve_action; [done|]); first [done | apply conserve_menace; done].

(** The cascade never changes the context it was given, nor the mark of an unread
    payload once it has one. *)
Lemma contexte_conserve ce ev payload cctx disk v : evaluateResolved ce ev payload cctx disk = Done v -> conserve cctx ev v.
Proof.
  unfold evaluateResolved. cbv zeta. set (v0 := CVerdict _ _ _ _ _ _ _ _). assert (conserve cctx ev v0) as H0 by done. clearbody v0.
  intros (hit & _ & H)%bind_inv. destruct hit; [injection H as <-; conserver|].
  apply bind_inv in H as (netcat & _ & H). destruct (_ || _); [injection H as <-; conserver|].
  destruct (_ =? OntoVerdictDeny); [injection H as <-; conserver|]. destruct (_ && _); [injection H as <-; conserver|].
  destruct (ExtractResolvedTo ev payload) as [f|]; [|injection H as <-; conserver].
  apply bind_inv in H as (r & Hr & H).
  assert (forall w, r = inl w \/ r = inr w -> conserve cctx ev w) as Hw.
  { unfold couche_L1a in Hr. apply bind_inv in Hr as (sp & _ & Hr). injection Hr as <-. intros w Hw.
    destruct sp as [sp|]; [|destruct Hw as [|[= <-]]; [done|conserver]]. destruct (sonder sp f) as [vd|]; [|destruct Hw as [|[= <-]]; [done|conserver]].
    cbv zeta in Hw. destruct (_ && _) in Hw; [destruct Hw as [[= <-]|]; [conserver|done]|].
    destruct (_ =? ProbeAnomaly) in Hw; destruct Hw as [|[= <-]]; [done|conserver|done|conserver]. }
  destruct r as [w|w]; [injection H as <-; apply Hw; by left|]. specialize (Hw w (or_intror eq_refl)).
  destruct disk as [disk|]; [|injection H as <-; conserver]. unfold couche_L1b in H.
  destruct (SearchCentroid _ _ _) as [[mm dist] found]. cbv zeta in H. apply bind_inv in H as (apex & _ & H).
  destruct (PredictINT8 disk f) as [[c1 sc] k1].
  destruct found; repeat match type of H with (if ?b then _ else _) = _ => destruct b end;
    repeat match type of H with context [if ?b then avec_action _ _ _ _ _ else _] => destruct b end; injection H as <-; conserver.
Qed.

(** The arena is not consulted once the payload is resolved. *)
Lemma evaluateResolved_arene a a' F r ev payload cctx disk :
  evaluateResolved (Cascade a F r) ev payload cctx disk = evaluateResolved (Cascade a' F r) ev payload cctx disk.
Proof. done. Qed.

(** The payload of an event: the prefix a short event carries, or a deposit of
    the arena that its descriptor seals. *)
Definition charge_de (ev : Probe_event_t) (d : list Z) : Prop :=
  (Z.land (Flags ev) FlagLongPayload = 0 /\ exists n, inlinePayloadUsed (Payload ev) = Done n /\ slice (Payload ev) 0 n = Done d) \/
  (exists j, scelle ev j d /\ 96 < zlen d <= PageSize).

Lemma lier_charge `{L : !LoisPrimitives} ev d : length (Payload ev) = 96%nat -> charge_de ev d -> bindPayloadToEvent ev d = Done None.
Proof.
  intros Hl [(Hf & n & Hn & Hs)|(j & (Hf & _ & Hpre & _ & H84 & H86 & _) & Hd)]; unfold bindPayloadToEvent.
  - rewrite Hf. cbn [Z.eqb]. rewrite Hn, run_bind_done, Hs, run_bind_done. unfold egaux. by rewrite bool_decide_eq_true_2.
  - destruct (Z.eqb_spec (Z.land (Flags ev) FlagLongPayload) 0); [done|].
    assert (zlen (Payload ev) = 96) as Hz by (unfold zlen; lia).
    rewrite (slice_segment (Payload ev) 84 86), run_bind_done by lia.
    replace (unle (segment (Payload ev) (Z.to_nat 84) (Z.to_nat 86))) with (zlen d) by (symmetry; exact H84).
    cbv zeta. rewrite Z.eqb_refl. cbn [negb orb].
    destruct (Z.leb_spec (zlen d) 96); [lia|]. destruct (Z.ltb_spec PageSize (zlen d)); [lia|]. cbn [orb].
    rewrite (slice_segment d 0 80), run_bind_done, (slice_segment (Payload ev) 0 80), run_bind_done by lia.
    assert (egaux (segment d (Z.to_nat 0) (Z.to_nat 80)) (segment (Payload ev) (Z.to_nat 0) (Z.to_nat 80)) = true) as ->.
    { unfold egaux. apply bool_decide_eq_true_2. symmetry. exact Hpre. }
    cbn [negb]. rewrite (slice_segment (Payload ev) 86 90), run_bind_done by lia.
    replace (unle (segment (Payload ev) (Z.to_nat 86) (Z.to_nat 90))) with (crc_page d) by (symmetry; exact H86).
    rewrite page4k_crc32c_ok by (rewrite zlen_copy_into; by vm_compute). unfold crc_page.
    assert (copy_into (replicate (Z.to_nat PageSize) 0) d = d ++ replicate (Z.to_nat PageSize - length d) 0) as ->.
    { unfold copy_into. rewrite length_replicate, take_ge, drop_replicate by (unfold zlen in *; lia). done. }
    by rewrite Z.eqb_refl.
Qed.

(** What the cascade decided on an event is its verdict on the payload of that event. *)
Definition decision (ce : CascadeEngine) (ev : Probe_event_t) (cctx : CascadeContext) (d : list Z) : Prop :=
  (Z.land (Flags ev) FlagLongPayload = 0 /\ exists n, inlinePayloadUsed (Payload ev) = Done n /\ slice (Payload ev) 0 n = Done d) \/
  (exists deps j, arene_ok deps (arena ce) /\ zlen deps < 2 ^ 42 /\ 0 <= j /\ deps !! Z.to_nat j = Some d /\ scelle ev j d /\
     96 < zlen d <= PageSize /\ zlen deps <= j + 1024).

Lemma decision_charge ce ev cctx d : decision ce ev cctx d -> charge_de ev d.
Proof. intros [H|(deps & j & _ & _ & _ & _ & H & Hd & _)]; [by left|right; by exists j]. Qed.

Lemma decision_verdict ce ev cctx d v disk : decision ce ev cctx d -> diskFor ce (Subsystem ev) = Done disk ->
  EvaluateEventCtx ce (Some ev) cctx = Done v -> evaluateResolved ce ev d cctx disk = Done v.
Proof.
  intros Hdec Hdisk H. unfold EvaluateEventCtx in H. rewrite Hdisk, run_bind_done in H.
  destruct Hdec as [(Hf & n & Hn & Hs)|(deps & j & Hok & Hn & Hj & Hd & Hs & Hl & Hal)].
  - by rewrite Hf, Hn, run_bind_done, Hs, run_bind_done in H.
  - destruct (Z.eqb_spec (Z.land (Flags ev) FlagLongPayload) 0); [by destruct Hs|].
    pose proof (ResolvePayload_scelle deps (arena ce) ev (replicate (Z.to_nat PageSize) 0) j d Hok Hn Hs Hj Hd Hl
      ltac:(by unfold zlen; rewrite length_replicate)) as HR.
    apply wp_exists in HR as ([r dst] & HE & ->). rewrite HE, run_bind_done in H. cbn [fst] in H.
    destruct (Z.leb_spec (zlen deps) (j + 1024)); [exact H|lia].
Qed.

Definition famille (disk : option (FloppyDisk (RabitqCode := RabitqCode))) : Z := match disk with Some d => FamilyID (Header_ d) | None => 0 end.
Definition somme_disque (disk : option (FloppyDisk (RabitqCode := RabitqCode))) : Z := match disk with Some d => CRC32C (Header_ d) | None => 0 end.

(** C6: what was decided can be proved later.  When the cascade has decided an event
    that does not itself carry the mark of an unread payload -- a short one, or a long
    one whose octets the arena still held --, signing its verdict with the payload it
    was taken on and the disk in use, under a key made of a seed, gives a proof, which
    verifies under the public key, and which replays perfectly on the same disks and
    probes whatever the arena has become since -- recycled, emptied or overwritten.
    A verdict that does carry the mark is refused by the signature. *)
Theorem preuve_rejouee `{L : !LoisPrimitives} (seed : list Z) (seqID : Z) (ce : CascadeEngine) (ev : Probe_event_t)
    (cctx : CascadeContext) (d : list Z) (v : CascadeVerdict) disk :
  let privKey := NewKeyFromSeed seed in
  length seed = 32%nat -> length (Payload ev) = 96%nat -> decision ce ev cctx d ->
  diskFor ce (Subsystem ev) = Done disk -> EvaluateEventCtx ce (Some ev) cctx = Done v ->
  (Z.land (Flags ev) FlagArenaInvalid = 0 ->
   exists p, SignForensicProof privKey seqID (Some ev) d v (famille disk) (somme_disque disk) = Done (inr p) /\
    PPayload p = d /\ PEvent p = ev /\ VerdictAction p = CAction v /\
    VerifyForensicProof (public privKey) (Some p) = true /\
    forall a, ReplayForensicProof (public privKey) (Some p) (Some (Cascade a (floppies ce) (repli ce))) = Done (true, RejeuParfait)) /\
  (Z.land (Flags ev) FlagArenaInvalid <> 0 -> SignForensicProof privKey seqID (Some ev) d v (famille disk) (somme_disque disk) = Done (inl ErrSansCharge)).
Proof.
  intros privKey Hseed Hp Hdec Hdisk Hv. pose proof (cle_longueur seed Hseed) as Hk. fold privKey in Hk. pose proof (lier_charge ev d Hp (decision_charge _ _ _ _ Hdec)) as Hbind.
  pose proof (decision_verdict _ _ _ _ _ _ Hdec Hdisk Hv) as He. destruct (contexte_conserve _ _ _ _ _ _ He) as (Hs1 & Hs2 & Hs3).
  split; intros Hflag; rewrite <- Hs3 in Hflag.
  2: { unfold SignForensicProof, zlen. rewrite Hk. change (Z.of_nat 64 =? PrivateKeySize) with true. cbn [negb]. by rewrite (proj2 (Z.eqb_neq _ _)). }
  pose proof (public_longueur privKey Hk) as Hpk.
  assert (copy_into (replicate 32 0) (public privKey) = public privKey) as Ecle.
  { unfold copy_into. rewrite length_replicate, take_ge, drop_ge, app_nil_r by (rewrite ?length_replicate; lia). done. }
  set (p0 := Preuve ProofMagic seqID (Ts_ns ev) ev (famille disk) (somme_disque disk) (u16 (CHammingDist v)) (Stage v) (CAction v)
               (ConfidenceQ8 v) (OntoSubject v) (OntoContext v) (sha256 d) (public privKey) (replicate 64 0) d).
  exists (avec_charge p0 (sign privKey (CanonicalBytes p0)) d).
  assert (VerifyForensicProof (public privKey) (Some (avec_charge p0 (sign privKey (CanonicalBytes p0)) d)) = true) as Hver.
  { apply verifier_inv. split; [unfold zlen, PublicKeySize; lia|]. split; [done|]. split; [done|]. split; [done|].
    by apply (verify_sign seed). }
  split; [|split; [done|split; [done|split; [done|split; [done|]]]]].
  - unfold SignForensicProof. unfold zlen. rewrite Hk. cbn [Z.of_nat negb]. change (Z.of_nat 64 =? PrivateKeySize) with true. cbn [negb].
    rewrite Hflag. cbn [Z.eqb negb]. rewrite Hbind, run_bind_done. cbv zeta. rewrite Ecle. fold p0.
    assert (copy_into (replicate 64 0) (sign privKey (CanonicalBytes p0)) = sign privKey (CanonicalBytes p0)) as ->; [|done].
    pose proof (sign_longueur privKey (CanonicalBytes p0) Hk). unfold copy_into.
    rewrite length_replicate, take_ge, drop_ge, app_nil_r by (rewrite ?length_replicate; lia). done.
  - intros a. unfold ReplayForensicProof. rewrite Hver. cbn [negb avec_charge p0 PEvent PPayload POntoSubject POntoContext].
    rewrite Hbind, run_bind_done. change (diskFor (Cascade a (floppies ce) (repli ce)) (Subsystem ev)) with (diskFor ce (Subsystem ev)).
    rewrite Hdisk, run_bind_done.
    rewrite (proj2 (parite_ok disk _)) by (unfold disque_scelle, famille, somme_disque; by destruct disk).
    rewrite Hs1, Hs2. destruct cctx as [cs cx]. cbn [CSubject CContext_] in *.
    rewrite (evaluateResolved_arene a (arena ce)). destruct ce as [a0 F r]. cbn [arena floppies repli] in *. rewrite He, run_bind_done.
    by rewrite (proj2 (comparer_parfait v _)).
Qed.
End rejouer.

(** * Examples *)

(** Toy primitives that satisfy the laws: a private key is the seed followed by its
    complement, which is the public key; a signature repeats it, the hash is a sum. *)
Definition somme (m : list Z) : Z := fold_left (fun a x => u32 (a + x)) m 0.
Definition primitives_jouets : Primitives := {|
  NewKeyFromSeed seed := seed ++ ((fun x => 255 - x) <$> seed);
  public k := drop 32 k;
  sign k m := copy_into (replicate 64 0) (drop 32 k);
  verify pk m s := egaux (take 32 s) pk;
  sha256 m := le 32 (somme m);
  page4k_crc32c p := crc32_update 0 p
|}.

Lemma jouets_ok : @LoisPrimitives primitives_jouets.
Proof.
  split; cbn [NewKeyFromSeed public sign verify sha256 page4k_crc32c primitives_jouets].
  - intros k Hk. rewrite length_drop. lia.
  - intros k m Hk. unfold copy_into. rewrite length_app, length_take, length_drop, length_drop, !length_replicate. lia.
  - intros seed Hs. rewrite length_app, length_fmap. lia.
  - intros seed m Hs. rewrite drop_app_length' by done. unfold egaux, copy_into. apply bool_decide_eq_true_2.
    rewrite length_replicate, (take_ge (_ <$> _)) by (rewrite length_fmap; lia). apply take_app_length'. rewrite length_fmap. lia.
  - intros m. apply length_le.
  - done.
Qed.

Definition graine_exemple : list Z := replicate 32 248.
Definition evenement_exemple : Probe_event_t := Event 99 1 1 1 1 0 0 (octets "ls" ++ replicate 94 0).
Definition preuve_exemple : ForensicProof :=
  Preuve ProofMagic 5 99 evenement_exemple 0 0 0 0 0 0 0 0 (le 32 (somme (octets "ls"))) (replicate 32 7) (replicate 64 7) (octets "ls").

Lemma preuve_exemple_ok : preuve_ok preuve_exemple.
Proof. unfold preuve_ok, evenement_ok, is_u64, is_u32, is_u16, is_u8. vm_compute. repeat split; discriminate. Qed.

Lemma projection_injective_witness : preuve_ok preuve_exemple /\
  length (CanonicalBytes preuve_exemple) = proofCanonicalSize /\
  (CanonicalBytes preuve_exemple = CanonicalBytes (avec_charge preuve_exemple [] []) <->
   preuve_exemple = avec_charge (avec_charge preuve_exemple [] []) (Signature preuve_exemple) (PPayload preuve_exemple)).
Proof.
  split; [exact preuve_exemple_ok|].
  apply (projection_injective preuve_exemple (avec_charge preuve_exemple [] [])); exact preuve_exemple_ok.
Defined.

#[local] Existing Instance detecteurs_exemple.

Lemma disques_vides a s disk : diskFor (moteur_exemple a) s = Done disk -> disque_ok disk.
Proof.
  unfold diskFor. intros H. assert (disk = None) as ->; [|done].
  destruct (s =? 1); [by injection H|]. destruct (s =? 3); [by injection H|]. destruct (s =? 4); by injection H.
Qed.

(** The toy proof replays perfectly on an engine without disks. *)
Lemma rejeu_exact_witness : cascade_ok (moteur_exemple NewArenaPool) /\
  exists b d, @ReplayForensicProof primitives_jouets _ (replicate 32 7) (Some preuve_exemple) (Some (moteur_exemple NewArenaPool)) = Done (b, d) /\
    (b = true -> @VerifyForensicProof primitives_jouets (replicate 32 7) (Some preuve_exemple) = true).
Proof.
  split; [exact (moteur_exemple_ok _)|].
  destruct (@rejeu_exact primitives_jouets _ (replicate 32 7) preuve_exemple (moteur_exemple NewArenaPool)) as (b & d & H & Hi).
  - reflexivity.
  - exact (moteur_exemple_ok _).
  - exact (disques_vides NewArenaPool).
  - exists b, d. split; [exact H|]. intros Hb. exact (proj1 (proj1 Hi Hb)).
Defined.

(** The engine with the example disk mounted, and what it decides on the event. *)
Definition moteur_monte : CascadeEngine :=
  match MountFloppy (moteur_exemple NewArenaPool) 1 (Some disque_exemple) with Done ce => ce | _ => moteur_exemple NewArenaPool end.
Definition verdict_exemple : CascadeVerdict :=
  match EvaluateEventCtx moteur_monte (Some evenement_exemple) contexte_nul with Done v => v | _ => CVerdict 0 0 0 0 0 0 0 0 end.

Lemma preuve_rejouee_witness : exists p,
  @SignForensicProof primitives_jouets (@NewKeyFromSeed primitives_jouets graine_exemple) 5 (Some evenement_exemple) (octets "ls") verdict_exemple 1 0 = Done (inr p) /\
  forall a, @ReplayForensicProof primitives_jouets _ (replicate 32 7) (Some p)
    (Some (Cascade a (floppies moteur_monte) (repli moteur_monte))) = Done (true, RejeuParfait).
Proof.
  destruct (@preuve_rejouee primitives_jouets _ jouets_ok graine_exemple 5 moteur_monte evenement_exemple contexte_nul (octets "ls")
    verdict_exemple (Some disque_exemple)) as [H _]; [..|destruct H as (p & Hs & _ & _ & _ & _ & Hr)].
  - reflexivity.
  - reflexivity.
  - left. split; [reflexivity|]. exists 2. split; vm_compute; reflexivity.
  - reflexivity.
  - vm_compute. reflexivity.
  - reflexivity.
  - exists p. split; [exact Hs|exact Hr].
Defined.
