(* ===== verification/Reputation.v ===== *)
(** The compact reputation table (src/compact_reputation.go): the immutable
    binary snapshot C2DB, its validation, the dichotomic search on FNV-1a hashes,
    the walk of a name up its labels, the compiler of snapshots and the atomic
    container.  What [strings.ToLower] and [strings.TrimSpace] do to text outside
    ASCII is left to the class [Unicode], on which no law is needed.  The theorems:
    the loader accepts exactly the valid images, the search is that of a reference
    list, a compiled list decides like its entries, whatever their order. *)
From stdpp Require Import sorting.
From Stdlib Require Import Sorted.
From S2P Require Import Prelude Trame Fnv DnsName Grammaire.
Local Open Scope Z_scope.

Inductive erreur_reputation : Type := ErrCorruptSnapshot | ErrInvalidMagic.

Definition RepClassUnknown : Z := 0.
Definition RepClassAllowVendor : Z := 1.
Definition RepClassAllowTranco : Z := 2.
Definition RepClassBlockC2 : Z := 3.
Definition RepClassProtocolCrypto : Z := 4.
Definition MatchExact : Z := 1.
Definition MatchSubtree : Z := 2.
Definition CompactMagic : Z := 0x42443243.

Record CompactEntry := CEntry {
  DomainHash : Z; Offset : Z; Length : Z; Classification : Z; MatchKind : Z; CFlags : Z
}.

Record ReputationTable := Table {
  rawBytes : list Z; numEntries : Z; entriesData : list Z; stringBlock : list Z; stringPool : list Z
}.

Record MatchResult := MResult { MatchedDomain : list Z; MClassification : Z; MMatchKind : Z }.
Definition resultat_nul : MatchResult := MResult [] 0 0.

(** The two hashes are one loop over octets. *)
Definition FNV1a64 (payload : list Z) : Z := fold_left fnv_octet payload 14695981039346656037.
Definition FNV1a64String (s : list Z) : Z := fold_left fnv_octet s 14695981039346656037.

Definition validReputationClass (class : Z) : bool := (RepClassAllowVendor <=? class) && (class <=? RepClassProtocolCrypto).
Definition reputationRank (class : Z) : Z := if class =? RepClassBlockC2 then 10 else class.

(** The loop of [validReputationDomain]; [prec] is [name[i-1]]. *)
Fixpoint labels_ok (prec labelLen : Z) (l : list Z) : bool :=
  match l with
  | [] => (0 <? labelLen) && (labelLen <=? 63) && negb (prec =? 45)
  | b :: l =>
      if b =? 46 then
        if (labelLen =? 0) || (63 <? labelLen) || (prec =? 45) then false else labels_ok b 0 l
      else if negb (dnsLabelByte b) || ((b =? 45) && (labelLen =? 0)) then false
      else labels_ok b (labelLen + 1) l
  end.
Definition validReputationDomain (name : list Z) : bool :=
  if (zlen name =? 0) || (253 <? zlen name) then false else labels_ok 0 0 name.

Definition isSharedHostingDomain (name : list Z) : bool :=
  bool_decide (name ∈ octets <$> ["amazonaws.com"; "cloudfront.net"; "trafficmanager.net"; "azure.com"; "githubusercontent.com";
    "github.io"; "appspot.com"; "googleapis.com"; "akamai.net"; "akamaiedge.net"]%string).

(** ** Text *)

(** What the standard library does to a string that is not ASCII. *)
Class Unicode := {
  minuscules_etendues : list Z -> list Z;
  rogner_etendu : list Z -> list Z
}.

Definition ascii (s : list Z) : bool := forallb (fun c => c <? 128) s.
Definition espace (c : Z) : bool := (c =? 32) || ((9 <=? c) && (c <=? 13)).
Fixpoint rogner_gauche (s : list Z) : list Z :=
  match s with
  | c :: r => if espace c then rogner_gauche r else s
  | [] => []
  end.
(** [strings.HasSuffix(s, ".")] and the slice that drops the suffix. *)
Definition sans_point_final (s : list Z) : list Z :=
  match rev s with
  | 46 :: r => rev r
  | _ => s
  end.

Section texte.
Context `{U : Unicode}.
Definition ToLower (s : list Z) : list Z := if ascii s then minuscule <$> s else minuscules_etendues s.
Definition TrimSpace (s : list Z) : list Z :=
  if ascii s then rev (rogner_gauche (rev (rogner_gauche s))) else rogner_etendu s.

Definition cleanDomain (fqdn : list Z) : list Z :=
  if zlen fqdn =? 0 then [] else
  let hasUpper := existsb (fun c => (65 <=? c) && (c <=? 90)) fqdn in
  let s := if hasUpper then ToLower fqdn else fqdn in
  sans_point_final s.
End texte.

(** ** Loading *)

Definition lire_le (l : list Z) (a b : Z) : run Z := s ← slice l a b; Done (unle s).

Section chargement.
Context `{U : Unicode}.

(** One turn of the validation loop: the hash of the entry, or the refusal. *)
Definition valider_entree (entries block : list Z) (i previousHash : Z) : run (Z + erreur_reputation) :=
  let off := i * 16 in
  entryOffset ← lire_le entries (off + 8) (off + 12);
  entryLength ← idx entries (off + 12);
  if (zlen block <? entryOffset) || (u64 (zlen block - entryOffset) <? entryLength) then Done (inr ErrCorruptSnapshot) else
  name ← slice block entryOffset (entryOffset + entryLength);
  hash ← lire_le entries off (off + 8);
  class ← idx entries (off + 13);
  kind ← idx entries (off + 14);
  flags ← idx entries (off + 15);
  if negb (validReputationDomain name) || negb (egaux name (cleanDomain name)) || negb (hash =? FNV1a64String name)
     || ((0 <? i) && (hash <? previousHash)) || negb (validReputationClass class)
     || (negb (kind =? MatchExact) && negb (kind =? MatchSubtree)) || negb (flags =? 0)
  then Done (inr ErrCorruptSnapshot) else Done (inl hash).

Definition NewReputationTable (raw : list Z) : run (erreur_reputation + ReputationTable) :=
  if zlen raw <? 24 then Done (inl ErrCorruptSnapshot) else
  magic ← lire_le raw 0 4;
  if negb (magic =? CompactMagic) then Done (inl ErrInvalidMagic) else
  version ← lire_le raw 4 6;
  reserve ← slice raw 18 24;
  if negb (version =? 1) || negb (egaux reserve (replicate 6 0)) then Done (inl ErrCorruptSnapshot) else
  count64 ← lire_le raw 6 10;
  start64 ← lire_le raw 10 14;
  length64 ← lire_le raw 14 18;
  if ((zlen raw - 24) / 16 <? count64) || negb (start64 =? u64 (24 + u64 (count64 * 16))) || (zlen raw <? start64)
     || negb (length64 =? u64 (zlen raw - start64)) then Done (inl ErrCorruptSnapshot) else
  entries ← slice raw 24 (24 + count64 * 16);
  block ← slice raw start64 (start64 + length64);
  o ← for_range count64 0 (valider_entree entries block);
  match o with
  | inr e => Done (inl e)
  | inl _ => Done (inr (Table raw count64 entries block block))
  end.
End chargement.

(** ** Search *)

Definition getEntry (t : ReputationTable) (i : Z) : run CompactEntry :=
  let off := i * 16 in
  h ← lire_le (entriesData t) off (off + 8);
  o ← lire_le (entriesData t) (off + 8) (off + 12);
  n ← idx (entriesData t) (off + 12);
  c ← idx (entriesData t) (off + 13);
  k ← idx (entriesData t) (off + 14);
  f ← idx (entriesData t) (off + 15);
  Done (CEntry h o n c k f).

(** [t.stringPool[entry.Offset : entry.Offset+uint32(entry.Length)]] *)
Definition texte (t : ReputationTable) (e : CompactEntry) : run (list Z) :=
  slice (stringPool t) (Offset e) (u32 (Offset e + Length e)).

(** First index whose hash is not below [hash]. *)
Definition dichotomie (t : ReputationTable) (hash : Z) : run Z :=
  loop (fun '(low, high) =>
      if low <? high then
        let mid := low + (high - low) / 2 in
        h ← lire_le (entriesData t) (mid * 16) (mid * 16 + 8);
        Done (inl (if h <? hash then (mid + 1, high) else (low, mid)))
      else Done (inr low))
    (S (Z.to_nat (numEntries t))) (0, numEntries t).

(** One turn of the scan of the equal-hash range; [inr] is its [break]. *)
Definition retenir (t : ReputationTable) (name : list Z) (hash : Z) (exact : bool) (i : Z) (res : MatchResult)
  : run (MatchResult + MatchResult) :=
  entry ← getEntry t i;
  if negb (DomainHash entry =? hash) then Done (inr res) else
  stored ← texte t entry;
  if negb (egaux stored name)
     || (negb exact && (negb (MatchKind entry =? MatchSubtree)
                        || (isSharedHostingDomain stored && negb (Classification entry =? RepClassBlockC2))))
  then Done (inl res) else
  if (MClassification res =? 0) || (reputationRank (MClassification res) <? reputationRank (Classification entry))
     || ((Classification entry =? MClassification res) && (MatchKind entry <? MMatchKind res))
  then Done (inl (MResult stored (Classification entry) (MatchKind entry)))
  else Done (inl res).

Definition matchHash (t : ReputationTable) (name : list Z) (hash : Z) (exact : bool) : run (MatchResult * bool) :=
  low ← dichotomie t hash;
  o ← for_from (retenir t name hash exact) low (Z.to_nat (numEntries t - low)) resultat_nul;
  let res := match o with inl r => r | inr r => r end in
  Done (res, negb (MClassification res =? 0)).

(** [strings.IndexByte(s, '.')]: what follows the first dot. *)
Fixpoint apres_point (s : list Z) : option (list Z) :=
  match s with
  | [] => None
  | c :: s => if c =? 46 then Some s else apres_point s
  end.

Section recherche.
Context `{U : Unicode}.

(** [None] is a nil table. *)
Definition Match (t : option ReputationTable) (fqdn : list Z) : run (MatchResult * bool) :=
  match t with
  | None => Done (resultat_nul, false)
  | Some t =>
      if (zlen fqdn =? 0) || (numEntries t =? 0) then Done (resultat_nul, false) else
      let fqdnClean := cleanDomain fqdn in
      if negb (validReputationDomain fqdnClean) then Done (resultat_nul, false) else
      res ← loop (fun '(curr, res) =>
          r ← matchHash t curr (FNV1a64String curr) (egaux curr fqdnClean);
          let res := if r.2 && ((MClassification res =? 0)
                                || (reputationRank (MClassification res) <? reputationRank (MClassification r.1)))
                     then r.1 else res in
          match apres_point curr with
          | None => Done (inr res)
          | Some suite => if zlen suite =? 0 then Done (inr res) else Done (inl (suite, res))
          end)
        (S (length fqdnClean)) (fqdnClean, resultat_nul);
      Done (res, negb (MClassification res =? 0))
  end.
End recherche.

(** ** Enumeration *)

Record BuildEntry := Build { Domain : list Z; BClassification : Z; BMatchKind : Z }.

Definition Entries (t : ReputationTable) : run (list BuildEntry) :=
  o ← for_range (R := unit) (numEntries t) [] (fun i out =>
        e ← getEntry t i;
        if zlen (stringPool t) <? Offset e + Length e then Done (inl out) else
        d ← texte t e;
        Done (inl (out ++ [Build d (Classification e) (MatchKind e)])));
  match o with inl out => Done out | inr _ => Done [] end.

(** * Images *)

Definition coder_entree (e : CompactEntry) : list Z :=
  le 8 (DomainHash e) ++ le 4 (Offset e) ++ [Length e; Classification e; MatchKind e; CFlags e].
Definition image (es : list CompactEntry) (block : list Z) : list Z :=
  le 4 CompactMagic ++ le 2 1 ++ le 4 (zlen es) ++ le 4 (24 + 16 * zlen es) ++ le 4 (zlen block) ++ replicate 6 0
  ++ section coder_entree es ++ block.
Definition table_de (es : list CompactEntry) (block : list Z) : ReputationTable :=
  Table (image es block) (zlen es) (section coder_entree es) block block.

Definition champs_ok (e : CompactEntry) : Prop :=
  is_u64 (DomainHash e) /\ is_u32 (Offset e) /\ is_u8 (Length e) /\ is_u8 (Classification e) /\ is_u8 (MatchKind e) /\ is_u8 (CFlags e).
Definition texte_de (block : list Z) (e : CompactEntry) : list Z :=
  segment block (Z.to_nat (Offset e)) (Z.to_nat (Offset e + Length e)).

(** What an entry must be. *)
Definition entree_ok (block : list Z) (e : CompactEntry) : Prop :=
  Offset e + Length e <= zlen block /\ validReputationDomain (texte_de block e) = true /\
  DomainHash e = FNV1a64String (texte_de block e) /\ validReputationClass (Classification e) = true /\
  (MatchKind e = MatchExact \/ MatchKind e = MatchSubtree) /\ CFlags e = 0.
Definition hachages_croissants : list CompactEntry -> Prop := StronglySorted (fun a b => DomainHash a <= DomainHash b).
Definition table_ok (es : list CompactEntry) (block : list Z) : Prop :=
  Forall champs_ok es /\ Forall (entree_ok block) es /\ hachages_croissants es /\ zlen block < 2 ^ 32 /\ 24 + 16 * zlen es < 2 ^ 32.

Lemma zlen_coder e : zlen (coder_entree e) = 16.
Proof. unfold coder_entree. by rewrite !zlen_app, !zlen_le. Qed.
Lemma zlen_entrees es : zlen (section coder_entree es) = 16 * zlen es.
Proof. apply zlen_section, Forall_forall. intros e _. apply zlen_coder. Qed.

(** Sixteen octets are an entry. *)
Lemma coder_inverse l : bytes_ok l -> length l = 16%nat -> exists e, l = coder_entree e /\ champs_ok e.
Proof.
  intros Hl Hn.
  exists (CEntry (unle (segment l 0 8)) (unle (segment l 8 12)) (bget l 12) (bget l 13) (bget l 14) (bget l 15)).
  assert (forall i, 0 <= i < 16 -> is_u8 (bget l i)) as Hb.
  { intros i Hi. apply (bget_Forall is_u8 l i Hl). unfold zlen. lia. }
  split.
  - unfold coder_entree. cbn [DomainHash Offset Length Classification MatchKind CFlags].
    rewrite (le_segment l 0 8 8), (le_segment l 8 12 4) by (done || lia).
    transitivity (segment l 0 8 ++ segment l 8 12 ++ segment l 12 16).
    { rewrite segment_suivant, segment_suivant, segment_tout by lia. done. }
    do 2 f_equal. do 17 (destruct l as [|? l]; [try done|]); done.
  - unfold champs_ok. cbn [DomainHash Offset Length Classification MatchKind CFlags].
    split; [apply (unle_segment_range l 0 8 8); [done|lia..]|].
    split; [apply (unle_segment_range l 8 12 4); [done|lia..]|]. repeat split; apply Hb; lia.
Qed.

Lemma entrees_inverses n : forall l, bytes_ok l -> length l = (16 * n)%nat ->
  exists es, l = section coder_entree es /\ length es = n /\ Forall champs_ok es.
Proof.
  induction n as [|n IH]; intros l Hl Hn.
  { exists []. by destruct l. }
  destruct (coder_inverse (take 16 l)) as (e & He & Hc); [by apply bytes_ok_take|rewrite length_take; lia|].
  destruct (IH (drop 16 l)) as (es & Hes & Hlen & Hcs); [by apply bytes_ok_drop|rewrite length_drop; lia|].
  exists (e :: es). split; [|split; [cbn; lia|by constructor]].
  cbn [section foldr]. unfold section in Hes. by rewrite <- Hes, <- He, take_drop.
Qed.

(** ** Reading an entry of a section *)

Lemma lire_le_mid x y z a b : a = zlen x -> b = a + zlen y -> lire_le (x ++ y ++ z) a b = Done (unle y).
Proof. intros Ha Hb. unfold lire_le. by rewrite slice_mid. Qed.

(** The index around its [i]-th entry. *)
Lemma entree_coupe es i e : es !! i = Some e -> exists pre post, section coder_entree es = pre ++ coder_entree e ++ post /\
  zlen pre = 16 * Z.of_nat i.
Proof.
  intros Hi. exists (section coder_entree (take i es)), (section coder_entree (drop (S i) es)).
  split; [by apply section_coupe|]. rewrite zlen_entrees. unfold zlen. rewrite length_take.
  apply lookup_lt_Some in Hi. lia.
Qed.

(** The six reads of an entry. *)
Lemma lectures es i e : es !! i = Some e -> champs_ok e -> let l := section coder_entree es in let off := Z.of_nat i * 16 in
  lire_le l off (off + 8) = Done (DomainHash e) /\ lire_le l (off + 8) (off + 12) = Done (Offset e) /\
  idx l (off + 12) = Done (Length e) /\ idx l (off + 13) = Done (Classification e) /\
  idx l (off + 14) = Done (MatchKind e) /\ idx l (off + 15) = Done (CFlags e).
Proof.
  intros Hi (Hh & Ho & _) l off. destruct (entree_coupe es i e Hi) as (pre & post & Hl & Hp). unfold l. rewrite Hl. unfold coder_entree.
  assert (forall k (a : list Z) x b, k = zlen pre + 12 + zlen a ->
    idx (pre ++ (le 8 (DomainHash e) ++ le 4 (Offset e) ++ a ++ x :: b) ++ post) k = Done x) as Hidx.
  { intros k a x b ->.
    replace (pre ++ (le 8 (DomainHash e) ++ le 4 (Offset e) ++ a ++ x :: b) ++ post)
      with ((pre ++ le 8 (DomainHash e) ++ le 4 (Offset e) ++ a) ++ x :: (b ++ post)) by (by rewrite <- !app_assoc).
    apply idx_mid. rewrite !zlen_app, !zlen_le. lia. }
  split; [|split].
  - rewrite <- !app_assoc, (lire_le_mid pre (le 8 (DomainHash e))) by (rewrite ?zlen_le; lia). by rewrite unle_le.
  - rewrite <- !app_assoc, app_assoc, (lire_le_mid (pre ++ le 8 (DomainHash e)) (le 4 (Offset e))) by (rewrite ?zlen_app, ?zlen_le; lia).
    by rewrite unle_le.
  - split; [apply (Hidx _ []); rewrite zlen_nil; lia|]. split; [apply (Hidx _ [_]); rewrite !zlen_cons, zlen_nil; lia|].
    split; [apply (Hidx _ [_; _]); rewrite !zlen_cons, zlen_nil; lia|apply (Hidx _ [_; _; _]); rewrite !zlen_cons, zlen_nil; lia].
Qed.

(** A valid name is clean already: lower case, no final dot. *)
Lemma labels_ok_octets l : forall p n, labels_ok p n l = true -> Forall (fun c => c = 46 \/ dnsLabelByte c = true) l.
Proof.
  induction l as [|b l IH]; intros p n H; [constructor|]. cbn [labels_ok] in H. destruct (Z.eqb_spec b 46) as [->|].
  - destruct (_ || _); [done|]. constructor; [by left|by apply (IH 46 0)].
  - destruct (negb (dnsLabelByte b) || _) eqn:E; [done|]. apply orb_false_iff in E as [E _]. apply negb_false_iff in E.
    constructor; [by right|by apply (IH b (n + 1))].
Qed.

Lemma labels_ok_fin l : forall p n, labels_ok p n (l ++ [46]) = false.
Proof.
  induction l as [|b l IH]; intros p n; [cbn; by destruct (_ || _)|]. cbn [labels_ok app].
  destruct (b =? 46); [destruct (_ || _); [done|apply IH]|]. destruct (_ || _); [done|apply IH].
Qed.

Lemma nom_valide_octets name : validReputationDomain name = true -> name <> [] /\ zlen name <= 253 /\
  Forall (fun c => c = 46 \/ dnsLabelByte c = true) name /\ forall pre, name <> pre ++ [46].
Proof.
  unfold validReputationDomain. destruct (Z.eqb_spec (zlen name) 0), (Z.ltb_spec 253 (zlen name)); try done. cbn [orb].
  intros Hlab. split; [by intros ->|]. split; [done|]. split; [by apply labels_ok_octets in Hlab|].
  intros pre ->. by rewrite labels_ok_fin in Hlab.
Qed.

Lemma sans_point_final_id s : (forall pre, s <> pre ++ [46]) -> sans_point_final s = s.
Proof.
  intros H. unfold sans_point_final. destruct (rev s) as [|c r] eqn:E; [done|].
  assert (c <> 46) as Hc by (intros ->; apply (H (rev r)); rewrite <- (rev_involutive s), E; done).
  destruct c as [|p|p]; try done. by repeat (destruct p as [p|p|]; try done).
Qed.

Section chargement_ok.
Context `{U : Unicode}.

Lemma cleanDomain_valide name : validReputationDomain name = true -> cleanDomain name = name.
Proof.
  intros (Hne & Hl & Ho & Hp)%nom_valide_octets. unfold cleanDomain.
  destruct (Z.eqb_spec (zlen name) 0) as [E|]; [by destruct name|].
  assert (existsb (fun c => (65 <=? c) && (c <=? 90)) name = false) as ->; [|by apply sans_point_final_id].
  apply not_true_iff_false. intros (c & Hc & H)%existsb_exists. apply list_elem_of_In in Hc.
  destruct (proj1 (Forall_forall _ _) Ho c Hc) as [->|Hd]; [done|]. unfold dnsLabelByte in Hd. lia.
Qed.

(** The guard of one entry, once read. *)
Definition entree_valide (block : list Z) (e : CompactEntry) : bool :=
  (Offset e + Length e <=? zlen block) && validReputationDomain (texte_de block e) && (DomainHash e =? FNV1a64String (texte_de block e))
  && validReputationClass (Classification e) && ((MatchKind e =? MatchExact) || (MatchKind e =? MatchSubtree)) && (CFlags e =? 0).

Lemma entree_valide_ok block e : entree_valide block e = true <-> entree_ok block e.
Proof.
  unfold entree_valide, entree_ok. rewrite !andb_true_iff, orb_true_iff, !Z.eqb_eq, Z.leb_le. naive_solver.
Qed.

Lemma valider_entree_ok es block i e prev : es !! i = Some e -> champs_ok e -> zlen block < 2 ^ 32 ->
  valider_entree (section coder_entree es) block (Z.of_nat i) prev
  = Done (if entree_valide block e && negb ((0 <? Z.of_nat i) && (DomainHash e <? prev)) then inl (DomainHash e) else inr ErrCorruptSnapshot).
Proof.
  intros Hi Hc Hb. destruct (lectures es i e Hi Hc) as (R1 & R2 & R3 & R4 & R5 & R6). destruct Hc as (_ & Ho & Hl & _).
  unfold valider_entree. cbv zeta. rewrite R2, run_bind_done, R3, run_bind_done. unfold is_u32, is_u8 in *.
  destruct (Z.ltb_spec (zlen block) (Offset e)) as [H1|H1]; cbn [orb].
  { unfold entree_valide. by destruct (Z.leb_spec (Offset e + Length e) (zlen block)); [lia|]. }
  rewrite u64_id by (unfold is_u64; lia). destruct (Z.ltb_spec (zlen block - Offset e) (Length e)) as [H2|H2].
  { unfold entree_valide. by destruct (Z.leb_spec (Offset e + Length e) (zlen block)); [lia|]. }
  rewrite slice_segment by lia. change (segment block _ _) with (texte_de block e).
  rewrite run_bind_done, R1, run_bind_done, R4, run_bind_done, R5, run_bind_done, R6, run_bind_done.
  unfold entree_valide. destruct (Z.leb_spec (Offset e + Length e) (zlen block)); [|lia]. cbn [andb].
  destruct (validReputationDomain (texte_de block e)) eqn:Hv; cbn [negb orb andb]; [|done].
  rewrite (cleanDomain_valide _ Hv). unfold egaux. rewrite bool_decide_eq_true_2 by done. cbn [negb orb].
  destruct (DomainHash e =? FNV1a64String _), (validReputationClass _), (MatchKind e =? MatchExact),
    (MatchKind e =? MatchSubtree), (CFlags e =? 0), (_ && (DomainHash e <? prev)); done.
Qed.

(** The whole loop accepts the valid entries of ascending hashes. *)
Definition controle (block : list Z) (i : Z) (e : CompactEntry) (prev : Z) : run (Z + erreur_reputation) :=
  Done (if entree_valide block e && negb ((0 <? i) && (DomainHash e <? prev)) then inl (DomainHash e) else inr ErrCorruptSnapshot).
Definition suite_ok (block : list Z) (i prev : Z) (es : list CompactEntry) : Prop :=
  Forall (entree_ok block) es /\ hachages_croissants es /\ (0 < i -> Forall (fun e => prev <= DomainHash e) es).

Lemma controle_suite block es : forall i prev, 0 <= i ->
  exists o, parcourir (controle block) i es prev = Done o /\
    match o with inl _ => suite_ok block i prev es | inr e => e = ErrCorruptSnapshot /\ ~ suite_ok block i prev es end.
Proof.
  induction es as [|e es IH]; intros i prev Hi; cbn [parcourir].
  { exists (inl prev). split; [done|]. repeat split; [constructor..|intros _; constructor]. }
  unfold controle at 2. rewrite run_bind_done.
  destruct (entree_valide block e) eqn:Hv; cbn [andb]; [|exists (inr ErrCorruptSnapshot); split; [done|]; split; [done|];
    intros (H%Forall_cons_iff & _); destruct H as [H%entree_valide_ok _]; congruence].
  apply entree_valide_ok in Hv. destruct ((0 <? i) && (DomainHash e <? prev)) eqn:Hp; cbn [negb].
  { exists (inr ErrCorruptSnapshot). split; [done|]. split; [done|]. intros (_ & _ & Hs). zbool.
    specialize (Hs ltac:(lia)). apply Forall_cons_iff in Hs as [Hs _]. lia. }
  destruct (IH (i + 1) (DomainHash e) ltac:(lia)) as (o & -> & Ho). exists o. split; [done|].
  assert (suite_ok block (i + 1) (DomainHash e) es <-> suite_ok block i prev (e :: es)) as Heq; [|by destruct o; rewrite <- Heq].
  unfold suite_ok, hachages_croissants. rewrite Forall_cons_iff. split.
  - intros (H1 & H2 & H3). specialize (H3 ltac:(lia)). split; [done|]. split; [by constructor|]. intros Hpos.
    apply andb_false_iff in Hp. constructor; [lia|]. eapply Forall_impl; [exact H3|]. cbv beta. intros; lia.
  - intros ([_ H1] & H2 & _). inversion H2; subst. done.
Qed.

Lemma boucle_validation es block : Forall champs_ok es -> zlen block < 2 ^ 32 ->
  for_range (zlen es) 0 (valider_entree (section coder_entree es) block) = parcourir (controle block) 0 es 0.
Proof.
  intros Hc Hb. rewrite <- for_range_liste. unfold for_range. apply for_from_ext. intros j prev Hj. rewrite Z.add_0_l in Hj.
  assert (0 <= j < zlen es) as Hj' by (pose proof (zlen_nonneg es); lia).
  destruct (lookup_lt_is_Some_2 es (Z.to_nat j)) as [e He]; [unfold zlen in Hj'; lia|].
  rewrite (idx_lookup es j e), run_bind_done by (done || lia).
  rewrite <- (Z2Nat.id j) at 1 by lia. rewrite (valider_entree_ok es block _ e) by (done || exact (proj1 (Forall_lookup _ _) Hc _ _ He)).
  by rewrite Z2Nat.id by lia.
Qed.

Lemma lire_le_segment l a b : 0 <= a <= b -> b <= zlen l -> lire_le l a b = Done (unle (segment l (Z.to_nat a) (Z.to_nat b))).
Proof. intros Ha Hb. unfold lire_le. by rewrite slice_segment. Qed.

Lemma zlen_image es block : zlen (image es block) = 24 + 16 * zlen es + zlen block.
Proof. unfold image. rewrite !zlen_app, zlen_entrees, !zlen_le. change (zlen (replicate 6 0)) with 6. lia. Qed.

(** The fields of an image. *)
Lemma image_champs es block : 24 + 16 * zlen es < 2 ^ 32 -> zlen block < 2 ^ 32 -> let raw := image es block in
  lire_le raw 0 4 = Done CompactMagic /\ lire_le raw 4 6 = Done 1 /\ slice raw 18 24 = Done (replicate 6 0) /\
  lire_le raw 6 10 = Done (zlen es) /\ lire_le raw 10 14 = Done (24 + 16 * zlen es) /\ lire_le raw 14 18 = Done (zlen block) /\
  slice raw 24 (24 + zlen es * 16) = Done (section coder_entree es) /\
  slice raw (24 + 16 * zlen es) (24 + 16 * zlen es + zlen block) = Done block.
Proof.
  intros Hn Hb raw. unfold raw, image. pose proof (zlen_nonneg es). pose proof (zlen_nonneg block).
  assert (forall n v x z a b, a = zlen x -> b = a + Z.of_nat n -> 0 <= v < 256 ^ Z.of_nat n -> lire_le (x ++ le n v ++ z) a b = Done v) as R.
  { intros n v x z a b Ha Hab Hv. rewrite lire_le_mid by (rewrite ?zlen_le; lia). by rewrite unle_le. }
  split; [by apply (R 4%nat CompactMagic [])|].
  split; [by apply (R 2%nat 1 (le 4 CompactMagic))|].
  split; [rewrite 4 app_assoc; apply slice_mid; [by rewrite !zlen_app, !zlen_le|done]|].
  split; [rewrite app_assoc; apply (R 4%nat); [by rewrite zlen_app, !zlen_le|done|lia]|].
  split; [rewrite 2 app_assoc; apply (R 4%nat); [by rewrite !zlen_app, !zlen_le|done|lia]|].
  split; [rewrite 3 app_assoc; apply (R 4%nat); [by rewrite !zlen_app, !zlen_le|done|lia]|].
  rewrite 5 app_assoc. split; [apply slice_mid; [by rewrite !zlen_app, !zlen_le|rewrite zlen_entrees; lia]|].
  rewrite app_assoc. apply slice_fin; [|lia].
  rewrite !zlen_app, zlen_entrees, !zlen_le. change (zlen (replicate 6 0)) with 6. lia.
Qed.

Lemma Done_inj {A} {x y : A} : Done x = Done y -> x = y.
Proof. by intros [= ->]. Qed.

(** A loaded stream is an image. *)
Lemma image_inverse raw n : bytes_ok raw -> 24 <= zlen raw -> unle (segment raw 0 4) = CompactMagic -> unle (segment raw 4 6) = 1 ->
  segment raw 18 24 = replicate 6 0 -> unle (segment raw 6 10) = n -> 24 + 16 * n <= zlen raw ->
  unle (segment raw 10 14) = 24 + 16 * n -> unle (segment raw 14 18) = zlen raw - (24 + 16 * n) ->
  exists es block, raw = image es block /\ Forall champs_ok es /\ bytes_ok block /\ zlen es = n /\ zlen block = zlen raw - (24 + 16 * n).
Proof.
  intros Hb Hl Hm Hv Hr Hn Hle Hs Hk.
  assert (0 <= n) as Hn0 by (rewrite <- Hn; pose proof (unle_range _ (bytes_ok_segment raw 6 10 Hb)); lia).
  assert (24 <= length raw)%nat as Hl' by (unfold zlen in Hl; lia).
  destruct (entrees_inverses (Z.to_nat n) (segment raw 24 (24 + 16 * Z.to_nat n))) as (es & He & Hes & Hc);
    [by apply bytes_ok_segment|rewrite length_segment; unfold zlen in Hle; lia|].
  assert (zlen es = n) as Hzn by (unfold zlen; lia).
  assert (drop (24 + 16 * Z.to_nat n) raw = segment raw (24 + 16 * Z.to_nat n) (length raw)) as Hd.
  { unfold segment. rewrite take_ge; [done|]. rewrite length_drop. lia. }
  exists es, (drop (24 + 16 * Z.to_nat n) raw).
  assert (zlen (drop (24 + 16 * Z.to_nat n) raw) = zlen raw - (24 + 16 * n)) as Hzb.
  { unfold zlen in *. rewrite length_drop. lia. }
  split; [|split; [done|split; [by apply bytes_ok_drop|done]]].
  unfold image. rewrite Hzb, Hzn, <- Hk, <- Hs, <- Hm, <- Hv, <- Hr, <- He.
  rewrite <- Hn at 1. rewrite (le_segment raw 0 4 4), (le_segment raw 4 6 2), (le_segment raw 6 10 4), (le_segment raw 10 14 4),
    (le_segment raw 14 18 4) by (done || lia).
  rewrite Hd, !segment_suivant by (unfold zlen in Hle; lia). symmetry. by apply segment_tout.
Qed.

Lemma image_octets es block : Forall champs_ok es -> bytes_ok block -> bytes_ok (image es block).
Proof.
  intros Hc Hb. unfold image. repeat apply bytes_ok_app; try apply bytes_ok_le; [by apply bytes_ok_replicate| |done].
  apply bytes_ok_section. eapply Forall_impl; [exact Hc|]. intros e (_ & _ & H). unfold coder_entree.
  repeat apply bytes_ok_app; try apply bytes_ok_le. destruct H as (? & ? & ? & ?). unfold bytes_ok. by rewrite !Forall_cons_iff.
Qed.

(** An image determines its entries and its strings. *)
Lemma coder_inj a b : champs_ok a -> champs_ok b -> coder_entree a = coder_entree b -> a = b.
Proof.
  intros (Ha1 & Ha2 & _) (Hb1 & Hb2 & _). unfold coder_entree. destruct a as [h o n c k f], b as [h' o' n' c' k' f'].
  cbn [DomainHash Offset Length Classification MatchKind CFlags] in *. unfold is_u64, is_u32 in *. intros H.
  apply app_inj_1 in H as [H1 H]; [|by rewrite !length_le]. apply app_inj_1 in H as [H2 H]; [|by rewrite !length_le].
  injection H as -> -> -> ->. assert (h = h') as ->; [|assert (o = o') as ->; [|done]].
  - by rewrite <- (unle_le 8 h), <- (unle_le 8 h'), H1.
  - by rewrite <- (unle_le 4 o), <- (unle_le 4 o'), H2.
Qed.

Lemma entrees_inj es : forall fs, Forall champs_ok es -> Forall champs_ok fs -> section coder_entree es = section coder_entree fs -> es = fs.
Proof.
  induction es as [|e es IH]; intros fs He Hf H.
  { destruct fs as [|f fs]; [done|]. apply (f_equal zlen) in H. rewrite !zlen_entrees, zlen_cons in H. pose proof (zlen_nonneg fs).
    change (zlen (@nil CompactEntry)) with 0 in H. lia. }
  destruct fs as [|f fs]. { apply (f_equal zlen) in H. rewrite !zlen_entrees, zlen_cons in H. pose proof (zlen_nonneg es).
    change (zlen (@nil CompactEntry)) with 0 in H. lia. }
  apply Forall_cons_iff in He as [He Hes], Hf as [Hf Hfs]. cbn [section foldr] in H. apply app_inj_1 in H as [H1 H2].
  - apply coder_inj in H1 as ->; [|done..]. f_equal. by apply IH.
  - pose proof (zlen_coder e). pose proof (zlen_coder f). unfold zlen in *. lia.
Qed.

Lemma images_egales es es' block block' : 24 + 16 * zlen es < 2 ^ 32 -> zlen block < 2 ^ 32 -> table_ok es' block' -> Forall champs_ok es ->
  image es block = image es' block' -> es = es' /\ block = block'.
Proof.
  intros Hn Hk (Hc' & _ & _ & Hk' & Hn') Hc E. destruct (image_champs es block Hn Hk) as (_ & _ & _ & R & _ & L & S & B).
  destruct (image_champs es' block' Hn' Hk') as (_ & _ & _ & R' & _ & L' & S' & B'). cbv zeta in *. rewrite <- E in R', L', S', B'.
  rewrite R in R'. apply Done_inj in R'. rewrite L in L'. apply Done_inj in L'. rewrite <- R' in S', B'. rewrite <- L' in B'.
  rewrite S in S'. rewrite B in B'. apply Done_inj in S', B'. split; [by apply entrees_inj|done].
Qed.

(** Loading, branch by branch. *)
Lemma chargement_decide raw : bytes_ok raw -> zlen raw < 2 ^ 63 -> exists r, NewReputationTable raw = Done r /\
  match r with
  | inr t => exists es block, bytes_ok block /\ table_ok es block /\ raw = image es block /\ t = table_de es block
  | inl e => forall es block, table_ok es block -> raw <> image es block
  end.
Proof.
  intros Hb Hint. unfold NewReputationTable.
  destruct (Z.ltb_spec (zlen raw) 24) as [H1|H1].
  { eexists; split; [done|]. intros es block _ ->. rewrite zlen_image in H1. pose proof (zlen_nonneg es). pose proof (zlen_nonneg block). lia. }
  rewrite (lire_le_segment raw 0 4), run_bind_done by lia.
  assert (forall es block, table_ok es block -> raw = image es block ->
    unle (segment raw 0 4) = CompactMagic /\ unle (segment raw 4 6) = 1 /\ segment raw 18 24 = replicate 6 0 /\
    unle (segment raw 6 10) = zlen es /\ unle (segment raw 10 14) = 24 + 16 * zlen es /\ unle (segment raw 14 18) = zlen block) as Himg.
  { intros es block (_ & _ & _ & Hk & Hn) ->. destruct (image_champs es block Hn Hk) as (R1 & R2 & R3 & R4 & R5 & R6 & _).
    rewrite lire_le_segment in R1, R2, R4, R5, R6 by lia. rewrite slice_segment in R3 by lia.
    split; [exact (Done_inj R1)|]. split; [exact (Done_inj R2)|]. split; [exact (Done_inj R3)|]. split; [exact (Done_inj R4)|].
    split; [exact (Done_inj R5)|exact (Done_inj R6)]. }
  change (segment raw (Z.to_nat 0) (Z.to_nat 4)) with (segment raw 0 4).
  destruct (Z.eqb_spec (unle (segment raw 0 4)) CompactMagic) as [Hm|Hm]; cbn [negb];
    [|eexists; split; [done|]; intros es block Ht E; by destruct (Himg es block Ht E)].
  rewrite (lire_le_segment raw 4 6), run_bind_done, (slice_segment raw 18 24), run_bind_done by lia.
  change (segment raw (Z.to_nat 4) (Z.to_nat 6)) with (segment raw 4 6).
  change (segment raw (Z.to_nat 18) (Z.to_nat 24)) with (segment raw 18 24).
  destruct (_ || _) eqn:Hg.
  { eexists; split; [done|]. intros es block Ht E. destruct (Himg es block Ht E) as (_ & Hv & Hr & _). rewrite Hv, Hr in Hg.
    unfold egaux in Hg. by rewrite bool_decide_eq_true_2 in Hg. }
  apply orb_false_iff in Hg as [Hv Hr]. apply negb_false_iff in Hv, Hr. apply Z.eqb_eq in Hv. apply bool_decide_eq_true in Hr.
  rewrite (lire_le_segment raw 6 10), run_bind_done, (lire_le_segment raw 10 14), run_bind_done,
    (lire_le_segment raw 14 18), run_bind_done by lia.
  change (segment raw (Z.to_nat 6) (Z.to_nat 10)) with (segment raw 6 10).
  change (segment raw (Z.to_nat 10) (Z.to_nat 14)) with (segment raw 10 14).
  change (segment raw (Z.to_nat 14) (Z.to_nat 18)) with (segment raw 14 18).
  pose proof (unle_segment_range raw 6 10 4 Hb eq_refl ltac:(unfold zlen in H1; lia)) as Rn.
  pose proof (unle_segment_range raw 10 14 4 Hb eq_refl ltac:(unfold zlen in H1; lia)) as Rs.
  pose proof (unle_segment_range raw 14 18 4 Hb eq_refl ltac:(unfold zlen in H1; lia)) as Rk.
  change (256 ^ Z.of_nat 4) with (2 ^ 32) in *.
  set (n := unle (segment raw 6 10)) in *. set (st := unle (segment raw 10 14)) in *. set (len := unle (segment raw 14 18)) in *.
  rewrite (u64_id (n * 16)), (u64_id (24 + n * 16)) by (unfold is_u64; lia).
  destruct (_ || _) eqn:Hg.
  { eexists; split; [done|]. intros es block Ht E. destruct (Himg es block Ht E) as (_ & _ & _ & En & Es & Ek).
    rewrite E, zlen_image, En, Es, Ek in Hg. pose proof (zlen_nonneg es). pose proof (zlen_nonneg block).
    destruct Ht as (_ & _ & _ & Hk & Hn). rewrite u64_id in Hg by (unfold is_u64; lia).
    assert (zlen es <= (24 + 16 * zlen es + zlen block - 24) / 16) by (apply Z.div_le_lower_bound; lia). lia. }
  repeat (apply orb_false_iff in Hg as [Hg ?]). zbool.
  assert (n <= (zlen raw - 24) / 16) as Hn16 by lia.
  assert (24 + 16 * n <= zlen raw) as Hfit by (pose proof (Z.mul_div_le (zlen raw - 24) 16 ltac:(lia)); lia).
  rewrite u64_id in H by (unfold is_u64; lia).
  destruct (image_inverse raw n Hb H1 Hm Hv Hr eq_refl Hfit) as (es & block & E & Hc & Hbb & Hzn & Hzb); [lia|lia|].
  assert (24 + 16 * zlen es < 2 ^ 32) as Hn by lia. assert (zlen block < 2 ^ 32) as Hk by lia.
  destruct (image_champs es block Hn Hk) as (_ & _ & _ & _ & _ & _ & Se & Sb). rewrite <- E in Se, Sb.
  rewrite <- Hzn, Se, run_bind_done. replace st with (24 + 16 * zlen es) by lia. replace len with (zlen block) by lia.
  rewrite Sb, run_bind_done, (boucle_validation es block Hc Hk).
  destruct (controle_suite block es 0 0 ltac:(lia)) as (o & -> & Ho). rewrite run_bind_done. destruct o as [x|e].
  - eexists. split; [done|]. exists es, block. destruct Ho as (Ho & Hcr & _). split; [done|]. split; [done|]. split; [done|].
    unfold table_de. by rewrite <- E.
  - eexists. split; [done|]. destruct Ho as [_ Ho]. intros es' block' Ht E'. apply Ho.
    destruct (images_egales es es' block block' Hn Hk Ht) as [-> ->]; [done|by rewrite <- E|].
    destruct Ht as (_ & H3 & H4 & _). split; [done|]. split; [done|]. lia.
Qed.

(** A valid image loads as its table. *)
Lemma chargement_image es block : table_ok es block -> bytes_ok block -> NewReputationTable (image es block) = Done (inr (table_de es block)).
Proof.
  intros Ht Hb. pose proof Ht as (Hc & _ & _ & Hk & Hn). assert (bytes_ok (image es block)) as Hi by (by apply image_octets).
  assert (zlen (image es block) < 2 ^ 63) as Hl by (rewrite zlen_image; lia).
  destruct (chargement_decide _ Hi Hl) as ([e|t] & -> & H); [by destruct (H es block Ht)|]. destruct H as (es' & block' & _ & Ht' & E & ->).
  by destruct (images_egales es es' block block' Hn Hk Ht' Hc E) as [-> ->].
Qed.
End chargement_ok.

(** * Search *)

Section table.
Context (es : list CompactEntry) (block : list Z) (Hok : table_ok es block).
Notation T := (table_de es block).

Lemma table_entree i e : es !! i = Some e -> champs_ok e /\ entree_ok block e.
Proof.
  destruct Hok as (Hc & He & _). intros Hi. split; [exact (proj1 (Forall_lookup _ _) Hc _ _ Hi)|exact (proj1 (Forall_lookup _ _) He _ _ Hi)].
Qed.

Lemma getEntry_ok i e : es !! i = Some e -> getEntry T (Z.of_nat i) = Done e.
Proof.
  intros Hi. destruct (lectures es i e Hi (proj1 (table_entree i e Hi))) as (R1 & R2 & R3 & R4 & R5 & R6).
  unfold getEntry. cbn [entriesData table_de]. cbv zeta.
  rewrite R1, run_bind_done, R2, run_bind_done, R3, run_bind_done, R4, run_bind_done, R5, run_bind_done, R6, run_bind_done.
  by destruct e.
Qed.

Lemma texte_ok i e : es !! i = Some e -> texte T e = Done (texte_de block e).
Proof.
  intros Hi. destruct (table_entree i e Hi) as [(_ & Ho & Hl & _) (Hle & _)]. destruct Hok as (_ & _ & _ & Hk & _).
  unfold texte, is_u32, is_u8 in *. cbn [stringPool table_de]. rewrite u32_id by (unfold is_u32; lia). by apply slice_segment; lia.
Qed.

Lemma hachages_ordre i j a b : (i <= j)%nat -> es !! i = Some a -> es !! j = Some b -> DomainHash a <= DomainHash b.
Proof.
  destruct Hok as (_ & _ & Hs & _). intros Hij Ha Hb. destruct (decide (i = j)) as [->|]; [rewrite Ha in Hb; injection Hb as ->; lia|].
  unfold hachages_croissants in Hs. rewrite <- (take_drop_middle es j b Hb) in Hs.
  apply (StronglySorted_app_1_elem_of _ _ _ a b Hs); [|by left].
  apply list_elem_of_lookup. exists i. apply lookup_take_Some. split; [done|lia].
Qed.

(** The index found splits the table at the hash. *)
Lemma dichotomie_ok hash : exists low, dichotomie T hash = Done (Z.of_nat low) /\ (low <= length es)%nat /\
  Forall (fun e => DomainHash e < hash) (take low es) /\ Forall (fun e => hash <= DomainHash e) (drop low es).
Proof.
  assert (wp (dichotomie T hash) (fun z => 0 <= z <= zlen es /\
    (forall i e, es !! i = Some e -> Z.of_nat i < z -> DomainHash e < hash) /\
    (forall i e, es !! i = Some e -> z <= Z.of_nat i -> hash <= DomainHash e))) as H.
  { unfold dichotomie. cbn [numEntries table_de].
    apply (wp_loop _ (fun '(low, high) => 0 <= low <= high /\ high <= zlen es /\
      (forall i e, es !! i = Some e -> Z.of_nat i < low -> DomainHash e < hash) /\
      (forall i e, es !! i = Some e -> high <= Z.of_nat i -> hash <= DomainHash e)) (fun '(low, high) => high - low)).
    - intros [low high] (Hlh & Hhi & Hlo & Hup). destruct (Z.ltb_spec low high) as [Hlt|]; [|apply wp_done; split; [lia|]; split; [done|]].
      + cbv zeta. assert (low <= low + (high - low) / 2 < high) as Hm by divlia. set (mid := low + (high - low) / 2) in *.
        destruct (lookup_lt_is_Some_2 es (Z.to_nat mid)) as [e He]; [unfold zlen in Hhi; lia|].
        destruct (lectures es _ e He (proj1 (table_entree _ e He))) as (R & _). rewrite Z2Nat.id in R by lia.
        cbn [entriesData table_de]. rewrite R, run_bind_done. apply wp_done. destruct (Z.ltb_spec (DomainHash e) hash) as [Hh|Hh].
        * split; [|lia]. split; [lia|]. split; [lia|]. split; [|done]. intros i e' Hi Hlow.
          pose proof (hachages_ordre i (Z.to_nat mid) e' e ltac:(lia) Hi He). lia.
        * split; [|lia]. split; [lia|]. split; [lia|]. split; [done|]. intros i e' Hi Hlow.
          pose proof (hachages_ordre (Z.to_nat mid) i e e' ltac:(lia) He Hi). lia.
      + intros i e Hi Hle. apply (Hup i e Hi). lia.
    - pose proof (zlen_nonneg es). split; [lia|]. split; [lia|]. split; [intros; lia|]. intros i e Hi Hle. apply lookup_lt_Some in Hi.
      unfold zlen in Hle. lia.
    - pose proof (zlen_nonneg es). lia. }
  apply wp_exists in H as (z & Hz & Hr & H1 & H2). exists (Z.to_nat z). rewrite Z2Nat.id by lia. split; [done|].
  split; [unfold zlen in Hr; lia|]. split; apply Forall_lookup; intros i e Hi.
  - apply lookup_take_Some in Hi as [Hi Hlt]. apply (H1 i e Hi). lia.
  - rewrite lookup_drop in Hi. apply (H2 _ e Hi). lia.
Qed.

(** ** The scan of the equal-hash range *)

Definition regle_de (e : CompactEntry) : BuildEntry := Build (texte_de block e) (Classification e) (MatchKind e).
Definition regles : list BuildEntry := regle_de <$> es.

(** The two guards of the scan, on what an entry says. *)
Definition admise (name : list Z) (exact : bool) (b : BuildEntry) : bool :=
  egaux (Domain b) name
  && (exact || ((BMatchKind b =? MatchSubtree) && negb (isSharedHostingDomain (Domain b) && negb (BClassification b =? RepClassBlockC2)))).
Definition choisir (res : MatchResult) (b : BuildEntry) : MatchResult :=
  if (MClassification res =? 0) || (reputationRank (MClassification res) <? reputationRank (BClassification b))
     || ((BClassification b =? MClassification res) && (BMatchKind b <? MMatchKind res))
  then MResult (Domain b) (BClassification b) (BMatchKind b) else res.
Definition pas_scan (name : list Z) (exact : bool) (res : MatchResult) (b : BuildEntry) : MatchResult :=
  if admise name exact b then choisir res b else res.

Lemma retenir_rep_ok name exact i e res : es !! i = Some e ->
  retenir T name (FNV1a64String name) exact (Z.of_nat i) res
  = Done (if DomainHash e =? FNV1a64String name then inl (pas_scan name exact res (regle_de e)) else inr res).
Proof.
  intros Hi. unfold retenir. rewrite (getEntry_ok i e Hi), run_bind_done.
  destruct (DomainHash e =? FNV1a64String name); cbn [negb]; [|done]. rewrite (texte_ok i e Hi), run_bind_done.
  unfold pas_scan, admise, choisir, regle_de. cbn [Domain BClassification BMatchKind].
  destruct (egaux _ _), exact, (MatchKind e =? MatchSubtree), (isSharedHostingDomain _), (Classification e =? RepClassBlockC2);
    cbn [negb andb orb]; try done; by destruct (_ || _ || _).
Qed.

Lemma hachage_texte e name : e ∈ es -> Domain (regle_de e) = name -> DomainHash e = FNV1a64String name.
Proof.
  intros (i & Hi)%list_elem_of_lookup <-. destruct (table_entree i e Hi) as [_ (_ & _ & H & _)]. done.
Qed.

Lemma scan_inerte name exact l res : Forall (fun e => e ∈ es) l -> Forall (fun e => DomainHash e <> FNV1a64String name) l ->
  foldl (pas_scan name exact) res (regle_de <$> l) = res.
Proof.
  intros Hin. revert res. induction Hin as [|e l He _ IH]; intros res Hh; [done|]. apply Forall_cons_iff in Hh as [Hne Hh].
  cbn [fmap list_fmap foldl]. unfold pas_scan at 2. assert (admise name exact (regle_de e) = false) as ->; [|by apply IH].
  unfold admise, egaux. destruct (bool_decide_reflect (Domain (regle_de e) = name)) as [E|]; [|done].
  by destruct (Hne (hachage_texte e name He E)).
Qed.

(** A turn on the list of entries. *)
Definition tour (name : list Z) (exact : bool) (_ : Z) (e : CompactEntry) (res : MatchResult) : run (MatchResult + MatchResult) :=
  Done (if DomainHash e =? FNV1a64String name then inl (pas_scan name exact res (regle_de e)) else inr res).

Lemma parcours_scan name exact l : forall i res, Forall (fun e => e ∈ es) l -> hachages_croissants l ->
  Forall (fun e => FNV1a64String name <= DomainHash e) l ->
  exists o, parcourir (tour name exact) i l res = Done o /\
    (match o with inl r => r | inr r => r end) = foldl (pas_scan name exact) res (regle_de <$> l).
Proof.
  induction l as [|e l IH]; intros i res Hin Hs Hle; [by exists (inl res)|]. cbn [parcourir fmap list_fmap foldl].
  unfold tour at 2. rewrite run_bind_done. apply Forall_cons_iff in Hin as [He Hin], Hle as [Hle Hles].
  unfold hachages_croissants in Hs. apply StronglySorted_cons in Hs as [Hf Hs].
  destruct (Z.eqb_spec (DomainHash e) (FNV1a64String name)) as [E|E]; [by apply IH|].
  exists (inr res). split; [done|]. symmetry. change (foldl (pas_scan name exact) res (regle_de <$> (e :: l)) = res).
  apply scan_inerte; [by constructor|]. constructor; [done|]. eapply Forall_impl; [exact Hf|]. cbv beta. intros; lia.
Qed.

(** The scan is the fold over the whole table. *)
Lemma matchHash_ok name exact : let r := foldl (pas_scan name exact) resultat_nul regles in
  matchHash T name (FNV1a64String name) exact = Done (r, negb (MClassification r =? 0)).
Proof.
  destruct (dichotomie_ok (FNV1a64String name)) as (low & Hd & Hlow & Hlt & Hge). unfold matchHash. rewrite Hd, run_bind_done.
  assert (Hel : Forall (fun e => e ∈ es) es) by (by apply Forall_forall).
  assert (for_from (retenir T name (FNV1a64String name) exact) (Z.of_nat low) (Z.to_nat (numEntries T - Z.of_nat low)) resultat_nul
    = parcourir (tour name exact) (Z.of_nat low) (drop low es) resultat_nul) as ->.
  { cbn [numEntries table_de]. replace (Z.to_nat (zlen es - Z.of_nat low)) with (length (drop low es)) by (rewrite length_drop; unfold zlen; lia).
    rewrite <- (for_from_liste (tour name exact) (drop low es) (take low es)) by (unfold zlen; rewrite length_take; lia).
    rewrite take_drop. apply for_from_ext. intros j res Hj. rewrite length_drop in Hj.
    destruct (lookup_lt_is_Some_2 es (Z.to_nat j)) as [e He]; [lia|]. rewrite (idx_lookup es j e), run_bind_done by (done || lia).
    rewrite <- (Z2Nat.id j) at 1 by lia. by apply retenir_rep_ok. }
  destruct (parcours_scan name exact (drop low es) (Z.of_nat low) resultat_nul) as (o & -> & Ho);
    [by apply Forall_drop|destruct Hok as (_ & _ & Hs & _); unfold hachages_croissants in *; rewrite <- (take_drop low es) in Hs;
     by apply StronglySorted_app_1_r in Hs|done|].
  rewrite run_bind_done. cbv zeta.
  assert (foldl (pas_scan name exact) resultat_nul regles = match o with inl r => r | inr r => r end) as ->; [|done].
  rewrite Ho. unfold regles. rewrite <- (take_drop low es) at 1. rewrite fmap_app, foldl_app. f_equal.
  apply scan_inerte; [by apply Forall_take|]. eapply Forall_impl; [exact Hlt|]. cbv beta. intros; lia.
Qed.

Lemma Entries_ok : Entries T = Done regles.
Proof.
  unfold Entries. cbn [numEntries table_de].
  assert (for_range (R := unit) (zlen es) [] (fun i out => e ← getEntry T i;
        if zlen (stringPool T) <? Offset e + Length e then Done (inl out) else
        d ← texte T e; Done (inl (out ++ [Build d (Classification e) (MatchKind e)])))
    = parcourir (fun _ e out => Done (inl (out ++ [regle_de e]))) 0 es []) as ->.
  { rewrite <- for_range_liste. unfold for_range. apply for_from_ext. intros j out Hj. rewrite Z.add_0_l in Hj.
    destruct (lookup_lt_is_Some_2 es (Z.to_nat j)) as [e He]; [unfold zlen in Hj; lia|]. rewrite (idx_lookup es j e), run_bind_done by (done || lia).
    rewrite <- (Z2Nat.id j) at 1 by lia. rewrite (getEntry_ok _ e He), run_bind_done. cbn [stringPool table_de].
    destruct (table_entree _ e He) as [_ (Hle & _)]. destruct (Z.ltb_spec (zlen block) (Offset e + Length e)); [lia|].
    by rewrite (texte_ok _ e He), run_bind_done. }
  assert (forall l i out, parcourir (R := unit) (fun _ e out => Done (inl (out ++ [regle_de e]))) i l out = Done (inl (out ++ (regle_de <$> l)))) as ->.
  { induction l as [|e l IH]; intros i out; cbn [parcourir fmap list_fmap]; [by rewrite app_nil_r|]. rewrite run_bind_done, IH.
    by rewrite <- app_assoc. }
  by rewrite run_bind_done.
Qed.

Lemma regle_classe b : b ∈ regles -> 1 <= BClassification b <= 4 /\ (BMatchKind b = MatchExact \/ BMatchKind b = MatchSubtree) /\
  validReputationDomain (Domain b) = true.
Proof.
  intros (e & -> & (i & Hi)%list_elem_of_lookup)%list_elem_of_fmap. destruct (table_entree i e Hi) as [_ (_ & Hv & _ & Hc & Hk & _)].
  cbn [regle_de BClassification BMatchKind Domain]. split; [unfold validReputationClass, RepClassAllowVendor, RepClassProtocolCrypto in Hc; lia|].
  done.
Qed.
End table.

(** * What a list of entries decides on a name *)

(** The entry speaks of the name: it is its domain, or one of its parents that
    covers its sub-tree; a shared hosting domain covers its sub-tree only to deny. *)
Definition couvre (q : list Z) (b : BuildEntry) : Prop :=
  Domain b = q \/
  (BMatchKind b = MatchSubtree /\ (exists sous, q = sous ++ 46 :: Domain b) /\
   (isSharedHostingDomain (Domain b) = true -> BClassification b = RepClassBlockC2)).

(** [b] wins over [b']: by rank, then by the longer domain, then by the exact mode. *)
Definition prefere (b b' : BuildEntry) : Prop :=
  reputationRank (BClassification b') < reputationRank (BClassification b) \/
  (reputationRank (BClassification b') = reputationRank (BClassification b) /\
   (zlen (Domain b') < zlen (Domain b) \/ (zlen (Domain b') = zlen (Domain b) /\ BMatchKind b <= BMatchKind b'))).
Definition resultat (b : BuildEntry) : MatchResult := MResult (Domain b) (BClassification b) (BMatchKind b).

(** [r] is the best of the entries of [rs] that satisfy [P], or the null result. *)
Definition decision (rs : list BuildEntry) (P : BuildEntry -> Prop) (r : MatchResult) : Prop :=
  (r = resultat_nul /\ forall b, b ∈ rs -> ~ P b) \/
  (exists b, b ∈ rs /\ P b /\ r = resultat b /\ forall b', b' ∈ rs -> P b' -> prefere b b').

Definition classees (rs : list BuildEntry) : Prop := Forall (fun b => 1 <= BClassification b <= 4) rs.

Lemma rang_positif c : 1 <= c <= 4 -> 1 <= reputationRank c.
Proof. intros H. unfold reputationRank. destruct (c =? RepClassBlockC2); lia. Qed.
Lemma rang_inj c d : 1 <= c <= 4 -> 1 <= d <= 4 -> reputationRank c = reputationRank d -> c = d.
Proof. unfold reputationRank, RepClassBlockC2. intros Hc Hd. destruct (Z.eqb_spec c 3), (Z.eqb_spec d 3); lia. Qed.

Lemma decision_ext rs (P Q : BuildEntry -> Prop) r : (forall b, b ∈ rs -> (P b <-> Q b)) -> decision rs P r -> decision rs Q r.
Proof.
  intros H [[-> Hn]|(b & Hb & Hp & -> & Hbest)]; [left; split; [done|]; intros b Hb Hq; apply (Hn b Hb); by apply H|].
  right. exists b. split; [done|]. split; [by apply H|]. split; [done|]. intros b' Hb' Hq. apply Hbest; [done|]. by apply H.
Qed.

Lemma prefere_zero b : 1 <= BClassification b <= 4 -> MClassification (resultat b) =? 0 = false.
Proof. intros H. cbn [resultat MClassification]. lia. Qed.

(** The scan of one name keeps the best admissible entry. *)
Lemma scan_decide name exact rs : classees rs ->
  decision rs (fun b => admise name exact b = true) (foldl (pas_scan name exact) resultat_nul rs).
Proof.
  induction rs as [|b rs IH] using rev_ind; intros Hc; [left; split; [done|]; by intros b ?%not_elem_of_nil|].
  apply Forall_app in Hc as [Hrs Hb]. apply Forall_cons_iff in Hb as [Hb _]. specialize (IH Hrs). rewrite foldl_app. cbn [foldl].
  set (r := foldl _ _ rs) in *. unfold pas_scan. destruct (admise name exact b) eqn:Ha.
  2:{ destruct IH as [[-> Hn]|(b0 & Hb0 & Hp & -> & Hbest)]; [left; split; [done|]|right; exists b0].
      - intros b' [Hb'| ->%list_elem_of_singleton]%elem_of_app; [by apply Hn|congruence].
      - split; [apply elem_of_app; by left|]. split; [done|]. split; [done|].
        intros b' [Hb'| ->%list_elem_of_singleton]%elem_of_app; [by apply Hbest|congruence]. }
  assert (forall x, admise name exact x = true -> Domain x = name) as Hname.
  { intros x Hx. apply andb_true_iff in Hx as [Hx _]. by apply bool_decide_eq_true in Hx. }
  right. unfold choisir. destruct IH as [[-> Hn]|(b0 & Hb0 & Hp & -> & Hbest)].
  { cbn [MClassification resultat_nul]. cbn [Z.eqb orb]. exists b. split; [apply elem_of_app; right; by apply list_elem_of_singleton|].
    split; [done|]. split; [done|]. intros b' [Hb'| ->%list_elem_of_singleton]%elem_of_app Hp; [by destruct (Hn b' Hb')|].
    right. split; [done|]. right. lia. }
  pose proof (proj1 (Forall_forall _ _) Hrs b0 Hb0) as Hc0. cbv beta in Hc0. rewrite prefere_zero by done. cbn [orb MClassification MMatchKind resultat].
  destruct (_ || _) eqn:Hg.
  - exists b. split; [apply elem_of_app; right; by apply list_elem_of_singleton|]. split; [done|]. split; [done|].
    intros b' [Hb'| ->%list_elem_of_singleton]%elem_of_app Hp'; [|right; split; [done|right; lia]].
    specialize (Hbest b' Hb' Hp'). unfold prefere in *. rewrite (Hname b' Hp'), (Hname b Ha), (Hname b0 Hp) in *.
    apply orb_true_iff in Hg as [Hg|Hg]; zbool; [left; lia|]. rewrite H. lia.
  - exists b0. split; [apply elem_of_app; by left|]. split; [done|]. split; [done|].
    intros b' [Hb'| ->%list_elem_of_singleton]%elem_of_app Hp'; [by apply Hbest|].
    unfold prefere. rewrite (Hname b Ha), (Hname b0 Hp). apply orb_false_iff in Hg as [Hg1 Hg2]. zbool.
    destruct (decide (reputationRank (BClassification b) = reputationRank (BClassification b0))) as [E|]; [|left; lia].
    right. split; [done|]. right. split; [done|]. pose proof (rang_inj _ _ Hb Hc0 E) as E2. rewrite E2, Z.eqb_refl in Hg2. cbn [andb] in Hg2. zbool. lia.
Qed.

(** Results of a longer and of a shorter suffix. *)
Lemma decision_jointe rs P Q r r1 : classees rs -> (forall b b', P b -> Q b' -> zlen (Domain b') < zlen (Domain b)) ->
  decision rs P r -> decision rs Q r1 ->
  decision rs (fun b => P b \/ Q b)
    (if negb (MClassification r1 =? 0) && ((MClassification r =? 0) || (reputationRank (MClassification r) <? reputationRank (MClassification r1)))
     then r1 else r).
Proof.
  intros Hc Hlen Hp Hq.
  assert (forall b, b ∈ rs -> 1 <= BClassification b <= 4) as Hcl by (intros b Hb; exact (proj1 (Forall_forall _ _) Hc b Hb)).
  destruct Hq as [[-> Hn]|(b1 & Hb1 & Hq1 & -> & Hbest1)].
  { cbn [MClassification resultat_nul Z.eqb negb andb]. eapply decision_ext; [|exact Hp]. intros b Hb. specialize (Hn b Hb). tauto. }
  rewrite prefere_zero by (by apply Hcl). cbn [negb andb].
  destruct Hp as [[-> Hn]|(b0 & Hb0 & Hp0 & -> & Hbest0)].
  { cbn [MClassification resultat_nul Z.eqb orb]. right. exists b1. split; [done|]. split; [by right|]. split; [done|].
    intros b' Hb' [Hx|Hx]; [by destruct (Hn b' Hb')|by apply Hbest1]. }
  rewrite prefere_zero by (by apply Hcl). cbn [orb MClassification resultat]. right.
  destruct (Z.ltb_spec (reputationRank (BClassification b0)) (reputationRank (BClassification b1))) as [Hr|Hr].
  - exists b1. split; [done|]. split; [by right|]. split; [done|]. intros b' Hb' [Hx|Hx]; [|by apply Hbest1].
    specialize (Hbest0 b' Hb' Hx). unfold prefere in *. lia.
  - exists b0. split; [done|]. split; [by left|]. split; [done|]. intros b' Hb' [Hx|Hx]; [by apply Hbest0|].
    specialize (Hbest1 b' Hb' Hx). specialize (Hlen b0 b' Hp0 Hx). unfold prefere in *. lia.
Qed.

(** ** The walk up the labels *)

Lemma apres_point_spec s : match apres_point s with
  | None => 46 ∉ s
  | Some t => exists a, 46 ∉ a /\ s = a ++ 46 :: t
  end.
Proof.
  induction s as [|c s IH]; cbn [apres_point]; [apply not_elem_of_nil|]. destruct (Z.eqb_spec c 46) as [->|Hc].
  { exists []. split; [apply not_elem_of_nil|done]. }
  destruct (apres_point s) as [t|].
  - destruct IH as (a & Ha & ->). exists (c :: a). split; [|done]. by apply not_elem_of_cons.
  - by apply not_elem_of_cons.
Qed.

(** [t] is [q] or what follows one of its dots. *)
Definition suffixe (q t : list Z) : Prop := q = t \/ exists sous, q = sous ++ 46 :: t.

Lemma couvre_suffixe q b : couvre q b -> suffixe q (Domain b).
Proof. intros [H|(_ & H & _)]; [left; done|by right]. Qed.

Lemma suffixe_trans q s t : suffixe q s -> suffixe s t -> suffixe q t.
Proof.
  intros [->|(a & ->)] [->|(c & ->)]; [by left|right; by exists c|right; by exists a|right].
  exists (a ++ 46 :: c). by rewrite <- app_assoc.
Qed.

(** Two suffixes are nested. *)
Lemma suffixe_emboite q s t : suffixe q s -> suffixe q t -> zlen t < zlen s -> exists a, s = a ++ 46 :: t.
Proof.
  intros Hs Ht Hlt.
  assert (exists x, q = x ++ s) as (x & Hx) by (destruct Hs as [->|(a & ->)]; [by exists []|exists (a ++ [46]); by rewrite <- app_assoc]).
  destruct Ht as [->|(y & Hy)]; [subst; rewrite zlen_app in Hlt; pose proof (zlen_nonneg x); lia|].
  rewrite Hx in Hy. apply app_eq_inv in Hy as [(k & _ & Hk)|(k & _ & ->)]; [|by exists k].
  destruct k as [|c k]; [by exists []|]. injection Hk as -> Hk. subst t. rewrite zlen_app in Hlt. pose proof (zlen_nonneg k). lia.
Qed.

Lemma suffixe_egal q s t : suffixe q s -> suffixe q t -> zlen t = zlen s -> t = s.
Proof.
  intros Hs Ht He.
  assert (forall r, suffixe q r -> exists x, q = x ++ r) as H by (intros r [->|(a & ->)]; [by exists []|exists (a ++ [46]); by rewrite <- app_assoc]).
  destruct (H s Hs) as (x & Hx), (H t Ht) as (y & Hy). rewrite Hx in Hy. apply app_inj_2 in Hy as [_ Hy]; [done|].
  unfold zlen in He. lia.
Qed.

(** After the first dot come all the shorter suffixes. *)
Lemma suffixe_suivant s t : zlen t < zlen s -> suffixe s t ->
  exists r, apres_point s = Some r /\ zlen t <= zlen r.
Proof.
  intros Hlt [->|(a & ->)]; [lia|]. pose proof (apres_point_spec (a ++ 46 :: t)) as H. destruct (apres_point _) as [r|].
  - exists r. split; [done|]. destruct H as (c & Hc & E). apply app_eq_inv in E as [(k & -> & E)|(k & -> & E)].
    + destruct k as [|x k]; [injection E as ->; lia|]. injection E as _ ->. rewrite zlen_app, zlen_cons. pose proof (zlen_nonneg k). lia.
    + destruct k as [|x k]; [injection E as ->; lia|]. injection E as <- _. exfalso. apply Hc, elem_of_app. right. by left.
  - exfalso. apply H, elem_of_app. right. by left.
Qed.

Section marche.
Context `{U : Unicode} (es : list CompactEntry) (block : list Z) (Hok : table_ok es block).
Notation T := (table_de es block).
Notation rs := (regles es block).

Lemma regles_classees : classees rs.
Proof. apply Forall_forall. intros b Hb. by destruct (regle_classe es block Hok b Hb). Qed.

(** What the scan of one suffix decides. *)
Lemma admise_couvre q curr b : suffixe q curr ->
  (admise curr (egaux curr q) b = true <-> couvre q b /\ Domain b = curr).
Proof.
  intros Hs. unfold admise, egaux. rewrite andb_true_iff, bool_decide_eq_true, orb_true_iff, bool_decide_eq_true, andb_true_iff, Z.eqb_eq.
  split.
  - intros [Hd H]. split; [|done]. destruct H as [H|[Hk Hsh]]; [left; congruence|].
    destruct Hs as [Hs|Hs]; [left; congruence|]. right. split; [done|]. rewrite Hd in *. split; [done|]. intros E. rewrite E in Hsh. cbn [andb] in Hsh. zbool. done.
  - intros [[H|(Hk & _ & Hsh)] Hd]; (split; [done|]); [left; congruence|]. right. split; [done|].
    destruct (isSharedHostingDomain (Domain b)); [|done]. by rewrite (Hsh eq_refl), Z.eqb_refl.
Qed.

Lemma Match_decide fqdn : exists res, Match (Some T) fqdn = Done (res, negb (MClassification res =? 0)) /\
  (if validReputationDomain (cleanDomain fqdn) then decision rs (couvre (cleanDomain fqdn)) res else res = resultat_nul).
Proof.
  unfold Match. cbn [numEntries table_de].
  destruct (Z.eqb_spec (zlen fqdn) 0) as [E|_]; cbn [orb].
  { exists resultat_nul. split; [done|]. by destruct fqdn. }
  destruct (Z.eqb_spec (zlen es) 0) as [E|_].
  { exists resultat_nul. split; [done|]. destruct (validReputationDomain _); [|done]. left. split; [done|]. intros b Hb.
    destruct es; [by apply not_elem_of_nil in Hb|]. rewrite zlen_cons in E. pose proof (zlen_nonneg l). lia. }
  set (q := cleanDomain fqdn). destruct (validReputationDomain q); cbn [negb]; [|by exists resultat_nul].
  match goal with |- exists res, (?m ≫= _) = _ /\ _ => cut (wp m (fun res => decision rs (couvre q) res)) end.
  { intros (res & -> & H)%wp_exists. by exists res. }
  apply (wp_loop _ (fun '(curr, res) => suffixe q curr /\ decision rs (fun b => couvre q b /\ zlen curr < zlen (Domain b)) res)
    (fun '(curr, _) => zlen curr)).
  - intros [curr res] [Hs Hres]. rewrite (matchHash_ok es block Hok), run_bind_done. cbn [fst snd].
    pose proof (scan_decide curr (egaux curr q) rs regles_classees) as Hk. set (r := foldl _ _ _) in *.
    assert (forall b b', couvre q b /\ zlen curr < zlen (Domain b) -> admise curr (egaux curr q) b' = true -> zlen (Domain b') < zlen (Domain b)) as Hlen.
    { intros b b' [_ Hl] Ha. apply (admise_couvre q curr b' Hs) in Ha as [_ ->]. done. }
    pose proof (decision_jointe rs _ _ res r regles_classees Hlen Hres Hk) as Hj.
    set (res' := if _ && _ then r else res) in *.
    assert (forall b, b ∈ rs -> couvre q b -> zlen curr <= zlen (Domain b) -> (couvre q b /\ zlen curr < zlen (Domain b)) \/ admise curr (egaux curr q) b = true) as Hall.
    { intros b _ Hb Hle. destruct (decide (zlen curr = zlen (Domain b))) as [E|]; [right|left; split; [done|lia]].
      apply admise_couvre; [done|]. split; [done|]. apply (suffixe_egal q); [done|by apply couvre_suffixe|done]. }
    assert (forall b, b ∈ rs -> admise curr (egaux curr q) b = true -> couvre q b /\ zlen curr = zlen (Domain b)) as Hadm.
    { intros b _ Ha. apply (admise_couvre q curr b Hs) in Ha as [Hb ->]. done. }
    pose proof (apres_point_spec curr) as Hap. destruct (apres_point curr) as [suite|] eqn:Esuite.
    + destruct Hap as (a & _ & Ec). assert (zlen suite < zlen curr) as Hlt by (rewrite Ec, zlen_app, zlen_cons; pose proof (zlen_nonneg a); lia).
      assert (forall b, b ∈ rs -> couvre q b -> zlen suite < zlen (Domain b) -> zlen curr <= zlen (Domain b)) as Hgap.
      { intros b _ Hb Hsu. destruct (Z.le_gt_cases (zlen curr) (zlen (Domain b))) as [|Hgt]; [done|].
        destruct (suffixe_suivant curr (Domain b) Hgt) as (r0 & Er & Hle); [right; apply (suffixe_emboite q); [done|by apply couvre_suffixe|lia]|].
        rewrite Esuite in Er. injection Er as <-. lia. }
      destruct (Z.eqb_spec (zlen suite) 0) as [E0|E0]; apply wp_done.
      * eapply decision_ext; [|exact Hj]. intros b Hb. split; [intros [[H _]|H]; [done|by destruct (Hadm b Hb H)]|]. intros H.
        apply Hall; [done..|]. apply Hgap; [done..|]. rewrite E0. destruct (regle_classe es block Hok b Hb) as (_ & _ & (Hne & _)%nom_valide_octets).
        destruct (Domain b); [done|]. rewrite zlen_cons. pose proof (zlen_nonneg l). lia.
      * split; [split; [apply (suffixe_trans q curr); [done|right; by exists a]|]|pose proof (zlen_nonneg suite); lia].
        eapply decision_ext; [|exact Hj]. intros b Hb. cbv beta. split.
        -- intros [[H Hl]|H]; [split; [done|lia]|]. destruct (Hadm b Hb H) as [H1 H2]. split; [done|lia].
        -- intros [H Hl]. apply Hall; [done..|]. by apply Hgap.
    + apply wp_done. eapply decision_ext; [|exact Hj]. intros b Hb. split; [intros [[H _]|H]; [done|by destruct (Hadm b Hb H)]|]. intros H.
      apply Hall; [done..|]. destruct (Z.le_gt_cases (zlen curr) (zlen (Domain b))) as [|Hgt]; [done|].
      destruct (suffixe_suivant curr (Domain b) Hgt) as (r0 & Er & _); [right; apply (suffixe_emboite q); [done|by apply couvre_suffixe|lia]|].
      by rewrite Esuite in Er.
  - split; [by left|]. left. split; [done|]. intros b _ [Hb Hlt]. destruct (couvre_suffixe q b Hb) as [E|(a & E)]; rewrite E in Hlt; [lia|].
    rewrite zlen_app, zlen_cons in Hlt. pose proof (zlen_nonneg a). lia.
  - unfold zlen. lia.
Qed.
End marche.

(** * Theorems *)

(** C9: loading is total and exact.  Whatever the octets, the loader returns
    without reading outside them, and it accepts exactly the images of valid
    tables: header, index of entries in ascending order of hash, each of a legal
    lower-case name inside the string block, of the FNV-1a hash of that name, of
    a known class and mode, and the string block to the very end. *)
Theorem chargement_reputation `{U : Unicode} (raw : list Z) : bytes_ok raw -> zlen raw < 2 ^ 63 ->
  (exists r, NewReputationTable raw = Done r) /\
  forall t, NewReputationTable raw = Done (inr t) <->
    exists es block, bytes_ok block /\ table_ok es block /\ raw = image es block /\ t = table_de es block.
Proof.
  intros Hb Hl. destruct (chargement_decide raw Hb Hl) as (r & Hr & H). split; [by exists r|]. intros t. split.
  - intros Ht. rewrite Hr in Ht. by injection Ht as ->.
  - intros (es & block & Hbb & Ht & -> & ->). by apply chargement_image.
Qed.

(** C10: the dichotomic search over hashes, repeated up the labels, decides as a
    plain reading of the enumerated entries would.  On any loaded table and any
    text, [Match] returns, and on a name whose cleaned form is legal its result is
    the best of the entries that speak of it -- the name itself, or a parent whose
    sub-tree is covered, a shared hosting domain covering its sub-tree only to
    deny --, denial before any other class, then the longest domain, then the
    exact mode; the null result if there is none, or if the name is not legal. *)
Theorem recherche_reputation `{U : Unicode} (raw : list Z) (t : ReputationTable) (fqdn : list Z) :
  bytes_ok raw -> zlen raw < 2 ^ 63 -> NewReputationTable raw = Done (inr t) ->
  exists rs res, Entries t = Done rs /\ Match (Some t) fqdn = Done (res, negb (MClassification res =? 0)) /\
    if validReputationDomain (cleanDomain fqdn) then decision rs (couvre (cleanDomain fqdn)) res else res = resultat_nul.
Proof.
  intros Hb Hl Ht. destruct (chargement_decide raw Hb Hl) as (r & Hr & H). rewrite Hr in Ht. injection Ht as ->.
  destruct H as (es & block & _ & Hok & _ & ->). destruct (Match_decide es block Hok fqdn) as (res & Hm & Hd).
  exists (regles es block), res. split; [by apply Entries_ok|]. done.
Qed.

(** ** Examples *)

Definition unicode_exemple : Unicode := {| minuscules_etendues := fun s => s; rogner_etendu := fun s => s |}.
#[local] Existing Instance unicode_exemple.

Definition bloc_exemple : list Z := octets "bad.evil.orgevil.org".
Definition entrees_exemple : list CompactEntry :=
  [CEntry (FNV1a64String (octets "bad.evil.org")) 0 12 RepClassAllowTranco MatchExact 0;
   CEntry (FNV1a64String (octets "evil.org")) 12 8 RepClassBlockC2 MatchSubtree 0].
(** In ascending order of hash. *)
Definition table_exemple : list CompactEntry :=
  if FNV1a64String (octets "bad.evil.org") <=? FNV1a64String (octets "evil.org") then entrees_exemple else rev entrees_exemple.
Definition image_exemple : list Z := image table_exemple bloc_exemple.

Lemma image_exemple_octets : bytes_ok image_exemple.
Proof. apply octets_valides_ok. vm_compute. reflexivity. Qed.

Lemma image_exemple_court : zlen image_exemple < 2 ^ 63.
Proof. vm_compute. reflexivity. Qed.

Lemma chargement_reputation_witness : bytes_ok image_exemple /\ exists r, NewReputationTable image_exemple = Done r.
Proof.
  split; [exact image_exemple_octets|].
  exact (proj1 (chargement_reputation image_exemple image_exemple_octets image_exemple_court)).
Defined.

(** A denied sub-tree wins over an allowed name below it. *)
Lemma recherche_reputation_witness : exists t rs res, NewReputationTable image_exemple = Done (inr t) /\
  Entries t = Done rs /\ Match (Some t) (octets "Bad.Evil.org.") = Done (res, true) /\ MClassification res = RepClassBlockC2 /\
  decision rs (couvre (octets "bad.evil.org")) res.
Proof.
  exists (table_de table_exemple bloc_exemple).
  assert (H : NewReputationTable image_exemple = Done (inr (table_de table_exemple bloc_exemple))) by (vm_compute; reflexivity).
  destruct (recherche_reputation image_exemple _ (octets "Bad.Evil.org.") image_exemple_octets image_exemple_court H) as (rs & res & He & Hm & Hd).
  exists rs, res. split; [exact H|]. split; [exact He|].
  assert (Hres : res = MResult (octets "evil.org") RepClassBlockC2 MatchSubtree).
  { assert (Match (Some (table_de table_exemple bloc_exemple)) (octets "Bad.Evil.org.")
      = Done (MResult (octets "evil.org") RepClassBlockC2 MatchSubtree, true)) as E by (vm_compute; reflexivity).
    rewrite Hm in E. injection E as E _. exact E. }
  split; [rewrite Hm, Hres; reflexivity|]. split; [rewrite Hres; reflexivity|]. exact Hd.
Defined.
