(* ===== verification/ReputationCompile.v ===== *)
(** The compiler of reputation snapshots and the atomic container
    (src/compact_reputation.go): normalisation and bound of the entries, total
    order, merging of the repeated ones, writing of the image; publication of a
    recompiled table.  The theorems: a compiled list is accepted by the loader and
    decides every name as its entries do, the snapshot does not depend on their
    order, recompiling the enumerated entries gives the same octets, a refused
    list leaves the published table in place. *)
From stdpp Require Import sorting.
From Stdlib Require Import Sorted.
From S2P Require Import Prelude Trame Fnv DnsName Grammaire Reputation.
Local Open Scope Z_scope.

Record item := Item { ihash : Z; ientry : BuildEntry }.

(** Go's order on strings. *)
Fixpoint inferieur (a b : list Z) : bool :=
  match a, b with
  | _, [] => false
  | [], _ :: _ => true
  | x :: a, y :: b => if x =? y then inferieur a b else x <? y
  end.

(** The comparison given to [sort.Slice]. *)
Definition avant (a b : item) : bool :=
  if negb (ihash a =? ihash b) then ihash a <? ihash b else
  if negb (egaux (Domain (ientry a)) (Domain (ientry b))) then inferieur (Domain (ientry a)) (Domain (ientry b)) else
  if negb (BMatchKind (ientry a) =? BMatchKind (ientry b)) then BMatchKind (ientry a) <? BMatchKind (ientry b) else
  reputationRank (BClassification (ientry b)) <? reputationRank (BClassification (ientry a)).

(** [sort.Slice]: the order is total, so the result is the only sorted
    permutation, whatever the algorithm ([tri_unique] below). *)
Definition pas_apres (a b : item) : Prop := avant b a = false.
#[export] Instance pas_apres_dec a b : Decision (pas_apres a b) := bool_eq_dec _ _.
Definition trier (items : list item) : list item := merge_sort pas_apres items.

Section compilation.
Context `{U : Unicode}.

(** The normalised entry, or the refusal. *)
Definition normaliser (e : BuildEntry) : option BuildEntry :=
  let nameClean := sans_point_final (ToLower (TrimSpace (Domain e))) in
  if negb (validReputationDomain nameClean) || negb (validReputationClass (BClassification e))
     || (negb (BMatchKind e =? MatchExact) && negb (BMatchKind e =? MatchSubtree)) then None else
  Some (Build nameClean (BClassification e)
          (if isSharedHostingDomain nameClean && negb (BClassification e =? RepClassBlockC2) then MatchExact else BMatchKind e)).

Fixpoint preparer (bytesRequired : Z) (entries : list BuildEntry) : option (list item) :=
  match entries with
  | [] => Some []
  | e :: entries =>
      b ← normaliser e;
      let bytesRequired := u64 (bytesRequired + zlen (Domain b)) in
      if 2 ^ 32 - 1 <? bytesRequired then None else
      items ← preparer bytesRequired entries;
      Some (Item (FNV1a64String (Domain b)) b :: items)
  end.
End compilation.

(** The loop that keeps the first item of each domain and mode. *)
Fixpoint fusionner (last : option item) (items : list item) : list item :=
  match items with
  | [] => []
  | it :: items =>
      let double := match last with
        | Some l => egaux (Domain (ientry l)) (Domain (ientry it)) && (BMatchKind (ientry l) =? BMatchKind (ientry it))
        | None => false
        end in
      if double then fusionner last items else it :: fusionner (Some it) items
  end.

(** The index and the strings, [off] being [strBuf.Len()]. *)
Fixpoint ecrire (off : Z) (items : list item) : list Z * list Z :=
  match items with
  | [] => ([], [])
  | it :: items =>
      let strBytes := Domain (ientry it) in
      let '(buf, strBuf) := ecrire (off + zlen strBytes) items in
      (le 8 (ihash it) ++ le 4 (u32 off)
         ++ [u8 (zlen strBytes); BClassification (ientry it); BMatchKind (ientry it); 0] ++ buf, strBytes ++ strBuf)
  end.

Definition assembler (items : list item) : list Z :=
  let '(buf, strBuf) := ecrire 0 items in
  le 4 CompactMagic ++ le 2 1 ++ le 4 (u32 (zlen items)) ++ le 4 (u32 (24 + zlen buf)) ++ le 4 (u32 (zlen strBuf)) ++ le 4 0
  ++ replicate 2 0 ++ buf ++ strBuf.

Section container.
Context `{U : Unicode}.

Definition CompileReputationSnapshot (entries : list BuildEntry) : erreur_reputation + list Z :=
  if (2 ^ 32 - 1 - 24) / 16 <? zlen entries then inl ErrCorruptSnapshot else
  match preparer (u64 (24 + u64 (zlen entries * 16))) entries with
  | None => inl ErrCorruptSnapshot
  | Some items => inr (assembler (fusionner None (trier items)))
  end.

(** The atomic pointer: [None] is nil. *)
Definition AtomicReputation : Type := option ReputationTable.
Definition NewAtomicReputation (initial : option ReputationTable) : AtomicReputation := initial.
Definition Load (ar : AtomicReputation) : option ReputationTable := ar.
Definition Store (ar : AtomicReputation) (table : option ReputationTable) : AtomicReputation := table.
Definition AMatch (ar : AtomicReputation) (fqdn : list Z) : run (MatchResult * bool) :=
  match Load ar with
  | None => Done (resultat_nul, false)
  | Some tbl => Match (Some tbl) fqdn
  end.

(** The new pointer and the error, if any. *)
Definition ReloadFromEntries (ar : AtomicReputation) (entries : list BuildEntry) : run (AtomicReputation * option erreur_reputation) :=
  match CompileReputationSnapshot entries with
  | inl e => Done (ar, Some e)
  | inr snap =>
      r ← NewReputationTable snap;
      match r with
      | inl e => Done (ar, Some e)
      | inr newTbl => Done (Store ar (Some newTbl), None)
      end
  end.
End container.

(** * The order *)

Lemma inferieur_irrefl a : inferieur a a = false.
Proof. induction a as [|x a IH]; [done|]. cbn. by rewrite Z.eqb_refl. Qed.
Lemma inferieur_total a : forall b, inferieur a b = false -> inferieur b a = false -> a = b.
Proof.
  induction a as [|x a IH]; intros [|y b]; cbn; [done..|].
  destruct (Z.eqb_spec x y) as [->|]; [rewrite Z.eqb_refl; intros; f_equal; by apply IH|]. destruct (Z.eqb_spec y x); lia.
Qed.
Lemma inferieur_trans a : forall b c, inferieur a b = true -> inferieur b c = true -> inferieur a c = true.
Proof.
  induction a as [|x a IH]; intros [|y b] [|z c]; cbn; try done.
  destruct (Z.eqb_spec x y) as [->|Hxy], (Z.eqb_spec y z) as [->|Hyz].
  - apply IH.
  - done.
  - destruct (Z.eqb_spec x z); lia.
  - destruct (Z.eqb_spec x z); lia.
Qed.
Lemma inferieur_asym a b : inferieur a b = true -> inferieur b a = false.
Proof. intros H. destruct (inferieur b a) eqn:E; [|done]. pose proof (inferieur_trans _ _ _ H E) as Ha. by rewrite inferieur_irrefl in Ha. Qed.

Notation dom x := (Domain (ientry x)).
Notation mode x := (BMatchKind (ientry x)).
Notation rang x := (reputationRank (BClassification (ientry x))).

Lemma pas_apres_alt a b : pas_apres a b <->
  ihash a < ihash b \/ (ihash a = ihash b /\
    (inferieur (dom a) (dom b) = true \/ (dom a = dom b /\ (mode a < mode b \/ (mode a = mode b /\ rang b <= rang a))))).
Proof.
  unfold pas_apres, avant, egaux. destruct (Z.eqb_spec (ihash b) (ihash a)) as [->|]; cbn [negb]; [|lia].
  destruct (bool_decide_reflect (dom b = dom a)) as [->|Hd]; cbn [negb].
  - destruct (Z.eqb_spec (mode b) (mode a)) as [->|]; cbn [negb].
    + rewrite inferieur_irrefl. split; [intros H; right; split; [done|]; right; split; [done|]; lia|].
      intros [|[_ [|[_ ?]]]]; [lia|done|lia].
    + rewrite inferieur_irrefl. split; [intros H; right; split; [done|]; right; split; [done|]; lia|].
      intros [|[_ [|[_ ?]]]]; [lia|done|lia].
  - split.
    + intros H. right. split; [done|]. left. destruct (inferieur (dom a) (dom b)) eqn:E; [done|]. by destruct Hd; apply inferieur_total.
    + intros [|[_ [H|[H _]]]]; [lia|by apply inferieur_asym|by rewrite H in Hd].
Qed.

#[export] Instance pas_apres_total : Total pas_apres.
Proof.
  intros a b. rewrite !pas_apres_alt. destruct (decide (dom a = dom b)) as [E|Hne].
  - rewrite E, inferieur_irrefl.
    assert (ihash a < ihash b \/ ihash b < ihash a \/ ihash a = ihash b) as [|[|]] by lia; [by left; left|by right; left|].
    assert (mode a < mode b \/ mode b < mode a \/ mode a = mode b) as [|[|]] by lia; [left|right|]; [right; split; [done|]; right; split; [done|]; by left..|].
    destruct (Z.le_ge_cases (rang b) (rang a)); [left|right]; right; (split; [done|]); right; (split; [done|]); right; split; lia.
  - destruct (inferieur (dom a) (dom b)) eqn:E1; [lia|]. destruct (inferieur (dom b) (dom a)) eqn:E2; [lia|].
    by destruct Hne; apply inferieur_total.
Qed.

#[export] Instance pas_apres_trans : Transitive pas_apres.
Proof.
  intros a b c. rewrite !pas_apres_alt. intros [H1|[H1 H1']] [H2|[H2 H2']]; [lia..|]. right. split; [lia|].
  destruct H1' as [H1'|[E1 H1']], H2' as [H2'|[E2 H2']].
  - left. by apply (inferieur_trans _ (dom b)).
  - left. by rewrite <- E2.
  - left. by rewrite E1.
  - right. split; [congruence|lia].
Qed.

(** Items as the compiler makes them. *)
Definition item_ok (it : item) : Prop :=
  ihash it = FNV1a64String (dom it) /\ validReputationDomain (dom it) = true /\ validReputationClass (BClassification (ientry it)) = true /\
  (mode it = MatchExact \/ mode it = MatchSubtree) /\
  (isSharedHostingDomain (dom it) = true -> mode it = MatchSubtree -> BClassification (ientry it) = RepClassBlockC2).

Lemma classe_bornes c : validReputationClass c = true -> 1 <= c <= 4.
Proof. unfold validReputationClass, RepClassAllowVendor, RepClassProtocolCrypto. lia. Qed.

Lemma pas_apres_antisym a b : item_ok a -> item_ok b -> pas_apres a b -> pas_apres b a -> a = b.
Proof.
  intros (Ha & _ & Hca%classe_bornes & _) (Hb & _ & Hcb%classe_bornes & _). rewrite !pas_apres_alt. intros H1 H2.
  assert (inferieur (dom a) (dom b) = true -> inferieur (dom b) (dom a) = false) as Has by apply inferieur_asym.
  assert (dom a = dom b /\ mode a = mode b /\ rang a = rang b) as (Ed & Em & Er).
  { destruct H1 as [H1|[E1 [H1|[Ed H1]]]], H2 as [H2|[E2 [H2|[Ed' H2]]]]; try lia.
    - by rewrite Has in H2.
    - rewrite Ed', inferieur_irrefl in H1. done.
    - rewrite Ed, inferieur_irrefl in H2. done.
    - split; [done|lia]. }
  apply rang_inj in Er; [|done..]. destruct a as [h [d c k]], b as [h' [d' c' k']]. cbn [ihash ientry Domain BMatchKind BClassification] in *.
  by subst.
Qed.

(** The order leaves no choice: any sorted permutation of the items is this one. *)
Lemma tri_unique items l : Forall item_ok items -> l ≡ₚ items -> StronglySorted pas_apres l -> l = trier items.
Proof.
  intros Hok Hp Hs. apply (StronglySorted_unique_strong pas_apres).
  - intros x1 x2 H1 H2. apply pas_apres_antisym; apply (proj1 (Forall_forall _ _) Hok); [by rewrite <- Hp|].
    unfold trier in H2. by rewrite merge_sort_Permutation in H2.
  - done.
  - unfold trier. apply StronglySorted_merge_sort; apply _.
  - unfold trier. by rewrite merge_sort_Permutation.
Qed.

(** * Merging *)

Definition meme_cle (a b : item) : bool := egaux (dom a) (dom b) && (mode a =? mode b).
Lemma meme_cle_ok a b : meme_cle a b = true <-> dom a = dom b /\ mode a = mode b.
Proof. unfold meme_cle, egaux. by rewrite andb_true_iff, bool_decide_eq_true, Z.eqb_eq. Qed.

Lemma fusionner_cons last it items : fusionner last (it :: items)
  = if match last with Some l => meme_cle l it | None => false end then fusionner last items else it :: fusionner (Some it) items.
Proof. done. Qed.

Lemma fusionner_incluse items : forall last x, x ∈ fusionner last items -> x ∈ items.
Proof.
  induction items as [|it items IH]; intros last x; [done|]. rewrite fusionner_cons. destruct (match last with Some _ => _ | None => _ end).
  - intros H. right. by apply (IH last).
  - intros [->|H]%elem_of_cons; [by left|right; by apply (IH (Some it))].
Qed.

Lemma fusionner_triee items : forall last, StronglySorted pas_apres items -> StronglySorted pas_apres (fusionner last items).
Proof.
  induction items as [|it items IH]; intros last Hs; [constructor|]. rewrite fusionner_cons. apply StronglySorted_cons in Hs as [Hf Hs].
  destruct (match last with Some _ => _ | None => _ end); [by apply IH|]. constructor; [by apply IH|].
  apply Forall_forall. intros x Hx%fusionner_incluse. by apply (proj1 (Forall_forall _ _) Hf).
Qed.

(** Every item is represented, by one of its domain and mode that ranks as high. *)
Lemma fusionner_represente items : forall last, StronglySorted pas_apres items ->
  (forall l, last = Some l -> Forall (pas_apres l) items) -> Forall item_ok items -> (forall l, last = Some l -> item_ok l) ->
  forall x, x ∈ items -> exists y, (y ∈ fusionner last items \/ last = Some y) /\ dom y = dom x /\ mode y = mode x /\ rang x <= rang y.
Proof.
  induction items as [|it items IH]; intros last Hs Hl Hok Hlo x Hx; [by apply not_elem_of_nil in Hx|]. rewrite fusionner_cons.
  apply StronglySorted_cons in Hs as [Hf Hs]. apply Forall_cons_iff in Hok as [Hit Hok].
  destruct (match last with Some l => meme_cle l it | None => false end) eqn:E.
  - destruct last as [l|]; [|done]. apply meme_cle_ok in E as [Ed Em].
    assert (Forall (pas_apres l) items) as Hli by (specialize (Hl l eq_refl); by apply Forall_cons_iff in Hl as [_ Hl]).
    apply elem_of_cons in Hx as [->|Hx].
    + exists l. split; [by right|]. split; [done|]. split; [done|]. specialize (Hl l eq_refl). apply Forall_cons_iff in Hl as [Hl _].
      apply pas_apres_alt in Hl. rewrite Ed, inferieur_irrefl in Hl. destruct (Hlo l eq_refl) as (Eh & _), Hit as (Eh' & _).
      rewrite Ed in Eh. lia.
    + apply IH; [done| |done|done|done]. by intros ? [= <-].
  - apply elem_of_cons in Hx as [->|Hx].
    + exists it. split; [left; by left|]. done.
    + destruct (IH (Some it) Hs) with (x := x) as (y & Hy & H); [by intros ? [= <-]|done|by intros ? [= <-]|done|].
      exists y. split; [|done]. left. destruct Hy as [Hy|[= ->]]; [by right|by left].
Qed.

(** Merging twice changes nothing. *)
Lemma fusionner_idem items : forall last, fusionner last (fusionner last items) = fusionner last items.
Proof.
  induction items as [|it items IH]; intros last; [done|]. rewrite fusionner_cons.
  destruct (match last with Some l => meme_cle l it | None => false end) eqn:E; [apply IH|]. rewrite fusionner_cons, E. f_equal. apply IH.
Qed.

Lemma fusionner_longueur items : forall last, (length (fusionner last items) <= length items)%nat.
Proof.
  induction items as [|it items IH]; intros last; [done|]. rewrite fusionner_cons. destruct (match last with Some _ => _ | None => _ end); cbn [length].
  - specialize (IH last). lia.
  - specialize (IH (Some it)). lia.
Qed.

(** * The written image *)

Definition chaines (items : list item) : list Z := concat ((fun x => dom x) <$> items).
Fixpoint entrees_de (off : Z) (items : list item) : list CompactEntry :=
  match items with
  | [] => []
  | it :: items => CEntry (ihash it) off (zlen (dom it)) (BClassification (ientry it)) (mode it) 0 :: entrees_de (off + zlen (dom it)) items
  end.

Lemma chaines_cons it items : chaines (it :: items) = dom it ++ chaines items.
Proof. done. Qed.
Lemma zlen_entrees_de items : forall off, zlen (entrees_de off items) = zlen items.
Proof. induction items as [|it items IH]; intros off; [done|]. cbn [entrees_de]. by rewrite !zlen_cons, IH. Qed.

Lemma nom_court it : item_ok it -> 1 <= zlen (dom it) <= 253.
Proof.
  intros (_ & (Hne & Hl & _)%nom_valide_octets & _). split; [|done]. destruct (dom it); [done|]. rewrite zlen_cons. pose proof (zlen_nonneg l). lia.
Qed.

Lemma ecrire_ok items : forall off, 0 <= off -> off + zlen (chaines items) < 2 ^ 32 -> Forall item_ok items ->
  ecrire off items = (section coder_entree (entrees_de off items), chaines items).
Proof.
  induction items as [|it items IH]; intros off Ho Hl Hok; [done|]. apply Forall_cons_iff in Hok as [Hit Hok].
  rewrite chaines_cons, zlen_app in Hl. pose proof (zlen_nonneg (chaines items)). pose proof (nom_court it Hit) as Hc.
  cbn [ecrire entrees_de section foldr]. rewrite IH by (done || lia). rewrite chaines_cons. unfold coder_entree at 1.
  cbn [DomainHash Offset Length Classification MatchKind CFlags]. rewrite u32_id by (unfold is_u32; lia). rewrite u8_id by (unfold is_u8; lia).
  by rewrite <- ?app_assoc.
Qed.

Lemma le_zero n : le n 0 = replicate n 0.
Proof. induction n as [|n IH]; [done|]. cbn [le replicate]. change (0 / 256) with 0. by rewrite IH. Qed.

Lemma assembler_ok items : Forall item_ok items -> 24 + 16 * zlen items + zlen (chaines items) < 2 ^ 32 ->
  assembler items = image (entrees_de 0 items) (chaines items).
Proof.
  intros Hok Hl. pose proof (zlen_nonneg items). pose proof (zlen_nonneg (chaines items)). unfold assembler.
  rewrite ecrire_ok by (done || lia). unfold image. rewrite zlen_entrees, zlen_entrees_de.
  rewrite !u32_id by (unfold is_u32; lia). rewrite le_zero. by rewrite (app_assoc (replicate 4 0)).
Qed.

Lemma item_champs items : forall off, 0 <= off -> off + zlen (chaines items) < 2 ^ 32 -> Forall item_ok items ->
  Forall champs_ok (entrees_de off items).
Proof.
  induction items as [|it items IH]; intros off Ho Hl Hok; [constructor|]. apply Forall_cons_iff in Hok as [Hit Hok].
  pose proof (nom_court it Hit). rewrite chaines_cons, zlen_app in Hl. pose proof (zlen_nonneg (chaines items)).
  cbn [entrees_de]. constructor; [|apply IH; [lia|lia|done]].
  destruct Hit as (Hh & _ & Hc%classe_bornes & Hk & _). unfold champs_ok. cbn [DomainHash Offset Length Classification MatchKind CFlags].
  split; [rewrite Hh; by apply hacherOctetsFNV64a_range|]. unfold is_u32, is_u8, MatchExact, MatchSubtree in *. lia.
Qed.

(** Each entry designates its name in the block. *)
Lemma texte_entree pre it suite off : off = zlen pre ->
  texte_de (pre ++ dom it ++ suite) (CEntry (ihash it) off (zlen (dom it)) (BClassification (ientry it)) (mode it) 0) = dom it.
Proof.
  intros ->. unfold texte_de. cbn [Offset Length]. apply segment_mid; unfold zlen; lia.
Qed.

Lemma entrees_valides items : forall pre, Forall item_ok items ->
  let block := pre ++ chaines items in
  Forall (entree_ok block) (entrees_de (zlen pre) items) /\ regles (entrees_de (zlen pre) items) block = ientry <$> items.
Proof.
  induction items as [|it items IH]; intros pre Hok block; [split; [constructor|done]|]. apply Forall_cons_iff in Hok as [Hit Hok].
  cbn [entrees_de]. specialize (IH (pre ++ dom it) Hok). rewrite zlen_app, <- app_assoc in IH. destruct IH as [IH1 IH2].
  unfold block. rewrite chaines_cons in *. pose proof (texte_entree pre it (chaines items) _ eq_refl) as Ht.
  split.
  - constructor; [|exact IH1]. destruct Hit as (Hh & Hv & Hc & Hk & _). unfold entree_ok. rewrite Ht.
    cbn [Offset Length DomainHash Classification MatchKind CFlags]. rewrite !zlen_app. pose proof (zlen_nonneg (chaines items)).
    split; [lia|]. split; [done|]. split; [done|]. split; [done|]. split; [done|done].
  - unfold regles in *. cbn [fmap list_fmap]. rewrite IH2. f_equal. unfold regle_de. rewrite Ht. cbn [Classification MatchKind].
    by destruct it as [h [d c k]].
Qed.

Lemma hachages_minores h items : forall off, Forall (fun x => h <= ihash x) items -> Forall (fun e => h <= DomainHash e) (entrees_de off items).
Proof. induction items as [|x l IH]; intros off H; [constructor|]. apply Forall_cons_iff in H as [Hx H]. constructor; [done|by apply IH]. Qed.

Lemma entrees_croissantes items : forall off, StronglySorted pas_apres items -> hachages_croissants (entrees_de off items).
Proof.
  induction items as [|it items IH]; intros off Hs; [constructor|]. apply StronglySorted_cons in Hs as [Hf Hs]. cbn [entrees_de].
  unfold hachages_croissants. constructor; [by apply IH|]. cbn [DomainHash]. apply hachages_minores. eapply Forall_impl; [exact Hf|].
  cbv beta. intros x Hx%pas_apres_alt. lia.
Qed.

(** What is written is a valid table of the same entries. *)
Lemma table_assemblee items : Forall item_ok items -> StronglySorted pas_apres items -> 24 + 16 * zlen items + zlen (chaines items) < 2 ^ 32 ->
  table_ok (entrees_de 0 items) (chaines items) /\ regles (entrees_de 0 items) (chaines items) = ientry <$> items /\
  assembler items = image (entrees_de 0 items) (chaines items).
Proof.
  intros Hok Hs Hl. pose proof (zlen_nonneg items). pose proof (zlen_nonneg (chaines items)).
  destruct (entrees_valides items [] Hok) as [H1 H2]. cbn [app] in H1, H2. change (zlen (@nil Z)) with 0 in H1, H2.
  split; [|split; [done|by apply assembler_ok]].
  split; [apply item_champs; [lia|lia|done]|]. split; [done|]. split; [by apply entrees_croissantes|]. rewrite zlen_entrees_de. lia.
Qed.

Lemma bytes_ok_chaines items : Forall item_ok items -> bytes_ok (chaines items).
Proof.
  intros Hok. apply bytes_ok_concat, Forall_fmap. eapply Forall_impl; [exact Hok|]. intros it (_ & (_ & _ & Ho & _)%nom_valide_octets & _).
  cbn. eapply Forall_impl; [exact Ho|]. cbv beta. intros c [->|Hc]; [done|]. unfold dnsLabelByte in Hc. unfold is_u8. lia.
Qed.

(** Merged items weigh no more. *)
Lemma fusionner_poids items : forall last, zlen (chaines (fusionner last items)) <= zlen (chaines items).
Proof.
  induction items as [|it items IH]; intros last; [done|]. rewrite fusionner_cons. destruct (match last with Some _ => _ | None => _ end).
  - specialize (IH last). rewrite chaines_cons, zlen_app. pose proof (zlen_nonneg (dom it)). lia.
  - specialize (IH (Some it)). rewrite !chaines_cons, !zlen_app. lia.
Qed.

Lemma zlen_chaines_perm items l : l ≡ₚ items -> zlen (chaines l) = zlen (chaines items).
Proof.
  induction 1 as [|x l1 l2 _ IH|x y l1|l1 l2 l3 _ IH1 _ IH2]; [done| | |lia].
  - rewrite !chaines_cons, !zlen_app. lia.
  - rewrite !chaines_cons, !zlen_app. lia.
Qed.

(** * What the compiler accepts *)

Section acceptation.
Context `{U : Unicode}.

(** The entries as the snapshot holds them, and the octets it would need. *)
Definition normalisees (entries : list BuildEntry) : list BuildEntry := omap normaliser entries.
Definition poids (entries : list BuildEntry) : Z := zlen (concat (Domain <$> normalisees entries)).
Definition acceptable (entries : list BuildEntry) : Prop :=
  Forall (fun e => is_Some (normaliser e)) entries /\ 24 + 16 * zlen entries + poids entries <= 2 ^ 32 - 1.
Definition items_de (rs : list BuildEntry) : list item := (fun b => Item (FNV1a64String (Domain b)) b) <$> rs.

Lemma normaliser_ok e b : normaliser e = Some b -> item_ok (Item (FNV1a64String (Domain b)) b).
Proof.
  unfold normaliser. set (n := sans_point_final _). destruct (_ || _) eqn:E; [done|]. intros [= <-].
  apply orb_false_iff in E as [E Ek]. apply orb_false_iff in E as [Ev Ec]. apply negb_false_iff in Ev, Ec.
  unfold item_ok. cbn [ihash ientry Domain BClassification BMatchKind]. split; [done|]. split; [done|]. split; [done|].
  destruct (isSharedHostingDomain n), (Z.eqb_spec (BClassification e) RepClassBlockC2); cbn [negb andb]; unfold MatchExact, MatchSubtree in *;
    (split; [lia|]); try done; by intros _.
Qed.

Lemma items_ok entries : Forall item_ok (items_de (normalisees entries)).
Proof.
  apply Forall_fmap, Forall_forall. intros b (e & _ & He)%list_elem_of_omap. by apply (normaliser_ok e).
Qed.

Lemma chaines_items rs : chaines (items_de rs) = concat (Domain <$> rs).
Proof. unfold chaines, items_de. by rewrite <- list_fmap_compose. Qed.

Lemma normalisees_cons e b entries : normaliser e = Some b ->
  normalisees (e :: entries) = b :: normalisees entries /\ poids (e :: entries) = zlen (Domain b) + poids entries.
Proof.
  intros He. assert (normalisees (e :: entries) = b :: normalisees entries) as E by (unfold normalisees; cbn; by rewrite He).
  split; [done|]. unfold poids. rewrite E. cbn [fmap list_fmap concat]. by rewrite zlen_app.
Qed.

Lemma preparer_spec entries : forall B, 0 <= B <= 2 ^ 32 - 1 ->
  match preparer B entries with
  | Some items => Forall (fun e => is_Some (normaliser e)) entries /\ B + poids entries <= 2 ^ 32 - 1 /\ items = items_de (normalisees entries)
  | None => ~ (Forall (fun e => is_Some (normaliser e)) entries /\ B + poids entries <= 2 ^ 32 - 1)
  end.
Proof.
  induction entries as [|e entries IH]; intros B HB.
  { cbn [preparer]. split; [by apply Forall_nil|]. split; [|done]. change (poids []) with 0. lia. }
  cbn [preparer]. destruct (normaliser e) as [b|] eqn:He; cbn [mbind option_bind].
  2:{ intros [Hf _]. apply Forall_cons_iff in Hf as [[b Hb] _]. congruence. }
  pose proof (nom_court _ (normaliser_ok e b He)) as Hc. cbn [ientry] in Hc. destruct (normalisees_cons e b entries He) as [-> ->].
  rewrite u64_id by (unfold is_u64; lia). assert (0 <= poids entries) by apply zlen_nonneg.
  destruct (Z.ltb_spec (2 ^ 32 - 1) (B + zlen (Domain b))) as [Hb|Hb]; [intros [_ Hx]; lia|].
  specialize (IH (B + zlen (Domain b)) ltac:(lia)). destruct (preparer _ entries) as [items|].
  - destruct IH as (IH1 & IH2 & ->). split; [constructor; [by exists b|done]|]. split; [lia|done].
  - intros [Hf Hx]. apply IH. apply Forall_cons_iff in Hf as [_ Hf]. split; [done|lia].
Qed.

(** The compiler decides exactly [acceptable]. *)
Lemma compilation_decide entries :
  match CompileReputationSnapshot entries with
  | inr snap => acceptable entries /\ snap = assembler (fusionner None (trier (items_de (normalisees entries))))
  | inl e => e = ErrCorruptSnapshot /\ ~ acceptable entries
  end.
Proof.
  unfold CompileReputationSnapshot, acceptable. change ((2 ^ 32 - 1 - 24) / 16) with 268435454. pose proof (zlen_nonneg entries).
  assert (0 <= poids entries) by apply zlen_nonneg.
  destruct (Z.ltb_spec 268435454 (zlen entries)); [split; [done|]; intros [_ Hx]; lia|].
  rewrite !u64_id by (unfold is_u64; rewrite ?u64_id; unfold is_u64; lia).
  pose proof (preparer_spec entries (24 + zlen entries * 16) ltac:(lia)) as Hp. rewrite (Z.mul_comm (zlen entries) 16) in *.
  destruct (preparer _ entries) as [items|]; [|split; [done|done]]. destruct Hp as (Hp1 & Hp2 & ->). done.
Qed.

(** The merged items of an accepted list. *)
Definition retenus (entries : list BuildEntry) : list item := fusionner None (trier (items_de (normalisees entries))).

Lemma omap_longueur entries : zlen (normalisees entries) <= zlen entries.
Proof.
  induction entries as [|e entries IH]; [done|]. rewrite zlen_cons. destruct (normaliser e) as [b|] eqn:He.
  - destruct (normalisees_cons e b entries He) as [-> _]. rewrite zlen_cons. lia.
  - assert (normalisees (e :: entries) = normalisees entries) as -> by (unfold normalisees; cbn; by rewrite He). lia.
Qed.

Lemma retenus_ok entries : acceptable entries -> Forall item_ok (retenus entries) /\ StronglySorted pas_apres (retenus entries) /\
  24 + 16 * zlen (retenus entries) + zlen (chaines (retenus entries)) < 2 ^ 32.
Proof.
  intros [_ Hl]. unfold retenus. set (items := items_de _).
  assert (trier items ≡ₚ items) as Hp by apply merge_sort_Permutation.
  split; [|split].
  - apply Forall_forall. intros x Hx%fusionner_incluse. rewrite Hp in Hx. by apply (proj1 (Forall_forall _ _) (items_ok entries)).
  - apply fusionner_triee. apply StronglySorted_merge_sort; apply _.
  - pose proof (fusionner_poids (trier items) None) as H1. pose proof (fusionner_longueur (trier items) None) as H2.
    rewrite (zlen_chaines_perm items (trier items) Hp) in H1. rewrite (Permutation_length Hp) in H2.
    assert (zlen (chaines items) = poids entries) as H3 by (unfold items; by rewrite chaines_items).
    assert (length items = length (normalisees entries)) as H4 by (unfold items, items_de; by rewrite length_fmap).
    pose proof (omap_longueur entries). unfold zlen in *. lia.
Qed.

(** A compiled snapshot loads. *)
Lemma compilation_charge entries snap : CompileReputationSnapshot entries = inr snap ->
  NewReputationTable snap = Done (inr (table_de (entrees_de 0 (retenus entries)) (chaines (retenus entries)))) /\
  table_ok (entrees_de 0 (retenus entries)) (chaines (retenus entries)) /\
  regles (entrees_de 0 (retenus entries)) (chaines (retenus entries)) = ientry <$> retenus entries /\ acceptable entries.
Proof.
  intros H. pose proof (compilation_decide entries) as Hd. rewrite H in Hd. destruct Hd as [Ha ->].
  destruct (retenus_ok entries Ha) as (Hok & Hs & Hl). destruct (table_assemblee _ Hok Hs Hl) as (Ht & Hr & Hi).
  fold (retenus entries) in *. rewrite Hi. split; [|done].
  apply chargement_image; [done|by apply bytes_ok_chaines].
Qed.

Lemma retenus_normalises entries b : b ∈ ientry <$> retenus entries -> b ∈ normalisees entries.
Proof.
  intros (it & -> & Hit)%list_elem_of_fmap. apply fusionner_incluse in Hit. unfold trier in Hit. rewrite merge_sort_Permutation in Hit.
  by apply list_elem_of_fmap in Hit as (b & -> & Hb).
Qed.

Lemma normalises_retenus entries b : b ∈ normalisees entries ->
  exists b', b' ∈ ientry <$> retenus entries /\ Domain b' = Domain b /\ BMatchKind b' = BMatchKind b /\
    reputationRank (BClassification b) <= reputationRank (BClassification b').
Proof.
  intros Hb. set (items := items_de (normalisees entries)).
  assert (trier items ≡ₚ items) as Hp by apply merge_sort_Permutation.
  destruct (fusionner_represente (trier items) None) with (x := Item (FNV1a64String (Domain b)) b) as (y & [Hy|Hy] & Hd & Hm & Hr); try done.
  - apply StronglySorted_merge_sort; apply _.
  - apply Forall_forall. intros x Hx. rewrite Hp in Hx. by apply (proj1 (Forall_forall _ _) (items_ok entries)).
  - rewrite Hp. apply list_elem_of_fmap. by exists b.
  - exists (ientry y). split; [apply list_elem_of_fmap; by exists y|done].
Qed.

(** Merging loses nothing of what the list decides. *)
Lemma decision_retenus entries q res : acceptable entries ->
  decision (ientry <$> retenus entries) (couvre q) res -> decision (normalisees entries) (couvre q) res.
Proof.
  intros Ha Hd. destruct (retenus_ok entries Ha) as (Hok & _ & _).
  assert (forall b, b ∈ normalisees entries -> couvre q b -> exists b', b' ∈ ientry <$> retenus entries /\ couvre q b' /\ prefere b' b) as Hrep.
  { intros b Hb Hc. destruct (normalises_retenus entries b Hb) as (b' & Hb' & Hdom & Hk & Hr). exists b'. split; [done|].
    split; [|unfold prefere; rewrite Hdom, Hk; lia]. destruct Hc as [Hc|(Hs & Hsous & Hsh)]; [left; by rewrite Hdom|right].
    rewrite Hdom, Hk. split; [done|]. split; [done|]. intros Hshared. apply list_elem_of_fmap in Hb' as (it & -> & Hit).
    destruct (proj1 (Forall_forall _ _) Hok it Hit) as (_ & _ & _ & _ & H). apply H; [by rewrite Hdom|by rewrite Hk]. }
  destruct Hd as [[-> Hn]|(b & Hb & Hc & -> & Hbest)].
  - left. split; [done|]. intros b Hb Hc. destruct (Hrep b Hb Hc) as (b' & Hb' & Hc' & _). by destruct (Hn b' Hb').
  - right. exists b. split; [by apply retenus_normalises|]. split; [done|]. split; [done|]. intros b' Hb' Hc'.
    destruct (Hrep b' Hb' Hc') as (b2 & Hb2 & Hc2 & Hp). specialize (Hbest b2 Hb2 Hc2). unfold prefere in *. lia.
Qed.

(** Normal entries are fixed points. *)
Lemma rogner_gauche_id s : (forall c r, s = c :: r -> espace c = false) -> rogner_gauche s = s.
Proof. destruct s as [|c r]; [done|]. intros H. cbn. by rewrite (H c r eq_refl). Qed.

Lemma nom_fixe name : validReputationDomain name = true -> sans_point_final (ToLower (TrimSpace name)) = name.
Proof.
  intros (Hne & _ & Ho & Hp)%nom_valide_octets.
  assert (ascii name = true) as Ha.
  { apply forallb_forall. intros c Hc%list_elem_of_In. destruct (proj1 (Forall_forall _ _) Ho c Hc) as [->|H]; [done|]. unfold dnsLabelByte in H. lia. }
  assert (forall c, c ∈ name -> espace c = false) as Hsp.
  { intros c Hc. destruct (proj1 (Forall_forall _ _) Ho c Hc) as [->|H]; [done|]. unfold dnsLabelByte in H. unfold espace. lia. }
  assert (TrimSpace name = name) as ->.
  { unfold TrimSpace. rewrite Ha, (rogner_gauche_id name) by (intros c r ->; apply Hsp; by left).
    rewrite rogner_gauche_id, rev_involutive; [done|]. intros c r E. apply Hsp. apply list_elem_of_In, in_rev. rewrite E. by left. }
  assert (ToLower name = name) as ->; [|by apply sans_point_final_id].
  unfold ToLower. rewrite Ha. rewrite <- (list_fmap_id name) at 2. apply list_fmap_ext. intros i c Hi. apply list_elem_of_lookup_2 in Hi.
  destruct (proj1 (Forall_forall _ _) Ho c Hi) as [->|H]; [done|]. unfold dnsLabelByte in H. unfold minuscule.
  by destruct ((65 <=? c) && (c <=? 90)) eqn:E; [lia|].
Qed.

Lemma normaliser_fixe it : item_ok it -> normaliser (ientry it) = Some (ientry it).
Proof.
  intros (_ & Hv & Hc & Hk & Hs). unfold normaliser. rewrite nom_fixe, Hv, Hc by done. cbn [negb orb].
  destruct it as [h [d c k]]. cbn [ientry Domain BClassification BMatchKind] in *.
  destruct Hk as [->| ->]; unfold MatchExact, MatchSubtree in *; cbn [negb andb Z.eqb Pos.eqb];
    [by destruct (isSharedHostingDomain d && _)|].
  destruct (isSharedHostingDomain d); [|done]. by rewrite (Hs eq_refl eq_refl).
Qed.

Lemma recompiler_fixe entries : acceptable entries -> acceptable (ientry <$> retenus entries) /\
  retenus (ientry <$> retenus entries) = retenus entries.
Proof.
  intros Ha. destruct (retenus_ok entries Ha) as (Hok & Hs & Hl). set (l := retenus entries) in *.
  assert (forall k, Forall item_ok k -> normalisees (ientry <$> k) = ientry <$> k) as Hn.
  { induction k as [|x k IH]; intros Hk; [done|]. apply Forall_cons_iff in Hk as [Hx Hk]. cbn [fmap list_fmap].
    destruct (normalisees_cons _ _ (ientry <$> k) (normaliser_fixe x Hx)) as [-> _]. by rewrite IH. }
  assert (items_de (ientry <$> l) = l) as Hi.
  { unfold items_de. rewrite <- list_fmap_compose. rewrite <- (list_fmap_id l) at 2. apply list_fmap_ext. intros i x Hx.
    destruct (proj1 (Forall_lookup _ _) Hok i x Hx) as (Hh & _). destruct x as [h b]. cbn in *. by rewrite Hh. }
  split.
  - split; [apply Forall_fmap; eapply Forall_impl; [exact Hok|]; intros it Hit; exists (ientry it); by apply normaliser_fixe|].
    unfold poids. rewrite Hn by done. rewrite <- chaines_items, Hi. unfold zlen in *. rewrite length_fmap. lia.
  - unfold retenus at 1. rewrite Hn by done. rewrite Hi.
    rewrite <- (tri_unique l l Hok); [|done..]. apply fusionner_idem.
Qed.
End acceptation.

(** * Theorems *)

(** C7: what is published decides as the list it was compiled from.  Reloading
    returns; it publishes exactly when every entry is legal once normalised and
    the whole fits in 32 bits, and then every name is decided by the best of the
    normalised entries that speak of it, sorting, merging and binary layout
    notwithstanding; a refused list leaves the published table in place. *)
Theorem publication_fidele `{U : Unicode} (ar : AtomicReputation) (entries : list BuildEntry) :
  exists ar' err, ReloadFromEntries ar entries = Done (ar', err) /\ (err = None <-> acceptable entries) /\
    (err <> None -> err = Some ErrCorruptSnapshot /\ ar' = ar) /\
    (err = None -> forall fqdn, exists res, AMatch ar' fqdn = Done (res, negb (MClassification res =? 0)) /\
      if validReputationDomain (cleanDomain fqdn) then decision (normalisees entries) (couvre (cleanDomain fqdn)) res
      else res = resultat_nul).
Proof.
  unfold ReloadFromEntries. pose proof (compilation_decide entries) as Hd. destruct (CompileReputationSnapshot entries) as [e|snap] eqn:Hc.
  - destruct Hd as [-> Hna]. exists ar, (Some ErrCorruptSnapshot). split; [done|]. split; [by split|]. split; [done|]. by intros.
  - destruct (compilation_charge entries snap Hc) as (Hn & Hok & Hr & Ha). rewrite Hn, run_bind_done.
    eexists _, None. split; [done|]. split; [done|]. split; [done|]. intros _ fqdn.
    destruct (Match_decide _ _ Hok fqdn) as (res & Hm & Hres). exists res. split; [exact Hm|].
    destruct (validReputationDomain _); [|done]. rewrite Hr in Hres. by apply decision_retenus.
Qed.

(** C8: denial is sovereign.  Once a list that denies a domain is published, the
    domain -- and, for a sub-tree, every name below it -- is denied, whatever else
    the list says of it, in whatever order. *)
Theorem blocage_souverain `{U : Unicode} (ar ar' : AtomicReputation) (entries : list BuildEntry) (e b : BuildEntry) (fqdn : list Z) :
  ReloadFromEntries ar entries = Done (ar', None) -> e ∈ entries -> normaliser e = Some b -> BClassification b = RepClassBlockC2 ->
  validReputationDomain (cleanDomain fqdn) = true ->
  (cleanDomain fqdn = Domain b \/ (BMatchKind b = MatchSubtree /\ exists sous, cleanDomain fqdn = sous ++ 46 :: Domain b)) ->
  exists res, AMatch ar' fqdn = Done (res, true) /\ MClassification res = RepClassBlockC2.
Proof.
  intros Hr He Hb Hcl Hv Hq. unfold ReloadFromEntries in Hr. destruct (CompileReputationSnapshot entries) as [|snap] eqn:Hc; [done|].
  destruct (compilation_charge entries snap Hc) as (Hn & Hok & Hreg & Ha). rewrite Hn, run_bind_done in Hr. injection Hr as <-.
  destruct (Match_decide _ _ Hok fqdn) as (res & Hm & Hres). rewrite Hv, Hreg in Hres. exists res.
  apply decision_retenus in Hres; [|done].
  assert (couvre (cleanDomain fqdn) b) as Hcb by (destruct Hq as [->|[Hk Hs]]; [by left|by right]).
  assert (b ∈ normalisees entries) as Hin by (apply list_elem_of_omap; by exists e).
  assert (MClassification res = RepClassBlockC2) as E; [|split; [|done]; cbn [AMatch Load Store]; rewrite Hm, E; done].
  destruct Hres as [[_ Hno]|(b0 & Hb0 & _ & -> & Hbest)]; [by destruct (Hno b Hin)|]. specialize (Hbest b Hin Hcb). cbn.
  assert (item_ok (Item (FNV1a64String (Domain b0)) b0)) as (_ & _ & Hc0%classe_bornes & _).
  { apply (proj1 (Forall_forall _ _) (items_ok entries)). apply list_elem_of_fmap. by exists b0. }
  cbn [ientry] in Hc0. unfold prefere in Hbest. rewrite Hcl in Hbest. unfold reputationRank, RepClassBlockC2 in *.
  change (3 =? 3) with true in Hbest. cbn iota in Hbest. destruct (Z.eqb_spec (BClassification b0) 3); lia.
Qed.

(** A snapshot depends on what the list says, not on its order, and it is a
    normal form: two permutations of a list compile alike, octet for octet, and
    the entries enumerated from a compiled table compile to the same octets. *)
Theorem compilation_canonique `{U : Unicode} (entries permutes : list BuildEntry) : entries ≡ₚ permutes ->
  CompileReputationSnapshot entries = CompileReputationSnapshot permutes /\
  forall snap, CompileReputationSnapshot entries = inr snap ->
    exists t rs, NewReputationTable snap = Done (inr t) /\ Entries t = Done rs /\ CompileReputationSnapshot rs = inr snap.
Proof.
  intros Hp. assert (normalisees entries ≡ₚ normalisees permutes) as Hn by (unfold normalisees; by rewrite Hp).
  assert (items_de (normalisees entries) ≡ₚ items_de (normalisees permutes)) as Hi by (unfold items_de; by rewrite Hn).
  assert (acceptable entries <-> acceptable permutes) as Hacc.
  { assert (poids entries = poids permutes) as Hw.
    { unfold poids. rewrite <- (chaines_items (normalisees entries)), <- (chaines_items (normalisees permutes)).
      apply zlen_chaines_perm. by symmetry. }
    unfold acceptable, zlen. rewrite Hw, (Permutation_length Hp), Hp. done. }
  assert (retenus entries = retenus permutes) as Hr.
  { unfold retenus. f_equal. apply tri_unique; [by apply items_ok| |apply StronglySorted_merge_sort; apply _].
    unfold trier. by rewrite merge_sort_Permutation. }
  split.
  - pose proof (compilation_decide entries) as H1. pose proof (compilation_decide permutes) as H2.
    destruct (CompileReputationSnapshot entries), (CompileReputationSnapshot permutes).
    + destruct H1 as [-> _], H2 as [-> _]. done.
    + destruct H1 as [_ H1], H2 as [H2 _]. by apply Hacc in H2.
    + destruct H1 as [H1 _], H2 as [_ H2]. by apply Hacc in H1.
    + destruct H1 as [_ ->], H2 as [_ ->]. by fold (retenus entries) (retenus permutes); rewrite Hr.
  - intros snap Hs. destruct (compilation_charge entries snap Hs) as (Hl & Hok & Hreg & Ha).
    eexists _, _. split; [exact Hl|]. split; [by apply Entries_ok|]. rewrite Hreg.
    destruct (recompiler_fixe entries Ha) as [Ha' Hr']. pose proof (compilation_decide entries) as H1. rewrite Hs in H1. destruct H1 as [_ ->].
    pose proof (compilation_decide (ientry <$> retenus entries)) as H2.
    destruct (CompileReputationSnapshot (ientry <$> retenus entries)); [by destruct H2|]. destruct H2 as [_ ->].
    fold (retenus (ientry <$> retenus entries)). by rewrite Hr'.
Qed.

(** ** Examples *)

#[local] Existing Instance unicode_exemple.

Definition liste_exemple : list BuildEntry :=
  [Build (octets "Evil.org.") RepClassBlockC2 MatchSubtree; Build (octets " evil.org") RepClassAllowVendor MatchSubtree;
   Build (octets "a.evil.org") RepClassAllowTranco MatchExact].

Lemma blocage_souverain_witness : exists ar' res, ReloadFromEntries None liste_exemple = Done (ar', None) /\
  AMatch ar' (octets "A.evil.ORG") = Done (res, true) /\ MClassification res = RepClassBlockC2.
Proof.
  assert (H : exists ar', ReloadFromEntries None liste_exemple = Done (ar', None)) by (eexists; vm_compute; reflexivity).
  destruct H as (ar' & H). exists ar'.
  destruct (blocage_souverain None ar' liste_exemple (Build (octets "Evil.org.") RepClassBlockC2 MatchSubtree)
    (Build (octets "evil.org") RepClassBlockC2 MatchSubtree) (octets "A.evil.ORG") H) as (res & Hm & Hc).
  - left.
  - vm_compute. reflexivity.
  - reflexivity.
  - vm_compute. reflexivity.
  - right. split; [reflexivity|]. exists (octets "a"). vm_compute. reflexivity.
  - exists res. split; [exact H|]. split; [exact Hm|exact Hc].
Defined.

Lemma compilation_canonique_witness :
  CompileReputationSnapshot liste_exemple = CompileReputationSnapshot (rev liste_exemple) /\
  exists snap t rs, CompileReputationSnapshot liste_exemple = inr snap /\ NewReputationTable snap = Done (inr t) /\ Entries t = Done rs /\
    CompileReputationSnapshot rs = inr snap.
Proof.
  destruct (compilation_canonique liste_exemple (rev liste_exemple) (Permutation_rev liste_exemple)) as [H1 H2]. split; [exact H1|].
  assert (H : exists snap, CompileReputationSnapshot liste_exemple = inr snap) by (eexists; vm_compute; reflexivity).
  destruct H as (snap & H). exists snap. destruct (H2 snap H) as (t & rs & Ht & Hrs & Hc). exists t, rs.
  split; [exact H|]. split; [exact Ht|]. split; [exact Hrs|exact Hc].
Defined.

(** A publication, then a refusal that keeps it. *)
Lemma publication_fidele_witness : exists ar', ReloadFromEntries None liste_exemple = Done (ar', None) /\ acceptable liste_exemple /\
  (forall fqdn, exists res, AMatch ar' fqdn = Done (res, negb (MClassification res =? 0))) /\
  ReloadFromEntries ar' [Build (octets "-") RepClassBlockC2 MatchExact] = Done (ar', Some ErrCorruptSnapshot).
Proof.
  destruct (publication_fidele None liste_exemple) as (ar' & err & Hr & Ha & _ & Hm).
  assert (E : err = None).
  { assert (match ReloadFromEntries None liste_exemple with Done (_, None) => true | _ => false end = true) as H by (vm_compute; reflexivity).
    rewrite Hr in H. destruct err; [discriminate H|reflexivity]. }
  rewrite E in Hr. exists ar'. split; [exact Hr|]. split; [exact (proj1 Ha E)|]. split; [|reflexivity].
  intros fqdn. destruct (Hm E fqdn) as (res & H & _). exists res. exact H.
Defined.
