(* ===== verification/Entropie.v ===== *)
(** Entropy in fixed point Q8.8 and payload classes
    (src/internal/engine/probe_entropy_gen.go): the tables, the logarithm, the
    histogram unrolled eight octets at a time, the profile and the class of a
    payload.  The theorems: the profile of a payload is the one read off its
    octets -- so it does not depend on their order --, the entropy of a profile
    is that of the stand-alone function, and its bounds. *)
From stdpp Require Import list_numbers.
From S2P Require Import Prelude Bits.
Local Open Scope Z_scope.

(** ** Tables *)
Definition c_log2_c_table : list Z := [
  0; 0; 512; 1217; 2048; 2972; 3971; 5031; 6144; 7304; 8504; 9742; 11013; 12315; 13646; 15002; 16384; 17789; 19215;
  20662; 22128; 23613; 25116; 26635; 28170; 29721; 31286; 32866; 34459; 36066; 37685; 39317; 40960; 42615; 44281;
  45958; 47646; 49344; 51052; 52769; 54497; 56233; 57978; 59732; 61495; 63266; 65045; 66833; 68628; 70431; 72241;
  74059; 75884; 77716; 79556; 81402; 83254; 85114; 86979; 88851; 90730; 92614; 94505; 96402; 98304; 100212; 102126;
  104046; 105971; 107901; 109837; 111778; 113724; 115675; 117632; 119593; 121560; 123531; 125507; 127488; 129473;
  131463; 133458; 135457; 137460; 139468; 141481; 143497; 145518; 147543; 149572; 151606; 153643; 155684; 157730;
  159779; 161832; 163889; 165950; 168014; 170083; 172155; 174230; 176310; 178393; 180479; 182569; 184662; 186759;
  188859; 190963; 193070; 195180; 197294; 199411; 201531; 203655; 205781; 207911; 210044; 212180; 214319; 216461;
  218606; 220754; 222905; 225059; 227216; 229376; 231539; 233704; 235873; 238044; 240218; 242395; 244575; 246757;
  248942; 251130; 253320; 255514; 257709; 259908; 262109; 264312; 266518; 268727; 270938; 273152; 275368; 277587;
  279808; 282031; 284257; 286486; 288717; 290950; 293185; 295423; 297664; 299906; 302151; 304398; 306648; 308899;
  311153; 313410; 315668; 317929; 320192; 322457; 324724; 326993; 329265; 331538; 333814; 336092; 338372; 340654;
  342938; 345225; 347513; 349803; 352096; 354390; 356686; 358985; 361285; 363587; 365892; 368198; 370506; 372816;
  375128; 377442; 379758; 382076; 384395; 386717; 389040; 391365; 393693; 396021; 398352; 400685; 403019; 405355;
  407693; 410033; 412375; 414718; 417063; 419410; 421758; 424109; 426461; 428814; 431170; 433527; 435886; 438246;
  440608; 442972; 445338; 447705; 450074; 452444; 454816; 457190; 459565; 461942; 464321; 466701; 469083; 471466;
  473851; 476238; 478626; 481015; 483407; 485799; 488194; 490589; 492987; 495386; 497786; 500188; 502591; 504996;
  507402; 509810; 512220; 514630; 517043; 519456; 521871; 524288].
Definition log2_mantissa_q8 : list Z := [
  0; 1; 3; 4; 6; 7; 9; 10; 11; 13; 14; 16; 17; 18; 20; 21; 22; 24; 25; 26; 28; 29; 30; 32; 33; 34; 36; 37; 38; 40;
  41; 42; 44; 45; 46; 47; 49; 50; 51; 52; 54; 55; 56; 57; 59; 60; 61; 62; 63; 65; 66; 67; 68; 69; 71; 72; 73; 74;
  75; 77; 78; 79; 80; 81; 82; 84; 85; 86; 87; 88; 89; 90; 92; 93; 94; 95; 96; 97; 98; 99; 100; 102; 103; 104; 105;
  106; 107; 108; 109; 110; 111; 112; 113; 114; 116; 117; 118; 119; 120; 121; 122; 123; 124; 125; 126; 127; 128;
  129; 130; 131; 132; 133; 134; 135; 136; 137; 138; 139; 140; 141; 142; 143; 144; 145; 146; 147; 148; 149; 150;
  151; 152; 153; 154; 155; 155; 156; 157; 158; 159; 160; 161; 162; 163; 164; 165; 166; 167; 168; 169; 169; 170;
  171; 172; 173; 174; 175; 176; 177; 178; 178; 179; 180; 181; 182; 183; 184; 185; 185; 186; 187; 188; 189; 190;
  191; 192; 192; 193; 194; 195; 196; 197; 198; 198; 199; 200; 201; 202; 203; 203; 204; 205; 206; 207; 208; 208;
  209; 210; 211; 212; 212; 213; 214; 215; 216; 216; 217; 218; 219; 220; 220; 221; 222; 223; 224; 224; 225; 226;
  227; 228; 228; 229; 230; 231; 231; 232; 233; 234; 234; 235; 236; 237; 238; 238; 239; 240; 241; 241; 242; 243;
  244; 244; 245; 246; 247; 247; 248; 249; 249; 250; 251; 252; 252; 253; 254; 255; 255].
Definition archtime_char_class : list Z := [
  0x08; 0x08; 0x08; 0x08; 0x08; 0x08; 0x08; 0x08; 0x08; 0x21; 0x21; 0x08; 0x08; 0x21; 0x08; 0x08; 0x08; 0x08; 0x08;
  0x08; 0x08; 0x08; 0x08; 0x08; 0x08; 0x08; 0x08; 0x08; 0x08; 0x08; 0x08; 0x08; 0x21; 0x01; 0x01; 0x01; 0x01; 0x01;
  0x01; 0x01; 0x01; 0x01; 0x01; 0x05; 0x01; 0x05; 0x41; 0x05; 0x07; 0x07; 0x07; 0x07; 0x07; 0x07; 0x07; 0x07; 0x07;
  0x07; 0x01; 0x01; 0x01; 0x05; 0x01; 0x01; 0x01; 0x07; 0x07; 0x07; 0x07; 0x07; 0x07; 0x05; 0x05; 0x05; 0x05; 0x05;
  0x05; 0x05; 0x05; 0x05; 0x05; 0x05; 0x05; 0x05; 0x05; 0x05; 0x05; 0x05; 0x05; 0x05; 0x05; 0x01; 0x01; 0x01; 0x01;
  0x05; 0x01; 0x07; 0x07; 0x07; 0x07; 0x07; 0x07; 0x05; 0x05; 0x05; 0x05; 0x05; 0x05; 0x05; 0x05; 0x05; 0x05; 0x05;
  0x05; 0x05; 0x05; 0x05; 0x05; 0x05; 0x05; 0x05; 0x05; 0x01; 0x01; 0x01; 0x01; 0x08; 0x10; 0x10; 0x10; 0x10; 0x10;
  0x10; 0x10; 0x10; 0x10; 0x10; 0x10; 0x10; 0x10; 0x10; 0x10; 0x10; 0x10; 0x10; 0x10; 0x10; 0x10; 0x10; 0x10; 0x10;
  0x10; 0x10; 0x10; 0x10; 0x10; 0x10; 0x10; 0x10; 0x10; 0x10; 0x10; 0x10; 0x10; 0x10; 0x10; 0x10; 0x10; 0x10; 0x10;
  0x10; 0x10; 0x10; 0x10; 0x10; 0x10; 0x10; 0x10; 0x10; 0x10; 0x10; 0x10; 0x10; 0x10; 0x10; 0x10; 0x10; 0x10; 0x10;
  0x10; 0x10; 0x10; 0x10; 0x10; 0x10; 0x10; 0x10; 0x10; 0x10; 0x10; 0x10; 0x10; 0x10; 0x10; 0x10; 0x10; 0x10; 0x10;
  0x10; 0x10; 0x10; 0x10; 0x10; 0x10; 0x10; 0x10; 0x10; 0x10; 0x10; 0x10; 0x10; 0x10; 0x10; 0x10; 0x10; 0x10; 0x10;
  0x10; 0x10; 0x10; 0x10; 0x10; 0x10; 0x10; 0x10; 0x10; 0x10; 0x10; 0x10; 0x10; 0x10; 0x10; 0x10; 0x10; 0x10; 0x10;
  0x10; 0x10; 0x10; 0x10; 0x10; 0x10; 0x10; 0x10; 0x10].

(** ** Code *)

(** [bits.LeadingZeros64]. *)
Definition LeadingZeros64 (x : Z) : Z := 64 - Len64 x.

Definition Arch_log2_q8_8 (n : Z) : run Z :=
  if n <=? 1 then Done 0 else
  if n <=? 0x100 then t ← idx c_log2_c_table n; Done (t / u32 n) else
  let z := LeadingZeros64 n in
  m ← idx log2_mantissa_q8 (u32 (Z.shiftr (u64 (Z.shiftl n (u8 (z + 1)))) 56));
  Done (u32 (Z.shiftl (63 - z) 8 + m)).

(** [freq[b]++] *)
Definition compter (freq : list Z) (b : Z) : run (list Z) := c ← idx freq b; upd freq b (u32 (c + 1)).
(** [freq[data[i]]++] *)
Definition compter_octet (data freq : list Z) (i : Z) : run (list Z) := b ← idx data i; compter freq b.

Definition histogramme (data : list Z) (len_ : Z) : run (list Z) :=
  '(v13, v9) ← loop (fun '(v13, v9) =>
      let v16 := u64 (v13 + 7) in
      if negb (v16 <? len_) then Done (inr (v13, v9)) else
      v9 ← compter_octet data v9 v13;
      v9 ← compter_octet data v9 (v13 + 1);
      v9 ← compter_octet data v9 (v13 + 2);
      v9 ← compter_octet data v9 (v13 + 3);
      v9 ← compter_octet data v9 (v13 + 4);
      v9 ← compter_octet data v9 (v13 + 5);
      v9 ← compter_octet data v9 (v13 + 6);
      v9 ← compter_octet data v9 v16;
      Done (inl (u64 (v13 + 8), v9)))
    (S (Z.to_nat len_)) (0, replicate 256 0);
  loop (fun '(v13, v9) =>
      if negb (v13 <? len_) then Done (inr v9) else
      v9 ← compter_octet data v9 v13;
      Done (inl (u64 (v13 + 1), v9)))
    (S (Z.to_nat len_)) (v13, v9).

(** [c * log2(c)] in Q8.8, added to [acc]. *)
Definition ajouter_poids (acc c : Z) : run Z :=
  if c <=? 0x100 then t ← idx c_log2_c_table c; Done (u64 (acc + t))
  else l ← Arch_log2_q8_8 c; Done (u64 (acc + u64 (c * l))).

Definition C2bt_calc_entropy_8_8 (data : list Z) (len_ : Z) : run Z :=
  let len_ := if zlen data <? len_ then zlen data else len_ in
  if len_ =? 0 then Done 0 else
  v9 ← histogramme data len_;
  o ← for_range (R := unit) 0x100 0 (fun v96 v94 =>
        v102 ← idx v9 v96;
        if 0 <? v102 then v94 ← ajouter_poids v94 v102; Done (inl v94) else Done (inl v94));
  let v94 := match o with inl v => v | inr _ => 0 end in
  v114 ← Arch_log2_q8_8 len_;
  let v117 := u32 (v94 / len_) in
  if v117 <=? v114 then Done (u32 (v114 - v117)) else Done 0.

Record C2bt_entropy_profile_t := Profil {
  Entropy_q8 : Z; Char_mask : Z; Distinct_count : Z; Payload_class : Z; Len_ : Z
}.
Definition profil_zero : C2bt_entropy_profile_t := Profil 0 0 0 0 0.

(** The histogram of [C2bt_profile_payload], with the union [v25] of the classes. *)
Definition recenser (data : list Z) (len_ : Z) : run (list Z * Z) :=
  '(v27, v21, v25) ← loop (fun '(v27, v21, v25) =>
      let v30 := u64 (v27 + 7) in
      if negb (v30 <? len_) then Done (inr (v27, v21, v25)) else
      v34 ← idx data v27;
      v38 ← idx data (v27 + 1);
      v42 ← idx data (v27 + 2);
      v46 ← idx data (v27 + 3);
      v50 ← idx data (v27 + 4);
      v54 ← idx data (v27 + 5);
      v58 ← idx data (v27 + 6);
      v62 ← idx data v30;
      v21 ← compter v21 v34; v21 ← compter v21 v38; v21 ← compter v21 v42; v21 ← compter v21 v46;
      v21 ← compter v21 v50; v21 ← compter v21 v54; v21 ← compter v21 v58; v21 ← compter v21 v62;
      a ← idx archtime_char_class v34; b ← idx archtime_char_class v38;
      c ← idx archtime_char_class v42; d ← idx archtime_char_class v46;
      e ← idx archtime_char_class v50; f ← idx archtime_char_class v54;
      g ← idx archtime_char_class v58; h ← idx archtime_char_class v62;
      Done (inl (u64 (v27 + 8), v21,
        Z.lor v25 (Z.lor (Z.lor (Z.lor (Z.lor (Z.lor (Z.lor (Z.lor a b) c) d) e) f) g) h))))
    (S (Z.to_nat len_)) (0, replicate 256 0, 0);
  loop (fun '(v27, v21, v25) =>
      if negb (v27 <? len_) then Done (inr (v21, v25)) else
      v107 ← idx data v27;
      v21 ← compter v21 v107;
      a ← idx archtime_char_class v107;
      Done (inl (u64 (v27 + 1), v21, Z.lor v25 a)))
    (S (Z.to_nat len_)) (v27, v21, v25).

(** The accumulators of the loop over the 256 values. *)
Record comptes := Comptes {
  v114 : Z; v116 : Z; v118 : Z; v120 : Z; v122 : Z; v124 : Z; v126 : Z; v128 : Z; v130 : Z; v132 : Z; v134 : Z
}.
Definition bit (v155 m : Z) : bool := negb (Z.land v155 m =? 0).
Definition plus_si (c : bool) (acc v142 : Z) : Z := if c then u64 (acc + v142) else acc.
Definition tour_compte (v21 : list Z) (v136 : Z) (s : comptes) : run (comptes + unit) :=
  v142 ← idx v21 v136;
  if 0 <? v142 then
    poids ← ajouter_poids (v114 s) v142;
    v155 ← idx archtime_char_class v136;
    Done (inl (Comptes poids (u16 (v116 s + 1))
      (plus_si (bit v155 2) (v118 s) v142)
      (plus_si (bit v155 4) (v120 s) v142)
      (plus_si (bit v155 4 && negb (bit v155 2)) (v122 s) v142)
      (plus_si (bit v155 1) (v124 s) v142)
      (plus_si (bit v155 32) (v126 s) v142)
      (plus_si (bit v155 1 && (negb (bit v155 4) && negb (bit v155 32) && negb (bit v155 64))) (v128 s) v142)
      (plus_si (bit v155 64) (v130 s) v142)
      (plus_si (bit v155 8) (v132 s) v142)
      (plus_si (bit v155 16) (v134 s) v142)))
  else Done (inl s).

(** The cascade of [return]s that ends [C2bt_profile_payload]. *)
Definition classer (len_ v203 : Z) (s : comptes) : Z :=
  if len_ <? 8 then (if v124 s =? len_ then 1 else 0) else
  if ((0x100 <=? len_) && ((0x780 <=? v203)
        || ((0x700 <=? v203) && (0 <? v134 s) && (0 <? v132 s) && (0x50 <=? v116 s))))
     || ((len_ <? 0x100) && (16 <=? len_)
        && ((0 <? v134 s) && (u64 (len_ * 55) <=? u64 (v116 s * 0x64)) && (0 <? v132 s)))
  then 4 else
  if (v132 s =? 0) && (v134 s =? 0) && (v128 s =? 0) && (v122 s =? 0) && (v130 s =? 0)
     && ((u64 (v118 s + v126 s) =? len_) && (u64 (len_ * 0x5a) / 0x64 <=? v118 s))
     && ((4 <=? v116 s) || ((16 <=? len_) && (1 <=? v116 s)))
  then 2 else
  if (v132 s =? 0) && (v134 s =? 0) && (v128 s =? 0) && (v126 s =? 0) && (1 <=? v130 s) && (v130 s <=? 3) && (32 <=? len_)
     && (u64 (v120 s + v130 s) =? len_) && (Z.min len_ 64 / 2 <=? v116 s)
  then 5 else
  if (v132 s =? 0) && (v134 s =? 0) && (v128 s =? 0) && (v130 s =? 0) && (0 <? v122 s) && (48 <=? len_)
     && ((u64 (v120 s + v126 s) =? len_) && (u64 (len_ * 0x5a) / 0x64 <=? v120 s))
     && ((u16 (if len_ <? 64 then len_ / 2 else 32) <=? v116 s) && (0x47e <=? v203) && (v203 <=? 0x60e))
  then 3 else
  if (v132 s =? 0) && (u64 (v124 s + v134 s) =? len_) && ((v203 <? 0x640) || (len_ <? 48))
  then 1 else 0.

(** [None] is the nil pointer. *)
Definition C2bt_profile_payload (data : list Z) (len_ : Z) (out_profile : option C2bt_entropy_profile_t)
  : run (option C2bt_entropy_profile_t * Z) :=
  let len_ := if zlen data <? len_ then zlen data else len_ in
  match out_profile with
  | None => Done (None, -1)
  | Some _ =>
      if len_ =? 0 then Done (Some (Profil 0 0 0 0 len_), 0) else
      '(v21, v25) ← recenser data len_;
      o ← for_range 0x100 (Comptes 0 0 0 0 0 0 0 0 0 0 0) (tour_compte v21);
      match o with
      | inr _ => Done (None, 0)
      | inl s =>
          v199 ← Arch_log2_q8_8 len_;
          let v202 := u32 (v114 s / len_) in
          let v203 := if v202 <=? v199 then u32 (v199 - v202) else 0 in
          Done (Some (Profil v203 v25 (v116 s) (classer len_ v203 s) len_), 0)
      end
  end.

(** The class, the entropy and the mask. *)
Definition C2bt_classify_payload (data : list Z) (len_ : Z) : run (Z * Z * Z) :=
  let len_ := if zlen data <? len_ then zlen data else len_ in
  r ← C2bt_profile_payload data len_ (Some profil_zero);
  let v4 := default profil_zero r.1 in
  Done (Payload_class v4, Entropy_q8 v4, Char_mask v4).

(** * The histogram *)

(** Number of octets that satisfy a test. *)
Definition nb (p : Z -> bool) (l : list Z) : Z := somme ((fun b => Z.b2z (p b)) <$> l).
Definition occ (v : Z) (l : list Z) : Z := nb (Z.eqb v) l.
Definition hist (l : list Z) : list Z := (fun v => u32 (occ v l)) <$> seqZ 0 256.
Definition classe (b : Z) : Z := bget archtime_char_class b.
Definition masque (l : list Z) : Z := fold_left (fun m b => Z.lor m (classe b)) l 0.
(** The first [i] octets. *)
Definition debut (l : list Z) (i : Z) : list Z := take (Z.to_nat i) l.

Lemma nb_app p l k : nb p (l ++ k) = nb p l + nb p k.
Proof. unfold nb. by rewrite fmap_app, somme_app. Qed.
Lemma nb_cons p b l : nb p (b :: l) = Z.b2z (p b) + nb p l.
Proof. done. Qed.
Lemma nb_range p l : 0 <= nb p l <= zlen l.
Proof.
  induction l as [|b l IH]; [done|]. rewrite nb_cons, zlen_cons. destruct (p b); cbn [Z.b2z]; lia.
Qed.

Lemma hist_lookup l i : (i < 256)%nat -> hist l !! i = Some (u32 (occ (Z.of_nat i) l)).
Proof. intros Hi. unfold hist. rewrite list_lookup_fmap, lookup_seqZ_lt by lia. done. Qed.
Lemma length_hist l : length (hist l) = 256%nat.
Proof. unfold hist. by rewrite length_fmap, length_seqZ. Qed.
Lemma hist_nil : hist [] = replicate 256 0.
Proof. by vm_compute. Qed.

Lemma compter_hist l b : is_u8 b -> compter (hist l) b = Done (hist (l ++ [b])).
Proof.
  unfold is_u8. intros Hb. unfold compter.
  rewrite (idx_lookup _ _ (u32 (occ b l))) by (lia || (rewrite hist_lookup by lia; do 2 f_equal; f_equal; lia)).
  rewrite run_bind_done. unfold upd. unfold zlen. rewrite length_hist.
  destruct (Z.leb_spec 0 b), (Z.ltb_spec b (Z.of_nat 256)); simpl; try lia. f_equal.
  apply list_eq. intros i. destruct (decide (i < 256)%nat) as [Hi|Hi].
  - rewrite hist_lookup by done. unfold occ. rewrite nb_app, nb_cons. change (nb _ []) with 0.
    destruct (decide (i = Z.to_nat b)) as [->|Hn].
    + rewrite list_lookup_insert_eq by (rewrite length_hist; lia). rewrite Z2Nat.id by lia. rewrite Z.eqb_refl.
      f_equal. unfold u32. by rewrite Zplus_mod_idemp_l.
    + rewrite list_lookup_insert_ne, hist_lookup by lia. destruct (Z.eqb_spec (Z.of_nat i) b); [lia|]. cbn [Z.b2z]. by rewrite !Z.add_0_r.
  - rewrite !lookup_ge_None_2; [done|rewrite length_hist; lia|rewrite length_insert, length_hist; lia].
Qed.

Lemma debut_octet data i b : 0 <= i -> data !! Z.to_nat i = Some b -> debut data (i + 1) = debut data i ++ [b].
Proof. intros Hi Hb. unfold debut. replace (Z.to_nat (i + 1)) with (S (Z.to_nat i)) by lia. by apply take_S_r. Qed.

Lemma octet_lu data i : bytes_ok data -> 0 <= i < zlen data ->
  exists b, data !! Z.to_nat i = Some b /\ idx data i = Done b /\ is_u8 b.
Proof.
  intros Hd Hi. destruct (lookup_lt_is_Some_2 data (Z.to_nat i)) as [b Hb]; [unfold zlen in Hi; lia|].
  exists b. split_and!; [done|apply idx_lookup; [lia|done]|exact (proj1 (Forall_lookup _ _) Hd _ _ Hb)].
Qed.

Lemma compter_octet_hist data i j : bytes_ok data -> 0 <= i < zlen data -> j = i + 1 ->
  compter_octet data (hist (debut data i)) i = Done (hist (debut data j)).
Proof.
  intros Hd Hi ->. destruct (octet_lu data i Hd Hi) as (b & Hb & E & Hu). unfold compter_octet.
  rewrite E, run_bind_done, compter_hist by done. by rewrite <- (debut_octet _ _ b) by (done || lia).
Qed.

Lemma histogramme_ok data len : bytes_ok data -> 0 <= len <= zlen data -> zlen data < 2 ^ 63 ->
  histogramme data len = Done (hist (debut data len)).
Proof.
  intros Hd Hl Hz. cut (wp (histogramme data len) (fun h => h = hist (debut data len))); [by intros (? & -> & ->)%wp_exists|].
  unfold histogramme. apply wp_bind.
  eapply wp_mono; [apply (wp_loop _ (fun s => 0 <= s.1 <= len /\ s.2 = hist (debut data s.1)) (fun s => len - s.1)
     (fun s => 0 <= s.1 <= len /\ s.2 = hist (debut data s.1)))|].
  - intros [i h] [Hi Hh]; simpl in *. subst h. rewrite (u64_id (i + 7)) by (unfold is_u64; lia).
    destruct (Z.ltb_spec (i + 7) len); simpl; [|done].
    rewrite (compter_octet_hist data i (i + 1)), run_bind_done by (done || lia).
    rewrite (compter_octet_hist data (i + 1) (i + 2)), run_bind_done by (done || lia).
    rewrite (compter_octet_hist data (i + 2) (i + 3)), run_bind_done by (done || lia).
    rewrite (compter_octet_hist data (i + 3) (i + 4)), run_bind_done by (done || lia).
    rewrite (compter_octet_hist data (i + 4) (i + 5)), run_bind_done by (done || lia).
    rewrite (compter_octet_hist data (i + 5) (i + 6)), run_bind_done by (done || lia).
    rewrite (compter_octet_hist data (i + 6) (i + 7)), run_bind_done by (done || lia).
    rewrite (compter_octet_hist data (i + 7) (i + 8)), run_bind_done by (done || lia).
    simpl. rewrite u64_id by (unfold is_u64; lia). split_and!; (done || lia).
  - split; [cbn; lia|]. symmetry. apply hist_nil.
  - cbn. lia.
  - intros [i h] [Hi Hh]; cbn [fst snd] in *. subst h.
    apply (wp_loop _ (fun s => 0 <= s.1 <= len /\ s.2 = hist (debut data s.1)) (fun s => len - s.1)); [|done|cbn; lia].
    intros [j h] [Hj Hh]; simpl in *. subst h. destruct (Z.ltb_spec j len); simpl.
    + rewrite (compter_octet_hist data j (j + 1)), run_bind_done by (done || lia).
      simpl. rewrite u64_id by (unfold is_u64; lia). split_and!; (done || lia).
    + by replace j with len by lia.
Qed.

Lemma classe_idx b : is_u8 b -> idx archtime_char_class b = Done (classe b).
Proof. intros Hb. apply idx_bget. exact Hb. Qed.

Lemma masque_snoc l b : masque (l ++ [b]) = Z.lor (masque l) (classe b).
Proof. unfold masque. by rewrite fold_left_app. Qed.

(** Eight octets at once: what they add to the histogram and to the mask. *)
Lemma huit_octets data i : bytes_ok data -> 0 <= i -> i + 8 <= zlen data ->
  exists os, length os = 8%nat /\ Forall is_u8 os /\ debut data (i + 8) = debut data i ++ os /\
    forall k z o, z = Z.of_nat k -> os !! k = Some o -> idx data (i + z) = Done o.
Proof.
  intros Hd Hi Hz. exists (take 8 (drop (Z.to_nat i) data)). split_and!.
  - rewrite length_take, length_drop. unfold zlen in Hz. lia.
  - by apply Forall_take, Forall_drop.
  - unfold debut. replace (Z.to_nat (i + 8)) with (Z.to_nat i + 8)%nat by lia. by rewrite take_take_drop.
  - intros k z o -> Ho. apply idx_lookup; [lia|]. apply lookup_take_Some in Ho as [Ho Hk]. rewrite lookup_drop in Ho.
    by replace (Z.to_nat (i + Z.of_nat k)) with (Z.to_nat i + k)%nat by lia.
Qed.

Lemma recenser_ok data len : bytes_ok data -> 0 <= len <= zlen data -> zlen data < 2 ^ 63 ->
  recenser data len = Done (hist (debut data len), masque (debut data len)).
Proof.
  intros Hd Hl Hz.
  cut (wp (recenser data len) (fun r => r = (hist (debut data len), masque (debut data len)))); [by intros (? & -> & ->)%wp_exists|].
  set (I := fun s : Z * list Z * Z => 0 <= s.1.1 <= len /\ s.1.2 = hist (debut data s.1.1) /\ s.2 = masque (debut data s.1.1)).
  unfold recenser. apply wp_bind.
  eapply wp_mono; [apply (wp_loop _ I (fun s => len - s.1.1) I)|].
  - intros [[i h] m] (Hi & Hh & Hm); simpl in *. subst h m. rewrite (u64_id (i + 7)) by (unfold is_u64; lia).
    destruct (Z.ltb_spec (i + 7) len); simpl; [|done].
    destruct (huit_octets data i Hd) as (os & Ho8 & Hos & Hdeb & Hidx); [lia..|].
    destruct os as [|a [|b [|c [|d [|e [|f [|g [|x [|]]]]]]]]]; try discriminate.
    rewrite !Forall_cons_iff in Hos. destruct Hos as (? & ? & ? & ? & ? & ? & ? & ? & _).
    assert (idx data i = Done a) as -> by (rewrite <- (Hidx 0%nat 0 a eq_refl eq_refl); f_equal; lia). rewrite run_bind_done.
    rewrite (Hidx 1%nat 1 b), run_bind_done, (Hidx 2%nat 2 c), run_bind_done, (Hidx 3%nat 3 d), run_bind_done by done.
    rewrite (Hidx 4%nat 4 e), run_bind_done, (Hidx 5%nat 5 f), run_bind_done, (Hidx 6%nat 6 g), run_bind_done by done.
    rewrite (Hidx 7%nat 7 x), run_bind_done by done.
    do 8 (rewrite compter_hist, run_bind_done by done). rewrite !classe_idx by done. simpl.
    rewrite u64_id by (unfold is_u64; lia). unfold I; cbn [fst snd]. rewrite Hdeb.
    split_and!; [lia|lia|by rewrite <- !app_assoc| |lia|lia].
    unfold masque. rewrite fold_left_app. cbn [fold_left]. by rewrite <- !Z.lor_assoc.
  - split; [cbn; lia|]. split; [symmetry; apply hist_nil|done].
  - cbn. lia.
  - intros [[i h] m] (Hi & Hh & Hm); cbn [fst snd] in *. subst h m.
    apply (wp_loop _ I (fun s => len - s.1.1)); [|done|cbn; lia].
    intros [[j h] m] (Hj & Hh & Hm); simpl in *. subst h m. destruct (Z.ltb_spec j len); simpl.
    + destruct (octet_lu data j Hd) as (b & Hb & E & Hu); [lia|].
      rewrite E, run_bind_done, compter_hist, run_bind_done, classe_idx by done. simpl.
      rewrite u64_id by (unfold is_u64; lia). unfold I; cbn [fst snd].
      rewrite <- masque_snoc, <- debut_octet by (done || lia). split_and!; (done || lia).
    + by replace j with len by lia.
Qed.

(** * Logarithm *)

(** Base-two logarithm in Q8.8: the table up to 256, then the exponent and the
    eight bits that follow the leading one. *)
Definition log2_q8 (n : Z) : Z :=
  if n <=? 1 then 0 else
  if n <=? 256 then bget c_log2_c_table n / n
  else 256 * Z.log2 n + bget log2_mantissa_q8 (n / 2 ^ (Z.log2 n - 8) mod 256).
(** [c * log2(c)]. *)
Definition poids (c : Z) : Z := if c <=? 256 then bget c_log2_c_table c else c * log2_q8 c.

Lemma mantisse n k : k = Z.log2 n -> 8 <= k -> 0 < n < 2 ^ 64 ->
  Z.shiftr (u64 (Z.shiftl n (64 - k))) 56 = n / 2 ^ (k - 8) mod 256.
Proof.
  intros Hk H8 Hn. assert (k < 64) by (subst k; apply Z.log2_lt_pow2; lia).
  rewrite Z.shiftr_div_pow2, Z.shiftl_mul_pow2 by lia. unfold u64.
  replace (2 ^ 64) with (2 ^ k * 2 ^ (64 - k)) by (rewrite <- Z.pow_add_r by lia; f_equal; lia).
  rewrite Zmult_mod_distr_r. replace (2 ^ 56) with (2 ^ (64 - k) * 2 ^ (k - 8)) by (rewrite <- Z.pow_add_r by lia; f_equal; lia).
  rewrite <- Z.div_div, Z.div_mul by lia.
  replace (2 ^ k) with (2 ^ (k - 8) * 256) by (change 256 with (2 ^ 8); rewrite <- Z.pow_add_r by lia; f_equal; lia).
  rewrite Z.rem_mul_r, (Z.mul_comm (2 ^ (k - 8))), Z.div_add, Z.div_small by (try apply Z.mod_pos_bound; lia). lia.
Qed.

Lemma table_log n : 0 <= n <= 256 -> idx c_log2_c_table n = Done (bget c_log2_c_table n).
Proof. intros Hn. apply idx_bget. change (zlen c_log2_c_table) with 257. lia. Qed.

Lemma log2_total n : 0 <= n < 2 ^ 64 -> Arch_log2_q8_8 n = Done (log2_q8 n).
Proof.
  intros Hn. unfold Arch_log2_q8_8, log2_q8. destruct (Z.leb_spec n 1); [done|]. destruct (Z.leb_spec n 256).
  - rewrite table_log, run_bind_done, u32_id by (unfold is_u32; lia). done.
  - assert (8 <= Z.log2 n < 64) as Hk by (split; [apply Z.log2_le_pow2|apply Z.log2_lt_pow2]; lia).
    unfold LeadingZeros64, Len64. destruct (Z.eqb_spec n 0); [lia|].
    replace (64 - (Z.log2 n + 1) + 1) with (64 - Z.log2 n) by lia. rewrite u8_id by (unfold is_u8; lia).
    rewrite (mantisse n (Z.log2 n)) by (done || lia). set (m := n / _ mod 256).
    assert (0 <= m < 256) by (apply Z.mod_pos_bound; lia). rewrite u32_id by (unfold is_u32; lia).
    rewrite idx_bget, run_bind_done by (change (zlen log2_mantissa_q8) with 256; lia).
    replace (63 - (64 - (Z.log2 n + 1))) with (Z.log2 n) by lia. rewrite Z.shiftl_mul_pow2 by lia. change (2 ^ 8) with 256.
    assert (0 <= bget log2_mantissa_q8 m < 256).
    { apply (bget_Forall (fun x => 0 <= x < 256)); [apply octets_valides_ok; by vm_compute|]. change (zlen log2_mantissa_q8) with 256. lia. }
    rewrite u32_id by (unfold is_u32; lia). f_equal. lia.
Qed.

(** The table, checked entry by entry. *)
Definition table_bornee : bool :=
  forallb (fun n => let t := bget c_log2_c_table n in (0 <=? t) && (t <=? 2048 * n)
    && (t / Z.max n 1 <=? 2048) && ((n <=? 1) || (1 <=? t / n))) (seqZ 0 257).
Lemma table_bornee_ok : table_bornee = true.
Proof. by vm_compute. Qed.

Lemma dans_table n : 0 <= n <= 256 -> 0 <= bget c_log2_c_table n <= 2048 * n /\ bget c_log2_c_table n / Z.max n 1 <= 2048.
Proof.
  intros Hn. pose proof (proj1 (forallb_forall _ _) table_bornee_ok n) as H. cbv beta zeta in H.
  assert (In n (seqZ 0 257)) as Hi by (apply list_elem_of_In, elem_of_seqZ; lia). specialize (H Hi). zbool. lia.
Qed.

Lemma log2_q8_range n : n < 2 ^ 64 -> 0 <= log2_q8 n < 2 ^ 14.
Proof.
  intros Hn. unfold log2_q8. destruct (Z.leb_spec n 1); [lia|]. destruct (Z.leb_spec n 256).
  - destruct (dans_table n) as [Ht Hd]; [lia|]. rewrite Z.max_l in Hd by lia. split; [apply Z.div_pos; lia|]. lia.
  - assert (8 <= Z.log2 n < 64) as Hk by (split; [apply Z.log2_le_pow2|apply Z.log2_lt_pow2]; lia).
    assert (0 <= bget log2_mantissa_q8 (n / 2 ^ (Z.log2 n - 8) mod 256) < 256); [|lia].
    apply (bget_Forall (fun x => 0 <= x < 256)); [apply octets_valides_ok; by vm_compute|].
    change (zlen log2_mantissa_q8) with 256. apply Z.mod_pos_bound. lia.
Qed.

Lemma log2_q8_court n : n <= 256 -> 0 <= log2_q8 n <= 2048.
Proof.
  intros Hn. unfold log2_q8. destruct (Z.leb_spec n 1); [lia|]. destruct (Z.leb_spec n 256); [|lia].
  destruct (dans_table n) as [Ht Hd]; [lia|]. rewrite Z.max_l in Hd by lia. split; [apply Z.div_pos; lia|]. lia.
Qed.

Lemma poids_range c : 0 <= c < 2 ^ 32 -> 0 <= poids c <= 2 ^ 14 * c.
Proof.
  intros Hc. unfold poids. destruct (Z.leb_spec c 256); [destruct (dans_table c); lia|].
  pose proof (log2_q8_range c). nia.
Qed.

Lemma ajouter_poids_ok acc c : 0 <= c < 2 ^ 32 -> ajouter_poids acc c = Done (u64 (acc + poids c)).
Proof.
  intros Hc. unfold ajouter_poids, poids. destruct (Z.leb_spec c 256).
  - by rewrite table_log, run_bind_done by lia.
  - rewrite log2_total, run_bind_done by lia. f_equal. unfold u64. by rewrite Zplus_mod_idemp_r.
Qed.

(** * Sums over the 256 values *)
Definition cumul (f : Z -> Z) (n : nat) : Z := somme ((fun i => f (Z.of_nat i)) <$> List.seq 0 n).

Lemma cumul_S f n : cumul f (S n) = cumul f n + f (Z.of_nat n).
Proof. unfold cumul. rewrite seq_S, fmap_app, somme_app. cbn. lia. Qed.
Lemma cumul_ext f g n : (forall i, 0 <= i < Z.of_nat n -> f i = g i) -> cumul f n = cumul g n.
Proof.
  induction n as [|n IH]; intros H; [done|]. rewrite !cumul_S, IH by (intros; apply H; lia). by rewrite H by lia.
Qed.
Lemma cumul_plus f g n : cumul (fun i => f i + g i) n = cumul f n + cumul g n.
Proof. induction n as [|n IH]; [done|]. rewrite !cumul_S, IH. lia. Qed.
Lemma cumul_nul n : cumul (fun _ => 0) n = 0.
Proof. induction n as [|n IH]; [done|]. by rewrite cumul_S, IH. Qed.
Lemma cumul_borne f k n : (forall i, 0 <= i < Z.of_nat n -> 0 <= f i <= k i) -> 0 <= cumul f n <= cumul k n.
Proof.
  induction n as [|n IH]; intros H; [done|]. rewrite !cumul_S.
  assert (0 <= cumul f n <= cumul k n) by (apply IH; intros; apply H; lia). specialize (H (Z.of_nat n) ltac:(lia)). lia.
Qed.
Lemma cumul_facteur c f n : cumul (fun i => c * f i) n = c * cumul f n.
Proof. induction n as [|n IH]; [cbn; lia|]. rewrite !cumul_S, IH. lia. Qed.

Lemma cumul_indicatrice (p : Z -> bool) b n :
  cumul (fun v => if p v then Z.b2z (v =? b) else 0) n = if (0 <=? b) && (b <? Z.of_nat n) then Z.b2z (p b) else 0.
Proof.
  induction n as [|n IH]; [destruct (0 <=? b) eqn:E1, (b <? Z.of_nat 0) eqn:E2; simpl; zbool; (done || lia)|].
  rewrite cumul_S, IH. destruct (Z.eqb_spec (Z.of_nat n) b) as [<-|Hn].
  - destruct (Z.leb_spec 0 (Z.of_nat n)), (Z.ltb_spec (Z.of_nat n) (Z.of_nat n)), (Z.ltb_spec (Z.of_nat n) (Z.of_nat (S n)));
      simpl; try lia. by destruct (p _).
  - replace (b <? Z.of_nat (S n)) with (b <? Z.of_nat n) by (destruct (Z.ltb_spec b (Z.of_nat n)), (Z.ltb_spec b (Z.of_nat (S n))); (done || lia)).
    cbn [Z.b2z]. destruct (p (Z.of_nat n)); apply Z.add_0_r.
Qed.

(** Summing the histogram over the values of a kind counts the octets of that kind. *)
Lemma cumul_nb (p : Z -> bool) l : bytes_ok l -> cumul (fun v => if p v then occ v l else 0) 256 = nb p l.
Proof.
  induction 1 as [|b l Hb Hl IH].
  - rewrite (cumul_ext _ (fun _ => 0)); [apply cumul_nul|]. intros i _. by destruct (p i).
  - rewrite nb_cons, <- IH, (cumul_ext _ (fun v => (if p v then Z.b2z (v =? b) else 0) + (if p v then occ v l else 0))).
    + rewrite cumul_plus, cumul_indicatrice. unfold is_u8 in Hb.
      destruct (Z.leb_spec 0 b), (Z.ltb_spec b (Z.of_nat 256)); simpl; lia.
    + intros i _. unfold occ. rewrite nb_cons. destruct (p i); lia.
Qed.

Lemma occ_elem v l : 0 < occ v l <-> v ∈ l.
Proof.
  induction l as [|b l IH]; [split; [done|by intros ?%elem_of_nil]|]. unfold occ in *. rewrite nb_cons, elem_of_cons, <- IH.
  pose proof (nb_range (Z.eqb v) l). destruct (Z.eqb_spec v b); cbn [Z.b2z]; [|naive_solver lia]. split; [by left|lia].
Qed.

Lemma cumul_distincts l : bytes_ok l -> cumul (fun v => Z.b2z (0 <? occ v l)) 256 = nb_distincts l.
Proof.
  intros Hl. assert (forall n, cumul (fun v => Z.b2z (0 <? occ v l)) n
    = zlen (List.filter (fun v => 0 <? occ v l) (Z.of_nat <$> List.seq 0 n))) as ->.
  { induction n as [|n IH]; [done|]. rewrite cumul_S, IH, seq_S, fmap_app, List.filter_app, zlen_app. f_equal. cbn.
    by destruct (_ <? _). }
  apply nb_distincts_alt.
  - apply NoDup_ListNoDup, List.NoDup_filter, NoDup_ListNoDup. apply NoDup_fmap; [intros ???; lia|]. apply NoDup_ListNoDup, seq_NoDup.
  - intros x. rewrite list_elem_of_In, filter_In, <- list_elem_of_In, list_elem_of_fmap, Z.ltb_lt, occ_elem.
    split; [by intros [_ ?]|]. intros Hx. split; [|done]. pose proof (proj1 (Forall_forall _ _) Hl x Hx) as Hu. unfold is_u8 in Hu.
    exists (Z.to_nat x). split; [lia|]. apply elem_of_seq. lia.
Qed.

(** * The reference profile *)

(** The classes of octets, in plain terms. *)
Definition dans (a b x : Z) : bool := (a <=? x) && (x <=? b).
Definition hexa (x : Z) : bool := dans 48 57 x || dans 65 70 x || dans 97 102 x.
Definition b64 (x : Z) : bool :=
  dans 48 57 x || dans 65 90 x || dans 97 122 x || (x =? 43) || (x =? 45) || (x =? 47) || (x =? 61) || (x =? 95).
Definition blanc (x : Z) : bool := (x =? 9) || (x =? 10) || (x =? 13) || (x =? 32).
Definition point (x : Z) : bool := x =? 46.
Definition imprimable (x : Z) : bool := dans 32 126 x || blanc x.
Definition haut (x : Z) : bool := dans 128 255 x.
Definition controle (x : Z) : bool := negb (imprimable x || haut x).

Definition entropie_de (l : list Z) : Z :=
  Z.max 0 (log2_q8 (zlen l) - cumul (fun v => poids (occ v l)) 256 / zlen l).

(** Octets that no text holds: almost uniform over a long payload, or control and
    high octets together with many distinct values. *)
Definition binaire (l : list Z) : bool :=
  let mele := existsb haut l && existsb controle l in
  if 256 <=? zlen l then (1920 <=? entropie_de l) || (mele && (1792 <=? entropie_de l) && (80 <=? nb_distincts l))
  else (16 <=? zlen l) && mele && (zlen l * 55 <=? nb_distincts l * 100).

Definition classe_de (l : list Z) : Z :=
  let n := zlen l in let d := nb_distincts l in let e := entropie_de l in
  if n <? 8 then (if forallb imprimable l then 1 else 0) else
  if binaire l then 4 else
  if forallb (fun x => hexa x || blanc x) l && (n * 90 / 100 <=? nb hexa l) && ((4 <=? d) || (16 <=? n)) then 2 else
  if forallb (fun x => b64 x || point x) l && dans 1 3 (nb point l) && (32 <=? n) && (Z.min n 64 / 2 <=? d) then 5 else
  if forallb (fun x => b64 x || blanc x) l && existsb (fun x => b64 x && negb (hexa x)) l && (48 <=? n)
     && (n * 90 / 100 <=? nb b64 l) && (Z.min n 64 / 2 <=? d) && dans 1150 1550 e then 3 else
  if forallb (fun x => imprimable x || haut x) l && ((e <? 1600) || (n <? 48)) then 1 else 0.

Definition profil_de (l : list Z) : C2bt_entropy_profile_t :=
  if zlen l =? 0 then profil_zero
  else Profil (entropie_de l) (masque l) (nb_distincts l) (classe_de l) (zlen l).

(** The table says what the plain predicates say. *)
Definition ponctuation (x : Z) : bool := imprimable x && negb (b64 x) && negb (blanc x) && negb (point x).
Definition classes_conformes : bool :=
  forallb (fun x => let c := classe x in
    eqb (bit c 2) (hexa x) && eqb (bit c 4) (b64 x) && eqb (bit c 1) (imprimable x) && eqb (bit c 32) (blanc x)
    && eqb (bit c 64) (point x) && eqb (bit c 8) (controle x) && eqb (bit c 16) (haut x)) (seqZ 0 256).
Lemma classes_conformes_ok : classes_conformes = true.
Proof. by vm_compute. Qed.

Lemma classe_lue x : is_u8 x -> let c := classe x in
  bit c 2 = hexa x /\ bit c 4 = b64 x /\ bit c 1 = imprimable x /\ bit c 32 = blanc x /\
  bit c 64 = point x /\ bit c 8 = controle x /\ bit c 16 = haut x.
Proof.
  intros Hx. pose proof (proj1 (forallb_forall _ _) classes_conformes_ok x) as H. cbv beta zeta in H.
  assert (In x (seqZ 0 256)) as Hi by (apply list_elem_of_In, elem_of_seqZ; unfold is_u8 in Hx; lia). specialize (H Hi).
  rewrite !andb_true_iff, !eqb_true_iff in H. cbv zeta. tauto.
Qed.

(** The accumulators after the values below [n]. *)
Definition somme_si (p : Z -> bool) (l : list Z) (n : nat) : Z := u64 (cumul (fun v => if p v then occ v l else 0) n).
Definition comptes_de (l : list Z) (n : nat) : comptes :=
  Comptes (u64 (cumul (fun v => poids (occ v l)) n)) (u16 (cumul (fun v => Z.b2z (0 <? occ v l)) n))
    (somme_si hexa l n) (somme_si b64 l n) (somme_si (fun x => b64 x && negb (hexa x)) l n) (somme_si imprimable l n)
    (somme_si blanc l n) (somme_si ponctuation l n) (somme_si point l n) (somme_si controle l n) (somme_si haut l n).

Lemma occ_range v l : 0 <= occ v l <= zlen l.
Proof. apply nb_range. Qed.

Lemma hist_idx l v : zlen l < 2 ^ 32 -> 0 <= v < 256 -> idx (hist l) v = Done (occ v l).
Proof.
  intros Hl Hv. pose proof (occ_range v l). apply idx_lookup; [lia|]. rewrite hist_lookup by lia.
  rewrite Z2Nat.id by lia. by rewrite u32_id by (unfold is_u32; lia).
Qed.

Lemma plus_si_somme p l n c v : c = p (Z.of_nat n) -> v = occ (Z.of_nat n) l ->
  plus_si c (somme_si p l n) v = somme_si p l (S n).
Proof.
  intros -> ->. unfold plus_si, somme_si. rewrite cumul_S. destruct (p _).
  - unfold u64. by rewrite Zplus_mod_idemp_l.
  - by rewrite Z.add_0_r.
Qed.
Lemma somme_si_nul p l n : occ (Z.of_nat n) l = 0 -> somme_si p l (S n) = somme_si p l n.
Proof. intros H. unfold somme_si. rewrite cumul_S, H. by destruct (p _); rewrite Z.add_0_r. Qed.

Lemma tour_compte_ok l n : zlen l < 2 ^ 32 -> (n < 256)%nat ->
  tour_compte (hist l) (Z.of_nat n) (comptes_de l n) = Done (inl (comptes_de l (S n))).
Proof.
  intros Hl Hn. pose proof (occ_range (Z.of_nat n) l). unfold tour_compte.
  rewrite hist_idx, run_bind_done by lia. destruct (Z.ltb_spec 0 (occ (Z.of_nat n) l)) as [Hp|Hp].
  - destruct (classe_lue (Z.of_nat n)) as (E1 & E2 & E3 & E4 & E5 & E6 & E7); [unfold is_u8; lia|].
    cbn [v114 comptes_de]. rewrite ajouter_poids_ok, run_bind_done, classe_idx, run_bind_done by (unfold is_u8; lia).
    cbn [v116 v118 v120 v122 v124 v126 v128 v130 v132 v134 comptes_de].
    rewrite E1, E2, E3, E4, E5, E6, E7. rewrite !(plus_si_somme _ l n) by (done || (unfold ponctuation; by rewrite <- !andb_assoc)).
    unfold comptes_de. rewrite !cumul_S. do 3 f_equal.
    + unfold u64. by rewrite Zplus_mod_idemp_l.
    + destruct (Z.ltb_spec 0 (occ (Z.of_nat n) l)); [|lia]. unfold u16. by rewrite Zplus_mod_idemp_l.
  - assert (occ (Z.of_nat n) l = 0) as E by lia. unfold comptes_de. rewrite !somme_si_nul by done.
    rewrite !cumul_S, E. change (poids 0) with 0. change (Z.b2z (0 <? 0)) with 0. by rewrite !Z.add_0_r.
Qed.

(** Partitions of the octets, checked on the 256 values. *)
Lemma nb_partition p qs l : bytes_ok l ->
  forallb (fun x => Z.b2z (p x) =? somme ((fun q : Z -> bool => Z.b2z (q x)) <$> qs)) (seqZ 0 256) = true ->
  nb p l = somme ((fun q => nb q l) <$> qs).
Proof.
  intros Hl H. induction Hl as [|b l Hb Hl IH].
  - clear H. induction qs as [|q qs IHq]; [done|]. cbn. exact IHq.
  - rewrite nb_cons, IH. pose proof (proj1 (forallb_forall _ _) H b) as Hp. cbv beta in Hp.
    assert (In b (seqZ 0 256)) as Hi by (apply list_elem_of_In, elem_of_seqZ; unfold is_u8 in Hb; lia). specialize (Hp Hi).
    apply Z.eqb_eq in Hp. rewrite Hp. clear. induction qs as [|q qs IHq]; [done|]. rewrite !fmap_cons.
    unfold somme in *. cbn [foldr]. rewrite nb_cons. lia.
Qed.

Lemma forallb_nb p l : forallb p l = (nb p l =? zlen l).
Proof.
  induction l as [|b l IH]; [done|]. cbn [forallb]. rewrite IH, nb_cons, zlen_cons. pose proof (nb_range p l).
  destruct (p b); cbn [Z.b2z andb].
  - destruct (Z.eqb_spec (nb p l) (zlen l)), (Z.eqb_spec (1 + nb p l) (1 + zlen l)); (done || lia).
  - symmetry. apply Z.eqb_neq. lia.
Qed.
Lemma existsb_nb p l : existsb p l = (0 <? nb p l).
Proof.
  induction l as [|b l IH]; [done|]. cbn [existsb]. rewrite IH, nb_cons. pose proof (nb_range p l).
  destruct (p b); cbn [Z.b2z orb]; [symmetry; apply Z.ltb_lt; lia|]. by rewrite Z.add_0_l.
Qed.

Lemma somme_si_nb p l : bytes_ok l -> zlen l < 2 ^ 32 -> somme_si p l 256 = nb p l.
Proof.
  intros Hl Hz. unfold somme_si. rewrite cumul_nb by done. pose proof (nb_range p l). apply u64_id. unfold is_u64. lia.
Qed.

Lemma cumul_occ l : bytes_ok l -> cumul (fun v => occ v l) 256 = zlen l.
Proof.
  intros Hl. pose proof (cumul_nb (fun _ => true) l Hl) as H. cbv beta iota in H. rewrite H. clear H Hl.
  induction l as [|b l IH]; [done|]. rewrite nb_cons, zlen_cons, IH. done.
Qed.

Lemma distincts_range l : bytes_ok l -> 0 <= nb_distincts l <= 256.
Proof.
  intros Hl. rewrite <- cumul_distincts by done.
  destruct (cumul_borne (fun v => Z.b2z (0 <? occ v l)) (fun _ => 1) 256) as [Ha Hb].
  - intros i _. destruct (_ <? _); cbn; lia.
  - split; [done|]. etrans; [exact Hb|]. by vm_compute.
Qed.

Lemma distincts_positif l : l <> [] -> 1 <= nb_distincts l.
Proof.
  destruct l as [|b l]; [done|]. intros _. unfold nb_distincts. assert (b ∈ remove_dups (b :: l)) as H
    by (apply elem_of_remove_dups, elem_of_cons; by left).
  destruct (remove_dups (b :: l)); [by apply elem_of_nil in H|]. rewrite zlen_cons. pose proof (zlen_nonneg l0). lia.
Qed.

Lemma somme_poids_range l : bytes_ok l -> zlen l < 2 ^ 32 ->
  0 <= cumul (fun v => poids (occ v l)) 256 <= 2 ^ 14 * zlen l.
Proof.
  intros Hl Hz. rewrite <- (cumul_occ l) by done. rewrite <- cumul_facteur.
  apply (cumul_borne (fun v => poids (occ v l)) (fun v => 2 ^ 14 * occ v l)). intros i _. pose proof (occ_range i l).
  apply poids_range. lia.
Qed.

Lemma comptes_finaux l : bytes_ok l -> zlen l < 2 ^ 32 ->
  comptes_de l 256 = Comptes (cumul (fun v => poids (occ v l)) 256) (nb_distincts l) (nb hexa l) (nb b64 l)
    (nb (fun x => b64 x && negb (hexa x)) l) (nb imprimable l) (nb blanc l) (nb ponctuation l) (nb point l) (nb controle l) (nb haut l).
Proof.
  intros Hl Hz. unfold comptes_de. rewrite !somme_si_nb by done. pose proof (somme_poids_range l Hl Hz).
  pose proof (distincts_range l Hl). rewrite u64_id by (unfold is_u64; lia).
  rewrite cumul_distincts, u16_id by (done || (unfold is_u16; lia)). done.
Qed.

Lemma si_egal {A} (a b : bool) (x y z w : A) : a = b -> x = z -> (a = false -> y = w) ->
  (if a then x else y) = (if b then z else w).
Proof. intros <- <- H. destruct a; auto. Qed.

(** Boolean combinations of comparisons, through their meaning. *)
Ltac par_arith :=
  apply eq_true_iff_eq; rewrite ?andb_true_iff, ?orb_true_iff, ?Z.eqb_eq, ?Z.leb_le, ?Z.ltb_lt; lia.

Lemma classer_ok l : bytes_ok l -> 0 < zlen l < 2 ^ 32 -> classer (zlen l) (entropie_de l) (comptes_de l 256) = classe_de l.
Proof.
  intros Hl Hz. assert (l <> []) as Hnil by (intros ->; unfold zlen in Hz; cbn [length] in Hz; lia).
  rewrite comptes_finaux by (done || lia). unfold classer, classe_de, binaire, dans.
  cbn [v114 v116 v118 v120 v122 v124 v126 v128 v130 v132 v134]. rewrite !forallb_nb, !existsb_nb.
  pose proof (nb_partition (fun x => hexa x || blanc x) [hexa; blanc] l Hl eq_refl) as P1.
  pose proof (nb_partition (fun x => b64 x || point x) [b64; point] l Hl eq_refl) as P2.
  pose proof (nb_partition (fun x => b64 x || blanc x) [b64; blanc] l Hl eq_refl) as P3.
  pose proof (nb_partition (fun x => imprimable x || haut x) [imprimable; haut] l Hl eq_refl) as P4.
  pose proof (nb_partition imprimable [b64; blanc; point; ponctuation] l Hl eq_refl) as P5.
  pose proof (nb_partition b64 [hexa; fun x => b64 x && negb (hexa x)] l Hl eq_refl) as P6.
  pose proof (nb_partition (fun _ => true) [controle; haut; imprimable] l Hl eq_refl) as P7.
  pose proof (forallb_nb (fun _ => true) l) as P8. rewrite (proj2 (forallb_forall _ _)) in P8 by done. symmetry in P8. apply Z.eqb_eq in P8.
  cbn in P1, P2, P3, P4, P5, P6, P7. rewrite P8 in P7. rewrite P1, P2, P3, P4. clear P1 P2 P3 P4 P8.
  pose proof (distincts_range l Hl). pose proof (distincts_positif l Hnil).
  pose proof (nb_range controle l). pose proof (nb_range haut l). pose proof (nb_range imprimable l). pose proof (nb_range b64 l).
  pose proof (nb_range hexa l). pose proof (nb_range blanc l). pose proof (nb_range point l). pose proof (nb_range ponctuation l).
  pose proof (nb_range (fun x => b64 x && negb (hexa x)) l).
  rewrite !u64_id by (unfold is_u64; lia). rewrite u16_id by (unfold is_u16; destruct (_ <? 64) eqn:?; zbool; divlia).
  set (n := zlen l) in *. set (e := entropie_de l). set (d := nb_distincts l) in *. set (c := nb controle l) in *. set (h := nb haut l) in *.
  set (i := nb imprimable l) in *. set (b := nb b64 l) in *. set (x := nb hexa l) in *. set (w := nb blanc l) in *.
  set (p := nb point l) in *. set (q := nb ponctuation l) in *. set (s := nb (fun x => _ && _) l) in *.
  clearbody n e d c h i b x w p q s. clear Hl Hnil l.
  apply si_egal; [done|by apply si_egal; [par_arith|..]|intros Hn].
  apply si_egal; [destruct (Z.leb_spec 256 n), (Z.ltb_spec n 256); try (exfalso; lia); cbn [andb orb]; rewrite ?orb_false_r; par_arith|done|intros _].
  apply si_egal; [par_arith|done|intros _].
  apply si_egal; [par_arith|done|intros _].
  apply si_egal; [destruct (Z.ltb_spec n 64); [rewrite Z.min_l by lia|rewrite Z.min_r by lia; change (64 / 2) with 32]; par_arith|done|intros _].
  apply si_egal; [par_arith|done..].
Qed.

(** * The code computes the reference *)

Lemma zlen_debut l n : 0 <= n <= zlen l -> zlen (debut l n) = n.
Proof. unfold zlen, debut. intros Hn. rewrite length_take. lia. Qed.
Lemma bytes_ok_debut l n : bytes_ok l -> bytes_ok (debut l n).
Proof. apply bytes_ok_take. Qed.
Lemma debut_tout l n : zlen l <= n -> debut l n = l.
Proof. unfold zlen, debut. intros Hn. apply take_ge. lia. Qed.

(** [if uint64(len(data)) < len_ { len_ = uint64(len(data)) }] *)
Lemma debut_borne l n : debut l (if zlen l <? n then zlen l else n) = debut l n.
Proof. destruct (Z.ltb_spec (zlen l) n); [|done]. by rewrite !debut_tout by lia. Qed.

Lemma entropie_vide : entropie_de [] = 0.
Proof. by vm_compute. Qed.

(** The subtraction that ends both functions. *)
Lemma entropie_finale l : bytes_ok l -> 0 < zlen l < 2 ^ 32 ->
  let moyen := cumul (fun v => poids (occ v l)) 256 / zlen l in
  (if u32 moyen <=? log2_q8 (zlen l) then u32 (log2_q8 (zlen l) - u32 moyen) else 0) = entropie_de l.
Proof.
  intros Hl Hz. cbv zeta. pose proof (somme_poids_range l Hl ltac:(lia)) as Hs. pose proof (log2_q8_range (zlen l) ltac:(lia)).
  unfold entropie_de. set (m := _ / zlen l).
  assert (0 <= m <= 2 ^ 14) by (unfold m; split; [apply Z.div_pos; lia|apply Z.div_le_upper_bound; lia]).
  rewrite (u32_id m) by (unfold is_u32; lia). destruct (Z.leb_spec m (log2_q8 (zlen l))); [rewrite u32_id by (unfold is_u32; lia)|]; lia.
Qed.

Lemma calcul_ok data len : bytes_ok data -> zlen data < 2 ^ 32 -> 0 <= len ->
  C2bt_calc_entropy_8_8 data len = Done (entropie_de (debut data len)).
Proof.
  intros Hd Hz Hlen. rewrite <- debut_borne. unfold C2bt_calc_entropy_8_8. set (n := if zlen data <? len then zlen data else len).
  pose proof (zlen_nonneg data). assert (0 <= n <= zlen data) as Hn by (unfold n; destruct (Z.ltb_spec (zlen data) len); lia).
  clearbody n. cbv zeta. destruct (Z.eqb_spec n 0) as [->|]; [by rewrite (entropie_vide : entropie_de (debut data 0) = 0)|].
  pose proof (zlen_debut data n Hn) as Hln. pose proof (bytes_ok_debut data n Hd) as Hb. set (l := debut data n) in *.
  rewrite histogramme_ok, run_bind_done by (done || lia). fold l.
  assert (forall Q : Z + unit -> Prop, Q (inl (u64 (cumul (fun v => poids (occ v l)) 256))) ->
    wp (for_range 0x100 0 (fun v96 v94 => v102 ← idx (hist l) v96;
        if 0 <? v102 then v94 ← ajouter_poids v94 v102; Done (inl v94) else Done (inl v94))) Q) as Hboucle.
  { intros Q HQ. apply (wp_for_range (fun j s => s = u64 (cumul (fun v => poids (occ v l)) (Z.to_nat j)))); [lia|done| |].
    - intros j s Hj ->. pose proof (occ_range j l). rewrite hist_idx, run_bind_done by lia.
      replace (Z.to_nat (j + 1)) with (S (Z.to_nat j)) by lia. rewrite cumul_S, Z2Nat.id by lia.
      destruct (Z.ltb_spec 0 (occ j l)).
      + rewrite ajouter_poids_ok, run_bind_done by lia. simpl. unfold u64. by rewrite Zplus_mod_idemp_l.
      + simpl. replace (occ j l) with 0 by lia. change (poids 0) with 0. by rewrite Z.add_0_r.
    - intros s ->. exact HQ. }
  specialize (Hboucle (fun o => o = inl (u64 (cumul (fun v => poids (occ v l)) 256))) eq_refl).
  apply wp_exists in Hboucle as (o & Ho & ->). rewrite Ho, run_bind_done. cbv beta iota zeta.
  rewrite log2_total, run_bind_done by lia. pose proof (somme_poids_range l Hb ltac:(lia)).
  rewrite u64_id by (unfold is_u64; lia). rewrite <- Hln. rewrite <- entropie_finale by (done || lia). by destruct (_ <=? _).
Qed.

Lemma profil_ok data len p : bytes_ok data -> zlen data < 2 ^ 32 -> 0 <= len ->
  C2bt_profile_payload data len (Some p) = Done (Some (profil_de (debut data len)), 0).
Proof.
  intros Hd Hz Hlen. rewrite <- debut_borne. unfold C2bt_profile_payload. set (n := if zlen data <? len then zlen data else len).
  pose proof (zlen_nonneg data). assert (0 <= n <= zlen data) as Hn by (unfold n; destruct (Z.ltb_spec (zlen data) len); lia).
  clearbody n. cbv zeta. pose proof (zlen_debut data n Hn) as Hln. unfold profil_de. rewrite Hln.
  destruct (Z.eqb_spec n 0) as [->|]; [done|]. pose proof (bytes_ok_debut data n Hd) as Hb.
  rewrite recenser_ok, run_bind_done by (done || lia). cbv beta iota. set (l := debut data n) in *.
  assert (for_range 0x100 (Comptes 0 0 0 0 0 0 0 0 0 0 0) (tour_compte (hist l)) = Done (inl (comptes_de l 256))) as ->.
  { cut (wp (for_range 0x100 (Comptes 0 0 0 0 0 0 0 0 0 0 0) (tour_compte (hist l))) (fun o => o = inl (comptes_de l 256)));
      [by intros (? & -> & ->)%wp_exists|].
    apply (wp_for_range (fun j s => s = comptes_de l (Z.to_nat j))); [lia|done| |].
    - intros j s Hj ->. rewrite <- (Z2Nat.id j) at 1 by lia. rewrite tour_compte_ok by lia. simpl.
      by replace (Z.to_nat (j + 1)) with (S (Z.to_nat j)) by lia.
    - intros s ->. done. }
  rewrite run_bind_done. cbv beta iota. rewrite log2_total, run_bind_done by lia. rewrite <- Hln.
  assert (v114 (comptes_de l 256) = cumul (fun v => poids (occ v l)) 256) as -> by (rewrite comptes_finaux by (done || lia); done).
  rewrite entropie_finale by (done || lia). rewrite classer_ok by (done || lia).
  assert (v116 (comptes_de l 256) = nb_distincts l) as -> by (rewrite comptes_finaux by (done || lia); done). done.
Qed.

(** ** Order does not matter *)

Lemma nb_perm p l k : l ≡ₚ k -> nb p l = nb p k.
Proof.
  induction 1 as [|b l k _ IH|a b l|l k m _ IH1 _ IH2]; [done| | |congruence]; rewrite ?nb_cons; lia.
Qed.
Lemma masque_suite l m : fold_left (fun m b => Z.lor m (classe b)) l m = Z.lor m (masque l).
Proof.
  unfold masque. revert m. induction l as [|b l IH]; intros m; cbn [fold_left]; [by rewrite Z.lor_0_r|].
  rewrite (IH (Z.lor m _)), (IH (Z.lor 0 _)), Z.lor_0_l. by rewrite Z.lor_assoc.
Qed.
Lemma masque_perm l k : l ≡ₚ k -> masque l = masque k.
Proof.
  induction 1 as [|b l k _ IH|a b l|l k m _ IH1 _ IH2]; [done| | |congruence]; unfold masque; cbn [fold_left]; rewrite !masque_suite.
  - by rewrite IH.
  - f_equal. rewrite !Z.lor_0_l. apply Z.lor_comm.
Qed.

Lemma profil_perm l k : l ≡ₚ k -> profil_de l = profil_de k.
Proof.
  intros H. assert (zlen l = zlen k) as Hz by (unfold zlen; f_equal; by apply Permutation_length).
  assert (entropie_de l = entropie_de k) as He.
  { unfold entropie_de. rewrite Hz. do 3 f_equal. apply cumul_ext. intros i _. unfold occ. by rewrite (nb_perm _ l k). }
  assert (nb_distincts l = nb_distincts k) as Hn.
  { unfold nb_distincts at 1. apply nb_distincts_alt; [apply NoDup_remove_dups|]. intros x. by rewrite elem_of_remove_dups, H. }
  unfold profil_de, classe_de, binaire. rewrite !forallb_nb, !existsb_nb, Hz, He, Hn, (masque_perm l k) by done.
  by rewrite !(nb_perm _ l k).
Qed.

(** ** Bounds *)

Lemma entropie_range l : zlen l <= 256 -> 0 <= entropie_de l <= 2048.
Proof.
  intros Hl. unfold entropie_de. pose proof (log2_q8_court (zlen l) Hl).
  assert (0 <= cumul (fun v => poids (occ v l)) 256 / zlen l); [|lia].
  destruct (decide (zlen l = 0)) as [->|]; [by rewrite Zdiv_0_r|]. pose proof (zlen_nonneg l). apply Z.div_pos; [|lia].
  apply (cumul_borne _ (fun v => poids (occ v l))). intros i _. pose proof (occ_range i l).
  split; [|done]. apply poids_range. lia.
Qed.

Lemma entropie_constante n b : is_u8 b -> (0 < n)%nat -> entropie_de (replicate n b) = 0.
Proof.
  intros Hb Hn. unfold entropie_de. assert (zlen (replicate n b) = Z.of_nat n) as -> by (unfold zlen; by rewrite length_replicate).
  assert (forall v, occ v (replicate n b) = if v =? b then Z.of_nat n else 0) as Ho.
  { intros v. clear Hn. induction n as [|n IH]; [by destruct (v =? b)|]. cbn [replicate]. unfold occ in *. rewrite nb_cons, IH.
    destruct (v =? b); cbn [Z.b2z]; lia. }
  rewrite (cumul_ext _ (fun v => poids (Z.of_nat n) * (if (fun _ => true) v then Z.b2z (v =? b) else 0))).
  - rewrite cumul_facteur, (cumul_indicatrice (fun _ => true) b 256). unfold is_u8 in Hb.
    destruct (Z.leb_spec 0 b), (Z.ltb_spec b (Z.of_nat 256)); try lia. cbn [andb Z.b2z]. rewrite Z.mul_1_r.
    unfold poids, log2_q8. destruct (Z.leb_spec (Z.of_nat n) 1), (Z.leb_spec (Z.of_nat n) 256); try lia.
    + replace n with 1%nat by lia. done.
    + rewrite (Z.mul_comm (Z.of_nat n)), Z.div_mul by lia. lia.
  - intros v _. rewrite Ho. destruct (v =? b); cbn [Z.b2z]; [lia|]. change (poids 0) with 0. lia.
Qed.

(** The comments announce 0..2048; three copies of the 256 octets give 2049. *)
Definition uniforme (n : nat) : list Z := concat (replicate n (seqZ 0 256)).
Lemma entropie_depasse : entropie_de (uniforme 3) = 2049.
Proof. by vm_compute. Qed.

(** * Theorems *)

(** C37: on every payload the unrolled, table-driven profiler returns the profile read
    plainly off the octets -- counts by kind of character, number of distinct
    values, entropy, class --, the stand-alone entropy and the classifier agree with
    it, and reordering the octets changes none of it. *)
Theorem profil_exact (data permutes : list Z) (len_ : Z) (p : C2bt_entropy_profile_t) :
  bytes_ok data -> zlen data < 2 ^ 32 -> 0 <= len_ -> debut data len_ ≡ₚ permutes ->
  C2bt_profile_payload data len_ (Some p) = Done (Some (profil_de (debut data len_)), 0) /\
  C2bt_calc_entropy_8_8 data len_ = Done (Entropy_q8 (profil_de (debut data len_))) /\
  C2bt_classify_payload data len_ = (let r := profil_de (debut data len_) in Done (Payload_class r, Entropy_q8 r, Char_mask r)) /\
  C2bt_profile_payload permutes (zlen permutes) (Some p) = Done (Some (profil_de (debut data len_)), 0).
Proof.
  intros Hd Hz Hlen Hp. pose proof (profil_ok data len_ p Hd Hz Hlen) as Hprofil. split; [done|].
  assert (bytes_ok permutes) as Hb by (unfold bytes_ok; rewrite <- Hp; by apply bytes_ok_debut).
  assert (zlen permutes <= zlen data) by (unfold zlen; rewrite <- (Permutation_length Hp); unfold debut; rewrite length_take; lia).
  split_and!.
  - rewrite calcul_ok by done. f_equal. unfold profil_de. destruct (Z.eqb_spec (zlen (debut data len_)) 0) as [E|]; [|done].
    destruct (debut data len_) as [|b l]; [apply entropie_vide|]. rewrite zlen_cons in E. pose proof (zlen_nonneg l). lia.
  - unfold C2bt_classify_payload. pose proof (zlen_nonneg data).
    rewrite profil_ok, run_bind_done by (done || (destruct (_ <? _); lia)). rewrite debut_borne. done.
  - rewrite profil_ok by (done || lia || apply zlen_nonneg). rewrite debut_tout by done. by rewrite (profil_perm _ _ Hp).
Qed.

(** The entropy of a payload of at most 256 octets -- of every DNS name, then --
    lies between 0 and 2048 (8 bits per octet), it is 0 on a repeated octet, and it
    is never computed outside the tables whatever the payload. *)
Theorem entropie_bornee (data : list Z) (n : nat) (b : Z) :
  bytes_ok data -> zlen data < 2 ^ 32 -> is_u8 b -> (0 < n)%nat -> Z.of_nat n < 2 ^ 32 ->
  (exists e, C2bt_calc_entropy_8_8 data (zlen data) = Done e /\ 0 <= e < 2 ^ 14 /\ (zlen data <= 256 -> e <= 2048)) /\
  C2bt_calc_entropy_8_8 (replicate n b) (Z.of_nat n) = Done 0.
Proof.
  intros Hd Hz Hb Hn Hn32. split.
  - eexists. split; [apply calcul_ok; [done..|apply zlen_nonneg]|]. rewrite debut_tout by done.
    split; [|intros Hc; apply entropie_range; done]. unfold entropie_de. pose proof (log2_q8_range (zlen data) ltac:(lia)).
    pose proof (somme_poids_range data Hd Hz) as Hs. pose proof (zlen_nonneg data).
    assert (0 <= cumul (fun v => poids (occ v data)) 256 / zlen data); [|lia].
    destruct (decide (zlen data = 0)) as [->|]; [by rewrite Zdiv_0_r|apply Z.div_pos; lia].
  - assert (zlen (replicate n b) = Z.of_nat n) as E by (unfold zlen; by rewrite length_replicate).
    rewrite calcul_ok by (lia || by apply bytes_ok_replicate). rewrite debut_tout by lia. by rewrite entropie_constante.
Qed.

(** ** Concrete payloads *)

(** A JSON web token, a hexadecimal string, and a ciphertext. *)
Definition charge_hex : list Z := octets "deadbeef00112233445566".
Definition charge_chiffree : list Z := [3; 190; 17; 244; 129; 77; 2; 201; 66; 151; 8; 233; 90; 12; 178; 61; 5; 215].

Example classes_exemples : (classe_de charge_hex, classe_de charge_chiffree, classe_de (octets "www.example")) = (2, 4, 1).
Proof. by vm_compute. Qed.

Lemma profil_exact_witness : bytes_ok charge_hex /\
  C2bt_profile_payload charge_hex 16 (Some profil_zero) = Done (Some (profil_de (debut charge_hex 16)), 0) /\
  Payload_class (profil_de (debut charge_hex 16)) = 2.
Proof.
  assert (bytes_ok charge_hex) as Hb by apply octets_ok. split; [done|]. split; [|by vm_compute].
  destruct (profil_exact charge_hex (rev (debut charge_hex 16)) 16 profil_zero Hb eq_refl ltac:(lia) (Permutation_rev _)) as [H _].
  exact H.
Defined.

Lemma entropie_bornee_witness : (exists e, C2bt_calc_entropy_8_8 charge_chiffree (zlen charge_chiffree) = Done e /\ 0 <= e < 2 ^ 14 /\ e <= 2048) /\
  C2bt_calc_entropy_8_8 (replicate 40 97) 40 = Done 0.
Proof.
  assert (bytes_ok charge_chiffree) as Hb by (apply octets_valides_ok; reflexivity).
  assert (is_u8 97) as Hu by (unfold is_u8; lia).
  destruct (entropie_bornee charge_chiffree 40 97 Hb eq_refl Hu ltac:(lia) eq_refl) as [(e & He & Hr & Hc) H0].
  split; [|exact H0]. exists e. split; [exact He|]. split; [exact Hr|]. apply Hc. vm_compute. discriminate.
Defined.
