(* ===== verification/Flottant.v ===== *)
(** The float64 arithmetic of Go where it decides something: IEEE 754 binary64 of
    the Standard Library's [SpecFloat], executable and without axioms, rounding to
    nearest even; the conversions from and to integers. *)
From Stdlib Require Import SpecFloat.
From S2P Require Import Prelude.
Local Open Scope Z_scope.

Definition f64 : Type := spec_float.
Definition fadd : f64 -> f64 -> f64 := SFadd 53 1024.
Definition fsub : f64 -> f64 -> f64 := SFsub 53 1024.
Definition fmul : f64 -> f64 -> f64 := SFmul 53 1024.
Definition fdiv : f64 -> f64 -> f64 := SFdiv 53 1024.
Definition fsqrt : f64 -> f64 := SFsqrt 53 1024.
(** [a < b] and [a <= b]: false on NaN. *)
Definition fltb : f64 -> f64 -> bool := SFltb.
Definition fleb : f64 -> f64 -> bool := SFleb.
Definition fnan (x : f64) : bool := match x with S754_nan => true | _ => false end.
Definition finf (x : f64) : bool := match x with S754_infinity _ => true | _ => false end.

(** [float64(z)] of an integer, and the decimal [z / 10^k] as a literal. *)
Definition f_of_Z (z : Z) : f64 := binary_normalize 53 1024 z 0 false.
Definition f_decimal (z k : Z) : f64 := fdiv (f_of_Z z) (f_of_Z (10 ^ k)).

(** Truncation towards zero; [None] on NaN and infinities. *)
Definition f_trunc (x : f64) : option Z :=
  match x with
  | S754_zero _ => Some 0
  | S754_finite s m e =>
      let a := if 0 <=? e then Z.pos m * 2 ^ e else Z.pos m / 2 ^ (- e) in
      Some (if s then - a else a)
  | _ => None
  end.

(** [uintN(x)]: the truncation when it fits; Go leaves the other cases to the
    implementation, here the argument [hors]. *)
Definition f_to_uint (hors : f64 -> Z) (borne : Z) (x : f64) : Z :=
  match f_trunc x with
  | Some z => if (0 <=? z) && (z <? borne) then z else hors x
  | None => hors x
  end.

(** ** Small integers are exact *)

Example f_quart : (fdiv (f_of_Z 1) (f_of_Z 4), f_trunc (fmul (f_decimal 15 1) (f_of_Z 256))) = (S754_finite false 4503599627370496 (-54), Some 384).
Proof. by vm_compute. Qed.

(** ** A ratio of positive integers is positive *)

Lemma digits2_log m : Z.pos (digits2_pos m) = Z.log2 (Z.pos m) + 1.
Proof.
  induction m as [m IH|m IH|]; cbn [digits2_pos]; [| |done].
  - rewrite Pos2Z.inj_succ, IH, Pos2Z.inj_xI, Z.log2_succ_double by lia. lia.
  - rewrite Pos2Z.inj_succ, IH, Pos2Z.inj_xO, Z.log2_double by lia. lia.
Qed.

Lemma shr_1_moitie r : 0 <= shr_m r -> shr_m (shr_1 r) = shr_m r / 2.
Proof.
  destruct r as [[|[p|p|]|p] a b]; cbn [shr_1 shr_m]; intros H; try done; try lia.
  - rewrite Pos2Z.inj_xI. apply (Z.div_unique _ _ _ 1); lia.
  - rewrite Pos2Z.inj_xO. apply (Z.div_unique _ _ _ 0); lia.
Qed.

Lemma iter_pos_iter {A} (f : A -> A) p x : SpecFloat.iter_pos f p x = Nat.iter (Pos.to_nat p) f x.
Proof.
  revert x. assert (forall n x, Nat.iter n f (f x) = f (Nat.iter n f x)) as Hs by (intros k; induction k as [|k IHk]; intros x; [done|]; cbn; f_equal; apply IHk).
  induction p as [p IH|p IH|]; intros x; cbn [SpecFloat.iter_pos].
  - rewrite !IH, <- Nat.iter_add. replace (Pos.to_nat p~1) with (S (Pos.to_nat p + Pos.to_nat p)) by lia. apply Hs.
  - rewrite !IH, <- Nat.iter_add. by replace (Pos.to_nat p~0) with (Pos.to_nat p + Pos.to_nat p)%nat by lia.
  - done.
Qed.

Lemma shr_quotient r e n : 0 <= shr_m r -> shr_m (fst (shr r e n)) = shr_m r / 2 ^ Z.max 0 n.
Proof.
  intros H. destruct n as [|p|p]; cbn [shr fst]; [by rewrite Z.div_1_r| |by rewrite Z.div_1_r].
  rewrite iter_pos_iter. replace (Z.max 0 (Z.pos p)) with (Z.of_nat (Pos.to_nat p)) by lia.
  induction (Pos.to_nat p) as [|k IH]; [by rewrite Z.div_1_r|].
  change (Nat.iter (S k) shr_1 r) with (shr_1 (Nat.iter k shr_1 r)). rewrite shr_1_moitie; rewrite IH; [|apply Z.div_pos; lia].
  rewrite Z.div_div by lia. f_equal. rewrite Nat2Z.inj_succ, Z.pow_succ_r; lia.
Qed.

Lemma shr_exposant r e n : snd (shr r e n) = e + Z.max 0 n.
Proof. destruct n; cbn; lia. Qed.

Lemma arrondi_croissant m l : m <= round_nearest_even m l <= m + 1.
Proof. destruct l as [|[]]; cbn; try destruct (Z.even m); lia. Qed.

Lemma record_de_loc m l : shr_m (shr_record_of_loc m l) = m.
Proof. by destruct l as [|[]]. Qed.

(** The shift to 53 digits keeps a positive mantissa positive. *)
Lemma decalage_positif m e l : 0 < m -> -1000 <= e ->
  let r := shr_fexp 53 1024 m e l in 0 < shr_m (fst r) /\ -1000 <= snd r.
Proof.
  intros Hm He. destruct m as [|p|p]; [lia| |lia]. unfold shr_fexp. cbn zeta. rewrite shr_exposant, shr_quotient; rewrite record_de_loc; [|lia].
  unfold fexp, emin. cbn [Zdigits2]. rewrite digits2_log. split; [|lia].
  pose proof (Z.log2_nonneg (Z.pos p)). pose proof (Z.log2_spec (Z.pos p) ltac:(lia)) as [H1 _].
  apply Z.div_str_pos. split; [apply Z.pow_pos_nonneg; lia|]. etransitivity; [|exact H1]. apply Z.pow_le_mono_r; lia.
Qed.

Lemma arrondi_positif m e l : 0 < m -> -1000 <= e -> fltb (S754_zero false) (binary_round_aux 53 1024 false m e l) = true.
Proof.
  intros Hm He. unfold binary_round_aux. pose proof (decalage_positif m e l Hm He) as H. cbn zeta in H.
  destruct (shr_fexp 53 1024 m e l) as [r e']. cbn in H. destruct H as [H He'].
  pose proof (arrondi_croissant (shr_m r) (loc_of_shr_record r)) as Ha.
  pose proof (decalage_positif (round_nearest_even (shr_m r) (loc_of_shr_record r)) e' loc_Exact ltac:(lia) He') as H2. cbn zeta in H2.
  destruct (shr_fexp _ _ _ e' loc_Exact) as [r2 e2]. cbn in H2. destruct H2 as [H2 _].
  destruct (shr_m r2); [lia| |lia]. by destruct (_ <=? _).
Qed.

(** [float64(z)] has a mantissa of 53 digits. *)
Lemma f_of_Z_forme z : 0 < z < 2 ^ 53 -> exists m e, f_of_Z z = S754_finite false m e /\ Z.log2 (Z.pos m) = 52 /\ -52 <= e <= 0.
Proof.
  intros Hz. destruct z as [|p|p]; [lia| |lia]. unfold f_of_Z. cbn [binary_normalize]. unfold binary_round, fexp, emin. rewrite digits2_log.
  assert (0 <= Z.log2 (Z.pos p) <= 52) as Hl by (split; [apply Z.log2_nonneg|apply Z.lt_succ_r, Z.log2_lt_pow2; lia]).
  replace (Z.max (Z.log2 (Z.pos p) + 1 + 0 - 53) (3 - 1024 - 53)) with (Z.log2 (Z.pos p) - 52) by lia.
  assert (exists m, shl_align p 0 (Z.log2 (Z.pos p) - 52) = (m, Z.log2 (Z.pos p) - 52) /\ Z.log2 (Z.pos m) = 52) as (m & -> & Hm).
  { unfold shl_align. destruct (Z.log2 (Z.pos p) - 52 - 0) as [|d|d] eqn:E; [exists p; split; [f_equal|]; lia|lia|].
    exists (Pos.iter xO p d). split; [done|]. replace (Z.pos (Pos.iter xO p d)) with (Z.pos p * 2 ^ Z.pos d).
    - rewrite Z.log2_mul_pow2 by lia. lia.
    - rewrite Pos2Nat.inj_iter. rewrite <- (positive_nat_Z d). induction (Pos.to_nat d) as [|k IH]; cbn [nat_rect]; [by rewrite Z.mul_1_r|].
      rewrite Nat2Z.inj_succ, Z.pow_succ_r by lia. transitivity (2 * (Z.pos p * 2 ^ Z.of_nat k)); [lia|exact (f_equal (Z.mul 2) IH)]. }
  exists m, (Z.log2 (Z.pos p) - 52). split; [|lia].
  assert (forall e, -52 <= e <= 0 -> shr_fexp 53 1024 (Z.pos m) e loc_Exact = (Build_shr_record (Z.pos m) false false, e)) as Hs.
  { intros e He. unfold shr_fexp, fexp, emin. cbn [Zdigits2]. rewrite digits2_log, Hm. replace (Z.max _ _ - e) with 0 by lia. done. }
  unfold binary_round_aux. rewrite Hs by lia. cbn [shr_m loc_of_shr_record round_nearest_even]. rewrite Hs by lia. cbn [shr_m].
  destruct (Z.leb_spec (Z.log2 (Z.pos p) - 52) (1024 - 53)); [done|lia].
Qed.

(** The ratio of two positive integers is positive. *)
Lemma rapport_positif a b : 0 < a < 2 ^ 53 -> 0 < b < 2 ^ 53 -> fltb (S754_zero false) (fdiv (f_of_Z a) (f_of_Z b)) = true.
Proof.
  intros (ma & ea & -> & Ha & Hea)%f_of_Z_forme (mb & eb & -> & Hb & Heb)%f_of_Z_forme.
  unfold fdiv. cbn [SFdiv xorb]. unfold SFdiv_core_binary, fexp, emin. cbn [Zdigits2]. rewrite !digits2_log, Ha, Hb.
  replace (Z.min _ (ea - eb)) with (ea - eb - 53) by lia. replace (ea - eb - (ea - eb - 53)) with 53 by lia.
  destruct (Z.div_eucl (Z.shiftl (Z.pos ma) 53) (Z.pos mb)) as [q r] eqn:E.
  assert (q = Z.pos ma * 2 ^ 53 / Z.pos mb) as -> by (unfold Z.div; rewrite <- (Z.shiftl_mul_pow2 (Z.pos ma) 53) by lia; by rewrite E).
  apply arrondi_positif; [|lia].
  pose proof (Z.log2_spec (Z.pos ma) ltac:(lia)) as [? _]. pose proof (Z.log2_spec (Z.pos mb) ltac:(lia)) as [_ ?]. rewrite Ha, Hb in *.
  apply Z.div_str_pos. change (2 ^ Z.succ 52) with (2 ^ 53) in *. change (2 ^ 52) with 4503599627370496 in *. change (2 ^ 53) with 9007199254740992 in *. lia.
Qed.
