(* ===== verification/FiltreSyntaxe.v ===== *)
(** The syntactic filter of code windows (src/internal/engine/syntax_filter.go):
    removal of comments and merging of blanks outside string literals, and the
    rejection of windows that are mere filling.  The theorems: the normaliser
    always terminates, never writes outside its buffer and renders exactly the
    lexical segments of the window; a window is rejected exactly when it is empty,
    of low entropy, or filled with one octet beyond three quarters. *)
From S2P Require Import Prelude Entropie Flottant.
Local Open Scope Z_scope.

Definition DefaultMinEntropyQ8 : Z := 384.
Definition boilerplateBytes : list Z := [0x00; 0x20; 0x90; 61; 45; 42].

Definition isCodeSpace (b : Z) : bool := (b =? 32) || (b =? 9) || (b =? 13) || (b =? 10) || (b =? 11) || (b =? 12).

Definition hasHashCommentPrefix (src : list Z) (i : Z) : run bool :=
  if i =? 0 then Done true else b ← idx src (i - 1); Done (isCodeSpace b).

(** ** The inner loops *)

(** After the opening quote: [i], [n] and [dst]. *)
Definition copier_chaine (src : list Z) (quote : Z) : Z * Z * list Z -> run (Z * Z * list Z) :=
  loop (fun '(i, n, dst) =>
      if negb (i <? zlen src) then Done (inr (i, n, dst)) else
      ch ← idx src i;
      dst ← upd dst n ch;
      let n := n + 1 in
      let i := i + 1 in
      if (ch =? 92) && negb (quote =? 96) && (i <? zlen src) then
        e ← idx src i;
        dst ← upd dst n e;
        Done (inl (i + 1, n + 1, dst))
      else if ch =? quote then Done (inr (i, n, dst)) else Done (inl (i, n, dst)))
    (S (length src)).

(** [for i < limit && src[i] != '\n' { i++ }] *)
Definition sauter_ligne (src : list Z) : Z -> run Z :=
  loop (fun i =>
      if i <? zlen src then c ← idx src i; if negb (c =? 10) then Done (inl (i + 1)) else Done (inr i)
      else Done (inr i))
    (S (length src)).

(** [for i+1 < limit && !(src[i] == '*' && src[i+1] == '/') { i++ }] *)
Definition sauter_bloc (src : list Z) : Z -> run Z :=
  loop (fun i =>
      if i + 1 <? zlen src then
        c ← idx src i;
        d ← (if c =? 42 then idx src (i + 1) else Done 0);
        if negb ((c =? 42) && (d =? 47)) then Done (inl (i + 1)) else Done (inr i)
      else Done (inr i))
    (S (length src)).

Definition sauter_blancs (src : list Z) : Z -> run Z :=
  loop (fun i =>
      if i <? zlen src then c ← idx src i; if isCodeSpace c then Done (inl (i + 1)) else Done (inr i)
      else Done (inr i))
    (S (length src)).

(** ** The normaliser *)

(** One turn of the main loop. *)
Definition tour_normal (src : list Z) (s : Z * Z * list Z) : run (Z * Z * list Z + Z * list Z) :=
  let '(i, n, dst) := s in
  let limit := zlen src in
  if negb (i <? limit) then Done (inr (n, dst)) else
  c ← idx src i;
  if (c =? 34) || (c =? 39) || (c =? 96) then
    dst ← upd dst n c;
    s ← copier_chaine src c (i + 1, n + 1, dst);
    Done (inl s)
  else
  suivant ← (if (c =? 47) && (i + 1 <? limit) then idx src (i + 1) else Done 0);
  if (c =? 47) && (i + 1 <? limit) && (suivant =? 47) then
    i ← sauter_ligne src i; Done (inl (i, n, dst))
  else if (c =? 47) && (i + 1 <? limit) && (suivant =? 42) then
    i ← sauter_bloc src (i + 2);
    Done (inl (if i + 1 <? limit then i + 2 else limit, n, dst))
  else
  diese ← (if c =? 35 then hasHashCommentPrefix src i else Done false);
  if (diese : bool) then i ← sauter_ligne src i; Done (inl (i, n, dst))
  else if isCodeSpace c then
    i ← sauter_blancs src i;
    colle ← (if n =? 0 then Done false else d ← idx dst (n - 1); Done (d =? 32));
    if (colle : bool) then Done (inl (i, n, dst))
    else dst ← upd dst n 32; Done (inl (i, n + 1, dst))
  else
    dst ← upd dst n c; Done (inl (i + 1, n + 1, dst)).

(** [dst] is the whole capacity of the buffer; the octets written and the buffer. *)
Definition NormalizeCodeWindow (src dst : list Z) : run (Z * list Z) :=
  if zlen dst <? zlen src then Done (0, dst) else
  loop (tour_normal src) (S (length src)) (0, 0, dst).

(** ** The filter *)

Definition CalculateEntropyQ8 (payload : list Z) : run Z :=
  if zlen payload =? 0 then Done 0 else C2bt_calc_entropy_8_8 payload (zlen payload).
Definition CalculateShannonEntropy (payload : list Z) : run f64 :=
  e ← CalculateEntropyQ8 payload; Done (fdiv (f_of_Z e) (f_of_Z 256)).

(** [hors] stands for the conversions that Go leaves to the implementation. *)
Definition IsBoilerplateOrLowEntropy (hors : f64 -> Z) (payload : list Z) (minEntropy : f64) : run bool :=
  if zlen payload =? 0 then Done true else
  basse ← (if fltb (f_of_Z 0) minEntropy then
             e ← CalculateEntropyQ8 payload;
             Done (e <? f_to_uint hors (2 ^ 32) (fmul minEntropy (f_of_Z 256)))
           else Done false);
  if (basse : bool) then Done true else
  o ← parcourir (R := unit) (fun _ b freq => c ← idx freq b; freq ← upd freq b (c + 1); Done (inl freq))
        0 payload (replicate 256 0);
  let freq := match o with inl f => f | inr _ => [] end in
  let threeQuarters := zlen payload * 3 in
  o ← parcourir (fun _ b (s : unit) => f ← idx freq b;
        if threeQuarters <? f * 4 then Done (inr true) else Done (inl s)) 0 boilerplateBytes tt;
  match o with inr r => Done r | inl _ => Done false end.

(** * Reference: the lexical segments *)

Inductive segment_lex : Type :=
  | Chaine (s : list Z)
  | Commentaire (s : list Z)
  | Blanc (s : list Z)
  | Car (c : Z).

Definition brut (g : segment_lex) : list Z := match g with Chaine s | Commentaire s | Blanc s => s | Car c => [c] end.

Definition guillemet (c : Z) : bool := (c =? 34) || (c =? 39) || (c =? 96).

(** The end of a literal: what belongs to it, and the rest. *)
Fixpoint fin_chaine (q : Z) (l : list Z) : list Z * list Z :=
  match l with
  | [] => ([], [])
  | c :: l =>
      if (c =? 92) && negb (q =? 96) then
        match l with
        | [] => ([c], [])
        | e :: l => let '(s, r) := fin_chaine q l in (c :: e :: s, r)
        end
      else if c =? q then ([c], l)
      else let '(s, r) := fin_chaine q l in (c :: s, r)
  end.
Fixpoint tant_que (p : Z -> bool) (l : list Z) : list Z * list Z :=
  match l with
  | [] => ([], [])
  | c :: r => if p c then let '(s, t) := tant_que p r in (c :: s, t) else ([], l)
  end.
(** Up to the first closing [*/], or everything. *)
Fixpoint fin_bloc (l : list Z) : list Z * list Z :=
  match l with
  | [] => ([], [])
  | c :: r =>
      if prefixe [42; 47] l then (take 2 l, drop 2 l)
      else let '(s, t) := fin_bloc r in (c :: s, t)
  end.

Definition ouvre_ligne (l : list Z) : bool := prefixe [47; 47] l.
Definition ouvre_bloc (l : list Z) : bool := prefixe [47; 42] l.

(** The segments of [l], whose preceding octet is [prec] ([None] at the start). *)
Inductive decoupe : option Z -> list Z -> list segment_lex -> Prop :=
  | decoupe_fin prec : decoupe prec [] []
  | decoupe_chaine prec q l s r gs :
      guillemet q = true -> fin_chaine q l = (s, r) ->
      decoupe (last (q :: s)) r gs -> decoupe prec (q :: l) (Chaine (q :: s) :: gs)
  | decoupe_ligne prec l s r gs :
      ouvre_ligne l = true -> tant_que (fun c => negb (c =? 10)) l = (s, r) ->
      decoupe (last s) r gs -> decoupe prec l (Commentaire s :: gs)
  | decoupe_bloc prec l s r gs :
      ouvre_bloc l = true -> fin_bloc (drop 2 l) = (s, r) ->
      decoupe (last (take 2 l ++ s)) r gs -> decoupe prec l (Commentaire (take 2 l ++ s) :: gs)
  | decoupe_diese prec l s r gs :
      from_option isCodeSpace true prec = true -> tant_que (fun c => negb (c =? 10)) (35 :: l) = (s, r) ->
      decoupe (last s) r gs -> decoupe prec (35 :: l) (Commentaire s :: gs)
  | decoupe_blanc prec c l s r gs :
      isCodeSpace c = true -> tant_que isCodeSpace (c :: l) = (s, r) ->
      decoupe (last s) r gs -> decoupe prec (c :: l) (Blanc s :: gs)
  | decoupe_car prec c l gs :
      guillemet c = false -> ouvre_ligne (c :: l) = false -> ouvre_bloc (c :: l) = false ->
      (c = 35 -> from_option isCodeSpace true prec = false) -> isCodeSpace c = false ->
      decoupe (Some c) l gs -> decoupe prec (c :: l) (Car c :: gs).

(** What a window becomes: literals verbatim, comments dropped, a run of blanks one
    space unless a space was just emitted. *)
Definition rendre (out : list Z) (g : segment_lex) : list Z :=
  match g with
  | Chaine s => out ++ s
  | Commentaire _ => out
  | Blanc _ => if bool_decide (last out = Some 32) then out else out ++ [32]
  | Car c => out ++ [c]
  end.
Definition rendu (gs : list segment_lex) : list Z := fold_left rendre gs [].

(** * The scanners follow the reference *)

Section source.
Context (src : list Z).

(** What remains from [i], and the octet before [i]. *)
Definition reste (i : Z) : list Z := drop (Z.to_nat i) src.
Definition precedent (i : Z) : option Z := if i =? 0 then None else src !! Z.to_nat (i - 1).

Lemma reste_fin : reste (zlen src) = [].
Proof. unfold reste, zlen. apply drop_ge. lia. Qed.

Lemma reste_lu i : 0 <= i < zlen src -> exists c, idx src i = Done c /\ reste i = c :: reste (i + 1).
Proof.
  intros Hi. destruct (lookup_lt_is_Some_2 src (Z.to_nat i)) as [c Hc]; [unfold zlen in Hi; lia|].
  exists c. split; [by apply idx_lookup; [lia|]|]. unfold reste. rewrite (drop_S _ _ _ Hc). do 2 f_equal. lia.
Qed.

Lemma reste_avance i s r : 0 <= i -> reste i = s ++ r -> reste (i + zlen s) = r.
Proof.
  intros Hi H. unfold reste in *. replace (Z.to_nat (i + zlen s)) with (Z.to_nat i + length s)%nat by (unfold zlen; lia).
  rewrite <- drop_drop, H. by rewrite drop_app_length.
Qed.

Lemma reste_longueur i s r : 0 <= i <= zlen src -> reste i = s ++ r -> i + zlen s <= zlen src.
Proof.
  intros Hi H. assert (zlen (reste i) = zlen src - i) as E by (unfold reste, zlen in *; rewrite length_drop; lia).
  rewrite H, zlen_app in E. pose proof (zlen_nonneg r). lia.
Qed.

Lemma precedent_avance i s r : 0 <= i -> reste i = s ++ r -> s <> [] -> precedent (i + zlen s) = last s.
Proof.
  intros Hi H Hs. unfold precedent. destruct (exists_last Hs) as (s' & c & ->). rewrite last_snoc.
  rewrite zlen_app, zlen_cons, zlen_nil. pose proof (zlen_nonneg s').
  destruct (Z.eqb_spec (i + (zlen s' + (1 + 0))) 0); [lia|].
  replace (Z.to_nat (i + (zlen s' + (1 + 0)) - 1)) with (Z.to_nat i + length s')%nat by (unfold zlen; lia).
  unfold reste in H. rewrite <- lookup_drop, H, <- app_assoc. cbn [app]. by rewrite list_lookup_middle.
Qed.

(** ** [tant_que] and the simple scans *)

Lemma tant_que_app p l : let '(s, r) := tant_que p l in l = s ++ r.
Proof.
  induction l as [|c l IH]; [done|]. cbn. destruct (p c); [|done]. destruct (tant_que p l). by rewrite IH.
Qed.
Lemma fin_bloc_app l : let '(s, r) := fin_bloc l in l = s ++ r.
Proof.
  induction l as [|c l IH]; [done|]. cbn [fin_bloc]. destruct (prefixe _ _); [by rewrite take_drop|].
  destruct (fin_bloc l). by rewrite IH.
Qed.
Lemma fin_chaine_app q : forall l, let '(s, r) := fin_chaine q l in l = s ++ r.
Proof.
  fix IH 1. intros [|c l]; [done|]. cbn [fin_chaine]. destruct (_ && _).
  - destruct l as [|e l]; [done|]. specialize (IH l). destruct (fin_chaine q l). by rewrite IH.
  - destruct (c =? q); [done|]. specialize (IH l). destruct (fin_chaine q l). by rewrite IH.
Qed.

Lemma balayage (p : Z -> bool) n : forall i, 0 <= i <= zlen src -> zlen src - i < Z.of_nat n ->
  loop (fun i => if i <? zlen src then c ← idx src i; if p c then Done (inl (i + 1)) else Done (inr i) else Done (inr i)) n i
  = Done (i + zlen (tant_que p (reste i)).1).
Proof.
  induction n as [|n IH]; intros i Hi Hn; [lia|]. rewrite loop_unfold. destruct (Z.ltb_spec i (zlen src)).
  - destruct (reste_lu i) as (c & Hc & Hr); [lia|]. rewrite Hc, Hr, run_bind_done. cbn [tant_que]. destruct (p c).
    + rewrite run_bind_done, IH by lia. destruct (tant_que p (reste (i + 1))) as [s r]. cbn [fst]. rewrite zlen_cons. f_equal. lia.
    + rewrite run_bind_done. cbn [fst]. rewrite zlen_nil, Z.add_0_r. done.
  - replace i with (zlen src) by lia. rewrite reste_fin, run_bind_done. cbn. rewrite zlen_nil, Z.add_0_r. done.
Qed.

Lemma sauter_ligne_ok i : 0 <= i <= zlen src ->
  sauter_ligne src i = Done (i + zlen (tant_que (fun c => negb (c =? 10)) (reste i)).1).
Proof. intros Hi. apply (balayage (fun c => negb (c =? 10))); [done|]. unfold zlen. lia. Qed.
Lemma sauter_blancs_ok i : 0 <= i <= zlen src ->
  sauter_blancs src i = Done (i + zlen (tant_que isCodeSpace (reste i)).1).
Proof. intros Hi. apply (balayage isCodeSpace); [done|]. unfold zlen. lia. Qed.

Lemma sauter_bloc_ok i : 0 <= i <= zlen src -> exists j, sauter_bloc src i = Done j /\
  (if j + 1 <? zlen src then j + 2 else zlen src) = i + zlen (fin_bloc (reste i)).1.
Proof.
  unfold sauter_bloc. generalize (eq_refl : S (length src) = S (length src)). generalize (S (length src)) at 1 3 as n.
  intros n Hn Hi. assert (zlen src - i < Z.of_nat n) as Hf by (rewrite Hn; unfold zlen; lia). clear Hn.
  revert i Hi Hf. induction n as [|n IH]; intros i Hi Hn; [lia|]. rewrite loop_unfold. destruct (Z.ltb_spec (i + 1) (zlen src)) as [Hlt|Hge].
  - destruct (reste_lu i) as (c & Hc & Hr); [lia|]. destruct (reste_lu (i + 1)) as (d & Hd & Hr'); [lia|].
    rewrite Hc, run_bind_done. rewrite Hr. cbn [fin_bloc]. rewrite Hr'. cbn [prefixe].
    assert ((42 =? c) && ((47 =? d) && true) = (c =? 42) && (d =? 47)) as Ep by (rewrite andb_true_r, (Z.eqb_sym c), (Z.eqb_sym d); done).
    rewrite Ep. rewrite <- Hr'. clear Ep.
    destruct (Z.eqb_spec c 42) as [->|]; [rewrite Hd, run_bind_done; destruct (Z.eqb_spec d 47) as [->|]|]; cbn [andb negb]; rewrite ?run_bind_done.
    + exists i. split; [done|]. destruct (Z.ltb_spec (i + 1) (zlen src)); [|lia]. rewrite Hr'. done.
    + destruct (IH (i + 1)) as (j & Hj & Ej); [lia..|]. exists j. split; [done|]. rewrite Ej. destruct (fin_bloc _). cbn [fst]. rewrite zlen_cons. lia.
    + destruct (IH (i + 1)) as (j & Hj & Ej); [lia..|]. exists j. split; [done|]. rewrite Ej. destruct (fin_bloc _). cbn [fst]. rewrite zlen_cons. lia.
  - rewrite run_bind_done. exists i. split; [done|]. destruct (Z.ltb_spec (i + 1) (zlen src)); [lia|]. destruct (decide (i = zlen src)) as [->|].
    + rewrite reste_fin. cbn. rewrite zlen_nil. lia.
    + destruct (reste_lu i) as (c & Hc & Hr); [lia|]. rewrite Hr. replace (i + 1) with (zlen src) by lia. rewrite reste_fin.
      cbn [fin_bloc prefixe]. destruct (42 =? c); cbn [andb fst]; rewrite zlen_cons, zlen_nil; lia.
Qed.
End source.

(** ** The buffer *)

Section tampon.
Context (src dst0 : list Z).

(** The buffer once [out] is written. *)
Definition tampon (out : list Z) : list Z := out ++ drop (length out) dst0.

Lemma ecrire_tampon out c : zlen out < zlen dst0 -> upd (tampon out) (zlen out) c = Done (tampon (out ++ [c])).
Proof.
  intros Hz. unfold tampon. destruct (lookup_lt_is_Some_2 dst0 (length out)) as [x Hx]; [unfold zlen in Hz; lia|].
  rewrite (drop_S _ _ _ Hx), upd_mid by done. f_equal. rewrite <- app_assoc, length_app, Nat.add_1_r. done.
Qed.

Lemma lire_tampon out : out <> [] -> zlen out <= zlen dst0 ->
  exists d, last out = Some d /\ idx (tampon out) (zlen out - 1) = Done d.
Proof.
  intros Ho Hz. destruct (exists_last Ho) as (o & d & ->). exists d. rewrite last_snoc. split; [done|].
  unfold tampon. rewrite <- app_assoc. cbn [app]. apply idx_mid. rewrite zlen_app, zlen_cons, zlen_nil. lia.
Qed.

Lemma copier_chaine_ok q i out : zlen src <= zlen dst0 -> 0 <= i <= zlen src -> zlen out <= i ->
  let s := (fin_chaine q (reste src i)).1 in
  copier_chaine src q (i, zlen out, tampon out) = Done (i + zlen s, zlen (out ++ s), tampon (out ++ s)).
Proof.
  intros Hcap. unfold copier_chaine. intros Hi Ho. cbv zeta.
  assert (zlen src - i < Z.of_nat (S (length src))) as Hf by (unfold zlen; lia). revert i out Hi Ho Hf. generalize (S (length src)) as n.
  induction n as [|n IH]; intros i out Hi Ho Hn; [lia|]. rewrite loop_unfold.
  destruct (Z.ltb_spec i (zlen src)) as [Hlt|Hge]; cbn [negb].
  - destruct (reste_lu src i) as (c & Hc & Hr); [lia|]. rewrite Hc, Hr, run_bind_done, ecrire_tampon, run_bind_done by lia.
    cbn [fin_chaine]. assert (zlen (out ++ [c]) = zlen out + 1) as Ec by by rewrite zlen_app.
    destruct ((c =? 92) && negb (q =? 96)) eqn:Eb; cbn [andb].
    + destruct (Z.ltb_spec (i + 1) (zlen src)).
      * destruct (reste_lu src (i + 1)) as (e & He & Hr'); [lia|]. rewrite He, Hr', run_bind_done.
        replace (zlen out + 1) with (zlen (out ++ [c])) by lia. rewrite ecrire_tampon, run_bind_done by lia. rewrite run_bind_done.
        pose proof (zlen_app (out ++ [c]) [e]) as Ee. rewrite zlen_cons, zlen_nil in Ee.
        replace (zlen (out ++ [c]) + 1) with (zlen ((out ++ [c]) ++ [e])) by lia. rewrite IH by lia.
        destruct (fin_chaine q (reste src (i + 1 + 1))) as [s r]. cbn [fst]. rewrite !zlen_cons, <- !app_assoc. cbn [app].
        do 3 f_equal; lia.
      * assert (i + 1 = zlen src) as E by lia. rewrite E, reste_fin. cbn [fst]. rewrite zlen_cons, zlen_nil, <- Ec.
        destruct (c =? q); rewrite run_bind_done; [do 3 f_equal; lia|].
        rewrite IH by lia. rewrite reste_fin. cbn [fin_chaine fst]. rewrite zlen_nil, app_nil_r. do 3 f_equal; lia.
    + destruct (Z.eqb_spec c q); rewrite run_bind_done.
      * cbn [fst]. rewrite zlen_cons, zlen_nil, <- Ec. do 3 f_equal; lia.
      * rewrite <- Ec, IH by lia. destruct (fin_chaine q (reste src (i + 1))) as [s r]. cbn [fst].
        rewrite zlen_cons, <- app_assoc. cbn [app]. do 3 f_equal; lia.
  - rewrite run_bind_done. replace i with (zlen src) by lia. rewrite reste_fin. cbn [fin_chaine fst].
    by rewrite zlen_nil, app_nil_r, Z.add_0_r.
Qed.
End tampon.

(** ** The main loop *)

Section normalisation.
Context (src dst0 : list Z) (Hcap : zlen src <= zlen dst0).

(** Where the loop stands: [out] renders the segments met so far. *)
Definition en_cours (s : Z * Z * list Z) : Prop :=
  let '(i, n, dst) := s in
  exists gs0, let out := rendu gs0 in
    n = zlen out /\ dst = tampon dst0 out /\ 0 <= i <= zlen src /\ zlen out <= i /\
    forall gs, decoupe (precedent src i) (reste src i) gs -> decoupe None src (gs0 ++ gs).

Lemma rendu_snoc gs g : rendu (gs ++ [g]) = rendre (rendu gs) g.
Proof. unfold rendu. by rewrite fold_left_app. Qed.

(** One more segment [g], of octets [s]. *)
Lemma segment_lex_suivant i gs0 g s r :
  0 <= i <= zlen src -> zlen (rendu gs0) <= i -> reste src i = s ++ r -> s <> [] ->
  (forall gs, decoupe (precedent src i) (reste src i) gs -> decoupe None src (gs0 ++ gs)) ->
  (forall gs, decoupe (last s) r gs -> decoupe (precedent src i) (s ++ r) (g :: gs)) ->
  zlen (rendre (rendu gs0) g) <= i + zlen s ->
  en_cours (i + zlen s, zlen (rendre (rendu gs0) g), tampon dst0 (rendre (rendu gs0) g)) /\
  0 <= zlen src - (i + zlen s) < zlen src - i.
Proof.
  intros Hi Ho Hr Hs H0 Hg Hz. pose proof (reste_longueur src i s r Hi Hr) as Hl.
  assert (0 < zlen s) by (destruct s; [done|]; rewrite zlen_cons; pose proof (zlen_nonneg s); lia).
  split; [|lia]. exists (gs0 ++ [g]). cbv zeta. rewrite rendu_snoc. split_and!; [done|done|lia|lia|lia|].
  intros gs Hgs. rewrite <- app_assoc. apply H0. rewrite Hr. apply Hg.
  by rewrite (precedent_avance src i s r), (reste_avance src i s r) in Hgs by (done || lia).
Qed.

Lemma prefixe2 a b c l : prefixe [a; b] (c :: l) = (c =? a) && match l with d :: _ => d =? b | [] => false end.
Proof. cbn [prefixe]. rewrite (Z.eqb_sym a). destruct l; [done|]. by rewrite andb_true_r, (Z.eqb_sym b). Qed.

(** The two octets at [i], as the code reads them. *)
Lemma deux_octets i c : 0 <= i < zlen src -> reste src i = c :: reste src (i + 1) ->
  exists suivant, (if (c =? 47) && (i + 1 <? zlen src) then idx src (i + 1) else Done 0) = Done suivant /\
    forall b, b <> 0 -> (c =? 47) && (i + 1 <? zlen src) && (suivant =? b) = prefixe [47; b] (reste src i).
Proof.
  intros Hi Hr. rewrite Hr. destruct (Z.eqb_spec c 47) as [->|Hc].
  - destruct (Z.ltb_spec (i + 1) (zlen src)).
    + destruct (reste_lu src (i + 1)) as (d & Hd & Hr'); [lia|]. exists d. split; [done|]. intros b _. by rewrite prefixe2, Hr'.
    + exists 0. split; [done|]. intros b _. rewrite prefixe2. replace (i + 1) with (zlen src) by lia. by rewrite reste_fin.
  - exists 0. split; [done|]. intros b _. rewrite prefixe2. by destruct (Z.eqb_spec c 47).
Qed.

Lemma diese_ok i : 0 <= i < zlen src ->
  hasHashCommentPrefix src i = Done (from_option isCodeSpace true (precedent src i)).
Proof.
  intros Hi. unfold hasHashCommentPrefix, precedent. destruct (Z.eqb_spec i 0); [done|].
  destruct (reste_lu src (i - 1)) as (c & Hc & _); [lia|]. rewrite Hc, run_bind_done.
  unfold idx in Hc. destruct (i - 1 <? 0); [done|]. by destruct (src !! _) as [x|]; [injection Hc as ->|].
Qed.

(** One turn from [i], kind of segment by kind of segment. *)
Section tour.
Context (i : Z) (gs0 : list segment_lex) (Hi : 0 <= i < zlen src) (Ho : zlen (rendu gs0) <= i)
  (H0 : forall gs, decoupe (precedent src i) (reste src i) gs -> decoupe None src (gs0 ++ gs)).

Definition avance (s' : Z * Z * list Z) : Prop := en_cours s' /\ 0 <= zlen src - s'.1.1 < zlen src - i.

Lemma avance_segment g s r : reste src i = s ++ r -> s <> [] ->
  (forall gs, decoupe (last s) r gs -> decoupe (precedent src i) (s ++ r) (g :: gs)) ->
  zlen (rendre (rendu gs0) g) <= i + zlen s ->
  avance (i + zlen s, zlen (rendre (rendu gs0) g), tampon dst0 (rendre (rendu gs0) g)).
Proof. intros. apply (segment_lex_suivant i gs0 g s r); (done || lia). Qed.

Lemma tour_chaine c : reste src i = c :: reste src (i + 1) -> guillemet c = true ->
  exists s', copier_chaine src c (i + 1, zlen (rendu gs0 ++ [c]), tampon dst0 (rendu gs0 ++ [c])) = Done s' /\ avance s'.
Proof.
  intros Hr Hq. assert (zlen (rendu gs0 ++ [c]) = zlen (rendu gs0) + 1) as Ec by by rewrite zlen_app.
  rewrite copier_chaine_ok by lia. pose proof (fin_chaine_app c (reste src (i + 1))) as Ea.
  destruct (fin_chaine c (reste src (i + 1))) as [s r] eqn:Es. cbn [fst]. eexists. split; [done|].
  replace (i + 1 + zlen s) with (i + zlen (c :: s)) by (rewrite zlen_cons; lia).
  replace ((rendu gs0 ++ [c]) ++ s) with (rendre (rendu gs0) (Chaine (c :: s))) by (cbn [rendre]; by rewrite <- app_assoc).
  apply (avance_segment (Chaine (c :: s)) (c :: s) r); [by rewrite Hr, Ea|done| |].
  - intros gs Hgs. apply (decoupe_chaine _ c (s ++ r) s r); [done|by rewrite <- Ea, Es|done].
  - cbn [rendre]. rewrite zlen_app, zlen_cons. lia.
Qed.

(** Both comments that end with the line. *)
Lemma tour_ligne c l : reste src i = c :: l -> c <> 10 ->
  (forall s r gs, tant_que (fun c => negb (c =? 10)) (c :: l) = (s, r) -> decoupe (last s) r gs ->
     decoupe (precedent src i) (c :: l) (Commentaire s :: gs)) ->
  exists j, sauter_ligne src i = Done j /\ avance (j, zlen (rendu gs0), tampon dst0 (rendu gs0)).
Proof.
  intros Hr Hc Hd. rewrite sauter_ligne_ok by lia. pose proof (tant_que_app (fun c => negb (c =? 10)) (reste src i)) as Ea.
  rewrite Hr in Ea |- *. destruct (tant_que _ (c :: l)) as [s r] eqn:Es. cbn [fst]. eexists. split; [done|].
  apply (avance_segment (Commentaire s) s r); [by rewrite Hr| | |].
  - intros ->. cbn in Es. destruct (Z.eqb_spec c 10); [done|]. cbn in Es. by destruct (tant_que _ l).
  - intros gs Hgs. rewrite <- Ea. by apply (Hd s r).
  - cbn [rendre]. pose proof (zlen_nonneg s). lia.
Qed.

Lemma tour_bloc : prefixe [47; 42] (reste src i) = true ->
  exists j, sauter_bloc src (i + 2) = Done j /\
    avance (if j + 1 <? zlen src then j + 2 else zlen src, zlen (rendu gs0), tampon dst0 (rendu gs0)).
Proof.
  intros [l Hl]%prefixe_spec. cbn [app] in Hl.
  assert (i + 2 <= zlen src) as H2 by (apply (reste_longueur src i [47; 42] l); [lia|done]).
  destruct (sauter_bloc_ok src (i + 2)) as (j & Hj & Ej); [lia|]. exists j. split; [done|]. rewrite Ej.
  assert (reste src (i + 2) = l) as Hl2 by (apply (reste_avance src i [47; 42]); [lia|done]). rewrite Hl2.
  pose proof (fin_bloc_app l) as Ea. destruct (fin_bloc l) as [s r] eqn:Es. cbn [fst].
  replace (i + 2 + zlen s) with (i + zlen (47 :: 42 :: s)) by (rewrite !zlen_cons; lia).
  apply (avance_segment (Commentaire (47 :: 42 :: s)) (47 :: 42 :: s) r); [by rewrite Hl, Ea|done| |].
  - intros gs Hgs. apply (decoupe_bloc _ ((47 :: 42 :: s) ++ r) s r); [done| |done]. cbn. by rewrite drop_0, <- Ea.
  - cbn [rendre]. pose proof (zlen_nonneg (47 :: 42 :: s)). lia.
Qed.

Lemma tour_blancs c : reste src i = c :: reste src (i + 1) -> isCodeSpace c = true ->
  exists j colle, sauter_blancs src i = Done j /\
    (if zlen (rendu gs0) =? 0 then Done false else d ← idx (tampon dst0 (rendu gs0)) (zlen (rendu gs0) - 1); Done (d =? 32)) = Done (colle : bool) /\
    let out := if colle then rendu gs0 else rendu gs0 ++ [32] in avance (j, zlen out, tampon dst0 out).
Proof.
  intros Hr Hc. rewrite sauter_blancs_ok, Hr by lia. pose proof (tant_que_app isCodeSpace (c :: reste src (i + 1))) as Ea.
  destruct (tant_que isCodeSpace (c :: _)) as [s r] eqn:Es. cbn [fst].
  assert (s <> []) as Hs by (intros ->; cbn in Es; rewrite Hc in Es; by destruct (tant_que _ (reste src (i + 1)))).
  assert (0 < zlen s) by (destruct s; [done|]; rewrite zlen_cons; pose proof (zlen_nonneg s); lia).
  exists (i + zlen s), (bool_decide (last (rendu gs0) = Some 32)). split; [done|]. split.
  - destruct (Z.eqb_spec (zlen (rendu gs0)) 0) as [E|E].
    { destruct (rendu gs0) as [|d out]; [done|]. rewrite zlen_cons in E. pose proof (zlen_nonneg out). lia. }
    destruct (lire_tampon dst0 (rendu gs0)) as (d & Hd & Hx); [intros E'; by rewrite E' in E|lia|].
    rewrite Hx, run_bind_done, Hd. f_equal. apply eq_true_iff_eq. rewrite Z.eqb_eq, bool_decide_eq_true. naive_solver.
  - cbv zeta. apply (avance_segment (Blanc s) s r); [by rewrite Hr|done| |].
    + intros gs Hgs. rewrite <- Ea. by apply (decoupe_blanc _ _ _ s r).
    + cbn [rendre]. destruct (bool_decide _); [lia|]. rewrite zlen_app, zlen_cons, zlen_nil. lia.
Qed.
End tour.

Definition issue (i : Z) (o : Z * Z * list Z + Z * list Z) : Prop :=
  match o with
  | inl s' => avance i s'
  | inr r => exists gs, decoupe None src gs /\ r = (zlen (rendu gs), tampon dst0 (rendu gs)) /\ zlen (rendu gs) <= zlen src
  end.

Lemma tour_ok s : en_cours s -> wp (tour_normal src s) (issue s.1.1).
Proof.
  destruct s as [[i n] dst]. intros (gs0 & -> & -> & Hi & Ho & H0). cbn [fst]. unfold tour_normal.
  destruct (Z.ltb_spec i (zlen src)) as [Hlt|Hge]; cbn [negb].
  2: { exists gs0. replace i with (zlen src) in * by lia. split; [|done]. rewrite <- (app_nil_r gs0). apply H0.
       rewrite reste_fin. constructor. }
  destruct (reste_lu src i) as (c & Hc & Hr); [lia|]. rewrite Hc, run_bind_done.
  pose proof (conj (proj1 Hi) Hlt) as Hi'. assert (zlen (rendu gs0 ++ [c]) = zlen (rendu gs0) + 1) as Ec by by rewrite zlen_app.
  destruct ((c =? 34) || (c =? 39) || (c =? 96)) eqn:Eq.
  { rewrite ecrire_tampon, run_bind_done by lia. destruct (tour_chaine i gs0 Hi' Ho H0 c Hr Eq) as (s' & Hs & Ha).
    rewrite <- Ec, Hs. exact Ha. }
  destruct (deux_octets i c) as (d & Hd & Hdeux); [lia|done|]. rewrite Hd, run_bind_done, !Hdeux by done. clear Hd Hdeux d.
  destruct (prefixe [47; 47] (reste src i)) eqn:E1.
  { destruct (tour_ligne i gs0 Hi' Ho H0 c _ Hr) as (j & Hj & Ha); [| |rewrite Hj; exact Ha].
    - intros ->. rewrite Hr, prefixe2 in E1. done.
    - intros s r gs Hs Hgs. apply (decoupe_ligne _ _ s r); [by rewrite <- Hr|done|done]. }
  destruct (prefixe [47; 42] (reste src i)) eqn:E2.
  { destruct (tour_bloc i gs0 Hi' Ho H0 E2) as (j & Hj & Ha). rewrite Hj. exact Ha. }
  assert ((if c =? 35 then hasHashCommentPrefix src i else Done false)
          = Done ((c =? 35) && from_option isCodeSpace true (precedent src i))) as ->
    by (destruct (c =? 35); [by apply diese_ok|done]).
  rewrite run_bind_done. destruct ((c =? 35) && _) eqn:E3.
  { apply andb_true_iff in E3 as [->%Z.eqb_eq Hp].
    destruct (tour_ligne i gs0 Hi' Ho H0 35 _ Hr) as (j & Hj & Ha); [done| |rewrite Hj; exact Ha].
    intros s r gs Hs Hgs. by apply (decoupe_diese _ _ s r). }
  destruct (isCodeSpace c) eqn:E4.
  { destruct (tour_blancs i gs0 Hi' Ho H0 c Hr E4) as (j & colle & Hj & Hcolle & Ha). rewrite Hj, run_bind_done, Hcolle, run_bind_done.
    destruct colle; [exact Ha|]. rewrite ecrire_tampon, run_bind_done by lia.
    replace (zlen (rendu gs0) + 1) with (zlen (rendu gs0 ++ [32])) by by rewrite zlen_app. exact Ha. }
  rewrite ecrire_tampon, run_bind_done by lia. rewrite <- Ec. apply wp_done.
  apply (avance_segment i gs0 Hi' Ho H0 (Car c) [c] (reste src (i + 1))); [done|done| |cbn [rendre]; rewrite zlen_cons, zlen_nil; lia].
  intros gs Hgs. apply decoupe_car; [done|by rewrite <- Hr|by rewrite <- Hr|by intros ->|done|done].
Qed.
End normalisation.

(** ** Segments *)

Lemma ouvre_ligne_tete l : ouvre_ligne l = true -> exists r, l = 47 :: 47 :: r.
Proof. by intros [r ->]%prefixe_spec; exists r. Qed.
Lemma ouvre_bloc_tete l : ouvre_bloc l = true -> exists r, l = 47 :: 42 :: r.
Proof. by intros [r ->]%prefixe_spec; exists r. Qed.

Lemma guillemet_visible c : guillemet c = true -> isCodeSpace c = false.
Proof. unfold guillemet, isCodeSpace. rewrite !orb_true_iff, !Z.eqb_eq. by intros [[-> | ->] | ->]. Qed.

(** Contradictory or equal readings of the same octets. *)
Ltac ouvre := repeat match goal with
  | H : ouvre_ligne _ = true |- _ => apply ouvre_ligne_tete in H as [? H]; simplify_eq
  | H : ouvre_bloc _ = true |- _ => apply ouvre_bloc_tete in H as [? H]; simplify_eq
  | H : ?a = (_, _), H' : ?a = (_, _) |- _ => rewrite H in H'; injection H' as <- <-
  | H : guillemet ?c = true, H' : isCodeSpace ?c = true |- _ => by rewrite guillemet_visible in H' by done
  end.

(** A window has only one reading. *)
Lemma decoupe_unique prec l gs : decoupe prec l gs -> forall gs', decoupe prec l gs' -> gs = gs'.
Proof.
  induction 1; inversion 1; subst; ouvre; simplify_eq; try done; try (f_equal; by auto);
    exfalso; repeat match goal with H : ?c = ?c -> _ |- _ => specialize (H eq_refl) end; cbn in *; congruence.
Qed.

(** The segments are the window. *)
Lemma decoupe_brut prec l gs : decoupe prec l gs -> concat (brut <$> gs) = l.
Proof.
  induction 1 as [|prec q l s r gs Hq Hs _ IH|prec l s r gs Ho Hs _ IH|prec l s r gs Ho Hs _ IH|prec l s r gs Hp Hs _ IH
    |prec c l s r gs Hc Hs _ IH|prec c l gs ? ? ? ? ? _ IH]; [done|..]; rewrite fmap_cons; cbn [concat brut]; rewrite IH.
  - pose proof (fin_chaine_app q l) as E. rewrite Hs in E. by rewrite E.
  - pose proof (tant_que_app (fun c => negb (c =? 10)) l) as E. by rewrite Hs in E.
  - pose proof (fin_bloc_app (drop 2 l)) as E. rewrite Hs in E. by rewrite <- app_assoc, <- E, take_drop.
  - pose proof (tant_que_app (fun c => negb (c =? 10)) (35 :: l)) as E. by rewrite Hs in E.
  - pose proof (tant_que_app isCodeSpace (c :: l)) as E. by rewrite Hs in E.
  - done.
Qed.

Lemma normalisation_ok src dst : zlen src <= zlen dst -> exists gs, decoupe None src gs /\
  NormalizeCodeWindow src dst = Done (zlen (rendu gs), tampon dst (rendu gs)) /\ zlen (rendu gs) <= zlen src.
Proof.
  intros Hcap. unfold NormalizeCodeWindow. destruct (Z.ltb_spec (zlen dst) (zlen src)); [lia|].
  cut (wp (loop (tour_normal src) (S (length src)) (0, 0, dst)) (fun r => exists gs, decoupe None src gs /\
    r = (zlen (rendu gs), tampon dst (rendu gs)) /\ zlen (rendu gs) <= zlen src)).
  { intros (r & Hr & gs & Hgs & -> & Hz)%wp_exists. by exists gs. }
  apply (wp_loop _ (en_cours src dst) (fun s => zlen src - s.1.1)).
  - intros s Hs. exact (tour_ok src dst Hcap s Hs).
  - exists []. cbv zeta. pose proof (zlen_nonneg src). split_and!; try done; lia.
  - cbn [fst]. unfold zlen. lia.
Qed.

(** ** The filter *)

Lemma frequences_ok l : bytes_ok l -> forall l0, zlen l0 + zlen l < 2 ^ 32 ->
  forall i, parcourir (R := unit) (fun _ b freq => c ← idx freq b; freq ← upd freq b (c + 1); Done (inl freq)) i l (hist l0)
  = Done (inl (hist (l0 ++ l))).
Proof.
  induction 1 as [|b l Hb _ IH]; intros l0 Hz i; [by rewrite app_nil_r|]. cbn [parcourir].
  rewrite zlen_cons in Hz. pose proof (zlen_nonneg l). pose proof (occ_range b l0) as Ho. pose proof (compter_hist l0 b Hb) as Hc. unfold compter in Hc.
  assert (idx (hist l0) b = Done (occ b l0)) as Ei by (apply hist_idx; [lia|exact Hb]).
  rewrite Ei, run_bind_done in Hc. rewrite Ei, run_bind_done. rewrite u32_id in Hc by (unfold is_u32; lia).
  rewrite Hc, !run_bind_done, IH by (rewrite zlen_app, zlen_cons, zlen_nil; lia). by rewrite <- app_assoc.
Qed.

Lemma bourrage_parcouru l bs : zlen l < 2 ^ 32 -> bytes_ok bs -> forall i,
  parcourir (fun _ b (s : unit) => f ← idx (hist l) b; if zlen l * 3 <? f * 4 then Done (inr true) else Done (inl s)) i bs tt
  = Done (if existsb (fun b => zlen l * 3 <? occ b l * 4) bs then inr true else inl tt).
Proof.
  intros Hz. induction 1 as [|b bs Hb _ IH]; intros i; [done|]. cbn [parcourir existsb].
  rewrite hist_idx, run_bind_done by (done || exact Hb). destruct (_ <? _); [done|]. apply IH.
Qed.

(** The decision, in plain terms. *)
Definition a_rejeter (hors : f64 -> Z) (payload : list Z) (minEntropy : f64) : bool :=
  (zlen payload =? 0)
  || (fltb (f_of_Z 0) minEntropy && (entropie_de payload <? f_to_uint hors (2 ^ 32) (fmul minEntropy (f_of_Z 256))))
  || existsb (fun b => zlen payload * 3 <? occ b payload * 4) boilerplateBytes.

Lemma filtre_ok hors payload minEntropy : bytes_ok payload -> zlen payload < 2 ^ 32 ->
  IsBoilerplateOrLowEntropy hors payload minEntropy = Done (a_rejeter hors payload minEntropy).
Proof.
  intros Hb Hz. unfold IsBoilerplateOrLowEntropy, a_rejeter. destruct (Z.eqb_spec (zlen payload) 0) as [E|E]; [done|]. cbn [orb].
  assert (CalculateEntropyQ8 payload = Done (entropie_de payload)) as He.
  { unfold CalculateEntropyQ8. destruct (Z.eqb_spec (zlen payload) 0); [done|].
    rewrite calcul_ok by (done || apply zlen_nonneg). by rewrite debut_tout. }
  rewrite He, run_bind_done.
  assert (forall a b : bool, (if a then Done b else Done false) = Done (a && b)) as Hif by by intros [] b.
  rewrite Hif, run_bind_done. destruct (_ && _); [done|]. cbn [orb].
  rewrite <- hist_nil, frequences_ok, run_bind_done by (done || rewrite zlen_nil; lia).
  cbn [app]. cbv beta iota zeta. rewrite bourrage_parcouru, run_bind_done by (done || (apply octets_valides_ok; reflexivity)).
  by destruct (existsb _ _).
Qed.

(** * Theorems *)

(** C36: the normaliser terminates on every window, never writes outside its buffer,
    and what it writes is the rendering of the only lexical reading of the window
    -- literals verbatim, comments dropped, runs of blanks merged --; a buffer that
    is too small is left alone. *)
Theorem normalisation_exacte (src dst : list Z) :
  (zlen dst < zlen src -> NormalizeCodeWindow src dst = Done (0, dst)) /\
  (zlen src <= zlen dst -> exists gs, decoupe None src gs /\ (forall gs', decoupe None src gs' -> gs' = gs) /\
     concat (brut <$> gs) = src /\
     NormalizeCodeWindow src dst = Done (zlen (rendu gs), rendu gs ++ drop (length (rendu gs)) dst) /\
     zlen (rendu gs) <= zlen src).
Proof.
  split.
  - intros H. unfold NormalizeCodeWindow. by destruct (Z.ltb_spec (zlen dst) (zlen src)); [|lia].
  - intros H. destruct (normalisation_ok src dst H) as (gs & Hgs & Hn & Hz). exists gs. split_and!; [done| |by apply (decoupe_brut None)|done..].
    intros gs' Hgs'. by apply (decoupe_unique None src).
Qed.

(** A window is rejected before extraction exactly when it is empty, when its
    entropy is below the positive threshold, or when one of the six filling octets
    makes up strictly more than three quarters of it. *)
Theorem rejet_exact (hors : f64 -> Z) (payload : list Z) (minEntropy : f64) :
  bytes_ok payload -> zlen payload < 2 ^ 32 ->
  exists r, IsBoilerplateOrLowEntropy hors payload minEntropy = Done r /\
    (r = true <-> payload = [] \/
       (fltb (f_of_Z 0) minEntropy = true /\ entropie_de payload < f_to_uint hors (2 ^ 32) (fmul minEntropy (f_of_Z 256))) \/
       exists b, b ∈ boilerplateBytes /\ 3 * zlen payload < 4 * occ b payload).
Proof.
  intros Hb Hz. eexists. split; [by apply filtre_ok|]. unfold a_rejeter.
  rewrite !orb_true_iff, andb_true_iff, Z.eqb_eq, Z.ltb_lt, existsb_exists. split.
  - intros [[H|H]|(b & Hi & H)]; [left|by right; left|].
    + destruct payload; [done|]. rewrite zlen_cons in H. pose proof (zlen_nonneg payload). lia.
    + right; right. exists b. split; [by apply list_elem_of_In|]. apply Z.ltb_lt in H. lia.
  - intros [->|[H|(b & Hi & H)]]; [by left; left|by left; right|]. right. exists b. split; [by apply list_elem_of_In|].
    apply Z.ltb_lt. lia.
Qed.

(** ** Concrete windows *)

(** [a  = "x  // y"; // c], a block comment, and more. *)
Definition fenetre : list Z := octets "a  = 'x  // y'; // c" ++ [10] ++ octets "/* b */  #d".

Example normaliser_fenetre : NormalizeCodeWindow fenetre (replicate 40 0)
  = Done (15, octets "a = 'x  // y'; " ++ replicate 25 0).
Proof. by vm_compute. Qed.

Lemma normalisation_exacte_witness : zlen fenetre <= zlen (replicate 40 0) /\
  exists gs, decoupe None fenetre gs /\ NormalizeCodeWindow fenetre (replicate 40 0)
    = Done (zlen (rendu gs), rendu gs ++ drop (length (rendu gs)) (replicate 40 0)).
Proof.
  assert (zlen fenetre <= zlen (replicate 40 0)) as H by (vm_compute; discriminate).
  split; [exact H|]. destruct (proj2 (normalisation_exacte fenetre (replicate 40 0)) H) as (gs & Hgs & _ & _ & Hn & _).
  exists gs. split; [exact Hgs|exact Hn].
Defined.

Lemma rejet_exact_witness : bytes_ok (replicate 30 61) /\ exists r,
  IsBoilerplateOrLowEntropy (fun _ => 0) (replicate 30 61) (f_decimal 15 1) = Done r /\ r = true.
Proof.
  assert (bytes_ok (replicate 30 61)) as Hb by (apply octets_valides_ok; reflexivity). split; [exact Hb|].
  destruct (rejet_exact (fun _ => 0) (replicate 30 61) (f_decimal 15 1) Hb eq_refl) as (r & Hr & Hiff).
  exists r. split; [exact Hr|]. apply Hiff. right. right. exists 61. split; [by apply list_elem_of_In; right; right; right; left|reflexivity].
Defined.
