(* ===== verification/TableSondee.v ===== *)
(** Fixed tables probed at a few cells per key, as finite maps: every live cell
    lies in the window of its key, and a key has at most one live cell.  Writing
    the only possible cell of a key is an insertion, after the deletion of the
    key that lived there. *)
From stdpp Require Import gmap.
From S2P Require Import Prelude.
Local Open Scope Z_scope.

Section table.
Context {C K E : Type} `{Countable K} (occupee : C -> bool) (cle : C -> K) (fenetre : K -> Z -> Prop) (cap : Z)
  (fenetre_ok : forall p i, fenetre p i -> 0 <= i < cap) (case_ok : C -> E -> Prop).

Definition lire_case (T : list C) (k : Z) : option C := T !! Z.to_nat k.

Definition represente (T : list C) (A : gmap K E) : Prop :=
  zlen T = cap /\
  (forall k c, 0 <= k -> lire_case T k = Some c -> occupee c = true ->
     fenetre (cle c) k /\ exists ep, A !! cle c = Some ep /\ case_ok c ep) /\
  (forall e ep, A !! e = Some ep -> exists k c, 0 <= k /\ lire_case T k = Some c /\ occupee c = true /\ cle c = e) /\
  (forall k k' c c', 0 <= k -> 0 <= k' -> lire_case T k = Some c -> lire_case T k' = Some c' -> occupee c = true -> occupee c' = true ->
     cle c = cle c' -> k = k').

Definition vider (c : C) (A : gmap K E) : gmap K E := if occupee c then delete (cle c) A else A.

Lemma table_represente_vide n c : Z.of_nat n = cap -> occupee c = false -> represente (replicate n c) ∅.
Proof.
  intros Hn Hc. assert (forall k c', lire_case (replicate n c) k = Some c' -> occupee c' = false) as Hl.
  { intros k c' Hc'. by apply lookup_replicate in Hc' as [-> _]. }
  split; [unfold zlen; by rewrite length_replicate|]. split; [|split].
  - intros k c' _ Hk Ho. by rewrite (Hl k c') in Ho.
  - intros e ep He. by rewrite lookup_empty in He.
  - intros k k' c' d _ _ Hk _ Ho. by rewrite (Hl k c') in Ho.
Qed.

Lemma table_absent T A p : represente T A ->
  (forall k c, fenetre p k -> lire_case T k = Some c -> occupee c = true -> cle c <> p) -> A !! p = None.
Proof.
  intros (_ & Hc & Ha & _) Habs. destruct (A !! p) as [ep|] eqn:Ep; [|done]. exfalso.
  destruct (Ha _ _ Ep) as (k & c & Hk & Hl & Ho & He). destruct (Hc k c Hk Hl Ho) as [Hf _]. rewrite He in Hf.
  by apply (Habs k c).
Qed.

Lemma represente_case T A k : represente T A -> 0 <= k < cap -> exists c, lire_case T k = Some c /\ idx T k = Done c.
Proof.
  intros (Hz & _) Hk. destruct (lookup_lt_is_Some_2 T (Z.to_nat k)) as [c Hc]; [unfold zlen in Hz; lia|].
  exists c. split; [done|]. by apply idx_lookup; [lia|].
Qed.

Lemma represente_lu T A k c : represente T A -> 0 <= k -> lire_case T k = Some c -> occupee c = true ->
  exists ep, A !! cle c = Some ep /\ case_ok c ep.
Proof. intros (_ & Hc & _) Hk Hl Ho. apply (Hc k c Hk Hl Ho). Qed.

Lemma lire_ecrite T k c i : 0 <= k < zlen T -> 0 <= i ->
  lire_case (<[Z.to_nat k := c]> T) i = if decide (i = k) then Some c else lire_case T i.
Proof.
  intros Hk Hi. unfold lire_case, zlen in *. case_decide; [subst; apply list_lookup_insert_eq; lia|].
  apply list_lookup_insert_ne. lia.
Qed.

(** Writing the case of [p] at an index which is the only one [p] can have. *)
Lemma table_pose T A p k ck c' ep : represente T A -> fenetre p k -> lire_case T k = Some ck ->
  (forall i c, fenetre p i -> lire_case T i = Some c -> occupee c = true -> cle c = p -> i = k) ->
  case_ok c' ep -> occupee c' = true -> cle c' = p ->
  represente (<[Z.to_nat k := c']> T) (<[p := ep]> (vider ck A)).
Proof.
  intros (Hz & Hc & Ha & Hu) Hf Hck Hseul Hc' Ho' Hp'.
  assert (0 <= k < cap) as Hk by by apply (fenetre_ok p).
  assert (forall i c, 0 <= i -> i <> k -> lire_case T i = Some c -> occupee c = true -> cle c <> p) as Hne.
  { intros i c Hi Hik Hl Ho He. apply Hik, (Hseul i c); [|done..]. rewrite <- He. by apply (Hc i c). }
  split; [by rewrite zlen_insert|]. split; [|split].
  - intros i c Hi. rewrite lire_ecrite by lia. case_decide as Hik.
    + intros [= <-] _. rewrite Hp'. subst i. split; [done|]. exists ep. by rewrite lookup_insert_eq.
    + intros Hl Ho. destruct (Hc i c Hi Hl Ho) as (Hf' & ep' & Hep' & Hok). split; [done|]. exists ep'.
      split; [|done]. rewrite lookup_insert_ne by (apply not_eq_sym; eauto). unfold vider.
      destruct (occupee ck) eqn:Hock; [|done]. rewrite lookup_delete_ne; [done|]. intros He. apply Hik.
      by apply (Hu i k c ck); [lia|lia|..].
  - intros e ep' He. destruct (decide (e = p)) as [->|Hep].
    { exists k, c'. split; [lia|]. rewrite lire_ecrite by lia. by rewrite decide_True. }
    rewrite lookup_insert_ne in He by done. assert (A !! e = Some ep' /\ (occupee ck = true -> cle ck <> e)) as [He' Hcke].
    { unfold vider in He. destruct (occupee ck); [|done]. apply lookup_delete_Some in He as [? ?]. done. }
    destruct (Ha _ _ He') as (i & c & Hi & Hl & Ho & Hpc). exists i, c. split; [done|]. rewrite lire_ecrite by lia.
    rewrite decide_False; [done|]. intros ->. rewrite Hck in Hl. injection Hl as ->. by apply Hcke.
  - intros i j c d Hi Hj. rewrite !lire_ecrite by lia. case_decide as H1; case_decide as H2; intros Hlc Hld Hoc Hod He;
      [congruence|injection Hlc as <-|injection Hld as <-|by apply (Hu i j c d)]; exfalso.
    + apply (Hne j d); [done|done|done|done|congruence].
    + apply (Hne i c); [done|done|done|done|congruence].
Qed.

(** The keys of [n] live cells at distinct places. *)
Definition cles (T : list C) (places : list Z) : list K := omap (fun k => cle <$> lire_case T k) places.

Lemma cles_vivantes T A places (P : C -> Prop) : represente T A -> NoDup places ->
  (forall k, k ∈ places -> 0 <= k < cap) ->
  (forall k c, k ∈ places -> lire_case T k = Some c -> occupee c = true /\ P c) ->
  length (cles T places) = length places /\ NoDup (cles T places) /\
  forall x, x ∈ cles T places -> exists c ep, A !! x = Some ep /\ case_ok c ep /\ cle c = x /\ P c.
Proof.
  intros Hr Hnd Hin HP. pose proof Hr as (_ & _ & _ & Hu). induction Hnd as [|k places Hk Hnd IH].
  { split_and!; [done|constructor|]. intros x Hx. by apply elem_of_nil in Hx. }
  destruct IH as (IH1 & IH2 & IH3); [by intros; apply Hin, elem_of_cons; right|by intros; apply (HP k0); [apply elem_of_cons; right|]|].
  destruct (represente_case T A k Hr) as (c & Hc & _); [apply Hin, elem_of_cons; by left|].
  destruct (HP k c) as [Ho Hpc]; [apply elem_of_cons; by left|done|]. pose proof (Hin k ltac:(apply elem_of_cons; by left)) as Hkr.
  unfold cles in *. cbn [omap list_omap]. rewrite Hc. cbn [fmap option_fmap option_map]. split_and!.
  - cbn [length]. by rewrite IH1.
  - apply NoDup_cons. split; [|done]. intros (k' & Hk' & E')%list_elem_of_omap.
    destruct (lire_case T k') as [c'|] eqn:Ec'; [|done]. injection E' as E'.
    destruct (HP k' c') as [Ho' _]; [apply elem_of_cons; by right|done|]. pose proof (Hin k' ltac:(apply elem_of_cons; by right)).
    assert (k' = k) as -> by (apply (Hu k' k c' c); (done || lia)). done.
  - intros x [->|Hx]%elem_of_cons; [|by apply IH3]. destruct (represente_lu T A k c) as (ep & Hep & Hok); [done|lia|done|done|].
    by exists c, ep.
Qed.
End table.
