(* ===== verification/SuiviTemporel.v ===== *)
(** The temporal tracker (src/temporal_tracker.go): 8192 cases probed eight at a
    time, one per parent domain, with a ring of the last sixteen instants, a
    Bloom filter of the sub-domains and the jitter of the intervals in binary64.
    The theorems: every call is one step of a finite map from domains to their
    passages since the last hour of silence, what it returns is read off those
    passages, and a regular beacon is reported with a jitter of zero from its
    fourth query on, among any other traffic that evicts nothing. *)
From stdpp Require Import gmap list_numbers sorting.
From Stdlib Require Import SpecFloat.
From S2P Require Import Prelude Fnv Reputation Flottant TableSondee.
Local Open Scope Z_scope.

Definition MaxTrackedDomains : Z := 8192.
Definition HistoryWindowSize : Z := 16.
Definition MaxInactivitySec : Z := 3600.
Definition SubdomainBloomWords : Z := 4.

Record DomainTrack := Track {
  TDomainHash : Z; TDomain : list Z; TDomainLen : Z; Timestamps : list Z; THead : Z; QueryCount : Z;
  LastSeen : Z; SubdomainBloom : list Z; UniqueSubdomains : Z
}.
Definition track_vide : DomainTrack := Track 0 (replicate 253 0) 0 (replicate 16 0) 0 0 0 (replicate 4 0) 0.

Definition resetWindow (d : DomainTrack) : DomainTrack :=
  Track (TDomainHash d) (TDomain d) (TDomainLen d) (Timestamps d) 0 0 0 (replicate 4 0) 0.

Definition mix64 (x : Z) : Z :=
  let x := u64 (x + 0x9e3779b97f4a7c15) in
  let x := u64 (Z.lxor x (Z.shiftr x 30) * 0xbf58476d1ce4e5b9) in
  let x := u64 (Z.lxor x (Z.shiftr x 27) * 0x94d049bb133111eb) in
  Z.lxor x (Z.shiftr x 31).

Record TemporalTracker := Tracker { slots : list DomainTrack; evictions : Z }.
Definition Evictions (tr : TemporalTracker) : Z := evictions tr.
Definition NewTemporalTracker : TemporalTracker := Tracker (replicate 8192 track_vide) 0.

(** [stringEqualBytes] of compact_reputation.go. *)
Definition stringEqualBytes (s b : list Z) : bool := egaux s b.

(** ** Jitter *)

Definition calculateJitter (hors : f64 -> Z) (slot : DomainTrack) : run Z :=
  let n := QueryCount slot in
  if n <? 4 then Done 100 else
  let head := THead slot in
  o ← for_range (R := unit) n (replicate 16 0) (fun i sortedTs =>
        let idx_ := Z.rem (head - n + i + HistoryWindowSize) HistoryWindowSize in
        t ← idx (Timestamps slot) idx_;
        s ← upd sortedTs i t; Done (inl s));
  let sortedTs := match o with inl s => s | inr _ => [] end in
  let deltasCount := n - 1 in
  o ← for_range (R := unit) deltasCount (f_of_Z 0) (fun i sumDelta =>
        b ← idx sortedTs (i + 1); a ← idx sortedTs i;
        let diff := if a <=? b then u32 (b - a) else 0 in
        Done (inl (fadd sumDelta (f_of_Z diff))));
  let sumDelta := match o with inl s => s | inr _ => f_of_Z 0 end in
  let meanDelta := fdiv sumDelta (f_of_Z deltasCount) in
  if fltb meanDelta (f_decimal 5 1) then Done 100 else
  o ← for_range (R := unit) deltasCount (f_of_Z 0) (fun i sumSqDiff =>
        b ← idx sortedTs (i + 1); a ← idx sortedTs i;
        let diff := if a <=? b then f_of_Z (u32 (b - a)) else f_of_Z 0 in
        let d := fsub diff meanDelta in
        Done (inl (fadd sumSqDiff (fmul d d))));
  let sumSqDiff := match o with inl s => s | inr _ => f_of_Z 0 end in
  let variance := fdiv sumSqDiff (f_of_Z deltasCount) in
  let stdDev := fsqrt variance in
  let cv := fmul (fdiv stdDev meanDelta) (f_of_Z 100) in
  if fltb (f_of_Z 100) cv then Done 100 else Done (f_to_uint hors 65536 cv).

(** ** One query *)

(** The probe of the eight cases: [inr k] when [k] holds the domain, otherwise
    the recyclable case, if any, and the least recently seen one. *)
Definition sonder (tr : TemporalTracker) (parentDomain : list Z) (h nowSec : Z) : run ((option Z * Z) + Z) :=
  let slotIdx := h mod MaxTrackedDomains in
  let step := Z.lor (Z.land (mix64 h) 0x7) 1 in
  for_range 8 (None, slotIdx) (fun i '(recyclable, victim) =>
    let k := Z.rem (slotIdx + i * step) MaxTrackedDomains in
    candidate ← idx (slots tr) k;
    found ← (if negb (TDomainLen candidate =? 0) && (TDomainHash candidate =? h)
             then name ← slice (TDomain candidate) 0 (TDomainLen candidate); Done (stringEqualBytes parentDomain name)
             else Done false);
    if (found : bool) then Done (inr k) else
    let recyclable := match recyclable with
      | None => if (TDomainLen candidate =? 0)
                   || ((LastSeen candidate <=? nowSec) && (MaxInactivitySec <=? u32 (nowSec - LastSeen candidate)))
                then Some k else None
      | Some r => Some r
      end in
    v ← idx (slots tr) victim;
    Done (inl (recyclable, if LastSeen candidate <? LastSeen v then k else victim))).

(** The case of the domain, claimed if need be. *)
Definition reserver (tr : TemporalTracker) (parentDomain : list Z) (h nowSec : Z) : run (TemporalTracker * Z) :=
  o ← sonder tr parentDomain h nowSec;
  match o with
  | inr k => Done (tr, k)
  | inl (recyclable, victim) =>
      let '(k, ev) := match recyclable with Some r => (r, evictions tr) | None => (victim, u64 (evictions tr + 1)) end in
      ss ← upd (slots tr) k (Track h (copy_into (replicate 253 0) parentDomain) (u8 (zlen parentDomain)) (replicate 16 0) 0 0 0 (replicate 4 0) 0);
      Done (Tracker ss ev, k)
  end.

(** Stale windows are purged, then the instant is recorded. *)
Definition dater (slot : DomainTrack) (nowSec : Z) : run DomainTrack :=
  let slot := if (0 <? QueryCount slot) && ((nowSec <? LastSeen slot) || (MaxInactivitySec <=? u32 (nowSec - LastSeen slot)))
              then resetWindow slot else slot in
  ts ← upd (Timestamps slot) (THead slot) nowSec;
  Done (Track (TDomainHash slot) (TDomain slot) (TDomainLen slot) ts (u8 (THead slot + 1) mod HistoryWindowSize)
    (if QueryCount slot <? HistoryWindowSize then u16 (QueryCount slot + 1) else QueryCount slot) nowSec
    (SubdomainBloom slot) (UniqueSubdomains slot)).

(** The Bloom filter of the sub-domains. *)
Definition marquer (slot : DomainTrack) (subdomain : list Z) : run DomainTrack :=
  if zlen subdomain =? 0 then Done slot else
  let h1 := FNV1a64String subdomain in
  let h2 := mix64 h1 in
  let w1 := Z.land (Z.shiftr h1 6) (SubdomainBloomWords - 1) in
  let w2 := Z.land (Z.shiftr (u64 (h1 + h2)) 6) (SubdomainBloomWords - 1) in
  let m1 := u64 (Z.shiftl 1 (Z.land h1 63)) in
  let m2 := u64 (Z.shiftl 1 (Z.land (u64 (h1 + h2)) 63)) in
  b1 ← idx (SubdomainBloom slot) w1;
  b2 ← idx (SubdomainBloom slot) w2;
  if (Z.land b1 m1 =? 0) || (Z.land b2 m2 =? 0) then
    bl ← upd (SubdomainBloom slot) w1 (Z.lor b1 m1);
    b2 ← idx bl w2;
    bl ← upd bl w2 (Z.lor b2 m2);
    Done (Track (TDomainHash slot) (TDomain slot) (TDomainLen slot) (Timestamps slot) (THead slot) (QueryCount slot) (LastSeen slot)
      bl (u16 (UniqueSubdomains slot + 1)))
  else Done slot.

Definition RecordQuery (hors : f64 -> Z) (tr : TemporalTracker) (parentDomain subdomain : list Z) (nowSec : Z)
  : run (TemporalTracker * (Z * Z * Z)) :=
  if (zlen parentDomain =? 0) || (253 <? zlen parentDomain) then Done (tr, (100, 0, 0)) else
  let h := FNV1a64String parentDomain in
  '(tr, k) ← reserver tr parentDomain h nowSec;
  slot ← idx (slots tr) k;
  slot ← dater slot nowSec;
  slot ← marquer slot subdomain;
  ss ← upd (slots tr) k slot;
  jitter ← (if 4 <=? QueryCount slot then calculateJitter hors slot else Done 100);
  Done (Tracker ss (evictions tr), (jitter, UniqueSubdomains slot, QueryCount slot)).

(** * Reference: passages since the last silence, newest first *)
Record passage := Passage { p_sous : list Z; p_date : Z }.

Definition vu (ep : list passage) : Z := match ep with v :: _ => p_date v | [] => 0 end.
(** An hour of silence, or a clock that goes back. *)
Definition perdu (t : Z) (ep : list passage) : bool := (t <? vu ep) || (MaxInactivitySec <=? t - vu ep).
Definition poursuivre (o : option (list passage)) (s : list Z) (t : Z) : list passage :=
  match o with
  | Some ep => if perdu t ep then [Passage s t] else Passage s t :: ep
  | None => [Passage s t]
  end.

(** Positions of a sub-domain in the 256-bit filter; the positions set, and the
    sub-domains that set one. *)
Definition positions (s : list Z) : Z * Z :=
  let h1 := FNV1a64String s in (h1 mod 256, (h1 + mix64 h1) mod 256).
Fixpoint filtre (ep : list passage) : gset Z * Z :=
  match ep with
  | [] => (∅, 0)
  | v :: ep =>
      let '(X, u) := filtre ep in
      let '(a, b) := positions (p_sous v) in
      if (zlen (p_sous v) =? 0) || bool_decide (a ∈ X /\ b ∈ X) then (X, u) else ({[a; b]} ∪ X, u + 1)
  end.
Definition uniques (ep : list passage) : Z := (filtre ep).2.

(** The jitter of the sixteen last instants. *)
Fixpoint intervalles (ts : list Z) : list Z :=
  match ts with
  | a :: (b :: _) as r => (if a <=? b then b - a else 0) :: intervalles r
  | _ => []
  end.
(** Coefficient of variation in percent; [None] below half a second on average. *)
Definition variation (ds : list Z) : option f64 :=
  let n := f_of_Z (zlen ds) in
  let meanDelta := fdiv (fold_left (fun s d => fadd s (f_of_Z d)) ds (f_of_Z 0)) n in
  if fltb meanDelta (f_decimal 5 1) then None else
  let sumSqDiff := fold_left (fun s d => let x := fsub (f_of_Z d) meanDelta in fadd s (fmul x x)) ds (f_of_Z 0) in
  Some (fmul (fdiv (fsqrt (fdiv sumSqDiff n)) meanDelta) (f_of_Z 100)).
Definition instants (ep : list passage) : list Z := reverse (p_date <$> take 16 ep).
Definition jitter_de (hors : f64 -> Z) (ep : list passage) : Z :=
  if zlen ep <? 4 then 100 else
  match variation (intervalles (instants ep)) with
  | None => 100
  | Some cv => if fltb (f_of_Z 100) cv then 100 else f_to_uint hors 65536 cv
  end.

(** * The ring of instants *)

Definition date_ok (t : Z) : Prop := is_u32 t.

Definition anneau (c : DomainTrack) (ep : list passage) : Prop :=
  zlen (Timestamps c) = 16 /\ THead c = zlen ep mod 16 /\ QueryCount c = Z.min 16 (zlen ep) /\
  forall j v, ep !! j = Some v -> (j < 16)%nat ->
    Timestamps c !! Z.to_nat ((zlen ep - 1 - Z.of_nat j) mod 16) = Some (p_date v).

Lemma zlen_instants ep : zlen (instants ep) = Z.min 16 (zlen ep).
Proof. unfold zlen, instants. rewrite length_reverse, length_fmap, length_take. lia. Qed.

Lemma instants_lookup ep i : 0 <= i < Z.min 16 (zlen ep) -> exists v,
  ep !! Z.to_nat (Z.min 16 (zlen ep) - 1 - i) = Some v /\ instants ep !! Z.to_nat i = Some (p_date v).
Proof.
  intros Hi. destruct (lookup_lt_is_Some_2 ep (Z.to_nat (Z.min 16 (zlen ep) - 1 - i))) as [v Hv]; [unfold zlen in *; lia|].
  exists v. split; [done|]. unfold instants. unfold zlen in *.
  rewrite reverse_lookup; rewrite length_fmap, length_take; [|lia]. rewrite list_lookup_fmap, lookup_take_lt by lia.
  replace (16 `min` length ep - S (Z.to_nat i))%nat with (Z.to_nat (Z.min 16 (Z.of_nat (length ep)) - 1 - i)) by lia. by rewrite Hv.
Qed.

Lemma intervalles_lookup ts : forall i a b, ts !! i = Some a -> ts !! S i = Some b ->
  intervalles ts !! i = Some (if a <=? b then b - a else 0).
Proof.
  induction ts as [|x ts IH]; intros i a b Ha Hb; [done|]. destruct ts as [|y ts]; [by destruct i|].
  destruct i as [|i]; [injection Ha as ->; by injection Hb as ->|]. exact (IH i a b Ha Hb).
Qed.
Lemma length_intervalles ts : length (intervalles ts) = (length ts - 1)%nat.
Proof. induction ts as [|x [|y ts] IH]; [done|done|]. cbn [intervalles length] in *. rewrite IH. lia. Qed.

(** Both sums over the intervals. *)
Lemma somme_boucle (g : f64 -> Z -> f64) (corps : Z -> f64 -> run (f64 + unit)) ts s0 :
  (forall i a b s, ts !! i = Some a -> ts !! S i = Some b -> corps (Z.of_nat i) s = Done (inl (g s (if a <=? b then b - a else 0)))) ->
  for_range (zlen ts - 1) s0 corps = Done (inl (fold_left g (intervalles ts) s0)).
Proof.
  intros Hc. destruct ts as [|x ts]; [done|].
  assert (zlen (x :: ts) - 1 = Z.of_nat (length (intervalles (x :: ts)))) as E
    by (rewrite length_intervalles; unfold zlen; cbn [length]; lia).
  cut (wp (for_range (zlen (x :: ts) - 1) s0 corps) (fun o => o = inl (fold_left g (intervalles (x :: ts)) s0)));
    [by intros (? & -> & ->)%wp_exists|].
  apply (wp_for_range (fun j s => s = fold_left g (take (Z.to_nat j) (intervalles (x :: ts))) s0)); [lia|done| |].
  - intros j s Hj ->. rewrite E in Hj. rewrite length_intervalles in Hj.
    destruct (lookup_lt_is_Some_2 (x :: ts) (Z.to_nat j)) as [a Ha]; [lia|].
    destruct (lookup_lt_is_Some_2 (x :: ts) (S (Z.to_nat j))) as [b Hb]; [lia|].
    rewrite <- (Z2Nat.id j) at 1 by lia. rewrite (Hc _ a b) by done.
    replace (Z.to_nat (j + 1)) with (S (Z.to_nat j)) by lia.
    rewrite (take_S_r _ _ _ (intervalles_lookup _ _ _ _ Ha Hb)), fold_left_app. done.
  - intros s ->. by rewrite E, Nat2Z.id, firstn_all.
Qed.

Lemma jitter_ok hors c ep : anneau c ep -> Forall (fun v => date_ok (p_date v)) ep ->
  (if 4 <=? QueryCount c then calculateJitter hors c else Done 100) = Done (jitter_de hors ep).
Proof.
  intros (Hts & Hh & Hq & Hring) Hd. unfold jitter_de. pose proof (zlen_nonneg ep).
  destruct (Z.leb_spec 4 (QueryCount c)) as [H4|H4], (Z.ltb_spec (zlen ep) 4); try lia; [|done].
  unfold calculateJitter. destruct (Z.ltb_spec (QueryCount c) 4); [lia|]. set (n := QueryCount c) in *.
  assert (forall i, 0 <= i < n -> exists t, instants ep !! Z.to_nat i = Some t /\ date_ok t /\
    idx (Timestamps c) (Z.rem (THead c - n + i + HistoryWindowSize) HistoryWindowSize) = Done t) as Hlu.
  { intros i Hi. destruct (instants_lookup ep i) as (v & Hv & Hi'); [lia|]. exists (p_date v). split; [done|].
    split; [exact (proj1 (Forall_lookup _ _) Hd _ _ Hv)|]. unfold HistoryWindowSize. pose proof (Z.mod_pos_bound (zlen ep) 16 ltac:(lia)). rewrite Z.rem_mod_nonneg by lia.
    apply idx_lookup; [apply Z.mod_pos_bound; lia|]. rewrite <- (Hring _ _ Hv) by lia. do 2 f_equal.
    rewrite Z2Nat.id by lia. rewrite Hh. divlia. }
  assert (exists s, for_range (R := unit) n (replicate 16 0) (fun i sortedTs =>
        t ← idx (Timestamps c) (Z.rem (THead c - n + i + HistoryWindowSize) HistoryWindowSize);
        s ← upd sortedTs i t; Done (inl s)) = Done (inl s) /\ forall i, 0 <= i < n -> s !! Z.to_nat i = instants ep !! Z.to_nat i) as (s & Hs & Hsi).
  { cut (wp (for_range (R := unit) n (replicate 16 0) (fun i sortedTs =>
        t ← idx (Timestamps c) (Z.rem (THead c - n + i + HistoryWindowSize) HistoryWindowSize);
        s ← upd sortedTs i t; Done (inl s))) (fun o => exists s, o = inl s /\ forall i, 0 <= i < n -> s !! Z.to_nat i = instants ep !! Z.to_nat i)).
    { intros (o & Ho & s & -> & Hs)%wp_exists. by exists s. }
    apply (wp_for_range (fun j s => zlen s = 16 /\ forall i, 0 <= i < j -> s !! Z.to_nat i = instants ep !! Z.to_nat i)); [lia|split; [done|lia]| |].
    - intros j s Hj [Hz Hs]. destruct (Hlu j Hj) as (t & Ht & _ & Hx). rewrite Hx, run_bind_done.
      apply wp_bind, wp_upd; [lia|]. apply wp_done. split; [by rewrite zlen_insert|]. intros i Hi.
      destruct (decide (i = j)) as [->|]; [rewrite list_lookup_insert_eq by (unfold zlen in Hz; lia); by rewrite Ht|].
      rewrite list_lookup_insert_ne by lia. apply Hs. lia.
    - intros s [_ Hs]. by exists s. }
  rewrite Hs, run_bind_done. cbv beta iota zeta.
  assert (n - 1 = zlen (instants ep) - 1) as En by (rewrite zlen_instants; lia).
  assert (forall i a b, instants ep !! i = Some a -> instants ep !! S i = Some b ->
    idx s (Z.of_nat i) = Done a /\ idx s (Z.of_nat i + 1) = Done b /\ (if a <=? b then u32 (b - a) else 0) = (if a <=? b then b - a else 0)) as Hab.
  { intros i a b Ha Hb. assert (S i < length (instants ep))%nat as Hl by by apply lookup_lt_Some in Hb.
    assert (Z.of_nat (S i) < n) as Hn by (pose proof (zlen_instants ep); unfold zlen in *; lia).
    destruct (Hlu (Z.of_nat i)) as (t & Ht & Hdt & _); [lia|]. destruct (Hlu (Z.of_nat (S i))) as (t' & Ht' & Hdt' & _); [lia|].
    rewrite Nat2Z.id in Ht, Ht'. assert (t = a) as -> by congruence. assert (t' = b) as -> by congruence.
    split_and!.
    - apply idx_lookup; [lia|]. rewrite Hsi by lia. by rewrite Nat2Z.id.
    - apply idx_lookup; [lia|]. replace (Z.of_nat i + 1) with (Z.of_nat (S i)) by lia. rewrite Hsi by lia. by rewrite Nat2Z.id.
    - destruct (Z.leb_spec a b); [|done]. apply u32_id. unfold date_ok, is_u32 in *. lia. }
  rewrite En, (somme_boucle (fun s d => fadd s (f_of_Z d))), run_bind_done.
  2: { intros i a b f Ha Hb. destruct (Hab i a b Ha Hb) as (E1 & E2 & E3). by rewrite E2, run_bind_done, E1, run_bind_done, E3. }
  assert (zlen (intervalles (instants ep)) = zlen (instants ep) - 1) as El
    by (unfold zlen; rewrite length_intervalles; pose proof (zlen_instants ep); unfold zlen in *; lia).
  unfold variation. rewrite El. cbv beta iota zeta. destruct (fltb _ (f_decimal 5 1)); [done|].
  set (m := fdiv _ (f_of_Z (zlen (instants ep) - 1))).
  rewrite (somme_boucle (fun s d => let x := fsub (f_of_Z d) m in fadd s (fmul x x))), run_bind_done.
  2: { intros i a b f Ha Hb. destruct (Hab i a b Ha Hb) as (E1 & E2 & E3). rewrite E2, run_bind_done, E1, run_bind_done.
       cbv zeta. rewrite <- E3. by destruct (a <=? b). }
  cbv beta iota zeta. by destruct (fltb (f_of_Z 100) _).
Qed.

(** * The filter of sub-domains *)

(** The four words hold the positions [X]. *)
Definition bits_de (B : list Z) (X : gset Z) : Prop :=
  zlen B = 4 /\ Forall is_u64 B /\ forall q, 0 <= q < 256 -> Z.testbit (bget B (q / 64)) (q mod 64) = bool_decide (q ∈ X).

Lemma bits_vides : bits_de (replicate 4 0) ∅.
Proof.
  split; [done|]. split; [by repeat constructor|]. intros q Hq. rewrite bool_decide_false by set_solver.
  assert (q / 64 = 0 \/ q / 64 = 1 \/ q / 64 = 2 \/ q / 64 = 3) as [-> | [-> | [-> | ->]]] by divlia; cbn; apply Z.bits_0.
Qed.

Lemma masque_bit b k : 0 <= k < 64 -> (Z.land b (2 ^ k) =? 0) = negb (Z.testbit b k).
Proof.
  intros Hk. destruct (Z.testbit b k) eqn:Eb; cbn [negb].
  - apply Z.eqb_neq. intros H0. assert (Z.testbit (Z.land b (2 ^ k)) k = false) as H1 by (rewrite H0; apply Z.bits_0).
    rewrite Z.land_spec, Eb, Z.pow2_bits_true in H1 by lia. done.
  - apply Z.eqb_eq, Z.bits_inj'. intros i Hi. rewrite Z.land_spec, Z.pow2_bits_eqb, Z.bits_0 by lia.
    destruct (Z.eqb_spec k i) as [<-|]; [by rewrite Eb|apply andb_false_r].
Qed.

Lemma poser_bit B X q : bits_de B X -> 0 <= q < 256 ->
  bits_de (<[Z.to_nat (q / 64) := Z.lor (bget B (q / 64)) (2 ^ (q mod 64))]> B) ({[q]} ∪ X).
Proof.
  intros (Hz & Hu & HX) Hq. assert (0 <= q / 64 < 4) as Hw by divlia. assert (0 <= q mod 64 < 64) as Hm by (apply Z.mod_pos_bound; lia).
  split; [by rewrite zlen_insert|]. split.
  - apply Forall_insert; [done|]. apply (lor_range _ _ 64); [lia| |split; [lia|apply Z.pow_lt_mono_r; lia]].
    apply (bget_Forall is_u64); [done|lia].
  - intros r Hr. assert (0 <= r / 64 < 4) as Hw' by divlia. destruct (decide (r / 64 = q / 64)) as [E|E].
    + rewrite E, bget_insert_eq, Z.lor_spec, Z.pow2_bits_eqb by lia. rewrite <- E, HX by done.
      destruct (Z.eqb_spec (q mod 64) (r mod 64)) as [E'|E'].
      * assert (r = q) as -> by divlia. rewrite orb_true_r. symmetry. apply bool_decide_true. set_solver.
      * rewrite orb_false_r. apply bool_decide_ext. assert (r <> q) by congruence. set_solver.
    + rewrite bget_insert_ne, HX by lia. apply bool_decide_ext. assert (r <> q) by congruence. set_solver.
Qed.

Definition filtre_ok (c : DomainTrack) (ep : list passage) : Prop :=
  bits_de (SubdomainBloom c) (filtre ep).1 /\ UniqueSubdomains c = uniques ep.

(** The positions are in range, and every counted sub-domain set one of the 256. *)
Lemma mix64_range x : is_u64 (mix64 x).
Proof. exact (melangerSplitMix64_range x). Qed.
Lemma FNV_range s : is_u64 (FNV1a64String s).
Proof. apply hacherOctetsFNV64a_range. unfold is_u64. lia. Qed.

Lemma positions_range s : let '(a, b) := positions s in 0 <= a < 256 /\ 0 <= b < 256.
Proof. split; apply Z.mod_pos_bound; lia. Qed.

Lemma filtre_borne ep : (forall q, q ∈ (filtre ep).1 -> 0 <= q < 256) /\ 0 <= uniques ep <= Z.of_nat (size (filtre ep).1).
Proof.
  unfold uniques. induction ep as [|v ep [IH1 IH2]]; [split; [set_solver|cbn; rewrite size_empty; lia]|].
  cbn [filtre]. destruct (filtre ep) as [X u]. pose proof (positions_range (p_sous v)) as Hp. destruct (positions (p_sous v)) as [a b].
  cbn [fst snd] in *. destruct (_ || bool_decide _) eqn:Eb; cbn [fst snd]; [done|].
  apply orb_false_iff in Eb as [_ Eb%bool_decide_eq_false]. split; [set_solver|].
  assert (size X < size ({[a; b]} ∪ X))%nat; [|lia]. apply subset_size. set_solver.
Qed.

Lemma uniques_256 ep : 0 <= uniques ep <= 256.
Proof.
  destruct (filtre_borne ep) as [H1 H2]. split; [lia|]. etrans; [apply H2|].
  assert (size (filtre ep).1 <= size (list_to_set (seqZ 0 256) : gset Z))%nat as Hs.
  { apply subseteq_size. intros q Hq. apply elem_of_list_to_set, elem_of_seqZ. specialize (H1 q Hq). lia. }
  rewrite size_list_to_set in Hs by apply NoDup_seqZ. rewrite length_seqZ in Hs. lia.
Qed.

(** Counted sub-domains are distinct, non-empty sub-domains of the passages. *)
Definition sous_vus (ep : list passage) : list (list Z) := List.filter (fun s => negb (zlen s =? 0)) (p_sous <$> ep).
Lemma filtre_marque ep s : s ∈ sous_vus ep -> let '(a, b) := positions s in a ∈ (filtre ep).1 /\ b ∈ (filtre ep).1.
Proof.
  induction ep as [|v ep IH]; intros Hs; [by apply elem_of_nil in Hs|]. unfold sous_vus in Hs. cbn [fmap list_fmap List.filter] in Hs.
  cbn [filtre]. destruct (filtre ep) as [X u]. cbn [fst] in *. destruct (positions (p_sous v)) as [a b] eqn:Ep.
  assert (s ∈ sous_vus ep \/ s = p_sous v /\ (zlen (p_sous v) =? 0) = false) as [Hin|[-> Hz]].
  { destruct (zlen (p_sous v) =? 0); [by left|]. cbn [negb] in Hs. apply elem_of_cons in Hs as [->|]; [by right|by left]. }
  - specialize (IH Hin). destruct (positions s) as [c d]. destruct (_ || _); cbn [fst]; [done|set_solver].
  - rewrite Ep, Hz. cbn [orb]. destruct (bool_decide _) eqn:Eb; cbn [fst]; [by apply bool_decide_eq_true in Eb|set_solver].
Qed.

Lemma uniques_distincts ep : exists D, NoDup D /\ D ⊆ sous_vus ep /\ uniques ep = zlen D.
Proof.
  unfold uniques. induction ep as [|v ep (D & HD & Hsub & Hu)]; [exists []; split; [constructor|done]|].
  pose proof (filtre_marque ep) as Hm. cbn [filtre]. destruct (filtre ep) as [X u]. cbn [fst snd] in *.
  assert (sous_vus ep ⊆ sous_vus (v :: ep)) as Hinc.
  { intros s Hs. unfold sous_vus. cbn [fmap list_fmap List.filter]. destruct (negb _); [by apply elem_of_cons; right|done]. }
  destruct (positions (p_sous v)) as [a b] eqn:Ep. destruct (zlen (p_sous v) =? 0) eqn:Ez; cbn [orb]; [exists D; split_and!; [done|set_solver|done]|].
  destruct (bool_decide _) eqn:Eb; [exists D; split_and!; [done|set_solver|done]|]. apply bool_decide_eq_false in Eb.
  exists (p_sous v :: D). split_and!.
  - apply NoDup_cons. split; [|done]. intros Hin%Hsub%Hm. by rewrite Ep in Hin.
  - intros s [->|Hs]%elem_of_cons; [|set_solver]. unfold sous_vus. cbn [fmap list_fmap List.filter]. rewrite Ez. apply elem_of_cons. by left.
  - cbn [snd]. rewrite zlen_cons, Hu. lia.
Qed.

Definition avec_filtre (c : DomainTrack) (B : list Z) (u : Z) : DomainTrack :=
  Track (TDomainHash c) (TDomain c) (TDomainLen c) (Timestamps c) (THead c) (QueryCount c) (LastSeen c) B u.

Lemma marquer_ok c s t ep : filtre_ok c ep ->
  exists B u, marquer c s = Done (avec_filtre c B u) /\ filtre_ok (avec_filtre c B u) (Passage s t :: ep).
Proof.
  intros [HB Hu]. unfold marquer, filtre_ok, uniques. cbn [filtre p_sous]. pose proof (uniques_256 ep) as H256.
  unfold uniques in *. destruct (filtre ep) as [X u]. cbn [fst snd] in *.
  unfold positions in *. set (h1 := FNV1a64String s) in *. set (a := h1 mod 256) in *. set (b := (h1 + mix64 h1) mod 256) in *.
  assert (0 <= a < 256 /\ 0 <= b < 256) as [Ha Hb] by (split; apply Z.mod_pos_bound; lia).
  destruct (zlen s =? 0); cbn [orb].
  { exists (SubdomainBloom c), (UniqueSubdomains c). split; [by destruct c|]. done. }
  assert (forall x q, is_u64 x -> q = x mod 256 ->
    Z.land (Z.shiftr x 6) (SubdomainBloomWords - 1) = q / 64 /\ u64 (Z.shiftl 1 (Z.land x 63)) = 2 ^ (q mod 64)) as Hw.
  { intros x q Hx ->. change (SubdomainBloomWords - 1) with (Z.ones 2). change 63 with (Z.ones 6).
    rewrite !Z.land_ones, Z.shiftr_div_pow2, Z.shiftl_mul_pow2 by (try apply Z.mod_pos_bound; lia). change (2 ^ 6) with 64. change (2 ^ 2) with 4.
    replace (x mod 256 mod 64) with (x mod 64) by divlia. split; [divlia|]. rewrite Z.mul_1_l. apply u64_id.
    unfold is_u64. split; [lia|]. apply Z.pow_lt_mono_r; [lia|lia|]. apply Z.mod_pos_bound. lia. }
  destruct (Hw h1 a (FNV_range s) eq_refl) as [-> ->].
  destruct (Hw (u64 (h1 + mix64 h1)) b (u64_range _)) as [-> ->]; [unfold b, u64; divlia|]. clear Hw.
  destruct HB as (Hz & HBu & HX). assert (0 <= a / 64 < 4 /\ 0 <= b / 64 < 4) as [Hwa Hwb] by (split; divlia).
  rewrite !idx_bget, !run_bind_done by lia. rewrite !masque_bit, !HX by (done || (apply Z.mod_pos_bound; lia)).
  replace (negb (bool_decide (a ∈ X)) || negb (bool_decide (b ∈ X))) with (negb (bool_decide (a ∈ X /\ b ∈ X)))
    by (by rewrite bool_decide_and, negb_andb).
  destruct (bool_decide _) eqn:Eb; cbn [negb].
  { exists (SubdomainBloom c), (UniqueSubdomains c). split; [by destruct c|]. split; [split_and!; done|done]. }
  pose proof (poser_bit (SubdomainBloom c) X a) as H1. destruct H1 as (Hz1 & Hu1 & HX1); [split_and!; done|done|].
  rewrite upd_ok, run_bind_done, idx_bget, run_bind_done by lia.
  pose proof (poser_bit _ _ b (conj Hz1 (conj Hu1 HX1)) Hb) as HB2. rewrite upd_ok, run_bind_done by lia.
  eexists _, _. split; [done|]. split.
  - cbn [SubdomainBloom avec_filtre]. replace ({[a; b]} ∪ X) with ({[b]} ∪ ({[a]} ∪ X)) by set_solver. exact HB2.
  - cbn [UniqueSubdomains avec_filtre]. rewrite Hu. cbn [fst snd]. apply u16_id; unfold is_u16; lia.
Qed.

(** * One case *)

Definition nom (c : DomainTrack) : list Z := take (Z.to_nat (TDomainLen c)) (TDomain c).
Definition nom_ok (c : DomainTrack) : Prop :=
  zlen (TDomain c) = 253 /\ 0 <= TDomainLen c <= 253 /\ TDomainHash c = FNV1a64String (nom c).

(** The case keeps the passages [ep]; none yet in a case just claimed. *)
Definition suivi (c : DomainTrack) (ep : list passage) : Prop :=
  nom_ok c /\ anneau c ep /\ filtre_ok c ep /\ Forall (fun v => date_ok (p_date v)) ep /\ (ep <> [] -> LastSeen c = vu ep).

Definition sans_perte (t : Z) (ep : list passage) : list passage := if perdu t ep then [] else ep.

Lemma anneau_suivant c ep s t ts q h : anneau c ep ->
  ts = <[Z.to_nat (THead c) := t]> (Timestamps c) -> h = (THead c + 1) mod 16 ->
  q = (if QueryCount c <? 16 then QueryCount c + 1 else QueryCount c) ->
  forall a b d e B u, anneau (Track a b d ts h q e B u) (Passage s t :: ep).
Proof.
  intros (Hz & Hh & Hq & Hr) -> -> -> a b d e B u. unfold anneau. cbn [Timestamps THead QueryCount]. rewrite zlen_cons. pose proof (zlen_nonneg ep).
  pose proof (Z.mod_pos_bound (zlen ep) 16 ltac:(lia)). split_and!.
  - by rewrite zlen_insert.
  - rewrite Hh. divlia.
  - rewrite Hq. destruct (Z.ltb_spec (Z.min 16 (zlen ep)) 16); lia.
  - intros [|j] v Hv Hj.
    + injection Hv as <-. cbn [p_date]. replace (1 + zlen ep - 1 - Z.of_nat 0) with (zlen ep) by lia. rewrite <- Hh.
      apply list_lookup_insert_eq. unfold zlen in Hz. lia.
    + rewrite list_lookup_insert_ne; [|rewrite Hh; intros E%Z2Nat.inj; [divlia|apply Z.mod_pos_bound; lia..]]. replace (1 + zlen ep - 1 - Z.of_nat (S j)) with (zlen ep - 1 - Z.of_nat j) by lia. apply (Hr j v Hv). lia.
Qed.

Lemma dater_ok c ep t : suivi c ep -> date_ok t ->
  exists c', dater c t = Done c' /\ TDomain c' = TDomain c /\ TDomainLen c' = TDomainLen c /\ TDomainHash c' = TDomainHash c /\
    LastSeen c' = t /\ filtre_ok c' (sans_perte t ep) /\ forall s, anneau c' (Passage s t :: sans_perte t ep).
Proof.
  intros (_ & Ha & Hf & Hd & Hv) Ht. unfold dater, sans_perte. pose proof Ha as (Hz & Hh & Hq & _).
  set (c0 := if _ && _ then resetWindow c else c).
  assert (anneau c0 (if perdu t ep then [] else ep) /\ filtre_ok c0 (if perdu t ep then [] else ep) /\
    TDomain c0 = TDomain c /\ TDomainLen c0 = TDomainLen c /\ TDomainHash c0 = TDomainHash c) as (Ha0 & Hf0 & E1 & E2 & E3).
  { assert (ep <> [] -> (0 <? QueryCount c) && ((t <? LastSeen c) || (MaxInactivitySec <=? u32 (t - LastSeen c))) = perdu t ep) as Hp.
    { intros Hne. specialize (Hv Hne). rewrite Hv, Hq. unfold perdu. destruct ep as [|v ep]; [done|].
      apply Forall_cons_iff in Hd as [Hdv _]. unfold date_ok, is_u32 in *. cbn [vu]. rewrite zlen_cons. pose proof (zlen_nonneg ep).
      destruct (Z.ltb_spec 0 (Z.min 16 (1 + zlen ep))); [|lia]. cbn [andb]. destruct (Z.ltb_spec t (p_date v)); [done|].
      by rewrite u32_id by (unfold is_u32; lia). }
    destruct ep as [|v ep].
    - unfold c0. rewrite Hq. cbn [zlen length Z.of_nat Z.min Z.compare Z.ltb andb]. by destruct (perdu t []).
    - unfold c0. rewrite Hp by done. destruct (perdu t (v :: ep)); [|done]. split_and!; try done.
      split; [exact bits_vides|done]. }
  destruct Ha0 as (Hz0 & Hh0 & Hq0 & Hr0). pose proof (Z.mod_pos_bound (zlen (if perdu t ep then [] else ep)) 16 ltac:(lia)).
  rewrite upd_ok, run_bind_done by lia. eexists. split; [done|]. cbn [TDomain TDomainLen TDomainHash LastSeen]. split_and!; try done.
  intros s. eapply anneau_suivant; [split_and!; done|done| |].
  - unfold HistoryWindowSize. by rewrite u8_id by (unfold is_u8; lia).
  - unfold HistoryWindowSize. pose proof (zlen_nonneg (if perdu t ep then [] else ep)).
    destruct (Z.ltb_spec (QueryCount c0) 16); [apply u16_id; unfold is_u16; lia|done].
Qed.

(** * The probe *)

Definition pas_de (p : list Z) : Z := Z.lor (Z.land (mix64 (FNV1a64String p)) 7) 1.
Definition sonde (p : list Z) (j : Z) : Z := (FNV1a64String p mod 8192 + j * pas_de p) mod 8192.
Definition fenetre (p : list Z) (k : Z) : Prop := exists j, 0 <= j < 8 /\ k = sonde p j.

Lemma sonde_bornee p j : 0 <= sonde p j < 8192.
Proof. apply Z.mod_pos_bound. lia. Qed.
Lemma fenetre_range p k : fenetre p k -> 0 <= k < 8192.
Proof. intros (j & _ & ->). apply sonde_bornee. Qed.

Lemma pas_range p : 1 <= pas_de p < 8.
Proof.
  unfold pas_de. pose proof (land_range (mix64 (FNV1a64String p)) 7 3 ltac:(lia) ltac:(lia)) as Hl.
  pose proof (lor_range (Z.land (mix64 (FNV1a64String p)) 7) 1 3 ltac:(lia) Hl ltac:(lia)) as H.
  assert (Z.lor (Z.land (mix64 (FNV1a64String p)) 7) 1 <> 0) as Hn; [|change (2 ^ 3) with 8 in H; lia].
  intros H0. assert (Z.testbit (Z.lor (Z.land (mix64 (FNV1a64String p)) 7) 1) 0 = false) as Hb by by rewrite H0.
  by rewrite Z.lor_spec, orb_true_r in Hb.
Qed.

Lemma sondes_distinctes p i j : 0 <= i < 8 -> 0 <= j < 8 -> sonde p i = sonde p j -> i = j.
Proof.
  intros Hi Hj H. pose proof (pas_range p). unfold sonde in H. set (s := pas_de p) in *. set (h := FNV1a64String p mod 8192) in *.
  assert ((i - j) * s mod 8192 = 0) as E.
  { replace ((i - j) * s) with ((h + i * s) - (h + j * s)) by lia. rewrite Zminus_mod, H, Z.sub_diag. done. }
  assert (-64 < (i - j) * s < 64) by nia. assert ((i - j) * s = 0) as E' by divlia. nia.
Qed.

Definition occupee (c : DomainTrack) : bool := negb (TDomainLen c =? 0).
Definition case_ok (c : DomainTrack) (ep : list passage) : Prop := suivi c ep /\ ep <> [].
Notation represente := (represente occupee nom fenetre 8192 case_ok).
Notation lire := (lire_case (C := DomainTrack)).
Notation vider := (vider (E := list passage) occupee nom).

Definition expiree (t : Z) (c : DomainTrack) : Prop := LastSeen c <= t /\ MaxInactivitySec <= t - LastSeen c.

(** What has been learnt after [j] probes. *)
Definition candidats_ok (T : list DomainTrack) (p : list Z) (t j : Z) (s : option Z * Z) : Prop :=
  (forall i c, 0 <= i < j -> lire T (sonde p i) = Some c -> occupee c = true -> nom c <> p) /\
  match s.1 with
  | Some r => (exists i, 0 <= i < j /\ r = sonde p i) /\ exists c, lire T r = Some c /\ (occupee c = true -> expiree t c)
  | None => forall i c, 0 <= i < j -> lire T (sonde p i) = Some c -> occupee c = true /\ ~ expiree t c
  end /\
  (exists i, 0 <= i < Z.max 1 j /\ s.2 = sonde p i) /\
  (forall i c v, 0 <= i < j -> lire T (sonde p i) = Some c -> lire T s.2 = Some v -> LastSeen v <= LastSeen c).

Lemma vu_date ep : Forall (fun v => date_ok (p_date v)) ep -> date_ok (vu ep).
Proof. intros []; [unfold date_ok, is_u32; cbn; lia|done]. Qed.

Lemma case_lue T A k c : represente T A -> 0 <= k -> lire T k = Some c -> occupee c = true ->
  nom_ok c /\ exists ep, A !! nom c = Some ep /\ case_ok c ep /\ LastSeen c = vu ep /\ date_ok (LastSeen c).
Proof.
  intros Hr Hk Hc Ho. destruct (represente_lu _ _ _ _ _ T A k c Hr Hk Hc Ho) as (ep & Hep & Hok).
  pose proof Hok as [(Hn & _ & _ & Hd & Hv) Hne]. split; [done|]. exists ep. rewrite (Hv Hne). split_and!; try done. by apply vu_date.
Qed.

Lemma trouvee T A p k c : represente T A -> 0 <= k -> lire T k = Some c ->
  exists b, (if negb (TDomainLen c =? 0) && (TDomainHash c =? FNV1a64String p)
             then name ← slice (TDomain c) 0 (TDomainLen c); Done (stringEqualBytes p name) else Done false) = Done b /\
    (b = true <-> occupee c = true /\ nom c = p).
Proof.
  intros Hr Hk Hc. unfold occupee. destruct (TDomainLen c =? 0) eqn:E0; cbn [negb andb]; [exists false; split; [done|naive_solver]|].
  destruct (case_lue T A k c Hr Hk Hc) as [(Hz & Hl & Hh) _]; [by unfold occupee; rewrite E0|].
  destruct (Z.eqb_spec (TDomainHash c) (FNV1a64String p)) as [E|E].
  - assert (slice (TDomain c) 0 (TDomainLen c) = Done (nom c)) as ->.
    { unfold slice, nom. destruct (Z.leb_spec 0 0), (Z.leb_spec 0 (TDomainLen c)), (Z.leb_spec (TDomainLen c) (zlen (TDomain c))); try lia.
      cbn [andb]. by rewrite Z.sub_0_r. }
    rewrite run_bind_done. eexists. split; [done|]. unfold stringEqualBytes, egaux. rewrite bool_decide_eq_true. naive_solver.
  - exists false. split; [done|]. split; [done|]. intros [_ <-]. congruence.
Qed.

(** One more case probed, which is not the domain's. *)
Lemma candidats_suivants T p t j r v c cv : candidats_ok T p t j (r, v) -> 0 <= j < 8 ->
  lire T (sonde p j) = Some c -> lire T v = Some cv -> (occupee c = true -> nom c <> p) ->
  (occupee c = true -> is_u32 (LastSeen c)) -> is_u32 t ->
  candidats_ok T p t (j + 1)
    (match r with
     | None => if (TDomainLen c =? 0) || ((LastSeen c <=? t) && (MaxInactivitySec <=? u32 (t - LastSeen c))) then Some (sonde p j) else None
     | Some r => Some r end,
     if LastSeen c <? LastSeen cv then sonde p j else v).
Proof.
  intros (Hn & Hrec & (iv & Hiv & Ev) & Hmin) Hj Hc Hcv Hne Hd Ht.
  assert (forall i d, 0 <= i < j + 1 -> lire T (sonde p i) = Some d -> (0 <= i < j /\ lire T (sonde p i) = Some d) \/ d = c) as Hcas.
  { intros i d Hi Hl. destruct (decide (i = j)) as [->|]; [right; congruence|left; split; [lia|done]]. }
  assert ((TDomainLen c =? 0) || ((LastSeen c <=? t) && (MaxInactivitySec <=? u32 (t - LastSeen c))) = true
          <-> (occupee c = true -> expiree t c)) as Hlib.
  { unfold occupee, expiree, MaxInactivitySec in *. destruct (TDomainLen c =? 0); cbn [negb orb] in *; [done|]. specialize (Hd eq_refl).
    assert (LastSeen c <= t -> u32 (t - LastSeen c) = t - LastSeen c) as Eu by (intros; apply u32_id; unfold is_u32 in *; lia).
    rewrite andb_true_iff, !Z.leb_le. split; [intros [H1 H2] _; by rewrite Eu in H2|].
    intros H; specialize (H eq_refl) as [H1 H2]. by rewrite Eu. }
  split_and!; cbn [fst snd] in *.
  - intros i d Hi Hl. destruct (Hcas i d Hi Hl) as [[Hi' Hl']| ->]; [by apply (Hn i)|done].
  - destruct r as [r|].
    + destruct Hrec as [(i & Hi & ->) Hr]. split; [exists i; split; [lia|done]|done].
    + destruct (_ || _) eqn:El.
      * split; [exists j; split; [lia|done]|]. exists c. split; [done|]. by apply Hlib.
      * intros i d Hi Hl. destruct (Hcas i d Hi Hl) as [[Hi' Hl']| ->]; [by apply (Hrec i)|].
        unfold occupee, expiree in *. destruct (TDomainLen c =? 0) eqn:E0; cbn [orb negb] in *; [done|]. split; [done|].
        intros He. assert (false = true) as E; [apply Hlib; by intros _|done].
  - destruct (_ <? _); [exists j; split; [lia|done]|exists iv; split; [lia|done]].
  - intros i d w Hi Hl Hw. destruct (Z.ltb_spec (LastSeen c) (LastSeen cv)) as [Hlt|Hge].
    + assert (w = c) as -> by congruence. destruct (Hcas i d Hi Hl) as [[Hi' Hl']| ->]; [|lia].
      specialize (Hmin i d cv Hi' Hl' Hcv). lia.
    + assert (w = cv) as -> by congruence. destruct (Hcas i d Hi Hl) as [[Hi' Hl']| ->]; [|lia].
      exact (Hmin i d cv Hi' Hl' Hcv).
Qed.

Lemma wp_sonder_suivi tr A p t : represente (slots tr) A -> is_u32 t ->
  wp (sonder tr p (FNV1a64String p) t) (fun o => match o with
    | inr k => fenetre p k /\ exists c, lire (slots tr) k = Some c /\ occupee c = true /\ nom c = p
    | inl s => candidats_ok (slots tr) p t 8 s
    end).
Proof.
  intros Hr Ht. unfold sonder, MaxTrackedDomains.
  apply (wp_for_range (candidats_ok (slots tr) p t)); [lia| | |done].
  - unfold candidats_ok. cbn [fst snd]. split_and!; [intros; exfalso; lia|intros; exfalso; lia| |intros; exfalso; lia]. exists 0. split; [lia|]. unfold sonde.
    rewrite Z.mul_0_l, Z.add_0_r, Zmod_mod. done.
  - intros j [r v] Hj Hok. pose proof (pas_range p) as Hpas. pose proof (Z.mod_pos_bound (FNV1a64String p) 8192 ltac:(lia)) as Hh.
    assert (Z.rem (FNV1a64String p mod 8192 + j * Z.lor (Z.land (mix64 (FNV1a64String p)) 7) 1) 8192 = sonde p j) as ->.
    { unfold sonde, pas_de in *. apply Z.rem_mod_nonneg; nia. }
    destruct (represente_case _ _ _ 8192 _ (slots tr) A (sonde p j) Hr (sonde_bornee p j)) as (c & Hc & Hi). rewrite Hi, run_bind_done.
    destruct (trouvee (slots tr) A p (sonde p j) c Hr) as (b & Hb & Hbt); [apply sonde_bornee|done|]. rewrite Hb, run_bind_done.
    destruct b; [apply wp_done; split; [by exists j|exists c; split; [done|by apply Hbt]]|].
    pose proof Hok as (_ & _ & (iv & Hiv & Ev) & _). cbn [snd] in Ev. subst v.
    destruct (represente_case _ _ _ 8192 _ (slots tr) A (sonde p iv) Hr (sonde_bornee p iv)) as (cv & Hcv & Hiv'). rewrite Hiv', run_bind_done.
    apply wp_done. apply candidats_suivants; [done|done|done|done| | |done].
    + intros Ho Hn. by assert (false = true) by by apply Hbt.
    + intros Ho. destruct (case_lue (slots tr) A (sonde p j) c Hr) as (_ & ep & _ & _ & _ & Hd); [apply sonde_bornee|done|done|done].
Qed.

(** * The abstract machine *)

(** Making room for [p]: nothing to do, a silent domain dropped, or, when eight
    active domains fill the window of [p], the least recently seen one. *)
Inductive reserve (A : gmap (list Z) (list passage)) (p : list Z) (t : Z) : gmap (list Z) (list passage) -> Z -> Prop :=
  | reserve_present ep : A !! p = Some ep -> reserve A p t A 0
  | reserve_libre : A !! p = None -> reserve A p t A 0
  | reserve_perimee r ep : A !! p = None -> A !! r = Some ep -> MaxInactivitySec <= t - vu ep ->
      reserve A p t (delete r A) 0
  | reserve_eviction r ep L : A !! p = None -> A !! r = Some ep -> length L = 8%nat -> NoDup L ->
      (forall e, e ∈ L -> exists ep', A !! e = Some ep' /\ t - vu ep' < MaxInactivitySec /\ vu ep <= vu ep') ->
      reserve A p t (delete r A) 1.

Definition case_fraiche (p : list Z) : DomainTrack :=
  Track (FNV1a64String p) (copy_into (replicate 253 0) p) (u8 (zlen p)) (replicate 16 0) 0 0 0 (replicate 4 0) 0.

Lemma case_fraiche_ok p : 0 < zlen p <= 253 -> occupee (case_fraiche p) = true /\ nom (case_fraiche p) = p /\ suivi (case_fraiche p) [].
Proof.
  intros Hp. assert (u8 (zlen p) = zlen p) as E by (apply u8_id; unfold is_u8; lia).
  assert (nom (case_fraiche p) = p) as Hn.
  { unfold nom, case_fraiche, copy_into. cbn [TDomainLen TDomain]. rewrite E, length_replicate.
    rewrite (take_ge p) by (unfold zlen in Hp; lia). unfold zlen. rewrite Nat2Z.id. apply take_app_length. }
  split_and!; [|done|].
  - unfold occupee, case_fraiche. cbn [TDomainLen]. rewrite E. by destruct (Z.eqb_spec (zlen p) 0); [lia|].
  - split_and!; [split_and!| |split; [exact bits_vides|done]|constructor|done].
    + unfold case_fraiche. cbn [TDomain]. by rewrite zlen_copy_into.
    + unfold case_fraiche. cbn [TDomainLen]. lia.
    + unfold case_fraiche. cbn [TDomainLen]. lia.
    + by rewrite Hn.
    + split_and!; done.
Qed.

(** What a reservation does: [k] is the only place of [p], the table changes at
    most there, and the domain lost, if any, is the one [reserve] allows. *)
Definition reservation (tr : TemporalTracker) (A : gmap (list Z) (list passage)) (p : list Z) (t : Z) (tr' : TemporalTracker) (k : Z) : Prop :=
  exists ck c A0 n, lire (slots tr) k = Some ck /\ fenetre p k /\
    (forall i d, fenetre p i -> lire (slots tr) i = Some d -> occupee d = true -> nom d = p -> i = k) /\
    zlen (slots tr') = 8192 /\ (forall d, <[Z.to_nat k := d]> (slots tr') = <[Z.to_nat k := d]> (slots tr)) /\
    reserve A p t A0 n /\ evictions tr' = u64 (evictions tr + n) /\ (forall ep, <[p := ep]> (vider ck A) = <[p := ep]> A0) /\
    lire (slots tr') k = Some c /\ suivi c (default [] (A !! p)) /\ nom c = p /\ occupee c = true.

Lemma reserve_victime tr A p t k ck : represente (slots tr) A -> is_u32 t -> A !! p = None ->
  fenetre p k -> lire (slots tr) k = Some ck -> (occupee ck = true -> expiree t ck) ->
  reserve A p t (vider ck A) 0.
Proof.
  intros Hr Ht Habs Hf Hck He. unfold TableSondee.vider. destruct (occupee ck) eqn:Ho; [|by apply reserve_libre].
  destruct (case_lue _ _ _ _ Hr (proj1 (fenetre_range _ _ Hf)) Hck Ho) as (_ & ep & Hep & _ & Hls & _).
  destruct (He eq_refl) as [H1 H2]. apply (reserve_perimee _ _ _ _ ep); [done|done|lia].
Qed.

Lemma reserve_lru tr A p t v cv : represente (slots tr) A -> A !! p = None ->
  candidats_ok (slots tr) p t 8 (None, v) -> lire (slots tr) v = Some cv -> reserve A p t (vider cv A) 1.
Proof.
  intros Hr Habs (_ & Hviv & (iv & Hiv & Ev) & Hmin) Hcv. cbn [fst snd] in *. subst v.
  destruct (Hviv iv cv) as [Hov _]; [lia|done|]. unfold TableSondee.vider. rewrite Hov.
  destruct (case_lue _ _ _ _ Hr (proj1 (sonde_bornee p iv)) Hcv Hov) as (_ & ep & Hep & _ & Hls & _).
  set (places := sonde p <$> seqZ 0 8).
  destruct (cles_vivantes occupee nom fenetre 8192 case_ok (slots tr) A places (fun c => ~ expiree t c /\ LastSeen cv <= LastSeen c)) as (H1 & H2 & H3).
  - done.
  - apply NoDup_fmap_2_strong; [|apply NoDup_seqZ]. intros i j Hi Hj E. apply elem_of_seqZ in Hi, Hj. apply (sondes_distinctes p); [lia|lia|done].
  - intros k (j & -> & _)%list_elem_of_fmap. apply sonde_bornee.
  - intros k c (j & -> & Hj%elem_of_seqZ)%list_elem_of_fmap Hc. destruct (Hviv j c) as [Ho Hne]; [lia|done|]. split; [done|]. split; [done|].
    by apply (Hmin j c cv); [lia|..].
  - apply (reserve_eviction _ _ _ _ ep (cles nom (slots tr) places)); [done|done|by rewrite H1|done|].
    intros e (c & ep' & He & [Hs Hne] & Hnom & Hexp & Hle)%H3. exists ep'. split; [done|].
    destruct Hs as (_ & _ & _ & _ & Hv). rewrite <- (Hv Hne). rewrite <- Hls. split; [|lia]. unfold expiree, MaxInactivitySec in *. lia.
Qed.

Lemma wp_reserver tr A p t : represente (slots tr) A -> is_u64 (evictions tr) -> is_u32 t -> 0 < zlen p <= 253 ->
  wp (reserver tr p (FNV1a64String p) t) (fun '(tr', k) => reservation tr A p t tr' k).
Proof.
  intros Hr Hev Ht Hp. pose proof Hr as (Hz & _ & _ & Hu). unfold reserver. apply wp_bind. eapply wp_mono; [by apply (wp_sonder_suivi tr A)|].
  assert (evictions tr = u64 (evictions tr + 0)) as H0 by (rewrite Z.add_0_r, u64_id by done; done).
  intros [[r v]|k].
  - intros Hok. pose proof Hok as (Hne & Hrec & (iv & Hiv & Ev) & _). cbn [fst snd] in *.
    assert (A !! p = None) as Habs.
    { apply (table_absent _ _ _ _ _ (slots tr) A p Hr). intros k c (j & Hj & ->). by apply Hne. }
    destruct (case_fraiche_ok p Hp) as (Ho & Hn & Hs).
    assert (forall k ck n ev, lire (slots tr) k = Some ck -> fenetre p k -> reserve A p t (vider ck A) n -> ev = u64 (evictions tr + n) ->
      wp (upd (slots tr) k (case_fraiche p) ≫= fun ss => Done (Tracker ss ev, k)) (fun '(tr', k) => reservation tr A p t tr' k)) as Hfin.
    { intros k ck n ev Hck Hf Hres ->. pose proof (fenetre_range p k Hf). rewrite upd_ok, run_bind_done by lia. apply wp_done.
      exists ck, (case_fraiche p), (vider ck A), n. cbn [slots evictions]. rewrite Habs. cbn [default]. split_and!; try done.
      - intros i d (j & Hj & ->) Hl Hod Hnd. by destruct (Hne j d).
      - by rewrite zlen_insert.
      - intros d. apply list_insert_insert_eq.
      - rewrite lire_ecrite by lia. by rewrite decide_True. }
    destruct r as [r|].
    + destruct Hrec as [(i & Hi & ->) (c & Hc & He)]. apply (Hfin _ c 0); [done|by exists i| |done].
      apply (reserve_victime tr A p t (sonde p i)); [done|done|done|by exists i|done|done].
    + subst v. destruct (represente_case _ _ _ 8192 _ (slots tr) A (sonde p iv) Hr (sonde_bornee p iv)) as (cv & Hcv & _).
      apply (Hfin _ cv 1); [done|exists iv; split; [lia|done]| |done]. by apply (reserve_lru tr A p t (sonde p iv)).
  - intros (Hf & c & Hc & Ho & Hn). apply wp_done. pose proof (fenetre_range p k Hf).
    destruct (case_lue _ _ _ _ Hr (proj1 (fenetre_range _ _ Hf)) Hc Ho) as (_ & ep & Hep & [Hs Hne] & _). rewrite Hn in Hep.
    exists c, c, A, 0. rewrite Hep. cbn [default]. split_and!; try done.
    + intros i d Hf' Hl Hod Hnd. pose proof (fenetre_range p i Hf'). apply (Hu i k d c); (done || lia || congruence).
    + by eapply reserve_present.
    + intros ep'. unfold TableSondee.vider. rewrite Ho, Hn. apply insert_delete_eq.
Qed.

(** * One call of [RecordQuery] is one step of the abstract machine *)

Definition etat_ok (tr : TemporalTracker) (A : gmap (list Z) (list passage)) : Prop :=
  represente (slots tr) A /\ is_u64 (evictions tr).
Definition suite_de (A : gmap (list Z) (list passage)) (p s : list Z) (t : Z) : list passage := poursuivre (A !! p) s t.

(** Jitter, distinct sub-domains and number of passages, the last capped at 16. *)
Definition mesure (hors : f64 -> Z) (ep : list passage) : Z * Z * Z := (jitter_de hors ep, uniques ep, Z.min 16 (zlen ep)).

Lemma suite_alt A p s t : suite_de A p s t = Passage s t :: sans_perte t (default [] (A !! p)).
Proof.
  unfold suite_de, sans_perte, poursuivre. destruct (A !! p) as [ep|]; cbn [default from_option id]; [by destruct (perdu t ep)|].
  by destruct (perdu t []).
Qed.

Lemma sans_perte_dates t ep : Forall (fun v => date_ok (p_date v)) ep -> Forall (fun v => date_ok (p_date v)) (sans_perte t ep).
Proof. unfold sans_perte. by destruct (perdu t ep). Qed.

Lemma wp_RecordQuery hors tr A p s t : etat_ok tr A -> is_u32 t -> 0 < zlen p <= 253 ->
  exists tr' A0 n, RecordQuery hors tr p s t = Done (tr', mesure hors (suite_de A p s t)) /\
    reserve A p t A0 n /\ etat_ok tr' (<[p := suite_de A p s t]> A0) /\ evictions tr' = u64 (evictions tr + n).
Proof.
  intros [Hr Hev] Ht Hp. unfold RecordQuery. destruct (Z.eqb_spec (zlen p) 0) as [|_], (Z.ltb_spec 253 (zlen p)) as [|_]; try lia. cbn [orb].
  pose proof (wp_reserver tr A p t Hr Hev Ht Hp) as ([tr1 k] & Hres & Hrv)%wp_exists. rewrite Hres, run_bind_done. clear Hres.
  destruct Hrv as (ck & c & A0 & n & Hck & Hf & Hseul & Hz1 & Hins & Hreserve & Hev1 & HA0 & Hc & Hs & Hnom & Ho).
  pose proof (fenetre_range p k Hf) as Hk. rewrite (idx_lookup _ _ c), run_bind_done by (lia || exact Hc).
  destruct (dater_ok c _ t Hs Ht) as (c1 & Hd1 & E1 & E2 & E3 & Hls & Hf1 & Ha1). rewrite Hd1, run_bind_done.
  destruct (marquer_ok c1 s t _ Hf1) as (B & u & Hm & Hf2). rewrite Hm, run_bind_done.
  set (c2 := avec_filtre c1 B u) in *. set (ep := default [] (A !! p)) in *.
  assert (suite_de A p s t = Passage s t :: sans_perte t ep) as Esuite by apply suite_alt.
  assert (Forall (fun v => date_ok (p_date v)) (Passage s t :: sans_perte t ep)) as Hdates.
  { constructor; [done|]. apply sans_perte_dates, Hs. }
  assert (anneau c2 (Passage s t :: sans_perte t ep)) as Ha2 by exact (Ha1 s).
  assert (nom c2 = p) as Hnom2 by (rewrite <- Hnom; unfold nom, c2; cbn [TDomain TDomainLen avec_filtre]; by rewrite E1, E2).
  assert (suivi c2 (Passage s t :: sans_perte t ep)) as Hs2.
  { destruct Hs as ((N1 & N2 & N3) & _). split_and!; [split_and!|done|done|done|done].
    - unfold c2. cbn [TDomain avec_filtre]. by rewrite E1.
    - unfold c2. cbn [TDomainLen avec_filtre]. lia.
    - unfold c2. cbn [TDomainLen avec_filtre]. lia.
    - rewrite Hnom2. unfold c2. cbn [TDomainHash avec_filtre]. by rewrite E3, N3, Hnom. }
  rewrite upd_ok, run_bind_done by lia. rewrite (jitter_ok hors c2 _ Ha2 Hdates), run_bind_done.
  eexists _, A0, n. split; [|split; [exact Hreserve|split]].
  - do 2 f_equal. rewrite Esuite. unfold mesure. destruct Hf2 as [_ Hu]. rewrite Hu. destruct Ha2 as (_ & _ & Hq & _). by rewrite Hq.
  - split; [|cbn [evictions]; rewrite Hev1; apply u64_range]. cbn [slots]. rewrite Hins, <- HA0, Esuite.
    apply (table_pose occupee nom fenetre 8192 fenetre_range case_ok (slots tr) A p k ck c2); [done..|by split| |done].
    unfold occupee, c2. cbn [TDomainLen avec_filtre]. rewrite E2. exact Ho.
  - done.
Qed.

(** * Histories of calls *)

Record requete_suivie := Requete { r_parent : list Z; r_sous : list Z; r_date : Z }.
Definition suivie (q : requete_suivie) : bool := negb ((zlen (r_parent q) =? 0) || (253 <? zlen (r_parent q))).

Fixpoint enregistrer_tout (hors : f64 -> Z) (tr : TemporalTracker) (H : list requete_suivie)
  : run (TemporalTracker * list (Z * Z * Z)) :=
  match H with
  | [] => Done (tr, [])
  | q :: H =>
      '(tr, m) ← RecordQuery hors tr (r_parent q) (r_sous q) (r_date q);
      '(tr, ms) ← enregistrer_tout hors tr H;
      Done (tr, m :: ms)
  end.

(** Executions of the abstract machine, with their number of evictions. *)
Inductive execution (hors : f64 -> Z) (A : gmap (list Z) (list passage))
  : list requete_suivie -> gmap (list Z) (list passage) -> list (Z * Z * Z) -> Z -> Prop :=
  | exec_fin : execution hors A [] A [] 0
  | exec_ignoree q H A' ms n : suivie q = false -> execution hors A H A' ms n -> execution hors A (q :: H) A' ((100, 0, 0) :: ms) n
  | exec_pas q H A0 A' ms n m : suivie q = true -> reserve A (r_parent q) (r_date q) A0 n ->
      execution hors (<[r_parent q := suite_de A (r_parent q) (r_sous q) (r_date q)]> A0) H A' ms m ->
      execution hors A (q :: H) A' (mesure hors (suite_de A (r_parent q) (r_sous q) (r_date q)) :: ms) (n + m).

Definition dates_ok (H : list requete_suivie) : Prop := Forall (fun q => is_u32 (r_date q)) H.

Lemma execution_ok hors H : forall tr A, etat_ok tr A -> dates_ok H ->
  exists tr' A' ms n, enregistrer_tout hors tr H = Done (tr', ms) /\ execution hors A H A' ms n /\ etat_ok tr' A' /\
    evictions tr' = u64 (evictions tr + n).
Proof.
  induction H as [|q H IH]; intros tr A He Hd.
  { exists tr, A, [], 0. split; [done|]. split; [constructor|]. split; [done|]. destruct He as [_ He]. by rewrite Z.add_0_r, u64_id. }
  apply Forall_cons_iff in Hd as [Hq Hd]. cbn [enregistrer_tout]. destruct (suivie q) eqn:Es.
  - assert (0 < zlen (r_parent q) <= 253) as Hp.
    { unfold suivie in Es. zbool. pose proof (zlen_nonneg (r_parent q)). lia. }
    destruct (wp_RecordQuery hors tr A (r_parent q) (r_sous q) (r_date q) He Hq Hp) as (tr1 & A0 & n & Hr & Hres & He1 & Hev).
    destruct (IH _ _ He1 Hd) as (tr2 & A2 & ms & m & Hrun & Hx & He2 & Hev2). rewrite Hr, run_bind_done, Hrun, run_bind_done.
    exists tr2, A2, (mesure hors (suite_de A (r_parent q) (r_sous q) (r_date q)) :: ms), (n + m).
    split; [done|]. split; [by apply (exec_pas hors A q H A0)|]. split; [done|]. rewrite Hev2, Hev. unfold u64. rewrite Zplus_mod_idemp_l. f_equal. lia.
  - destruct (IH tr A He Hd) as (tr2 & A2 & ms & m & Hrun & Hx & He2 & Hev2).
    assert (RecordQuery hors tr (r_parent q) (r_sous q) (r_date q) = Done (tr, (100, 0, 0))) as ->.
    { unfold RecordQuery. unfold suivie in Es. by apply negb_false_iff in Es as ->. }
    rewrite run_bind_done, Hrun, run_bind_done. exists tr2, A2, ((100, 0, 0) :: ms), m. split; [done|]. split; [by apply exec_ignoree|done].
Qed.

Lemma etat_initial : etat_ok NewTemporalTracker ∅.
Proof.
  split; [|unfold is_u64; cbn; lia]. cbn [slots NewTemporalTracker]. by apply table_represente_vide.
Qed.

(** ** What an episode is made of *)

(** The passages of a domain in a history, newest first. *)
Definition passages_de (p : list Z) (H : list requete_suivie) : list passage :=
  reverse (omap (fun q => if decide (r_parent q = p) then Some (Passage (r_sous q) (r_date q)) else None) H).

Definition fonde (A : gmap (list Z) (list passage)) (H : list requete_suivie) : Prop :=
  forall p ep, A !! p = Some ep -> 0 < zlen p <= 253 /\ ep `prefix_of` passages_de p H /\ ep <> [].

Lemma passages_snoc p H q : passages_de p (H ++ [q]) =
  (if decide (r_parent q = p) then Passage (r_sous q) (r_date q) :: passages_de p H else passages_de p H).
Proof.
  unfold passages_de. rewrite omap_app. cbn [omap list_omap]. case_decide; [by rewrite reverse_snoc|by rewrite app_nil_r].
Qed.

Lemma suite_fondee A H p s t : fonde A H -> suite_de A p s t `prefix_of` Passage s t :: passages_de p H.
Proof.
  intros Hf. rewrite suite_alt. apply prefix_cons. unfold sans_perte. destruct (perdu t _); [apply prefix_nil|].
  destruct (A !! p) as [ep|] eqn:E; [apply (Hf p ep E)|apply prefix_nil].
Qed.

Lemma reserve_sous A p t A0 n : reserve A p t A0 n -> forall e ep, A0 !! e = Some ep -> A !! e = Some ep.
Proof. intros [] e ep' He; try done; by apply lookup_delete_Some in He as [_ He]. Qed.

Lemma fonde_pas A H q A0 n : fonde A H -> suivie q = true -> reserve A (r_parent q) (r_date q) A0 n ->
  fonde (<[r_parent q := suite_de A (r_parent q) (r_sous q) (r_date q)]> A0) (H ++ [q]).
Proof.
  intros Hf Hq Hres p ep He. rewrite passages_snoc. apply lookup_insert_Some in He as [[<- <-]|[Hne He]].
  - rewrite decide_True by done. split; [|split; [by apply suite_fondee|by rewrite suite_alt]].
    unfold suivie in Hq. zbool. pose proof (zlen_nonneg (r_parent q)). lia.
  - rewrite decide_False by done. apply (Hf p ep). by apply (reserve_sous _ _ _ _ _ Hres).
Qed.

Lemma fonde_ignoree A H q : fonde A H -> suivie q = false -> fonde A (H ++ [q]).
Proof.
  intros Hf Hq p ep He. rewrite passages_snoc. destruct (Hf p ep He) as (Hp & Hpre & Hne).
  rewrite decide_False; [done|]. intros <-. unfold suivie in Hq. apply negb_false_iff, orb_true_iff in Hq as [Hq|Hq]; zbool; lia.
Qed.

(** The last measure of a history is that of an episode made of its queries. *)
Lemma execution_fondee hors A H A' ms n : execution hors A H A' ms n -> forall R, fonde A R -> fonde A' (R ++ H) /\
  forall i q m, H !! i = Some q -> ms !! i = Some m -> suivie q = true -> exists ep,
    m = mesure hors (Passage (r_sous q) (r_date q) :: ep) /\
    (Passage (r_sous q) (r_date q) :: ep) `prefix_of` passages_de (r_parent q) (R ++ take (S i) H) /\
    (ep <> [] -> perdu (r_date q) ep = false).
Proof.
  induction 1 as [A|A q H A' ms n Hq Hx IH|A q H A0 A' ms n m Hq Hres Hx IH]; intros R Hf.
  - rewrite app_nil_r. split; [done|]. by intros.
  - destruct (IH _ (fonde_ignoree A R q Hf Hq)) as [IH1 IH2]. rewrite <- app_assoc in IH1. split; [done|].
    intros [|i] q' m Hi Hm Hs; [cbn in Hi; congruence|]. destruct (IH2 i q' m Hi Hm Hs) as (ep & H1 & H2 & H3).
    exists ep. by rewrite <- app_assoc in H2.
  - destruct (IH _ (fonde_pas A R q A0 n Hf Hq Hres)) as [IH1 IH2]. rewrite <- app_assoc in IH1. split; [done|].
    intros [|i] q' m' Hi Hm Hs.
    + cbn in Hi, Hm. injection Hi as <-. injection Hm as <-. rewrite suite_alt. eexists. split; [done|].
      cbn [take]. rewrite take_0, passages_snoc, decide_True by done. split.
      * rewrite <- suite_alt. by apply suite_fondee.
      * unfold sans_perte. by destruct (perdu (r_date q) _) eqn:E.
    + destruct (IH2 i q' m' Hi Hm Hs) as (ep & H1 & H2 & H3). exists ep. by rewrite <- app_assoc in H2.
Qed.

(** * Regular beacons *)

(** Equality of representations. *)
Definition f_egal (x y : f64) : bool :=
  match x, y with
  | S754_zero a, S754_zero b => Bool.eqb a b
  | S754_finite s m e, S754_finite s' m' e' => Bool.eqb s s' && (Pos.eqb m m' && (e =? e'))
  | _, _ => false
  end.
Lemma f_egal_ok x y : f_egal x y = true -> x = y.
Proof.
  destruct x as [s| | |s m e], y as [s'| | |s' m' e']; cbn; try done.
  - by intros ->%eqb_prop.
  - intros (->%eqb_prop & (->%Pos.eqb_eq & ->%Z.eqb_eq)%andb_true_iff)%andb_true_iff. done.
Qed.

(** Equal intervals of [d] seconds: the mean is [d], every deviation 0; checked on
    every period below the hour and every fill of the ring. *)
Fixpoint moyennes (fd acc : f64) (m n : nat) : bool :=
  match n with
  | O => true
  | S n => let acc := fadd acc fd in
      (if (2 <=? m)%nat then f_egal (fdiv acc (f_of_Z (Z.of_nat (S m)))) fd else true) && moyennes fd acc (S m) n
  end.
Definition zero : f64 := S754_zero false.
Definition periode_reguliere (d : Z) : bool :=
  let fd := f_of_Z d in
  f_egal (fsub fd fd) zero && negb (fltb fd (f_decimal 5 1)) && f_egal (fmul (fdiv (fsqrt zero) fd) (f_of_Z 100)) zero
  && moyennes fd (f_of_Z 0) 0 15.
Lemma periodes_regulieres : forallb periode_reguliere (seqZ 1 3599) = true.
Proof. by vm_compute. Qed.
Lemma reguliere d : 1 <= d < 3600 -> periode_reguliere d = true.
Proof.
  intros Hd. apply (proj1 (forallb_forall periode_reguliere (seqZ 1 3599)) periodes_regulieres d).
  apply list_elem_of_In, elem_of_seqZ. lia.
Qed.
Lemma zero_divise m : (1 <= m <= 15)%nat -> fdiv zero (f_of_Z (Z.of_nat m)) = zero.
Proof. intros Hm. do 16 (destruct m as [|m]; [lia || by vm_compute|]). lia. Qed.

Lemma moyennes_ok fd n : forall acc m, moyennes fd acc m n = true -> forall k, (k < n)%nat -> (2 <= m + k)%nat ->
  fdiv (fold_left (fun s _ => fadd s fd) (replicate (S k) 0) acc) (f_of_Z (Z.of_nat (S (m + k)))) = fd.
Proof.
  induction n as [|n IH]; intros acc m H k Hk H2; [lia|]. cbn [moyennes] in H. apply andb_true_iff in H as [H H'].
  destruct k as [|k].
  - rewrite Nat.add_0_r in *. destruct (Nat.leb_spec 2 m); [|lia]. by apply f_egal_ok.
  - specialize (IH _ _ H' k ltac:(lia) ltac:(lia)). replace (m + S k)%nat with (S m + k)%nat by lia. exact IH.
Qed.

Lemma fold_replicate {X Y Z'} (f : X -> Y -> X) (g : X -> X) (x : Z') y n : forall s, (forall s, f s y = g s) ->
  fold_left f (replicate n y) s = fold_left (fun s _ => g s) (replicate n x) s.
Proof. induction n as [|n IH]; intros s H; [done|]. cbn. by rewrite H, IH. Qed.

Lemma variation_reguliere d m : 1 <= d < 3600 -> (3 <= m <= 15)%nat -> variation (replicate m d) = Some zero.
Proof.
  intros Hd Hm. pose proof (reguliere d Hd) as H.
  unfold periode_reguliere in H. cbv zeta in H. apply andb_true_iff in H as [H Hmoy]. apply andb_true_iff in H as [H Hfin]. apply andb_true_iff in H as [Hsub Hlt].
  apply f_egal_ok in Hsub, Hfin. apply negb_true_iff in Hlt.
  unfold variation. assert (zlen (replicate m d) = Z.of_nat m) as -> by (unfold zlen; by rewrite length_replicate).
  pose proof (moyennes_ok _ _ _ _ Hmoy (m - 1) ltac:(lia) ltac:(lia)) as Hmean. replace (S (m - 1)) with m in Hmean by lia.
  replace (S (0 + (m - 1))) with m in Hmean by lia.
  rewrite (fold_replicate (fun s d0 => fadd s (f_of_Z d0)) (fun s => fadd s (f_of_Z d)) 0 d) by done. rewrite Hmean, Hlt. cbv zeta.
  assert (fold_left (fun s d0 => fadd s (fmul (fsub (f_of_Z d0) (f_of_Z d)) (fsub (f_of_Z d0) (f_of_Z d)))) (replicate m d) (f_of_Z 0) = zero) as ->.
  { change (f_of_Z 0) with zero. clear - Hsub. induction m as [|m IH]; [done|]. cbn [replicate fold_left]. cbv zeta. rewrite Hsub.
    change (fadd zero (fmul zero zero)) with zero. exact IH. }
  rewrite zero_divise by lia. by rewrite Hfin.
Qed.

(** Instants going back by [d], newest first. *)
Fixpoint recul (t d : Z) (n : nat) : list Z := match n with O => [] | S n => t - d :: recul (t - d) d n end.
Lemma recul_lookup d n : forall j t, (j < n)%nat -> recul t d n !! j = Some (t - Z.of_nat (S j) * d).
Proof.
  induction n as [|n IH]; intros j t Hj; [lia|]. destruct j as [|j]; [cbn; f_equal; lia|].
  change (recul t d (S n) !! S j) with (recul (t - d) d n !! j). rewrite IH by lia. f_equal. lia.
Qed.
Lemma length_recul t d n : length (recul t d n) = n.
Proof. revert t. induction n as [|n IH]; intros t; [done|]. cbn. by rewrite IH. Qed.
Lemma take_recul k n : forall t d, take k (recul t d n) = recul t d (k `min` n).
Proof. revert k. induction n as [|n IH]; intros [|k] t d; [done..|]. cbn. by rewrite IH. Qed.

Lemma intervalles_recul t d n : 0 <= d -> intervalles (reverse (recul t d n)) = replicate (n - 1) d.
Proof.
  intros Hd. apply list_eq. intros i. destruct (decide (i < n - 1)%nat) as [Hi|Hi].
  - rewrite lookup_replicate_2 by done.
    erewrite intervalles_lookup; [|rewrite reverse_lookup; rewrite length_recul; [apply recul_lookup; lia|lia]..].
    replace (n - S i)%nat with (S (n - S (S i))) by lia. f_equal. destruct (_ <=? _) eqn:E; zbool; rewrite ?Nat2Z.inj_succ in *; nia.
  - rewrite !lookup_ge_None_2; [done|rewrite length_replicate; lia|]. rewrite length_intervalles, length_reverse, length_recul. lia.
Qed.

Lemma jitter_regulier hors ep t d n : p_date <$> ep = recul t d n -> (4 <= n)%nat -> 1 <= d < 3600 -> jitter_de hors ep = 0.
Proof.
  intros He Hn Hd. assert (length ep = n) as Hl by (rewrite <- (length_recul t d n), <- He; by rewrite length_fmap).
  unfold jitter_de. destruct (Z.ltb_spec (zlen ep) 4); [unfold zlen in *; lia|].
  unfold instants. rewrite fmap_take, He, take_recul, intervalles_recul by lia.
  rewrite variation_reguliere by lia. done.
Qed.

(** [subs] queried under [p] every [d] seconds from [t]. *)
Fixpoint battements (p : list Z) (t d : Z) (subs : list (list Z)) : list requete_suivie :=
  match subs with [] => [] | s :: subs => Requete p s t :: battements p (t + d) d subs end.

Definition de_domaine (p : list Z) (B : list requete_suivie) : list requete_suivie := filter (fun q => r_parent q = p) B.
Lemma de_domaine_cons p q B : de_domaine p (q :: B) = if decide (r_parent q = p) then q :: de_domaine p B else de_domaine p B.
Proof. unfold de_domaine. by rewrite filter_cons. Qed.
Definition dates_croissantes (B : list requete_suivie) : Prop := StronglySorted (fun a b => r_date a <= r_date b) B.

Lemma execution_compte hors A B A' ms k : execution hors A B A' ms k -> 0 <= k <= zlen B.
Proof.
  induction 1 as [A|A q B A' ms k _ _ IH|A q B A0 A' ms n k _ Hr _ IH]; [done|rewrite zlen_cons; lia|]. rewrite zlen_cons. destruct Hr; lia.
Qed.

Lemma execution_pas hors A q B A' ms k : execution hors A (q :: B) A' ms k -> suivie q = true -> exists A0 k1 k2 ms',
  reserve A (r_parent q) (r_date q) A0 k1 /\ execution hors (<[r_parent q := suite_de A (r_parent q) (r_sous q) (r_date q)]> A0) B A' ms' k2 /\
  ms = mesure hors (suite_de A (r_parent q) (r_sous q) (r_date q)) :: ms' /\ k = k1 + k2.
Proof. inversion 1 as [|x B' A2 ms' k' Hq|x B' A0 A2 ms' k1 k2 Hq Hres Hx]; subst; intros Hs; [congruence|]. by exists A0, k1, k2, ms'. Qed.

(** A reservation without eviction, for another domain, keeps the one that was seen
    less than an hour ago. *)
Lemma reserve_garde A r t A0 n p ep : reserve A r t A0 n -> n = 0 -> r <> p -> A !! p = Some ep -> t - vu ep < MaxInactivitySec -> A0 !! p = Some ep.
Proof.
  intros [ | |x ep' _ Hx Hs|] Hn Hr Hp Ht; try done. rewrite lookup_delete_ne; [done|]. intros ->. rewrite Hx in Hp. injection Hp as ->. lia.
Qed.

(** The beats of [p] among any traffic: [n] have been recorded, the next is due at [t]. *)
Lemma battements_suivis hors p d A B A' ms k : execution hors A B A' ms k -> 1 <= d < 3600 -> 0 < zlen p <= 253 -> k = 0 -> dates_croissantes B ->
  forall ep t n subs, A !! p = Some ep -> p_date <$> ep = recul t d n -> (1 <= n)%nat -> de_domaine p B = battements p t d subs ->
  forall i q, B !! i = Some q -> r_parent q = p -> (4 <= n + length (de_domaine p (take (S i) B)))%nat ->
    exists u, ms !! i = Some (0, u, Z.min 16 (Z.of_nat n + zlen (de_domaine p (take (S i) B)))).
Proof.
  intros Hx Hd Hp. induction Hx as [A|A q0 B A' ms k Hq Hx IH|A q0 B A0 A' ms k1 k2 Hq Hres Hx IH]; intros Hk Hs ep t n subs HA Hdates Hn Hsub i q Hi Hqp H4; [done| |].
  - apply StronglySorted_inv in Hs as [Hs _]. assert (r_parent q0 <> p) as Hne.
    { intros E. unfold suivie in Hq. rewrite E in Hq. apply negb_false_iff, orb_true_iff in Hq as [Hq|Hq]; zbool; lia. }
    destruct i as [|i]; [cbn in Hi; congruence|]. cbn [take] in *. rewrite de_domaine_cons, decide_False in Hsub by done.
    rewrite de_domaine_cons, decide_False in H4 |- * by done. by apply (IH Hk Hs ep t n subs HA Hdates Hn Hsub i q).
  - pose proof (execution_compte _ _ _ _ _ _ Hx) as Hk2. assert (0 <= k1) as Hk1 by (destruct Hres; lia). assert (k1 = 0) as -> by lia.
    apply StronglySorted_inv in Hs as [Hs Hall]. rewrite Forall_forall in Hall.
    assert (vu ep = t - d) as Hvu by (destruct n as [|n]; [lia|]; destruct ep as [|v ep]; [done|]; by injection Hdates).
    rewrite de_domaine_cons in Hsub. destruct (decide (r_parent q0 = p)) as [E|E].
    + destruct subs as [|s subs]; [done|]. cbn [battements] in Hsub. injection Hsub as -> Hsub. cbn [r_parent r_sous r_date] in *.
      assert (p_date <$> suite_de A p s t = recul (t + d) d (S n)) as Hsu.
      { rewrite suite_alt, HA. cbn [default from_option id]. unfold sans_perte, perdu, MaxInactivitySec. rewrite Hvu.
        destruct (Z.ltb_spec t (t - d)), (Z.leb_spec 3600 (t - (t - d))); try lia. cbn [orb]. rewrite fmap_cons, Hdates. cbn [p_date recul]. by replace (t + d - d) with t by lia. }
      cbn [take] in *. rewrite de_domaine_cons, decide_True in H4 |- * by done. destruct i as [|i].
      * rewrite take_0 in H4 |- *. change (length (_ :: de_domaine p [])) with 1%nat in H4. exists (uniques (suite_de A p s t)). unfold mesure.
        assert (zlen (suite_de A p s t) = Z.of_nat (S n)) as -> by (unfold zlen; rewrite <- (length_fmap p_date), Hsu, length_recul; done).
        rewrite (jitter_regulier hors _ (t + d) d (S n)) by (done || lia). cbn [lookup list_lookup]. do 3 f_equal. change (zlen (_ :: de_domaine p [])) with 1. lia.
      * cbn [length] in H4. destruct (IH ltac:(lia) Hs (suite_de A p s t) (t + d) (S n) subs (lookup_insert_eq _ _ _) Hsu ltac:(lia) Hsub i q Hi Hqp ltac:(lia)) as (u & Hu).
        exists u. change (ms !! i = Some (0, u, Z.min 16 (Z.of_nat n + zlen (Requete p s t :: de_domaine p (take (S i) B))))). rewrite Hu, zlen_cons. do 3 f_equal. lia.
    + destruct i as [|i]; [cbn in Hi; congruence|]. cbn [take] in *. rewrite de_domaine_cons, decide_False in H4 |- * by done.
      assert (q ∈ de_domaine p B) as Hin by (apply list_elem_of_filter; split; [done|by apply list_elem_of_lookup; exists i]).
      destruct subs as [|s subs]; [rewrite Hsub in Hin; by apply elem_of_nil in Hin|].
      assert (Requete p s t ∈ de_domaine p B) as Ht by (rewrite Hsub; by left). apply list_elem_of_filter in Ht as [_ Ht]. specialize (Hall _ Ht). cbn [r_date] in Hall.
      refine (IH ltac:(lia) Hs ep t n (s :: subs) _ Hdates Hn Hsub i q Hi Hqp H4). rewrite lookup_insert_ne by done.
      apply (reserve_garde A (r_parent q0) (r_date q0) A0 0); [done..|]. rewrite Hvu. unfold MaxInactivitySec. lia.
Qed.

(** * Theorems *)

(** C35: whatever the queries, every call of the tracker terminates without a fault and
    is one step of a finite map from domains to their passages since the last hour
    of silence: what it returns is read off those passages, a domain is dropped only
    when it is silent or is the oldest of the eight active ones of the window, and
    the evictions are counted. *)
Theorem suivi_raffine (hors : f64 -> Z) (H : list requete_suivie) : dates_ok H ->
  exists tr A ms n, enregistrer_tout hors NewTemporalTracker H = Done (tr, ms) /\
    execution hors ∅ H A ms n /\ etat_ok tr A /\ Evictions tr = u64 n.
Proof.
  intros Hd. destruct (execution_ok hors H NewTemporalTracker ∅ etat_initial Hd) as (tr & A & ms & n & Hr & Hx & He & Hev).
  exists tr, A, ms, n. split_and!; [done|done|exact He|]. unfold Evictions. by rewrite Hev.
Qed.

(** What a query is told is founded: with [n] the count returned, at least [n]
    queries of that very domain were recorded without an hour of silence between
    them, the jitter is that of their instants, and as many distinct non-empty
    sub-domains of the domain were really queried as are announced. *)
Theorem suivi_fonde (hors : f64 -> Z) (H : list requete_suivie) (i : nat) (q : requete_suivie) :
  dates_ok H -> H !! i = Some q -> suivie q = true ->
  exists tr ms ep u, enregistrer_tout hors NewTemporalTracker H = Done (tr, ms) /\
    ms !! i = Some (jitter_de hors ep, u, Z.min 16 (zlen ep)) /\
    ep `prefix_of` passages_de (r_parent q) (take (S i) H) /\ ep !! 0%nat = Some (Passage (r_sous q) (r_date q)) /\
    (exists D, NoDup D /\ zlen D = u /\ forall s, s ∈ D -> s <> [] /\ exists v, v ∈ ep /\ p_sous v = s).
Proof.
  intros Hd Hi Hq. destruct (execution_ok hors H NewTemporalTracker ∅ etat_initial Hd) as (tr & A & ms & n & Hr & Hx & He & _).
  assert (fonde ∅ []) as Hf by (intros p ep Hp; by rewrite lookup_empty in Hp).
  destruct (execution_fondee _ _ _ _ _ _ Hx [] Hf) as [_ Hm].
  assert (length ms = length H) as Hl by (clear - Hx; induction Hx; cbn [length]; congruence).
  destruct (lookup_lt_is_Some_2 ms i) as [m Em]; [rewrite Hl; by apply lookup_lt_Some in Hi|].
  destruct (Hm i q m Hi Em Hq) as (ep & -> & Hpre & _). exists tr, ms, (Passage (r_sous q) (r_date q) :: ep), (uniques (Passage (r_sous q) (r_date q) :: ep)).
  split_and!; [done|done|exact Hpre|done|].
  destruct (uniques_distincts (Passage (r_sous q) (r_date q) :: ep)) as (D & HD & Hsub & Hu). exists D. split_and!; [done|done|].
  intros s Hs%Hsub. unfold sous_vus in Hs. apply list_elem_of_In, filter_In in Hs as [Hs Hz]. apply list_elem_of_In, list_elem_of_fmap in Hs as (v & -> & Hv).
  split; [|by exists v]. intros E. by rewrite E in Hz.
Qed.

(** C34: a regular beacon does not escape, whatever the other traffic, as long as no
    place is taken by force.  After any history [H] in which its domain has been silent
    for an hour, let [B] be any traffic in the order of its dates, starting with the
    first beat, in which the queries of the domain are those of a beacon of period [d]
    seconds (1 to 3599) -- the others, of any domains, come between them in any number.
    If the counter of evictions is the same after [B] as before it, every query of the
    beacon from the fourth on is answered with a jitter of zero and the exact number of
    its queries so far, up to sixteen.  Under evictions nothing is promised: the table
    may forget the beacon. *)
Theorem balise_reperee (hors : f64 -> Z) (H B : list requete_suivie) (p : list Z) (t d : Z) (s : list Z) (subs : list (list Z)) :
  dates_ok H -> dates_ok (Requete p s t :: B) -> dates_croissantes (Requete p s t :: B) -> zlen B + 1 < 2 ^ 64 ->
  0 < zlen p <= 253 -> 1 <= d < 3600 -> (forall q, q ∈ H -> r_parent q = p -> r_date q + 3600 <= t) ->
  de_domaine p B = battements p (t + d) d subs ->
  exists tr1 ms1 tr2 ms2, enregistrer_tout hors NewTemporalTracker H = Done (tr1, ms1) /\ enregistrer_tout hors tr1 (Requete p s t :: B) = Done (tr2, ms2) /\
    (Evictions tr2 = Evictions tr1 -> forall i q, (Requete p s t :: B) !! i = Some q -> r_parent q = p ->
       let n := zlen (de_domaine p (take (S i) (Requete p s t :: B))) in 4 <= n -> exists u, ms2 !! i = Some (0, u, Z.min 16 n)).
Proof.
  intros HH HB Hs Hz Hp Hd Hsil Hsub. destruct (execution_ok hors H NewTemporalTracker ∅ etat_initial HH) as (tr1 & A & ms1 & n1 & Hr & Hx & He & _).
  destruct (execution_ok hors _ tr1 A He HB) as (tr2 & A2 & ms2 & k & Hr2 & Hx2 & _ & Hev). exists tr1, ms1, tr2, ms2. split; [done|]. split; [done|].
  intros Hsame i q Hi Hq n H4. assert (k = 0) as Hk.
  { pose proof (execution_compte _ _ _ _ _ _ Hx2) as Hk. rewrite zlen_cons in Hk. unfold Evictions in Hsame. rewrite Hsame in Hev. destruct He as [_ He]. unfold is_u64 in He.
    unfold u64 in Hev. pose proof (Z.mod_small (evictions tr1) (2 ^ 64) ltac:(lia)). pose proof (Z.div_mod (evictions tr1 + k) (2 ^ 64) ltac:(lia)). nia. }
  assert (fonde ∅ []) as Hf by (intros x ep Hx'; by rewrite lookup_empty in Hx').
  destruct (execution_fondee _ _ _ _ _ _ Hx [] Hf) as [Hfo _].
  assert (sans_perte t (default [] (A !! p)) = []) as Hbase.
  { destruct (A !! p) as [ep|] eqn:Ep; cbn [default from_option id]; unfold sans_perte; [|by destruct (perdu t [])].
    destruct (Hfo p ep Ep) as (_ & [suite Hpre] & Hne). destruct ep as [|v ep]; [done|].
    assert (v ∈ passages_de p ([] ++ H)) as Hv by (rewrite Hpre; apply elem_of_app; left; apply elem_of_cons; by left).
    unfold passages_de in Hv. apply elem_of_reverse, list_elem_of_omap in Hv as (x & Hin & E). case_decide as Ec; [|done]. injection E as <-.
    specialize (Hsil x Hin Ec). unfold perdu, MaxInactivitySec. cbn [vu p_date]. destruct (Z.leb_spec 3600 (t - r_date x)); [by rewrite orb_true_r|lia]. }
  assert (suivie (Requete p s t) = true) as Hq0 by (unfold suivie; cbn [r_parent]; destruct (Z.eqb_spec (zlen p) 0), (Z.ltb_spec 253 (zlen p)); cbn; lia).
  destruct (execution_pas _ _ _ _ _ _ _ Hx2 Hq0) as (A0 & k1 & k2 & ms & Hres & Hx3 & -> & Ek).
  cbn [r_parent r_sous r_date] in *. subst n. cbn [take] in *. rewrite de_domaine_cons, decide_True, zlen_cons in H4 |- * by done.
  destruct i as [|i]; [rewrite take_0 in H4; change (zlen (de_domaine p [])) with 0 in H4; lia|].
  apply StronglySorted_inv in Hs as [Hs _]. pose proof (execution_compte _ _ _ _ _ _ Hx3). assert (0 <= k1) by (destruct Hres; lia).
  assert (p_date <$> suite_de A p s t = recul (t + d) d 1) as Hsu by (rewrite suite_alt, Hbase; cbn; f_equal; lia).
  destruct (battements_suivis hors p d _ B A2 ms k2 Hx3 Hd Hp ltac:(lia) Hs _ (t + d) 1%nat subs (lookup_insert_eq _ _ _) Hsu ltac:(lia) Hsub i q Hi Hq) as (u & Hu).
  { unfold zlen in H4. lia. }
  exists u. etransitivity; [exact Hu|]. do 3 f_equal.
Qed.

(** ** Concrete histories *)

Definition exemple_com : list Z := octets "exemple.com".
Definition histoire : list requete_suivie :=
  [Requete exemple_com (octets "a") 1000; Requete exemple_com (octets "b") 1007; Requete exemple_com (octets "a") 1030].

Lemma dates_histoire : dates_ok histoire.
Proof. by repeat constructor. Qed.

Lemma suivi_raffine_witness : exists tr A ms n, enregistrer_tout (fun _ => 0) NewTemporalTracker histoire = Done (tr, ms) /\
  execution (fun _ => 0) ∅ histoire A ms n.
Proof.
  destruct (suivi_raffine (fun _ => 0) histoire dates_histoire) as (tr & A & ms & n & Hr & Hx & _).
  exists tr, A, ms, n. split; [exact Hr|exact Hx].
Defined.

Lemma suivi_fonde_witness : exists tr ms ep u, enregistrer_tout (fun _ => 0) NewTemporalTracker histoire = Done (tr, ms) /\
  ms !! 2%nat = Some (jitter_de (fun _ => 0) ep, u, Z.min 16 (zlen ep)) /\ ep `prefix_of` passages_de exemple_com (take 3 histoire).
Proof.
  destruct (suivi_fonde (fun _ => 0) histoire 2 (Requete exemple_com (octets "a") 1030) dates_histoire eq_refl eq_refl)
    as (tr & ms & ep & u & Hr & Hm & Hp & _).
  exists tr, ms, ep, u. split; [exact Hr|]. split; [exact Hm|exact Hp].
Defined.

(** A beat every minute, with the queries of another domain in between. *)
Definition trafic : list requete_suivie :=
  [Requete exemple_com [] 9060; Requete (octets "autre.org") (octets "x") 9061; Requete (octets "autre.org") (octets "y") 9100; Requete exemple_com [] 9120;
   Requete exemple_com [] 9180; Requete (octets "tiers.net") [] 9180; Requete exemple_com [] 9240].
Lemma balise_reperee_witness : exists tr1 ms1 tr2 ms2,
  enregistrer_tout (fun _ => 0) NewTemporalTracker histoire = Done (tr1, ms1) /\
  enregistrer_tout (fun _ => 0) tr1 (Requete exemple_com [] 9000 :: trafic) = Done (tr2, ms2) /\
  (Evictions tr2 = Evictions tr1 -> exists u, ms2 !! 7%nat = Some (0, u, 5)).
Proof.
  destruct (balise_reperee (fun _ => 0) histoire trafic exemple_com 9000 60 [] (replicate 4 []) dates_histoire) as (tr1 & ms1 & tr2 & ms2 & H1 & H2 & H3).
  - unfold trafic. by repeat constructor.
  - unfold dates_croissantes, trafic. repeat constructor; discriminate.
  - reflexivity.
  - split; reflexivity || discriminate.
  - lia.
  - intros q Hq _. repeat (apply elem_of_cons in Hq as [->|Hq]; [cbn [r_date]; lia|]). by apply elem_of_nil in Hq.
  - vm_compute. reflexivity.
  - exists tr1, ms1, tr2, ms2. split; [exact H1|]. split; [exact H2|]. intros He. exact (H3 He 7%nat _ eq_refl eq_refl ltac:(vm_compute; discriminate)).
Defined.
