(* ===== verification/Pipeline.v ===== *)
(** The evaluation pipeline (src/pipeline.go) and its default policy
    (src/seeds.go): one packet goes through the strict parser, the reputation
    table, the payload profile and the temporal tracker, and is passed, dropped
    or escalated to a bounded queue; the deterministic rules that bound what an
    arbitrator may conclude.  The theorems: the decision on every packet is the
    one read off its name and its measures, the reserved labels are whole labels,
    and the rules that stand between an answer and a verdict are exact. *)
From stdpp Require Import gmap list_numbers pretty.
From Stdlib Require Import SpecFloat.
From S2P Require Import Prelude Fnv DnsName Grammaire Lexique Entropie Flottant TableSondee SuiviTemporel Reputation ReputationCompile DnsQuestion.
Local Open Scope Z_scope.

(** * Data *)

Inductive erreur_pipeline : Type :=
  | ErrPipelineClosed
  | ErrSLMQueueFull
  | ErrSLMAbandoned
  | ErrAuditQueueFull
  | ErrDNS (e : erreurDNS)
  | ErrReputation (e : erreur_reputation)
  | ErrExterne (texte : string).

Definition DecisionFastPass : Z := 1.
Definition DecisionFastDrop : Z := 2.
Definition DecisionEscalateSLM : Z := 3.

Definition TypeCNAME : Z := 5.
Definition TypeNULL : Z := 10.
Definition TypeTXT : Z := 16.
Definition MaxProtocolPrefixLen : Z := 45.
Definition MinTunnelEntropyQ8 : Z := 1024.

Record PipelineConfig := Config {
  LogPath : string; EntropyThresholdQ8 : Z; BeaconJitterMax : Z; UniqueSubThreshold : Z
}.

Record auditRecord := Audit { ATime : Z; ADomain : list Z; AAction : list Z; AReason : list Z; AConfidence : f64 }.

Record SLMIncident := Incident {
  ITimestamp : Z; IFQDN : list Z; IParentDomain : list Z; ISubdomain : list Z; IQType : Z; IEntropyQ8 : Z;
  IEntropyBits : f64; IPayloadClass : Z; IJitterPct : Z; IUniqueSubdomains : Z; IQueryCount : Z;
  SuspectedIndicator : string; HumanSummary : list Z; RecommendedAction : string
}.

Record EvaluationResult := Resultat {
  Decision : Z; RMatchedDomain : list Z; MatchedCategory : Z; REntropyQ8 : Z; RPayloadClass : Z; RJitterPct : Z;
  RUniqueSubdomains : Z; RIncident : option SLMIncident; ArbitrationQueued : bool
}.
Definition resultat_zero : EvaluationResult := Resultat 0 [] 0 0 0 0 0 None false.

(** The state.  [auditQueue] is [None] without a log file; [en_cours] is the
    incident the worker holds; [fini] is set when [Close] has returned. *)
Record Pipeline := Pipe {
  cfg : PipelineConfig;
  rep : AtomicReputation;
  tracker : TemporalTracker;
  slmQueue : list SLMIncident;
  closed : bool;
  workerStarted : bool;
  en_cours : option SLMIncident;
  fini : bool;
  closeErr : list erreur_pipeline;
  auditQueue : option (list auditRecord);
  auditClosed : bool;
  auditErr : option erreur_pipeline;
  slmRejected : Z; slmAbandoned : Z; arbitrationErrors : Z; auditRejected : Z; auditErrors : Z
}.

(** ** Field updates *)
Definition avec_rep (r : AtomicReputation) (p : Pipeline) : Pipeline :=
  Pipe (cfg p) r (tracker p) (slmQueue p) (closed p) (workerStarted p) (en_cours p) (fini p) (closeErr p)
    (auditQueue p) (auditClosed p) (auditErr p) (slmRejected p) (slmAbandoned p) (arbitrationErrors p) (auditRejected p) (auditErrors p).
Definition avec_tracker (t : TemporalTracker) (p : Pipeline) : Pipeline :=
  Pipe (cfg p) (rep p) t (slmQueue p) (closed p) (workerStarted p) (en_cours p) (fini p) (closeErr p)
    (auditQueue p) (auditClosed p) (auditErr p) (slmRejected p) (slmAbandoned p) (arbitrationErrors p) (auditRejected p) (auditErrors p).
Definition avec_file (q : list SLMIncident) (c : option SLMIncident) (rej ab err : Z) (p : Pipeline) : Pipeline :=
  Pipe (cfg p) (rep p) (tracker p) q (closed p) (workerStarted p) c (fini p) (closeErr p)
    (auditQueue p) (auditClosed p) (auditErr p) rej ab err (auditRejected p) (auditErrors p).
Definition avec_vie (cl ws fi : bool) (ce : list erreur_pipeline) (p : Pipeline) : Pipeline :=
  Pipe (cfg p) (rep p) (tracker p) (slmQueue p) cl ws (en_cours p) fi ce
    (auditQueue p) (auditClosed p) (auditErr p) (slmRejected p) (slmAbandoned p) (arbitrationErrors p) (auditRejected p) (auditErrors p).
Definition avec_audit (q : option (list auditRecord)) (cl : bool) (e : option erreur_pipeline) (rej err : Z) (p : Pipeline) : Pipeline :=
  Pipe (cfg p) (rep p) (tracker p) (slmQueue p) (closed p) (workerStarted p) (en_cours p) (fini p) (closeErr p)
    q cl e (slmRejected p) (slmAbandoned p) (arbitrationErrors p) rej err.

(** ** Observers *)
Record PipelineStats := Stats_ {
  SSLMRejected : Z; SSLMAbandoned : Z; SArbitrationErrors : Z; SAuditRejected : Z; SAuditErrors : Z; STrackerEvictions : Z
}.
Definition Stats (p : Pipeline) : PipelineStats :=
  Stats_ (slmRejected p) (slmAbandoned p) (arbitrationErrors p) (auditRejected p) (auditErrors p) (SuiviTemporel.Evictions (tracker p)).
Definition AuditError (p : Pipeline) : option erreur_pipeline := auditErr p.

(** * Reserved labels and linguistic shape *)

(** [strings.Index] *)
Fixpoint Index (s m : list Z) : Z :=
  if prefixe m s then 0 else
  match s with
  | [] => -1
  | _ :: s => let i := Index s m in if i <? 0 then -1 else i + 1
  end.

Definition hasReservedLabel (s label : list Z) : run bool :=
  let n := zlen label in
  if (n =? 0) || (zlen s <? n) then Done false else
  loop (fun start =>
      if negb (start + n <=? zlen s) then Done (inr false) else
      reste ← slice s start (zlen s);
      let i := Index reste label in
      if i <? 0 then Done (inr false) else
      let pos := start + i in
      leftBoundary ← (if pos =? 0 then Done true else b ← idx s (pos - 1); Done (b =? 46));
      let end_ := pos + n in
      rightBoundary ← (if end_ =? zlen s then Done true else b ← idx s end_; Done (b =? 46));
      if (leftBoundary : bool) && (rightBoundary : bool) then Done (inr true) else Done (inl (pos + 1)))
    (S (length s)) 0.

Definition etiquettes_reservees : list (list Z) :=
  octets <$> ["_domainkey"; "_dmarc"; "_acme-challenge"; "_spf"]%string.

Section pipeline.
Context `{U : Unicode} (hors : f64 -> Z).

Definition hasProtocolPrefixLabel (sub : list Z) : run bool :=
  if zlen sub =? 0 then Done false else
  let s := ToLower sub in
  o ← parcourir (R := bool) (fun _ label (_ : unit) => b ← hasReservedLabel s label; Done (if (b : bool) then inr true else inl tt))
        0 etiquettes_reservees tt;
  Done (match o with inr b => b | inl _ => false end).

Definition isLegitimateProtocolPrefix (sub : list Z) (entropyQ8 : Z) : run bool :=
  if (zlen sub =? 0) || (MaxProtocolPrefixLen <? zlen sub) || (MinTunnelEntropyQ8 <=? entropyQ8) then Done false
  else hasProtocolPrefixLabel sub.

(** One letter of the census: [alphaLen] and [vowelCount]. *)
Definition compter_lettre (s : Z * Z) (c : Z) : Z * Z :=
  let '(alphaLen, vowelCount) := s in
  let c := if (65 <=? c) && (c <=? 90) then u8 (c + 32) else c in
  if (97 <=? c) && (c <=? 122) then
    (alphaLen + 1,
     if (c =? 97) || (c =? 101) || (c =? 105) || (c =? 111) || (c =? 117) || (c =? 121) then vowelCount + 1 else vowelCount)
  else (alphaLen, vowelCount).
Definition hasConsonantDrought (sub : list Z) : bool :=
  let '(alphaLen, vowelCount) := fold_left compter_lettre sub (0, 0) in
  (15 <=? alphaLen) && (vowelCount * 10 <? alphaLen).

Definition parentCertified (p : Pipeline) (parent : list Z) : run bool :=
  if (zlen parent =? 0) || isSharedHostingDomain parent then Done false else
  '(m, ok) ← AMatch (rep p) parent;
  if negb ok then Done false else
  Done ((MClassification m =? RepClassAllowVendor) || (MClassification m =? RepClassAllowTranco)).

(** * Audit *)

(** [t] is the wall clock. *)
Definition logEvent (t : Z) (p : Pipeline) (domain action reason : list Z) (conf : f64) : Pipeline * option erreur_pipeline :=
  match auditQueue p with
  | None => (p, None)
  | Some q =>
      if auditClosed p then (p, Some ErrPipelineClosed) else
      if zlen q <? 64 then
        (avec_audit (Some (q ++ [Audit t domain action reason conf])) (auditClosed p) (auditErr p) (auditRejected p) (auditErrors p) p, auditErr p)
      else
        (avec_audit (Some q) (auditClosed p) (Some ErrAuditQueueFull) (u64 (auditRejected p + 1)) (auditErrors p) p, Some ErrAuditQueueFull)
  end.

(** * Evaluation *)

(** The tests of the fifth level. *)
Record criteres := Criteres {
  isHexOrB64Dense : bool; isHighEntropy : bool; isBeaconing : bool; isSubdomainFlood : bool; isTunnelRecord : bool;
  isDeepMultilabel : bool; isConsonantDrought : bool; isExoticTunnel : bool; protocolOverBound : bool
}.

Definition suspect (c : criteres) : bool :=
  isHexOrB64Dense c || isHighEntropy c || isBeaconing c || isSubdomainFlood c || isTunnelRecord c || isDeepMultilabel c
  || protocolOverBound c || isConsonantDrought c || isExoticTunnel c.

Definition indicator (c : criteres) (qtype entropyQ8 : Z) : string :=
  if isConsonantDrought c then "CONSONANT_DROUGHT_PAYLOAD"
  else if isExoticTunnel c && (qtype =? TypeCNAME) then "CNAME_QUESTION_LONG"
  else if isExoticTunnel c && (qtype =? TypeNULL) then "DNS_TUNNEL_RECORD_TYPE"
  else if protocolOverBound c && (MinTunnelEntropyQ8 <=? entropyQ8) then "HEX_BASE64_PAYLOAD_DENSE"
  else if protocolOverBound c then "DNS_TUNNEL_RECORD_TYPE"
  else if isHexOrB64Dense c then "HEX_BASE64_PAYLOAD_DENSE"
  else if isBeaconing c then "BEACONING_JITTER_LOW"
  else if isSubdomainFlood c then "SUBDOMAIN_EXFIL_FLOOD"
  else if isTunnelRecord c then "DNS_TUNNEL_RECORD_TYPE"
  else if isDeepMultilabel c then "DEEP_MULTILABEL_SUBDOMAIN"
  else "HIGH_ENTROPY".

(** The non-blocking send. *)
Definition deposer (p : Pipeline) (inc : SLMIncident) : Pipeline * bool :=
  if zlen (slmQueue p) <? 64
  then (avec_file (slmQueue p ++ [inc]) (en_cours p) (slmRejected p) (slmAbandoned p) (arbitrationErrors p) p, true)
  else (avec_file (slmQueue p) (en_cours p) (u64 (slmRejected p + 1)) (slmAbandoned p) (arbitrationErrors p) p, false).

(** Levels 2 to 6, once the reputation did not decide. *)
Definition evaluer_metriques (p : Pipeline) (ev : DNSEvent) (parent sub : list Z) (domaine_connu : list Z) (categorie : Z) (nowSec : Z)
  : run (Pipeline * EvaluationResult * option erreur_pipeline) :=
  let subLen := SubdomainLen (domaine ev) in
  sous ← slice (Subdomain (domaine ev)) 0 subLen;
  nom ← slice (Name ev) 0 (NameLen ev);
  parentDomain ← slice (ParentDomain (domaine ev)) 0 (ParentDomainLen (domaine ev));
  '(prof, _) ← (if 0 <? subLen then C2bt_profile_payload sous subLen (Some profil_zero)
                else C2bt_profile_payload nom (NameLen ev) (Some profil_zero));
  let prof := default profil_zero prof in
  let entropyQ8 := Entropy_q8 prof in
  let payloadClass := Payload_class prof in
  protocolLabelPresent ← hasProtocolPrefixLabel sub;
  let protocolBounded := (zlen sub <=? MaxProtocolPrefixLen) && (entropyQ8 <? MinTunnelEntropyQ8) in
  '(tr, (jitter, uniqueSubs, queryCount)) ← RecordQuery hors (tracker p) parent sub nowSec;
  let p := avec_tracker tr p in
  let long := (15 <=? subLen) || (25 <=? NameLen ev) in
  let c := {|
    isHexOrB64Dense := ((payloadClass =? 2) || (payloadClass =? 3)) && long;
    isHighEntropy := (EntropyThresholdQ8 (cfg p) <=? entropyQ8) && long;
    isBeaconing := (jitter <=? BeaconJitterMax (cfg p)) && (4 <=? queryCount);
    isSubdomainFlood := UniqueSubThreshold (cfg p) <=? uniqueSubs;
    isTunnelRecord := ((QType ev =? TypeTXT) || (QType ev =? TypeNULL)) && (40 <=? NameLen ev);
    isDeepMultilabel := (5 <=? LabelCount ev) || (35 <=? subLen);
    isConsonantDrought := hasConsonantDrought sous;
    isExoticTunnel := ((QType ev =? TypeNULL) && (25 <=? NameLen ev)) || ((QType ev =? TypeCNAME) && (45 <=? NameLen ev));
    protocolOverBound := (protocolLabelPresent : bool) && negb protocolBounded |} in
  let res d i q := Resultat d domaine_connu categorie entropyQ8 payloadClass jitter uniqueSubs i q in
  certifie ← (if (QType ev =? TypeTXT) && protocolLabelPresent && protocolBounded then parentCertified p parent else Done false);
  if (certifie : bool) && negb (isBeaconing c) && negb (isSubdomainFlood c) && negb (isTunnelRecord c)
     && negb (isDeepMultilabel c) && negb (isConsonantDrought c)
  then Done (p, res DecisionFastPass None false, None) else
  if suspect c then
    let inc := Incident nowSec nom parentDomain sous (QType ev) entropyQ8 (fdiv (f_of_Z entropyQ8) (f_of_Z 256)) payloadClass
      jitter uniqueSubs queryCount (indicator c (QType ev) entropyQ8) [] "" in
    let '(p, depose) := deposer p inc in
    Done (p, res DecisionEscalateSLM (Some inc) depose, if depose then None else Some ErrSLMQueueFull)
  else Done (p, res DecisionFastPass None false, None).

(** [t] is the wall clock of the audit record. *)
Definition EvaluatePacket (t : Z) (p : Pipeline) (rawPacket : list Z) (nowSec : Z)
  : run (Pipeline * EvaluationResult * option erreur_pipeline) :=
  if closed p then Done (p, resultat_zero, Some ErrPipelineClosed) else
  '(ev, err) ← ParseDNSQuery rawPacket (Some (event_nul 0 (zeros 16)));
  match ev, err with
  | _, Some e => Done (p, resultat_zero, Some (ErrDNS e))
  | None, None => Panic
  | Some ev, None =>
      fqdn ← FQDN ev;
      if zlen fqdn =? 0 then Done (p, Resultat DecisionFastPass [] 0 0 0 0 0 None false, None) else
      parent ← Parent ev;
      sub ← Sub ev;
      '(m, ok) ← AMatch (rep p) fqdn;
      if (ok : bool) && (MClassification m =? RepClassBlockC2) then
        let '(p, e) := logEvent t p (MatchedDomain m) (octets "DROP_REPUTATION_POLICY") (MatchedDomain m) (f_of_Z 0) in
        Done (p, Resultat DecisionFastDrop (MatchedDomain m) (MClassification m) 0 0 0 0 None false, e)
      else evaluer_metriques p ev parent sub (if ok then MatchedDomain m else []) (if ok then MClassification m else 0) nowSec
  end.

(** The payload of a captured event is its 96 octets. *)
Definition EvaluateChannelEvent (t : Z) (p : Pipeline) (payload : list Z) (nowSec : Z) :=
  EvaluatePacket t p payload nowSec.

(** * Arbitration rules *)

Definition validSLMVerdict (verdict : string) : bool :=
  bool_decide (verdict ∈ ["BENIGN_AV_TELEMETRY"; "BENIGN_DKIM_KEY"; "BENIGN_CRYPTO_KEY"; "DNS_TUNNEL_CONFIRMED"; "INSUFFICIENT_EVIDENCE"]%string).

Definition RecommendedActionForVerdict (verdict : string) : string :=
  if bool_decide (verdict = "DNS_TUNNEL_CONFIRMED"%string) then "BLOCK_IMMEDIATE"
  else if bool_decide (verdict ∈ ["BENIGN_AV_TELEMETRY"; "BENIGN_CRYPTO_KEY"]%string) then "ALLOW_VENDOR"
  else "MONITOR_ONLY".

Definition applyVetoRules (incident : option SLMIncident) (proposedVerdict : string) : run (string * f64 * string) :=
  match incident with
  | None => Done ("INSUFFICIENT_EVIDENCE"%string, f_of_Z 0, "INVALID_ARBITRATION_VERDICT"%string)
  | Some inc =>
      if negb (validSLMVerdict proposedVerdict) then Done ("INSUFFICIENT_EVIDENCE"%string, f_of_Z 0, "INVALID_ARBITRATION_VERDICT"%string) else
      if fnan (IEntropyBits inc) || finf (IEntropyBits inc) || fltb (IEntropyBits inc) (f_of_Z 0) || fltb (f_of_Z 8) (IEntropyBits inc)
      then Done ("INSUFFICIENT_EVIDENCE"%string, f_of_Z 0, "INVALID_INCIDENT_METRICS"%string) else
      let entropyQ8 := f_to_uint hors (2 ^ 32) (fmul (IEntropyBits inc) (f_of_Z 256)) in
      forme ← (if IQType inc =? TypeTXT then isLegitimateProtocolPrefix (ISubdomain inc) entropyQ8 else Done false);
      if (forme : bool) && ((IQueryCount inc <=? 3) && (IUniqueSubdomains inc <=? 2))
      then Done ("BENIGN_CRYPTO_KEY"%string, f_of_Z 0, "HEURISTIC_PROTOCOL_SHAPE_NOT_CERTIFICATION"%string) else
      if (IQueryCount inc <? 3) && fltb (IEntropyBits inc) (f_decimal 42 1)
      then Done ("INSUFFICIENT_EVIDENCE"%string, f_of_Z 0, "VETO_DETERMINISTE: Echantillon temporel insuffisant (< 3 requetes)"%string) else
      Done (proposedVerdict, f_of_Z 0, "MODEL_PROPOSAL_NOT_PROOF"%string)
  end.

(** ** The summary *)

(** [%d] of a non-negative integer. *)
Definition decimal (z : Z) : list Z := octets (pretty z).
(** [%.2f]: the exact value rounded to hundredths, ties to even. *)
Definition centiemes (m : positive) (e : Z) : Z :=
  if 0 <=? e then Z.pos m * 100 * 2 ^ e else
  let d := 2 ^ (- e) in
  let q := Z.pos m * 100 / d in
  let r := Z.pos m * 100 mod d in
  if 2 * r <? d then q else if d <? 2 * r then q + 1 else if Z.even q then q else q + 1.
Definition fixe2 (x : f64) : list Z :=
  let signe (s : bool) := if s then [45] else [] in
  match x with
  | S754_nan => octets "NaN"
  | S754_infinity s => (if s then 45 else 43) :: octets "Inf"
  | S754_zero s => signe s ++ octets "0.00"
  | S754_finite s m e =>
      let c := centiemes m e in
      signe s ++ decimal (c / 100) ++ [46; 48 + c mod 100 / 10; 48 + c mod 10]
  end.

Definition BuildHumanSummary (incident : option SLMIncident) : list Z :=
  match incident with
  | None => []
  | Some inc =>
      octets "Incident DNS suspect [" ++ octets (SuspectedIndicator inc) ++ octets "]: FQDN=" ++ IFQDN inc
      ++ octets ", requetes=" ++ decimal (IQueryCount inc) ++ octets ", sous-domaines uniques=" ++ decimal (IUniqueSubdomains inc)
      ++ octets ", entropie=" ++ fixe2 (IEntropyBits inc) ++ octets " bits/octet."
  end.

(** The two assignments that complete the file of an incident. *)
Definition completer (inc : SLMIncident) (verdict : string) : SLMIncident :=
  Incident (ITimestamp inc) (IFQDN inc) (IParentDomain inc) (ISubdomain inc) (IQType inc) (IEntropyQ8 inc) (IEntropyBits inc)
    (IPayloadClass inc) (IJitterPct inc) (IUniqueSubdomains inc) (IQueryCount inc) (SuspectedIndicator inc)
    (BuildHumanSummary (Some inc)) (RecommendedActionForVerdict verdict).

Definition ApplyDeterministicVeto (p : Pipeline) (incident : option SLMIncident) (proposedVerdict : string)
  : run (option SLMIncident * (string * f64 * string)) :=
  if closed p then Done (incident, ("INSUFFICIENT_EVIDENCE"%string, f_of_Z 0, "PIPELINE_CLOSED"%string)) else
  '(finalVerdict, confidence, overrideReason) ← applyVetoRules incident proposedVerdict;
  Done ((fun inc => completer inc finalVerdict) <$> incident, (finalVerdict, confidence, overrideReason)).
End pipeline.

(** * Creation *)

Definition DefaultBuildEntries : list BuildEntry :=
  ((fun d => Build (octets d) RepClassAllowVendor MatchSubtree) <$>
    ["sophosxl.com"; "sophosxl.net"; "avts.mcafee.com"; "mcafee.com"; "rep.trendmicro.com"; "trendmicro.com"; "barracudabrts.com";
     "spamexperts.com"; "appsechcl.com"; "zen.spamhaus.org"; "dnsbl.sorbs.net"]%string)
  ++ ((fun '(d, k) => Build (octets d) RepClassAllowTranco k) <$>
    [("google.com", MatchSubtree); ("googleapis.com", MatchExact); ("1e100.net", MatchSubtree); ("microsoft.com", MatchSubtree);
     ("azure.com", MatchExact); ("trafficmanager.net", MatchExact); ("cloudflare.com", MatchSubtree); ("cloudflare.net", MatchSubtree);
     ("akamai.net", MatchExact); ("akamaiedge.net", MatchExact); ("github.com", MatchSubtree); ("githubusercontent.com", MatchExact);
     ("amazon.com", MatchSubtree); ("amazonaws.com", MatchExact); ("cloudfront.net", MatchExact); ("apple.com", MatchSubtree);
     ("icloud.com", MatchSubtree)]%string)
  ++ ((fun d => Build (octets d) RepClassBlockC2 MatchSubtree) <$>
    ["dnscat2.net"; "tunnel.dnscat2.org"; "iodine.test-c2.org"; "dns2tcp.attacker.org"; "almacommunicator.net"; "decoydog.tunnel.org";
     "c2-beacon.threatfox.ch"; "bad-exfil-test.xyz"; "sliver-c2-dns.net"]%string).

Definition GetDefaultReputationTable `{U : Unicode} : run (erreur_reputation + ReputationTable) :=
  match CompileReputationSnapshot DefaultBuildEntries with
  | inl _ => Done (inl ErrCorruptSnapshot)
  | inr snap => NewReputationTable snap
  end.

Definition defauts (c : PipelineConfig) : PipelineConfig :=
  Config (LogPath c) (if EntropyThresholdQ8 c =? 0 then 1024 else EntropyThresholdQ8 c)
    (if BeaconJitterMax c =? 0 then 20 else BeaconJitterMax c)
    (if UniqueSubThreshold c =? 0 then 5 else UniqueSubThreshold c).

(** [ouverture] is the error of [os.OpenFile], if any. *)
Definition NewPipeline `{U : Unicode} (ouverture : option erreur_pipeline) (c : PipelineConfig) (repTable : option ReputationTable)
  : run (erreur_pipeline + Pipeline) :=
  t ← match repTable with Some t => Done (inr t) | None => GetDefaultReputationTable end;
  match t with
  | inl e => Done (inl (ErrReputation e))
  | inr t =>
      let c := defauts c in
      let journal := negb (bool_decide (LogPath c = ""%string)) in
      match ouverture with
      | Some e => if journal then Done (inl e)
                  else Done (inr (Pipe c (NewAtomicReputation (Some t)) NewTemporalTracker [] false false None false [] None false None 0 0 0 0 0))
      | None => Done (inr (Pipe c (NewAtomicReputation (Some t)) NewTemporalTracker [] false false None false []
                  (if journal then Some [] else None) false None 0 0 0 0 0))
      end
  end.

(** * Reserved labels are whole labels *)

Lemma Index_ok m s : m <> [] ->
  (Index s m < 0 /\ forall k, prefixe m (drop k s) = false) \/
  (0 <= Index s m /\ Index s m + zlen m <= zlen s /\ prefixe m (drop (Z.to_nat (Index s m)) s) = true /\
   forall k, (Z.of_nat k < Index s m) -> prefixe m (drop k s) = false).
Proof.
  intros Hm. induction s as [|c s IH].
  - left. destruct m; [done|]. split; [done|]. intros k. by rewrite drop_nil.
  - cbn [Index]. destruct (prefixe m (c :: s)) eqn:E.
    { right. split; [lia|]. split; [apply prefixe_spec in E as [r ->]; rewrite zlen_app; pose proof (zlen_nonneg r); lia|].
      split; [done|]. intros; lia. }
    destruct IH as [[Hi Hk]|(Hi & Hz & Hp & Hk)].
    + left. destruct (Z.ltb_spec (Index s m) 0); [|lia]. split; [lia|]. intros [|k]; [done|apply Hk].
    + right. destruct (Z.ltb_spec (Index s m) 0); [lia|]. rewrite zlen_cons. split; [lia|]. split; [lia|].
      replace (Z.to_nat (Index s m + 1)) with (S (Z.to_nat (Index s m))) by lia. split; [done|].
      intros [|k] Hlt; [done|]. apply Hk. lia.
Qed.

(** [m] stands in [s] at [k] between dots or ends. *)
Definition entiere (s m : list Z) (k : nat) : Prop :=
  prefixe m (drop k s) = true /\ (k = 0%nat \/ s !! (k - 1)%nat = Some 46) /\
  ((k + length m = length s)%nat \/ s !! (k + length m)%nat = Some 46).

Lemma prefixe_drop_long m k s : prefixe m (drop k s) = true -> m <> [] -> (k + length m <= length s)%nat.
Proof.
  intros [r E]%prefixe_spec Hm. pose proof (f_equal length E) as El. rewrite length_drop, length_app in El.
  destruct m; [done|]. cbn [length] in *. lia.
Qed.

(** One boundary test of the loop. *)
Lemma borne_ok s (c : bool) i : (c = false -> 0 <= i < zlen s) ->
  wp (if c then Done true else b ← idx s i; Done (b =? 46)) (fun r => r = true <-> c = true \/ s !! Z.to_nat i = Some 46 /\ c = false).
Proof.
  intros Hi. destruct c; [apply wp_done; split; [by left|done]|]. apply wp_bind, wp_idx; [by apply Hi|].
  intros x Hx. apply wp_done. rewrite Hx, Z.eqb_eq. split; [intros ->; by right|]. intros [?|[[= ?] _]]; done.
Qed.

(** Nothing between [start] and the next occurrence. *)
Lemma prochaine s m start : m <> [] -> 0 <= start -> start <= zlen s -> let i := Index (drop (Z.to_nat start) s) m in
  (i < 0 /\ forall k, start <= Z.of_nat k -> ~ entiere s m k) \/
  (0 <= i /\ start + i + zlen m <= zlen s /\ prefixe m (drop (Z.to_nat (start + i)) s) = true /\
   forall k, start <= Z.of_nat k -> (Z.of_nat k < start + i) -> ~ entiere s m k).
Proof.
  intros Hm H0 Hs i. set (rest := drop (Z.to_nat start) s) in *.
  assert (zlen rest = zlen s - start) as Hr by (unfold rest, zlen in *; rewrite length_drop; lia).
  assert (forall k, start <= Z.of_nat k -> drop (k - Z.to_nat start) rest = drop k s) as Hd.
  { intros k Hk. unfold rest. rewrite drop_drop. f_equal. lia. }
  destruct (Index_ok m rest Hm) as [[Hi Hk]|(Hi & Hz & Hp & Hk)]; [left|right].
  - split; [done|]. intros k Hsk [He _]. specialize (Hk (k - Z.to_nat start)%nat). rewrite Hd in Hk by done. congruence.
  - split; [done|]. split; [unfold i; lia|]. split.
    + rewrite <- Hd by (unfold i; lia). by replace (Z.to_nat (start + i) - Z.to_nat start)%nat with (Z.to_nat i) by (unfold i; lia).
    + intros k Hsk Hlt [He _]. specialize (Hk (k - Z.to_nat start)%nat ltac:(unfold i in *; lia)). rewrite Hd in Hk by done. congruence.
Qed.

Lemma hasReservedLabel_ok s m : m <> [] ->
  exists b, hasReservedLabel s m = Done b /\ (b = true <-> exists k, entiere s m k).
Proof.
  intros Hm. unfold hasReservedLabel. assert (0 < zlen m) as Hn by (destruct m; [done|]; rewrite zlen_cons; pose proof (zlen_nonneg m); lia).
  destruct (Z.eqb_spec (zlen m) 0), (Z.ltb_spec (zlen s) (zlen m)) as [Hs|Hs]; cbn [orb]; try lia.
  { exists false. split; [done|]. split; [done|]. intros (k & Hk%prefixe_drop_long & _); [unfold zlen in *; lia|done]. }
  match goal with |- exists b, ?l = Done b /\ _ => cut (wp l (fun b => b = true <-> exists k, entiere s m k)) end.
  { intros (b & -> & H)%wp_exists. by exists b. }
  apply (wp_loop _ (fun start => 0 <= start <= zlen s /\ forall k, (Z.of_nat k < start) -> ~ entiere s m k) (fun start => zlen s - start));
    [|split; [lia|intros; lia]|unfold zlen; lia].
  intros start [Hst Hno]. destruct (Z.leb_spec (start + zlen m) (zlen s)) as [Hle|Hgt]; cbn [negb].
  2: { apply wp_done. split; [done|]. intros (k & Hk). destruct (Z.lt_ge_cases (Z.of_nat k) start); [by destruct (Hno k)|].
       destruct Hk as [Hk _]. apply prefixe_drop_long in Hk; [|done]. unfold zlen in *. lia. }
  apply wp_bind, wp_slice; [lia..|]. rewrite take_ge by (rewrite length_drop; unfold zlen; lia). cbv zeta.
  destruct (prochaine s m start Hm ltac:(lia) ltac:(lia)) as [[Hi Hk]|(Hi & Hz & Hp & Hk)]; (destruct (Z.ltb_spec (Index (drop (Z.to_nat start) s) m) 0); try lia).
  { apply wp_done. split; [done|]. intros (k & He). destruct (Z.lt_ge_cases (Z.of_nat k) start); [by destruct (Hno k)|by destruct (Hk k)]. }
  set (pos := start + Index (drop (Z.to_nat start) s) m) in *.
  apply wp_bind. eapply wp_mono; [apply borne_ok; intros ?%Z.eqb_neq; lia|]. intros l Hl. cbv beta in Hl.
  apply wp_bind. eapply wp_mono; [apply borne_ok; intros ?%Z.eqb_neq; lia|]. intros r Hrb. cbv beta in Hrb.
  rewrite Z.eqb_eq, Z.eqb_neq in Hl, Hrb. replace (Z.to_nat (pos - 1)) with (Z.to_nat pos - 1)%nat in Hl by lia.
  replace (Z.to_nat (pos + zlen m)) with (Z.to_nat pos + length m)%nat in Hrb by (unfold zlen; lia).
  assert (entiere s m (Z.to_nat pos) <-> l && r = true) as Hent.
  { rewrite andb_true_iff, Hl, Hrb. unfold entiere. split.
    - intros (_ & H1 & H2). split; [destruct (decide (pos = 0)) | destruct (decide (pos + zlen m = zlen s))]; try (by left);
        right; (split; [|done]); [destruct H1 as [H1|H1]|destruct H2 as [H2|H2]]; unfold zlen in *; (done || lia).
    - intros [H1 H2]. split; [done|]. split; [destruct H1 as [H1|[H1 _]]|destruct H2 as [H2|[H2 _]]]; unfold zlen in *; (by right) || (left; lia). }
  destruct (l && r); apply wp_done.
  - split; [intros _; exists (Z.to_nat pos); by apply Hent|done].
  - split; [|lia]. split; [lia|]. intros k Hkp He. destruct (Z.eq_dec (Z.of_nat k) pos) as [Ek|Ek].
    + replace k with (Z.to_nat pos) in He by lia. by apply Hent in He.
    + destruct (Z.lt_ge_cases (Z.of_nat k) start); [by destruct (Hno k)|]. by apply (Hk k); [|lia|].
Qed.

(** ** The labels of a dotted name *)

Definition bord_g (a : list Z) : Prop := a = [] \/ exists a', a = a' ++ [46].
Definition bord_d (b : list Z) : Prop := b = [] \/ exists b', b = 46 :: b'.

Lemma entiere_alt s m : m <> [] -> (exists k, entiere s m k) <-> exists a b, s = a ++ m ++ b /\ bord_g a /\ bord_d b.
Proof.
  intros Hm. split.
  - intros (k & Hp & Hg & Hd). pose proof (prefixe_drop_long m k s Hp Hm) as Hk. apply prefixe_spec in Hp as [r E].
    assert (s = take k s ++ m ++ r) as Es by (by rewrite <- E, take_drop).
    exists (take k s), r. split; [done|]. split.
    + destruct k as [|k]; [by left|right]. destruct Hg as [?|Hg]; [done|]. cbn [Nat.sub] in Hg. rewrite Nat.sub_0_r in Hg.
      exists (take k s). by apply take_S_r.
    + pose proof (f_equal length Es) as El. rewrite !length_app, length_take in El. destruct Hd as [Hd|Hd].
      * left. apply nil_length_inv. lia.
      * right. rewrite Es, lookup_app_r, lookup_app_r in Hd by (rewrite ?length_take; lia). rewrite length_take in Hd.
        replace (k + length m - k `min` length s - length m)%nat with 0%nat in Hd by lia. destruct r as [|c r]; [done|].
        injection Hd as ->. by exists r.
  - intros (a & b & -> & Hg & Hd). exists (length a). split; [|split].
    + rewrite drop_app_length. apply prefixe_spec. by exists b.
    + destruct Hg as [->|(a' & ->)]; [by left|right]. rewrite length_app, Nat.add_sub, <- !app_assoc. by apply list_lookup_middle.
    + destruct Hd as [->|(b' & ->)]; [left; rewrite app_nil_r, length_app; done|right]. rewrite app_assoc, <- length_app. by apply list_lookup_middle.
Qed.

Lemma decoupe_elem m s : 46 ∉ m -> forall cur, 46 ∉ cur ->
  (m ∈ decoupe cur s <-> exists a b, cur ++ s = a ++ m ++ b /\ bord_g a /\ bord_d b).
Proof.
  intros Hm. split.
  - revert cur H. induction s as [|c s IH]; intros cur Hcur; cbn [decoupe].
    + intros ->%list_elem_of_singleton. exists [], []. split; [done|]. by split; left.
    + destruct (Z.eqb_spec c 46) as [->|Hc].
      * intros [->|Hin]%elem_of_cons; [exists [], (46 :: s); split; [done|]; split; [by left|right; by exists s]|].
        destruct (IH [] ltac:(apply not_elem_of_nil) Hin) as (a & b & E & Hg & Hd). exists (cur ++ 46 :: a), b. cbn [app] in E.
        split; [by rewrite E, <- app_assoc|]. split; [|done]. right.
        destruct Hg as [->|(a' & ->)]; [by exists cur|]. exists (cur ++ 46 :: a'). by rewrite <- app_assoc.
      * intros Hin. destruct (IH (cur ++ [c])) as (a & b & E & H); [rewrite elem_of_app, list_elem_of_singleton; naive_solver|done|].
        exists a, b. by rewrite <- app_assoc in E.
  - intros (a & b & E & Hg & Hd). assert (decoupe cur s = decoupe [] (cur ++ s)) as -> by by rewrite decoupe_sans.
    rewrite E. assert (m ∈ decoupe [] (m ++ b)) as Hb.
    { rewrite decoupe_sans by done. cbn [app]. destruct Hd as [->|(b' & ->)]; cbn [decoupe]; [by apply list_elem_of_singleton|].
      by apply elem_of_cons; left. }
    destruct Hg as [->|(a' & ->)]; [done|]. rewrite <- app_assoc.
    destruct (decoupe_app a' []) as (L & k & _ & HL). rewrite HL. apply elem_of_app. right. cbn [app decoupe]. change (46 =? 46) with true. cbv iota.
    by apply elem_of_cons; right.
Qed.

(** A reserved label is one of the labels of the name. *)
Lemma reserve_ok s m : m <> [] -> 46 ∉ m -> hasReservedLabel s m = Done (bool_decide (m ∈ decoupe [] s)).
Proof.
  intros Hm H46. destruct (hasReservedLabel_ok s m Hm) as (b & -> & Hb). f_equal. apply eq_true_iff_eq.
  rewrite Hb, bool_decide_eq_true, (entiere_alt s m Hm), (decoupe_elem m s H46 []) by apply not_elem_of_nil. done.
Qed.

Lemma reservees_ok : Forall (fun m => m <> [] /\ 46 ∉ m) etiquettes_reservees.
Proof.
  assert (forallb (fun m => negb (zlen m =? 0) && bool_decide (46 ∉ m)) etiquettes_reservees = true) as H by (vm_compute; reflexivity).
  apply Forall_forall. intros m Hm%list_elem_of_In. apply (proj1 (forallb_forall _ _) H) in Hm. apply andb_true_iff in Hm as [H1 H2].
  split; [by intros ->|by apply bool_decide_eq_true in H2].
Qed.

(** Some label of the name is reserved. *)
Definition reservee (s : list Z) : bool := existsb (fun m => bool_decide (m ∈ decoupe [] s)) etiquettes_reservees.

Lemma prefixe_reserve_ok `{U : Unicode} sub : hasProtocolPrefixLabel sub = Done (negb (zlen sub =? 0) && reservee (ToLower sub)).
Proof.
  unfold hasProtocolPrefixLabel, reservee. destruct (zlen sub =? 0); [done|]. cbn [negb andb]. cbv zeta.
  set (s := ToLower sub). pose proof reservees_ok as Hr. generalize dependent etiquettes_reservees. intros l Hl.
  generalize 0. induction Hl as [|m l [H1 H2] _ IH]; intros i; [done|]. cbn [parcourir existsb]. rewrite reserve_ok, run_bind_done by done.
  destruct (bool_decide (m ∈ decoupe [] s)); [done|]. rewrite run_bind_done. cbn [orb]. apply IH.
Qed.

(** * The name of an accepted question *)

(** The octets of a dotted name: lower case, digits, [-_+/=] and dots. *)
Definition permis (o : Z) : bool := dnsLabelByte o || isDNSEncodingByte o || (o =? 46).

Lemma permis_range o : permis o = true -> 0 <= o < 128 /\ minuscule o = o /\ ((65 <=? o) && (o <=? 90)) = false.
Proof.
  unfold permis, dnsLabelByte, isDNSEncodingByte, minuscule. intros H.
  assert (0 <= o < 128 /\ ~ (65 <= o <= 90)) as [H1 H2] by lia. split; [done|].
  assert (((65 <=? o) && (o <=? 90)) = false) as -> by lia. done.
Qed.

Lemma permis_label l : label_hors l = false -> forallb permis (bas l) = true.
Proof.
  unfold label_hors. induction l as [|o l IH]; [done|]. cbn [existsb]. intros [H1 H2]%orb_false_iff. change (bas (o :: l)) with (minuscule o :: bas l).
  cbn [forallb]. rewrite (IH H2), andb_true_r. unfold hors, ldh in H1. unfold permis. apply negb_false_iff in H1. by rewrite H1.
Qed.

Lemma permis_pointe ls : labels_ok ls -> existsb label_hors ls = false -> forallb permis (nom_pointe ls) = true.
Proof.
  induction ls as [|l ls IH]; [done|]. intros Hls [Hl Hh]%orb_false_iff. destruct (decide (ls = [])) as [->|Hne].
  - rewrite pointe_un. by apply permis_label.
  - change (l :: ls) with ([l] ++ ls) in *. apply labels_ok_app in Hls as [H1 H2]. rewrite pointe_app, pointe_un by done.
    rewrite forallb_app, (permis_label l Hl). cbn [forallb]. by rewrite IH.
Qed.

Lemma hors_take n ls : existsb label_hors ls = false -> existsb label_hors (take n ls) = false.
Proof.
  intros H. rewrite <- (take_drop n ls), existsb_app in H. by apply orb_false_iff in H as [? _].
Qed.
Lemma hors_drop n ls : existsb label_hors ls = false -> existsb label_hors (drop n ls) = false.
Proof.
  intros H. rewrite <- (take_drop n ls), existsb_app in H. by apply orb_false_iff in H as [_ ?].
Qed.

Lemma permis_octets s : forallb permis s = true -> bytes_ok s.
Proof.
  intros H. apply Forall_forall. intros o Ho%list_elem_of_In. apply (proj1 (forallb_forall _ _) H) in Ho. apply permis_range in Ho. unfold is_u8. lia.
Qed.
Lemma permis_bas `{U : Unicode} s : forallb permis s = true -> ToLower s = s.
Proof.
  intros H. unfold ToLower. assert (ascii s = true) as ->.
  { apply forallb_forall. intros o Ho. apply (proj1 (forallb_forall _ _) H), permis_range in Ho. lia. }
  induction s as [|o s IH]; [done|]. cbn [forallb] in H. apply andb_true_iff in H as [H1 H2]. cbn [fmap list_fmap].
  f_equal; [by apply permis_range|]. by apply IH.
Qed.

(** A name of the parser is its own cleaned form. *)
Lemma nom_propre `{U : Unicode} ls : labels_ok ls -> existsb label_hors ls = false -> cleanDomain (nom_pointe ls) = nom_pointe ls.
Proof.
  intros Hls Hh. unfold cleanDomain. destruct (Z.eqb_spec (zlen (nom_pointe ls)) 0) as [E|E].
  { by rewrite (nil_length_inv (nom_pointe ls)) by (unfold zlen in E; lia). }
  pose proof (permis_pointe ls Hls Hh) as Hp. assert (existsb (fun c => (65 <=? c) && (c <=? 90)) (nom_pointe ls) = false) as ->.
  { apply not_true_is_false. intros (o & Ho & Hm)%existsb_exists. apply (proj1 (forallb_forall _ _) Hp), permis_range in Ho. lia. }
  cbv zeta. assert (ls <> []) as Hne by (intros ->; by vm_compute in E).
  pose proof (pointe_sans_point ls Hls Hh Hne) as Hpt. revert Hpt. unfold DnsQuestion.sans_point_final, Reputation.sans_point_final.
  case_bool_decide as Hlast.
  - apply last_Some in Hlast as (l & ->). rewrite removelast_last. intros Hr%(f_equal length). rewrite length_app in Hr. cbn [length] in Hr. lia.
  - intros _. destruct (rev (nom_pointe ls)) as [|c r] eqn:Er; [done|]. assert (nom_pointe ls = rev r ++ [c]) as En.
    { rewrite <- (rev_involutive (nom_pointe ls)), Er. done. }
    destruct (Z.eq_dec c 46) as [->|Hc]; [exfalso; apply Hlast; rewrite En, last_app; done|].
    destruct c as [|c|c]; try done. do 6 (destruct c as [c|c|]; try done).
Qed.

Lemma parties_bornes ls : labels_ok ls -> ls <> [] -> admissible false ls ->
  let nom := nom_pointe ls in let par := parent ls in let sub := sous_domaine ls in
  (1 <= zlen nom <= 253 /\ 1 <= zlen par <= zlen nom /\ zlen sub <= zlen nom) /\
  forallb permis nom = true /\ forallb permis par = true /\ forallb permis sub = true.
Proof.
  intros Hls Hne Ha nom par sub. destruct (admissible_bornes false ls Hls Hne Ha) as (Hb & _). pose proof (proj2 Ha eq_refl) as Hh.
  destruct (evenement_vues false 0 (zeros 16) 0 0 0 profil_nul ls Hls Hne Ha) as (_ & Ep & En & He).
  assert (forall a b, zlen a <= zlen (avec_point a b) /\ zlen b <= zlen (avec_point a b)) as Hav.
  { intros a b. unfold avec_point. pose proof (zlen_nonneg a). pose proof (zlen_nonneg b).
    destruct a, b; rewrite ?zlen_app, ?zlen_cons in *; change (@zlen Z []) with 0 in *; lia. }
  split.
  - split; [done|]. destruct (Hav sub par) as [H1 H2]. unfold nom. rewrite En. split; [|done]. split; [|done].
    unfold par. rewrite Ep. destruct (Hav (enregistre ls) (suffixe ls)) as [H3 _].
    destruct (enregistre ls) as [|c l]; [done|]. rewrite zlen_cons in H3. pose proof (zlen_nonneg l). lia.
  - split; [by apply permis_pointe|]. split; apply permis_pointe;
      [by apply labels_ok_drop|by apply hors_drop|by apply labels_ok_take|by apply hors_take].
Qed.

(** * Reference: measures, criteria and decision *)

Definition charge (ls : list (list Z)) : list Z := if zlen (sous_domaine ls) =? 0 then nom_pointe ls else sous_domaine ls.
Definition profil_question (ls : list (list Z)) : C2bt_entropy_profile_t := profil_de (charge ls).

Definition lettre (c : Z) : bool := dans 65 90 c || dans 97 122 c.
Definition voyelle (c : Z) : bool := bool_decide (minuscule c ∈ octets "aeiouy").
(** At least fifteen letters, less than a tenth of them vowels. *)
Definition secheresse (s : list Z) : bool := (15 <=? nb lettre s) && (nb voyelle s * 10 <? nb lettre s).

Definition discret (ls : list (list Z)) : bool :=
  (zlen (sous_domaine ls) <=? MaxProtocolPrefixLen) && (Entropy_q8 (profil_question ls) <? MinTunnelEntropyQ8).

(** [ms] is the jitter, the distinct sub-domains and the recent queries. *)
Definition criteres_de (cf : PipelineConfig) (ls : list (list Z)) (qt : Z) (ms : Z * Z * Z) : criteres :=
  let '(jitter, distincts, recentes) := ms in
  let n := zlen (nom_pointe ls) in
  let sub := sous_domaine ls in
  let e := Entropy_q8 (profil_question ls) in
  let k := Payload_class (profil_question ls) in
  let long := (15 <=? zlen sub) || (25 <=? n) in
  {| isHexOrB64Dense := ((k =? 2) || (k =? 3)) && long;
     isHighEntropy := (EntropyThresholdQ8 cf <=? e) && long;
     isBeaconing := (jitter <=? BeaconJitterMax cf) && (4 <=? recentes);
     isSubdomainFlood := UniqueSubThreshold cf <=? distincts;
     isTunnelRecord := ((qt =? TypeTXT) || (qt =? TypeNULL)) && (40 <=? n);
     isDeepMultilabel := (5 <=? zlen ls) || (35 <=? zlen sub);
     isConsonantDrought := secheresse sub;
     isExoticTunnel := ((qt =? TypeNULL) && (25 <=? n)) || ((qt =? TypeCNAME) && (45 <=? n));
     protocolOverBound := reservee sub && negb (discret ls) |}.

Section reference.
Context `{U : Unicode} (hors : f64 -> Z).

(** What the table says of a name. *)
Definition avis (r : AtomicReputation) (q : list Z) : MatchResult :=
  match AMatch r q with Done (m, _) => m | _ => resultat_nul end.

Definition certifie (r : AtomicReputation) (par : list Z) : bool :=
  negb (isSharedHostingDomain par)
  && ((MClassification (avis r par) =? RepClassAllowVendor) || (MClassification (avis r par) =? RepClassAllowTranco)).

(** A short TXT selector under a certified parent, otherwise unsuspicious but for its density. *)
Definition exemptee (r : AtomicReputation) (ls : list (list Z)) (qt : Z) (c : criteres) : bool :=
  (qt =? TypeTXT) && reservee (sous_domaine ls) && discret ls && certifie r (parent ls)
  && negb (isBeaconing c) && negb (isSubdomainFlood c) && negb (isTunnelRecord c) && negb (isDeepMultilabel c) && negb (isConsonantDrought c).

Definition escalade (p : Pipeline) (ls : list (list Z)) (qt : Z) (ms : Z * Z * Z) : bool :=
  let c := criteres_de (cfg p) ls qt ms in negb (exemptee (rep p) ls qt c) && suspect c.

Definition dossier (p : Pipeline) (ls : list (list Z)) (qt now : Z) (ms : Z * Z * Z) : SLMIncident :=
  let '(jitter, distincts, recentes) := ms in
  let prof := profil_question ls in
  Incident now (nom_pointe ls) (parent ls) (sous_domaine ls) qt (Entropy_q8 prof) (fdiv (f_of_Z (Entropy_q8 prof)) (f_of_Z 256))
    (Payload_class prof) jitter distincts recentes (indicator (criteres_de (cfg p) ls qt ms) qt (Entropy_q8 prof)) [] "".

Definition resultat_mesure (m : MatchResult) (ls : list (list Z)) (ms : Z * Z * Z) (d : Z) (i : option SLMIncident) (q : bool) : EvaluationResult :=
  let '(jitter, distincts, _) := ms in
  Resultat d (MatchedDomain m) (MClassification m) (Entropy_q8 (profil_question ls)) (Payload_class (profil_question ls)) jitter distincts i q.

(** The state and the answer once the measures [ms] are taken and the tracker is [tr]. *)
Definition conclure (p : Pipeline) (tr : TemporalTracker) (m : MatchResult) (ls : list (list Z)) (qt now : Z) (ms : Z * Z * Z)
  : Pipeline * EvaluationResult * option erreur_pipeline :=
  let p' := avec_tracker tr p in
  if escalade p ls qt ms then
    let inc := dossier p ls qt now ms in
    if zlen (slmQueue p) <? 64
    then (avec_file (slmQueue p ++ [inc]) (en_cours p) (slmRejected p) (slmAbandoned p) (arbitrationErrors p) p',
          resultat_mesure m ls ms DecisionEscalateSLM (Some inc) true, None)
    else (avec_file (slmQueue p) (en_cours p) (u64 (slmRejected p + 1)) (slmAbandoned p) (arbitrationErrors p) p',
          resultat_mesure m ls ms DecisionEscalateSLM (Some inc) false, Some ErrSLMQueueFull)
  else (p', resultat_mesure m ls ms DecisionFastPass None false, None).

(** The table is a loaded one, the tracker represents a map, the queues are bounded. *)
Definition pipeline_ok (p : Pipeline) : Prop :=
  (exists es block, rep p = Some (table_de es block) /\ table_ok es block) /\
  (exists A, etat_ok (tracker p) A) /\
  zlen (slmQueue p) <= 64 /\ (forall q, auditQueue p = Some q -> zlen q <= 64).

Lemma avis_ok r q : (exists es block, r = Some (table_de es block) /\ table_ok es block) ->
  AMatch r q = Done (avis r q, negb (MClassification (avis r q) =? 0)).
Proof.
  intros (es & block & -> & Hok). destruct (Match_decide es block Hok q) as (m & Hm & _).
  unfold avis, AMatch, Load. by rewrite Hm.
Qed.

Lemma secheresse_ok s : bytes_ok s -> hasConsonantDrought s = secheresse s.
Proof.
  intros Hs. unfold hasConsonantDrought, secheresse.
  assert (forall a v, fold_left compter_lettre s (a, v) = (a + nb lettre s, v + nb voyelle s)) as Hf.
  { induction Hs as [|c s Hc Hs IH]; intros a v; [by rewrite !Z.add_0_r|]. cbn [fold_left]. rewrite !nb_cons.
    unfold compter_lettre at 2. unfold is_u8 in Hc. assert (voyelle c = existsb (Z.eqb (minuscule c)) [97; 101; 105; 111; 117; 121]) as Ev.
    { unfold voyelle. apply eq_true_iff_eq. rewrite bool_decide_eq_true, existsb_exists. change (octets "aeiouy") with [97; 101; 105; 111; 117; 121].
      split; [intros Hin%list_elem_of_In; exists (minuscule c); by rewrite Z.eqb_refl|]. intros (x & Hx & ->%Z.eqb_eq). by apply list_elem_of_In. }
    change (if (65 <=? c) && (c <=? 90) then u8 (c + 32) else c) with (minuscule c).
    assert (lettre c = (97 <=? minuscule c) && (minuscule c <=? 122)) as ->.
    { unfold lettre, dans, minuscule. destruct ((65 <=? c) && (c <=? 90)) eqn:E; [rewrite u8_id by (unfold is_u8; lia)|]; lia. }
    rewrite Ev. cbn [existsb]. rewrite orb_false_r, !orb_assoc. set (m := minuscule c). set (w := _ || _).
    assert (w = true -> ((97 <=? m) && (m <=? 122)) = true) as Hw by (unfold w; lia).
    clearbody w. destruct ((97 <=? m) && (m <=? 122)); rewrite IH.
    - destruct w; cbn [Z.b2z]; f_equal; lia.
    - destruct w; [by specialize (Hw eq_refl)|]. cbn [Z.b2z]. f_equal; lia. }
  rewrite Hf. by rewrite !Z.add_0_l.
Qed.

(** ** The code takes those measures *)

Section question.
Context (ls : list (list Z)) (qt now : Z) (Hls : labels_ok ls) (Hne : ls <> []) (Ha : admissible false ls) (Hnow : is_u32 now).

Lemma profil_lu : (if 0 <? zlen (sous_domaine ls) then C2bt_profile_payload (sous_domaine ls) (zlen (sous_domaine ls)) (Some profil_zero)
    else C2bt_profile_payload (nom_pointe ls) (zlen (nom_pointe ls)) (Some profil_zero)) = Done (Some (profil_question ls), 0).
Proof.
  destruct (parties_bornes ls Hls Hne Ha) as ((H1 & H2 & H3) & P1 & P2 & P3). unfold profil_question, charge.
  pose proof (zlen_nonneg (sous_domaine ls)). pose proof (permis_octets _ P1). pose proof (permis_octets _ P3).
  destruct (Z.ltb_spec 0 (zlen (sous_domaine ls))), (Z.eqb_spec (zlen (sous_domaine ls)) 0); try lia;
    rewrite profil_ok by (done || lia); by rewrite debut_tout by lia.
Qed.

Lemma reservee_vide : reservee [] = false.
Proof. vm_compute. reflexivity. Qed.

Lemma selecteur_lu : hasProtocolPrefixLabel (sous_domaine ls) = Done (reservee (sous_domaine ls)).
Proof.
  rewrite prefixe_reserve_ok. destruct (parties_bornes ls Hls Hne Ha) as (_ & _ & _ & P3). rewrite permis_bas by done.
  destruct (Z.eqb_spec (zlen (sous_domaine ls)) 0) as [E|]; [|done]. cbn [negb andb].
  rewrite (nil_length_inv (sous_domaine ls)) by (unfold zlen in E; lia). by rewrite reservee_vide.
Qed.

Lemma certifie_lu p : pipeline_ok p -> parentCertified p (parent ls) = Done (certifie (rep p) (parent ls)).
Proof.
  intros (Hr & _). unfold parentCertified, certifie. destruct (parties_bornes ls Hls Hne Ha) as ((_ & H2 & _) & _).
  destruct (Z.eqb_spec (zlen (parent ls)) 0); [lia|]. cbn [orb]. destruct (isSharedHostingDomain (parent ls)); [done|]. cbn [negb andb].
  rewrite (avis_ok _ _ Hr), run_bind_done. cbn beta iota. destruct (Z.eqb_spec (MClassification (avis (rep p) (parent ls))) 0) as [->|]; done.
Qed.

Lemma metriques_ok p A ident fl m : pipeline_ok p -> etat_ok (tracker p) A ->
  let ms := mesure hors (suite_de A (parent ls) (sous_domaine ls) now) in
  exists tr A0 n, reserve A (parent ls) now A0 n /\
    etat_ok tr (<[parent ls := suite_de A (parent ls) (sous_domaine ls) now]> A0) /\
    SuiviTemporel.evictions tr = u64 (SuiviTemporel.evictions (tracker p) + n) /\
    evaluer_metriques hors p (evenement 0 (zeros 16) ident fl qt profil_nul ls) (parent ls) (sous_domaine ls) (MatchedDomain m) (MClassification m) now
    = Done (conclure p tr m ls qt now ms).
Proof.
  intros Hp HA ms. destruct (parties_bornes ls Hls Hne Ha) as ((H1 & H2 & H3) & P1 & P2 & P3).
  destruct (wp_RecordQuery hors (tracker p) A (parent ls) (sous_domaine ls) now HA Hnow ltac:(lia)) as (tr & A0 & n & Hq & Hres & Htr & Hev).
  exists tr, A0, n. split; [done|]. split; [done|]. split; [done|]. unfold evaluer_metriques, evenement, parties_de, champ.
  cbn [domaine SubdomainLen Subdomain Name NameLen ParentDomain ParentDomainLen QType LabelCount].
  destruct (evenement_vues false 0 (zeros 16) ident fl qt profil_nul ls Hls Hne Ha) as ((Vn & Vp & Vs & _) & _).
  unfold FQDN, Parent, Sub, evenement, parties_de, champ in Vn, Vp, Vs.
  cbn [domaine SubdomainLen Subdomain Name NameLen ParentDomain ParentDomainLen] in Vn, Vp, Vs.
  assert (slice (tableau 256 (sous_domaine ls)) 0 (zlen (sous_domaine ls)) = Done (sous_domaine ls)) as ->.
  { destruct (Z.eqb_spec (zlen (sous_domaine ls)) 0) as [E|]; [|done]. rewrite E. by injection Vs as <-. }
  destruct (Z.eqb_spec (zlen (nom_pointe ls)) 0); [lia|]. destruct (Z.eqb_spec (zlen (parent ls)) 0); [lia|].
  rewrite run_bind_done, Vn, run_bind_done, Vp, run_bind_done, profil_lu, run_bind_done. cbn beta iota.
  rewrite selecteur_lu, run_bind_done, Hq, run_bind_done. cbn beta iota. cbn [default from_option id].
  rewrite secheresse_ok by by apply permis_octets.
  fold ms. destruct ms as [[j u] r]. cbn beta iota zeta. fold (discret ls).
  set (c := Criteres _ _ _ _ _ _ _ _ _). assert (c = criteres_de (cfg p) ls qt (j, u, r)) as Ec by done. clearbody c.
  assert ((if (qt =? TypeTXT) && reservee (sous_domaine ls) && discret ls then parentCertified (avec_tracker tr p) (parent ls) else Done false)
    = Done ((qt =? TypeTXT) && reservee (sous_domaine ls) && discret ls && certifie (rep p) (parent ls))) as ->.
  { destruct (_ && discret ls); [|done]. exact (certifie_lu p Hp). }
  rewrite run_bind_done. unfold conclure, escalade, exemptee, dossier, resultat_mesure, deposer. cbv zeta. rewrite <- Ec.
  cbn [slmQueue en_cours slmRejected slmAbandoned arbitrationErrors avec_tracker].
  destruct (_ && negb (isConsonantDrought c)); [done|]. cbn [negb andb]. destruct (suspect c); [|done].
  by destruct (zlen (slmQueue p) <? 64).
Qed.
End question.

(** What the pipeline does with a packet that asks for [ls] and [qt]. *)
Definition refuse_politique (t : Z) (p : Pipeline) (m : MatchResult) : Pipeline * EvaluationResult * option erreur_pipeline :=
  let '(p', e) := logEvent t p (MatchedDomain m) (octets "DROP_REPUTATION_POLICY") (MatchedDomain m) (f_of_Z 0) in
  (p', Resultat DecisionFastDrop (MatchedDomain m) (MClassification m) 0 0 0 0 None false, e).

Definition reponse (t : Z) (p : Pipeline) (A : gmap (list Z) (list passage)) (ls : list (list Z)) (qt now : Z)
    (r : Pipeline * EvaluationResult * option erreur_pipeline) : Prop :=
  let m := avis (rep p) (nom_pointe ls) in
  if MClassification m =? RepClassBlockC2 then r = refuse_politique t p m else
  exists tr A0 n, reserve A (parent ls) now A0 n /\
    etat_ok tr (<[parent ls := suite_de A (parent ls) (sous_domaine ls) now]> A0) /\
    SuiviTemporel.evictions tr = u64 (SuiviTemporel.evictions (tracker p) + n) /\
    r = conclure p tr m ls qt now (mesure hors (suite_de A (parent ls) (sous_domaine ls) now)).

Lemma avis_zero r q : (exists es block, r = Some (table_de es block) /\ table_ok es block) ->
  MClassification (avis r q) = 0 -> avis r q = resultat_nul.
Proof.
  intros (es & block & -> & Hok). destruct (Match_decide es block Hok q) as (m & Hm & Hd).
  unfold avis, AMatch, Load. rewrite Hm. intros Hz. destruct (validReputationDomain _); [|done].
  destruct Hd as [[-> _]|(b & Hb & _ & -> & _)]; [done|]. destruct (regle_classe es block Hok b Hb) as (H1 & _).
  cbn [resultat MClassification] in Hz. lia.
Qed.

Lemma paquet_decide t p A raw now : pipeline_ok p -> etat_ok (tracker p) A -> closed p = false -> bytes_ok raw -> is_u32 now ->
  (exists e, EvaluatePacket hors t p raw now = Done (p, resultat_zero, Some (ErrDNS e)) /\ forall ls qt, ~ question_lue raw false ls qt) \/
  (exists ls qt r, question_lue raw false ls qt /\ EvaluatePacket hors t p raw now = Done r /\ reponse t p A ls qt now r).
Proof.
  intros Hp HA Hc Hraw Hnow. unfold EvaluatePacket. rewrite Hc. unfold ParseDNSQuery.
  pose proof (fil_decide raw false (event_nul 0 (zeros 16)) Hraw) as ([e err] & -> & H)%wp_exists. rewrite run_bind_done.
  unfold reponse_fil in H. cbn [fst snd] in H. destruct err as [err|].
  { left. exists err. split; [by destruct e|]. by destruct H as [_ ?]. }
  right. destruct H as (ls & qt & ident & fl & Hq & _ & _ & ->). exists ls, qt. cbn [event_nul Timestamp ClientIP].
  change (grammaire_de false ls) with profil_nul.
  destruct (question_labels raw false ls qt Hq) as (Hls & Hne & Ha & _).
  destruct (evenement_vues false 0 (zeros 16) ident fl qt profil_nul ls Hls Hne Ha) as ((Vn & Vp & Vs & _) & _).
  destruct (parties_bornes ls Hls Hne Ha) as ((H1 & _) & _).
  rewrite Vn, run_bind_done. destruct (Z.eqb_spec (zlen (nom_pointe ls)) 0); [lia|]. rewrite Vp, run_bind_done, Vs, run_bind_done.
  pose proof Hp as (Hr & _). rewrite (avis_ok _ _ Hr), run_bind_done. cbn beta iota. unfold reponse. set (m := avis (rep p) (nom_pointe ls)).
  assert (MClassification m = 0 -> m = resultat_nul) as Hz by by apply avis_zero.
  destruct (Z.eqb_spec (MClassification m) RepClassBlockC2) as [E|E].
  - rewrite E. cbn [negb andb]. change (RepClassBlockC2 =? 0) with false. cbn [negb andb]. unfold refuse_politique. rewrite E.
    destruct (logEvent _ _ _ _ _ _) as [p' er]. by eexists.
  - rewrite andb_false_r.
    assert ((if negb (MClassification m =? 0) then MatchedDomain m else []) = MatchedDomain m) as ->.
    { destruct (Z.eqb_spec (MClassification m) 0) as [E0|]; [|done]. by rewrite (Hz E0). }
    assert ((if negb (MClassification m =? 0) then MClassification m else 0) = MClassification m) as ->.
    { destruct (Z.eqb_spec (MClassification m) 0) as [E0|]; [|done]. by rewrite E0. }
    destruct (metriques_ok ls qt now Hls Hne Ha Hnow p A ident fl m Hp HA) as (tr & A0 & k & Hres & Htr & Hev & ->).
    eexists. split; [done|]. split; [done|]. by exists tr, A0, k.
Qed.

(** ** The invariant *)

Lemma logEvent_ok t p d a r c : pipeline_ok p -> pipeline_ok (logEvent t p d a r c).1.
Proof.
  intros Hp. pose proof Hp as (H1 & H2 & H3 & H4). unfold logEvent. destruct (auditQueue p) as [q|] eqn:Eq; [|done]. specialize (H4 q eq_refl).
  destruct (auditClosed p) eqn:Ec; [done|]. destruct (Z.ltb_spec (zlen q) 64); (split; [done|]; split; [done|]; split; [done|]); cbn [fst auditQueue avec_audit];
    intros q' [= <-]; rewrite ?zlen_app, ?zlen_cons, ?zlen_nil; lia.
Qed.

Lemma conclure_ok p tr A m ls qt now ms : pipeline_ok p -> etat_ok tr A -> pipeline_ok (conclure p tr m ls qt now ms).1.1.
Proof.
  intros (H1 & H2 & H3 & H4) Ht. unfold conclure. destruct (escalade p ls qt ms); [destruct (Z.ltb_spec (zlen (slmQueue p)) 64)|];
    (split; [done|]; split; [by exists A|]; split; [|done]); cbn [fst slmQueue avec_file avec_tracker]; rewrite ?zlen_app, ?zlen_cons, ?zlen_nil; lia.
Qed.

Lemma reponse_ok t p A ls qt now r : pipeline_ok p -> reponse t p A ls qt now r -> pipeline_ok r.1.1.
Proof.
  intros Hp. unfold reponse. destruct (_ =? _).
  - intros ->. unfold refuse_politique. pose proof (logEvent_ok t p (MatchedDomain (avis (rep p) (nom_pointe ls))) (octets "DROP_REPUTATION_POLICY") (MatchedDomain (avis (rep p) (nom_pointe ls))) (f_of_Z 0) Hp) as H.
    destruct (logEvent _ _ _ _ _ _) as [p' e]. exact H.
  - intros (tr & A0 & n & _ & Htr & _ & ->). by eapply conclure_ok.
Qed.

(** Every call answers, and keeps the invariant. *)
Lemma evaluation_totale t p raw now : pipeline_ok p -> bytes_ok raw -> is_u32 now ->
  exists p' res err, EvaluatePacket hors t p raw now = Done (p', res, err) /\ pipeline_ok p'.
Proof.
  intros Hp Hraw Hnow. destruct (closed p) eqn:Hc; [exists p, resultat_zero, (Some ErrPipelineClosed); unfold EvaluatePacket; by rewrite Hc|].
  pose proof Hp as (_ & (A & HA) & _). destruct (paquet_decide t p A raw now Hp HA Hc Hraw Hnow) as [(e & He & _)|(ls & qt & [[p' res] err] & _ & He & Hr)].
  - by exists p, resultat_zero, (Some (ErrDNS e)).
  - exists p', res, err. split; [done|]. exact (reponse_ok t p A ls qt now _ Hp Hr).
Qed.

(** ** Denial *)

Lemma avis_bloque r q : (exists es block, r = Some (table_de es block) /\ table_ok es block) -> cleanDomain q = q ->
  exists es block, r = Some (table_de es block) /\
  (MClassification (avis r q) = RepClassBlockC2 <->
   validReputationDomain q = true /\ exists b, b ∈ regles es block /\ couvre q b /\ BClassification b = RepClassBlockC2) /\
  (MClassification (avis r q) = RepClassBlockC2 ->
   exists b, b ∈ regles es block /\ couvre q b /\ BClassification b = RepClassBlockC2 /\ MatchedDomain (avis r q) = Domain b).
Proof.
  intros (es & block & -> & Hok) Hq. exists es, block. split; [done|]. destruct (Match_decide es block Hok q) as (m & Hm & Hd).
  unfold avis, AMatch, Load. rewrite Hm. rewrite Hq in Hd. destruct (validReputationDomain q); cycle 1.
  { subst m. split; [|done]. split; [done|by intros [? _]]. }
  destruct Hd as [[-> Hno]|(b & Hb & Hcb & -> & Hbest)].
  { split; [|done]. split; [done|]. intros (_ & b & Hb & Hcb & _). by destruct (Hno b Hb). }
  cbn [resultat MClassification MatchedDomain]. split; [|by exists b]. split; [intros E; split; [done|by exists b]|].
  intros (_ & b' & Hb' & Hcb' & E'). specialize (Hbest b' Hb' Hcb'). unfold prefere in Hbest. rewrite E' in Hbest.
  destruct (regle_classe es block Hok b Hb) as (H1 & _). apply rang_inj; [done|done|].
  assert (reputationRank (BClassification b) <= reputationRank 3); [|unfold RepClassBlockC2 in *; lia].
  unfold reputationRank, RepClassBlockC2. change (3 =? 3) with true. cbv iota. destruct (_ =? 3); lia.
Qed.

(** ** Arbitration *)

Lemma entropie_question ls : labels_ok ls -> ls <> [] -> admissible false ls -> 0 <= Entropy_q8 (profil_question ls) <= 2048.
Proof.
  intros Hls Hne Ha. destruct (parties_bornes ls Hls Hne Ha) as ((H1 & _ & H3) & _). unfold profil_question, profil_de.
  destruct (_ =? 0); [done|]. cbn [Entropy_q8]. apply entropie_range. unfold charge. destruct (_ =? 0); lia.
Qed.

(** Eighths of octets are exact in binary64. *)
Definition bits_exacts (e : Z) : bool :=
  let x := fdiv (f_of_Z e) (f_of_Z 256) in
  negb (fnan x) && negb (finf x) && negb (fltb x (f_of_Z 0)) && negb (fltb (f_of_Z 8) x)
  && (f_to_uint (fun _ => -1) (2 ^ 32) (fmul x (f_of_Z 256)) =? e) && Bool.eqb (fltb x (f_decimal 42 1)) (e <=? 1075).
Lemma bits_exacts_tous : forallb bits_exacts (seqZ 0 2049) = true.
Proof. vm_compute. reflexivity. Qed.

Lemma f_to_uint_defini h z k x : 0 <= k -> f_to_uint (fun _ => -1) z x = k -> f_to_uint h z x = k.
Proof. unfold f_to_uint. intros Hk. destruct (f_trunc x) as [v|]; [|lia]. destruct (_ && _); [done|lia]. Qed.

Lemma bits_ok e : 0 <= e <= 2048 -> let x := fdiv (f_of_Z e) (f_of_Z 256) in
  (fnan x || finf x || fltb x (f_of_Z 0) || fltb (f_of_Z 8) x) = false /\
  f_to_uint hors (2 ^ 32) (fmul x (f_of_Z 256)) = e /\ fltb x (f_decimal 42 1) = (e <=? 1075).
Proof.
  intros He x. assert (bits_exacts e = true) as H.
  { apply (proj1 (forallb_forall _ _) bits_exacts_tous), list_elem_of_In, elem_of_seqZ. lia. }
  unfold bits_exacts in H. fold x in H. rewrite !andb_true_iff, !negb_true_iff in H. destruct H as (((((-> & ->) & ->) & ->) & H5) & H6).
  split; [done|]. split; [apply f_to_uint_defini; [lia|by apply Z.eqb_eq]|]. by apply Bool.eqb_prop.
Qed.

(** The table of the rules, on the integers of the incident. *)
Definition regle_veto (inc : SLMIncident) (v : string) : string * f64 * string :=
  if negb (validSLMVerdict v) then ("INSUFFICIENT_EVIDENCE", f_of_Z 0, "INVALID_ARBITRATION_VERDICT")%string else
  if (IQType inc =? TypeTXT) && (zlen (ISubdomain inc) <=? 45) && (IEntropyQ8 inc <? 1024) && reservee (ISubdomain inc)
     && (IQueryCount inc <=? 3) && (IUniqueSubdomains inc <=? 2)
  then ("BENIGN_CRYPTO_KEY", f_of_Z 0, "HEURISTIC_PROTOCOL_SHAPE_NOT_CERTIFICATION")%string else
  if (IQueryCount inc <? 3) && (IEntropyQ8 inc <=? 1075)
  then ("INSUFFICIENT_EVIDENCE", f_of_Z 0, "VETO_DETERMINISTE: Echantillon temporel insuffisant (< 3 requetes)")%string else
  (v, f_of_Z 0, "MODEL_PROPOSAL_NOT_PROOF"%string).

(** What the evaluation writes in an incident. *)
Definition incident_ok (inc : SLMIncident) : Prop :=
  0 <= IEntropyQ8 inc <= 2048 /\ IEntropyBits inc = fdiv (f_of_Z (IEntropyQ8 inc)) (f_of_Z 256) /\ forallb permis (ISubdomain inc) = true.

Lemma veto_ok inc v : incident_ok inc -> applyVetoRules hors (Some inc) v = Done (regle_veto inc v).
Proof.
  intros (He & Eb & Hs). unfold applyVetoRules, regle_veto. destruct (validSLMVerdict v); [|done]. cbn [negb].
  destruct (bits_ok (IEntropyQ8 inc) He) as (H1 & H2 & H3). rewrite Eb, H1, H2, H3.
  assert ((if IQType inc =? TypeTXT then isLegitimateProtocolPrefix (ISubdomain inc) (IEntropyQ8 inc) else Done false)
    = Done ((IQType inc =? TypeTXT) && (zlen (ISubdomain inc) <=? 45) && (IEntropyQ8 inc <? 1024) && reservee (ISubdomain inc))) as ->.
  { destruct (IQType inc =? TypeTXT); [|done]. unfold isLegitimateProtocolPrefix. rewrite prefixe_reserve_ok, permis_bas by done. cbn [andb].
    unfold MaxProtocolPrefixLen, MinTunnelEntropyQ8.
    destruct (Z.eqb_spec (zlen (ISubdomain inc)) 0) as [E|]; cbn [orb negb andb].
    { rewrite (nil_length_inv (ISubdomain inc)) by (unfold zlen in E; lia). by rewrite reservee_vide, andb_false_r. }
    rewrite (Z.ltb_antisym (zlen _)), (Z.leb_antisym (IEntropyQ8 inc)).
    by destruct (zlen (ISubdomain inc) <=? 45), (IEntropyQ8 inc <? 1024). }
  rewrite run_bind_done. rewrite !andb_assoc. by repeat destruct (_ && _).
Qed.

Lemma dossier_ok p ls qt now ms : labels_ok ls -> ls <> [] -> admissible false ls -> incident_ok (dossier p ls qt now ms).
Proof.
  intros Hls Hne Ha. destruct ms as [[j u] r]. split; [by apply entropie_question|]. split; [done|]. by destruct (parties_bornes ls Hls Hne Ha) as (_ & _ & _ & ?).
Qed.
End reference.

(** * Theorems *)

(** C15: the decision on every packet is the one read off its question and its
    measures, and the call is total.  A closed pipeline refuses and changes
    nothing; a packet that is not one standard question is refused with the
    parser's error and changes nothing; a question whose name the table denies is
    dropped before any measure; any other question is recorded once by the
    tracker -- one step of the map of episodes, on its parent and its sub-domain --
    and, unless a short TXT selector under a certified parent is exempted, is
    escalated exactly when one of the nine criteria holds, with an incident that
    says what was measured, queued if fewer than 64 wait and refused with an error
    otherwise. *)
Theorem evaluation_exacte `{U : Unicode} (hors : f64 -> Z) (t : Z) (p : Pipeline) (A : gmap (list Z) (list passage)) (raw : list Z) (now : Z) :
  pipeline_ok p -> etat_ok (tracker p) A -> bytes_ok raw -> is_u32 now ->
  exists p' res err, EvaluatePacket hors t p raw now = Done (p', res, err) /\ pipeline_ok p' /\
    (closed p = true -> p' = p /\ res = resultat_zero /\ err = Some ErrPipelineClosed) /\
    (closed p = false -> (forall ls qt, ~ question_lue raw false ls qt) -> p' = p /\ res = resultat_zero /\ exists e, err = Some (ErrDNS e)) /\
    (closed p = false -> forall ls qt, question_lue raw false ls qt -> reponse hors t p A ls qt now (p', res, err)).
Proof.
  intros Hp HA Hraw Hnow. destruct (closed p) eqn:Hc.
  { exists p, resultat_zero, (Some ErrPipelineClosed). unfold EvaluatePacket. by rewrite Hc. }
  destruct (paquet_decide hors t p A raw now Hp HA Hc Hraw Hnow) as [(e & He & Hno)|(ls & qt & [[p' res] err] & Hq & He & Hr)].
  - exists p, resultat_zero, (Some (ErrDNS e)). split; [done|]. split; [done|]. split; [done|]. split; [intros _ _; by eauto|].
    intros _ ls qt Hq. by destruct (Hno ls qt).
  - exists p', res, err. split; [done|]. split; [exact (reponse_ok hors t p A ls qt now _ Hp Hr)|]. split; [done|].
    split; [intros _ Hno; by destruct (Hno ls qt)|]. intros _ ls' qt' Hq'.
    by destruct (question_lue_unique raw false false ls qt ls' qt' Hq Hq') as [-> ->].
Qed.

(** C12: the local denial policy is sovereign on legal names, and nothing else
    drops a packet.  On an open pipeline, a question is dropped exactly when its
    name is a legal host name and some rule of the table that speaks of it --
    itself or a denied sub-tree above it -- denies it, whatever the other rules,
    the shape of the name and the history; the rule is named in the answer, no
    incident is made and neither the tracker nor the queue moves.  A name that
    the strict parser accepts but that is no legal host name (an encoding octet,
    a label with a hyphen at its edge) is therefore never dropped. *)
Theorem refus_souverain `{U : Unicode} (hors : f64 -> Z) (t : Z) (p : Pipeline) (raw : list Z) (ls : list (list Z)) (qt now : Z) :
  pipeline_ok p -> closed p = false -> bytes_ok raw -> is_u32 now -> question_lue raw false ls qt ->
  exists p' res err es block, EvaluatePacket hors t p raw now = Done (p', res, err) /\ rep p = Some (table_de es block) /\
    (Decision res = DecisionFastDrop <-> validReputationDomain (nom_pointe ls) = true /\
       exists b, b ∈ regles es block /\ couvre (nom_pointe ls) b /\ BClassification b = RepClassBlockC2) /\
    (Decision res = DecisionFastDrop ->
       (exists b, b ∈ regles es block /\ couvre (nom_pointe ls) b /\ BClassification b = RepClassBlockC2 /\ RMatchedDomain res = Domain b) /\
       RIncident res = None /\ tracker p' = tracker p /\ slmQueue p' = slmQueue p).
Proof.
  intros Hp Hc Hraw Hnow Hq. pose proof Hp as (Hr & (A & HA) & _).
  destruct (question_labels raw false ls qt Hq) as (Hls & Hne & Ha & _).
  destruct (avis_bloque (rep p) (nom_pointe ls) Hr (nom_propre ls Hls (proj2 Ha eq_refl))) as (es & block & Erep & Hiff & Hdom).
  destruct (paquet_decide hors t p A raw now Hp HA Hc Hraw Hnow) as [(e & _ & Hno)|(ls' & qt' & r & Hq' & He & Hrep)]; [by destruct (Hno ls qt)|].
  destruct (question_lue_unique raw false false ls qt ls' qt' Hq Hq') as [-> ->]. destruct r as [[p' res] err].
  exists p', res, err, es, block. split; [done|]. split; [done|]. rewrite <- Hiff. unfold reponse in Hrep.
  destruct (Z.eqb_spec (MClassification (avis (rep p) (nom_pointe ls))) RepClassBlockC2) as [E|E].
  - unfold refuse_politique, logEvent in Hrep. specialize (Hdom E). destruct (auditQueue p); [destruct (auditClosed p); [|destruct (_ <? 64)]|]; injection Hrep as -> -> _; done.
  - destruct Hrep as (tr & A0 & n & _ & _ & _ & Hrep). assert (Decision res <> DecisionFastDrop) as Hd; [|split; [by split|done]].
    unfold conclure, resultat_mesure in Hrep. destruct (mesure _ _) as [[j u] k]. destruct (escalade _ _ _ _); [destruct (_ <? 64)|]; by injection Hrep as _ -> _.
Qed.

(** What stands between an arbitrator's answer and the final verdict.  For
    every incident an evaluation produces, whatever the answer, the rules return
    the verdict of the integer table: an unknown word and a sample that is both
    short and of low entropy give an insufficient evidence, the shape of a
    reserved TXT selector at low volume is benign, anything else is the answer
    itself; the measures are never refused as invalid, the confidence is zero, and
    a confirmed tunnel -- the only verdict that recommends a block -- is never
    reached unless it was proposed. *)
Theorem veto_exact `{U : Unicode} (hors : f64 -> Z) (t : Z) (p p' : Pipeline) (raw : list Z) (now : Z) (res : EvaluationResult)
    (err : option erreur_pipeline) (inc : SLMIncident) (v : string) :
  pipeline_ok p -> bytes_ok raw -> is_u32 now -> EvaluatePacket hors t p raw now = Done (p', res, err) -> RIncident res = Some inc ->
  closed p' = false /\
  ApplyDeterministicVeto hors p' (Some inc) v = Done (Some (completer inc (regle_veto inc v).1.1), regle_veto inc v) /\
  (regle_veto inc v).1.2 = f_of_Z 0 /\ (regle_veto inc v).2 <> "INVALID_INCIDENT_METRICS"%string /\
  (RecommendedActionForVerdict (regle_veto inc v).1.1 = "BLOCK_IMMEDIATE"%string ->
     v = "DNS_TUNNEL_CONFIRMED"%string /\ (regle_veto inc v).1.1 = v /\ (3 <= IQueryCount inc \/ 1076 <= IEntropyQ8 inc)).
Proof.
  intros Hp Hraw Hnow He Hi. assert (closed p = false) as Hc.
  { destruct (closed p) eqn:Hc; [|done]. unfold EvaluatePacket in He. rewrite Hc in He. injection He as _ <- _. done. }
  pose proof Hp as (_ & (A & HA) & _).
  destruct (paquet_decide hors t p A raw now Hp HA Hc Hraw Hnow) as [(e & He' & _)|(ls & qt & [[p1 res1] err1] & Hq & He' & Hrep)];
    rewrite He in He'; injection He' as -> -> ->; [done|]. destruct (question_labels raw false ls qt Hq) as (Hls & Hne & Ha & _).
  assert (incident_ok inc /\ closed p1 = false) as [Hinc Hc'].
  { unfold reponse in Hrep. destruct (_ =? _).
    - unfold refuse_politique in Hrep. destruct (logEvent _ _ _ _ _ _). by injection Hrep as _ -> _.
    - destruct Hrep as (tr & A0 & n & _ & _ & _ & Hrep). unfold conclure, resultat_mesure in Hrep. destruct (mesure _ _) as [[j u] k].
      destruct (escalade _ _ _ _); [destruct (_ <? 64)|]; injection Hrep as -> -> _; try done; injection Hi as <-; (split; [exact (dossier_ok p ls qt now (j, u, k) Hls Hne Ha)|done]). }
  split; [done|]. unfold ApplyDeterministicVeto. rewrite Hc', (veto_ok hors inc v Hinc), run_bind_done. unfold regle_veto.
  destruct (validSLMVerdict v) eqn:Ev; cbn [negb]; [|done].
  destruct (_ && (IUniqueSubdomains inc <=? 2)); [done|]. destruct (_ && (IEntropyQ8 inc <=? 1075)) eqn:Eh; [done|].
  split; [done|]. split; [done|]. split; [done|]. cbn [fst snd]. unfold RecommendedActionForVerdict. repeat case_bool_decide; try done.
  intros _. split; [done|]. split; [done|]. apply andb_false_iff in Eh as [Eh|Eh]; zbool; lia.
Qed.

(** * Creation and examples *)

Lemma pipeline_cree `{U : Unicode} o c t p : (exists es block, t = table_de es block /\ table_ok es block) ->
  NewPipeline o c (Some t) = Done (inr p) ->
  pipeline_ok p /\ closed p = false /\ workerStarted p = false /\ en_cours p = None /\ slmQueue p = [] /\ fini p = false /\ auditClosed p = false /\
  slmRejected p = 0 /\ slmAbandoned p = 0 /\ arbitrationErrors p = 0.
Proof.
  intros (es & block & -> & Hok). unfold NewPipeline. rewrite run_bind_done.
  assert (forall q, (forall l, q = Some l -> l = []) ->
    pipeline_ok (Pipe (defauts c) (NewAtomicReputation (Some (table_de es block))) NewTemporalTracker [] false false None false [] q false None 0 0 0 0 0)) as H.
  { intros q Hq. split; [by exists es, block|]. split; [exists ∅; apply etat_initial|]. split; [done|]. intros l Hl. cbn [auditQueue] in Hl. by rewrite (Hq l Hl). }
  destruct o; [destruct (negb _); [done|]|]; intros [= <-]; (split; [apply H|done]); [done|]. destruct (negb _); [by intros l [= <-]|done].
Qed.

#[local] Existing Instance unicode_exemple.

Definition p_exemple : Pipeline :=
  Pipe (defauts (Config "" 0 0 0)) (Some (table_de table_exemple bloc_exemple)) NewTemporalTracker [] false false None false [] None false None 0 0 0 0 0.

Lemma table_exemple_ok : exists es block, Some (table_de table_exemple bloc_exemple) = Some (table_de es block) /\ table_ok es block.
Proof.
  destruct (chargement_decide image_exemple image_exemple_octets image_exemple_court) as (r & Hr & H).
  assert (NewReputationTable image_exemple = Done (inr (table_de table_exemple bloc_exemple))) as E by (vm_compute; reflexivity).
  rewrite Hr in E. injection E as ->. destruct H as (es & block & _ & Hok & _ & Ht). exists es, block. split; [by rewrite Ht|done].
Qed.
Lemma p_exemple_ok : pipeline_ok p_exemple.
Proof.
  split; [exact table_exemple_ok|]. split; [exists ∅; exact etat_initial|]. split; [cbn [slmQueue p_exemple]; rewrite zlen_nil; lia|].
  intros q Hq. discriminate Hq.
Qed.

(** One standard question. *)
Definition paquet (noms : list string) (qt : Z) : list Z :=
  [0; 7; 1; 0; 0; 1; 0; 0; 0; 0; 0; 0] ++ nom_filaire (octets <$> noms) ++ [0; qt; 0; 1].
Definition paquet_refuse : list Z := paquet ["WWW"; "evil"; "org"] 1.
Definition paquet_evasion : list Z := paquet ["="; "evil"; "org"] 1.
Definition paquet_dense : list Z := paquet ["0123456789abcdef0123"; "exemple"; "com"] 16.

Lemma paquets_octets : bytes_ok paquet_refuse /\ bytes_ok paquet_evasion /\ bytes_ok paquet_dense.
Proof. split; [|split]; apply octets_valides_ok; vm_compute; reflexivity. Qed.

(** What is returned, without the state. *)
Definition resume (r : run (Pipeline * EvaluationResult * option erreur_pipeline)) : option (EvaluationResult * option erreur_pipeline) :=
  match r with Done (_, res, err) => Some (res, err) | _ => None end.

(** An encoding octet hides a denied sub-tree from the policy. *)
Lemma evasion_encodage :
  (Decision ∘ fst <$> resume (EvaluatePacket (fun _ => 0) 0 p_exemple paquet_refuse 1000),
   Decision ∘ fst <$> resume (EvaluatePacket (fun _ => 0) 0 p_exemple paquet_evasion 1000)) = (Some DecisionFastDrop, Some DecisionFastPass).
Proof. vm_compute. reflexivity. Qed.

Lemma nom_refuse : nom_en paquet_refuse true 12 (octets <$> ["WWW"; "evil"; "org"]%string) 26.
Proof. do 3 (eapply nom_label; [by vm_compute|by vm_compute|by vm_compute|]). by apply (nom_fin _ _ 25). Qed.

Lemma question_refuse : question_lue paquet_refuse false (octets <$> ["WWW"; "evil"; "org"]%string) 1.
Proof.
  split; [by vm_compute|]. split; [by vm_compute|]. split; [by exists 256|]. exists 26.
  split; [apply nom_refuse|]. by split_and!.
Qed.

Lemma evaluation_exacte_witness : exists p' res err, EvaluatePacket (fun _ => 0) 0 p_exemple paquet_refuse 1000 = Done (p', res, err) /\
  reponse (fun _ => 0) 0 p_exemple ∅ (octets <$> ["WWW"; "evil"; "org"]%string) 1 1000 (p', res, err).
Proof.
  destruct (evaluation_exacte (fun _ => 0) 0 p_exemple ∅ paquet_refuse 1000 p_exemple_ok etat_initial (proj1 paquets_octets))
    as (p' & res & err & He & _ & _ & _ & Hr); [split; [discriminate|reflexivity]|].
  exists p', res, err. split; [exact He|]. exact (Hr eq_refl _ _ question_refuse).
Defined.

Lemma date_exemple : is_u32 1000.
Proof. split; [discriminate|reflexivity]. Qed.

Lemma refus_souverain_witness : exists p' res err, EvaluatePacket (fun _ => 0) 0 p_exemple paquet_refuse 1000 = Done (p', res, err) /\
  Decision res = DecisionFastDrop /\ slmQueue p' = [].
Proof.
  destruct (refus_souverain (fun _ => 0) 0 p_exemple paquet_refuse _ 1 1000 p_exemple_ok eq_refl (proj1 paquets_octets) date_exemple question_refuse)
    as (p' & res & err & es & block & He & _ & _ & Hd).
  exists p', res, err. split; [exact He|].
  assert (H : Decision ∘ fst <$> resume (EvaluatePacket (fun _ => 0) 0 p_exemple paquet_refuse 1000) = Some DecisionFastDrop) by (vm_compute; reflexivity).
  rewrite He in H. injection H as H. split; [exact H|]. exact (proj2 (proj2 (proj2 (Hd H)))).
Defined.

(** A dense TXT name is escalated; at its first query a confirmed tunnel is an insufficient evidence. *)
Lemma veto_exact_witness : exists p' res err inc, EvaluatePacket (fun _ => 0) 0 p_exemple paquet_dense 1000 = Done (p', res, err) /\
  RIncident res = Some inc /\ SuspectedIndicator inc = "HEX_BASE64_PAYLOAD_DENSE"%string /\
  ApplyDeterministicVeto (fun _ => 0) p' (Some inc) "DNS_TUNNEL_CONFIRMED"
    = Done (Some (completer inc (regle_veto inc "DNS_TUNNEL_CONFIRMED").1.1), regle_veto inc "DNS_TUNNEL_CONFIRMED").
Proof.
  destruct (evaluation_totale (fun _ => 0) 0 p_exemple paquet_dense 1000 p_exemple_ok (proj2 (proj2 paquets_octets)) date_exemple)
    as (p' & res & err & He & _).
  assert (H : SuspectedIndicator <$> (resume (EvaluatePacket (fun _ => 0) 0 p_exemple paquet_dense 1000) ≫= RIncident ∘ fst)
    = Some "HEX_BASE64_PAYLOAD_DENSE"%string) by (vm_compute; reflexivity).
  rewrite He in H. cbn [resume mbind option_bind compose fst] in H. destruct (RIncident res) as [inc|] eqn:Hi; [|discriminate H]. injection H as H.
  destruct (veto_exact (fun _ => 0) 0 p_exemple p' paquet_dense 1000 res err inc "DNS_TUNNEL_CONFIRMED" p_exemple_ok (proj2 (proj2 paquets_octets)) date_exemple He Hi)
    as (_ & Hv & _).
  exists p', res, err, inc. split; [exact He|]. split; [exact Hi|]. split; [exact H|exact Hv].
Defined.

(** The default policy compiles, loads and makes a pipeline. *)
Lemma politique_par_defaut : match NewPipeline None (Config "" 0 0 0) None with Done (inr p) => slmQueue p = [] | _ => False end.
Proof. vm_compute. reflexivity. Qed.
