(* ===== verification/Arbitrage.v ===== *)
(** The life of a pipeline (src/pipeline.go, from StartArbitratorWorker to Close):
    evaluations, the arbitration worker, the audit writer and the three phases of
    [Close] as an interleaving of atomic steps -- what each does under one lock or
    with one channel operation.  The theorems: no escalated incident is lost,
    duplicated or reordered, a verdict never says more than a valid answer, and
    closing terminates. *)
From stdpp Require Import gmap list_numbers.
From S2P Require Import Prelude Fnv DnsName Grammaire Lexique Entropie Flottant TableSondee SuiviTemporel Reputation ReputationCompile DnsQuestion Pipeline.
Local Open Scope Z_scope.

(** * The worker *)

Record SLMArbitrationResponse := Reponse {
  AVerdict : string; ConfidenceA : f64; Thought : string; AHumanSummary : string; ARecommendedAction : string
}.

(** [arb] tells whether the arbitrator is not nil. *)
Definition StartArbitratorWorker (p : Pipeline) (arb : bool) : Pipeline :=
  if closed p || workerStarted p || negb arb then p else avec_vie (closed p) true (fini p) (closeErr p) p.

(** One receive of [for inc := range p.slmQueue]. *)
Definition Prendre (p : Pipeline) : option (SLMIncident * Pipeline) :=
  match en_cours p, slmQueue p with
  | None, inc :: q =>
      if workerStarted p
      then Some (inc, avec_file q (Some inc) (slmRejected p) (slmAbandoned p) (arbitrationErrors p) p) else None
  | _, _ => None
  end.

Definition reponse_invalide (a : SLMArbitrationResponse) : bool :=
  negb (validSLMVerdict (AVerdict a)) || fnan (ConfidenceA a) || finf (ConfidenceA a)
  || fltb (ConfidenceA a) (f_of_Z 0) || fltb (f_of_Z 1) (ConfidenceA a).

(** The answer retained, or the text of the error.  [err1] and [err2] are what
    [ctx.Err()] returns before and after the call, [r] what the arbitrator returns. *)
Definition retenue (err1 : option string) (r : SLMArbitrationResponse + string) (err2 : option string) : SLMArbitrationResponse + string :=
  match err1 with
  | Some e => inr e
  | None =>
      match r with
      | inr e => inr e
      | inl a => match err2 with
                 | Some e => inr e
                 | None => if reponse_invalide a then inr "invalid arbitration response"%string else inl a
                 end
      end
  end.

(** What [onVerdict] receives. *)
Record rendu := Rendu { o_incident : SLMIncident; o_verdict : string; o_confiance : f64; o_raison : list Z }.

Section traitement.
Context `{U : Unicode} (hors : f64 -> Z).

(** The rest of one turn of the worker, on the incident as the arbitrator left it. *)
Definition traiter (t : Z) (p : Pipeline) (inc : SLMIncident) (r : SLMArbitrationResponse + string) : run (Pipeline * rendu) :=
  '(p, o) ← (match r with
    | inr e =>
        Done (avec_file (slmQueue p) (en_cours p) (slmRejected p) (slmAbandoned p) (u64 (arbitrationErrors p + 1)) p,
              Rendu (completer inc "INSUFFICIENT_EVIDENCE") "INSUFFICIENT_EVIDENCE" (f_of_Z 0) (octets "ARBITRATION_UNAVAILABLE: " ++ octets e))
    | inl a =>
        '(i, (finalVerdict, conf, reason)) ← ApplyDeterministicVeto hors p (Some inc) (AVerdict a);
        let conf := if bool_decide (reason = "MODEL_PROPOSAL_NOT_PROOF"%string) && bool_decide (finalVerdict = AVerdict a)
                    then ConfidenceA a else conf in
        Done (p, Rendu (default inc i) finalVerdict conf (octets reason))
    end);
  let '(p, _) := logEvent t p (IFQDN (o_incident o)) (octets (o_verdict o)) (o_raison o) (o_confiance o) in
  Done (avec_file (slmQueue p) None (slmRejected p) (slmAbandoned p) (arbitrationErrors p) p, o).

(** * Close *)

(** Under the life lock: closed, cancelled, the queue closed. *)
Definition Close_debut (p : Pipeline) : Pipeline := avec_vie true (workerStarted p) (fini p) (closeErr p) p.

(** After the worker: what is left is abandoned, the audit is closed. *)
Definition Close_abandon (p : Pipeline) : Pipeline :=
  let ab := u64 (slmAbandoned p + zlen (slmQueue p)) in
  let p := avec_file [] (en_cours p) (slmRejected p) ab (arbitrationErrors p) p in
  let p := avec_vie (closed p) (workerStarted p) (fini p) (if ab =? 0 then closeErr p else [ErrSLMAbandoned]) p in
  avec_audit (auditQueue p) true (auditErr p) (auditRejected p) (auditErrors p) p.

(** After the audit writer; [sync] are the errors of [Sync] and [Close] on the file. *)
Definition Close_fin (p : Pipeline) (sync : list erreur_pipeline) : Pipeline :=
  avec_vie (closed p) (workerStarted p) true
    (match auditQueue p with
     | None => closeErr p
     | Some _ => closeErr p ++ (match AuditError p with Some e => [e] | None => [] end) ++ sync
     end) p.

(** One turn of the audit writer; [err] is the error of the encoder. *)
Definition ecrire_audit (p : Pipeline) (q : list auditRecord) (err : option erreur_pipeline) : Pipeline :=
  match err with
  | None => avec_audit (Some q) (auditClosed p) (auditErr p) (auditRejected p) (auditErrors p) p
  | Some e => avec_audit (Some q) (auditClosed p) (Some e) (auditRejected p) (u64 (auditErrors p + 1)) p
  end.

(** * Steps *)

Inductive etiquette : Type :=
  | Evaluation (raw : list Z) (now : Z) (res : EvaluationResult) (err : option erreur_pipeline)
  | Demarrage
  | Prise (inc : SLMIncident)
  | VerdictRendu (inc : SLMIncident) (r : SLMArbitrationResponse + string) (o : rendu)
  | Fermeture
  | Abandon (incs : list SLMIncident)
  | Ecriture (r : auditRecord)
  | Fin
  | Recharge.

Inductive pas : Pipeline -> etiquette -> Pipeline -> Prop :=
  | pas_evaluation t p raw now p' res err : bytes_ok raw -> is_u32 now ->
      EvaluatePacket hors t p raw now = Done (p', res, err) -> pas p (Evaluation raw now res err) p'
  | pas_demarrage p arb : pas p Demarrage (StartArbitratorWorker p arb)
  | pas_prise p inc p' : Prendre p = Some (inc, p') -> pas p (Prise inc) p'
  | pas_verdict t p inc inc' err1 r err2 p' o : en_cours p = Some inc -> (err1 <> None -> inc' = inc) ->
      traiter t p inc' (retenue err1 r err2) = Done (p', o) -> pas p (VerdictRendu inc (retenue err1 r err2) o) p'
  | pas_fermeture p : closed p = false -> pas p Fermeture (Close_debut p)
  | pas_abandon p : closed p = true -> auditClosed p = false ->
      (workerStarted p = true -> slmQueue p = [] /\ en_cours p = None) -> pas p (Abandon (slmQueue p)) (Close_abandon p)
  | pas_ecriture p r q err : auditQueue p = Some (r :: q) -> pas p (Ecriture r) (ecrire_audit p q err)
  | pas_fin p sync : auditClosed p = true -> default [] (auditQueue p) = [] -> fini p = false -> pas p Fin (Close_fin p sync)
  | pas_recharge p entries ar' err : ReloadFromEntries (rep p) entries = Done (ar', err) -> pas p Recharge (avec_rep ar' p).

(** Histories, oldest first. *)
Inductive histoire (p0 : Pipeline) : list etiquette -> Pipeline -> Prop :=
  | histoire_vide : histoire p0 [] p0
  | histoire_pas tr p e p' : histoire p0 tr p -> pas p e p' -> histoire p0 (tr ++ [e]) p'.

(** What a history says. *)
Definition deposes (tr : list etiquette) : list SLMIncident :=
  omap (fun e => match e with Evaluation _ _ res _ => if ArbitrationQueued res then RIncident res else None | _ => None end) tr.
Definition refuses (tr : list etiquette) : list SLMIncident :=
  omap (fun e => match e with Evaluation _ _ res _ => if ArbitrationQueued res then None else RIncident res | _ => None end) tr.
Definition rendus (tr : list etiquette) : list SLMIncident :=
  omap (fun e => match e with VerdictRendu inc _ _ => Some inc | _ => None end) tr.
Definition sans_reponse (tr : list etiquette) : list string :=
  omap (fun e => match e with VerdictRendu _ (inr m) _ => Some m | _ => None end) tr.
Definition abandonnes (tr : list etiquette) : list SLMIncident :=
  concat ((fun e => match e with Abandon incs => incs | _ => [] end) <$> tr).
End traitement.

(** * Effect of each step on the queue *)

(** The fields that the evaluation and the audit leave alone. *)
Definition cadre (p p' : Pipeline) : Prop :=
  cfg p' = cfg p /\ rep p' = rep p /\ closed p' = closed p /\ workerStarted p' = workerStarted p /\ en_cours p' = en_cours p /\ fini p' = fini p /\
  auditClosed p' = auditClosed p /\ slmAbandoned p' = slmAbandoned p /\ arbitrationErrors p' = arbitrationErrors p.

Lemma logEvent_cadre t p d a r c : cadre p (logEvent t p d a r c).1 /\ slmQueue (logEvent t p d a r c).1 = slmQueue p /\
  slmRejected (logEvent t p d a r c).1 = slmRejected p /\ tracker (logEvent t p d a r c).1 = tracker p.
Proof. unfold logEvent. by destruct (auditQueue p); [destruct (auditClosed p) eqn:E; [|destruct (_ <? 64)]|]. Qed.

Definition depose (res : EvaluationResult) : list SLMIncident := option_list (if ArbitrationQueued res then RIncident res else None).
Definition refuse (res : EvaluationResult) : list SLMIncident := option_list (if ArbitrationQueued res then None else RIncident res).

Section etapes.
Context `{U : Unicode} (hors : f64 -> Z).

Lemma evaluation_effet t p raw now p' res err : pipeline_ok p -> bytes_ok raw -> is_u32 now ->
  EvaluatePacket hors t p raw now = Done (p', res, err) ->
  pipeline_ok p' /\ cadre p p' /\ slmQueue p' = slmQueue p ++ depose res /\
  (slmRejected p' = if zlen (refuse res) =? 0 then slmRejected p else u64 (slmRejected p + zlen (refuse res))) /\
  (closed p = true -> slmQueue p' = slmQueue p).
Proof.
  intros Hp Hraw Hnow He. assert (pipeline_ok p') as Hp'.
  { destruct (evaluation_totale hors t p raw now Hp Hraw Hnow) as (p1 & r1 & e1 & He1 & Hp1). rewrite He in He1. by injection He1 as -> _ _. }
  split; [done|]. destruct (closed p) eqn:Hc.
  { unfold EvaluatePacket in He. rewrite Hc in He. injection He as <- <- _. unfold depose. cbn. by rewrite app_nil_r. }
  pose proof Hp as (_ & (A & HA) & _).
  destruct (paquet_decide hors t p A raw now Hp HA Hc Hraw Hnow) as [(e & He' & _)|(ls & qt & [[p1 res1] err1] & Hq & He' & Hrep)];
    rewrite He in He'; injection He' as -> -> ->.
  { unfold depose. cbn. by rewrite app_nil_r. }
  unfold reponse in Hrep. destruct (_ =? _).
  - unfold refuse_politique in Hrep. destruct (logEvent_cadre t p (MatchedDomain (avis (rep p) (nom_pointe ls))) (octets "DROP_REPUTATION_POLICY")
      (MatchedDomain (avis (rep p) (nom_pointe ls))) (f_of_Z 0)) as (H1 & H2 & H3 & _).
    destruct (logEvent _ _ _ _ _ _) as [p2 e2]. injection Hrep as -> -> _. cbn [fst] in *. unfold depose, refuse. cbn.
    by rewrite app_nil_r.
  - destruct Hrep as (tr & A0 & n & _ & _ & _ & Hrep). unfold conclure, resultat_mesure in Hrep. destruct (mesure _ _) as [[j u] k].
    destruct (escalade _ _ _ _); [destruct (_ <? 64)|]; injection Hrep as -> -> _; unfold depose, refuse; cbn; rewrite ?app_nil_r; by (split; [split_and!|]).
Qed.

(** What one turn leaves, up to the count of failures. *)
Definition rendu_ok (p p' : Pipeline) : Prop :=
  (pipeline_ok p -> pipeline_ok p') /\
  (closed p' = closed p /\ workerStarted p' = workerStarted p /\ fini p' = fini p /\ auditClosed p' = auditClosed p) /\
  (slmQueue p' = slmQueue p /\ en_cours p' = None /\ slmRejected p' = slmRejected p /\ slmAbandoned p' = slmAbandoned p) /\
  zlen (default [] (auditQueue p')) <= zlen (default [] (auditQueue p)) + 1 /\
  (auditClosed p = true -> auditQueue p' = auditQueue p).

Lemma journal_ok t p d a r c :
  let q := (logEvent t p d a r c).1 in
  rendu_ok p (avec_file (slmQueue q) None (slmRejected q) (slmAbandoned q) (arbitrationErrors q) q) /\ arbitrationErrors q = arbitrationErrors p.
Proof.
  pose proof (logEvent_cadre t p d a r c) as ((_ & _ & C1 & C2 & _ & C3 & C4 & C5 & C6) & C7 & C8 & _).
  pose proof (logEvent_ok t p d a r c) as Hok. cbv zeta. set (q := (logEvent t p d a r c).1) in *.
  assert (zlen (default [] (auditQueue q)) <= zlen (default [] (auditQueue p)) + 1 /\ (auditClosed p = true -> auditQueue q = auditQueue p)) as [Hz Hq].
  { unfold q, logEvent. destruct (auditQueue p) as [l|] eqn:Eq; [destruct (auditClosed p) eqn:Ec; [|destruct (_ <? 64)]|]; cbn [fst auditQueue avec_audit];
      rewrite ?Eq; cbn [default from_option id]; rewrite ?zlen_app, ?zlen_cons, ?zlen_nil; (split; [lia|done]). }
  split; [|done]. unfold rendu_ok. cbn. rewrite C1, C2, C3, C4, C5, C7, C8. split_and!; try done.
  intros Hp. destruct (Hok Hp) as (P1 & P2 & P3 & P4). rewrite C7 in P3. by split_and!.
Qed.

Lemma veto_total inc v : exists x, applyVetoRules hors (Some inc) v = Done x.
Proof.
  unfold applyVetoRules. destruct (negb _); [by eexists|]. destruct (_ || fltb (f_of_Z 8) _); [by eexists|].
  unfold isLegitimateProtocolPrefix. rewrite prefixe_reserve_ok.
  destruct (IQType inc =? TypeTXT); [destruct (_ || (MinTunnelEntropyQ8 <=? _))|]; rewrite run_bind_done; repeat (destruct (_ && _); [by eexists|]); by eexists.
Qed.

(** One turn of the worker always ends. *)
Lemma traiter_ok t p inc r : exists p' o, traiter hors t p inc r = Done (p', o) /\ rendu_ok p p' /\
  arbitrationErrors p' = (match r with inr _ => u64 (arbitrationErrors p + 1) | inl _ => arbitrationErrors p end).
Proof.
  unfold traiter. destruct r as [a|e].
  - assert (exists i x, ApplyDeterministicVeto hors p (Some inc) (AVerdict a) = Done (i, x)) as (i & [[f c] reason] & ->).
    { unfold ApplyDeterministicVeto. destruct (closed p); [by eexists _, _|]. destruct (veto_total inc (AVerdict a)) as [[[f c] reason] ->].
      rewrite run_bind_done. by eexists _, _. }
    rewrite run_bind_done. cbn beta iota zeta. rewrite run_bind_done. cbn [o_incident o_verdict o_raison o_confiance].
    match goal with |- context [logEvent t p ?d ?a ?r ?c] => destruct (journal_ok t p d a r c) as [H1 H2]; destruct (logEvent t p d a r c) as [q e] end.
    by eexists _, _.
  - rewrite run_bind_done. cbn beta iota. cbn [o_incident o_verdict o_raison o_confiance].
    match goal with |- context [logEvent t ?p ?d ?a ?r ?c] => destruct (journal_ok t p d a r c) as [H1 H2]; destruct (logEvent t p d a r c) as [q e'] end.
    by eexists _, _.
Qed.
End etapes.

(** * Invariant of histories *)

Section vie.
Context `{U : Unicode} (hors : f64 -> Z).

Lemma u64_suite a n : u64 (u64 a + n) = u64 (a + n).
Proof. unfold u64. by rewrite Zplus_mod_idemp_l. Qed.

Record vivant (tr : list etiquette) (p : Pipeline) : Prop := {
  v_ok : pipeline_ok p;
  v_ordre : deposes tr = rendus tr ++ option_list (en_cours p) ++ abandonnes tr ++ slmQueue p;
  v_refus : slmRejected p = u64 (zlen (refuses tr));
  v_abandons : slmAbandoned p = u64 (zlen (abandonnes tr));
  v_echecs : arbitrationErrors p = u64 (zlen (sans_reponse tr));
  v_clos : auditClosed p = true -> closed p = true /\ slmQueue p = [] /\ en_cours p = None;
  v_sans : workerStarted p = false -> en_cours p = None /\ rendus tr = [];
  v_avec : workerStarted p = true -> abandonnes tr = [];
  v_avant : auditClosed p = false -> abandonnes tr = [];
  v_fini : fini p = true -> auditClosed p = true
}.

(** Labels that concern no incident, on a state whose queue does not move. *)
Lemma vivant_neutre tr e p p' : vivant tr p -> pipeline_ok p' ->
  deposes [e] = [] -> refuses [e] = [] -> rendus [e] = [] -> sans_reponse [e] = [] -> abandonnes [e] = [] ->
  slmQueue p' = slmQueue p -> en_cours p' = en_cours p -> slmRejected p' = slmRejected p -> slmAbandoned p' = slmAbandoned p ->
  arbitrationErrors p' = arbitrationErrors p -> auditClosed p' = auditClosed p -> (closed p = true -> closed p' = true) ->
  (workerStarted p' = workerStarted p \/ (workerStarted p' = true /\ closed p = false)) -> (fini p' = true -> auditClosed p = true) ->
  vivant (tr ++ [e]) p'.
Proof.
  intros [] Hok E1 E2 E3 E4 E5 F1 F2 F3 F4 F5 F6 F7 F8 F9.
  assert (deposes (tr ++ [e]) = deposes tr /\ refuses (tr ++ [e]) = refuses tr /\ rendus (tr ++ [e]) = rendus tr /\
    sans_reponse (tr ++ [e]) = sans_reponse tr /\ abandonnes (tr ++ [e]) = abandonnes tr) as (G1 & G2 & G3 & G4 & G5).
  { unfold deposes, refuses, rendus, sans_reponse, abandonnes in *. rewrite !omap_app, fmap_app, concat_app, E1, E2, E3, E4.
    rewrite !app_nil_r. split_and!; try done. by rewrite E5, app_nil_r. }
  split; rewrite ?G1, ?G2, ?G3, ?G4, ?G5, ?F1, ?F2, ?F3, ?F4, ?F5, ?F6; try done.
  - intros Ha. destruct (v_clos0 Ha) as (? & ? & ?). split_and!; [by apply F7|done|done].
  - destruct F8 as [->|[-> _]]; [done|done].
  - destruct F8 as [->|[-> Hc]]; [done|]. intros _. destruct (auditClosed p) eqn:Ea; [|by apply v_avant0]. destruct (v_clos0 eq_refl). congruence.
Qed.

Lemma vivant_evaluation tr p t raw now p' res err : vivant tr p -> bytes_ok raw -> is_u32 now ->
  EvaluatePacket hors t p raw now = Done (p', res, err) -> vivant (tr ++ [Evaluation raw now res err]) p'.
Proof.
  intros [] Hraw Hnow He. destruct (evaluation_effet hors t p raw now p' res err v_ok0 Hraw Hnow He)
    as (Hok & (_ & _ & C1 & C2 & C3 & C4 & C5 & C6 & C7) & Hq & Hr & Hc).
  assert (deposes [Evaluation raw now res err] = depose res /\ refuses [Evaluation raw now res err] = refuse res) as [D1 D2].
  { unfold deposes, refuses, depose, refuse. cbn. by destruct (ArbitrationQueued res), (RIncident res). }
  assert (deposes (tr ++ [Evaluation raw now res err]) = deposes tr ++ depose res /\ refuses (tr ++ [Evaluation raw now res err]) = refuses tr ++ refuse res /\
    rendus (tr ++ [Evaluation raw now res err]) = rendus tr /\ sans_reponse (tr ++ [Evaluation raw now res err]) = sans_reponse tr /\
    abandonnes (tr ++ [Evaluation raw now res err]) = abandonnes tr) as (G1 & G2 & G3 & G4 & G5).
  { unfold deposes, refuses, rendus, sans_reponse, abandonnes in *. rewrite !omap_app, fmap_app, concat_app, D1, D2. cbn. by rewrite !app_nil_r. }
  split; rewrite ?G1, ?G2, ?G3, ?G4, ?G5, ?C1, ?C2, ?C3, ?C4, ?C5, ?C6, ?C7; try done.
  - rewrite Hq, v_ordre0, <- !app_assoc. done.
  - rewrite Hr, zlen_app. destruct (Z.eqb_spec (zlen (refuse res)) 0) as [->|]; [by rewrite Z.add_0_r|]. by rewrite v_refus0, u64_suite.
  - intros Ha. destruct (v_clos0 Ha) as (Hcl & Hq0 & He0). split_and!; [done| |done]. by rewrite Hc.
Qed.

Lemma vivant_prise tr p inc p' : vivant tr p -> Prendre p = Some (inc, p') -> vivant (tr ++ [Prise inc]) p'.
Proof.
  intros [] Hp. unfold Prendre in Hp. destruct (en_cours p) eqn:Ee; [done|]. destruct (slmQueue p) as [|i q] eqn:Eq; [done|].
  destruct (workerStarted p) eqn:Ew; [|done]. injection Hp as -> <-.
  assert (auditClosed p = false) as Ea by (destruct (auditClosed p); [by destruct (v_clos0 eq_refl) as (_ & ? & _)|done]).
  split; unfold deposes, refuses, rendus, sans_reponse, abandonnes in *; rewrite ?omap_app, ?fmap_app, ?concat_app; cbn; rewrite ?app_nil_r; try done.
  - destruct v_ok0 as (H1 & H2 & H3 & H4). split_and!; try done. cbn [slmQueue avec_file]. rewrite Eq, zlen_cons in H3. lia.
  - rewrite v_ordre0, (v_avec0 eq_refl). done.
  - rewrite Ea. done.
  - rewrite Ew. done.
  - intros _. by apply v_avec0.
Qed.

Lemma vivant_verdict tr p t inc inc' r p' o : vivant tr p -> en_cours p = Some inc -> traiter hors t p inc' r = Done (p', o) ->
  vivant (tr ++ [VerdictRendu inc r o]) p'.
Proof.
  intros [] Ee Ht. destruct (traiter_ok hors t p inc' r) as (p1 & o1 & Ht' & (H1 & (C1 & C2 & C3 & C4) & (C5 & C6 & C7 & C8) & _) & Hn).
  rewrite Ht in Ht'. injection Ht' as <- <-.
  assert (workerStarted p = true) as Ew by (destruct (workerStarted p); [done|by destruct (v_sans0 eq_refl) as [? _]; congruence]).
  split; unfold deposes, refuses, rendus, sans_reponse, abandonnes in *; rewrite ?omap_app, ?fmap_app, ?concat_app, ?C1, ?C2, ?C3, ?C4, ?C5, ?C6, ?C7, ?C8;
    cbn; rewrite ?app_nil_r; try done; auto.
  - rewrite v_ordre0, Ee, (v_avec0 Ew), <- app_assoc. done.
  - destruct r; rewrite Hn, v_echecs0; cbn; [by rewrite app_nil_r|]. by rewrite zlen_app, u64_suite.
  - intros Ha. destruct (v_clos0 Ha) as (? & ? & ?). congruence.
  - rewrite Ew. done.
Qed.

Lemma vivant_abandon tr p : vivant tr p -> closed p = true -> auditClosed p = false ->
  (workerStarted p = true -> slmQueue p = [] /\ en_cours p = None) -> vivant (tr ++ [Abandon (slmQueue p)]) (Close_abandon p).
Proof.
  intros [] Hc Ha Hw.
  assert (en_cours p = None) as Ee by (destruct (workerStarted p); [by apply Hw|by apply v_sans0]).
  split; unfold deposes, refuses, rendus, sans_reponse, abandonnes, Close_abandon in *; rewrite ?omap_app, ?fmap_app, ?concat_app; cbn; rewrite ?app_nil_r; try done.
  - destruct v_ok0 as (H1 & H2 & H3 & H4). by split_and!.
  - by rewrite v_abandons0, zlen_app, u64_suite.
  - intros Hws. rewrite (v_avec0 Hws). by destruct (Hw Hws) as [-> _].
Qed.

Lemma recharge_ok p entries ar' err : pipeline_ok p -> ReloadFromEntries (rep p) entries = Done (ar', err) -> pipeline_ok (avec_rep ar' p).
Proof.
  intros (H1 & H2 & H3 & H4) Hr. split; [|by split_and!]. cbn [rep avec_rep]. unfold ReloadFromEntries in Hr.
  destruct (CompileReputationSnapshot entries) as [e|snap] eqn:Hc; [by injection Hr as <- _|].
  destruct (compilation_charge entries snap Hc) as (Hn & Hok & _). rewrite Hn, run_bind_done in Hr. injection Hr as <- _. by eexists _, _.
Qed.

Lemma vivant_pas tr p e p' : vivant tr p -> pas hors p e p' -> vivant (tr ++ [e]) p'.
Proof.
  intros Hv Hp. pose proof (v_ok _ _ Hv) as Hok. destruct Hp.
  - by eapply vivant_evaluation.
  - unfold StartArbitratorWorker. destruct (closed p) eqn:Hc; [by apply (vivant_neutre tr _ p p); auto; intros; apply Hv|].
    destruct (workerStarted p || negb arb) eqn:Hb; cbn [orb]; [rewrite Hb; apply (vivant_neutre tr _ p p); auto; apply Hv|].
    rewrite Hb. apply (vivant_neutre tr _ p); auto; cbn; try done; [intros; congruence|apply Hv].
  - by apply vivant_prise with p.
  - by eapply vivant_verdict.
  - apply (vivant_neutre tr _ p); auto; try done. apply Hv.
  - by apply vivant_abandon.
  - destruct Hok as (P1 & P2 & P3 & P4). specialize (P4 _ H). rewrite zlen_cons in P4.
    assert (pipeline_ok (ecrire_audit p q err)) by (destruct err; (split_and!; [done|done|done|]); intros q' [= <-]; lia).
    apply (vivant_neutre tr _ p); auto; destruct err; try done; auto; apply Hv.
  - apply (vivant_neutre tr _ p); auto; try done.
  - apply (vivant_neutre tr _ p); auto; try done; [by eapply recharge_ok|apply Hv].
Qed.

(** A pipeline as [NewPipeline] makes it. *)
Definition neuf (p : Pipeline) : Prop :=
  pipeline_ok p /\ closed p = false /\ workerStarted p = false /\ en_cours p = None /\ slmQueue p = [] /\ fini p = false /\ auditClosed p = false /\
  slmRejected p = 0 /\ slmAbandoned p = 0 /\ arbitrationErrors p = 0.

Lemma vivant_neuf p : neuf p -> vivant [] p.
Proof.
  intros (H1 & H2 & H3 & H4 & H5 & H6 & H7 & H8 & H9 & H10). split; try done; try congruence.
  by rewrite H4, H5.
Qed.

Lemma histoire_vivante p0 tr p : neuf p0 -> histoire hors p0 tr p -> vivant tr p.
Proof. intros H0. induction 1 as [|tr p e p' _ IH Hp]; [by apply vivant_neuf|by eapply vivant_pas]. Qed.
End vie.

(** * What a verdict says *)

Section verdicts.
Context `{U : Unicode} (hors : f64 -> Z).

Lemma retenue_valide err1 r err2 a : retenue err1 r err2 = inl a -> reponse_invalide a = false.
Proof. unfold retenue. destruct err1, r as [b|]; try done; destruct err2; try done. destruct (reponse_invalide b) eqn:E; [done|]. by intros [= <-]. Qed.

(** The final verdict of the rules: unavailable, benign shape or the proposal. *)
Lemma regles_conclusion inc v f c reason : applyVetoRules hors (Some inc) v = Done (f, c, reason) ->
  c = f_of_Z 0 /\ reason <> "PIPELINE_CLOSED"%string /\
  (f = "INSUFFICIENT_EVIDENCE"%string \/ f = "BENIGN_CRYPTO_KEY"%string \/ (f = v /\ validSLMVerdict v = true)).
Proof.
  unfold applyVetoRules. destruct (validSLMVerdict v); cbn [negb]; [|intros [= <- <- <-]; auto].
  destruct (_ || fltb (f_of_Z 8) _); [intros [= <- <- <-]; auto|].
  unfold isLegitimateProtocolPrefix. rewrite prefixe_reserve_ok.
  destruct (IQType inc =? TypeTXT); [destruct (_ || (MinTunnelEntropyQ8 <=? _))|]; rewrite run_bind_done;
    repeat (destruct (_ && _); [intros [= <- <- <-]; auto|]); intros [= <- <- <-]; auto 10.
Qed.

Definition conclusion_ok (r : SLMArbitrationResponse + string) (o : rendu) : Prop :=
  validSLMVerdict (o_verdict o) = true /\
  (o_verdict o = "DNS_TUNNEL_CONFIRMED"%string -> exists a, r = inl a /\ AVerdict a = "DNS_TUNNEL_CONFIRMED"%string) /\
  (o_confiance o = f_of_Z 0 \/ exists a, r = inl a /\ o_confiance o = ConfidenceA a /\ o_verdict o = AVerdict a) /\
  (forall e, r = inr e -> o_verdict o = "INSUFFICIENT_EVIDENCE"%string /\ o_confiance o = f_of_Z 0) /\
  (o_raison o <> octets "PIPELINE_CLOSED" -> RecommendedAction (o_incident o) = RecommendedActionForVerdict (o_verdict o)).

Lemma traiter_conclut t p inc r p' o : (forall a, r = inl a -> reponse_invalide a = false) ->
  traiter hors t p inc r = Done (p', o) -> conclusion_ok r o.
Proof.
  intros Hr. unfold traiter. destruct r as [a|e].
  - specialize (Hr a eq_refl). unfold reponse_invalide in Hr. rewrite !orb_false_iff in Hr. destruct Hr as ((((Hv & _) & _) & _) & _).
    apply negb_false_iff in Hv. unfold ApplyDeterministicVeto. destruct (closed p).
    + rewrite run_bind_done. cbn beta iota zeta. rewrite run_bind_done. destruct (logEvent _ _ _ _ _ _) as [q x]. intros [= _ <-].
      split; [done|]. split; [done|]. split; [by left|]. by split.
    + destruct (veto_total hors inc (AVerdict a)) as [[[f c] reason] Hf]. rewrite Hf, run_bind_done. cbn beta iota. rewrite run_bind_done. cbn beta iota zeta.
      rewrite run_bind_done. destruct (logEvent _ _ _ _ _ _) as [q x]. intros [= _ <-].
      apply regles_conclusion in Hf as (-> & _ & Hf). unfold conclusion_ok. cbn [o_verdict o_confiance o_raison o_incident fmap option_fmap option_map default from_option id].
      split; [by destruct Hf as [->|[->|[-> _]]]|]. split; [intros ->; destruct Hf as [?|[?|[-> _]]]; [done|done|by exists a]|].
      split; [|by split]. destruct (bool_decide_reflect (reason = "MODEL_PROPOSAL_NOT_PROOF"%string)), (bool_decide_reflect (f = AVerdict a)); cbn [andb]; [right; by exists a|by left..].
  - rewrite run_bind_done. destruct (logEvent _ _ _ _ _ _) as [q x]. intros [= _ <-]. split; [done|]. split; [done|]. split; [by left|]. split; [by intros|done].
Qed.

(** Every label of a history is a step from the state its prefix leads to. *)
Lemma histoire_rang p0 tr p : histoire hors p0 tr p -> forall k e, tr !! k = Some e ->
  exists q q', histoire hors p0 (take k tr) q /\ pas hors q e q'.
Proof.
  induction 1 as [|tr p e p' Ht IH Hp]; intros k x Hk; [done|]. destruct (decide (k < length tr)%nat) as [Hlt|Hge].
  - rewrite lookup_app_l in Hk by done. destruct (IH k x Hk) as (q & q' & Hq & Hx). exists q, q'. by rewrite take_app_le by lia.
  - rewrite lookup_app_r in Hk by lia. apply list_lookup_singleton_Some in Hk as [Hk <-]. exists p, p'.
    replace k with (length tr) by lia. by rewrite take_app_length.
Qed.

(** * Closing *)

(** Steps of the worker, of the audit writer and of [Close] itself. *)
Definition interne (e : etiquette) : bool :=
  match e with Prise _ | VerdictRendu _ _ _ | Abandon _ | Ecriture _ | Fin => true | _ => false end.
Definition reste_a_faire (p : Pipeline) : Z :=
  4 * zlen (slmQueue p) + (if en_cours p then 3 else 0) + (if auditClosed p then 0 else 1) + zlen (default [] (auditQueue p)) + (if fini p then 0 else 1).

Lemma reste_nonneg p : 0 <= reste_a_faire p.
Proof.
  unfold reste_a_faire. pose proof (zlen_nonneg (slmQueue p)). pose proof (zlen_nonneg (default [] (auditQueue p))).
  destruct (en_cours p), (auditClosed p), (fini p); lia.
Qed.

Lemma interne_avance p e p' : interne e = true -> pas hors p e p' -> reste_a_faire p' < reste_a_faire p /\ closed p' = closed p.
Proof.
  intros Hi Hp. destruct Hp; try done.
  - unfold Prendre in H. destruct (en_cours p) eqn:Ee; [done|]. destruct (slmQueue p) as [|i q] eqn:Eq; [done|]. destruct (workerStarted p); [|done].
    injection H as _ <-. unfold reste_a_faire. cbn. rewrite Eq, Ee, zlen_cons. split; [lia|done].
  - destruct (traiter_ok hors t p inc' (retenue err1 r err2)) as (p1 & o1 & Ht & (_ & (C1 & C2 & C3 & C4) & (C5 & C6 & _) & Hz & _) & _).
    rewrite Ht in H1. injection H1 as -> ->. unfold reste_a_faire. rewrite C3, C4, C5, C6, H. split; [lia|done].
  - unfold reste_a_faire, Close_abandon. cbn. rewrite H0. change (zlen (@nil SLMIncident)) with 0. pose proof (zlen_nonneg (slmQueue p)). split; [lia|done].
  - unfold reste_a_faire, ecrire_audit. destruct err; cbn; rewrite H; cbn [default from_option id]; rewrite zlen_cons; (split; [lia|done]).
  - unfold reste_a_faire, Close_fin. cbn. rewrite H1. split; [lia|done].
Qed.

Lemma interne_possible tr p : vivant tr p -> closed p = true -> fini p = false -> exists e p', interne e = true /\ pas hors p e p'.
Proof.
  intros [] Hc Hf. destruct (en_cours p) as [inc|] eqn:Ee.
  { destruct (traiter_ok hors 0 p inc (retenue (Some "context canceled"%string) (inr ""%string) None)) as (p' & o & Ht & _).
    eexists _, p'. split; [|eapply (pas_verdict hors 0 p inc inc (Some _) _ None); [exact Ee|done|exact Ht]]. done. }
  destruct (auditClosed p) eqn:Ea.
  - destruct (auditQueue p) as [[|r q]|] eqn:Eq.
    + eexists Fin, _. split; [done|]. apply (pas_fin hors p []); [done|by rewrite Eq|done].
    + eexists _, _. split; [|by apply (pas_ecriture hors p r q None)]. done.
    + eexists Fin, _. split; [done|]. apply (pas_fin hors p []); [done|by rewrite Eq|done].
  - destruct (slmQueue p) as [|inc q] eqn:Eq.
    + eexists _, _. split; [|apply pas_abandon; [done|done|by rewrite Eq]]. done.
    + destruct (workerStarted p) eqn:Ew.
      * eexists (Prise inc), _. split; [done|]. apply pas_prise. unfold Prendre. by rewrite Ee, Eq, Ew.
      * eexists _, _. split; [|apply pas_abandon; [done|done|by rewrite Ew]]. done.
Qed.
End verdicts.

(** * Theorems *)

(** C13: no escalated incident is lost, duplicated, reordered or invented.
    Whatever the interleaving of evaluations, worker, audit writer, policy
    reloads and closing, the incidents accepted by the queue are, in order, those
    already judged, then the one in the worker's hands, then those abandoned, then
    those still queued, at most 64; the counters of refusals, abandonments and
    failed arbitrations are the lengths of what they count; a pipeline with a
    worker abandons nothing, so when [Close] has returned it has judged every
    accepted incident. *)
Theorem dossiers_conserves `{U : Unicode} (hors : f64 -> Z) (p0 : Pipeline) (tr : list etiquette) (p : Pipeline) :
  neuf p0 -> histoire hors p0 tr p ->
  deposes tr = rendus tr ++ option_list (en_cours p) ++ abandonnes tr ++ slmQueue p /\ zlen (slmQueue p) <= 64 /\
  slmRejected p = u64 (zlen (refuses tr)) /\ slmAbandoned p = u64 (zlen (abandonnes tr)) /\
  arbitrationErrors p = u64 (zlen (sans_reponse tr)) /\ (workerStarted p = true -> abandonnes tr = []) /\
  (fini p = true -> deposes tr = rendus tr ++ abandonnes tr /\ (workerStarted p = true -> deposes tr = rendus tr)).
Proof.
  intros H0 Ht. destruct (histoire_vivante hors p0 tr p H0 Ht). split; [done|]. split; [apply v_ok0|]. do 4 (split; [done|]).
  intros Hf. destruct (v_clos0 (v_fini0 Hf)) as (_ & Hq & He). rewrite Hq, He, app_nil_r in v_ordre0. cbn [option_list app] in v_ordre0.
  split; [done|]. intros Hw. by rewrite v_ordre0, (v_avec0 Hw), app_nil_r.
Qed.

(** C32: a rendered verdict rests on an escalated incident and never says more
    than a valid answer.  In every history, the incident judged was accepted by
    the queue before; the verdict is one of the five known words; a confirmed
    tunnel means that the arbitrator answered exactly that, with a confidence in
    [0,1] and before any cancellation; a confidence other than zero is that of an
    answer kept as it is; a failed, cancelled or malformed answer gives an
    insufficient evidence without confidence; the recommended action is that of
    the verdict unless the pipeline was closed in between. *)
Theorem verdict_fonde `{U : Unicode} (hors : f64 -> Z) (p0 : Pipeline) (tr : list etiquette) (p : Pipeline) (k : nat)
    (inc : SLMIncident) (r : SLMArbitrationResponse + string) (o : rendu) :
  neuf p0 -> histoire hors p0 tr p -> tr !! k = Some (VerdictRendu inc r o) ->
  inc ∈ deposes (take k tr) /\ (forall a, r = inl a -> reponse_invalide a = false) /\ conclusion_ok r o.
Proof.
  intros H0 Ht Hk. destruct (histoire_rang hors p0 tr p Ht k _ Hk) as (q & q' & Hq & Hp).
  destruct (histoire_vivante hors p0 (take k tr) q H0 Hq). inversion Hp; subst.
  assert (forall a, retenue err1 r0 err2 = inl a -> reponse_invalide a = false) as Hv by (intros a; apply retenue_valide).
  split; [|split; [exact Hv|by eapply traiter_conclut]]. rewrite v_ordre0. match goal with E : en_cours q = Some inc |- _ => rewrite E end.
  apply elem_of_app. right. apply elem_of_app. left. by apply list_elem_of_singleton.
Qed.

(** C33: closing terminates.  Once [Close] has begun, every step of the worker,
    of the audit writer or of [Close] itself strictly decreases a measure, some
    such step is possible as long as [Close] has not returned, and it can
    therefore always return; meanwhile every packet is refused and moves nothing. *)
Theorem fermeture_aboutit `{U : Unicode} (hors : f64 -> Z) (p0 : Pipeline) (tr : list etiquette) (p : Pipeline) :
  neuf p0 -> histoire hors p0 tr p -> closed p = true ->
  (forall e p', interne e = true -> pas hors p e p' -> 0 <= reste_a_faire p' < reste_a_faire p) /\
  (fini p = false -> exists e p', interne e = true /\ pas hors p e p') /\
  (exists tr' p', histoire hors p0 (tr ++ tr') p' /\ fini p' = true /\ Forall (fun e => interne e = true) tr') /\
  (forall t raw now, EvaluatePacket hors t p raw now = Done (p, resultat_zero, Some ErrPipelineClosed)).
Proof.
  intros H0 Ht Hc. split; [|split; [|split]].
  - intros e p' Hi Hp. split; [apply reste_nonneg|]. by apply (interne_avance hors p e p').
  - intros Hf. eapply interne_possible; [by eapply histoire_vivante|done|done].
  - remember (Z.to_nat (reste_a_faire p)) as n eqn:En. revert tr p Ht Hc En. induction n as [n IH] using lt_wf_ind. intros tr p Ht Hc En.
    destruct (fini p) eqn:Hf; [exists [], p; rewrite app_nil_r; by split_and!|].
    destruct (interne_possible hors tr p (histoire_vivante hors p0 tr p H0 Ht) Hc Hf) as (e & p1 & Hi & Hp).
    destruct (interne_avance hors p e p1 Hi Hp) as [Hlt Hc1]. pose proof (reste_nonneg p1).
    destruct (IH (Z.to_nat (reste_a_faire p1)) ltac:(lia) (tr ++ [e]) p1) as (tr' & p' & Ht' & Hf' & Hall); [by eapply histoire_pas|congruence|done|].
    exists (e :: tr'), p'. rewrite <- app_assoc in Ht'. split; [done|]. split; [done|]. by constructor.
  - intros t raw now. unfold EvaluatePacket. by rewrite Hc.
Qed.

(** ** A concrete life *)

#[local] Existing Instance unicode_exemple.
Notation sans_hors := (fun _ : f64 => 0).

Lemma p_exemple_neuf : neuf p_exemple.
Proof. split; [exact p_exemple_ok|]. by split_and!. Qed.

Definition confirme : SLMArbitrationResponse := Reponse "DNS_TUNNEL_CONFIRMED" (f_decimal 9 1) "" "" "".

(** One dense packet, a worker, one answer. *)
Lemma vie_exemple : exists res inc o p, histoire sans_hors p_exemple
  [Evaluation paquet_dense 1000 res None; Demarrage; Prise inc; VerdictRendu inc (inl confirme) o] p /\ RIncident res = Some inc.
Proof.
  destruct (evaluation_totale sans_hors 0 p_exemple paquet_dense 1000 p_exemple_ok (proj2 (proj2 paquets_octets)) date_exemple) as (p1 & res & err & He & Hok).
  assert ((fun r => (match RIncident r.1 with Some _ => true | None => false end, ArbitrationQueued r.1, match r.2 with Some _ => true | None => false end)) <$> resume (EvaluatePacket sans_hors 0 p_exemple paquet_dense 1000) = Some (true, true, false)) as H
    by (vm_compute; reflexivity).
  rewrite He in H. cbn in H. injection H as Hi Hq Herr. destruct err; [done|]. destruct (RIncident res) as [inc|] eqn:Einc; [|done].
  destruct (evaluation_effet sans_hors 0 p_exemple paquet_dense 1000 p1 res None p_exemple_ok (proj2 (proj2 paquets_octets)) date_exemple He)
    as (_ & (_ & _ & C1 & C2 & C3 & _) & Hqueue & _).
  unfold depose in Hqueue. rewrite Hq, Einc in Hqueue. cbn in C1, C2, C3, Hqueue.
  assert (StartArbitratorWorker p1 true = avec_vie false true (fini p1) (closeErr p1) p1) as Hs by (unfold StartArbitratorWorker; by rewrite C1, C2).
  set (p2 := avec_vie false true (fini p1) (closeErr p1) p1) in *.
  destruct (traiter_ok sans_hors 0 (avec_file [] (Some inc) (slmRejected p2) (slmAbandoned p2) (arbitrationErrors p2) p2) inc (inl confirme)) as (p4 & o & Ht & _).
  exists res, inc, o, p4. split; [|done]. change [?a; ?b; ?c; ?d] with ((([] ++ [a]) ++ [b]) ++ [c] ++ [d]). rewrite (app_assoc _ [_] [_]).
  eapply histoire_pas; [eapply histoire_pas; [eapply histoire_pas; [eapply histoire_pas; [apply histoire_vide|]|]|]|].
  - exact (pas_evaluation sans_hors 0 p_exemple paquet_dense 1000 p1 res None (proj2 (proj2 paquets_octets)) date_exemple He).
  - apply (pas_demarrage sans_hors p1 true).
  - apply pas_prise. rewrite Hs. unfold Prendre. cbn [en_cours slmQueue workerStarted p2 avec_vie]. rewrite C3, Hqueue. done.
  - apply (pas_verdict sans_hors 0 _ inc inc None (inl confirme) None p4 o); [done|done|]. exact Ht.
Qed.

Lemma dossiers_conserves_witness : exists res inc o p,
  histoire sans_hors p_exemple [Evaluation paquet_dense 1000 res None; Demarrage; Prise inc; VerdictRendu inc (inl confirme) o] p /\
  zlen (slmQueue p) <= 64 /\ slmRejected p = u64 (zlen (refuses [Evaluation paquet_dense 1000 res None; Demarrage; Prise inc; VerdictRendu inc (inl confirme) o])).
Proof.
  destruct vie_exemple as (res & inc & o & p & Ht & _). exists res, inc, o, p. split; [exact Ht|].
  destruct (dossiers_conserves sans_hors p_exemple _ p p_exemple_neuf Ht) as (_ & H1 & H2 & _). split; [exact H1|exact H2].
Defined.

Lemma verdict_fonde_witness : exists res inc o p,
  histoire sans_hors p_exemple [Evaluation paquet_dense 1000 res None; Demarrage; Prise inc; VerdictRendu inc (inl confirme) o] p /\
  RIncident res = Some inc /\ conclusion_ok (inl confirme) o.
Proof.
  destruct vie_exemple as (res & inc & o & p & Ht & Hi). exists res, inc, o, p. split; [exact Ht|]. split; [exact Hi|].
  exact (proj2 (proj2 (verdict_fonde sans_hors p_exemple _ p 3 inc (inl confirme) o p_exemple_neuf Ht eq_refl))).
Defined.

Lemma fermeture_aboutit_witness : exists tr p, histoire sans_hors p_exemple (Fermeture :: tr) p /\ fini p = true.
Proof.
  assert (Ht : histoire sans_hors p_exemple [Fermeture] (Close_debut p_exemple)).
  { exact (histoire_pas sans_hors p_exemple [] p_exemple Fermeture _ (histoire_vide sans_hors p_exemple) (pas_fermeture sans_hors p_exemple eq_refl)). }
  destruct (fermeture_aboutit sans_hors p_exemple [Fermeture] (Close_debut p_exemple) p_exemple_neuf Ht eq_refl) as (_ & _ & (tr & p & Hh & Hf & _) & _).
  exists tr, p. split; [exact Hh|exact Hf].
Defined.
