(* ===== verification/Routeur.v ===== *)
(** The fan-out router (src/router.go): the global channel is emptied by batches
    of 64 events, each event going to the ring of 256 of its subsystem, emptied in
    turn by batches of 64.  One operation is one turn of a loop.  The theorem: the
    router is the abstract machine of bounded queues, hence keeps the order of
    each subsystem and loses no event without counting it. *)
From stdpp Require Import list_numbers.
From S2P Require Import Prelude Channel.
Local Open Scope Z_scope.

Definition subRingSlots : Z := 256.
Definition subRingMask : Z := subRingSlots - 1.
Definition dispatchBatch : Z := 64.
Definition consumeBatch : Z := 64.
Definition routerRingCount : Z := 4.

Record SubRing := Ring { rhead : Z; rtail : Z; rdrops : Z; rslots : list Probe_event_t }.
Definition anneau_vide : SubRing := Ring 0 0 0 (replicate 256 event_zero).

Definition Push (r : SubRing) (ev : Probe_event_t) : run (SubRing * bool) :=
  let head := rhead r in
  if subRingSlots <=? u64 (head - rtail r) then Done (Ring (rhead r) (rtail r) (u64 (rdrops r + 1)) (rslots r), false) else
  s ← upd (rslots r) (Z.land head subRingMask) ev;
  Done (Ring (u64 (head + 1)) (rtail r) (rdrops r) s, true).

(** The event read, if any. *)
Definition Pop (r : SubRing) : run (SubRing * option Probe_event_t) :=
  let tail := rtail r in
  if rhead r <=? tail then Done (r, None) else
  e ← idx (rslots r) (Z.land tail subRingMask);
  Done (Ring (rhead r) (u64 (tail + 1)) (rdrops r) (rslots r), Some e).

Definition PopBatch (r : SubRing) (out : list Probe_event_t) (maxEvents : Z) : run (SubRing * list Probe_event_t * Z) :=
  if maxEvents <=? 0 then Done (r, out, 0) else
  let maxEvents := if zlen out <? maxEvents then zlen out else maxEvents in
  let tail := rtail r in
  let available := u64 (rhead r - tail) in
  if available =? 0 then Done (r, out, 0) else
  let n := Z.min (i64 available) maxEvents in
  o ← for_range (R := unit) n out (fun i out =>
        e ← idx (rslots r) (Z.land (u64 (tail + i)) subRingMask);
        out ← upd out i e; Done (inl out));
  let out := match o with inl s => s | inr _ => out end in
  Done (Ring (rhead r) (u64 (tail + n)) (rdrops r) (rslots r), out, n).

Definition Len (r : SubRing) : Z := if rhead r <? rtail r then 0 else u64 (rhead r - rtail r).

Record Router := Routeur { rings : list SubRing; batch : list Probe_event_t; dropsUnknown : Z }.
Definition NewRouter : Router := Routeur (replicate 4 anneau_vide) (replicate 64 event_zero) 0.

Definition ringIndex (subsystem : Z) : Z :=
  if subsystem =? 1 then 0 else if subsystem =? 2 then 1 else if subsystem =? 3 then 2 else if subsystem =? 4 then 3 else -1.

Definition Dispatch (r : Router) (ev : Probe_event_t) : run (Router * bool) :=
  let index := ringIndex (Subsystem ev) in
  if index <? 0 then Done (Routeur (rings r) (batch r) (u64 (dropsUnknown r + 1)), false) else
  ring ← idx (rings r) index;
  '(ring, b) ← Push ring ev;
  rs ← upd (rings r) index ring;
  Done (Routeur rs (batch r) (dropsUnknown r), b).

Definition DispatchBatch (r : Router) (events : list Probe_event_t) : run (Router * Z) :=
  o ← parcourir (R := unit) (fun _ ev '(r, routed) =>
        '(r, b) ← Dispatch r ev;
        Done (inl (r, if (b : bool) then routed + 1 else routed))) 0 events (r, 0);
  Done (match o with inl s => s | inr _ => (r, 0) end).

(** One turn of [DispatchLoop], once the stop channel is found open. *)
Definition tour_aiguillage (r : Router) (inputChannel : Probe_channel_t) : run (Router * Probe_channel_t * Z) :=
  '(ch, out, n) ← C2bt_channel_read_batch (Some inputChannel) (Some (batch r)) dispatchBatch;
  let ch := default inputChannel ch in
  let r := Routeur (rings r) (default [] out) (dropsUnknown r) in
  if n =? 0 then Done (r, ch, 0) else
  evs ← slice (batch r) 0 n;
  '(r, routed) ← DispatchBatch r evs;
  Done (r, ch, routed).

(** One turn of [Consume] on ring [i], with the local buffer: what [Handle] receives. *)
Definition tour_consommateur (r : Router) (i : Z) (local_ : list Probe_event_t)
  : run (Router * list Probe_event_t * list Probe_event_t) :=
  ring ← idx (rings r) i;
  '(ring, local_, n) ← PopBatch ring local_ consumeBatch;
  rs ← upd (rings r) i ring;
  evs ← slice local_ 0 n;
  Done (Routeur rs (batch r) (dropsUnknown r), local_, evs).

(** The four consumers. *)
Inductive voie := Proc | File | Net | MCP.
#[export] Instance voie_eq_dec : EqDecision voie.
Proof. solve_decision. Defined.
Definition rang (v : voie) : Z := match v with Proc => 0 | File => 1 | Net => 2 | MCP => 3 end.

(** The router with its global channel and the local buffer of each consumer. *)
Record systeme := Systeme { routeur : Router; canal : Probe_channel_t; tampons : voie -> list Probe_event_t }.
Definition systeme_neuf : systeme :=
  Systeme NewRouter (Channel (replicate 1024 event_zero) 0 0 0) (fun _ => replicate 64 event_zero).

Definition poser_a {A} (f : voie -> A) (v : voie) (x : A) : voie -> A := fun w => if decide (w = v) then x else f w.

(** An event is published, the dispatcher turns once, a consumer turns once; what
    is observed: the result code, the number routed, the events handed over. *)
Inductive action := Publier (ev : Probe_event_t) | Aiguiller | Consommer (v : voie).
Inductive observation := Code (r : Z) | Routes (n : Z) | Remis (l : list Probe_event_t).

Definition executer1 (a : action) (s : systeme) : run (systeme * observation) :=
  match a with
  | Publier ev =>
      '(ch, r) ← C2bt_channel_write (Some (canal s)) (Some ev);
      Done (Systeme (routeur s) (default (canal s) ch) (tampons s), Code r)
  | Aiguiller =>
      '(r, ch, n) ← tour_aiguillage (routeur s) (canal s);
      Done (Systeme r ch (tampons s), Routes n)
  | Consommer v =>
      '(r, t, l) ← tour_consommateur (routeur s) (rang v) (tampons s v);
      Done (Systeme r (canal s) (poser_a (tampons s) v t), Remis l)
  end.

Fixpoint executer (l : list action) (s : systeme) : run (systeme * list observation) :=
  match l with
  | [] => Done (s, [])
  | a :: l => '(s, o) ← executer1 a s; '(s, os) ← executer l s; Done (s, o :: os)
  end.

(** * The abstract machine: bounded queues *)

Definition voie_de (ev : Probe_event_t) : option voie :=
  if Subsystem ev =? 1 then Some Proc else if Subsystem ev =? 2 then Some File else
  if Subsystem ev =? 3 then Some Net else if Subsystem ev =? 4 then Some MCP else None.

(** The global queue, the four queues, the refusals counted; and the journals of
    what was taken from the global queue and of what each consumer received. *)
Record machine := Machine {
  file : list Probe_event_t; files : voie -> list Probe_event_t;
  rejets : voie -> Z; inconnus : Z;
  aiguilles : list Probe_event_t; remis : voie -> list Probe_event_t
}.
Definition machine_neuve : machine := Machine [] (fun _ => []) (fun _ => 0) 0 [] (fun _ => []).

Definition aiguiller1 (m : machine) (ev : Probe_event_t) : machine * bool :=
  let j := aiguilles m ++ [ev] in
  match voie_de ev with
  | None => (Machine (file m) (files m) (rejets m) (inconnus m + 1) j (remis m), false)
  | Some v =>
      if zlen (files m v) <? 256
      then (Machine (file m) (poser_a (files m) v (files m v ++ [ev])) (rejets m) (inconnus m) j (remis m), true)
      else (Machine (file m) (files m) (poser_a (rejets m) v (rejets m v + 1)) (inconnus m) j (remis m), false)
  end.

Fixpoint aiguiller (m : machine) (l : list Probe_event_t) : machine * Z :=
  match l with
  | [] => (m, 0)
  | ev :: l => let '(m, b) := aiguiller1 m ev in let '(m, n) := aiguiller m l in (m, (if b : bool then 1 else 0) + n)
  end.

Definition specifier1 (a : action) (m : machine) : machine * observation :=
  match a with
  | Publier ev => let '(q, r) := ecrire (file m) ev in (Machine q (files m) (rejets m) (inconnus m) (aiguilles m) (remis m), Code r)
  | Aiguiller =>
      let '(m', n) := aiguiller m (take 64 (file m)) in
      (Machine (drop 64 (file m)) (files m') (rejets m') (inconnus m') (aiguilles m') (remis m'), Routes n)
  | Consommer v =>
      let l := take 64 (files m v) in
      (Machine (file m) (poser_a (files m) v (drop 64 (files m v))) (rejets m) (inconnus m) (aiguilles m)
         (poser_a (remis m) v (remis m v ++ l)), Remis l)
  end.

Fixpoint specifier (l : list action) (m : machine) : machine * list observation :=
  match l with
  | [] => (m, [])
  | a :: l => let '(m, o) := specifier1 a m in let '(m, os) := specifier l m in (m, o :: os)
  end.

(** * One ring is a bounded queue *)

Lemma land255 a : Z.land a subRingMask = a mod 256.
Proof. apply (Z.land_ones a 8). lia. Qed.

Definition contient_file (r : SubRing) (q : list Probe_event_t) : Prop :=
  zlen (rslots r) = 256 /\ 0 <= rtail r /\ rhead r = rtail r + zlen q /\ rhead r < 2 ^ 64 /\ zlen q <= 256 /\ is_u64 (rdrops r) /\
  forall k e, q !! k = Some e -> rslots r !! Z.to_nat ((rtail r + Z.of_nat k) mod 256) = Some e.

Lemma file_vide : contient_file anneau_vide [].
Proof. by split_and!. Qed.

Lemma Push_ok r q ev : contient_file r q -> rhead r + 1 < 2 ^ 64 ->
  exists r', Push r ev = Done (r', zlen q <? 256) /\ contient_file r' (if zlen q <? 256 then q ++ [ev] else q) /\
    rhead r' <= rhead r + 1 /\ rdrops r' = (if zlen q <? 256 then rdrops r else u64 (rdrops r + 1)).
Proof.
  intros (Hz & Ht & Hh & Hw & Hl & Hd & Hq) Hn. unfold Push, subRingSlots. pose proof (zlen_nonneg q).
  rewrite u64_id by (unfold is_u64; lia). replace (rhead r - rtail r) with (zlen q) by lia. rewrite (Z.leb_antisym (zlen q) 256).
  destruct (Z.ltb_spec (zlen q) 256) as [Hlt|Hge]; cbn [negb].
  2: { eexists. split; [done|]. split; [|split; [cbn; lia|done]]. split_and!; try done. apply u64_range. }
  rewrite land255. pose proof (Z.mod_pos_bound (rhead r) 256 ltac:(lia)). rewrite upd_ok, run_bind_done by lia.
  eexists. split; [done|]. rewrite u64_id by (unfold is_u64; lia). split; [|split; [cbn; lia|done]].
  unfold contient_file. cbn [rslots rtail rhead rdrops]. rewrite zlen_insert, zlen_app, zlen_cons, (@zlen_nil Probe_event_t). split_and!; try done; try lia.
  intros k e [Hk|[Hk1 Hk2]]%lookup_app_Some.
  - rewrite list_lookup_insert_ne; [by apply Hq|]. apply lookup_lt_Some in Hk. unfold zlen in *. rewrite Hh. intros E.
    apply Z2Nat.inj in E; try (apply Z.mod_pos_bound; lia). divlia.
  - destruct (k - length q)%nat eqn:E; [|done]. injection Hk2 as <-. replace (rtail r + Z.of_nat k) with (rhead r) by (unfold zlen in *; lia).
    apply list_lookup_insert_eq. unfold zlen in Hz. lia.
Qed.

Lemma file_lue r q k e : contient_file r q -> q !! k = Some e -> idx (rslots r) ((rtail r + Z.of_nat k) mod 256) = Done e.
Proof. intros (_ & _ & _ & _ & _ & _ & Hq) Hk. apply idx_lookup; [apply Z.mod_pos_bound; lia|]. by apply Hq. Qed.

(** [n] events leave the queue. *)
Lemma file_avance r q n : contient_file r q -> 0 <= n <= zlen q ->
  contient_file (Ring (rhead r) (u64 (rtail r + n)) (rdrops r) (rslots r)) (drop (Z.to_nat n) q).
Proof.
  intros (Hz & Ht & Hh & Hw & Hl & Hd & Hq) Hn. rewrite u64_id by (unfold is_u64; lia). unfold contient_file. cbn [rslots rtail rhead rdrops].
  assert (zlen (drop (Z.to_nat n) q) = zlen q - n) as -> by (unfold zlen in *; rewrite length_drop; lia).
  split_and!; try done; try lia. intros k e. rewrite lookup_drop. intros Hk. apply Hq in Hk.
  by replace (rtail r + n + Z.of_nat k) with (rtail r + Z.of_nat (Z.to_nat n + k)) by lia.
Qed.

Lemma Pop_ok r q : contient_file r q -> exists r', Pop r = Done (r', head q) /\ contient_file r' (tail q) /\ rhead r' = rhead r /\ rdrops r' = rdrops r.
Proof.
  intros Hc. pose proof Hc as (Hz & Ht & Hh & Hw & Hl & Hd & Hq). unfold Pop.
  destruct q as [|e q]; [rewrite (@zlen_nil Probe_event_t) in Hh|rewrite zlen_cons in Hh; pose proof (zlen_nonneg q)].
  - rewrite (proj2 (Z.leb_le _ _)) by lia. by exists r.
  - rewrite (proj2 (Z.leb_gt _ _)) by lia. rewrite land255. pose proof (file_lue r (e :: q) 0 e Hc eq_refl) as Hi. rewrite Z.add_0_r in Hi.
    rewrite Hi, run_bind_done. eexists. split; [done|]. split; [|done]. apply (file_avance r (e :: q) 1 Hc). rewrite zlen_cons. lia.
Qed.

Lemma PopBatch_ok r q out max : contient_file r q -> 0 < max ->
  let n := Z.min (zlen q) (Z.min max (zlen out)) in
  exists r', PopBatch r out max = Done (r', take (Z.to_nat n) q ++ drop (Z.to_nat n) out, n) /\ contient_file r' (drop (Z.to_nat n) q) /\
    rhead r' = rhead r /\ rdrops r' = rdrops r.
Proof.
  intros Hc Hm. pose proof Hc as (Hz & Ht & Hh & Hw & Hl & Hd & Hq). unfold PopBatch. pose proof (zlen_nonneg q). pose proof (zlen_nonneg out).
  rewrite (proj2 (Z.leb_gt _ _)) by lia. cbv zeta. set (m := if zlen out <? max then zlen out else max).
  assert (m = Z.min max (zlen out)) as Em by (unfold m; destruct (Z.ltb_spec (zlen out) max); lia). rewrite <- Em.
  rewrite u64_id by (unfold is_u64; lia). replace (rhead r - rtail r) with (zlen q) by lia.
  destruct (Z.eqb_spec (zlen q) 0) as [E|E].
  { rewrite E. replace (Z.min 0 m) with 0 by lia. assert (q = []) as -> by (apply nil_length_inv; unfold zlen in E; lia). by exists r. }
  rewrite i64_id by (unfold is_i64; lia). set (n := Z.min (zlen q) m). assert (0 <= n <= zlen q /\ n <= zlen out) as [Hn Hno] by lia.
  match goal with |- exists r', ?x ≫= _ = _ /\ _ => assert (x = Done (inl (take (Z.to_nat n) q ++ drop (Z.to_nat n) out))) as -> end.
  { match goal with |- ?x = Done ?y => cut (wp x (fun o => o = y)); [by intros (? & -> & ->)%wp_exists|] end.
    apply (wp_for_range (fun k o => o = take (Z.to_nat k) q ++ drop (Z.to_nat k) out)); [lia|by destruct q| |by intros o ->].
    intros k o Hk ->. destruct (lookup_lt_is_Some_2 q (Z.to_nat k)) as [e He]; [unfold zlen in *; lia|].
    pose proof (file_lue r q (Z.to_nat k) e Hc He) as Hi. rewrite Z2Nat.id in Hi by lia.
    rewrite u64_id by (unfold is_u64; lia). rewrite land255, Hi, run_bind_done.
    destruct (lookup_lt_is_Some_2 out (Z.to_nat k)) as [x Hx]; [unfold zlen in *; lia|].
    rewrite (drop_S _ _ _ Hx), upd_mid, run_bind_done by (unfold zlen in *; rewrite length_take; lia).
    apply wp_done. replace (Z.to_nat (k + 1)) with (S (Z.to_nat k)) by lia. by rewrite (take_S_r _ _ _ He), <- app_assoc. }
  rewrite run_bind_done. eexists. split; [done|]. split; [|done]. by apply file_avance.
Qed.

(** * The router simulates the machine *)

(** [N] bounds every counter. *)
Definition anneaux (N : Z) (r : Router) (m : machine) : Prop :=
  zlen (rings r) = 4 /\ dropsUnknown r = inconnus m /\ 0 <= inconnus m <= N /\
  forall v, exists a, rings r !! Z.to_nat (rang v) = Some a /\ contient_file a (files m v) /\ rhead a <= N /\
    rdrops a = rejets m v /\ 0 <= rejets m v <= N.

Lemma rang_borne v : 0 <= rang v < 4.
Proof. destruct v; cbn; lia. Qed.

Lemma voie_rang_inj v w : rang v = rang w -> v = w.
Proof. by destruct v, w. Qed.

Lemma ringIndex_voie ev : ringIndex (Subsystem ev) = from_option rang (-1) (voie_de ev).
Proof. unfold ringIndex, voie_de. by repeat case_match. Qed.

Lemma poser_a_eq {A} (f : voie -> A) v x : poser_a f v x v = x.
Proof. unfold poser_a. by rewrite decide_True. Qed.

Lemma poser_a_ne {A} (f : voie -> A) v w x : w <> v -> poser_a f v x w = f w.
Proof. intros. unfold poser_a. by rewrite decide_False. Qed.

Lemma anneaux_mono N M r m : anneaux N r m -> N <= M -> anneaux M r m.
Proof.
  intros (H1 & H2 & H3 & H4) HM. split_and!; try done; try lia. intros v. destruct (H4 v) as (a & ? & ? & ? & ? & ?).
  exists a. split_and!; try done; lia.
Qed.

(** One ring changes. *)
Lemma anneaux_pose N r m v a b d f' j' x' : anneaux N r m -> d = inconnus m ->
  contient_file a (f' v) -> rhead a <= N -> rdrops a = x' v -> 0 <= x' v <= N ->
  (forall w, w <> v -> f' w = files m w /\ x' w = rejets m w) ->
  anneaux N (Routeur (<[Z.to_nat (rang v) := a]> (rings r)) b (dropsUnknown r)) (Machine (file m) f' x' d j' (remis m)).
Proof.
  intros (H1 & H2 & H3 & H4) -> Ha Hh Hd Hx Ho. unfold anneaux. cbn [rings dropsUnknown inconnus files rejets].
  rewrite zlen_insert. split_and!; try done; try lia. intros w. pose proof (rang_borne v). pose proof (rang_borne w).
  destruct (decide (w = v)) as [->|Hw].
  - exists a. split; [apply list_lookup_insert_eq; unfold zlen in H1; lia|done].
  - destruct (H4 w) as (c & Hc). exists c. destruct (Ho w Hw) as [-> ->].
    rewrite list_lookup_insert_ne; [done|]. intros E. apply Z2Nat.inj in E; [|lia..]. by apply Hw, voie_rang_inj.
Qed.

Lemma Dispatch_ok N r m ev : anneaux N r m -> N + 1 < 2 ^ 64 ->
  exists r', Dispatch r ev = Done (r', snd (aiguiller1 m ev)) /\ anneaux (N + 1) r' (fst (aiguiller1 m ev)) /\ batch r' = batch r.
Proof.
  intros Ha HN. pose proof Ha as (H1 & H2 & H3 & H4). unfold Dispatch, aiguiller1. rewrite ringIndex_voie.
  destruct (voie_de ev) as [v|]; cbn [from_option].
  2: { eexists. split; [done|]. split; [|done]. cbn [fst]. rewrite H2, u64_id by (unfold is_u64; lia).
    apply (anneaux_mono N (N + 1)) in Ha as (? & ? & ? & ?); [|lia]. unfold anneaux. cbn [rings dropsUnknown inconnus files rejets].
    split_and!; try done; lia. }
  pose proof (rang_borne v). rewrite (proj2 (Z.ltb_ge _ _)) by lia. destruct (H4 v) as (a & Hl & Hc & Hh & Hd & Hx).
  erewrite idx_lookup by (done || lia). rewrite run_bind_done. destruct (Push_ok a _ ev Hc ltac:(lia)) as (a' & -> & Hc' & Hh' & Hd').
  rewrite run_bind_done, upd_ok, run_bind_done by lia. eexists. split; [by destruct (zlen (files m v) <? 256)|]. split; [|done].
  apply (anneaux_mono N (N + 1)) in Ha; [|lia].
  destruct (zlen (files m v) <? 256); cbn [fst]; (eapply anneaux_pose; [done|done|..]); rewrite ?poser_a_eq; try done; try lia.
  - intros w Hw. by rewrite poser_a_ne.
  - rewrite Hd', Hd. apply u64_id. unfold is_u64. lia.
  - intros w Hw. by rewrite poser_a_ne.
Qed.

Lemma lot_ok l : forall N r m i c, anneaux N r m -> N + zlen l < 2 ^ 64 ->
  exists r', parcourir (R := unit) (fun _ ev '(r, routed) =>
      '(r, b) ← Dispatch r ev; Done (inl (r, if (b : bool) then routed + 1 else routed))) i l (r, c)
    = Done (inl (r', c + snd (aiguiller m l))) /\ anneaux (N + zlen l) r' (fst (aiguiller m l)) /\ batch r' = batch r.
Proof.
  induction l as [|ev l IH]; intros N r m i c Ha HN.
  - exists r. cbn. rewrite !Z.add_0_r. done.
  - rewrite zlen_cons in *. pose proof (zlen_nonneg l). destruct (Dispatch_ok N r m ev Ha ltac:(lia)) as (r1 & E & Ha1 & Hb1).
    cbn [parcourir aiguiller]. rewrite E, !run_bind_done. destruct (aiguiller1 m ev) as [m1 b]. cbn [fst snd] in *.
    destruct (IH (N + 1) r1 m1 (i + 1) (if (b : bool) then c + 1 else c) Ha1 ltac:(lia)) as (r2 & E2 & Ha2 & Hb2).
    rewrite E2. destruct (aiguiller m1 l) as [m2 n]. cbn [fst snd] in *. exists r2. split_and!.
    + do 3 f_equal. destruct b; lia.
    + by replace (N + (1 + zlen l)) with (N + 1 + zlen l) by lia.
    + congruence.
Qed.

Lemma aiguiller_file l : forall m, file (fst (aiguiller m l)) = file m.
Proof.
  induction l as [|ev l IH]; intros m; [done|]. cbn [aiguiller]. destruct (aiguiller1 m ev) as [m1 b] eqn:E.
  specialize (IH m1). destruct (aiguiller m1 l) as [m2 n]. cbn [fst] in *. rewrite IH. clear IH.
  unfold aiguiller1 in E. repeat case_match; by injection E as <- <-.
Qed.

(** The simulation relation. *)
Definition simule (N : Z) (s : systeme) (m : machine) : Prop :=
  tient (canal s) (file m) /\ Head (canal s) <= N /\ zlen (batch (routeur s)) = 64 /\
  (forall v, zlen (tampons s v) = 64) /\ anneaux N (routeur s) m.

Lemma simule_neuf : simule 0 systeme_neuf machine_neuve.
Proof.
  unfold simule, anneaux. split_and!; try done.
  intros v. exists anneau_vide. split_and!; try done; by destruct v.
Qed.

Lemma prefixe_lot (q out : list Probe_event_t) : zlen out = 64 ->
  let n := Z.min (zlen q) 64 in take (Z.to_nat n) q = take 64 q /\ drop (Z.to_nat n) q = drop 64 q /\
  slice (take (Z.to_nat n) q ++ drop (Z.to_nat n) out) 0 n = Done (take 64 q) /\ zlen (take (Z.to_nat n) q ++ drop (Z.to_nat n) out) = 64.
Proof.
  intros Ho n. pose proof (zlen_nonneg q). assert (take (Z.to_nat n) q = take 64 q /\ drop (Z.to_nat n) q = drop 64 q) as [E1 E2].
  { destruct (Z.leb_spec (zlen q) 64); [|by replace (Z.to_nat n) with 64%nat by lia].
    unfold zlen in *. rewrite !take_ge, !drop_ge by lia. done. }
  rewrite E1, E2. assert (zlen (take 64 q ++ drop (Z.to_nat n) out) = 64) as E3.
  { unfold zlen in *. rewrite length_app, length_take, length_drop. lia. }
  split_and!; try done. unfold slice. rewrite E3. rewrite !(proj2 (Z.leb_le _ _)) by lia. cbn [andb].
  rewrite drop_0. f_equal. replace (Z.to_nat (n - 0)) with (length (take 64 q)) by (unfold zlen in *; rewrite length_take; lia).
  apply take_app_length.
Qed.

Lemma executer1_ok N a s m : simule N s m -> N + 64 < 2 ^ 64 ->
  exists s', executer1 a s = Done (s', snd (specifier1 a m)) /\ simule (N + 64) s' (fst (specifier1 a m)).
Proof.
  intros (Hc & Hh & Hb & Ht & Ha) HN. destruct a as [ev| |v]; cbn [executer1 specifier1].
  - destruct (proj1 (wp_exists _ _) (write_spec (canal s) (file m) ev Hc ltac:(lia))) as ([ch' r] & -> & c & -> & H1 & -> & H2 & _).
    rewrite run_bind_done. destruct (ecrire (file m) ev) as [q r]. eexists. split; [done|]. cbn [fst snd] in *.
    split_and!; try done; cbn [canal default from_option id]; [lia|]. apply (anneaux_mono N); [done|lia].
  - unfold tour_aiguillage, dispatchBatch.
    destruct (proj1 (wp_exists _ _) (read_batch_spec (canal s) (file m) (batch (routeur s)) 64 Hc ltac:(lia)))
      as ([[ch' out'] n] & -> & c & -> & -> & H1 & H2 & ->).
    rewrite run_bind_done. cbv zeta. cbn [default from_option id rings batch dropsUnknown]. rewrite Hb, Z.min_id, Z.min_comm in *.
    destruct (prefixe_lot (file m) (batch (routeur s)) Hb) as (E1 & E2 & E3 & E4).
    set (r1 := Routeur _ _ _). assert (anneaux N r1 m) as Ha1 by done.
    assert (zlen (take 64 (file m)) <= 64) as Hl by (unfold zlen; rewrite length_take; lia).
    destruct (Z.eqb_spec (Z.min (zlen (file m)) 64) 0) as [E|E].
    + assert (file m = []) as Ef by (apply nil_length_inv; unfold zlen in *; lia). rewrite run_bind_done.
      replace (aiguiller m (take 64 (file m))) with (m, 0) by (by rewrite Ef). eexists. split; [done|].
      unfold simule. cbn [canal routeur tampons file fst]. split_and!; try done; [by rewrite <- E2|lia|]. by apply (anneaux_mono N); [|lia].
    + rewrite E3, run_bind_done. unfold DispatchBatch.
      destruct (lot_ok (take 64 (file m)) N r1 m 0 0 Ha1 ltac:(lia)) as (r2 & -> & Ha2 & Hb2). rewrite !run_bind_done. cbn iota beta.
      destruct (aiguiller m (take 64 (file m))) as [m' k]. cbn [fst snd] in *. eexists. split; [done|].
      unfold simule. cbn [canal routeur tampons file]. rewrite Hb2. split_and!; try done; [by rewrite <- E2|lia|].
      apply (anneaux_mono (N + 64)); [|lia]. by apply (anneaux_mono _ (N + 64)) in Ha2; [|lia].
  - unfold tour_consommateur, consumeBatch. pose proof Ha as (H1 & H2 & H3 & H4). pose proof (rang_borne v).
    destruct (H4 v) as (a & Hl & Hca & Hha & Hda & Hx). erewrite idx_lookup by (done || lia). rewrite run_bind_done.
    destruct (PopBatch_ok a (files m v) (tampons s v) 64 Hca ltac:(lia)) as (a' & -> & Hca' & Hh' & Hd').
    rewrite Ht, Z.min_id in *. destruct (prefixe_lot (files m v) (tampons s v) (Ht v)) as (E1 & E2 & E3 & E4).
    rewrite run_bind_done, upd_ok, run_bind_done, E3, run_bind_done by lia. eexists. split; [done|].
    unfold simule. cbn [canal routeur tampons file fst batch]. split_and!; try done; [lia| |].
    + intros w. unfold poser_a. by destruct (decide (w = v)).
    + apply (anneaux_mono N); [|lia]. eapply (anneaux_pose _ _ _ _ _ _ _ _ (aiguilles m)); [done|done|..]; rewrite ?poser_a_eq; try done; try lia.
      * rewrite decide_True by done. by rewrite <- E2.
      * change (rdrops a' = rejets m v). congruence.
      * intros w Hw. by rewrite decide_False by done.
Qed.

Lemma routeur_executer_ok l : forall N s m, simule N s m -> N + 64 * zlen l < 2 ^ 64 ->
  exists s', executer l s = Done (s', snd (specifier l m)) /\ simule (N + 64 * zlen l) s' (fst (specifier l m)).
Proof.
  induction l as [|a l IH]; intros N s m Hs HN.
  - exists s. split; [done|]. by replace (N + 64 * zlen (@nil action)) with N by (change (zlen (@nil action)) with 0; lia).
  - rewrite zlen_cons in *. pose proof (zlen_nonneg l). destruct (executer1_ok N a s m Hs ltac:(lia)) as (s1 & E & Hs1).
    cbn [executer specifier]. rewrite E, run_bind_done. destruct (specifier1 a m) as [m1 o]. cbn [fst snd] in *.
    destruct (IH (N + 64) s1 m1 Hs1 ltac:(lia)) as (s2 & -> & Hs2). rewrite run_bind_done. exists s2.
    destruct (specifier l m1) as [m2 os]. split; [done|]. by replace (N + 64 * (1 + zlen l)) with (N + 64 + 64 * zlen l) by lia.
Qed.

(** * The machine loses nothing uncounted *)

(** The events that a sequence of actions publishes and the global queue accepts. *)
Fixpoint publies (l : list action) (os : list observation) : list Probe_event_t :=
  match l, os with
  | Publier ev :: l, Code r :: os => (if r =? 0 then [ev] else []) ++ publies l os
  | _ :: l, _ :: os => publies l os
  | _, _ => []
  end.

Definition pour (o : option voie) (l : list Probe_event_t) : list Probe_event_t := filter (fun ev => voie_de ev = o) l.

(** For each consumer: what it received, then what waits, is a subsequence of what
    was dispatched for it, and only the counted refusals are missing. *)
Definition compte_juste (m : machine) : Prop :=
  zlen (pour None (aiguilles m)) = inconnus m /\
  forall v, (remis m v ++ files m v) `sublist_of` pour (Some v) (aiguilles m) /\
    zlen (pour (Some v) (aiguilles m)) = zlen (remis m v) + zlen (files m v) + rejets m v.

Lemma pour_snoc o l ev : pour o (l ++ [ev]) = pour o l ++ (if decide (voie_de ev = o) then [ev] else []).
Proof. unfold pour. by rewrite filter_app. Qed.

Lemma aiguiller1_juste m ev : compte_juste m ->
  compte_juste (fst (aiguiller1 m ev)) /\ aiguilles (fst (aiguiller1 m ev)) = aiguilles m ++ [ev].
Proof.
  intros [Hi Hv]. unfold aiguiller1.
  assert (forall o : option voie, voie_de ev = o -> forall w, Some w <> o -> pour (Some w) (aiguilles m ++ [ev]) = pour (Some w) (aiguilles m)) as Hne.
  { intros o Eo w Hw. rewrite pour_snoc, Eo. rewrite decide_False by congruence. apply app_nil_r. }
  assert (forall w, voie_de ev = Some w -> pour None (aiguilles m ++ [ev]) = pour None (aiguilles m)) as Hno.
  { intros w Ew. rewrite pour_snoc, Ew. rewrite decide_False by congruence. apply app_nil_r. }
  unfold compte_juste. destruct (voie_de ev) as [v|] eqn:Ev; [destruct (zlen (files m v) <? 256)|]; cbn [fst inconnus aiguilles remis files rejets];
    (split; [|done]); (split; [try by rewrite (Hno v eq_refl)|intros w; destruct (Hv w) as [Hs Hn]]).
  - destruct (decide (w = v)) as [->|Hw]; [|rewrite poser_a_ne, (Hne _ eq_refl) by congruence; done].
    rewrite poser_a_eq, pour_snoc, Ev, decide_True, !zlen_app, app_assoc by done. split; [by apply sublist_app|lia].
  - destruct (decide (w = v)) as [->|Hw]; [|rewrite poser_a_ne, (Hne _ eq_refl) by congruence; done].
    rewrite poser_a_eq, pour_snoc, Ev, decide_True, zlen_app, zlen_cons, (@zlen_nil Probe_event_t) by done. split; [by apply sublist_inserts_r|lia].
  - rewrite pour_snoc, Ev, decide_True, zlen_app, zlen_cons, (@zlen_nil Probe_event_t) by done. lia.
  - by rewrite (Hne _ eq_refl).
Qed.

Lemma aiguiller_juste l : forall m, compte_juste m ->
  compte_juste (fst (aiguiller m l)) /\ aiguilles (fst (aiguiller m l)) = aiguilles m ++ l.
Proof.
  induction l as [|ev l IH]; intros m Hm; [by rewrite app_nil_r|]. cbn [aiguiller]. pose proof (aiguiller1_juste m ev Hm) as [H1 E1].
  destruct (aiguiller1 m ev) as [m1 b]. cbn [fst] in *. specialize (IH m1 H1) as [H2 E2]. destruct (aiguiller m1 l) as [m2 n]. cbn [fst] in *.
  split; [done|]. by rewrite E2, E1, <- app_assoc.
Qed.

Lemma specifier1_juste a m : compte_juste m ->
  compte_juste (fst (specifier1 a m)) /\
  aiguilles (fst (specifier1 a m)) ++ file (fst (specifier1 a m)) = aiguilles m ++ file m ++ publies [a] [snd (specifier1 a m)].
Proof.
  intros Hm. destruct a as [ev| |v]; cbn [specifier1].
  - unfold ecrire. destruct (zlen (file m) <? 1024); (split; [done|]); cbn; by rewrite ?app_nil_r.
  - destruct (aiguiller_juste (take 64 (file m)) m Hm) as [H1 E1]. destruct (aiguiller m _) as [m' n]. cbn [fst snd aiguilles file publies] in *.
    split; [exact H1|]. by rewrite E1, app_nil_r, <- app_assoc, take_drop.
  - destruct Hm as [Hi Hv]. cbn [fst snd aiguilles file publies]. rewrite app_nil_r. split; [|done]. split; [done|]. cbn [remis files rejets].
    intros w. destruct (Hv w) as [Hs Hn]. unfold poser_a. destruct (decide (w = v)) as [->|]; [|done].
    rewrite <- app_assoc, take_drop. split; [done|]. rewrite zlen_app. rewrite <- (take_drop 64 (files m v)) in Hn at 1. rewrite zlen_app in Hn. cbn [aiguilles]. lia.
Qed.

Lemma publies_cons a o l os : publies (a :: l) (o :: os) = publies [a] [o] ++ publies l os.
Proof. destruct a, o; cbn; rewrite ?app_nil_r; done. Qed.

Lemma specifier_juste l : forall m, compte_juste m ->
  compte_juste (fst (specifier l m)) /\
  aiguilles (fst (specifier l m)) ++ file (fst (specifier l m)) = aiguilles m ++ file m ++ publies l (snd (specifier l m)).
Proof.
  induction l as [|a l IH]; intros m Hm; [by rewrite app_nil_r|]. cbn [specifier]. destruct (specifier1_juste a m Hm) as [H1 E1].
  destruct (specifier1 a m) as [m1 o]. cbn [fst snd] in *. specialize (IH m1 H1) as [H2 E2]. destruct (specifier l m1) as [m2 os]. cbn [fst snd] in *.
  split; [done|]. rewrite (publies_cons a o l os), !app_assoc in *. by rewrite E2, E1.
Qed.

(** * The property *)

(** C21: for any interleaving of publications, turns of the dispatcher and turns of
    the four consumers, the router of src/router.go never indexes out of range and
    observes what the machine of bounded queues observes (one queue of 1024, four of
    256, batches of 64); in the end, the events accepted by the channel are those
    dispatched followed by those that wait; for each consumer, the events received
    followed by those that wait in its ring are a subsequence of those dispatched for
    its subsystem, in order, and the number missing is exactly the drop counter of
    the ring; the events of no subsystem are counted by [DropsUnknown]. *)
Theorem routage_fidele l : zlen l < 2 ^ 57 ->
  exists s m, executer l systeme_neuf = Done (s, snd (specifier l machine_neuve)) /\ m = fst (specifier l machine_neuve) /\
    publies l (snd (specifier l machine_neuve)) = aiguilles m ++ file m /\
    dropsUnknown (routeur s) = zlen (pour None (aiguilles m)) /\
    forall v, exists a, rings (routeur s) !! Z.to_nat (rang v) = Some a /\ contient_file a (files m v) /\
      (remis m v ++ files m v) `sublist_of` pour (Some v) (aiguilles m) /\
      zlen (pour (Some v) (aiguilles m)) = zlen (remis m v) + Len a + rdrops a.
Proof.
  intros Hl. pose proof (zlen_nonneg l). destruct (routeur_executer_ok l 0 _ _ simule_neuf ltac:(lia)) as (s & E & _ & _ & _ & _ & _ & Hu & _ & Hv).
  assert (compte_juste machine_neuve) as H0 by (split; [done|by intros []]).
  destruct (specifier_juste l _ H0) as [[Hi Hj] Ea]. exists s, (fst (specifier l machine_neuve)). split_and!; try done; [congruence|].
  intros v. destruct (Hv v) as (a & H1 & H2 & H3 & H4 & H5), (Hj v) as [H6 H7]. exists a. split_and!; try done.
  rewrite H7, H4. pose proof H2 as (_ & ? & Eh & ? & ? & _). unfold Len. pose proof (zlen_nonneg (files (fst (specifier l machine_neuve)) v)).
  rewrite (proj2 (Z.ltb_ge _ _)) by lia. rewrite u64_id by (unfold is_u64; lia). lia.
Qed.

Definition evt (n s : Z) : Probe_event_t := Event n 1 1 s 0 0 0 (replicate 96 0).

Lemma routage_fidele_witness :
  exists s, executer [Publier (evt 1 3); Publier (evt 2 9); Publier (evt 3 1); Publier (evt 4 3); Aiguiller; Consommer Net] systeme_neuf
    = Done (s, [Code 0; Code 0; Code 0; Code 0; Routes 3; Remis [evt 1 3; evt 4 3]]) /\ dropsUnknown (routeur s) = 1.
Proof.
  destruct (routage_fidele [Publier (evt 1 3); Publier (evt 2 9); Publier (evt 3 1); Publier (evt 4 3); Aiguiller; Consommer Net])
    as (s & m & E & -> & _ & Hu & _); [by vm_compute|]. exists s. split; [|by rewrite Hu; vm_compute].
  rewrite E. by vm_compute.
Defined.
