(* ===== verification/Quotients.v ===== *)
(** The invariant quotients of an execution episode
    (src/internal/cinetique/quotients_episode.go): the difference of two readings of
    the kernel counters of a task, the twelve fixed-point quotients, each under its
    activity floor, in 128-bit arithmetic; the classes of the cores of a hybrid
    processor (capteur_proc_linux.go). *)
From stdpp Require Import list_numbers.
From S2P Require Import Prelude.
Local Open Scope Z_scope.

(** * Arithmetic of [math/bits] *)

(** High and low words of the product; the quotient of the two words by [y], a
    run-time panic when it does not fit. *)
Definition Mul64 (x y : Z) : Z * Z := ((x * y) / 2 ^ 64, u64 (x * y)).
Definition Div64 (hi lo y : Z) : run (Z * Z) :=
  if y <=? hi then Panic else Done ((hi * 2 ^ 64 + lo) / y, (hi * 2 ^ 64 + lo) mod y).
(** Sum and carry. *)
Definition Add64 (x y : Z) : Z * Z := (u64 (x + y), (x + y) / 2 ^ 64).

Definition MaxInt64 : Z := 9223372036854775807.
Definition MaxUint64 : Z := 18446744073709551615.
Definition MaxUint32 : Z := 4294967295.

Definition additionnerSatureU64 (a b : Z) : Z :=
  let '(somme, retenue) := Add64 a b in if negb (retenue =? 0) then MaxUint64 else somme.

Definition additionnerSatureU32 (a b : Z) : Z :=
  if MaxUint32 <? a + b then MaxUint32 else u32 (a + b).

Definition diviserEchelle64 (numerateur facteur denominateur : Z) : run Z :=
  if (denominateur =? 0) || (numerateur =? 0) || (facteur =? 0) then Done 0 else
  let '(haut, bas) := Mul64 numerateur facteur in
  if denominateur <=? haut then Done MaxInt64 else
  '(quotient, _) ← Div64 haut bas denominateur;
  if MaxInt64 <? quotient then Done MaxInt64 else Done (i64 quotient).

(** * The cores of a hybrid processor *)

Definition ClasseCoeurInconnue : Z := 0.
Definition ClasseCoeurPerformance : Z := 1.
Definition ClasseCoeurEfficience : Z := 2.

Record TopologieHybride := Topologie {
  MasquePerformance : Z; MasqueEfficience : Z;
  MasquePerfEtendu : list Z; MasqueEffEtendu : list Z; EstHybride : bool
}.

(** One core in the two masks of its domain. *)
Definition marquer (cpu : Z) (s : Z * list Z) : run (Z * list Z) :=
  if (0 <=? cpu) && (cpu <? 1024) then
    w ← idx (snd s) (Z.shiftr cpu 6);
    l ← upd (snd s) (Z.shiftr cpu 6) (Z.lor w (Z.shiftl 1 (Z.land cpu 63)));
    Done (if cpu <? 64 then Z.lor (fst s) (Z.shiftl 1 cpu) else fst s, l)
  else Done s.

Fixpoint marquer_tous (l : list Z) (s : Z * list Z) : run (Z * list Z) :=
  match l with [] => Done s | cpu :: l => s ← marquer cpu s; marquer_tous l s end.

Definition ConstruireTopologieHybride (coeursPerformance coeursEfficience : list Z) : run TopologieHybride :=
  p ← marquer_tous coeursPerformance (0, replicate 16 0);
  e ← marquer_tous coeursEfficience (0, replicate 16 0);
  Done (Topologie (fst p) (fst e) (snd p) (snd e) ((0 <? zlen coeursPerformance) && (0 <? zlen coeursEfficience))).

Definition ClasseDuCoeur (t : TopologieHybride) (indiceCoeur : Z) : run Z :=
  if (indiceCoeur <? 0) || (1024 <=? indiceCoeur) then Done ClasseCoeurInconnue else
  let mot := Z.shiftr indiceCoeur 6 in
  let bit := Z.shiftl 1 (Z.land indiceCoeur 63) in
  e ← idx (MasqueEffEtendu t) mot;
  if negb (Z.land e bit =? 0) || ((indiceCoeur <? 64) && negb (Z.land (MasqueEfficience t) bit =? 0)) then Done ClasseCoeurEfficience else
  p ← idx (MasquePerfEtendu t) mot;
  if negb (Z.land p bit =? 0) || ((indiceCoeur <? 64) && negb (Z.land (MasquePerformance t) bit =? 0)) then Done ClasseCoeurPerformance else
  Done ClasseCoeurInconnue.

(** * The readings *)

Record InstantaneTache := Tache {
  T_PID : Z; T_TID : Z; T_HorodatageNs : Z; T_DebutTacheTicks : Z; T_UtilisateurTicks : Z; T_SystemeTicks : Z;
  T_FautesMineures : Z; T_FautesMajeures : Z; T_NombreFils : Z; T_CoeurDerniereExecution : Z; T_VmHWMKio : Z; T_VmRSSKio : Z;
  T_CommutationsVolontaires : Z; T_CommutationsSubies : Z; T_TempsExecutionNs : Z; T_AttenteFileNs : Z; T_TranchesOrdonnanceur : Z;
  T_OctetsLusLogiques : Z; T_OctetsEcritsLogiques : Z; T_AppelsLecture : Z; T_AppelsEcriture : Z;
  T_OctetsLusBloc : Z; T_OctetsEcritsBloc : Z; T_OctetsEcritureAnnules : Z
}.

Record InstantanePressionPSI := Pression {
  P_HorodatageNs : Z; P_CPUSomeTotalUs : Z; P_CPUFullTotalUs : Z; P_CPUSomeAvg10Cent : Z;
  P_IOSomeTotalUs : Z; P_IOFullTotalUs : Z; P_MemoireSomeTotalUs : Z; P_MemoireFullTotalUs : Z
}.

Record ConfigPlanchersCinetiques := Planchers {
  MinAppelsES : Z; MinOctetsLogiques : Z; MinTempsExecutionNs : Z; MinCommutations : Z; MinResolutionsDNS : Z;
  MinOctetsReseauResolveur : Z; MinOctetsEntrantsAbsorption : Z; PlafondPSICPUPermille : Z
}.
Definition ConfigPlanchersParDefaut : ConfigPlanchersCinetiques := Planchers 4 1024 100000 4 1 16384 (Z.shiftl 1 20) 200.

Record CompteursReseauEpisode := Reseau {
  R_OctetsSortants : Z; R_OctetsEntrants : Z; R_OctetsVersResolveurChiffre : Z; R_OctetsHorsResolveur : Z;
  R_ConnexionsSortantes : Z; R_ConnexionsHorsResolveur : Z; R_ResolutionsDNS : Z; R_SousProcessusCrees : Z; R_PortSuspect : Z;
  R_ProtocoleSuspectUDP : bool; R_EcouteDNSClairLocale : bool; R_FluxResolveurChiffrePresent : bool; R_CodeRaisonDNS : Z
}.

(** The twelve quotients. *)
Definition IndiceOctetsParAppelES : Z := 0.
Definition IndicePartEcriturePermille : Z := 1.
Definition IndiceAmplificationBlocPermille : Z := 2.
Definition IndiceNsCPUParKioLogique : Z := 3.
Definition IndiceKioPicRSSParFil : Z := 4.
Definition IndiceEgressSurLecturePermille : Z := 5.
Definition IndiceConnexionsParMilleDNS : Z := 6.
Definition IndicePartPreemptionPermille : Z := 7.
Definition IndiceAttenteOrdonnanceur : Z := 8.
Definition IndiceDilatationHorsCPU : Z := 9.
Definition IndicePartResolveurPermille : Z := 10.
Definition IndiceAbsorptionDescriptivePermille : Z := 11.
Definition NombreQuotientsEpisode : Z := 12.

Definition bit1 (i : Z) : Z := Z.shiftl 1 i.
Definition MasqueQuotientsSensiblesCPU : Z :=
  Z.lor (Z.lor (Z.lor (bit1 IndiceNsCPUParKioLogique) (bit1 IndicePartPreemptionPermille)) (bit1 IndiceAttenteOrdonnanceur)) (bit1 IndiceDilatationHorsCPU).
Definition MasqueQuotientsDescriptifs : Z := bit1 IndiceAbsorptionDescriptivePermille.

Record QuotientsEpisode := Episode {
  Q_PID : Z; Q_DebutTacheTicks : Z; Q_DureeHorlogeNs : Z; Q_DeltaExecutionNs : Z; Q_DeltaAttenteFileNs : Z; Q_DeltaHorsCPUNs : Z;
  Q_DeltaOctetsLusLogiques : Z; Q_DeltaOctetsEcritsLog : Z; Q_DeltaOctetsBloc : Z; Q_DeltaOctetsReseauSortants : Z; Q_DeltaOctetsReseauEntrants : Z;
  Q_OctetsVersResolveurChiffre : Z; Q_OctetsHorsResolveur : Z; Q_PicRSSKio : Z; Q_RSSResidentFinKio : Z; Q_UnitesConcurrence : Z;
  Q_ConnexionsSortantes : Z; Q_ConnexionsHorsResolveur : Z; Q_ResolutionsDNS : Z; Q_PressionCPUPermille : Z; Q_PressionIOPermille : Z;
  Q_ClasseCoeurDebut : Z; Q_ClasseCoeurFin : Z; Q_MigrationHybride : bool; Q_AbstentionPSICPU : bool; Q_ConnexionSansDNS : bool;
  Q_EcouteDNSClairLocale : bool; Q_FluxResolveurChiffrePresent : bool; Q_ConfinementResolveur : bool;
  Q_PortSuspect : Z; Q_ProtocoleSuspectUDP : bool; Q_CodeRaisonDNS : Z; Q_MasqueValidite : Z; Q_Valeurs : list Z
}.

Definition EstValide (q : QuotientsEpisode) (indice : Z) : bool :=
  if (indice <? 0) || (NombreQuotientsEpisode <=? indice) then false else negb (Z.land (Q_MasqueValidite q) (bit1 indice) =? 0).

(** [q.Valeurs[i]], at a constant index. *)
Definition Valeur (q : QuotientsEpisode) (i : Z) : Z := nth (Z.to_nat i) (Q_Valeurs q) 0.

Definition ActiviteDisquePresente (q : QuotientsEpisode) : bool :=
  (0 <? Q_DeltaOctetsLusLogiques q) || (0 <? Q_DeltaOctetsEcritsLog q) || (0 <? Q_DeltaOctetsBloc q).

Definition OctetsSortantsNuls (q : QuotientsEpisode) : bool :=
  if (0 <? Q_DeltaOctetsReseauSortants q) || (0 <? Q_OctetsVersResolveurChiffre q) || (0 <? Q_OctetsHorsResolveur q) then false
  else negb (EstValide q IndiceEgressSurLecturePermille) || (Valeur q IndiceEgressSurLecturePermille <=? 0).

Definition AucuneActiviteReseau (q : QuotientsEpisode) : bool :=
  OctetsSortantsNuls q && (Q_DeltaOctetsReseauEntrants q =? 0) && (Q_ConnexionsSortantes q =? 0) && (Q_ConnexionsHorsResolveur q =? 0) &&
  (Q_ResolutionsDNS q =? 0) && (Q_PortSuspect q =? 0) && (Q_CodeRaisonDNS q =? 0) && negb (Q_FluxResolveurChiffrePresent q) &&
  negb (Q_ConnexionSansDNS q) && negb (Q_ConfinementResolveur q).

(** * The evaluation of an episode *)

Inductive erreur_episode := ErrReutilisationPID | ErrHorlogeNonMonotone | ErrCompteurNonMonotone.

Definition compteursMonotones (debut fin : InstantaneTache) : bool :=
  (T_TempsExecutionNs debut <=? T_TempsExecutionNs fin) && (T_AttenteFileNs debut <=? T_AttenteFileNs fin) &&
  (T_TranchesOrdonnanceur debut <=? T_TranchesOrdonnanceur fin) && (T_OctetsLusLogiques debut <=? T_OctetsLusLogiques fin) &&
  (T_OctetsEcritsLogiques debut <=? T_OctetsEcritsLogiques fin) && (T_AppelsLecture debut <=? T_AppelsLecture fin) &&
  (T_AppelsEcriture debut <=? T_AppelsEcriture fin) && (T_OctetsLusBloc debut <=? T_OctetsLusBloc fin) &&
  (T_OctetsEcritsBloc debut <=? T_OctetsEcritsBloc fin) && (T_CommutationsVolontaires debut <=? T_CommutationsVolontaires fin) &&
  (T_CommutationsSubies debut <=? T_CommutationsSubies fin) && (T_UtilisateurTicks debut <=? T_UtilisateurTicks fin) &&
  (T_SystemeTicks debut <=? T_SystemeTicks fin).

(** The two pressures of the interval, in thousandths. *)
Definition pressions (psiDebut psiFin : InstantanePressionPSI) : run (Z * Z) :=
  if P_HorodatageNs psiDebut <? P_HorodatageNs psiFin then
    let dureePSIUs := u64 (i64 (P_HorodatageNs psiFin - P_HorodatageNs psiDebut)) / 1000 in
    if 0 <? dureePSIUs then
      cpu ← (if P_CPUSomeTotalUs psiDebut <=? P_CPUSomeTotalUs psiFin then
               x ← diviserEchelle64 (u64 (P_CPUSomeTotalUs psiFin - P_CPUSomeTotalUs psiDebut)) 1000 dureePSIUs; Done (u32 (Z.min x 1000))
             else Done 0);
      io ← (if P_IOSomeTotalUs psiDebut <=? P_IOSomeTotalUs psiFin then
               x ← diviserEchelle64 (u64 (P_IOSomeTotalUs psiFin - P_IOSomeTotalUs psiDebut)) 1000 dureePSIUs; Done (u32 (Z.min x 1000))
             else Done 0);
      Done (cpu, io)
    else Done (0, 0)
  else if 0 <? P_CPUSomeAvg10Cent psiFin then Done (P_CPUSomeAvg10Cent psiFin / 10, 0)
  else Done (0, 0).

(** A quotient above its floor: its value and its validity bit. *)
Definition poser (c : bool) (i : Z) (m : run Z) (s : list Z * Z) : run (list Z * Z) :=
  if c then x ← m; l ← upd (fst s) i x; Done (l, Z.lor (snd s) (bit1 i)) else Done s.

Definition EvaluerEpisodeCinetique (debut fin : InstantaneTache) (psiDebut psiFin : InstantanePressionPSI)
    (reseau : CompteursReseauEpisode) (topologie : TopologieHybride) (cfg : ConfigPlanchersCinetiques) : run (erreur_episode + QuotientsEpisode) :=
  if (T_PID debut <=? 0) || negb (T_PID debut =? T_PID fin) || negb (T_DebutTacheTicks debut =? T_DebutTacheTicks fin) then Done (inl ErrReutilisationPID) else
  if T_HorodatageNs fin <=? T_HorodatageNs debut then Done (inl ErrHorlogeNonMonotone) else
  if negb (compteursMonotones debut fin) then Done (inl ErrCompteurNonMonotone) else
  let dureeHorlogeNs := u64 (i64 (T_HorodatageNs fin - T_HorodatageNs debut)) in
  let deltaExecNs := u64 (T_TempsExecutionNs fin - T_TempsExecutionNs debut) in
  let deltaAttenteNs := u64 (T_AttenteFileNs fin - T_AttenteFileNs debut) in
  let occupesNs := additionnerSatureU64 deltaExecNs deltaAttenteNs in
  let deltaHorsCPUNs := if occupesNs <? dureeHorlogeNs then u64 (dureeHorlogeNs - occupesNs) else 0 in
  let deltaLusLog := u64 (T_OctetsLusLogiques fin - T_OctetsLusLogiques debut) in
  let deltaEcritsLog := u64 (T_OctetsEcritsLogiques fin - T_OctetsEcritsLogiques debut) in
  let deltaTotalLog := additionnerSatureU64 deltaLusLog deltaEcritsLog in
  let deltaAppelsES := additionnerSatureU64 (u64 (T_AppelsLecture fin - T_AppelsLecture debut)) (u64 (T_AppelsEcriture fin - T_AppelsEcriture debut)) in
  let deltaBloc := additionnerSatureU64 (u64 (T_OctetsLusBloc fin - T_OctetsLusBloc debut)) (u64 (T_OctetsEcritsBloc fin - T_OctetsEcritsBloc debut)) in
  let deltaVolontaires := u64 (T_CommutationsVolontaires fin - T_CommutationsVolontaires debut) in
  let deltaSubies := u64 (T_CommutationsSubies fin - T_CommutationsSubies debut) in
  let deltaCommutations := additionnerSatureU64 deltaVolontaires deltaSubies in
  let picRSS := Z.max (T_VmRSSKio fin) (T_VmHWMKio fin) in
  let rssRetenu := if T_VmRSSKio fin =? 0 then picRSS else T_VmRSSKio fin in
  let concurrence := additionnerSatureU32 (T_NombreFils fin) (R_SousProcessusCrees reseau) in
  let concurrence := if concurrence =? 0 then 1 else concurrence in
  let fluxResolveurChiffre := R_FluxResolveurChiffrePresent reseau || (0 <? R_OctetsVersResolveurChiffre reseau) in
  classeDebut ← ClasseDuCoeur topologie (T_CoeurDerniereExecution debut);
  classeFin ← ClasseDuCoeur topologie (T_CoeurDerniereExecution fin);
  let migration := EstHybride topologie && negb (classeDebut =? ClasseCoeurInconnue) && negb (classeFin =? ClasseCoeurInconnue) && negb (classeDebut =? classeFin) in
  let connexionSansDNS := (0 <? R_ConnexionsSortantes reseau) && (R_ResolutionsDNS reseau =? 0) && negb fluxResolveurChiffre in
  '(pressionCPU, pressionIO) ← pressions psiDebut psiFin;
  let abstention := (0 <? PlafondPSICPUPermille cfg) && (PlafondPSICPUPermille cfg <? pressionCPU) in
  s ← poser ((MinAppelsES cfg <=? deltaAppelsES) && (0 <? deltaAppelsES)) IndiceOctetsParAppelES
        (diviserEchelle64 deltaTotalLog 1 deltaAppelsES) (replicate 12 0, 0);
  let logiques := (MinOctetsLogiques cfg <=? deltaTotalLog) && (0 <? deltaTotalLog) in
  s ← poser logiques IndicePartEcriturePermille (diviserEchelle64 deltaEcritsLog 1000 deltaTotalLog) s;
  s ← poser logiques IndiceAmplificationBlocPermille (diviserEchelle64 deltaBloc 1000 deltaTotalLog) s;
  s ← poser logiques IndiceNsCPUParKioLogique (diviserEchelle64 deltaExecNs 1024 deltaTotalLog) s;
  s ← poser (0 <? picRSS) IndiceKioPicRSSParFil (diviserEchelle64 picRSS 1 concurrence) s;
  s ← poser ((MinOctetsLogiques cfg <=? deltaLusLog) && (0 <? deltaLusLog)) IndiceEgressSurLecturePermille
        (diviserEchelle64 (R_OctetsSortants reseau) 1000 deltaLusLog) s;
  s ← poser ((MinResolutionsDNS cfg <=? R_ResolutionsDNS reseau) && (0 <? R_ResolutionsDNS reseau)) IndiceConnexionsParMilleDNS
        (diviserEchelle64 (R_ConnexionsSortantes reseau) 1000 (R_ResolutionsDNS reseau)) s;
  s ← poser ((MinCommutations cfg <=? deltaCommutations) && (0 <? deltaCommutations)) IndicePartPreemptionPermille
        (diviserEchelle64 deltaSubies 1000 deltaCommutations) s;
  let executees := (MinTempsExecutionNs cfg <=? deltaExecNs) && (0 <? deltaExecNs) in
  s ← poser executees IndiceAttenteOrdonnanceur (diviserEchelle64 deltaAttenteNs 1000 deltaExecNs) s;
  s ← poser executees IndiceDilatationHorsCPU (diviserEchelle64 deltaHorsCPUNs 1000 deltaExecNs) s;
  let denomResolveur := Z.max (additionnerSatureU64 (R_OctetsVersResolveurChiffre reseau) (R_OctetsHorsResolveur reseau)) (R_OctetsSortants reseau) in
  let resolveur := (MinOctetsReseauResolveur cfg <=? denomResolveur) && (0 <? denomResolveur) in
  let part := x ← diviserEchelle64 (R_OctetsVersResolveurChiffre reseau) 1000 denomResolveur; Done (Z.min x 1000) in
  s ← poser resolveur IndicePartResolveurPermille part s;
  confinement ← (if resolveur then x ← part; Done ((500 <=? x) && (R_ConnexionsHorsResolveur reseau =? 0) && negb (R_EcouteDNSClairLocale reseau)) else Done false);
  let deltaRSSOctets :=
    if T_VmRSSKio debut <? T_VmRSSKio fin then
      let '(hautRSS, basRSS) := Mul64 (u64 (T_VmRSSKio fin - T_VmRSSKio debut)) 1024 in
      if negb (hautRSS =? 0) then MaxUint64 else basRSS
    else 0 in
  let deltaEcritsBloc := u64 (T_OctetsEcritsBloc fin - T_OctetsEcritsBloc debut) in
  let octetsAbsorbes := additionnerSatureU64 deltaEcritsBloc deltaRSSOctets in
  s ← poser ((MinOctetsEntrantsAbsorption cfg <=? R_OctetsEntrants reseau) && (0 <? R_OctetsEntrants reseau)) IndiceAbsorptionDescriptivePermille
        (diviserEchelle64 octetsAbsorbes 1000 (R_OctetsEntrants reseau)) s;
  Done (inr (Episode (T_PID fin) (T_DebutTacheTicks fin) dureeHorlogeNs deltaExecNs deltaAttenteNs deltaHorsCPUNs deltaLusLog deltaEcritsLog deltaBloc
    (R_OctetsSortants reseau) (R_OctetsEntrants reseau) (R_OctetsVersResolveurChiffre reseau) (R_OctetsHorsResolveur reseau) picRSS rssRetenu concurrence
    (R_ConnexionsSortantes reseau) (R_ConnexionsHorsResolveur reseau) (R_ResolutionsDNS reseau) pressionCPU pressionIO classeDebut classeFin migration abstention
    connexionSansDNS (R_EcouteDNSClairLocale reseau) fluxResolveurChiffre confinement (R_PortSuspect reseau) (R_ProtocoleSuspectUDP reseau) (R_CodeRaisonDNS reseau)
    (snd s) (fst s))).

(** * Exact arithmetic *)

(** The sum that stops at 2^64 - 1; the quotient that stops at 2^63 - 1. *)
Definition sature (a b : Z) : Z := Z.min MaxUint64 (a + b).
Definition echelle (n f d : Z) : Z := if d =? 0 then 0 else Z.min MaxInt64 (n * f / d).

Lemma satureU64_ok a b : is_u64 a -> is_u64 b -> additionnerSatureU64 a b = sature a b.
Proof.
  unfold is_u64, additionnerSatureU64, Add64, sature, MaxUint64. intros Ha Hb.
  destruct (Z.ltb_spec (a + b) (2 ^ 64)) as [H|H].
  - rewrite Z.div_small by lia. cbn. rewrite u64_id by (unfold is_u64; lia). lia.
  - replace ((a + b) / 2 ^ 64) with 1 by (apply (Z.div_unique _ _ _ (a + b - 2 ^ 64)); lia). cbn [negb Z.eqb]. lia.
Qed.

Lemma satureU32_ok a b : is_u32 a -> is_u32 b -> additionnerSatureU32 a b = Z.min MaxUint32 (a + b).
Proof.
  unfold is_u32, additionnerSatureU32, MaxUint32. intros Ha Hb. destruct (Z.ltb_spec 4294967295 (a + b)) as [H|H]; [lia|].
  rewrite u32_id by (unfold is_u32; lia). lia.
Qed.

Lemma sature_range a b : is_u64 a -> is_u64 b -> is_u64 (sature a b) /\ a <= sature a b /\ b <= sature a b.
Proof. unfold is_u64, sature, MaxUint64. lia. Qed.

Lemma sature_pos a b : 0 <= a -> 0 <= b -> 0 <= sature a b /\ (a <= MaxUint64 -> a <= sature a b) /\ (b <= MaxUint64 -> b <= sature a b).
Proof. unfold sature, MaxUint64. lia. Qed.

Lemma diviser_ok n f d : is_u64 n -> is_u64 f -> is_u64 d -> diviserEchelle64 n f d = Done (echelle n f d).
Proof.
  unfold is_u64. intros Hn Hf Hd. unfold diviserEchelle64, echelle, Mul64, Div64.
  destruct (Z.eqb_spec d 0); [done|]. cbn [orb].
  destruct (Z.eqb_spec n 0) as [->|]; [rewrite Z.mul_0_l, Z.div_0_l by lia; done|].
  destruct (Z.eqb_spec f 0) as [->|]; [rewrite Z.mul_0_r, Z.div_0_l by lia; done|]. cbn [orb].
  pose proof (Z.div_mod (n * f) (2 ^ 64) ltac:(lia)) as E. change ((n * f) mod 2 ^ 64) with (u64 (n * f)) in E.
  destruct (Z.leb_spec d (n * f / 2 ^ 64)) as [H|H].
  - f_equal. unfold MaxInt64. rewrite Z.min_l; [done|]. apply Z.div_le_lower_bound; [lia|].
    pose proof (u64_range (n * f)) as Hu. unfold is_u64 in Hu. nia.
  - rewrite run_bind_done. rewrite (Z.mul_comm _ (2 ^ 64)), <- E. unfold MaxInt64.
    assert (0 <= n * f / d) by (apply Z.div_pos; nia).
    destruct (Z.ltb_spec 9223372036854775807 (n * f / d)); f_equal; [lia|]. rewrite i64_id by (unfold is_i64; lia). lia.
Qed.

Lemma echelle_range n f d : 0 <= n -> 0 <= f -> 0 <= d -> 0 <= echelle n f d <= MaxInt64.
Proof.
  intros Hn Hf Hd. unfold echelle, MaxInt64. destruct (Z.eqb_spec d 0); [lia|]. assert (0 <= n * f / d) by (apply Z.div_pos; nia). lia.
Qed.

Lemma echelle_part n d : 0 <= n <= d -> echelle n 1000 d <= 1000.
Proof.
  intros Hn. unfold echelle. destruct (Z.eqb_spec d 0); [lia|]. assert (n * 1000 / d <= 1000) by (apply Z.div_le_upper_bound; nia). lia.
Qed.

(** A longer episode of the same activity has the same quotient. *)
Lemma echelle_homogene k n f d : 0 < k -> 0 <= d -> echelle (k * n) f (k * d) = echelle n f d.
Proof.
  intros Hk Hd. unfold echelle. destruct (Z.eqb_spec d 0) as [->|]; [by rewrite Z.mul_0_r|].
  destruct (Z.eqb_spec (k * d) 0); [nia|]. f_equal. rewrite <- Z.mul_assoc. apply Z.div_mul_cancel_l; lia.
Qed.

(** * The specification *)

(** What an episode consumed. *)
Record deltas := Deltas {
  d_duree : Z; d_exec : Z; d_attente : Z; d_lus : Z; d_ecrits : Z; d_lectures : Z; d_ecritures : Z;
  d_bloc_lus : Z; d_bloc_ecrits : Z; d_volontaires : Z; d_subies : Z; d_rss : Z
}.
Definition deltas_de (debut fin : InstantaneTache) : deltas :=
  Deltas (T_HorodatageNs fin - T_HorodatageNs debut) (T_TempsExecutionNs fin - T_TempsExecutionNs debut) (T_AttenteFileNs fin - T_AttenteFileNs debut)
    (T_OctetsLusLogiques fin - T_OctetsLusLogiques debut) (T_OctetsEcritsLogiques fin - T_OctetsEcritsLogiques debut)
    (T_AppelsLecture fin - T_AppelsLecture debut) (T_AppelsEcriture fin - T_AppelsEcriture debut)
    (T_OctetsLusBloc fin - T_OctetsLusBloc debut) (T_OctetsEcritsBloc fin - T_OctetsEcritsBloc debut)
    (T_CommutationsVolontaires fin - T_CommutationsVolontaires debut) (T_CommutationsSubies fin - T_CommutationsSubies debut)
    (Z.max 0 (T_VmRSSKio fin - T_VmRSSKio debut)).

Definition total_logique (D : deltas) : Z := sature (d_lus D) (d_ecrits D).
Definition appels (D : deltas) : Z := sature (d_lectures D) (d_ecritures D).
Definition bloc (D : deltas) : Z := sature (d_bloc_lus D) (d_bloc_ecrits D).
Definition commutations (D : deltas) : Z := sature (d_volontaires D) (d_subies D).
Definition hors_cpu (D : deltas) : Z := Z.max 0 (d_duree D - d_exec D - d_attente D).
Definition resolveur (r : CompteursReseauEpisode) : Z := Z.max (sature (R_OctetsVersResolveurChiffre r) (R_OctetsHorsResolveur r)) (R_OctetsSortants r).
Definition pic (fin : InstantaneTache) : Z := Z.max (T_VmRSSKio fin) (T_VmHWMKio fin).
Definition fils (fin : InstantaneTache) (r : CompteursReseauEpisode) : Z := Z.max 1 (Z.min MaxUint32 (T_NombreFils fin + R_SousProcessusCrees r)).

(** A quotient exists when its denominator reaches its floor. *)
Definition au_dela (plancher d : Z) (q : Z) : option Z := if (plancher <=? d) && (0 <? d) then Some q else None.

Definition mesure (D : deltas) (fin : InstantaneTache) (r : CompteursReseauEpisode) (cfg : ConfigPlanchersCinetiques) (i : Z) : option Z :=
  match i with
  | 0 => au_dela (MinAppelsES cfg) (appels D) (echelle (total_logique D) 1 (appels D))
  | 1 => au_dela (MinOctetsLogiques cfg) (total_logique D) (echelle (d_ecrits D) 1000 (total_logique D))
  | 2 => au_dela (MinOctetsLogiques cfg) (total_logique D) (echelle (bloc D) 1000 (total_logique D))
  | 3 => au_dela (MinOctetsLogiques cfg) (total_logique D) (echelle (d_exec D) 1024 (total_logique D))
  | 4 => if 0 <? pic fin then Some (echelle (pic fin) 1 (fils fin r)) else None
  | 5 => au_dela (MinOctetsLogiques cfg) (d_lus D) (echelle (R_OctetsSortants r) 1000 (d_lus D))
  | 6 => au_dela (MinResolutionsDNS cfg) (R_ResolutionsDNS r) (echelle (R_ConnexionsSortantes r) 1000 (R_ResolutionsDNS r))
  | 7 => au_dela (MinCommutations cfg) (commutations D) (echelle (d_subies D) 1000 (commutations D))
  | 8 => au_dela (MinTempsExecutionNs cfg) (d_exec D) (echelle (d_attente D) 1000 (d_exec D))
  | 9 => au_dela (MinTempsExecutionNs cfg) (d_exec D) (echelle (hors_cpu D) 1000 (d_exec D))
  | 10 => au_dela (MinOctetsReseauResolveur cfg) (resolveur r) (Z.min (echelle (R_OctetsVersResolveurChiffre r) 1000 (resolveur r)) 1000)
  | 11 => au_dela (MinOctetsEntrantsAbsorption cfg) (R_OctetsEntrants r)
            (echelle (sature (d_bloc_ecrits D) (Z.min MaxUint64 (d_rss D * 1024))) 1000 (R_OctetsEntrants r))
  | _ => None
  end.

(** Why an episode is refused. *)
Definition refus (debut fin : InstantaneTache) : option erreur_episode :=
  if (T_PID debut <=? 0) || negb (T_PID debut =? T_PID fin) || negb (T_DebutTacheTicks debut =? T_DebutTacheTicks fin) then Some ErrReutilisationPID
  else if T_HorodatageNs fin <=? T_HorodatageNs debut then Some ErrHorlogeNonMonotone
  else if negb (compteursMonotones debut fin) then Some ErrCompteurNonMonotone else None.

(** The fields at their width. *)
Definition tache_ok (t : InstantaneTache) : Prop :=
  is_i64 (T_HorodatageNs t) /\ is_u32 (T_NombreFils t) /\
  Forall is_u64 [T_VmHWMKio t; T_VmRSSKio t; T_CommutationsVolontaires t; T_CommutationsSubies t; T_TempsExecutionNs t; T_AttenteFileNs t;
    T_OctetsLusLogiques t; T_OctetsEcritsLogiques t; T_AppelsLecture t; T_AppelsEcriture t; T_OctetsLusBloc t; T_OctetsEcritsBloc t].
Definition reseau_ok (r : CompteursReseauEpisode) : Prop :=
  Forall is_u64 [R_OctetsSortants r; R_OctetsEntrants r; R_OctetsVersResolveurChiffre r; R_OctetsHorsResolveur r] /\
  Forall is_u32 [R_ConnexionsSortantes r; R_ConnexionsHorsResolveur r; R_ResolutionsDNS r; R_SousProcessusCrees r].
Definition psi_ok (p : InstantanePressionPSI) : Prop :=
  is_i64 (P_HorodatageNs p) /\ is_u64 (P_CPUSomeTotalUs p) /\ is_u64 (P_IOSomeTotalUs p) /\ is_u32 (P_CPUSomeAvg10Cent p).
Definition topologie_ok (t : TopologieHybride) : Prop := zlen (MasquePerfEtendu t) = 16 /\ zlen (MasqueEffEtendu t) = 16.

(** * The chain of the quotients *)

(** The values and validity bits written so far. *)
Definition pose (s : list Z * Z) (g : Z -> option Z) : Prop :=
  zlen (fst s) = 12 /\ 0 <= snd s /\ forall j, 0 <= j < 12 -> Z.testbit (snd s) j = bool_decide (is_Some (g j)) /\ nth (Z.to_nat j) (fst s) 0 = default 0 (g j).

Lemma pose_vide : pose (replicate 12 0, 0) (fun _ => None).
Proof.
  split_and!; [done|cbn; lia|]. intros j Hj. rewrite Z.testbit_0_l, bool_decide_false by (by intros [? ?]). split; [done|]. cbn [fst].
  pose proof (nth_lookup (replicate 12 0) (Z.to_nat j) 0) as ->. by rewrite lookup_replicate_2 by lia.
Qed.

Lemma poser_ok s g c i m x : pose s g -> 0 <= i < 12 -> g i = None -> m = Done x ->
  wp (poser c i m s) (fun s' => pose s' (fun j => if j =? i then (if (c : bool) then Some x else None) else g j)).
Proof.
  intros (Hz & Hp & Hs) Hi Hg ->. unfold poser. destruct c.
  - rewrite run_bind_done, upd_ok, run_bind_done by lia. apply wp_done. split; [cbn [fst]; by rewrite zlen_insert|].
    split; [cbn [snd]; apply Z.lor_nonneg; split; [done|]; unfold bit1; apply Z.shiftl_nonneg; lia|].
    intros j Hj. destruct (Hs j Hj) as [H1 H2]. cbn [fst snd]. rewrite Z.lor_spec, H1. unfold bit1. rewrite Z.shiftl_1_l, Z.pow2_bits_eqb by lia.
    rewrite !nth_lookup. destruct (Z.eqb_spec j i) as [->|Hn].
    + rewrite Z.eqb_refl, orb_true_r. split; [done|]. rewrite list_lookup_insert_eq by (unfold zlen in Hz; lia). done.
    + rewrite (proj2 (Z.eqb_neq i j)), orb_false_r by done. split; [done|].
      rewrite list_lookup_insert_ne by (intros E; apply Hn, Z2Nat.inj; lia). by rewrite <- nth_lookup.
  - apply wp_done. split; [done|]. split; [done|]. intros j Hj. destruct (Hs j Hj) as [H1 H2].
    destruct (Z.eqb_spec j i) as [->|]; [|done]. by rewrite H1, H2, Hg.
Qed.

Lemma pose_valide q g i : pose (Q_Valeurs q, Q_MasqueValidite q) g -> 0 <= i < 12 ->
  EstValide q i = bool_decide (is_Some (g i)) /\ Valeur q i = default 0 (g i).
Proof.
  intros (Hz & Hp & Hs) Hi. destruct (Hs i Hi) as [H1 H2]. cbn [fst snd] in *. split; [|done].
  unfold EstValide, NombreQuotientsEpisode. rewrite (proj2 (Z.ltb_ge i 0)), (proj2 (Z.leb_gt 12 i)) by lia. cbn [orb]. rewrite <- H1.
  unfold bit1. rewrite Z.shiftl_1_l. destruct (Z.testbit (Q_MasqueValidite q) i) eqn:E.
  - apply negb_true_iff, Z.eqb_neq. intros E2. apply (f_equal (fun z => Z.testbit z i)) in E2.
    rewrite Z.land_spec, E, Z.pow2_bits_eqb, Z.eqb_refl, Z.bits_0 in E2 by lia. done.
  - apply negb_false_iff, Z.eqb_eq. apply Z.bits_inj'. intros k Hk. rewrite Z.land_spec, Z.pow2_bits_eqb, Z.bits_0 by lia.
    destruct (Z.eqb_spec i k) as [->|]; [by rewrite E|apply andb_false_r].
Qed.

(** * The classes of the cores *)

Lemma marquer_coeur_ok cpu s : zlen (snd s) = 16 -> 0 <= fst s -> Forall (fun w => 0 <= w) (snd s) ->
  exists s', marquer cpu s = Done s' /\ zlen (snd s') = 16 /\ 0 <= fst s' /\ Forall (fun w => 0 <= w) (snd s') /\
    (forall c, 0 <= c < 1024 -> Z.testbit (bget (snd s') (c / 64)) (c mod 64) = Z.testbit (bget (snd s) (c / 64)) (c mod 64) || (c =? cpu)) /\
    (forall c, 0 <= c < 64 -> Z.testbit (fst s') c = Z.testbit (fst s) c || (c =? cpu)).
Proof.
  intros Hz Hf Hl. unfold marquer. destruct (Z.leb_spec 0 cpu) as [H1|H1], (Z.ltb_spec cpu 1024) as [H2|H2]; cbn [andb].
  2-4: exists s; split_and!; try done; intros c Hc; rewrite (proj2 (Z.eqb_neq c cpu)), orb_false_r by lia; done.
  rewrite Z.shiftr_div_pow2, !Z.shiftl_1_l by lia. change (2 ^ 6) with 64. change 63 with (Z.ones 6). rewrite land_mask by lia. change (2 ^ 6) with 64.
  assert (0 <= cpu / 64 < 16) as Hq by (split; [apply Z.div_pos; lia|apply Z.div_lt_upper_bound; lia]).
  pose proof (Z.mod_pos_bound cpu 64 ltac:(lia)) as Hm. rewrite idx_bget, run_bind_done, upd_ok, run_bind_done by lia.
  assert (0 <= bget (snd s) (cpu / 64)) as Hb by (apply (bget_Forall (fun w => 0 <= w)); [done|lia]).
  eexists. split; [done|]. cbn [fst snd]. rewrite zlen_insert. split; [done|]. split; [|split; [|split]].
  - destruct (cpu <? 64); [|done]. apply Z.lor_nonneg. split; [done|]. apply Z.pow_nonneg. lia.
  - apply Forall_insert; [done|]. apply Z.lor_nonneg. split; [done|]. apply Z.pow_nonneg. lia.
  - intros c Hc. pose proof (Z.mod_pos_bound c 64 ltac:(lia)). destruct (Z.eqb_spec (c / 64) (cpu / 64)) as [E|E].
    + rewrite E, bget_insert_eq, Z.lor_spec, Z.pow2_bits_eqb by lia. f_equal. apply eq_true_iff_eq. rewrite !Z.eqb_eq.
      pose proof (Z.div_mod c 64 ltac:(lia)). pose proof (Z.div_mod cpu 64 ltac:(lia)). lia.
    + rewrite bget_insert_ne by (try done; try apply Z.div_pos; lia). rewrite (proj2 (Z.eqb_neq c cpu)) by congruence. by rewrite orb_false_r.
  - intros c Hc. destruct (Z.ltb_spec cpu 64).
    + rewrite Z.lor_spec, Z.pow2_bits_eqb by lia. f_equal. apply Z.eqb_sym.
    + rewrite (proj2 (Z.eqb_neq c cpu)) by lia. by rewrite orb_false_r.
Qed.

Lemma marquer_tous_ok l : forall s, zlen (snd s) = 16 -> 0 <= fst s -> Forall (fun w => 0 <= w) (snd s) ->
  exists s', marquer_tous l s = Done s' /\ zlen (snd s') = 16 /\
    (forall c, 0 <= c < 1024 -> Z.testbit (bget (snd s') (c / 64)) (c mod 64) = Z.testbit (bget (snd s) (c / 64)) (c mod 64) || bool_decide (c ∈ l)) /\
    (forall c, 0 <= c < 64 -> Z.testbit (fst s') c = Z.testbit (fst s) c || bool_decide (c ∈ l)).
Proof.
  induction l as [|cpu l IH]; intros s Hz Hf Hl.
  - exists s. split_and!; try done; intros c Hc; rewrite bool_decide_false, orb_false_r by (by apply not_elem_of_nil); done.
  - destruct (marquer_coeur_ok cpu s Hz Hf Hl) as (s1 & E & Hz1 & Hf1 & Hl1 & H1 & H2). destruct (IH s1 Hz1 Hf1 Hl1) as (s2 & E2 & Hz2 & H3 & H4).
    exists s2. cbn [marquer_tous]. rewrite E, run_bind_done. split_and!; try done; intros c Hc.
    + rewrite H3, H1 by done. rewrite <- orb_assoc. f_equal. apply eq_true_iff_eq. rewrite orb_true_iff, !bool_decide_eq_true, elem_of_cons, Z.eqb_eq. done.
    + rewrite H4, H2 by done. rewrite <- orb_assoc. f_equal. apply eq_true_iff_eq. rewrite orb_true_iff, !bool_decide_eq_true, elem_of_cons, Z.eqb_eq. done.
Qed.

Lemma bit_present w c : 0 <= c -> negb (Z.land w (Z.shiftl 1 c) =? 0) = Z.testbit w c.
Proof.
  intros Hc. rewrite Z.shiftl_1_l. destruct (Z.testbit w c) eqn:E.
  - apply negb_true_iff, Z.eqb_neq. intros H. apply (f_equal (fun z => Z.testbit z c)) in H.
    rewrite Z.land_spec, E, Z.pow2_bits_eqb, Z.eqb_refl, Z.bits_0 in H by lia. done.
  - apply negb_false_iff, Z.eqb_eq, Z.bits_inj'. intros k Hk. rewrite Z.land_spec, Z.pow2_bits_eqb, Z.bits_0 by lia.
    destruct (Z.eqb_spec c k) as [->|]; [by rewrite E|apply andb_false_r].
Qed.

Lemma bget_seize c : 0 <= c -> bget (replicate 16 0) (c / 64) = 0.
Proof.
  intros Hc. unfold bget. rewrite nth_lookup. destruct (replicate 16 0 !! Z.to_nat (c / 64)) eqn:E; [|done].
  by apply lookup_replicate_1 in E as [-> _].
Qed.

(** The class of a core is read off the two lists: the efficient cores first. *)
Definition classe_de (perf eff : list Z) (c : Z) : Z :=
  if (0 <=? c) && (c <? 1024) then if bool_decide (c ∈ eff) then ClasseCoeurEfficience else if bool_decide (c ∈ perf) then ClasseCoeurPerformance else ClasseCoeurInconnue
  else ClasseCoeurInconnue.

Lemma topologie_exacte perf eff : exists t, ConstruireTopologieHybride perf eff = Done t /\ topologie_ok t /\
  EstHybride t = (0 <? zlen perf) && (0 <? zlen eff) /\ forall c, ClasseDuCoeur t c = Done (classe_de perf eff c).
Proof.
  assert (Forall (fun w => 0 <= w) (replicate 16 0)) as H0 by (by apply Forall_replicate).
  destruct (marquer_tous_ok perf (0, replicate 16 0) eq_refl ltac:(done) H0) as ([fp lp] & Ep & Zp & Hp & Hp').
  destruct (marquer_tous_ok eff (0, replicate 16 0) eq_refl ltac:(done) H0) as ([fe le_] & Ee & Ze & He & He').
  unfold ConstruireTopologieHybride. rewrite Ep, run_bind_done, Ee, run_bind_done. eexists. split; [done|]. split; [done|]. split; [done|].
  intros c. unfold ClasseDuCoeur, classe_de. cbn [MasqueEffEtendu MasquePerfEtendu MasqueEfficience MasquePerformance fst snd] in *.
  destruct (Z.leb_spec 0 c) as [H1|H1], (Z.ltb_spec c 1024) as [H2|H2]; cbn [andb].
  2-4: destruct (Z.ltb_spec c 0), (Z.leb_spec 1024 c); try lia; done.
  rewrite (proj2 (Z.ltb_ge c 0)), (proj2 (Z.leb_gt 1024 c)) by lia. cbn [orb]. rewrite Z.shiftr_div_pow2 by lia. change (2 ^ 6) with 64.
  change 63 with (Z.ones 6). rewrite land_mask by lia. change (2 ^ 6) with 64. pose proof (Z.mod_pos_bound c 64 ltac:(lia)).
  assert (0 <= c / 64 < 16) as Hq by (split; [apply Z.div_pos; lia|apply Z.div_lt_upper_bound; lia]).
  rewrite (idx_bget le_), run_bind_done, !bit_present, He, bget_seize, Z.testbit_0_l by lia. cbn [orb].
  assert (forall (l : list Z) (f : Z), (forall c, 0 <= c < 64 -> Z.testbit f c = bool_decide (c ∈ l)) ->
    bool_decide (c ∈ l) || (c <? 64) && Z.testbit f (c mod 64) = bool_decide (c ∈ l)) as Hj.
  { intros l f Hf. destruct (Z.ltb_spec c 64); [|apply orb_false_r]. rewrite Z.mod_small, Hf by lia. cbn [andb]. apply orb_diag. }
  rewrite Hj by (intros d Hd; rewrite He', Z.testbit_0_l by lia; done). destruct (bool_decide (c ∈ eff)); [done|].
  rewrite (idx_bget lp), run_bind_done, !bit_present, Hp, bget_seize, Z.testbit_0_l by lia. cbn [orb].
  rewrite Hj by (intros d Hd; rewrite Hp', Z.testbit_0_l by lia; done). by destruct (bool_decide (c ∈ perf)).
Qed.

Lemma wp_classe t c : topologie_ok t -> wp (ClasseDuCoeur t c) (fun k => 0 <= k <= 2).
Proof.
  intros [Hp He]. unfold ClasseDuCoeur, ClasseCoeurInconnue, ClasseCoeurPerformance, ClasseCoeurEfficience.
  destruct (Z.ltb_spec c 0), (Z.leb_spec 1024 c); cbn [orb]; try (apply wp_done; lia).
  rewrite Z.shiftr_div_pow2 by lia. change (2 ^ 6) with 64.
  assert (0 <= c / 64 < 16) as Hq by (split; [apply Z.div_pos; lia|apply Z.div_lt_upper_bound; lia]).
  rewrite (idx_bget (MasqueEffEtendu t)), run_bind_done by lia. case_match; [apply wp_done; lia|].
  rewrite (idx_bget (MasquePerfEtendu t)), run_bind_done by lia. case_match; apply wp_done; lia.
Qed.

(** * Properties *)

(** The pressure of the interval, in thousandths; the ten-second average otherwise. *)
Definition pression (total : InstantanePressionPSI -> Z) (repli : Z) (a b : InstantanePressionPSI) : Z :=
  if P_HorodatageNs a <? P_HorodatageNs b then
    if (0 <? (P_HorodatageNs b - P_HorodatageNs a) / 1000) && (total a <=? total b)
    then Z.min 1000 (echelle (total b - total a) 1000 ((P_HorodatageNs b - P_HorodatageNs a) / 1000)) else 0
  else repli / 10.

Lemma ecart_horaire x y : is_i64 x -> is_i64 y -> x < y -> u64 (i64 (y - x)) = y - x /\ is_u64 (y - x).
Proof.
  unfold is_i64, is_u64, u64, i64. intros Hx Hy H. split; [|lia]. rewrite Zminus_mod_idemp_l.
  replace (y - x + 2 ^ 63 - 2 ^ 63) with (y - x) by lia. rewrite Z.mod_small; lia.
Qed.

Lemma pressions_ok a b : psi_ok a -> psi_ok b ->
  pressions a b = Done (pression P_CPUSomeTotalUs (P_CPUSomeAvg10Cent b) a b, pression P_IOSomeTotalUs 0 a b).
Proof.
  intros (Ha & Hc & Hi & _) (Hb & Hc' & Hi' & Hr). unfold pressions, pression. destruct (Z.ltb_spec (P_HorodatageNs a) (P_HorodatageNs b)) as [H|H].
  - destruct (ecart_horaire _ _ Ha Hb H) as [-> Hd]. set (us := (P_HorodatageNs b - P_HorodatageNs a) / 1000).
    assert (is_u64 us) as Hus.
    { unfold is_u64, us in *. split; [apply Z.div_pos; lia|]. apply Z.div_lt_upper_bound; lia. }
    destruct (Z.ltb_spec 0 us); [|done]. cbn [andb].
    assert (forall x y : Z, is_u64 x -> is_u64 y -> (if x <=? y then z ← diviserEchelle64 (u64 (y - x)) 1000 us; Done (u32 (Z.min z 1000)) else Done 0)
      = Done (if x <=? y then Z.min 1000 (echelle (y - x) 1000 us) else 0)) as E.
    { intros x y Hx Hy. unfold is_u64 in *. destruct (Z.leb_spec x y); [|done]. rewrite u64_id by (unfold is_u64; lia).
      rewrite diviser_ok, run_bind_done by (unfold is_u64; lia). pose proof (echelle_range (y - x) 1000 us ltac:(lia) ltac:(lia) ltac:(lia)).
      rewrite u32_id by (unfold is_u32; lia). by rewrite Z.min_comm. }
    by rewrite !E.
  - unfold is_u32 in Hr. destruct (Z.ltb_spec 0 (P_CPUSomeAvg10Cent b)); [by rewrite Z.div_0_l|].
    replace (P_CPUSomeAvg10Cent b) with 0 by lia. done.
Qed.

Lemma monotones_ok d f : compteursMonotones d f = true ->
  let D := deltas_de d f in 0 <= d_exec D /\ 0 <= d_attente D /\ 0 <= d_lus D /\ 0 <= d_ecrits D /\ 0 <= d_lectures D /\ 0 <= d_ecritures D /\
    0 <= d_bloc_lus D /\ 0 <= d_bloc_ecrits D /\ 0 <= d_volontaires D /\ 0 <= d_subies D.
Proof. unfold compteursMonotones. rewrite !andb_true_iff, !Z.leb_le. cbn. lia. Qed.

Lemma delta_u64 a b : is_u64 a -> is_u64 b -> 0 <= b - a -> u64 (b - a) = b - a /\ is_u64 (b - a).
Proof. unfold is_u64. intros. split; [apply u64_id; unfold is_u64|]; lia. Qed.

(** The fields of the result which the quotients do not give. *)
Definition cadre (debut fin : InstantaneTache) (pd pf : InstantanePressionPSI) (r : CompteursReseauEpisode) (cfg : ConfigPlanchersCinetiques) (q : QuotientsEpisode) : Prop :=
  let D := deltas_de debut fin in
  Q_DeltaExecutionNs q = d_exec D /\ Q_DeltaAttenteFileNs q = d_attente D /\ Q_DureeHorlogeNs q = d_duree D /\ Q_DeltaHorsCPUNs q = hors_cpu D /\
  Q_PressionCPUPermille q = pression P_CPUSomeTotalUs (P_CPUSomeAvg10Cent pf) pd pf /\
  Q_AbstentionPSICPU q = (0 <? PlafondPSICPUPermille cfg) && (PlafondPSICPUPermille cfg <? Q_PressionCPUPermille q) /\
  Q_ConfinementResolveur q = (EstValide q IndicePartResolveurPermille && (500 <=? Valeur q IndicePartResolveurPermille) &&
    (R_ConnexionsHorsResolveur r =? 0) && negb (R_EcouteDNSClairLocale r)) /\
  Q_ConnexionSansDNS q = (0 <? R_ConnexionsSortantes r) && (R_ResolutionsDNS r =? 0) &&
    negb (R_FluxResolveurChiffrePresent r) && (R_OctetsVersResolveurChiffre r =? 0) /\
  Q_PicRSSKio q = pic fin /\ Q_UnitesConcurrence q = fils fin r.

Lemma hors_cpu_ok duree exec attente : is_u64 duree -> is_u64 exec -> is_u64 attente ->
  (if sature exec attente <? duree then u64 (duree - sature exec attente) else 0) = Z.max 0 (duree - exec - attente).
Proof.
  unfold is_u64, sature, MaxUint64. intros Hd He Ha. destruct (Z.ltb_spec (Z.min 18446744073709551615 (exec + attente)) duree); [|lia].
  rewrite u64_id by (unfold is_u64; lia). lia.
Qed.

Lemma absorbe_ok a b : is_u64 a -> is_u64 b ->
  (if a <? b then let '(h, l) := Mul64 (u64 (b - a)) 1024 in if negb (h =? 0) then MaxUint64 else l else 0)
    = Z.min MaxUint64 (Z.max 0 (b - a) * 1024).
Proof.
  unfold is_u64, MaxUint64. intros Ha Hb. destruct (Z.ltb_spec a b); [|lia]. unfold Mul64. rewrite u64_id by (unfold is_u64; lia).
  destruct (Z.ltb_spec ((b - a) * 1024) (2 ^ 64)) as [H1|H1].
  - rewrite Z.div_small by lia. cbn [negb Z.eqb]. rewrite u64_id by (unfold is_u64; lia). lia.
  - assert (1 <= (b - a) * 1024 / 2 ^ 64) by (apply Z.div_le_lower_bound; lia). rewrite (proj2 (Z.eqb_neq _ _)) by lia. cbn [negb]. lia.
Qed.

(** Unfolds the widths of the fields of a record. *)
Ltac largeurs := unfold tache_ok, reseau_ok in *;
  repeat match goal with
  | H : _ /\ _ |- _ => destruct H
  | H : Forall _ (_ :: _) |- _ => apply Forall_cons in H
  | H : Forall _ [] |- _ => clear H
  end.

Lemma part_u64 r : reseau_ok r -> is_u64 (resolveur r) /\ R_OctetsVersResolveurChiffre r <= resolveur r.
Proof.
  intros Hr. largeurs. destruct (sature_range (R_OctetsVersResolveurChiffre r) (R_OctetsHorsResolveur r)) as (? & ? & ?); [done..|].
  unfold resolveur, is_u64 in *. lia.
Qed.

Lemma fils_ok fin r : is_u32 (T_NombreFils fin) -> is_u32 (R_SousProcessusCrees r) ->
  (if additionnerSatureU32 (T_NombreFils fin) (R_SousProcessusCrees r) =? 0 then 1 else additionnerSatureU32 (T_NombreFils fin) (R_SousProcessusCrees r)) = fils fin r /\
  is_u64 (fils fin r).
Proof.
  intros H1 H2. rewrite satureU32_ok by done. unfold fils, is_u32, is_u64, MaxUint32 in *.
  destruct (Z.eqb_spec (Z.min 4294967295 (T_NombreFils fin + R_SousProcessusCrees r)) 0); lia.
Qed.

Lemma deltas_ok d f : tache_ok d -> tache_ok f -> T_HorodatageNs d < T_HorodatageNs f -> compteursMonotones d f = true ->
  let D := deltas_de d f in
  Forall (fun '(x, y) => x = y /\ is_u64 y) [
    (u64 (i64 (T_HorodatageNs f - T_HorodatageNs d)), d_duree D);
    (u64 (T_TempsExecutionNs f - T_TempsExecutionNs d), d_exec D); (u64 (T_AttenteFileNs f - T_AttenteFileNs d), d_attente D);
    (u64 (T_OctetsLusLogiques f - T_OctetsLusLogiques d), d_lus D); (u64 (T_OctetsEcritsLogiques f - T_OctetsEcritsLogiques d), d_ecrits D);
    (u64 (T_AppelsLecture f - T_AppelsLecture d), d_lectures D); (u64 (T_AppelsEcriture f - T_AppelsEcriture d), d_ecritures D);
    (u64 (T_OctetsLusBloc f - T_OctetsLusBloc d), d_bloc_lus D); (u64 (T_OctetsEcritsBloc f - T_OctetsEcritsBloc d), d_bloc_ecrits D);
    (u64 (T_CommutationsVolontaires f - T_CommutationsVolontaires d), d_volontaires D);
    (u64 (T_CommutationsSubies f - T_CommutationsSubies d), d_subies D)].
Proof.
  intros Hd Hf Hh Hm. apply monotones_ok in Hm. cbn in Hm. largeurs.
  repeat constructor; first [by apply ecart_horaire|by apply delta_u64].
Qed.

Lemma pose_ext s g g' : pose s g -> (forall j, 0 <= j < 12 -> g j = g' j) -> pose s g'.
Proof. intros (H1 & H2 & H3) He. split_and!; [done..|]. intros j Hj. rewrite <- He by done. by apply H3. Qed.

Lemma indices_douze (P : Z -> Prop) : P 0 -> P 1 -> P 2 -> P 3 -> P 4 -> P 5 -> P 6 -> P 7 -> P 8 -> P 9 -> P 10 -> P 11 -> forall j, 0 <= j < 12 -> P j.
Proof.
  intros ? ? ? ? ? ? ? ? ? ? ? ? j Hj.
  assert (j = 0 \/ j = 1 \/ j = 2 \/ j = 3 \/ j = 4 \/ j = 5 \/ j = 6 \/ j = 7 \/ j = 8 \/ j = 9 \/ j = 10 \/ j = 11) as Hc by lia.
  by repeat destruct Hc as [->|Hc]; subst.
Qed.

(** One link of the chain. *)
Ltac maillon := apply wp_bind; eapply wp_mono; [eapply poser_ok; [eassumption|unfold_indices; lia|unfold_indices; reflexivity|apply diviser_ok; assumption]|]; cbv beta; intros ? ?
with unfold_indices := unfold IndiceOctetsParAppelES, IndicePartEcriturePermille, IndiceAmplificationBlocPermille, IndiceNsCPUParKioLogique, IndiceKioPicRSSParFil,
  IndiceEgressSurLecturePermille, IndiceConnexionsParMilleDNS, IndicePartPreemptionPermille, IndiceAttenteOrdonnanceur, IndiceDilatationHorsCPU,
  IndicePartResolveurPermille, IndiceAbsorptionDescriptivePermille in *.

Lemma evaluer_ok debut fin pd pf r topo cfg :
  tache_ok debut -> tache_ok fin -> psi_ok pd -> psi_ok pf -> reseau_ok r -> topologie_ok topo -> refus debut fin = None ->
  wp (EvaluerEpisodeCinetique debut fin pd pf r topo cfg) (fun res => exists q, res = inr q /\
    pose (Q_Valeurs q, Q_MasqueValidite q) (mesure (deltas_de debut fin) fin r cfg) /\ cadre debut fin pd pf r cfg q).
Proof.
  intros Hd Hf Hpd Hpf Hr Ht Href. unfold EvaluerEpisodeCinetique. unfold refus in Href.
  destruct ((T_PID debut <=? 0) || _ || _); [done|]. destruct (Z.leb_spec (T_HorodatageNs fin) (T_HorodatageNs debut)) as [|Hh]; [done|].
  destruct (compteursMonotones debut fin) eqn:Hm; [|done]. cbn [negb]. cbv zeta. pose proof (deltas_ok debut fin Hd Hf Hh Hm) as HD.
  destruct (part_u64 r Hr) as [Hres Hpart]. cbv zeta in HD. set (D := deltas_de debut fin) in *. largeurs. destruct (fils_ok fin r) as [Hfils Hfil]; [done..|].
  repeat match goal with H : _ = _ |- _ => rewrite !H; clear H end.
  assert (is_u64 1 /\ is_u64 1000 /\ is_u64 1024) as (? & ? & ?) by (unfold is_u64; lia).
  assert (forall x, is_u32 x -> is_u64 x) as Helargi by (unfold is_u32, is_u64; lia).
  assert (is_u64 (R_ConnexionsSortantes r) /\ is_u64 (R_ResolutionsDNS r)) as [? ?] by (split; by apply Helargi).
  assert (is_u64 (total_logique D) /\ is_u64 (appels D) /\ is_u64 (bloc D) /\ is_u64 (commutations D)) as (? & ? & ? & ?) by (split_and!; by apply sature_range).
  assert (is_u64 (pic fin)) by (unfold pic, is_u64 in *; lia). assert (is_u64 (hors_cpu D)) by (unfold hors_cpu, is_u64 in *; lia).
  assert (is_u64 (Z.min MaxUint64 (d_rss D * 1024))) by (unfold is_u64, MaxUint64, d_rss; cbn; lia).
  assert (is_u64 (sature (d_bloc_ecrits D) (Z.min MaxUint64 (d_rss D * 1024)))) by by apply sature_range.
  rewrite absorbe_ok, !satureU64_ok, hors_cpu_ok by done.
  change (sature (d_lus D) (d_ecrits D)) with (total_logique D). change (sature (d_lectures D) (d_ecritures D)) with (appels D).
  change (sature (d_bloc_lus D) (d_bloc_ecrits D)) with (bloc D). change (sature (d_volontaires D) (d_subies D)) with (commutations D).
  change (Z.max 0 (d_duree D - d_exec D - d_attente D)) with (hors_cpu D). change (Z.max (T_VmRSSKio fin) (T_VmHWMKio fin)) with (pic fin).
  change (Z.max (sature (R_OctetsVersResolveurChiffre r) (R_OctetsHorsResolveur r)) (R_OctetsSortants r)) with (resolveur r).
  change (Z.max 0 (T_VmRSSKio fin - T_VmRSSKio debut)) with (d_rss D).
  apply wp_bind. eapply wp_mono; [by apply wp_classe|]. intros c1 _. apply wp_bind. eapply wp_mono; [by apply wp_classe|]. intros c2 _.
  rewrite pressions_ok, run_bind_done by done. pose proof pose_vide as Hpose.
  rewrite (diviser_ok (R_OctetsVersResolveurChiffre r)) by assumption. do 10 maillon. rewrite !run_bind_done.
  apply wp_bind. eapply wp_mono; [eapply poser_ok; [eassumption|unfold_indices; lia|unfold_indices; reflexivity|reflexivity]|]. cbv beta. intros s11 ?.
  set (conf := (MinOctetsReseauResolveur cfg <=? resolveur r) && (0 <? resolveur r)) in *.
  match goal with |- wp ((if conf then Done ?b else Done false) ≫= _) _ => replace (if conf then Done b else Done false) with (Done (conf && b)) by (by destruct conf) end.
  rewrite run_bind_done. apply wp_bind. eapply wp_mono; [eapply poser_ok; [eassumption|unfold_indices; lia|unfold_indices; reflexivity|apply diviser_ok; assumption]|].
  cbv beta. intros [vals masque] Hs. apply wp_done. eexists. split; [done|].
  assert (pose (vals, masque) (mesure D fin r cfg)) as Hfin.
  { eapply pose_ext; [eassumption|]. unfold_indices. by apply indices_douze. }
  split; [done|]. match goal with |- cadre _ _ _ _ _ _ ?q => destruct (pose_valide q _ IndicePartResolveurPermille Hfin) as [Hv Hw]; [done|] end.
  unfold cadre. rewrite Hv, Hw. cbn. split_and!; try done.
  - unfold au_dela. fold conf. destruct conf; [by rewrite bool_decide_true by eauto|by rewrite bool_decide_false by (by intros [? ?])].
  - rewrite negb_orb, andb_assoc. f_equal. apply eq_true_iff_eq. rewrite negb_true_iff, Z.ltb_ge, Z.eqb_eq. largeurs. unfold is_u64 in *. lia.
Qed.

Lemma mesure_range d f r cfg i : tache_ok d -> tache_ok f -> reseau_ok r -> compteursMonotones d f = true -> 0 <= i < 12 ->
  0 <= default 0 (mesure (deltas_de d f) f r cfg i) <= (if (i =? 1) || (i =? 7) || (i =? 10) then 1000 else MaxInt64).
Proof.
  intros Hd Hf Hr Hm. revert i. apply monotones_ok in Hm. cbv zeta in Hm. destruct (part_u64 r Hr) as [Hres Hpart]. largeurs. set (D := deltas_de d f) in *.
  assert (forall p x q m, 0 <= q <= m -> 0 <= default 0 (au_dela p x q) <= m) as Hau by (intros p x q m Hq; unfold au_dela; case_match; cbn; lia).
  assert (0 <= d_rss D) by (unfold D; cbn; lia).
  unfold is_u64, is_u32 in *.
  assert (0 <= total_logique D /\ 0 <= appels D /\ 0 <= bloc D /\ 0 <= commutations D /\ 0 <= hors_cpu D /\ 0 <= pic f /\ 0 <= fils f r /\
    d_ecrits D <= total_logique D /\ d_subies D <= commutations D /\ 0 <= sature (d_bloc_ecrits D) (MaxUint64 `min` (d_rss D * 1024))).
  { assert (d_ecrits D <= MaxUint64 /\ d_subies D <= MaxUint64) as [? ?] by (unfold D, MaxUint64; cbn; lia). unfold total_logique, appels, bloc, commutations.
    split_and!; try (apply sature_pos; unfold MaxUint64 in *; lia); [unfold hors_cpu|unfold pic|unfold fils, MaxUint32]; lia. }
  apply indices_douze; cbn [mesure]; cbn [Z.eqb Pos.eqb orb].
  5: destruct (0 <? pic f); cbn [default]; [apply echelle_range; lia|unfold MaxInt64; cbn; lia].
  all: apply Hau; try (apply echelle_range; lia).
  - split; [apply echelle_range; lia|apply echelle_part; lia].
  - split; [apply echelle_range; lia|apply echelle_part; lia].
  - pose proof (echelle_range (R_OctetsVersResolveurChiffre r) 1000 (resolveur r)). lia.
Qed.

(** ** The properties *)

(** C19: between two readings of a task, [EvaluerEpisodeCinetique] never divides out
    of range nor overflows: it refuses the episode exactly when the process differs,
    time does not advance or a counter goes back; otherwise each of the twelve
    quotients is valid exactly when its denominator reaches its floor, and is then
    the integer part of the exact fraction, stopped at 2^63 - 1 (the shares at 1000,
    the sums of two counters at 2^64 - 1); the time off CPU is the rest of the clock;
    the episode is confined to an encrypted resolver exactly when that valid share
    reaches one half with no other connection and no local clear DNS. *)
Theorem episode_exact debut fin pd pf r topo cfg :
  tache_ok debut -> tache_ok fin -> psi_ok pd -> psi_ok pf -> reseau_ok r -> topologie_ok topo ->
  wp (EvaluerEpisodeCinetique debut fin pd pf r topo cfg) (fun res =>
    match res with
    | inl e => refus debut fin = Some e
    | inr q => refus debut fin = None /\ cadre debut fin pd pf r cfg q /\
        forall i, 0 <= i < 12 ->
          EstValide q i = bool_decide (is_Some (mesure (deltas_de debut fin) fin r cfg i)) /\
          Valeur q i = default 0 (mesure (deltas_de debut fin) fin r cfg i) /\
          0 <= Valeur q i <= (if (i =? 1) || (i =? 7) || (i =? 10) then 1000 else MaxInt64)
    end).
Proof.
  intros Hd Hf Hpd Hpf Hr Ht. destruct (refus debut fin) as [e|] eqn:Href.
  - unfold EvaluerEpisodeCinetique. unfold refus in Href. repeat (case_match; [by simplify_eq|]). done.
  - assert (compteursMonotones debut fin = true) as Hm by (unfold refus in Href; repeat (case_match; [done|]); by apply negb_false_iff).
    eapply wp_mono; [by apply evaluer_ok|]. intros res (q & -> & Hp & Hc). split; [done|]. split; [done|]. intros i Hi.
    destruct (pose_valide q _ i Hp Hi) as [H1 H2]. split; [done|]. split; [done|]. rewrite H2. by apply mesure_range.
Qed.

(** ** Invariance *)

(** What must reach a floor, the floor, and the quotient itself: every measure is the
    third when the first reaches the second. *)
Definition denominateur (D : deltas) (fin : InstantaneTache) (r : CompteursReseauEpisode) (i : Z) : Z :=
  match i with
  | 0 => appels D | 1 | 2 | 3 => total_logique D | 4 => pic fin | 5 => d_lus D | 6 => R_ResolutionsDNS r | 7 => commutations D | 8 | 9 => d_exec D
  | 10 => resolveur r | _ => R_OctetsEntrants r
  end.
Definition plancher (cfg : ConfigPlanchersCinetiques) (i : Z) : Z :=
  match i with
  | 0 => MinAppelsES cfg | 1 | 2 | 3 | 5 => MinOctetsLogiques cfg | 4 => 0 | 6 => MinResolutionsDNS cfg | 7 => MinCommutations cfg
  | 8 | 9 => MinTempsExecutionNs cfg | 10 => MinOctetsReseauResolveur cfg | _ => MinOctetsEntrantsAbsorption cfg
  end.
Definition rapport (D : deltas) (fin : InstantaneTache) (r : CompteursReseauEpisode) (i : Z) : Z :=
  default 0 (mesure D fin r (Planchers 0 0 0 0 0 0 0 0) i).

Lemma mesure_forme D fin r cfg i : 0 <= i < 12 -> mesure D fin r cfg i = au_dela (plancher cfg i) (denominateur D fin r i) (rapport D fin r i).
Proof.
  intros Hi. assert (forall p d v, au_dela p d v = au_dela p d (default 0 (au_dela 0 d v))) as Ha.
  { intros p d v. unfold au_dela. destruct (Z.ltb_spec 0 d); [|by rewrite !andb_false_r]. by rewrite (proj2 (Z.leb_le 0 d)) by lia. }
  assert (i = 0 \/ i = 1 \/ i = 2 \/ i = 3 \/ i = 4 \/ i = 5 \/ i = 6 \/ i = 7 \/ i = 8 \/ i = 9 \/ i = 10 \/ i = 11) as Hc by lia.
  unfold rapport. repeat destruct Hc as [->|Hc]; try subst i; cbn [mesure denominateur plancher MinAppelsES MinOctetsLogiques MinTempsExecutionNs MinCommutations MinResolutionsDNS
    MinOctetsReseauResolveur MinOctetsEntrantsAbsorption]; try apply Ha. unfold au_dela. destruct (Z.ltb_spec 0 (pic fin)); [|by rewrite andb_false_r].
  by rewrite (proj2 (Z.leb_le 0 (pic fin))) by lia.
Qed.

(** The same activity, [k] times longer, with the same peak of memory and the same
    number of threads. *)
Definition prolonge (k : Z) (D D' : deltas) (fin fin' : InstantaneTache) (r r' : CompteursReseauEpisode) : Prop :=
  D' = Deltas (k * d_duree D) (k * d_exec D) (k * d_attente D) (k * d_lus D) (k * d_ecrits D) (k * d_lectures D) (k * d_ecritures D)
         (k * d_bloc_lus D) (k * d_bloc_ecrits D) (k * d_volontaires D) (k * d_subies D) (k * d_rss D) /\
  (pic fin' = pic fin /\ fils fin' r' = fils fin r) /\
  R_OctetsSortants r' = k * R_OctetsSortants r /\ R_OctetsEntrants r' = k * R_OctetsEntrants r /\
  R_OctetsVersResolveurChiffre r' = k * R_OctetsVersResolveurChiffre r /\ R_OctetsHorsResolveur r' = k * R_OctetsHorsResolveur r /\
  R_ConnexionsSortantes r' = k * R_ConnexionsSortantes r /\ R_ResolutionsDNS r' = k * R_ResolutionsDNS r.

(** No sum of two counters reaches 2^64. *)
Definition sans_saturation (D : deltas) (r : CompteursReseauEpisode) : Prop :=
  d_lus D + d_ecrits D <= MaxUint64 /\ d_lectures D + d_ecritures D <= MaxUint64 /\ d_bloc_lus D + d_bloc_ecrits D <= MaxUint64 /\
  d_volontaires D + d_subies D <= MaxUint64 /\ d_bloc_ecrits D + d_rss D * 1024 <= MaxUint64 /\
  R_OctetsVersResolveurChiffre r + R_OctetsHorsResolveur r <= MaxUint64.

Lemma sature_fois k a b : 1 <= k -> 0 <= a -> 0 <= b -> k * a + k * b <= MaxUint64 -> sature (k * a) (k * b) = k * sature a b.
Proof. unfold sature, MaxUint64. intros. assert (a + b <= k * a + k * b) by nia. rewrite !Z.min_r by lia. lia. Qed.

(** What the quotients are made of is [k] times larger. *)
Lemma prolonge_sommes k d f d' f' r r' : 1 <= k -> compteursMonotones d f = true -> reseau_ok r ->
  let D := deltas_de d f in let D' := deltas_de d' f' in prolonge k D D' f f' r r' -> sans_saturation D' r' ->
  (total_logique D' = k * total_logique D /\ appels D' = k * appels D /\ bloc D' = k * bloc D /\ commutations D' = k * commutations D /\
   hors_cpu D' = k * hors_cpu D /\ resolveur r' = k * resolveur r) /\
  sature (d_bloc_ecrits D') (Z.min MaxUint64 (d_rss D' * 1024)) = k * sature (d_bloc_ecrits D) (Z.min MaxUint64 (d_rss D * 1024)) /\
  0 <= total_logique D /\ 0 <= appels D /\ 0 <= bloc D /\ 0 <= commutations D /\ 0 <= resolveur r.
Proof.
  intros Hk Hm Hr D D' (HD & _ & H1 & H2 & H3 & H4 & _) (S1 & S2 & S3 & S4 & S5 & S6). apply monotones_ok in Hm. cbv zeta in Hm. fold D in Hm.
  assert (0 <= d_rss D) as Hrss by (unfold D, deltas_de; cbn [d_rss]; lia). clearbody D D'.
  largeurs. unfold is_u64 in *. split.
  - unfold total_logique, appels, bloc, commutations, hors_cpu, resolveur. rewrite HD in S1, S2, S3, S4 |- *. rewrite H3, H4 in S6. rewrite H1, H3, H4.
    cbn [d_duree d_exec d_attente d_lus d_ecrits d_lectures d_ecritures d_bloc_lus d_bloc_ecrits d_volontaires d_subies d_rss] in *.
    split_and!; try (apply sature_fois; lia); [nia|]. rewrite sature_fois by lia. nia.
  - split; [|split_and!; try (apply sature_pos; lia); unfold resolveur; lia].
    rewrite HD in S5 |- *. cbn [d_bloc_ecrits d_rss] in *. assert (d_rss D * 1024 <= k * d_rss D * 1024) by nia. rewrite !Z.min_r by lia.
    rewrite <- Z.mul_assoc. apply sature_fois; lia.
Qed.

Lemma rapport_fois k d f d' f' r r' i : 1 <= k -> compteursMonotones d f = true -> reseau_ok r ->
  prolonge k (deltas_de d f) (deltas_de d' f') f f' r r' -> sans_saturation (deltas_de d' f') r' -> 0 <= i < 12 ->
  denominateur (deltas_de d' f') f' r' i = (if i =? 4 then 1 else k) * denominateur (deltas_de d f) f r i /\
  rapport (deltas_de d' f') f' r' i = rapport (deltas_de d f) f r i.
Proof.
  intros Hk Hm Hr Hp Hs Hi. destruct (prolonge_sommes k d f d' f' r r' Hk Hm Hr Hp Hs) as ((E1 & E2 & E3 & E4 & E5 & E6) & E7 & P1 & P2 & P3 & P4 & P5).
  destruct Hp as (HD & (K1 & K2) & H1 & H2 & H3 & H4 & H5 & H6). apply monotones_ok in Hm. cbv zeta in Hm.
  set (D := deltas_de d f) in *. set (D' := deltas_de d' f') in *. clearbody D D'. largeurs. unfold is_u32, is_u64 in *.
  pose proof (f_equal d_exec HD) as F1. pose proof (f_equal d_attente HD) as F2. pose proof (f_equal d_lus HD) as F3.
  pose proof (f_equal d_ecrits HD) as F4. pose proof (f_equal d_subies HD) as F5. cbn [d_exec d_attente d_lus d_ecrits d_subies] in *.
  assert (forall n g x, 0 <= x -> default 0 (au_dela 0 (k * x) (echelle (k * n) g (k * x))) = default 0 (au_dela 0 x (echelle n g x))) as Ha.
  { intros n g x Hx. rewrite echelle_homogene by lia. unfold au_dela. destruct (Z.ltb_spec 0 x), (Z.ltb_spec 0 (k * x)); try nia; [|by rewrite !andb_false_r].
    by rewrite !(proj2 (Z.leb_le _ _)) by lia. }
  assert (forall n g x, 0 <= x -> default 0 (au_dela 0 (k * x) (Z.min (echelle (k * n) g (k * x)) 1000)) = default 0 (au_dela 0 x (Z.min (echelle n g x) 1000))) as Hb.
  { intros n g x Hx. rewrite echelle_homogene by lia. unfold au_dela. destruct (Z.ltb_spec 0 x), (Z.ltb_spec 0 (k * x)); try nia; [|by rewrite !andb_false_r].
    by rewrite !(proj2 (Z.leb_le _ _)) by lia. }
  assert (i = 0 \/ i = 1 \/ i = 2 \/ i = 3 \/ i = 4 \/ i = 5 \/ i = 6 \/ i = 7 \/ i = 8 \/ i = 9 \/ i = 10 \/ i = 11) as Hc by lia.
  unfold rapport. repeat destruct Hc as [->|Hc]; try subst i; cbn [mesure denominateur Z.eqb Pos.eqb MinAppelsES MinOctetsLogiques MinTempsExecutionNs MinCommutations MinResolutionsDNS
    MinOctetsReseauResolveur MinOctetsEntrantsAbsorption]; rewrite ?E1, ?E2, ?E3, ?E4, ?E5, ?E6, ?E7, ?H1, ?H2, ?H3, ?H5, ?H6, ?F1, ?F2, ?F3, ?F4, ?F5, ?K1, ?K2, ?Z.mul_1_l; (split; [done|]);
    first [done|by apply Ha; lia|by apply Hb; lia].
Qed.

(** C29: the twelve quotients are invariant: an episode in which the same activity lasts
    [k] times longer -- times, octets, calls, switches, growth of the memory, network
    octets and connections all [k] times larger, with the same peak of memory and the
    same number of threads -- measures the same exact quotients.  On both episodes a
    quotient is valid exactly when what it is measured on is not zero and reaches its
    floor, that is [k] times more easily on the longer one; so every quotient valid on
    the shorter is valid on the longer, with the same value, and one that only the
    longer can show has the value the shorter would show without floors.  The sums of
    two counters are supposed below 2^64: beyond, the code stops them there. *)
Theorem quotients_invariants k debut fin debut' fin' pd pf r r' topo cfg :
  1 <= k -> tache_ok debut -> tache_ok fin -> tache_ok debut' -> tache_ok fin' -> psi_ok pd -> psi_ok pf -> reseau_ok r -> reseau_ok r' -> topologie_ok topo ->
  refus debut fin = None -> refus debut' fin' = None -> prolonge k (deltas_de debut fin) (deltas_de debut' fin') fin fin' r r' -> sans_saturation (deltas_de debut' fin') r' ->
  exists q q', EvaluerEpisodeCinetique debut fin pd pf r topo cfg = Done (inr q) /\ EvaluerEpisodeCinetique debut' fin' pd pf r' topo cfg = Done (inr q') /\
    forall i, 0 <= i < 12 -> let d := denominateur (deltas_de debut fin) fin r i in
      EstValide q i = (plancher cfg i <=? d) && (0 <? d) /\ EstValide q' i = (plancher cfg i <=? k * d) && (0 <? d) /\
      (EstValide q i = true -> EstValide q' i = true /\ Valeur q' i = Valeur q i) /\
      (EstValide q' i = true -> Valeur q' i = rapport (deltas_de debut fin) fin r i).
Proof.
  intros Hk Hd Hf Hd' Hf' Hpd Hpf Hr Hr' Ht R R' Hp Hs.
  destruct (proj1 (wp_exists _ _) (evaluer_ok debut fin pd pf r topo cfg Hd Hf Hpd Hpf Hr Ht R)) as (res & E & q & -> & Hq & _).
  destruct (proj1 (wp_exists _ _) (evaluer_ok debut' fin' pd pf r' topo cfg Hd' Hf' Hpd Hpf Hr' Ht R')) as (res & E' & q' & -> & Hq' & _).
  exists q, q'. split; [done|]. split; [done|]. intros i Hi d. destruct (pose_valide q _ i Hq ltac:(lia)) as [-> ->], (pose_valide q' _ i Hq' ltac:(lia)) as [-> ->].
  assert (compteursMonotones debut fin = true) as Hm by (unfold refus in R; repeat (case_match; [done|]); by apply negb_false_iff).
  destruct (rapport_fois k debut fin debut' fin' r r' i Hk Hm Hr Hp Hs Hi) as [Ed Er]. rewrite !mesure_forme, Ed, Er by done. fold d.
  set (v := rapport (deltas_de debut fin) fin r i). assert (plancher cfg 4 = 0) as H4 by done. clearbody d v.
  assert (forall p x, bool_decide (is_Some (au_dela p x v)) = (p <=? x) && (0 <? x)) as Ha.
  { intros p x. unfold au_dela. destruct (_ && _); [by apply bool_decide_true; eexists|by apply bool_decide_false; intros [? ?]]. }
  rewrite !Ha. unfold au_dela.
  assert ((plancher cfg i <=? (if i =? 4 then 1 else k) * d) && (0 <? (if i =? 4 then 1 else k) * d) = (plancher cfg i <=? k * d) && (0 <? d)) as ->.
  { destruct (Z.eqb_spec i 4) as [->|]; [rewrite H4|]; apply eq_true_iff_eq; rewrite !andb_true_iff, !Z.leb_le, !Z.ltb_lt; nia. }
  split; [done|]. split; [done|]. split; [|by intros ->]. intros H. rewrite H. apply andb_prop in H as [H1%Z.leb_le H2%Z.ltb_lt].
  assert ((plancher cfg i <=? k * d) && (0 <? d) = true) as -> by (apply andb_true_iff; rewrite Z.leb_le, Z.ltb_lt; nia). done.
Qed.

(** A process that reads and writes for ten then twenty milliseconds. *)
Definition tache_exemple (k : Z) : InstantaneTache :=
  Tache 42 42 (1000 + k * 10000000) 77 5 5 0 0 3 2 4096 4000 (10 * k) (5 * k) (k * 4000000) (k * 1000000) 9 (k * 65536) (k * 8192) (k * 16) (k * 2) (k * 4096) (k * 8192) 0.
Definition reseau_exemple (k : Z) : CompteursReseauEpisode := Reseau (k * 20000) (k * 3000000) (k * 5000) (k * 15000) (k * 3) (k * 3) (k * 2) 0 0 false false false 0.
Definition psi_zero : InstantanePressionPSI := Pression 0 0 0 0 0 0 0 0.
Definition topologie_simple : TopologieHybride := Topologie 0 0 (replicate 16 0) (replicate 16 0) false.

Lemma tache_exemple_ok k : 0 <= k <= 9 -> tache_ok (tache_exemple k).
Proof. intros Hk. unfold tache_ok, is_i64, is_u32. cbn. split; [lia|]. split; [lia|]. repeat constructor; lia. Qed.

Lemma reseau_exemple_ok k : 0 <= k <= 9 -> reseau_ok (reseau_exemple k).
Proof. intros Hk. unfold reseau_ok. cbn. repeat constructor; lia. Qed.

Lemma psi_zero_ok : psi_ok psi_zero.
Proof. unfold psi_ok, is_i64, is_u64, is_u32. cbn. lia. Qed.

Lemma episode_exact_witness :
  wp (EvaluerEpisodeCinetique (tache_exemple 0) (tache_exemple 1) psi_zero psi_zero (reseau_exemple 1) topologie_simple ConfigPlanchersParDefaut)
    (fun res => match res with inl _ => False | inr q => Valeur q 0 = 4096 /\ Valeur q 9 = 1250 end).
Proof.
  eapply wp_mono; [apply episode_exact; first [by apply tache_exemple_ok|by apply reseau_exemple_ok|apply psi_zero_ok|done]|].
  intros [e|q]; [by vm_compute|]. intros (_ & _ & H). split; [destruct (H 0) as (_ & -> & _)|destruct (H 9) as (_ & -> & _)]; by (lia || vm_compute).
Defined.

Lemma quotients_invariants_witness : exists q q',
  EvaluerEpisodeCinetique (tache_exemple 0) (tache_exemple 1) psi_zero psi_zero (reseau_exemple 1) topologie_simple ConfigPlanchersParDefaut = Done (inr q) /\
  EvaluerEpisodeCinetique (tache_exemple 1) (tache_exemple 3) psi_zero psi_zero (reseau_exemple 2) topologie_simple ConfigPlanchersParDefaut = Done (inr q') /\
  forall i, 0 <= i < 12 -> EstValide q i = true -> EstValide q' i = true /\ Valeur q' i = Valeur q i.
Proof.
  destruct (quotients_invariants 2 (tache_exemple 0) (tache_exemple 1) (tache_exemple 1) (tache_exemple 3) psi_zero psi_zero (reseau_exemple 1) (reseau_exemple 2)
    topologie_simple ConfigPlanchersParDefaut) as (q & q' & E & E' & H); [first [by apply tache_exemple_ok|by apply reseau_exemple_ok|apply psi_zero_ok|done|by vm_compute]..|].
  exists q, q'. split; [exact E|]. split; [exact E'|]. intros i Hi. apply (H i Hi).
Defined.
