(* ===== verification/Robuste.v ===== *)
(** The robust statistics of one quotient (src/internal/cinetique/profil_welford.go,
    [SuiviQuotientRobuste]): Welford's running mean, the ring of the last 32
    observations, its integer median and median absolute deviation, the deviation of
    an observation in per cent and in thousandths of scale.  The theorems: the ring is
    the last observations, the sort sorts, the two medians are exact, and no minority
    of the observations moves them out of the range of the majority. *)
From stdpp Require Import list_numbers sorting.
From Stdlib Require Import SpecFloat Sorted.
From S2P Require Import Prelude Flottant Quotients.
Local Open Scope Z_scope.

Definition TailleAnneauRobuste : Z := 32.

Record SuiviQuotientRobuste := Suivi {
  NombreObservations : Z; Moyenne : f64; M2 : f64; Anneau : list Z; CurseurAnneau : Z; TailleAnneau : Z
}.
Definition suivi_vide : SuiviQuotientRobuste := Suivi 0 (S754_zero false) (S754_zero false) (replicate 32 0) 0 0.

Definition Enregistrer (s : SuiviQuotientRobuste) (observation : Z) : run SuiviQuotientRobuste :=
  let n := u64 (NombreObservations s + 1) in
  let obsFlottante := f_of_Z observation in
  let ecartAvant := fsub obsFlottante (Moyenne s) in
  let moyenne := fadd (Moyenne s) (fdiv ecartAvant (f_of_Z n)) in
  let ecartApres := fsub obsFlottante moyenne in
  let m2 := fadd (M2 s) (fmul ecartAvant ecartApres) in
  a ← upd (Anneau s) (CurseurAnneau s) observation;
  let curseur := u8 (CurseurAnneau s + 1) mod TailleAnneauRobuste in
  let taille := if TailleAnneau s <? TailleAnneauRobuste then u8 (TailleAnneau s + 1) else TailleAnneau s in
  Done (Suivi n moyenne m2 a curseur taille).

(** [math.Abs], [math.Max] and the integer of [math.Round], half away from zero. *)
Definition f_abs (x : f64) : f64 :=
  match x with S754_zero _ => S754_zero false | S754_infinity _ => S754_infinity false | S754_nan => S754_nan | S754_finite _ m e => S754_finite false m e end.
Definition f_max (x y : f64) : f64 :=
  match x, y with
  | S754_infinity false, _ | _, S754_infinity false => S754_infinity false
  | S754_nan, _ | _, S754_nan => S754_nan
  | S754_zero sx, S754_zero _ => if sx then y else x
  | _, _ => if fltb y x then x else y
  end.
Definition f_arrondi (x : f64) : option Z :=
  match x with
  | S754_zero _ => Some 0
  | S754_finite s m e =>
      let a := if 0 <=? e then Z.pos m * 2 ^ e else (2 * Z.pos m + 2 ^ (- e)) / 2 ^ (1 - e) in
      Some (if s then - a else a)
  | _ => None
  end.

Definition EcartType (s : SuiviQuotientRobuste) : f64 :=
  if NombreObservations s <? 2 then S754_zero false else fsqrt (fdiv (M2 s) (f_of_Z (NombreObservations s - 1))).

(** [hors]: the conversion to int64 of a float that is none. *)
Definition ZScoreMilli (hors : f64 -> Z) (s : SuiviQuotientRobuste) (observation : Z) : Z :=
  let sigma := EcartType s in
  let plancher := f_max (f_of_Z 1) (fmul (f_decimal 5 2) (f_abs (Moyenne s))) in
  let sigma := if fltb sigma plancher then plancher else sigma in
  let x := fdiv (fmul (f_of_Z 1000) (fsub (f_of_Z observation) (Moyenne s))) sigma in
  match f_arrondi x with Some z => if (- 2 ^ 63 <=? z) && (z <? 2 ^ 63) then z else hors x | None => hors x end.

(** The inner loop of the insertion sort, from [j = n - 1] down. *)
Fixpoint decaler (n : nat) (tranche : list Z) (cle : Z) : run (list Z) :=
  match n with
  | O => upd tranche 0 cle
  | S j =>
      x ← idx tranche (Z.of_nat j);
      if cle <? x then (tranche ← upd tranche (Z.of_nat j + 1) x; decaler j tranche cle)
      else upd tranche (Z.of_nat j + 1) cle
  end.

Definition trierInsertionInt64 (tranche : list Z) : run (list Z) :=
  o ← for_from (R := unit) (fun i tranche => cle ← idx tranche i; t ← decaler (Z.to_nat i) tranche cle; Done (inl t))
        1 (length tranche - 1) tranche;
  Done (match o with inl t => t | inr _ => tranche end).

Definition medianeTrancheTriee (triee : list Z) : run Z :=
  let n := zlen triee in
  if n =? 0 then Done 0 else
  let milieu := n / 2 in
  if n mod 2 =? 1 then idx triee milieu else
  a ← idx triee (milieu - 1);
  b ← idx triee milieu;
  Done (i64 (Z.land a b + Z.shiftr (Z.lxor a b) 1)).

Definition magnitudeInt64 (v : Z) : Z := if 0 <=? v then u64 v else u64 (Z.lxor (u64 v) (2 ^ 64 - 1) + 1).
Definition distanceAbsInt64 (a b : Z) : Z := if b <=? a then u64 (u64 a - u64 b) else u64 (u64 b - u64 a).

(** The copy of the first [n] cells, then of their distances to [mediane]. *)
Definition copier_anneau (anneau : list Z) (n : Z) : run (list Z) :=
  o ← for_range (R := unit) n (replicate 32 0) (fun i copie => x ← idx anneau i; c ← upd copie i x; Done (inl c));
  Done (match o with inl c => c | inr _ => [] end).

Definition copier_ecarts (copie : list Z) (mediane n : Z) : run (list Z) :=
  o ← for_range (R := unit) n (replicate 32 0) (fun i ecarts =>
        x ← idx copie i;
        let mag := distanceAbsInt64 x mediane in
        e ← upd ecarts i (if MaxInt64 <? mag then MaxInt64 else i64 mag);
        Done (inl e));
  Done (match o with inl e => e | inr _ => [] end).

Definition MedianeEtMADM (s : SuiviQuotientRobuste) : run (Z * Z) :=
  let n := TailleAnneau s in
  if n =? 0 then Done (0, 0) else
  copie ← copier_anneau (Anneau s) n;
  tranche ← slice copie 0 n;
  tranche ← trierInsertionInt64 tranche;
  mediane ← medianeTrancheTriee tranche;
  ecarts ← copier_ecarts tranche mediane n;
  tranche ← slice ecarts 0 n;
  tranche ← trierInsertionInt64 tranche;
  madm ← medianeTrancheTriee tranche;
  Done (mediane, madm).

(** Variation in per cent, deviation in thousandths of the robust scale. *)
Definition EvaluerEcart (s : SuiviQuotientRobuste) (observation : Z) : run (Z * Z) :=
  if TailleAnneau s =? 0 then Done (0, 0) else
  '(mediane, madm) ← MedianeEtMADM s;
  let absMediane := magnitudeInt64 mediane in
  let denomPct := Z.max absMediane 1 in
  let diffMag := distanceAbsInt64 observation mediane in
  pctAbs ← diviserEchelle64 diffMag 100 denomPct;
  let variationPct := if observation <? mediane then i64 (- pctAbs) else pctAbs in
  e ← diviserEchelle64 (magnitudeInt64 madm) 1483 1000;
  let echelle := u64 e in
  let plancher := Z.max (absMediane / 20) 1 in
  let echelle := if echelle <? plancher then plancher else echelle in
  scoreRobusteMilli ← diviserEchelle64 diffMag 1000 echelle;
  Done (variationPct, scoreRobusteMilli).

(** * The insertion sort sorts *)

Definition trie (l : list Z) : list Z := merge_sort Z.le l.

Lemma trie_perm l : trie l ≡ₚ l.
Proof. apply merge_sort_Permutation. Qed.

Lemma trie_triee l : StronglySorted Z.le (trie l).
Proof. apply StronglySorted_merge_sort; apply _. Qed.

Lemma trie_unique l t : StronglySorted Z.le t -> t ≡ₚ l -> t = trie l.
Proof.
  intros Hs Hp. apply (StronglySorted_unique Z.le); [done|apply trie_triee|]. by rewrite trie_perm.
Qed.

Lemma zlen_trie l : zlen (trie l) = zlen l.
Proof. unfold zlen. by rewrite (Permutation_length (trie_perm l)). Qed.

(** The key goes down a sorted prefix [pre], whose shifted tail [suf] is larger. *)
Lemma decaler_ok n : forall pre suf trou post cle, length pre = n -> StronglySorted Z.le (pre ++ suf) -> Forall (fun x => cle < x) suf ->
  exists t, decaler n (pre ++ trou :: suf ++ post) cle = Done (t ++ post) /\ StronglySorted Z.le t /\ t ≡ₚ cle :: pre ++ suf.
Proof.
  induction n as [|j IH]; intros pre suf trou post cle Hn Hs Hf; cbn [decaler].
  - destruct pre; [|done]. exists (cle :: suf). cbn [app] in *. change (trou :: suf ++ post) with ([] ++ trou :: suf ++ post) at 1.
    rewrite upd_mid by done. split; [done|]. split; [|done]. constructor; [done|]. eapply Forall_impl; [exact Hf|]. cbn. lia.
  - destruct (exists_last (l := pre)) as (pre' & x & ->); [by intros ->|]. rewrite length_app in Hn. cbn in Hn.
    rewrite <- app_assoc. cbn [app]. rewrite idx_mid, run_bind_done by (unfold zlen; lia).
    destruct (Z.ltb_spec cle x) as [Hx|Hx].
    + replace (pre' ++ x :: trou :: suf ++ post) with ((pre' ++ [x]) ++ trou :: suf ++ post) by (by rewrite <- app_assoc).
      rewrite upd_mid, run_bind_done by (unfold zlen; rewrite length_app; cbn; lia).
      rewrite <- app_assoc. cbn [app]. destruct (IH pre' (x :: suf) x post cle) as (t & E & Ht & Hp); [lia|by rewrite <- app_assoc in Hs|by constructor|].
      exists t. split; [exact E|]. split; [done|]. by rewrite Hp, <- app_assoc.
    + exists ((pre' ++ [x]) ++ cle :: suf).
      replace (pre' ++ x :: trou :: suf ++ post) with ((pre' ++ [x]) ++ trou :: suf ++ post) by (by rewrite <- app_assoc).
      rewrite upd_mid by (unfold zlen; rewrite length_app; cbn; lia). split; [by rewrite <- !app_assoc|].
      split; [|by rewrite <- Permutation_middle].
      apply StronglySorted_app in Hs as (H1 & H2 & H3). apply StronglySorted_app. split; [|split; [done|]].
      * intros y z Hy [->|Hz]%elem_of_cons; [|by apply H1]. apply StronglySorted_app in H2 as (H4 & _).
        apply elem_of_app in Hy as [Hy| ->%list_elem_of_singleton]; [|done]. specialize (H4 y x Hy ltac:(by apply list_elem_of_singleton)). lia.
      * constructor; [done|]. eapply Forall_impl; [exact Hf|]. cbn. lia.
Qed.

Lemma trier_ok l : trierInsertionInt64 l = Done (trie l).
Proof.
  unfold trierInsertionInt64. match goal with |- ?m ≫= _ = _ => assert (exists t, m = Done (inl t) /\ t = trie l) as (t & -> & ->); [|done] end.
  assert (forall n pre post, length post = n -> StronglySorted Z.le pre -> length pre <> 0%nat -> exists t,
    for_from (R := unit) (fun i tranche => cle ← idx tranche i; t ← decaler (Z.to_nat i) tranche cle; Done (inl t)) (zlen pre) n (pre ++ post) = Done (inl t) /\
    StronglySorted Z.le t /\ t ≡ₚ pre ++ post) as H.
  { induction n as [|n IH]; intros pre post Hn Hs Hp.
    - destruct post; [|done]. exists pre. by rewrite app_nil_r.
    - destruct post as [|cle post]; [done|]. cbn [for_from]. rewrite idx_mid, run_bind_done by done.
      destruct (decaler_ok (length pre) pre [] cle post cle eq_refl) as (t & E & Ht & Hpt); [by rewrite app_nil_r|constructor|].
      rewrite app_nil_r in Hpt. cbn [app] in E. replace (Z.to_nat (zlen pre)) with (length pre) by (unfold zlen; lia). rewrite E, !run_bind_done.
      replace (zlen pre + 1) with (zlen t) by (unfold zlen; rewrite (Permutation_length Hpt); cbn; lia).
      destruct (IH t post) as (t' & E' & Ht' & Hpt'); [by injection Hn|done|rewrite (Permutation_length Hpt); cbn; lia|].
      exists t'. split; [done|]. split; [done|]. rewrite Hpt', Hpt. cbn [app]. apply Permutation_middle. }
  destruct l as [|x l]; [by exists []|]. destruct (H (length l) [x] l eq_refl) as (t & E & Ht & Hp); [by repeat constructor|done|].
  exists t. cbn [length]. rewrite Nat.sub_1_r. cbn [pred]. split; [exact E|]. by apply trie_unique.
Qed.

(** * The median *)

Definition mediane (l : list Z) : Z := ((trie l !!! ((length l - 1) / 2)%nat) + (trie l !!! (length l / 2)%nat)) / 2.

Lemma demi_somme a b : Z.land a b + Z.shiftr (Z.lxor a b) 1 = (a + b) / 2.
Proof.
  rewrite Z.shiftr_div_pow2 by lia. change (2 ^ 1) with 2. rewrite <- (Z.add_lxor_2land a b), (Z.mul_comm 2), Z.div_add by lia. lia.
Qed.

Lemma idx_total (l : list Z) i : 0 <= i < zlen l -> idx l i = Done (l !!! Z.to_nat i).
Proof.
  intros Hi. destruct (lookup_lt_is_Some_2 l (Z.to_nat i)) as [x Hx]; [unfold zlen in Hi; lia|].
  rewrite (idx_lookup l i x) by (done || lia). by rewrite (list_lookup_total_correct _ _ _ Hx).
Qed.

Lemma total_Forall (P : Z -> Prop) l i : Forall P l -> (i < length l)%nat -> P (l !!! i).
Proof.
  intros Hf Hi. destruct (lookup_lt_is_Some_2 l i Hi) as [x Hx]. rewrite (list_lookup_total_correct _ _ _ Hx).
  by apply (Forall_lookup_1 _ _ _ _ Hf Hx).
Qed.

Lemma mediane_ok l : Forall is_i64 l -> l <> [] -> medianeTrancheTriee (trie l) = Done (mediane l).
Proof.
  intros Hf Hn. assert (Forall is_i64 (trie l)) as Hf' by (by rewrite trie_perm). assert (0 < zlen l) by (destruct l; [done|rewrite zlen_cons; pose proof (zlen_nonneg l); lia]).
  unfold medianeTrancheTriee, mediane. rewrite zlen_trie, (proj2 (Z.eqb_neq _ _)) by lia.
  pose proof (Z.div_mod (zlen l) 2 ltac:(lia)) as E. pose proof (Z.mod_pos_bound (zlen l) 2 ltac:(lia)).
  assert (length (trie l) = length l) as El by (pose proof (zlen_trie l); unfold zlen in *; lia).
  assert (Z.to_nat (zlen l / 2) = (length l / 2)%nat) as E2 by (unfold zlen; rewrite <- (Nat2Z.id (length l / 2)), Nat2Z.inj_div; done).
  destruct (Z.eqb_spec (zlen l mod 2) 1) as [Em|Em].
  - rewrite idx_total by (rewrite zlen_trie; lia). rewrite E2. f_equal.
    replace ((length l - 1) / 2)%nat with (length l / 2)%nat.
    2: { apply Nat2Z.inj. rewrite !Nat2Z.inj_div, Nat2Z.inj_sub by (unfold zlen in *; lia). unfold zlen in *. divlia. }
    set (x := trie l !!! _). replace (x + x) with (x * 2) by lia. by rewrite Z.div_mul.
  - rewrite !idx_total, !run_bind_done by (rewrite zlen_trie; lia). rewrite E2.
    replace (Z.to_nat (zlen l / 2 - 1)) with ((length l - 1) / 2)%nat.
    2: { apply Nat2Z.inj. rewrite !Nat2Z.inj_div, Nat2Z.inj_sub by (unfold zlen in *; lia). unfold zlen in *. divlia. }
    rewrite demi_somme. f_equal. apply i64_id.
    assert (is_i64 (trie l !!! ((length l - 1) / 2)%nat)) as H1 by (apply total_Forall; [done|]; rewrite El; apply Nat.Div0.div_lt_upper_bound; unfold zlen in *; lia).
    assert (is_i64 (trie l !!! (length l / 2)%nat)) as H2 by (apply total_Forall; [done|]; rewrite El; apply Nat.div_lt; unfold zlen in *; lia).
    unfold is_i64 in *. split; [apply Z.div_le_lower_bound|apply Z.div_lt_upper_bound]; lia.
Qed.

(** * The absolute deviations *)

Definition madm (l : list Z) : Z := mediane ((fun x => Z.min MaxInt64 (Z.abs (x - mediane l))) <$> trie l).

Lemma distance_ok a b : is_i64 a -> is_i64 b -> distanceAbsInt64 a b = Z.abs (a - b).
Proof.
  unfold is_i64, distanceAbsInt64, u64. intros Ha Hb.
  destruct (Z.leb_spec b a); rewrite <- Zminus_mod, Z.mod_small by lia; lia.
Qed.

Lemma magnitude_ok v : is_i64 v -> magnitudeInt64 v = Z.abs v.
Proof.
  unfold is_i64, magnitudeInt64. intros Hv. destruct (Z.leb_spec 0 v); [rewrite u64_id by (unfold is_u64; lia); lia|].
  assert (u64 v = v + 2 ^ 64) as -> by (unfold u64; symmetry; apply (Z.mod_unique _ _ (-1)); lia).
  assert (Z.lxor (v + 2 ^ 64) (2 ^ 64 - 1) = - v - 1) as ->; [|rewrite u64_id by (unfold is_u64; lia); lia].
  pose proof (Z.add_lxor_2land (v + 2 ^ 64) (2 ^ 64 - 1)) as E. change (2 ^ 64 - 1) with (Z.ones 64) in *.
  rewrite Z.land_ones, Z.mod_small in E by lia. change (Z.ones 64) with (2 ^ 64 - 1) in *. lia.
Qed.

Lemma mediane_range l a b : Forall (fun x => a <= x <= b) l -> l <> [] -> a <= mediane l <= b.
Proof.
  intros Hf Hn. assert (Forall (fun x => a <= x <= b) (trie l)) as Hf' by (by rewrite trie_perm).
  assert (length (trie l) = length l) as El by (pose proof (zlen_trie l); unfold zlen in *; lia). assert (length l <> 0%nat) by (by destruct l).
  pose proof (total_Forall _ _ ((length l - 1) / 2) Hf' ltac:(rewrite El; apply Nat.Div0.div_lt_upper_bound; lia)).
  pose proof (total_Forall _ _ (length l / 2) Hf' ltac:(rewrite El; apply Nat.div_lt; lia)). cbv beta in *.
  unfold mediane. split; [apply Z.div_le_lower_bound|apply Z.div_le_upper_bound]; lia.
Qed.

(** A loop that fills a fresh array of 32 cells. *)
Lemma remplir_ok (f : Z -> Z) (g : Z -> list Z -> run (list Z + unit)) n l : 0 <= n <= 32 -> n <= zlen l ->
  (forall i c x, 0 <= i < n -> l !! Z.to_nat i = Some x -> zlen c = 32 -> g i c = Done (inl (<[Z.to_nat i := f x]> c))) ->
  exists c, for_range n (replicate 32 0) g = Done (inl c) /\ zlen c = 32 /\ take (Z.to_nat n) c = f <$> take (Z.to_nat n) l.
Proof.
  intros Hn Hl Hg. cut (wp (for_range n (replicate 32 0) g) (fun o => exists c, o = inl c /\ zlen c = 32 /\ take (Z.to_nat n) c = f <$> take (Z.to_nat n) l)).
  { intros (o & E & c & -> & H)%wp_exists. by exists c. }
  apply (wp_for_range (fun i c => zlen c = 32 /\ take (Z.to_nat i) c = f <$> take (Z.to_nat i) l)); [lia|done| |].
  - intros i c Hi [Hz Hc]. destruct (lookup_lt_is_Some_2 l (Z.to_nat i)) as [x Hx]; [unfold zlen in *; lia|].
    rewrite (Hg i c x) by done. apply wp_done. rewrite zlen_insert. split; [done|].
    rewrite take_insert_snoc by lia. replace (Z.to_nat (i + 1)) with (S (Z.to_nat i)) by lia.
    by rewrite (take_S_r _ _ _ Hx), fmap_app, Hc.
  - intros c [Hz Hc]. by exists c.
Qed.

Definition anneau_ok (s : SuiviQuotientRobuste) : Prop :=
  zlen (Anneau s) = 32 /\ 0 <= TailleAnneau s <= 32 /\ Forall is_i64 (Anneau s).
(** The observations held. *)
Definition observations (s : SuiviQuotientRobuste) : list Z := take (Z.to_nat (TailleAnneau s)) (Anneau s).

Lemma copie_tranche (c : list Z) n : zlen c = 32 -> 0 <= n <= 32 -> slice c 0 n = Done (take (Z.to_nat n) c).
Proof.
  intros Hc Hn. unfold slice. rewrite Hc, !(proj2 (Z.leb_le _ _)) by lia. cbn [andb]. by rewrite drop_0, Z.sub_0_r.
Qed.

Lemma longueur_trie l : length (trie l) = length l.
Proof. apply Permutation_length, trie_perm. Qed.

Lemma i64_intervalle l : Forall is_i64 l <-> Forall (fun x => - 2 ^ 63 <= x <= 2 ^ 63 - 1) l.
Proof. split; (intros H; eapply Forall_impl; [exact H|]); unfold is_i64; cbn; lia. Qed.

Lemma ecarts_bornes l : Forall (fun x => 0 <= x <= MaxInt64) ((fun x => Z.min MaxInt64 (Z.abs (x - mediane l))) <$> trie l).
Proof. apply Forall_fmap, Forall_forall. intros x _. unfold MaxInt64. cbn. lia. Qed.

Lemma ecarts_non_vides l : l <> [] -> ((fun x => Z.min MaxInt64 (Z.abs (x - mediane l))) <$> trie l) <> [].
Proof. intros Hn E. apply (f_equal length) in E. rewrite length_fmap, longueur_trie in E. by destruct l. Qed.

Lemma copier_anneau_ok l n : zlen l = 32 -> 0 <= n <= 32 -> exists c, copier_anneau l n = Done c /\ zlen c = 32 /\ take (Z.to_nat n) c = take (Z.to_nat n) l.
Proof.
  intros Hl Hn. unfold copier_anneau. match goal with |- context [for_range n _ ?g] => destruct (remplir_ok (fun x => x) g n l Hn) as (c & -> & Hc & Etc) end.
  - rewrite Hl. apply Hn.
  - intros i c x Hi Hx Hc. rewrite (idx_lookup _ _ x), run_bind_done by (done || lia). by rewrite upd_ok, run_bind_done by lia.
  - exists c. by rewrite list_fmap_id in Etc.
Qed.

Lemma copier_ecarts_ok l m n : Forall is_i64 l -> is_i64 m -> zlen l = n -> 0 <= n <= 32 ->
  exists c, copier_ecarts l m n = Done c /\ zlen c = 32 /\ take (Z.to_nat n) c = (fun x => Z.min MaxInt64 (Z.abs (x - m))) <$> l.
Proof.
  intros Hf Hm Hl Hn. unfold copier_ecarts. match goal with |- context [for_range n _ ?g] =>
    destruct (remplir_ok (fun x => Z.min MaxInt64 (Z.abs (x - m))) g n l Hn) as (c & -> & Hc & Etc) end.
  - rewrite Hl. apply Z.le_refl.
  - intros i c x Hi Hx Hc. rewrite (idx_lookup _ _ x), run_bind_done by (done || lia). cbv zeta. rewrite distance_ok by (done || by apply (Forall_lookup_1 _ _ _ _ Hf Hx)).
    rewrite upd_ok, run_bind_done by lia. unfold MaxInt64. destruct (Z.ltb_spec 9223372036854775807 (Z.abs (x - m))).
    + by rewrite Z.min_l by lia.
    + rewrite i64_id by (unfold is_i64; lia). by rewrite Z.min_r by lia.
  - exists c. split; [done|]. split; [done|]. rewrite Etc, take_ge by (unfold zlen in *; lia). done.
Qed.

Lemma MedianeEtMADM_ok s : anneau_ok s -> 0 < TailleAnneau s ->
  MedianeEtMADM s = Done (mediane (observations s), madm (observations s)) /\ is_i64 (mediane (observations s)) /\ 0 <= madm (observations s) <= MaxInt64.
Proof.
  intros (Hz & Ht & Hf) Hp. unfold MedianeEtMADM. rewrite (proj2 (Z.eqb_neq _ _)) by lia.
  destruct (copier_anneau_ok (Anneau s) (TailleAnneau s) Hz Ht) as (c & -> & Hc & Etc). rewrite run_bind_done, copie_tranche, Etc by done.
  fold (observations s). set (l := observations s). assert (length l = Z.to_nat (TailleAnneau s)) as Hl by (unfold l, observations; rewrite length_take; unfold zlen in *; lia).
  assert (Forall is_i64 l) as Hfl by (by apply Forall_take). assert (l <> []) as Hne by (intros E; rewrite E in Hl; cbn in Hl; lia).
  assert (is_i64 (mediane l)) as Hm by (cut (- 2 ^ 63 <= mediane l <= 2 ^ 63 - 1); [unfold is_i64; lia|]; apply mediane_range; [by apply i64_intervalle|done]).
  pose proof (ecarts_bornes l) as Hfe. pose proof (ecarts_non_vides l Hne) as Hne'. split; [|split; [done|by apply mediane_range]].
  rewrite run_bind_done, trier_ok, run_bind_done, mediane_ok, run_bind_done by done.
  destruct (copier_ecarts_ok (trie l) (mediane l) (TailleAnneau s)) as (d & -> & Hd & Etd); [by rewrite trie_perm|done|rewrite zlen_trie; unfold zlen; lia|done|].
  rewrite run_bind_done, copie_tranche, Etd, run_bind_done, trier_ok, run_bind_done, mediane_ok by
    (done || (apply i64_intervalle; eapply Forall_impl; [exact Hfe|]; unfold MaxInt64; cbn; lia)). done.
Qed.

(** ** The deviation of an observation *)

Definition ecart_relatif (m o : Z) : Z := echelle (Z.abs (o - m)) 100 (Z.max (Z.abs m) 1).
Definition echelle_robuste (m d : Z) : Z := Z.max (echelle d 1483 1000) (Z.max (Z.abs m / 20) 1).
Definition score (m d o : Z) : Z := echelle (Z.abs (o - m)) 1000 (echelle_robuste m d).

Lemma EvaluerEcart_ok s o : anneau_ok s -> 0 < TailleAnneau s -> is_i64 o ->
  let l := observations s in
  EvaluerEcart s o = Done (if o <? mediane l then - ecart_relatif (mediane l) o else ecart_relatif (mediane l) o, score (mediane l) (madm l) o).
Proof.
  intros Ha Hp Ho l. destruct (MedianeEtMADM_ok s Ha Hp) as (E & Hm & Hd). fold l in E, Hm, Hd. unfold EvaluerEcart.
  rewrite (proj2 (Z.eqb_neq _ _)), E, run_bind_done by lia. cbv zeta. rewrite distance_ok, !magnitude_ok by (done || (unfold is_i64, MaxInt64 in *; lia)).
  unfold is_i64, MaxInt64 in *. rewrite (Z.abs_eq (madm l)) by lia.
  assert (0 <= Z.abs (mediane l) / 20 <= 2 ^ 63) by (split; [apply Z.div_pos; lia|apply Z.div_le_upper_bound; lia]).
  pose proof (echelle_range (madm l) 1483 1000 ltac:(lia) ltac:(lia) ltac:(lia)) as He. unfold MaxInt64 in He.
  pose proof (echelle_range (Z.abs (o - mediane l)) 100 (Z.max (Z.abs (mediane l)) 1) ltac:(lia) ltac:(lia) ltac:(lia)) as He2. unfold MaxInt64 in He2.
  rewrite !diviser_ok, !run_bind_done by (unfold is_u64; lia). rewrite (u64_id (echelle (madm l) 1483 1000)) by (unfold is_u64; lia).
  assert ((if echelle (madm l) 1483 1000 <? Z.max (Z.abs (mediane l) / 20) 1 then Z.max (Z.abs (mediane l) / 20) 1 else echelle (madm l) 1483 1000)
    = echelle_robuste (mediane l) (madm l)) as -> by (unfold echelle_robuste; destruct (Z.ltb_spec (echelle (madm l) 1483 1000) (Z.max (Z.abs (mediane l) / 20) 1)); lia).
  rewrite diviser_ok, run_bind_done by (unfold is_u64, echelle_robuste; lia). unfold ecart_relatif, score. do 2 f_equal.
  destruct (o <? mediane l); [|done]. apply i64_id. unfold is_i64. lia.
Qed.

(** * No minority moves the statistics *)

Definition dans (a b : Z) (l : list Z) : Z := zlen (filter (fun x => a <= x <= b) l).

Lemma dans_perm a b l k : l ≡ₚ k -> dans a b l = dans a b k.
Proof. intros H. unfold dans, zlen. by rewrite H. Qed.

Lemma dans_app a b l k : dans a b (l ++ k) = dans a b l + dans a b k.
Proof. unfold dans. by rewrite filter_app, zlen_app. Qed.

Lemma dans_borne a b l : 0 <= dans a b l <= zlen l.
Proof. unfold dans, zlen. pose proof (length_filter (fun x => a <= x <= b) l). lia. Qed.

Lemma dans_nul a b l : (forall x, x ∈ l -> ~ a <= x <= b) -> dans a b l = 0.
Proof.
  intros H. unfold dans. destruct (filter (fun x => a <= x <= b) l) as [|x k] eqn:E; [done|].
  assert (x ∈ filter (fun x => a <= x <= b) l) as [Hx Hl]%list_elem_of_filter by (rewrite E; by left). by destruct (H x).
Qed.

Lemma dans_fmap a b c d (f : Z -> Z) l : (forall x, a <= x <= b -> c <= f x <= d) -> dans a b l <= dans c d (f <$> l).
Proof.
  intros H. unfold dans. induction l as [|x l IH]; [done|]. rewrite fmap_cons, !filter_cons.
  destruct (decide (a <= x <= b)) as [Hx|], (decide (c <= f x <= d)); rewrite ?zlen_cons; try lia. by destruct n; apply H.
Qed.

Lemma triee_croit l i j : (i <= j)%nat -> (j < length l)%nat -> StronglySorted Z.le l -> l !!! i <= l !!! j.
Proof.
  intros Hij Hj Hs. destruct (decide (i = j)) as [->|]; [lia|].
  apply (StronglySorted_app_1_elem_of Z.le (take j l) (drop j l)); [by rewrite take_drop|..]; apply list_elem_of_lookup.
  - exists i. rewrite lookup_take_lt by lia. apply list_lookup_lookup_total_lt. lia.
  - exists 0%nat. rewrite lookup_drop, Nat.add_0_r. by apply list_lookup_lookup_total_lt.
Qed.

Lemma majorite a b l : zlen l < 2 * dans a b l -> a <= mediane l <= b.
Proof.
  intros Hm. pose proof (trie_triee l) as Hs. pose proof (longueur_trie l) as El. rewrite <- (dans_perm _ _ _ _ (trie_perm l)) in Hm.
  rewrite <- (zlen_trie l) in Hm. unfold mediane. rewrite <- El. clear El. revert Hm Hs. generalize (trie l). clear l. intros t Hm Hs.
  pose proof (dans_borne a b t). assert (length t <> 0%nat) by (unfold zlen in *; lia). set (k := ((length t - 1) / 2)%nat). set (k' := (length t / 2)%nat).
  assert (k < length t)%nat by (apply Nat.Div0.div_lt_upper_bound; lia). assert (k' < length t)%nat by (apply Nat.div_lt; lia).
  assert (k <= k')%nat by (apply Nat.Div0.div_le_mono; lia).
  assert (length t <= 2 * k + 2)%nat by (pose proof (Nat.div_mod (length t - 1) 2 ltac:(lia)); pose proof (Nat.mod_upper_bound (length t - 1) 2); unfold k; lia).
  assert (2 * k' <= length t)%nat by (apply Nat.Div0.mul_div_le).
  pose proof (triee_croit t k k' ltac:(done) ltac:(done) Hs).
  assert (a <= t !!! k) as Ha.
  { destruct (Z.le_gt_cases a (t !!! k)); [done|]. exfalso. pose proof (dans_app a b (take (S k) t) (drop (S k) t)) as Ed.
    rewrite take_drop, (dans_nul a b (take (S k) t)) in Ed; [pose proof (dans_borne a b (drop (S k) t)); unfold zlen in *; rewrite length_drop in *; lia|].
    intros x (i & Hi)%list_elem_of_lookup [Hx _]. apply lookup_take_Some in Hi as [Hi Hik].
    pose proof (triee_croit t i k ltac:(lia) ltac:(done) Hs). rewrite (list_lookup_total_correct _ _ _ Hi) in *. lia. }
  assert (t !!! k' <= b) as Hb.
  { destruct (Z.le_gt_cases (t !!! k') b); [done|]. exfalso. pose proof (dans_app a b (take k' t) (drop k' t)) as Ed.
    rewrite take_drop, (dans_nul a b (drop k' t)) in Ed; [pose proof (dans_borne a b (take k' t)); unfold zlen in *; rewrite length_take in *; lia|].
    intros x (i & Hi)%list_elem_of_lookup [_ Hx]. rewrite lookup_drop in Hi.
    pose proof (triee_croit t k' (k' + i) ltac:(lia) (lookup_lt_Some _ _ _ Hi) Hs). rewrite (list_lookup_total_correct _ _ _ Hi) in *. lia. }
  split; [apply Z.div_le_lower_bound|apply Z.div_le_upper_bound]; lia.
Qed.

Lemma majorite_madm a b l : zlen l < 2 * dans a b l -> 0 <= madm l <= b - a.
Proof.
  intros Hm. pose proof (majorite a b l Hm). unfold madm. apply majorite.
  pose proof (dans_fmap a b 0 (b - a) (fun x => Z.min MaxInt64 (Z.abs (x - mediane l))) (trie l) ltac:(unfold MaxInt64; lia)) as Hf.
  rewrite (dans_perm _ _ _ _ (trie_perm l)) in Hf. unfold zlen in *. rewrite length_fmap, longueur_trie. lia.
Qed.

(** * The ring holds the last observations *)

Definition dernieres (H : list Z) : list Z := drop (length H - 32) H.

Definition suit (s : SuiviQuotientRobuste) (H : list Z) : Prop :=
  anneau_ok s /\ NombreObservations s = u64 (zlen H) /\ CurseurAnneau s = zlen H mod 32 /\ TailleAnneau s = Z.min 32 (zlen H) /\
  forall k, 0 <= k -> zlen H - 32 <= k < zlen H -> Anneau s !! Z.to_nat (k mod 32) = H !! Z.to_nat k.

Lemma suit_vide : suit suivi_vide [].
Proof.
  split; [|split; [done|split; [done|split; [done|intros k Hk Hk2; change (zlen (@nil Z)) with 0 in Hk2; lia]]]].
  split; [done|]. split; [cbn; lia|]. apply Forall_replicate. unfold is_i64. lia.
Qed.

Lemma Enregistrer_ok s H o : suit s H -> is_i64 o -> exists s', Enregistrer s o = Done s' /\ suit s' (H ++ [o]).
Proof.
  intros ((Hz & Ht & Hf) & Hn & Hc & Hl & Hr) Ho. unfold Enregistrer. pose proof (Z.mod_pos_bound (zlen H) 32 ltac:(lia)). pose proof (zlen_nonneg H).
  rewrite Hc, upd_ok, run_bind_done by lia. eexists. split; [done|].
  unfold suit, anneau_ok. cbn [Anneau TailleAnneau NombreObservations CurseurAnneau]. rewrite zlen_insert, zlen_app. change (zlen [o]) with 1.
  assert ((if TailleAnneau s <? TailleAnneauRobuste then u8 (TailleAnneau s + 1) else TailleAnneau s) = Z.min 32 (zlen H + 1)) as ->.
  { unfold TailleAnneauRobuste. destruct (Z.ltb_spec (TailleAnneau s) 32); [rewrite u8_id by (unfold is_u8; lia)|]; lia. }
  split_and!; try done; try lia.
  - by apply Forall_insert.
  - rewrite Hn. unfold u64. by rewrite Zplus_mod_idemp_l.
  - rewrite u8_id by (unfold is_u8; lia). unfold TailleAnneauRobuste. by rewrite Zplus_mod_idemp_l.
  - intros k Hk Hk2. destruct (decide (k = zlen H)) as [->|].
    + rewrite list_lookup_insert_eq by (unfold zlen in *; lia). rewrite lookup_app_r by (unfold zlen; lia).
      by replace (Z.to_nat (zlen H) - length H)%nat with 0%nat by (unfold zlen; lia).
    + rewrite list_lookup_insert_ne, Hr, lookup_app_l by (unfold zlen in *; lia || (intros E; apply Z2Nat.inj in E; try (apply Z.mod_pos_bound; lia); divlia)). done.
Qed.

Lemma observations_ok s H : suit s H -> observations s ≡ₚ dernieres H.
Proof.
  intros ((Hz & Ht & Hf) & Hn & Hc & Hl & Hr). unfold observations, dernieres. destruct (Z.leb_spec (zlen H) 32) as [Hs|Hs].
  - rewrite Hl, Z.min_r by lia. replace (length H - 32)%nat with 0%nat by (unfold zlen in *; lia). rewrite drop_0.
    replace (take (Z.to_nat (zlen H)) (Anneau s)) with H; [done|]. apply list_eq. intros i. destruct (decide (i < length H)%nat).
    + rewrite lookup_take_lt by (unfold zlen; lia). specialize (Hr (Z.of_nat i) ltac:(lia) ltac:(unfold zlen in *; lia)).
      rewrite Z.mod_small, Nat2Z.id in Hr by (unfold zlen in *; lia). done.
    + rewrite lookup_ge_None_2 by lia. symmetry. apply lookup_ge_None_2. rewrite length_take. unfold zlen. lia.
  - rewrite Hl, Z.min_l, take_ge by (unfold zlen in *; lia). set (L := drop (length H - 32) H). set (c := Z.to_nat (zlen H mod 32)).
    pose proof (Z.mod_pos_bound (zlen H) 32 ltac:(lia)) as Hb. assert (c < 32)%nat as Hcb by (unfold c; lia). assert (length L = 32%nat) as HL by (unfold L; rewrite length_drop; unfold zlen in *; lia).
    assert (Anneau s = drop (32 - c) L ++ take (32 - c) L) as ->; [|by rewrite Permutation_app_comm, take_drop]. apply list_eq. intros i.
    destruct (decide (i < 32)%nat).
    2: { rewrite !lookup_ge_None_2; [done|rewrite length_app, length_drop, length_take; lia|unfold zlen in *; lia]. }
    destruct (decide (i < c)%nat).
    + rewrite lookup_app_l by (rewrite length_drop; lia). rewrite lookup_drop. unfold L. rewrite lookup_drop.
      specialize (Hr (zlen H - Z.of_nat c + Z.of_nat i) ltac:(unfold c; lia) ltac:(unfold c; lia)).
      replace ((zlen H - Z.of_nat c + Z.of_nat i) mod 32) with (Z.of_nat i) in Hr by (unfold c in *; divlia). rewrite Nat2Z.id in Hr. rewrite Hr. f_equal. unfold zlen in Hs |- *. lia.
    + rewrite lookup_app_r by (rewrite length_drop; lia). rewrite length_drop, HL, lookup_take_lt by lia. unfold L. rewrite lookup_drop.
      specialize (Hr (zlen H - Z.of_nat c - 32 + Z.of_nat i) ltac:(unfold c; lia) ltac:(unfold c; lia)).
      replace ((zlen H - Z.of_nat c - 32 + Z.of_nat i) mod 32) with (Z.of_nat i) in Hr by (unfold c in *; divlia). rewrite Nat2Z.id in Hr. rewrite Hr. f_equal. unfold zlen in Hs |- *. lia.
Qed.

(** * The property *)

Fixpoint enregistrer_tout (s : SuiviQuotientRobuste) (H : list Z) : run SuiviQuotientRobuste :=
  match H with [] => Done s | o :: H => s ← Enregistrer s o; enregistrer_tout s H end.

Lemma enregistrer_tout_ok H : forall s K, suit s K -> Forall is_i64 H -> exists s', enregistrer_tout s H = Done s' /\ suit s' (K ++ H).
Proof.
  induction H as [|o H IH]; intros s K Hs Hf; [exists s; by rewrite app_nil_r|]. apply Forall_cons in Hf as [Ho Hf].
  destruct (Enregistrer_ok s K o Hs Ho) as (s1 & E & Hs1). destruct (IH s1 _ Hs1 Hf) as (s2 & E2 & Hs2).
  exists s2. cbn [enregistrer_tout]. rewrite E, run_bind_done. split; [done|]. by rewrite <- app_assoc in Hs2.
Qed.

Lemma trie_perm_egal l k : l ≡ₚ k -> trie l = trie k.
Proof. intros H. symmetry. apply trie_unique; [apply trie_triee|]. by rewrite trie_perm. Qed.

Lemma mediane_perm l k : l ≡ₚ k -> mediane l = mediane k /\ madm l = madm k.
Proof.
  intros H. assert (mediane l = mediane k) as E by (unfold mediane; by rewrite (trie_perm_egal _ _ H), (Permutation_length H)).
  split; [done|]. unfold madm. by rewrite E, (trie_perm_egal _ _ H).
Qed.

Lemma suit_positif s H : suit s H -> H <> [] -> 0 < TailleAnneau s.
Proof. intros (_ & _ & _ & -> & _) Hn. destruct H; [done|]. rewrite zlen_cons. pose proof (zlen_nonneg H). lia. Qed.

(** The deviation of [o] from the observations [l]: per cent of the median, and
    thousandths of the robust scale. *)
Definition ecart_de (l : list Z) (o : Z) : Z * Z :=
  (if o <? mediane l then - ecart_relatif (mediane l) o else ecart_relatif (mediane l) o, score (mediane l) (madm l) o).

Lemma ecart_suivi s H o : suit s H -> H <> [] -> is_i64 o ->
  MedianeEtMADM s = Done (mediane (dernieres H), madm (dernieres H)) /\ EvaluerEcart s o = Done (ecart_de (dernieres H) o).
Proof.
  intros Hs Hn Ho. pose proof (suit_positif s H Hs Hn) as Hp. destruct (mediane_perm _ _ (observations_ok s H Hs)) as [E1 E2].
  destruct (MedianeEtMADM_ok s (proj1 Hs) Hp) as (E & _). split; [by rewrite E, E1, E2|].
  rewrite (EvaluerEcart_ok s o (proj1 Hs) Hp Ho). unfold ecart_de. by rewrite E1, E2.
Qed.

(** C27: after any sequence of int64 observations, the statistics of a quotient are
    those of its last 32: the insertion sort, the median (floor of the mean of the two
    middle values, without overflow), the median absolute deviation and the two
    deviations of a new observation are the exact ones; and they are robust: as soon
    as more than half of the last observations lie in an interval, the median lies in
    it and the deviation is at most its width, whatever the others are. *)
Theorem statistiques_robustes H o :
  Forall is_i64 H -> H <> [] -> is_i64 o ->
  exists s, enregistrer_tout suivi_vide H = Done s /\
    MedianeEtMADM s = Done (mediane (dernieres H), madm (dernieres H)) /\
    EvaluerEcart s o = Done (ecart_de (dernieres H) o) /\
    forall a b, zlen (dernieres H) < 2 * dans a b (dernieres H) -> a <= mediane (dernieres H) <= b /\ 0 <= madm (dernieres H) <= b - a.
Proof.
  intros Hf Hn Ho. destruct (enregistrer_tout_ok H suivi_vide [] suit_vide Hf) as (s & E & Hs). exists s. split; [done|].
  destruct (ecart_suivi s H o Hs Hn Ho) as [E1 E2]. split; [done|]. split; [done|]. intros a b Hm. split; [by apply majorite|by apply majorite_madm].
Qed.

(** Eighteen quiet observations out of the last 32, fourteen of an attacker. *)
Definition histoire_exemple : list Z := replicate 5 (-7) ++ replicate 18 4096 ++ replicate 14 (2 ^ 62).

Lemma statistiques_robustes_witness : exists s,
  enregistrer_tout suivi_vide histoire_exemple = Done s /\ EvaluerEcart s 8192 = Done (100, 20078) /\ MedianeEtMADM s = Done (4096, 0).
Proof.
  destruct (statistiques_robustes histoire_exemple 8192) as (s & E & Em & Ee & Hr).
  - unfold histoire_exemple, is_i64. rewrite !Forall_app. split_and!; apply Forall_replicate; lia.
  - done.
  - unfold is_i64. lia.
  - exists s. split; [done|]. destruct (Hr 4096 4096) as [H1 H2]; [by vm_compute|]. rewrite Ee, Em. split; [by vm_compute|]. do 2 f_equal; lia.
Defined.
