(* ===== verification/Profil.v ===== *)
(** The kinetic profiles (src/internal/cinetique/profil_welford.go,
    [TableProfilsCinetiques]): 64 sets of 4 profiles, least recently used evicted, one
    per executable and class of core; an episode is compared with the robust
    statistics of its profile, given an orientation, and learnt unless it is an
    anomaly.  The theorems: the table is 64 exact recency lists of profiles, a frozen
    anomaly teaches nothing, and a deviation from the majority cannot be masked. *)
From stdpp Require Import list_numbers sorting.
From S2P Require Import Prelude Fnv Flottant Quotients Robuste.
Local Open Scope Z_scope.

Definition nombreEnsemblesProfils : Z := 64.
Definition voiesParEnsembleProfil : Z := 4.

Definition OrientationAmorcage : Z := 0.
Definition OrientationNominale : Z := 1.
Definition OrientationAbstention : Z := 2.
Definition OrientationDegradationES : Z := 3.
Definition OrientationCompromissionReseau : Z := 4.
Definition OrientationDeriveOrganique : Z := 5.
Definition OrientationEcartStructurel : Z := 6.

Record ConfigProfilCinetique := ConfigProfil {
  MinEpisodesAmorcage : Z; SeuilScoreRobusteMilli : Z; SeuilHausseRelativePct : Z; SeuilEgressPermille : Z;
  SeuilPasDeriveMonotone : Z; FigerBaseSurAnomalie : bool
}.
Definition ConfigProfilParDefaut : ConfigProfilCinetique := ConfigProfil 8 3500 35 50 5 true.

Record DiagnosticEpisodeCinetique := Diagnostic {
  D_CleExecutable : Z; D_ClasseCoeur : Z; D_Orientation : Z; D_EpisodesObserves : Z; D_MasqueQuotientsAlerte : Z; D_ScoreRobusteMaxMilli : Z;
  D_PasDeriveMonotoneRSS : Z; D_VariationsPct : list Z; D_ScoresRobustesMilli : list Z; D_Episode : QuotientsEpisode
}.

Record entreeProfilCinetique := Entree {
  E_occupee : bool; E_cleComposite : Z; E_ordreAcces : Z; E_horodatageAccesNs : Z; E_episodesTotaux : Z; E_dernierPicRSSKio : Z;
  E_pasHausseMonotoneRSS : Z; E_quotients : list SuiviQuotientRobuste
}.
Definition entree_zero : entreeProfilCinetique := Entree false 0 0 0 0 0 0 (replicate 12 suivi_vide).

Record TableProfilsCinetiques := Table { T_cfg : ConfigProfilCinetique; T_seqAcces : Z; T_ensembles : list (list entreeProfilCinetique) }.
Definition NouvelleTableProfilsCinetiques (cfg : ConfigProfilCinetique) : TableProfilsCinetiques := Table cfg 0 (replicate 64 (replicate 4 entree_zero)).

(** FNV-1a on 64 bits. *)
Definition HashIdentifiantBinaire (identifiant : list Z) : Z :=
  fold_left (fun empreinte c => u64 (Z.lxor empreinte c * 1099511628211)) identifiant 14695981039346656037.

Definition composerCleProfil (cleExecutable classe : Z) : Z := Z.lor (Z.ldiff cleExecutable 3) (Z.land classe 3).

Definition variation (diag : DiagnosticEpisodeCinetique) (q : Z) : Z := nth (Z.to_nat q) (D_VariationsPct diag) 0.
Definition alerte (diag : DiagnosticEpisodeCinetique) (m : Z) : bool := negb (Z.land (D_MasqueQuotientsAlerte diag) m =? 0).

Definition masqueContentionExogene : Z := Z.lor (bit1 IndiceAttenteOrdonnanceur) (bit1 IndicePartPreemptionPermille).
Definition masqueQuotientsESLogiques : Z := Z.lor (Z.lor (bit1 IndiceOctetsParAppelES) (bit1 IndicePartEcriturePermille)) (bit1 IndiceAmplificationBlocPermille).
Definition masqueCPUouRAMouEgress : Z :=
  Z.lor (Z.lor (Z.lor (Z.lor (bit1 IndiceNsCPUParKioLogique) (bit1 IndiceKioPicRSSParFil)) (bit1 IndiceEgressSurLecturePermille))
    (bit1 IndiceConnexionsParMilleDNS)) (bit1 IndicePartResolveurPermille).

Definition preuveHostile (ep : QuotientsEpisode) : bool := negb (Q_CodeRaisonDNS ep =? 0) || negb (Q_PortSuspect ep =? 0).

Definition hausseResolveur (cfg : ConfigProfilCinetique) (enAmorcage : bool) (diag : DiagnosticEpisodeCinetique) : bool :=
  negb enAmorcage && alerte diag (bit1 IndicePartResolveurPermille) &&
  (SeuilHausseRelativePct cfg <=? variation diag IndicePartResolveurPermille) && (Q_ConnexionsHorsResolveur (D_Episode diag) =? 0) &&
  negb (Q_EcouteDNSClairLocale (D_Episode diag)).

Definition indiceReseauSuspect (cfg : ConfigProfilCinetique) (enAmorcage : bool) (diag : DiagnosticEpisodeCinetique) : bool :=
  let ep := D_Episode diag in
  preuveHostile ep || (negb enAmorcage && Q_ConfinementResolveur ep) || hausseResolveur cfg enAmorcage diag || Q_ConnexionSansDNS ep ||
  (EstValide ep IndiceEgressSurLecturePermille && (SeuilEgressPermille cfg <=? Valeur ep IndiceEgressSurLecturePermille)).

Definition masqueNonStructurel (diag : DiagnosticEpisodeCinetique) : Z :=
  let ep := D_Episode diag in
  let m := Z.lor masqueContentionExogene MasqueQuotientsDescriptifs in
  let m := if negb (ActiviteDisquePresente ep) || (Valeur ep IndiceDilatationHorsCPU <? 1000) then Z.lor m (bit1 IndiceDilatationHorsCPU) else m in
  if Q_EcouteDNSClairLocale ep || (variation diag IndicePartResolveurPermille <=? 0) then Z.lor m (bit1 IndicePartResolveurPermille) else m.

Definition determinerOrientation (cfg : ConfigProfilCinetique) (enAmorcage abstentionTemporelle : bool) (diag : DiagnosticEpisodeCinetique) : Z :=
  let ep := D_Episode diag in
  let suspect := indiceReseauSuspect cfg enAmorcage diag in
  if preuveHostile ep || (negb enAmorcage && Q_ConfinementResolveur ep) || hausseResolveur cfg enAmorcage diag ||
     (negb enAmorcage && suspect && alerte diag masqueCPUouRAMouEgress) then OrientationCompromissionReseau else
  if enAmorcage then OrientationAmorcage else
  let alerteDilatation := ActiviteDisquePresente ep && alerte diag (bit1 IndiceDilatationHorsCPU) &&
    (SeuilHausseRelativePct cfg <=? variation diag IndiceDilatationHorsCPU) && (1000 <=? Valeur ep IndiceDilatationHorsCPU) in
  let dominanceHorsCPU := u64 (2 * Q_DeltaAttenteFileNs ep) <? Q_DeltaHorsCPUNs ep in
  if negb abstentionTemporelle && negb suspect && alerteDilatation && dominanceHorsCPU then OrientationDegradationES else
  if negb suspect && (0 <? SeuilPasDeriveMonotone cfg) && (SeuilPasDeriveMonotone cfg <=? D_PasDeriveMonotoneRSS diag) &&
     negb (alerte diag masqueQuotientsESLogiques) then OrientationDeriveOrganique else
  let alertesIntrinseques := Z.ldiff (D_MasqueQuotientsAlerte diag) (masqueNonStructurel diag) in
  if negb (alertesIntrinseques =? 0) then
    if (Q_DeltaExecutionNs ep <=? Q_DeltaAttenteFileNs ep) && (Z.ldiff alertesIntrinseques MasqueQuotientsSensiblesCPU =? 0) then OrientationAbstention
    else OrientationEcartStructurel
  else if abstentionTemporelle || ((Q_DeltaExecutionNs ep <=? Q_DeltaAttenteFileNs ep) && alerte diag masqueContentionExogene) then OrientationAbstention
  else OrientationNominale.

(** ** One episode against one profile *)

Definition sensible (q : Z) : bool := negb (Z.land MasqueQuotientsSensiblesCPU (bit1 q) =? 0).
Definition descriptif (q : Z) : bool := negb (Z.land MasqueQuotientsDescriptifs (bit1 q) =? 0).

Definition minQuorum_de (cfg : ConfigProfilCinetique) : Z :=
  let minAmorcage := MinEpisodesAmorcage cfg in
  let m := Z.max 4 (minAmorcage / 2) in
  if (0 <? minAmorcage) && (minAmorcage <? m) then minAmorcage else m.

(** The valid quotients of time, and those with enough observations. *)
Definition compter_temporels (entree : entreeProfilCinetique) (episode : QuotientsEpisode) (minQuorum : Z) : run (Z * Z) :=
  o ← for_range (R := unit) 12 (0, 0) (fun q '(valides, prets) =>
        if negb (EstValide episode q) then Done (inl (valides, prets)) else
        if negb (sensible q) then Done (inl (valides, prets)) else
        s ← idx (E_quotients entree) q;
        Done (inl (valides + 1, if minQuorum <=? NombreObservations s then prets + 1 else prets)));
  Done (match o with inl c => c | inr _ => (0, 0) end).

(** Variations, scores, mask of the alerts and greatest score of an alert. *)
Record releve := Releve { r_var : list Z; r_sco : list Z; r_masque : Z; r_max : Z }.
Definition releve_zero : releve := Releve (replicate 12 0) (replicate 12 0) 0 0.

Definition est_alerte (cfg : ConfigProfilCinetique) (abstentionTemporelle : bool) (q varPct scoreMilli : Z) : bool :=
  let absPct := if varPct <? 0 then i64 (- varPct) else varPct in
  negb (abstentionTemporelle && sensible q) && negb (descriptif q) && (SeuilScoreRobusteMilli cfg <=? scoreMilli) && (SeuilHausseRelativePct cfg <=? absPct).

Definition comparer (cfg : ConfigProfilCinetique) (entree : entreeProfilCinetique) (episode : QuotientsEpisode) (minQuorum : Z) (abstentionTemporelle : bool) : run releve :=
  o ← for_range (R := unit) 12 releve_zero (fun q r =>
        if negb (EstValide episode q) then Done (inl r) else
        suivi ← idx (E_quotients entree) q;
        if minQuorum <=? NombreObservations suivi then
          v ← idx (Q_Valeurs episode) q;
          '(varPct, scoreMilli) ← EvaluerEcart suivi v;
          var ← upd (r_var r) q varPct;
          sco ← upd (r_sco r) q scoreMilli;
          if est_alerte cfg abstentionTemporelle q varPct scoreMilli
          then Done (inl (Releve var sco (Z.lor (r_masque r) (bit1 q)) (if r_max r <? scoreMilli then scoreMilli else r_max r)))
          else Done (inl (Releve var sco (r_masque r) (r_max r)))
        else Done (inl r));
  Done (match o with inl r => r | inr _ => releve_zero end).

Definition apprendre (quotients : list SuiviQuotientRobuste) (episode : QuotientsEpisode) (abstentionTemporelle : bool) (orientation : Z) : run (list SuiviQuotientRobuste) :=
  o ← for_range (R := unit) 12 quotients (fun q l =>
        if negb (EstValide episode q) then Done (inl l) else
        if abstentionTemporelle && sensible q then Done (inl l) else
        if (orientation =? OrientationDeriveOrganique) && (q =? IndiceKioPicRSSParFil) then Done (inl l) else
        s ← idx l q;
        v ← idx (Q_Valeurs episode) q;
        s ← Enregistrer s v;
        l ← upd l q s;
        Done (inl l));
  Done (match o with inl l => l | inr _ => quotients end).

Definition anomalie (orientation : Z) : bool :=
  (orientation =? OrientationCompromissionReseau) || (orientation =? OrientationDegradationES) || (orientation =? OrientationEcartStructurel).

Definition rssRetenu_de (episode : QuotientsEpisode) : Z := if Q_RSSResidentFinKio episode =? 0 then Q_PicRSSKio episode else Q_RSSResidentFinKio episode.

Definition pasMonotone (enAmorcage : bool) (pas dernier rss : Z) : Z :=
  if enAmorcage then 0 else if dernier <? rss then (if pas <? 65535 then u16 (pas + 1) else pas) else 0.

Definition observer_entree (cfg : ConfigProfilCinetique) (entree : entreeProfilCinetique) (cleExecutable classeProfil : Z) (episode : QuotientsEpisode)
  : run (entreeProfilCinetique * DiagnosticEpisodeCinetique) :=
  let minQuorum := minQuorum_de cfg in
  let abstentionTemporelle := Q_AbstentionPSICPU episode || Q_MigrationHybride episode in
  let enAmorcage := E_episodesTotaux entree <? MinEpisodesAmorcage cfg in
  enAmorcage ← (if negb enAmorcage && negb abstentionTemporelle then
                  '(valides, prets) ← compter_temporels entree episode minQuorum;
                  Done ((0 <? valides) && (prets =? 0))
                else Done enAmorcage);
  let rss := rssRetenu_de episode in
  let pas := pasMonotone enAmorcage (E_pasHausseMonotoneRSS entree) (E_dernierPicRSSKio entree) rss in
  r ← (if negb (enAmorcage : bool) then comparer cfg entree episode minQuorum abstentionTemporelle else Done releve_zero);
  let diag o n := Diagnostic cleExecutable classeProfil o n (r_masque r) (r_max r) pas (r_var r) (r_sco r) episode in
  let orientation := determinerOrientation cfg enAmorcage abstentionTemporelle (diag 0 0) in
  let gelee := FigerBaseSurAnomalie cfg && anomalie orientation in
  entree ← (if negb gelee then
              l ← apprendre (E_quotients entree) episode abstentionTemporelle orientation;
              Done (Entree (E_occupee entree) (E_cleComposite entree) (E_ordreAcces entree) (E_horodatageAccesNs entree) (u64 (E_episodesTotaux entree + 1))
                (if enAmorcage then rss else E_dernierPicRSSKio entree) (if enAmorcage then 0 else E_pasHausseMonotoneRSS entree) l)
            else Done entree);
  let entree := if negb enAmorcage && negb (orientation =? OrientationCompromissionReseau)
                then Entree (E_occupee entree) (E_cleComposite entree) (E_ordreAcces entree) (E_horodatageAccesNs entree) (E_episodesTotaux entree) rss pas (E_quotients entree)
                else entree in
  Done (entree, diag orientation (E_episodesTotaux entree)).

(** ** The table *)

(** The search of a way: found, or the free or oldest one. *)
Definition chercher_voie (ensemble : list entreeProfilCinetique) (cle : Z) : run (Z * Z) :=
  e0 ← idx ensemble 0;
  o ← for_range 4 (0, E_ordreAcces e0) (fun v '(voieLRU, plusAncien) =>
        e ← idx ensemble v;
        if E_occupee e && (E_cleComposite e =? cle) then Done (inr (v, voieLRU)) else
        if negb (E_occupee e) then Done (inl (v, 0)) else
        if (0 <? plusAncien) && (E_ordreAcces e <? plusAncien) then Done (inl (v, E_ordreAcces e)) else
        Done (inl (voieLRU, plusAncien)));
  Done (match o with inl (voieLRU, _) => (-1, voieLRU) | inr r => r end).

Definition classe_profil (episode : QuotientsEpisode) : Z := if Q_MigrationHybride episode then Q_ClasseCoeurDebut episode else Q_ClasseCoeurFin episode.

Definition ObserverEpisode (t : TableProfilsCinetiques) (cleExecutable horodatageObservationNs : Z) (episode : QuotientsEpisode)
  : run (TableProfilsCinetiques * DiagnosticEpisodeCinetique) :=
  let classeProfil := classe_profil episode in
  let cle := composerCleProfil cleExecutable classeProfil in
  let idxEnsemble := Z.land (Z.lxor cle (Z.shiftr cle 17)) (nombreEnsemblesProfils - 1) in
  ensemble ← idx (T_ensembles t) idxEnsemble;
  let seq := u64 (T_seqAcces t + 1) in
  '(voieCible, voieLRU) ← chercher_voie ensemble cle;
  '(voie, ensemble) ← (if voieCible <? 0 then
                         e ← upd ensemble voieLRU (Entree true cle 0 0 0 0 0 (replicate 12 suivi_vide)); Done (voieLRU, e)
                       else Done (voieCible, ensemble));
  entree ← idx ensemble voie;
  let entree := Entree (E_occupee entree) (E_cleComposite entree) seq horodatageObservationNs (E_episodesTotaux entree) (E_dernierPicRSSKio entree)
                  (E_pasHausseMonotoneRSS entree) (E_quotients entree) in
  '(entree, diag) ← observer_entree (T_cfg t) entree cleExecutable classeProfil episode;
  ensemble ← upd ensemble voie entree;
  ensembles ← upd (T_ensembles t) idxEnsemble ensemble;
  Done (Table (T_cfg t) seq ensembles, diag).

(** * The specification: histories and recency lists *)

(** A profile holds the whole history of each quotient. *)
Record profil := Profil { p_obs : Z -> list Z; p_episodes : Z; p_rss : Z; p_pas : Z }.
Definition profil_neuf : profil := Profil (fun _ => []) 0 0 0.

Definition indices : list Z := seqZ 0 12.
Definition abstention (ep : QuotientsEpisode) : bool := Q_AbstentionPSICPU ep || Q_MigrationHybride ep.
Definition pret (cfg : ConfigProfilCinetique) (p : profil) (q : Z) : bool := minQuorum_de cfg <=? zlen (p_obs p q).
Definition compare_q (cfg : ConfigProfilCinetique) (p : profil) (ep : QuotientsEpisode) (q : Z) : bool := EstValide ep q && pret cfg p q.

Definition amorcage (cfg : ConfigProfilCinetique) (p : profil) (ep : QuotientsEpisode) : bool :=
  if p_episodes p <? MinEpisodesAmorcage cfg then true else if abstention ep then false else
  existsb (fun q => EstValide ep q && sensible q) indices && negb (existsb (fun q => EstValide ep q && sensible q && pret cfg p q) indices).

(** The deviation of each quotient from its last 32 observations; its alert. *)
Definition ecart_q (cfg : ConfigProfilCinetique) (p : profil) (ep : QuotientsEpisode) (q : Z) : Z * Z :=
  if compare_q cfg p ep q then ecart_de (dernieres (p_obs p q)) (Valeur ep q) else (0, 0).
Definition alerte_q (cfg : ConfigProfilCinetique) (p : profil) (ep : QuotientsEpisode) (q : Z) : bool :=
  compare_q cfg p ep q && est_alerte cfg (abstention ep) q (fst (ecart_q cfg p ep q)) (snd (ecart_q cfg p ep q)).

Definition masque_de (f : Z -> bool) (l : list Z) : Z := fold_left (fun m q => if f q then Z.lor m (bit1 q) else m) l 0.
Definition max_de (f : Z -> bool) (g : Z -> Z) (l : list Z) : Z := fold_left (fun m q => if f q then (if m <? g q then g q else m) else m) l 0.

Definition releve_de (cfg : ConfigProfilCinetique) (p : profil) (ep : QuotientsEpisode) : releve :=
  Releve ((fun q => fst (ecart_q cfg p ep q)) <$> indices) ((fun q => snd (ecart_q cfg p ep q)) <$> indices)
    (masque_de (alerte_q cfg p ep) indices) (max_de (alerte_q cfg p ep) (fun q => snd (ecart_q cfg p ep q)) indices).

Definition appris (ep : QuotientsEpisode) (orientation q : Z) : bool :=
  EstValide ep q && negb (abstention ep && sensible q) && negb ((orientation =? OrientationDeriveOrganique) && (q =? IndiceKioPicRSSParFil)).

Definition observer_profil (cfg : ConfigProfilCinetique) (p : profil) (cleExecutable classeProfil : Z) (ep : QuotientsEpisode) : profil * DiagnosticEpisodeCinetique :=
  let am := amorcage cfg p ep in
  let rss := rssRetenu_de ep in
  let pas := pasMonotone am (p_pas p) (p_rss p) rss in
  let r := if am then releve_zero else releve_de cfg p ep in
  let diag o n := Diagnostic cleExecutable classeProfil o n (r_masque r) (r_max r) pas (r_var r) (r_sco r) ep in
  let o := determinerOrientation cfg am (abstention ep) (diag 0 0) in
  let p := if FigerBaseSurAnomalie cfg && anomalie o then p
           else Profil (fun q => if appris ep o q then p_obs p q ++ [Valeur ep q] else p_obs p q) (p_episodes p + 1)
                  (if am then rss else p_rss p) (if am then 0 else p_pas p) in
  let p := if negb am && negb (o =? OrientationCompromissionReseau) then Profil (p_obs p) (p_episodes p) rss pas else p in
  (p, diag o (p_episodes p)).

(** The profiles of one set, the most recently used first; four at most. *)
Definition acceder (L : list (Z * profil)) (cle : Z) : profil * list (Z * profil) :=
  match find (fun kp => fst kp =? cle) L with
  | Some (_, p) => (p, filter (fun kp => fst kp <> cle) L)
  | None => (profil_neuf, take 3 L)
  end.

Definition index_ensemble (cle : Z) : Z := Z.land (Z.lxor cle (Z.shiftr cle 17)) (nombreEnsemblesProfils - 1).

Definition observer_table (cfg : ConfigProfilCinetique) (A : Z -> list (Z * profil)) (cleExecutable : Z) (ep : QuotientsEpisode)
  : (Z -> list (Z * profil)) * DiagnosticEpisodeCinetique :=
  let classe := classe_profil ep in
  let cle := composerCleProfil cleExecutable classe in
  let i := index_ensemble cle in
  let '(p, reste) := acceder (A i) cle in
  let '(p, diag) := observer_profil cfg p cleExecutable classe ep in
  (fun j => if j =? i then (cle, p) :: reste else A j, diag).

(** * One episode against one profile *)

Definition episode_ok (ep : QuotientsEpisode) : Prop := zlen (Q_Valeurs ep) = 12 /\ Forall is_i64 (Q_Valeurs ep).

(** [N] bounds the number of observations. *)
Definition represente (N : Z) (e : entreeProfilCinetique) (p : profil) : Prop :=
  zlen (E_quotients e) = 12 /\
  (forall q, 0 <= q < 12 -> exists s, E_quotients e !! Z.to_nat q = Some s /\ suit s (p_obs p q) /\ zlen (p_obs p q) <= N) /\
  E_episodesTotaux e = p_episodes p /\ 0 <= p_episodes p <= N /\ E_dernierPicRSSKio e = p_rss p /\ E_pasHausseMonotoneRSS e = p_pas p.

Lemma valeur_lue ep q : episode_ok ep -> 0 <= q < 12 -> idx (Q_Valeurs ep) q = Done (Valeur ep q) /\ is_i64 (Valeur ep q).
Proof.
  intros [Hz Hf] Hq. unfold Valeur. split; [|by apply (bget_Forall is_i64); [done|lia]]. by rewrite idx_bget by lia.
Qed.

Lemma minQuorum_positif cfg : 0 <= MinEpisodesAmorcage cfg -> 1 <= minQuorum_de cfg.
Proof. intros H. unfold minQuorum_de. destruct (Z.ltb_spec 0 (MinEpisodesAmorcage cfg)); cbn [andb]; [|lia]. case_match; lia. Qed.

Lemma quotient_lu N e p q : represente N e p -> 0 <= q < 12 -> N < 2 ^ 64 -> exists s, idx (E_quotients e) q = Done s /\ suit s (p_obs p q) /\ NombreObservations s = zlen (p_obs p q).
Proof.
  intros (_ & Hq & _) Hi HN. destruct (Hq q Hi) as (s & Hs & Hsu & Hl). exists s. rewrite (idx_lookup _ _ s) by (done || lia). split; [done|]. split; [done|].
  destruct Hsu as (_ & -> & _). apply u64_id. pose proof (zlen_nonneg (p_obs p q)). unfold is_u64. lia.
Qed.

Lemma indices_suivant q : 0 <= q -> seqZ 0 (q + 1) = seqZ 0 q ++ [q].
Proof. intros Hq. rewrite seqZ_app by lia. done. Qed.

Lemma amorcage_ok N cfg e p ep : represente N e p -> N < 2 ^ 64 ->
  (if negb (E_episodesTotaux e <? MinEpisodesAmorcage cfg) && negb (abstention ep) then
     '(valides, prets) ← compter_temporels e ep (minQuorum_de cfg); Done ((0 <? valides) && (prets =? 0))
   else Done (E_episodesTotaux e <? MinEpisodesAmorcage cfg)) = Done (amorcage cfg p ep).
Proof.
  intros Hr HN. unfold amorcage. pose proof Hr as (_ & _ & -> & _). destruct (p_episodes p <? MinEpisodesAmorcage cfg); [done|].
  destruct (abstention ep); [done|]. cbn [negb andb]. unfold compter_temporels.
  set (f := fun q => EstValide ep q && sensible q). set (g := fun q => EstValide ep q && sensible q && pret cfg p q).
  match goal with |- context [for_range 12 (0, 0) ?b] => assert (wp (for_range (R := unit) 12 (0, 0) b) (fun o => exists v k, o = inl (v, k) /\
    (0 <? v) = existsb f indices /\ (k =? 0) = negb (existsb g indices))) as (o & -> & v & k & -> & Hv & Hk)%wp_exists end.
  - apply (wp_for_range (fun i '(v, k) => 0 <= v /\ 0 <= k /\ (0 <? v) = existsb f (seqZ 0 i) /\ (k =? 0) = negb (existsb g (seqZ 0 i)))); [lia|done| |].
    + intros q [v k] Hq (Hv0 & Hk0 & Hv & Hk). rewrite indices_suivant, !existsb_app by lia. cbn [existsb]. rewrite !orb_false_r, <- Hv, negb_orb, <- Hk.
      unfold f, g. destruct (EstValide ep q); cbn [negb andb orb]; [|apply wp_done; rewrite orb_false_r, andb_true_r; done].
      destruct (sensible q); cbn [negb andb orb]; [|apply wp_done; rewrite orb_false_r, andb_true_r; done].
      destruct (quotient_lu N e p q Hr Hq HN) as (s & -> & _ & En). rewrite run_bind_done. apply wp_done. unfold pret. rewrite En.
      rewrite orb_true_r. destruct (minQuorum_de cfg <=? zlen (p_obs p q)); cbn [negb]; rewrite ?andb_false_r, ?andb_true_r; split_and!; try lia; done.
    + intros [v k] (_ & _ & H). by exists v, k.
  - by rewrite !run_bind_done, Hv, Hk.
Qed.

(** A list of twelve cells filled up to [q]. *)
Definition jusqua (f : Z -> Z) (q : Z) : list Z := (fun j => if j <? q then f j else 0) <$> indices.

Lemma jusqua_lookup f q i : 0 <= i < 12 -> jusqua f q !! Z.to_nat i = Some (if i <? q then f i else 0).
Proof.
  intros Hi. unfold jusqua, indices. rewrite list_lookup_fmap, lookup_seqZ_lt by lia. cbn [fmap option_fmap option_map].
  by replace (0 + Z.of_nat (Z.to_nat i)) with i by lia.
Qed.

Lemma zlen_jusqua f q : zlen (jusqua f q) = 12.
Proof. unfold zlen, jusqua. by rewrite length_fmap. Qed.

Lemma jusqua_ext l f q : zlen l = 12 -> (forall i, 0 <= i < 12 -> l !! Z.to_nat i = Some (if i <? q then f i else 0)) -> l = jusqua f q.
Proof.
  intros Hz H. apply list_eq. intros i. destruct (decide (i < 12)%nat) as [Hi|Hi].
  - specialize (H (Z.of_nat i) ltac:(lia)). pose proof (jusqua_lookup f q (Z.of_nat i) ltac:(lia)) as E. rewrite Nat2Z.id in *. by rewrite H, E.
  - pose proof (zlen_jusqua f q). rewrite !lookup_ge_None_2 by (unfold zlen in *; lia). done.
Qed.

Lemma jusqua_ecrit f q x : 0 <= q < 12 -> x = f q -> upd (jusqua f q) q x = Done (jusqua f (q + 1)).
Proof.
  intros Hq ->. rewrite upd_ok by (rewrite zlen_jusqua; lia). f_equal. apply jusqua_ext; [by rewrite zlen_insert, zlen_jusqua|].
  intros i Hi. destruct (decide (i = q)) as [->|Hn].
  - rewrite list_lookup_insert_eq by (pose proof (zlen_jusqua f q); unfold zlen in *; lia). by rewrite (proj2 (Z.ltb_lt _ _)) by lia.
  - rewrite list_lookup_insert_ne, jusqua_lookup by lia. f_equal. destruct (Z.ltb_spec i q), (Z.ltb_spec i (q + 1)); lia.
Qed.

Lemma jusqua_saute f q : 0 <= q < 12 -> f q = 0 -> jusqua f (q + 1) = jusqua f q.
Proof.
  intros Hq Hf. symmetry. apply jusqua_ext; [apply zlen_jusqua|]. intros i Hi. rewrite jusqua_lookup by done. f_equal.
  destruct (Z.ltb_spec i q), (Z.ltb_spec i (q + 1)); try lia. by replace i with q by lia.
Qed.

Lemma jusqua_tout f : jusqua f 12 = f <$> indices.
Proof. symmetry. apply jusqua_ext; [done|]. intros i Hi. unfold indices. rewrite list_lookup_fmap, lookup_seqZ_lt by lia. cbn. rewrite (proj2 (Z.ltb_lt _ _)) by lia. do 2 f_equal. lia. Qed.

Lemma masque_suivant f q : 0 <= q -> masque_de f (seqZ 0 (q + 1)) = if f q then Z.lor (masque_de f (seqZ 0 q)) (bit1 q) else masque_de f (seqZ 0 q).
Proof. intros Hq. unfold masque_de. by rewrite indices_suivant, fold_left_app by lia. Qed.

Lemma max_suivant f g q : 0 <= q ->
  max_de f g (seqZ 0 (q + 1)) = if f q then (if max_de f g (seqZ 0 q) <? g q then g q else max_de f g (seqZ 0 q)) else max_de f g (seqZ 0 q).
Proof. intros Hq. unfold max_de. by rewrite indices_suivant, fold_left_app by lia. Qed.

Lemma comparer_ok N cfg e p ep : represente N e p -> episode_ok ep -> 0 <= MinEpisodesAmorcage cfg -> N < 2 ^ 64 ->
  comparer cfg e ep (minQuorum_de cfg) (abstention ep) = Done (releve_de cfg p ep).
Proof.
  intros Hr Hep Hm HN. unfold comparer. set (V := fun q => fst (ecart_q cfg p ep q)). set (S := fun q => snd (ecart_q cfg p ep q)). set (A := alerte_q cfg p ep).
  match goal with |- context [for_range 12 releve_zero ?b] => assert (wp (for_range (R := unit) 12 releve_zero b) (fun o => o = inl (releve_de cfg p ep)))
    as (o & -> & ->)%wp_exists; [|done] end.
  apply (wp_for_range (fun q r => r = Releve (jusqua V q) (jusqua S q) (masque_de A (seqZ 0 q)) (max_de A S (seqZ 0 q)))); [lia|done| |].
  2: { intros r ->. unfold releve_de. by rewrite !jusqua_tout. }
  intros q r Hq ->. cbn [r_var r_sco r_masque r_max]. rewrite masque_suivant, max_suivant by lia.
  assert (compare_q cfg p ep q = false -> wp (Done (inl (Releve (jusqua V q) (jusqua S q) (masque_de A (seqZ 0 q)) (max_de A S (seqZ 0 q))) : releve + unit))
    (fun o => match o with inl r => r = Releve (jusqua V (q + 1)) (jusqua S (q + 1)) (if A q then Z.lor (masque_de A (seqZ 0 q)) (bit1 q) else masque_de A (seqZ 0 q))
      (if A q then (if max_de A S (seqZ 0 q) <? S q then S q else max_de A S (seqZ 0 q)) else max_de A S (seqZ 0 q)) | inr r => inr r = inl (releve_de cfg p ep) end)) as Hsaute.
  { intros Hc. apply wp_done. rewrite !jusqua_saute by (done || (unfold V, S, ecart_q; by rewrite Hc)). unfold A, alerte_q. by rewrite Hc. }
  unfold compare_q in Hsaute. destruct (EstValide ep q) eqn:Ev; cbn [negb]; [|by apply Hsaute].
  destruct (quotient_lu N e p q Hr Hq HN) as (s & -> & Hs & En). rewrite run_bind_done, En.
  change (minQuorum_de cfg <=? zlen (p_obs p q)) with (pret cfg p q). destruct (pret cfg p q) eqn:Ep; [|by apply Hsaute]. clear Hsaute.
  destruct (valeur_lue ep q Hep Hq) as [-> Hv]. rewrite run_bind_done.
  assert (p_obs p q <> []) as Hne. { intros E. unfold pret in Ep. rewrite E in Ep. pose proof (minQuorum_positif cfg Hm). apply Z.leb_le in Ep. change (zlen (@nil Z)) with 0 in Ep. lia. }
  destruct (ecart_suivi s (p_obs p q) (Valeur ep q) Hs Hne Hv) as [_ ->]. rewrite run_bind_done.
  assert (ecart_de (dernieres (p_obs p q)) (Valeur ep q) = ecart_q cfg p ep q) as -> by (unfold ecart_q, compare_q; by rewrite Ev, Ep).
  destruct (ecart_q cfg p ep q) as [v sc] eqn:Ee. assert (v = V q /\ sc = S q) as [-> ->] by (unfold V, S; by rewrite Ee).
  rewrite !jusqua_ecrit, !run_bind_done by done.
  assert (A q = est_alerte cfg (abstention ep) q (V q) (S q)) as ->; [|by destruct (est_alerte _ _ _ _ _)].
  unfold A, alerte_q, compare_q. by rewrite Ev, Ep.
Qed.

Lemma apprendre_ok N e p ep o : represente N e p -> episode_ok ep -> N + 1 < 2 ^ 64 ->
  exists l, apprendre (E_quotients e) ep (abstention ep) o = Done l /\ zlen l = 12 /\
    forall q, 0 <= q < 12 -> exists s, l !! Z.to_nat q = Some s /\ suit s (if appris ep o q then p_obs p q ++ [Valeur ep q] else p_obs p q).
Proof.
  intros Hr Hep HN. unfold apprendre. set (H := fun q => if appris ep o q then p_obs p q ++ [Valeur ep q] else p_obs p q).
  match goal with |- context [for_range 12 ?l0 ?b] => assert (wp (for_range (R := unit) 12 l0 b) (fun o => exists l, o = inl l /\ zlen l = 12 /\
    forall q, 0 <= q < 12 -> exists s, l !! Z.to_nat q = Some s /\ suit s (H q))) as (r & -> & l & -> & Hl)%wp_exists; [|by exists l] end.
  pose proof Hr as (Hz & Hq & _).
  apply (wp_for_range (fun i l => zlen l = 12 /\ forall q, 0 <= q < 12 -> exists s, l !! Z.to_nat q = Some s /\ suit s (if q <? i then H q else p_obs p q))); [lia| | |].
  - split; [done|]. intros q Hi. destruct (Hq q Hi) as (s & Hs & Hsu & _). exists s. rewrite (proj2 (Z.ltb_ge _ _)) by lia. done.
  - intros i l Hi [Hzl Hl].
    assert (appris ep o i = false -> forall q, 0 <= q < 12 -> exists s, l !! Z.to_nat q = Some s /\ suit s (if q <? i + 1 then H q else p_obs p q)) as Hsaute.
    { intros Ha q Hi'. destruct (Hl q Hi') as (s & Hs & Hsu). exists s. split; [done|].
      destruct (Z.ltb_spec q i), (Z.ltb_spec q (i + 1)); try lia; try done. replace q with i in * by lia. unfold H. by rewrite Ha. }
    unfold appris in Hsaute. destruct (EstValide ep i) eqn:Ev; cbn [negb andb] in *; [|apply wp_done; by auto].
    destruct (abstention ep && sensible i) eqn:Ea; cbn [negb andb] in *; [apply wp_done; by auto|].
    destruct ((o =? OrientationDeriveOrganique) && (i =? IndiceKioPicRSSParFil)) eqn:Ed; cbn [negb] in *; [apply wp_done; by auto|]. clear Hsaute.
    destruct (Hl i Hi) as (s & Hs & Hsu). rewrite (idx_lookup _ _ s), run_bind_done by (done || lia). rewrite (proj2 (Z.ltb_ge i i)) in Hsu by lia.
    destruct (valeur_lue ep i Hep Hi) as [-> Hv]. rewrite run_bind_done. destruct (Enregistrer_ok s (p_obs p i) (Valeur ep i) Hsu Hv) as (s' & -> & Hs').
    rewrite run_bind_done, upd_ok, run_bind_done by lia. apply wp_done. rewrite zlen_insert. split; [done|]. intros q Hq'.
    destruct (decide (q = i)) as [->|Hn].
    + exists s'. rewrite list_lookup_insert_eq by (unfold zlen in Hzl; lia). split; [done|]. rewrite (proj2 (Z.ltb_lt _ _)) by lia.
      unfold H, appris. by rewrite Ev, Ea, Ed.
    + rewrite list_lookup_insert_ne by lia. destruct (Hl q Hq') as (s2 & Hs2 & Hsu2). exists s2. split; [done|].
      destruct (Z.ltb_spec q i), (Z.ltb_spec q (i + 1)); try lia; done.
  - intros l [Hzl Hl]. exists l. split; [done|]. split; [done|]. intros q Hi. destruct (Hl q Hi) as (s & Hs & Hsu). exists s. by rewrite (proj2 (Z.ltb_lt _ _)) in Hsu by lia.
Qed.

Lemma represente_neuf : represente 0 (Entree true 0 0 0 0 0 0 (replicate 12 suivi_vide)) profil_neuf.
Proof.
  split_and!; try done. intros q Hq. exists suivi_vide. split; [apply lookup_replicate_2; lia|]. split; [apply suit_vide|done].
Qed.

Lemma represente_champs N e p o c k h : represente N e p -> represente N (Entree o c k h (E_episodesTotaux e) (E_dernierPicRSSKio e) (E_pasHausseMonotoneRSS e) (E_quotients e)) p.
Proof. intros (H1 & H2 & H3 & H4 & H5 & H6). split_and!; done || apply H4. Qed.

Lemma represente_mono N M e p : represente N e p -> N <= M -> represente M e p.
Proof.
  intros (H1 & H2 & H3 & H4 & H5 & H6) HM. split_and!; try done; try lia. intros q Hq. destruct (H2 q Hq) as (s & ? & ? & ?). exists s. split_and!; try done. lia.
Qed.

Lemma observer_entree_ok N cfg e p cle classe ep : represente N e p -> episode_ok ep -> 0 <= MinEpisodesAmorcage cfg -> N + 1 < 2 ^ 64 ->
  exists e', observer_entree cfg e cle classe ep = Done (e', snd (observer_profil cfg p cle classe ep)) /\
    represente (N + 1) e' (fst (observer_profil cfg p cle classe ep)) /\
    E_occupee e' = E_occupee e /\ E_cleComposite e' = E_cleComposite e /\ E_ordreAcces e' = E_ordreAcces e.
Proof.
  intros Hr Hep Hm HN. unfold observer_entree, observer_profil. fold (abstention ep).
  rewrite (amorcage_ok N cfg e p ep), run_bind_done by (done || lia). set (am := amorcage cfg p ep).
  pose proof Hr as (Hz & Hq & He & Hn & Hrss & Hpas). rewrite Hrss, Hpas. set (pas := pasMonotone _ _ _ _).
  assert ((if negb am then comparer cfg e ep (minQuorum_de cfg) (abstention ep) else Done releve_zero) = Done (if am then releve_zero else releve_de cfg p ep)) as ->.
  { destruct am; [done|]. apply (comparer_ok N); try done. lia. }
  rewrite run_bind_done. set (r := if am then _ else _). set (o := determinerOrientation _ _ _ _).
  destruct (apprendre_ok N e p ep o Hr Hep HN) as (l & El & Zl & Hl).
  assert (u64 (E_episodesTotaux e + 1) = p_episodes p + 1) as E1 by (rewrite He; apply u64_id; unfold is_u64; lia).
  assert (forall occ c k h rss' pas', represente (N + 1) (Entree occ c k h (p_episodes p + 1) rss' pas' l)
    (Profil (fun q => if appris ep o q then p_obs p q ++ [Valeur ep q] else p_obs p q) (p_episodes p + 1) rss' pas')) as Happris.
  { intros occ c k h rss' pas'. split_and!; try done; cbn [E_quotients E_episodesTotaux p_obs p_episodes]; try lia.
    - intros q Hi. destruct (Hl q Hi) as (s & Hs & Hsu). exists s. split; [done|]. split; [done|].
      destruct (Hq q Hi) as (_ & _ & _ & Hlen). case_match; [rewrite zlen_app; change (zlen [Valeur ep q]) with 1|]; lia. }
  assert (represente (N + 1) e p) as Hr1 by (apply (represente_mono N); [done|lia]).
  destruct (FigerBaseSurAnomalie cfg && anomalie o); cbn [negb]; [|rewrite El]; rewrite !run_bind_done.
  - destruct (negb am && negb (o =? OrientationCompromissionReseau)); eexists; cbn [fst snd p_episodes p_obs E_episodesTotaux]; rewrite He; (split; [done|]); (split; [|done]); [|done].
    destruct Hr1 as (? & ? & ? & ? & ? & ?). split_and!; cbn [p_episodes p_rss p_pas p_obs E_episodesTotaux E_dernierPicRSSKio E_pasHausseMonotoneRSS E_quotients]; done || lia.
  - rewrite E1. cbn [E_occupee E_cleComposite E_ordreAcces E_horodatageAccesNs E_quotients E_episodesTotaux].
    destruct (negb am && negb (o =? OrientationCompromissionReseau)); eexists; cbn [fst snd p_episodes p_obs E_episodesTotaux];
      (split; [done|]); (split; [|done]); apply Happris.
Qed.

(** * The table *)

Definition ordre (ens : list entreeProfilCinetique) (w : nat) : Z := E_ordreAcces (nth w ens entree_zero).

(** The occupied ways, by decreasing last access, hold the profiles of the list. *)
Definition voie_ok (N : Z) (ens : list entreeProfilCinetique) (w : nat) (kp : Z * profil) : Prop :=
  exists e, ens !! w = Some e /\ E_occupee e = true /\ E_cleComposite e = fst kp /\ represente N e (snd kp).

Definition tient_ensemble (N seq : Z) (ens : list entreeProfilCinetique) (L : list (Z * profil)) : Prop :=
  zlen ens = 4 /\ NoDup (fst <$> L) /\ exists ws, NoDup ws /\ Forall2 (voie_ok N ens) ws L /\
    (forall w e, ens !! w = Some e -> E_occupee e = true -> w ∈ ws) /\
    (forall w, w ∈ ws -> 0 < ordre ens w <= seq) /\ StronglySorted (fun w w' => ordre ens w' < ordre ens w) ws.

Lemma ordre_lu ens w e : ens !! w = Some e -> ordre ens w = E_ordreAcces e.
Proof. intros H. unfold ordre. rewrite nth_lookup, H. done. Qed.

Lemma tient_vide : tient_ensemble 0 0 (replicate 4 entree_zero) [].
Proof.
  split; [done|]. split; [constructor|]. exists []. split; [constructor|]. split; [constructor|]. split; [|split; [by intros w ?%elem_of_nil|constructor]].
  by intros w e [-> _]%lookup_replicate_1.
Qed.

(** The profile just used goes to the head. *)
Lemma pose_tete N seq ens w rest L cle p e : zlen ens = 4 -> 0 <= seq -> (w < 4)%nat -> NoDup rest -> w ∉ rest -> Forall2 (voie_ok N ens) rest L ->
  (forall v x, v <> w -> ens !! v = Some x -> E_occupee x = true -> v ∈ rest) ->
  (forall v, v ∈ rest -> 0 < ordre ens v <= seq) -> StronglySorted (fun w w' => ordre ens w' < ordre ens w) rest ->
  NoDup (fst <$> L) -> cle ∉ fst <$> L -> E_occupee e = true -> E_cleComposite e = cle -> E_ordreAcces e = seq + 1 -> represente (N + 1) e p ->
  tient_ensemble (N + 1) (seq + 1) (<[w := e]> ens) ((cle, p) :: L).
Proof.
  intros Hz Hs0 Hw Hnd Hnw H2 Hocc Hord Hsort HndL Hcle Ho Hc Hoa Hr. assert (forall v, v ∈ rest -> v <> w) as Hne by (intros v Hv ->; done).
  assert (forall v, v ∈ rest -> ordre (<[w:=e]> ens) v = ordre ens v) as Hsame.
  { intros v Hv. unfold ordre. rewrite !nth_lookup, list_lookup_insert_ne by (intros ->; by apply (Hne v)). done. }
  assert (<[w:=e]> ens !! w = Some e) as Hwe by (apply list_lookup_insert_eq; unfold zlen in Hz; lia).
  assert (ordre (<[w:=e]> ens) w = seq + 1) as How by (by rewrite (ordre_lu _ _ _ Hwe)).
  split; [by rewrite zlen_insert|]. split; [cbn; by constructor|]. exists (w :: rest). split; [by constructor|]. split; [|split; [|split]].
  - constructor; [by exists e|]. revert H2 Hne. clear. intros H2 Hne. induction H2 as [|v kp rest L (x & Hx & Hox & Hcx & Hrx) _ IH]; constructor.
    + exists x. rewrite list_lookup_insert_ne by (intros ->; by apply (Hne v ltac:(by left))). split_and!; try done. apply (represente_mono N); [done|lia].
    + apply IH. intros u Hu. apply Hne. by right.
  - intros v x Hx Hox. destruct (decide (v = w)) as [->|Hn]; [by left|]. right. rewrite list_lookup_insert_ne in Hx by done. by apply (Hocc v x).
  - intros v [->|Hv]%elem_of_cons; [lia|]. rewrite Hsame by done. specialize (Hord v Hv). lia.
  - constructor; [|apply Forall_forall; intros v Hv; rewrite How, Hsame by done; specialize (Hord v Hv); lia].
    revert Hsort Hsame. clear. intros Hs Hsame. induction Hs as [|v l Hs IH Hf]; constructor; [apply IH; intros u Hu; apply Hsame; by right|].
    apply Forall_forall. intros u Hu. rewrite !Hsame by (by left || by right). rewrite Forall_forall in Hf. by apply Hf.
Qed.

Lemma voies_bornees N ens ws L : zlen ens = 4 -> Forall2 (voie_ok N ens) ws L -> forall w, w ∈ ws -> (w < 4)%nat.
Proof.
  intros Hz H2 w Hw. apply list_elem_of_lookup in Hw as [i Hi]. destruct (Forall2_lookup_l _ _ _ _ _ H2 Hi) as (kp & _ & e & He & _).
  apply lookup_lt_Some in He. unfold zlen in Hz. lia.
Qed.

(** What the search of a way returns. *)
Lemma chercher_ok ens cle : zlen ens = 4 -> (forall w e, ens !! w = Some e -> E_occupee e = true -> 0 < E_ordreAcces e) ->
  exists v l, chercher_voie ens cle = Done (v, l) /\
    ((0 <= v < 4 /\ exists e, ens !! Z.to_nat v = Some e /\ E_occupee e = true /\ E_cleComposite e = cle) \/
     (v = -1 /\ 0 <= l < 4 /\ (forall w e, ens !! w = Some e -> E_occupee e = true -> E_cleComposite e <> cle) /\
      ((exists e, ens !! Z.to_nat l = Some e /\ E_occupee e = false) \/
       ((forall w e, ens !! w = Some e -> E_occupee e = true) /\ forall w e, ens !! w = Some e -> ordre ens (Z.to_nat l) <= E_ordreAcces e)))).
Proof.
  intros Hz Hpos. unfold chercher_voie. destruct (lookup_lt_is_Some_2 ens 0) as [e0 H0]; [unfold zlen in Hz; lia|].
  rewrite (idx_lookup ens 0 e0), run_bind_done by done.
  set (I := fun (v : Z) (s : Z * Z) => 0 <= s.1 < 4 /\ (forall w e, Z.of_nat w < v -> ens !! w = Some e -> E_occupee e = true -> E_cleComposite e <> cle) /\
    ((exists e, s.1 < v /\ ens !! Z.to_nat s.1 = Some e /\ E_occupee e = false /\ s.2 = 0) \/
     ((forall w e, Z.of_nat w < v -> ens !! w = Some e -> E_occupee e = true) /\ s.2 = ordre ens (Z.to_nat s.1) /\ (v = 0 -> s.1 = 0) /\ (0 < v -> s.1 < v) /\
      forall w e, Z.of_nat w < v -> ens !! w = Some e -> s.2 <= E_ordreAcces e))).
  match goal with |- context [for_range 4 ?s0 ?b] => assert (wp (for_range (S := Z * Z) (R := Z * Z) 4 s0 b) (fun o =>
    match o with inl s => I 4 s | inr (v, l) => 0 <= v < 4 /\ exists e, ens !! Z.to_nat v = Some e /\ E_occupee e = true /\ E_cleComposite e = cle end)) as (o & -> & Ho)%wp_exists end.
  - apply (wp_for_range I); [lia| | |].
    + split; [cbn; lia|]. split; [intros w e Hw; lia|]. right. split; [intros w e Hw; lia|]. cbn [fst snd]. change (Z.to_nat 0) with 0%nat; rewrite (ordre_lu _ _ _ H0). split_and!; try done; try lia; intros w e Hw; lia.
    + intros v [l anc] Hv (Hl & Hk & Hc). destruct (lookup_lt_is_Some_2 ens (Z.to_nat v)) as [e He]; [unfold zlen in Hz; lia|].
      rewrite (idx_lookup ens v e), run_bind_done by (done || lia).
      assert (forall (P : nat -> entreeProfilCinetique -> Prop), (forall w x, Z.of_nat w < v -> ens !! w = Some x -> P w x) -> P (Z.to_nat v) e ->
        forall w x, Z.of_nat w < v + 1 -> ens !! w = Some x -> P w x) as Hext.
      { intros P HP Hpe w x Hw Hx. destruct (decide (w = Z.to_nat v)) as [->|]; [by simplify_eq|apply HP; [lia|done]]. }
      destruct (E_occupee e) eqn:Eo; cbn [andb negb].
      * destruct (Z.eqb_spec (E_cleComposite e) cle) as [Ek|Ek]; [apply wp_done; split; [lia|by exists e]|].
        assert (forall w x, Z.of_nat w < v + 1 -> ens !! w = Some x -> E_occupee x = true -> E_cleComposite x <> cle) as Hk' by (apply (Hext (fun w x => E_occupee x = true -> E_cleComposite x <> cle)); auto).
        destruct Hc as [(x & Hx1 & Hx2 & Hx3 & Hx4)|(Ha & Hs & Hv0 & Hv1 & Hmin)]; cbn [fst snd] in *.
        -- subst anc. cbn [Z.ltb Z.compare andb]. apply wp_done. split; [done|]. split; [done|]. left. exists x. split_and!; try done. cbn. lia.
        -- assert (forall w x, Z.of_nat w < v + 1 -> ens !! w = Some x -> E_occupee x = true) as Ha' by (apply (Hext (fun w x => E_occupee x = true)); auto).
           pose proof (Hpos _ _ He Eo) as Hpe.
           destruct (Z.ltb_spec 0 anc), (Z.ltb_spec (E_ordreAcces e) anc) as [Hlt|Hge]; cbn [andb]; apply wp_done.
           ++ split; [cbn; lia|]. split; [done|]. right. cbn [fst snd]. split; [done|]. rewrite (ordre_lu _ _ _ He). split_and!; try lia.
              apply (Hext (fun w x => E_ordreAcces e <= E_ordreAcces x)); [|lia]. intros w x Hw Hx. specialize (Hmin w x Hw Hx). lia.
           ++ split; [done|]. split; [done|]. right. cbn [fst snd]. split_and!; try done; try lia. by apply (Hext (fun w x => anc <= E_ordreAcces x)).
           ++ lia.
           ++ split; [done|]. split; [done|]. right. cbn [fst snd]. split_and!; try done; try lia. by apply (Hext (fun w x => anc <= E_ordreAcces x)).
      * apply wp_done. split; [cbn; lia|]. split; [apply (Hext (fun w x => E_occupee x = true -> E_cleComposite x <> cle)); [done|by rewrite Eo]|]. left. exists e. cbn [fst snd]. split_and!; try done. lia.
    + done.
  - rewrite run_bind_done. destruct o as [[l anc]|[v l]].
    + destruct Ho as (Hl & Hk & Hc). cbn [fst snd] in *. exists (-1), l. split; [done|]. right. split; [done|]. split; [done|].
      assert (forall w x, ens !! w = Some x -> Z.of_nat w < 4) as Hb by (intros w x Hx%lookup_lt_Some; unfold zlen in Hz; lia).
      split; [intros w x Hx; by apply (Hk w x (Hb _ _ Hx))|].
      destruct Hc as [(x & _ & Hx & Hox & _)|(Ha & -> & _ & _ & Hmin)]; [left; by exists x|right].
      split; [intros w x Hx; by apply (Ha w x (Hb _ _ Hx))|intros w x Hx; by apply (Hmin w x (Hb _ _ Hx))].
    + exists v, l. split; [done|]. by left.
Qed.

(** What remains when the way [w] is taken for the key [cle]. *)
Definition reste_ok (N seq : Z) (ens : list entreeProfilCinetique) (w : nat) (L : list (Z * profil)) (cle : Z) : Prop :=
  exists rest, NoDup rest /\ w ∉ rest /\ Forall2 (voie_ok N ens) rest L /\ (forall v x, v <> w -> ens !! v = Some x -> E_occupee x = true -> v ∈ rest) /\
    (forall v, v ∈ rest -> 0 < ordre ens v <= seq) /\ StronglySorted (fun w w' => ordre ens w' < ordre ens w) rest /\ NoDup (fst <$> L) /\ cle ∉ fst <$> L.

Lemma filter_cles (L : list (Z * profil)) cle : cle ∉ fst <$> L -> filter (fun kp => fst kp <> cle) L = L /\ find (fun kp => fst kp =? cle) L = None.
Proof.
  induction L as [|kp L IH]; [done|]. cbn [fmap list_fmap]. intros [Hn H]%not_elem_of_cons. destruct (IH H) as [E1 E2]. rewrite filter_cons, decide_True by done.
  rewrite E1. cbn [find]. by rewrite (proj2 (Z.eqb_neq _ _)) by done.
Qed.

Lemma acceder_present L1 L2 cle p : NoDup (fst <$> L1 ++ (cle, p) :: L2) -> acceder (L1 ++ (cle, p) :: L2) cle = (p, L1 ++ L2).
Proof.
  rewrite fmap_app, fmap_cons. cbn [fst]. intros Hnd. assert (cle ∉ fst <$> L1 /\ cle ∉ fst <$> L2) as [H1 H2].
  { apply NoDup_app in Hnd as (_ & H & H3%NoDup_cons). split; [intros H1; apply (H cle H1); by left|apply H3]. }
  unfold acceder. destruct (filter_cles L1 cle H1) as [E1 F1], (filter_cles L2 cle H2) as [E2 F2].
  assert (find (fun kp => fst kp =? cle) (L1 ++ (cle, p) :: L2) = Some (cle, p)) as ->.
  { clear - F1. induction L1 as [|kp L1 IH]; cbn [app find fst]; [by rewrite Z.eqb_refl|]. cbn [find] in F1. destruct (fst kp =? cle); [done|by apply IH]. }
  rewrite filter_app, filter_cons, decide_False, E1, E2 by (cbn; auto). done.
Qed.

Lemma ensemble_trouve N seq ens L cle w e : tient_ensemble N seq ens L -> ens !! w = Some e -> E_occupee e = true -> E_cleComposite e = cle ->
  exists p reste, acceder L cle = (p, reste) /\ represente N e p /\ reste_ok N seq ens w reste cle.
Proof.
  intros (Hz & HndL & ws & Hnd & H2 & Hocc & Hord & Hs) Hw Ho Hc. pose proof (Hocc w e Hw Ho) as (ws1 & ws2 & ->)%list_elem_of_split.
  apply Forall2_app_inv_l in H2 as (L1 & L2' & H1 & H2 & ->). apply Forall2_cons_inv_l in H2 as ([c p] & L2 & (e' & He' & _ & Hc' & Hr) & H2 & ->).
  assert (e' = e) as -> by congruence. cbn [fst snd] in *. assert (c = cle) as -> by congruence. rewrite acceder_present by done.
  exists p, (L1 ++ L2). split; [done|]. split; [done|]. exists (ws1 ++ ws2). rewrite fmap_app, fmap_cons in HndL. cbn [fst] in HndL.
  rewrite <- Permutation_middle in HndL, Hnd. apply NoDup_cons in HndL as [Hcle HndL], Hnd as [Hnw Hnd].
  split; [done|]. split; [done|]. split; [by apply Forall2_app|]. split; [|split; [|split; [|by rewrite fmap_app]]].
  - intros v x Hv Hx Hox. specialize (Hocc v x Hx Hox). set_solver.
  - intros v Hv. apply Hord. set_solver.
  - apply StronglySorted_app in Hs as (Ha & Hb & [_ Hc'']%StronglySorted_cons). apply StronglySorted_app. split; [|done]. intros x y Hx Hy. apply Ha; [done|by right].
Qed.

Lemma voies_quatre (l : list nat) : NoDup l -> (forall w, w ∈ l -> (w < 4)%nat) -> (length l <= 4)%nat.
Proof.
  intros Hnd Hb. change 4%nat with (length (seq 0 4)). apply submseteq_length, NoDup_submseteq; [done|]. intros w Hw. apply elem_of_seq. specialize (Hb w Hw). lia.
Qed.

Lemma voies_pleines (l : list nat) : (forall w, (w < 4)%nat -> w ∈ l) -> (4 <= length l)%nat.
Proof.
  intros Hin. change 4%nat with (length (seq 0 4)). apply submseteq_length, NoDup_submseteq; [apply NoDup_seq|]. intros v [_ Hv]%elem_of_seq. apply Hin. lia.
Qed.

Lemma ensemble_absent N seq ens L cle w : tient_ensemble N seq ens L -> (w < 4)%nat ->
  (forall v e, ens !! v = Some e -> E_occupee e = true -> E_cleComposite e <> cle) ->
  ((exists e, ens !! w = Some e /\ E_occupee e = false) \/
   ((forall v e, ens !! v = Some e -> E_occupee e = true) /\ forall v e, ens !! v = Some e -> ordre ens w <= E_ordreAcces e)) ->
  exists reste, acceder L cle = (profil_neuf, reste) /\ reste_ok N seq ens w reste cle.
Proof.
  intros (Hz & HndL & ws & Hnd & H2 & Hocc & Hord & Hs) Hw Hk Hc. pose proof (voies_bornees N ens ws L Hz H2) as Hb.
  assert (cle ∉ fst <$> L) as Hcle.
  { intros (kp & -> & Hkp)%list_elem_of_fmap. apply list_elem_of_lookup in Hkp as [i Hi]. destruct (Forall2_lookup_r _ _ _ _ _ H2 Hi) as (v & _ & e & He & Ho & Hke & _).
    by apply (Hk v e He Ho). }
  unfold acceder. destruct (filter_cles L cle Hcle) as [_ ->]. exists (take 3 L). split; [done|].
  pose proof (Forall2_length _ _ _ H2) as Hlen. destruct Hc as [(e & He & Ho)|[Ha Hmin]].
  - assert (w ∉ ws) as Hnw.
    { intros Hin. apply list_elem_of_lookup in Hin as [i Hi]. destruct (Forall2_lookup_l _ _ _ _ _ H2 Hi) as (kp & _ & e' & He' & Ho' & _). congruence. }
    assert (length (w :: ws) <= 4)%nat as H4 by (apply voies_quatre; [by constructor|]; intros v [->|Hv]%elem_of_cons; [done|by apply Hb]). cbn in H4.
    rewrite take_ge by lia. exists ws. split_and!; try done. intros v x _ Hx Hox. by apply (Hocc v x).
  - assert (forall v, (v < 4)%nat -> v ∈ ws) as Hin.
    { intros v Hv. destruct (lookup_lt_is_Some_2 ens v) as [x Hx]; [unfold zlen in Hz; lia|]. apply (Hocc v x Hx), (Ha v x Hx). }
    assert (length ws = 4%nat) as H4.
    { apply Nat.le_antisymm; [by apply voies_quatre|by apply voies_pleines]. }
    destruct (exists_last (l := ws)) as (ws0 & d & ->); [by intros ->|]. destruct (exists_last (l := L)) as (L0 & kd & ->); [by intros ->; cbn in *; lia|].
    rewrite !length_app in *. cbn in *. rewrite take_app_length' by lia. apply Forall2_app_inv in H2 as [H2 _]; [|lia].
    rewrite fmap_app in HndL, Hcle. apply NoDup_app in HndL as (HndL & _ & _). apply not_elem_of_app in Hcle as [Hcle _].
    apply NoDup_app in Hnd as (Hnd & Hd & _). apply StronglySorted_app in Hs as (Hlast & Hs & _).
    assert (d = w) as ->.
    { specialize (Hin w Hw). apply elem_of_app in Hin as [Hin| ->%list_elem_of_singleton]; [|done]. exfalso. specialize (Hlast w d Hin ltac:(by left)).
      destruct (lookup_lt_is_Some_2 ens d) as [x Hx]; [specialize (Hb d ltac:(set_solver)); unfold zlen in Hz; lia|].
      specialize (Hmin d x Hx). rewrite (ordre_lu _ _ _ Hx) in Hlast. lia. }
    exists ws0. split_and!; try done.
    + intros Hw0. apply (Hd w Hw0). by left.
    + intros v x Hv Hx Hox. specialize (Hocc v x Hx Hox). set_solver.
    + intros v Hv. apply Hord. set_solver.
Qed.

Lemma tient_mono N M seq sq' ens L : tient_ensemble N seq ens L -> N <= M -> seq <= sq' -> tient_ensemble M sq' ens L.
Proof.
  intros (Hz & HndL & ws & Hnd & H2 & Hocc & Hord & Hs) HM Hsq. split; [done|]. split; [done|]. exists ws. split; [done|]. split; [|split; [done|split; [|done]]].
  - eapply Forall2_impl; [exact H2|]. intros w kp (e & He & Ho & Hc & Hr). exists e. split_and!; try done. by apply (represente_mono N).
  - intros w Hw. specialize (Hord w Hw). lia.
Qed.

Lemma tient_ordre N seq ens L w e : tient_ensemble N seq ens L -> ens !! w = Some e -> E_occupee e = true -> 0 < E_ordreAcces e.
Proof.
  intros (_ & _ & ws & _ & _ & Hocc & Hord & _) He Ho. rewrite <- (ordre_lu _ _ _ He). apply Hord. by apply (Hocc w e).
Qed.

Definition simule (N : Z) (t : TableProfilsCinetiques) (A : Z -> list (Z * profil)) : Prop :=
  zlen (T_ensembles t) = 64 /\ T_seqAcces t = N /\
  forall i, 0 <= i < 64 -> exists ens, T_ensembles t !! Z.to_nat i = Some ens /\ tient_ensemble N N ens (A i).

Lemma simule_neuve cfg : simule 0 (NouvelleTableProfilsCinetiques cfg) (fun _ => []).
Proof.
  split; [done|]. split; [done|]. intros i Hi. exists (replicate 4 entree_zero). split; [apply lookup_replicate_2; lia|apply tient_vide].
Qed.

(** The way of the episode, whether found or taken. *)
Lemma voie_preparee N ens L cle : tient_ensemble N N ens L -> 0 <= N ->
  exists voie ens' e p reste, ('(voieCible, voieLRU) ← chercher_voie ens cle;
      if voieCible <? 0 then e ← upd ens voieLRU (Entree true cle 0 0 0 0 0 (replicate 12 suivi_vide)); Done (voieLRU, e) else Done (voieCible, ens)) = Done (voie, ens') /\
    0 <= voie < 4 /\ zlen ens' = 4 /\ ens' !! Z.to_nat voie = Some e /\ (forall x, <[Z.to_nat voie := x]> ens' = <[Z.to_nat voie := x]> ens) /\
    acceder L cle = (p, reste) /\ represente N e p /\ reste_ok N N ens (Z.to_nat voie) reste cle /\ E_occupee e = true /\ E_cleComposite e = cle.
Proof.
  intros Ht HN. pose proof Ht as (Hz & _). destruct (chercher_ok ens cle Hz ltac:(intros w e; by apply (tient_ordre N N ens L))) as (v & l & -> & H). rewrite run_bind_done.
  destruct H as [(Hv & e & He & Ho & Hc)|(-> & Hl & Hk & Hc)].
  - rewrite (proj2 (Z.ltb_ge _ _)) by lia. destruct (ensemble_trouve N N ens L cle _ e Ht He Ho Hc) as (p & reste & Ea & Hr & Hre).
    by exists v, ens, e, p, reste.
  - cbn [Z.ltb Z.compare]. rewrite upd_ok, run_bind_done by lia. destruct (ensemble_absent N N ens L cle (Z.to_nat l) Ht ltac:(lia) Hk Hc) as (reste & Ea & Hre).
    eexists l, _, _, profil_neuf, reste. split; [done|]. split; [done|]. split; [by rewrite zlen_insert|]. split; [apply list_lookup_insert_eq; unfold zlen in Hz; lia|].
    split; [intros x; apply list_insert_insert_eq|]. split; [done|]. split; [|done].
    apply (represente_mono 0); [|done]. exact (represente_champs _ _ _ true cle 0 0 represente_neuf).
Qed.

Lemma ObserverEpisode_ok N t A cle h ep : simule N t A -> 0 <= N -> N + 1 < 2 ^ 64 -> 0 <= MinEpisodesAmorcage (T_cfg t) -> episode_ok ep ->
  exists t', ObserverEpisode t cle h ep = Done (t', snd (observer_table (T_cfg t) A cle ep)) /\ simule (N + 1) t' (fst (observer_table (T_cfg t) A cle ep)) /\ T_cfg t' = T_cfg t.
Proof.
  intros (Hz & Hseq & Hs) HN0 HN Hm Hep. unfold ObserverEpisode, observer_table. set (k := composerCleProfil cle (classe_profil ep)).
  change (Z.land (Z.lxor k (Z.shiftr k 17)) (nombreEnsemblesProfils - 1)) with (index_ensemble k).
  assert (0 <= index_ensemble k < 64) as Hi by (apply (land_range _ _ 6); unfold nombreEnsemblesProfils; lia).
  destruct (Hs _ Hi) as (ens & He & Ht). rewrite (idx_lookup _ _ ens), run_bind_done by (done || lia). rewrite Hseq, u64_id by (unfold is_u64; lia).
  destruct (voie_preparee N ens (A (index_ensemble k)) k Ht HN0) as (voie & ens' & e & p & reste & E & Hv & Hz' & Hev & Hins & Ea & Hr & Hre & Ho & Hc).
  rewrite Ea. destruct (chercher_voie ens k) as [[vc vl]| |]; [|done..]. rewrite run_bind_done in E. rewrite run_bind_done, E, run_bind_done. clear E.
  rewrite (idx_lookup _ _ e), run_bind_done by (done || lia). cbv zeta.
  destruct (observer_entree_ok N (T_cfg t) _ p cle (classe_profil ep) ep (represente_champs N e p (E_occupee e) (E_cleComposite e) (N + 1) h Hr) Hep Hm HN) as (e' & -> & Hr' & Ho' & Hc' & Hord').
  rewrite run_bind_done. destruct (observer_profil (T_cfg t) p cle (classe_profil ep) ep) as [p' diag]. cbn [fst snd E_occupee E_cleComposite E_ordreAcces] in *.
  rewrite (upd_ok ens'), run_bind_done, (upd_ok (T_ensembles t)), run_bind_done by lia. eexists. split; [done|]. split; [|done].
  split; [cbn [T_ensembles]; by rewrite zlen_insert|]. split; [done|]. cbn [T_ensembles]. intros j Hj. rewrite Hins. destruct (Z.eqb_spec j (index_ensemble k)) as [->|Hn].
  - eexists. split; [apply list_lookup_insert_eq; unfold zlen in Hz; lia|]. destruct Hre as (rest & H1 & H2 & H3 & H4 & H5 & H6 & H7 & H8).
    apply (pose_tete N N ens (Z.to_nat voie) rest); try done; try lia; [by destruct Ht|congruence..].
  - rewrite list_lookup_insert_ne by lia. destruct (Hs j Hj) as (ens2 & He2 & Ht2). exists ens2. split; [done|]. apply (tient_mono N _ N); [done|lia..].
Qed.

(** * Properties *)

(** A sequence of observations: executable, date, episode. *)
Fixpoint observer_tout (t : TableProfilsCinetiques) (l : list (Z * Z * QuotientsEpisode)) : run (TableProfilsCinetiques * list DiagnosticEpisodeCinetique) :=
  match l with
  | [] => Done (t, [])
  | (cle, h, ep) :: l => '(t, d) ← ObserverEpisode t cle h ep; '(t, ds) ← observer_tout t l; Done (t, d :: ds)
  end.

Fixpoint specifier_tout (cfg : ConfigProfilCinetique) (A : Z -> list (Z * profil)) (l : list (Z * Z * QuotientsEpisode))
  : (Z -> list (Z * profil)) * list DiagnosticEpisodeCinetique :=
  match l with
  | [] => (A, [])
  | (cle, _, ep) :: l => let '(A, d) := observer_table cfg A cle ep in let '(A, ds) := specifier_tout cfg A l in (A, d :: ds)
  end.

Lemma observer_tout_ok l : forall N t A, simule N t A -> 0 <= N -> N + zlen l < 2 ^ 64 -> 0 <= MinEpisodesAmorcage (T_cfg t) ->
  Forall (fun '(_, ep) => episode_ok ep) l ->
  exists t', observer_tout t l = Done (t', snd (specifier_tout (T_cfg t) A l)) /\ simule (N + zlen l) t' (fst (specifier_tout (T_cfg t) A l)) /\ T_cfg t' = T_cfg t.
Proof.
  induction l as [|[[cle h] ep] l IH]; intros N t A Hs HN0 HN Hm Hl.
  - exists t. split; [done|]. split; [|done]. by replace (N + zlen (@nil (Z * Z * QuotientsEpisode))) with N by (change (zlen (@nil (Z * Z * QuotientsEpisode))) with 0; lia).
  - apply Forall_cons in Hl as [Hep Hl]. rewrite zlen_cons in *. pose proof (zlen_nonneg l).
    destruct (ObserverEpisode_ok N t A cle h ep Hs HN0 ltac:(lia) Hm Hep) as (t1 & E1 & Hs1 & Hc1). cbn [observer_tout specifier_tout]. rewrite E1, run_bind_done.
    destruct (observer_table (T_cfg t) A cle ep) as [A1 d1]. cbn [fst snd] in *.
    destruct (IH (N + 1) t1 A1 Hs1 ltac:(lia) ltac:(lia) ltac:(by rewrite Hc1) Hl) as (t2 & E2 & Hs2 & Hc2). rewrite Hc1 in *. rewrite E2, run_bind_done. exists t2.
    destruct (specifier_tout (T_cfg t) A1 l) as [A2 ds]. split; [done|]. split; [|congruence]. by replace (N + (1 + zlen l)) with (N + 1 + zlen l) by lia.
Qed.

(** The profile of a key. *)
Definition profil_de (A : Z -> list (Z * profil)) (cle : Z) : profil := fst (acceder (A (index_ensemble cle)) cle).

(** C17: for any sequence of fewer than 2^64 observed episodes, the table returns the
    diagnostics of the specification: 64 recency lists of at most four profiles, the
    least recently used one evicted; a profile compares each valid quotient that has
    its quorum with the exact median and deviation of its last 32 retained
    observations, decides the orientation, and retains the episode unless it is a
    frozen anomaly.  No way is lost, duplicated or mixed up, no index is out of range. *)
Theorem profils_raffinent cfg l :
  0 <= MinEpisodesAmorcage cfg -> Forall (fun '(_, ep) => episode_ok ep) l -> zlen l < 2 ^ 64 ->
  exists t, observer_tout (NouvelleTableProfilsCinetiques cfg) l = Done (t, snd (specifier_tout cfg (fun _ => []) l)) /\
    simule (zlen l) t (fst (specifier_tout cfg (fun _ => []) l)).
Proof.
  intros Hm Hl Hn. destruct (observer_tout_ok l 0 _ _ (simule_neuve cfg) ltac:(lia) ltac:(lia) Hm Hl) as (t & E & Hs & _). exists t. by split.
Qed.

(** ** Alerts *)

Lemma masque_testbit f l i : 0 <= i -> Forall (fun q => 0 <= q) l -> Z.testbit (masque_de f l) i = existsb (fun q => f q && (q =? i)) l.
Proof.
  intros Hi Hf. unfold masque_de. rewrite <- (orb_false_l (existsb _ _)). rewrite <- (Z.testbit_0_l i). generalize 0 as m.
  induction l as [|q l IH]; intros m; cbn [fold_left existsb]; [by rewrite orb_false_r|]. apply Forall_cons in Hf as [Hq Hf].
  rewrite IH by done. destruct (f q); cbn [andb orb]; [|done]. unfold bit1. rewrite Z.lor_spec, Z.shiftl_1_l, Z.pow2_bits_eqb by lia. by rewrite orb_assoc.
Qed.

Lemma masque_bit_q f q : 0 <= q < 12 -> Z.testbit (masque_de f indices) q = f q.
Proof.
  intros Hq. rewrite masque_testbit; [|lia|apply Forall_forall; intros x Hx%elem_of_seqZ; lia]. apply eq_true_iff_eq. rewrite existsb_exists. split.
  - intros (x & _ & [Hx ->%Z.eqb_eq]%andb_true_iff). done.
  - intros Hf. exists q. split; [apply list_elem_of_In, elem_of_seqZ; lia|]. by rewrite Hf, Z.eqb_refl.
Qed.

Lemma alerte_bit m k q : 0 <= q -> Z.testbit m q = true -> Z.testbit k q = true -> negb (Z.land m k =? 0) = true.
Proof.
  intros Hq Hm Hk. apply negb_true_iff, Z.eqb_neq. intros E. apply (f_equal (fun z => Z.testbit z q)) in E. rewrite Z.land_spec, Hm, Hk, Z.bits_0 in E. done.
Qed.

(** An alert on a logical input-output quotient is an anomaly. *)
Lemma alerte_es_anomalie cfg abst diag q : 0 <= q < 3 -> Z.testbit (D_MasqueQuotientsAlerte diag) q = true -> anomalie (determinerOrientation cfg false abst diag) = true.
Proof.
  intros Hq Hb. unfold determinerOrientation. set (s := indiceReseauSuspect cfg false diag). case_match; [done|]. case_match; [done|].
  assert (Z.testbit masqueQuotientsESLogiques q = true /\ Z.testbit MasqueQuotientsSensiblesCPU q = false /\ Z.testbit (masqueNonStructurel diag) q = false) as (Hes & Hse & Hns).
  { assert (q = 0 \/ q = 1 \/ q = 2) as [->|[->| ->]] by lia; (split; [done|]); (split; [done|]); unfold masqueNonStructurel; by repeat case_match. }
  assert (alerte diag masqueQuotientsESLogiques = true) as -> by (by apply (alerte_bit _ _ q); [lia|..]). rewrite andb_false_r.
  assert (Z.testbit (Z.ldiff (D_MasqueQuotientsAlerte diag) (masqueNonStructurel diag)) q = true) as Hi by (by rewrite Z.ldiff_spec, Hb, Hns).
  assert (Z.ldiff (D_MasqueQuotientsAlerte diag) (masqueNonStructurel diag) =? 0 = false) as -> by (apply Z.eqb_neq; intros E; by rewrite E, Z.bits_0 in Hi).
  assert (Z.ldiff (Z.ldiff (D_MasqueQuotientsAlerte diag) (masqueNonStructurel diag)) MasqueQuotientsSensiblesCPU =? 0 = false) as ->.
  { apply Z.eqb_neq. intros E. apply (f_equal (fun z => Z.testbit z q)) in E. by rewrite Z.ldiff_spec, Hi, Hse, Z.bits_0 in E. }
  rewrite andb_false_r. done.
Qed.

Lemma echelle_grandit n n' f d d' : 0 <= n <= n' -> 0 <= f -> 0 < d' <= d -> echelle n f d <= echelle n' f d'.
Proof.
  intros Hn Hf Hd. unfold echelle. destruct (Z.eqb_spec d 0), (Z.eqb_spec d' 0); try lia. apply Z.min_le_compat_l.
  transitivity (n' * f / d); [apply Z.div_le_mono; nia|]. apply Z.div_le_compat_l; nia.
Qed.

(** An observation beyond the interval of the majority. *)
Lemma ecart_majorite l a b o : 0 <= a -> zlen l < 2 * dans a b l -> b < o ->
  echelle (o - b) 100 (Z.max b 1) <= fst (ecart_de l o) /\
  echelle (o - b) 1000 (Z.max (echelle (b - a) 1483 1000) (Z.max (b / 20) 1)) <= snd (ecart_de l o).
Proof.
  intros Ha Hm Ho. pose proof (majorite a b l Hm) as H1. pose proof (majorite_madm a b l Hm) as H2. unfold ecart_de, ecart_relatif, score, echelle_robuste. cbn [fst snd].
  rewrite (proj2 (Z.ltb_ge o (mediane l))) by lia. rewrite !Z.abs_eq by lia.
  assert (0 <= mediane l / 20 <= b / 20) by (split; [apply Z.div_pos|apply Z.div_le_mono]; lia).
  pose proof (echelle_grandit (madm l) (b - a) 1483 1000 1000 ltac:(lia) ltac:(lia) ltac:(lia)). pose proof (echelle_range (madm l) 1483 1000 ltac:(lia) ltac:(lia) ltac:(lia)).
  split; apply echelle_grandit; lia.
Qed.

(** [o] exceeds what the majority of [l] shows by the two thresholds. *)
Definition depasse (cfg : ConfigProfilCinetique) (l : list Z) (a b o : Z) : Prop :=
  zlen l < 2 * dans a b l /\ b < o /\ SeuilHausseRelativePct cfg <= echelle (o - b) 100 (Z.max b 1) /\
  SeuilScoreRobusteMilli cfg <= echelle (o - b) 1000 (Z.max (echelle (b - a) 1483 1000) (Z.max (b / 20) 1)).

Lemma depasse_alerte cfg p ep q a b : 0 <= q < 3 -> EstValide ep q = true -> 0 <= a -> pret cfg p q = true ->
  depasse cfg (dernieres (p_obs p q)) a b (Valeur ep q) -> alerte_q cfg p ep q = true.
Proof.
  intros Hq Hv Ha Hpr (Hmaj & Ho & Hpct & Hsco). unfold alerte_q, ecart_q, compare_q. rewrite Hv, Hpr. cbn [andb].
  destruct (ecart_majorite _ a b _ Ha Hmaj Ho) as [H1 H2]. revert Ho Hpct Hsco H1 H2. generalize (Valeur ep q) as o. intros o Ho Hpct Hsco H1 H2.
  unfold est_alerte. assert (sensible q = false /\ descriptif q = false) as [-> ->] by (assert (q = 0 \/ q = 1 \/ q = 2) as [->|[->| ->]] by lia; done).
  rewrite andb_false_r. cbn [negb andb]. apply andb_true_iff. rewrite !Z.leb_le. split; [lia|].
  destruct (Z.ltb_spec (fst (ecart_de (dernieres (p_obs p q)) o)) 0) as [Hneg|]; [|lia].
  exfalso. pose proof (echelle_range (o - b) 100 (Z.max b 1) ltac:(lia) ltac:(lia) ltac:(lia)). lia.
Qed.

Lemma anomalie_gelee cfg p cle classe ep q : 0 <= q < 3 -> FigerBaseSurAnomalie cfg = true -> amorcage cfg p ep = false -> alerte_q cfg p ep q = true ->
  let '(p', d) := observer_profil cfg p cle classe ep in
  anomalie (D_Orientation d) = true /\ Z.testbit (D_MasqueQuotientsAlerte d) q = true /\ p_obs p' = p_obs p /\ p_episodes p' = p_episodes p.
Proof.
  intros Hq Hf Ham Hal. unfold observer_profil. rewrite Ham. cbn [r_masque r_max r_var r_sco releve_de negb andb].
  assert (Z.testbit (masque_de (alerte_q cfg p ep) indices) q = true) as Hb by (rewrite masque_bit_q by lia; exact Hal).
  revert Hb. generalize (masque_de (alerte_q cfg p ep) indices) as m. intros m Hb.
  set (od := determinerOrientation _ _ _ _). assert (anomalie od = true) as Han by (by apply (alerte_es_anomalie _ _ _ q)).
  rewrite Hf, Han. cbn [andb D_Orientation D_MasqueQuotientsAlerte]. split; [done|]. split; [done|]. by destruct (negb (od =? OrientationCompromissionReseau)).
Qed.

(** C26: a deviation of a logical input-output quotient (bytes per call, share of
    writes, block amplification) cannot be masked nor taught by a minority: whatever
    was observed before, once the profile is out of its warm-up and has its quorum, if
    more than half of its last 32 retained values lie in [a, b] and the new value
    exceeds b by the two configured thresholds, the episode is an anomaly, and the
    profile of the process, if anomalies are frozen, retains nothing of it. *)
Theorem derive_non_masquable cfg l cle h ep q a b :
  0 <= MinEpisodesAmorcage cfg -> Forall (fun '(_, ep) => episode_ok ep) l -> zlen l + 1 < 2 ^ 64 -> episode_ok ep -> FigerBaseSurAnomalie cfg = true ->
  0 <= q < 3 -> EstValide ep q = true -> 0 <= a ->
  let A := fst (specifier_tout cfg (fun _ => []) l) in
  let k := composerCleProfil cle (classe_profil ep) in
  let p := profil_de A k in
  amorcage cfg p ep = false -> pret cfg p q = true ->
  depasse cfg (dernieres (p_obs p q)) a b (Valeur ep q) ->
  exists t t' d, observer_tout (NouvelleTableProfilsCinetiques cfg) l = Done (t, snd (specifier_tout cfg (fun _ => []) l)) /\
    ObserverEpisode t cle h ep = Done (t', d) /\ anomalie (D_Orientation d) = true /\ Z.testbit (D_MasqueQuotientsAlerte d) q = true /\
    exists A', simule (zlen l + 1) t' A' /\ p_obs (profil_de A' k) = p_obs p /\ p_episodes (profil_de A' k) = p_episodes p.
Proof.
  intros Hm Hl Hn Hep Hf Hq Hv Ha A k p Ham Hpr Hdep.
  destruct (observer_tout_ok l 0 _ _ (simule_neuve cfg) ltac:(lia) ltac:(lia) Hm Hl) as (t & E & Hs & Hc). cbn [T_cfg NouvelleTableProfilsCinetiques] in E, Hs, Hc.
  rewrite Z.add_0_l in Hs. pose proof (zlen_nonneg l).
  destruct (ObserverEpisode_ok (zlen l) t A cle h ep Hs ltac:(lia) ltac:(lia) ltac:(by rewrite Hc) Hep) as (t' & E' & Hs' & _).
  pose proof (anomalie_gelee cfg p cle (classe_profil ep) ep q Hq Hf Ham (depasse_alerte cfg p ep q a b Hq Hv Ha Hpr Hdep)) as Han.
  rewrite Hc in E', Hs'. unfold observer_table in E', Hs'. fold k in E', Hs'.
  destruct (acceder (A (index_ensemble k)) k) as [p0 reste] eqn:Ea. assert (p0 = p) as -> by (unfold p, profil_de; by rewrite Ea).
  destruct (observer_profil cfg p cle (classe_profil ep) ep) as [p' d]. destruct Han as (H1 & H2 & H3 & H4). cbn [fst snd] in E', Hs'.
  exists t, t', d. split; [exact E|]. split; [exact E'|]. split; [done|]. split; [done|]. eexists. split; [exact Hs'|].
  unfold profil_de, acceder. rewrite Z.eqb_refl. cbn [find fst]. rewrite Z.eqb_refl. by split.
Qed.

Lemma masque_non_nul f l : masque_de f l <> 0 -> exists q, q ∈ l /\ f q = true.
Proof.
  unfold masque_de. intros H. assert (forall m, m = 0 \/ (exists q, q ∈ l /\ f q = true) -> fold_left (fun m q => if f q then Z.lor m (bit1 q) else m) l m = 0 \/ exists q, q ∈ l /\ f q = true) as Hg.
  { clear H. induction l as [|x l IH]; intros m Hm; cbn [fold_left].
    - destruct Hm as [->|(q & Hq & _)]; [by left|by apply elem_of_nil in Hq].
    - destruct (f x) eqn:Ef; [right; exists x; split; [by left|done]|]. destruct (IH m) as [E|(q & Hq & Hf)]; [|by left|right; exists q; split; [by right|done]].
      destruct Hm as [->|(q & Hq & Hf)]; [by left|]. apply elem_of_cons in Hq as [->|Hq]; [congruence|]. right. by exists q. }
  destruct (Hg 0 ltac:(by left)) as [|]; [done|assumption].
Qed.

Lemma alerte_masque diag k : alerte diag k = true -> D_MasqueQuotientsAlerte diag <> 0.
Proof. unfold alerte. intros H%negb_true_iff%Z.eqb_neq E. by rewrite E, Z.land_0_l in H. Qed.

Lemma anomalie_raison cfg am abst diag : anomalie (determinerOrientation cfg am abst diag) = true ->
  preuveHostile (D_Episode diag) = true \/ (am = false /\ (Q_ConfinementResolveur (D_Episode diag) = true \/ D_MasqueQuotientsAlerte diag <> 0)).
Proof.
  unfold determinerOrientation. destruct (preuveHostile (D_Episode diag)); [by left|]. intros H. right. destruct am; cbn [negb andb orb] in H.
  { unfold hausseResolveur in H. cbn in H. done. }
  split; [done|]. destruct (Q_ConfinementResolveur (D_Episode diag)); [by left|right]. cbn [orb] in H.
  destruct (hausseResolveur cfg false diag) eqn:Eh; [unfold hausseResolveur in Eh; rewrite !andb_true_iff in Eh; destruct Eh as [[[[_ Ha] _] _] _]; by apply (alerte_masque diag _ Ha)|].
  cbn [orb] in H. destruct (alerte diag masqueCPUouRAMouEgress) eqn:E1; [by apply alerte_masque in E1|]. rewrite andb_false_r in H.
  destruct (alerte diag (bit1 IndiceDilatationHorsCPU)) eqn:E2; [by apply alerte_masque in E2|]. rewrite andb_false_r, !andb_false_l, andb_false_r in H. cbn [andb] in H.
  case_match; [done|]. case_match; [|by case_match]. intros E. by rewrite E, Z.ldiff_0_l in *.
Qed.

Lemma determiner_amorcage cfg ab diag : anomalie (determinerOrientation cfg true ab diag) = true -> determinerOrientation cfg true ab diag = OrientationCompromissionReseau.
Proof. unfold determinerOrientation. cbv zeta. by destruct (_ || _ || _ || _). Qed.

(** C28: an accusation rests on evidence: on any profile that represents a history, an
    episode is declared an anomaly (network compromise, input-output degradation,
    structural deviation) only on an intrinsic network proof (suspicious port, DNS
    code), or, after the warm-up, on a confinement to an encrypted resolver or on a
    quotient whose exact deviation from its last 32 observations passes both
    thresholds; an intrinsic proof is always a compromise, from the first episode, and
    so is a confinement after the warm-up.  When anomalies are frozen, a compromise
    leaves the whole profile as it was; the two other anomalies leave its statistics and
    its count of episodes, and move only the cursor of the resident memory to the value
    of the episode, with the number of rises in a row that the diagnostic reports. *)
Theorem accusation_fondee N cfg e p cle classe ep :
  represente N e p -> episode_ok ep -> 0 <= MinEpisodesAmorcage cfg -> N + 1 < 2 ^ 64 ->
  exists e' d, observer_entree cfg e cle classe ep = Done (e', d) /\
    (preuveHostile ep = true \/ (amorcage cfg p ep = false /\ Q_ConfinementResolveur ep = true) -> D_Orientation d = OrientationCompromissionReseau) /\
    (anomalie (D_Orientation d) = true -> preuveHostile ep = true \/
      (amorcage cfg p ep = false /\ (Q_ConfinementResolveur ep = true \/ exists q, 0 <= q < 12 /\ alerte_q cfg p ep q = true))) /\
    (anomalie (D_Orientation d) = true -> FigerBaseSurAnomalie cfg = true ->
      e' = if D_Orientation d =? OrientationCompromissionReseau then e
           else Entree (E_occupee e) (E_cleComposite e) (E_ordreAcces e) (E_horodatageAccesNs e) (E_episodesTotaux e) (rssRetenu_de ep) (D_PasDeriveMonotoneRSS d) (E_quotients e)).
Proof.
  intros Hr Hep Hm HN. destruct (observer_entree_ok N cfg e p cle classe ep Hr Hep Hm HN) as (e' & E & _). exists e', (snd (observer_profil cfg p cle classe ep)).
  split; [done|]. split; [|split].
  - unfold observer_profil. cbn [snd D_Orientation]. unfold determinerOrientation. cbn [D_Episode]. intros [->|[-> ->]]; [done|]. cbn [negb andb]. by rewrite orb_true_r.
  - unfold observer_profil. cbn [snd D_Orientation]. intros [Hh|[Ham [Hc|Hq]]]%anomalie_raison; [by left|right; split; [done|by left]|right; split; [done|right]].
    cbn [D_MasqueQuotientsAlerte] in Hq. rewrite Ham in Hq. apply masque_non_nul in Hq as (q & Hq%elem_of_seqZ & Hf). exists q. split; [lia|done].
  - intros Han Hf. revert E. unfold observer_entree. fold (abstention ep). rewrite (amorcage_ok N cfg e p ep), run_bind_done by (done || lia).
    destruct (if negb (amorcage cfg p ep) then comparer cfg e ep (minQuorum_de cfg) (abstention ep) else Done releve_zero) as [r| |]; [|done..].
    rewrite run_bind_done. set (pas := pasMonotone _ _ _ _). set (o := determinerOrientation _ _ _ _). intros E.
    assert (D_Orientation (snd (observer_profil cfg p cle classe ep)) = o /\ D_PasDeriveMonotoneRSS (snd (observer_profil cfg p cle classe ep)) = pas) as [Eo Ep].
    { destruct (negb (FigerBaseSurAnomalie cfg && _)); [destruct (apprendre _ _ _ _); [|done..]|]; rewrite run_bind_done in E;
        apply (f_equal (fun x => match x with Done (_, d) => (D_Orientation d, D_PasDeriveMonotoneRSS d) | _ => (0, 0) end)) in E; cbn [D_Orientation D_PasDeriveMonotoneRSS] in E; by injection E. }
    rewrite Eo in Han |- *. rewrite Ep. rewrite Hf, Han in E. cbn [andb negb] in E. rewrite run_bind_done in E.
    apply (f_equal (fun x => match x with Done (y, _) => Some y | _ => None end)) in E. apply (inj Some) in E. rewrite <- E.
    destruct (Z.eqb_spec o OrientationCompromissionReseau) as [|Hne]; [by rewrite andb_false_r|].
    destruct (amorcage cfg p ep); [|done]. by apply determiner_amorcage in Han.
Qed.

(** Ten episodes of 4096 bytes per call, then one of 65536. *)
Definition episode_exemple (n : Z) : QuotientsEpisode :=
  Episode 42 77 1000 500 0 500 4096 0 0 0 0 0 0 1000 1000 1 0 0 0 0 0 0 0 false false false false false false 0 false 0 1 (n :: replicate 11 0).
Definition seance_exemple : list (Z * Z * QuotientsEpisode) := (fun i => (81, i, episode_exemple 4096)) <$> seqZ 0 10.

Lemma episode_exemple_ok n : is_i64 n -> episode_ok (episode_exemple n).
Proof. intros Hn. split; [done|]. constructor; [done|]. apply Forall_replicate. unfold is_i64. lia. Qed.

Lemma seance_exemple_ok : Forall (fun '(_, ep) => episode_ok ep) seance_exemple.
Proof. apply Forall_fmap, Forall_forall. intros i _. apply episode_exemple_ok. unfold is_i64. lia. Qed.

Lemma profils_raffinent_witness : exists t ds,
  observer_tout (NouvelleTableProfilsCinetiques ConfigProfilParDefaut) (seance_exemple ++ [(81, 99, episode_exemple 65536)]) = Done (t, ds) /\
  D_Orientation <$> ds = replicate 8 OrientationAmorcage ++ replicate 2 OrientationNominale ++ [OrientationEcartStructurel].
Proof.
  destruct (profils_raffinent ConfigProfilParDefaut (seance_exemple ++ [(81, 99, episode_exemple 65536)])) as (t & E & _).
  - cbn. lia.
  - apply Forall_app. split; [apply seance_exemple_ok|]. constructor; [apply episode_exemple_ok; unfold is_i64; lia|constructor].
  - by vm_compute.
  - exists t. eexists. split; [exact E|]. by vm_compute.
Defined.

Lemma derive_non_masquable_witness : exists t t' d,
  observer_tout (NouvelleTableProfilsCinetiques ConfigProfilParDefaut) seance_exemple = Done (t, snd (specifier_tout ConfigProfilParDefaut (fun _ => []) seance_exemple)) /\
  ObserverEpisode t 81 99 (episode_exemple 65536) = Done (t', d) /\ anomalie (D_Orientation d) = true.
Proof.
  pose proof (derive_non_masquable ConfigProfilParDefaut seance_exemple 81 99 (episode_exemple 65536) 0 4096 4096 ltac:(cbn; lia) seance_exemple_ok ltac:(by vm_compute)
    ltac:(apply episode_exemple_ok; unfold is_i64; lia) eq_refl ltac:(lia) eq_refl ltac:(lia)) as H. cbv zeta in H.
  destruct H as (t & t' & d & H1 & H2 & H3 & _); [by vm_compute|by vm_compute| |exists t, t', d; by split_and!].
  unfold depasse. split; [by vm_compute|]. split; [by vm_compute|]. split; apply Z.leb_le; by vm_compute.
Defined.

(** A first episode that reaches a suspicious port: a compromise, and nothing is learnt. *)
Definition episode_suspect : QuotientsEpisode :=
  Episode 42 77 1000 500 0 500 4096 0 0 0 0 0 0 1000 1000 1 0 0 0 0 0 0 0 false false false false false false 0 false 4444 1 (replicate 12 0).
Lemma accusation_fondee_witness : let e := Entree true 0 0 0 0 0 0 (replicate 12 suivi_vide) in
  exists d, preuveHostile episode_suspect = true /\ observer_entree ConfigProfilParDefaut e 81 0 episode_suspect = Done (e, d) /\ anomalie (D_Orientation d) = true.
Proof.
  cbv zeta. destruct (accusation_fondee 0 ConfigProfilParDefaut _ _ 81 0 episode_suspect represente_neuf
    ltac:(split; [reflexivity|apply Forall_replicate; unfold is_i64; lia]) ltac:(cbn; lia) ltac:(lia)) as (e' & d & E & Hc & _ & Hg).
  assert (preuveHostile episode_suspect = true) as Hh by (vm_compute; reflexivity). specialize (Hc (or_introl Hh)). rewrite Hc in Hg. specialize (Hg eq_refl eq_refl).
  exists d. split; [exact Hh|]. rewrite Hg in E. split; [exact E|]. rewrite Hc. reflexivity.
Defined.
