(* ===== verification/ProcTexte.v ===== *)
(** The readers of /proc and /sys text (src/internal/cinetique/capteur_proc_linux.go,
    AnalyserStatProc to AnalyserListeCPUs).  The theorems: what the kernel writes is
    read back exactly, whatever the name of the process, which the process chooses,
    contains; a text that does not end with a line feed is refused. *)
From stdpp Require Import list_numbers.
From S2P Require Import Prelude Texte Quotients Reputation.
Local Open Scope Z_scope.

Inductive erreur_proc :=
  | ErrTamponProcSature | ErrFormatStatInvalide | ErrFormatSchedstatInvalide | ErrFormatStatusInvalide
  | ErrFormatIOInvalide | ErrFormatPSIInvalide | ErrListeCPUInvalide | Errno (e : Z).

(** * Assignments to the fields of an [InstantaneTache] *)

Definition avec_identite (pid tid horodatage : Z) (t : InstantaneTache) : InstantaneTache :=
  Tache pid tid horodatage (T_DebutTacheTicks t) (T_UtilisateurTicks t) (T_SystemeTicks t) (T_FautesMineures t) (T_FautesMajeures t) (T_NombreFils t)
    (T_CoeurDerniereExecution t) (T_VmHWMKio t) (T_VmRSSKio t) (T_CommutationsVolontaires t) (T_CommutationsSubies t) (T_TempsExecutionNs t) (T_AttenteFileNs t)
    (T_TranchesOrdonnanceur t) (T_OctetsLusLogiques t) (T_OctetsEcritsLogiques t) (T_AppelsLecture t) (T_AppelsEcriture t) (T_OctetsLusBloc t)
    (T_OctetsEcritsBloc t) (T_OctetsEcritureAnnules t).
Definition avec_stat (pid minflt majflt utime stime fils debut coeur : Z) (t : InstantaneTache) : InstantaneTache :=
  Tache pid (T_TID t) (T_HorodatageNs t) debut utime stime minflt majflt fils
    coeur (T_VmHWMKio t) (T_VmRSSKio t) (T_CommutationsVolontaires t) (T_CommutationsSubies t) (T_TempsExecutionNs t) (T_AttenteFileNs t)
    (T_TranchesOrdonnanceur t) (T_OctetsLusLogiques t) (T_OctetsEcritsLogiques t) (T_AppelsLecture t) (T_AppelsEcriture t) (T_OctetsLusBloc t)
    (T_OctetsEcritsBloc t) (T_OctetsEcritureAnnules t).
Definition avec_status (hwm rss fils vol sub : Z) (t : InstantaneTache) : InstantaneTache :=
  Tache (T_PID t) (T_TID t) (T_HorodatageNs t) (T_DebutTacheTicks t) (T_UtilisateurTicks t) (T_SystemeTicks t) (T_FautesMineures t) (T_FautesMajeures t) fils
    (T_CoeurDerniereExecution t) hwm rss vol sub (T_TempsExecutionNs t) (T_AttenteFileNs t)
    (T_TranchesOrdonnanceur t) (T_OctetsLusLogiques t) (T_OctetsEcritsLogiques t) (T_AppelsLecture t) (T_AppelsEcriture t) (T_OctetsLusBloc t)
    (T_OctetsEcritsBloc t) (T_OctetsEcritureAnnules t).
Definition avec_sched (execution attente tranches : Z) (t : InstantaneTache) : InstantaneTache :=
  Tache (T_PID t) (T_TID t) (T_HorodatageNs t) (T_DebutTacheTicks t) (T_UtilisateurTicks t) (T_SystemeTicks t) (T_FautesMineures t) (T_FautesMajeures t) (T_NombreFils t)
    (T_CoeurDerniereExecution t) (T_VmHWMKio t) (T_VmRSSKio t) (T_CommutationsVolontaires t) (T_CommutationsSubies t) execution attente
    tranches (T_OctetsLusLogiques t) (T_OctetsEcritsLogiques t) (T_AppelsLecture t) (T_AppelsEcriture t) (T_OctetsLusBloc t)
    (T_OctetsEcritsBloc t) (T_OctetsEcritureAnnules t).
Definition avec_io (rchar wchar syscr syscw lus ecrits annules : Z) (t : InstantaneTache) : InstantaneTache :=
  Tache (T_PID t) (T_TID t) (T_HorodatageNs t) (T_DebutTacheTicks t) (T_UtilisateurTicks t) (T_SystemeTicks t) (T_FautesMineures t) (T_FautesMajeures t) (T_NombreFils t)
    (T_CoeurDerniereExecution t) (T_VmHWMKio t) (T_VmRSSKio t) (T_CommutationsVolontaires t) (T_CommutationsSubies t) (T_TempsExecutionNs t) (T_AttenteFileNs t)
    (T_TranchesOrdonnanceur t) rchar wchar syscr syscw lus ecrits annules.
Definition tache_zero : InstantaneTache := Tache 0 0 0 0 0 0 0 0 0 0 0 0 0 0 0 0 0 0 0 0 0 0 0 0.

(** * /proc/[pid]/stat *)

Record champs_stat := Champs { c_minflt : Z; c_majflt : Z; c_utime : Z; c_stime : Z; c_fils : Z; c_debut : Z; c_coeur : Z; c_requis : Z }.

(** One word after the name: its index, then the fields. *)
Definition champ_stat (jeton : list Z) (s : Z * champs_stat) : run ((Z * champs_stat) + erreur_proc) :=
  let '(i, c) := s in
  let uint (f : Z -> champs_stat) := match parserUintDecimal jeton with Some v => Done (inl (i + 1, f v)) | None => Done (inr ErrFormatStatInvalide) end in
  let n := c_requis c + 1 in
  if i =? 7 then uint (fun v => Champs v (c_majflt c) (c_utime c) (c_stime c) (c_fils c) (c_debut c) (c_coeur c) n) else
  if i =? 9 then uint (fun v => Champs (c_minflt c) v (c_utime c) (c_stime c) (c_fils c) (c_debut c) (c_coeur c) n) else
  if i =? 11 then uint (fun v => Champs (c_minflt c) (c_majflt c) v (c_stime c) (c_fils c) (c_debut c) (c_coeur c) n) else
  if i =? 12 then uint (fun v => Champs (c_minflt c) (c_majflt c) (c_utime c) v (c_fils c) (c_debut c) (c_coeur c) n) else
  if i =? 17 then uint (fun v => Champs (c_minflt c) (c_majflt c) (c_utime c) (c_stime c) v (c_debut c) (c_coeur c) n) else
  if i =? 19 then uint (fun v => Champs (c_minflt c) (c_majflt c) (c_utime c) (c_stime c) (c_fils c) v (c_coeur c) n) else
  if i =? 36 then
    o ← parserIntDecimal jeton;
    match o with
    | Some v => Done (inl (i + 1, Champs (c_minflt c) (c_majflt c) (c_utime c) (c_stime c) (c_fils c) (c_debut c) v n))
    | None => Done (inr ErrFormatStatInvalide)
    end
  else Done (inl (i + 1, c)).

(** The last octet; the empty slice is refused before. *)
Definition fin_de_ligne (octets : list Z) : run bool := o ← idx octets (zlen octets - 1); Done (o =? 10).

Definition AnalyserStatProc (octets : list Z) (cible : InstantaneTache) : run (InstantaneTache * option erreur_proc) :=
  if zlen octets =? 0 then Done (cible, Some ErrFormatStatInvalide) else
  f ← fin_de_ligne octets;
  if negb f then Done (cible, Some ErrTamponProcSature) else
  let debutComm := IndexByte octets 40 in
  let finComm := LastIndexByte octets 41 in
  if (debutComm <=? 0) || (finComm <=? debutComm) || (zlen octets <=? finComm + 2) then Done (cible, Some ErrFormatStatInvalide) else
  p ← slice octets 0 (debutComm - 1);
  a ← idx octets (debutComm - 1);
  b ← idx octets (finComm + 1);
  match parserUintDecimal p with
  | None => Done (cible, Some ErrFormatStatInvalide)
  | Some pid64 =>
      if negb (a =? 32) || negb (b =? 32) then Done (cible, Some ErrFormatStatInvalide) else
      reste ← slice octets (finComm + 2) (zlen octets - 1);
      o ← par_mots reste champ_stat (0, Champs 0 0 0 0 0 0 (-1) 0);
      match o with
      | inr e => Done (cible, Some e)
      | inl (_, c) =>
          if c_requis c <? 7 then Done (cible, Some ErrFormatStatInvalide) else
          Done (avec_stat (i64 pid64) (c_minflt c) (c_majflt c) (c_utime c) (c_stime c) (u32 (c_fils c)) (c_debut c) (i32 (c_coeur c)) cible, None)
      end
  end.

(** * /proc/[pid]/schedstat *)

Definition AnalyserSchedstatProc (octets : list Z) (cible : InstantaneTache) : run (InstantaneTache * option erreur_proc) :=
  if zlen octets =? 0 then Done (cible, Some ErrFormatSchedstatInvalide) else
  f ← fin_de_ligne octets;
  if negb f then Done (cible, Some ErrTamponProcSature) else
  ligne ← slice octets 0 (zlen octets - 1);
  let esp1 := IndexByte ligne 32 in
  if esp1 <=? 0 then Done (cible, Some ErrFormatSchedstatInvalide) else
  reste ← slice ligne (esp1 + 1) (zlen ligne);
  let esp2 := IndexByte reste 32 in
  if (esp2 <=? 0) || (zlen reste <=? esp2 + 1) then Done (cible, Some ErrFormatSchedstatInvalide) else
  a ← slice ligne 0 esp1;
  b ← slice reste 0 esp2;
  c ← slice reste (esp2 + 1) (zlen reste);
  match parserUintDecimal a, parserUintDecimal b, parserUintDecimal c with
  | Some execNs, Some attenteNs, Some tranches => Done (avec_sched execNs attenteNs tranches cible, None)
  | _, _, _ => Done (cible, Some ErrFormatSchedstatInvalide)
  end.

(** * /proc/[pid]/status *)

(** The number after a key, if the line has the key. *)
Definition apres (cle ligne : list Z) : run (option Z) := r ← slice ligne (zlen cle) (zlen ligne); extrairePremierUintApresDeuxPoints r.

Definition ligne_status (ligne : list Z) (s : InstantaneTache * bool * bool) : run ((InstantaneTache * bool * bool) * option erreur_proc) :=
  let '(t, vol, sub) := s in
  let lire (cle : list Z) (f : Z -> InstantaneTache * bool * bool) :=
    o ← apres cle ligne; match o with Some v => Done (f v, None) | None => Done (s, Some ErrFormatStatusInvalide) end in
  if prefixe (octets "VmHWM:") ligne then
    lire (octets "VmHWM:") (fun v => (avec_status v (T_VmRSSKio t) (T_NombreFils t) (T_CommutationsVolontaires t) (T_CommutationsSubies t) t, vol, sub)) else
  if prefixe (octets "VmRSS:") ligne then
    lire (octets "VmRSS:") (fun v => (avec_status (T_VmHWMKio t) v (T_NombreFils t) (T_CommutationsVolontaires t) (T_CommutationsSubies t) t, vol, sub)) else
  if prefixe (octets "Threads:") ligne then
    lire (octets "Threads:") (fun v => (avec_status (T_VmHWMKio t) (T_VmRSSKio t) (u32 v) (T_CommutationsVolontaires t) (T_CommutationsSubies t) t, vol, sub)) else
  if prefixe (octets "voluntary_ctxt_switches:") ligne then
    lire (octets "voluntary_ctxt_switches:") (fun v => (avec_status (T_VmHWMKio t) (T_VmRSSKio t) (T_NombreFils t) v (T_CommutationsSubies t) t, true, sub)) else
  if prefixe (octets "nonvoluntary_ctxt_switches:") ligne then
    lire (octets "nonvoluntary_ctxt_switches:") (fun v => (avec_status (T_VmHWMKio t) (T_VmRSSKio t) (T_NombreFils t) (T_CommutationsVolontaires t) v t, vol, true)) else
  Done (s, None).

Definition AnalyserStatusProc (octets : list Z) (cible : InstantaneTache) : run (InstantaneTache * option erreur_proc) :=
  if zlen octets =? 0 then Done (cible, Some ErrFormatStatusInvalide) else
  f ← fin_de_ligne octets;
  if negb f then Done (cible, Some ErrTamponProcSature) else
  '((t, vol, sub), e) ← par_lignes ErrTamponProcSature octets ligne_status (cible, false, false);
  match e with
  | Some e => Done (t, Some e)
  | None => if negb vol || negb sub then Done (t, Some ErrFormatStatusInvalide) else Done (t, None)
  end.

(** * /proc/[pid]/io *)

Definition ligne_io (ligne : list Z) (s : InstantaneTache * Z) : run ((InstantaneTache * Z) * option erreur_proc) :=
  let '(t, m) := s in
  let lire (cle : list Z) (k : Z) (f : Z -> InstantaneTache) :=
    o ← apres cle ligne; match o with Some v => Done ((f v, Z.lor m (bit1 k)), None) | None => Done (s, Some ErrFormatIOInvalide) end in
  let io a b c d e f g := avec_io a b c d e f g t in
  let a := T_OctetsLusLogiques t in let b := T_OctetsEcritsLogiques t in let c := T_AppelsLecture t in let d := T_AppelsEcriture t in
  let e := T_OctetsLusBloc t in let f := T_OctetsEcritsBloc t in let g := T_OctetsEcritureAnnules t in
  if zlen ligne =? 0 then Done (s, None) else
  if prefixe (octets "rchar:") ligne then lire (octets "rchar:") 0 (fun v => io v b c d e f g) else
  if prefixe (octets "wchar:") ligne then lire (octets "wchar:") 1 (fun v => io a v c d e f g) else
  if prefixe (octets "syscr:") ligne then lire (octets "syscr:") 2 (fun v => io a b v d e f g) else
  if prefixe (octets "syscw:") ligne then lire (octets "syscw:") 3 (fun v => io a b c v e f g) else
  if prefixe (octets "read_bytes:") ligne then lire (octets "read_bytes:") 4 (fun v => io a b c d v f g) else
  if prefixe (octets "write_bytes:") ligne then lire (octets "write_bytes:") 5 (fun v => io a b c d e v g) else
  if prefixe (octets "cancelled_write_bytes:") ligne then lire (octets "cancelled_write_bytes:") 6 (fun v => io a b c d e f v) else
  Done (s, None).

Definition AnalyserIOProc (octets : list Z) (cible : InstantaneTache) : run (InstantaneTache * option erreur_proc) :=
  if zlen octets =? 0 then Done (cible, Some ErrFormatIOInvalide) else
  f ← fin_de_ligne octets;
  if negb f then Done (cible, Some ErrTamponProcSature) else
  '((t, m), e) ← par_lignes ErrTamponProcSature octets ligne_io (cible, 0);
  match e with
  | Some e => Done (t, Some e)
  | None => if negb (Z.land m 63 =? 63) then Done (t, Some ErrFormatIOInvalide) else Done (t, None)
  end.

(** * /proc/pressure *)

Definition mot_psi (jeton : list Z) (s : Z * Z * bool * bool) : run ((Z * Z * bool * bool) + unit) :=
  let '(total, avg, t, a) := s in
  if prefixe (octets "total=") jeton then
    r ← slice jeton (zlen (octets "total=")) (zlen jeton);
    match parserUintDecimal r with Some v => Done (inl (v, avg, true, a)) | None => Done (inr tt) end
  else if prefixe (octets "avg10=") jeton then
    r ← slice jeton (zlen (octets "avg10=")) (zlen jeton);
    o ← parserCentiemesFixes r;
    match o with Some v => Done (inl (total, v, t, true)) | None => Done (inr tt) end
  else Done (inl s).

Definition extraireChampsLignePSI (reste : list Z) : run (option (Z * Z)) :=
  o ← par_mots reste mot_psi (0, 0, false, false);
  Done (match o with inl (total, avg, true, true) => Some (total, avg) | _ => None end).

Definition ligne_psi (ligne : list Z) (s : Z * Z * Z * bool) : run ((Z * Z * Z * bool) * option erreur_proc) :=
  let '(some, full, avg, trouve) := s in
  if prefixe (octets "some ") ligne then
    r ← slice ligne (zlen (octets "some ")) (zlen ligne);
    o ← extraireChampsLignePSI r;
    match o with Some (total, a) => Done ((total, full, a, true), None) | None => Done (s, Some ErrFormatPSIInvalide) end
  else if prefixe (octets "full ") ligne then
    r ← slice ligne (zlen (octets "full ")) (zlen ligne);
    o ← extraireChampsLignePSI r;
    match o with Some (total, _) => Done ((some, total, avg, trouve), None) | None => Done (s, Some ErrFormatPSIInvalide) end
  else Done (s, None).

Definition AnalyserFichierPSI (octets : list Z) : run (Z * Z * Z + erreur_proc) :=
  if zlen octets =? 0 then Done (inr ErrFormatPSIInvalide) else
  f ← fin_de_ligne octets;
  if negb f then Done (inr ErrTamponProcSature) else
  '((some, full, avg, trouve), e) ← par_lignes ErrTamponProcSature octets ligne_psi (0, 0, 0, false);
  match e with
  | Some e => Done (inr e)
  | None => if negb trouve then Done (inr ErrFormatPSIInvalide) else Done (inl (some, full, avg))
  end.

(** * The lists of cores of /sys/devices *)

Section cpus.
Context `{U : Unicode}.

(** One core: its index appended, its bit set in the mask of 64. *)
Definition ajouter_cpu (s : list Z * Z) (cpu : Z) : list Z * Z :=
  (fst s ++ [cpu], if cpu <? 64 then Z.lor (snd s) (Z.shiftl 1 cpu) else snd s).

Definition segment_cpu (segment : list Z) (s : list Z * Z) : run (list Z * Z + erreur_proc) :=
  let segment := TrimSpace segment in
  if zlen segment =? 0 then Done (inr ErrListeCPUInvalide) else
  let tiret := IndexByte segment 45 in
  if 0 <=? tiret then
    a ← slice segment 0 tiret;
    b ← slice segment (tiret + 1) (zlen segment);
    match Atoi a, Atoi b with
    | Some debut, Some fin =>
        if (debut <? 0) || (fin <? debut) || (1024 <=? fin) then Done (inr ErrListeCPUInvalide)
        else Done (inl (fold_left ajouter_cpu (seqZ debut (fin + 1 - debut)) s))
    | _, _ => Done (inr ErrListeCPUInvalide)
    end
  else
    match Atoi segment with
    | Some cpu => if (cpu <? 0) || (1024 <=? cpu) then Done (inr ErrListeCPUInvalide) else Done (inl (ajouter_cpu s cpu))
    | None => Done (inr ErrListeCPUInvalide)
    end.

Definition AnalyserListeCPUs (texte : list Z) : run (list Z * Z + erreur_proc) :=
  let propre := TrimSpace texte in
  if zlen propre =? 0 then Done (inr ErrListeCPUInvalide) else
  plier segment_cpu (Split 44 propre) ([], 0).
End cpus.

(** * What the kernel writes *)

Lemma fin_de_ligne_ok l : fin_de_ligne (l ++ [10]) = Done true.
Proof. unfold fin_de_ligne. rewrite zlen_app. change (zlen [10]) with 1. rewrite idx_mid by lia. done. Qed.

Lemma fin_de_ligne_sinon l c : c <> 10 -> fin_de_ligne (l ++ [c]) = Done false.
Proof. intros Hc. unfold fin_de_ligne. rewrite zlen_app. change (zlen [c]) with 1. rewrite idx_mid by lia. cbn. by destruct (Z.eqb_spec c 10). Qed.

Lemma zlen_finie (l : list Z) c : (zlen (l ++ [c]) =? 0) = false.
Proof. rewrite zlen_app. change (zlen [c]) with 1. pose proof (zlen_nonneg l). by destruct (Z.eqb_spec (zlen l + 1) 0); [lia|]. Qed.

(** ** Words *)

(** A word of the kernel: no space, no closing parenthesis. *)
Definition mot_ok (w : list Z) : Prop := w <> [] /\ 32 ∉ w /\ 41 ∉ w.
Definition phrase (ws : list (list Z)) : list Z := concat ((fun w => 32 :: w) <$> ws).

Lemma forallb_sans c w : c ∉ w -> forallb (fun x => negb (x =? c)) w = true.
Proof.
  intros H. apply forallb_forall. intros x Hx. apply list_elem_of_In in Hx. destruct (Z.eqb_spec x c); [set_solver|done].
Qed.

Lemma mots_phrase ws : Forall mot_ok ws -> mots (phrase ws) = ws.
Proof.
  induction 1 as [|w ws (Hn & H32 & _) _ IH]; [done|]. change (phrase (w :: ws)) with ([32] ++ w ++ phrase ws).
  rewrite mots_blancs, mots_mot; [by rewrite IH|done|by apply forallb_sans| |done]. by destruct ws.
Qed.

Lemma phrase_sans c ws : c <> 32 -> Forall (fun w => c ∉ w) ws -> c ∉ phrase ws.
Proof. intros Hc. induction 1 as [|w ws Hw _ IH]; [by apply not_elem_of_nil|]. cbn. set_solver. Qed.

Lemma AppendUint_mot z : is_u64 z -> mot_ok (AppendUint z).
Proof. intros Hz. destruct (AppendUint_ok z Hz) as (H & _). split_and!; [done|by apply AppendUint_sans..]. Qed.

Lemma AppendInt_mot z : is_i64 z -> mot_ok (AppendInt z).
Proof.
  unfold is_i64, AppendInt. intros Hz. destruct (Z.ltb_spec z 0); [|apply AppendUint_mot; unfold is_u64; lia].
  destruct (AppendUint_mot (- z)) as (H1 & H2 & H3); [unfold is_u64; lia|]. split_and!; [done|set_solver..].
Qed.

(** ** stat *)

Lemma plier_app {X S E} (f : X -> S -> run (S + E)) a b s : plier f (a ++ b) s = (o ← plier f a s; match o with inl s => plier f b s | inr e => Done (inr e) end).
Proof.
  revert s. induction a as [|x a IH]; intros s; [done|]. cbn [app plier]. destruct (f x s) as [[s'|e]| |]; [|done..]. rewrite !run_bind_done. apply IH.
Qed.

Definition lu (i : Z) : bool := (i =? 7) || (i =? 9) || (i =? 11) || (i =? 12) || (i =? 17) || (i =? 19) || (i =? 36).

Lemma champ_saute j i c : lu i = false -> champ_stat j (i, c) = Done (inl (i + 1, c)).
Proof.
  unfold lu, champ_stat. intros H. repeat (apply orb_false_iff in H as [H ?]). by repeat match goal with E : (i =? _) = false |- _ => rewrite E; clear E end.
Qed.

Lemma champs_sautes g i c : (forall k, i <= k < i + zlen g -> lu k = false) -> plier champ_stat g (i, c) = Done (inl (i + zlen g, c)).
Proof.
  revert i. induction g as [|j g IH]; intros i H; cbn [plier].
  - change (zlen (@nil (list Z))) with 0. by rewrite Z.add_0_r.
  - rewrite zlen_cons in *. pose proof (zlen_nonneg g). rewrite champ_saute by (apply H; lia). rewrite run_bind_done, IH by (intros; apply H; lia).
    do 3 f_equal. lia.
Qed.

(** The values of a stat line and its other words. *)
Record stat := Stat {
  s_minflt : Z; s_majflt : Z; s_utime : Z; s_stime : Z; s_fils : Z; s_debut : Z; s_coeur : Z;
  g0 : list (list Z); g8 : list Z; g10 : list Z; g13 : list (list Z); g18 : list Z; g20 : list (list Z); g37 : list (list Z)
}.
Definition mots_stat (s : stat) : list (list Z) :=
  g0 s ++ [AppendUint (s_minflt s)] ++ [g8 s] ++ [AppendUint (s_majflt s)] ++ [g10 s] ++ [AppendUint (s_utime s)] ++ [AppendUint (s_stime s)] ++ g13 s ++
  [AppendUint (s_fils s)] ++ [g18 s] ++ [AppendUint (s_debut s)] ++ g20 s ++ [AppendInt (s_coeur s)] ++ g37 s.
Definition stat_ok (s : stat) : Prop :=
  is_u64 (s_minflt s) /\ is_u64 (s_majflt s) /\ is_u64 (s_utime s) /\ is_u64 (s_stime s) /\ is_u32 (s_fils s) /\ is_u64 (s_debut s) /\ - 2 ^ 31 <= s_coeur s < 2 ^ 31 /\
  zlen (g0 s) = 7 /\ zlen (g13 s) = 4 /\ zlen (g20 s) = 16 /\ Forall mot_ok (g0 s ++ g8 s :: g10 s :: g13 s ++ g18 s :: g20 s ++ g37 s).

(** The line, with the name the process has given itself. *)
Definition texte_stat (pid : Z) (nom : list Z) (s : stat) : list Z :=
  AppendUint pid ++ [32; 40] ++ nom ++ [41] ++ phrase (mots_stat s) ++ [10].

Lemma mots_stat_ok s : stat_ok s -> Forall mot_ok (mots_stat s).
Proof.
  intros (H1 & H2 & H3 & H4 & H5 & H6 & H7 & _ & _ & _ & Hm). unfold mots_stat. rewrite !Forall_app, !Forall_cons, !Forall_app, !Forall_cons, !Forall_app in *.
  unfold is_u32 in H5. destruct_and!. split_and!; try done; try (by apply Forall_nil); try (apply AppendUint_mot; (done || (unfold is_u64; lia))).
  apply AppendInt_mot. unfold is_i64. lia.
Qed.

Lemma plier_inl {X S E} (f : X -> S -> run (S + E)) x l s s' : f x s = Done (inl s') -> plier f (x :: l) s = plier f l s'.
Proof. intros H. cbn [plier]. by rewrite H. Qed.

Section champs.
Variables (v : Z) (c : champs_stat).
Hypothesis (Hv : is_u64 v).
Ltac lire_champ := unfold champ_stat; cbn [Z.eqb Pos.eqb]; by rewrite parserUintDecimal_AppendUint.
Lemma champ7 : champ_stat (AppendUint v) (7, c) = Done (inl (8, Champs v (c_majflt c) (c_utime c) (c_stime c) (c_fils c) (c_debut c) (c_coeur c) (c_requis c + 1))).
Proof using Hv. lire_champ. Qed.
Lemma champ9 : champ_stat (AppendUint v) (9, c) = Done (inl (10, Champs (c_minflt c) v (c_utime c) (c_stime c) (c_fils c) (c_debut c) (c_coeur c) (c_requis c + 1))).
Proof using Hv. lire_champ. Qed.
Lemma champ11 : champ_stat (AppendUint v) (11, c) = Done (inl (12, Champs (c_minflt c) (c_majflt c) v (c_stime c) (c_fils c) (c_debut c) (c_coeur c) (c_requis c + 1))).
Proof using Hv. lire_champ. Qed.
Lemma champ12 : champ_stat (AppendUint v) (12, c) = Done (inl (13, Champs (c_minflt c) (c_majflt c) (c_utime c) v (c_fils c) (c_debut c) (c_coeur c) (c_requis c + 1))).
Proof using Hv. lire_champ. Qed.
Lemma champ17 : champ_stat (AppendUint v) (17, c) = Done (inl (18, Champs (c_minflt c) (c_majflt c) (c_utime c) (c_stime c) v (c_debut c) (c_coeur c) (c_requis c + 1))).
Proof using Hv. lire_champ. Qed.
Lemma champ19 : champ_stat (AppendUint v) (19, c) = Done (inl (20, Champs (c_minflt c) (c_majflt c) (c_utime c) (c_stime c) (c_fils c) v (c_coeur c) (c_requis c + 1))).
Proof using Hv. lire_champ. Qed.
End champs.
Lemma champ36 v c : - 2 ^ 63 < v < 2 ^ 63 ->
  champ_stat (AppendInt v) (36, c) = Done (inl (37, Champs (c_minflt c) (c_majflt c) (c_utime c) (c_stime c) (c_fils c) (c_debut c) v (c_requis c + 1))).
Proof. intros Hv. unfold champ_stat. cbn [Z.eqb Pos.eqb]. by rewrite parserIntDecimal_AppendInt. Qed.

Lemma sautes g r i c : (forall k, i <= k < i + zlen g -> lu k = false) -> plier champ_stat (g ++ r) (i, c) = plier champ_stat r (i + zlen g, c).
Proof. intros H. by rewrite plier_app, champs_sautes. Qed.

Lemma lu_sinon i j k : i <= k < j -> Forall (fun c => c < i \/ j <= c) [7; 9; 11; 12; 17; 19; 36] -> lu k = false.
Proof.
  intros Hk H. rewrite !Forall_cons in H. unfold lu. repeat (apply orb_false_iff; split); apply Z.eqb_neq; lia.
Qed.

Ltac champ l := erewrite plier_inl by (by apply l); cbn [c_minflt c_majflt c_utime c_stime c_fils c_debut c_coeur c_requis].

Lemma plier_stat s : stat_ok s -> exists i, plier champ_stat (mots_stat s) (0, Champs 0 0 0 0 0 0 (-1) 0) =
  Done (inl (i, Champs (s_minflt s) (s_majflt s) (s_utime s) (s_stime s) (s_fils s) (s_debut s) (s_coeur s) 7)).
Proof.
  intros (H1 & H2 & H3 & H4 & H5 & H6 & H7 & L0 & L13 & L20 & _). unfold mots_stat. unfold is_u32 in H5.
  assert (is_u64 (s_fils s)) by (unfold is_u64; lia).
  rewrite sautes by (rewrite L0; intros k Hk; apply (lu_sinon 0 7); [lia|repeat constructor; lia]). rewrite L0. cbn [app].
  champ champ7. champ champ_saute. champ champ9. champ champ_saute. champ champ11. champ champ12.
  rewrite sautes by (rewrite L13; intros k Hk; apply (lu_sinon 13 17); [lia|repeat constructor; lia]). rewrite L13.
  champ champ17. champ champ_saute. champ champ19.
  rewrite sautes by (rewrite L20; intros k Hk; apply (lu_sinon 20 36); [lia|repeat constructor; lia]). rewrite L20.
  erewrite plier_inl by (apply champ36; lia). cbn [c_minflt c_majflt c_utime c_stime c_fils c_debut c_coeur c_requis].
  rewrite champs_sautes; [exists (37 + zlen (g37 s)); reflexivity|].
  intros k Hk. apply (lu_sinon 37 (37 + zlen (g37 s))); [done|repeat constructor; lia].
Qed.

(** Whatever the name of the process, the fields read are those of the kernel. *)
Lemma stat_ok_lu pid nom s t : is_u64 pid -> pid < 2 ^ 63 -> stat_ok s ->
  AnalyserStatProc (texte_stat pid nom s) t =
  Done (avec_stat pid (s_minflt s) (s_majflt s) (s_utime s) (s_stime s) (s_fils s) (s_debut s) (s_coeur s) t, None).
Proof.
  intros Hp Hp' Hs. pose proof (mots_stat_ok s Hs) as Hm. destruct (plier_stat s Hs) as [i Hi].
  destruct (AppendUint_ok pid Hp) as (Hn & _). apply zlen_pos in Hn.
  set (p := AppendUint pid) in *. set (ph := phrase (mots_stat s)).
  assert (E : texte_stat pid nom s = (p ++ [32; 40] ++ nom ++ [41] ++ ph) ++ [10]) by (unfold texte_stat; by rewrite <- !app_assoc).
  assert (E40 : texte_stat pid nom s = (p ++ [32]) ++ 40 :: nom ++ [41] ++ ph ++ [10]) by (unfold texte_stat; by rewrite <- !app_assoc).
  assert (E41 : texte_stat pid nom s = (p ++ [32; 40] ++ nom) ++ 41 :: ph ++ [10]) by (unfold texte_stat; by rewrite <- !app_assoc).
  assert (Eph : exists q, ph = 32 :: q).
  { unfold ph, phrase, mots_stat. destruct Hs as (_ & _ & _ & _ & _ & _ & _ & L0 & _). destruct (g0 s) as [|w g]; [done|]. by eexists. }
  destruct Eph as [q Eq].
  unfold AnalyserStatProc. rewrite E, zlen_finie, fin_de_ligne_ok, run_bind_done, <- E. cbn [negb].
  assert (I40 : IndexByte (texte_stat pid nom s) 40 = zlen p + 1).
  { rewrite E40, IndexByte_spec; [by rewrite zlen_app|]. apply not_elem_of_app. split; [by apply AppendUint_sans|set_solver]. }
  assert (I41 : LastIndexByte (texte_stat pid nom s) 41 = zlen p + 2 + zlen nom).
  { rewrite E41, LastIndexByte_spec; [rewrite !zlen_app; change (zlen [32; 40]) with 2; lia|]. apply not_elem_of_app. split; [|set_solver].
    apply phrase_sans; [done|]. eapply Forall_impl; [exact Hm|]. by intros w (_ & _ & H). }
  assert (El : zlen (texte_stat pid nom s) = zlen p + 2 + zlen nom + 1 + zlen ph + 1) by (rewrite E, !zlen_app; change (zlen [32; 40]) with 2; change (zlen [41]) with 1; change (zlen [10]) with 1; lia).
  assert (Hq : 1 <= zlen ph) by (rewrite Eq, zlen_cons; pose proof (zlen_nonneg q); lia).
  pose proof (zlen_nonneg nom). rewrite I40, I41, El.
  destruct (Z.leb_spec (zlen p + 1) 0), (Z.leb_spec (zlen p + 2 + zlen nom) (zlen p + 1)),
    (Z.leb_spec (zlen p + 2 + zlen nom + 1 + zlen ph + 1) (zlen p + 2 + zlen nom + 2)); try lia. cbn [orb].
  assert (S1 : slice (texte_stat pid nom s) 0 (zlen p + 1 - 1) = Done p).
  { rewrite E40, <- app_assoc. apply (slice_milieu [] p _ 0); [done|lia]. }
  assert (X1 : idx (texte_stat pid nom s) (zlen p + 1 - 1) = Done 32).
  { rewrite E40, <- app_assoc. apply (idx_mid p 32). lia. }
  assert (X2 : idx (texte_stat pid nom s) (zlen p + 2 + zlen nom + 1) = Done 32).
  { rewrite E41, Eq. replace ((p ++ [32; 40] ++ nom) ++ 41 :: (32 :: q) ++ [10]) with (((p ++ [32; 40] ++ nom) ++ [41]) ++ 32 :: q ++ [10]) by (by rewrite <- app_assoc).
    apply idx_mid. rewrite !zlen_app. change (zlen [32; 40]) with 2. change (zlen [41]) with 1. lia. }
  assert (S2 : slice (texte_stat pid nom s) (zlen p + 2 + zlen nom + 2) (zlen p + 2 + zlen nom + 1 + zlen ph + 1 - 1) = Done q).
  { rewrite E41, Eq. replace ((p ++ [32; 40] ++ nom) ++ 41 :: (32 :: q) ++ [10]) with (((p ++ [32; 40] ++ nom) ++ [41; 32]) ++ q ++ [10]) by (by rewrite <- app_assoc).
    apply slice_milieu; [rewrite !zlen_app; change (zlen [32; 40]) with 2; change (zlen [41; 32]) with 2; lia|]. rewrite ?Eq, ?zlen_cons. lia. }
  rewrite S1, X1, X2, !run_bind_done. unfold p at 1. rewrite parserUintDecimal_AppendUint by done. cbn [Z.eqb Pos.eqb negb orb].
  rewrite S2, run_bind_done, par_mots_ok.
  assert (mots q = mots_stat s) as ->.
  { rewrite <- (mots_phrase (mots_stat s)) by done. fold ph. rewrite Eq. symmetry. by apply (mots_blancs [32]). }
  rewrite Hi, run_bind_done. cbn [c_requis c_minflt c_majflt c_utime c_stime c_fils c_debut c_coeur Z.ltb Z.compare Pos.compare Pos.compare_cont].
  destruct Hs as (_ & _ & _ & _ & H5 & _ & H7 & _). unfold is_u64 in Hp. rewrite i64_id, u32_id by (done || (unfold is_i64; lia)).
  do 3 f_equal. unfold i32. rewrite Z.mod_small; lia.
Qed.

(** ** schedstat *)

Definition texte_sched (execution attente tranches : Z) : list Z :=
  AppendUint execution ++ [32] ++ AppendUint attente ++ [32] ++ AppendUint tranches ++ [10].

Lemma slice_debut {A} (a c : list A) j : j = zlen a -> slice (a ++ c) 0 j = Done a.
Proof. intros ->. apply (slice_milieu [] a c 0); [done|lia]. Qed.
Lemma slice_queue {A} (a b : list A) i j : i = zlen a -> j = zlen (a ++ b) -> slice (a ++ b) i j = Done b.
Proof. intros -> ->. rewrite <- (app_nil_r b) at 1. apply slice_milieu; [done|]. by rewrite zlen_app. Qed.

Lemma sched_ok_lu a b c t : is_u64 a -> is_u64 b -> is_u64 c -> AnalyserSchedstatProc (texte_sched a b c) t = Done (avec_sched a b c t, None).
Proof.
  intros Ha Hb Hc. destruct (AppendUint_ok a Ha) as (Na & _), (AppendUint_ok b Hb) as (Nb & _), (AppendUint_ok c Hc) as (Nc & _).
  apply zlen_pos in Na, Nb, Nc. set (A := AppendUint a) in *. set (B := AppendUint b) in *. set (C := AppendUint c) in *.
  assert (E : texte_sched a b c = (A ++ 32 :: B ++ 32 :: C) ++ [10]) by (unfold texte_sched; by rewrite <- !app_assoc; cbn; rewrite <- app_assoc).
  unfold AnalyserSchedstatProc. rewrite E, zlen_finie, fin_de_ligne_ok, run_bind_done. cbn [negb].
  rewrite slice_debut, run_bind_done by (rewrite zlen_app; change (zlen [10]) with 1; lia).
  set (reste := B ++ 32 :: C). set (ligne := A ++ 32 :: reste).
  assert (E1 : slice ligne (zlen A + 1) (zlen ligne) = Done reste).
  { unfold ligne. replace (A ++ 32 :: reste) with ((A ++ [32]) ++ reste) by (by rewrite <- app_assoc). apply slice_queue; [by rewrite zlen_app|done]. }
  assert (E2 : slice ligne 0 (zlen A) = Done A) by (by apply slice_debut).
  assert (E3 : slice reste 0 (zlen B) = Done B) by (by apply slice_debut).
  assert (E4 : slice reste (zlen B + 1) (zlen reste) = Done C).
  { unfold reste. replace (B ++ 32 :: C) with ((B ++ [32]) ++ C) by (by rewrite <- app_assoc). apply slice_queue; [by rewrite zlen_app|done]. }
  assert (I1 : IndexByte ligne 32 = zlen A) by (apply IndexByte_spec; by apply AppendUint_sans).
  assert (I2 : IndexByte reste 32 = zlen B) by (apply IndexByte_spec; by apply AppendUint_sans).
  assert (L : zlen reste = zlen B + (1 + zlen C)) by (unfold reste; by rewrite zlen_app, zlen_cons).
  rewrite I1, E1, run_bind_done, I2, L, E2, E3. rewrite L in E4. rewrite E4, !run_bind_done.
  destruct (Z.leb_spec (zlen A) 0), (Z.leb_spec (zlen B) 0), (Z.leb_spec (zlen B + (1 + zlen C)) (zlen B + 1)); try lia. cbn [orb].
  unfold A, B, C. by rewrite !parserUintDecimal_AppendUint.
Qed.

(** ** Lines with a key and a number *)

Inductive ligne (K : Type) := Champ (k : K) (blanc : list Z) (v : Z) (suite : list Z) | Autre (texte : list Z).
Arguments Champ {K} _ _ _ _.
Arguments Autre {K} _.

Section lignes.
Context {K : Type} (cle : K -> list Z).
Definition texte_ligne (l : ligne K) : list Z :=
  match l with Champ k b v s => cle k ++ b ++ AppendUint v ++ s | Autre t => t end.
Definition ligne_ok (l : ligne K) : Prop :=
  match l with
  | Champ k b v s => blancs b = true /\ is_u64 v /\ 10 ∉ s /\ match s with [] => true | c :: _ => negb (chiffre c) end = true
  | Autre t => 10 ∉ t /\ forall k, prefixe (cle k) t = false
  end.

Lemma texte_ligne_sans l : (forall k, 10 ∉ cle k) -> ligne_ok l -> 10 ∉ texte_ligne l.
Proof.
  intros Hk. destruct l as [k b v s|t]; cbn; [intros (Hb & Hv & Hs & _)|by intros [? _]].
  rewrite !not_elem_of_app. split_and!; [done| |by apply AppendUint_sans|done].
  intros Hin. unfold blancs in Hb. rewrite forallb_forall in Hb. apply list_elem_of_In in Hin. by specialize (Hb _ Hin).
Qed.

Lemma apres_ok k b v s : ligne_ok (Champ k b v s) -> apres (cle k) (texte_ligne (Champ k b v s)) = Done (Some v).
Proof.
  intros (Hb & Hv & _ & Hs). unfold apres. cbn [texte_ligne]. rewrite slice_queue, run_bind_done by done. by apply extraire_ok.
Qed.
End lignes.

Lemma prefixe_app m l : prefixe m (m ++ l) = true.
Proof. apply prefixe_spec. by exists l. Qed.

Lemma plier_lignes_ok {K S E} (cle : K -> list Z) (corps : list Z -> S -> run (S * option E)) (effet : ligne K -> S -> S) ls s :
  (forall l s, ligne_ok cle l -> corps (texte_ligne cle l) s = Done (effet l s, None)) -> Forall (ligne_ok cle) ls ->
  plier_lignes corps (texte_ligne cle <$> ls) s = Done (fold_left (fun s l => effet l s) ls s, None).
Proof.
  intros H Hl. revert s. induction Hl as [|l ls Hl _ IH]; intros s; [done|]. cbn [fmap list_fmap plier_lignes fold_left].
  rewrite H, run_bind_done by done. apply IH.
Qed.

(** A non-empty sequence of lines: the two tests at the head of the readers. *)
Lemma lignes_finie ls : ls <> [] -> exists l, lignes ls = l ++ [10].
Proof.
  intros Hn. destruct (exists_last Hn) as (k & x & ->). unfold lignes. rewrite fmap_app, concat_app. cbn. rewrite app_nil_r.
  eexists. by rewrite app_assoc.
Qed.

(** ** status *)

Inductive cle_status := VmHWM | VmRSS | Threads | Volontaires | Subies.
Definition texte_status (k : cle_status) : list Z :=
  octets match k with
         | VmHWM => "VmHWM:" | VmRSS => "VmRSS:" | Threads => "Threads:" | Volontaires => "voluntary_ctxt_switches:" | Subies => "nonvoluntary_ctxt_switches:"
         end.
Definition effet_status (l : ligne cle_status) (s : InstantaneTache * bool * bool) : InstantaneTache * bool * bool :=
  let '(t, vol, sub) := s in
  match l with
  | Champ VmHWM _ v _ => (avec_status v (T_VmRSSKio t) (T_NombreFils t) (T_CommutationsVolontaires t) (T_CommutationsSubies t) t, vol, sub)
  | Champ VmRSS _ v _ => (avec_status (T_VmHWMKio t) v (T_NombreFils t) (T_CommutationsVolontaires t) (T_CommutationsSubies t) t, vol, sub)
  | Champ Threads _ v _ => (avec_status (T_VmHWMKio t) (T_VmRSSKio t) (u32 v) (T_CommutationsVolontaires t) (T_CommutationsSubies t) t, vol, sub)
  | Champ Volontaires _ v _ => (avec_status (T_VmHWMKio t) (T_VmRSSKio t) (T_NombreFils t) v (T_CommutationsSubies t) t, true, sub)
  | Champ Subies _ v _ => (avec_status (T_VmHWMKio t) (T_VmRSSKio t) (T_NombreFils t) (T_CommutationsVolontaires t) v t, vol, true)
  | Autre _ => s
  end.

Lemma ligne_status_ok l s : ligne_ok texte_status l -> ligne_status (texte_ligne texte_status l) s = Done (effet_status l s, None).
Proof.
  destruct s as [[t vol] sub]. destruct l as [k b v u|x]; intros Hl.
  - pose proof (apres_ok texte_status k b v u Hl) as Ha. unfold ligne_status, effet_status.
    destruct k; unfold texte_status in *; cbn [texte_ligne] in *;
      repeat (match goal with |- context [if prefixe ?a ?b then _ else _] =>
        first [replace (prefixe a b) with false by reflexivity | replace (prefixe a b) with true by (symmetry; apply prefixe_app)] end; cbv iota); by rewrite Ha.
  - destruct Hl as [_ Hp]. unfold ligne_status, effet_status. cbn [texte_ligne].
    pose proof (Hp VmHWM) as P1. pose proof (Hp VmRSS) as P2. pose proof (Hp Threads) as P3. pose proof (Hp Volontaires) as P4. pose proof (Hp Subies) as P5.
    unfold texte_status in *. by rewrite P1, P2, P3, P4, P5.
Qed.

Lemma texte_status_sans k : 10 ∉ texte_status k.
Proof. apply (bool_decide_eq_false (10 ∈ texte_status k)). by destruct k. Qed.

(** The lines of [/proc/[pid]/status], in any order, among any others. *)
Lemma status_ok_lu ls t : ls <> [] -> Forall (ligne_ok texte_status) ls ->
  AnalyserStatusProc (lignes (texte_ligne texte_status <$> ls)) t =
  let '(t, vol, sub) := fold_left (fun s l => effet_status l s) ls (t, false, false) in
  Done (t, if vol && sub then None else Some ErrFormatStatusInvalide).
Proof.
  intros Hn Hl. destruct (lignes_finie (texte_ligne texte_status <$> ls)) as [q Eq]; [by destruct ls|].
  unfold AnalyserStatusProc. rewrite Eq, zlen_finie, fin_de_ligne_ok, run_bind_done, <- Eq. cbn [negb].
  rewrite par_lignes_ok by (apply Forall_fmap; eapply Forall_impl; [exact Hl|]; intros l Hk; by apply texte_ligne_sans; [apply texte_status_sans|]).
  rewrite (plier_lignes_ok texte_status _ effet_status) by (done || apply ligne_status_ok). rewrite run_bind_done.
  destruct (fold_left _ ls _) as [[t' vol] sub]. by destruct vol, sub.
Qed.

(** ** io *)

Inductive cle_io := Rchar | Wchar | Syscr | Syscw | Lus | Ecrits | Annules.
Definition texte_io (k : cle_io) : list Z :=
  octets match k with
         | Rchar => "rchar:" | Wchar => "wchar:" | Syscr => "syscr:" | Syscw => "syscw:" | Lus => "read_bytes:" | Ecrits => "write_bytes:"
         | Annules => "cancelled_write_bytes:"
         end.
Definition rang_io (k : cle_io) : Z := match k with Rchar => 0 | Wchar => 1 | Syscr => 2 | Syscw => 3 | Lus => 4 | Ecrits => 5 | Annules => 6 end.
Definition poser_io (k : cle_io) (v : Z) (t : InstantaneTache) : InstantaneTache :=
  let a := T_OctetsLusLogiques t in let b := T_OctetsEcritsLogiques t in let c := T_AppelsLecture t in let d := T_AppelsEcriture t in
  let e := T_OctetsLusBloc t in let f := T_OctetsEcritsBloc t in let g := T_OctetsEcritureAnnules t in
  match k with
  | Rchar => avec_io v b c d e f g t | Wchar => avec_io a v c d e f g t | Syscr => avec_io a b v d e f g t | Syscw => avec_io a b c v e f g t
  | Lus => avec_io a b c d v f g t | Ecrits => avec_io a b c d e v g t | Annules => avec_io a b c d e f v t
  end.
Definition effet_io (l : ligne cle_io) (s : InstantaneTache * Z) : InstantaneTache * Z :=
  match l with Champ k _ v _ => (poser_io k v (fst s), Z.lor (snd s) (bit1 (rang_io k))) | Autre _ => s end.

Lemma ligne_io_ok l s : ligne_ok texte_io l -> ligne_io (texte_ligne texte_io l) s = Done (effet_io l s, None).
Proof.
  destruct s as [t m]. destruct l as [k b v u|x]; intros Hl.
  - pose proof (apres_ok texte_io k b v u Hl) as Ha. unfold ligne_io, effet_io.
    assert (Hz : (zlen (texte_ligne texte_io (Champ k b v u)) =? 0) = false).
    { apply Z.eqb_neq. cbn [texte_ligne]. rewrite zlen_app. pose proof (zlen_nonneg (b ++ AppendUint v ++ u)). assert (0 < zlen (texte_io k)) by (by destruct k). lia. }
    rewrite Hz. destruct k; unfold texte_io in *; cbn [texte_ligne] in *;
      repeat (match goal with |- context [if prefixe ?a ?b then _ else _] =>
        first [replace (prefixe a b) with false by reflexivity | replace (prefixe a b) with true by (symmetry; apply prefixe_app)] end; cbv iota); by rewrite Ha.
  - destruct Hl as [_ Hp]. unfold ligne_io, effet_io. cbn [texte_ligne].
    pose proof (Hp Rchar) as P1. pose proof (Hp Wchar) as P2. pose proof (Hp Syscr) as P3. pose proof (Hp Syscw) as P4. pose proof (Hp Lus) as P5.
    pose proof (Hp Ecrits) as P6. pose proof (Hp Annules) as P7. unfold texte_io in *. rewrite P1, P2, P3, P4, P5, P6, P7. by destruct (zlen x =? 0).
Qed.

Lemma texte_io_sans k : 10 ∉ texte_io k.
Proof. apply (bool_decide_eq_false (10 ∈ texte_io k)). by destruct k. Qed.

Lemma io_ok_lu ls t : ls <> [] -> Forall (ligne_ok texte_io) ls ->
  AnalyserIOProc (lignes (texte_ligne texte_io <$> ls)) t =
  let '(t, m) := fold_left (fun s l => effet_io l s) ls (t, 0) in
  Done (t, if Z.land m 63 =? 63 then None else Some ErrFormatIOInvalide).
Proof.
  intros Hn Hl. destruct (lignes_finie (texte_ligne texte_io <$> ls)) as [q Eq]; [by destruct ls|].
  unfold AnalyserIOProc. rewrite Eq, zlen_finie, fin_de_ligne_ok, run_bind_done, <- Eq. cbn [negb].
  rewrite par_lignes_ok by (apply Forall_fmap; eapply Forall_impl; [exact Hl|]; intros l Hk; by apply texte_ligne_sans; [apply texte_io_sans|]).
  rewrite (plier_lignes_ok texte_io _ effet_io) by (done || apply ligne_io_ok). rewrite run_bind_done.
  destruct (fold_left _ ls _) as [t' m]. by destruct (Z.land m 63 =? 63).
Qed.

(** An octet absent from a literal. *)
Ltac absent := lazymatch goal with |- ~ ?P => exact (bool_decide_eq_false_1 P eq_refl) | |- ?P -> False => exact (bool_decide_eq_false_1 P eq_refl) end.

(** ** pressure *)

(** One line: the average over ten seconds, other words, the total. *)
Definition texte_psi (tete : string) (avg10 : Z) (autres : list (list Z)) (total : Z) : list Z :=
  octets tete ++ (octets "avg10=" ++ centiemes avg10) ++ phrase (autres ++ [octets "total=" ++ AppendUint total]).
Definition autre_psi (w : list Z) : Prop := mot_ok w /\ 10 ∉ w /\ prefixe (octets "total=") w = false /\ prefixe (octets "avg10=") w = false.

Lemma mot_app a b : 32 ∉ a -> 41 ∉ a -> mot_ok b -> mot_ok (a ++ b).
Proof. intros H1 H2 (H3 & H4 & H5). split_and!; [by destruct a|set_solver..]. Qed.

Lemma mot_psi_total v total avg t a : is_u64 v -> mot_psi (octets "total=" ++ AppendUint v) (total, avg, t, a) = Done (inl (v, avg, true, a)).
Proof.
  intros Hv. unfold mot_psi. rewrite prefixe_app, slice_queue, run_bind_done by done. by rewrite parserUintDecimal_AppendUint.
Qed.

Lemma mot_psi_avg v total avg t a : 0 <= v <= 100099 -> mot_psi (octets "avg10=" ++ centiemes v) (total, avg, t, a) = Done (inl (total, v, t, true)).
Proof.
  intros Hv. unfold mot_psi. replace (prefixe (octets "total=") (octets "avg10=" ++ centiemes v)) with false by reflexivity.
  rewrite prefixe_app, slice_queue, run_bind_done by done. by rewrite parserCentiemesFixes_ok.
Qed.

Lemma mot_psi_autre w s : autre_psi w -> mot_psi w s = Done (inl s).
Proof. intros (_ & _ & H1 & H2). destruct s as [[[total avg] t] a]. unfold mot_psi. by rewrite H1, H2. Qed.

Lemma mots_psi_autres ws s : Forall autre_psi ws -> plier mot_psi ws s = Done (inl s).
Proof.
  induction 1 as [|w ws Hw _ IH]; [done|]. cbn [plier]. by rewrite mot_psi_autre, run_bind_done.
Qed.

Lemma centiemes_mot v : 0 <= v <= 100099 -> mot_ok (centiemes v) /\ 10 ∉ centiemes v.
Proof.
  intros Hv. unfold centiemes. assert (0 <= v mod 100 / 10 < 10 /\ 0 <= v mod 10 < 10 /\ is_u64 (v / 100)) as (Ha & Hb & Hu) by (unfold is_u64; divlia).
  destruct (AppendUint_mot _ Hu) as (H1 & H2 & H3). assert (10 ∉ AppendUint (v / 100)) by (by apply AppendUint_sans).
  assert (forall c, c = 32 \/ c = 41 \/ c = 10 -> c ∉ [46; 48 + v mod 100 / 10; 48 + v mod 10]) as Hc.
  { intros c Hc. rewrite !not_elem_of_cons. split_and!; [lia..|apply not_elem_of_nil]. }
  unfold mot_ok. rewrite !not_elem_of_app. split_and!; try done; [by destruct (AppendUint (v / 100))|apply Hc; lia..].
Qed.

Lemma extraire_psi avg autres total : 0 <= avg <= 100099 -> Forall autre_psi autres -> is_u64 total ->
  extraireChampsLignePSI ((octets "avg10=" ++ centiemes avg) ++ phrase (autres ++ [octets "total=" ++ AppendUint total])) = Done (Some (total, avg)).
Proof.
  intros Ha Hw Ht. unfold extraireChampsLignePSI. rewrite par_mots_ok. destruct (centiemes_mot avg Ha) as [Hc _].
  destruct (mot_app (octets "avg10=") (centiemes avg)) as (Hn & H32 & _); [absent|absent|done|].
  rewrite mots_mot by (done || (by apply forallb_sans) || (by destruct autres)). rewrite mots_phrase.
  - cbn [plier]. rewrite mot_psi_avg, run_bind_done by done. rewrite plier_app, mots_psi_autres, run_bind_done by done.
    cbn [plier]. by rewrite mot_psi_total, run_bind_done.
  - apply Forall_app. split; [eapply Forall_impl; [exact Hw|]; by intros w [? _]|]. constructor; [|done].
    apply mot_app; [absent|absent|by apply AppendUint_mot].
Qed.

Lemma ligne_psi_some avg autres total s f a b : 0 <= avg <= 100099 -> Forall autre_psi autres -> is_u64 total ->
  ligne_psi (texte_psi "some " avg autres total) (s, f, a, b) = Done ((total, f, avg, true), None).
Proof.
  intros. unfold ligne_psi, texte_psi. rewrite prefixe_app, slice_queue, run_bind_done by done. by rewrite extraire_psi.
Qed.

Lemma ligne_psi_full avg autres total s f a b : 0 <= avg <= 100099 -> Forall autre_psi autres -> is_u64 total ->
  ligne_psi (texte_psi "full " avg autres total) (s, f, a, b) = Done ((s, total, a, b), None).
Proof.
  intros. unfold ligne_psi, texte_psi. replace (prefixe (octets "some ") _) with false by reflexivity.
  rewrite prefixe_app, slice_queue, run_bind_done by done. by rewrite extraire_psi.
Qed.

Lemma texte_psi_sans tete avg autres total : 10 ∉ octets tete -> 0 <= avg <= 100099 -> Forall autre_psi autres -> is_u64 total -> 10 ∉ texte_psi tete avg autres total.
Proof.
  intros Hh Ha Hw Ht. destruct (centiemes_mot avg Ha) as [_ Hc]. unfold texte_psi. rewrite !not_elem_of_app. split_and!; [done|absent|done|].
  apply phrase_sans; [done|]. apply Forall_app. split; [eapply Forall_impl; [exact Hw|]; by intros w (_ & ? & _)|]. constructor; [|done].
  rewrite not_elem_of_app. split; [absent|by apply AppendUint_sans].
Qed.

(** A pressure file: the line some, then the line full of recent kernels. *)
Lemma psi_ok_lu a1 w1 t1 full : 0 <= a1 <= 100099 -> Forall autre_psi w1 -> is_u64 t1 ->
  match full with Some (a2, w2, t2) => 0 <= a2 <= 100099 /\ Forall autre_psi w2 /\ is_u64 t2 | None => True end ->
  AnalyserFichierPSI (lignes (texte_psi "some " a1 w1 t1 :: match full with Some (a2, w2, t2) => [texte_psi "full " a2 w2 t2] | None => [] end)) =
  Done (inl (t1, match full with Some (_, _, t2) => t2 | None => 0 end, a1)).
Proof.
  intros H1 H2 H3 Hf. set (ls := _ :: _). assert (Hs : Forall (fun x => 10 ∉ x) ls).
  { constructor; [apply texte_psi_sans; try done; absent|]. destruct full as [[[a2 w2] t2]|]; [|done].
    constructor; [|done]. destruct Hf as (? & ? & ?). apply texte_psi_sans; try done; absent. }
  destruct (lignes_finie ls) as [q Eq]; [done|].
  unfold AnalyserFichierPSI. rewrite Eq, zlen_finie, fin_de_ligne_ok, run_bind_done, <- Eq. cbn [negb]. rewrite par_lignes_ok by done.
  unfold ls. cbn [plier_lignes]. rewrite ligne_psi_some, run_bind_done by done. destruct full as [[[a2 w2] t2]|]; [|done].
  destruct Hf as (? & ? & ?). cbn [plier_lignes]. by rewrite ligne_psi_full, !run_bind_done.
Qed.

(** ** lists of cores *)

Lemma Atoi_AppendUint z : 0 <= z < 2 ^ 63 -> Atoi (AppendUint z) = Some z.
Proof.
  intros Hz. assert (Hu : is_u64 z) by (unfold is_u64; lia). destruct (AppendUint_ok z Hu) as (Hn & Hc & Hv).
  unfold Atoi. assert (Hp := zlen_pos _ Hn).
  assert (match AppendUint z with 45 :: r => (true, r) | 43 :: r => (false, r) | _ => (false, AppendUint z) end = (false, AppendUint z)) as ->.
  { destruct (AppendUint z) as [|c l] eqn:E; [done|]. cbn in Hc. unfold chiffre in Hc at 1. zbool.
    destruct (Z.eq_dec c 45); [lia|]. destruct (Z.eq_dec c 43); [lia|]. destruct c as [|p|p]; [lia| |lia]. by repeat (destruct p as [p|p|]; try done). }
  rewrite Hc, Hv. destruct (Z.ltb_spec 0 (zlen (AppendUint z))), (Z.leb_spec (- 2 ^ 63) z), (Z.ltb_spec z (2 ^ 63)); try lia; done.
Qed.

Definition joindre (c : Z) (ls : list (list Z)) : list Z := match ls with [] => [] | x :: r => x ++ concat ((fun y => c :: y) <$> r) end.

Lemma Split_non_vide c l : Split c l <> [].
Proof. induction l as [|o l IH]; [done|]. cbn. destruct (Split c l); [done|]. by destruct (o =? c). Qed.

Lemma Split_mot c x : c ∉ x -> Split c x = [x].
Proof.
  induction x as [|o x IH]; intros H; [done|]. cbn. rewrite IH by set_solver. by rewrite (proj2 (Z.eqb_neq o c)) by set_solver.
Qed.

Lemma Split_tete c x r : c ∉ x -> Split c (x ++ c :: r) = x :: Split c r.
Proof.
  induction x as [|o x IH]; intros H; cbn [app Split].
  - destruct (Split c r) eqn:E; [by destruct (Split_non_vide c r)|]. by rewrite Z.eqb_refl.
  - rewrite IH by set_solver. by rewrite (proj2 (Z.eqb_neq o c)) by set_solver.
Qed.

Lemma Split_joindre c ls : ls <> [] -> Forall (fun x => c ∉ x) ls -> Split c (joindre c ls) = ls.
Proof.
  destruct ls as [|x ls]; [done|]. intros _ [Hx Hl]%Forall_cons. cbn [joindre]. revert x Hx.
  induction Hl as [|y ls Hy _ IH]; intros x Hx; cbn; [rewrite app_nil_r; by apply Split_mot|]. rewrite Split_tete by done. f_equal. by apply IH.
Qed.

Section cpus_ok.
Context `{U : Unicode}.

Definition chiffre_ou_signe (c : Z) : bool := chiffre c || (c =? 44) || (c =? 45).

Lemma rogner_sans s : Forall (fun c => espace c = false) s -> rogner_gauche s = s.
Proof. by destruct 1 as [|c s Hc _]; [|cbn; rewrite Hc]. Qed.

Lemma TrimSpace_sans s : forallb chiffre_ou_signe s = true -> TrimSpace s = s /\ TrimSpace (s ++ [10]) = s.
Proof.
  intros H. assert (H' : Forall (fun c => chiffre_ou_signe c = true) s) by (apply Forall_forall; intros c Hc; rewrite forallb_forall in H; apply H; by apply list_elem_of_In).
  assert (He : Forall (fun c => espace c = false) s).
  { eapply Forall_impl; [exact H'|]. intros c Hc. unfold chiffre_ou_signe, chiffre, espace in *. lia. }
  assert (Ha : ascii s = true).
  { apply forallb_forall. intros c Hc. rewrite forallb_forall in H. specialize (H c Hc). unfold chiffre_ou_signe, chiffre in H. lia. }
  assert (Hr : rogner_gauche (rev s) = rev s).
  { apply rogner_sans, Forall_forall. intros c Hc. rewrite Forall_forall in He. apply He. by apply list_elem_of_In, in_rev, list_elem_of_In. }
  unfold TrimSpace. assert (ascii (s ++ [10]) = true) as -> by (unfold ascii in *; by rewrite forallb_app, Ha). rewrite Ha. split.
  - rewrite (rogner_sans s) by done. by rewrite Hr, rev_involutive.
  - destruct s as [|c s]; [done|].
    assert (rogner_gauche ((c :: s) ++ [10]) = (c :: s) ++ [10]) as -> by (apply Forall_cons in He as [He _]; cbn; by rewrite He).
    rewrite rev_app_distr. cbn [rev app rogner_gauche]. change (espace 10) with true. cbv iota. change (rev s ++ [c]) with (rev (c :: s)). by rewrite Hr, rev_involutive.
Qed.

(** Ranges of cores, in the notation of the kernel. *)
Definition texte_plage (p : Z * Z) : list Z := if fst p =? snd p then AppendUint (fst p) else AppendUint (fst p) ++ 45 :: AppendUint (snd p).
Definition texte_cpus (ps : list (Z * Z)) : list Z := joindre 44 (texte_plage <$> ps) ++ [10].
Definition plage_ok (p : Z * Z) : Prop := 0 <= fst p <= snd p /\ snd p < 1024.
Definition coeurs (ps : list (Z * Z)) : list Z := concat ((fun p => seqZ (fst p) (snd p + 1 - fst p)) <$> ps).

Lemma texte_plage_ok p : plage_ok p -> texte_plage p <> [] /\ forallb chiffre_ou_signe (texte_plage p) = true /\ 44 ∉ texte_plage p.
Proof.
  intros [H1 H2]. assert (Ha : is_u64 (fst p)) by (unfold is_u64; lia). assert (Hb : is_u64 (snd p)) by (unfold is_u64; lia).
  assert (Hc : forall z, is_u64 z -> forallb chiffre_ou_signe (AppendUint z) = true).
  { intros z Hz. destruct (AppendUint_ok z Hz) as (_ & Hc & _). apply forallb_forall. intros c Hin. rewrite forallb_forall in Hc. unfold chiffre_ou_signe. by rewrite Hc. }
  destruct (AppendUint_ok _ Ha) as (Hn & _). unfold texte_plage. destruct (fst p =? snd p).
  - split_and!; [done|by apply Hc|by apply AppendUint_sans].
  - split_and!; [by destruct (AppendUint (fst p))|rewrite forallb_app; cbn [forallb]; by rewrite !Hc|]. rewrite not_elem_of_app, not_elem_of_cons. split_and!; [by apply AppendUint_sans|done|by apply AppendUint_sans].
Qed.

Lemma segment_cpu_ok p s : plage_ok p -> segment_cpu (texte_plage p) s = Done (inl (fold_left ajouter_cpu (seqZ (fst p) (snd p + 1 - fst p)) s)).
Proof.
  intros Hp. destruct (texte_plage_ok p Hp) as (Hn & Hc & _). destruct Hp as [H1 H2].
  assert (Ha : is_u64 (fst p)) by (unfold is_u64; lia). assert (Hb : is_u64 (snd p)) by (unfold is_u64; lia).
  unfold segment_cpu. rewrite (proj1 (TrimSpace_sans _ Hc)). apply zlen_pos in Hn. destruct (Z.eqb_spec (zlen (texte_plage p)) 0); [lia|].
  unfold texte_plage. destruct (Z.eqb_spec (fst p) (snd p)) as [E|E].
  - rewrite IndexByte_absent by (by apply AppendUint_sans). cbn [Z.leb Z.compare]. rewrite Atoi_AppendUint by lia.
    destruct (Z.ltb_spec (fst p) 0), (Z.leb_spec 1024 (fst p)); try lia. cbn [orb]. rewrite <- E. by replace (fst p + 1 - fst p) with 1 by lia.
  - rewrite IndexByte_spec by (by apply AppendUint_sans). pose proof (zlen_nonneg (AppendUint (fst p))). destruct (Z.leb_spec 0 (zlen (AppendUint (fst p)))); [|lia].
    rewrite slice_debut, run_bind_done by done.
    replace (AppendUint (fst p) ++ 45 :: AppendUint (snd p)) with ((AppendUint (fst p) ++ [45]) ++ AppendUint (snd p)) by (by rewrite <- app_assoc).
    rewrite slice_queue, run_bind_done by (rewrite ?zlen_app; done). rewrite !Atoi_AppendUint by lia.
    destruct (Z.ltb_spec (fst p) 0), (Z.ltb_spec (snd p) (fst p)), (Z.leb_spec 1024 (snd p)); try lia. done.
Qed.

Lemma segments_ok ps s : Forall plage_ok ps -> plier segment_cpu (texte_plage <$> ps) s = Done (inl (fold_left ajouter_cpu (coeurs ps) s)).
Proof.
  intros H. revert s. induction H as [|p ps Hp _ IH]; intros s; [done|]. cbn [fmap list_fmap plier]. rewrite segment_cpu_ok, run_bind_done by done.
  unfold coeurs. cbn [fmap list_fmap concat]. rewrite fold_left_app. apply IH.
Qed.

Lemma fst_ajouter l s : fst (fold_left ajouter_cpu l s) = fst s ++ l.
Proof. revert s. induction l as [|c l IH]; intros s; cbn [fold_left]; [by rewrite app_nil_r|]. rewrite IH. cbn. by rewrite <- app_assoc. Qed.

(** A list of the kernel is read back as the cores it names. *)
Lemma cpus_ok_lu ps : ps <> [] -> Forall plage_ok ps -> exists m, AnalyserListeCPUs (texte_cpus ps) = Done (inl (coeurs ps, m)).
Proof.
  intros Hn Hp. assert (Hf : Forall (fun x => x <> [] /\ forallb chiffre_ou_signe x = true /\ 44 ∉ x) (texte_plage <$> ps)).
  { apply Forall_fmap. eapply Forall_impl; [exact Hp|]. by apply texte_plage_ok. }
  set (ls := texte_plage <$> ps) in *. assert (ls <> []) by (unfold ls; by destruct ps).
  assert (Hc : forallb chiffre_ou_signe (joindre 44 ls) = true).
  { clear -Hf. destruct Hf as [|x ls (_ & Hx & _) Hl]; [done|]. cbn. rewrite forallb_app, Hx. cbn [andb].
    induction Hl as [|y ls (_ & Hy & _) _ IH]; [done|]. cbn. by rewrite forallb_app, Hy, IH. }
  unfold AnalyserListeCPUs, texte_cpus. fold ls. rewrite (proj2 (TrimSpace_sans _ Hc)).
  assert (joindre 44 ls <> []) as Hj%zlen_pos by (destruct Hf as [|x ls' (Hx & _) _]; [done|]; by destruct x).
  destruct (Z.eqb_spec (zlen (joindre 44 ls)) 0); [lia|]. rewrite Split_joindre by (done || (eapply Forall_impl; [exact Hf|]; by intros x (_ & _ & ?))).
  unfold ls. rewrite segments_ok by done. exists (snd (fold_left ajouter_cpu (coeurs ps) ([], 0))). do 2 f_equal.
  rewrite <- (fst_ajouter (coeurs ps) ([], 0)) at 2 || idtac. pose proof (fst_ajouter (coeurs ps) ([], 0)) as E. cbn [fst app] in E.
  destruct (fold_left ajouter_cpu (coeurs ps) ([], 0)). cbn in *. by subst.
Qed.

(** Every indice read lies in the masks: never out of range, whatever the text. *)
Lemma segment_borne segment s : Forall (fun c => 0 <= c < 1024) (fst s) ->
  wp (segment_cpu segment s) (fun o => match o with inl s => Forall (fun c => 0 <= c < 1024) (fst s) | inr e => e = ErrListeCPUInvalide end).
Proof.
  intros Hs. unfold segment_cpu. set (g := TrimSpace segment). destruct (zlen g =? 0); [done|].
  destruct (Z.leb_spec 0 (IndexByte g 45)) as [Ht|Ht].
  - assert (45 ∈ g) as (a & b & E & Ha)%decoupe_premier.
    { destruct (decide (45 ∈ g)); [done|]. rewrite IndexByte_absent in Ht by done. lia. }
    rewrite E, IndexByte_spec by done. rewrite slice_debut, run_bind_done by done.
    replace (a ++ 45 :: b) with ((a ++ [45]) ++ b) by (by rewrite <- app_assoc). rewrite slice_queue, run_bind_done by (rewrite ?zlen_app; done).
    destruct (Atoi a) as [x|]; [|done]. destruct (Atoi b) as [y|]; [|done]. destruct ((x <? 0) || (y <? x) || (1024 <=? y)) eqn:Hb; [done|]. zbool.
    cbn. rewrite fst_ajouter. apply Forall_app. split; [done|]. apply Forall_forall. intros c Hc%elem_of_seqZ. lia.
  - destruct (Atoi g) as [x|]; [|done]. destruct ((x <? 0) || (1024 <=? x)) eqn:Hb; [done|]. zbool. cbn. apply Forall_app. split; [done|]. by constructor.
Qed.
End cpus_ok.

(** * Any text: no failure at run time, values of their width *)

Lemma parserUintDecimal_borne l v : parserUintDecimal l = Some v -> is_u64 v.
Proof.
  rewrite parserUintDecimal_ok. destruct ((0 <? zlen l) && forallb chiffre l && (valeur l <? 2 ^ 64)) eqn:E; [|done]. intros [= <-]. zbool.
  split; [|done]. by apply (valeur_de_croit l 0).
Qed.

Lemma compter_borne p l : 0 <= compter p l <= zlen l.
Proof. induction l as [|c l IH]; [done|]. cbn [compter]. rewrite zlen_cons. pose proof (zlen_nonneg l). destruct (p c); lia. Qed.

Lemma avancer_borne p l i : 0 <= i <= zlen l -> i <= avancer p l i <= zlen l.
Proof. intros Hi. unfold avancer. pose proof (compter_borne p (drop (Z.to_nat i) l)). unfold zlen in *. rewrite length_drop in *. lia. Qed.

Definition borne_option (P : Z -> Prop) (o : option Z) : Prop := match o with Some v => P v | None => True end.

Lemma extraire_borne l : wp (extrairePremierUintApresDeuxPoints l) (borne_option is_u64).
Proof.
  unfold extrairePremierUintApresDeuxPoints. pose proof (zlen_nonneg l).
  pose proof (avancer_borne (fun c => (c =? 32) || (c =? 9)) l 0 ltac:(lia)) as H1. set (i := avancer _ l 0) in *.
  destruct (Z.leb_spec (zlen l) i); [done|]. pose proof (avancer_borne chiffre l i ltac:(lia)) as H2. set (j := avancer chiffre l i) in *.
  destruct (j =? i); [done|]. apply wp_bind, wp_slice; [lia..|]. apply wp_done. destruct (parserUintDecimal _) eqn:E; [|done]. by apply parserUintDecimal_borne in E.
Qed.

Lemma apres_borne cle l : prefixe cle l = true -> wp (apres cle l) (borne_option is_u64).
Proof. intros [r ->]%prefixe_spec. unfold apres. rewrite slice_queue, run_bind_done by done. apply extraire_borne. Qed.

Lemma parserIntDecimal_sur l : wp (parserIntDecimal l) (fun _ => True).
Proof.
  unfold parserIntDecimal. pose proof (zlen_nonneg l). destruct (Z.eqb_spec (zlen l) 0); [done|]. apply wp_bind, wp_idx; [lia|]. intros c _.
  apply wp_bind. eapply (wp_mono _ (fun _ => True)).
  - destruct (c =? 45); [|done]. by apply wp_slice; [lia..|].
  - intros x _. destruct (parserUintDecimal x) as [m|]; [|done]. by destruct (9223372036854775807 <? m).
Qed.

Lemma IndexByte_cas l c : (c ∉ l /\ IndexByte l c = -1) \/ exists a b, l = a ++ c :: b /\ c ∉ a /\ IndexByte l c = zlen a.
Proof.
  destruct (decide (c ∈ l)) as [H|H]; [right|left; split; [done|by apply IndexByte_absent]].
  destruct (decoupe_premier c l H) as (a & b & -> & Ha). exists a, b. split_and!; try done. by apply IndexByte_spec.
Qed.

Lemma IndexByte_borne l c : -1 <= IndexByte l c < zlen l.
Proof.
  destruct (IndexByte_cas l c) as [[_ ->]|(a & b & -> & _ & ->)]; [pose proof (zlen_nonneg l); lia|].
  rewrite zlen_app, zlen_cons. pose proof (zlen_nonneg a). pose proof (zlen_nonneg b). lia.
Qed.

Lemma parserCentiemesFixes_borne l : wp (parserCentiemesFixes l) (borne_option is_u32).
Proof.
  unfold parserCentiemesFixes. destruct (Z.leb_spec (IndexByte l 46) 0); [done|]. destruct (Z.eqb_spec (IndexByte l 46 + 3) (zlen l)); [|done]. cbn [orb negb].
  apply wp_bind, wp_slice; [lia..|]. apply wp_bind, wp_slice; [lia..|]. destruct (parserUintDecimal _) as [x|]; [|done]. destruct (parserUintDecimal _) as [y|]; [|done].
  destruct (1000 <? x); [done|]. apply wp_done, u32_range.
Qed.

Lemma wp_plier {X S E} (f : X -> S -> run (S + E)) (I : S -> Prop) (P : E -> Prop) l s :
  (forall x s, I s -> wp (f x s) (fun o => match o with inl s => I s | inr e => P e end)) -> I s ->
  wp (plier f l s) (fun o => match o with inl s => I s | inr e => P e end).
Proof.
  intros H. revert s. induction l as [|x l IH]; intros s Hs; [done|]. cbn [plier]. apply wp_bind. eapply wp_mono; [by apply H|].
  intros [s'|e] Ho; [by apply IH|done].
Qed.

Lemma wp_plier_lignes {S E} (f : list Z -> S -> run (S * option E)) (I : S -> Prop) ls s :
  (forall x s, I s -> wp (f x s) (fun o => I (fst o))) -> I s -> wp (plier_lignes f ls s) (fun o => I (fst o)).
Proof.
  intros H. revert s. induction ls as [|x ls IH]; intros s Hs; [done|]. cbn [plier_lignes]. apply wp_bind. eapply wp_mono; [by apply H|].
  intros [s' [e|]] Ho; [done|by apply IH].
Qed.

Lemma fin_de_ligne_cas l : zlen l <> 0 -> exists b, fin_de_ligne l = Done b /\ (b = true -> exists q, l = q ++ [10]).
Proof.
  intros Hl. destruct (exists_last (l := l)) as (q & c & ->); [by intros ->|]. unfold fin_de_ligne. rewrite zlen_app. change (zlen [c]) with 1.
  rewrite idx_mid by lia. exists (c =? 10). split; [done|]. intros ->%Z.eqb_eq. by exists q.
Qed.

Lemma lignes_sures {S} (f : list Z -> S -> run (S * option erreur_proc)) (I : S -> Prop) q s :
  (forall x s, I s -> wp (f x s) (fun o => I (fst o))) -> I s -> wp (par_lignes ErrTamponProcSature (q ++ [10]) f s) (fun o => I (fst o)).
Proof. intros Hf Hs. destruct (lignes_existe q) as (ls & -> & Hl & _). rewrite par_lignes_ok by done. by apply wp_plier_lignes. Qed.

(** The readers keep the fields in their width. *)
Definition conserve (f : InstantaneTache -> run (InstantaneTache * option erreur_proc)) : Prop := forall t, tache_ok t -> wp (f t) (fun o => tache_ok (fst o)).

Ltac champs_ok := unfold tache_ok in *; cbn [avec_stat avec_status avec_sched avec_io avec_identite T_HorodatageNs T_NombreFils T_VmHWMKio T_VmRSSKio T_CommutationsVolontaires
  T_CommutationsSubies T_TempsExecutionNs T_AttenteFileNs T_OctetsLusLogiques T_OctetsEcritsLogiques T_AppelsLecture T_AppelsEcriture T_OctetsLusBloc T_OctetsEcritsBloc fst] in *;
  rewrite ?Forall_cons in *; destruct_and?; split_and?; auto using u32_range.

Lemma stat_sur l : conserve (AnalyserStatProc l).
Proof.
  intros t Ht. unfold AnalyserStatProc. destruct (Z.eqb_spec (zlen l) 0) as [|Hl]; [done|]. destruct (fin_de_ligne_cas l Hl) as ([|] & -> & _); rewrite run_bind_done; [|done].
  cbn [negb]. destruct (Z.leb_spec (IndexByte l 40) 0); [done|]. destruct (Z.leb_spec (LastIndexByte l 41) (IndexByte l 40)); [done|].
  destruct (Z.leb_spec (zlen l) (LastIndexByte l 41 + 2)); [done|]. cbn [orb]. pose proof (IndexByte_borne l 40).
  apply wp_bind, wp_slice; [lia..|]. apply wp_bind, wp_idx; [lia|]. intros a _. apply wp_bind, wp_idx; [lia|]. intros b _.
  destruct (parserUintDecimal _) as [pid|]; [|done]. destruct (negb (a =? 32) || negb (b =? 32)); [done|].
  apply wp_bind, wp_slice; [lia..|]. rewrite par_mots_ok. apply wp_bind.
  eapply wp_mono; [apply (wp_plier champ_stat (fun _ => True) (fun _ => True)); [|done]|].
  - intros x [i c] _. unfold champ_stat. cbv zeta.
    repeat (lazymatch goal with |- wp (if ?b then match parserUintDecimal _ with _ => _ end else _) _ => destruct b; [by destruct (parserUintDecimal x)|] end).
    destruct (i =? 36); [|done].     apply wp_bind. eapply wp_mono; [apply parserIntDecimal_sur|]. by intros [v|].
  - intros [[i c]|e] _; [|done]. destruct (c_requis c <? 7); [done|]. apply wp_done. champs_ok.
Qed.

Lemma sched_sur l : conserve (AnalyserSchedstatProc l).
Proof.
  intros t Ht. unfold AnalyserSchedstatProc. destruct (Z.eqb_spec (zlen l) 0) as [|Hl]; [done|]. destruct (fin_de_ligne_cas l Hl) as ([|] & -> & _); rewrite run_bind_done; [|done].
  cbn [negb]. pose proof (zlen_nonneg l). apply wp_bind, wp_slice; [lia..|]. set (g := take _ _). pose proof (IndexByte_borne g 32).
  destruct (Z.leb_spec (IndexByte g 32) 0); [done|]. apply wp_bind, wp_slice; [lia..|]. set (r := take _ (drop _ g)). pose proof (IndexByte_borne r 32).
  destruct (Z.leb_spec (IndexByte r 32) 0); [done|]. destruct (Z.leb_spec (zlen r) (IndexByte r 32 + 1)); [done|]. cbn [orb].
  apply wp_bind, wp_slice; [lia..|]. apply wp_bind, wp_slice; [lia..|]. apply wp_bind, wp_slice; [lia..|].
  repeat match goal with |- wp (match parserUintDecimal ?x with _ => _ end) _ => destruct (parserUintDecimal x) eqn:?; [|done] end.
  repeat match goal with H : parserUintDecimal _ = Some _ |- _ => apply parserUintDecimal_borne in H end. apply wp_done. champs_ok.
Qed.

(** One key: its value, or the error, or the next key. *)
Lemma wp_cle {S} cle ligne (f : Z -> S * option erreur_proc) (d : run (S * option erreur_proc)) (s : S * option erreur_proc) (Q : S * option erreur_proc -> Prop) :
  (forall v, is_u64 v -> Q (f v)) -> Q s -> wp d Q ->
  wp (if prefixe cle ligne then o ← apres cle ligne; match o with Some v => Done (f v) | None => Done s end else d) Q.
Proof.
  intros Hf Hs Hd. destruct (prefixe cle ligne) eqn:E; [|done]. apply wp_bind. eapply wp_mono; [by apply apres_borne|]. intros [v|] Hv; [by apply Hf|done].
Qed.

Lemma status_sur l : conserve (AnalyserStatusProc l).
Proof.
  intros t Ht. unfold AnalyserStatusProc. destruct (Z.eqb_spec (zlen l) 0) as [|Hl]; [done|].
  destruct (fin_de_ligne_cas l Hl) as ([|] & -> & Hq); rewrite run_bind_done; [|done]. destruct (Hq eq_refl) as [q ->]. cbn [negb].
  apply wp_bind. eapply wp_mono; [apply (lignes_sures ligne_status (fun s => tache_ok (fst (fst s)))); [|done]|].
  - intros x [[u vol] sub] Hu. unfold ligne_status. cbn [fst] in Hu. repeat apply wp_cle; try (intros v Hv); cbn [fst]; try done; champs_ok.
  - intros [[[u vol] sub] [e|]] Hu; [done|]. by destruct vol, sub.
Qed.

Lemma io_sur l : conserve (AnalyserIOProc l).
Proof.
  intros t Ht. unfold AnalyserIOProc. destruct (Z.eqb_spec (zlen l) 0) as [|Hl]; [done|].
  destruct (fin_de_ligne_cas l Hl) as ([|] & -> & Hq); rewrite run_bind_done; [|done]. destruct (Hq eq_refl) as [q ->]. cbn [negb].
  apply wp_bind. eapply wp_mono; [apply (lignes_sures ligne_io (fun s => tache_ok (fst s))); [|done]|].
  - intros x [u m] Hu. unfold ligne_io. cbn [fst] in Hu. destruct (zlen x =? 0); [done|]. repeat apply wp_cle; try (intros v Hv); cbn [fst]; try done; champs_ok.
  - intros [[u m] [e|]] Hu; [done|]. by destruct (Z.land m 63 =? 63).
Qed.

Definition psi_borne (s : Z * Z * Z) : Prop := is_u64 (fst (fst s)) /\ is_u64 (snd (fst s)) /\ is_u32 (snd s).

Lemma extraire_psi_borne l : wp (extraireChampsLignePSI l) (fun o => match o with Some (total, avg) => is_u64 total /\ is_u32 avg | None => True end).
Proof.
  unfold extraireChampsLignePSI. rewrite par_mots_ok. apply wp_bind.
  eapply wp_mono; [apply (wp_plier mot_psi (fun s => is_u64 (fst (fst (fst s))) /\ is_u32 (snd (fst (fst s)))) (fun _ => True)); [|by split]|].
  - intros x [[[total avg] t] a] [H1 H2]. cbn [fst snd] in *. unfold mot_psi. destruct (prefixe (octets "total=") x) eqn:E1; [|destruct (prefixe (octets "avg10=") x) eqn:E2].
    + apply prefixe_spec in E1 as [r ->]. rewrite slice_queue, run_bind_done by done. destruct (parserUintDecimal r) eqn:Er; [|done]. apply parserUintDecimal_borne in Er. by apply wp_done.
    + apply prefixe_spec in E2 as [r ->]. rewrite slice_queue, run_bind_done by done. apply wp_bind. eapply wp_mono; [apply parserCentiemesFixes_borne|].
      intros [v|] Hv; [by apply wp_done|done].
    + done.
  - intros [[[[total avg] [|]] [|]]|e] H; done.
Qed.

Lemma psi_sur l : wp (AnalyserFichierPSI l) (fun o => match o with inl s => psi_borne s | inr _ => True end).
Proof.
  unfold AnalyserFichierPSI. destruct (Z.eqb_spec (zlen l) 0) as [|Hl]; [done|].
  destruct (fin_de_ligne_cas l Hl) as ([|] & -> & Hq); rewrite run_bind_done; [|done]. destruct (Hq eq_refl) as [q ->]. cbn [negb].
  apply wp_bind. eapply wp_mono; [apply (lignes_sures ligne_psi (fun s => psi_borne (fst s))); [|by split_and!]|].
  - intros x [[[s f] a] tr] (H1 & H2 & H3). cbn [fst snd] in *. unfold ligne_psi. destruct (prefixe (octets "some ") x) eqn:E1; [|destruct (prefixe (octets "full ") x) eqn:E2].
    + apply prefixe_spec in E1 as [r ->]. rewrite slice_queue, run_bind_done by done. apply wp_bind. eapply wp_mono; [apply extraire_psi_borne|].
      intros [[total avg]|] Hv; [|by apply wp_done]. by destruct Hv.
    + apply prefixe_spec in E2 as [r ->]. rewrite slice_queue, run_bind_done by done. apply wp_bind. eapply wp_mono; [apply extraire_psi_borne|].
      intros [[total avg]|] Hv; [|by apply wp_done]. by destruct Hv.
    + by apply wp_done.
  - intros [[[[s f] a] tr] [e|]] H; [done|]. by destruct tr.
Qed.

Lemma cpus_sur `{U : Unicode} l : wp (AnalyserListeCPUs l) (fun o => match o with inl s => Forall (fun c => 0 <= c < 1024) (fst s) | inr e => e = ErrListeCPUInvalide end).
Proof.
  unfold AnalyserListeCPUs. destruct (zlen (TrimSpace l) =? 0); [done|].
  apply (wp_plier segment_cpu (fun s => Forall (fun c => 0 <= c < 1024) (fst s)) (fun e => e = ErrListeCPUInvalide)); [|by cbn]. intros x s. apply segment_borne.
Qed.

(** ** Values of keyed lines *)

#[export] Instance cle_status_eq : EqDecision cle_status.
Proof. solve_decision. Defined.
#[export] Instance cle_io_eq : EqDecision cle_io.
Proof. solve_decision. Defined.

(** The value of the last line of a key, [d] without one; whether there is one. *)
Definition derniere {K} `{EqDecision K} (c : K) (ls : list (ligne K)) (d : Z) : Z :=
  fold_left (fun d l => match l with Champ k _ v _ => if decide (k = c) then v else d | Autre _ => d end) ls d.
Definition presente {K} `{EqDecision K} (c : K) (ls : list (ligne K)) : bool :=
  existsb (fun l => match l with Champ k _ _ _ => bool_decide (k = c) | Autre _ => false end) ls.

Lemma fold_status ls t vol sub : Forall (ligne_ok texte_status) ls -> u32 (T_NombreFils t) = T_NombreFils t ->
  fold_left (fun s l => effet_status l s) ls (t, vol, sub) =
  (avec_status (derniere VmHWM ls (T_VmHWMKio t)) (derniere VmRSS ls (T_VmRSSKio t)) (u32 (derniere Threads ls (T_NombreFils t)))
     (derniere Volontaires ls (T_CommutationsVolontaires t)) (derniere Subies ls (T_CommutationsSubies t)) t,
   vol || presente Volontaires ls, sub || presente Subies ls).
Proof.
  intros Hl. revert t vol sub. induction Hl as [|l ls Hk _ IH]; intros t vol sub Ht.
  - cbn. rewrite Ht, !orb_false_r. by destruct t.
  - assert (Hu : forall v, u32 (u32 v) = u32 v) by (intros v; apply Z.mod_mod; lia).
    assert (Hd : forall r v, u32 (derniere Threads r (u32 v)) = u32 (derniere Threads r v)).
    { intros r. unfold derniere. induction r as [|x r IHr]; intros v; [apply Hu|]. cbn [fold_left]. destruct x as [k b w z|]; [|apply IHr]. destruct (decide (k = Threads)); [done|apply IHr]. }
    cbn [fold_left]. destruct l as [[] b v s|x]; cbn [effet_status]; rewrite IH by (cbn; rewrite ?Hu; done); cbn -[u32]; rewrite ?Hd, ?orb_true_r; done.
Qed.

Definition bits_io (ls : list (ligne cle_io)) (m : Z) : Z := fold_left (fun m l => match l with Champ k _ _ _ => Z.lor m (bit1 (rang_io k)) | Autre _ => m end) ls m.

Lemma fold_io ls t m : fold_left (fun s l => effet_io l s) ls (t, m) =
  (avec_io (derniere Rchar ls (T_OctetsLusLogiques t)) (derniere Wchar ls (T_OctetsEcritsLogiques t)) (derniere Syscr ls (T_AppelsLecture t))
     (derniere Syscw ls (T_AppelsEcriture t)) (derniere Lus ls (T_OctetsLusBloc t)) (derniere Ecrits ls (T_OctetsEcritsBloc t))
     (derniere Annules ls (T_OctetsEcritureAnnules t)) t, bits_io ls m).
Proof.
  revert t m. induction ls as [|l ls IH]; intros t m; [by destruct t|]. cbn [fold_left].
  destruct l as [[] b v s|x]; cbn [effet_io fst snd]; rewrite IH; done.
Qed.

(** All six counters are there: the mask is full. *)
Lemma bits_io_ok ls : (forall k, k <> Annules -> presente k ls = true) -> Z.land (bits_io ls 0) 63 = 63.
Proof.
  intros H. assert (Hm : forall ls m k, (presente k ls = true \/ Z.testbit m (rang_io k) = true) -> Z.testbit (bits_io ls m) (rang_io k) = true).
  { clear. induction ls as [|l ls IH]; intros m k Hk; [by destruct Hk|]. cbn [bits_io fold_left]. apply IH. destruct l as [j b v s|x]; [|exact Hk].
    rewrite Z.lor_spec. destruct Hk as [Hk|Hk]; [|right; by rewrite Hk]. cbn [presente existsb] in Hk. apply orb_true_iff in Hk as [->%bool_decide_eq_true|Hk]; [right|by left].
    rewrite orb_true_iff. right. by destruct k. }
  apply Z.bits_inj'. intros i Hi. rewrite Z.land_spec. change 63 with (Z.ones 6). rewrite Z.testbit_ones_nonneg by lia.
  destruct (Z.ltb_spec i 6); [|by rewrite andb_false_r]. rewrite andb_true_r.
  assert (i = 0 \/ i = 1 \/ i = 2 \/ i = 3 \/ i = 4 \/ i = 5) as Hc by lia.
  destruct Hc as [->|[->|[->|[->|[->| ->]]]]]; [apply (Hm ls 0 Rchar)|apply (Hm ls 0 Wchar)|apply (Hm ls 0 Syscr)|apply (Hm ls 0 Syscw)|apply (Hm ls 0 Lus)|apply (Hm ls 0 Ecrits)]; left; by apply H.
Qed.
