(* ===== verification/CapteurProc.v ===== *)
(** The kernel sensor (src/internal/cinetique/capteur_proc_linux.go): whole reads of
    the pseudo-files, the readings of a process and of its threads, the pressures, the
    topology.  The kernel is a parameter: what each opening, read and directory read
    gives.  The theorems: whatever the kernel gives, a reading ends, does not fail at
    run time and is well formed or refused, never truncated; what the kernel writes
    for a process is read back exactly, all threads summed, whatever its name is and
    however the reads are cut. *)
From stdpp Require Import list_numbers.
From S2P Require Import Prelude Texte Quotients Reputation ProcTexte.
Local Open Scope Z_scope.

(** * What the kernel gives *)

(** One [read]: interrupted, refused, or at most so many octets. *)
Inductive lecture := L_interrompue | L_refusee (errno : Z) | L_octets (n : Z).
(** What is left to read, and how the next reads go; past the plan they are not cut. *)
Record flux := Flux { f_reste : list Z; f_plan : list lecture }.
Inductive resultat := R_errno (e : Z) | R_lus (b : list Z).
Definition EINTR : Z := 4.
Definition EINVAL : Z := 22.
Definition ENOENT : Z := 2.
Definition ESRCH : Z := 3.

Definition lire (f : flux) (n : Z) : resultat * flux :=
  let servir k p := (R_lus (take (Z.to_nat (Z.min k n)) (f_reste f)), Flux (drop (Z.to_nat (Z.min k n)) (f_reste f)) p) in
  match f_plan f with
  | [] => servir n []
  | L_interrompue :: p => (R_errno EINTR, Flux (f_reste f) p)
  | L_refusee e :: p => (R_errno e, Flux (f_reste f) p)
  | L_octets k :: p => servir k p
  end.

(** An opened file and the error of its closing; one read of a directory. *)
Definition fichier : Type := (Z + flux * option Z)%type.
Inductive entrees := E_errno (e : Z) | E_octets (b : list Z).
Record Noyau := { ouvrir : Z -> list Z -> fichier; ouvrir_rep : Z -> list Z -> Z + (Z * list entrees * option Z) }.

(** * Whole reads *)

Definition lireFluxCompletFD (f : flux) (tampon : Z) : run (list Z + erreur_proc) :=
  if tampon =? 0 then Done (inr (Errno EINVAL)) else
  let fuel := (length (f_plan f) + length (f_reste f) + 2)%nat in
  o ← loop (fun '(lus, f) =>
        if tampon <=? zlen lus then Done (inr (inl (lus, f))) else
        let '(r, f) := lire f (tampon - zlen lus) in
        match r with
        | R_errno e => if e =? EINTR then Done (inl (lus, f)) else Done (inr (inr (Errno e)))
        | R_lus b => if zlen b =? 0 then Done (inr (inl (lus, f))) else Done (inl (lus ++ b, f))
        end) fuel ([], f);
  match o with
  | inr e => Done (inr e)
  | inl (lus, f) =>
      if zlen lus =? tampon then
        e ← loop (fun f =>
              let '(r, f) := lire f 1 in
              match r with
              | R_errno e => if e =? EINTR then Done (inl f) else Done (inr (Some (Errno e)))
              | R_lus b => if 0 <? zlen b then Done (inr (Some ErrTamponProcSature)) else Done (inr None)
              end) fuel f;
        Done (match e with Some e => inr e | None => inl lus end)
      else Done (inl lus)
  end.

Section capteur.
Context `{U : Unicode} (N : Noyau).

Definition lireFichierProcComplet (fdRacine : Z) (cheminNul : list Z) (tampon : Z) : run (list Z + erreur_proc) :=
  if zlen cheminNul <? 2 then Done (inr (Errno EINVAL)) else
  c ← idx cheminNul (zlen cheminNul - 1);
  if negb (c =? 0) || (tampon =? 0) then Done (inr (Errno EINVAL)) else
  match ouvrir N fdRacine cheminNul with
  | inl e => Done (inr (Errno e))
  | inr (f, fermeture) =>
      r ← lireFluxCompletFD f tampon;
      match r, fermeture with
      | inr e, _ => Done (inr e)
      | inl _, Some e => Done (inr (Errno e))
      | inl b, None => Done (inl b)
      end
  end.

Definition lireCheminStatiqueProc (fdRacine : Z) (chemin : list Z) (tampon : Z) : run (list Z + erreur_proc) :=
  lireFichierProcComplet fdRacine (chemin ++ [0]) tampon.

Definition formaterCheminProc (prefixeAbsolu : bool) (pid tid : Z) (feuille : list Z) : list Z :=
  (if prefixeAbsolu then octets "/proc/" else []) ++ AppendInt pid ++
  (if 0 <? tid then octets "/task/" ++ AppendInt tid else []) ++ [47] ++ feuille ++ [0].

(** A file read then decoded into the reading. *)
Definition lire_analyser (fdRacine : Z) (chemin : list Z) (tampon : Z) (analyser : list Z -> InstantaneTache -> run (InstantaneTache * option erreur_proc))
    (t : InstantaneTache) : run (InstantaneTache * option erreur_proc) :=
  r ← lireFichierProcComplet fdRacine chemin tampon;
  match r with inr e => Done (t, Some e) | inl b => analyser b t end.

Definition puis (m : run (InstantaneTache * option erreur_proc)) (k : InstantaneTache -> run (InstantaneTache * option erreur_proc)) : run (InstantaneTache * option erreur_proc) :=
  '(t, e) ← m; match e with Some e => Done (t, Some e) | None => k t end.

(** * The threads *)

Definition additionnerSatureProc (a b : Z) : Z :=
  let '(somme, retenue) := Add64 a b in if negb (retenue =? 0) then MaxUint64 else somme.

Definition ajouter_fil (t s : InstantaneTache) : InstantaneTache :=
  avec_status (T_VmHWMKio t) (T_VmRSSKio t) (T_NombreFils t) (additionnerSatureProc (T_CommutationsVolontaires t) (T_CommutationsVolontaires s))
    (additionnerSatureProc (T_CommutationsSubies t) (T_CommutationsSubies s))
    (avec_sched (additionnerSatureProc (T_TempsExecutionNs t) (T_TempsExecutionNs s)) (additionnerSatureProc (T_AttenteFileNs t) (T_AttenteFileNs s))
       (additionnerSatureProc (T_TranchesOrdonnanceur t) (T_TranchesOrdonnanceur s)) t).

Definition disparu (e : erreur_proc) : bool := match e with Errno n => (n =? ENOENT) || (n =? ESRCH) | _ => false end.

(** One name of the directory [task]. *)
Definition fil_secondaire (fdTask pid : Z) (nom : list Z) (t : InstantaneTache) : run (InstantaneTache + erreur_proc) :=
  c ← idx nom 0;
  if (c <? 48) || (57 <? c) then Done (inl t) else
  match parserUintDecimal nom with
  | None => Done (inl t)
  | Some tid =>
      if (tid =? 0) || (i64 tid =? pid) then Done (inl t) else
      r ← lireFichierProcComplet fdTask (nom ++ octets "/schedstat" ++ [0]) 1024;
      match r with
      | inr e => if disparu e then Done (inl t) else Done (inr e)
      | inl b =>
          '(s, e) ← AnalyserSchedstatProc b tache_zero;
          match e with
          | Some e => Done (inr e)
          | None =>
              r ← lireFichierProcComplet fdTask (nom ++ octets "/status" ++ [0]) 8192;
              match r with
              | inr e => if disparu e then Done (inl (ajouter_fil t s)) else Done (inr e)
              | inl b =>
                  '(s, e) ← AnalyserStatusProc b s;
                  match e with Some e => Done (inr e) | None => Done (inl (ajouter_fil t s)) end
              end
          end
      end
  end.

(** One entry of a buffer of [getdents64]. *)
Definition tour_entrees (fdTask pid : Z) (b : list Z) : Z * InstantaneTache -> run (Z * InstantaneTache + InstantaneTache * option erreur_proc) := fun '(offset, t) =>
  if zlen b <? offset + 19 then Done (inr (t, None)) else
  lo ← idx b (offset + 16);
  hi ← idx b (offset + 17);
  let reclen := Z.lor lo (u16 (Z.shiftl hi 8)) in
  if (reclen <? 19) || (zlen b <? offset + reclen) then Done (inr (t, None)) else
  champNom ← slice b (offset + 19) (offset + reclen);
  let offset := offset + reclen in
  let finNom := IndexByte champNom 0 in
  if finNom <=? 0 then Done (inl (offset, t)) else
  nom ← slice champNom 0 finNom;
  o ← fil_secondaire fdTask pid nom t;
  match o with inl t => Done (inl (offset, t)) | inr e => Done (inr (t, Some e)) end.

Fixpoint boucle_rep (fdTask pid : Z) (l : list entrees) (t : InstantaneTache) : run (InstantaneTache * option erreur_proc) :=
  match l with
  | [] => Done (t, None)
  | E_errno e :: l => if e =? EINTR then boucle_rep fdTask pid l t else Done (t, Some (Errno e))
  | E_octets b :: l =>
      if zlen b =? 0 then Done (t, None) else
      '(t, e) ← loop (tour_entrees fdTask pid b) (S (length b)) (0, t);
      match e with None => boucle_rep fdTask pid l t | Some e => Done (t, Some e) end
  end.

Definition agregerFilsSecondairesProcessus (fdRacine : Z) (prefixeAbsolu : bool) (pid : Z) (t : InstantaneTache) : run (InstantaneTache * option erreur_proc) :=
  match ouvrir_rep N fdRacine ((if prefixeAbsolu then octets "/proc/" else []) ++ AppendInt pid ++ octets "/task" ++ [0]) with
  | inl e => Done (t, Some (Errno e))
  | inr (fdTask, l, fermeture) =>
      '(t, e) ← boucle_rep fdTask pid l t;
      Done (t, match e, fermeture with Some e, _ => Some e | None, Some e => Some (Errno e) | None, None => None end)
  end.

(** * The readings *)

Definition AT_FDCWD : Z := -100.
(** [c.fdProc], [None] for a nil sensor. *)
Definition racine (c : option Z) : Z * bool := match c with Some fd => if 0 <=? fd then (fd, false) else (AT_FDCWD, true) | None => (AT_FDCWD, true) end.

Definition lireCible (c : option Z) (pid tid horodatageNs : Z) : run (InstantaneTache * option erreur_proc) :=
  if (pid <=? 0) || (tid <? 0) then Done (tache_zero, Some ErrFormatStatInvalide) else
  let '(fdRacine, absolu) := racine c in
  puis (lire_analyser fdRacine (formaterCheminProc absolu pid tid (octets "stat")) 1024 AnalyserStatProc tache_zero) (fun t =>
  puis (lire_analyser fdRacine (formaterCheminProc absolu pid tid (octets "schedstat")) 1024 AnalyserSchedstatProc t) (fun t =>
  puis (lire_analyser fdRacine (formaterCheminProc absolu pid tid (octets "status")) 8192 AnalyserStatusProc t) (fun t =>
  puis (lire_analyser fdRacine (formaterCheminProc absolu pid tid (octets "io")) 1024 AnalyserIOProc t) (fun t =>
  puis (if (tid =? 0) && (1 <? T_NombreFils t) then agregerFilsSecondairesProcessus fdRacine absolu pid t else Done (t, None)) (fun t =>
  Done (avec_identite pid (if 0 <? tid then tid else pid) horodatageNs t, None)))))).

Definition LireInstantaneProcessus (c : option Z) (pid horodatageNs : Z) : run (InstantaneTache * option erreur_proc) := lireCible c pid 0 horodatageNs.
Definition LireInstantaneFil (c : option Z) (pid tid horodatageNs : Z) : run (InstantaneTache * option erreur_proc) := lireCible c pid tid horodatageNs.

Definition LirePressionPSI (c : option Z) (horodatageNs : Z) : run (InstantanePressionPSI * option erreur_proc) :=
  let '(fdRacine, absolu) := racine c in
  let chemin s := if (absolu : bool) then octets "/proc/pressure/" ++ octets s else octets "pressure/" ++ octets s in
  let psi s := r ← lireCheminStatiqueProc fdRacine (chemin s) 512; match r with inr e => Done (inr e) | inl b => AnalyserFichierPSI b end in
  let rendre a b c d e f g := Pression horodatageNs a b c d e f g in
  cpu ← psi "cpu"%string;
  match cpu with
  | inr e => Done (rendre 0 0 0 0 0 0 0, Some e)
  | inl (cs, cf, ca) =>
      io ← psi "io"%string;
      match io with
      | inr e => Done (rendre cs cf ca 0 0 0 0, Some e)
      | inl (is_, if_, _) =>
          mem ← psi "memory"%string;
          match mem with
          | inr e => Done (rendre cs cf ca is_ if_ 0 0, Some e)
          | inl (ms, mf, _) => Done (rendre cs cf ca is_ if_ ms mf, None)
          end
      end
  end.

(** * The topology *)

(** One opening and one [read] of 256 octets; a full buffer is refused. *)
Definition lirePetitFichierSysfs (chemin : list Z) : list Z + erreur_proc :=
  match ouvrir N AT_FDCWD (chemin ++ [0]) with
  | inl e => inr (Errno e)
  | inr (f, _) =>
      match fst (lire f 256) with
      | R_errno e => inr (Errno e)
      | R_lus b => if zlen b =? 256 then inr ErrTamponProcSature else inl b
      end
  end.

Definition liste_ou_vide (r : list Z + erreur_proc) : run (list Z) :=
  match r with
  | inr _ => Done []
  | inl b => o ← AnalyserListeCPUs b; Done (match o with inl (l, _) => l | inr _ => [] end)
  end.

Definition ChargerTopologieHybride : run (TopologieHybride * list Z * list Z) :=
  let octetsCore := lirePetitFichierSysfs (octets "/sys/devices/cpu_core/cpus") in
  let octetsAtom := lirePetitFichierSysfs (octets "/sys/devices/cpu_atom/cpus") in
  listeCore ← liste_ou_vide octetsCore;
  listeAtom ← liste_ou_vide octetsAtom;
  t ← ConstruireTopologieHybride listeCore listeAtom;
  Done (t, listeCore, listeAtom).
End capteur.

(** * Whole reads *)

Definition plan_ok (p : list lecture) : Prop := Forall (fun l => match l with L_octets k => 1 <= k | _ => True end) p.

Lemma lire_ok f n r f' : lire f n = (r, f') -> 1 <= n ->
  match r with
  | R_errno e => f_reste f' = f_reste f /\ (e = EINTR -> (length (f_plan f') < length (f_plan f))%nat) /\ (e = EINTR \/ L_refusee e ∈ f_plan f)
  | R_lus b => f_reste f = b ++ f_reste f' /\ zlen b <= n /\ (plan_ok (f_plan f) -> b = [] -> f_reste f = [])
  end /\ (length (f_plan f') <= length (f_plan f))%nat /\ (forall l, l ∈ f_plan f' -> l ∈ f_plan f) /\ (plan_ok (f_plan f) -> plan_ok (f_plan f')).
Proof.
  assert (H : forall k (l : list Z), zlen (take (Z.to_nat (Z.min k n)) l) <= Z.max 0 (Z.min k n)) by (intros; unfold zlen; rewrite length_take; lia).
  unfold lire. destruct f as [l p]. cbn [f_reste f_plan]. intros E Hn. destruct p as [|[|e|k] p]; injection E as <- <-; cbn [f_reste f_plan].
  - split_and!; [by rewrite take_drop|specialize (H n l); lia| |lia|done..].
    intros _ Hb. destruct l; [done|]. by replace (Z.to_nat (Z.min n n)) with (S (Z.to_nat (n - 1))) in Hb by lia.
  - split_and!; [done|cbn; lia|by left|cbn; lia|set_solver|]. by intros [_ ?]%Forall_cons.
  - split_and!; [done|cbn; lia|right; set_solver|cbn; lia|set_solver|]. by intros [_ ?]%Forall_cons.
  - split_and!; [by rewrite take_drop|specialize (H k l); lia| |cbn; lia|set_solver|by intros [_ ?]%Forall_cons].
    intros [Hk _]%Forall_cons Hb. destruct l; [done|]. by replace (Z.to_nat (Z.min k n)) with (S (Z.to_nat (Z.min k n - 1))) in Hb by lia.
Qed.

(** A read gives everything or an error: however the kernel cuts it. *)
Lemma flux_lu f tampon : 0 <= tampon ->
  wp (lireFluxCompletFD f tampon) (fun r => match r with
    | inl b => zlen b <= tampon /\ (plan_ok (f_plan f) -> b = f_reste f)
    | inr ErrTamponProcSature => tampon < zlen (f_reste f)
    | inr (Errno e) => L_refusee e ∈ f_plan f \/ tampon = 0
    | inr _ => False end).
Proof.
  intros Ht. unfold lireFluxCompletFD. destruct (Z.eqb_spec tampon 0) as [->|Hz]; [by right|]. cbv zeta. apply wp_bind.
  eapply wp_mono.
  { apply (wp_loop _ (fun '(lus, g) => lus ++ f_reste g = f_reste f /\ zlen lus <= tampon /\ (length (f_plan g) <= length (f_plan f))%nat /\
        (forall l, l ∈ f_plan g -> l ∈ f_plan f) /\ (plan_ok (f_plan f) -> plan_ok (f_plan g)))
      (fun '(lus, g) => Z.of_nat (length (f_plan g) + length (f_reste g)))
      (fun o => match o with
        | inr e => exists n, e = Errno n /\ L_refusee n ∈ f_plan f
        | inl (lus, g) => lus ++ f_reste g = f_reste f /\ zlen lus <= tampon /\ (length (f_plan g) <= length (f_plan f))%nat /\
            (forall l, l ∈ f_plan g -> l ∈ f_plan f) /\ (plan_ok (f_plan f) -> plan_ok (f_plan g)) /\ (plan_ok (f_plan f) -> zlen lus = tampon \/ f_reste g = []) end)).
    - intros [lus g] (E & Hl & Hp & Hin & Hk). destruct (Z.leb_spec tampon (zlen lus)); [apply wp_done; split_and!; try done; intros; left; lia|].
      destruct (lire g (tampon - zlen lus)) as [r g'] eqn:El. destruct (lire_ok g _ r g' El ltac:(lia)) as (Hr & Hp' & Hin' & Hk').
      destruct r as [e|b].
      + destruct Hr as (Er & Hd & Hor). destruct (Z.eqb_spec e EINTR) as [->|He].
        * apply wp_done. specialize (Hd eq_refl). rewrite Er. split_and!; [done..|lia|auto|auto|lia|lia].
        * apply wp_done. exists e. split; [done|]. destruct Hor; [done|auto].
      + destruct Hr as (Er & Hb & Hfin). destruct (Z.eqb_spec (zlen b) 0) as [Hb0|Hb0].
        * assert (b = []) as -> by (by apply zlen_eq0; lia). cbn [app] in Er. apply wp_done. rewrite <- Er. split_and!; [done..|lia|auto|auto|]. intros Hpk. right. by apply Hfin; auto.
        * pose proof (zlen_nonneg b). apply wp_done. rewrite zlen_app, <- app_assoc, <- Er. split_and!; [done|lia|lia|auto|auto|lia|]. rewrite Er, length_app. unfold zlen in *. lia.
    - by cbn; split_and!.
    - cbn. lia. }
  intros [[lus g]|e]; [|by intros (n & -> & Hn); left]. intros (E & Hl & Hp & Hin & Hk & Hfin).
  assert (Eb : zlen (f_reste f) = zlen lus + zlen (f_reste g)) by (by rewrite <- E, zlen_app).
  destruct (Z.eqb_spec (zlen lus) tampon) as [Et|Et].
  2: { apply wp_done. split; [done|]. intros Hpk. destruct (Hfin Hpk) as [|Hg]; [done|]. by rewrite <- E, Hg, app_nil_r. }
  apply wp_bind. eapply wp_mono.
  { apply (wp_loop _ (fun h => f_reste h = f_reste g /\ (length (f_plan h) <= length (f_plan f))%nat /\
        (forall l, l ∈ f_plan h -> l ∈ f_plan f) /\ (plan_ok (f_plan f) -> plan_ok (f_plan h))) (fun h => Z.of_nat (length (f_plan h)))
      (fun o => match o with Some ErrTamponProcSature => f_reste g <> [] | Some (Errno n) => L_refusee n ∈ f_plan f | Some _ => False | None => plan_ok (f_plan f) -> f_reste g = [] end)).
    - intros h (Eh & Hh & Hinh & Hkh). destruct (lire h 1) as [r h'] eqn:El. destruct (lire_ok h _ r h' El ltac:(lia)) as (Hr & Hp' & Hin' & Hk').
      destruct r as [e|b].
      + destruct Hr as (Er & Hd & Hor). destruct (Z.eqb_spec e EINTR) as [->|He]; apply wp_done.
        * specialize (Hd eq_refl). rewrite Er. split_and!; [done|lia|auto|auto|lia|lia].
        * destruct Hor; [done|auto].
      + destruct Hr as (Er & Hb & Hfin'). destruct (Z.ltb_spec 0 (zlen b)); apply wp_done.
        * intros Hg. rewrite Eh in Er. rewrite Hg in Er. destruct b; [cbn in *; unfold zlen in *; cbn in *; lia|done].
        * intros Hpk. rewrite <- Eh. apply Hfin'; [auto|]. by apply zlen_eq0.
    - split_and!; done.
    - lia. }
  intros [[]|]; try done; cbn.
  - intros Hg. rewrite Eb. pose proof (zlen_pos _ Hg). lia.
  - by left.
  - intros Hg. split; [lia|]. intros Hpk. by rewrite <- E, (Hg Hpk), app_nil_r.
Qed.

(** * Whatever the kernel gives *)

Section sur.
Context `{U : Unicode} (N : Noyau).

(** The text of a reading is the whole file, or the kernel cut a read to nothing. *)
Definition integral (fdRacine : Z) (chemin : list Z) (tampon : Z) (b : list Z) : Prop :=
  exists f, ouvrir N fdRacine chemin = inr (f, None) /\ zlen b <= tampon /\ (plan_ok (f_plan f) -> b = f_reste f).

Lemma fichier_sur fd chemin tampon : 0 <= tampon ->
  wp (lireFichierProcComplet N fd chemin tampon) (fun r => match r with inl b => integral fd chemin tampon b | inr _ => True end).
Proof.
  intros Ht. unfold lireFichierProcComplet. destruct (Z.ltb_spec (zlen chemin) 2); [done|]. apply wp_bind, wp_idx; [lia|]. intros c _.
  destruct (negb (c =? 0) || (tampon =? 0)); [done|]. destruct (ouvrir N fd chemin) as [e|[f fermeture]] eqn:E; [done|].
  apply wp_bind. eapply wp_mono; [by apply flux_lu|]. intros [b|e] Hb; [|done]. destruct fermeture; [done|]. apply wp_done. exists f. by destruct Hb.
Qed.

Lemma lire_analyser_sur fd chemin tampon analyser t : 0 <= tampon -> (forall b, conserve (analyser b)) -> tache_ok t ->
  wp (lire_analyser N fd chemin tampon analyser t) (fun o => tache_ok (fst o) /\ (snd o = None -> exists b, integral fd chemin tampon b)).
Proof.
  intros Ht Ha Hk. unfold lire_analyser. apply wp_bind. eapply wp_mono; [by apply fichier_sur|]. intros [b|e] Hb; [|done].
  eapply wp_mono; [by apply Ha|]. intros o Ho. split; [done|]. intros _. by exists b.
Qed.

Lemma additionner_proc a b : is_u64 a -> is_u64 b -> additionnerSatureProc a b = sature a b.
Proof. apply satureU64_ok. Qed.

Lemma ajouter_fil_ok t s : tache_ok t -> tache_ok s -> tache_ok (ajouter_fil t s).
Proof.
  intros Ht Hs. assert (Hu : forall a b, is_u64 a -> is_u64 b -> is_u64 (additionnerSatureProc a b)) by (intros a b Ha Hb; rewrite additionner_proc by done; by apply sature_range).
  unfold ajouter_fil. champs_ok.
Qed.

Lemma tache_zero_ok : tache_ok tache_zero.
Proof. split; [by vm_compute|]. split; [by vm_compute|]. by repeat constructor. Qed.

Lemma fil_sur fd pid nom t : 0 < zlen nom -> tache_ok t -> wp (fil_secondaire N fd pid nom t) (fun o => match o with inl t => tache_ok t | inr _ => True end).
Proof.
  intros Hn Ht. unfold fil_secondaire. apply wp_bind, wp_idx; [lia|]. intros c _. destruct ((c <? 48) || (57 <? c)); [done|].
  destruct (parserUintDecimal nom) as [tid|]; [|done]. destruct ((tid =? 0) || (i64 tid =? pid)); [done|].
  apply wp_bind. eapply wp_mono; [by apply (fichier_sur fd _ 1024)|]. intros [b|e] _; [|by destruct (disparu e)].
  apply wp_bind. eapply wp_mono; [apply (sched_sur b), tache_zero_ok|]. intros [s [e|]] Hs; [done|]. cbn [fst] in Hs.
  apply wp_bind. eapply wp_mono; [by apply (fichier_sur fd _ 8192)|]. intros [b'|e] _.
  - apply wp_bind. eapply wp_mono; [by apply (status_sur b')|]. intros [s' [e|]] Hs'; [done|]. by apply wp_done, ajouter_fil_ok.
  - destruct (disparu e); [by apply wp_done, ajouter_fil_ok|done].
Qed.

Lemma entrees_sures fd pid b t : tache_ok t -> wp (loop (tour_entrees N fd pid b) (S (length b)) (0, t)) (fun o => tache_ok (fst o)).
Proof.
  intros Ht. apply (wp_loop _ (fun s => 0 <= fst s <= zlen b /\ tache_ok (snd s)) (fun s => zlen b - fst s)).
  - intros [offset u] [Ho Hu]. cbn [fst snd] in *. unfold tour_entrees. destruct (Z.ltb_spec (zlen b) (offset + 19)); [done|].
    apply wp_bind, wp_idx; [lia|]. intros lo _. apply wp_bind, wp_idx; [lia|]. intros hi _. cbv zeta. set (reclen := Z.lor lo _).
    destruct (Z.ltb_spec reclen 19); [done|]. destruct (Z.ltb_spec (zlen b) (offset + reclen)); [done|]. cbn [orb].
    apply wp_bind, wp_slice; [lia..|]. set (nom := take _ _). pose proof (IndexByte_borne nom 0).
    destruct (Z.leb_spec (IndexByte nom 0) 0); [apply wp_done; cbn; split_and!; (done || lia)|].
    apply wp_bind, wp_slice; [lia..|]. apply wp_bind. eapply wp_mono.
    + apply fil_sur; [|done]. rewrite zlen_slice by lia. lia.
    + intros [u'|e] Hu'; apply wp_done; [|done]. cbn. split_and!; (done || lia).
  - split; [cbn; pose proof (zlen_nonneg b); lia|done].
  - cbn [fst]. unfold zlen. lia.
Qed.

Lemma boucle_rep_sure fd pid l t : tache_ok t -> wp (boucle_rep N fd pid l t) (fun o => tache_ok (fst o)).
Proof.
  revert t. induction l as [|[e|b] l IH]; intros t Ht; [done| |]; cbn [boucle_rep].
  - destruct (e =? EINTR); [by apply IH|done].
  - destruct (zlen b =? 0); [done|]. apply wp_bind. eapply wp_mono; [by apply entrees_sures|]. intros [u [e|]] Hu; [done|by apply IH].
Qed.

Lemma puis_sur m k (P Q : InstantaneTache -> Prop) R :
  wp m (fun o => P (fst o) /\ (snd o = None -> Q (fst o))) -> (forall t, P t -> Q t -> wp (k t) R) -> (forall t e, P t -> R (t, Some e)) -> wp (puis m k) R.
Proof. intros Hm Hk Hr. unfold puis. apply wp_bind. eapply wp_mono; [exact Hm|]. intros [t [e|]] [Hp Hq]; [by apply wp_done, Hr|]. apply Hk; auto. Qed.

Lemma etape_sure fd chemin tampon analyser t k R : 0 <= tampon -> (forall b, conserve (analyser b)) -> tache_ok t ->
  (forall t e, tache_ok t -> R (t, Some e)) -> (forall t, tache_ok t -> (exists b, integral fd chemin tampon b) -> wp (k t) R) ->
  wp (puis (lire_analyser N fd chemin tampon analyser t) k) R.
Proof.
  intros Hn Ha Ht Hr Hk. apply (puis_sur _ _ tache_ok (fun _ => exists b, integral fd chemin tampon b)); [by apply lire_analyser_sur|done|done].
Qed.

Definition chemin (c : option Z) (pid tid : Z) (feuille : string) : list Z := formaterCheminProc (snd (racine c)) pid tid (octets feuille).

Lemma lireCible_sure c pid tid h : is_i64 h ->
  wp (lireCible N c pid tid h) (fun o => tache_ok (fst o) /\ (snd o = None ->
    0 < pid /\ 0 <= tid /\ T_PID (fst o) = pid /\ T_TID (fst o) = (if 0 <? tid then tid else pid) /\ T_HorodatageNs (fst o) = h /\
    Forall (fun '(f, n) => exists b, integral (fst (racine c)) (chemin c pid tid f) n b) [("stat", 1024); ("schedstat", 1024); ("status", 8192); ("io", 1024)]%string)).
Proof.
  intros Hh. unfold lireCible. destruct (Z.leb_spec pid 0), (Z.ltb_spec tid 0); try (by split; [apply tache_zero_ok|]). cbn [orb].
  unfold chemin. destruct (racine c) as [fd absolu]. cbn [fst snd].
  apply etape_sure; [done|apply stat_sur|apply tache_zero_ok|by split|]. intros t1 H1 I1.
  apply etape_sure; [done|apply sched_sur|done|by split|]. intros t2 H2 I2.
  apply etape_sure; [done|apply status_sur|done|by split|]. intros t3 H3 I3.
  apply etape_sure; [done|apply io_sur|done|by split|]. intros t4 H4 I4.
  eapply (puis_sur _ _ tache_ok (fun _ => True)); [| |by split].
  - destruct ((tid =? 0) && (1 <? T_NombreFils t4)); [|done]. unfold agregerFilsSecondairesProcessus.
    destruct (ouvrir_rep N fd _) as [e|[[fdTask l] fermeture]]; [done|]. apply wp_bind. eapply wp_mono; [by apply boucle_rep_sure|].
    intros [u e] Hu. apply wp_done. split; [done|done].
  - intros t5 H5 _. apply wp_done. cbn [fst snd]. split; [champs_ok|]. intros _. split_and!; try done. by repeat constructor.
Qed.

Lemma pression_sure c h : is_i64 h -> wp (LirePressionPSI N c h) (fun o => psi_ok (fst o) /\ P_HorodatageNs (fst o) = h).
Proof.
  intros Hh. assert (Z0 : is_u64 0) by (by vm_compute). assert (Z1 : is_u32 0) by (by vm_compute). unfold LirePressionPSI, psi_ok. destruct (racine c) as [fd absolu]. cbv zeta.
  assert (Hf : forall s : string, wp (r ← lireCheminStatiqueProc N fd (if absolu then octets "/proc/pressure/" ++ octets s else octets "pressure/" ++ octets s) 512;
    match r with inr e => Done (inr e) | inl b => AnalyserFichierPSI b end) (fun o => match o with inl s => psi_borne s | inr _ => True end)).
  { intros s. unfold lireCheminStatiqueProc. apply wp_bind. eapply wp_mono; [by apply fichier_sur|]. intros [b|e] _; [apply psi_sur|done]. }
  apply wp_bind. eapply wp_mono; [apply Hf|]. intros [[[cs cf] ca]|e] H1; [|by split_and!]. destruct H1 as (A1 & A2 & A3). cbn [fst snd] in *.
  apply wp_bind. eapply wp_mono; [apply Hf|]. intros [[[s2 f2] a2]|e] H2; [|by split_and!]. destruct H2 as (B1 & B2 & B3). cbn [fst snd] in *.
  apply wp_bind. eapply wp_mono; [apply Hf|]. intros [[[s3 f3] a3]|e] H3; by split_and!.
Qed.

Lemma topologie_sure : wp (ChargerTopologieHybride N) (fun o => topologie_ok (fst (fst o)) /\
  EstHybride (fst (fst o)) = (0 <? zlen (snd (fst o))) && (0 <? zlen (snd o)) /\ forall c, ClasseDuCoeur (fst (fst o)) c = Done (classe_de (snd (fst o)) (snd o) c)).
Proof.
  unfold ChargerTopologieHybride.
  assert (Hl : forall r, wp (liste_ou_vide r) (fun _ => True)).
  { intros [b|e]; [|done]. cbn. apply wp_bind. eapply wp_mono; [apply cpus_sur|]. done. }
  apply wp_bind. eapply wp_mono; [apply Hl|]. intros p _. apply wp_bind. eapply wp_mono; [apply Hl|]. intros e _.
  destruct (topologie_exacte p e) as (t & -> & H1 & H2 & H3). by rewrite run_bind_done.
Qed.
End sur.

(** * What the kernel writes is read back *)

Section exact.
Context `{U : Unicode} (N : Noyau).

(** A file is delivered: whole, without refusal, in pieces of any size, with any
    number of interruptions. *)
Definition delivre (fd : Z) (chemin : list Z) (tampon : Z) (b : list Z) : Prop :=
  exists f, ouvrir N fd chemin = inr (f, None) /\ f_reste f = b /\ zlen b <= tampon /\ plan_ok (f_plan f) /\ forall e, L_refusee e ∉ f_plan f.
Definition absent (fd : Z) (chemin : list Z) : Prop := exists e, ouvrir N fd chemin = inl e /\ disparu (Errno e) = true.

Lemma chemin_nul fd (p : list Z) tampon : p <> [] -> 0 < tampon ->
  lireFichierProcComplet N fd (p ++ [0]) tampon =
    match ouvrir N fd (p ++ [0]) with
    | inl e => Done (inr (Errno e))
    | inr (f, fermeture) =>
        r ← lireFluxCompletFD f tampon;
        match r, fermeture with inr e, _ => Done (inr e) | inl _, Some e => Done (inr (Errno e)) | inl b, None => Done (inl b) end
    end.
Proof.
  intros Hp%zlen_pos Ht. unfold lireFichierProcComplet. rewrite zlen_app. change (zlen [0]) with 1. destruct (Z.ltb_spec (zlen p + 1) 2); [lia|].
  rewrite idx_mid, run_bind_done by lia. cbn [Z.eqb negb orb]. by destruct (Z.eqb_spec tampon 0); [lia|].
Qed.

Lemma fichier_delivre fd p tampon b : p <> [] -> 0 < tampon -> delivre fd (p ++ [0]) tampon b -> lireFichierProcComplet N fd (p ++ [0]) tampon = Done (inl b).
Proof.
  intros Hp Ht (f & Eo & <- & Hb & Hk & Hr). rewrite chemin_nul, Eo by done.
  destruct (proj1 (wp_exists _ _) (flux_lu f tampon ltac:(lia))) as (r & -> & H). rewrite run_bind_done.
  destruct r as [b|[]]; [|exfalso; lia|done..|destruct H as [H|H]; [by destruct (Hr e)|lia]]. destruct H as [_ H]. by rewrite (H Hk).
Qed.

Lemma fichier_absent fd p tampon : p <> [] -> 0 < tampon -> absent fd (p ++ [0]) ->
  exists e, lireFichierProcComplet N fd (p ++ [0]) tampon = Done (inr e) /\ disparu e = true.
Proof. intros Hp Ht (e & Eo & He). rewrite chemin_nul, Eo by done. by exists (Errno e). Qed.

(** ** Threads *)

(** A thread: gone before its schedstat is opened, gone before its status is, or alive. *)
Inductive etat_fil := Disparu | Sans_status (e a n : Z) | Vivant (e a n : Z) (ls : list (ligne cle_status)).
Record fil := Fil { f_tid : Z; f_etat : etat_fil }.

Definition chemin_fil (tid : Z) (feuille : string) : list Z := (AppendUint tid ++ octets feuille) ++ [0].
Definition fil_present (fd pid : Z) (f : fil) : Prop :=
  0 < f_tid f < 2 ^ 63 /\ f_tid f <> pid /\
  match f_etat f with
  | Disparu => absent fd (chemin_fil (f_tid f) "/schedstat")
  | Sans_status e a n => is_u64 e /\ is_u64 a /\ is_u64 n /\ delivre fd (chemin_fil (f_tid f) "/schedstat") 1024 (texte_sched e a n) /\ absent fd (chemin_fil (f_tid f) "/status")
  | Vivant e a n ls => is_u64 e /\ is_u64 a /\ is_u64 n /\ delivre fd (chemin_fil (f_tid f) "/schedstat") 1024 (texte_sched e a n) /\
      ls <> [] /\ Forall (ligne_ok texte_status) ls /\ presente Volontaires ls = true /\ presente Subies ls = true /\
      delivre fd (chemin_fil (f_tid f) "/status") 8192 (lignes (texte_ligne texte_status <$> ls))
  end.

(** What a thread adds: execution, wait, slices, voluntary and other switches. *)
Definition apport (f : fil) : Z * Z * Z * Z * Z :=
  match f_etat f with
  | Disparu => (0, 0, 0, 0, 0)
  | Sans_status e a n => (e, a, n, 0, 0)
  | Vivant e a n ls => (e, a, n, derniere Volontaires ls 0, derniere Subies ls 0)
  end.

Lemma derniere_u64 c ls d : Forall (ligne_ok texte_status) ls -> is_u64 d -> is_u64 (derniere c ls d).
Proof.
  intros Hl. revert d. unfold derniere. induction Hl as [|l ls Hk _ IH]; intros d Hd; [done|]. cbn [fold_left]. apply IH.
  destruct l as [k b v s|x]; [|done]. destruct (decide (k = c)); [|done]. apply Hk.
Qed.

Definition apport_ok (a : Z * Z * Z * Z * Z) : Prop := let '(e, w, n, v, s) := a in is_u64 e /\ is_u64 w /\ is_u64 n /\ is_u64 v /\ is_u64 s.
Lemma apport_present fd pid f : fil_present fd pid f -> apport_ok (apport f).
Proof.
  assert (Z0 : is_u64 0) by (by vm_compute). intros (_ & _ & H). unfold apport. destruct (f_etat f); cbn; [by split_and!|destruct H as (? & ? & ? & _); by split_and!|].
  destruct H as (? & ? & ? & _ & _ & Hl & _). split_and!; try done; by apply derniere_u64.
Qed.

(** The five counters of a process, and the sum over its threads. *)
Definition cumuls (t : InstantaneTache) : Z * Z * Z * Z * Z :=
  (T_TempsExecutionNs t, T_AttenteFileNs t, T_TranchesOrdonnanceur t, T_CommutationsVolontaires t, T_CommutationsSubies t).
Definition avec_cumuls (c : Z * Z * Z * Z * Z) (t : InstantaneTache) : InstantaneTache :=
  let '(e, a, n, v, s) := c in avec_status (T_VmHWMKio t) (T_VmRSSKio t) (T_NombreFils t) v s (avec_sched e a n t).
Definition plus5 (f : Z -> Z -> Z) (x y : Z * Z * Z * Z * Z) : Z * Z * Z * Z * Z :=
  let '(a, b, c, d, e) := x in let '(a', b', c', d', e') := y in (f a a', f b b', f c c', f d d', f e e').

Lemma fil_lu fd pid f t : fil_present fd pid f -> apport_ok (cumuls t) ->
  fil_secondaire N fd pid (AppendUint (f_tid f)) t = Done (inl (avec_cumuls (plus5 sature (cumuls t) (apport f)) t)).
Proof.
  intros Hf Ht. pose proof (apport_present fd pid f Hf) as Ha. destruct Hf as (Htid & Hne & Hf).
  assert (Hu : is_u64 (f_tid f)) by (unfold is_u64; lia). destruct (AppendUint_ok _ Hu) as (Hn & Hc & _).
  unfold fil_secondaire. destruct (AppendUint (f_tid f)) as [|c w] eqn:Ew; [done|]. rewrite (idx_lookup _ 0 c), run_bind_done by done.
  cbn [forallb] in Hc. apply andb_true_iff in Hc as [Hc _]. unfold chiffre in Hc. zbool. rewrite (proj2 (Z.ltb_ge c 48)), (proj2 (Z.ltb_ge 57 c)) by lia. cbn [orb].
  rewrite <- Ew, parserUintDecimal_AppendUint by done. rewrite (i64_id (f_tid f)) by (unfold is_i64; lia).
  rewrite (proj2 (Z.eqb_neq (f_tid f) 0)), (proj2 (Z.eqb_neq (f_tid f) pid)) by lia. cbn [orb].
  assert (Hp : forall s, AppendUint (f_tid f) ++ octets s <> []) by (intros s; by rewrite Ew). rewrite !(app_assoc (AppendUint (f_tid f))).
  assert (Hz : forall x, is_u64 x -> sature x 0 = x) by (unfold is_u64, sature, MaxUint64; intros; lia).
  unfold cumuls in *. destruct Ht as (T1 & T2 & T3 & T4 & T5).
  unfold apport in *. destruct (f_etat f) as [|e a n|e a n ls].
  - destruct (fichier_absent fd _ 1024 (Hp "/schedstat"%string) ltac:(lia) Hf) as (x & -> & Hx). rewrite run_bind_done, Hx. cbn [plus5 avec_cumuls]. rewrite !Hz by done. by destruct t.
  - destruct Hf as (He & Hw & Hs & Hd & Hab). rewrite (fichier_delivre fd _ 1024 _ (Hp "/schedstat"%string) ltac:(lia) Hd), run_bind_done.
    rewrite sched_ok_lu, run_bind_done by done. destruct (fichier_absent fd _ 8192 (Hp "/status"%string) ltac:(lia) Hab) as (x & -> & Hx). rewrite run_bind_done, Hx.
    unfold ajouter_fil. cbn [plus5 avec_cumuls avec_sched tache_zero T_TempsExecutionNs T_AttenteFileNs T_TranchesOrdonnanceur T_CommutationsVolontaires T_CommutationsSubies].
    by rewrite !additionner_proc.
  - destruct Hf as (He & Hw & Hs & Hd & Hnl & Hl & Pv & Ps & Hd2). rewrite (fichier_delivre fd _ 1024 _ (Hp "/schedstat"%string) ltac:(lia) Hd), run_bind_done.
    rewrite sched_ok_lu, run_bind_done by done. rewrite (fichier_delivre fd _ 8192 _ (Hp "/status"%string) ltac:(lia) Hd2), run_bind_done.
    rewrite status_ok_lu, fold_status, Pv, Ps, run_bind_done by done. destruct Ha as (A1 & A2 & A3 & A4 & A5).
    unfold ajouter_fil. cbn [plus5 avec_cumuls avec_sched avec_status tache_zero T_TempsExecutionNs T_AttenteFileNs T_TranchesOrdonnanceur T_CommutationsVolontaires T_CommutationsSubies] in *.
    by rewrite !additionner_proc.
Qed.

(** ** The directory of the threads *)

(** An entry: sixteen octets, its length, its type, its name. *)
Record entree := Entree { en_tete : list Z; en_type : Z; en_nom : list Z; en_bourrage : list Z }.
Definition reclen (e : entree) : Z := 20 + zlen (en_nom e) + zlen (en_bourrage e).
Definition octets_entree (e : entree) : list Z :=
  en_tete e ++ [reclen e mod 256; reclen e / 256; en_type e] ++ en_nom e ++ 0 :: en_bourrage e.
Definition entree_ok (e : entree) : Prop := zlen (en_tete e) = 16 /\ reclen e < 65536 /\ en_nom e <> [] /\ 0 ∉ en_nom e.

Lemma zlen_entree e : entree_ok e -> zlen (octets_entree e) = reclen e.
Proof.
  intros (Ht & _). unfold octets_entree. rewrite !zlen_app. change (zlen [reclen e mod 256; reclen e / 256; en_type e]) with 3. rewrite zlen_cons, Ht. unfold reclen. lia.
Qed.

Fixpoint fils_lus (fd pid : Z) (noms : list (list Z)) (t : InstantaneTache) : run (InstantaneTache * option erreur_proc) :=
  match noms with
  | [] => Done (t, None)
  | nom :: noms => o ← fil_secondaire N fd pid nom t; match o with inl t => fils_lus fd pid noms t | inr e => Done (t, Some e) end
  end.

Lemma fils_lus_app fd pid a b t : fils_lus fd pid (a ++ b) t = ('(t, e) ← fils_lus fd pid a t; match e with None => fils_lus fd pid b t | Some e => Done (t, Some e) end).
Proof.
  revert t. induction a as [|x a IH]; intros t; [done|]. cbn [app fils_lus]. destruct (fil_secondaire N fd pid x t) as [[u|e]| |]; [|done..].
  rewrite !run_bind_done. apply IH.
Qed.

Lemma lor_octets lo hi : 0 <= lo < 256 -> 0 <= hi < 256 -> Z.lor lo (u16 (Z.shiftl hi 8)) = lo + hi * 256.
Proof.
  intros Hl Hh. rewrite Z.shiftl_mul_pow2 by lia. change (2 ^ 8) with 256. rewrite u16_id by (unfold is_u16; lia).
  rewrite <- Z.lxor_lor, <- Z.add_nocarry_lxor; [done| |]; apply Z.bits_inj'; intros i Hi; rewrite Z.land_spec, Z.bits_0; change 256 with (2 ^ 8);
    (destruct (Z.ltb_spec i 8); [rewrite Z.mul_pow2_bits_low by lia; apply andb_false_r|rewrite (bits_above lo 8) by lia; done]).
Qed.

Lemma entrees_lues fd pid es : forall pre t fuel b, b = pre ++ concat (octets_entree <$> es) -> Forall entree_ok es -> (length es < fuel)%nat ->
  loop (tour_entrees N fd pid b) fuel (zlen pre, t) = fils_lus fd pid (en_nom <$> es) t.
Proof.
  induction es as [|e es IH]; intros pre t [|fuel] b Hb He Hf; cbn [length] in Hf; try lia; rewrite loop_unfold; cbn [tour_entrees fmap list_fmap fils_lus].
  - cbn [fmap list_fmap concat] in Hb. rewrite app_nil_r in Hb. subst b. by destruct (Z.ltb_spec (zlen pre) (zlen pre + 19)); [|lia].
  - apply Forall_cons in He as [He Hes]. pose proof (zlen_entree e He) as Hz. destruct He as (Ht & Hr & Hn & H0).
    cbn [fmap list_fmap concat] in Hb. set (reste := concat (octets_entree <$> es)) in *. pose proof (zlen_nonneg reste). pose proof (zlen_nonneg (en_nom e)). pose proof (zlen_nonneg (en_bourrage e)).
    assert (Hzb : zlen b = zlen pre + (reclen e + zlen reste)) by (by rewrite Hb, !zlen_app, Hz).
    assert (Hrr : 20 <= reclen e) by (unfold reclen; lia).
    destruct (Z.ltb_spec (zlen b) (zlen pre + 19)); [lia|].
    assert (X1 : idx b (zlen pre + 16) = Done (reclen e mod 256)).
    { rewrite Hb. unfold octets_entree. rewrite <- !app_assoc, (app_assoc pre). apply idx_mid. by rewrite zlen_app, Ht. }
    assert (X2 : idx b (zlen pre + 17) = Done (reclen e / 256)).
    { rewrite Hb. unfold octets_entree. rewrite <- !app_assoc, (app_assoc pre). change ([reclen e mod 256; reclen e / 256; en_type e] ++ ?x) with ([reclen e mod 256] ++ (reclen e / 256) :: en_type e :: x).
      rewrite (app_assoc (pre ++ en_tete e)). apply idx_mid. rewrite !zlen_app, Ht. change (zlen [reclen e mod 256]) with 1. lia. }
    rewrite X1, run_bind_done, X2, run_bind_done. cbv zeta. rewrite lor_octets by (split; [divlia|divlia]).
    replace (reclen e mod 256 + reclen e / 256 * 256) with (reclen e) by divlia.
    destruct (Z.ltb_spec (reclen e) 19), (Z.ltb_spec (zlen b) (zlen pre + reclen e)); try lia. cbn [orb].
    assert (S1 : slice b (zlen pre + 19) (zlen pre + reclen e) = Done (en_nom e ++ 0 :: en_bourrage e)).
    { rewrite Hb. unfold octets_entree. rewrite <- !app_assoc. set (c := [_; _; _]).
      replace (pre ++ en_tete e ++ c ++ en_nom e ++ (0 :: en_bourrage e) ++ reste) with ((pre ++ en_tete e ++ c) ++ (en_nom e ++ 0 :: en_bourrage e) ++ reste) by (by rewrite <- !app_assoc).
      apply slice_milieu; rewrite !zlen_app; [rewrite Ht; change (zlen c) with 3; lia|]. rewrite zlen_cons. unfold reclen. lia. }
    rewrite S1, run_bind_done, IndexByte_spec by done. apply zlen_pos in Hn as Hn'. destruct (Z.leb_spec (zlen (en_nom e)) 0); [lia|].
    rewrite slice_debut, run_bind_done by done. destruct (fil_secondaire N fd pid (en_nom e) t) as [[u|x]| |]; [|done..]. rewrite !run_bind_done.
    replace (zlen pre + reclen e) with (zlen (pre ++ octets_entree e)) by (by rewrite zlen_app, Hz). apply IH; [by rewrite <- app_assoc|done|lia].
Qed.

(** The reads of a directory: interrupted at will, cut between entries, then the end. *)
Inductive rep_de : list entrees -> list entree -> Prop :=
  | rep_fini : rep_de [] []
  | rep_vide l : rep_de (E_octets [] :: l) []
  | rep_interrompu l es : rep_de l es -> rep_de (E_errno EINTR :: l) es
  | rep_lu bs l es : bs <> [] -> rep_de l es -> rep_de (E_octets (concat (octets_entree <$> bs)) :: l) (bs ++ es).

Lemma rep_lue fd pid l es t : rep_de l es -> Forall entree_ok es -> boucle_rep N fd pid l t = fils_lus fd pid (en_nom <$> es) t.
Proof.
  intros Hl. revert t. induction Hl as [|l|l es _ IH|bs l es Hb _ IH]; intros t He; [done|done|by apply IH|].
  apply Forall_app in He as [Hbs Hes]. cbn [boucle_rep].
  assert (Hz : 0 < zlen (concat (octets_entree <$> bs)) /\ (length bs <= length (concat (octets_entree <$> bs)))%nat).
  { assert (length bs <= length (concat (octets_entree <$> bs)))%nat as Hle.
    { clear Hb. induction Hbs as [|e bs Hok _ IHb]; [done|]. cbn. rewrite length_app. pose proof (zlen_entree e Hok). unfold reclen in *.
      pose proof (zlen_nonneg (en_nom e)). pose proof (zlen_nonneg (en_bourrage e)). unfold zlen in *. lia. }
    split; [|done]. destruct bs; [done|]. unfold zlen. cbn [length] in Hle. lia. }
  destruct (Z.eqb_spec (zlen (concat (octets_entree <$> bs))) 0); [lia|].
  change 0 with (zlen (@nil Z)). rewrite (entrees_lues fd pid bs [] t _ _ eq_refl Hbs) by lia. rewrite fmap_app, fils_lus_app.
  destruct (fils_lus fd pid (en_nom <$> bs) t) as [[u [e|]]| |]; [done| |done..]. rewrite !run_bind_done. by apply IH.
Qed.

(** An entry is a thread, or the leader, or not a number. *)
Definition entree_de (fd pid : Z) (e : entree) (f : option fil) : Prop :=
  entree_ok e /\
  match f with
  | Some f => en_nom e = AppendUint (f_tid f) /\ fil_present fd pid f
  | None => en_nom e = AppendUint pid \/ exists c r, en_nom e = c :: r /\ chiffre c = false
  end.

Lemma autre_entree fd pid e t : entree_de fd pid e None -> 0 < pid < 2 ^ 63 -> fil_secondaire N fd pid (en_nom e) t = Done (inl t).
Proof.
  intros [_ [->|(c & r & -> & Hc)]] Hp; unfold fil_secondaire.
  - assert (Hu : is_u64 pid) by (unfold is_u64; lia). destruct (AppendUint_ok _ Hu) as (Hn & Hc & _).
    destruct (AppendUint pid) as [|c w] eqn:Ew; [done|]. rewrite (idx_lookup _ 0 c), run_bind_done by done.
    destruct ((c <? 48) || (57 <? c)); [done|]. rewrite <- Ew, parserUintDecimal_AppendUint by done. rewrite i64_id by (unfold is_i64; lia).
    by rewrite Z.eqb_refl, orb_true_r.
  - rewrite (idx_lookup _ 0 c), run_bind_done by done. unfold chiffre in Hc. assert ((c <? 48) || (57 <? c) = true) as ->; [|done].
    apply andb_false_iff in Hc as [Hc|Hc]; zbool; apply orb_true_iff; [left|right]; by apply Z.ltb_lt.
Qed.

Definition somme5 (fs : list fil) : Z * Z * Z * Z * Z := foldr (fun f x => plus5 Z.add (apport f) x) (0, 0, 0, 0, 0) fs.
Definition borner5 (x : Z * Z * Z * Z * Z) : Z * Z * Z * Z * Z := let '(a, b, c, d, e) := x in (Z.min MaxUint64 a, Z.min MaxUint64 b, Z.min MaxUint64 c, Z.min MaxUint64 d, Z.min MaxUint64 e).

Lemma avec_cumuls_cumuls c t : cumuls (avec_cumuls c t) = c.
Proof. by destruct c as [[[[e a] n] v] s]. Qed.
Lemma avec_cumuls_deux c d t : avec_cumuls c (avec_cumuls d t) = avec_cumuls c t.
Proof. by destruct c as [[[[e a] n] v] s], d as [[[[e' a'] n'] v'] s']. Qed.

Ltac quintuplet := f_equal; [f_equal; [f_equal; [f_equal|]|]|].

Lemma somme5_pos fd pid efs : Forall (fun ef => entree_de fd pid (fst ef) (snd ef)) efs ->
  let '(a, b, c, d, x) := somme5 (omap snd efs) in 0 <= a /\ 0 <= b /\ 0 <= c /\ 0 <= d /\ 0 <= x.
Proof.
  induction 1 as [|[e [f|]] efs H _ IH]; [cbn; lia| |exact IH].
  change (omap snd ((e, Some f) :: efs)) with (f :: omap snd efs). cbn [somme5 foldr]. fold (somme5 (omap snd efs)). destruct H as [_ [_ Hf]].
  pose proof (apport_present fd pid f Hf) as Ha. destruct (somme5 (omap snd efs)) as [[[[a b] c] d] x], (apport f) as [[[[a2 b2] c2] d2] x2].
  unfold apport_ok, is_u64 in Ha. cbn [plus5]. lia.
Qed.

Lemma fils_sommes fd pid efs t : 0 < pid < 2 ^ 63 -> Forall (fun ef => entree_de fd pid (fst ef) (snd ef)) efs -> apport_ok (cumuls t) ->
  fils_lus fd pid (en_nom <$> (fst <$> efs)) t = Done (avec_cumuls (borner5 (plus5 Z.add (cumuls t) (somme5 (omap snd efs)))) t, None).
Proof.
  intros Hp He. revert t. induction He as [|[e f] efs H He IH]; intros t Ht.
  - cbn [fmap list_fmap fils_lus omap list_omap somme5 foldr]. do 2 f_equal.
    assert (borner5 (plus5 Z.add (cumuls t) (0, 0, 0, 0, 0)) = cumuls t) as ->; [|by destruct t].
    destruct (cumuls t) as [[[[a b] c] d] x]. unfold apport_ok, is_u64 in Ht. cbn [plus5 borner5]. unfold MaxUint64. quintuplet; lia.
  - cbn [fmap list_fmap fst fils_lus] in *. destruct f as [f|]; cbn [snd] in H.
    + destruct H as [_ [-> Hf]]. pose proof (apport_present fd pid f Hf) as Ha. rewrite (fil_lu fd pid f t Hf Ht), run_bind_done.
      change (omap snd ((e, Some f) :: efs)) with (f :: omap snd efs). cbn [somme5 foldr]. fold (somme5 (omap snd efs)).
      assert (Hpos : let '(a, b, c, d, x) := somme5 (omap snd efs) in 0 <= a /\ 0 <= b /\ 0 <= c /\ 0 <= d /\ 0 <= x).
      { by apply (somme5_pos fd pid efs). }
      rewrite IH.
      * rewrite avec_cumuls_cumuls, avec_cumuls_deux. do 3 f_equal. destruct (somme5 (omap snd efs)) as [[[[a b] c] d] x].
        destruct (cumuls t) as [[[[a1 b1] c1] d1] x1], (apport f) as [[[[a2 b2] c2] d2] x2]. cbn [plus5 borner5]. unfold apport_ok, is_u64 in *. unfold sature, MaxUint64. destruct_and!.
        quintuplet; lia.
      * rewrite avec_cumuls_cumuls. destruct (cumuls t) as [[[[a1 b1] c1] d1] x1], (apport f) as [[[[a2 b2] c2] d2] x2]. cbn [plus5]. unfold apport_ok in *.
        destruct_and!. split_and!; by apply sature_range.
    + rewrite (autre_entree fd pid e t H Hp), run_bind_done. by apply IH.
Qed.
End exact.

(** * The readings of a process *)

(** A process as the kernel shows it: its name is the one it has given itself. *)
Record processus := Processus {
  p_pid : Z; p_nom : list Z; p_stat : stat; p_sched : Z * Z * Z; p_status : list (ligne cle_status); p_io : list (ligne cle_io); p_fils : list (entree * option fil)
}.
Definition nombre_fils (P : processus) : Z := u32 (derniere Threads (p_status P) (s_fils (p_stat P))).

Section processus.
Context `{U : Unicode} (N : Noyau).

Definition present (c : option Z) (P : processus) : Prop :=
  let '(e, a, n) := p_sched P in
  let fd := fst (racine c) in
  0 < p_pid P < 2 ^ 63 /\ stat_ok (p_stat P) /\ is_u64 e /\ is_u64 a /\ is_u64 n /\
  p_status P <> [] /\ Forall (ligne_ok texte_status) (p_status P) /\ presente Volontaires (p_status P) = true /\ presente Subies (p_status P) = true /\
  p_io P <> [] /\ Forall (ligne_ok texte_io) (p_io P) /\ (forall k, k <> Annules -> presente k (p_io P) = true) /\
  delivre N fd (chemin c (p_pid P) 0 "stat") 1024 (texte_stat (p_pid P) (p_nom P) (p_stat P)) /\
  delivre N fd (chemin c (p_pid P) 0 "schedstat") 1024 (texte_sched e a n) /\
  delivre N fd (chemin c (p_pid P) 0 "status") 8192 (lignes (texte_ligne texte_status <$> p_status P)) /\
  delivre N fd (chemin c (p_pid P) 0 "io") 1024 (lignes (texte_ligne texte_io <$> p_io P)) /\
  (1 < nombre_fils P -> exists fdTask l,
     ouvrir_rep N fd ((if snd (racine c) then octets "/proc/" else []) ++ AppendInt (p_pid P) ++ octets "/task" ++ [0]) = inr (fdTask, l, None) /\
     rep_de l (fst <$> p_fils P) /\ Forall (fun ef => entree_de N fdTask (p_pid P) (fst ef) (snd ef)) (p_fils P)).

(** The reading that says all of it: the five counters of the leader, plus those of
    the other threads when there are any. *)
Definition tache_de (P : processus) (h : Z) : InstantaneTache :=
  let '(e, a, n) := p_sched P in
  let s := p_stat P in let st := p_status P in let io := p_io P in
  let leader := (e, a, n, derniere Volontaires st 0, derniere Subies st 0) in
  let '(execution, attente, tranches, volontaires, subies) := if 1 <? nombre_fils P then borner5 (plus5 Z.add leader (somme5 (omap snd (p_fils P)))) else leader in
  Tache (p_pid P) (p_pid P) h (s_debut s) (s_utime s) (s_stime s) (s_minflt s) (s_majflt s) (nombre_fils P) (s_coeur s)
    (derniere VmHWM st 0) (derniere VmRSS st 0) volontaires subies execution attente tranches
    (derniere Rchar io 0) (derniere Wchar io 0) (derniere Syscr io 0) (derniere Syscw io 0) (derniere Lus io 0) (derniere Ecrits io 0) (derniere Annules io 0).

Lemma chemin_fini c pid tid f : exists p, chemin c pid tid f = p ++ [0] /\ p <> [].
Proof.
  unfold chemin, formaterCheminProc. exists ((if snd (racine c) then octets "/proc/" else []) ++ AppendInt pid ++ (if 0 <? tid then octets "/task/" ++ AppendInt tid else []) ++ [47] ++ octets f).
  split; [by rewrite <- !app_assoc|]. intros H. apply app_eq_nil in H as [_ H]. apply app_eq_nil in H as [_ H]. by apply app_eq_nil in H as [_ H].
Qed.

Lemma etape_lue c pid f tampon b analyser t u k : 0 < tampon -> delivre N (fst (racine c)) (chemin c pid 0 f) tampon b -> analyser b t = Done (u, None) ->
  puis (lire_analyser N (fst (racine c)) (chemin c pid 0 f) tampon analyser t) k = k u.
Proof.
  intros Ht Hd Ha. destruct (chemin_fini c pid 0 f) as (p & E & Hp). rewrite E in *. unfold puis, lire_analyser.
  by rewrite (fichier_delivre N _ p tampon b) , run_bind_done, Ha, run_bind_done.
Qed.
End processus.

(** C18: what the kernel writes for a process is read back exactly, all its threads
    summed (each counter stopped at 2^64 - 1), whatever name the process has given
    itself (parentheses, spaces, digits, line feeds), in whatever pieces the reads
    and the directory come, with whatever interruptions, whatever the order of the
    lines of status and io and the other lines among them, and although threads
    disappear meanwhile. *)
Theorem capture_exacte `{U : Unicode} N c P h : present N c P -> is_i64 h ->
  LireInstantaneProcessus N c (p_pid P) h = Done (tache_de P h, None).
Proof.
  unfold present, tache_de. destruct (p_sched P) as [[e a] n].
  intros (Hp & Hs & He & Ha & Hn & Nst & Lst & Pv & Ps & Nio & Lio & Pio & Dstat & Dsched & Dstatus & Dio & Hfils) Hh.
  unfold LireInstantaneProcessus, lireCible. rewrite (proj2 (Z.leb_gt (p_pid P) 0)) by lia. cbn [orb Z.ltb Z.compare].
  assert (Hpid : is_u64 (p_pid P)) by (unfold is_u64; lia). assert (H32 : u32 (s_fils (p_stat P)) = s_fils (p_stat P)) by (apply u32_id, Hs).
  unfold chemin in *. rewrite (surjective_pairing (racine c)). fold (chemin c (p_pid P) 0 "stat") (chemin c (p_pid P) 0 "schedstat") (chemin c (p_pid P) 0 "status") (chemin c (p_pid P) 0 "io") in *.
  erewrite etape_lue; [|lia|exact Dstat|apply stat_ok_lu; (done || lia)]. erewrite etape_lue; [|lia|exact Dsched|by apply sched_ok_lu].
  erewrite etape_lue; [|lia|exact Dstatus|rewrite status_ok_lu, fold_status, Pv, Ps by done; reflexivity].
  erewrite etape_lue; [|lia|exact Dio|rewrite io_ok_lu, fold_io, (bits_io_ok _ Pio) by done; reflexivity].
  cbn -[u32 derniere racine agregerFilsSecondairesProcessus Z.ltb]. fold (nombre_fils P).
  change (0 =? 0) with true. cbn [andb].
  destruct (Z.ltb_spec 1 (nombre_fils P)) as [Hf|Hf]; [|done].
  destruct (Hfils Hf) as (fdTask & l & Eo & Hr & Hen). unfold agregerFilsSecondairesProcessus. rewrite Eo.
  rewrite (rep_lue N fdTask (p_pid P) l _ _ Hr) by (apply Forall_fmap; eapply Forall_impl; [exact Hen|]; by intros [x f] [H _]).
  assert (Z0 : is_u64 0) by (by vm_compute).
  rewrite (fils_sommes N fdTask (p_pid P)), run_bind_done by (try done; cbn -[derniere]; split_and!; (done || by apply derniere_u64)).
  cbn -[u32 derniere plus5 borner5 somme5 omap nombre_fils]. by destruct (borner5 _) as [[[[x1 x2] x3] x4] x5].
Qed.

(** One episode from the kernel: two readings of a target, two of the pressures, the
    topology, and the evaluation. *)
Definition episode_lu `{U : Unicode} (N1 N2 Nt : Noyau) (c : option Z) (pid tid h1 h2 : Z) (reseau : CompteursReseauEpisode) (cfg : ConfigPlanchersCinetiques)
  : run ((InstantaneTache * option erreur_proc) * (InstantaneTache * option erreur_proc) * (erreur_episode + QuotientsEpisode)) :=
  '(debut, e1) ← lireCible N1 c pid tid h1;
  '(psiDebut, _) ← LirePressionPSI N1 c h1;
  '(fin, e2) ← lireCible N2 c pid tid h2;
  '(psiFin, _) ← LirePressionPSI N2 c h2;
  '(topologie, _, _) ← ChargerTopologieHybride Nt;
  r ← EvaluerEpisodeCinetique debut fin psiDebut psiFin reseau topologie cfg;
  Done ((debut, e1), (fin, e2), r).

(** C20: from the sensor to the quotients, whatever the kernel gives (errors, texts of
    any content, reads of any size, directories of any octets): no run-time failure
    and no endless loop; a reading without error is of the target asked, at the time
    given, from four files each read whole (or cut by the kernel itself to nothing);
    and the episode of two readings is refused for the stated reasons or has its
    twelve quotients in range. *)
Theorem capture_sure `{U : Unicode} N1 N2 Nt c pid tid h1 h2 reseau cfg : is_i64 h1 -> is_i64 h2 -> reseau_ok reseau ->
  wp (episode_lu N1 N2 Nt c pid tid h1 h2 reseau cfg) (fun '((debut, e1), (fin, e2), r) =>
    (e1 = None -> 0 < pid /\ T_PID debut = pid /\ T_TID debut = (if 0 <? tid then tid else pid) /\ T_HorodatageNs debut = h1 /\
       Forall (fun '(f, n) => exists b, integral N1 (fst (racine c)) (chemin c pid tid f) n b) [("stat", 1024); ("schedstat", 1024); ("status", 8192); ("io", 1024)]%string) /\
    match r with
    | inl e => refus debut fin = Some e
    | inr q => refus debut fin = None /\ forall i, 0 <= i < 12 -> 0 <= Valeur q i <= MaxInt64
    end).
Proof.
  intros Hh1 Hh2 Hr. unfold episode_lu.
  apply wp_bind. eapply wp_mono; [by apply lireCible_sure|]. intros [d e1] [Td Hd]. cbn [fst snd] in *.
  apply wp_bind. eapply wp_mono; [by apply pression_sure|]. intros [pd e3] [Tpd _]. cbn [fst snd] in *.
  apply wp_bind. eapply wp_mono; [by apply lireCible_sure|]. intros [f e2] [Tf _]. cbn [fst snd] in *.
  apply wp_bind. eapply wp_mono; [by apply pression_sure|]. intros [pf e4] [Tpf _]. cbn [fst snd] in *.
  apply wp_bind. eapply wp_mono; [apply topologie_sure|]. intros [[topo p] e] [Ht _]. cbn [fst snd] in *. apply wp_bind.
  assert (Hd' : e1 = None -> 0 < pid /\ T_PID d = pid /\ T_TID d = (if 0 <? tid then tid else pid) /\ T_HorodatageNs d = h1 /\
     Forall (fun '(f, n) => exists b, integral N1 (fst (racine c)) (chemin c pid tid f) n b) [("stat", 1024); ("schedstat", 1024); ("status", 8192); ("io", 1024)]%string)
    by (intros He; destruct (Hd He) as (? & ? & ? & ? & ? & ?); by split_and!).
  destruct (refus d f) as [x|] eqn:Href.
  - unfold EvaluerEpisodeCinetique. assert (HR := Href). unfold refus in Href. repeat (case_match; [simplify_eq; apply wp_done, wp_done; by split|]). done.
  - assert (compteursMonotones d f = true) as Hm by (unfold refus in Href; repeat (case_match; [done|]); by apply negb_false_iff).
    eapply wp_mono; [by apply evaluer_ok|]. intros res (q & -> & Hp & _). apply wp_done. split; [done|]. split; [done|]. intros i Hi.
    destruct (pose_valide q _ i Hp Hi) as [_ ->]. pose proof (mesure_range d f reseau cfg i Td Tf Hr Hm Hi) as H.
    destruct ((i =? 1) || (i =? 7) || (i =? 10)); unfold MaxInt64 in *; lia.
Qed.

(** ** A process that calls itself like the end of its own line *)

Definition nom_hostile : list Z := octets ") R 1 (x) 9 9".
Definition mot (s : string) : list Z := octets s.
Definition stat_exemple : stat :=
  Stat 11 22 33 44 2 55 3 (replicate 7 (mot "0")) (mot "0") (mot "0") (replicate 4 (mot "-1")) (mot "0") (replicate 16 (mot "0")) [mot "0"].
Definition status_exemple (v s : Z) : list (ligne cle_status) :=
  [Autre (octets "Name:" ++ nom_hostile); Champ VmHWM [9] 900 (octets " kB"); Champ VmRSS [9] 800 (octets " kB"); Champ Threads [9] 2 [];
   Champ Volontaires [9] v []; Champ Subies [9] s []].
Definition io_exemple : list (ligne cle_io) :=
  [Champ Rchar [32] 1 []; Champ Wchar [32] 2 []; Champ Syscr [32] 3 []; Champ Syscw [32] 4 []; Champ Lus [32] 5 []; Champ Ecrits [32] 6 []; Champ Annules [32] 7 []].
Definition fils_exemple : list (entree * option fil) :=
  [(Entree (replicate 16 0) 4 [46] [0; 0; 0], None); (Entree (replicate 16 0) 4 (AppendUint 42) [], None);
   (Entree (replicate 16 0) 4 (AppendUint 43) [], Some (Fil 43 (Vivant 7 8 9 (status_exemple 5 6))));
   (Entree (replicate 16 0) 4 (AppendUint 44) [0], Some (Fil 44 Disparu))].
Definition processus_exemple : processus := Processus 42 nom_hostile stat_exemple (100, 200, 300) (status_exemple 10 20) io_exemple fils_exemple.

Definition noyau_exemple : Noyau := {|
  ouvrir := fun fd p =>
    let servir b := inr (Flux b [L_octets 5; L_interrompue; L_octets 1], None) in
    if bool_decide (p = chemin (Some 7) 42 0 "stat") then servir (texte_stat 42 nom_hostile stat_exemple) else
    if bool_decide (p = chemin (Some 7) 42 0 "schedstat") then servir (texte_sched 100 200 300) else
    if bool_decide (p = chemin (Some 7) 42 0 "status") then servir (lignes (texte_ligne texte_status <$> status_exemple 10 20)) else
    if bool_decide (p = chemin (Some 7) 42 0 "io") then servir (lignes (texte_ligne texte_io <$> io_exemple)) else
    if bool_decide (p = chemin_fil 43 "/schedstat") then servir (texte_sched 7 8 9) else
    if bool_decide (p = chemin_fil 43 "/status") then servir (lignes (texte_ligne texte_status <$> status_exemple 5 6)) else
    inl ENOENT;
  ouvrir_rep := fun fd p => inr (8, [E_errno EINTR; E_octets (concat (octets_entree <$> (fst <$> take 3 fils_exemple))); E_octets (concat (octets_entree <$> (fst <$> drop 3 fils_exemple)))], None)
|}.

Lemma ligne_exemple {K} (cle : K -> list Z) k b v s : blancs b = true -> is_u64 v -> forallb (fun c => negb (chiffre c) && negb (c =? 10)) s = true -> ligne_ok cle (Champ k b v s).
Proof.
  intros Hb Hv Hs. split_and!; try done.
  - intros Hin. rewrite forallb_forall in Hs. apply list_elem_of_In in Hin. by specialize (Hs _ Hin).
  - destruct s as [|c s]; [done|]. cbn in Hs. by destruct (negb (chiffre c)).
Qed.

Lemma status_exemple_ok v s : is_u64 v -> is_u64 s -> Forall (ligne_ok texte_status) (status_exemple v s).
Proof.
  intros Hv Hs. assert (forall z, is_u64 z <-> 0 <= z < 2 ^ 64) by done. constructor; [split; [absent|by intros []]|].
  repeat (constructor; [apply ligne_exemple; (done || (unfold is_u64; lia))|]). constructor.
Qed.

#[local] Instance mot_ok_dec w : Decision (mot_ok w).
Proof. unfold mot_ok. apply _. Defined.

Lemma servi fd p n b : ouvrir noyau_exemple fd p = inr (Flux b [L_octets 5; L_interrompue; L_octets 1], None) -> zlen b <=? n = true -> delivre noyau_exemple fd p n b.
Proof.
  intros Ho Hn. apply Z.leb_le in Hn. exists (Flux b [L_octets 5; L_interrompue; L_octets 1]). cbn [f_reste f_plan]. split; [exact Ho|]. split; [reflexivity|]. split; [exact Hn|].
  split; [repeat constructor; lia|]. intros e He. repeat (apply elem_of_cons in He as [He|He]; [discriminate He|]). by apply not_elem_of_nil in He.
Qed.
Ltac servi := apply servi; [vm_compute; reflexivity|vm_compute; reflexivity].

Lemma stat_exemple_ok : stat_ok stat_exemple.
Proof.
  unfold stat_ok, is_u64, is_u32. cbn [s_minflt s_majflt s_utime s_stime s_fils s_debut s_coeur stat_exemple]. split_and!; try lia; try (vm_compute; reflexivity).
  apply (bool_decide_eq_true_1 (Forall mot_ok _)). vm_compute. reflexivity.
Qed.

Lemma io_exemple_ok : Forall (ligne_ok texte_io) io_exemple.
Proof. unfold io_exemple. repeat (constructor; [apply ligne_exemple; [reflexivity|unfold is_u64; lia|reflexivity]|]). constructor. Qed.

Lemma fils_exemple_ok : Forall (fun ef => entree_de noyau_exemple 8 42 (fst ef) (snd ef)) fils_exemple.
Proof.
  assert (He : forall e, (zlen (en_tete e) =? 16) && (reclen e <? 65536) && bool_decide (en_nom e <> [] /\ 0 ∉ en_nom e) = true -> entree_ok e).
  { intros e H. unfold entree_ok. apply andb_true_iff in H as [H H3%bool_decide_eq_true_1]. apply andb_true_iff in H as [H1 H2]. zbool. destruct H3. by split_and!. }
  assert (Hu : forall z, 0 <= z < 1000 -> is_u64 z) by (unfold is_u64; lia).
  unfold fils_exemple. constructor; [|constructor; [|constructor; [|constructor; [|constructor]]]]; (split; [apply He; vm_compute; reflexivity|]); cbn [fst snd].
  - right. exists 46, []. split; vm_compute; reflexivity.
  - left. reflexivity.
  - split; [reflexivity|]. split; [cbn [f_tid]; lia|]. split; [cbn [f_tid]; lia|]. cbn [f_etat f_tid]. split; [apply Hu; lia|]. split; [apply Hu; lia|]. split; [apply Hu; lia|].
    split; [servi|]. split; [discriminate|]. split; [apply status_exemple_ok; apply Hu; lia|]. split; [vm_compute; reflexivity|]. split; [vm_compute; reflexivity|]. servi.
  - split; [reflexivity|]. split; [cbn [f_tid]; lia|]. split; [cbn [f_tid]; lia|]. cbn [f_etat f_tid]. exists ENOENT. split; vm_compute; reflexivity.
Qed.

Lemma present_exemple : present noyau_exemple (Some 7) processus_exemple.
Proof.
  assert (Hu : forall z, 0 <= z < 1000 -> is_u64 z) by (unfold is_u64; lia).
  unfold present. cbn [p_sched processus_exemple p_pid p_stat p_status p_io p_fils p_nom].
  split; [lia|]. split; [apply stat_exemple_ok|]. split; [apply Hu; lia|]. split; [apply Hu; lia|]. split; [apply Hu; lia|]. split; [discriminate|].
  split; [apply status_exemple_ok; apply Hu; lia|]. split; [vm_compute; reflexivity|]. split; [vm_compute; reflexivity|]. split; [discriminate|]. split; [apply io_exemple_ok|].
  split; [intros [] Hk; (vm_compute; reflexivity) || by destruct Hk|]. split; [servi|]. split; [servi|]. split; [servi|]. split; [servi|].
  intros _. eexists 8, _. split; [reflexivity|]. split; [|apply fils_exemple_ok].
  change (fst <$> fils_exemple) with ((fst <$> take 3 fils_exemple) ++ (fst <$> drop 3 fils_exemple) ++ []).
  apply rep_interrompu, rep_lu; [discriminate|]. apply rep_lu; [discriminate|]. apply rep_fini.
Qed.

#[local] Existing Instance unicode_exemple.

Lemma capture_exacte_witness :
  present noyau_exemple (Some 7) processus_exemple /\
  LireInstantaneProcessus noyau_exemple (Some 7) 42 1000 =
  Done (Tache 42 42 1000 55 33 44 11 22 2 3 900 800 15 26 107 208 309 1 2 3 4 5 6 7, None).
Proof.
  split; [apply present_exemple|]. exact (capture_exacte noyau_exemple (Some 7) processus_exemple 1000 present_exemple ltac:(unfold is_i64; lia)).
Defined.

Lemma capture_sure_witness :
  wp (episode_lu noyau_exemple noyau_exemple noyau_exemple (Some 7) 42 0 1000 2000 (Reseau 0 0 0 0 0 0 0 0 0 false false false 0) ConfigPlanchersParDefaut)
    (fun '((debut, e1), _, _) => e1 = None -> T_PID debut = 42).
Proof.
  eapply wp_mono; [apply (capture_sure noyau_exemple noyau_exemple noyau_exemple (Some 7) 42 0 1000 2000 (Reseau 0 0 0 0 0 0 0 0 0 false false false 0) ConfigPlanchersParDefaut)|].
  - unfold is_i64. lia.
  - unfold is_i64. lia.
  - split; repeat (constructor; [by vm_compute|]); constructor.
  - intros [[[d e1] [f e2]] r] [H _] E. destruct (H E) as (_ & -> & _). reflexivity.
Defined.
