(* ===== verification/ArbitreCinetique.v ===== *)
(** The arbiter of the kinetic episodes (src/internal/cinetique/arbitre_slm.go): which
    episodes are escalated, the sixteen features given to the decision head in
    binary32, and the physical veto on the verdict it proposes.  The decision head
    itself (vendored) is a parameter.  The theorems hold for every head, however
    wrong: the final verdict is physically possible, and a converging proof of
    compromise cannot be explained away. *)
From stdpp Require Import list_numbers strings.
From Stdlib Require Import SpecFloat.
From S2P Require Import Prelude Flottant Quotients Robuste Profil.
Local Open Scope Z_scope.

Definition VerdictSLMDegradationMaterielle : string := "HARDWARE_STORAGE_DEGRADATION".
Definition VerdictSLMCompromissionExfil : string := "PROCESS_C2_OR_EXFILTRATION".
Definition VerdictSLMDeriveOrganique : string := "ORGANIC_RESOURCE_DRIFT".
Definition VerdictSLMContentionOuInsuff : string := "CONTENTION_OR_INSUFFICIENT".
Definition etiquettesVerdictsSLM : list string :=
  [VerdictSLMDegradationMaterielle; VerdictSLMCompromissionExfil; VerdictSLMDeriveOrganique; VerdictSLMContentionOuInsuff].

Definition DoitEscaladeSLM (diag : DiagnosticEpisodeCinetique) : bool :=
  let o := D_Orientation diag in
  (o =? OrientationDegradationES) || (o =? OrientationCompromissionReseau) || (o =? OrientationDeriveOrganique) || (o =? OrientationEcartStructurel).

Definition ActionPourVerdictCinetique (verdict : string) : string :=
  if String.eqb verdict VerdictSLMDegradationMaterielle then "INSPECT_STORAGE_SMART_NVME_NO_QUARANTINE" else
  if String.eqb verdict VerdictSLMCompromissionExfil then "ISOLATE_PID_SOCKET_AND_CAPTURE_FORENSICS" else
  if String.eqb verdict VerdictSLMDeriveOrganique then "OPEN_MAINTENANCE_MEMORY_PROFILE_TICKET" else
  "PASSIVE_OBSERVATION_NO_ALERT".

(** * The veto *)

(** No outgoing octet, no suspicious channel. *)
Definition aucunEgressOuCanalSuspect (ep : QuotientsEpisode) : bool :=
  OctetsSortantsNuls ep && (Q_PortSuspect ep =? 0) && (Q_CodeRaisonDNS ep =? 0) && negb (Q_ConnexionSansDNS ep).
Definition preuveCompromissionConvergente (diag : DiagnosticEpisodeCinetique) : bool :=
  let ep := D_Episode diag in
  let indiceReseauHostile := negb (Q_CodeRaisonDNS ep =? 0) || negb (Q_PortSuspect ep =? 0) || Q_ConnexionSansDNS ep in
  let deriveRessource := (EstValide ep IndiceEgressSurLecturePermille && (50 <=? Valeur ep IndiceEgressSurLecturePermille)) ||
    (50 <=? variation diag IndiceNsCPUParKioLogique) || (35 <=? variation diag IndiceKioPicRSSParFil) || negb (Q_CodeRaisonDNS ep =? 0) in
  indiceReseauHostile && deriveRessource.

Definition AppliquerVetoPhysiqueCinetique (diag : DiagnosticEpisodeCinetique) (verdictPropose : string) : string * bool * string :=
  let ep := D_Episode diag in
  let aucun := aucunEgressOuCanalSuspect ep in
  let preuve := preuveCompromissionConvergente diag in
  let propose v := String.eqb verdictPropose v in
  let oriente o := D_Orientation diag =? o in
  if negb (ActiviteDisquePresente ep) && propose VerdictSLMDegradationMaterielle then
    if preuve then (VerdictSLMCompromissionExfil, true, "VETO_ZERO_DISK_IO_CONVERGENT_NETWORK"%string) else
    if oriente OrientationDeriveOrganique then (VerdictSLMDeriveOrganique, true, "VETO_ZERO_DISK_IO_MONOTONIC_DRIFT"%string) else
    (VerdictSLMContentionOuInsuff, true, "VETO_ZERO_DISK_IO_ACTIVITY"%string)
  else if aucun && propose VerdictSLMCompromissionExfil then
    if oriente OrientationDegradationES && ActiviteDisquePresente ep then (VerdictSLMDegradationMaterielle, true, "VETO_ZERO_NETWORK_STORAGE_STALL"%string) else
    if oriente OrientationDeriveOrganique then (VerdictSLMDeriveOrganique, true, "VETO_ZERO_NETWORK_MONOTONIC_DRIFT"%string) else
    (VerdictSLMContentionOuInsuff, true, "VETO_ZERO_NETWORK_NO_C2_CHANNEL"%string)
  else
  let aucuneHausseMemoire := (D_PasDeriveMonotoneRSS diag <? 3) && (variation diag IndiceKioPicRSSParFil <=? 20) in
  if aucuneHausseMemoire && propose VerdictSLMDeriveOrganique then
    if oriente OrientationDegradationES && ActiviteDisquePresente ep && aucun then (VerdictSLMDegradationMaterielle, true, "VETO_ZERO_MEMORY_GROWTH_STORAGE_STALL"%string) else
    if preuve then (VerdictSLMCompromissionExfil, true, "VETO_ZERO_MEMORY_GROWTH_HOSTILE_NETWORK"%string) else
    (VerdictSLMContentionOuInsuff, true, "VETO_ZERO_MEMORY_GROWTH"%string)
  else if preuve && negb (propose VerdictSLMCompromissionExfil) then
    (VerdictSLMCompromissionExfil, true, "VETO_CONVERGENT_NETWORK_AND_KINETIC_HOSTILE"%string)
  else if aucun && oriente OrientationDeriveOrganique && (Valeur ep IndiceDilatationHorsCPU <? 1000) && negb (propose VerdictSLMDeriveOrganique) then
    (VerdictSLMDeriveOrganique, true, "VETO_MONOTONIC_MEMORY_NO_IO_STALL"%string)
  else if (Q_AbstentionPSICPU ep || Q_MigrationHybride ep) && aucun && negb (oriente OrientationDeriveOrganique) && negb (propose VerdictSLMContentionOuInsuff) then
    (VerdictSLMContentionOuInsuff, true, "VETO_CPU_PRESSURE_OR_HYBRID_MIGRATION"%string)
  else (verdictPropose, false, ""%string).

(** * The features, in binary32 *)

Definition f32 : Type := spec_float.
Definition f32_of_Z (z : Z) : f32 := binary_normalize 24 128 z 0 false.
Definition f32_div : f32 -> f32 -> f32 := SFdiv 24 128.
Definition zero32 : f32 := S754_zero false.

Definition borner01 (x : f32) : f32 := if negb (SFltb zero32 x) then zero32 else if SFltb (f32_of_Z 1) x then f32_of_Z 1 else x.

Definition dimensionEncodeurCinetique : Z := 16.
Definition compDilatationHorsCPU : Z := 0.
Definition compDominanceHorsCPU : Z := 1.
Definition compZeroReseau : Z := 2.
Definition compTravailLogiqueStable : Z := 3.
Definition compHausseCPUParKio : Z := 4.
Definition compHaussePicRSS : Z := 5.
Definition compEgressActif : Z := 6.
Definition compSocketSuspecte : Z := 7.
Definition compRaisonDNSActive : Z := 8.
Definition compConnexionSansDNS : Z := 9.
Definition compDeriveMonotone : Z := 10.
Definition compEcartTailleES : Z := 11.
Definition compPressionPSICPU : Z := 12.
Definition compAttenteRunqueue : Z := 13.
Definition compMigrationHybride : Z := 14.
Definition compSansActiviteDisque : Z := 15.

Definition quotient32 (x d : Z) : f32 := borner01 (f32_div (f32_of_Z x) (f32_of_Z d)).
Definition ecrire_si (b : bool) (i : Z) (x : f32) (l : list f32) : run (list f32) := if b then upd l i x else Done l.

Definition encoderCaracteristiquesCinetiques (diag : DiagnosticEpisodeCinetique) : run (list f32) :=
  let ep := D_Episode diag in
  let un := f32_of_Z 1 in
  let aucuneRes := OctetsSortantsNuls ep && (Q_PortSuspect ep =? 0) && (Q_CodeRaisonDNS ep =? 0) && negb (Q_ConnexionSansDNS ep) in
  let disque := ActiviteDisquePresente ep in
  let dilate := 1000 <=? Valeur ep IndiceDilatationHorsCPU in
  l ← ecrire_si (disque && dilate) compDilatationHorsCPU (quotient32 (variation diag IndiceDilatationHorsCPU) 300) (replicate 16 zero32);
  l ← ecrire_si (disque && (u64 (2 * Q_DeltaAttenteFileNs ep) <? Q_DeltaHorsCPUNs ep) && dilate) compDominanceHorsCPU un l;
  l ← ecrire_si (negb disque) compSansActiviteDisque un l;
  l ← ecrire_si aucuneRes compZeroReseau un l;
  let absTaille := let v := variation diag IndiceOctetsParAppelES in if v <? 0 then i64 (- v) else v in
  l ← ecrire_si (disque && (absTaille <=? 20)) compTravailLogiqueStable un l;
  l ← upd l compHausseCPUParKio (quotient32 (variation diag IndiceNsCPUParKioLogique) 200);
  l ← upd l compHaussePicRSS (quotient32 (variation diag IndiceKioPicRSSParFil) 100);
  l ← (if EstValide ep IndiceEgressSurLecturePermille then upd l compEgressActif (quotient32 (Valeur ep IndiceEgressSurLecturePermille) 100)
       else ecrire_si (negb (OctetsSortantsNuls ep)) compEgressActif un l);
  l ← ecrire_si (0 <? Q_PortSuspect ep) compSocketSuspecte un l;
  l ← ecrire_si (0 <? Q_CodeRaisonDNS ep) compRaisonDNSActive un l;
  l ← ecrire_si (Q_ConnexionSansDNS ep) compConnexionSansDNS un l;
  l ← upd l compDeriveMonotone (quotient32 (D_PasDeriveMonotoneRSS diag) 5);
  l ← upd l compEcartTailleES (quotient32 absTaille 100);
  let invariantAuCPU := (D_Orientation diag =? OrientationDeriveOrganique) || (D_Orientation diag =? OrientationCompromissionReseau) in
  if negb invariantAuCPU then
    l ← ecrire_si (Q_AbstentionPSICPU ep) compPressionPSICPU un l;
    l ← ecrire_si ((0 <? Q_DeltaExecutionNs ep) && (Q_DeltaExecutionNs ep <=? Q_DeltaAttenteFileNs ep)) compAttenteRunqueue un l;
    ecrire_si (Q_MigrationHybride ep) compMigrationHybride un l
  else Done l.

(** * The arbiter *)

Inductive erreur_arbitre := ErrArbitreFerme | ErrFileArbitragePleine | ErrContexte (motif : string).

(** The fields only the model of language fills stay at zero for this arbiter. *)
Record DecisionArbitrageCinetique := Decision_ {
  A_ModeleInvoque : bool; A_MoteurArbitre : string; A_VerdictBrutNonCalibre : string; A_VerdictBrutModele : string; A_VerdictFinal : string;
  A_Confiance : f64; A_VetoPhysiqueApplique : bool; A_MotifVeto : string;
  A_LogitsBrutsModele : list f32; A_BiaisNeutreModele : list f32; A_DeltaLogitsModele : list f32; A_ProbabilitesBrutes : list f32; A_Probabilites : list f32;
  A_DureeInferenceUs : Z; A_ActionRecommandee : string; A_DifferentielTransmis : string
}.
Definition zeros4 : list f32 := replicate 4 zero32.
Definition decision (invoque : bool) (brut final : string) (confiance : f64) (veto : bool) (motif : string) (probs : list f32) : DecisionArbitrageCinetique :=
  Decision_ invoque "DecisionHead_SIMD_0B" "" brut final confiance veto motif zeros4 zeros4 zeros4 zeros4 probs 0 (ActionPourVerdictCinetique final) "".

Fixpoint indiceDuVerdict_de (i : Z) (l : list string) (verdict : string) : Z :=
  match l with [] => -1 | v :: l => if String.eqb v verdict then i else indiceDuVerdict_de (i + 1) l verdict end.
Definition indiceDuVerdict (verdict : string) : Z := indiceDuVerdict_de 0 etiquettesVerdictsSLM verdict.

(** [float64(x)] of a float32: exact. *)
Definition f64_de_f32 (x : f32) : f64 :=
  match x with S754_finite s m e => binary_normalize 53 1024 (if s then Z.neg m else Z.pos m) e s | _ => x end.

Section arbitre.
(** The decision head: the label it proposes, its confidence, the probabilities. *)
Variable DecideChoice : list f32 -> string * f32 * list f32.

(** [ferme]: the flag of the closed arbiter; [ctx]: the error of the context. *)
Definition ArbitrerEpisode (ferme : bool) (ctx : option string) (diag : DiagnosticEpisodeCinetique) : run (DecisionArbitrageCinetique + erreur_arbitre) :=
  if ferme then Done (inr ErrArbitreFerme) else
  match ctx with
  | Some e => Done (inr (ErrContexte e))
  | None =>
      if negb (DoitEscaladeSLM diag) then
        Done (inl (decision false VerdictSLMContentionOuInsuff VerdictSLMContentionOuInsuff (f_of_Z 1) false "" zeros4))
      else
        etatCache ← encoderCaracteristiquesCinetiques diag;
        let '(proposition, conf32, probs) := DecideChoice etatCache in
        let '(verdictFinal, veto, motif) := AppliquerVetoPhysiqueCinetique diag proposition in
        confiance ← (if (veto : bool) && (0 <=? indiceDuVerdict verdictFinal) then
                       p ← idx probs (indiceDuVerdict verdictFinal);
                       Done (f_max (f_decimal 85 2) (f64_de_f32 p))
                     else Done (f64_de_f32 conf32));
        Done (inl (decision true proposition verdictFinal confiance veto motif probs))
  end.

Definition EvaluerZeroAlloc (ferme : bool) (diag : DiagnosticEpisodeCinetique) : run (string * f32 * bool) :=
  if ferme || negb (DoitEscaladeSLM diag) then Done (VerdictSLMContentionOuInsuff, f32_of_Z 1, false) else
  etatCache ← encoderCaracteristiquesCinetiques diag;
  let '(proposition, conf32, _) := DecideChoice etatCache in
  let '(final, v, _) := AppliquerVetoPhysiqueCinetique diag proposition in
  if (v : bool) then Done (final, f32_div (f32_of_Z 90) (f32_of_Z 100), true) else Done (final, conf32, false).
End arbitre.

(** * The features: sixteen numbers of [0, 1] *)

Definition dans01 (x : f32) : Prop := SFleb zero32 x = true /\ SFleb x (f32_of_Z 1) = true.
Definition vecteur_ok (l : list f32) : Prop := zlen l = 16 /\ Forall dans01 l.

Lemma un32 : f32_of_Z 1 = S754_finite false 8388608 (-23).
Proof. by vm_compute. Qed.

(** Between finite numbers, not greater is less or equal. *)
Lemma sf_pas_plus_grand m e m' e' : SFltb (S754_finite false m' e') (S754_finite false m e) = false ->
  SFleb (S754_finite false m e) (S754_finite false m' e') = true.
Proof.
  unfold SFltb, SFleb, SFcompare. rewrite (Z.compare_antisym e e'). destruct (e ?= e'); cbn [CompOpp]; [|done..].
  change (Pos.compare_cont Eq m m') with (Pos.compare m m'). change (Pos.compare_cont Eq m' m) with (Pos.compare m' m).
  rewrite (Pos.compare_antisym m m'). by destruct (Pos.compare m m').
Qed.

Lemma borner01_ok x : dans01 (borner01 x).
Proof.
  unfold borner01, dans01. rewrite un32. destruct (SFltb zero32 x) eqn:E0; cbn [negb]; [|split; by vm_compute].
  destruct (SFltb (S754_finite false 8388608 (-23)) x) eqn:E1; [split; by vm_compute|].
  destruct x as [[]|[]| |[] m e]; try discriminate. split; [reflexivity|]. by apply sf_pas_plus_grand.
Qed.

Lemma upd_vecteur l i x : vecteur_ok l -> 0 <= i < 16 -> dans01 x -> wp (upd l i x) vecteur_ok.
Proof.
  intros [Hz Hf] Hi Hx. rewrite upd_ok by lia. apply wp_done. split; [by rewrite zlen_insert|]. by apply Forall_insert.
Qed.

Lemma ecrire_si_vecteur b l i x : vecteur_ok l -> 0 <= i < 16 -> dans01 x -> wp (ecrire_si b i x l) vecteur_ok.
Proof. intros H Hi Hx. destruct b; [by apply upd_vecteur|by apply wp_done]. Qed.

Lemma un_ok : dans01 (f32_of_Z 1).
Proof. by vm_compute. Qed.

Ltac trait := match goal with |- dans01 (borner01 _) => apply borner01_ok | |- dans01 (f32_of_Z 1) => exact un_ok end.
Ltac etape_vecteur := apply wp_bind; (eapply wp_mono; [first [apply ecrire_si_vecteur|apply upd_vecteur]; [assumption|by vm_compute|trait]|]); cbv beta; intros.

Lemma vecteur_zero : vecteur_ok (replicate 16 zero32).
Proof. split; [done|]. apply Forall_replicate. split; by vm_compute. Qed.

Lemma encoder_ok diag : wp (encoderCaracteristiquesCinetiques diag) vecteur_ok.
Proof.
  unfold encoderCaracteristiquesCinetiques, quotient32. cbv zeta. pose proof vecteur_zero. do 7 etape_vecteur. apply wp_bind.
  eapply (wp_mono _ vecteur_ok).
  { destruct (EstValide _ _); [apply upd_vecteur|apply ecrire_si_vecteur]; [assumption|by vm_compute|trait|assumption|by vm_compute|trait]. }
  cbv beta. intros. do 5 etape_vecteur. case_match; [|by apply wp_done]. do 2 etape_vecteur. apply ecrire_si_vecteur; [assumption|by vm_compute|trait].
Qed.

(** * The veto *)

(** What every diagnostic of the table satisfies. *)
Definition coherent (diag : DiagnosticEpisodeCinetique) : Prop :=
  (D_Orientation diag = OrientationDeriveOrganique -> 3 <= D_PasDeriveMonotoneRSS diag) /\
  (D_Orientation diag = OrientationDegradationES -> Q_AbstentionPSICPU (D_Episode diag) || Q_MigrationHybride (D_Episode diag) = false).

Lemma orientation_coherente cfg am abst diag : 3 <= SeuilPasDeriveMonotone cfg ->
  (determinerOrientation cfg am abst diag = OrientationDeriveOrganique -> 3 <= D_PasDeriveMonotoneRSS diag) /\
  (determinerOrientation cfg am abst diag = OrientationDegradationES -> abst = false).
Proof.
  intros Hs. unfold determinerOrientation. cbv zeta. repeat case_match; split; intros H'; try discriminate H'.
  - by destruct abst.
  - apply andb_prop in H2 as [[[_ _]%andb_prop Hp]%andb_prop _]. apply Z.leb_le in Hp. lia.
Qed.

Lemma observer_coherent cfg p cle classe ep : 3 <= SeuilPasDeriveMonotone cfg -> coherent (snd (observer_profil cfg p cle classe ep)) /\
  D_Episode (snd (observer_profil cfg p cle classe ep)) = ep.
Proof.
  intros Hs. unfold observer_profil. cbn [snd]. split; [|done]. unfold coherent. cbn [D_Orientation D_PasDeriveMonotoneRSS D_Episode].
  match goal with |- context [determinerOrientation cfg ?am ?ab ?d] => destruct (orientation_coherente cfg am ab d Hs) as [H1 H2] end.
  split; [exact H1|]. intros H. exact (H2 H).
Qed.

(** No outgoing channel, no proof. *)
Lemma aucun_sans_preuve diag : aucunEgressOuCanalSuspect (D_Episode diag) = true -> preuveCompromissionConvergente diag = false.
Proof.
  unfold aucunEgressOuCanalSuspect, preuveCompromissionConvergente. cbv zeta. set (v := D_Episode diag).
  destruct (Q_PortSuspect v =? 0), (Q_CodeRaisonDNS v =? 0), (Q_ConnexionSansDNS v); cbn [andb negb orb]; rewrite ?andb_false_r; done.
Qed.

(** A verdict that physics allows. *)
Definition possible (diag : DiagnosticEpisodeCinetique) (verdict : string) : Prop :=
  (verdict = VerdictSLMDegradationMaterielle -> ActiviteDisquePresente (D_Episode diag) = true) /\
  (verdict = VerdictSLMCompromissionExfil -> aucunEgressOuCanalSuspect (D_Episode diag) = false) /\
  (verdict = VerdictSLMDeriveOrganique -> 3 <= D_PasDeriveMonotoneRSS diag \/ 20 < variation diag IndiceKioPicRSSParFil) /\
  (preuveCompromissionConvergente diag = true -> verdict = VerdictSLMCompromissionExfil) /\
  (Q_AbstentionPSICPU (D_Episode diag) || Q_MigrationHybride (D_Episode diag) = true -> aucunEgressOuCanalSuspect (D_Episode diag) = true ->
    D_Orientation diag <> OrientationDeriveOrganique -> verdict = VerdictSLMContentionOuInsuff).

(** The proposals: the four labels and anything else. *)
Lemma proposition_cas p : p = VerdictSLMDegradationMaterielle \/ p = VerdictSLMCompromissionExfil \/ p = VerdictSLMDeriveOrganique \/ p = VerdictSLMContentionOuInsuff \/
  (p ∉ etiquettesVerdictsSLM /\ String.eqb p VerdictSLMDegradationMaterielle = false /\ String.eqb p VerdictSLMCompromissionExfil = false /\
   String.eqb p VerdictSLMDeriveOrganique = false /\ String.eqb p VerdictSLMContentionOuInsuff = false).
Proof.
  destruct (String.eqb_spec p VerdictSLMDegradationMaterielle) as [|H1]; [by left|]. destruct (String.eqb_spec p VerdictSLMCompromissionExfil) as [|H2]; [by auto|].
  destruct (String.eqb_spec p VerdictSLMDeriveOrganique) as [|H3]; [by auto|]. destruct (String.eqb_spec p VerdictSLMContentionOuInsuff) as [|H4]; [by auto|].
  do 4 right. split; [|done]. unfold etiquettesVerdictsSLM. by rewrite !elem_of_cons, elem_of_nil; intuition.
Qed.

Definition veto_ok (diag : DiagnosticEpisodeCinetique) (p : string) : Prop :=
  let '(final, veto, motif) := AppliquerVetoPhysiqueCinetique diag p in
  possible diag final /\ (veto = true <-> final <> p) /\ (veto = false <-> motif = ""%string) /\
  AppliquerVetoPhysiqueCinetique diag final = (final, false, ""%string) /\ (p ∈ etiquettesVerdictsSLM -> final ∈ etiquettesVerdictsSLM).

Ltac reduire :=
  repeat match goal with
    | |- context [String.eqb ?a ?b] => first [rewrite (String.eqb_refl a) | replace (String.eqb a b) with false by (symmetry; vm_compute; reflexivity)]
    end; cbv beta iota; cbn [negb andb orb].
Ltac trancher Hap Hd1 He1 :=
  match goal with
  | |- context [if ?x then _ else _] => is_var x; destruct x
  | |- context [if ?x && _ then _ else _] => is_var x; destruct x
  | |- context [if ?x && _ && _ then _ else _] => is_var x; destruct x
  | |- context [if ?x && _ && _ && _ then _ else _] => is_var x; destruct x
  | |- context [if negb ?x && _ then _ else _] => is_var x; destruct x
  end; try (specialize (Hap eq_refl); discriminate); try (destruct (Hd1 eq_refl); discriminate); try (destruct (He1 eq_refl); discriminate).

Lemma veto_bon diag p : coherent diag -> veto_ok diag p.
Proof.
  intros [Hder Hdeg]. pose proof (aucun_sans_preuve diag) as Hap.
  assert (forall a b, (a =? b) = true -> a = b) as Heq by (intros a b; lia).
  unfold veto_ok, possible, AppliquerVetoPhysiqueCinetique. cbv zeta.
  set (disque := ActiviteDisquePresente _) in *. set (aucun := aucunEgressOuCanalSuspect _) in *. set (preuve := preuveCompromissionConvergente _) in *.
  set (abst := _ || _) in *. set (dil := Valeur _ _ <? 1000).
  assert ((D_PasDeriveMonotoneRSS diag <? 3) && (variation diag IndiceKioPicRSSParFil <=? 20) = false -> 3 <= D_PasDeriveMonotoneRSS diag \/ 20 < variation diag IndiceKioPicRSSParFil) as Hh by lia.
  assert ((D_PasDeriveMonotoneRSS diag <? 3) && (variation diag IndiceKioPicRSSParFil <=? 20) = true -> ~ 3 <= D_PasDeriveMonotoneRSS diag) as Hh' by lia.
  set (hausse := _ && (_ <=? 20)) in *.
  assert ((D_Orientation diag =? OrientationDeriveOrganique) = true -> D_Orientation diag = OrientationDeriveOrganique /\ hausse = false) as Hd1.
  { intros H%Heq. split; [done|]. destruct hausse; [|done]. exfalso. exact (Hh' eq_refl (Hder H)). }
  assert ((D_Orientation diag =? OrientationDeriveOrganique) = false -> D_Orientation diag <> OrientationDeriveOrganique) as Hd0 by lia.
  assert ((D_Orientation diag =? OrientationDegradationES) = true -> (D_Orientation diag =? OrientationDeriveOrganique) = false /\ abst = false) as He1.
  { intros H%Heq. split; [by rewrite H|by apply Hdeg]. }
  clearbody disque aucun preuve abst dil hausse. set (ode := _ =? OrientationDegradationES) in *. set (oder := _ =? OrientationDeriveOrganique) in *.
  assert (VerdictSLMDegradationMaterielle ∈ etiquettesVerdictsSLM /\ VerdictSLMCompromissionExfil ∈ etiquettesVerdictsSLM /\
    VerdictSLMDeriveOrganique ∈ etiquettesVerdictsSLM /\ VerdictSLMContentionOuInsuff ∈ etiquettesVerdictsSLM) as (M1 & M2 & M3 & M4).
  { unfold etiquettesVerdictsSLM. rewrite !elem_of_cons. tauto. }
  destruct (proposition_cas p) as [->|[->|[->|[->|(M5 & N1 & N2 & N3 & N4)]]]].
  all: repeat (reduire; first [progress rewrite ?N1, ?N2, ?N3, ?N4 | trancher Hap Hd1 He1]).
  all: split_and!; first [done|tauto|intros; discriminate|by auto|intros ->; by destruct M5|split; [intros _ <-; by destruct M5|done]].
Qed.

Lemma table_coherente cfg A cle ep : 3 <= SeuilPasDeriveMonotone cfg -> coherent (snd (observer_table cfg A cle ep)) /\ D_Episode (snd (observer_table cfg A cle ep)) = ep.
Proof.
  intros Hs. unfold observer_table. destruct (acceder _ _) as [p reste]. pose proof (observer_coherent cfg p cle (classe_profil ep) ep Hs) as H.
  by destruct (observer_profil cfg p cle (classe_profil ep) ep).
Qed.

Lemma indice_borne v : indiceDuVerdict v < 4.
Proof. unfold indiceDuVerdict, etiquettesVerdictsSLM. cbn [indiceDuVerdict_de]. repeat case_match; lia. Qed.

(** The decision on a coherent diagnostic. *)
Lemma decision_arbitre DecideChoice diag : (forall x, zlen (snd (DecideChoice x)) = 4) -> coherent diag ->
  exists A, ArbitrerEpisode DecideChoice false None diag = Done (inl A) /\
    A_ActionRecommandee A = ActionPourVerdictCinetique (A_VerdictFinal A) /\ A_ModeleInvoque A = DoitEscaladeSLM diag /\
    (DoitEscaladeSLM diag = false -> A_VerdictFinal A = VerdictSLMContentionOuInsuff) /\
    (DoitEscaladeSLM diag = true -> possible diag (A_VerdictFinal A) /\ (A_VetoPhysiqueApplique A = true <-> A_VerdictFinal A <> A_VerdictBrutModele A) /\
      AppliquerVetoPhysiqueCinetique diag (A_VerdictFinal A) = (A_VerdictFinal A, false, ""%string) /\
      (A_VerdictBrutModele A ∈ etiquettesVerdictsSLM -> A_VerdictFinal A ∈ etiquettesVerdictsSLM)).
Proof.
  intros Hd Hco. unfold ArbitrerEpisode. destruct (DoitEscaladeSLM diag); cbn [negb].
  2: { eexists. split; [reflexivity|]. by split_and!. }
  destruct (proj1 (wp_exists _ _) (encoder_ok diag)) as (x & -> & Hx). rewrite run_bind_done. specialize (Hd x). destruct (DecideChoice x) as [[p conf] probs]. cbn [snd] in Hd.
  pose proof (veto_bon diag p Hco) as Hv. unfold veto_ok in Hv. destruct (AppliquerVetoPhysiqueCinetique diag p) as [[final veto] motif]. destruct Hv as (V1 & V2 & _ & V4 & V5).
  assert (exists c, (if veto && (0 <=? indiceDuVerdict final) then p ← idx probs (indiceDuVerdict final); Done (f_max (f_decimal 85 2) (f64_de_f32 p))
    else Done (f64_de_f32 conf)) = Done c) as [c ->].
  { destruct (veto && (0 <=? indiceDuVerdict final)) eqn:Eb; [|by eexists]. apply andb_prop in Eb as [_ Hi%Z.leb_le]. pose proof (indice_borne final).
    destruct (lookup_lt_is_Some_2 probs (Z.to_nat (indiceDuVerdict final))) as [y Hy]; [unfold zlen in Hd; lia|].
    rewrite (idx_lookup _ _ y), run_bind_done by (done || lia). by eexists. }
  rewrite run_bind_done. eexists. split; [reflexivity|]. by split_and!.
Qed.

(** * Properties *)

(** C31: whatever the decision head answers, for an episode observed by a table of
    profiles after any sequence of episodes (threshold of the monotone drift at least
    3), the arbiter returns a decision, and its final verdict is physically possible:
    a storage failure only with disk activity, an exfiltration only with an outgoing
    or suspicious channel, a memory drift only with a growth of memory; an escalated
    episode with a converging proof of compromise is a compromise whatever the head
    says; under pressure of the CPU or a migration, with no channel and no drift, the
    verdict is the contention.  The veto is flagged exactly when the verdict is not
    the proposed one, it is idempotent, and the action is that of the final verdict.
    An episode that is not escalated never wakes the head. *)
Theorem verdict_possible DecideChoice cfg l cle h ep :
  (forall x, zlen (snd (DecideChoice x)) = 4) -> 0 <= MinEpisodesAmorcage cfg -> 3 <= SeuilPasDeriveMonotone cfg ->
  Forall (fun '(_, ep) => episode_ok ep) l -> episode_ok ep -> zlen l + 1 < 2 ^ 64 ->
  exists t ds t' diag A, observer_tout (NouvelleTableProfilsCinetiques cfg) l = Done (t, ds) /\ ObserverEpisode t cle h ep = Done (t', diag) /\
    D_Episode diag = ep /\ ArbitrerEpisode DecideChoice false None diag = Done (inl A) /\
    A_ActionRecommandee A = ActionPourVerdictCinetique (A_VerdictFinal A) /\ A_ModeleInvoque A = DoitEscaladeSLM diag /\
    (DoitEscaladeSLM diag = false -> A_VerdictFinal A = VerdictSLMContentionOuInsuff) /\
    (DoitEscaladeSLM diag = true -> possible diag (A_VerdictFinal A) /\ (A_VetoPhysiqueApplique A = true <-> A_VerdictFinal A <> A_VerdictBrutModele A) /\
      AppliquerVetoPhysiqueCinetique diag (A_VerdictFinal A) = (A_VerdictFinal A, false, ""%string) /\
      (A_VerdictBrutModele A ∈ etiquettesVerdictsSLM -> A_VerdictFinal A ∈ etiquettesVerdictsSLM)).
Proof.
  intros Hd Hm Hs Hl Hep Hn. destruct (observer_tout_ok l 0 _ _ (simule_neuve cfg) ltac:(lia) ltac:(lia) Hm Hl) as (t & E & Hsim & Hc).
  cbn [T_cfg NouvelleTableProfilsCinetiques] in Hc. rewrite Z.add_0_l in Hsim. pose proof (zlen_nonneg l).
  destruct (ObserverEpisode_ok (zlen l) t _ cle h ep Hsim ltac:(lia) ltac:(lia) ltac:(by rewrite Hc) Hep) as (t' & E' & _). rewrite Hc in E'.
  destruct (table_coherente cfg (fst (specifier_tout cfg (fun _ => []) l)) cle ep Hs) as [Hco Hepi].
  set (diag := snd (observer_table _ _ _ _)) in *. destruct (decision_arbitre DecideChoice diag Hd Hco) as (A & EA & H1 & H2 & H3).
  exists t, (snd (specifier_tout cfg (fun _ => []) l)), t', diag, A. split_and!; try done; apply H3.
Qed.

(** A head that always proposes an exfiltration, on a deviating episode that sends nothing. *)
Definition tete_obstinee (x : list f32) : string * f32 * list f32 := (VerdictSLMCompromissionExfil, f32_of_Z 1, replicate 4 (f32_of_Z 1)).

Lemma verdict_possible_witness : exists t t' diag A,
  observer_tout (NouvelleTableProfilsCinetiques ConfigProfilParDefaut) seance_exemple = Done t /\ ObserverEpisode (fst t) 81 99 (episode_exemple 65536) = Done (t', diag) /\
  ArbitrerEpisode tete_obstinee false None diag = Done (inl A) /\ A_VerdictFinal A = VerdictSLMContentionOuInsuff /\ A_VetoPhysiqueApplique A = true.
Proof.
  destruct (verdict_possible tete_obstinee ConfigProfilParDefaut seance_exemple 81 99 (episode_exemple 65536)) as (t & ds & t' & diag & A & E1 & E2 & _ & E3 & _).
  - intros x. by vm_compute.
  - cbn. lia.
  - cbn. lia.
  - apply seance_exemple_ok.
  - apply episode_exemple_ok. unfold is_i64. lia.
  - by vm_compute.
  - exists (t, ds), t', diag, A. split; [exact E1|]. split; [exact E2|]. split; [exact E3|].
    assert ((match observer_tout (NouvelleTableProfilsCinetiques ConfigProfilParDefaut) seance_exemple with
      | Done (t, _) => match ObserverEpisode t 81 99 (episode_exemple 65536) with
        | Done (_, diag) => match ArbitrerEpisode tete_obstinee false None diag with Done (inl A) => (A_VerdictFinal A, A_VetoPhysiqueApplique A) | _ => (""%string, false) end
        | _ => (""%string, false) end | _ => (""%string, false) end) = (VerdictSLMContentionOuInsuff, true)) as H by (vm_compute; reflexivity).
    rewrite E1, E2, E3 in H. injection H as H1 H2. exact (conj H1 H2).
Defined.
