(* ===== verification/FileArbitrage.v ===== *)
(** The queue of the kinetic arbiter (src/internal/cinetique/arbitre_slm.go,
    [FileArbitrageCinetique]): submissions that never block, one worker, and a closing
    that drains the queue.  The goroutines are interleaved at each access to the
    mutex, the channel and the counters; the arbiter is any relation between a file
    and its answers.  The theorem is the promise of the comment: when [Fermer] has
    returned, [TotalSoumis] is [TotalArbitres] plus [TotalErreursArbitrage]. *)
From stdpp Require Import list_numbers strings.
From S2P Require Import Prelude Profil ArbitreCinetique.
Local Open Scope Z_scope.

Record DossierEscaladeCinetique := Dossier { NomExecutable : string; Diagnostic_ : DiagnosticEpisodeCinetique }.

(** Where a call of [SoumettreNonBloquant] stands; it holds the read lock from
    [SousVerrou] to [Sortie]. *)
Inductive position :=
  | Appel | SousVerrou | Envoi | Compter | CompterEcarte | CompterIgnore | Sortie (r : option erreur_arbitre).
(** Where the worker stands. *)
Inductive travail := EnAttente | EnMain (d : DossierEscaladeCinetique) | Rappel (d : DossierEscaladeCinetique) (dec : DecisionArbitrageCinetique) | Parti.
(** Where [Fermer] stands: not called, waiting for the lock, holding it (three steps),
    waiting for the worker, returned. *)
Inductive cloture := Ouverte | Demande | Tenu | FermeePosee | CanalClos | AttendTravail | Fermee_.

Record FileArbitrageCinetique := File_ {
  fermee : bool; clos : bool; capacite : Z; file : list DossierEscaladeCinetique;
  appels : list (position * DossierEscaladeCinetique); travailleur : travail; fermeture : cloture; panique : bool;
  TotalSoumis : Z; TotalIgnoresNominal : Z; TotalEcartesFilePleine : Z; TotalArbitres : Z; TotalErreursArbitrage : Z
}.

Definition NouvelleFileArbitrageCinetique (cap : Z) : FileArbitrageCinetique :=
  File_ false false (if cap <=? 0 then 32 else cap) [] [] EnAttente Ouverte false 0 0 0 0 0.

(** A writer that waits or holds keeps new readers out. *)
Definition ecrivain (c : cloture) : bool := match c with Demande | Tenu | FermeePosee | CanalClos => true | _ => false end.
Definition lecteur (p : position) : bool := match p with Appel => false | _ => true end.

Definition avec_appels (l : list (position * DossierEscaladeCinetique)) (f : FileArbitrageCinetique) : FileArbitrageCinetique :=
  File_ (fermee f) (clos f) (capacite f) (file f) l (travailleur f) (fermeture f) (panique f) (TotalSoumis f) (TotalIgnoresNominal f) (TotalEcartesFilePleine f)
    (TotalArbitres f) (TotalErreursArbitrage f).
Definition avec_file (q : list DossierEscaladeCinetique) (t : travail) (f : FileArbitrageCinetique) : FileArbitrageCinetique :=
  File_ (fermee f) (clos f) (capacite f) q (appels f) t (fermeture f) (panique f) (TotalSoumis f) (TotalIgnoresNominal f) (TotalEcartesFilePleine f)
    (TotalArbitres f) (TotalErreursArbitrage f).
Definition avec_comptes (soumis ignores ecartes arbitres erreurs : Z) (f : FileArbitrageCinetique) : FileArbitrageCinetique :=
  File_ (fermee f) (clos f) (capacite f) (file f) (appels f) (travailleur f) (fermeture f) (panique f) soumis ignores ecartes arbitres erreurs.
Definition avec_fermeture (fe cl : bool) (c : cloture) (pa : bool) (f : FileArbitrageCinetique) : FileArbitrageCinetique :=
  File_ fe cl (capacite f) (file f) (appels f) (travailleur f) c pa (TotalSoumis f) (TotalIgnoresNominal f) (TotalEcartesFilePleine f)
    (TotalArbitres f) (TotalErreursArbitrage f).

(** One step of a submission: [None] when it is blocked.  A send on a closed channel
    panics. *)
Definition pas_soumission (f : FileArbitrageCinetique) (d : DossierEscaladeCinetique) (p : position) : option (FileArbitrageCinetique * option position) :=
  match p with
  | Appel => if ecrivain (fermeture f) then None else Some (f, Some SousVerrou)
  | SousVerrou =>
      if fermee f then Some (f, Some (Sortie (Some ErrArbitreFerme))) else
      if negb (DoitEscaladeSLM (Diagnostic_ d)) then Some (f, Some CompterIgnore) else Some (f, Some Envoi)
  | Envoi =>
      if clos f then Some (avec_fermeture (fermee f) (clos f) (fermeture f) true f, Some Envoi) else
      if zlen (file f) <? capacite f then Some (avec_file (file f ++ [d]) (travailleur f) f, Some Compter) else Some (f, Some CompterEcarte)
  | Compter => Some (avec_comptes (u64 (TotalSoumis f + 1)) (TotalIgnoresNominal f) (TotalEcartesFilePleine f) (TotalArbitres f) (TotalErreursArbitrage f) f, Some (Sortie None))
  | CompterEcarte => Some (avec_comptes (TotalSoumis f) (TotalIgnoresNominal f) (u64 (TotalEcartesFilePleine f + 1)) (TotalArbitres f) (TotalErreursArbitrage f) f,
      Some (Sortie (Some ErrFileArbitragePleine)))
  | CompterIgnore => Some (avec_comptes (TotalSoumis f) (u64 (TotalIgnoresNominal f + 1)) (TotalEcartesFilePleine f) (TotalArbitres f) (TotalErreursArbitrage f) f, Some (Sortie None))
  | Sortie r => Some (f, None)
  end.

(** [boucleTravailleur]: receive, or leave when the channel is closed and empty. *)
Definition recevoir (f : FileArbitrageCinetique) : option FileArbitrageCinetique :=
  match travailleur f, file f with
  | EnAttente, d :: q => Some (avec_file q (EnMain d) f)
  | EnAttente, [] => if clos f then Some (avec_file [] Parti f) else None
  | _, _ => None
  end.

(** [traiterDossier]: the answer of the arbiter is counted, a verdict is passed on. *)
Definition traiterDossier (f : FileArbitrageCinetique) (d : DossierEscaladeCinetique) (r : DecisionArbitrageCinetique + erreur_arbitre) : FileArbitrageCinetique :=
  match r with
  | inr _ => avec_file (file f) EnAttente
      (avec_comptes (TotalSoumis f) (TotalIgnoresNominal f) (TotalEcartesFilePleine f) (TotalArbitres f) (u64 (TotalErreursArbitrage f + 1)) f)
  | inl dec => avec_file (file f) (Rappel d dec)
      (avec_comptes (TotalSoumis f) (TotalIgnoresNominal f) (TotalEcartesFilePleine f) (u64 (TotalArbitres f + 1)) (TotalErreursArbitrage f) f)
  end.

(** [Fermer], one step. *)
Definition pas_fermer (f : FileArbitrageCinetique) : option FileArbitrageCinetique :=
  match fermeture f with
  | Ouverte => Some (avec_fermeture (fermee f) (clos f) Demande (panique f) f)
  | Demande => if existsb (fun a => lecteur (fst a)) (appels f) then None else Some (avec_fermeture (fermee f) (clos f) Tenu (panique f) f)
  | Tenu => Some (avec_fermeture true (clos f) FermeePosee (panique f) f)
  | FermeePosee => Some (avec_fermeture (fermee f) true CanalClos (panique f || clos f) f)
  | CanalClos => Some (avec_fermeture (fermee f) (clos f) AttendTravail (panique f) f)
  | AttendTravail => match travailleur f with Parti => Some (avec_fermeture (fermee f) (clos f) Fermee_ (panique f) f) | _ => None end
  | Fermee_ => None
  end.

Inductive etiquette : Type :=
  | Entree_ (d : DossierEscaladeCinetique) | Avance (d : DossierEscaladeCinetique) (p : position) | Rendu (d : DossierEscaladeCinetique) (r : option erreur_arbitre)
  | Accepte (d : DossierEscaladeCinetique)
  | Recu | Reponse (d : DossierEscaladeCinetique) (r : DecisionArbitrageCinetique + erreur_arbitre) | Rappele (d : DossierEscaladeCinetique) (dec : DecisionArbitrageCinetique)
  | Appel_fermer | Fermer_.

(** The label of a step of a submission. *)
Definition etiquette_de (f : FileArbitrageCinetique) (d : DossierEscaladeCinetique) (p : position) : etiquette :=
  match p with
  | Sortie r => Rendu d r
  | Envoi => if negb (clos f) && (zlen (file f) <? capacite f) then Accepte d else Avance d p
  | _ => Avance d p
  end.

Section file.
(** The answers the arbiter may give to a file. *)
Variable arbitre : DossierEscaladeCinetique -> DecisionArbitrageCinetique + erreur_arbitre -> Prop.

Inductive pas : FileArbitrageCinetique -> etiquette -> FileArbitrageCinetique -> Prop :=
  | pas_entree f d : pas f (Entree_ d) (avec_appels (appels f ++ [(Appel, d)]) f)
  | pas_appel f l1 p d l2 g q : appels f = l1 ++ (p, d) :: l2 -> pas_soumission f d p = Some (g, q) ->
      pas f (etiquette_de f d p) (avec_appels (l1 ++ match q with Some p => [(p, d)] | None => [] end ++ l2) g)
  | pas_recu f g : recevoir f = Some g -> pas f Recu g
  | pas_reponse f d r : travailleur f = EnMain d -> arbitre d r -> pas f (Reponse d r) (traiterDossier f d r)
  | pas_rappel f d dec : travailleur f = Rappel d dec -> pas f (Rappele d dec) (avec_file (file f) EnAttente f)
  | pas_fermeture f g : pas_fermer f = Some g -> pas f (if fermeture f is Ouverte then Appel_fermer else Fermer_) g.

Inductive histoire (f0 : FileArbitrageCinetique) : list etiquette -> FileArbitrageCinetique -> Prop :=
  | histoire_vide : histoire f0 [] f0
  | histoire_pas tr f e g : histoire f0 tr f -> pas f e g -> histoire f0 (tr ++ [e]) g.
End file.

(** What a history says. *)
Definition acceptes (tr : list etiquette) : list DossierEscaladeCinetique := omap (fun e => if e is Accepte d then Some d else None) tr.
Definition traites (tr : list etiquette) : list (DossierEscaladeCinetique * (DecisionArbitrageCinetique + erreur_arbitre)) :=
  omap (fun e => if e is Reponse d r then Some (d, r) else None) tr.
Definition verdicts (tr : list etiquette) : list (DossierEscaladeCinetique * DecisionArbitrageCinetique) :=
  omap (fun e => if e is Reponse d (inl dec) then Some (d, dec) else None) tr.
Definition echecs (tr : list etiquette) : list DossierEscaladeCinetique := omap (fun e => if e is Reponse d (inr _) then Some d else None) tr.
Definition rappels (tr : list etiquette) : list (DossierEscaladeCinetique * DecisionArbitrageCinetique) :=
  omap (fun e => if e is Rappele d dec then Some (d, dec) else None) tr.

(** * Invariant *)

Definition en_main (t : travail) : list DossierEscaladeCinetique := match t with EnMain d => [d] | _ => [] end.
Definition en_rappel (t : travail) : list (DossierEscaladeCinetique * DecisionArbitrageCinetique) := match t with Rappel d dec => [(d, dec)] | _ => [] end.
Definition tenu (c : cloture) : bool := match c with Tenu | FermeePosee | CanalClos => true | _ => false end.
Definition phase_fermee (c : cloture) : bool := match c with FermeePosee | CanalClos | AttendTravail | Fermee_ => true | _ => false end.
Definition phase_clos (c : cloture) : bool := match c with CanalClos | AttendTravail | Fermee_ => true | _ => false end.
(** A call that no longer touches the channel or the counters of a submission. *)
Definition tardif (p : position) : bool := match p with Appel | SousVerrou | Sortie _ => true | _ => false end.

(** The sends whose count is pending. *)
Definition a_compter (p : position) : Z := match p with Compter => 1 | _ => 0 end.
Definition somme {A} (w : A -> Z) (l : list A) : Z := fold_right (fun a n => w a + n) 0 l.
Definition pendants (f : FileArbitrageCinetique) : Z := somme (fun a => a_compter (fst a)) (appels f).

Lemma somme_poids_app {A} (w : A -> Z) l1 l2 : somme w (l1 ++ l2) = somme w l1 + somme w l2.
Proof. unfold somme. induction l1 as [|a l1 IH]; cbn [app fold_right]; [done|]. rewrite IH. lia. Qed.

Lemma somme_nonneg {A} (w : A -> Z) l : (forall a, 0 <= w a) -> 0 <= somme w l.
Proof. intros H. unfold somme. induction l as [|a l IH]; cbn [fold_right]; [lia|]. specialize (H a). lia. Qed.

Section invariant.
Context (arbitre : DossierEscaladeCinetique -> DecisionArbitrageCinetique + erreur_arbitre -> Prop).

Record bon (tr : list etiquette) (f : FileArbitrageCinetique) : Prop := {
  b_panique : panique f = false;
  b_fermee : fermee f = phase_fermee (fermeture f);
  b_clos : clos f = phase_clos (fermeture f);
  b_lecteurs : tenu (fermeture f) = true -> Forall (fun a => lecteur (fst a) = false) (appels f);
  b_tardifs : fermee f = true -> Forall (fun a => tardif (fst a) = true) (appels f);
  b_envois : Forall (fun a => fst a = Envoi -> DoitEscaladeSLM (Diagnostic_ (snd a)) = true) (appels f);
  b_escalades : Forall (fun d => DoitEscaladeSLM (Diagnostic_ d) = true) (acceptes tr);
  b_ordre : acceptes tr = (traites tr).*1 ++ en_main (travailleur f) ++ file f;
  b_borne : zlen (file f) <= capacite f;
  b_reponses : Forall (fun '(d, r) => arbitre d r) (traites tr);
  b_verdicts : verdicts tr = rappels tr ++ en_rappel (travailleur f);
  b_partage : zlen (traites tr) = zlen (verdicts tr) + zlen (echecs tr);
  b_soumis : TotalSoumis f = u64 (zlen (acceptes tr) - pendants f);
  b_arbitres : TotalArbitres f = u64 (zlen (verdicts tr));
  b_erreurs : TotalErreursArbitrage f = u64 (zlen (echecs tr));
  b_parti : travailleur f = Parti -> file f = [] /\ clos f = true;
  b_fini : fermeture f = Fermee_ -> travailleur f = Parti
}.

Lemma bon_neuf cap : bon [] (NouvelleFileArbitrageCinetique cap).
Proof. constructor; try done. cbn. change (zlen (@nil DossierEscaladeCinetique)) with 0. destruct (Z.leb_spec cap 0); lia. Qed.

Lemma u64_plus a n : u64 (u64 a + n) = u64 (a + n).
Proof. unfold u64. by rewrite Z.add_mod_idemp_l. Qed.

(** Labels that none of the observations records. *)
Definition muet (e : etiquette) : bool := match e with Accepte _ | Reponse _ _ | Rappele _ _ => false | _ => true end.

Lemma muet_rien e tr : muet e = true ->
  acceptes (tr ++ [e]) = acceptes tr /\ traites (tr ++ [e]) = traites tr /\ verdicts (tr ++ [e]) = verdicts tr /\ echecs (tr ++ [e]) = echecs tr /\ rappels (tr ++ [e]) = rappels tr.
Proof. unfold acceptes, traites, verdicts, echecs, rappels. rewrite !omap_app. by destruct e; cbn [omap list_omap]; rewrite ?app_nil_r. Qed.

Lemma bon_muet tr e f : muet e = true -> bon tr f -> bon (tr ++ [e]) f.
Proof. intros (E1 & E2 & E3 & E4 & E5)%(muet_rien e tr) []. constructor; rewrite ?E1, ?E2, ?E3, ?E4, ?E5; done. Qed.

(** A call moves from [p] to [l]; the accepted files [q] enter the channel. *)
Lemma bon_appel tr tr' f l1 l2 p d l q s i ec : bon tr f -> appels f = l1 ++ (p, d) :: l2 ->
  Forall (fun a => (tenu (fermeture f) = true -> lecteur (fst a) = false) /\ (fermee f = true -> tardif (fst a) = true) /\
    (fst a = Envoi -> DoitEscaladeSLM (Diagnostic_ (snd a)) = true)) l ->
  acceptes tr' = acceptes tr ++ q -> traites tr' = traites tr -> verdicts tr' = verdicts tr -> echecs tr' = echecs tr -> rappels tr' = rappels tr ->
  Forall (fun d => DoitEscaladeSLM (Diagnostic_ d) = true) q -> (q = [] \/ fermee f = false) -> zlen (file f ++ q) <= capacite f ->
  s = u64 (TotalSoumis f + zlen q + a_compter p - somme (fun a => a_compter (fst a)) l) ->
  bon tr' (avec_appels (l1 ++ l ++ l2) (avec_comptes s i ec (TotalArbitres f) (TotalErreursArbitrage f) (avec_file (file f ++ q) (travailleur f) f))).
Proof.
  intros [] Ha Hl Hac Ht Hv He Hr Hq Hqf Hb ->. rewrite Ha, Forall_app, Forall_cons in b_envois0.
  constructor; cbn [avec_appels avec_comptes avec_file panique fermee clos fermeture appels travailleur file capacite TotalSoumis TotalArbitres TotalErreursArbitrage];
    rewrite ?Hac, ?Ht, ?Hv, ?He, ?Hr; try done.
  - intros Ht'; pose proof (b_lecteurs0 Ht') as H. rewrite Ha, Forall_app, Forall_cons in H. rewrite !Forall_app. destruct H as (H1 & _ & H2). split_and!; try done.
    eapply Forall_impl; [exact Hl|]. cbv beta. intros a (F1 & F2 & F3). auto.
  - intros Ht'; pose proof (b_tardifs0 Ht') as H. rewrite Ha, Forall_app, Forall_cons in H. rewrite !Forall_app. destruct H as (H1 & _ & H2). split_and!; try done.
    eapply Forall_impl; [exact Hl|]. cbv beta. intros a (F1 & F2 & F3). auto.
  - rewrite !Forall_app. destruct b_envois0 as (H1 & _ & H2). split_and!; try done. eapply Forall_impl; [exact Hl|]. cbv beta. intros a (F1 & F2 & F3). auto.
  - by rewrite Forall_app.
  - by rewrite b_ordre0, <- !app_assoc.
  - rewrite b_soumis0. unfold pendants. cbn [appels avec_appels]. rewrite Ha, zlen_app, !somme_poids_app. cbn [somme fold_right fst].
    fold (somme (fun a : position * DossierEscaladeCinetique => a_compter (fst a)) l2).
    match goal with |- u64 (u64 ?a + ?b + ?c - ?e) = _ => replace (u64 a + b + c - e) with (u64 a + (b + c - e)) by lia end. rewrite u64_plus. f_equal. lia.
  - intros H. destruct (b_parti0 H) as [-> Hc]. split; [|done]. destruct Hqf as [->|Hqf]; [done|]. exfalso. rewrite b_clos0 in Hc. rewrite b_fermee0 in Hqf. by destruct (fermeture f).
Qed.

Lemma u64_soi a : u64 (u64 a) = u64 a.
Proof. unfold u64. by rewrite Z.mod_mod. Qed.

Lemma bon_pas_appel tr f l1 p d l2 g q : bon tr f -> appels f = l1 ++ (p, d) :: l2 -> pas_soumission f d p = Some (g, q) ->
  bon (tr ++ [etiquette_de f d p]) (avec_appels (l1 ++ match q with Some p => [(p, d)] | None => [] end ++ l2) g).
Proof.
  intros Hb Ha Hp. pose proof Hb as []. rewrite Ha in b_envois0. rewrite Forall_app, Forall_cons in b_envois0. destruct b_envois0 as (_ & Henv & _). cbn [fst snd] in Henv.
  assert (lecteur p = true -> tenu (fermeture f) = false) as Hlec.
  { intros Hl. destruct (tenu (fermeture f)) eqn:Et; [|done]. specialize (b_lecteurs0 eq_refl). rewrite Ha, Forall_app, Forall_cons in b_lecteurs0.
    destruct b_lecteurs0 as (_ & H & _). cbn [fst] in H. congruence. }
  assert (tardif p = false -> fermee f = false) as Htar.
  { intros Hl. destruct (fermee f) eqn:Et; [|done]. specialize (b_tardifs0 eq_refl). rewrite Ha, Forall_app, Forall_cons in b_tardifs0.
    destruct b_tardifs0 as (_ & H & _). cbn [fst] in H. congruence. }
  assert (forall e i ec l, muet e = true ->
    Forall (fun a => (tenu (fermeture f) = true -> lecteur (fst a) = false) /\ (fermee f = true -> tardif (fst a) = true) /\ (fst a = Envoi -> DoitEscaladeSLM (Diagnostic_ (snd a)) = true)) l ->
    bon (tr ++ [e]) (avec_appels (l1 ++ l ++ l2) (avec_comptes (u64 (TotalSoumis f + a_compter p - somme (fun a => a_compter (fst a)) l)) i ec
      (TotalArbitres f) (TotalErreursArbitrage f) f))) as Hmuet.
  { intros e i ec l He Hl. destruct (muet_rien e tr He) as (E1 & E2 & E3 & E4 & E5).
    pose proof (bon_appel tr (tr ++ [e]) f l1 l2 p d l [] (u64 (TotalSoumis f + a_compter p - somme (fun a => a_compter (fst a)) l)) i ec Hb Ha Hl) as H.
    rewrite !app_nil_r in H. apply H; try done; [by left|]. f_equal. change (zlen (@nil DossierEscaladeCinetique)) with 0. lia. }
  assert (u64 (TotalSoumis f + 0 - 0) = TotalSoumis f) as Hid by (rewrite b_soumis0, Z.add_0_r, Z.sub_0_r; apply u64_soi).
  assert (avec_comptes (TotalSoumis f) (TotalIgnoresNominal f) (TotalEcartesFilePleine f) (TotalArbitres f) (TotalErreursArbitrage f) f = f) as Hf by (by destruct f).
  assert (forall p', etiquette_de f d p = Avance d p -> a_compter p = 0 -> a_compter p' = 0 -> (tenu (fermeture f) = true -> lecteur p' = false) ->
    (fermee f = true -> tardif p' = true) -> (p' = Envoi -> DoitEscaladeSLM (Diagnostic_ d) = true) ->
    bon (tr ++ [Avance d p]) (avec_appels (l1 ++ [(p', d)] ++ l2) f)) as Hsimple.
  { intros p' He H0 H0' G1 G2 G3. pose proof (Hmuet (Avance d p) (TotalIgnoresNominal f) (TotalEcartesFilePleine f) [(p', d)] eq_refl) as H.
    cbn [somme fold_right fst] in H. rewrite H0, H0' in H. change (0 + 0) with 0 in H. rewrite Hid, Hf in H. apply H. by constructor. }
  destruct p; cbn [pas_soumission] in Hp.
  - destruct (ecrivain (fermeture f)) eqn:Ee; [done|]. injection Hp as <- <-. apply Hsimple; try done. intros H. by destruct (fermeture f).
  - destruct (fermee f) eqn:Ef; [|destruct (DoitEscaladeSLM (Diagnostic_ d)) eqn:Ed; cbn [negb] in Hp]; injection Hp as <- <-; apply Hsimple; try done;
      intros H; rewrite Hlec in H; done.
  - specialize (Htar eq_refl). specialize (Hlec eq_refl). assert (clos f = false) as Hc by (rewrite b_clos0; rewrite b_fermee0 in Htar; by destruct (fermeture f)).
    rewrite Hc in Hp. unfold etiquette_de. rewrite Hc. cbn [negb andb]. destruct (Z.ltb_spec (zlen (file f)) (capacite f)); injection Hp as <- <-.
    2: { unfold etiquette_de in Hsimple. rewrite Hc in Hsimple. rewrite (proj2 (Z.ltb_ge _ _)) in Hsimple by done. apply Hsimple; try done; congruence. }
    pose proof (bon_appel tr (tr ++ [Accepte d]) f l1 l2 Envoi d [(Compter, d)] [d] (TotalSoumis f) (TotalIgnoresNominal f) (TotalEcartesFilePleine f) Hb Ha) as H'.
    replace (avec_comptes _ _ _ _ _ _) with (avec_file (file f ++ [d]) (travailleur f) f) in H' by (by destruct f). apply H'; clear H'.
    + constructor; [|done]. cbn [fst]. split_and!; try done; congruence.
    + unfold acceptes. by rewrite omap_app.
    + unfold traites. rewrite omap_app. cbn [omap list_omap]. by rewrite app_nil_r.
    + unfold verdicts. rewrite omap_app. cbn [omap list_omap]. by rewrite app_nil_r.
    + unfold echecs. rewrite omap_app. cbn [omap list_omap]. by rewrite app_nil_r.
    + unfold rappels. rewrite omap_app. cbn [omap list_omap]. by rewrite app_nil_r.
    + constructor; [by apply Henv|done].
    + by right.
    + rewrite zlen_app. change (zlen [d]) with 1. lia.
    + change (zlen [d]) with 1. cbn [a_compter somme fold_right fst]. rewrite b_soumis0. replace (u64 _ + 1 + 0 - (1 + 0)) with (u64 (zlen (acceptes tr) - pendants f)) by lia. by rewrite u64_soi.
  - injection Hp as <- <-. pose proof (Hmuet (Avance d Compter) (TotalIgnoresNominal f) (TotalEcartesFilePleine f) [(Sortie None, d)] eq_refl) as H.
    cbn [somme fold_right fst a_compter] in H. change (0 + 0) with 0 in H. rewrite Z.sub_0_r in H. apply H. constructor; [|done]. split_and!; try done. cbn [fst lecteur]. intros Ht. by rewrite Hlec in Ht.
  - injection Hp as <- <-. pose proof (Hmuet (Avance d CompterEcarte) (TotalIgnoresNominal f) (u64 (TotalEcartesFilePleine f + 1)) [(Sortie (Some ErrFileArbitragePleine), d)] eq_refl) as H.
    cbn [somme fold_right fst a_compter] in H. change (0 + 0) with 0 in H. rewrite Hid in H. apply H. constructor; [|done]. split_and!; try done. cbn [fst lecteur]. intros Ht. by rewrite Hlec in Ht.
  - injection Hp as <- <-. pose proof (Hmuet (Avance d CompterIgnore) (u64 (TotalIgnoresNominal f + 1)) (TotalEcartesFilePleine f) [(Sortie None, d)] eq_refl) as H.
    cbn [somme fold_right fst a_compter] in H. change (0 + 0) with 0 in H. rewrite Hid in H. apply H. constructor; [|done]. split_and!; try done. cbn [fst lecteur]. intros Ht. by rewrite Hlec in Ht.
  - injection Hp as <- <-. pose proof (Hmuet (Rendu d r) (TotalIgnoresNominal f) (TotalEcartesFilePleine f) [] eq_refl) as H.
    cbn [somme fold_right fst a_compter] in H. rewrite Hid, Hf in H. by apply H.
Qed.

(** The steps of the worker and of [Fermer]. *)
Lemma bon_recu tr f g : bon tr f -> recevoir f = Some g -> bon (tr ++ [Recu]) g.
Proof.
  intros Hb Hr. apply bon_muet; [done|]. destruct Hb. unfold recevoir in Hr. destruct (travailleur f) eqn:Et; [|done..].
  destruct (file f) as [|d q] eqn:Eq; [destruct (clos f) eqn:Ec; [|done]|]; injection Hr as <-; constructor; try done.
  - cbn. congruence.
  - cbn. rewrite zlen_cons in b_borne0. lia.
  - intros H. by specialize (b_fini0 H).
Qed.

Lemma bon_reponse tr f d r : bon tr f -> travailleur f = EnMain d -> arbitre d r -> bon (tr ++ [Reponse d r]) (traiterDossier f d r).
Proof.
  intros [] Ht Hr. rewrite Ht in *. unfold acceptes, traites, verdicts, echecs, rappels in *.
  assert (fermeture f <> Fermee_) as Hf by (intros H; by specialize (b_fini0 H)).
  destruct r as [dec|err]; constructor;
    cbn [traiterDossier avec_comptes avec_file panique fermee clos fermeture appels travailleur file capacite TotalSoumis TotalArbitres TotalErreursArbitrage];
    unfold acceptes, traites, verdicts, echecs, rappels; rewrite ?omap_app; cbn [omap list_omap]; rewrite ?app_nil_r; try done.
  all: try (rewrite b_ordre0, fmap_app, <- !app_assoc; done).
  all: try (rewrite Forall_app; split; [done|by constructor]).
  all: try (rewrite !zlen_app; change (zlen [_]) with 1; lia).
  all: try (rewrite zlen_app; change (zlen [_]) with 1; rewrite ?b_arbitres0, ?b_erreurs0; apply u64_plus).
  all: try (rewrite b_verdicts0; cbn [en_rappel]; by rewrite ?app_nil_r).
Qed.

Lemma bon_rappel tr f d dec : bon tr f -> travailleur f = Rappel d dec -> bon (tr ++ [Rappele d dec]) (avec_file (file f) EnAttente f).
Proof.
  intros [] Ht. rewrite Ht in *. unfold acceptes, traites, verdicts, echecs, rappels in *.
  constructor; cbn [avec_file panique fermee clos fermeture appels travailleur file capacite TotalSoumis TotalArbitres TotalErreursArbitrage];
    unfold acceptes, traites, verdicts, echecs, rappels; rewrite ?omap_app; cbn [omap list_omap]; rewrite ?app_nil_r; try done.
  intros H. by specialize (b_fini0 H).
Qed.

Lemma bon_fermer tr f g e : muet e = true -> bon tr f -> pas_fermer f = Some g -> bon (tr ++ [e]) g.
Proof.
  intros He Hb Hg. apply bon_muet; [done|]. destruct Hb. unfold pas_fermer in Hg.
  destruct (fermeture f) eqn:Ef; cbn [phase_fermee phase_clos tenu] in *; [| | | | | |done].
  - injection Hg as <-. by constructor.
  - destruct (existsb _ _) eqn:Ee; [done|]. injection Hg as <-. constructor; try done. intros _. apply Forall_forall. intros a Ha.
    destruct (lecteur a.1) eqn:El; [|done]. assert (existsb (fun a => lecteur (fst a)) (appels f) = true) as H; [|congruence]. apply existsb_exists. exists a. by rewrite list_elem_of_In in Ha.
  - injection Hg as <-. constructor; try done; cbn. intros _. eapply Forall_impl; [by apply b_lecteurs0|]. cbv beta. intros [p d] H. by destruct p.
  - injection Hg as <-. constructor; try done; cbn; [by rewrite b_panique0, b_clos0|]. intros H. destruct (b_parti0 H). done.
  - injection Hg as <-. by constructor.
  - destruct (travailleur f) eqn:Et; try done. injection Hg as <-. constructor; try done; cbn; by rewrite ?Et.
Qed.

Lemma bon_pas tr f e g : bon tr f -> pas arbitre f e g -> bon (tr ++ [e]) g.
Proof.
  intros Hb Hp. revert Hb. destruct Hp; intros Hb.
  - apply bon_muet; [done|]. destruct Hb. constructor; try done; cbn [avec_appels appels]; rewrite ?Forall_app; try (intros H; split; [auto|by constructor]).
    + split; [done|by constructor].
    + unfold pendants in *. cbn [avec_appels appels TotalSoumis]. rewrite b_soumis0. rewrite somme_poids_app. f_equal. cbn. lia.
  - by apply (bon_pas_appel _ _ l1 p d l2 g q).
  - by apply (bon_recu _ f).
  - by apply bon_reponse.
  - by apply bon_rappel.
  - apply (bon_fermer _ f); [by destruct (fermeture f)|done|done].
Qed.

Lemma histoire_bonne cap tr f : histoire arbitre (NouvelleFileArbitrageCinetique cap) tr f -> bon tr f.
Proof. induction 1; [apply bon_neuf|by apply (bon_pas _ f)]. Qed.

Lemma plus_d_acceptation tr f e g d : bon tr f -> fermee f = true -> pas arbitre f e g -> e <> Accepte d.
Proof.
  intros Hb Hf Hp. revert Hb Hf. destruct Hp; intros Hb Hf; try done; [|by destruct (fermeture f)].
  pose proof (b_tardifs _ _ Hb Hf) as Ht. rewrite H, Forall_app, Forall_cons in Ht. destruct Ht as (_ & Ht & _). by destruct p.
Qed.

(** * Termination of [Fermer] *)

(** Everything but a new call of [SoumettreNonBloquant] or of [Fermer]. *)
Definition interne (e : etiquette) : bool := match e with Entree_ _ | Appel_fermer => false | _ => true end.

Definition poids (p : position) : Z :=
  match p with Appel => 9 | SousVerrou => 8 | Envoi => 7 | Compter | CompterEcarte | CompterIgnore => 2 | Sortie _ => 1 end.
Definition poids_travail (t : travail) : Z := match t with EnMain _ => 3 | Rappel _ _ => 2 | EnAttente => 1 | Parti => 0 end.
Definition poids_cloture (c : cloture) : Z := match c with Ouverte => 6 | Demande => 5 | Tenu => 4 | FermeePosee => 3 | CanalClos => 2 | AttendTravail => 1 | Fermee_ => 0 end.
Definition mesure (f : FileArbitrageCinetique) : Z :=
  somme (fun a => poids (fst a)) (appels f) + 4 * zlen (file f) + poids_travail (travailleur f) + poids_cloture (fermeture f).

Lemma mesure_nonneg f : 0 <= mesure f.
Proof.
  unfold mesure. assert (0 <= somme (fun a => poids (fst a)) (appels f)) by (apply somme_nonneg; intros [[] ?]; cbn; lia).
  pose proof (zlen_nonneg (file f)). destruct (travailleur f), (fermeture f); cbn; lia.
Qed.

Lemma interne_mesure tr f e g : bon tr f -> interne e = true -> pas arbitre f e g -> mesure g < mesure f.
Proof.
  intros Hb Hi Hp. revert Hb Hi. destruct Hp; intros Hb Hi; unfold mesure; try done.
  - assert (forall (g0 : FileArbitrageCinetique) l, appels g0 = l1 ++ l ++ l2 -> somme (fun a : position * DossierEscaladeCinetique => poids (fst a)) l + 4 * zlen (file g0) +
      poids_travail (travailleur g0) + poids_cloture (fermeture g0) < poids p + 4 * zlen (file f) + poids_travail (travailleur f) + poids_cloture (fermeture f) ->
      somme (fun a => poids (fst a)) (appels g0) + 4 * zlen (file g0) + poids_travail (travailleur g0) + poids_cloture (fermeture g0) <
      somme (fun a => poids (fst a)) (appels f) + 4 * zlen (file f) + poids_travail (travailleur f) + poids_cloture (fermeture f)) as Hd.
    { intros g0 l Hg Hlt. rewrite Hg, H, !somme_poids_app. cbn [somme fold_right fst]. fold (somme (fun a : position * DossierEscaladeCinetique => poids (fst a)) l2). lia. }
    eapply Hd; [reflexivity|]. pose proof (b_clos _ _ Hb) as Hc. pose proof (b_fermee _ _ Hb) as Hfe. pose proof (b_tardifs _ _ Hb) as Hta.
    destruct p; cbn [pas_soumission] in H0; [destruct (ecrivain _); [done|]|destruct (fermee f); [|destruct (negb _)]|destruct (clos f) eqn:Ec; [|destruct (zlen _ <? _)]|..];
      injection H0 as <- <-; cbn; try lia.
    + exfalso. assert (fermee f = true) as Hf by (rewrite Hfe; by destruct (fermeture f)). specialize (Hta Hf).
      rewrite H, Forall_app, Forall_cons in Hta. by destruct Hta as (_ & H2 & _).
    + rewrite zlen_app. change (zlen [d]) with 1. lia.
  - unfold recevoir in H. destruct (travailleur f) eqn:Et; [|done..]. destruct (file f) eqn:Eq; [destruct (clos f); [|done]|]; injection H as <-;
      cbn [avec_file travailleur file appels fermeture poids_travail]; rewrite ?zlen_cons; change (zlen (@nil DossierEscaladeCinetique)) with 0; lia.
  - rewrite H. destruct r; cbn -[somme]; lia.
  - rewrite H. cbn -[somme]. lia.
  - unfold pas_fermer in H. destruct (fermeture f) eqn:Ef; repeat case_match; try done; injection H as <-; cbn -[somme]; try lia.
    match goal with E : travailleur f = Parti |- _ => rewrite E; cbn -[somme]; lia end.
Qed.

(** [Fermer] never waits for nothing. *)
Lemma interne_vivant tr f : (forall d, exists r, arbitre d r) -> bon tr f -> fermeture f <> Ouverte -> fermeture f <> Fermee_ ->
  exists e g, interne e = true /\ pas arbitre f e g.
Proof.
  intros Har Hb Ho Hf. assert (forall g, pas_fermer f = Some g -> exists e g, interne e = true /\ pas arbitre f e g) as Hfer.
  { intros g Hg. eexists _, g. split; [|by apply pas_fermeture]. by destruct (fermeture f). }
  destruct (pas_fermer f) as [g|] eqn:Eg; [by apply (Hfer g)|]. clear Hfer. unfold pas_fermer in Eg. destruct (fermeture f) eqn:Ef; try done.
  - destruct (existsb _ _) eqn:Ee; [|done]. apply existsb_exists in Ee as ([p d] & Hin & Hl). rewrite <- list_elem_of_In in Hin. apply list_elem_of_split in Hin as [l1 [l2 Ha]].
    assert (exists g q, pas_soumission f d p = Some (g, q)) as (g & q & Hg) by (destruct p; try done; cbn [pas_soumission]; repeat case_match; by eexists _, _).
    eexists _, _. split; [|by apply (pas_appel _ f l1 p d l2 g q)]. destruct p; try done. cbn [etiquette_de]. by case_match.
  - destruct (travailleur f) as [|d|d dec|] eqn:Et; try done.
    + destruct (file f) as [|d q] eqn:Eq; eexists Recu, _; (split; [done|]); apply pas_recu; unfold recevoir; rewrite Et, Eq; [|done].
      by rewrite (b_clos _ _ Hb), Ef.
    + destruct (Har d) as [r Hr]. eexists _, _. split; [|by apply (pas_reponse _ f d r)]. done.
    + eexists _, _. split; [|by apply (pas_rappel _ f d dec)]. done.
Qed.
End invariant.

(** * Theorem *)

(** C24: whatever the interleaving of the submissions, of the worker, of the arbiter's
    answers and of [Fermer], nothing panics; the accepted files, all escalated, are in
    order those the arbiter has answered, the one in the worker's hands and those of
    the channel, never more than its capacity; each verdict is passed on once, in
    order.  When [Fermer] has returned, every accepted file has its answer and
    [TotalSoumis] is [TotalArbitres] plus [TotalErreursArbitrage] (on 64 bits);
    nothing is accepted once the queue is closed.  As long as [Fermer] has not
    returned, some step other than a new call is possible, and each such step
    decreases a natural measure. *)
Theorem fermer_bilan (arbitre : DossierEscaladeCinetique -> DecisionArbitrageCinetique + erreur_arbitre -> Prop) cap tr f :
  (forall d, exists r, arbitre d r) -> histoire arbitre (NouvelleFileArbitrageCinetique cap) tr f ->
  panique f = false /\ Forall (fun d => DoitEscaladeSLM (Diagnostic_ d) = true) (acceptes tr) /\
  acceptes tr = (traites tr).*1 ++ en_main (travailleur f) ++ file f /\ zlen (file f) <= capacite f /\ Forall (fun '(d, r) => arbitre d r) (traites tr) /\
  verdicts tr = rappels tr ++ en_rappel (travailleur f) /\
  (fermeture f = Fermee_ -> acceptes tr = (traites tr).*1 /\ verdicts tr = rappels tr /\
    TotalSoumis f = u64 (TotalArbitres f + TotalErreursArbitrage f) /\ TotalSoumis f = u64 (zlen (acceptes tr))) /\
  (forall e g d, fermee f = true -> pas arbitre f e g -> e <> Accepte d) /\
  (fermeture f <> Ouverte -> fermeture f <> Fermee_ -> exists e g, interne e = true /\ pas arbitre f e g) /\
  (forall e g, interne e = true -> pas arbitre f e g -> 0 <= mesure g < mesure f).
Proof.
  intros Har Hh. apply histoire_bonne in Hh as Hb. pose proof Hb as []. split_and!; try done.
  - intros Hf. specialize (b_fini0 Hf). destruct (b_parti0 b_fini0) as [Hq Hc]. rewrite b_fini0, Hq in *. cbn [en_main en_rappel] in *. rewrite !app_nil_r in *.
    assert (fermee f = true) as Hfe by (by rewrite b_fermee0, Hf). assert (pendants f = 0) as Hp.
    { unfold pendants. specialize (b_tardifs0 Hfe). clear -b_tardifs0. induction b_tardifs0 as [|[p d] l Hp _ IH]; [done|]. cbn [somme fold_right fst] in *.
      unfold somme in IH. rewrite IH. by destruct p. }
    split_and!; try done; rewrite b_soumis0, Hp, Z.sub_0_r; [|done]. rewrite b_arbitres0, b_erreurs0, u64_plus, Z.add_comm, u64_plus. f_equal.
    rewrite b_ordre0. unfold zlen. rewrite length_fmap. unfold zlen in b_partage0. lia.
  - intros e g d Hfe Hp. by apply (plus_d_acceptation arbitre tr f e g).
  - intros. by apply (interne_vivant arbitre tr).
  - intros e g Hi Hp. split; [apply mesure_nonneg|by apply (interne_mesure arbitre tr f e)].
Qed.

(** The encoder behind the queue: an arbiter that always answers. *)
Definition encodeur (d : DossierEscaladeCinetique) (r : DecisionArbitrageCinetique + erreur_arbitre) : Prop :=
  ArbitrerEpisode tete_obstinee false None (Diagnostic_ d) = Done r.

Lemma encodeur_repond d : exists r, encodeur d r.
Proof.
  unfold encodeur, ArbitrerEpisode. destruct (DoitEscaladeSLM _); cbn [negb]; [|by eexists]. destruct (proj1 (wp_exists _ _) (encoder_ok (Diagnostic_ d))) as (x & -> & _).
  rewrite run_bind_done. cbv beta iota delta [tete_obstinee]. destruct (AppliquerVetoPhysiqueCinetique _ _) as [[v veto] motif].
  destruct (veto && (0 <=? indiceDuVerdict v)) eqn:Eb; [|rewrite run_bind_done; by eexists]. apply andb_prop in Eb as [_ Hi%Z.leb_le]. pose proof (indice_borne v).
  rewrite (idx_lookup _ _ (f32_of_Z 1)), !run_bind_done by (try (apply lookup_replicate; split; [done|]); lia). by eexists.
Qed.

Definition dossier_exemple : DossierEscaladeCinetique :=
  Dossier "/usr/bin/sauvegarde" (Diagnostic 81 0 OrientationEcartStructurel 11 1 4000 0 (replicate 12 0) (replicate 12 0) (episode_exemple 65536)).

(** Plays one step of the only call, of the worker, of [Fermer]. *)
Ltac suite P := match goal with H : histoire _ _ _ _ |- _ =>
  let H' := fresh "H" in pose proof (histoire_pas _ _ _ _ _ _ H P) as H'; clear H; cbn -[u64 DoitEscaladeSLM dossier_exemple] in H' end.
Ltac joue_appel := match goal with H : histoire _ _ _ ?f |- _ => let P := constr:(pas_appel encodeur f [] _ dossier_exemple [] _ _ eq_refl eq_refl) in suite P end.
Ltac joue_recu := match goal with H : histoire _ _ _ ?f |- _ => let P := constr:(pas_recu encodeur f _ eq_refl) in suite P end.
Ltac joue_fermer := match goal with H : histoire _ _ _ ?f |- _ => let P := constr:(pas_fermeture encodeur f _ eq_refl) in suite P end.

(** A file is submitted, [Fermer] is called, the worker drains the queue. *)
Lemma seance_fermee : exists tr f, histoire encodeur (NouvelleFileArbitrageCinetique 1) tr f /\ fermeture f = Fermee_ /\ acceptes tr = [dossier_exemple].
Proof.
  pose proof (histoire_vide encodeur (NouvelleFileArbitrageCinetique 1)) as H. match type of H with histoire _ _ _ ?f => suite (pas_entree encodeur f dossier_exemple) end.
  do 3 joue_appel. joue_fermer. do 2 joue_appel. joue_fermer. joue_recu. do 3 joue_fermer.
  destruct (encodeur_repond dossier_exemple) as [[dec|e] Hr]; [|by vm_compute in Hr].
  match goal with H : histoire _ _ _ ?f |- _ => suite (pas_reponse encodeur f dossier_exemple (inl dec) eq_refl Hr) end.
  match goal with H : histoire _ _ _ ?f |- _ => suite (pas_rappel encodeur f dossier_exemple dec eq_refl) end.
  joue_recu. joue_fermer. eexists _, _. split; [eassumption|]. by split.
Qed.

Lemma fermer_bilan_witness : exists tr f, histoire encodeur (NouvelleFileArbitrageCinetique 1) tr f /\ fermeture f = Fermee_ /\
  (traites tr).*1 = [dossier_exemple] /\ TotalSoumis f = 1 /\ u64 (TotalArbitres f + TotalErreursArbitrage f) = 1.
Proof.
  destruct seance_fermee as (tr & f & Hh & Hf & Ha). exists tr, f. split; [done|]. split; [done|].
  destruct (fermer_bilan encodeur 1 tr f encodeur_repond Hh) as (_ & _ & _ & _ & _ & _ & Hb & _). destruct (Hb Hf) as (H1 & _ & H2 & H3).
  rewrite Ha in *. split; [done|]. rewrite <- H2, H3. by split.
Defined.
