(* ===== verification/Pcap.v ===== *)
(** Captured traffic (src/dns_pcap.go): the reader of pcap files, the decoding of the
    link, network and transport layers, and the delivery of the DNS questions to a
    visitor.  The theorems: any file is read to its end or to its first cut without
    failure, every record is counted once, and a capture of questions under any
    admitted encapsulation is read back exactly. *)
From stdpp Require Import list_numbers.
From S2P Require Import Prelude DnsQuestion DnsMessage Texte ProcTexte.
Local Open Scope Z_scope.

Inductive erreur_pcap := ErrPCAPBadMagic | ErrPCAPLinkType | ErrPCAPTruncated | ErreurParse (e : erreurDNS) | ErreurVisite (motif : list Z).

Record PCAPIngestStats := Stats {
  Records : Z; LinkType : Z; UDPQuestions : Z; UDPResponses : Z; TCPSegments : Z; OtherPackets : Z; IPFragments : Z; TruncatedPackets : Z;
  Accepted : Z; RejectedTooShort : Z; RejectedInvalidLabel : Z; RejectedLoopPointer : Z; RejectedNameTooLong : Z; RejectedContract : Z
}.
Definition stats_nulles (lien : Z) : PCAPIngestStats := Stats 0 lien 0 0 0 0 0 0 0 0 0 0 0 0.

(** The counters a packet increments. *)
Inductive compteur := CRecord | CQuestion | CReponse | CTCP | CAutre | CFragment | CTronque | CAccepte | CRejet (e : erreurDNS).
Definition compter (c : compteur) (s : PCAPIngestStats) : PCAPIngestStats :=
  let '(Stats r l q u t o f k a e1 e2 e3 e4 e5) := s in
  match c with
  | CRecord => Stats (u32 (r + 1)) l q u t o f k a e1 e2 e3 e4 e5
  | CQuestion => Stats r l (u32 (q + 1)) u t o f k a e1 e2 e3 e4 e5
  | CReponse => Stats r l q (u32 (u + 1)) t o f k a e1 e2 e3 e4 e5
  | CTCP => Stats r l q u (u32 (t + 1)) o f k a e1 e2 e3 e4 e5
  | CAutre => Stats r l q u t (u32 (o + 1)) f k a e1 e2 e3 e4 e5
  | CFragment => Stats r l q u t o (u32 (f + 1)) k a e1 e2 e3 e4 e5
  | CTronque => Stats r l q u t o f (u32 (k + 1)) a e1 e2 e3 e4 e5
  | CAccepte => Stats r l q u t o f k (u32 (a + 1)) e1 e2 e3 e4 e5
  | CRejet ErrPacketTooShort => Stats r l q u t o f k a (u32 (e1 + 1)) e2 e3 e4 e5
  | CRejet ErrInvalidLabel => Stats r l q u t o f k a e1 (u32 (e2 + 1)) e3 e4 e5
  | CRejet ErrLoopPointer => Stats r l q u t o f k a e1 e2 (u32 (e3 + 1)) e4 e5
  | CRejet ErrNameTooLong => Stats r l q u t o f k a e1 e2 e3 (u32 (e4 + 1)) e5
  | CRejet ErrQuestionContract => Stats r l q u t o f k a e1 e2 e3 e4 (u32 (e5 + 1))
  | CRejet _ => s
  end.

Record PCAPQuestionMeta := Meta { M_Record : Z; M_Timestamp : Z; M_SourceIP : list Z; M_DestIP : list Z; M_IPv6 : bool; M_SourcePort : Z }.

(** ** The layers of a packet *)

(** The link layer: the protocol above it and its octets; [None] is another packet. *)
Definition couche_lien (linkType : Z) (packet : list Z) : run (option (Z * list Z)) :=
  if linkType =? 276 then
    if zlen packet <? 20 then Done None else p ← be16 packet 0; r ← slice packet 20 (zlen packet); Done (Some (p, r))
  else if linkType =? 113 then
    if zlen packet <? 16 then Done None else p ← be16 packet 14; r ← slice packet 16 (zlen packet); Done (Some (p, r))
  else if linkType =? 1 then
    if zlen packet <? 14 then Done None else
    p ← be16 packet 12; r ← slice packet 14 (zlen packet);
    if p =? 0x8100 then
      if zlen r <? 4 then Done None else p ← be16 r 2; r ← slice r 4 (zlen r); Done (Some (p, r))
    else Done (Some (p, r))
  else if linkType =? 228 then Done (Some (0x0800, packet))
  else if linkType =? 229 then Done (Some (0x86dd, packet))
  else if linkType =? 101 then
    if zlen packet =? 0 then Done None else
    b ← idx packet 0;
    Done (Some (if Z.shiftr b 4 =? 4 then 0x0800 else if Z.shiftr b 4 =? 6 then 0x86dd else 0, packet))
  else Done (Some (0, packet)).

Record datagramme := Datagramme { d_transport : Z; d_charge : list Z; d_source : list Z; d_dest : list Z; d_ipv6 : bool }.

(** The network layer; addresses on sixteen octets. *)
Definition couche_reseau (protocol : Z) (packet : list Z) (src dst : list Z) : run (datagramme + compteur) :=
  if protocol =? 0x0800 then
    if zlen packet <? 20 then Done (inr CAutre) else
    b ← idx packet 0;
    if negb (Z.shiftr b 4 =? 4) then Done (inr CAutre) else
    let headerLen := Z.land b 0x0f * 4 in
    totalLen ← be16 packet 2;
    if (headerLen <? 20) || (totalLen <? headerLen) || (zlen packet <? totalLen) then Done (inr CAutre) else
    frag ← be16 packet 6;
    if negb (Z.land frag 0x1fff =? 0) then Done (inr CFragment) else
    s ← slice packet 12 16; d ← slice packet 16 20; t ← idx packet 9; c ← slice packet headerLen totalLen;
    Done (inl (Datagramme t c (copy_into src s) (copy_into dst d) false))
  else if protocol =? 0x86dd then
    if zlen packet <? 40 then Done (inr CAutre) else
    b ← idx packet 0;
    if negb (Z.shiftr b 4 =? 6) then Done (inr CAutre) else
    payloadLen ← be16 packet 4;
    if zlen packet <? 40 + payloadLen then Done (inr CAutre) else
    s ← slice packet 8 24; d ← slice packet 24 40; t ← idx packet 6; c ← slice packet 40 (40 + payloadLen);
    Done (inl (Datagramme t c (copy_into src s) (copy_into dst d) true))
  else Done (inr CAutre).

(** The transport layer: the source port and the octets of a question, or what the
    packet counts for. *)
Definition couche_transport (transport : Z) (packet : list Z) : run ((Z * list Z) + compteur) :=
  if zlen packet <? 4 then Done (inr CAutre) else
  source ← be16 packet 0; destination ← be16 packet 2;
  if transport =? 6 then Done (inr (if (source =? 53) || (destination =? 53) then CTCP else CAutre)) else
  if transport =? 17 then
    if zlen packet <? 8 then Done (inr CAutre) else
    udpLen ← be16 packet 4;
    if (udpLen <? 8) || (zlen packet <? udpLen) then Done (inr CAutre) else
    if destination =? 53 then raw ← slice packet 8 udpLen; Done (inl (source, raw)) else
    Done (inr (if source =? 53 then CReponse else CAutre))
  else Done (inr CAutre).

(** ** The reader *)

Section lecteur.
(** The visitor: its own state, and an error that stops the reading. *)
Context {V : Type} (visit : V -> PCAPQuestionMeta -> DNSEvent -> V * option (list Z)).
Variable tolerant : bool.

Record etat := Etat { e_stats : PCAPIngestStats; e_event : DNSEvent; e_visite : V }.
Definition noter (c : compteur) (x : etat) : etat := Etat (compter c (e_stats x)) (e_event x) (e_visite x).

(** A question: parsed, counted, handed to the visitor. *)
Definition traiter_question (meta : PCAPQuestionMeta) (raw : list Z) (x : etat) : run (etat * option erreur_pcap) :=
  let ev := e_event x in
  let ev := Event (M_Timestamp meta) (ID ev) (Flags ev) (QType ev) (QClass ev) (NameLen ev) (Name ev) (domaine ev) (LabelCount ev) (MaxLabelLen ev) (HasEncoding ev)
              (M_SourceIP meta) (Grammar ev) in
  '(ev', err) ← (if tolerant then ParseDNSQueryTolerant raw (Some ev) else ParseDNSQuery raw (Some ev));
  let ev' := default ev ev' in
  let stats := compter CQuestion (e_stats x) in
  match err with
  | None =>
      let '(v, e) := visit (e_visite x) meta ev' in
      Done (Etat (compter CAccepte stats) ev' v, ErreurVisite <$> e)
  | Some ErrTooManyRRs => Done (Etat stats ev' (e_visite x), Some (ErreurParse ErrTooManyRRs))
  | Some ErrRDataTooLong => Done (Etat stats ev' (e_visite x), Some (ErreurParse ErrRDataTooLong))
  | Some e => Done (Etat (compter (CRejet e) stats) ev' (e_visite x), None)
  end.

Definition classifyPCAPPacket (packet : list Z) (linkType : Z) (meta : PCAPQuestionMeta) (x : etat) : run (etat * option erreur_pcap) :=
  l ← couche_lien linkType packet;
  match l with
  | None => Done (noter CAutre x, None)
  | Some (protocol, packet) =>
      n ← couche_reseau protocol packet (M_SourceIP meta) (M_DestIP meta);
      match n with
      | inr c => Done (noter c x, None)
      | inl d =>
          t ← couche_transport (d_transport d) (d_charge d);
          match t with
          | inr c => Done (noter c x, None)
          | inl (port, raw) => traiter_question (Meta (M_Record meta) (M_Timestamp meta) (d_source d) (d_dest d) (d_ipv6 d) port) raw x
          end
      end
  end.

(** [io.ReadFull] of [n] octets of what remains of the file: [None] when the file ends
    before. *)
Definition lire_tout (n : Z) (reste : list Z) : option (list Z * list Z) :=
  if zlen reste <? n then None else Some (take (Z.to_nat n) reste, drop (Z.to_nat n) reste).

(** The body of a record, consumed by chunks of the buffer; the last chunk stays. *)
Definition lire_corps (tampon included : Z) (reste : list Z) : run (option (list Z * list Z)) :=
  loop (fun '(remaining, dernier, reste) =>
    if remaining =? 0 then Done (inr (Some (dernier, reste))) else
    let chunk := Z.min remaining tampon in
    match lire_tout chunk reste with
    | None => Done (inr None)
    | Some (data, reste) => Done (inl (remaining - chunk, data, reste))
    end) (S (length reste) + 1)%nat (included, [], reste).

Definition lire32 (gros : bool) (l : list Z) (i : Z) : run Z :=
  if gros then be32 l i else s ← slice l i (i + 4); Done (unle s).

Record format := Format { f_gros : bool; f_nano : bool; f_lien : Z; f_tampon : Z }.

(** One record: [inl] to go on, [inr] at the end of the file or on an error. *)
Definition lire_enregistrement (fmt : format) (s : list Z * etat) : run ((list Z * etat) + (etat * option erreur_pcap)) :=
  let '(reste, x) := s in
  if zlen reste =? 0 then Done (inr (x, None)) else
  match lire_tout 16 reste with
  | None => Done (inr (x, Some ErrPCAPTruncated))
  | Some (entete, reste) =>
      included ← lire32 (f_gros fmt) entete 8; original ← lire32 (f_gros fmt) entete 12;
      c ← lire_corps (f_tampon fmt) included reste;
      match c with
      | None => Done (inr (x, Some ErrPCAPTruncated))
      | Some (packet, reste) =>
          let x := noter CRecord x in
          if (f_tampon fmt <? included) || (included <? original) then Done (inl (reste, noter CTronque x)) else
          sec ← lire32 (f_gros fmt) entete 0; frac ← lire32 (f_gros fmt) entete 4;
          let fraction := if f_nano fmt then frac / 1000 else frac in
          let meta := Meta (Records (e_stats x)) (u64 (u64 (sec * 1000000) + fraction)) (zeros 16) (zeros 16) false 0 in
          '(x, err) ← classifyPCAPPacket packet (f_lien fmt) meta x;
          match err with Some _ => Done (inr (x, err)) | None => Done (inl (reste, x)) end
      end
  end.

(** The global header. *)
Definition magique (octets : Z) : option (bool * bool) :=
  if octets =? 0xd4c3b2a1 then Some (false, false) else if octets =? 0xa1b2c3d4 then Some (true, false) else
  if octets =? 0x4d3cb2a1 then Some (false, true) else if octets =? 0xa1b23c4d then Some (true, true) else None.
Definition lien_admis (l : Z) : bool := existsb (Z.eqb l) [276; 113; 1; 101; 228; 229].

Definition readPCAPDNSQuestionsMode (contenu : list Z) (v : V) : run (etat * option erreur_pcap) :=
  let x := Etat (stats_nulles 0) (event_nul 0 (zeros 16)) v in
  match lire_tout 24 contenu with
  | None => Done (x, Some ErrPCAPTruncated)
  | Some (entete, reste) =>
      mot ← be32 entete 0;
      match magique mot with
      | None => Done (x, Some ErrPCAPBadMagic)
      | Some (gros, nano) =>
          lien ← lire32 gros entete 20;
          let x := Etat (stats_nulles lien) (event_nul 0 (zeros 16)) v in
          if negb (lien_admis lien) then Done (x, Some ErrPCAPLinkType) else
          snap ← lire32 gros entete 16;
          let tampon := Z.max 1 (Z.min snap 262144) in
          loop (lire_enregistrement (Format gros nano lien tampon)) (S (length reste)) (reste, x)
      end
  end.
End lecteur.

Definition ReadPCAPDNSQuestions {V} (contenu : list Z) (visit : V -> PCAPQuestionMeta -> DNSEvent -> V * option (list Z)) (v : V) := readPCAPDNSQuestionsMode visit false contenu v.
Definition ReadPCAPDNSQuestionsTolerant {V} (contenu : list Z) (visit : V -> PCAPQuestionMeta -> DNSEvent -> V * option (list Z)) (v : V) := readPCAPDNSQuestionsMode visit true contenu v.

(** * The counters as a list of outcomes *)

(** What a record ends as. *)
Inductive issue := Tronque | Autre | Fragment | Segment | Reponse | Acceptee | Rejetee (e : erreurDNS).

Definition nb (p : issue -> bool) (L : list issue) : Z := fold_right (fun i n => (if p i then 1 else 0) + n) 0 L.
Definition est_question (i : issue) : bool := match i with Acceptee | Rejetee _ => true | _ => false end.
Definition est_rejet (e : erreurDNS) (i : issue) : bool :=
  match i, e with
  | Rejetee ErrPacketTooShort, ErrPacketTooShort | Rejetee ErrInvalidLabel, ErrInvalidLabel | Rejetee ErrLoopPointer, ErrLoopPointer
  | Rejetee ErrNameTooLong, ErrNameTooLong | Rejetee ErrQuestionContract, ErrQuestionContract => true
  | _, _ => false
  end.
Definition est (i j : issue) : bool :=
  match i, j with
  | Tronque, Tronque | Autre, Autre | Fragment, Fragment | Segment, Segment | Reponse, Reponse | Acceptee, Acceptee => true
  | _, _ => false
  end.

(** The counters of a list of outcomes, on 32 bits. *)
Definition stats_de (lien : Z) (L : list issue) : PCAPIngestStats :=
  Stats (u32 (zlen L)) lien (u32 (nb est_question L)) (u32 (nb (est Reponse) L)) (u32 (nb (est Segment) L)) (u32 (nb (est Autre) L)) (u32 (nb (est Fragment) L))
    (u32 (nb (est Tronque) L)) (u32 (nb (est Acceptee) L)) (u32 (nb (est_rejet ErrPacketTooShort) L)) (u32 (nb (est_rejet ErrInvalidLabel) L))
    (u32 (nb (est_rejet ErrLoopPointer) L)) (u32 (nb (est_rejet ErrNameTooLong) L)) (u32 (nb (est_rejet ErrQuestionContract) L)).

(** The increments of an outcome. *)
Definition increments (i : issue) (s : PCAPIngestStats) : PCAPIngestStats :=
  match i with
  | Tronque => compter CTronque (compter CRecord s) | Autre => compter CAutre (compter CRecord s) | Fragment => compter CFragment (compter CRecord s)
  | Segment => compter CTCP (compter CRecord s) | Reponse => compter CReponse (compter CRecord s)
  | Acceptee => compter CAccepte (compter CQuestion (compter CRecord s)) | Rejetee e => compter (CRejet e) (compter CQuestion (compter CRecord s))
  end.

Lemma nb_snoc p L i : nb p (L ++ [i]) = nb p L + if p i then 1 else 0.
Proof. unfold nb. rewrite fold_right_app. cbn [fold_right]. induction L as [|j L IH]; cbn [fold_right]; [lia|]. rewrite IH. lia. Qed.

Lemma u32_plus a b : u32 (u32 a + b) = u32 (a + b).
Proof. unfold u32. by rewrite Z.add_mod_idemp_l. Qed.

Definition erreur_question (e : erreurDNS) : bool := match e with ErrTooManyRRs | ErrRDataTooLong => false | _ => true end.

Lemma stats_snoc lien L i : (forall e, i = Rejetee e -> erreur_question e = true) -> stats_de lien (L ++ [i]) = increments i (stats_de lien L).
Proof.
  intros Hi. unfold stats_de. rewrite !nb_snoc, zlen_app. change (zlen [i]) with 1.
  destruct i as [| | | | | |e]; [..|specialize (Hi e eq_refl); destruct e; try discriminate Hi]; cbn [est est_question est_rejet increments compter];
    rewrite ?Z.add_0_r, ?u32_plus; reflexivity.
Qed.

(** The partition that the comment of [PCAPIngestStats] announces. *)
Lemma nb_categories L : zlen L = nb est_question L + nb (est Reponse) L + nb (est Segment) L + nb (est Autre) L + nb (est Fragment) L + nb (est Tronque) L.
Proof. induction L as [|i L IH]; [done|]. rewrite zlen_cons, IH. unfold nb. cbn [fold_right]. destruct i; cbn [est est_question]; lia. Qed.

Lemma nb_questions L : Forall (fun i => forall e, i = Rejetee e -> erreur_question e = true) L ->
  nb est_question L = nb (est Acceptee) L + nb (est_rejet ErrPacketTooShort) L + nb (est_rejet ErrInvalidLabel) L + nb (est_rejet ErrLoopPointer) L +
    nb (est_rejet ErrNameTooLong) L + nb (est_rejet ErrQuestionContract) L.
Proof.
  induction 1 as [|i L Hi _ IH]; [done|]. unfold nb in *. cbn [fold_right]. rewrite IH.
  destruct i as [| | | | | |e]; [..|specialize (Hi e eq_refl); destruct e; try discriminate Hi]; cbn [est est_question est_rejet]; lia.
Qed.

(** * The errors of the question parsers *)

Definition wlp {A} (m : run A) (Q : A -> Prop) : Prop := forall a, m = Done a -> Q a.
Lemma wlp_bind {A B} (m : run A) (k : A -> run B) Q : (forall a, wlp (k a) Q) -> wlp (m ≫= k) Q.
Proof. intros H b Hb. destruct m as [a| |]; try discriminate. by apply (H a). Qed.
Lemma wlp_bind_of {A B} (m : run A) (k : A -> run B) P Q : wlp m P -> (forall a, P a -> wlp (k a) Q) -> wlp (m ≫= k) Q.
Proof. intros Hm H b Hb. destruct m as [a| |]; try discriminate. apply (H a); [by apply Hm|done]. Qed.
Lemma wlp_done {A} (a : A) (Q : A -> Prop) : Q a -> wlp (Done a) Q.
Proof. by intros H b [= <-]. Qed.
Lemma wlp_loop {T R} (body : T -> run (T + R)) Q n : forall s, (forall s, wlp (body s) (fun o => match o with inr r => Q r | inl _ => True end)) -> wlp (loop body n s) Q.
Proof.
  induction n as [|n IH]; intros s H; [by intros r Hr|]. rewrite loop_unfold. apply (wlp_bind_of _ _ _ _ (H s)). intros [s'|r] Hr; [by apply IH|by apply wlp_done].
Qed.

Definition sans_erreur_rr {A} (o : A + erreurDNS) : Prop := match o with inr e => erreur_question e = true | inl _ => True end.

Ltac wlp_pas :=
  match goal with
  | |- wlp (Done _) _ => apply wlp_done
  | |- wlp (if ?b then _ else _) _ => destruct b
  | |- wlp (mbind _ _) _ => apply wlp_bind; intros ?
  | |- wlp (let '(_, _) := ?p in _) _ => destruct p
  | |- wlp (match ?o with inl _ => _ | inr _ => _ end) _ => destruct o
  end.

Lemma wlp_for_from {T R} (body : Z -> T -> run (T + R)) (Q : R -> Prop) n : forall i s,
  (forall i s, wlp (body i s) (fun o => match o with inr r => Q r | inl _ => True end)) ->
  wlp (for_from body i n s) (fun o => match o with inr r => Q r | inl _ => True end).
Proof.
  induction n as [|n IH]; intros i s H; [by apply wlp_done|]. cbn [for_from]. apply (wlp_bind_of _ _ _ _ (H i s)). intros [s'|r] Hr; [by apply IH|by apply wlp_done].
Qed.

Lemma ajouter_erreur tolerant c l : wlp (ajouter_label tolerant c l) sans_erreur_rr.
Proof.
  unfold ajouter_label. cbv zeta. wlp_pas; [by apply wlp_done|]. wlp_pas. wlp_pas. wlp_pas.
  eapply (wlp_bind_of _ _ sans_erreur_rr).
  - unfold copierLabelQuestion, for_range. apply wlp_for_from. intros i s. wlp_pas. unfold pas_copie. by repeat wlp_pas.
  - intros [[nom enc]|e] He; by apply wlp_done.
Qed.

Lemma nom_erreur raw tolerant : wlp (lire_nom_question raw tolerant) sans_erreur_rr.
Proof.
  unfold lire_nom_question. apply wlp_loop. intros [o c]. wlp_pas; [by apply wlp_done|]. wlp_pas. wlp_pas; [by apply wlp_done|]. wlp_pas.
  - wlp_pas; [by apply wlp_done|]. wlp_pas. cbv zeta. wlp_pas; [by apply wlp_done|]. wlp_pas; [by apply wlp_done|].
    eapply (wlp_bind_of _ _ sans_erreur_rr); [|intros [c'|e] He; by apply wlp_done].
    unfold suivre_pointeur. apply wlp_loop. intros [o' c']. do 2 (wlp_pas; try by apply wlp_done). do 4 (wlp_pas; [by apply wlp_done|]). wlp_pas.
    apply (wlp_bind_of _ _ _ _ (ajouter_erreur tolerant c' _)). intros [c2|e] He; by apply wlp_done.
  - do 2 (wlp_pas; [by apply wlp_done|]). wlp_pas. apply (wlp_bind_of _ _ _ _ (ajouter_erreur tolerant c _)). intros [c2|e] He; by apply wlp_done.
Qed.

Lemma question_erreur raw ev tolerant : wlp (parseDNSQueryWire raw (Some ev) tolerant) (fun r => forall e, r.2 = Some e -> erreur_question e = true).
Proof.
  unfold parseDNSQueryWire. cbv zeta. wlp_pas; [by apply wlp_done; intros e [= <-]|]. do 3 wlp_pas. wlp_pas; [by apply wlp_done; intros e [= <-]|].
  apply (wlp_bind_of _ _ _ _ (nom_erreur raw tolerant)). intros [[o c]|err] Herr; [|by apply wlp_done; intros e [= <-]].
  wlp_pas; [by apply wlp_done; intros e [= <-]|]. do 2 wlp_pas. do 2 (wlp_pas; [by apply wlp_done; intros e [= <-]|]). wlp_pas. by apply wlp_done.
Qed.

(** The parser of the mode; it depends on the time and the address of the event only. *)
Definition analyser (tolerant : bool) (raw : list Z) (stamp : Z) (client : list Z) : run (option DNSEvent * option erreurDNS) :=
  parseDNSQueryWire raw (Some (event_nul stamp client)) tolerant.

Lemma analyser_ok tolerant raw stamp client : bytes_ok raw -> exists ev err, analyser tolerant raw stamp client = Done (Some ev, err) /\
  (forall e, err = Some e -> erreur_question e = true).
Proof.
  intros Hraw. unfold analyser. pose proof (question_erreur raw (event_nul stamp client) tolerant) as He.
  pose proof (fil_decide raw tolerant (event_nul stamp client) Hraw) as ([e err] & Hr & Hp)%wp_exists. unfold reponse_fil in Hp. cbn [fst snd] in Hp.
  assert (exists ev, e = Some ev) as [ev ->] by (destruct err; [destruct Hp as [-> _]|destruct Hp as (? & ? & ? & ? & _ & _ & _ & ->)]; by eexists).
  exists ev, err. split; [done|]. by apply (He _ Hr).
Qed.

(** * The layers never fail *)

Ltac octet_lu := apply wp_bind, wp_idx_byte; [assumption|lia|intros ? _ ?].
Ltac mot_lu := apply wp_bind, wp_be16; [assumption|lia|lia|intros ? ?].
Ltac tranche_lue := apply wp_bind, wp_slice; [lia|lia|].

Lemma lien_total lt p : bytes_ok p -> wp (couche_lien lt p) (fun o => match o with Some (_, r) => bytes_ok r | None => True end).
Proof.
  intros Hp. unfold couche_lien.
  assert (forall a b, bytes_ok (take a (drop b p))) as Hs by (intros; by apply bytes_ok_take, bytes_ok_drop).
  repeat match goal with |- wp (if ?b then _ else _) _ => destruct b eqn:? end; try (by apply wp_done).
  - mot_lu. tranche_lue. by apply wp_done.
  - mot_lu. tranche_lue. by apply wp_done.
  - mot_lu. tranche_lue. set (r := take _ _). assert (bytes_ok r) by apply Hs. destruct (_ =? 0x8100); [|by apply wp_done]. destruct (Z.ltb_spec (zlen r) 4); [by apply wp_done|].
    mot_lu. tranche_lue. apply wp_done. by apply bytes_ok_take, bytes_ok_drop.
  - apply wp_bind, wp_idx_byte; [done| |]; [pose proof (zlen_nonneg p); lia|]. intros b _ _. by apply wp_done.
Qed.

Lemma reseau_total proto p s d : bytes_ok p -> wp (couche_reseau proto p s d) (fun o => match o with inl g => bytes_ok (d_charge g) | inr c => c = CAutre \/ c = CFragment end).
Proof.
  intros Hp. unfold couche_reseau.
  assert (forall a b, bytes_ok (take a (drop b p))) as Hs by (intros; by apply bytes_ok_take, bytes_ok_drop).
  destruct (proto =? 0x0800); [|destruct (proto =? 0x86dd); [|by apply wp_done; left]].
  - destruct (Z.ltb_spec (zlen p) 20); [by apply wp_done; left|]. octet_lu. destruct (negb _); [by apply wp_done; left|]. cbv zeta. mot_lu.
    destruct ((_ || _) || _) eqn:E; [by apply wp_done; left|]. zbool. mot_lu. destruct (negb _); [by apply wp_done; right|].
    tranche_lue. tranche_lue. octet_lu. tranche_lue. apply wp_done, Hs.
  - destruct (Z.ltb_spec (zlen p) 40); [by apply wp_done; left|]. octet_lu. destruct (negb _); [by apply wp_done; left|]. mot_lu. unfold is_u16 in *.
    destruct (Z.ltb_spec (zlen p) (40 + x0)); [by apply wp_done; left|]. tranche_lue. tranche_lue. octet_lu. tranche_lue. apply wp_done, Hs.
Qed.

Lemma transport_total t p : bytes_ok p -> wp (couche_transport t p) (fun o => match o with inl (_, r) => bytes_ok r | inr c => c = CAutre \/ c = CTCP \/ c = CReponse end).
Proof.
  intros Hp. unfold couche_transport. destruct (Z.ltb_spec (zlen p) 4); [apply wp_done; auto|]. mot_lu. mot_lu. destruct (t =? 6); [apply wp_done; destruct (_ || _); auto|].
  destruct (t =? 17); [|apply wp_done; auto]. destruct (Z.ltb_spec (zlen p) 8); [apply wp_done; auto|]. mot_lu. destruct (_ || _) eqn:E; [apply wp_done; auto|]. zbool.
  destruct (_ =? 53); [tranche_lue; apply wp_done; by apply bytes_ok_take, bytes_ok_drop|]. apply wp_done. destruct (_ =? 53); auto.
Qed.

(** * The reader *)

Lemma lire_tout_spec n l : 0 <= n -> match lire_tout n l with
  | None => zlen l < n
  | Some (a, b) => l = a ++ b /\ zlen a = n end.
Proof.
  intros Hn. unfold lire_tout. destruct (Z.ltb_spec (zlen l) n); [done|]. split; [by rewrite take_drop|]. unfold zlen in *. rewrite length_take. lia.
Qed.

Lemma lire_tout_app n a b : n = zlen a -> lire_tout n (a ++ b) = Some (a, b).
Proof.
  intros ->. unfold lire_tout. rewrite zlen_app. pose proof (zlen_nonneg b). destruct (Z.ltb_spec (zlen a + zlen b) (zlen a)); [lia|].
  unfold zlen. by rewrite Nat2Z.id, take_app_length, drop_app_length.
Qed.

Lemma lire_corps_ok tampon included reste : 1 <= tampon -> 0 <= included -> bytes_ok reste ->
  wp (lire_corps tampon included reste) (fun o => match o with
    | None => zlen reste < included
    | Some (p, r) => included <= zlen reste /\ r = drop (Z.to_nat included) reste /\ bytes_ok p /\ (included <= tampon -> p = take (Z.to_nat included) reste) end).
Proof.
  intros Ht Hi Hb. unfold lire_corps.
  apply (wp_loop _ (fun '(rem, dernier, r) => 0 <= rem <= included /\ included - rem <= zlen reste /\ r = drop (Z.to_nat (included - rem)) reste /\ bytes_ok dernier /\
    (included <= tampon -> (rem = included /\ dernier = []) \/ (rem = 0 /\ dernier = take (Z.to_nat included) reste))) (fun '(_, _, r) => zlen r)).
  2: { split_and!; try lia; [by pose proof (zlen_nonneg reste); lia|by rewrite Z.sub_diag|constructor|by left]. }
  2: { unfold zlen. lia. }
  intros [[rem der] r] (H1 & H2 & -> & Hd & H4). destruct (Z.eqb_spec rem 0) as [->|Hr].
  - apply wp_done. rewrite Z.sub_0_r in *. split; [lia|]. split; [done|]. split; [done|]. intros Hle. destruct (H4 Hle) as [[<- ->]|[_ ->]]; [|done]. done.
  - set (chunk := Z.min rem tampon). assert (1 <= chunk <= rem) as Hc by lia. assert (zlen (drop (Z.to_nat (included - rem)) reste) = zlen reste - (included - rem)) as Hz
      by (unfold zlen in *; rewrite length_drop; lia).
    pose proof (lire_tout_spec chunk (drop (Z.to_nat (included - rem)) reste) ltac:(lia)) as Hs. unfold lire_tout in *. rewrite Hz in *.
    destruct (Z.ltb_spec (zlen reste - (included - rem)) chunk); apply wp_done; [lia|]. rewrite drop_drop. destruct Hs as [_ Hs].
    replace (Z.to_nat (included - rem) + Z.to_nat chunk)%nat with (Z.to_nat (included - (rem - chunk))) by lia. split.
    + split_and!; try lia; [done|by apply bytes_ok_take, bytes_ok_drop|]. intros Hle. right. destruct (H4 Hle) as [[-> ->]|[-> _]]; [|lia].
      assert (chunk = included) as -> by lia. split; [lia|]. by rewrite Z.sub_diag.
    + unfold zlen in *. rewrite length_drop. lia.
Qed.

Lemma lire32_total gros l i : bytes_ok l -> 0 <= i -> i + 4 <= zlen l -> wp (lire32 gros l i) is_u32.
Proof.
  intros Hb Hi Hl. unfold lire32. destruct gros; [by apply wp_be32|]. apply wp_bind, wp_slice; [lia..|]. apply wp_done.
  set (s := take _ _). assert (zlen s = 4) as Hz by (unfold s; rewrite zlen_slice by lia; lia).
  pose proof (unle_range s ltac:(by apply bytes_ok_take, bytes_ok_drop)) as Hr. by rewrite Hz in Hr.
Qed.

Section visites.
(** A visitor that records its calls and may stop the reading, whatever its reason. *)
Context (arret : list (PCAPQuestionMeta * DNSEvent) -> option (list Z)) (tolerant : bool).
Definition visiteur (l : list (PCAPQuestionMeta * DNSEvent)) (m : PCAPQuestionMeta) (e : DNSEvent) : list (PCAPQuestionMeta * DNSEvent) * option (list Z) :=
  (l ++ [(m, e)], arret (l ++ [(m, e)])).

(** What the visitor receives: the event the parser accepts, with its time and source. *)
Definition visite_ok (v : PCAPQuestionMeta * DNSEvent) : Prop :=
  exists raw, analyser tolerant raw (M_Timestamp (fst v)) (M_SourceIP (fst v)) = Done (Some (snd v), None).

(** After the outcomes [L]: the state, with the error of the last visit, if any. *)
Record tient (lien : Z) (L : list issue) (x : etat) (err : option (list Z)) : Prop := {
  t_stats : e_stats x = stats_de lien L;
  t_rejets : Forall (fun i => forall e, i = Rejetee e -> erreur_question e = true) L;
  t_visites : zlen (e_visite x) = nb (est Acceptee) L;
  t_visite : Forall visite_ok (e_visite x);
  t_continue : forall k, (0 < k < length (e_visite x))%nat -> arret (take k (e_visite x)) = None;
  t_arret : e_visite x <> [] \/ err <> None -> arret (e_visite x) = err
}.

Lemma tient_etat_vide lien ev : tient lien [] (Etat (stats_nulles lien) ev []) None.
Proof. constructor; try done; [intros k; cbn; lia|by intros []]. Qed.

(** An outcome other than an accepted question. *)
Lemma tient_sans lien L x x' i : tient lien L x None -> est Acceptee i = false -> (forall e, i = Rejetee e -> erreur_question e = true) ->
  e_stats x' = increments i (e_stats x) -> e_visite x' = e_visite x -> tient lien (L ++ [i]) x' None.
Proof.
  intros [] Hi Hr Hs Hv. constructor; rewrite ?Hv; try done.
  - by rewrite Hs, t_stats0, stats_snoc.
  - rewrite Forall_app. split; [done|]. by constructor.
  - rewrite nb_snoc, Hi. lia.
Qed.

(** An accepted question. *)
Lemma tient_visite lien L x x' m e : tient lien L x None -> visite_ok (m, e) ->
  e_stats x' = increments Acceptee (e_stats x) -> e_visite x' = e_visite x ++ [(m, e)] -> tient lien (L ++ [Acceptee]) x' (arret (e_visite x')).
Proof.
  intros [] Ho Hs Hv. constructor; rewrite ?Hv; try done.
  - rewrite Hs, t_stats0, stats_snoc by done. done.
  - rewrite Forall_app. split; [done|]. by constructor.
  - rewrite nb_snoc, zlen_app, t_visites0. done.
  - rewrite Forall_app. split; [done|]. by constructor.
  - intros k Hk. rewrite length_app in Hk. cbn [length] in Hk. rewrite take_app_le by lia.
    destruct (decide (k = length (e_visite x))) as [->|Hn]; [|apply t_continue0; lia]. rewrite take_ge by lia. apply t_arret0. left. intros E. rewrite E in Hk. cbn in Hk. lia.
Qed.

(** What one record does. *)
Definition effet (lien : Z) (L : list issue) (r : etat * option erreur_pcap) : Prop :=
  exists i e, tient lien (L ++ [i]) (fst r) e /\ snd r = ErreurVisite <$> e.

Lemma question_effet lien L x0 x meta raw : tient lien L x0 None -> x = noter CRecord x0 -> bytes_ok raw ->
  wp (traiter_question visiteur tolerant meta raw x) (effet lien L).
Proof.
  intros Ht -> Hraw. unfold traiter_question. cbv zeta. destruct (analyser_ok tolerant raw (M_Timestamp meta) (M_SourceIP meta) Hraw) as (ev & err & Ha & He).
  match goal with |- wp (?m ≫= _) _ => replace m with (Done (Some ev, err)) by (by destruct tolerant) end.
  rewrite run_bind_done. cbn [default from_option id]. destruct err as [e|].
  - assert (forall e, erreur_question e = true -> effet lien L (Etat (compter (CRejet e) (compter CQuestion (e_stats (noter CRecord x0)))) ev (e_visite x0), None)) as H.
    { intros e' He'. exists (Rejetee e'), None. split; [|done]. apply (tient_sans _ _ x0); try done. by intros ? [= <-]. }
    specialize (He e eq_refl). destruct e; try discriminate He; apply wp_done; by apply H.
  - destruct (visiteur _ _ _) as [v e] eqn:Ev. unfold visiteur in Ev. injection Ev as <- <-. apply wp_done. eexists Acceptee, _. split; [|done]. cbn [fst].
    match goal with |- tient _ _ ?y _ => apply (tient_visite lien L x0 y meta ev Ht); [by exists raw|done|done] end.
Qed.

Lemma paquet_effet lien L x0 x packet lk meta : tient lien L x0 None -> x = noter CRecord x0 -> bytes_ok packet ->
  wp (classifyPCAPPacket visiteur tolerant packet lk meta x) (effet lien L).
Proof.
  intros Ht Hx Hp. unfold classifyPCAPPacket.
  assert (forall c i, increments i = (fun s => compter c (compter CRecord s)) -> est Acceptee i = false -> (forall e, i = Rejetee e -> False) ->
    wp (Done (noter c x, None)) (effet lien L)) as Hc.
  { intros c i Hi Ha Hr. apply wp_done. exists i, None. split; [|done]. subst x. apply (tient_sans _ _ x0); try done; [by intros e ?%Hr|]. by rewrite Hi. }
  apply wp_bind. eapply wp_mono; [by apply lien_total|]. intros [[proto p]|] Hr; [|by apply (Hc CAutre Autre)].
  apply wp_bind. eapply wp_mono; [by apply (reseau_total proto p)|]. intros [d|c] Hd; [|by destruct Hd as [->| ->]; [apply (Hc CAutre Autre)|apply (Hc CFragment Fragment)]].
  apply wp_bind. eapply wp_mono; [by apply (transport_total (d_transport d) (d_charge d))|].
  intros [[port raw]|c] Ho; [|by destruct Ho as [->|[->| ->]]; [apply (Hc CAutre Autre)|apply (Hc CTCP Segment)|apply (Hc CReponse Reponse)]].
  by apply (question_effet lien L x0).
Qed.

(** The result of a reading: outcomes, and how it ended. *)
Definition fin_ok (lien : Z) (r : etat * option erreur_pcap) : Prop :=
  exists L e, tient lien L (fst r) e /\ (snd r = ErreurVisite <$> e \/ (e = None /\ snd r = Some ErrPCAPTruncated)).

Lemma enregistrement_pas fmt s : 1 <= f_tampon fmt -> bytes_ok (fst s) -> (exists L, tient (f_lien fmt) L (snd s) None) ->
  wp (lire_enregistrement visiteur tolerant fmt s) (fun o => match o with
    | inl s' => (bytes_ok (fst s') /\ exists L, tient (f_lien fmt) L (snd s') None) /\ 0 <= zlen (fst s') < zlen (fst s)
    | inr r => fin_ok (f_lien fmt) r end).
Proof.
  destruct s as [reste x]. cbn [fst snd]. intros Htm Hb (L & Ht). unfold lire_enregistrement.
  destruct (zlen reste =? 0); [apply wp_done; exists L, None; split; [done|by left]|].
  pose proof (lire_tout_spec 16 reste ltac:(lia)) as Hs. destruct (lire_tout 16 reste) as [[entete r]|]; [|apply wp_done; exists L, None; split; [done|by right]].
  destruct Hs as [-> Hz]. apply Forall_app in Hb as [Hbe Hbr].
  apply wp_bind. eapply wp_mono; [apply lire32_total; [done|lia..]|]. intros included Hi. apply wp_bind. eapply wp_mono; [apply lire32_total; [done|lia..]|]. intros original Ho.
  unfold is_u32 in *. apply wp_bind. eapply wp_mono; [apply lire_corps_ok; [done|lia|done]|]. intros [[packet r']|] Hc; [|apply wp_done; exists L, None; split; [done|by right]].
  destruct Hc as (Hc & -> & Hbp & _). assert (0 <= zlen (drop (Z.to_nat included) r) < zlen (entete ++ r)) as Hm.
  { rewrite zlen_app. unfold zlen in *. rewrite length_drop. lia. }
  cbv zeta. destruct (_ || _).
  { apply wp_done. split; [|done]. split; [by apply bytes_ok_drop|]. exists (L ++ [Tronque]). by apply (tient_sans _ _ x). }
  apply wp_bind. eapply wp_mono; [apply lire32_total; [done|lia..]|]. intros sec _. apply wp_bind. eapply wp_mono; [apply lire32_total; [done|lia..]|]. intros frac _.
  apply wp_bind. eapply wp_mono; [by apply (paquet_effet (f_lien fmt) L x)|]. intros [x' err] (i & e & Ht' & He). cbn [fst snd] in Ht', He.
  destruct e as [m|]; cbn [fmap option_fmap option_map] in He; subst err; apply wp_done.
  - exists (L ++ [i]), (Some m). split; [done|by left].
  - split; [|done]. split; [by apply bytes_ok_drop|]. by exists (L ++ [i]).
Qed.

Lemma lecture_totale contenu : bytes_ok contenu ->
  wp (readPCAPDNSQuestionsMode visiteur tolerant contenu []) (fun r =>
    (e_visite (fst r) = [] /\ Records (e_stats (fst r)) = 0 /\ (snd r = Some ErrPCAPTruncated \/ snd r = Some ErrPCAPBadMagic \/ snd r = Some ErrPCAPLinkType)) \/
    exists lien, lien_admis lien = true /\ fin_ok lien r).
Proof.
  intros Hb. unfold readPCAPDNSQuestionsMode. pose proof (lire_tout_spec 24 contenu ltac:(lia)) as Hs.
  destruct (lire_tout 24 contenu) as [[entete r]|]; [|apply wp_done; left; cbn; auto]. destruct Hs as [-> Hz]. apply Forall_app in Hb as [Hbe Hbr].
  apply wp_bind, wp_be32; [done|lia..|]. intros mot _. destruct (magique mot) as [[gros nano]|]; [|apply wp_done; left; cbn; auto].
  apply wp_bind. eapply wp_mono; [apply lire32_total; [done|lia..]|]. intros lien _. cbv zeta.
  destruct (lien_admis lien) eqn:El; cbn [negb]; [|apply wp_done; left; cbn; auto].
  apply wp_bind. eapply wp_mono; [apply lire32_total; [done|lia..]|]. intros snap _.
  eapply wp_mono; [apply (wp_loop _ (fun s => bytes_ok (fst s) /\ exists L, tient lien L (snd s) None) (fun s => zlen (fst s)) (fin_ok lien))|].
  - intros s [H1 H2]. apply (enregistrement_pas (Format gros nano lien (Z.max 1 (Z.min snap 262144)))); [cbn; lia|done|done].
  - split; [done|]. exists []. apply tient_etat_vide.
  - cbn [fst]. unfold zlen. lia.
  - intros a Ha. right. by exists lien.
Qed.
End visites.

(** * Reading anything *)

(** C30: any file of octets is read to its end, to its first cut or to the visitor's
    first refusal, without failing, strictly or tolerantly.  There is a list of
    outcomes, one per complete record, of which the counters are the numbers (on 32
    bits): every record is in exactly one category, every question is accepted or in
    exactly one class of rejection, and no other error is returned.  The visitor is
    called once per accepted question, in order, with the event the parser returns
    for its octets, time and source, and never again once it has refused. *)
Theorem lecture_sure tolerant arret contenu : bytes_ok contenu ->
  exists x err, readPCAPDNSQuestionsMode (visiteur arret) tolerant contenu [] = Done (x, err) /\
    ((e_visite x = [] /\ Records (e_stats x) = 0 /\ (err = Some ErrPCAPTruncated \/ err = Some ErrPCAPBadMagic \/ err = Some ErrPCAPLinkType)) \/
     exists lien L, lien_admis lien = true /\ e_stats x = stats_de lien L /\
       zlen L = nb est_question L + nb (est Reponse) L + nb (est Segment) L + nb (est Autre) L + nb (est Fragment) L + nb (est Tronque) L /\
       nb est_question L = nb (est Acceptee) L + nb (est_rejet ErrPacketTooShort) L + nb (est_rejet ErrInvalidLabel) L + nb (est_rejet ErrLoopPointer) L +
         nb (est_rejet ErrNameTooLong) L + nb (est_rejet ErrQuestionContract) L /\
       zlen (e_visite x) = nb (est Acceptee) L /\ Forall (visite_ok tolerant) (e_visite x) /\
       (forall k, (0 < k < length (e_visite x))%nat -> arret (take k (e_visite x)) = None) /\
       ((err = None \/ err = Some ErrPCAPTruncated) /\ (e_visite x = [] \/ arret (e_visite x) = None) \/
        exists m, err = Some (ErreurVisite m) /\ arret (e_visite x) = Some m)).
Proof.
  intros Hb. destruct (proj1 (wp_exists _ _) (lecture_totale arret tolerant contenu Hb)) as ([x err] & Er & H). exists x, err. split; [done|]. cbn [fst snd] in H.
  destruct H as [H|(lien & Hl & L & e & [] & He)]; [by left|right]. cbn [fst snd] in *. exists lien, L. split_and!; try done; [apply nb_categories|by apply nb_questions|].
  destruct e as [m|]; cbn [fmap option_fmap option_map] in He.
  - right. exists m. destruct He as [->|[? _]]; [|done]. split; [done|]. apply t_arret0. by right.
  - left. split; [by destruct He as [->|[_ ->]]; auto|]. destruct (e_visite x); [by left|right]. apply t_arret0. by left.
Qed.

(** * Writing a capture *)

(** The link layers, with their free octets. *)
Inductive encaps := Cooked2 (suite : list Z) | Cooked (avant : list Z) | Ether (macs : list Z) | Vlan (macs tci : list Z) | RawIP | IPSeul.
Inductive reseau :=
  | V4 (tos drapeaux ttl : Z) (ident ck src dst options : list Z)
  | V6 (classe : Z) (flot : list Z) (hop : Z) (src dst : list Z).
Record question := Q_ { q_lien : encaps; q_reseau : reseau; q_port : Z; q_ck : list Z; q_raw : list Z; q_suite : list Z; q_bourrage : list Z }.

Definition v6 (r : reseau) : bool := match r with V4 _ _ _ _ _ _ _ _ => false | V6 _ _ _ _ _ => true end.
Definition source (r : reseau) : list Z := match r with V4 _ _ _ _ _ s _ _ => s | V6 _ _ _ s _ => s end.
Definition destination (r : reseau) : list Z := match r with V4 _ _ _ _ _ _ d _ => d | V6 _ _ _ _ d => d end.
Definition protocole (r : reseau) : Z := if v6 r then 0x86dd else 0x0800.
Definition lien_de (l : encaps) (r : reseau) : Z :=
  match l with Cooked2 _ => 276 | Cooked _ => 113 | Ether _ | Vlan _ _ => 1 | RawIP => 101 | IPSeul => if v6 r then 229 else 228 end.

Definition entete_lien (l : encaps) (proto : Z) : list Z :=
  match l with
  | Cooked2 s => be16e proto ++ s | Cooked a => a ++ be16e proto | Ether m => m ++ be16e proto | Vlan m t => m ++ be16e 0x8100 ++ t ++ be16e proto
  | RawIP | IPSeul => []
  end.
Definition entete_ip (r : reseau) (n : Z) : list Z :=
  match r with
  | V4 tos f ttl ident ck s d o => [64 + (5 + zlen o / 4); tos] ++ be16e (20 + zlen o + n) ++ ident ++ be16e (8192 * f) ++ [ttl; 17] ++ ck ++ s ++ d ++ o
  | V6 c fl hop s d => [96 + c] ++ fl ++ be16e n ++ [17; hop] ++ s ++ d
  end.
Definition udp (q : question) : list Z := be16e (q_port q) ++ be16e 53 ++ be16e (8 + zlen (q_raw q)) ++ q_ck q ++ q_raw q ++ q_suite q.
Definition trame (q : question) : list Z := entete_lien (q_lien q) (protocole (q_reseau q)) ++ entete_ip (q_reseau q) (zlen (udp q)) ++ udp q ++ q_bourrage q.

Definition lien_ok (l : encaps) : Prop :=
  match l with Cooked2 s => zlen s = 18 | Cooked a => zlen a = 14 | Ether m => zlen m = 12 | Vlan m t => zlen m = 12 /\ zlen t = 2 | RawIP | IPSeul => True end.
Definition reseau_ok (r : reseau) (n : Z) : Prop :=
  match r with
  | V4 tos f ttl ident ck s d o => 0 <= f < 8 /\ zlen ident = 2 /\ zlen ck = 2 /\ zlen s = 4 /\ zlen d = 4 /\ zlen o <= 40 /\ zlen o mod 4 = 0 /\ 20 + zlen o + n < 65536
  | V6 c fl hop s d => 0 <= c < 16 /\ zlen fl = 3 /\ zlen s = 16 /\ zlen d = 16 /\ n < 65536
  end.
Definition question_ok (q : question) : Prop :=
  lien_ok (q_lien q) /\ reseau_ok (q_reseau q) (zlen (udp q)) /\ zlen (q_ck q) = 2 /\ is_u16 (q_port q) /\ bytes_ok (trame q).

(** The address on sixteen octets. *)
Definition seize (a : list Z) : list Z := copy_into (zeros 16) a.

Lemma be16_tete z post : be16 (be16e z ++ post) 0 = Done z.
Proof. by apply (be16_apres []). Qed.
Lemma idx_tete {A} (x : A) post : idx (x :: post) 0 = Done x.
Proof. by apply (idx_mid []). Qed.

Lemma lien_lu q rest : lien_ok (q_lien q) -> protocole (q_reseau q) = (if v6 (q_reseau q) then 0x86dd else 0x0800) ->
  rest = entete_ip (q_reseau q) (zlen (udp q)) ++ udp q ++ q_bourrage q -> reseau_ok (q_reseau q) (zlen (udp q)) ->
  couche_lien (lien_de (q_lien q) (q_reseau q)) (entete_lien (q_lien q) (protocole (q_reseau q)) ++ rest) = Done (Some (protocole (q_reseau q), rest)).
Proof.
  intros Hl Hp Hr Hn. pose proof (zlen_nonneg rest). destruct (q_lien q) as [s|a|m|m t| |]; cbn [lien_ok lien_de entete_lien] in *; unfold couche_lien.
  - cbn [Z.eqb Pos.eqb]. rewrite (proj2 (Z.ltb_ge _ _)) by (rewrite !zlen_app, zlen_be16e; lia). rewrite <- app_assoc.
    rewrite be16_tete, run_bind_done. rewrite app_assoc, slice_queue, run_bind_done by (rewrite ?zlen_app, ?zlen_be16e; lia || done). done.
  - cbn [Z.eqb Pos.eqb]. rewrite (proj2 (Z.ltb_ge _ _)) by (rewrite !zlen_app, zlen_be16e; lia). rewrite <- app_assoc.
    rewrite (be16_apres a), run_bind_done by lia. rewrite app_assoc, slice_queue, run_bind_done by (rewrite ?zlen_app, ?zlen_be16e; lia || done). done.
  - cbn [Z.eqb Pos.eqb]. rewrite (proj2 (Z.ltb_ge _ _)) by (rewrite !zlen_app, zlen_be16e; lia). rewrite <- app_assoc.
    rewrite (be16_apres m), run_bind_done by lia. rewrite app_assoc, slice_queue, run_bind_done by (rewrite ?zlen_app, ?zlen_be16e; lia || done).
    rewrite Hp. by destruct (v6 _).
  - cbn [Z.eqb Pos.eqb]. destruct Hl as [Hm Ht]. rewrite (proj2 (Z.ltb_ge _ _)) by (rewrite !zlen_app, !zlen_be16e; lia). rewrite <- !app_assoc.
    rewrite (be16_apres m), run_bind_done by lia. rewrite (app_assoc m), slice_queue, run_bind_done by (rewrite ?zlen_app, ?zlen_be16e; lia || done).
    cbn [Z.eqb Pos.eqb]. rewrite (proj2 (Z.ltb_ge _ _)) by (rewrite !zlen_app, !zlen_be16e; lia).
    rewrite (be16_apres t), run_bind_done by lia. rewrite app_assoc, slice_queue, run_bind_done by (rewrite ?zlen_app, ?zlen_be16e; lia || done). done.
  - cbn [Z.eqb Pos.eqb app]. subst rest. destruct (q_reseau q) as [tos f ttl ident ck sr ds o|c fl hop sr ds]; cbn [entete_ip v6 protocole reseau_ok app] in *.
    + rewrite zlen_cons. match goal with |- context [1 + zlen ?y] => pose proof (zlen_nonneg y) end. rewrite (proj2 (Z.eqb_neq _ _)) by lia. rewrite idx_tete, run_bind_done.
      assert (Z.shiftr (64 + (5 + zlen o / 4)) 4 = 4) as ->. { rewrite Z.shiftr_div_pow2 by lia. pose proof (zlen_nonneg o). change (2 ^ 4) with 16. divlia. } done.
    + rewrite zlen_cons. match goal with |- context [1 + zlen ?y] => pose proof (zlen_nonneg y) end. rewrite (proj2 (Z.eqb_neq _ _)) by lia. rewrite idx_tete, run_bind_done.
      assert (Z.shiftr (96 + c) 4 = 6) as ->. { rewrite Z.shiftr_div_pow2 by lia. change (2 ^ 4) with 16. divlia. } done.
  - cbn [app]. rewrite Hp. by destruct (v6 _).
Qed.

Lemma quartet_haut a k : 0 <= k < 16 -> Z.shiftr (16 * a + k) 4 = a /\ Z.land (16 * a + k) 0x0f = k.
Proof.
  intros Hk. split; [rewrite Z.shiftr_div_pow2 by lia; change (2 ^ 4) with 16; divlia|]. change 15 with (Z.ones 4). rewrite Z.land_ones by lia. change (2 ^ 4) with 16. divlia.
Qed.

Ltac assoc_gauche k := match k with O => idtac | S ?k => rewrite app_assoc; assoc_gauche k end.
Ltac longueurs := rewrite ?zlen_app, ?zlen_be16e, ?zlen_cons, ?zlen_nil; lia.

Lemma reseau_lu r payload pad s0 d0 : reseau_ok r (zlen payload) ->
  couche_reseau (protocole r) (entete_ip r (zlen payload) ++ payload ++ pad) s0 d0 =
  Done (inl (Datagramme 17 payload (copy_into s0 (source r)) (copy_into d0 (destination r)) (v6 r))).
Proof.
  intros Hr. pose proof (zlen_nonneg payload). pose proof (zlen_nonneg pad). set (n := zlen payload) in *.
  destruct r as [tos f ttl ident ck s d o|c fl hop s d]; cbn [reseau_ok protocole v6 entete_ip source destination] in *; unfold couche_reseau; cbn [Z.eqb Pos.eqb].
  - destruct Hr as (Hf & Hid & Hck & Hs & Hd & Ho & Hom & Hn). pose proof (zlen_nonneg o). assert (0 <= 5 + zlen o / 4 < 16) as Hk by divlia.
    destruct (quartet_haut 4 _ Hk) as [E1 E2]. change (16 * 4) with 64 in *. rewrite <- !app_assoc.
    rewrite (proj2 (Z.ltb_ge _ _)) by longueurs. change ([64 + (5 + zlen o / 4); tos] ++ ?x) with ((64 + (5 + zlen o / 4)) :: [tos] ++ x). rewrite idx_tete, run_bind_done, E1. cbn [Z.eqb Pos.eqb negb].
    change ((64 + (5 + zlen o / 4)) :: [tos] ++ ?x) with ([64 + (5 + zlen o / 4); tos] ++ x). cbv zeta. rewrite E2. replace ((5 + zlen o / 4) * 4) with (20 + zlen o) by divlia.
    rewrite (be16_apres [_; _] _ _ 2), run_bind_done by reflexivity. destruct (_ || _) eqn:E; [exfalso; rewrite !orb_true_iff in E; destruct E as [[E|E]|E]; apply Z.ltb_lt in E; revert E; longueurs|]. clear E.
    set (b0 := 64 + _) in *. rewrite (app_assoc [b0; tos]), (app_assoc ([b0; tos] ++ _)). rewrite be16_apres, run_bind_done by (rewrite !zlen_app, zlen_be16e; change (zlen [b0; tos]) with 2; lia).
    assert (Z.land (8192 * f) 0x1fff = 0) as ->. { change 0x1fff with (Z.ones 13). rewrite Z.land_ones by lia. change (2 ^ 13) with 8192. divlia. } cbn [Z.eqb negb].
    set (A := ([b0; tos] ++ _) ++ ident). assert (zlen A = 6) as HA by (unfold A; rewrite !zlen_app, zlen_be16e; change (zlen [b0; tos]) with 2; lia).
    rewrite (app_assoc A). rewrite (app_assoc (A ++ _)). rewrite (app_assoc ((A ++ _) ++ _)). set (B := ((A ++ _) ++ _) ++ ck).
    assert (zlen B = 12) as HB by (unfold B; rewrite !zlen_app, zlen_be16e; change (zlen [ttl; 17]) with 2; lia).
    rewrite (slice_milieu B s _ 12 16), run_bind_done by lia. rewrite (app_assoc B), (slice_milieu (B ++ s) d _ 16 20), run_bind_done by (rewrite ?zlen_app; lia).
    assert (idx ((B ++ s) ++ d ++ o ++ payload ++ pad) 9 = Done 17) as ->.
    { replace ((B ++ s) ++ d ++ o ++ payload ++ pad) with ((A ++ be16e (8192 * f) ++ [ttl]) ++ 17 :: ck ++ s ++ d ++ o ++ payload ++ pad)
        by (unfold B; rewrite <- !app_assoc; reflexivity). apply idx_mid. rewrite !zlen_app, zlen_be16e. change (zlen [ttl]) with 1. lia. }
    rewrite run_bind_done. rewrite (app_assoc (B ++ s)), (app_assoc ((B ++ s) ++ d)), slice_milieu, run_bind_done by (rewrite ?zlen_app; lia). done.
  - destruct Hr as (Hc & Hfl & Hs & Hd & Hn). destruct (quartet_haut 6 c Hc) as [E1 _]. change (16 * 6) with 96 in *. rewrite <- !app_assoc.
    rewrite (proj2 (Z.ltb_ge _ _)) by longueurs. change ([96 + c] ++ ?x) with ((96 + c) :: x). rewrite idx_tete, run_bind_done, E1. cbn [Z.eqb Pos.eqb negb].
    change ((96 + c) :: ?x) with ([96 + c] ++ x). rewrite (app_assoc [96 + c]). set (A := [96 + c] ++ fl). assert (zlen A = 4) as HA by (unfold A; rewrite zlen_app; change (zlen [96 + c]) with 1; lia).
    rewrite (be16_apres A _ _ 4), run_bind_done by done. rewrite (proj2 (Z.ltb_ge _ _)) by (rewrite !zlen_app, zlen_be16e; change (zlen [17; hop]) with 2; lia).
    rewrite (app_assoc A), (app_assoc (A ++ _)). set (B := (A ++ _) ++ [17; hop]). assert (zlen B = 8) as HB by (unfold B; rewrite !zlen_app, zlen_be16e; change (zlen [17; hop]) with 2; lia).
    rewrite (slice_milieu B s _ 8 24), run_bind_done by lia. rewrite (app_assoc B), (slice_milieu (B ++ s) d _ 24 40), run_bind_done by (rewrite ?zlen_app; lia).
    assert (idx ((B ++ s) ++ d ++ payload ++ pad) 6 = Done 17) as ->.
    { replace ((B ++ s) ++ d ++ payload ++ pad) with ((A ++ be16e n) ++ 17 :: hop :: s ++ d ++ payload ++ pad)
        by (unfold B; rewrite <- !app_assoc; reflexivity). apply idx_mid. rewrite !zlen_app, zlen_be16e. lia. }
    rewrite run_bind_done. rewrite (app_assoc (B ++ s)), slice_milieu, run_bind_done by (rewrite ?zlen_app; lia). done.
Qed.

Lemma transport_lu q : zlen (q_ck q) = 2 -> zlen (udp q) < 65536 -> couche_transport 17 (udp q) = Done (inl (q_port q, q_raw q)).
Proof.
  intros Hck Hn. pose proof (zlen_nonneg (q_raw q)). pose proof (zlen_nonneg (q_suite q)). unfold couche_transport, udp in *. rewrite !zlen_app, !zlen_be16e in Hn.
  rewrite (proj2 (Z.ltb_ge _ 4)) by longueurs. rewrite be16_tete, run_bind_done. rewrite (be16_apres (be16e (q_port q)) 53 _ 2), run_bind_done by done. cbn [Z.eqb Pos.eqb].
  rewrite (proj2 (Z.ltb_ge _ 8)) by longueurs. rewrite (app_assoc (be16e (q_port q))). rewrite (be16_apres (be16e (q_port q) ++ be16e 53) _ _ 4), run_bind_done by done.
  destruct (_ || _) eqn:E; [exfalso; rewrite !orb_true_iff in E; destruct E as [E|E]; apply Z.ltb_lt in E; revert E; longueurs|]. clear E.
  rewrite (app_assoc (be16e (q_port q) ++ be16e 53)), (app_assoc ((be16e (q_port q) ++ be16e 53) ++ _)), slice_milieu, run_bind_done by longueurs. done.
Qed.

(** ** The file *)

Record capturee := Capturee { c_sec : Z; c_frac : Z; c_question : question }.

Definition ecr32 (gros : bool) (z : Z) : list Z := if gros then be32e z else le 4 z.
Definition enregistrement (gros : bool) (e : capturee) : list Z :=
  let t := trame (c_question e) in ecr32 gros (c_sec e) ++ ecr32 gros (c_frac e) ++ ecr32 gros (zlen t) ++ ecr32 gros (zlen t) ++ t.
Definition mot_magique (gros nano : bool) : Z := if nano then if gros then 0xa1b23c4d else 0x4d3cb2a1 else if gros then 0xa1b2c3d4 else 0xd4c3b2a1.
Definition fichier (gros nano : bool) (divers : list Z) (snap lien : Z) (es : list capturee) (coupe : list Z) : list Z :=
  be32e (mot_magique gros nano) ++ divers ++ ecr32 gros snap ++ ecr32 gros lien ++ concat (enregistrement gros <$> es) ++ coupe.

(** What a well-formed capture on the link [lien] holds. *)
Definition capturee_ok (snap lien : Z) (e : capturee) : Prop :=
  question_ok (c_question e) /\ lien_de (q_lien (c_question e)) (q_reseau (c_question e)) = lien /\ is_u32 (c_sec e) /\ is_u32 (c_frac e) /\
  zlen (trame (c_question e)) <= Z.min snap 262144.

(** The provenance of the [k]-th question. *)
Definition meta_de (nano : bool) (k : Z) (e : capturee) : PCAPQuestionMeta :=
  let r := q_reseau (c_question e) in
  Meta (u32 k) (u64 (c_sec e * 1000000 + (if nano then c_frac e / 1000 else c_frac e))) (seize (source r)) (seize (destination r)) (v6 r) (q_port (c_question e)).
Definition lue (tolerant nano : bool) (k : Z) (e : capturee) : run (option DNSEvent * option erreurDNS) :=
  analyser tolerant (q_raw (c_question e)) (M_Timestamp (meta_de nano k e)) (seize (source (q_reseau (c_question e)))).
Definition visite_de (tolerant nano : bool) (k : Z) (e : capturee) : list (PCAPQuestionMeta * DNSEvent) :=
  match lue tolerant nano k e with Done (Some ev, None) => [(meta_de nano k e, ev)] | _ => [] end.
Definition issue_de (tolerant nano : bool) (k : Z) (e : capturee) : issue :=
  match lue tolerant nano k e with Done (_, Some err) => Rejetee err | _ => Acceptee end.

Fixpoint visites_de (tolerant nano : bool) (k : Z) (es : list capturee) : list (PCAPQuestionMeta * DNSEvent) :=
  match es with [] => [] | e :: es => visite_de tolerant nano k e ++ visites_de tolerant nano (k + 1) es end.
Fixpoint issues_de (tolerant nano : bool) (k : Z) (es : list capturee) : list issue :=
  match es with [] => [] | e :: es => issue_de tolerant nano k e :: issues_de tolerant nano (k + 1) es end.

Lemma zlen_ecr32 gros z : zlen (ecr32 gros z) = 4.
Proof. destruct gros; [apply zlen_be32e|apply zlen_le]. Qed.

Lemma lire32_ecr gros a z b i : i = zlen a -> is_u32 z -> lire32 gros (a ++ ecr32 gros z ++ b) i = Done z.
Proof.
  intros -> Hz. destruct gros; unfold lire32, ecr32; [by apply be32_apres|]. rewrite slice_milieu, run_bind_done by (rewrite ?zlen_le; done).
  f_equal. by apply unle_le.
Qed.

Lemma lire_corps_exact tampon p rest : zlen p <= tampon -> 1 <= tampon -> bytes_ok (p ++ rest) -> lire_corps tampon (zlen p) (p ++ rest) = Done (Some (p, rest)).
Proof.
  intros Hp Ht Hb. pose proof (zlen_nonneg p). destruct (proj1 (wp_exists _ _) (lire_corps_ok tampon (zlen p) (p ++ rest) Ht ltac:(lia) Hb)) as ([[p' r']|] & -> & Ho).
  - destruct Ho as (_ & -> & _ & Ho). rewrite (Ho Hp). unfold zlen. by rewrite Nat2Z.id, take_app_length, drop_app_length.
  - rewrite zlen_app in Ho. pose proof (zlen_nonneg rest). lia.
Qed.

Section relecture.
Context (tolerant gros nano : bool) (snap lien : Z).
Notation visiteur := (visiteur (fun _ => None)).
Notation fmt := (Format gros nano lien (Z.max 1 (Z.min snap 262144))).

(** One question is read back. *)
Lemma question_relue k e x : capturee_ok snap lien e -> e_stats x = compter CRecord (stats_de lien k) ->
  classifyPCAPPacket visiteur tolerant (trame (c_question e)) lien
    (Meta (Records (e_stats x)) (u64 (c_sec e * 1000000 + (if nano then c_frac e / 1000 else c_frac e))) (zeros 16) (zeros 16) false 0) x =
  Done (Etat (stats_de lien (k ++ [issue_de tolerant nano (zlen k + 1) e])) (default (event_nul 0 []) (fst (match lue tolerant nano (zlen k + 1) e with Done r => r | _ => (None, None) end)))
    (e_visite x ++ visite_de tolerant nano (zlen k + 1) e), None).
Proof.
  intros ((Hl & Hr & Hck & Hport & Hb) & <- & Hs & Hf & Hz) Hx. set (q := c_question e) in *. unfold classifyPCAPPacket.
  unfold trame. rewrite (lien_lu q _ Hl eq_refl eq_refl Hr), run_bind_done. cbv beta iota. rewrite reseau_lu, run_bind_done by done. cbn [d_transport d_charge d_source d_dest d_ipv6].
  assert (zlen (udp q) < 65536) as Hu by (destruct (q_reseau q); cbn [reseau_ok] in Hr; [destruct Hr as (_ & _ & _ & _ & _ & Ho & _ & Hn); pose proof (zlen_nonneg options); lia|tauto]).
  rewrite transport_lu, run_bind_done by done. cbn [M_Record M_Timestamp M_SourceIP M_DestIP].
  assert (bytes_ok (q_raw q)) as Hraw.
  { unfold trame, udp in Hb. apply Forall_app in Hb as [_ Hb]. apply Forall_app in Hb as [_ Hb]. apply Forall_app in Hb as [Hb _].
    do 4 apply Forall_app in Hb as [_ Hb]. by apply Forall_app in Hb as [Hb _]. }
  assert (Records (e_stats x) = u32 (zlen k + 1)) as ->. { rewrite Hx. cbn [compter stats_de Records]. apply u32_plus. }
  change (Meta (u32 (zlen k + 1)) _ _ _ _ _) with (meta_de nano (zlen k + 1) e). unfold traiter_question. cbv zeta. unfold issue_de, visite_de, lue. fold q.
  destruct (analyser_ok tolerant (q_raw q) (M_Timestamp (meta_de nano (zlen k + 1) e)) (seize (source (q_reseau q))) Hraw) as (ev & err & Ha & He).
  match goal with |- (?m ≫= _) = _ => replace m with (Done (Some ev, err)) by (rewrite <- Ha; by destruct tolerant) end. rewrite Ha, run_bind_done. cbn [default from_option id fst].
  rewrite stats_snoc by (destruct err; intros e' [= <-]; by apply He). rewrite Hx. destruct err as [err|]; [|done].
  rewrite app_nil_r. specialize (He err eq_refl). by destruct err.
Qed.

Lemma enregistrement_relu k e x rest : capturee_ok snap lien e -> bytes_ok (enregistrement gros e ++ rest) -> e_stats x = stats_de lien k ->
  exists x', lire_enregistrement visiteur tolerant fmt (enregistrement gros e ++ rest, x) = Done (inl (rest, x')) /\
    e_stats x' = stats_de lien (k ++ [issue_de tolerant nano (zlen k + 1) e]) /\ e_visite x' = e_visite x ++ visite_de tolerant nano (zlen k + 1) e.
Proof.
  intros He Hb Hx. pose proof He as (_ & _ & Hs & Hf & Hz). set (t := trame (c_question e)) in *. pose proof (zlen_nonneg t).
  unfold lire_enregistrement. unfold enregistrement in *. fold t in Hb |- *. cbv zeta. set (entete := ecr32 gros (c_sec e) ++ ecr32 gros (c_frac e) ++ ecr32 gros (zlen t) ++ ecr32 gros (zlen t)).
  assert ((ecr32 gros (c_sec e) ++ ecr32 gros (c_frac e) ++ ecr32 gros (zlen t) ++ ecr32 gros (zlen t) ++ t) ++ rest = entete ++ t ++ rest) as E
    by (unfold entete; by rewrite <- !app_assoc). rewrite E in Hb |- *. clear E.
  assert (zlen entete = 16) as He16 by (unfold entete; rewrite !zlen_app, !zlen_ecr32; done).
  rewrite (proj2 (Z.eqb_neq _ _)) by (rewrite zlen_app; pose proof (zlen_nonneg (t ++ rest)); lia). rewrite lire_tout_app by done. cbn [f_gros].
  assert (is_u32 (zlen t)) as Hzt by (unfold is_u32; lia).
  assert (lire32 gros entete 8 = Done (zlen t)) as ->.
  { unfold entete. rewrite (app_assoc (ecr32 gros (c_sec e))). apply lire32_ecr; [by rewrite zlen_app, !zlen_ecr32|done]. }
  assert (lire32 gros entete 12 = Done (zlen t)) as ->.
  { unfold entete. rewrite 2 app_assoc. rewrite <- (app_nil_r (ecr32 gros (zlen t))) at 2. apply lire32_ecr; [by rewrite !zlen_app, !zlen_ecr32|done]. }
  assert (lire32 gros entete 0 = Done (c_sec e)) as -> by (by apply (lire32_ecr gros [])).
  assert (lire32 gros entete 4 = Done (c_frac e)) as -> by (unfold entete; apply lire32_ecr; [by rewrite zlen_ecr32|done]).
  rewrite !run_bind_done. cbn [f_tampon f_gros f_lien f_nano]. apply Forall_app in Hb as [_ Hb]. rewrite lire_corps_exact, run_bind_done by (done || lia).
  rewrite (proj2 (Z.ltb_ge (Z.max 1 (Z.min snap 262144)) _)), (proj2 (Z.ltb_ge (zlen t) _)) by lia. cbn [orb]. rewrite !run_bind_done.
  replace (u64 (u64 (c_sec e * 1000000) + (if nano then c_frac e / 1000 else c_frac e))) with (u64 (c_sec e * 1000000 + (if nano then c_frac e / 1000 else c_frac e)))
    by (unfold u64; by rewrite Z.add_mod_idemp_l).
  unfold t. rewrite (question_relue k e (noter CRecord x) He), run_bind_done by (cbn [noter e_stats]; by rewrite Hx). eexists. split; [done|]. done.
Qed.

(** A file cut inside its next record. *)
Lemma coupe_refusee e x coupe suite : capturee_ok snap lien e -> enregistrement gros e = coupe ++ suite -> coupe <> [] -> suite <> [] -> bytes_ok coupe ->
  exists x', lire_enregistrement visiteur tolerant fmt (coupe, x) = Done (inr (x', Some ErrPCAPTruncated)) /\ x' = x.
Proof.
  intros He Hc Hn Hs Hb. exists x. split; [|done]. unfold lire_enregistrement. pose proof He as (_ & _ & _ & _ & Hz). set (t := trame (c_question e)) in *. pose proof (zlen_nonneg t).
  assert (0 < zlen coupe) as Hzc by (destruct coupe; [done|]; rewrite zlen_cons; pose proof (zlen_nonneg coupe); lia).
  assert (0 < zlen suite) as Hzs by (destruct suite; [done|]; rewrite zlen_cons; pose proof (zlen_nonneg suite); lia).
  rewrite (proj2 (Z.eqb_neq _ _)) by lia. pose proof (lire_tout_spec 16 coupe ltac:(lia)) as Hl. destruct (lire_tout 16 coupe) as [[entete corps]|]; [|done]. destruct Hl as [-> H16]. cbn [f_gros].
  unfold enregistrement in Hc. fold t in Hc. cbv zeta in Hc. assert (is_u32 (zlen t)) as Hzt by (unfold is_u32; lia).
  rewrite <- app_assoc in Hc. rewrite (app_assoc (ecr32 gros (c_sec e))), (app_assoc (ecr32 gros (c_sec e) ++ _)), (app_assoc ((ecr32 gros (c_sec e) ++ _) ++ _)) in Hc.
  apply app_inj_1 in Hc as [<- Ht]; [|assert (zlen (((ecr32 gros (c_sec e) ++ ecr32 gros (c_frac e)) ++ ecr32 gros (zlen t)) ++ ecr32 gros (zlen t)) = 16) as Hx
    by (rewrite !zlen_app, !zlen_ecr32; done); apply Nat2Z.inj; unfold zlen at 1 in Hx; unfold zlen at 1 in H16; congruence].
  set (entete := _ ++ ecr32 gros (zlen t)) in *.
  assert (lire32 gros entete 8 = Done (zlen t)) as ->.
  { unfold entete. rewrite <- (app_assoc _ (ecr32 gros (zlen t))). apply lire32_ecr; [by rewrite zlen_app, !zlen_ecr32|done]. }
  assert (lire32 gros entete 12 = Done (zlen t)) as ->.
  { unfold entete. rewrite <- (app_nil_r (ecr32 gros (zlen t))) at 2. apply lire32_ecr; [by rewrite !zlen_app, !zlen_ecr32|done]. }
  rewrite !run_bind_done. apply Forall_app in Hb as [_ Hb]. cbn [f_tampon].
  destruct (proj1 (wp_exists _ _) (lire_corps_ok (Z.max 1 (Z.min snap 262144)) (zlen t) corps ltac:(lia) ltac:(lia) Hb)) as ([[p' r']|] & -> & Ho); [|done].
  destruct Ho as [Ho _]. rewrite Ht, zlen_app in Ho. lia.
Qed.
End relecture.

(** The records of a capture, one after the other. *)
Lemma boucle_relue tolerant gros nano snap lien es : forall n k x coupe, Forall (capturee_ok snap lien) es -> bytes_ok (concat (enregistrement gros <$> es) ++ coupe) ->
  e_stats x = stats_de lien k -> (length (concat (enregistrement gros <$> es) ++ coupe) < n)%nat ->
  exists n' x', (length coupe < n')%nat /\ bytes_ok coupe /\
    loop (lire_enregistrement (visiteur (fun _ => None)) tolerant (Format gros nano lien (Z.max 1 (Z.min snap 262144)))) n (concat (enregistrement gros <$> es) ++ coupe, x) =
    loop (lire_enregistrement (visiteur (fun _ => None)) tolerant (Format gros nano lien (Z.max 1 (Z.min snap 262144)))) n' (coupe, x') /\
    e_stats x' = stats_de lien (k ++ issues_de tolerant nano (zlen k + 1) es) /\ e_visite x' = e_visite x ++ visites_de tolerant nano (zlen k + 1) es.
Proof.
  induction es as [|e es IH]; intros n k x coupe Hes Hb Hx Hn.
  - exists n, x. cbn [fmap list_fmap concat app issues_de visites_de] in *. by rewrite !app_nil_r.
  - apply Forall_cons in Hes as [He Hes]. cbn [fmap list_fmap concat] in *. rewrite <- app_assoc in *. destruct n as [|n]; [lia|]. rewrite loop_unfold.
    destruct (enregistrement_relu tolerant gros nano snap lien k e x _ He Hb Hx) as (x1 & -> & Hs1 & Hv1). rewrite run_bind_done.
    apply Forall_app in Hb as [_ Hb]. assert (0 < length (enregistrement gros e))%nat as Hp.
    { unfold enregistrement. rewrite length_app. pose proof (zlen_ecr32 gros (c_sec e)) as Hz. unfold zlen in Hz. lia. }
    rewrite length_app in Hn. destruct (IH n _ x1 coupe Hes Hb Hs1 ltac:(lia)) as (n' & x' & Hn' & Hbc & -> & Hs & Hv). exists n', x'. split; [done|]. split; [done|]. split; [done|].
    rewrite zlen_app in Hs, Hv. change (zlen [_]) with 1 in Hs, Hv. cbn [issues_de visites_de]. rewrite Hs, Hv, Hv1, <- !app_assoc. by split.
Qed.

(** C23: a capture of DNS questions is read back exactly.  Whatever the order of the
    octets, the unit of the fractions, the link layer (cooked v1 and v2, Ethernet with
    or without a tag, raw), the version of IP, its options, the padding and the free
    fields, a well-formed file of questions is read to its end; the visitor receives,
    in order, exactly the questions its parser accepts, each with its rank, date,
    addresses and port; every record is counted as a question, accepted or in the
    class of its rejection.  If the file is cut inside a further record, the same
    questions are delivered and the cut is reported. *)
Theorem capture_relue tolerant gros nano divers snap lien es coupe :
  zlen divers = 12 -> bytes_ok divers -> is_u32 snap -> lien_admis lien = true -> Forall (capturee_ok snap lien) es ->
  coupe = [] \/ (exists e suite, capturee_ok snap lien e /\ enregistrement gros e = coupe ++ suite /\ coupe <> [] /\ suite <> []) ->
  bytes_ok (fichier gros nano divers snap lien es coupe) ->
  exists x, readPCAPDNSQuestionsMode (visiteur (fun _ => None)) tolerant (fichier gros nano divers snap lien es coupe) [] =
      Done (x, if decide (coupe = []) then None else Some ErrPCAPTruncated) /\
    e_visite x = visites_de tolerant nano 1 es /\ e_stats x = stats_de lien (issues_de tolerant nano 1 es).
Proof.
  intros Hd Hbd Hsnap Hlien Hes Hcoupe Hb. unfold readPCAPDNSQuestionsMode, fichier in *.
  set (reste := concat (enregistrement gros <$> es) ++ coupe) in *. set (mot := be32e (mot_magique gros nano)) in *.
  rewrite (app_assoc mot), (app_assoc (mot ++ divers)), (app_assoc ((mot ++ divers) ++ _)) in *. set (entete := _ ++ ecr32 gros lien) in *.
  assert (is_u32 lien) as Hl32. { unfold lien_admis in Hlien. apply existsb_exists in Hlien as (y & Hy & ->%Z.eqb_eq). cbn in Hy. unfold is_u32. lia. }
  assert (zlen entete = 24) as Hz by (unfold entete, mot; rewrite !zlen_app, !zlen_ecr32, zlen_be32e; lia). rewrite lire_tout_app by done.
  assert (be32 entete 0 = Done (mot_magique gros nano)) as ->.
  { unfold entete, mot. rewrite <- !app_assoc. by apply (be32_apres []). }
  rewrite run_bind_done. assert (magique (mot_magique gros nano) = Some (gros, nano)) as -> by (by destruct gros, nano).
  assert (lire32 gros entete 20 = Done lien) as ->.
  { unfold entete. rewrite <- (app_nil_r (ecr32 gros lien)). apply lire32_ecr; [unfold mot; rewrite !zlen_app, zlen_ecr32, zlen_be32e; lia|done]. }
  assert (lire32 gros entete 16 = Done snap) as ->.
  { unfold entete. rewrite <- app_assoc. apply lire32_ecr; [unfold mot; rewrite !zlen_app, zlen_be32e; lia|done]. }
  rewrite run_bind_done. cbv zeta. rewrite Hlien. cbn [negb]. rewrite run_bind_done. apply Forall_app in Hb as [_ Hb].
  unfold reste in *. destruct (boucle_relue tolerant gros nano snap lien es (S (length (concat (enregistrement gros <$> es) ++ coupe))) [] (Etat (stats_nulles lien) (event_nul 0 (zeros 16)) []) coupe Hes Hb eq_refl ltac:(lia))
    as (n' & x' & Hn' & Hbc & -> & Hs & Hv). cbn [app e_visite] in Hs, Hv. change (zlen (@nil issue) + 1) with 1 in Hs, Hv. exists x'. split; [|done].
  destruct n' as [|n']; [lia|]. rewrite loop_unfold. destruct Hcoupe as [->|(e & suite & He & Hc & Hn & Hs')].
  - rewrite decide_True by done. unfold lire_enregistrement. cbn [zlen length]. change (zlen (@nil Z)) with 0. cbn [Z.eqb]. by rewrite run_bind_done.
  - rewrite decide_False by done. by destruct (coupe_refusee tolerant gros nano snap lien e x' coupe suite He Hc Hn Hs' Hbc) as (x2 & -> & ->).
Qed.

(** ** Examples *)

(** [www.example.co.uk], TXT, from 10.0.0.1 over a tagged Ethernet, with padding. *)
Definition trame_exemple : capturee := Capturee 1000 5000 (Q_ (Vlan (replicate 12 7) [0; 5]) (V4 0 2 64 [0; 1] [0; 0] [10; 0; 0; 1] [10; 0; 0; 2] [])
  40000 [0; 0] question_exemple [] (replicate 6 0)).
Lemma trame_exemple_ok : capturee_ok 65535 1 trame_exemple.
Proof. unfold capturee_ok, question_ok. split_and!; first [apply octets_valides_ok; by vm_compute|by vm_compute|unfold reseau_ok; cbn; split_and!; by vm_compute]. Qed.

Definition fichier_exemple : list Z := fichier false true (replicate 12 2) 65535 1 [trame_exemple] (take 20 (enregistrement false trame_exemple)).

Lemma lecture_sure_witness : exists x, readPCAPDNSQuestionsMode (visiteur (fun _ => None)) false fichier_exemple [] = Done (x, Some ErrPCAPTruncated) /\
  zlen (e_visite x) = 1.
Proof.
  destruct (lecture_sure false (fun _ => None) fichier_exemple ltac:(by apply octets_valides_ok)) as (x & err & E & _).
  assert (match readPCAPDNSQuestionsMode (visiteur (fun _ => None)) false fichier_exemple [] with Done (x, err) => (zlen (e_visite x), err) | _ => (0, None) end = (1, Some ErrPCAPTruncated)) as H
    by (vm_compute; reflexivity).
  rewrite E in H. injection H as H1 H2. rewrite H2 in E. exists x. exact (conj E H1).
Defined.

Lemma capture_relue_witness : exists x, readPCAPDNSQuestionsMode (visiteur (fun _ => None)) false fichier_exemple [] = Done (x, Some ErrPCAPTruncated) /\
  e_visite x = visites_de false true 1 [trame_exemple] /\ zlen (visites_de false true 1 [trame_exemple]) = 1.
Proof.
  destruct (capture_relue false false true (replicate 12 2) 65535 1 [trame_exemple] (take 20 (enregistrement false trame_exemple))) as (x & E & Hv & _).
  - done.
  - by apply octets_valides_ok.
  - done.
  - done.
  - constructor; [apply trame_exemple_ok|constructor].
  - right. exists trame_exemple, (drop 20 (enregistrement false trame_exemple)). split; [apply trame_exemple_ok|]. split; [by rewrite take_drop|]. by split.
  - by apply octets_valides_ok.
  - exists x. split; [exact E|]. split; [exact Hv|]. by vm_compute.
Defined.
