(* ===== verification/Netlink.v ===== *)
(** The kernel's netlink streams (src/internal/probes/cnproc.go, inet_diag.go): the
    decoder of the process connector with its table of effective identities, its ring
    of 1024 events, and the decoder of the socket dump.  The theorems: a stream of
    messages is decoded exactly, in order, a rise of privileges is flagged exactly
    when the table knows the previous identity, and no octets make the decoders fail. *)
From stdpp Require Import list_numbers.
From S2P Require Import Prelude Channel Texte ProcTexte.
Local Open Scope Z_scope.

(** * The process connector *)

Definition cnIdxProc : Z := 1.
Definition cnValProc : Z := 1.
Definition procCnMcastListen : Z := 1.
Definition netlinkHeaderLen : Z := 16.
Definition cnMessageLen : Z := 20.
Definition netlinkAlignTo : Z := 4.
Definition procEventHeader : Z := 16.
Definition taskCommLen : Z := 16.
Definition procEventFork : Z := 0x00000001.
Definition procEventExec : Z := 0x00000002.
Definition procEventUID : Z := 0x00000004.
Definition procEventExit : Z := 0x80000000.
Definition ProcRingSlots : Z := 1024.
Definition procUIDTableLen : Z := 1024.
Definition uidUnknown : Z := 0xFFFFFFFF.
Definition SubProc : Z := 1.
Definition ActExec : Z := 1.
Definition ActFork : Z := 8.
Definition ActPrivEsc : Z := 9.
Definition ActExit : Z := 10.
Definition FlagAnomaly : Z := 4.
(** [unix.NLMSG_ERROR], [unix.NLMSG_DONE]. *)
Definition NLMSG_ERROR : Z := 2.
Definition NLMSG_DONE : Z := 3.

(** ** The ring *)

Record RingProc := Ring { rp_slots : list Probe_event_t; rp_head : Z; rp_drops : Z; rp_tail : Z }.
Definition NewRingProc : RingProc := Ring (replicate 1024 event_zero) 0 0 0.

Definition Write (r : option RingProc) (ev : option Probe_event_t) : run (option RingProc * Z) :=
  match r, ev with
  | Some r, Some ev =>
      let h := rp_head r in
      if ProcRingSlots <=? u64 (h - rp_tail r) then Done (Some (Ring (rp_slots r) h (u64 (rp_drops r + 1)) (rp_tail r)), -2) else
      s ← upd (rp_slots r) (Z.land h (ProcRingSlots - 1)) ev;
      Done (Some (Ring s (u64 (h + 1)) (rp_drops r) (rp_tail r)), 0)
  | _, _ => Done (r, -1)
  end.
Definition Push := Write.

Definition Read (r : option RingProc) (ev : option Probe_event_t) : run (option RingProc * option Probe_event_t * Z) :=
  match r, ev with
  | Some r', Some _ =>
      let t := rp_tail r' in
      if rp_head r' <=? t then Done (r, ev, 0) else
      e ← idx (rp_slots r') (Z.land t (ProcRingSlots - 1));
      Done (Some (Ring (rp_slots r') (rp_head r') (rp_drops r') (u64 (t + 1))), Some e, 1)
  | _, _ => Done (r, ev, -1)
  end.
Definition Drops (r : option RingProc) : Z := match r with None => 0 | Some r => rp_drops r end.
Definition Reset (r : option RingProc) : option RingProc := match r with None => None | Some r => Some (Ring (rp_slots r) 0 0 0) end.

(** ** The decoder *)

Record procUIDEntry := UIDEntry { u_pid : Z; u_euid : Z }.
Definition ProcDecoder : Type := list procUIDEntry.
Definition decodeur_vide : ProcDecoder := replicate 1024 (UIDEntry 0 0).

Definition lookupUID (d : ProcDecoder) (pid : Z) : run Z :=
  e ← idx d (Z.land pid (procUIDTableLen - 1));
  Done (if u_pid e =? pid then u_euid e else uidUnknown).
Definition storeUID (d : ProcDecoder) (pid euid : Z) : run ProcDecoder := upd d (Z.land pid (procUIDTableLen - 1)) (UIDEntry pid euid).

(** [binary.LittleEndian.UintN(l[i:])] *)
Definition le_lu (n : Z) (l : list Z) (i : Z) : run Z := s ← slice l i (i + n); Done (unle s).

(** [le.PutUint32(payload[i:], v)] on the 96 octets of a payload. *)
Definition poser32 (payload : list Z) (i v : Z) : list Z := take (Z.to_nat i) payload ++ le 4 v ++ drop (Z.to_nat (i + 4)) payload.

Definition evenement (ts action pid tid flags src : Z) (payload : list Z) : Probe_event_t := Event ts pid tid SubProc action flags src payload.
Definition charge_nulle : list Z := replicate 96 0.

(** The event of the body of a [proc_event], with the new table; [None] is ignored. *)
Definition transcrire (d : ProcDecoder) (eventBytes : list Z) : run (option (ProcDecoder * Probe_event_t)) :=
  if zlen eventBytes <? procEventHeader then Done None else
  what ← le_lu 4 eventBytes 0;
  body ← slice eventBytes procEventHeader (zlen eventBytes);
  ts ← le_lu 8 eventBytes 8;
  if what =? procEventFork then
    if zlen body <? 16 then Done None else
    parent ← le_lu 4 body 0; pid ← le_lu 4 body 8; tid ← le_lu 4 body 12; ptgid ← le_lu 4 body 4;
    Done (Some (d, evenement ts ActFork pid tid 0 parent (poser32 charge_nulle 0 ptgid)))
  else if what =? procEventExec then
    if zlen body <? 8 then Done None else
    pid ← le_lu 4 body 0; tid ← le_lu 4 body 4;
    payload ← (if 8 + taskCommLen <=? zlen body then comm ← slice body 8 (8 + taskCommLen); Done (copy_into charge_nulle comm) else Done charge_nulle);
    Done (Some (d, evenement ts ActExec pid tid 0 0 payload))
  else if what =? procEventUID then
    if zlen body <? 16 then Done None else
    pid ← le_lu 4 body 0; tid ← le_lu 4 body 4; realUID ← le_lu 4 body 8; newEUID ← le_lu 4 body 12;
    old ← lookupUID d pid;
    let flags := if (newEUID =? 0) && negb (old =? 0) && negb (old =? uidUnknown) then FlagAnomaly else 0 in
    d ← storeUID d pid newEUID;
    Done (Some (d, evenement ts ActPrivEsc pid tid flags (Z.lor (Z.shiftl old 32) newEUID) (poser32 (poser32 charge_nulle 0 realUID) 4 newEUID)))
  else if what =? procEventExit then
    if zlen body <? 16 then Done None else
    pid ← le_lu 4 body 0; tid ← le_lu 4 body 4; code ← le_lu 4 body 8; signal ← le_lu 4 body 12;
    Done (Some (d, evenement ts ActExit pid tid 0 0 (poser32 (poser32 charge_nulle 0 code) 4 signal)))
  else Done None.

Definition decodeProcEvent (d : ProcDecoder) (eventBytes : list Z) (ring : RingProc) : run (ProcDecoder * RingProc * bool) :=
  o ← transcrire d eventBytes;
  match o with
  | None => Done (d, ring, false)
  | Some (d, ev) => '(r, _) ← Write (Some ring) (Some ev); Done (d, default ring r, true)
  end.

(** [(n + 3) &^ 3] *)
Definition aligner (n : Z) : Z := Z.ldiff (n + netlinkAlignTo - 1) (netlinkAlignTo - 1).

(** One message at offset [off]. *)
Definition tour_decode (buf : list Z) (s : Z * ProcDecoder * RingProc * Z) : run ((Z * ProcDecoder * RingProc * Z) + (ProcDecoder * RingProc * Z)) :=
  let '(off, d, ring, total) := s in
  if zlen buf <? off + netlinkHeaderLen then Done (inr (d, ring, total)) else
  msgLen ← le_lu 4 buf off;
  if (msgLen <? netlinkHeaderLen) || (zlen buf <? off + msgLen) then Done (inr (d, ring, total)) else
  msgType ← le_lu 2 buf (off + 4);
  payload ← slice buf (off + netlinkHeaderLen) (off + msgLen);
  '(d, ring, total) ← (if negb (msgType =? NLMSG_ERROR) && (cnMessageLen <=? zlen payload) then
      i ← le_lu 4 payload 0; v ← le_lu 4 payload 4;
      if (i =? cnIdxProc) && (v =? cnValProc) then
        eventBytes ← slice payload cnMessageLen (zlen payload);
        cLen ← le_lu 2 payload 16;
        eventBytes ← (if cLen <=? zlen eventBytes then slice eventBytes 0 cLen else Done eventBytes);
        '(d, ring, ok) ← decodeProcEvent d eventBytes ring;
        Done (d, ring, if (ok : bool) then total + 1 else total)
      else Done (d, ring, total)
    else Done (d, ring, total));
  Done (inl (off + aligner msgLen, d, ring, total)).

Definition Decode (d : ProcDecoder) (buf : list Z) (ring : option RingProc) : run (ProcDecoder * option RingProc * Z) :=
  match ring with
  | None => Done (d, None, 0)
  | Some r =>
      '(d, r, total) ← loop (tour_decode buf) (S (length buf)) (0, d, r, 0);
      Done (d, Some r, total)
  end.

(** The subscription message. *)
Definition buildProcListenRequest : list Z :=
  le 4 40 ++ le 2 NLMSG_DONE ++ le 2 0 ++ le 4 1 ++ le 4 0 ++ le 4 cnIdxProc ++ le 4 cnValProc ++ le 4 0 ++ le 4 0 ++ le 2 4 ++ le 2 0 ++ le 4 procCnMcastListen.

(** * The dump of the sockets *)

Definition nlmsgHdrLen : Z := 16.
Definition diagReqSize : Z := nlmsgHdrLen + 56.
Definition inetDiagMsgLen : Z := 72.
Definition nlmsgAlign : Z := 4.
Definition sockDiagByFamily : Z := 20.
Definition nlmsgError : Z := 2.
Definition nlmsgDone : Z := 3.
Definition nlmFRequest : Z := 1.
Definition nlmFDump : Z := 0x300.

Inductive erreur_diag := ErrDiagShortMsg | ErrDiagRequest | ErrDiagKernel.

Record SocketInfo := Socket { k_Family : Z; k_State : Z; k_Protocol : Z; k_SrcPort : Z; k_DstPort : Z; k_Src : list Z; k_Dst : list Z; k_UID : Z; k_Inode : Z }.

Definition buildDiagRequest (req : list Z) (family protocol stateMask seq : Z) : list Z * Z :=
  if zlen req <? diagReqSize then (req, 0) else
  (le 4 diagReqSize ++ le 2 sockDiagByFamily ++ le 2 (Z.lor nlmFRequest nlmFDump) ++ le 4 seq ++ le 4 0 ++ [family; protocol; 0; 0] ++ le 4 stateMask ++
     replicate 48 0 ++ drop 72 req, diagReqSize).

Definition parseInetDiagMsg (b : list Z) : run SocketInfo :=
  f ← idx b 0; s ← idx b 1; sp ← be16 b 4; dp ← be16 b 6; src ← slice b 8 24; dst ← slice b 24 40; uid ← le_lu 4 b 64; ino ← le_lu 4 b 68;
  Done (Socket f s 0 sp dp src dst uid ino).

Definition tour_diag (buf : list Z) (s : Z * list SocketInfo * Z) : run ((Z * list SocketInfo * Z) + (bool * list SocketInfo * Z * option erreur_diag)) :=
  let '(off, dst, added) := s in
  if zlen buf <? off + nlmsgHdrLen then Done (inr (false, dst, added, None)) else
  msgLen ← le_lu 4 buf off;
  if (msgLen <? nlmsgHdrLen) || (zlen buf <? off + msgLen) then Done (inr (true, dst, added, Some ErrDiagShortMsg)) else
  typ ← le_lu 2 buf (off + 4);
  if typ =? nlmsgDone then Done (inr (true, dst, added, None)) else
  if typ =? nlmsgError then Done (inr (true, dst, added, Some ErrDiagKernel)) else
  '(dst, added) ← (if typ =? sockDiagByFamily then
      payload ← slice buf (off + nlmsgHdrLen) (off + msgLen);
      if (inetDiagMsgLen <=? zlen payload) && (added <? zlen dst) then
        s ← parseInetDiagMsg payload; dst ← upd dst added s; Done (dst, added + 1)
      else Done (dst, added)
    else Done (dst, added));
  Done (inl (off + Z.ldiff (msgLen + nlmsgAlign - 1) (nlmsgAlign - 1), dst, added)).

Definition parseDiagMessages (buf : list Z) (dst : list SocketInfo) : run (bool * list SocketInfo * Z * option erreur_diag) :=
  loop (tour_diag buf) (S (length buf)) (0, dst, 0).

(** * The specification of a stream *)

(** What the kernel reports of a process. *)
Inductive processus :=
  | PFork (parent ptgid pid tgid : Z) | PExec (pid tgid : Z) | PUid (pid tgid ruid euid : Z) | PExit (pid tgid code signal : Z).
(** With its date, its core and the octets that follow in the record. *)
Record avis := Avis { a_ts : Z; a_cpu : Z; a_quoi : processus; a_suite : list Z }.

Definition quoi (p : processus) : Z := match p with PFork _ _ _ _ => procEventFork | PExec _ _ => procEventExec | PUid _ _ _ _ => procEventUID | PExit _ _ _ _ => procEventExit end.
Definition champs (p : processus) : list Z :=
  match p with PFork a b c d | PUid a b c d | PExit a b c d => [a; b; c; d] | PExec a b => [a; b] end.
Definition octets_avis (a : avis) : list Z := le 4 (quoi (a_quoi a)) ++ le 4 (a_cpu a) ++ le 8 (a_ts a) ++ concat (le 4 <$> champs (a_quoi a)) ++ a_suite a.

(** The octets of a record that reports none of the four: shorter than its header, of
    another kind (credentials of a group, session, name, trace, dump, acknowledgement),
    or with a body too short for its kind. *)
Definition muet (o : list Z) : bool :=
  let what := unle (take 4 o) in let body := zlen o - procEventHeader in
  (zlen o <? procEventHeader) ||
  (if (what =? procEventFork) || (what =? procEventUID) || (what =? procEventExit) then body <? 16 else if what =? procEventExec then body <? 8 else true).

(** A message of the process connector, with the length [n] it declares for the record
    [o]; [c], [f] are the fields the decoder does not read. *)
Definition connecteur (c f : list Z) (n : Z) (o r : list Z) : list Z := le 4 cnIdxProc ++ le 4 cnValProc ++ c ++ le 2 n ++ f ++ o ++ r.

(** A message of the stream: an event of a process, a record of the connector that
    reports none, or a message that is not the connector's; [h] holds the fields of
    the header that are not read. *)
Inductive element :=
  | Processus (typ : Z) (h c f : list Z) (n : Z) (a : avis) (reste bourrage : list Z)
  | Muet (typ : Z) (h c f : list Z) (n : Z) (o reste bourrage : list Z)
  | Ignore (typ : Z) (h charge bourrage : list Z).
Definition charge_de (e : element) : list Z :=
  match e with
  | Processus _ _ c f n a r _ => connecteur c f n (octets_avis a) r
  | Muet _ _ c f n o r _ => connecteur c f n o r
  | Ignore _ _ c _ => c
  end.
Definition type_de (e : element) : Z := match e with Processus t _ _ _ _ _ _ _ | Muet t _ _ _ _ _ _ _ | Ignore t _ _ _ => t end.
Definition entete_de (e : element) : list Z := match e with Processus _ h _ _ _ _ _ _ | Muet _ h _ _ _ _ _ _ | Ignore _ h _ _ => h end.
Definition bourrage_de (e : element) : list Z := match e with Processus _ _ _ _ _ _ _ b | Muet _ _ _ _ _ _ _ b | Ignore _ _ _ b => b end.
Definition message (e : element) : list Z := le 4 (16 + zlen (charge_de e)) ++ le 2 (type_de e) ++ entete_de e ++ charge_de e ++ bourrage_de e.

Definition avis_ok (a : avis) : Prop := is_u64 (a_ts a) /\ Forall is_u32 (champs (a_quoi a)).
(** The declared length is that of the record, or exceeds what the message holds. *)
Definition connecteur_ok (typ : Z) (c f : list Z) (n : Z) (o r : list Z) : Prop :=
  typ <> NLMSG_ERROR /\ zlen c = 8 /\ zlen f = 2 /\ is_u16 n /\ (n = zlen o \/ (zlen o < n /\ r = [])).
Definition element_ok (e : element) : Prop :=
  zlen (entete_de e) = 10 /\ zlen (bourrage_de e) = aligner (16 + zlen (charge_de e)) - (16 + zlen (charge_de e)) /\ 16 + zlen (charge_de e) < 2 ^ 32 /\ is_u16 (type_de e) /\
  match e with
  | Processus t _ c f n a r _ => connecteur_ok t c f n (octets_avis a) r /\ avis_ok a
  | Muet t _ c f n o r _ => connecteur_ok t c f n o r /\ muet o = true
  | Ignore t _ c _ => t = NLMSG_ERROR \/ zlen c < cnMessageLen \/ unle (take 4 c) <> cnIdxProc \/ unle (take 4 (drop 4 c)) <> cnValProc
  end.

(** What may follow the last message: too short for a header, or a header whose length
    is below its own size or beyond the octets received. *)
Definition fin_ok (reste : list Z) : Prop := zlen reste < 16 \/ unle (take 4 reste) < 16 \/ zlen reste < unle (take 4 reste).

(** The identity a table of 1024 places remembers: the last recorded in the place of
    [pid], if it is the one of [pid]. *)
Definition place (pid : Z) : Z := Z.land pid (procUIDTableLen - 1).
Fixpoint ancien (hist : list (Z * Z)) (pid : Z) : Z :=
  match hist with
  | [] => if pid =? 0 then 0 else uidUnknown
  | (p, e) :: hist => if place p =? place pid then (if p =? pid then e else uidUnknown) else ancien hist pid
  end.

(** The event a report becomes; [hist] holds the identities, last first. *)
Definition evenement_de (hist : list (Z * Z)) (a : avis) : Probe_event_t :=
  match a_quoi a with
  | PFork parent ptgid pid tgid => evenement (a_ts a) ActFork pid tgid 0 parent (poser32 charge_nulle 0 ptgid)
  | PExec pid tgid => evenement (a_ts a) ActExec pid tgid 0 0 (if 16 <=? zlen (a_suite a) then copy_into charge_nulle (take 16 (a_suite a)) else charge_nulle)
  | PUid pid tgid ruid euid =>
      let old := ancien hist pid in
      evenement (a_ts a) ActPrivEsc pid tgid (if (euid =? 0) && negb (old =? 0) && negb (old =? uidUnknown) then FlagAnomaly else 0)
        (Z.lor (Z.shiftl old 32) euid) (poser32 (poser32 charge_nulle 0 ruid) 4 euid)
  | PExit pid tgid code signal => evenement (a_ts a) ActExit pid tgid 0 0 (poser32 (poser32 charge_nulle 0 code) 4 signal)
  end.
Definition retenir (hist : list (Z * Z)) (a : avis) : list (Z * Z) := match a_quoi a with PUid pid _ _ euid => (pid, euid) :: hist | _ => hist end.

Fixpoint evenements (hist : list (Z * Z)) (l : list element) : list Probe_event_t * list (Z * Z) :=
  match l with
  | [] => ([], hist)
  | Ignore _ _ _ _ :: l | Muet _ _ _ _ _ _ _ _ :: l => evenements hist l
  | Processus _ _ _ _ _ a _ _ :: l => let '(evs, h) := evenements (retenir hist a) l in (evenement_de hist a :: evs, h)
  end.

(** * The ring *)

Definition canal_de (r : RingProc) : Probe_channel_t := Channel (rp_slots r) (rp_head r) (rp_drops r) (rp_tail r).
Definition anneau_de (c : Probe_channel_t) : RingProc := Ring (Slots c) (Head c) (Channel.Drops c) (Tail c).

(** The ring of the probe is the generated channel. *)
Lemma Write_canal r ev : Write (Some r) (Some ev) = ('(c, x) ← C2bt_channel_write (Some (canal_de r)) (Some ev); Done (option_map anneau_de c, x)).
Proof.
  unfold Write, C2bt_channel_write. cbn [canal_de Head Slots Tail Channel.Drops]. change ProcRingSlots with 0x400. change (0x400 - 1) with 0x3ff.
  destruct (0x400 <=? _); [done|]. destruct (upd _ _ _); done.
Qed.

(** The ring [r] holds the queue [q]. *)
Definition tient_anneau (r : RingProc) (q : list Probe_event_t) : Prop := Channel.tient (canal_de r) q.

Lemma Write_ok r q ev : tient_anneau r q -> rp_head r + 1 < 2 ^ 64 ->
  exists r', Write (Some r) (Some ev) = Done (Some r', snd (Channel.ecrire q ev)) /\ tient_anneau r' (fst (Channel.ecrire q ev)) /\ rp_head r' <= rp_head r + 1 /\
    rp_drops r' = (if zlen q <? 1024 then rp_drops r else u64 (rp_drops r + 1)).
Proof.
  intros Hq Hh. destruct (proj1 (wp_exists _ _) (write_spec (canal_de r) q ev Hq Hh)) as ([c x] & E & c' & -> & Ht & -> & Hb & Hd).
  exists (anneau_de c'). rewrite Write_canal, E, run_bind_done. split; [done|]. split; [by destruct c'|]. split; [done|]. cbn [anneau_de rp_drops]. rewrite Hd.
  unfold Channel.ecrire. by destruct (zlen q <? 1024).
Qed.

(** [evs] written into a ring of 1024. *)
Definition ecrire_tout (q evs : list Probe_event_t) : list Probe_event_t := q ++ take (1024 - length q) evs.
Definition perdus (q evs : list Probe_event_t) : Z := Z.max 0 (zlen evs - Z.max 0 (1024 - zlen q)).

Lemma ecrire_tout_cons q ev evs : (length q <= 1024)%nat -> ecrire_tout (fst (Channel.ecrire q ev)) evs = ecrire_tout q (ev :: evs).
Proof.
  intros Hq. unfold ecrire_tout, Channel.ecrire. destruct (Z.ltb_spec (zlen q) 1024); cbn [fst]; unfold zlen in *.
  - rewrite length_app. cbn [length]. replace (1024 - length q)%nat with (S (1024 - (length q + 1)))%nat by lia. cbn [take]. by rewrite <- app_assoc.
  - by replace (1024 - length q)%nat with 0%nat by lia.
Qed.

(** * The table *)

Definition table_ok (d : ProcDecoder) (hist : list (Z * Z)) : Prop :=
  zlen d = 1024 /\ forall pid, is_u32 pid -> exists e, d !! Z.to_nat (place pid) = Some e /\ (if u_pid e =? pid then u_euid e else uidUnknown) = ancien hist pid.

Lemma place_borne pid : 0 <= pid -> 0 <= place pid < 1024.
Proof. intros H. unfold place. change (procUIDTableLen - 1) with (Z.ones 10). rewrite Z.land_ones by lia. apply Z.mod_pos_bound. lia. Qed.

Lemma table_vide : table_ok decodeur_vide [].
Proof.
  split; [done|]. intros pid Hp. exists (UIDEntry 0 0). pose proof (place_borne pid ltac:(unfold is_u32 in Hp; lia)).
  split; [apply lookup_replicate_2; lia|]. cbn [ancien u_pid u_euid]. by rewrite Z.eqb_sym.
Qed.

Lemma lookup_ok d hist pid : table_ok d hist -> is_u32 pid -> lookupUID d pid = Done (ancien hist pid).
Proof.
  intros [Hz H] Hp. destruct (H pid Hp) as (e & He & Hv). pose proof (place_borne pid ltac:(unfold is_u32 in Hp; lia)). unfold lookupUID.
  change (Z.land pid (procUIDTableLen - 1)) with (place pid). rewrite (idx_lookup _ _ e), run_bind_done by (done || lia). by rewrite Hv.
Qed.

Lemma store_ok d hist pid euid : table_ok d hist -> is_u32 pid -> exists d', storeUID d pid euid = Done d' /\ table_ok d' ((pid, euid) :: hist).
Proof.
  intros [Hz H] Hp. pose proof (place_borne pid ltac:(unfold is_u32 in Hp; lia)). unfold storeUID. change (Z.land pid (procUIDTableLen - 1)) with (place pid).
  rewrite upd_ok by lia. eexists. split; [done|]. split; [by rewrite zlen_insert|]. intros p Hp'. cbn [ancien]. pose proof (place_borne p ltac:(unfold is_u32 in Hp'; lia)).
  destruct (Z.eqb_spec (place pid) (place p)) as [->|Hn].
  - exists (UIDEntry pid euid). split; [apply list_lookup_insert_eq; unfold zlen in Hz; lia|done].
  - destruct (H p Hp') as (e & He & Hv). exists e. unfold ProcDecoder in *. by rewrite list_lookup_insert_ne by lia.
Qed.

(** * Reading back *)

Lemma le_lu_milieu n a z b i : i = zlen a -> 0 <= z < 256 ^ Z.of_nat n -> le_lu (Z.of_nat n) (a ++ le n z ++ b) i = Done z.
Proof. intros -> Hz. unfold le_lu. rewrite slice_milieu, run_bind_done by (rewrite ?zlen_le; lia). by rewrite unle_le. Qed.

Lemma le32_milieu a z b i : i = zlen a -> is_u32 z -> le_lu 4 (a ++ le 4 z ++ b) i = Done z.
Proof. intros. by apply (le_lu_milieu 4). Qed.
Lemma le16_milieu a z b i : i = zlen a -> is_u16 z -> le_lu 2 (a ++ le 2 z ++ b) i = Done z.
Proof. intros. by apply (le_lu_milieu 2). Qed.

(** The [k]-th field of the body. *)
Lemma champ_lu l suite k z : l !! k = Some z -> is_u32 z -> le_lu 4 (concat (le 4 <$> l) ++ suite) (4 * Z.of_nat k) = Done z.
Proof.
  intros Hk Hz. rewrite <- (take_drop_middle _ _ _ Hk). rewrite fmap_app, fmap_cons, concat_app. cbn [concat]. rewrite <- !app_assoc. apply le32_milieu; [|done].
  apply lookup_lt_Some in Hk. assert (forall l : list Z, zlen (concat (le 4 <$> l)) = 4 * zlen l) as H.
  { clear. induction l as [|x l IH]; [done|]. cbn [fmap list_fmap concat]. rewrite zlen_app, zlen_le, zlen_cons, IH. lia. }
  rewrite H. unfold zlen. rewrite length_take. lia.
Qed.

Lemma le32_tete z b : is_u32 z -> le_lu 4 (le 4 z ++ b) 0 = Done z.
Proof. intros. by apply (le32_milieu []). Qed.

Lemma zlen_champs l : zlen (concat (le 4 <$> l)) = 4 * zlen l.
Proof. induction l as [|x l IH]; [done|]. cbn [fmap list_fmap concat]. rewrite zlen_app, zlen_le, zlen_cons, IH. lia. Qed.

Lemma u32_quoi p : is_u32 (quoi p).
Proof. by destruct p. Qed.

Lemma transcrire_ok d hist a : table_ok d hist -> avis_ok a ->
  exists d', transcrire d (octets_avis a) = Done (Some (d', evenement_de hist a)) /\ table_ok d' (retenir hist a).
Proof.
  intros Hd (Hts & Hch). unfold transcrire. set (body := concat (le 4 <$> champs (a_quoi a)) ++ a_suite a). pose proof (zlen_nonneg (a_suite a)). pose proof (zlen_nonneg body).
  assert (octets_avis a = (le 4 (quoi (a_quoi a)) ++ le 4 (a_cpu a) ++ le 8 (a_ts a)) ++ body) as E by (unfold octets_avis, body; by rewrite <- !app_assoc).
  assert (zlen (le 4 (quoi (a_quoi a)) ++ le 4 (a_cpu a) ++ le 8 (a_ts a)) = 16) as Hz by (rewrite !zlen_app, !zlen_le; done).
  assert (zlen body = 4 * zlen (champs (a_quoi a)) + zlen (a_suite a)) as Hzb by (unfold body; by rewrite zlen_app, zlen_champs).
  rewrite E, (proj2 (Z.ltb_ge _ _)) by (rewrite zlen_app, Hz; change procEventHeader with 16; lia).
  assert (le_lu 4 ((le 4 (quoi (a_quoi a)) ++ le 4 (a_cpu a) ++ le 8 (a_ts a)) ++ body) 0 = Done (quoi (a_quoi a))) as ->.
  { rewrite <- app_assoc. apply (le32_milieu []); [done|apply u32_quoi]. }
  rewrite run_bind_done, slice_queue, run_bind_done by (done || (rewrite Hz; done)).
  assert (le_lu 8 ((le 4 (quoi (a_quoi a)) ++ le 4 (a_cpu a) ++ le 8 (a_ts a)) ++ body) 8 = Done (a_ts a)) as ->.
  { rewrite (app_assoc (le 4 _)), <- (app_assoc _ (le 8 _)). apply (le_lu_milieu 8); [by rewrite zlen_app, !zlen_le|done]. }
  rewrite run_bind_done. unfold evenement_de, retenir.
  assert (forall k z i, i = 4 * Z.of_nat k -> champs (a_quoi a) !! k = Some z -> le_lu 4 body i = Done z) as Hc.
  { intros k z i -> Hk. apply champ_lu; [done|]. rewrite Forall_lookup in Hch. by apply (Hch k). }
  destruct (a_quoi a) as [a0 a1 a2 a3|a0 a1|a0 a1 a2 a3|a0 a1 a2 a3] eqn:Ea; cbn [quoi champs] in *; cbn [Z.eqb Pos.eqb procEventFork procEventExec procEventUID procEventExit];
    pose proof (fun H => Hc 0%nat a0 0 eq_refl H) as R0; pose proof (fun H => Hc 1%nat a1 4 eq_refl H) as R1; specialize (R0 eq_refl); specialize (R1 eq_refl).
  - change (zlen [a0; a1; a2; a3]) with 4 in Hzb. rewrite (proj2 (Z.ltb_ge _ _)) by (rewrite Hzb; lia). rewrite R0, R1, (Hc 2%nat a2 8 eq_refl eq_refl), (Hc 3%nat a3 12 eq_refl eq_refl), !run_bind_done. by exists d.
  - change (zlen [a0; a1]) with 2 in Hzb. rewrite (proj2 (Z.ltb_ge _ _)) by (rewrite Hzb; lia). rewrite R0, R1, !run_bind_done. change (8 + taskCommLen) with 24.
    assert (zlen body = 8 + zlen (a_suite a)) as Hzb' by lia. rewrite Hzb'. replace (24 <=? 8 + zlen (a_suite a)) with (16 <=? zlen (a_suite a))
      by (destruct (Z.leb_spec 16 (zlen (a_suite a))), (Z.leb_spec 24 (8 + zlen (a_suite a))); lia).
    destruct (Z.leb_spec 16 (zlen (a_suite a))); [|rewrite run_bind_done; by exists d].
    assert (slice body 8 24 = Done (take 16 (a_suite a))) as ->.
    { unfold body. rewrite <- (take_drop 16 (a_suite a)) at 1. apply slice_milieu; rewrite ?zlen_champs; unfold zlen in *; rewrite ?length_take; cbn [length]; lia. }
    rewrite !run_bind_done. by exists d.
  - change (zlen [a0; a1; a2; a3]) with 4 in Hzb. rewrite (proj2 (Z.ltb_ge _ _)) by (rewrite Hzb; lia). rewrite R0, R1, (Hc 2%nat a2 8 eq_refl eq_refl), (Hc 3%nat a3 12 eq_refl eq_refl), !run_bind_done.
    assert (is_u32 a0) as Hp by (by inversion Hch). rewrite (lookup_ok d hist a0 Hd Hp), run_bind_done. cbv zeta.
    destruct (store_ok d hist a0 a3 Hd Hp) as (d' & -> & Hd'). rewrite run_bind_done. by exists d'.
  - change (zlen [a0; a1; a2; a3]) with 4 in Hzb. rewrite (proj2 (Z.ltb_ge _ _)) by (rewrite Hzb; lia). rewrite R0, R1, (Hc 2%nat a2 8 eq_refl eq_refl), (Hc 3%nat a3 12 eq_refl eq_refl), !run_bind_done. by exists d.
Qed.

Lemma transcrire_muet (d : ProcDecoder) o : muet o = true -> transcrire d o = Done None.
Proof.
  unfold muet, transcrire. pose proof (zlen_nonneg o) as H0. destruct (Z.ltb_spec (zlen o) procEventHeader) as [|H]; [done|]. cbn [orb]. unfold procEventHeader in *.
  assert (le_lu 4 o 0 = Done (unle (take 4 o))) as -> by (unfold le_lu, slice; by rewrite !(proj2 (Z.leb_le _ _)) by lia).
  rewrite run_bind_done. set (what := unle (take 4 o)).
  assert (exists body, slice o 16 (zlen o) = Done body /\ zlen body = zlen o - 16) as (body & -> & <-).
  { unfold slice. rewrite !(proj2 (Z.leb_le _ _)) by lia. eexists. split; [done|]. rewrite zlen_slice by lia. lia. }
  rewrite run_bind_done. assert (exists ts, le_lu 8 o 8 = Done ts) as (ts & ->) by (unfold le_lu, slice; rewrite !(proj2 (Z.leb_le _ _)) by lia; by eexists).
  rewrite run_bind_done.
  destruct (what =? procEventFork); cbn [orb]; [by intros ->|]. destruct (what =? procEventExec) eqn:E.
  { apply Z.eqb_eq in E as ->. cbn [Z.eqb Pos.eqb procEventExec procEventUID procEventExit orb]. by intros ->. }
  destruct (what =? procEventUID); cbn [orb]; [by intros ->|]. destruct (what =? procEventExit); [by intros ->|done].
Qed.

Lemma aligner_val n : 0 <= n -> aligner n = 4 * ((n + 3) / 4) /\ n <= aligner n < n + 4.
Proof.
  intros Hn. unfold aligner. change (netlinkAlignTo - 1) with (Z.ones 2). replace (n + netlinkAlignTo - 1) with (n + 3) by (unfold netlinkAlignTo; lia).
  rewrite Z.ldiff_ones_r, Z.shiftl_mul_pow2, Z.shiftr_div_pow2 by lia. change (2 ^ 2) with 4. divlia.
Qed.

(** The state of the decoder after a stream. *)
Definition suit (d : ProcDecoder) (r : RingProc) (hist : list (Z * Z)) (q : list Probe_event_t) (drops : Z) : Prop :=
  table_ok d hist /\ tient_anneau r q /\ rp_drops r = drops.

Definition notes (e : element) : list avis := match e with Processus _ _ _ _ _ a _ _ => [a] | _ => [] end.

Lemma lectures_entete pre e post : element_ok e ->
  le_lu 4 (pre ++ message e ++ post) (zlen pre) = Done (16 + zlen (charge_de e)) /\ le_lu 2 (pre ++ message e ++ post) (zlen pre + 4) = Done (type_de e) /\
  slice (pre ++ message e ++ post) (zlen pre + 16) (zlen pre + (16 + zlen (charge_de e))) = Done (charge_de e) /\
  zlen (message e) = aligner (16 + zlen (charge_de e)).
Proof.
  intros (Hh & Hb & Hz & Ht & _). pose proof (zlen_nonneg (charge_de e)). unfold message. split; [|split; [|split]].
  - rewrite <- !app_assoc. apply le32_milieu; [done|unfold is_u32; lia].
  - rewrite <- !app_assoc. rewrite (app_assoc pre). apply le16_milieu; [by rewrite zlen_app, zlen_le|done].
  - rewrite <- !app_assoc. rewrite (app_assoc pre), (app_assoc (pre ++ _)), (app_assoc ((pre ++ _) ++ _)). apply slice_milieu; rewrite ?zlen_app, ?zlen_le; lia.
  - rewrite !zlen_app, !zlen_le. lia.
Qed.

Lemma charge_ignoree t h c b : element_ok (Ignore t h c b) -> negb (t =? NLMSG_ERROR) && (cnMessageLen <=? zlen c) = true ->
  exists i v, le_lu 4 c 0 = Done i /\ le_lu 4 c 4 = Done v /\ (i =? cnIdxProc) && (v =? cnValProc) = false.
Proof.
  intros (_ & _ & _ & _ & Hc) [Ht Hl]%andb_prop. unfold cnMessageLen in *. apply Z.leb_le in Hl. unfold le_lu.
  unfold slice. rewrite !(proj2 (Z.leb_le _ _)) by lia. cbn [andb]. change (Z.to_nat (0 + 4 - 0)) with 4%nat. change (Z.to_nat (4 + 4 - 4)) with 4%nat.
  change (Z.to_nat 0) with 0%nat. change (Z.to_nat 4) with 4%nat. rewrite !run_bind_done, drop_0. eexists _, _. split; [done|]. split; [done|].
  destruct Hc as [->|[Hc|Hc]]; [done|lia|]. apply andb_false_iff. destruct Hc as [Hc|Hc]; [left|right]; by apply Z.eqb_neq.
Qed.

(** A message of the connector gives its record to the transcription. *)
Lemma lire_connecteur c f n o r typ (d : ProcDecoder) ring total : connecteur_ok typ c f n o r ->
  let p := connecteur c f n o r in
  (cnMessageLen <=? zlen p) = true /\ le_lu 4 p 0 = Done cnIdxProc /\ le_lu 4 p 4 = Done cnValProc /\
  (eventBytes ← slice p cnMessageLen (zlen p);
   cLen ← le_lu 2 p 16;
   eventBytes ← (if cLen <=? zlen eventBytes then slice eventBytes 0 cLen else Done eventBytes);
   '(d, ring, ok) ← decodeProcEvent d eventBytes ring;
   Done (d, ring, if (ok : bool) then total + 1 else total)) =
  ('(d, ring, ok) ← decodeProcEvent d o ring; Done (d, ring, if (ok : bool) then total + 1 else total)).
Proof.
  intros (_ & Hc8 & Hf2 & Hn & Hlen). cbn zeta. unfold connecteur. pose proof (zlen_nonneg o). pose proof (zlen_nonneg r).
  split; [apply Z.leb_le; change cnMessageLen with 20; rewrite !zlen_app, !zlen_le; lia|].
  split; [by rewrite le32_tete|]. split; [by rewrite (le32_milieu (le 4 cnIdxProc) cnValProc _ 4)|].
  rewrite (app_assoc (le 4 cnIdxProc)), (app_assoc (le 4 cnIdxProc ++ le 4 cnValProc)), (app_assoc ((le 4 cnIdxProc ++ le 4 cnValProc) ++ c)), (app_assoc (((le 4 cnIdxProc ++ le 4 cnValProc) ++ c) ++ le 2 n)).
  rewrite slice_queue, run_bind_done by (rewrite ?zlen_app, ?zlen_le; change cnMessageLen with 20; lia || done).
  rewrite <- (app_assoc ((le 4 cnIdxProc ++ le 4 cnValProc) ++ c)), <- (app_assoc ((le 4 cnIdxProc ++ le 4 cnValProc) ++ c)). rewrite <- !(app_assoc (le 2 n)).
  rewrite le16_milieu, run_bind_done by (rewrite ?zlen_app, ?zlen_le; lia || done).
  assert ((if n <=? zlen (o ++ r) then slice (o ++ r) 0 n else Done (o ++ r)) = Done o) as ->.
  { destruct Hlen as [->|[Hlt ->]]; [rewrite (proj2 (Z.leb_le _ _)) by (rewrite zlen_app; lia); by apply slice_debut|]. rewrite app_nil_r. by rewrite (proj2 (Z.leb_gt _ _)) by lia. }
  by rewrite run_bind_done.
Qed.

(** One message. *)
Lemma tour_message pre e post d r hist q drops total : element_ok e -> suit d r hist q drops -> (length q <= 1024)%nat -> rp_head r + 1 < 2 ^ 64 ->
  exists d' r', tour_decode (pre ++ message e ++ post) (zlen pre, d, r, total) = Done (inl (zlen pre + zlen (message e), d', r', total + zlen (notes e))) /\
    suit d' r' (snd (evenements hist [e])) (ecrire_tout q (fst (evenements hist [e]))) (match e with Processus _ _ _ _ _ _ _ _ => if zlen q <? 1024 then drops else u64 (drops + 1) | _ => drops end) /\
    rp_head r' <= rp_head r + zlen (notes e).
Proof.
  intros He (Hd & Hq & Hdr) Hql Hh. destruct (lectures_entete pre e post He) as (L1 & L2 & L3 & L4). pose proof (zlen_nonneg (charge_de e)). pose proof (zlen_nonneg post). pose proof (zlen_nonneg pre).
  destruct (aligner_val (16 + zlen (charge_de e)) ltac:(lia)) as [_ Hal]. unfold tour_decode. change netlinkHeaderLen with 16.
  rewrite (proj2 (Z.ltb_ge _ _)) by (rewrite !zlen_app; lia). rewrite L1, run_bind_done. destruct (_ || _) eqn:E; [exfalso; apply orb_true_iff in E as [E|E]; apply Z.ltb_lt in E; rewrite ?zlen_app in E; lia|].
  clear E. rewrite L2, run_bind_done, L3, run_bind_done. rewrite L4. destruct e as [t h c f n a rs b|t h c f n o rs b|t h c b].
  - destruct He as (_ & _ & _ & _ & Hcn & Ha). pose proof Hcn as (Hne & _). cbn [type_de charge_de] in *.
    destruct (lire_connecteur c f n (octets_avis a) rs t d r total Hcn) as (-> & E1 & E2 & E3). rewrite (proj2 (Z.eqb_neq _ _)) by done. cbn [negb andb].
    rewrite E1, run_bind_done, E2, run_bind_done. cbn [Z.eqb Pos.eqb andb cnIdxProc cnValProc]. rewrite E3. clear E1 E2 E3.
    unfold decodeProcEvent. destruct (transcrire_ok d hist a Hd Ha) as (d' & Etr & Hd'). rewrite Etr, run_bind_done.
    destruct (Write_ok r q (evenement_de hist a) Hq Hh) as (r' & -> & Hq' & Hh' & Hdr'). rewrite !run_bind_done. exists d', r'. split; [done|]. cbn [evenements fst snd].
    split; [|done]. split; [done|]. split; [|by rewrite Hdr', Hdr]. rewrite <- ecrire_tout_cons by done. unfold ecrire_tout. by rewrite take_nil, app_nil_r.
  - destruct He as (_ & _ & _ & _ & Hcn & Ho). pose proof Hcn as (Hne & _). cbn [type_de charge_de] in *.
    destruct (lire_connecteur c f n o rs t d r total Hcn) as (-> & E1 & E2 & E3). rewrite (proj2 (Z.eqb_neq _ _)) by done. cbn [negb andb].
    rewrite E1, run_bind_done, E2, run_bind_done. cbn [Z.eqb Pos.eqb andb cnIdxProc cnValProc]. rewrite E3. clear E1 E2 E3.
    unfold decodeProcEvent. rewrite transcrire_muet, !run_bind_done by done. exists d, r. cbn [notes evenements fst snd]. rewrite !Z.add_0_r.
    unfold ecrire_tout. rewrite take_nil, app_nil_r. by split_and!.
  - cbn [type_de charge_de notes evenements fst snd] in *. exists d, r. assert (zlen (@nil avis) = 0) as -> by done. rewrite !Z.add_0_r.
    assert (ecrire_tout q [] = q) as -> by (unfold ecrire_tout; by rewrite take_nil, app_nil_r). split; [|by split].
    destruct (negb (t =? NLMSG_ERROR) && (cnMessageLen <=? zlen c)) eqn:Et; [|done].
    destruct (charge_ignoree t h c b He Et) as (i & v & -> & -> & Ev). rewrite !run_bind_done, Ev. done.
Qed.

Lemma perdus_cons q ev evs : perdus q (ev :: evs) = perdus (fst (Channel.ecrire q ev)) evs + (if zlen q <? 1024 then 0 else 1).
Proof.
  unfold perdus, Channel.ecrire. rewrite zlen_cons. pose proof (zlen_nonneg evs). destruct (Z.ltb_spec (zlen q) 1024); cbn [fst]; [|lia].
  rewrite zlen_app. change (zlen [ev]) with 1. lia.
Qed.

Lemma evenements_cons hist e l : evenements hist (e :: l) =
  (fst (evenements hist [e]) ++ fst (evenements (snd (evenements hist [e])) l), snd (evenements (snd (evenements hist [e])) l)).
Proof. destruct e; cbn [evenements fst snd app]; [|by destruct (evenements hist l)..]. by destruct (evenements (retenir hist a) l). Qed.

Lemma ecrire_tout_app q evs1 evs2 : (length q <= 1024)%nat -> ecrire_tout (ecrire_tout q evs1) evs2 = ecrire_tout q (evs1 ++ evs2).
Proof.
  revert q. induction evs1 as [|ev evs1 IH]; intros q Hq; cbn [app]; [unfold ecrire_tout at 2; by rewrite take_nil, app_nil_r|].
  assert (length (fst (Channel.ecrire q ev)) <= 1024)%nat as Hq'.
  { unfold Channel.ecrire. destruct (Z.ltb_spec (zlen q) 1024); cbn [fst]; [rewrite length_app; cbn [length]; unfold zlen in *; lia|done]. }
  rewrite <- (ecrire_tout_cons q ev evs1), <- (ecrire_tout_cons q ev (evs1 ++ evs2)) by done. by apply IH.
Qed.

Lemma ecrire_tout_long q evs : (length q <= 1024)%nat -> (length (ecrire_tout q evs) <= 1024)%nat.
Proof. intros H. unfold ecrire_tout. rewrite length_app, length_take. lia. Qed.

Lemma message_long e : element_ok e -> (16 <= length (message e))%nat.
Proof. intros He. destruct (lectures_entete [] e [] He) as (_ & _ & _ & H). destruct (aligner_val (16 + zlen (charge_de e)) ltac:(pose proof (zlen_nonneg (charge_de e)); lia)) as [_ ?].
  pose proof (zlen_nonneg (charge_de e)). unfold zlen in *. lia. Qed.

Lemma tour_fin pre reste (d : ProcDecoder) r total : fin_ok reste -> tour_decode (pre ++ reste) (zlen pre, d, r, total) = Done (inr (d, r, total)).
Proof.
  intros Hf. unfold tour_decode. change netlinkHeaderLen with 16. rewrite !zlen_app. pose proof (zlen_nonneg pre). destruct (Z.ltb_spec (zlen pre + zlen reste) (zlen pre + 16)) as [|H1]; [done|].
  assert (le_lu 4 (pre ++ reste) (zlen pre) = Done (unle (take 4 reste))) as ->.
  { unfold le_lu. rewrite <- (take_drop 4 reste) at 1. rewrite slice_milieu; [done|done|]. unfold zlen in *. rewrite length_take. lia. }
  rewrite run_bind_done. destruct Hf as [|[|]]; [lia|by rewrite (proj2 (Z.ltb_lt _ _))|].
  rewrite (proj2 (Z.ltb_lt (_ + _) _)) by lia. by rewrite orb_true_r.
Qed.

(** The whole stream, from an offset. *)
Lemma flux l : forall n pre reste d r hist q drops total, Forall element_ok l -> fin_ok reste -> suit d r hist q drops -> is_u64 drops -> (length q <= 1024)%nat ->
  rp_head r + zlen l < 2 ^ 64 -> (length (concat (message <$> l) ++ reste) < n)%nat ->
  exists d' r', loop (tour_decode (pre ++ concat (message <$> l) ++ reste)) n (zlen pre, d, r, total) = Done (d', r', total + zlen (fst (evenements hist l))) /\
    suit d' r' (snd (evenements hist l)) (ecrire_tout q (fst (evenements hist l))) (u64 (drops + perdus q (fst (evenements hist l)))).
Proof.
  induction l as [|e l IH]; intros n pre reste d r hist q drops total Hl Hr Hs Hdu Hq Hh Hn; (destruct n as [|n]; [lia|]); rewrite loop_unfold.
  - cbn [fmap list_fmap concat app evenements fst snd] in *. rewrite tour_fin, run_bind_done by done. exists d, r. split; [by rewrite Z.add_0_r|]. unfold ecrire_tout, perdus. rewrite take_nil, app_nil_r. change (zlen (@nil Probe_event_t)) with 0.
    replace (drops + Z.max 0 (0 - Z.max 0 (1024 - zlen q))) with drops by lia. by rewrite u64_id.
  - apply Forall_cons in Hl as [He Hl]. cbn [fmap list_fmap concat] in *. rewrite zlen_cons in Hh. pose proof (zlen_nonneg l). rewrite <- app_assoc in *.
    destruct (tour_message pre e (concat (message <$> l) ++ reste) d r hist q drops total He Hs Hq ltac:(lia)) as (d1 & r1 & -> & Hs1 & Hh1). rewrite run_bind_done.
    assert (zlen (notes e) <= 1) as Hn1 by (destruct e; unfold zlen; cbn [notes length]; lia). pose proof (message_long e He) as Hm. rewrite length_app in Hn.
    rewrite (app_assoc pre), <- zlen_app.
    assert (is_u64 (match e with Processus _ _ _ _ _ _ _ _ => if zlen q <? 1024 then drops else u64 (drops + 1) | _ => drops end)) as Hdu1
      by (destruct e; [destruct (_ <? _); [done|apply u64_range]|done..]).
    destruct (IH n (pre ++ message e) reste d1 r1 _ _ _ (total + zlen (notes e)) Hl Hr Hs1 Hdu1 ltac:(by apply ecrire_tout_long) ltac:(lia) ltac:(lia)) as (d' & r' & -> & Hs').
    exists d', r'. rewrite (evenements_cons hist e l). cbn [fst snd]. rewrite <- ecrire_tout_app, zlen_app by done.
    assert (zlen (fst (evenements hist [e])) = zlen (notes e)) as -> by (by destruct e). split; [f_equal; f_equal; lia|]. destruct Hs' as (H1 & H2 & H3). split; [done|]. split; [done|]. rewrite H3.
    destruct e as [t h c f n0 a rs b|t h c f n0 o rs b|t h c b]; cbn [evenements fst snd app]; [|unfold ecrire_tout; by rewrite take_nil, app_nil_r..].
    rewrite perdus_cons, <- ecrire_tout_cons by done. unfold ecrire_tout at 1. rewrite take_nil, app_nil_r. destruct (zlen q <? 1024); [f_equal; lia|].
    unfold u64. rewrite Z.add_mod_idemp_l by lia. f_equal. lia.
Qed.

(** * Any octets *)

Lemma le_lu_total n l i (Q : Z -> Prop) : bytes_ok l -> 0 <= n -> 0 <= i -> i + n <= zlen l -> (forall x, 0 <= x < 256 ^ n -> Q x) -> wp (le_lu n l i) Q.
Proof.
  intros Hb Hn Hi Hl HQ. unfold le_lu. apply wp_bind, wp_slice; [lia..|]. apply wp_done, HQ. set (s := take _ _). assert (zlen s = n) as Hz by (unfold s; rewrite zlen_slice by lia; lia).
  pose proof (unle_range s ltac:(by apply bytes_ok_take, bytes_ok_drop)) as Hr. by rewrite Hz in Hr.
Qed.

Lemma transcrire_total (d : ProcDecoder) l : bytes_ok l -> zlen d = 1024 -> wp (transcrire d l) (fun o => match o with Some (d', _) => zlen d' = 1024 | None => True end).
Proof.
  intros Hl Hd. unfold transcrire. destruct (Z.ltb_spec (zlen l) procEventHeader) as [H|H]; [by apply wp_done|]. unfold procEventHeader in *. apply wp_bind, le_lu_total; [done|lia..|]. intros what _.
  apply wp_bind, wp_slice; [lia..|]. set (body := take _ _). assert (bytes_ok body) as Hb by (by apply bytes_ok_take, bytes_ok_drop).
  apply wp_bind, le_lu_total; [done|lia..|]. intros ts _.
  destruct (what =? procEventFork); [|destruct (what =? procEventExec); [|destruct (what =? procEventUID); [|destruct (what =? procEventExit); [|by apply wp_done]]]].
  - destruct (Z.ltb_spec (zlen body) 16); [by apply wp_done|]. do 4 (apply wp_bind, le_lu_total; [done|lia..|]; intros ? _). by apply wp_done.
  - destruct (Z.ltb_spec (zlen body) 8); [by apply wp_done|]. do 2 (apply wp_bind, le_lu_total; [done|lia..|]; intros ? _).
    destruct (Z.leb_spec (8 + taskCommLen) (zlen body)); unfold taskCommLen in *; [|by apply wp_bind, wp_done, wp_done]. do 2 apply wp_bind. apply wp_slice; [lia..|]. by apply wp_done, wp_done.
  - destruct (Z.ltb_spec (zlen body) 16); [by apply wp_done|]. apply wp_bind, le_lu_total; [done|lia..|]; intros pid Hp. do 3 (apply wp_bind, le_lu_total; [done|lia..|]; intros ? _).
    pose proof (place_borne pid ltac:(lia)) as Hpl. unfold lookupUID, storeUID. change (Z.land pid (procUIDTableLen - 1)) with (place pid).
    do 2 apply wp_bind. apply wp_idx; [lia|]. intros e _. apply wp_done. cbv zeta. apply wp_bind, wp_upd; [lia|]. apply wp_done. by rewrite zlen_insert.
  - destruct (Z.ltb_spec (zlen body) 16); [by apply wp_done|]. do 4 (apply wp_bind, le_lu_total; [done|lia..|]; intros ? _). by apply wp_done.
Qed.

Lemma Decode_total (d : ProcDecoder) buf r q : bytes_ok buf -> zlen d = 1024 -> tient_anneau r q -> rp_head r + zlen buf < 2 ^ 64 ->
  exists d' r' n evs, Decode d buf (Some r) = Done (d', Some r', n) /\ zlen d' = 1024 /\ tient_anneau r' (ecrire_tout q evs) /\ n = zlen evs /\ 16 * n <= zlen buf.
Proof.
  intros Hb Hd Hq Hh. pose proof (zlen_nonneg buf). assert (length q <= 1024)%nat as Hq1 by (destruct Hq as (_ & _ & _ & _ & Hl & _); unfold zlen in Hl; lia). unfold Decode.
  assert (wp (loop (tour_decode buf) (S (length buf)) (0, d, r, 0)) (fun '(d', r', n) => exists evs, zlen d' = 1024 /\ tient_anneau r' (ecrire_tout q evs) /\ n = zlen evs /\ 16 * n <= zlen buf)) as ([[d' r'] n] & -> & evs & H1)%wp_exists.
  2: { rewrite run_bind_done. by exists d', r', n, evs. }
  apply (wp_loop _ (fun '(off, d, r', n) => 0 <= off /\ zlen d = 1024 /\ 16 * n <= off /\ 16 * n <= zlen buf /\ rp_head r' <= rp_head r + n /\ exists evs, tient_anneau r' (ecrire_tout q evs) /\ n = zlen evs)
    (fun '(off, _, _, _) => Z.max 0 (zlen buf - off))).
  2: { split; [lia|]. split; [done|]. split; [lia|]. split; [lia|]. split; [lia|]. exists []. unfold ecrire_tout. by rewrite take_nil, app_nil_r. }
  2: { unfold zlen. lia. }
  intros [[[off d1] r1] n] (Ho & Hd1 & Hn & Hn' & Hh1 & evs & Hq' & En). unfold tour_decode. change netlinkHeaderLen with 16.
  destruct (Z.ltb_spec (zlen buf) (off + 16)) as [E|E]; [apply wp_done; by exists evs|]. apply wp_bind, le_lu_total; [done|lia..|]. intros msgLen Hm.
  destruct (_ || _) eqn:Ec; [apply wp_done; by exists evs|]. apply orb_false_iff in Ec as [E1%Z.ltb_ge E2%Z.ltb_ge]. apply wp_bind, le_lu_total; [done|lia..|]. intros typ _.
  apply wp_bind, wp_slice; [lia..|]. set (payload := take _ _). assert (bytes_ok payload) as Hp by (by apply bytes_ok_take, bytes_ok_drop).
  destruct (aligner_val msgLen ltac:(lia)) as [_ Ha].
  apply wp_bind. eapply (wp_mono _ (fun '(d2, r2, n2) => zlen d2 = 1024 /\ n <= n2 <= n + 1 /\ rp_head r2 <= rp_head r + n2 /\ exists evs, tient_anneau r2 (ecrire_tout q evs) /\ n2 = zlen evs)).
  - destruct (_ && _) eqn:Ec; [|apply wp_done; split_and!; try lia; done || by exists evs]. apply andb_prop in Ec as [_ Ec%Z.leb_le]. unfold cnMessageLen in *.
    apply wp_bind, le_lu_total; [done|lia..|]. intros i _. apply wp_bind, le_lu_total; [done|lia..|]. intros v _.
    destruct (_ && _); [|apply wp_done; split_and!; try lia; done || by exists evs]. apply wp_bind, wp_slice; [lia..|]. set (eb := take _ _).
    assert (bytes_ok eb) as Heb by (by apply bytes_ok_take, bytes_ok_drop). apply wp_bind, le_lu_total; [done|lia..|]. intros cl Hcl.
    apply wp_bind. eapply (wp_mono _ bytes_ok). { destruct (Z.leb_spec cl (zlen eb)); [|by apply wp_done]. apply wp_slice; [lia..|]. by apply bytes_ok_take, bytes_ok_drop. }
    intros eb' Heb'. unfold decodeProcEvent. apply wp_bind, wp_bind. eapply wp_mono; [by apply (transcrire_total d1 eb')|].
    intros [[d2 ev]|] Hd2; [|apply wp_done, wp_done; split_and!; try lia; done || by exists evs].
    destruct (Write_ok r1 (ecrire_tout q evs) ev Hq' ltac:(lia)) as (r2 & -> & Hq2 & Hh2 & _). rewrite run_bind_done. apply wp_done, wp_done. cbn [default from_option id]. split_and!; try lia.
    exists (evs ++ [ev]). rewrite zlen_app. change (zlen [ev]) with 1. split; [|lia]. rewrite <- ecrire_tout_app by done.
    rewrite <- ecrire_tout_cons by (by apply ecrire_tout_long). unfold ecrire_tout at 1. by rewrite take_nil, app_nil_r.
  - intros [[d2 r2] n2] (Hd2 & Hn2 & Hh2 & He2). apply wp_done. split; [split_and!; try lia; done|lia].
Qed.

(** * The process stream *)

(** C22: the octets the process connector delivers become exactly the events they
    report, in order: forks, executions, changes of identity and exits, whatever the
    unread fields, the declared length, the octets after the record and the padding.
    Nothing else becomes an event: not a record of another kind -- acknowledgement,
    group, session, name, trace, dump --, not one cut before the end of its body, not
    a message of another connector or an error.  The reading stops at a message cut
    short.  The events are appended to the ring, which keeps 1024 and counts the others
    as lost.  A change of identity carries the identity that the table of 1024 places
    remembers for the process, and is flagged exactly when it passes to 0 from a
    remembered identity that is not 0; an exit carries its code in its payload, its
    source being 0.  On any octets whatever the decoder ends without failing, leaves
    the table and the ring well formed and counts what it has transcribed. *)
Theorem flux_proc_exact d r hist q :
  table_ok d hist -> tient_anneau r q -> is_u64 (rp_drops r) ->
  (forall l reste, Forall element_ok l -> fin_ok reste -> rp_head r + zlen l < 2 ^ 64 ->
    exists d' r', Decode d (concat (message <$> l) ++ reste) (Some r) = Done (d', Some r', zlen (fst (evenements hist l))) /\ table_ok d' (snd (evenements hist l)) /\
      tient_anneau r' (ecrire_tout q (fst (evenements hist l))) /\ rp_drops r' = u64 (rp_drops r + perdus q (fst (evenements hist l)))) /\
  (forall buf, bytes_ok buf -> rp_head r + zlen buf < 2 ^ 64 ->
    exists d' r' n evs, Decode d buf (Some r) = Done (d', Some r', n) /\ zlen d' = 1024 /\ tient_anneau r' (ecrire_tout q evs) /\ n = zlen evs /\ 16 * n <= zlen buf).
Proof.
  intros Hd Hq Hu. assert (length q <= 1024)%nat as Hq1 by (destruct Hq as (_ & _ & _ & _ & Hl & _); unfold zlen in Hl; lia). split.
  - intros l reste Hl Hr Hh. unfold Decode.
    destruct (flux l (S (length (concat (message <$> l) ++ reste))) [] reste d r hist q _ 0 Hl Hr (conj Hd (conj Hq eq_refl)) Hu Hq1 Hh ltac:(lia)) as (d' & r' & E & H1 & H2 & H3).
    change (zlen (@nil Z)) with 0 in E. cbn [app] in E. rewrite E, run_bind_done, Z.add_0_l. exists d', r'. by split_and!.
  - intros buf Hb Hh. apply Decode_total; try done. by destruct Hd.
Qed.

(** The dump of the sockets: on any octets it ends, fills a prefix of the caller's
    table and leaves the rest as it was. *)
Theorem dump_total buf dst : bytes_ok buf ->
  exists stop dst' added err, parseDiagMessages buf dst = Done (stop, dst', added, err) /\ 0 <= added <= zlen dst /\ 72 * added <= zlen buf /\
    zlen dst' = zlen dst /\ drop (Z.to_nat added) dst' = drop (Z.to_nat added) dst.
Proof.
  intros Hb. pose proof (zlen_nonneg buf). pose proof (zlen_nonneg dst). unfold parseDiagMessages.
  assert (wp (loop (tour_diag buf) (S (length buf)) (0, dst, 0)) (fun '(stop, dst', added, err) => 0 <= added <= zlen dst /\ 72 * added <= zlen buf /\
    zlen dst' = zlen dst /\ drop (Z.to_nat added) dst' = drop (Z.to_nat added) dst)) as ([[[stop dst'] added] err] & -> & H1)%wp_exists; [|by exists stop, dst', added, err].
  apply (wp_loop _ (fun '(off, l, n) => 0 <= off /\ 0 <= n <= zlen dst /\ 72 * n <= off /\ 72 * n <= zlen buf /\ zlen l = zlen dst /\ drop (Z.to_nat n) l = drop (Z.to_nat n) dst)
    (fun '(off, _, _) => Z.max 0 (zlen buf - off))); [|split_and!; try lia; done|unfold zlen; lia].
  intros [[off l] n] (Ho & Hn & Hn1 & Hn2 & Hl & Hd). unfold tour_diag. change nlmsgHdrLen with 16.
  destruct (Z.ltb_spec (zlen buf) (off + 16)); [apply wp_done; done|]. apply wp_bind, le_lu_total; [done|lia..|]. intros msgLen Hm.
  destruct (_ || _) eqn:Ec; [apply wp_done; done|]. apply orb_false_iff in Ec as [E1%Z.ltb_ge E2%Z.ltb_ge]. apply wp_bind, le_lu_total; [done|lia..|]. intros typ _.
  destruct (typ =? nlmsgDone); [apply wp_done; done|]. destruct (typ =? nlmsgError); [apply wp_done; done|]. pose proof (aligner_val msgLen ltac:(lia)) as [_ Ha].
  change (Z.ldiff (msgLen + nlmsgAlign - 1) (nlmsgAlign - 1)) with (aligner msgLen). apply wp_bind.
  eapply (wp_mono _ (fun '(l2, n2) => n <= n2 /\ n2 <= zlen dst /\ 72 * n2 <= off + msgLen /\ zlen l2 = zlen dst /\ drop (Z.to_nat n2) l2 = drop (Z.to_nat n2) dst)).
  2: { intros [l2 n2] (? & ? & ? & ? & ?). apply wp_done. split; [split_and!; try lia; done|lia]. }
  destruct (typ =? sockDiagByFamily); [|apply wp_done; split_and!; try lia; done]. apply wp_bind, wp_slice; [lia..|]. set (p := take _ _).
  assert (bytes_ok p) as Hp by (by apply bytes_ok_take, bytes_ok_drop). assert (zlen p = msgLen - 16) as Hzp by (unfold p; rewrite zlen_slice by lia; lia).
  destruct (_ && _) eqn:Ec; [|apply wp_done; split_and!; try lia; done]. apply andb_prop in Ec as [E3%Z.leb_le E4%Z.ltb_lt]. unfold inetDiagMsgLen in *.
  apply wp_bind. eapply (wp_mono _ (fun _ => True)).
  { unfold parseInetDiagMsg. do 2 (apply wp_bind, wp_idx; [lia|]; intros ? _). do 2 (apply wp_bind, wp_be16; [done|lia..|]; intros ? _).
    do 2 (apply wp_bind, wp_slice; [lia..|]). do 2 (apply wp_bind, le_lu_total; [done|lia..|]; intros ? _). by apply wp_done. }
  intros s _. apply wp_bind, wp_upd; [lia|]. apply wp_done. rewrite zlen_insert. split_and!; try lia.
  rewrite drop_insert_lt by lia. replace (Z.to_nat (n + 1)) with (Z.to_nat n + 1)%nat by lia. by rewrite <- !drop_drop, Hd.
Qed.

(** ** Examples *)

(** A shell of root changes identity 1000 -> 0: flagged. *)
Definition flux_exemple : list element :=
  let p a := Processus NLMSG_DONE (replicate 10 0) (replicate 8 9) (replicate 2 0) (zlen (octets_avis a)) a in
  [p (Avis 5 0 (PFork 1 1 77 77) []) [] []; p (Avis 6 0 (PUid 77 77 1000 1000) []) [] []; Ignore NLMSG_ERROR (replicate 10 0) [1; 2; 3; 4] [];
   p (Avis 7 1 (PUid 77 77 1000 0) []) [] []; Muet NLMSG_DONE (replicate 10 0) (replicate 8 9) (replicate 2 0) 24 (le 4 0x40 ++ replicate 20 0) [] [];
   p (Avis 8 1 (PExec 77 77) (replicate 16 0)) [] []].

Lemma flux_proc_exact_witness : exists d' r', Decode decodeur_vide (concat (message <$> flux_exemple) ++ [0; 0]) (Some NewRingProc) = Done (d', Some r', 4) /\
  Flags <$> ecrire_tout [] (fst (evenements [] flux_exemple)) = [0; 0; FlagAnomaly; 0] /\ tient_anneau r' (ecrire_tout [] (fst (evenements [] flux_exemple))).
Proof.
  destruct (flux_proc_exact decodeur_vide NewRingProc [] []) as [H _].
  - apply table_vide.
  - split_and!; done.
  - done.
  - destruct (H flux_exemple [0; 0]) as (d' & r' & E & _ & Hq & _).
    + repeat constructor; try done; try (by vm_compute); try (unfold avis_ok, is_u32; cbn; repeat constructor; lia).
    + by left.
    + done.
    + exists d', r'. split; [exact E|]. split; [by vm_compute|exact Hq].
Defined.
