(* ===== verification/Quarantaine.v ===== *)
(** The quarantine of feedback (src/internal/engine/feedback_quarantine.go): the
    bounded lock of arbitrated incidents, their validation against a sealed holdout
    set, and the promotion of the admitted ones into the active codebook.  The
    theorem follows a whole session: nothing enters the codebook that was not
    deposited with a hostile verdict and held far enough from the holdout. *)
From stdpp Require Import list_numbers.
From Stdlib Require Import SpecFloat.
From S2P Require Import Prelude Trame Bits Texte Flottant Codebook GrayZone Ontology.
Local Open Scope Z_scope.

(** * The chamber *)

Definition DefaultHammingThreshold : Z := 200.
Inductive erreur_quarantaine := ErrQuarantineFull | ErrHoldoutUnvalidated | ErrHoldoutSealMismatch.

(** [HoldoutSeal]: 32 octets. *)
Definition HoldoutSeal : Type := list Z.
Definition sceau_vide : HoldoutSeal := replicate 32 0.

Record IncidentQuarantined := Incident {
  Fingerprint : list Z; TimestampNs : Z; IBitcode : list Z; IOntoKey : Z; IVerdict : Z; IThreatID : Z; ISubsystem : Z; ISeverity : Z
}.
Record QuarantineChamber := Chamber { incidents : list IncidentQuarantined; capacity : Z }.

Definition NewQuarantineChamber (capacity : Z) : QuarantineChamber := Chamber [] (if capacity <=? 0 then 1000 else capacity).

(** [hex.EncodeToString]. *)
Definition chiffre_hexa (x : Z) : Z := if x <? 10 then 48 + x else 87 + x.
Definition EncodeToString (l : list Z) : list Z := b ← l; [chiffre_hexa (b / 16); chiffre_hexa (b mod 16)].

Section quarantaine.
(** SHA-256 of the standard library. *)
Variable sha256 : list Z -> list Z.

(** The octets the seal covers. *)
Definition octets_sceau (entries : list CodebookEntry) : list Z :=
  e ← entries; octets_mots (Bitcode e) ++ le 4 (ThreatID e) ++ le 2 (Subsystem e) ++ le 2 (Severity e).
Definition ComputeHoldoutSeal (entries : list CodebookEntry) : HoldoutSeal := sha256 (octets_sceau entries).

Definition EnqueueIncident (qc : QuarantineChamber) (now : Z) (bitcode : list Z) (key verdict threatID sub sev : Z) : QuarantineChamber * (list Z + erreur_quarantaine) :=
  if capacity qc <=? zlen (incidents qc) then (qc, inr ErrQuarantineFull) else
  let fp := sha256 (octets_mots bitcode ++ le 4 key ++ [verdict] ++ le 4 threatID) in
  (Chamber (incidents qc ++ [Incident fp now bitcode key verdict threatID sub sev]) (capacity qc), inl (EncodeToString fp)).

Definition Len (qc : QuarantineChamber) : Z := zlen (incidents qc).

Definition bitcodeHammingDistance (a b : list Z) : Z := somme (zip_with (fun x y => OnesCount64 (Z.lxor x y)) a b).

(** The guard on the holdout and on the admitted rate. *)
Definition invalide (holdoutRef : option (list CodebookEntry)) (maxAllowedRegression : f64) : bool :=
  match holdoutRef with
  | None => true
  | Some l => (zlen l =? 0) || fltb maxAllowedRegression (S754_zero false) || fnan maxAllowedRegression
  end.

Definition entree_de (inc : IncidentQuarantined) : CodebookEntry := Entry (IBitcode inc) (IThreatID inc) (ISubsystem inc) (ISeverity inc).

(** One incident against the reference entries, on (approved, rejectedCount). *)
Definition examiner (refEntries : list CodebookEntry) (expectedSeal : HoldoutSeal) (maxAllowedRegression : f64)
    (s : list CodebookEntry * Z) (inc : IncidentQuarantined) : list CodebookEntry * Z :=
  let '(approved, rejectedCount) := s in
  if negb (IVerdict inc =? CascadeFastDrop) && negb (IVerdict inc =? OntoVerdictDeny) then s else
  let collisions := fold_left (fun n e =>
    if negb (ThreatID e =? 0) && negb (egaux expectedSeal sceau_vide) then n else
    if bitcodeHammingDistance (IBitcode inc) (Bitcode e) <? DefaultHammingThreshold then n + 1 else n) refEntries 0 in
  let regressionRate := fdiv (f_of_Z collisions) (f_of_Z (zlen refEntries)) in
  if (0 <? collisions) && fltb maxAllowedRegression regressionRate then (approved, rejectedCount + 1) else
  (approved ++ [entree_de inc], rejectedCount).

Definition ValidateAgainstSealedHoldout (qc : QuarantineChamber) (holdoutRef : option (list CodebookEntry)) (expectedSeal : HoldoutSeal) (maxAllowedRegression : f64)
  : QuarantineChamber * list CodebookEntry * option erreur_quarantaine :=
  if zlen (incidents qc) =? 0 then (qc, [], if invalide holdoutRef maxAllowedRegression then Some ErrHoldoutUnvalidated else None) else
  if negb (egaux expectedSeal sceau_vide) &&
     match holdoutRef with None => true | Some _ => negb (egaux (ComputeHoldoutSeal (Entries holdoutRef)) expectedSeal) end
  then (qc, [], Some ErrHoldoutSealMismatch) else
  if invalide holdoutRef maxAllowedRegression then (qc, [], Some ErrHoldoutUnvalidated) else
  let refEntries := Entries holdoutRef in
  let '(approved, rejectedCount) := fold_left (examiner refEntries expectedSeal maxAllowedRegression) (incidents qc) ([], 0) in
  (Chamber [] (capacity qc), approved, if 0 <? rejectedCount then Some ErrHoldoutUnvalidated else None).

Definition ValidateAgainstHoldoutSet (qc : QuarantineChamber) (holdoutRef : option (list CodebookEntry)) (maxAllowedRegression : f64) :=
  ValidateAgainstSealedHoldout qc holdoutRef sceau_vide maxAllowedRegression.

(** * Promotion *)

(** What the system does of the file: it refuses the write, which leaves the file in a
    state the code does not know; it refuses to reopen it; its reading fails after [k]
    octets; it does all it is asked. *)
Inductive issue := EcritureRefusee | OuvertureRefusee | LectureCoupee (k : nat) | Accomplie.
Inductive erreur_promotion := ErreurEcriture | ErreurOuverture | ErreurRelecture (e : erreur_codebook).
Inductive etat_fichier := Inchange | Ecrit (l : list Z) | Inconnu.

(** The active codebook (the outer [None] is a nil container), what became of the file,
    the error.  A reading that fails is to the loader a file that ends. *)
Definition PromoteAndReload (i : issue) (ac : option (option (list CodebookEntry))) (approvedEntries : list CodebookEntry)
  : option (option (list CodebookEntry)) * etat_fichier * option erreur_promotion :=
  match ac with
  | None => (ac, Inchange, None)
  | Some actif =>
      if zlen approvedEntries =? 0 then (ac, Inchange, None) else
      let merged := Entries actif ++ approvedEntries in
      let fichier := SaveCodebook merged in
      let relu l := let '(actif, err) := ReloadFile actif l in (Some actif, Ecrit fichier, ErreurRelecture <$> err) in
      match i with
      | EcritureRefusee => (ac, Inconnu, Some ErreurEcriture)
      | OuvertureRefusee => (ac, Ecrit fichier, Some ErreurOuverture)
      | LectureCoupee k => relu (take k fichier)
      | Accomplie => relu fichier
      end
  end.

(** * A session: any sequence of calls on a chamber and an active codebook.  [rendues]
    holds the entries that the validations have returned so far, [echec] the error of
    the last promotion that touched the file. *)

Inductive geste :=
  | Deposer (now : Z) (bitcode : list Z) (key verdict threatID sub sev : Z)
  | Examen (holdoutRef : option (list CodebookEntry)) (expectedSeal : HoldoutSeal) (maxAllowedRegression : f64)
  | Promotion (i : issue) (approvedEntries : list CodebookEntry).

Record seance := Seance {
  chambre : QuarantineChamber; rendues : list CodebookEntry; actif : option (option (list CodebookEntry)); fichier : etat_fichier; echec : option erreur_promotion
}.

Definition jouer (s : seance) (g : geste) : seance :=
  match g with
  | Deposer now b k v t u w => Seance (fst (EnqueueIncident (chambre s) now b k v t u w)) (rendues s) (actif s) (fichier s) (echec s)
  | Examen h seal max =>
      let '(qc, approved, _) := ValidateAgainstSealedHoldout (chambre s) h seal max in
      Seance qc (rendues s ++ approved) (actif s) (fichier s) (echec s)
  | Promotion i l =>
      match PromoteAndReload i (actif s) l with
      | (ac, Inchange, _) => Seance (chambre s) (rendues s) ac (fichier s) (echec s)
      | (ac, f, err) => Seance (chambre s) (rendues s) ac f err
      end
  end.

(** The arguments are well formed, and what is promoted was returned by a validation:
    all of it or a part, once or several times, in any order. *)
Definition geste_ok (s : seance) (g : geste) : Prop :=
  match g with
  | Deposer now b k v t u w => entry_ok (Entry b t u w)
  | Examen (Some h) seal max => Forall entry_ok h /\ zlen h < 2 ^ 53
  | Examen None _ _ => True
  | Promotion _ l => Forall (fun x => x ∈ rendues s) l /\ zlen l < 2 ^ 31
  end.
Inductive session (cap : Z) (l0 : list CodebookEntry) : list geste -> seance -> Prop :=
  | session_debut : session cap l0 [] (Seance (NewQuarantineChamber cap) [] (Some (Some l0)) Inchange None)
  | session_suite gestes s g : session cap l0 gestes s -> geste_ok s g -> session cap l0 (gestes ++ [g]) (jouer s g).

(** ** What a validation certifies *)

Definition compare (seal : HoldoutSeal) (e : CodebookEntry) : Prop := seal = sceau_vide \/ ThreatID e = 0.
#[local] Instance compare_dec seal e : Decision (compare seal e).
Proof. unfold compare. apply _. Defined.
Definition proche (code : list Z) (e : CodebookEntry) : Prop := codebookHamming code e < DefaultHammingThreshold.
#[local] Instance proche_dec code e : Decision (proche code e).
Proof. unfold proche. apply _. Defined.
(** The compared entries of the holdout within the radius of a code. *)
Definition collisions (h : list CodebookEntry) (seal : HoldoutSeal) (code : list Z) : list CodebookEntry :=
  filter (fun e => compare seal e /\ proche code e) h.
Definition supportable (h : list CodebookEntry) (seal : HoldoutSeal) (max : f64) (code : list Z) : bool :=
  (zlen (collisions h seal code) =? 0) || negb (fltb max (fdiv (f_of_Z (zlen (collisions h seal code))) (f_of_Z (zlen h)))).
Definition hostile (inc : IncidentQuarantined) : bool := (IVerdict inc =? CascadeFastDrop) || (IVerdict inc =? OntoVerdictDeny).
Definition admis (h : list CodebookEntry) (seal : HoldoutSeal) (max : f64) (inc : IncidentQuarantined) : bool :=
  hostile inc && supportable h seal max (IBitcode inc).
Definition recevable (holdoutRef : option (list CodebookEntry)) (seal : HoldoutSeal) (max : f64) : bool :=
  negb (invalide holdoutRef max) && (egaux seal sceau_vide || egaux (ComputeHoldoutSeal (Entries holdoutRef)) seal).

Lemma collisions_comptees h seal code n :
  fold_left (fun n e => if negb (ThreatID e =? 0) && negb (egaux seal sceau_vide) then n else
    if bitcodeHammingDistance code (Bitcode e) <? DefaultHammingThreshold then n + 1 else n) h n = n + zlen (collisions h seal code).
Proof.
  revert n. induction h as [|e h IH]; intros n; cbn [fold_left]; [change (zlen (collisions [] seal code)) with 0; lia|].
  rewrite IH. unfold collisions. rewrite filter_cons. unfold proche, codebookHamming. fold (bitcodeHammingDistance code (Bitcode e)).
  unfold compare, egaux. destruct (Z.eqb_spec (ThreatID e) 0) as [E|E], (bool_decide_reflect (seal = sceau_vide)) as [F|F]; cbn [negb andb];
    destruct (Z.ltb_spec (bitcodeHammingDistance code (Bitcode e)) DefaultHammingThreshold), (decide _) as [G|G];
    try (exfalso; naive_solver lia); rewrite ?zlen_cons; lia.
Qed.

Lemma examiner_admis h seal max l a k :
  exists k', fold_left (examiner h seal max) l (a, k) = (a ++ (entree_de <$> filter (admis h seal max) l), k') /\
    k' = k + zlen (filter (fun i => hostile i && negb (supportable h seal max (IBitcode i))) l).
Proof.
  revert a k. induction l as [|i l IH]; intros a k; cbn [fold_left]; [exists k; split; [by rewrite app_nil_r|change (zlen (filter _ [])) with 0; lia]|].
  rewrite !filter_cons. unfold examiner at 2. rewrite <- negb_orb. fold (hostile i). rewrite collisions_comptees, Z.add_0_l.
  pose proof (zlen_nonneg (collisions h seal (IBitcode i))).
  assert ((0 <? zlen (collisions h seal (IBitcode i))) && fltb max (fdiv (f_of_Z (zlen (collisions h seal (IBitcode i)))) (f_of_Z (zlen h))) = negb (supportable h seal max (IBitcode i))) as ->.
  { unfold supportable. rewrite negb_orb, negb_involutive. f_equal. destruct (Z.ltb_spec 0 (zlen (collisions h seal (IBitcode i)))), (Z.eqb_spec (zlen (collisions h seal (IBitcode i))) 0); cbn; lia || done. }
  destruct (decide (admis h seal max i)) as [A|A], (decide (hostile i && _)) as [B|B]; unfold admis in A;
    destruct (hostile i), (supportable h seal max (IBitcode i)); cbn in A, B; try tauto; cbn [negb andb];
    match goal with |- context [fold_left _ _ (?x, ?y)] => destruct (IH x y) as (k' & -> & ->) end;
    rewrite ?zlen_cons, ?fmap_cons, <- ?app_assoc; eexists; (split; [reflexivity|lia]).
Qed.

Lemma validation_exacte qc h seal max :
  exists err, ValidateAgainstSealedHoldout qc h seal max =
    (if recevable h seal max then Chamber [] (capacity qc) else qc,
     if recevable h seal max then entree_de <$> filter (admis (Entries h) seal max) (incidents qc) else [], err).
Proof.
  unfold ValidateAgainstSealedHoldout. destruct (Z.eqb_spec (zlen (incidents qc)) 0) as [E|E].
  - destruct qc as [[|i l] c]; [|unfold zlen in E; cbn in E; lia]. cbn [capacity incidents]. eexists. by destruct (recevable h seal max).
  - unfold recevable. destruct h as [l|]; cbn [Entries]; [|destruct (negb _ && true); cbn; by eexists].
    destruct (egaux seal sceau_vide), (egaux (ComputeHoldoutSeal l) seal), (invalide (Some l) max); cbn [negb andb orb]; try (by eexists);
      destruct (examiner_admis l seal max (incidents qc) [] 0) as (k & -> & _); by eexists.
Qed.

(** ** The history of a session *)

Definition examen_ok (g : geste) : Prop := match g with Examen (Some h) _ _ => Forall entry_ok h /\ zlen h < 2 ^ 53 | _ => True end.

(** An incident with the fields of [x] was deposited, and is hostile. *)
Definition depose (gestes : list geste) (x : CodebookEntry) (v : Z) : Prop :=
  exists now key, Deposer now (Bitcode x) key v (ThreatID x) (Subsystem x) (Severity x) ∈ gestes.

(** [x] was deposited as hostile, then validated by an examination of the history. *)
Definition fondee (gestes : list geste) (x : CodebookEntry) : Prop :=
  exists avant h seal max apres, gestes = avant ++ Examen (Some h) seal max :: apres /\
    depose avant x CascadeFastDrop /\ recevable (Some h) seal max = true /\ supportable h seal max (Bitcode x) = true.

Lemma depose_app g1 g2 x v : depose g1 x v -> depose (g1 ++ g2) x v.
Proof. intros (now & key & H). exists now, key. apply elem_of_app. by left. Qed.

Lemma fondee_app g1 g2 x : fondee g1 x -> fondee (g1 ++ g2) x.
Proof. intros (a & h & s & m & p & -> & H). exists a, h, s, m, (p ++ g2). by rewrite <- app_assoc. Qed.

Record suivie (cap : Z) (l0 : list CodebookEntry) (gestes : list geste) (s : seance) (promus : list CodebookEntry) : Prop := {
  su_actif : actif s = Some (Some (l0 ++ promus));
  su_taille : zlen (l0 ++ promus) <= codebookMaxEntries;
  su_fichier : forall f, fichier s = Ecrit f -> echec s = None -> LoadCodebook f = inr (l0 ++ promus);
  su_capacite : capacity (chambre s) = cap /\ zlen (incidents (chambre s)) <= cap;
  su_sas : Forall (fun i => entry_ok (entree_de i) /\ depose gestes (entree_de i) (IVerdict i)) (incidents (chambre s));
  su_fondee : Forall (fun x => entry_ok x /\ fondee gestes x) (promus ++ rendues s)
}.

Lemma suivie_histoire cap l0 g1 g2 s p : suivie cap l0 g1 s p -> suivie cap l0 (g1 ++ g2) s p.
Proof.
  intros [H1 H2 H3 H4 H5 H6]. split; try done.
  - eapply Forall_impl; [exact H5|]. intros i [? ?]. split; [done|by apply depose_app].
  - eapply Forall_impl; [exact H6|]. intros i [? ?]. split; [done|by apply fondee_app].
Qed.

(** Beyond the maximum of the format, no reader accepts the file, whole or cut. *)
Lemma trop_grand l k : codebookMaxEntries < zlen l < 2 ^ 32 -> exists e, LoadCodebook (take k (SaveCodebook l)) = inl e /\ (length (SaveCodebook l) <= k -> e = ErrCodebookHuge (zlen l))%nat.
Proof.
  intros Hn. assert (SaveCodebook l = encodeCodebookHeader (entete (zlen l)) ++ encoder_entrees l) as E.
  { unfold SaveCodebook. rewrite u32_id by (unfold is_u32; pose proof (zlen_nonneg l); lia). done. }
  rewrite E. pose proof (length_encodeCodebookHeader (zlen l)) as Hh. destruct (decide (length (encodeCodebookHeader (entete (zlen l))) <= k)%nat) as [Hk|Hk].
  - rewrite take_app_ge by lia. exists (ErrCodebookHuge (zlen l)). split; [|done]. unfold LoadCodebook. rewrite ReadFull_app by done.
    rewrite decode_encode_header by (unfold is_u32, codebookMaxEntries in *; lia). cbn [entete Magic Version VectorDim EntryCount].
    unfold egaux. rewrite bool_decide_eq_true_2, !Z.eqb_refl by done. cbn [negb]. by destruct (Z.ltb_spec codebookMaxEntries (zlen l)); [|lia].
  - exists ErrCodebookCorrupt. split; [|rewrite length_app; lia]. unfold LoadCodebook. rewrite ReadFull_court; [done|]. rewrite length_take. unfold codebookHeaderSize. lia.
Qed.

(** What a promotion does: all or nothing in memory, and the file it leaves when it
    reports no error loads back as the new codebook. *)
Lemma promotion_exacte i l a : Forall entry_ok (l ++ a) -> zlen (l ++ a) < 2 ^ 32 -> a <> [] ->
  exists f err, PromoteAndReload i (Some (Some l)) a = (Some (Some (match err with None => l ++ a | Some _ => l end)), f, err) /\ f <> Inchange /\
    (err = None -> zlen (l ++ a) <= codebookMaxEntries /\ exists o, f = Ecrit o /\ LoadCodebook o = inr (l ++ a)) /\
    (i = Accomplie -> zlen (l ++ a) <= codebookMaxEntries -> err = None).
Proof.
  intros Hok Hn Ha. unfold PromoteAndReload. destruct (Z.eqb_spec (zlen a) 0) as [E|_]; [destruct a; [done|unfold zlen in E; cbn in E; lia]|]. cbn [Entries].
  assert (forall k, (k < length (SaveCodebook (l ++ a)))%nat -> exists e, ReloadFile (Some l) (take k (SaveCodebook (l ++ a))) = (Some l, Some e)) as Hcut.
  { intros k Hk. unfold ReloadFile. destruct (Z.le_gt_cases (zlen (l ++ a)) codebookMaxEntries) as [Hm|Hm].
    - destruct (codebook_aller_retour (l ++ a) Hok Hm) as (_ & _ & ->); [by eexists|done].
    - destruct (trop_grand (l ++ a) k ltac:(lia)) as (e & -> & _). by eexists. }
  assert (let '(r, err) := ReloadFile (Some l) (SaveCodebook (l ++ a)) in
    r = Some (match err with None => l ++ a | Some _ => l end) /\ (err = None -> zlen (l ++ a) <= codebookMaxEntries /\ LoadCodebook (SaveCodebook (l ++ a)) = inr (l ++ a)) /\
    (zlen (l ++ a) <= codebookMaxEntries -> err = None)) as Hfull.
  { unfold ReloadFile. destruct (Z.le_gt_cases (zlen (l ++ a)) codebookMaxEntries) as [Hm|Hm].
    - destruct (codebook_aller_retour (l ++ a) Hok Hm) as (H & _). specialize (H []). rewrite app_nil_r in H. by rewrite H.
    - destruct (trop_grand (l ++ a) (length (SaveCodebook (l ++ a))) ltac:(lia)) as (e & H & _). rewrite take_ge in H by lia. rewrite H. split; [done|]. split; [done|lia]. }
  destruct i as [| |k|].
  - by exists Inconnu, (Some ErreurEcriture).
  - by exists (Ecrit (SaveCodebook (l ++ a))), (Some ErreurOuverture).
  - destruct (decide (k < length (SaveCodebook (l ++ a)))%nat) as [Hk|Hk].
    + destruct (Hcut k Hk) as (e & ->). exists (Ecrit (SaveCodebook (l ++ a))), (Some (ErreurRelecture e)). by split_and!.
    + rewrite take_ge by lia. destruct (ReloadFile _ _) as [r err]. destruct Hfull as (-> & H1 & H2). exists (Ecrit (SaveCodebook (l ++ a))), (ErreurRelecture <$> err).
      destruct err; cbn; split_and!; try done. intros _. destruct (H1 eq_refl). split; [done|]. by eexists.
  - destruct (ReloadFile _ _) as [r err]. destruct Hfull as (-> & H1 & H2). exists (Ecrit (SaveCodebook (l ++ a))), (ErreurRelecture <$> err).
    destruct err; cbn; split_and!; try done; [intros _ Hm; by specialize (H2 Hm)|]. intros _. destruct (H1 eq_refl). split; [done|]. by eexists.
Qed.

Lemma suivie_jouer cap l0 gestes s p g : Forall entry_ok l0 -> geste_ok s g -> suivie cap l0 gestes s p -> exists p', suivie cap l0 (gestes ++ [g]) (jouer s g) p'.
Proof.
  intros Hl0 Hg Hs. apply (suivie_histoire _ _ _ [g]) in Hs. destruct s as [qc ren ac f er].
  destruct g as [now b k v t u w|[h|] seal max|i l]; cbn [jouer chambre rendues actif fichier echec].
  - unfold EnqueueIncident. cbn [geste_ok] in Hg. destruct (Z.leb_spec (capacity qc) (zlen (incidents qc))); [by exists p|].
    destruct Hs as [H1 H2 H3 H4 H5 H6]. cbn in *. exists p. split; cbn; try done.
    + rewrite zlen_app. change (zlen [_]) with 1. lia.
    + apply Forall_app. split; [done|]. apply Forall_singleton. split; [done|]. exists now, k. apply elem_of_app. right. by left.
  - destruct (validation_exacte qc (Some h) seal max) as (err & ->). destruct (recevable (Some h) seal max) eqn:Er; [|exists p; by rewrite app_nil_r].
    destruct Hs as [H1 H2 H3 H4 H5 H6]. cbn in *. exists p. split; cbn; try done.
    + split; [lia|]. change (zlen []) with 0. pose proof (zlen_nonneg (incidents qc)). lia.
    + rewrite app_assoc. apply Forall_app. split; [done|]. apply Forall_fmap, Forall_forall. intros i [Ha Hi]%list_elem_of_filter.
      apply (proj1 (Forall_forall _ _) H5) in Hi as [Hok Hd]. split; [done|]. unfold admis in Ha. apply Is_true_true, andb_prop in Ha as [Hh Hsup].
      unfold depose in Hd. destruct Hd as (now & key & Hd). apply elem_of_app in Hd as [Hd|Hd]; [|by apply list_elem_of_singleton in Hd].
      exists gestes, h, seal, max, []. split_and!; try done. exists now, key. replace CascadeFastDrop with (IVerdict i); [done|].
      unfold hostile in Hh. change OntoVerdictDeny with 2 in Hh. change CascadeFastDrop with 2 in *. lia.
  - destruct (validation_exacte qc None seal max) as (err & ->). change (recevable None seal max) with false. exists p. cbn. by rewrite app_nil_r.
  - destruct Hs as [H1 H2 H3 H4 H5 H6]. cbn in *. subst ac. destruct Hg as [Hl Hn]. destruct (decide (l = [])) as [->|Hne]; [by exists p|].
    assert (Forall (fun x => entry_ok x /\ fondee (gestes ++ [Promotion i l]) x) l) as Hfl.
    { apply Forall_forall. intros x Hx. apply (proj1 (Forall_forall _ _) H6). apply elem_of_app. right. by apply (proj1 (Forall_forall _ _) Hl). }
    destruct (promotion_exacte i (l0 ++ p) l) as (f' & err & -> & Hf & He & _); [|rewrite zlen_app; unfold codebookMaxEntries in *; lia|done|].
    { apply Forall_app. split; [|eapply Forall_impl; [exact Hfl|by intros x [? _]]]. apply Forall_app. split; [done|]. apply Forall_app in H6 as [H6 _]. eapply Forall_impl; [exact H6|by intros x [? _]]. }
    assert (Forall (fun x => entry_ok x /\ fondee (gestes ++ [Promotion i l]) x) ((p ++ l) ++ ren)) as H7.
    { apply Forall_app in H6 as [H6a H6b]. rewrite !Forall_app. done. }
    destruct err as [e|]; [exists p|exists (p ++ l)]; (destruct f' as [|o|]; [done|..]); split; cbn; try done; rewrite ?app_assoc; try apply (He eq_refl).
    + done.
    + intros ? [= <-] _. destruct (He eq_refl) as (_ & o' & [= <-] & ?). done.
    + done.
Qed.

Lemma zlen_filter {A} (P : A -> Prop) `{forall x, Decision (P x)} l : zlen (filter P l) <= zlen l.
Proof. unfold zlen. pose proof (length_filter P l). lia. Qed.

(** The radius: at rate zero no compared entry is near. *)
Lemma supportable_zero h seal max code b : max = S754_zero b -> zlen h < 2 ^ 53 -> supportable h seal max code = true ->
  forall e, e ∈ h -> compare seal e -> DefaultHammingThreshold <= codebookHamming code e.
Proof.
  intros -> Hn Hs e He Hc. apply Z.le_ngt. intros Hp.
  assert (e ∈ collisions h seal code) as Hin by (apply list_elem_of_filter; done).
  assert (0 < zlen (collisions h seal code) <= zlen h) as Hz.
  { split; [|apply zlen_filter]. destruct (collisions h seal code); [by apply elem_of_nil in Hin|unfold zlen; cbn; lia]. }
  unfold supportable in Hs. apply orb_true_iff in Hs as [H%Z.eqb_eq|H]; [lia|].
  pose proof (rapport_positif (zlen (collisions h seal code)) (zlen h) ltac:(lia) ltac:(lia)) as Hr.
  generalize dependent (fdiv (f_of_Z (zlen (collisions h seal code))) (f_of_Z (zlen h))). intros q H Hr. assert (fltb (S754_zero b) q = true) as E by (rewrite <- Hr; by destruct q). by rewrite E in H.
Qed.

Lemma octets_sceau_encode l : octets_sceau l = encoder_entrees l.
Proof. induction l as [|e l IH]; [done|]. unfold octets_sceau in *. cbn [mbind list_bind]. by rewrite IH. Qed.

(** Two sets with one seal are equal or exhibit a collision of SHA-256. *)
Lemma sceau_lie h r : Forall entry_ok h -> Forall entry_ok r -> ComputeHoldoutSeal h = ComputeHoldoutSeal r ->
  h = r \/ (octets_sceau h <> octets_sceau r /\ sha256 (octets_sceau h) = sha256 (octets_sceau r)).
Proof.
  intros Hh Hr E. destruct (decide (octets_sceau h = octets_sceau r)) as [Eo|Ho]; [left|by right].
  rewrite (octets_sceau_encode h), (octets_sceau_encode r) in Eo. assert (length h = length r) as El by (apply (f_equal length) in Eo; rewrite !length_encoder_entrees in Eo by done; lia).
  pose proof (lire_entrees_ok h [] Hh) as E1. pose proof (lire_entrees_ok r [] Hr) as E2. rewrite Eo in E1. rewrite El in E1. congruence.
Qed.

(** Beyond the maximum of the format, the promotion writes a file that no reader
    accepts: the active codebook stays, the file on disk is lost. *)
Lemma promotion_hors_bornes l a : codebookMaxEntries < zlen (l ++ a) < 2 ^ 32 -> a <> [] ->
  PromoteAndReload Accomplie (Some (Some l)) a =
    (Some (Some l), Ecrit (SaveCodebook (l ++ a)), Some (ErreurRelecture (ErrCodebookHuge (zlen (l ++ a))))).
Proof.
  intros Hn Ha. unfold PromoteAndReload. destruct (Z.eqb_spec (zlen a) 0) as [E|_]; [destruct a; [done|unfold zlen in E; cbn in E; lia]|].
  cbn [Entries]. unfold ReloadFile. destruct (trop_grand (l ++ a) (length (SaveCodebook (l ++ a))) Hn) as (e & H & He). rewrite take_ge in H by lia.
  rewrite H. cbn. by rewrite He.
Qed.

(** C25: whatever the calls made on a chamber and an active codebook -- deposits of any
    incidents, examinations against any holdouts, promotions, by batches of fewer than
    2^31, of entries that the examinations returned, whether the system writes the
    file, refuses it, refuses to reopen it or fails while reading it back --, the
    active codebook is the initial one followed by promoted entries, it never exceeds
    2^24 entries, the chamber never exceeds its capacity, and every promoted entry was
    deposited with a hostile verdict and validated afterwards against a holdout that
    carries the declared seal (a holdout other than the sealed one is a collision of
    SHA-256).  When no regression is tolerated, the entry is at least 200 bits away
    from every benign entry of that holdout, from every entry when no seal is
    declared.  A promotion is all or nothing: with an error the active codebook is the
    one before; without, it holds the batch and the file loads back as it; the system
    willing, the error is exactly that of a union of more than 2^24 entries. *)
Theorem promotion_fondee cap l0 gestes s :
  Forall entry_ok l0 -> zlen l0 <= codebookMaxEntries -> session cap l0 gestes s ->
  zlen (incidents (chambre s)) <= (if cap <=? 0 then 1000 else cap) /\
  exists promus, actif s = Some (Some (l0 ++ promus)) /\ zlen (l0 ++ promus) <= codebookMaxEntries /\
  (forall f, fichier s = Ecrit f -> echec s = None -> LoadCodebook f = inr (l0 ++ promus)) /\
  (forall i l, geste_ok s (Promotion i l) -> l <> [] -> exists f err,
     PromoteAndReload i (actif s) l = (Some (Some (match err with None => (l0 ++ promus) ++ l | Some _ => l0 ++ promus end)), f, err) /\
     (err = None -> exists o, f = Ecrit o /\ LoadCodebook o = inr ((l0 ++ promus) ++ l)) /\
     (i = Accomplie -> (err = None <-> zlen ((l0 ++ promus) ++ l) <= codebookMaxEntries))) /\
  forall x, x ∈ promus -> exists avant h seal max apres, gestes = avant ++ Examen (Some h) seal max :: apres /\
    depose avant x CascadeFastDrop /\ h <> [] /\
    (forall r, seal <> sceau_vide -> Forall entry_ok r -> ComputeHoldoutSeal r = seal ->
       h = r \/ (octets_sceau h <> octets_sceau r /\ sha256 (octets_sceau h) = sha256 (octets_sceau r))) /\
    (forall b e, max = S754_zero b -> e ∈ h -> seal = sceau_vide \/ ThreatID e = 0 -> 200 <= codebookHamming (Bitcode x) e).
Proof.
  intros Hl0 Hmax Hs.
  assert ((exists p, suivie (if cap <=? 0 then 1000 else cap) l0 gestes s p) /\ Forall examen_ok gestes) as [(promus & [H1 H2 H3 H4 _ H6]) Hex].
  { induction Hs as [|gestes s g Hs [[p IH] IHe] Hg].
    - split; [|constructor]. exists []. split; cbn; rewrite ?app_nil_r; try done. split; [done|]. change (zlen []) with 0. destruct (Z.leb_spec cap 0); lia.
    - split; [exact (suivie_jouer _ _ _ _ p g Hl0 Hg IH)|]. apply Forall_app. split; [done|]. apply Forall_singleton. by destruct g as [|[|]|]. }
  split; [apply H4|]. exists promus. split_and!; [done..| |].
  - intros i l [Hl Hn] Hne. rewrite H1. destruct (promotion_exacte i (l0 ++ promus) l) as (f & err & E & _ & He & Ha); [|rewrite zlen_app; unfold codebookMaxEntries in *; lia|done|].
    { assert (forall k, Forall (fun x => entry_ok x /\ fondee gestes x) k -> Forall entry_ok k) as Hw by (intros k Hk; eapply Forall_impl; [exact Hk|by intros ? [? _]]).
      apply Hw in H6 as H7. apply Forall_app in H7 as [H7 H8]. rewrite !Forall_app. split; [done|]. apply Forall_forall. intros x Hx. apply (proj1 (Forall_forall _ _) H8). by apply (proj1 (Forall_forall _ _) Hl). }
    exists f, err. split; [done|]. split; [intros ->; by destruct (He eq_refl) as [_ ?]|]. intros ->. split; [intros ->; by destruct (He eq_refl)|by apply Ha].
  - intros x Hx. apply Forall_app in H6 as [H6 _].
    apply (proj1 (Forall_forall _ _) H6) in Hx as (_ & avant & h & seal & max & apres & -> & Hd & Hr & Hsu). exists avant, h, seal, max, apres.
    assert (Forall entry_ok h /\ zlen h < 2 ^ 53) as [Hh Hz] by (apply Forall_app in Hex as [_ Hex]; by apply Forall_cons in Hex as [Hex _]).
    apply andb_prop in Hr as [Hi Hr]. split_and!; try done.
    + intros ->. done.
    + intros r Hv Hok Hseal. apply sceau_lie; [done..|]. rewrite Hseal. apply orb_true_iff in Hr as [Hr%bool_decide_eq_true|Hr%bool_decide_eq_true]; [done|exact Hr].
    + intros b e Hb He Hc. by eapply supportable_zero.
Qed.

(** A sequence of calls, all well formed. *)
Fixpoint gestes_ok (s : seance) (gs : list geste) : Prop := match gs with [] => True | g :: gs => geste_ok s g /\ gestes_ok (jouer s g) gs end.
Lemma session_jouee cap l0 gs : forall avant s, session cap l0 avant s -> gestes_ok s gs -> session cap l0 (avant ++ gs) (fold_left jouer gs s).
Proof.
  induction gs as [|g gs IH]; intros avant s Hs Hg; [by rewrite app_nil_r|]. destruct Hg as [Hg Hgs]. cbn [fold_left].
  change (g :: gs) with ([g] ++ gs). rewrite app_assoc. apply IH; [by apply session_suite|done].
Qed.
End quarantaine.

(** A hostile code far from the sealed benign entry is promoted, a near one is not. *)
Definition somme_sceau (m : list Z) : list Z := le 32 (somme m).
Definition benigne : CodebookEntry := Entry (replicate 8 0) 0 1 1.
Definition loin : list Z := replicate 8 (2 ^ 64 - 1).
Definition pres : list Z := 1 :: replicate 7 0.
Definition sceau_exemple : HoldoutSeal := ComputeHoldoutSeal somme_sceau [benigne].
Definition promue : CodebookEntry := Entry loin 42 1 3.
Definition gestes_exemple : list geste :=
  [Deposer 5 loin 9 2 42 1 3; Deposer 6 pres 9 2 43 1 3; Deposer 7 loin 9 1 44 1 3; Examen (Some [benigne]) sceau_exemple (S754_zero false);
   Promotion EcritureRefusee [promue]; Promotion OuvertureRefusee [promue]; Promotion (LectureCoupee 40) [promue]; Promotion Accomplie [promue]].
Definition seance_exemple : seance := fold_left (jouer somme_sceau) gestes_exemple (Seance (NewQuarantineChamber 3) [] (Some (Some [benigne])) Inchange None).

Lemma session_exemple : session somme_sceau 3 [benigne] gestes_exemple seance_exemple.
Proof.
  apply (session_jouee somme_sceau 3 [benigne] gestes_exemple [] _ (session_debut _ _ _)). unfold gestes_exemple. cbn [gestes_ok geste_ok].
  assert (forall r : seance, rendues r = [promue] -> Forall (fun x => x ∈ rendues r) [promue] /\ zlen [promue] < 2 ^ 31) as H.
  { intros r ->. split; [|by vm_compute]. repeat constructor. }
  split_and!; try (apply H; by vm_compute); try done; try (repeat constructor; vm_compute; (discriminate || reflexivity)).
Qed.

Lemma promotion_fondee_witness :
  actif seance_exemple = Some (Some [benigne; promue]) /\ zlen (incidents (chambre seance_exemple)) <= 3 /\
  forall f, fichier seance_exemple = Ecrit f -> LoadCodebook f = inr [benigne; promue].
Proof.
  assert (actif seance_exemple = Some (Some [benigne; promue])) as Ha by (vm_compute; reflexivity).
  destruct (promotion_fondee somme_sceau 3 [benigne] gestes_exemple seance_exemple) as (H1 & p & H2 & _ & H3 & _).
  - repeat constructor; vm_compute; (discriminate || reflexivity).
  - vm_compute. discriminate.
  - exact session_exemple.
  - split; [exact Ha|]. split; [exact H1|]. intros f Hf. rewrite Ha in H2. injection H2 as <-. apply H3; [exact Hf|vm_compute; reflexivity].
Defined.
