(* ===== verification/TrancheOracle.v ===== *)
(** The sealed day of the server oracle (src/internal/engine/server_oracle.go): the
    .c2oracle image of a day, written and read under a seal, the baseline built from
    the days and its queries.  The theorems: a day loads exactly when it is the sealed
    image of its contents, and the query through the compartments answers what a scan
    of the whole baseline would. *)
From stdpp Require Import list_numbers gmap.
From Stdlib Require Import SpecFloat.
From S2P Require Import Prelude Trame Bits Flottant Localite DeltaCatalog.
Local Open Scope Z_scope.

Definition OracleHeaderSize : nat := 128.
Definition OracleHeaderSizeV3 : nat := 80.
Definition OracleEntrySize : nat := 80.
Definition OracleVersion : Z := 4.
Definition OracleVersionV3 : Z := 3.
Definition OracleVersionLegacy : Z := 2.
Definition OracleVectorDim : Z := 512.
Definition OracleMaxVectorCount : Z := 2 ^ 19.
Definition OracleMagic : list Z := octets "C2ORACL1".

Inductive erreur_oracle :=
  | ErrOracleMagic | ErrOracleVersion | ErrOracleDim | ErrOracleCorrupt | ErrOracleSeal | ErrOracleTooLarge | ErrOracleUnkeyed
  | ErrOracleKey (e : erreur_delta) | ErrOracleNil.

Definition OracleFlagSealed : Z := 0x0001.
Definition OracleFlagDegraded : Z := 0x0002.
Definition OracleFlagAnomalies : Z := 0x0004.
Definition OracleFlagMaintenance : Z := 0x0008.
Definition OracleFlagSaturated : Z := 0x0010.
Definition OracleFlagKeyed : Z := 0x0020.
Definition OracleFlagSampled : Z := 0x0040.
Definition DegradedHealthScore : Z := 700.

Record OracleDailyHeader := OHeader {
  OMagic : list Z; OVersion : Z; OVectorDim : Z; EpochDay : Z; StartTsSec : Z; EndTsSec : Z; VectorCount : Z; AverageScore : Z;
  OFlags : Z; OMachineID : Z; PrevDaySeal : list Z; OSeal : list Z; ObservedCount : Z; OReserved : list Z
}.
Record OracleVectorEntry := OEntry {
  OBitcode : list Z; RelativeSec : Z; OSubsystem : Z; OHealthScore : Z; OSeverity : Z; OCorrelatedCount : Z; EFlags : Z; EReserved : Z
}.

(** * Layouts *)

Definition champs_communs (h : OracleDailyHeader) : list (list Z) :=
  [OMagic h; le 2 (OVersion h); le 2 (OVectorDim h); le 4 (EpochDay h); le 8 (StartTsSec h); le 8 (EndTsSec h); le 4 (VectorCount h);
   le 2 (AverageScore h); le 2 (OFlags h); le 8 (OMachineID h)].
Definition champs_v4 (h : OracleDailyHeader) : list (list Z) := champs_communs h ++ [PrevDaySeal h; OSeal h; le 4 (ObservedCount h); OReserved h].
Definition champs_v3 (h : OracleDailyHeader) : list (list Z) := champs_communs h ++ [OSeal h].

Definition EncodeOracleDailyHeader (h : OracleDailyHeader) : list Z := concat (champs_v4 h).
Definition EncodeOracleDailyHeaderV3 (h : OracleDailyHeader) : list Z := concat (champs_v3 h).

(** [decodeOracleHeaderCommon], completed by the fields each version adds. *)
Definition decodeOracleHeaderCommon (src : list Z) (prev seal : list Z) (observed : Z) (reserved : list Z) : OracleDailyHeader :=
  OHeader (segment src 0 8) (unle (segment src 8 10)) (unle (segment src 10 12)) (unle (segment src 12 16)) (unle (segment src 16 24))
    (unle (segment src 24 32)) (unle (segment src 32 36)) (unle (segment src 36 38)) (unle (segment src 38 40)) (unle (segment src 40 48))
    prev seal observed reserved.
Definition zeros12 : list Z := replicate 12 0.
Definition DecodeOracleDailyHeader (src : list Z) : OracleDailyHeader :=
  decodeOracleHeaderCommon src (segment src 48 80) (segment src 80 112) (unle (segment src 112 116)) (segment src 116 128).
Definition DecodeOracleDailyHeaderV3 (src : list Z) : OracleDailyHeader :=
  decodeOracleHeaderCommon src zeros32 (segment src 48 80) 0 zeros12.

Definition OracleHeaderSizeOf (v : Z) : nat := if OracleVersion <=? v then OracleHeaderSize else OracleHeaderSizeV3.
Definition AppendOracleDailyHeader (dst : list Z) (h : OracleDailyHeader) : list Z :=
  dst ++ (if OracleVersion <=? OVersion h then EncodeOracleDailyHeader h else EncodeOracleDailyHeaderV3 h).

Definition champs_etat (e : OracleVectorEntry) : list (list Z) :=
  [octets_mots (OBitcode e); le 4 (RelativeSec e); le 2 (OSubsystem e); le 2 (OHealthScore e); le 2 (OSeverity e); le 2 (OCorrelatedCount e);
   le 2 (EFlags e); le 2 (EReserved e)].
Definition EncodeOracleVectorEntry (e : OracleVectorEntry) : list Z := concat (champs_etat e).
Definition DecodeOracleVectorEntry (src : list Z) : OracleVectorEntry :=
  OEntry (mots_de 0 8 src) (unle (segment src 64 68)) (unle (segment src 68 70)) (unle (segment src 70 72)) (unle (segment src 72 74))
    (unle (segment src 74 76)) (unle (segment src 76 78)) (unle (segment src 78 80)).

(** * Seal, writing and reading *)

Definition avec_sceau (h : OracleDailyHeader) (seal : list Z) : OracleDailyHeader :=
  OHeader (OMagic h) (OVersion h) (OVectorDim h) (EpochDay h) (StartTsSec h) (EndTsSec h) (VectorCount h) (AverageScore h) (OFlags h)
    (OMachineID h) (PrevDaySeal h) seal (ObservedCount h) (OReserved h).

Fixpoint lire_etats (n : nat) (l : list Z) : option (list OracleVectorEntry) :=
  match n with
  | O => Some []
  | S n =>
      '(eb, l) ← ReadFull OracleEntrySize l;
      r ← lire_etats n l;
      Some (DecodeOracleVectorEntry eb :: r)
  end.

Section sceau.
Context (sha256 : list Z -> list Z) (hmac_sha256 : list Z -> list Z -> list Z).

Definition ComputeOracleDaySealHMAC (hdr : OracleDailyHeader) (entries : list OracleVectorEntry) (key : list Z) : list Z :=
  copy_into zeros32 (newSealHash sha256 hmac_sha256 key (AppendOracleDailyHeader [] (avec_sceau hdr zeros32) ++ section EncodeOracleVectorEntry entries)).
Definition ComputeOracleDaySeal (hdr : OracleDailyHeader) (entries : list OracleVectorEntry) : list Z := ComputeOracleDaySealHMAC hdr entries [].

Definition ValidateSealKey (key : list Z) : option erreur_delta := checkSealKey key.

(** The header fixed before it is sealed. *)
Definition fixer_entete (hdr : OracleDailyHeader) (n : Z) (key : list Z) : OracleDailyHeader :=
  OHeader OracleMagic OracleVersion OracleVectorDim (EpochDay hdr) (StartTsSec hdr) (EndTsSec hdr) (u32 n) (AverageScore hdr)
    (if negb (zlen key =? 0) then Z.lor (OFlags hdr) OracleFlagKeyed else Z.ldiff (OFlags hdr) OracleFlagKeyed)
    (OMachineID hdr) (PrevDaySeal hdr) (OSeal hdr) (Z.max (ObservedCount hdr) (u32 n)) zeros12.

(** The header as the caller finds it afterwards and the octets written. *)
Definition SaveOracleDayHMAC (hdr : option OracleDailyHeader) (entries : list OracleVectorEntry) (key : list Z)
  : erreur_oracle + OracleDailyHeader * list Z :=
  match hdr with
  | None => inl ErrOracleNil
  | Some hdr =>
      match checkSealKey key with
      | Some e => inl (ErrOracleKey e)
      | None =>
          if OracleMaxVectorCount <? zlen entries then inl ErrOracleTooLarge else
          let hdr := fixer_entete hdr (zlen entries) key in
          let hdr := avec_sceau hdr (ComputeOracleDaySealHMAC hdr entries key) in
          inr (hdr, EncodeOracleDailyHeader hdr ++ section EncodeOracleVectorEntry entries)
      end
  end.
Definition SaveOracleDay (hdr : option OracleDailyHeader) (entries : list OracleVectorEntry) := SaveOracleDayHMAC hdr entries [].

(** The checks after the header, on the octets that follow it. *)
Definition lire_corps_oracle (hdr : OracleDailyHeader) (l key : list Z) : erreur_oracle + OracleDailyHeader * list OracleVectorEntry :=
  if negb (OVectorDim hdr =? OracleVectorDim) then inl ErrOracleDim else
  if OracleMaxVectorCount <? VectorCount hdr then inl ErrOracleTooLarge else
  match lire_etats (Z.to_nat (VectorCount hdr)) l with
  | None => inl ErrOracleCorrupt
  | Some entries => if negb (egaux (ComputeOracleDaySealHMAC hdr entries key) (OSeal hdr)) then inl ErrOracleSeal else inr (hdr, entries)
  end.

(** A refusal for want of a key still returns the header that was read. *)
Definition LoadOracleDayHMAC (l key : list Z) : (erreur_oracle * option OracleDailyHeader) + OracleDailyHeader * list OracleVectorEntry :=
  let refus e := inl (e, None) in
  match checkSealKey key with
  | Some e => refus (ErrOracleKey e)
  | None =>
      match ReadFull OracleHeaderSizeV3 l with
      | None => refus ErrOracleCorrupt
      | Some (hb, l) =>
          let commun := DecodeOracleDailyHeaderV3 hb in
          let suite hdr l := match lire_corps_oracle hdr l key with inl e => refus e | inr r => inr r end in
          if negb (egaux (OMagic commun) OracleMagic) then refus ErrOracleMagic else
          if OVersion commun =? OracleVersion then
            match ReadFull (OracleHeaderSize - OracleHeaderSizeV3) l with
            | None => refus ErrOracleCorrupt
            | Some (hb', l) => suite (DecodeOracleDailyHeader (hb ++ hb')) l
            end
          else if (OVersion commun =? OracleVersionV3) || (OVersion commun =? OracleVersionLegacy) then
            if negb (zlen key =? 0) then inl (ErrOracleUnkeyed, Some commun) else suite commun l
          else refus ErrOracleVersion
      end
  end.
Definition LoadOracleDay (l : list Z) := LoadOracleDayHMAC l [].
End sceau.

(** ** Layouts read back *)

Definition etat_oracle_ok (e : OracleVectorEntry) : Prop :=
  mots_ok (OBitcode e) /\ is_u32 (RelativeSec e) /\ is_u16 (OSubsystem e) /\ is_u16 (OHealthScore e) /\ is_u16 (OSeverity e) /\
  is_u16 (OCorrelatedCount e) /\ is_u16 (EFlags e) /\ is_u16 (EReserved e).
Definition entete_oracle_ok (h : OracleDailyHeader) : Prop :=
  length (OMagic h) = 8%nat /\ is_u16 (OVersion h) /\ is_u16 (OVectorDim h) /\ is_u32 (EpochDay h) /\ is_u64 (StartTsSec h) /\ is_u64 (EndTsSec h) /\
  is_u32 (VectorCount h) /\ is_u16 (AverageScore h) /\ is_u16 (OFlags h) /\ is_u64 (OMachineID h) /\ length (PrevDaySeal h) = 32%nat /\
  length (OSeal h) = 32%nat /\ is_u32 (ObservedCount h) /\ length (OReserved h) = 12%nat.
(** The fields that the older versions do not carry. *)
Definition champs_absents (h : OracleDailyHeader) : Prop := PrevDaySeal h = zeros32 /\ ObservedCount h = 0 /\ OReserved h = zeros12.

Ltac longueurs_oracle :=
  cbn [take app concat champs_communs champs_etat]; rewrite ?length_app, ?length_octets_mots, ?length_le; cbn [length]; lia.
Ltac champ_oracle k :=
  match goal with |- context [segment (concat ?ls) ?a ?b] => rewrite (segment_champ ls k _ a b eq_refl) by longueurs_oracle end.

Lemma decode_encode_v4 h : entete_oracle_ok h -> DecodeOracleDailyHeader (EncodeOracleDailyHeader h) = h.
Proof.
  destruct h as [m v d ep t1 t2 n sc f mid pv sl ob rs]. intros (Hm & Hv & Hd & Hep & H1 & H2 & Hn & Hsc & Hf & Hmid & Hpv & Hsl & Hob & Hrs).
  cbn in Hm, Hv, Hd, Hep, H1, H2, Hn, Hsc, Hf, Hmid, Hpv, Hsl, Hob, Hrs. unfold is_u16, is_u32, is_u64 in *.
  unfold DecodeOracleDailyHeader, decodeOracleHeaderCommon, EncodeOracleDailyHeader, champs_v4, champs_communs.
  cbn [app OMagic OVersion OVectorDim EpochDay StartTsSec EndTsSec VectorCount AverageScore OFlags OMachineID PrevDaySeal OSeal ObservedCount OReserved].
  f_equal; [> champ_oracle 0%nat; done | champ_oracle 1%nat | champ_oracle 2%nat | champ_oracle 3%nat | champ_oracle 4%nat | champ_oracle 5%nat | champ_oracle 6%nat
    | champ_oracle 7%nat | champ_oracle 8%nat | champ_oracle 9%nat | champ_oracle 10%nat; done | champ_oracle 11%nat; done | champ_oracle 12%nat | champ_oracle 13%nat; done].
  all: apply unle_le; simpl; lia.
Qed.

Lemma decode_encode_v3 h : entete_oracle_ok h -> champs_absents h -> DecodeOracleDailyHeaderV3 (EncodeOracleDailyHeaderV3 h) = h.
Proof.
  destruct h as [m v d ep t1 t2 n sc f mid pv sl ob rs]. intros (Hm & Hv & Hd & Hep & H1 & H2 & Hn & Hsc & Hf & Hmid & _ & Hsl & _) (E1 & E2 & E3).
  cbn in Hm, Hv, Hd, Hep, H1, H2, Hn, Hsc, Hf, Hmid, Hsl, E1, E2, E3. subst. unfold is_u16, is_u32, is_u64 in *.
  unfold DecodeOracleDailyHeaderV3, decodeOracleHeaderCommon, EncodeOracleDailyHeaderV3, champs_v3, champs_communs.
  cbn [app OMagic OVersion OVectorDim EpochDay StartTsSec EndTsSec VectorCount AverageScore OFlags OMachineID PrevDaySeal OSeal ObservedCount OReserved].
  f_equal; [> champ_oracle 0%nat; done | champ_oracle 1%nat | champ_oracle 2%nat | champ_oracle 3%nat | champ_oracle 4%nat | champ_oracle 5%nat | champ_oracle 6%nat
    | champ_oracle 7%nat | champ_oracle 8%nat | champ_oracle 9%nat | champ_oracle 10%nat; done].
  all: apply unle_le; simpl; lia.
Qed.

Lemma encode_decode_v4 s : bytes_ok s -> length s = 128%nat -> EncodeOracleDailyHeader (DecodeOracleDailyHeader s) = s.
Proof.
  intros Hs Hl. unfold EncodeOracleDailyHeader, champs_v4, champs_communs, DecodeOracleDailyHeader, decodeOracleHeaderCommon.
  cbn [app concat OMagic OVersion OVectorDim EpochDay StartTsSec EndTsSec VectorCount AverageScore OFlags OMachineID PrevDaySeal OSeal ObservedCount OReserved].
  rewrite !le_segment by (done || lia). rewrite app_nil_r, !segment_suivant by lia. by apply segment_tout.
Qed.

Lemma encode_decode_v3 s : bytes_ok s -> length s = 80%nat -> EncodeOracleDailyHeaderV3 (DecodeOracleDailyHeaderV3 s) = s.
Proof.
  intros Hs Hl. unfold EncodeOracleDailyHeaderV3, champs_v3, champs_communs, DecodeOracleDailyHeaderV3, decodeOracleHeaderCommon.
  cbn [app concat OMagic OVersion OVectorDim EpochDay StartTsSec EndTsSec VectorCount AverageScore OFlags OMachineID PrevDaySeal OSeal ObservedCount OReserved].
  rewrite !le_segment by (done || lia). rewrite app_nil_r, !segment_suivant by lia. by apply segment_tout.
Qed.

(** A range fact on every field read. *)
Ltac champs_bornes Hs :=
  repeat split; try done; try (rewrite ?length_segment by lia; done);
  try (match goal with |- context [segment ?x ?a ?b] => destruct (unle_segment_range x a b (b - a) Hs); [lia|lia|]; cbn in *; lia end).

Lemma decode_v4_ok s : bytes_ok s -> length s = 128%nat -> entete_oracle_ok (DecodeOracleDailyHeader s).
Proof.
  intros Hs Hl. unfold entete_oracle_ok, DecodeOracleDailyHeader, decodeOracleHeaderCommon, is_u16, is_u32, is_u64.
  cbn [OMagic OVersion OVectorDim EpochDay StartTsSec EndTsSec VectorCount AverageScore OFlags OMachineID PrevDaySeal OSeal ObservedCount OReserved].
  champs_bornes Hs.
Qed.

Lemma decode_v3_ok s : bytes_ok s -> length s = 80%nat -> entete_oracle_ok (DecodeOracleDailyHeaderV3 s).
Proof.
  intros Hs Hl. unfold entete_oracle_ok, DecodeOracleDailyHeaderV3, decodeOracleHeaderCommon, is_u16, is_u32, is_u64.
  cbn [OMagic OVersion OVectorDim EpochDay StartTsSec EndTsSec VectorCount AverageScore OFlags OMachineID PrevDaySeal OSeal ObservedCount OReserved].
  champs_bornes Hs.
Qed.

Lemma decode_encode_etat e : etat_oracle_ok e -> DecodeOracleVectorEntry (EncodeOracleVectorEntry e) = e.
Proof.
  destruct e as [W rs su he se co fl re]. intros ((HW & HWu) & H1 & H2 & H3 & H4 & H5 & H6 & H7). cbn in HW, HWu, H1, H2, H3, H4, H5, H6, H7.
  unfold is_u16, is_u32 in *. unfold DecodeOracleVectorEntry, EncodeOracleVectorEntry, champs_etat.
  cbn [OBitcode RelativeSec OSubsystem OHealthScore OSeverity OCorrelatedCount EFlags EReserved].
  f_equal; [apply mots_de_ok; [champ_oracle 0%nat; done|done|done]|..].
  all: [> champ_oracle 1%nat | champ_oracle 2%nat | champ_oracle 3%nat | champ_oracle 4%nat | champ_oracle 5%nat | champ_oracle 6%nat | champ_oracle 7%nat]; apply unle_le; simpl; lia.
Qed.

Lemma encode_decode_etat s : bytes_ok s -> length s = 80%nat -> EncodeOracleVectorEntry (DecodeOracleVectorEntry s) = s.
Proof.
  intros Hs Hl. unfold EncodeOracleVectorEntry, champs_etat, DecodeOracleVectorEntry. cbn [OBitcode RelativeSec OSubsystem OHealthScore OSeverity OCorrelatedCount EFlags EReserved concat].
  rewrite !octets_mots_de by (done || lia). rewrite !le_segment by (done || lia). cbn [Nat.add Nat.mul]. rewrite app_nil_r, !segment_suivant by lia. by apply segment_tout.
Qed.

Lemma decode_etat_ok s : bytes_ok s -> length s = 80%nat -> etat_oracle_ok (DecodeOracleVectorEntry s).
Proof.
  intros Hs Hl. unfold etat_oracle_ok, mots_ok, DecodeOracleVectorEntry, is_u16, is_u32. cbn [OBitcode RelativeSec OSubsystem OHealthScore OSeverity OCorrelatedCount EFlags EReserved].
  rewrite length_mots_de. split; [split; [done|by apply mots_de_u64; [done|lia]]|]. champs_bornes Hs.
Qed.

Lemma length_encode_etat e : etat_oracle_ok e -> length (EncodeOracleVectorEntry e) = 80%nat.
Proof. intros ((HW & _) & _). unfold EncodeOracleVectorEntry, champs_etat. cbn [concat]. rewrite !length_app, !length_octets_mots, !length_le, HW. done. Qed.

Lemma length_encode_v4 h : entete_oracle_ok h -> length (EncodeOracleDailyHeader h) = 128%nat.
Proof.
  intros (Hm & _ & _ & _ & _ & _ & _ & _ & _ & _ & Hpv & Hsl & _ & Hrs). unfold EncodeOracleDailyHeader, champs_v4, champs_communs.
  cbn [app concat]. rewrite !length_app, !length_le, Hm, Hpv, Hsl, Hrs. done.
Qed.

Lemma length_encode_v3 h : entete_oracle_ok h -> length (EncodeOracleDailyHeaderV3 h) = 80%nat.
Proof.
  intros (Hm & _ & _ & _ & _ & _ & _ & _ & _ & _ & _ & Hsl & _). unfold EncodeOracleDailyHeaderV3, champs_v3, champs_communs.
  cbn [app concat]. rewrite !length_app, !length_le, Hm, Hsl. done.
Qed.

(** The two layouts share their first 48 octets. *)
Lemma commun_v4 h : entete_oracle_ok h -> let c := DecodeOracleDailyHeaderV3 (take 80 (EncodeOracleDailyHeader h)) in OMagic c = OMagic h /\ OVersion c = OVersion h.
Proof.
  intros Hh. cbn zeta. pose proof (decode_encode_v4 h Hh) as E. pose proof (length_encode_v4 h Hh) as Hl. unfold DecodeOracleDailyHeader, DecodeOracleDailyHeaderV3, decodeOracleHeaderCommon in *.
  cbn [OMagic OVersion]. assert (forall a b, (a <= b <= 80)%nat -> segment (take 80 (EncodeOracleDailyHeader h)) a b = segment (EncodeOracleDailyHeader h) a b) as Hs.
  { intros a b Hab. pose proof (segment_segment (EncodeOracleDailyHeader h) 0 80 a b ltac:(lia)) as H. unfold segment at 2 in H. by rewrite drop_0 in H. }
  rewrite !Hs by lia. split; [exact (f_equal OMagic E)|exact (f_equal OVersion E)].
Qed.

Lemma lire_etats_ok es tl : Forall etat_oracle_ok es -> lire_etats (length es) (section EncodeOracleVectorEntry es ++ tl) = Some es.
Proof.
  induction 1 as [|e es He _ IH]; [done|]. cbn [lire_etats length section foldr]. rewrite <- app_assoc.
  rewrite (ReadFull_app OracleEntrySize) by by apply length_encode_etat. cbn [mbind option_bind].
  fold (section EncodeOracleVectorEntry es). rewrite IH. cbn [mbind option_bind]. by rewrite decode_encode_etat.
Qed.

Lemma lire_etats_court n l : (length l < 80 * n)%nat -> lire_etats n l = None.
Proof.
  revert l. induction n as [|n IH]; intros l Hl; [lia|]. cbn [lire_etats].
  unfold ReadFull, OracleEntrySize. destruct (Nat.leb_spec 80 (length l)); [|done].
  cbn [mbind option_bind]. rewrite IH; [done|]. rewrite length_drop. lia.
Qed.

Lemma lire_etats_inv n l es : bytes_ok l -> lire_etats n l = Some es ->
  length es = n /\ Forall etat_oracle_ok es /\ exists tl, l = section EncodeOracleVectorEntry es ++ tl.
Proof.
  revert l es. induction n as [|n IH]; intros l es Hl; cbn [lire_etats].
  { intros [= <-]. split; [done|]. split; [constructor|]. by exists l. }
  unfold ReadFull, OracleEntrySize. destruct (Nat.leb_spec 80 (length l)) as [Hlen|]; [|done]. cbn [mbind option_bind].
  destruct (lire_etats n (drop 80 l)) as [es'|] eqn:E; [|done]. cbn. intros [= <-].
  destruct (IH _ _ (bytes_ok_drop _ _ Hl) E) as (H1 & H2 & tl & H3).
  assert (length (take 80 l) = 80%nat) as Ht by (rewrite length_take; lia).
  split; [cbn; congruence|]. split; [constructor; [|done]; by apply decode_etat_ok; [apply bytes_ok_take|]|].
  exists tl. cbn [section foldr]. rewrite encode_decode_etat by (done || by apply bytes_ok_take). fold (section EncodeOracleVectorEntry es').
  by rewrite <- app_assoc, <- H3, take_drop.
Qed.

Lemma length_etats es : Forall etat_oracle_ok es -> length (section EncodeOracleVectorEntry es) = (80 * length es)%nat.
Proof.
  induction 1 as [|e es He _ IH]; [done|]. cbn [section foldr length]. rewrite length_app, length_encode_etat by done.
  fold (section EncodeOracleVectorEntry es). lia.
Qed.

(** * The contract of the format *)

Section contrat.
Context (sha256 : list Z -> list Z) (hmac_sha256 : list Z -> list Z -> list Z).
Notation sceau := (ComputeOracleDaySealHMAC sha256 hmac_sha256).
Notation charger := (LoadOracleDayHMAC sha256 hmac_sha256).

Definition image_oracle (h : OracleDailyHeader) (es : list OracleVectorEntry) : list Z :=
  AppendOracleDailyHeader [] h ++ section EncodeOracleVectorEntry es.

(** A day sealed under a key: the older versions only without a key. *)
Record jour_scelle (key : list Z) (h : OracleDailyHeader) (es : list OracleVectorEntry) : Prop := {
  js_cle : checkSealKey key = None;
  js_entete : entete_oracle_ok h;
  js_magie : OMagic h = OracleMagic;
  js_dim : OVectorDim h = OracleVectorDim;
  js_version : OVersion h = OracleVersion \/ ((OVersion h = OracleVersionV3 \/ OVersion h = OracleVersionLegacy) /\ champs_absents h /\ key = []);
  js_nombre : VectorCount h = zlen es /\ zlen es <= OracleMaxVectorCount;
  js_etats : Forall etat_oracle_ok es;
  js_sceau : OSeal h = sceau h es key
}.

Lemma corps_scelle key h es tl : jour_scelle key h es -> lire_corps_oracle sha256 hmac_sha256 h (section EncodeOracleVectorEntry es ++ tl) key = inr (h, es).
Proof.
  intros [_ _ _ Hd _ [Hn Hm] He Hs]. unfold lire_corps_oracle. rewrite Hd, Z.eqb_refl, Hn. cbn [negb].
  destruct (Z.ltb_spec OracleMaxVectorCount (zlen es)); [lia|]. replace (Z.to_nat (zlen es)) with (length es) by (unfold zlen; lia).
  rewrite lire_etats_ok by done. unfold egaux. by rewrite Hs, bool_decide_eq_true_2.
Qed.

Lemma charger_scelle key h es tl : jour_scelle key h es -> charger (image_oracle h es ++ tl) key = inr (h, es).
Proof.
  intros Hj. pose proof Hj as [Hk Hh Hm Hd Hv Hn He Hs]. unfold LoadOracleDayHMAC. rewrite Hk. unfold image_oracle, AppendOracleDailyHeader. cbn [app].
  destruct Hv as [Hv|(Hv & Ha & ->)].
  - rewrite Hv. change (OracleVersion <=? OracleVersion) with true. cbn iota. pose proof (length_encode_v4 h Hh) as Hl.
    rewrite <- (take_drop 80 (EncodeOracleDailyHeader h)), <- !app_assoc. rewrite (ReadFull_app OracleHeaderSizeV3) by (rewrite length_take; unfold OracleHeaderSizeV3; lia).
    destruct (commun_v4 h Hh) as [E1 E2]. cbn zeta in E1, E2. rewrite E1, E2, Hm, Hv. unfold egaux at 1. rewrite bool_decide_eq_true_2 by done. cbn [negb].
    rewrite Z.eqb_refl, ReadFull_app by (rewrite length_drop; unfold OracleHeaderSize, OracleHeaderSizeV3; lia).
    rewrite take_drop, decode_encode_v4 by done. by rewrite (corps_scelle key).
  - assert (OracleVersion <=? OVersion h = false) as -> by (unfold OracleVersion, OracleVersionV3, OracleVersionLegacy in *; lia).
    pose proof (length_encode_v3 h Hh) as Hl. rewrite <- app_assoc, (ReadFull_app OracleHeaderSizeV3) by done. rewrite decode_encode_v3 by done.
    rewrite Hm. unfold egaux at 1. rewrite bool_decide_eq_true_2 by done. cbn [negb].
    assert (OVersion h =? OracleVersion = false) as -> by (unfold OracleVersion, OracleVersionV3, OracleVersionLegacy in *; lia).
    assert ((OVersion h =? OracleVersionV3) || (OVersion h =? OracleVersionLegacy) = true) as -> by lia.
    cbn. by rewrite (corps_scelle []).
Qed.

Lemma corps_inv key hdr l h es : bytes_ok l -> lire_corps_oracle sha256 hmac_sha256 hdr l key = inr (h, es) ->
  h = hdr /\ OVectorDim hdr = OracleVectorDim /\ zlen es <= OracleMaxVectorCount /\ (0 <= VectorCount hdr -> VectorCount hdr = zlen es) /\
  Forall etat_oracle_ok es /\ OSeal hdr = sceau hdr es key /\ exists tl, l = section EncodeOracleVectorEntry es ++ tl.
Proof.
  intros Hl. unfold lire_corps_oracle. destruct (Z.eqb_spec (OVectorDim hdr) OracleVectorDim) as [Hd|]; [|done]. cbn [negb].
  destruct (Z.ltb_spec OracleMaxVectorCount (VectorCount hdr)) as [|Hm]; [done|].
  destruct (lire_etats _ l) as [es'|] eqn:E; [|done]. destruct (lire_etats_inv _ _ _ Hl E) as (Hn & He & tl & ->).
  unfold egaux. destruct (bool_decide_reflect (sceau hdr es' key = OSeal hdr)) as [Hs|]; [|done]. cbn [negb]. intros [= <- <-].
  split_and!; try done; [unfold zlen; unfold OracleMaxVectorCount in *; lia|unfold zlen; lia|by exists tl].
Qed.

Lemma charger_inv_oracle l key h es : bytes_ok l -> charger l key = inr (h, es) -> jour_scelle key h es /\ exists tl, l = image_oracle h es ++ tl.
Proof.
  intros Hl. unfold LoadOracleDayHMAC. destruct (checkSealKey key) eqn:Hk; [done|]. unfold ReadFull at 1.
  destruct (Nat.leb_spec OracleHeaderSizeV3 (length l)) as [H80|]; [|done]. unfold OracleHeaderSizeV3 in H80. change OracleHeaderSizeV3 with 80%nat.
  assert (length (take 80 l) = 80%nat) as Ht by (rewrite length_take; lia). assert (bytes_ok (take 80 l)) as Hbt by by apply bytes_ok_take.
  pose proof (decode_v3_ok _ Hbt Ht) as Hc. set (c := DecodeOracleDailyHeaderV3 (take 80 l)) in *.
  unfold egaux. destruct (bool_decide_reflect (OMagic c = OracleMagic)) as [Hm|]; [|done]. cbn [negb].
  destruct (Z.eqb_spec (OVersion c) OracleVersion) as [Hv|Hv].
  - unfold ReadFull. change (OracleHeaderSize - 80)%nat with 48%nat. destruct (Nat.leb_spec 48 (length (drop 80 l))) as [H48|]; [|done].
    rewrite length_drop in H48. set (hb := take 80 l ++ take 48 (drop 80 l)).
    assert (hb = take 128 l) as Ehb by (unfold hb; by rewrite take_take_drop). assert (bytes_ok hb) as Hb by (rewrite Ehb; by apply bytes_ok_take).
    assert (length hb = 128%nat) as Hlb by (rewrite Ehb, length_take; lia).
    assert (OMagic (DecodeOracleDailyHeader hb) = OMagic c /\ OVersion (DecodeOracleDailyHeader hb) = OVersion c) as [Em Ev].
    { pose proof (commun_v4 _ (decode_v4_ok hb Hb Hlb)) as [<- <-]. rewrite encode_decode_v4 by done. unfold c. rewrite Ehb, take_take. done. }
    destruct (lire_corps_oracle _ _ _ _ key) as [|[h' es']] eqn:E; [done|]. intros [= <- <-].
    destruct (corps_inv _ _ _ _ _ (bytes_ok_drop _ _ (bytes_ok_drop _ _ Hl)) E) as (-> & Hd & Hmax & Hn & He & Hs & tl & Etl).
    pose proof (decode_v4_ok hb Hb Hlb) as Hh. split.
    + split; try done; [congruence|left; congruence|]. split; [apply Hn; apply Hh|done].
    + exists tl. unfold image_oracle, AppendOracleDailyHeader. rewrite Ev, Hv. change (OracleVersion <=? OracleVersion) with true. cbn [app].
      rewrite encode_decode_v4, <- app_assoc, <- Etl, Ehb, drop_drop by done. by rewrite take_drop.
  - destruct ((OVersion c =? OracleVersionV3) || (OVersion c =? OracleVersionLegacy)) eqn:Hv2; [|done].
    destruct (Z.eqb_spec (zlen key) 0) as [Hz|]; [|done]. cbn [negb].
    destruct (lire_corps_oracle _ _ _ _ key) as [|[h' es']] eqn:E; [done|]. intros [= <- <-].
    destruct (corps_inv _ _ _ _ _ (bytes_ok_drop _ _ Hl) E) as (-> & Hd & Hmax & Hn & He & Hs & tl & Etl). split.
    + split; try done; [|by split; [apply Hn; apply Hc|]]. right. split; [lia|]. split; [done|]. destruct key; [done|unfold zlen in Hz; cbn in Hz; lia].
    + exists tl. unfold image_oracle, AppendOracleDailyHeader. assert (OracleVersion <=? OVersion c = false) as -> by (unfold OracleVersion, OracleVersionV3, OracleVersionLegacy in *; lia).
      cbn [app]. unfold c. rewrite encode_decode_v3, <- app_assoc, <- Etl by done. by rewrite take_drop.
Qed.

Lemma longueur_sceau h es key : length (sceau h es key) = 32%nat.
Proof. unfold ComputeOracleDaySealHMAC. pose proof (zlen_copy_into zeros32 (newSealHash sha256 hmac_sha256 key (AppendOracleDailyHeader [] (avec_sceau h zeros32) ++ section EncodeOracleVectorEntry es))) as H. unfold zlen in H. change (length zeros32) with 32%nat in H. lia. Qed.

Lemma ldiff_borne n x y : 0 <= n -> 0 <= x < 2 ^ n -> 0 <= y -> 0 <= Z.ldiff x y < 2 ^ n.
Proof.
  intros Hn Hx Hy. assert (0 <= Z.ldiff x y) as H0 by (apply Z.ldiff_nonneg; lia). split; [done|].
  assert (0 <= Z.land x y) as H1 by (apply Z.land_nonneg; lia). pose proof (Z.pow_pos_nonneg 2 n ltac:(lia) Hn).
  destruct (Z.eq_dec (Z.ldiff x y) 0) as [->|Hz]; [lia|]. pose proof (Z.log2_lor _ _ H0 H1) as E. rewrite Z.lor_ldiff_and in E.
  destruct (Z.eq_dec x 0) as [->|]; [done|]. assert (Z.log2 x < n) by (apply Z.log2_lt_pow2; lia). apply Z.log2_lt_pow2; lia.
Qed.

Lemma drapeaux_u16 f (b : bool) : is_u16 f -> is_u16 (if b then Z.lor f OracleFlagKeyed else Z.ldiff f OracleFlagKeyed).
Proof.
  unfold is_u16. intros Hf. destruct b; [|by apply ldiff_borne].
  assert (0 <= Z.lor f OracleFlagKeyed) as H0 by (apply Z.lor_nonneg; unfold OracleFlagKeyed; lia). split; [done|].
  destruct (Z.eq_dec (Z.lor f OracleFlagKeyed) 0) as [->|Hz]; [lia|]. apply Z.log2_lt_pow2; [lia|].
  rewrite Z.log2_lor by (unfold OracleFlagKeyed; lia). apply Z.max_lub_lt; [|by vm_compute].
  destruct (Z.eq_dec f 0) as [->|]; [by vm_compute|apply Z.log2_lt_pow2; lia].
Qed.

Lemma sauver_scelle h es key h' img : entete_oracle_ok h -> Forall etat_oracle_ok es -> SaveOracleDayHMAC sha256 hmac_sha256 (Some h) es key = inr (h', img) ->
  jour_scelle key h' es /\ OVersion h' = OracleVersion /\ img = image_oracle h' es /\ EpochDay h' = EpochDay h /\ OMachineID h' = OMachineID h /\
  PrevDaySeal h' = PrevDaySeal h /\ StartTsSec h' = StartTsSec h /\ EndTsSec h' = EndTsSec h /\ AverageScore h' = AverageScore h /\
  VectorCount h' = zlen es /\ ObservedCount h' = Z.max (ObservedCount h) (zlen es) /\
  OFlags h' = (if zlen key =? 0 then Z.ldiff (OFlags h) OracleFlagKeyed else Z.lor (OFlags h) OracleFlagKeyed) /\ OSeal h' = sceau h' es key.
Proof.
  intros Hh He. unfold SaveOracleDayHMAC. destruct (checkSealKey key) eqn:Hk; [done|]. destruct (Z.ltb_spec OracleMaxVectorCount (zlen es)) as [|Hm]; [done|].
  intros [= <- <-]. pose proof (zlen_nonneg es). assert (u32 (zlen es) = zlen es) as En by (apply u32_id; unfold is_u32, OracleMaxVectorCount in *; lia).
  destruct Hh as (H1 & H2 & H3 & H4 & H5 & H6 & H7 & H8 & H9 & H10 & H11 & H12 & H13 & H14). split.
  - split; [done| |done|done|by left|by cbn; rewrite En|done|done].
    unfold entete_oracle_ok, avec_sceau, fixer_entete. cbn -[ComputeOracleDaySealHMAC]. rewrite En, longueur_sceau. split_and!; try done; [unfold is_u32, OracleMaxVectorCount in *; lia|by apply drapeaux_u16|unfold is_u32, OracleMaxVectorCount in *; lia].
  - cbn. rewrite En. split_and!; try done. by destruct (zlen key =? 0).
Qed.

(** A day loads exactly when it is sealed.  On any octets, the reader accepts and
    returns a header and its states if and only if the octets begin with their image,
    every field in its range, the counted states all there, and the seal recomputed
    on every other octet of the image -- the SHA-256, the HMAC under a key, under
    which only the current version is accepted. *)
Theorem tranche_authentique l key h es : bytes_ok l ->
  charger l key = inr (h, es) <-> jour_scelle key h es /\ exists tl, l = image_oracle h es ++ tl.
Proof.
  intros Hl. split; [by apply charger_inv_oracle|]. intros (Hj & tl & ->). by apply charger_scelle.
Qed.

(** What is saved loads back, whatever follows; saving refuses only a short key and
    too many states. *)
Theorem tranche_relue h es key tl : entete_oracle_ok h -> Forall etat_oracle_ok es ->
  match SaveOracleDayHMAC sha256 hmac_sha256 (Some h) es key with
  | inr (h', img) => charger (img ++ tl) key = inr (h', es) /\ length img = (128 + 80 * length es)%nat
  | inl e => (exists d, e = ErrOracleKey d /\ checkSealKey key = Some d) \/ (e = ErrOracleTooLarge /\ OracleMaxVectorCount < zlen es)
  end.
Proof.
  intros Hh He. destruct (SaveOracleDayHMAC _ _ _ _ _) as [e|[h' img]] eqn:E.
  - revert E. unfold SaveOracleDayHMAC. destruct (checkSealKey key) as [d|]; [intros [= <-]; left; by exists d|].
    destruct (Z.ltb_spec OracleMaxVectorCount (zlen es)); [|done]. intros [= <-]. by right.
  - destruct (sauver_scelle h es key h' img Hh He E) as (Hj & Hv & -> & _). split; [by apply charger_scelle|].
    unfold image_oracle, AppendOracleDailyHeader. rewrite Hv. change (OracleVersion <=? OracleVersion) with true. cbn [app].
    rewrite length_app, length_encode_v4, length_etats by (done || apply Hj). done.
Qed.
End contrat.

(** * The baseline *)

(** ** The rarity of templates (template_rarity.go) *)

Definition templateUniverseBits : Z := 32.
Record TemplateRarity := Rarity { slot : gmap Z f64; global : gmap Z f64; slotTotal : list f64; totalCount : f64 }.
Definition zero64 : f64 := S754_zero false.
Definition NewTemplateRarity : TemplateRarity := Rarity ∅ ∅ (replicate 16 zero64) zero64.
Definition templateSlotKey (fp slot : Z) : Z := mixSpatial64 (Z.lxor fp (u64 (u64 (slot + 1) * 0x9E3779B97F4A7C15))).
Definition ajouter (m : gmap Z f64) (k : Z) (w : f64) : gmap Z f64 := <[k := fadd (default zero64 (m !! k)) w]> m.

Definition Observe (m : TemplateRarity) (code : list Z) (weight : f64) : run TemplateRarity :=
  let fp := bget code 7 in
  if (fp =? 0) || fleb weight zero64 then Done m else
  let s := TemplateSlotOf code in
  t ← idx (slotTotal m) s;
  st ← upd (slotTotal m) s (fadd t weight);
  Done (Rarity (ajouter (slot m) (templateSlotKey fp s) weight) (ajouter (global m) fp weight) st (fadd (totalCount m) weight)).

Section rarete.
(** [math.Log2]. *)
Variable log2 : f64 -> f64.
Definition Surprise (m : TemplateRarity) (code : list Z) : run f64 :=
  let fp := bget code 7 in
  if fp =? 0 then Done zero64 else
  let s := TemplateSlotOf code in
  t ← idx (slotTotal m) s;
  let pg := fdiv (fadd (default zero64 (global m !! fp)) (fdiv (f_of_Z 1) (f_of_Z (2 ^ templateUniverseBits)))) (fadd (totalCount m) (f_of_Z 1)) in
  let p := fdiv (fadd (default zero64 (slot m !! templateSlotKey fp s)) pg) (fadd t (f_of_Z 1)) in
  Done (SFopp (log2 p)).

(** ** The oracle *)

Record ServerBaselineOracle := Oracle {
  machineID_ : Z; entries : list OracleVectorEntry; nominalDist : Z; byCategory : gmap Z (list Z); byEntity : gmap Z (list Z); rarity : TemplateRarity
}.
Definition NewServerBaselineOracle (machineID nominalDist : Z) : ServerBaselineOracle :=
  Oracle machineID [] (if nominalDist <=? 0 then 45 else nominalDist) ∅ ∅ NewTemplateRarity.

Definition localityCategoryKey (code : list Z) : Z := mixSpatial64 (Z.lxor (bget code 0) (RotateLeft64 (bget code 1) 29)).
Definition localityEntityKey (code : list Z) : Z := mixSpatial64 (Z.lxor (localityCategoryKey code) (RotateLeft64 (bget code 6) 13)).

Definition indexer (m : gmap Z (list Z)) (k i : Z) : gmap Z (list Z) := <[k := default [] (m !! k) ++ [i]]> m.
Definition maxInt32 : Z := 2 ^ 31 - 1.

Fixpoint ingerer (o : ServerBaselineOracle) (es : list OracleVectorEntry) (weight : f64) : run ServerBaselineOracle :=
  match es with
  | [] => Done o
  | e :: es =>
      let i := zlen (entries o) in
      if maxInt32 <=? i then Done o else
      let code := OBitcode e in
      r ← Observe (rarity o) code weight;
      ingerer (Oracle (machineID_ o) (entries o ++ [e]) (nominalDist o) (indexer (byCategory o) (localityCategoryKey code) i)
        (indexer (byEntity o) (localityEntityKey code) i) r) es weight
  end.
Definition IngestDailyEntriesWeighted (o : ServerBaselineOracle) (es : list OracleVectorEntry) (weight : f64) : run ServerBaselineOracle :=
  ingerer o es (if fltb zero64 weight then weight else f_of_Z 1).
Definition IngestDailyEntries (o : ServerBaselineOracle) (es : list OracleVectorEntry) := IngestDailyEntriesWeighted o es (f_of_Z 1).

Definition ContentSurprise (o : ServerBaselineOracle) (bitcode : option (list Z)) : run f64 :=
  match bitcode with None => Done zero64 | Some code => Surprise (rarity o) code end.

Definition HammingDistance512 (a b : option (list Z)) : Z :=
  match a, b with
  | Some a, Some b => foldl (fun d w => d + ecart a b w) 0 [0; 1; 2; 3; 4; 5; 6; 7]
  | _, _ => 512
  end.

(** One turn of [QueryState]; it stops at distance zero. *)
Fixpoint balayer (code : list Z) (es : list OracleVectorEntry) (s : Z * Z * Z) : Z * Z * Z :=
  match es with
  | [] => s
  | e :: es =>
      let '(minDist, sub, score) := s in
      let d := HammingDistance512 (Some (OBitcode e)) (Some code) in
      if d <? minDist then
        if d =? 0 then (d, OSubsystem e, OHealthScore e) else balayer code es (d, OSubsystem e, OHealthScore e)
      else balayer code es s
  end.
Definition QueryState (o : ServerBaselineOracle) (bitcode : option (list Z)) : Z * bool * Z * Z :=
  match bitcode with
  | Some code =>
      if zlen (entries o) =? 0 then (512, false, 0, 0) else
      let '(minDist, sub, score) := balayer code (entries o) (513, 0, 0) in (minDist, minDist <=? nominalDist o, sub, score)
  | None => (512, false, 0, 0)
  end.

Definition localityDistanceNone : LocalityDistance := Distance 128 4 256 64 64.
Definition localityRankLess (a b : LocalityDistance) : bool :=
  if negb (Categorical a =? Categorical b) then Categorical a <? Categorical b else
  let ra := Z.max (SeverityRise a) 0 in let rb := Z.max (SeverityRise b) 0 in
  if negb (ra =? rb) then ra <? rb else Scalar a + Entity a + Content a <? Scalar b + Entity b + Content b.

Record etat_requete := Requete { q_nominal : bool; q_somme : Z; q_trouve : bool; q_dist : LocalityDistance; q_sub : Z; q_score : Z }.

(** One reference of the compartment; [inr] is the break. *)
Definition examiner_reference (es : list OracleVectorEntry) (code : list Z) (cfg : LocalityThresholds) (contentOK : bool) (s : etat_requete) (i : Z)
  : run (etat_requete + etat_requete) :=
  e ← idx es i;
  let d := LocalityDistanceOf code (OBitcode e) in
  if contentOK && Within d cfg then
    let sum := Scalar d + Entity d + Content d in
    if negb (q_nominal s) || (sum <? q_somme s) then
      let s := Requete true sum (q_trouve s) d (OSubsystem e) (OHealthScore e) in
      Done (if sum =? 0 then inr s else inl s)
    else Done (inl s)
  else if negb (q_nominal s) && (negb (q_trouve s) || localityRankLess d (q_dist s)) then
    Done (inl (Requete false (q_somme s) true d (OSubsystem e) (OHealthScore e)))
  else Done (inl s).

Definition compartiment (o : ServerBaselineOracle) (code : list Z) (cfg : LocalityThresholds) : list Z :=
  if Z.min (MaxEntity cfg) MaxEntityToleranceBits <=? 0 then default [] (byEntity o !! localityEntityKey code)
  else default [] (byCategory o !! localityCategoryKey code).

(** The content, judged by its rarity when a threshold is set: the verdict and the
    thresholds of the neighbourhood. *)
Definition juger_contenu (o : ServerBaselineOracle) (code : list Z) (cfg : LocalityThresholds) : run (bool * LocalityThresholds) :=
  if (0 <? MaxContentSurpriseBits cfg) && negb (bget code 7 =? 0) && fltb zero64 (totalCount (rarity o)) then
    s ← Surprise (rarity o) code;
    Done (fleb s (f_of_Z (MaxContentSurpriseBits cfg)),
          Thresholds (MaxSeverityRise cfg) (MaxScalar cfg) (MaxEntity cfg) 64 (MaxContentSurpriseBits cfg))
  else Done (true, cfg).

Definition QueryStateLocality (o : ServerBaselineOracle) (bitcode : option (list Z)) (cfg : LocalityThresholds) : run (bool * LocalityDistance * Z * Z) :=
  match bitcode with
  | None => Done (false, localityDistanceNone, 0, 0)
  | Some code =>
      if zlen (entries o) =? 0 then Done (false, localityDistanceNone, 0, 0) else
      let bucket := compartiment o code cfg in
      if zlen bucket =? 0 then Done (false, localityDistanceNone, 0, 0) else
      '(contentOK, cfg) ← juger_contenu o code cfg;
      r ← parcourir (fun _ i s => examiner_reference (entries o) code cfg contentOK s i) 0 bucket (Requete false (2 ^ 63 - 1) false localityDistanceNone 0 0);
      let s := match r with inl s => s | inr s => s end in
      Done (q_nominal s, q_dist s, q_sub s, q_score s)
  end.

(** ** The baseline and the catalogue *)

Record StateDeltaVerdict := DeltaVerdict { Nominal : bool; Dispensed : bool; VRuleID : Z; VDistance : LocalityDistance; MatchedSub : Z; MatchedScore : Z; VContentSurprise : f64 }.
Definition Anomaly (v : StateDeltaVerdict) : bool := negb (Nominal v) && negb (Dispensed v).

Definition EvaluateStateWithDelta (oracle : option ServerBaselineOracle) (catalog : option DeltaCatalog) (observed : option (list Z)) (tsSec scale : Z)
    (cfg : LocalityThresholds) : run StateDeltaVerdict :=
  match observed with
  | None => Done (DeltaVerdict false false 0 localityDistanceNone 0 0 zero64)
  | Some _ =>
      '(nominal, d, sub, score, surprise) ← match oracle with
        | Some o => '(nominal, d, sub, score) ← QueryStateLocality o observed cfg; s ← ContentSurprise o observed; Done (nominal, d, sub, score, s)
        | None => Done (false, localityDistanceNone, 0, 0, zero64)
        end;
      if (nominal : bool) then Done (DeltaVerdict true false 0 d sub score surprise) else
      let '(dispensed, rule) := EvaluateDelta catalog observed tsSec scale in
      Done (DeltaVerdict false dispensed rule d sub score surprise)
  end.

(** * The compartments are exact *)

(** The positions, from [i] on, of the states whose key is [k]. *)
Fixpoint positions (cle : OracleVectorEntry -> Z) (k i : Z) (es : list OracleVectorEntry) : list Z :=
  match es with
  | [] => []
  | e :: es => if cle e =? k then i :: positions cle k (i + 1) es else positions cle k (i + 1) es
  end.

Lemma positions_app cle k es es' : forall i, positions cle k i (es ++ es') = positions cle k i es ++ positions cle k (i + zlen es) es'.
Proof.
  induction es as [|e es IH]; intros i; cbn [app positions]; [change (zlen []) with 0; by rewrite Z.add_0_r|].
  rewrite zlen_cons, IH, (Z.add_assoc i). by destruct (cle e =? k).
Qed.

Definition indexe (cle : OracleVectorEntry -> Z) (m : gmap Z (list Z)) (es : list OracleVectorEntry) : Prop :=
  forall k, default [] (m !! k) = positions cle k 0 es.

Lemma indexe_ajout cle m es e : indexe cle m es -> indexe cle (indexer m (cle e) (zlen es)) (es ++ [e]).
Proof.
  intros H k. unfold indexer. rewrite positions_app. cbn [positions]. rewrite Z.add_0_l. destruct (Z.eqb_spec (cle e) k) as [->|Hk].
  - rewrite lookup_insert_eq. cbn. by rewrite H.
  - rewrite lookup_insert_ne by done. by rewrite H, app_nil_r.
Qed.

Lemma cles_egales a b : bget a 0 = bget b 0 -> bget a 1 = bget b 1 ->
  localityCategoryKey b = localityCategoryKey a /\ (bget a 6 = bget b 6 -> localityEntityKey b = localityEntityKey a).
Proof. intros E0 E1. unfold localityEntityKey, localityCategoryKey. rewrite E0, E1. split; [done|]. by intros ->. Qed.
#[local] Opaque localityCategoryKey localityEntityKey mixSpatial64.
Definition cle_categorie (e : OracleVectorEntry) : Z := localityCategoryKey (OBitcode e).
Definition cle_entite (e : OracleVectorEntry) : Z := localityEntityKey (OBitcode e).

Definition somme_ecarts (d : LocalityDistance) : Z := Scalar d + Entity d + Content d.
(** The search as a pure walk of the states of a compartment. *)
Definition pas_reference (code : list Z) (cfg : LocalityThresholds) (ok : bool) (s : etat_requete) (e : OracleVectorEntry) : etat_requete + etat_requete :=
  let d := LocalityDistanceOf code (OBitcode e) in
  if ok && Within d cfg then
    let sum := somme_ecarts d in
    if negb (q_nominal s) || (sum <? q_somme s) then
      let s := Requete true sum (q_trouve s) d (OSubsystem e) (OHealthScore e) in
      if sum =? 0 then inr s else inl s
    else inl s
  else if negb (q_nominal s) && (negb (q_trouve s) || localityRankLess d (q_dist s)) then
    inl (Requete false (q_somme s) true d (OSubsystem e) (OHealthScore e))
  else inl s.
Fixpoint chercher_references (code : list Z) (cfg : LocalityThresholds) (ok : bool) (l : list OracleVectorEntry) (s : etat_requete) : etat_requete :=
  match l with
  | [] => s
  | e :: l => match pas_reference code cfg ok s e with inr s => s | inl s => chercher_references code cfg ok l s end
  end.

Lemma examiner_pas es code cfg ok s i e : es !! i = Some e -> examiner_reference es code cfg ok s (Z.of_nat i) = Done (pas_reference code cfg ok s e).
Proof.
  intros H. unfold examiner_reference, idx. destruct (Z.ltb_spec (Z.of_nat i) 0); [lia|]. rewrite Nat2Z.id, H, run_bind_done. unfold pas_reference, somme_ecarts.
  repeat case_match; done.
Qed.

Lemma parcourir_compartiment cle k code cfg ok l2 : forall l1 j s,
  exists r, parcourir (fun _ i s => examiner_reference (l1 ++ l2) code cfg ok s i) j (positions cle k (zlen l1) l2) s = Done r /\
    match r with inl s => s | inr s => s end = chercher_references code cfg ok (filter (fun e => cle e = k) l2) s.
Proof.
  induction l2 as [|e l2 IH]; intros l1 j s; cbn [positions]; [by exists (inl s)|]. rewrite filter_cons.
  specialize (IH (l1 ++ [e])). rewrite zlen_app, <- app_assoc in IH. change (zlen [e]) with 1 in IH. cbn [app] in IH.
  destruct (Z.eqb_spec (cle e) k) as [E|E], (decide _) as [F|F]; try done; try apply IH.
  cbn [parcourir chercher_references]. assert (examiner_reference (l1 ++ e :: l2) code cfg ok s (zlen l1) = Done (pas_reference code cfg ok s e)) as ->.
  { apply examiner_pas. by apply list_lookup_middle. }
  rewrite run_bind_done. destruct (pas_reference code cfg ok s e) as [s'|s']; [apply IH|by exists (inr s')].
Qed.

(** ** What the walk finds *)

Definition retient (s : etat_requete) (code : list Z) (e : OracleVectorEntry) : Prop :=
  q_dist s = LocalityDistanceOf code (OBitcode e) /\ q_sub s = OSubsystem e /\ q_score s = OHealthScore e.
Definition voisine (code : list Z) (cfg : LocalityThresholds) (ok : bool) (e : OracleVectorEntry) : Prop :=
  ok && Within (LocalityDistanceOf code (OBitcode e)) cfg = true.

(** The answer on the states [pre]: the nearest neighbour, or the best ranked. *)
Definition reponse (code : list Z) (cfg : LocalityThresholds) (ok : bool) (pre : list OracleVectorEntry) (s : etat_requete) : Prop :=
  if q_nominal s then
    exists e, e ∈ pre /\ retient s code e /\ voisine code cfg ok e /\
      forall e', e' ∈ pre -> voisine code cfg ok e' -> somme_ecarts (q_dist s) <= somme_ecarts (LocalityDistanceOf code (OBitcode e'))
  else (forall e, e ∈ pre -> ~ voisine code cfg ok e) /\
    if q_trouve s then exists e, e ∈ pre /\ retient s code e /\ forall e', e' ∈ pre -> localityRankLess (LocalityDistanceOf code (OBitcode e')) (q_dist s) = false
    else pre = [] /\ q_dist s = localityDistanceNone /\ q_sub s = 0 /\ q_score s = 0.

Lemma rang_transitif a b c : localityRankLess a b = true -> localityRankLess c b = false -> localityRankLess c a = false.
Proof.
  unfold localityRankLess. generalize (Z.max (SeverityRise a) 0) (Z.max (SeverityRise b) 0) (Z.max (SeverityRise c) 0). intros ra rb rc.
  generalize (Scalar a + Entity a + Content a) (Scalar b + Entity b + Content b) (Scalar c + Entity c + Content c). intros sa sb sc.
  generalize (Categorical a) (Categorical b) (Categorical c). intros ca cb cc.
  destruct (Z.eqb_spec ca cb), (Z.eqb_spec cc cb), (Z.eqb_spec cc ca); cbn [negb]; try congruence; try lia;
    destruct (Z.eqb_spec ra rb), (Z.eqb_spec rc rb); cbn [negb]; try lia; destruct (Z.eqb_spec rc ra); cbn [negb]; lia.
Qed.

Lemma rang_irreflexif a : localityRankLess a a = false.
Proof. unfold localityRankLess. rewrite !Z.eqb_refl. cbn [negb]. lia. Qed.

Lemma somme_positive a b : 0 <= somme_ecarts (LocalityDistanceOf a b).
Proof.
  unfold somme_ecarts, LocalityDistanceOf, ecart. cbn [Scalar Entity Content foldl].
  repeat match goal with |- context [OnesCount64 ?x] => pose proof (OnesCount64_nonneg x); generalize dependent (OnesCount64 x); intros end. lia.
Qed.

Definition coherente (s : etat_requete) : Prop := q_nominal s = true -> q_somme s = somme_ecarts (q_dist s).

Lemma reponse_pas code cfg ok pre s e : coherente s -> reponse code cfg ok pre s ->
  match pas_reference code cfg ok s e with
  | inl s' => coherente s' /\ reponse code cfg ok (pre ++ [e]) s'
  | inr s' => forall post, reponse code cfg ok (pre ++ e :: post) s'
  end.
Proof.
  intros Hc Hr. unfold pas_reference. set (d := LocalityDistanceOf code (OBitcode e)). cbn zeta.
  pose proof (somme_positive code (OBitcode e)) as Hp. fold d in Hp.
  assert (forall post x, x ∈ pre ++ e :: post <-> x ∈ pre \/ x = e \/ x ∈ post) as Hin by (intros; rewrite elem_of_app, elem_of_cons; tauto).
  destruct (ok && Within d cfg) eqn:Ev.
  - destruct (negb (q_nominal s) || (somme_ecarts d <? q_somme s)) eqn:Eb.
    + destruct (Z.eqb_spec (somme_ecarts d) 0) as [E0|E0].
      * intros post. exists e. cbn. split; [apply Hin; tauto|]. split; [done|]. split; [done|]. intros e' _ _. fold d. rewrite E0. apply somme_positive.
      * split; [done|]. exists e. cbn. split; [apply Hin; tauto|]. split; [done|]. split; [done|]. intros e' [Hx|[->|Hx%elem_of_nil]]%Hin Hv; [|done..].
        unfold reponse in Hr. destruct (q_nominal s) eqn:En.
        -- destruct Hr as (e0 & _ & _ & _ & Hm). specialize (Hm e' Hx Hv). rewrite (Hc En) in Eb. cbn in Eb. lia.
        -- destruct Hr as [Hn _]. by destruct (Hn e' Hx).
    + apply orb_false_iff in Eb as [En%negb_false_iff Es%Z.ltb_ge]. split; [done|]. unfold reponse in *. rewrite En in *. destruct Hr as (e0 & H0 & H1 & H2 & Hm).
      exists e0. split; [apply Hin; tauto|]. split; [done|]. split; [done|]. intros e' [Hx|[->|Hx%elem_of_nil]]%Hin Hv; [by apply Hm| |done]. rewrite <- (Hc En). done.
  - assert (~ voisine code cfg ok e) as Hne by (unfold voisine; fold d; by rewrite Ev).
    unfold reponse in Hr. destruct (q_nominal s) eqn:En; cbn [negb andb].
    + split; [done|]. unfold reponse. rewrite En. destruct Hr as (e0 & H0 & H1 & H2 & Hm). exists e0. split; [apply Hin; tauto|]. split; [done|]. split; [done|].
      intros e' [Hx|[->|Hx%elem_of_nil]]%Hin Hv; [by apply Hm|done|done].
    + destruct Hr as [Hn Hr]. assert (forall x, x ∈ pre ++ [e] -> ~ voisine code cfg ok x) as Hn' by (intros x [Hx|[->|Hx%elem_of_nil]]%Hin; [by apply Hn|done|done]).
      destruct (q_trouve s) eqn:Et; cbn [negb orb].
      * destruct Hr as (e0 & H0 & H1 & Hm). destruct (localityRankLess d (q_dist s)) eqn:El; (split; [done|]); unfold reponse; cbn [q_nominal q_trouve].
        -- split; [done|]. exists e. split; [apply Hin; tauto|]. split; [done|]. cbn. intros e' [Hx|[->|Hx%elem_of_nil]]%Hin; [|apply rang_irreflexif|done].
           by eapply rang_transitif; [exact El|apply Hm].
        -- rewrite En, Et. split; [done|]. exists e0. split; [apply Hin; tauto|]. split; [done|]. intros e' [Hx|[->|Hx%elem_of_nil]]%Hin; [by apply Hm|done|done].
      * destruct Hr as (-> & _). split; [done|]. unfold reponse; cbn [q_nominal q_trouve]. split; [done|]. exists e. split; [by left|]. split; [done|]. cbn.
        intros e' [->|Hx%elem_of_nil]%elem_of_cons; [apply rang_irreflexif|done].
Qed.

Lemma reponse_chercher code cfg ok l : forall pre s, coherente s -> reponse code cfg ok pre s -> reponse code cfg ok (pre ++ l) (chercher_references code cfg ok l s).
Proof.
  induction l as [|e l IH]; intros pre s Hc Hr; [by rewrite app_nil_r|]. cbn [chercher_references]. pose proof (reponse_pas code cfg ok pre s e Hc Hr) as H.
  destruct (pas_reference code cfg ok s e) as [s'|s']; [|apply H]. destruct H as [Hc' Hr']. specialize (IH (pre ++ [e]) s' Hc' Hr'). by rewrite <- app_assoc in IH.
Qed.

(** ** The baseline built from days *)

Fixpoint ingerer_jours (o : ServerBaselineOracle) (jours : list (list OracleVectorEntry * f64)) : run ServerBaselineOracle :=
  match jours with
  | [] => Done o
  | (es, w) :: jours => o ← IngestDailyEntriesWeighted o es w; ingerer_jours o jours
  end.

Lemma zeros_bas_borne n : forall x, 0 < x < 2 ^ Z.of_nat n -> 0 <= zeros_bas n x < Z.of_nat n.
Proof.
  induction n as [|n IH]; intros x Hx; [change (2 ^ Z.of_nat 0) with 1 in Hx; lia|]. cbn [zeros_bas]. rewrite Nat2Z.inj_succ, Z.pow_succ_r in Hx by lia.
  destruct (Z.odd x) eqn:Eo; [lia|]. pose proof (Z.div2_odd x) as E. rewrite Eo in E. cbn in E. specialize (IH (Z.div2 x) ltac:(lia)). lia.
Qed.

Lemma creneau_borne code : mots_ok code -> 0 <= TemplateSlotOf code < 16.
Proof.
  intros [Hl Hu]. unfold TemplateSlotOf, TemplateRaritySlots, localitySlotsPerDay.
  assert (0 <= LocalitySlotOf (bget code 5) < 64); [|rewrite Z.quot_div_nonneg by lia; split; [apply Z.div_pos; lia|apply Z.div_lt_upper_bound; lia]].
  assert (is_u64 (bget code 5)) as H5 by (apply bget_Forall; [done|unfold zlen; lia]). unfold LocalitySlotOf, TrailingZeros64.
  destruct (Z.eqb_spec (Z.ldiff (bget code 5) (RotateLeft64 (bget code 5) 1)) 0) as [|Hz]; [lia|]. apply (zeros_bas_borne 64).
  assert (0 <= RotateLeft64 (bget code 5) 1) as Hr.
  { unfold RotateLeft64. apply Z.lor_nonneg. split; [pose proof (u64_range (Z.shiftl (bget code 5) (Z.land 1 63))) as [H _]; exact H|apply Z.shiftr_nonneg; unfold is_u64 in H5; lia]. }
  pose proof (ldiff_borne 64 _ _ ltac:(lia) H5 Hr). lia.
Qed.

(** The baseline holds the states [es], all indexed. *)
Record tenue (o : ServerBaselineOracle) (es : list OracleVectorEntry) : Prop := {
  te_entries : entries o = es;
  te_codes : Forall (fun e => mots_ok (OBitcode e)) es;
  te_categorie : indexe cle_categorie (byCategory o) es;
  te_entite : indexe cle_entite (byEntity o) es;
  te_creneaux : zlen (slotTotal (rarity o)) = 16
}.

Lemma observer_total m code w : mots_ok code -> zlen (slotTotal m) = 16 -> wp (Observe m code w) (fun m' => zlen (slotTotal m') = 16).
Proof.
  intros Hc Hz. pose proof (creneau_borne code Hc). unfold Observe. destruct (_ || _); [by apply wp_done|].
  apply wp_bind, wp_idx; [lia|]. intros t _. apply wp_bind, wp_upd; [lia|]. apply wp_done. cbn. by rewrite zlen_insert.
Qed.

Lemma ingerer_tenue l : forall o es w, tenue o es -> Forall (fun e => mots_ok (OBitcode e)) l -> zlen es + zlen l <= maxInt32 ->
  wp (ingerer o l w) (fun o' => tenue o' (es ++ l)).
Proof.
  induction l as [|e l IH]; intros o es w Ho Hl Hn; cbn [ingerer]; [apply wp_done; by rewrite app_nil_r|].
  apply Forall_cons in Hl as [He Hl]. rewrite zlen_cons in Hn. pose proof (zlen_nonneg l). destruct Ho as [H1 H2 H3 H4 H5]. rewrite H1.
  destruct (Z.leb_spec maxInt32 (zlen es)); [lia|]. apply wp_bind. eapply wp_mono; [by apply observer_total|]. intros r Hr. cbv beta.
  replace (es ++ e :: l) with ((es ++ [e]) ++ l) by by rewrite <- app_assoc. apply IH; [|done|rewrite zlen_app; change (zlen [e]) with 1; lia].
  split; cbn [entries byCategory byEntity rarity].
  - done.
  - apply Forall_app. split; [done|by apply Forall_singleton].
  - pose proof (indexe_ajout cle_categorie _ _ e H3) as Hi. unfold cle_categorie at 2 in Hi. exact Hi.
  - pose proof (indexe_ajout cle_entite _ _ e H4) as Hi. unfold cle_entite at 2 in Hi. exact Hi.
  - exact Hr.
Qed.

Lemma jours_tenus jours : forall o es, tenue o es -> Forall (fun e => mots_ok (OBitcode e)) (concat (fst <$> jours)) ->
  zlen es + zlen (concat (fst <$> jours)) <= maxInt32 -> wp (ingerer_jours o jours) (fun o' => tenue o' (es ++ concat (fst <$> jours))).
Proof.
  induction jours as [|[l w] jours IH]; intros o es Ho Hl Hn; cbn [ingerer_jours fmap list_fmap concat fst]; [apply wp_done; by rewrite app_nil_r|].
  cbn [fmap list_fmap concat fst] in Hl, Hn. apply Forall_app in Hl as [Hl Hr]. rewrite zlen_app in Hn. pose proof (zlen_nonneg (concat (fst <$> jours))).
  apply wp_bind. unfold IngestDailyEntriesWeighted. eapply wp_mono; [apply (ingerer_tenue l o es); [done..|lia]|].
  intros o' Ho'. cbv beta. rewrite app_assoc. apply IH; [done..|rewrite zlen_app; lia].
Qed.

Lemma tenue_vide m nd : tenue (NewServerBaselineOracle m nd) [].
Proof. split; [done|constructor|intros k; by cbn|intros k; by cbn|done]. Qed.

(** A neighbour is in the compartment of its target. *)
Lemma egaux_zero W X w : mots_ok W -> mots_ok X -> 0 <= w < 8 -> ecart W X w = 0 -> bget W w = bget X w.
Proof.
  intros [Hl Hu] [Hl' Hu'] Hw H. apply OnesCount64_lxor_nul; [apply bget_Forall; [done|unfold zlen; lia]..|exact H].
Qed.

Lemma voisine_categorie code e cfg : mots_ok code -> mots_ok (OBitcode e) -> Within (LocalityDistanceOf code (OBitcode e)) cfg = true ->
  cle_categorie e = localityCategoryKey code /\ (Z.min (MaxEntity cfg) MaxEntityToleranceBits <= 0 -> cle_entite e = localityEntityKey code).
Proof.
  intros Hc He Hw. unfold Within in Hw. apply andb_prop in Hw as [[[[H0 _]%andb_prop _]%andb_prop H6]%andb_prop _]. apply Z.eqb_eq in H0. apply Z.leb_le in H6.
  unfold LocalityDistanceOf in H0, H6. cbn [Categorical Entity] in H0, H6. unfold ecart in H0, H6.
  pose proof (OnesCount64_nonneg (Z.lxor (bget code 0) (bget (OBitcode e) 0))). pose proof (OnesCount64_nonneg (Z.lxor (bget code 1) (bget (OBitcode e) 1))).
  pose proof (OnesCount64_nonneg (Z.lxor (bget code 6) (bget (OBitcode e) 6))).
  assert (bget code 0 = bget (OBitcode e) 0) as E0 by (apply egaux_zero; [done..|unfold ecart; lia]).
  assert (bget code 1 = bget (OBitcode e) 1) as E1 by (apply egaux_zero; [done..|unfold ecart; lia]).
  destruct (cles_egales code (OBitcode e) E0 E1) as [K1 K2]. split; [exact K1|]. intros Hm. apply K2. apply egaux_zero; [done..|unfold ecart; lia].
Qed.

(** The thresholds the compartment depends on are those of the caller. *)
Lemma juger_total o code cfg es : tenue o es -> mots_ok code ->
  wp (juger_contenu o code cfg) (fun '(_, cfg') => MaxEntity cfg' = MaxEntity cfg).
Proof.
  intros Ho Hc. unfold juger_contenu. destruct (_ && _); [|by apply wp_done]. apply wp_bind. unfold Surprise. pose proof (creneau_borne code Hc).
  destruct (_ =? 0); [apply wp_done; by apply wp_done|]. apply wp_bind, wp_idx; [rewrite (te_creneaux _ _ Ho); lia|]. intros t _. apply wp_done. by apply wp_done.
Qed.

Lemma requete_exacte o es code cfg : tenue o es -> mots_ok code ->
  exists cle k s, QueryStateLocality o (Some code) cfg = Done (q_nominal s, q_dist s, q_sub s, q_score s) /\
    (cle = cle_categorie /\ k = localityCategoryKey code \/ cle = cle_entite /\ k = localityEntityKey code) /\
    exists ok cfg', juger_contenu o code cfg = Done (ok, cfg') /\ reponse code cfg' ok (filter (fun e => cle e = k) es) s /\
      forall e, e ∈ es -> voisine code cfg' ok e -> cle e = k.
Proof.
  intros Ho Hc. pose proof Ho as [H1 H2 H3 H4 H5]. set (strict := Z.min (MaxEntity cfg) MaxEntityToleranceBits <=? 0).
  set (cle := if strict then cle_entite else cle_categorie). set (k := if strict then localityEntityKey code else localityCategoryKey code).
  assert (compartiment o code cfg = positions cle k 0 es) as Ec by (unfold compartiment, cle, k; fold strict; by destruct strict).
  destruct (proj1 (wp_exists _ _) (juger_total o code cfg es Ho Hc)) as ([ok cfg'] & Ej & He).
  set (debut := Requete false (2 ^ 63 - 1) false localityDistanceNone 0 0).
  pose proof (reponse_chercher code cfg' ok (filter (fun e => cle e = k) es) [] debut ltac:(done) ltac:(split; [by intros e Hx%elem_of_nil|done])) as Hr. cbn [app] in Hr.
  destruct (parcourir_compartiment cle k code cfg' ok es [] 0 debut) as (r & Er & Es). change (zlen []) with 0 in Er. cbn [app] in Er.
  exists cle, k, (chercher_references code cfg' ok (filter (fun e => cle e = k) es) debut). split; [|split; [unfold cle, k; destruct strict; tauto|exists ok, cfg'; split; [done|]; split; [done|]]].
  - unfold QueryStateLocality. rewrite Ec, H1. destruct (Z.eqb_spec (zlen es) 0) as [Hz|Hz].
    { destruct es; [done|unfold zlen in Hz; cbn in Hz; lia]. }
    destruct (Z.eqb_spec (zlen (positions cle k 0 es)) 0) as [Hp|Hp].
    { assert (positions cle k 0 es = []) as E0 by (destruct (positions cle k 0 es); [done|unfold zlen in Hp; cbn in Hp; lia]).
      rewrite E0 in Er. cbn in Er. injection Er as <-. by rewrite <- Es. }
    rewrite Ej, run_bind_done. cbv beta iota. fold debut. rewrite Er, run_bind_done. rewrite <- Es. by destruct r.
  - intros e Hin Hv. unfold voisine in Hv. apply andb_prop in Hv as [_ Hv].
    destruct (voisine_categorie code e cfg' Hc (proj1 (Forall_forall _ _) H2 e Hin) Hv) as [Hcat Hent]. rewrite He in Hent.
    unfold cle, k. destruct strict eqn:Es'; [|done]. apply Hent. by apply Z.leb_le.
Qed.

(** C39: the compartments of the baseline lose nothing.  For any days ingested with any
    weights and any target, the query is total, and the state is nominal exactly when
    some state of the whole baseline is its neighbour -- the content being admitted by
    its rarity where a threshold asks for it; what is returned then is the distance of
    a neighbour of the baseline that no other neighbour undercuts, with the subsystem
    and the score of that state. *)
Theorem compartiments_exacts m nd jours : Forall (fun e => mots_ok (OBitcode e)) (concat (fst <$> jours)) -> zlen (concat (fst <$> jours)) <= maxInt32 ->
  exists o, ingerer_jours (NewServerBaselineOracle m nd) jours = Done o /\ entries o = concat (fst <$> jours) /\
  forall code cfg, mots_ok code -> exists ok cfg' nominal d sub score,
    juger_contenu o code cfg = Done (ok, cfg') /\ QueryStateLocality o (Some code) cfg = Done (nominal, d, sub, score) /\
    (nominal = true <-> ok = true /\ exists e, e ∈ entries o /\ Within (LocalityDistanceOf code (OBitcode e)) cfg' = true) /\
    (nominal = true -> exists e, e ∈ entries o /\ d = LocalityDistanceOf code (OBitcode e) /\ sub = OSubsystem e /\ score = OHealthScore e /\ Within d cfg' = true /\
      forall e', e' ∈ entries o -> Within (LocalityDistanceOf code (OBitcode e')) cfg' = true -> somme_ecarts d <= somme_ecarts (LocalityDistanceOf code (OBitcode e'))).
Proof.
  intros Hj Hn. pose proof (jours_tenus jours _ [] (tenue_vide m nd) Hj ltac:(change (zlen []) with 0; lia)) as (o & Eo & Ho)%wp_exists.
  cbn [app] in Ho. exists o. rewrite (te_entries _ _ Ho). split; [done|]. split; [done|]. intros code cfg Hc.
  destruct (requete_exacte o _ code cfg Ho Hc) as (cle & k & s & Eq & _ & ok & cfg' & Ej & Hr & Hk).
  exists ok, cfg', (q_nominal s), (q_dist s), (q_sub s), (q_score s). split; [done|]. split; [done|]. unfold reponse in Hr.
  assert (forall e, e ∈ concat (fst <$> jours) -> voisine code cfg' ok e -> e ∈ filter (fun e => cle e = k) (concat (fst <$> jours))) as Hf
    by (intros e He Hv; apply list_elem_of_filter; split; [by apply Hk|done]).
  destruct (q_nominal s).
  - destruct Hr as (e & [_ He]%list_elem_of_filter & (E1 & E2 & E3) & Hv & Hm). pose proof Hv as [Hok Hw]%andb_prop. split.
    + split; [|done]. intros _. split; [done|by exists e].
    + intros _. exists e. split_and!; try done; [by rewrite E1|]. intros e' He' Hw'. apply Hm; [apply Hf; [done|]|]; by apply andb_true_iff.
  - destruct Hr as [Hr _]. split; [|done]. split; [done|]. intros (-> & e & He & Hw). exfalso.
    apply (Hr e); [apply Hf; [done|]|]; by apply andb_true_iff.
Qed.
End rarete.

(** * Examples *)

Definition entete_exemple : OracleDailyHeader := OHeader (replicate 8 0) 0 0 20000 1728000000 1728086400 0 950 OracleFlagSealed 99 zeros32 zeros32 0 zeros12.
Definition etat_exemple : OracleVectorEntry := OEntry code_etat 3600 2 900 2 1 0 0.
Definition tranche_exemple : OracleDailyHeader * list Z :=
  match SaveOracleDayHMAC empreinte empreinte_cle (Some entete_exemple) [etat_exemple] cle_exemple with inr r => r | inl _ => (entete_exemple, []) end.

Lemma tranche_exemple_ok : bytes_ok (snd tranche_exemple ++ [7]).
Proof. apply octets_valides_ok. by vm_compute. Qed.
Lemma tranche_exemple_chargee : LoadOracleDayHMAC empreinte empreinte_cle (snd tranche_exemple ++ [7]) cle_exemple = inr (fst tranche_exemple, [etat_exemple]).
Proof. by vm_compute. Qed.

Lemma tranche_authentique_witness : jour_scelle empreinte empreinte_cle cle_exemple (fst tranche_exemple) [etat_exemple] /\
  exists tl, snd tranche_exemple ++ [7] = image_oracle (fst tranche_exemple) [etat_exemple] ++ tl.
Proof. exact (proj1 (tranche_authentique empreinte empreinte_cle _ cle_exemple _ _ tranche_exemple_ok) tranche_exemple_chargee). Defined.

Lemma etat_exemple_code : mots_ok code_etat.
Proof. apply mots_controle_ok. by vm_compute. Qed.

Lemma compartiments_exacts_witness : exists o, ingerer_jours (NewServerBaselineOracle 99 45) [([etat_exemple], f_of_Z 1); ([], zero64)] = Done o /\
  exists nominal d sub score, QueryStateLocality (fun _ => zero64) o (Some code_etat) DefaultLocalityThresholds = Done (nominal, d, sub, score).
Proof.
  destruct (compartiments_exacts (fun _ => zero64) 99 45 [([etat_exemple], f_of_Z 1); ([], zero64)]) as (o & E & _ & H).
  - apply Forall_cons. split; [exact etat_exemple_code|constructor].
  - vm_compute. discriminate.
  - destruct (H code_etat DefaultLocalityThresholds etat_exemple_code) as (ok & cfg & n & d & s & c & _ & Eq & _).
    exists o. split; [exact E|]. exists n, d, s, c. exact Eq.
Defined.
