(* ===== verification/Silo.v ===== *)
(** The daily silo of the server oracle (src/server_oracle_silo.go): the day in
    progress with its two channels and its deterministic reservoir, the sealing of a
    day merged with what its file already holds, the chain of the seals from day to
    day and its repair, its verification, and the baseline read back.  The directory
    is the map from the days of the machine to the octets of their files, with the
    archives of the older versions; the system may refuse the write of any file.  The
    theorem follows any session of calls: no High or Critical event is lost while such
    events fit in a day, no loss is hidden, what is sealed stays, and the chain of the
    seals stays unbroken when no write is refused. *)
From stdpp Require Import list_numbers gmap sorting.
From Stdlib Require Import SpecFloat.
From S2P Require Import Prelude Trame Bits Flottant Localite DeltaCatalog TrancheOracle.
Local Open Scope Z_scope.

Definition SeverityHigh : Z := 3.

(** ** The generator *)

Definition splitMix64 : Type := Z.
Definition next (g : splitMix64) : splitMix64 * Z := (u64 (g + 0x9E3779B97F4A7C15), splitmix64 g).
(** [bits.Mul64]: the high word. *)
Definition below (g : splitMix64) (n : Z) : splitMix64 * Z := let '(g, x) := next g in (g, x * n / 2 ^ 64).
Definition samplerSeed (machineID day : Z) : splitMix64 := Z.lxor machineID (u64 (day * 0xD1B54A32D192ED03)).

(** ** State *)

Record SiloConfig := Config { MachineID : Z; NominalDist : Z; MaxRetainedDays : Z; BaselineExcludeAnomalousDays : bool; HMACKey : list Z }.

Record DailyOracleSilo := Silo {
  cfg : SiloConfig; currentDay : Z; hasCurrentDay : bool; currentStartTs : Z;
  currentEntries : list OracleVectorEntry; currentPriority : list OracleVectorEntry;
  currentNormalSeen : Z; currentPrioritySeen : Z; currentObserved : Z; sampler : splitMix64; currentDroppedFlags : Z;
  chaine : option (Z * list Z); totalIngested : Z; totalRotations : Z; totalDropped : Z
}.

(** The files of the machine by day, and the archives of the older versions. *)
Record disque := Disque { jours : gmap Z (list Z); archives : gmap (Z * Z) (list Z) }.

Inductive erreur_silo :=
  | ErrSnapshotNil | ErrCle (e : erreur_delta) | ErrRotation (e : erreur_silo) | ErrIllisible (e : erreur_oracle) | ErrEtranger | ErrArchive | ErrEcriture
  | ErrSauvegarde (e : erreur_oracle).

Definition NewDailyOracleSilo (c : SiloConfig) : DailyOracleSilo + erreur_silo :=
  let c := Config (MachineID c) (if NominalDist c <=? 0 then 45 else NominalDist c) (if MaxRetainedDays c <=? 0 then 30 else MaxRetainedDays c)
             (BaselineExcludeAnomalousDays c) (HMACKey c) in
  match ValidateSealKey (HMACKey c) with
  | Some e => inr (ErrCle e)
  | None => inl (Silo c 0 false 0 [] [] 0 0 0 0 0 None 0 0 0)
  end.

Definition openDayLocked (s : DailyOracleSilo) (day startTs : Z) : DailyOracleSilo :=
  Silo (cfg s) day true startTs [] [] 0 0 0 (samplerSeed (MachineID (cfg s)) day) 0 (chaine s) (totalIngested s) (totalRotations s) (totalDropped s).

(** ** Sampling at the sealing *)

(** Algorithm R on the elements after the first [k]; [n] counts those seen. *)
Fixpoint tirer (res reste : list Z) (n k : Z) (g : splitMix64) : run (list Z * splitMix64) :=
  match reste with
  | [] => Done (res, g)
  | x :: reste =>
      let '(g, j) := below g (n + 1) in
      res ← (if j <? k then upd res j x else Done res);
      tirer res reste (n + 1) k g
  end.
Definition reservoirIndices (indices : list Z) (k : Z) (g : splitMix64) : run (list Z * splitMix64) :=
  if k <=? 0 then Done ([], g) else
  if zlen indices <=? k then Done (indices, g) else
  tirer (take (Z.to_nat k) indices) (drop (Z.to_nat k) indices) k k g.

Definition prioritaire (e : OracleVectorEntry) : bool := SeverityHigh <=? OSeverity e.
(** The indices, from [i] on, of the states of a channel. *)
Fixpoint indices_de (p : OracleVectorEntry -> bool) (i : Z) (es : list OracleVectorEntry) : list Z :=
  match es with
  | [] => []
  | e :: es => if p e then i :: indices_de p (i + 1) es else indices_de p (i + 1) es
  end.

Fixpoint prendre (es : list OracleVectorEntry) (keep : list Z) : run (list OracleVectorEntry) :=
  match keep with
  | [] => Done []
  | i :: keep => e ← idx es i; r ← prendre es keep; Done (e :: r)
  end.
Definition sampleOracleEntries (es : list OracleVectorEntry) (capacity : Z) (g : splitMix64) : run (list OracleVectorEntry) :=
  '(keep, g) ← reservoirIndices (indices_de prioritaire 0 es) capacity g;
  '(keep2, _) ← reservoirIndices (indices_de (fun e => negb (prioritaire e)) 0 es) (capacity - zlen keep) g;
  prendre es (merge_sort Z.le (keep ++ keep2)).

(** ** Merging *)

(** [out] is built in reverse order; [seen] holds the encodings. *)
Definition fusionner (nouveau : bool) (s : gset (list Z) * list OracleVectorEntry * Z) (e : OracleVectorEntry) : gset (list Z) * list OracleVectorEntry * Z :=
  let '(seen, out, dup) := s in
  let key := EncodeOracleVectorEntry e in
  if decide (key ∈ seen) then (seen, out, if nouveau then dup + 1 else dup) else ({[key]} ∪ seen, e :: out, dup).
Definition mergeOracleEntries (base fresh : list OracleVectorEntry) : list OracleVectorEntry * Z :=
  let '(_, out, dup) := fold_left (fusionner true) fresh (fold_left (fusionner false) base (∅, [], 0)) in
  (reverse out, dup).

Section silo.
Context (sha256 : list Z -> list Z) (hmac_sha256 : list Z -> list Z -> list Z).
(** Whether the system accepts the write of the file of a day. *)
Variable ecrit : Z -> bool.
Notation charger := (LoadOracleDayHMAC sha256 hmac_sha256).
Notation sauver := (SaveOracleDayHMAC sha256 hmac_sha256).

(** ** The files *)

Record existingOracleDay := Existing { x_hdr : OracleDailyHeader; x_entries : list OracleVectorEntry; unauthenticated : bool }.

Definition loadExistingDay (d : disque) (machineID day : Z) (key : list Z) : option existingOracleDay + erreur_silo :=
  match jours d !! day with
  | None => inl None
  | Some l =>
      let suite hdr es nu := if negb (OMachineID hdr =? machineID) || negb (EpochDay hdr =? day) then inr ErrEtranger else inl (Some (Existing hdr es nu)) in
      match charger l key with
      | inr (hdr, es) => suite hdr es false
      | inl (ErrOracleUnkeyed, Some hdr) => suite hdr [] true
      | inl (e, _) => inr (ErrIllisible e)
      end
  end.

(** A file of an older version is kept aside; an archive of other contents is never
    overwritten. *)
Definition archiveLegacyDay (d : disque) (day version : Z) : disque + erreur_silo :=
  match jours d !! day with
  | None => inl d
  | Some l =>
      match archives d !! (day, version) with
      | None => inl (Disque (jours d) (<[(day, version) := l]> (archives d)))
      | Some a => if egaux a l then inl d else inr ErrArchive
      end
  end.

(** The header that was written comes back with the new directory. *)
Definition writeOracleDayAtomic (d : disque) (day : Z) (hdr : OracleDailyHeader) (es : list OracleVectorEntry) (key : list Z)
  : (disque * OracleDailyHeader) + erreur_silo :=
  match sauver (Some hdr) es key with
  | inl e => inr (ErrSauvegarde e)
  | inr (hdr, image) => if ecrit day then inl (Disque (<[day := image]> (jours d)) (archives d), hdr) else inr ErrEcriture
  end.

(** [oracleDayFiles]: the days in increasing order. *)
Definition storedDayFilesLocked (d : disque) : list (Z * list Z) := (fun j => (j, default [] (jours d !! j))) <$> merge_sort Z.le ((map_to_list (jours d)).*1).

(** The day of the file is the one of its name. *)
Definition lire_jour (c : SiloConfig) (f : Z * list Z) : option (OracleDailyHeader * list OracleVectorEntry) :=
  match charger (snd f) (HMACKey c) with
  | inl _ => None
  | inr (hdr, es) => if (OVersion hdr =? OracleVersion) && (OMachineID hdr =? MachineID c) && (EpochDay hdr =? fst f) then Some (hdr, es) else None
  end.

Definition prevDaySealLocked (s : DailyOracleSilo) (d : disque) (day : Z) : list Z :=
  match last (filter (fun f => fst f < day) (storedDayFilesLocked d)) with
  | None => zeros32
  | Some prev =>
      let relu := match lire_jour (cfg s) prev with Some (hdr, _) => OSeal hdr | None => zeros32 end in
      match chaine s with
      | Some (j, seal) => if j =? fst prev then seal else relu
      | None => relu
      end
  end.

Definition avec_chaine (s : DailyOracleSilo) (c : option (Z * list Z)) : DailyOracleSilo :=
  Silo (cfg s) (currentDay s) (hasCurrentDay s) (currentStartTs s) (currentEntries s) (currentPriority s) (currentNormalSeen s) (currentPrioritySeen s)
    (currentObserved s) (sampler s) (currentDroppedFlags s) c (totalIngested s) (totalRotations s) (totalDropped s).
Definition avec_precedent (h : OracleDailyHeader) (seal : list Z) : OracleDailyHeader :=
  OHeader (OMagic h) (OVersion h) (OVectorDim h) (EpochDay h) (StartTsSec h) (EndTsSec h) (VectorCount h) (AverageScore h) (OFlags h)
    (OMachineID h) seal (OSeal h) (ObservedCount h) (OReserved h).

(** The later files, one after the other. *)
Fixpoint relier (s : DailyOracleSilo) (d : disque) (files : list (Z * list Z)) (day : Z) (seal : list Z) : DailyOracleSilo * disque * option erreur_silo :=
  match files with
  | [] => (s, d, None)
  | f :: files =>
      if fst f <=? day then relier s d files day seal else
      match lire_jour (cfg s) f with
      | None => (s, d, None)
      | Some (hdr, es) =>
          if egaux (PrevDaySeal hdr) seal then (s, d, None) else
          match writeOracleDayAtomic d (fst f) (avec_precedent hdr seal) es (HMACKey (cfg s)) with
          | inr e => (s, d, Some e)
          | inl (d, hdr) => relier (avec_chaine s (Some (fst f, OSeal hdr))) d files (fst f) (OSeal hdr)
          end
      end
  end.
Definition relinkSuccessorsLocked (s : DailyOracleSilo) (d : disque) (day : Z) (seal : list Z) : DailyOracleSilo * disque * option erreur_silo :=
  relier s d (storedDayFilesLocked d) day seal.

(** ** Sealing *)

Definition drapeaux_etats (es : list OracleVectorEntry) (flags : Z) : Z :=
  fold_left (fun f e =>
    let f := if OHealthScore e <? DegradedHealthScore then Z.lor f OracleFlagDegraded else f in
    if prioritaire e then Z.lor f OracleFlagAnomalies else f) es flags.
Definition drapeaux_repris : Z :=
  Z.lor OracleFlagMaintenance (Z.lor OracleFlagSaturated (Z.lor OracleFlagSampled (Z.lor OracleFlagDegraded OracleFlagAnomalies))).

(** The existing day once the older version is put aside. *)
Definition reprendre (d : disque) (day : Z) (merged : option existingOracleDay) : (disque * option existingOracleDay) + erreur_silo :=
  match merged with
  | None => inl (d, None)
  | Some m =>
      if OVersion (x_hdr m) =? OracleVersion then inl (d, merged) else
      match archiveLegacyDay d day (OVersion (x_hdr m)) with
      | inr e => inr e
      | inl d => inl (d, if unauthenticated m then None else Some (Existing (x_hdr m) [] false))
      end
  end.

(** The header and the states of the sealed day, with the number left out. *)
Definition preparer (s : DailyOracleSilo) (d : disque) (merged : option existingOracleDay) (endTsSec : Z) : run (OracleDailyHeader * list OracleVectorEntry * Z) :=
  let '(startTs, endTs, prevFlags, prevObserved) := match merged with
    | None => (currentStartTs s, endTsSec, 0, 0)
    | Some m => (Z.min (currentStartTs s) (StartTsSec (x_hdr m)), Z.max endTsSec (EndTsSec (x_hdr m)), Z.land (OFlags (x_hdr m)) drapeaux_repris,
                 if OVersion (x_hdr m) =? OracleVersion then ObservedCount (x_hdr m) else 0)
    end in
  let fresh := currentEntries s ++ currentPriority s in
  let '(es, dupFresh) := mergeOracleEntries (match merged with None => [] | Some m => x_entries m end) fresh in
  let flags := drapeaux_etats es (Z.lor (Z.lor OracleFlagSealed prevFlags) (currentDroppedFlags s)) in
  let observed := Z.max (zlen es) (u64 (prevObserved + currentObserved s - dupFresh)) in
  let trop := OracleMaxVectorCount <? zlen es in
  let dropped := if trop then zlen es - OracleMaxVectorCount else 0 in
  es ← (if trop then sampleOracleEntries es OracleMaxVectorCount (Z.lxor (samplerSeed (MachineID (cfg s)) (currentDay s)) 0x5EA15EA15EA15EA1) else Done es);
  let flags := if trop then Z.lor flags (Z.lor OracleFlagSaturated OracleFlagSampled) else flags in
  if zlen es =? 0 then Panic else
  let avg := u16 (u64 (somme (OHealthScore <$> es)) / zlen es) in
  Done (OHeader (replicate 8 0) 0 0 (currentDay s) startTs endTs (u32 (zlen es)) avg flags (MachineID (cfg s)) (prevDaySealLocked s d (currentDay s)) zeros32 (Z.min observed (2 ^ 32 - 1)) zeros12,
        es, dropped).

Definition vider (s : DailyOracleSilo) : DailyOracleSilo :=
  Silo (cfg s) (currentDay s) (hasCurrentDay s) (currentStartTs s) [] [] (currentNormalSeen s) (currentPrioritySeen s) 0 (sampler s) 0
    (chaine s) (totalIngested s) (totalRotations s) (totalDropped s).
Definition avec_ecartees (s : DailyOracleSilo) (n : Z) : DailyOracleSilo :=
  Silo (cfg s) (currentDay s) (hasCurrentDay s) (currentStartTs s) (currentEntries s) (currentPriority s) (currentNormalSeen s) (currentPrioritySeen s)
    (currentObserved s) (sampler s) (currentDroppedFlags s) (chaine s) (totalIngested s) (totalRotations s) (u64 (totalDropped s + n)).

Definition sealCurrentDayLocked (s : DailyOracleSilo) (d : disque) (endTsSec : Z) : run (DailyOracleSilo * disque * option erreur_silo) :=
  if zlen (currentEntries s) + zlen (currentPriority s) =? 0 then Done (s, d, None) else
  let endTsSec := if endTsSec <=? currentStartTs s then u64 (currentStartTs s + 86400) else endTsSec in
  match loadExistingDay d (MachineID (cfg s)) (currentDay s) (HMACKey (cfg s)) with
  | inr e => Done (s, d, Some e)
  | inl merged =>
      match reprendre d (currentDay s) merged with
      | inr e => Done (s, d, Some e)
      | inl (d, merged) =>
          '(hdr, es, dropped) ← preparer s d merged endTsSec;
          match writeOracleDayAtomic d (currentDay s) hdr es (HMACKey (cfg s)) with
          | inr e => Done (s, d, Some e)
          | inl (d, hdr) =>
              let s := avec_ecartees (avec_chaine s (Some (currentDay s, OSeal hdr))) dropped in
              let '(s, d, err) := relinkSuccessorsLocked s d (currentDay s) (OSeal hdr) in
              Done (match err with Some _ => s | None => vider s end, d, err)
          end
      end
  end.
Definition SealDay := sealCurrentDayLocked.

(** ** Ingestion *)

Definition etat_de (snap : ServerHealthSnapshot) (code : list Z) : OracleVectorEntry :=
  OEntry code (u32 (TimestampSec snap mod 86400)) (Subsystem snap) (HealthScore snap) (Severity snap) (CorrelatedCount snap)
    (Z.lor (if HealthScore snap <? DegradedHealthScore then OracleFlagDegraded else 0) (if SeverityHigh <=? Severity snap then OracleFlagAnomalies else 0)) 0.

(** The two channels, the flags, the generator and the number left out once the day
    is full. *)
Definition remplacer (s : DailyOracleSilo) (entry : OracleVectorEntry) (priority : bool) : run (list OracleVectorEntry * list OracleVectorEntry * splitMix64) :=
  let ne := currentEntries s in let pe := currentPriority s in
  if priority && (0 <? zlen ne) then
    let '(g, j) := below (sampler s) (zlen ne) in
    let last := zlen ne - 1 in
    x ← idx ne last; ne' ← upd ne j x; ne' ← slice ne' 0 last;
    Done (ne', pe ++ [entry], g)
  else if priority then
    let '(g, j) := below (sampler s) (currentPrioritySeen s) in
    pe' ← (if j <? zlen pe then upd pe j entry else Done pe);
    Done (ne, pe', g)
  else
    let '(g, j) := below (sampler s) (currentNormalSeen s) in
    ne' ← (if j <? zlen ne then upd ne j entry else Done ne);
    Done (ne', pe, g).

(** The state once the day is the one of the snapshot. *)
Definition incorporer (s : DailyOracleSilo) (entry : OracleVectorEntry) (priority : bool) : run DailyOracleSilo :=
  let s := Silo (cfg s) (currentDay s) (hasCurrentDay s) (currentStartTs s) (currentEntries s) (currentPriority s)
    (if priority then currentNormalSeen s else u64 (currentNormalSeen s + 1)) (if priority then u64 (currentPrioritySeen s + 1) else currentPrioritySeen s)
    (u64 (currentObserved s + 1)) (sampler s) (currentDroppedFlags s) (chaine s) (u64 (totalIngested s + 1)) (totalRotations s) (totalDropped s) in
  if zlen (currentEntries s) + zlen (currentPriority s) <? OracleMaxVectorCount then
    Done (Silo (cfg s) (currentDay s) (hasCurrentDay s) (currentStartTs s) (if priority then currentEntries s else currentEntries s ++ [entry])
      (if priority then currentPriority s ++ [entry] else currentPriority s) (currentNormalSeen s) (currentPrioritySeen s) (currentObserved s) (sampler s)
      (currentDroppedFlags s) (chaine s) (totalIngested s) (totalRotations s) (totalDropped s))
  else
    '(ne, pe, g) ← remplacer s entry priority;
    Done (Silo (cfg s) (currentDay s) (hasCurrentDay s) (currentStartTs s) ne pe (currentNormalSeen s) (currentPrioritySeen s) (currentObserved s) g
      (Z.lor (currentDroppedFlags s) (Z.lor (Z.lor OracleFlagSaturated OracleFlagSampled) (EFlags entry))) (chaine s) (totalIngested s) (totalRotations s)
      (u64 (totalDropped s + 1))).

Definition avec_rotation (s : DailyOracleSilo) : DailyOracleSilo :=
  Silo (cfg s) (currentDay s) (hasCurrentDay s) (currentStartTs s) (currentEntries s) (currentPriority s) (currentNormalSeen s) (currentPrioritySeen s)
    (currentObserved s) (sampler s) (currentDroppedFlags s) (chaine s) (totalIngested s) (u64 (totalRotations s + 1)) (totalDropped s).

Definition IngestSnapshot (s : DailyOracleSilo) (d : disque) (snap : option ServerHealthSnapshot) : run (DailyOracleSilo * disque * option erreur_silo) :=
  match snap with
  | None => Done (s, d, Some ErrSnapshotNil)
  | Some snap =>
      let day := u32 (TimestampSec snap / 86400) in
      '(s, d, err) ← (if negb (hasCurrentDay s) then Done (openDayLocked s day (TimestampSec snap), d, None)
        else if negb (day =? currentDay s) then
          '(s, d, err) ← sealCurrentDayLocked s d (TimestampSec snap);
          match err with
          | Some e => Done (s, d, Some (ErrRotation e))
          | None => Done (avec_rotation (openDayLocked s day (TimestampSec snap)), d, None)
          end
        else Done (s, d, None));
      match err with
      | Some e => Done (s, d, Some e)
      | None =>
          code ← vectoriser snap;
          s ← incorporer s (etat_de snap code) (SeverityHigh <=? Severity snap);
          Done (s, d, None)
      end
  end.

(** ** The verification of the chain *)

Inductive raison := Illisible (e : erreur_oracle) | Contredit | Maillon.
Fixpoint verifier (c : SiloConfig) (files : list (Z * list Z)) (prev : option (list Z)) : list (Z * raison) :=
  match files with
  | [] => []
  | f :: files =>
      match charger (snd f) (HMACKey c) with
      | inl (e, _) => (fst f, Illisible e) :: verifier c files None
      | inr (hdr, _) =>
          if negb (OVersion hdr =? OracleVersion) then verifier c files prev else
          if negb (OMachineID hdr =? MachineID c) || negb (EpochDay hdr =? fst f) then (fst f, Contredit) :: verifier c files None else
          let rompu := match prev with Some seal => negb (egaux (PrevDaySeal hdr) seal) | None => false end in
          (if rompu then [(fst f, Maillon)] else []) ++ verifier c files (Some (OSeal hdr))
      end
  end.
Definition VerifyOracleChain (s : DailyOracleSilo) (d : disque) : list (Z * raison) := verifier (cfg s) (storedDayFilesLocked d) None.

(** ** The baseline *)

Definition baselineAdmissible (es : list OracleVectorEntry) : list OracleVectorEntry :=
  filter (fun e => negb (prioritaire e || (OHealthScore e <? DegradedHealthScore) || negb (Z.land (EFlags e) (Z.lor OracleFlagAnomalies OracleFlagDegraded) =? 0))) es.

Record baselineDay := BDay { b_epochDay : Z; b_entries : list OracleVectorEntry; b_weight : f64 }.

(** One file; the error is the one remembered. *)
Definition admettre_jour (c : SiloConfig) (f : Z * list Z) : option baselineDay + erreur_oracle :=
  match charger (snd f) (HMACKey c) with
  | inl (e, _) => inr e
  | inr (hdr, es) =>
      if negb (OMachineID hdr =? MachineID c) || negb (OVersion hdr =? OracleVersion) || negb (EpochDay hdr =? fst f) then inl None else
      if negb (Z.land (OFlags hdr) OracleFlagSaturated =? 0) && (Z.land (OFlags hdr) OracleFlagSampled =? 0) then inl None else
      if BaselineExcludeAnomalousDays c && negb (Z.land (OFlags hdr) OracleFlagAnomalies =? 0) then inl None else
      let weight := if negb (Z.land (OFlags hdr) OracleFlagSampled =? 0) && (0 <? VectorCount hdr) && (VectorCount hdr <? ObservedCount hdr)
        then fdiv (f_of_Z (ObservedCount hdr)) (f_of_Z (VectorCount hdr)) else f_of_Z 1 in
      inl (Some (BDay (fst f) es weight))
  end.
Fixpoint admettre (c : SiloConfig) (files : list (Z * list Z)) : list baselineDay * option erreur_oracle :=
  match files with
  | [] => ([], None)
  | f :: files =>
      let '(days, err) := admettre c files in
      match admettre_jour c f with
      | inr e => (days, match err with Some _ => err | None => Some e end)
      | inl None => (days, err)
      | inl (Some b) => (b :: days, err)
      end
  end.
Definition loadBaselineDaysLocked (s : DailyOracleSilo) (d : disque) (maxDays : Z) : list baselineDay + option erreur_oracle :=
  let files := storedDayFilesLocked d in
  let files := if (0 <? maxDays) && (maxDays <? zlen files) then drop (Z.to_nat (zlen files - maxDays)) files else files in
  let '(days, lastErr) := admettre (cfg s) files in
  if (0 <? zlen files) && (zlen days =? 0) then inr lastErr else inl days.
Definition BuildServerBaseline (s : DailyOracleSilo) (d : disque) (maxDays : Z) : run (ServerBaselineOracle + option erreur_oracle) :=
  match loadBaselineDaysLocked s d maxDays with
  | inr e => Done (inr e)
  | inl days =>
      o ← ingerer_jours (NewServerBaselineOracle (MachineID (cfg s)) (NominalDist (cfg s))) ((fun b => (baselineAdmissible (b_entries b), b_weight b)) <$> days);
      Done (inl o)
  end.

Definition Stats (s : DailyOracleSilo) : Z * Z * Z * Z := (currentDay s, zlen (currentEntries s) + zlen (currentPriority s), totalIngested s, totalRotations s).
Definition Dropped (s : DailyOracleSilo) : Z := totalDropped s.
End silo.

(** * The day in progress *)

Definition K : Z := OracleMaxVectorCount.
Definition en_attente (s : DailyOracleSilo) : list OracleVectorEntry := currentEntries s ++ currentPriority s.
Definition nb_prioritaires (l : list OracleVectorEntry) : Z := zlen (filter (fun e => prioritaire e = true) l).
(** The flag that says that states were left out. *)
Definition marque (flags : Z) : bool := negb (Z.land flags OracleFlagSaturated =? 0).

Lemma drapeau_bit f : marque f = Z.testbit f 4.
Proof.
  unfold marque. replace (Z.land f OracleFlagSaturated) with (if Z.testbit f 4 then 2 ^ 4 else 0); [by destruct (Z.testbit f 4)|].
  apply Z.bits_inj'. intros i Hi. rewrite Z.land_spec. change OracleFlagSaturated with (2 ^ 4). rewrite Z.pow2_bits_eqb by lia.
  destruct (Z.eqb_spec 4 i) as [<-|]; [|rewrite andb_false_r]; destruct (Z.testbit f 4); try done; rewrite ?Z.pow2_bits_eqb, ?Z.bits_0 by lia; [by apply Z.eqb_neq|done].
Qed.
Lemma marque_lor f g : marque (Z.lor f g) = marque f || marque g.
Proof. rewrite !drapeau_bit. apply Z.lor_spec. Qed.

Lemma below_borne g n : 0 <= n -> 0 <= snd (below g n) /\ (0 < n -> snd (below g n) < n).
Proof.
  intros Hn. unfold below, next. cbn [snd]. pose proof (splitmix64_range g) as H. unfold is_u64 in H.
  split; [apply Z.div_pos; nia|]. intros Hp. apply Z.div_lt_upper_bound; nia.
Qed.

Record en_cours (s : DailyOracleSilo) : Prop := {
  ec_plein : zlen (en_attente s) <= K;
  ec_ordinaires : Forall (fun e => prioritaire e = false) (currentEntries s);
  ec_prioritaires : Forall (fun e => prioritaire e = true) (currentPriority s);
  ec_vide : en_attente s = [] -> currentDroppedFlags s = 0;
  ec_vus : 0 <= currentNormalSeen s /\ 0 <= currentPrioritySeen s
}.

Lemma filtre_classes ne pe : Forall (fun e => prioritaire e = false) ne -> Forall (fun e => prioritaire e = true) pe ->
  filter (fun e => prioritaire e = true) (ne ++ pe) = pe.
Proof.
  intros Hn Hp. rewrite filter_app. assert (filter (fun e => prioritaire e = true) ne = []) as ->.
  { induction Hn as [|e ne He _ IH]; [done|]. rewrite filter_cons, decide_False by congruence. done. }
  cbn. induction Hp as [|e pe He _ IH]; [done|]. by rewrite filter_cons, decide_True, IH.
Qed.

Lemma zlen_perm {A} (l k : list A) : l ≡ₚ k -> zlen l = zlen k.
Proof. intros H. unfold zlen. by rewrite H. Qed.

(** Removing the drawn element by moving the last one into its place. *)
Lemma retirer {A} (l : list A) x j : zlen l = j + 1 -> forall i y, 0 <= i <= j -> l !! Z.to_nat j = Some x -> l !! Z.to_nat i = Some y ->
  l ≡ₚ y :: take (Z.to_nat j) (<[Z.to_nat i := x]> l).
Proof.
  intros Hl i y Hi Hx Hy. assert (length l = S (Z.to_nat j)) as Hn by (unfold zlen in Hl; lia).
  assert (l = take (Z.to_nat j) l ++ [x]) as E.
  { rewrite <- (take_drop_middle l _ _ Hx) at 1. rewrite drop_ge by lia. done. }
  destruct (decide (i = j)) as [->|Hij].
  - rewrite take_insert_ge by lia. rewrite Hx in Hy. injection Hy as ->. rewrite E at 1. by rewrite Permutation_app_comm.
  - rewrite take_insert_lt by lia. assert (take (Z.to_nat j) l !! Z.to_nat i = Some y) as Hy' by (rewrite lookup_take_lt by lia; done).
    rewrite E at 1. rewrite (insert_take_drop (take (Z.to_nat j) l) _ _ (lookup_lt_Some _ _ _ Hy')).
    rewrite <- (take_drop_middle _ _ _ Hy') at 1. rewrite <- !app_assoc. cbn [app].
    etransitivity; [symmetry; apply Permutation_middle|]. constructor. apply Permutation_app_head. by rewrite Permutation_app_comm.
Qed.

Lemma poser_sous {A} (l : list A) i x : (i < length l)%nat -> <[i := x]> l ⊆+ x :: l.
Proof.
  intros Hi. destruct (lookup_lt_is_Some_2 l i Hi) as [y Hy]. rewrite (insert_take_drop _ _ _ Hi).
  rewrite <- (take_drop_middle _ _ _ Hy) at 3. rewrite <- !Permutation_middle. apply submseteq_skip. by apply submseteq_cons.
Qed.

(** The replacement, on a full day. *)
Lemma remplacer_ok s e : en_cours s -> zlen (en_attente s) = K ->
  wp (remplacer s e (prioritaire e)) (fun '(ne, pe, _) =>
    zlen (ne ++ pe) = K /\ Forall (fun e => prioritaire e = false) ne /\ Forall (fun e => prioritaire e = true) pe /\
    ne ++ pe ⊆+ e :: en_attente s /\
    (nb_prioritaires (en_attente s) + (if prioritaire e then 1 else 0) <= K -> forall x, x ∈ e :: en_attente s -> prioritaire x = true -> x ∈ ne ++ pe)).
Proof.
  intros [_ Ho Hp _ [H1 H0]] Hz. unfold remplacer, nb_prioritaires. unfold en_attente in *. rewrite filtre_classes by done.
  pose proof (zlen_nonneg (currentEntries s)). pose proof (zlen_nonneg (currentPriority s)). rewrite zlen_app in Hz.
  assert (forall x, x ∈ currentEntries s -> prioritaire x = true -> False) as Hno by (intros x Hx; rewrite (proj1 (Forall_forall _ _) Ho x Hx); done).
  destruct (prioritaire e) eqn:Ep; cbn [andb].
  - destruct (Z.ltb_spec 0 (zlen (currentEntries s))) as [Hne|Hne].
    + pose proof (below_borne (sampler s) _ (Z.lt_le_incl _ _ Hne)) as [Hj Hj']. specialize (Hj' Hne). destruct (below (sampler s) _) as [g j]. cbn [snd] in Hj, Hj'.
      apply wp_bind, wp_idx; [lia|]. intros x Hx. apply wp_bind, wp_upd; [lia|]. apply wp_bind, wp_slice; [lia|rewrite zlen_insert; lia|]. apply wp_done.
      destruct (lookup_lt_is_Some_2 (currentEntries s) (Z.to_nat j)) as [y Hy]; [unfold zlen in *; lia|].
      pose proof (retirer (currentEntries s) x (zlen (currentEntries s) - 1) ltac:(lia) j y ltac:(lia) Hx Hy) as Hperm.
      change (Z.to_nat 0) with 0%nat. rewrite drop_0, Z.sub_0_r. set (ne' := take _ _) in *.
      assert (zlen ne' = zlen (currentEntries s) - 1) as Hz' by (apply Permutation_length in Hperm; unfold zlen in *; cbn in Hperm; lia).
      rewrite !zlen_app. change (zlen [e]) with 1. split; [lia|]. split; [rewrite Hperm in Ho; by apply Forall_cons in Ho as [_ Ho]|].
      split; [apply Forall_app; split; [done|by constructor]|]. split.
      * rewrite Hperm, app_assoc, Permutation_app_comm. cbn. apply submseteq_skip. by apply submseteq_cons.
      * intros _ z [->|Hz2]%elem_of_cons Hzp; rewrite !elem_of_app; [right; right; by left|]. apply elem_of_app in Hz2 as [Hz2|Hz2]; [by destruct (Hno z)|tauto].
    + pose proof (below_borne (sampler s) _ H0) as [Hj _]. destruct (below (sampler s) (currentPrioritySeen s)) as [g j]. cbn [snd] in Hj.
      apply wp_bind. destruct (Z.ltb_spec j (zlen (currentPriority s))) as [Hjl|Hjl].
      * apply wp_upd; [lia|]. apply wp_done. rewrite zlen_app, zlen_insert. split; [lia|]. split; [done|]. split; [by apply Forall_insert|]. split; [|lia].
        etransitivity; [apply submseteq_skips_l, poser_sous; unfold zlen in *; lia|]. by rewrite <- Permutation_middle.
      * apply wp_done, wp_done. rewrite zlen_app. split; [lia|]. split; [done|]. split; [done|]. split; [by apply submseteq_cons|lia].
  - pose proof (below_borne (sampler s) _ H1) as [Hj _]. destruct (below (sampler s) (currentNormalSeen s)) as [g j]. cbn [snd] in Hj.
    apply wp_bind. assert (forall x, x ∈ e :: currentEntries s ++ currentPriority s -> prioritaire x = true -> x ∈ currentPriority s) as Hk.
    { intros x [->|[Hx|Hx]%elem_of_app]%elem_of_cons Hxp; [congruence|by destruct (Hno x)|done]. }
    destruct (Z.ltb_spec j (zlen (currentEntries s))) as [Hjl|Hjl].
    + apply wp_upd; [lia|]. apply wp_done. rewrite zlen_app, zlen_insert. split; [lia|]. split; [by apply Forall_insert|]. split; [done|].
      split; [|intros _ x Hx Hxp; apply elem_of_app; right; by apply Hk]. exact (submseteq_skips_r (currentPriority s) _ _ (poser_sous (currentEntries s) (Z.to_nat j) e ltac:(unfold zlen in *; lia))).
    + apply wp_done, wp_done. rewrite zlen_app. split; [lia|]. split; [done|]. split; [done|]. split; [by apply submseteq_cons|].
      intros _ x Hx Hxp. apply elem_of_app. right. by apply Hk.
Qed.

(** What no operation on the day in progress changes. *)
Definition meme_jour (s s' : DailyOracleSilo) : Prop :=
  cfg s' = cfg s /\ currentDay s' = currentDay s /\ hasCurrentDay s' = hasCurrentDay s /\ currentStartTs s' = currentStartTs s /\ chaine s' = chaine s.

Lemma incorporer_ok s e : en_cours s -> wp (incorporer s e (prioritaire e)) (fun s' =>
  meme_jour s s' /\ en_cours s' /\ en_attente s' ⊆+ e :: en_attente s /\
  (nb_prioritaires (e :: en_attente s) <= K -> forall x, x ∈ e :: en_attente s -> prioritaire x = true -> x ∈ en_attente s') /\
  (marque (currentDroppedFlags s') = false -> en_attente s' ≡ₚ e :: en_attente s) /\
  (zlen (en_attente s) + 1 <= K -> currentDroppedFlags s' = currentDroppedFlags s) /\
  (marque (currentDroppedFlags s) = true -> marque (currentDroppedFlags s') = true) /\
  (currentDroppedFlags s' = currentDroppedFlags s \/ currentDroppedFlags s' = Z.lor (currentDroppedFlags s) (Z.lor (Z.lor OracleFlagSaturated OracleFlagSampled) (EFlags e)))).
Proof.
  intros Hs. pose proof Hs as [H1 H2 H3 H4 [H5 H6]]. unfold incorporer. set (s1 := Silo _ _ _ _ _ _ _ _ _ _ _ _ _ _ _).
  assert (en_cours s1) as Hs1 by (split; [done..|]; unfold s1; cbn; destruct (prioritaire e); split; try done; apply Z.mod_pos_bound; lia). assert (en_attente s1 = en_attente s) as E1 by done. rewrite <- E1. rewrite <- zlen_app. fold (en_attente s1).
  change OracleMaxVectorCount with K. destruct (Z.ltb_spec (zlen (en_attente s1)) K) as [Hlt|Hge].
  - apply wp_done. set (s2 := Silo _ _ _ _ _ _ _ _ _ _ _ _ _ _ _).
    assert (en_attente s2 ≡ₚ e :: en_attente s1) as Hp.
    { unfold en_attente, s2. cbn. destruct (prioritaire e); [rewrite app_assoc, Permutation_app_comm; done|rewrite <- app_assoc; cbn; by rewrite <- Permutation_middle]. }
    assert (zlen (en_attente s2) = zlen (en_attente s1) + 1) as Hz by (rewrite (zlen_perm _ _ Hp), zlen_cons; lia).
    split; [done|]. split; [split|].
    + lia.
    + cbn. destruct (prioritaire e) eqn:Ep; [done|]. apply Forall_app. split; [done|by constructor].
    + cbn. destruct (prioritaire e) eqn:Ep; [|done]. apply Forall_app. split; [done|by constructor].
    + intros E. rewrite E in Hz. change (zlen []) with 0 in Hz. pose proof (zlen_nonneg (en_attente s1)). lia.
    + exact (ec_vus _ Hs1).
    + split; [by rewrite Hp|]. split; [intros _ x Hx _; by rewrite Hp|]. split; [done|]. split; [done|]. split; [done|by left].
  - assert (zlen (en_attente s1) = K) as Hz by (destruct Hs1; lia). apply wp_bind. eapply wp_mono; [apply (remplacer_ok s1 e Hs1 Hz)|].
    + intros [[ne pe] g] (R1 & R2 & R3 & R4 & R5). apply wp_done. split; [done|]. split; [split; cbn; [unfold en_attente; cbn; lia|done|done| |exact (ec_vus _ Hs1)]|].
      { unfold en_attente. cbn. intros E. rewrite E in R1. done. }
      unfold en_attente at 1. cbn [currentEntries currentPriority]. split; [done|]. split.
      { intros Hn. apply R5. revert Hn. unfold nb_prioritaires. rewrite filter_cons. destruct (prioritaire e); cbn [decide]; rewrite ?zlen_cons; [|].
        - rewrite decide_True by done. rewrite zlen_cons. lia.
        - rewrite decide_False by done. lia. }
      cbn [currentDroppedFlags]. rewrite !marque_lor. change (marque OracleFlagSaturated) with true. rewrite !orb_true_r. cbn [orb].
      split; [done|]. split; [lia|]. split; [done|by right].
Qed.

(** * Sampling at the sealing *)

Lemma tirer_ok reste : forall res n k g vus, zlen res = k -> 0 <= n -> res ⊆+ vus ->
  wp (tirer res reste n k g) (fun '(r, _) => zlen r = k /\ r ⊆+ vus ++ reste).
Proof.
  induction reste as [|x reste IH]; intros res n k g vus Hr Hn Hs; cbn [tirer]; [apply wp_done; by rewrite app_nil_r|].
  pose proof (below_borne g (n + 1) ltac:(lia)) as [Hj _]. destruct (below g (n + 1)) as [g' j]. cbn [snd] in Hj. apply wp_bind.
  rewrite (cons_middle x vus reste), app_assoc. destruct (Z.ltb_spec j k) as [Hjk|Hjk].
  - apply wp_upd; [lia|]. apply IH; [by rewrite zlen_insert|lia|]. rewrite <- Permutation_cons_append.
    etransitivity; [apply poser_sous; unfold zlen in *; lia|by apply submseteq_skip].
  - apply wp_done. apply IH; [done|lia|]. by apply submseteq_inserts_r.
Qed.

Lemma reservoir_ok l k g : 0 <= k -> wp (reservoirIndices l k g) (fun '(r, _) => zlen r = Z.min k (zlen l) /\ r ⊆+ l /\ (zlen l <= k -> r = l)).
Proof.
  intros Hk. pose proof (zlen_nonneg l). unfold reservoirIndices. destruct (Z.leb_spec k 0).
  { apply wp_done. split; [change (zlen []) with 0; lia|]. split; [apply submseteq_nil_l|]. intros Hl. symmetry. apply length_zero_iff_nil. unfold zlen in *; lia. }
  destruct (Z.leb_spec (zlen l) k); [apply wp_done; split; [lia|done]|].
  assert (zlen (take (Z.to_nat k) l) = k) as Ht by (unfold zlen in *; rewrite length_take; lia).
  eapply wp_mono; [by apply (tirer_ok _ _ _ _ _ (take (Z.to_nat k) l))|]. intros [r g'] [Hr Hs]. rewrite take_drop in Hs. split; [lia|]. split; [done|lia].
Qed.

Lemma indices_de_ok p es : forall i x, x ∈ indices_de p i es <-> exists e, es !! Z.to_nat (x - i) = Some e /\ i <= x /\ p e = true.
Proof.
  induction es as [|e es IH]; intros i x; cbn [indices_de].
  - rewrite elem_of_nil, lookup_nil. split; [done|]. by intros (? & ? & _).
  - assert (x ∈ indices_de p (i + 1) es <-> exists e', (e :: es) !! Z.to_nat (x - i) = Some e' /\ i < x /\ p e' = true) as E.
    { rewrite IH. split; intros (e' & H & Hi & Hp); exists e'; (split; [|split; [lia|done]]).
      - by replace (Z.to_nat (x - i)) with (S (Z.to_nat (x - (i + 1)))) by lia.
      - by replace (Z.to_nat (x - i)) with (S (Z.to_nat (x - (i + 1)))) in H by lia. }
    destruct (p e) eqn:Ep; rewrite ?elem_of_cons, E; split.
    + intros [->|(e' & H & Hi & Hp)]; [exists e; rewrite Z.sub_diag; done|exists e'; split; [done|]; split; [lia|done]].
    + intros (e' & H & Hi & Hp). destruct (decide (x = i)); [by left|right]. exists e'. split; [done|]. split; [lia|done].
    + intros (e' & H & Hi & Hp). exists e'. split; [done|]. split; [lia|done].
    + intros (e' & H & Hi & Hp). exists e'. split; [done|]. split; [|done]. destruct (decide (x = i)) as [->|]; [|lia]. rewrite Z.sub_diag in H. injection H as ->. by rewrite Ep in Hp.
Qed.

Lemma indices_de_nodup p es : forall i, NoDup (indices_de p i es).
Proof.
  induction es as [|e es IH]; intros i; cbn [indices_de]; [constructor|]. destruct (p e); [|by apply IH]. constructor; [|by apply IH].
  intros (e' & _ & Hi & _)%indices_de_ok. lia.
Qed.

Lemma indices_de_nombre es : forall i j, zlen (indices_de prioritaire i es) + zlen (indices_de (fun e => negb (prioritaire e)) j es) = zlen es /\
  zlen (indices_de prioritaire i es) = nb_prioritaires es.
Proof.
  unfold nb_prioritaires. induction es as [|e es IH]; intros i j; [done|]. destruct (IH (i + 1) (j + 1)) as [H1 H2]. cbn [indices_de].
  rewrite filter_cons. destruct (prioritaire e) eqn:Ep; cbn [negb]; [rewrite decide_True by done|rewrite decide_False by done]; rewrite !zlen_cons; lia.
Qed.

Lemma prendre_ok es keep : Forall (fun i => 0 <= i < zlen es) keep -> exists r, prendre es keep = Done r /\ Forall2 (fun i e => es !! Z.to_nat i = Some e) keep r.
Proof.
  induction 1 as [|i keep Hi _ (r & E & H)]; [by exists []|]. cbn [prendre].
  destruct (lookup_lt_is_Some_2 es (Z.to_nat i)) as [e He]; [unfold zlen in *; lia|]. exists (e :: r). split; [|by constructor].
  by rewrite (idx_lookup _ _ _ (proj1 Hi) He), run_bind_done, E.
Qed.

Lemma sous_nodup {A} (l k : list A) : l ⊆+ k -> NoDup k -> NoDup l.
Proof. intros (m & ->)%submseteq_Permutation. by intros (H & _)%NoDup_app. Qed.

(** A sample is made of distinct states of the list, and keeps the High and Critical
    ones as long as they fit. *)
Lemma echantillon_ok es capacity g : 0 <= capacity < zlen es -> wp (sampleOracleEntries es capacity g) (fun r =>
  zlen r = capacity /\ (forall e, e ∈ r -> e ∈ es) /\ (NoDup es -> NoDup r) /\
  (nb_prioritaires es <= capacity -> forall e, e ∈ es -> prioritaire e = true -> e ∈ r)).
Proof.
  intros Hc. unfold sampleOracleEntries. set (P := indices_de prioritaire 0 es). set (O := indices_de (fun e => negb (prioritaire e)) 0 es).
  destruct (indices_de_nombre es 0 0) as [HP HO]. fold P in HP, HO. fold O in HP.
  apply wp_bind. eapply wp_mono; [apply reservoir_ok; lia|]. intros [k1 g1] (Z1 & S1 & A1). pose proof (zlen_nonneg P).
  apply wp_bind. eapply wp_mono; [apply reservoir_ok; lia|]. intros [k2 g2] (Z2 & S2 & A2). pose proof (zlen_nonneg O).
  pose proof (merge_sort_Permutation Z.le (k1 ++ k2)) as Hperm. set (keep := merge_sort Z.le (k1 ++ k2)) in *.
  assert (forall i, i ∈ keep -> i ∈ P \/ i ∈ O) as Hin.
  { intros i. rewrite Hperm, elem_of_app. intros [H1|H1]; [left; by apply (elem_of_submseteq _ _ _ H1)|right; by apply (elem_of_submseteq _ _ _ H1)]. }
  assert (NoDup keep) as Hnd.
  { rewrite Hperm. apply NoDup_app. split; [apply (sous_nodup _ P); [done|apply indices_de_nodup]|]. split; [|apply (sous_nodup _ O); [done|apply indices_de_nodup]].
    intros i H1 H2. apply (elem_of_submseteq _ _ _ H1), indices_de_ok in S1 as (e & He & _ & Hp). apply (elem_of_submseteq _ _ _ H2), indices_de_ok in S2 as (e' & He' & _ & Hp').
    rewrite He in He'. injection He' as ->. by rewrite Hp in Hp'. }
  destruct (prendre_ok es keep) as (r & -> & Hr).
  { apply Forall_forall. intros i Hi. assert (exists e, es !! Z.to_nat (i - 0) = Some e /\ 0 <= i) as (e & He & Hi0)
      by (destruct (Hin i Hi) as [(e & He & H1 & _)%indices_de_ok|(e & He & H1 & _)%indices_de_ok]; by exists e).
    apply lookup_lt_Some in He. unfold zlen. lia. }
  apply wp_done. split; [|split; [|split]].
  - pose proof (Forall2_length _ _ _ Hr) as Hl. unfold zlen at 1. rewrite <- Hl. fold (zlen keep). rewrite (zlen_perm _ _ Hperm), zlen_app. lia.
  - intros e He. apply list_elem_of_lookup in He as [n He]. destruct (Forall2_lookup_r _ _ _ _ _ Hr He) as (i & _ & Hi). by apply list_elem_of_lookup_2 in Hi.
  - intros Hne. apply NoDup_alt. intros i j e Hi Hj. destruct (Forall2_lookup_r _ _ _ _ _ Hr Hi) as (a & Ha & Ea). destruct (Forall2_lookup_r _ _ _ _ _ Hr Hj) as (b & Hb & Eb).
    assert (Z.to_nat a = Z.to_nat b) as E by (by apply (proj1 (NoDup_alt es) Hne _ _ e)). apply (proj1 (NoDup_alt keep) Hnd _ _ a); [done|].
    assert (0 <= a /\ 0 <= b) as [Ha0 Hb0].
    { apply list_elem_of_lookup_2 in Ha. apply list_elem_of_lookup_2 in Hb. destruct (Hin a Ha) as [(? & _ & ? & _)%indices_de_ok|(? & _ & ? & _)%indices_de_ok],
        (Hin b Hb) as [(? & _ & ? & _)%indices_de_ok|(? & _ & ? & _)%indices_de_ok]; done. }
    by replace a with b by lia.
  - intros Hn e He Hp. apply list_elem_of_lookup in He as [n He]. assert (Z.of_nat n ∈ keep) as Hk.
    { rewrite Hperm, elem_of_app. left. rewrite A1 by lia. apply indices_de_ok. exists e. rewrite Z.sub_0_r, Nat2Z.id. split; [done|]. split; [lia|done]. }
    apply list_elem_of_lookup in Hk as [m Hk]. destruct (Forall2_lookup_l _ _ _ _ _ Hr Hk) as (e' & He' & E). rewrite Nat2Z.id, He in E. injection E as ->.
    by apply list_elem_of_lookup_2 in He'.
Qed.
(** * The directory *)

(** The files of [L], in strictly increasing order of days. *)
Definition trie (L : list (Z * list Z)) : Prop := StronglySorted (fun a b => fst a < fst b) L.
Definition liste (d : disque) (L : list (Z * list Z)) : Prop := trie L /\ forall f, f ∈ L <-> jours d !! fst f = Some (snd f).

Lemma liste_unique L1 L2 : trie L1 -> trie L2 -> (forall f, f ∈ L1 <-> f ∈ L2) -> L1 = L2.
Proof.
  intros H1. revert L2. induction H1 as [|a L1 H1 IH Ha]; intros L2 H2 Hin.
  - destruct L2 as [|b L2]; [done|]. exfalso. apply (not_elem_of_nil b), Hin. by left.
  - destruct H2 as [|b L2 H2 Hb]; [destruct (not_elem_of_nil a); apply Hin; by left|].
    rewrite Forall_forall in Ha, Hb. assert (a = b) as ->.
    { destruct (proj1 (elem_of_cons _ _ _) (proj1 (Hin a) ltac:(by left))) as [->|Ha']; [done|].
      destruct (proj1 (elem_of_cons _ _ _) (proj2 (Hin b) ltac:(by left))) as [->|Hb']; [done|].
      specialize (Hb _ Ha'). specialize (Ha _ Hb'). lia. }
    f_equal. apply IH; [done|]. intros f. split; intros Hf.
    + destruct (proj1 (elem_of_cons _ _ _) (proj1 (Hin f) ltac:(by right))) as [->|]; [|done]. specialize (Ha _ Hf). lia.
    + destruct (proj1 (elem_of_cons _ _ _) (proj2 (Hin f) ltac:(by right))) as [->|]; [|done]. specialize (Hb _ Hf). lia.
Qed.

Lemma trie_map (ks : list Z) (f : Z -> list Z) : StronglySorted Z.le ks -> NoDup ks -> trie ((fun j => (j, f j)) <$> ks).
Proof.
  induction 1 as [|k ks Hk IH Hle]; intros Hnd; [constructor|]. apply NoDup_cons in Hnd as [Hn Hnd]. cbn. constructor; [by apply IH|].
  apply Forall_fmap, Forall_forall. intros x Hx. rewrite Forall_forall in Hle. specialize (Hle x Hx). cbn. destruct (decide (k = x)) as [->|]; [done|lia].
Qed.

Lemma liste_stockee d : liste d (storedDayFilesLocked d).
Proof.
  unfold storedDayFilesLocked. split.
  - apply trie_map; [apply StronglySorted_merge_sort; apply _|]. rewrite merge_sort_Permutation. apply NoDup_fst_map_to_list.
  - intros [j l]. rewrite list_elem_of_fmap. cbn. split.
    + intros (k & [= -> ->] & Hk). rewrite merge_sort_Permutation in Hk. apply list_elem_of_fmap in Hk as ([k' v] & -> & Hk%elem_of_map_to_list). cbn. by rewrite Hk.
    + intros Hj. exists j. rewrite Hj. split; [done|]. rewrite merge_sort_Permutation. apply list_elem_of_fmap. exists (j, l). split; [done|]. by apply elem_of_map_to_list.
Qed.

Lemma liste_exacte d L : liste d L -> storedDayFilesLocked d = L.
Proof.
  intros [H1 H2]. destruct (liste_stockee d) as [H3 H4]. apply liste_unique; [done..|]. intros f. by rewrite H2, H4.
Qed.

Lemma trie_app A B : trie (A ++ B) <-> trie A /\ trie B /\ forall a b, a ∈ A -> b ∈ B -> fst a < fst b.
Proof.
  unfold trie. induction A as [|a A IH]; cbn.
  - split; [intros H; split; [constructor|]; split; [done|by intros ? ? ?%elem_of_nil]|tauto].
  - split.
    + intros H. apply StronglySorted_inv in H as [H Hf]. rewrite Forall_app in Hf. destruct Hf as [Hf1 Hf2]. apply IH in H as (H1 & H2 & H3). split; [by constructor|]. split; [done|].
      intros x y [->|Hx]%elem_of_cons Hy; [by apply (proj1 (Forall_forall _ _) Hf2)|by apply H3].
    + intros (H1 & H2 & H3). apply StronglySorted_inv in H1 as [H1 Hf]. constructor.
      * apply IH. split; [done|]. split; [done|]. intros x y Hx Hy. apply H3; [by right|done].
      * apply Forall_app. split; [done|]. apply Forall_forall. intros y Hy. apply H3; [by left|done].
Qed.

Lemma trie_milieu A f B : trie (A ++ f :: B) <-> trie (A ++ B) /\ (forall a, a ∈ A -> fst a < fst f) /\ (forall b, b ∈ B -> fst f < fst b).
Proof.
  rewrite !trie_app. unfold trie at 2. split.
  - intros (H1 & H2 & H3). apply StronglySorted_inv in H2 as [H2 Hf]. rewrite Forall_forall in Hf. split; [split; [done|split; [done|]]|].
    + intros a b Ha Hb. apply H3; [done|by right].
    + split; [intros a Ha; apply H3; [done|by left]|done].
  - intros ((H1 & H2 & H3) & H4 & H5). split; [done|]. split; [constructor; [done|by apply Forall_forall]|].
    intros a b Ha [->|Hb]%elem_of_cons; [by apply H4|by apply H3].
Qed.

Definition poser_jour (d : disque) (j : Z) (l : list Z) : disque := Disque (<[j := l]> (jours d)) (archives d).

(** The file of a day, written anew or for the first time. *)
Lemma liste_pose d A f B l : trie (A ++ f :: B) -> (forall g, g ∈ A ++ B <-> jours d !! fst g = Some (snd g) /\ fst g <> fst f) -> snd f = l ->
  liste (poser_jour d (fst f) l) (A ++ f :: B).
Proof.
  intros Ht Hin <-. split; [done|]. intros g. cbn. rewrite elem_of_app, elem_of_cons. specialize (Hin g). rewrite elem_of_app in Hin.
  destruct (decide (fst g = fst f)) as [E|E].
  - rewrite E, lookup_insert_eq. split.
    + intros [H|[->|H]]; [|done|]; exfalso; apply (proj2 (proj1 Hin ltac:(tauto))); done.
    + intros [= H]. right. left. destruct f, g; cbn in *; by subst.
  - rewrite lookup_insert_ne by done. split.
    + intros [H|[->|H]]; [apply Hin; tauto|done|apply Hin; tauto].
    + intros H. destruct (proj2 Hin (conj H E)); tauto.
Qed.

(** * Merging *)

Lemma encode_etat_inj e1 e2 : etat_oracle_ok e1 -> etat_oracle_ok e2 -> EncodeOracleVectorEntry e1 = EncodeOracleVectorEntry e2 -> e1 = e2.
Proof. intros H1 H2 E. by rewrite <- (decode_encode_etat e1 H1), <- (decode_encode_etat e2 H2), E. Qed.

Lemma fusion_ok b l : forall seen out dup, Forall etat_oracle_ok l -> Forall etat_oracle_ok out -> NoDup out ->
  (forall k, k ∈ seen <-> exists e, e ∈ out /\ EncodeOracleVectorEntry e = k) ->
  let '(seen', out', dup') := fold_left (fusionner b) l (seen, out, dup) in
  (forall k, k ∈ seen' <-> exists e, e ∈ out' /\ EncodeOracleVectorEntry e = k) /\ Forall etat_oracle_ok out' /\ NoDup out' /\
  (forall e, e ∈ out' <-> e ∈ out \/ e ∈ l).
Proof.
  induction l as [|e l IH]; intros seen out dup Hl Ho Hn Hs; cbn [fold_left].
  - split_and!; try done. intros x. rewrite elem_of_nil. tauto.
  - apply Forall_cons in Hl as [He Hl]. unfold fusionner at 2. destruct (decide (EncodeOracleVectorEntry e ∈ seen)) as [Hin|Hin].
    + specialize (IH seen out (if b then dup + 1 else dup) Hl Ho Hn Hs). destruct (fold_left _ l _) as [[s' o'] d']. destruct IH as (H1 & H2 & H3 & H4).
      split_and!; try done. intros x. rewrite H4, elem_of_cons. apply Hs in Hin as (e' & Hin & E). split; [tauto|]. intros [|[->|]]; [tauto| |tauto].
      left. replace e with e'; [done|]. apply encode_etat_inj; [|done..]. by apply (proj1 (Forall_forall _ _) Ho).
    + specialize (IH ({[EncodeOracleVectorEntry e]} ∪ seen) (e :: out) dup Hl ltac:(by constructor)).
      destruct (fold_left _ l _) as [[s' o'] d']. destruct IH as (H1 & H2 & H3 & H4).
      { constructor; [|done]. intros He'. apply Hin, Hs. by exists e. }
      { intros k. rewrite elem_of_union, elem_of_singleton, Hs. split.
        - intros [->|(x & Hx & E)]; [exists e; split; [by left|done]|exists x; split; [by right|done]].
        - intros (x & [->|Hx]%elem_of_cons & E); [by left|right; by exists x]. }
      split_and!; try done. intros x. rewrite H4, !elem_of_cons. tauto.
Qed.

Lemma fusion_exacte base fresh : Forall etat_oracle_ok base -> Forall etat_oracle_ok fresh ->
  let '(m, _) := mergeOracleEntries base fresh in
  Forall etat_oracle_ok m /\ NoDup m /\ (forall e, e ∈ m <-> e ∈ base \/ e ∈ fresh).
Proof.
  intros Hb Hf. unfold mergeOracleEntries.
  pose proof (fusion_ok false base ∅ [] 0 Hb ltac:(constructor) ltac:(constructor) ltac:(intros k; split; [by intros ?%elem_of_empty|intros (e & ?%elem_of_nil & _); done])) as H1.
  destruct (fold_left (fusionner false) base (∅, [], 0)) as [[s1 o1] d1]. destruct H1 as (A1 & A2 & A3 & A4).
  pose proof (fusion_ok true fresh s1 o1 d1 Hf A2 A3 A1) as H2. destruct (fold_left (fusionner true) fresh (s1, o1, d1)) as [[s2 o2] d2]. destruct H2 as (B1 & B2 & B3 & B4).
  split; [by apply Forall_reverse|]. split; [by rewrite reverse_Permutation|].
  intros e. rewrite elem_of_reverse, B4, A4, elem_of_nil. tauto.
Qed.

(** * The files of the silo *)

Section silos.
Context (sha256 : list Z -> list Z) (hmac_sha256 : list Z -> list Z -> list Z).
Notation charger := (LoadOracleDayHMAC sha256 hmac_sha256).
Notation sauver := (SaveOracleDayHMAC sha256 hmac_sha256).
Notation sain := (jour_scelle sha256 hmac_sha256).
Notation jour_lu := (lire_jour sha256 hmac_sha256).

(** A file that holds the sealed day of its name, in the current version. *)
Definition fichier_sain (c : SiloConfig) (f : Z * list Z) (h : OracleDailyHeader) (es : list OracleVectorEntry) : Prop :=
  sain (HMACKey c) h es /\ OVersion h = OracleVersion /\ OMachineID h = MachineID c /\ EpochDay h = fst f /\ exists tl, snd f = image_oracle h es ++ tl.

Definition lecture (c : SiloConfig) (d : disque) (j : Z) : option (OracleDailyHeader * list OracleVectorEntry) := l ← jours d !! j; jour_lu c (j, l).
(** The states sealed for a day, and whether its file says that some were left out. *)
Definition etats_scelles (c : SiloConfig) (d : disque) (j : Z) : list OracleVectorEntry := match lecture c d j with Some (_, es) => es | None => [] end.
Definition signale (c : SiloConfig) (d : disque) (j : Z) : bool := match lecture c d j with Some (h, _) => marque (OFlags h) | None => false end.

(** Every file of the directory is the sealed image of distinct states. *)
Definition dossier_sain (c : SiloConfig) (d : disque) : Prop :=
  forall j l, jours d !! j = Some l -> exists h es, fichier_sain c (j, l) h es /\ NoDup es.

Lemma jour_sain_lu c f h es : fichier_sain c f h es -> charger (snd f) (HMACKey c) = inr (h, es) /\ jour_lu c f = Some (h, es).
Proof.
  intros (Hj & Hv & Hm & Hd & tl & E). pose proof (charger_scelle sha256 hmac_sha256 _ _ _ tl Hj) as H. rewrite <- E in H. split; [done|].
  unfold lire_jour. rewrite H, Hv, Hm, Hd, !Z.eqb_refl. done.
Qed.

Lemma lecture_posee c d j img h es i : fichier_sain c (j, img) h es ->
  lecture c (poser_jour d j img) i = if decide (i = j) then Some (h, es) else lecture c d i.
Proof.
  intros Hf. unfold lecture. cbn [jours poser_jour]. destruct (decide (i = j)) as [->|]; [|by rewrite lookup_insert_ne].
  rewrite lookup_insert_eq. cbn. by apply (jour_sain_lu _ _ _ _ Hf).
Qed.

Lemma dossier_pose c d j img h es : dossier_sain c d -> fichier_sain c (j, img) h es -> NoDup es -> dossier_sain c (poser_jour d j img).
Proof.
  intros Hd Hf Hn i l. cbn. destruct (decide (i = j)) as [->|]; [|rewrite lookup_insert_ne by done; apply Hd].
  rewrite lookup_insert_eq. intros [= <-]. by exists h, es.
Qed.

Lemma marque_cle f (key : list Z) : marque (if zlen key =? 0 then Z.ldiff f OracleFlagKeyed else Z.lor f OracleFlagKeyed) = marque f.
Proof.
  rewrite !drapeau_bit. destruct (zlen key =? 0); [rewrite Z.ldiff_spec|rewrite Z.lor_spec]; change (Z.testbit OracleFlagKeyed 4) with false.
  - apply andb_true_r.
  - apply orb_false_r.
Qed.

Lemma ecriture_ok ecrit c d h es : checkSealKey (HMACKey c) = None -> entete_oracle_ok h -> Forall etat_oracle_ok es -> zlen es <= OracleMaxVectorCount ->
  OMachineID h = MachineID c -> exists h' image, fichier_sain c (EpochDay h, image) h' es /\ PrevDaySeal h' = PrevDaySeal h /\ length (OSeal h') = 32%nat /\
    marque (OFlags h') = marque (OFlags h) /\
    writeOracleDayAtomic sha256 hmac_sha256 ecrit d (EpochDay h) h es (HMACKey c) = if ecrit (EpochDay h) then inl (poser_jour d (EpochDay h) image, h') else inr ErrEcriture.
Proof.
  intros Hk Hh He Hn Hm. unfold writeOracleDayAtomic. destruct (sauver (Some h) es (HMACKey c)) as [e|[h' image]] eqn:E.
  - unfold SaveOracleDayHMAC in E. rewrite Hk in E. destruct (Z.ltb_spec OracleMaxVectorCount (zlen es)); [lia|done].
  - exists h', image. destruct (sauver_scelle sha256 hmac_sha256 _ _ _ _ _ Hh He E) as (Hj & Hv & -> & Hd & Hm' & Hp & _ & _ & _ & _ & _ & Hf & Hs).
    split; [split; [done|split; [done|split; [congruence|split; [done|exists []; by rewrite app_nil_r]]]]|]. split; [done|]. split; [rewrite Hs; apply longueur_sceau|].
    split; [by rewrite Hf, marque_cle|done].
Qed.

Lemma precedent_ok h seal : entete_oracle_ok h -> length seal = 32%nat -> entete_oracle_ok (avec_precedent h seal).
Proof. destruct h. unfold entete_oracle_ok, avec_precedent. cbn. tauto. Qed.

(** ** The relinking keeps what is sealed, whatever the system refuses *)

Lemma relier_garde ecrit c files : forall s d day seal, cfg s = c -> checkSealKey (HMACKey c) = None -> length seal = 32%nat -> dossier_sain c d ->
  NoDup (fst <$> files) -> (forall f, f ∈ files -> jours d !! fst f = Some (snd f)) -> (forall j x, chaine s = Some (j, x) -> length x = 32%nat) ->
  exists c' d' err, relier sha256 hmac_sha256 ecrit s d files day seal = (avec_chaine s c', d', err) /\ dossier_sain c d' /\
    (forall j, etats_scelles c d' j = etats_scelles c d j /\ signale c d' j = signale c d j) /\ (forall j x, c' = Some (j, x) -> length x = 32%nat) /\
    ((forall j, ecrit j = true) -> err = None).
Proof.
  assert (forall s, avec_chaine s (chaine s) = s) as Hid by by intros [].
  induction files as [|f files IH]; intros s d day seal Hc Hk Hs Hd Hn Hf Hm; cbn [relier].
  { exists (chaine s), d, None. rewrite Hid. done. }
  cbn in Hn. apply NoDup_cons in Hn as [Hnf Hn]. assert (forall g, g ∈ files -> jours d !! fst g = Some (snd g)) as Hf' by (intros g Hg; apply Hf; by right).
  destruct (Z.leb_spec (fst f) day); [by apply IH|]. destruct (Hd _ _ (Hf f ltac:(by left))) as (h & es & Hfs & Hne).
  assert ((fst f, snd f) = f) as Ef by by destruct f. rewrite Ef in Hfs. rewrite Hc. destruct (jour_sain_lu _ _ _ _ Hfs) as [_ El]. rewrite El.
  destruct (egaux (PrevDaySeal h) seal); [exists (chaine s), d, None; by rewrite Hid|].
  pose proof Hfs as (Hj & Hv & Hmid & Hep & _). destruct Hj as [_ He _ _ _ [_ Hmax] Hes _].
  destruct (ecriture_ok ecrit c d (avec_precedent h seal) es Hk (precedent_ok _ _ He Hs) Hes Hmax Hmid) as (h' & image & Hi & _ & Hl & Hfl & E).
  cbn [avec_precedent EpochDay OFlags] in Hi, E, Hfl. rewrite Hep in E, Hi. rewrite E. destruct (ecrit (fst f)) eqn:Ew; [|exists (chaine s), d, (Some ErrEcriture); rewrite Hid; split_and!; try done; intros Hw; by rewrite Hw in Ew].
  destruct (IH (avec_chaine s (Some (fst f, OSeal h'))) (poser_jour d (fst f) image) (fst f) (OSeal h') Hc Hk Hl (dossier_pose _ _ _ _ _ _ Hd Hi Hne) Hn)
    as (c' & d' & err & E1 & E2 & E3 & E4).
  - intros g Hg. cbn. rewrite lookup_insert_ne; [by apply Hf'|]. intros E0. apply Hnf. rewrite E0. by apply list_elem_of_fmap_2.
  - by intros j x [= <- <-].
  - exists c', d', err. split; [done|]. split; [done|]. split; [|done]. intros j. destruct (E3 j) as [-> ->]. unfold etats_scelles, signale.
    rewrite (lecture_posee _ _ _ _ _ _ _ Hi). destruct (decide (j = fst f)) as [->|]; [|done].
    unfold lecture. rewrite (Hf f ltac:(by left)). cbn. rewrite Ef, El. done.
Qed.

(** * The chain of the days *)

(** Every file is sound, and each carries the seal of the one before. *)
Inductive chaine_saine (c : SiloConfig) : option (list Z) -> list (Z * list Z) -> list (OracleDailyHeader * list OracleVectorEntry) -> Prop :=
  | chaine_vide p : chaine_saine c p [] []
  | chaine_maillon p f h es L T : fichier_sain c f h es -> (forall seal, p = Some seal -> PrevDaySeal h = seal) ->
      chaine_saine c (Some (OSeal h)) L T -> chaine_saine c p (f :: L) ((h, es) :: T).

Lemma chaine_verifiee c p L T : chaine_saine c p L T -> verifier sha256 hmac_sha256 c L p = [].
Proof.
  induction 1 as [|p f h es L T Hf Hp _ IH]; [done|]. cbn [verifier]. destruct (jour_sain_lu _ _ _ _ Hf) as [-> _]. destruct Hf as (_ & Hv & Hm & Hd & _).
  rewrite Hv, Hm, Hd, !Z.eqb_refl. cbn [negb orb]. rewrite IH, app_nil_r. destruct p as [seal|]; [|done]. unfold egaux. by rewrite (Hp seal), bool_decide_eq_true_2.
Qed.

Lemma chaine_intacte c : forall L p, verifier sha256 hmac_sha256 c L p = [] -> (forall f, f ∈ L -> exists h es, fichier_sain c f h es) -> exists T, chaine_saine c p L T.
Proof.
  induction L as [|f L IH]; intros p Hv Hf; [exists []; constructor|]. destruct (Hf f ltac:(by left)) as (h & es & Hs). cbn [verifier] in Hv.
  destruct (jour_sain_lu _ _ _ _ Hs) as [E _]. rewrite E in Hv. pose proof Hs as (_ & Hve & Hm & Hd & _). rewrite Hve, Hm, Hd, !Z.eqb_refl in Hv. cbn [negb orb] in Hv.
  apply app_eq_nil in Hv as [H1 H2]. destruct (IH _ H2) as [T HT]; [intros g Hg; apply Hf; by right|]. exists ((h, es) :: T). constructor; [done| |done].
  intros seal ->. unfold egaux in H1. destruct (bool_decide_reflect (PrevDaySeal h = seal)); [done|discriminate].
Qed.

(** The seal the next day must carry. *)
Definition dernier (p : option (list Z)) (T : list (OracleDailyHeader * list OracleVectorEntry)) : option (list Z) :=
  match last T with Some (h, _) => Some (OSeal h) | None => p end.

Lemma dernier_cons p h es T : dernier p ((h, es) :: T) = dernier (Some (OSeal h)) T.
Proof. unfold dernier. destruct T as [|t T]; [done|]. rewrite last_cons_cons. destruct (last (t :: T)) eqn:E; [done|]. by apply last_None in E. Qed.

Lemma chaine_app c L2 : forall L1 p T, chaine_saine c p (L1 ++ L2) T ->
  exists T1 T2, T = T1 ++ T2 /\ chaine_saine c p L1 T1 /\ chaine_saine c (dernier p T1) L2 T2 /\ length T1 = length L1.
Proof.
  induction L1 as [|f L1 IH]; intros p T H; [exists [], T; split; [done|]; split; [constructor|done]|]. cbn in H. inversion H as [|? ? h es ? T' Hf Hp Hr]; subst.
  destruct (IH _ _ Hr) as (T1 & T2 & -> & H1 & H2 & H3). exists ((h, es) :: T1), T2. split; [done|]. split; [by constructor|]. rewrite dernier_cons. split; [done|cbn; lia].
Qed.

Lemma chaine_rejoint c L1 L2 : forall p T1 T2, chaine_saine c p L1 T1 -> chaine_saine c (dernier p T1) L2 T2 -> chaine_saine c p (L1 ++ L2) (T1 ++ T2).
Proof.
  intros p T1 T2 H. induction H as [|p f h es L T Hf Hp _ IH]; intros H2; [done|]. cbn. constructor; [done..|]. apply IH. by rewrite dernier_cons in H2.
Qed.

Lemma chaine_longueur c p L T : chaine_saine c p L T -> length T = length L.
Proof. induction 1; cbn; congruence. Qed.

(** The cached seal is the one of a file. *)
Definition memoire (s : DailyOracleSilo) (L : list (Z * list Z)) (T : list (OracleDailyHeader * list OracleVectorEntry)) : Prop :=
  forall j seal, chaine s = Some (j, seal) -> (j, seal) ∈ zip (fst <$> L) ((fun t => OSeal (fst t)) <$> T).

(** Rewriting the link of a sound file. *)
Lemma relier_jour ecrit c d f h es seal : checkSealKey (HMACKey c) = None -> fichier_sain c f h es -> length seal = 32%nat -> ecrit (fst f) = true ->
  exists image h', writeOracleDayAtomic sha256 hmac_sha256 ecrit d (fst f) (avec_precedent h seal) es (HMACKey c) = inl (poser_jour d (fst f) image, h') /\
    fichier_sain c (fst f, image) h' es /\ PrevDaySeal h' = seal /\ length (OSeal h') = 32%nat.
Proof.
  intros Hk (Hj & Hv & Hm & Hd & _) Hs Hw. destruct Hj as [_ He _ _ _ [_ Hn] Hes _].
  destruct (ecriture_ok ecrit c d (avec_precedent h seal) es Hk (precedent_ok _ _ He Hs) Hes Hn Hm) as (h' & image & Hf & Hp & Hl & _ & E).
  cbn [avec_precedent EpochDay PrevDaySeal] in Hf, E, Hp. rewrite Hd in E, Hf. exists image, h'. by rewrite E, Hw.
Qed.

(** The relinking, on the files after the sealed day. *)
Lemma relier_ok ecrit c B : (forall j, ecrit j = true) -> forall T p seal s d A TA day, cfg s = c -> checkSealKey (HMACKey c) = None -> length seal = 32%nat ->
  chaine_saine c p B T -> liste d (A ++ B) -> length A = length TA -> Forall (fun f => day < fst f) B -> memoire s A TA ->
  exists c' d' B' T', relier sha256 hmac_sha256 ecrit s d B day seal = (avec_chaine s c', d', None) /\
    liste d' (A ++ B') /\ chaine_saine c (Some seal) B' T' /\ snd <$> T' = snd <$> T /\ fst <$> B' = fst <$> B /\ memoire (avec_chaine s c') (A ++ B') (TA ++ T').
Proof.
  assert (forall s, avec_chaine s (chaine s) = s) as Hid by by intros [].
  assert (forall s A TA B T, length A = length TA -> memoire s A TA -> memoire s (A ++ B) (TA ++ T)) as Hmem.
  { intros s A TA B0 T0 Hl Hm j seal0 E. specialize (Hm j seal0 E). rewrite !fmap_app, zip_with_app by (by rewrite !length_fmap). apply elem_of_app. by left. }
  intros Hw. induction B as [|f B IH]; intros T p seal s d A TA day Hc Hk Hs Hch Hl Hlen Hday Hm.
  - inversion Hch; subst. exists (chaine s), d, [], []. cbn [relier]. rewrite Hid. split_and!; try done; [constructor|]. by apply Hmem.
  - inversion Hch as [|? ? h es ? T' Hf Hp Hr]; subst. apply Forall_cons in Hday as [Hd1 Hd2]. cbn [relier]. destruct (Z.leb_spec (fst f) day); [lia|].
    destruct (jour_sain_lu _ _ _ _ Hf) as [_ ->]. unfold egaux. destruct (bool_decide_reflect (PrevDaySeal h = seal)) as [E|E].
    + exists (chaine s), d, (f :: B), ((h, es) :: T'). rewrite Hid. split_and!; try done; [|by apply Hmem]. constructor; [done| |done]. by intros ? [= <-].
    + destruct (relier_jour ecrit (cfg s) d f h es seal Hk Hf Hs (Hw _)) as (image & h' & -> & Hf' & Hp' & Hl').
      assert (liste (poser_jour d (fst f) image) ((A ++ [(fst f, image)]) ++ B)) as Hl2.
      { rewrite <- app_assoc. cbn [app]. destruct Hl as [Ht Hin]. apply trie_milieu in Ht as (Ht & Ha & Hb). apply (liste_pose d A (fst f, image) B image); [by apply trie_milieu| |done].
        cbn [fst]. intros g. specialize (Hin g). rewrite elem_of_app, elem_of_cons in Hin. rewrite elem_of_app. split.
        - intros Hg. split; [apply Hin; tauto|]. destruct Hg as [Hg|Hg]; [specialize (Ha g Hg)|specialize (Hb g Hg)]; lia.
        - intros [Hg Hne]. destruct (proj2 Hin Hg) as [|[->|]]; [by left|done|by right]. }
      assert (Forall (fun g => fst f < fst g) B) as Hd3 by (destruct Hl as [Ht _]; apply trie_milieu in Ht as (_ & _ & Hb); apply Forall_forall; intros x Hx; by apply Hb).
      destruct (IH T' (Some (OSeal h)) (OSeal h') (avec_chaine s (Some (fst f, OSeal h'))) (poser_jour d (fst f) image) (A ++ [(fst f, image)]) (TA ++ [(h', es)]) (fst f)
        eq_refl Hk Hl' Hr Hl2 ltac:(rewrite !length_app; cbn; lia) Hd3) as (c' & d' & B' & T'' & E1 & E2 & E3 & E4 & E5 & E6).
      { intros j seal0 [= <- <-]. rewrite !fmap_app, zip_with_app by (by rewrite !length_fmap). apply elem_of_app. right. by left. }
      exists c', d', ((fst f, image) :: B'), ((h', es) :: T''). split; [by rewrite E1|]. rewrite <- app_assoc in E2. split; [done|].
      split; [constructor; [done|by intros ? [= <-]|done]|]. cbn. split; [by f_equal|]. split; [by f_equal|]. rewrite <- !app_assoc in E6. exact E6.
Qed.

Lemma dernier_longueur c p L T : chaine_saine c p L T -> forall seal, dernier None T = Some seal -> length seal = 32%nat.
Proof.
  intros H seal. unfold dernier. induction H as [|p f h es L T Hf _ _ IH]; [done|]. destruct T as [|t T]; [|done].
  cbn. intros [= <-]. destruct Hf as ([_ Hh _ _ _ _ _ _] & _). unfold entete_oracle_ok in Hh. tauto.
Qed.

(** Where a day stands in the directory. *)
Lemma trie_coupe L day : trie L -> exists A M B, L = A ++ M ++ B /\ Forall (fun f => fst f < day) A /\ Forall (fun f => day < fst f) B /\ (M = [] \/ exists l, M = [(day, l)]).
Proof.
  unfold trie. induction 1 as [|f L H IH Hf]; [exists [], [], []; split; [done|]; split; [constructor|]; split; [constructor|by left]|].
  destruct (Z.lt_trichotomy (fst f) day) as [Hd|[Hd|Hd]].
  - destruct IH as (A & M & B & -> & HA & HB & HM). exists (f :: A), M, B. split; [done|]. split; [by constructor|]. done.
  - exists [], [f], L. split; [done|]. split; [constructor|]. split; [by rewrite <- Hd|right]. exists (snd f). destruct f; cbn in *; by subst.
  - exists [], [], (f :: L). split; [done|]. split; [constructor|]. split; [|by left]. constructor; [done|]. eapply Forall_impl; [exact Hf|]. cbn. intros; lia.
Qed.

Lemma zip_lie c p A TA B TB : chaine_saine c p A TA -> forall f h es j seal, last A = Some f -> last TA = Some (h, es) -> trie (A ++ B) -> fst f = j ->
  (j, seal) ∈ zip (fst <$> (A ++ B)) ((fun t => OSeal (fst t)) <$> (TA ++ TB)) -> seal = OSeal h.
Proof.
  intros Hc f h es j seal Hf Ht Hs Hj Hin. pose proof (chaine_longueur _ _ _ _ Hc) as Hl.
  assert (exists A0, A = A0 ++ [f]) as [A0 ->] by (by apply last_Some). assert (exists T0, TA = T0 ++ [(h, es)]) as [T0 ->] by (by apply last_Some).
  rewrite !length_app in Hl. cbn in Hl. assert (length T0 = length A0) as Hl0 by lia.
  rewrite !fmap_app, !zip_with_app in Hin by (rewrite !length_app, !length_fmap; cbn; lia). rewrite zip_with_app in Hin by (by rewrite !length_fmap).
  rewrite !elem_of_app in Hin. apply trie_app in Hs as (Ht1 & _ & Ht2). apply trie_app in Ht1 as (_ & _ & Ht3).
  assert (forall (X : list (Z * list Z)) (Y : list (OracleDailyHeader * list OracleVectorEntry)), (j, seal) ∈ zip (fst <$> X) ((fun t => OSeal (fst t)) <$> Y) -> exists x, x ∈ X /\ fst x = j) as Hz.
  { intros X Y H. apply elem_of_zip_l in H. apply list_elem_of_fmap in H as (x & -> & Hx). by exists x. }
  destruct Hin as [[H|H]|H].
  - destruct (Hz _ _ H) as (x & Hx & E). specialize (Ht3 x f Hx ltac:(by left)). lia.
  - cbn in H. apply list_elem_of_singleton in H. by injection H.
  - destruct (Hz _ _ H) as (x & Hx & E). specialize (Ht2 f x ltac:(apply elem_of_app; right; by left) Hx). lia.
Qed.

Lemma filter_avant day L : Forall (fun f : Z * list Z => fst f < day) L -> filter (fun f => fst f < day) L = L.
Proof. induction 1 as [|f L Hf _ IH]; [done|]. rewrite filter_cons, IH. by rewrite decide_True. Qed.
Lemma filter_apres day L : Forall (fun f : Z * list Z => day <= fst f) L -> filter (fun f => fst f < day) L = [].
Proof. induction 1 as [|f L Hf _ IH]; [done|]. rewrite filter_cons, IH. rewrite decide_False; [done|lia]. Qed.

Lemma chaine_derniers c p A TA f h es : chaine_saine c p A TA -> last A = Some f -> last TA = Some (h, es) -> fichier_sain c f h es.
Proof.
  intros H. induction H as [|p f' h' es' L T Hf _ H IH]; [done|]. destruct L as [|g L].
  - inversion H; subst. cbn. by intros [= <-] [= <- <-].
  - inversion H; subst. rewrite !last_cons_cons. done.
Qed.

Lemma last_longueur {A B} (l : list A) (k : list B) : length l = length k -> last l = None -> last k = None.
Proof. intros Hl H. apply last_None in H as ->. destruct k; [done|]. discriminate Hl. Qed.

Lemma scelle_precedent c s d A R TA TR day : cfg s = c -> liste d (A ++ R) -> Forall (fun f => fst f < day) A -> Forall (fun f => day <= fst f) R ->
  chaine_saine c None A TA -> memoire s (A ++ R) (TA ++ TR) -> prevDaySealLocked sha256 hmac_sha256 s d day = default zeros32 (dernier None TA).
Proof.
  intros Hc Hl HA HR Hch Hm. unfold prevDaySealLocked. rewrite (liste_exacte d _ Hl), filter_app, filter_avant, filter_apres, app_nil_r by done.
  pose proof (chaine_longueur _ _ _ _ Hch) as Hlen. unfold dernier. destruct (last A) as [f|] eqn:Ef.
  - destruct (last TA) as [[h es]|] eqn:Et; [|by rewrite (last_longueur TA A) in Ef].
    destruct (jour_sain_lu _ _ _ _ (chaine_derniers _ _ _ _ _ _ _ Hch Ef Et)) as [_ E]. rewrite Hc, E. cbn. destruct (chaine s) as [[j seal]|] eqn:Es; [|done].
    destruct (Z.eqb_spec j (fst f)) as [->|]; [|done]. destruct Hl as [Ht _].
    by apply (zip_lie c None A TA R TR Hch f h es (fst f) seal Ef Et Ht eq_refl), Hm.
  - by rewrite (last_longueur A TA).
Qed.

(** * Sealing *)

Lemma lor_u16 a b : is_u16 a -> is_u16 b -> is_u16 (Z.lor a b).
Proof.
  unfold is_u16. intros Ha Hb. assert (0 <= Z.lor a b) as H0 by (apply Z.lor_nonneg; lia). split; [done|].
  destruct (Z.eq_dec (Z.lor a b) 0) as [->|Hz]; [lia|]. apply Z.log2_lt_pow2; [lia|]. rewrite Z.log2_lor by lia.
  apply Z.max_lub_lt; [destruct (Z.eq_dec a 0) as [->|]; [by vm_compute|apply Z.log2_lt_pow2; lia]|destruct (Z.eq_dec b 0) as [->|]; [by vm_compute|apply Z.log2_lt_pow2; lia]].
Qed.
Lemma land_u16 a b : is_u16 a -> 0 <= b -> is_u16 (Z.land a b).
Proof.
  unfold is_u16. intros Ha Hb. assert (0 <= Z.land a b) as H0 by (apply Z.land_nonneg; lia). split; [done|].
  destruct (Z.eq_dec (Z.land a b) 0) as [->|Hz]; [lia|]. apply Z.log2_lt_pow2; [lia|].
  pose proof (Z.log2_land a b ltac:(lia) Hb). destruct (Z.eq_dec a 0) as [->|]; [done|]. assert (Z.log2 a < 16) by (apply Z.log2_lt_pow2; lia). lia.
Qed.
Lemma drapeaux_etats_u16 es : forall f, is_u16 f -> is_u16 (drapeaux_etats es f).
Proof.
  unfold drapeaux_etats. induction es as [|e es IH]; intros f Hf; cbn [fold_left]; [done|]. apply IH.
  destruct (prioritaire e), (OHealthScore e <? DegradedHealthScore); repeat (apply lor_u16; [|by vm_compute]); done.
Qed.

Lemma marque_etats es : forall f, marque (drapeaux_etats es f) = marque f.
Proof.
  unfold drapeaux_etats. induction es as [|e es IH]; intros f; cbn [fold_left]; [done|]. rewrite IH.
  destruct (prioritaire e), (OHealthScore e <? DegradedHealthScore); rewrite ?marque_lor; cbn; by rewrite ?orb_false_r.
Qed.
Lemma marque_reprise f : marque (Z.land f drapeaux_repris) = marque f.
Proof. rewrite !drapeau_bit, Z.land_spec. apply andb_true_r. Qed.

(** The state of a silo. *)
Record silo_ok (c : SiloConfig) (s : DailyOracleSilo) : Prop := {
  so_cfg : cfg s = c;
  so_jour : is_u32 (currentDay s);
  so_debut : is_u64 (currentStartTs s);
  so_etats : Forall etat_oracle_ok (en_attente s);
  so_drapeaux : is_u16 (currentDroppedFlags s);
  so_chaine : forall j x, chaine s = Some (j, x) -> length x = 32%nat;
  so_cours : en_cours s
}.
Definition config_ok (c : SiloConfig) : Prop := checkSealKey (HMACKey c) = None /\ is_u64 (MachineID c).

Lemma longueur_precedent c s d day : silo_ok c s -> dossier_sain c d -> length (prevDaySealLocked sha256 hmac_sha256 s d day) = 32%nat.
Proof.
  intros Hs Hd. unfold prevDaySealLocked. destruct (last _) as [f|] eqn:El; [|done].
  assert (length (match jour_lu (cfg s) f with Some (hdr, _) => OSeal hdr | None => zeros32 end) = 32%nat) as Hr.
  { apply last_Some_elem_of, list_elem_of_filter in El as [_ El]. destruct (liste_stockee d) as [_ Hl]. apply Hl in El.
    destruct (Hd _ _ El) as (h & es & Hf & _). rewrite (so_cfg _ _ Hs). destruct (jour_sain_lu _ _ _ _ Hf) as [_ E]. replace (fst f, snd f) with f in E by by destruct f.
    rewrite E. destruct Hf as ([_ Hh _ _ _ _ _ _] & _). unfold entete_oracle_ok in Hh. tauto. }
  destruct (chaine s) as [[j x]|] eqn:Ec; [|done]. destruct (j =? fst f); [|done]. by apply (so_chaine _ _ Hs j).
Qed.

Definition anciens (m : option existingOracleDay) : list OracleVectorEntry := match m with None => [] | Some m => x_entries m end.
Definition signale_avant (m : option existingOracleDay) : bool := match m with None => false | Some m => marque (OFlags (x_hdr m)) end.

(** A day made of the old states and of those in progress. *)
Definition recueille (K : Z) (old cours : list OracleVectorEntry) (avant apres : bool) (es : list OracleVectorEntry) : Prop :=
  (forall e, e ∈ es -> e ∈ old \/ e ∈ cours) /\
  (apres = false -> forall e, e ∈ old \/ e ∈ cours -> e ∈ es) /\
  (forall G, (forall e, e ∈ old \/ e ∈ cours -> e ∈ G) -> nb_prioritaires G <= K -> forall e, e ∈ old \/ e ∈ cours -> prioritaire e = true -> e ∈ es) /\
  (avant = true -> apres = true) /\
  (forall G, (forall e, e ∈ old \/ e ∈ cours -> e ∈ G) -> zlen G <= K -> avant = false -> apres = false).

Lemma nodup_taille {A} (l k : list A) : NoDup l -> (forall x, x ∈ l -> x ∈ k) -> zlen l <= zlen k.
Proof. intros Hn Hi. unfold zlen. pose proof (NoDup_submseteq _ _ Hn Hi) as H%submseteq_length. lia. Qed.

Lemma nodup_prioritaires l k : NoDup l -> (forall x, x ∈ l -> x ∈ k) -> nb_prioritaires l <= nb_prioritaires k.
Proof.
  intros Hn Hi. unfold nb_prioritaires. apply nodup_taille; [by apply NoDup_filter|]. intros x [Hp Hx]%list_elem_of_filter. apply list_elem_of_filter. split; [done|by apply Hi].
Qed.

Lemma somme_scores_nonneg es : Forall etat_oracle_ok es -> 0 <= somme (OHealthScore <$> es).
Proof. induction 1 as [|e es He _ IH]; [done|]. cbn. destruct He as (_ & _ & _ & H & _). unfold is_u16 in H. unfold somme in IH. lia. Qed.

Lemma preparer_ok c s d merged endTs : config_ok c -> silo_ok c s -> dossier_sain c d -> en_attente s <> [] -> is_u64 endTs ->
  (forall m, merged = Some m -> entete_oracle_ok (x_hdr m) /\ Forall etat_oracle_ok (x_entries m)) ->
  exists hdr es n, preparer sha256 hmac_sha256 s d merged endTs = Done (hdr, es, n) /\ entete_oracle_ok hdr /\ Forall etat_oracle_ok es /\ NoDup es /\
    zlen es <= OracleMaxVectorCount /\ OMachineID hdr = MachineID c /\ EpochDay hdr = currentDay s /\
    PrevDaySeal hdr = prevDaySealLocked sha256 hmac_sha256 s d (currentDay s) /\
    recueille K (anciens merged) (en_attente s) (signale_avant merged || marque (currentDroppedFlags s)) (marque (OFlags hdr)) es.
Proof.
  intros [_ Hmid] Hs Hd Hne Hend Hm. pose proof Hs as [Hc Hj Hst Hes Hfl _ _]. unfold preparer. rewrite Hc.
  assert (exists a b f o, (match merged with
    | None => (currentStartTs s, endTs, 0, 0)
    | Some m => (Z.min (currentStartTs s) (StartTsSec (x_hdr m)), Z.max endTs (EndTsSec (x_hdr m)), Z.land (OFlags (x_hdr m)) drapeaux_repris,
                 if OVersion (x_hdr m) =? OracleVersion then ObservedCount (x_hdr m) else 0)
    end) = (a, b, f, o) /\ is_u64 a /\ is_u64 b /\ is_u16 f /\ marque f = signale_avant merged) as (a & b & f & o & -> & Ha & Hb & Hf & Hmf).
  { destruct merged as [m|]; [|by exists (currentStartTs s), endTs, 0, 0]. destruct (Hm m eq_refl) as [Hh _]. do 4 eexists. split; [done|].
    unfold entete_oracle_ok in Hh. destruct Hh as (_ & _ & _ & _ & H1 & H2 & _ & _ & H3 & _). unfold is_u64 in *. split; [lia|]. split; [lia|].
    split; [by apply land_u16; [|by vm_compute]|apply marque_reprise]. }
  change (match merged with None => [] | Some m => x_entries m end) with (anciens merged).
  assert (Forall etat_oracle_ok (anciens merged)) as Hold by (destruct merged as [m|]; [by apply (Hm m)|constructor]).
  pose proof (fusion_exacte (anciens merged) (en_attente s) Hold Hes) as HF. unfold en_attente in HF at 1. destruct (mergeOracleEntries (anciens merged) _) as [es dup].
  destruct HF as (F1 & F2 & F3). change OracleMaxVectorCount with K.
  assert (0 < zlen es) as Hpos.
  { destruct (en_attente s) as [|x l] eqn:E; [done|]. assert (x ∈ es) as Hx by (apply F3; right; by left). destruct es; [by apply elem_of_nil in Hx|rewrite zlen_cons; pose proof (zlen_nonneg es); lia]. }
  set (fl := drapeaux_etats es _). assert (is_u16 fl) as Hfl' by (apply drapeaux_etats_u16, lor_u16; [apply lor_u16; [by vm_compute|done]|done]).
  assert (marque fl = signale_avant merged || marque (currentDroppedFlags s)) as Hmfl by (unfold fl; rewrite marque_etats, !marque_lor, Hmf; done).
  assert (forall es' fl' (n ob : Z), Forall etat_oracle_ok es' -> NoDup es' -> 0 < zlen es' <= K -> is_u16 fl' -> 0 <= ob ->
    (forall hdr, OFlags hdr = fl' -> recueille K (anciens merged) (en_attente s) (signale_avant merged || marque (currentDroppedFlags s)) (marque (OFlags hdr)) es') ->
    exists hdr es'' (n' : Z), (if zlen es' =? 0 then Panic else Done (OHeader (replicate 8 0) 0 0 (currentDay s) a b (u32 (zlen es')) (u16 (u64 (somme (OHealthScore <$> es')) / zlen es')) fl'
        (MachineID c) (prevDaySealLocked sha256 hmac_sha256 s d (currentDay s)) zeros32 (Z.min ob (2 ^ 32 - 1)) zeros12, es', n)) = Done (hdr, es'', n') /\
      entete_oracle_ok hdr /\ Forall etat_oracle_ok es'' /\ NoDup es'' /\ zlen es'' <= K /\ OMachineID hdr = MachineID c /\ EpochDay hdr = currentDay s /\
      PrevDaySeal hdr = prevDaySealLocked sha256 hmac_sha256 s d (currentDay s) /\
      recueille K (anciens merged) (en_attente s) (signale_avant merged || marque (currentDroppedFlags s)) (marque (OFlags hdr)) es'') as Hfin.
  { intros es' fl' n ob H1 H2 H3 H4 H5 H6. destruct (Z.eqb_spec (zlen es') 0); [lia|]. do 3 eexists. split; [done|]. split.
    - unfold entete_oracle_ok. cbn -[u32 u16 u64]. pose proof (longueur_precedent c s d (currentDay s) Hs Hd). unfold is_u16, is_u32, is_u64, u32, u16 in *. split_and!; try done; try lia; apply Z.mod_pos_bound; lia.
    - split; [done|]. split; [done|]. split; [lia|]. split; [done|]. split; [done|]. split; [done|]. by apply H6. }
  destruct (Z.ltb_spec K (zlen es)) as [Htrop|Htrop].
  - destruct (proj1 (wp_exists _ _) (echantillon_ok es K (Z.lxor (samplerSeed (MachineID c) (currentDay s)) 0x5EA15EA15EA15EA1) ltac:(done))) as (r & -> & R1 & R2 & R3 & R4).
    rewrite run_bind_done. cbv beta. apply Hfin; [|by apply R3|split; [rewrite R1; done|lia]|by apply lor_u16|..].
    + apply Forall_forall. intros e He. apply (proj1 (Forall_forall _ _) F1), R2, He.
    + pose proof (Z.mod_pos_bound (o + currentObserved s - dup) (2 ^ 64) ltac:(lia)). unfold u64. lia.
    + intros hdr Hh. unfold recueille. rewrite Hh, marque_lor. change (marque (Z.lor OracleFlagSaturated OracleFlagSampled)) with true. rewrite orb_true_r.
      split; [intros e He; by apply F3, R2|]. split; [done|]. split; [|split; [done|]].
      * intros G HG Hn e He Hp. apply R4; [|by apply F3|done]. etransitivity; [apply (nodup_prioritaires es G F2)|done]. intros x Hx. by apply HG, F3.
      * intros G HG Hn _. pose proof (nodup_taille es G F2 ltac:(intros x Hx; by apply HG, F3)). lia.
  - rewrite run_bind_done. apply Hfin; [done|done|lia|done|..].
    + pose proof (Z.mod_pos_bound (o + currentObserved s - dup) (2 ^ 64) ltac:(lia)). unfold u64. lia.
    + intros hdr Hh. unfold recueille. rewrite Hh, Hmfl. split; [intros e He; by apply F3|]. split; [intros _ e He; by apply F3|]. split; [intros G _ _ e He _; by apply F3|]. done.
Qed.

(** ** What sealing does *)

Definition chaine_tenue (c : SiloConfig) (s : DailyOracleSilo) (d : disque) : Prop := exists L T, liste d L /\ chaine_saine c None L T /\ memoire s L T.

Lemma relier_saute ecrit s d B day seal : forall A, Forall (fun f => fst f <= day) A ->
  relier sha256 hmac_sha256 ecrit s d (A ++ B) day seal = relier sha256 hmac_sha256 ecrit s d B day seal.
Proof. induction 1 as [|f A Hf _ IH]; [done|]. cbn [app relier]. destruct (Z.leb_spec (fst f) day); [done|lia]. Qed.

Lemma chaine_scelle ecrit c s s1 d day img h es : (forall j, ecrit j = true) -> checkSealKey (HMACKey c) = None -> chaine_tenue c s d ->
  fichier_sain c (day, img) h es -> PrevDaySeal h = prevDaySealLocked sha256 hmac_sha256 s d day -> length (OSeal h) = 32%nat -> cfg s = c -> cfg s1 = c ->
  chaine s1 = Some (day, OSeal h) ->
  exists c' d', relinkSuccessorsLocked sha256 hmac_sha256 ecrit s1 (poser_jour d day img) day (OSeal h) = (avec_chaine s1 c', d', None) /\ chaine_tenue c (avec_chaine s1 c') d'.
Proof.
  intros Hw Hk (L & T & Hl & Hch & Hm) Hf Hp Hlen Hc Hc1 Hs1. pose proof Hl as [Ht Hin]. destruct (trie_coupe L day Ht) as (A & M & B & -> & HA & HB & HM).
  destruct (chaine_app _ _ _ _ _ Hch) as (TA & TR & -> & HcA & HcR & HlA). destruct (chaine_app _ _ _ _ _ HcR) as (TM & TB & -> & _ & HcB & HlM).
  assert (forall g, g ∈ M -> fst g = day) as HMd by (destruct HM as [->|(l & ->)]; [by intros g ?%elem_of_nil|by intros g ->%list_elem_of_singleton]).
  assert (prevDaySealLocked sha256 hmac_sha256 s d day = default zeros32 (dernier None TA)) as Hprev.
  { apply (scelle_precedent c s d A (M ++ B) TA (TM ++ TB) day Hc Hl HA); [|done..]. apply Forall_app. split; apply Forall_forall; intros g Hg; [rewrite (HMd g Hg); lia|].
    pose proof (proj1 (Forall_forall _ _) HB g Hg) as H. cbn in H. lia. }
  assert (liste (poser_jour d day img) ((A ++ [(day, img)]) ++ B)) as Hl1.
  { rewrite <- app_assoc. cbn [app]. apply (liste_pose d A (day, img) B img); [| |done].
    - apply trie_app in Ht as (H1 & H2 & H3). apply trie_app in H2 as (_ & H2 & _). apply trie_milieu. split; [apply trie_app; split; [done|]; split; [done|]|].
      + intros a b Ha Hb. apply H3; [done|]. apply elem_of_app. by right.
      + cbn. split; intros x Hx; [exact (proj1 (Forall_forall _ _) HA x Hx)|exact (proj1 (Forall_forall _ _) HB x Hx)].
    - cbn [fst]. intros g. specialize (Hin g). rewrite !elem_of_app in Hin. rewrite elem_of_app. split.
      + intros Hg. split; [apply Hin; tauto|]. destruct Hg as [Hg|Hg]; [pose proof (proj1 (Forall_forall _ _) HA g Hg) as H|pose proof (proj1 (Forall_forall _ _) HB g Hg) as H]; cbn in H; lia.
      + intros [Hg Hne]. destruct (proj2 Hin Hg) as [|[Hg'|]]; [by left|by destruct Hne; apply HMd|by right]. }
  assert (chaine_saine c None (A ++ [(day, img)]) (TA ++ [(h, es)])) as Hch1.
  { apply chaine_rejoint; [done|]. constructor; [done| |constructor]. intros seal Hd. by rewrite Hp, Hprev, Hd. }
  destruct (relier_ok ecrit c B Hw TB (dernier (dernier None TA) TM) (OSeal h) s1 (poser_jour d day img) (A ++ [(day, img)]) (TA ++ [(h, es)]) day
    Hc1 Hk Hlen HcB Hl1 ltac:(rewrite !length_app; cbn; lia) HB) as (c' & d' & B' & T' & E1 & E2 & E3 & _ & _ & E6).
  { intros j x Hx. rewrite Hs1 in Hx. injection Hx as <- <-. rewrite !fmap_app, zip_with_app by (by rewrite !length_fmap). apply elem_of_app. right. by left. }
  exists c', d'. split.
  - unfold relinkSuccessorsLocked. rewrite (liste_exacte _ _ Hl1), relier_saute; [done|]. apply Forall_app. split; [|constructor; [done|constructor]].
    apply Forall_forall. intros g Hg. pose proof (proj1 (Forall_forall _ _) HA g Hg) as H. cbn in H. lia.
  - exists ((A ++ [(day, img)]) ++ B'), ((TA ++ [(h, es)]) ++ T'). split; [done|]. split; [|done]. apply chaine_rejoint; [done|].
    unfold dernier. rewrite last_snoc. done.
Qed.

Lemma existant_ok c d day : dossier_sain c d -> exists m, loadExistingDay sha256 hmac_sha256 d (MachineID c) day (HMACKey c) = inl m /\
  reprendre d day m = inl (d, m) /\ anciens m = etats_scelles c d day /\ signale_avant m = signale c d day /\
  (forall x, m = Some x -> entete_oracle_ok (x_hdr x) /\ Forall etat_oracle_ok (x_entries x)).
Proof.
  intros Hd. unfold loadExistingDay, etats_scelles, signale, lecture. destruct (jours d !! day) as [l|] eqn:E; [|exists None; by rewrite ?E].
  destruct (Hd _ _ E) as (h & es & Hf & _). destruct (jour_sain_lu _ _ _ _ Hf) as [E1 E2]. cbn [snd] in E1. pose proof Hf as (Hj & Hv & Hm & Hep & _). cbn [fst] in Hep.
  cbn [mbind option_bind]. rewrite E1, E2, Hm, Hep, !Z.eqb_refl. cbn [negb orb]. eexists. split; [done|]. cbn [reprendre x_hdr]. rewrite Hv, Z.eqb_refl. split; [done|]. split; [done|]. split; [done|].
  intros x [= <-]. destruct Hj. done.
Qed.

(** The sealing of a day, whatever the system refuses. *)
Record scellee (c : SiloConfig) (s : DailyOracleSilo) (d : disque) (s' : DailyOracleSilo) (d' : disque) (err : option erreur_silo) : Prop := {
  sc_silo : silo_ok c s';
  sc_dossier : dossier_sain c d';
  sc_jour : currentDay s' = currentDay s /\ hasCurrentDay s' = hasCurrentDay s;
  sc_attente : (en_attente s' = en_attente s /\ currentDroppedFlags s' = currentDroppedFlags s) \/ (en_attente s' = [] /\ currentDroppedFlags s' = 0);
  sc_echec : err = None -> en_attente s' = [];
  sc_autres : forall j, j <> currentDay s -> etats_scelles c d' j = etats_scelles c d j /\ signale c d' j = signale c d j;
  sc_ecrit : (etats_scelles c d' (currentDay s) = etats_scelles c d (currentDay s) /\ signale c d' (currentDay s) = signale c d (currentDay s) /\
      en_attente s' = en_attente s /\ currentDroppedFlags s' = currentDroppedFlags s) \/
    recueille K (etats_scelles c d (currentDay s)) (en_attente s) (signale c d (currentDay s) || marque (currentDroppedFlags s))
      (signale c d' (currentDay s)) (etats_scelles c d' (currentDay s))
}.

Lemma sceller_ok ecrit c s d endTs : config_ok c -> silo_ok c s -> dossier_sain c d -> is_u64 endTs ->
  exists s' d' err, sealCurrentDayLocked sha256 hmac_sha256 ecrit s d endTs = Done (s', d', err) /\ scellee c s d s' d' err /\
    ((forall j, ecrit j = true) -> err = None /\ (chaine_tenue c s d -> chaine_tenue c s' d')).
Proof.
  intros Hcf Hs Hd He. pose proof Hs as [Hc Hj Hst Hes Hfl Hcm Hec]. unfold sealCurrentDayLocked. rewrite <- zlen_app. fold (en_attente s).
  destruct (Z.eqb_spec (zlen (en_attente s)) 0) as [Hz|Hz].
  { assert (en_attente s = []) as E by (destruct (en_attente s); [done|rewrite zlen_cons in Hz; pose proof (zlen_nonneg l); lia]).
    exists s, d, None. split; [done|]. split; [|done]. split; try done; [by left|by left]. }
  assert (en_attente s <> []) as Hne by (intros E; by rewrite E in Hz). rewrite Hc. set (fin := if endTs <=? currentStartTs s then _ else _).
  assert (is_u64 fin) as Hfin by (unfold fin; destruct (_ <=? _); [apply Z.mod_pos_bound; lia|done]).
  destruct (existant_ok c d (currentDay s) Hd) as (m & -> & -> & Hold & Hav & Hm).
  destruct (preparer_ok c s d m fin Hcf Hs Hd Hne Hfin Hm) as (hdr & es & n & -> & P1 & P2 & P3 & P4 & P5 & P6 & P7 & P8). rewrite Hold, Hav in P8. rewrite run_bind_done.
  destruct Hcf as [Hk Hmid]. destruct (ecriture_ok ecrit c d hdr es Hk P1 P2 P4 P5) as (h' & img & W1 & W2 & W3 & W4 & W5). rewrite P6 in W1, W5. rewrite W5.
  destruct (ecrit (currentDay s)) eqn:Ew.
  2:{ exists s, d, (Some ErrEcriture). split; [done|]. split; [split; try done; by left|]. intros Hw. by rewrite Hw in Ew. }
  set (d1 := poser_jour d (currentDay s) img). set (s1 := avec_ecartees _ n).
  pose proof (dossier_pose c d (currentDay s) img h' es Hd W1 P3) as Hd1. fold d1 in Hd1. destruct (liste_stockee d1) as [Ht1 Hl1].
  destruct (relier_garde ecrit c (storedDayFilesLocked d1) s1 d1 (currentDay s) (OSeal h') Hc Hk W3 Hd1) as (c' & d' & err & R1 & R2 & R3 & R4 & R5).
  { clear -Ht1. induction Ht1 as [|f L _ IH Hf]; [constructor|]. cbn. constructor; [|done]. intros (g & Eg & Hg)%list_elem_of_fmap.
    pose proof (proj1 (Forall_forall _ _) Hf g Hg) as H. cbn in H. lia. }
  { intros f. apply Hl1. }
  { by intros j x [= <- <-]. }
  unfold relinkSuccessorsLocked. change (currentDay s1) with (currentDay s). rewrite R1. exists (match err with Some _ => avec_chaine s1 c' | None => vider (avec_chaine s1 c') end), d', err. split; [done|].
  assert (forall j, lecture c d1 j = if decide (j = currentDay s) then Some (h', es) else lecture c d j) as Hlec by (intros j; by apply lecture_posee).
  split.
  - split.
    + destruct err as [e|]; (split; [done|done|done|try done; by constructor|try done; by vm_compute|done|]); destruct Hec as [E1 E2 E3 E4 E5]; (split; try done; by constructor).
    + done.
    + by destruct err.
    + destruct err; [by left|by right].
    + by intros ->.
    + intros j Hne'. destruct (R3 j) as [-> ->]. unfold etats_scelles, signale. by rewrite Hlec, decide_False.
    + right. destruct (R3 (currentDay s)) as [-> ->]. unfold etats_scelles at 2, signale at 2. rewrite Hlec, decide_True by done. by rewrite W4.
  - intros Hw. split; [by apply R5|]. intros Hct.
    destruct (chaine_scelle ecrit c s s1 d (currentDay s) img h' es Hw Hk Hct W1 ltac:(congruence) W3 Hc Hc eq_refl) as (c2 & d2 & E & Hct').
    unfold relinkSuccessorsLocked in E. fold d1 in E. rewrite R1 in E. injection E as Ec -> ->. subst c2. destruct Hct' as (L & T & L1 & L2 & L3). exists L, T. split; [done|]. split; [done|].
    intros j x Hx. apply (L3 j x). exact Hx.
Qed.

(** * A session *)

(** The day and the state of a snapshot. *)
Definition jour_instantane (snap : ServerHealthSnapshot) : Z := u32 (TimestampSec snap / 86400).
Definition etat_instantane (snap : ServerHealthSnapshot) : OracleVectorEntry := etat_de snap (match vectoriser snap with Done code => code | _ => [] end).
Definition recus (l : list ServerHealthSnapshot) (j : Z) : list OracleVectorEntry := etat_instantane <$> filter (fun s => jour_instantane s = j) l.

(** A state of a day is kept: sealed in its file, or waiting in the day in progress. *)
Definition gardee (c : SiloConfig) (s : DailyOracleSilo) (d : disque) (j : Z) (e : OracleVectorEntry) : Prop :=
  e ∈ etats_scelles c d j \/ (j = currentDay s /\ e ∈ en_attente s).
(** A day is flagged: by its file or by the day in progress. *)
Definition perte (c : SiloConfig) (s : DailyOracleSilo) (d : disque) (j : Z) : bool :=
  signale c d j || ((j =? currentDay s) && marque (currentDroppedFlags s)).

(** [G] holds the states received for each day, [F] the days flagged at the start. *)
Record registre (c : SiloConfig) (F : Z -> bool) (G : Z -> list OracleVectorEntry) (s : DailyOracleSilo) (d : disque) : Prop := {
  re_silo : silo_ok c s;
  re_dossier : dossier_sain c d;
  re_vierge : hasCurrentDay s = false -> en_attente s = [];
  re_sources : forall j e, e ∈ etats_scelles c d j -> e ∈ G j;
  re_cours : en_attente s ⊆+ G (currentDay s);
  re_prio : forall j, nb_prioritaires (G j) <= K -> forall e, e ∈ G j -> prioritaire e = true -> gardee c s d j e;
  re_tout : forall j, perte c s d j = false -> forall e, e ∈ G j -> gardee c s d j e;
  re_perte : forall j, zlen (G j) <= K -> F j = false -> perte c s d j = false
}.

Lemma registre_ext c F G1 G2 s d : (forall j, G1 j = G2 j) -> registre c F G1 s d -> registre c F G2 s d.
Proof. intros E [H1 H2 H3 H4 H5 H6 H7 H8]. split; try done; [by setoid_rewrite <- E|by rewrite <- E|by setoid_rewrite <- E..]. Qed.

Lemma registre_scelle c F G s d s' d' err : registre c F G s d -> scellee c s d s' d' err -> registre c F G s' d'.
Proof.
  intros [R1 R2 R3 R4 R5 R6 R7 R8] [S1 S2 [S3 S3'] S4 _ S5 S6].
  assert (forall j, j <> currentDay s -> (forall e, gardee c s' d' j e <-> gardee c s d j e) /\ perte c s' d' j = perte c s d j) as Hne.
  { intros j Hj. unfold gardee, perte. rewrite S3. destruct (S5 j Hj) as [-> ->]. destruct (Z.eqb_spec j (currentDay s)); [done|]. split; [tauto|done]. }
  assert (forall e, e ∈ etats_scelles c d (currentDay s) \/ e ∈ en_attente s -> e ∈ G (currentDay s)) as Hs
    by (intros e [He|He]; [by apply R4|by apply (elem_of_submseteq _ _ _ He)]).
  split; [done|done| | | | | |].
  - rewrite S3'. intros Hh. destruct S4 as [[-> _]|[-> _]]; [by apply R3|done].
  - intros j e. destruct (decide (j = currentDay s)) as [->|Hj]; [|destruct (S5 j Hj) as [-> _]; apply R4].
    destruct S6 as [(-> & _)|(H & _)]; [apply R4|]. intros He. by apply Hs, H.
  - rewrite S3. destruct S4 as [[-> _]|[-> _]]; [done|apply submseteq_nil_l].
  - intros j Hn e He Hp. destruct (decide (j = currentDay s)) as [->|Hj]; [|apply (proj1 (Hne j Hj)), R6; done].
    unfold gardee. rewrite S3. destruct S6 as [(-> & _ & -> & _)|(_ & _ & H & _)]; [by apply R6|left].
    apply (H (G (currentDay s)) Hs Hn); [|done]. destruct (R6 _ Hn e He Hp) as [|[_ ?]]; tauto.
  - intros j Hl e He. destruct (decide (j = currentDay s)) as [->|Hj]; [|destruct (Hne j Hj) as [E1 E2]; apply E1, R7; [by rewrite <- E2|done]].
    unfold gardee, perte in *. rewrite S3, Z.eqb_refl in *. cbn [andb] in Hl.
    destruct S6 as [(E1 & E2 & E3 & E4)|(_ & H2 & _ & H4 & _)].
    + rewrite E1, E3. rewrite E2, E4 in Hl. apply (R7 (currentDay s)); [by rewrite Z.eqb_refl|done].
    + left. apply orb_false_iff in Hl as [Hl _]. apply H2; [done|].
      assert (signale c d (currentDay s) || marque (currentDroppedFlags s) = false) as Ha by (destruct (_ || _) eqn:E; [rewrite H4 in Hl by done; done|done]).
      destruct (R7 (currentDay s)) with (e := e) as [|[_ ?]]; [unfold perte; by rewrite Z.eqb_refl|done|tauto|tauto].
  - intros j Hn Hf. destruct (decide (j = currentDay s)) as [->|Hj]; [|destruct (Hne j Hj) as [_ ->]; by apply R8].
    pose proof (R8 _ Hn Hf) as Hl. unfold perte in *. rewrite S3, Z.eqb_refl in *. cbn [andb] in *.
    destruct S6 as [(_ & -> & _ & ->)|(_ & _ & _ & _ & H)]; [done|]. rewrite (H _ Hs Hn Hl). cbn. apply orb_false_iff in Hl as [_ Hl].
    destruct S4 as [[_ ->]|[_ ->]]; done.
Qed.

(** Opening a day, once nothing waits. *)
Lemma registre_ouvert c F G s d day ts : registre c F G s d -> en_attente s = [] -> is_u32 day -> is_u64 ts -> registre c F G (openDayLocked s day ts) d.
Proof.
  intros [R1 R2 R3 R4 R5 R6 R7 R8] He Hd Ht. pose proof (ec_vide _ (so_cours _ _ R1) He) as Hfl.
  assert (forall j e, gardee c (openDayLocked s day ts) d j e <-> gardee c s d j e) as Hg
    by (intros j e; unfold gardee; rewrite He; change (en_attente (openDayLocked s day ts)) with (@nil OracleVectorEntry); rewrite !elem_of_nil; tauto).
  assert (forall j, perte c (openDayLocked s day ts) d j = perte c s d j) as Hp
    by (intros j; unfold perte; rewrite Hfl; change (currentDroppedFlags (openDayLocked s day ts)) with 0; change (marque 0) with false; by rewrite !andb_false_r).
  destruct R1 as [S1 _ _ _ _ S6 S7]. split; [by split|done|done|done|apply submseteq_nil_l|..].
  - intros j Hn e Hin Hpr. by apply Hg, R6.
  - intros j Hl e Hin. apply Hg, R7; [by rewrite <- Hp|done].
  - intros j Hn Hf. rewrite Hp. by apply R8.
Qed.

Lemma nb_prioritaires_sous l k : l ⊆+ k -> nb_prioritaires l <= nb_prioritaires k.
Proof.
  intros (m & E)%submseteq_Permutation. unfold nb_prioritaires. rewrite (zlen_perm _ _ (filter_Permutation _ _ _ E)), filter_app, zlen_app.
  pose proof (zlen_nonneg (filter (fun e => prioritaire e = true) m)). lia.
Qed.

(** An event of the day in progress. *)
Lemma registre_incorpore c F G s d e : registre c F G s d -> etat_oracle_ok e -> hasCurrentDay s = true ->
  wp (incorporer s e (prioritaire e)) (fun s' => meme_jour s s' /\ registre c F (fun j => G j ++ (if j =? currentDay s then [e] else [])) s' d).
Proof.
  intros [R1 R2 R3 R4 R5 R6 R7 R8] Hok Hh. destruct R1 as [S1 S2 S3 S4 S5 S6 S7]. eapply wp_mono; [by apply incorporer_ok|].
  intros s' ((M1 & M2 & M3 & M4 & M5) & I1 & I2 & I3 & I4 & I5 & I6 & I7). split; [done|]. pose proof Hok as (_ & _ & _ & _ & _ & _ & Hfl & _).
  assert (forall x, x ∈ en_attente s' -> x = e \/ x ∈ en_attente s) as Hin' by (intros x Hx; by apply (elem_of_submseteq _ _ _ Hx), elem_of_cons in I2).
  assert (e :: en_attente s ⊆+ G (currentDay s) ++ [e]) as Hsub by (rewrite <- Permutation_cons_append; by apply submseteq_skip).
  assert (forall j, j <> currentDay s -> (forall x, gardee c s' d j x <-> gardee c s d j x) /\ perte c s' d j = perte c s d j) as Hne.
  { intros j Hj. unfold gardee, perte. rewrite M2. destruct (Z.eqb_spec j (currentDay s)); [done|]. split; [tauto|done]. }
  split.
  - split; [congruence|by rewrite M2|by rewrite M4| | |by rewrite M5|done].
    + apply Forall_forall. intros x [->|Hx]%Hin'; [done|]. by apply (proj1 (Forall_forall _ _) S4).
    + destruct I7 as [->| ->]; [done|]. apply lor_u16; [done|]. apply lor_u16; [by vm_compute|done].
  - done.
  - by rewrite M3, Hh.
  - intros j x Hx. apply elem_of_app. left. by apply R4.
  - rewrite M2, Z.eqb_refl. by etransitivity.
  - cbv beta. intros j Hn x Hx Hp. destruct (decide (j = currentDay s)) as [Ej|Hj]; [subst j; rewrite Z.eqb_refl in *|rewrite (proj2 (Z.eqb_neq _ _) Hj) in Hn, Hx; rewrite app_nil_r in Hn, Hx; apply (proj1 (Hne j Hj)); by apply R6].
    assert (nb_prioritaires (G (currentDay s)) <= K) as Hn' by (etransitivity; [apply nb_prioritaires_sous; by apply submseteq_inserts_r|exact Hn]).
    assert (forall y, y ∈ e :: en_attente s -> prioritaire y = true -> y ∈ en_attente s') as Hk by (apply I3; etransitivity; [by apply nb_prioritaires_sous|done]).
    unfold gardee. rewrite M2. apply elem_of_app in Hx as [Hx| ->%list_elem_of_singleton]; [|right; split; [done|]; apply Hk; [by left|done]].
    destruct (R6 _ Hn' x Hx Hp) as [|[_ Ha]]; [by left|right]. split; [done|]. apply Hk; [by right|done].
  - cbv beta. intros j Hl x Hx. destruct (decide (j = currentDay s)) as [Ej|Hj]; [subst j; rewrite Z.eqb_refl in *|rewrite (proj2 (Z.eqb_neq _ _) Hj) in Hx; rewrite app_nil_r in Hx; destruct (Hne j Hj) as [E1 E2]; apply E1, R7; [by rewrite <- E2|done]].
    unfold perte in Hl. rewrite M2, Z.eqb_refl in Hl. cbn [andb] in Hl. apply orb_false_iff in Hl as [Hl1 Hl2]. specialize (I4 Hl2).
    assert (marque (currentDroppedFlags s) = false) as Hf by (destruct (marque (currentDroppedFlags s)); [by rewrite I6 in Hl2|done]).
    unfold gardee. rewrite M2, I4. apply elem_of_app in Hx as [Hx| ->%list_elem_of_singleton]; [|right; split; [done|by left]].
    destruct (R7 (currentDay s)) with (e := x) as [|[_ Ha]]; [unfold perte; by rewrite Z.eqb_refl, Hl1, Hf|done|by left|right; split; [done|by right]].
  - cbv beta. intros j Hn Hf. destruct (decide (j = currentDay s)) as [Ej|Hj]; [subst j; rewrite Z.eqb_refl in *|rewrite (proj2 (Z.eqb_neq _ _) Hj) in Hn; rewrite app_nil_r in Hn; destruct (Hne j Hj) as [_ ->]; by apply R8].
    rewrite zlen_app in Hn. change (zlen [e]) with 1 in Hn. pose proof (R8 (currentDay s) ltac:(lia) Hf) as H. unfold perte in *. rewrite M2.
    rewrite I5; [done|]. apply submseteq_length in R5. unfold zlen in *. lia.
Qed.

Lemma mot5_u64 n : is_u64 (mot5 n).
Proof.
  unfold mot5, RotateLeft64. set (s := Z.land n 63). assert (0 <= s < 64) as Hs by (unfold s; change 63 with (Z.ones 6); rewrite Z.land_ones by lia; apply Z.mod_pos_bound; lia).
  apply (lor_range _ _ 64); [lia|apply Z.mod_pos_bound; lia|]. rewrite Z.shiftr_div_pow2 by lia. pose proof (Z.pow_pos_nonneg 2 (64 - s) ltac:(lia) ltac:(lia)).
  split; [apply Z.div_pos; lia|]. apply Z.div_lt_upper_bound; [lia|]. nia.
Qed.

Lemma code_ok snap h : snapshot_ok snap -> is_u64 h -> mots_ok (code_de snap h).
Proof.
  intros (H1 & H2 & H3 & H4 & H5 & H6 & H7 & H8 & _) Hh. unfold is_u16, is_u32, is_u64 in H1, H2, H3, H4, H5, H6, H7, H8. split; [done|].
  assert (0 <= pas_score snap <= 64 /\ 0 <= pas_entropie snap <= 64) as [Hps Hpe]
    by (unfold pas_score, pas_entropie; split; (split; [apply Z.div_pos; lia|apply Z.div_le_upper_bound; lia])).
  unfold code_de. repeat (apply Forall_cons; split); [apply splitmix64_range..|apply mot2_u64; lia|by apply thermo_u64|by apply thermo_u64|apply mot5_u64|apply splitmix64_range|done|constructor].
Qed.

Lemma instantane_ok snap : snapshot_ok snap -> exists code, vectoriser snap = Done code /\ etat_de snap code = etat_instantane snap /\
  etat_oracle_ok (etat_instantane snap) /\ prioritaire (etat_instantane snap) = (SeverityHigh <=? Severity snap) /\ is_u32 (jour_instantane snap).
Proof.
  intros Hs. destruct (vectoriser_ok snap Hs) as (h & _ & Hh & E). exists (code_de snap h). split; [done|]. unfold etat_instantane. rewrite E. split; [done|].
  split; [|split; [done|apply Z.mod_pos_bound; lia]]. pose proof (code_ok snap h Hs Hh) as Hc. destruct Hs as (H1 & H2 & H3 & H4 & H5 & H6 & _).
  unfold etat_oracle_ok, etat_de. cbn [OBitcode RelativeSec OSubsystem OHealthScore OSeverity OCorrelatedCount EFlags EReserved]. split; [done|].
  split; [apply Z.mod_pos_bound; lia|]. do 4 (split; [done|]). split; [destruct (_ <? _), (_ <=? _); by vm_compute|by vm_compute].
Qed.

Lemma registre_rotation c F G s d : registre c F G s d -> registre c F G (avec_rotation s) d.
Proof. intros [[S1 S2 S3 S4 S5 S6 [C1 C2 C3 C4 C5]] R2 R3 R4 R5 R6 R7 R8]. by split. Qed.

Lemma ingerer_ok ecrit c F G s d snap : config_ok c -> registre c F G s d -> snapshot_ok snap ->
  exists s' d' err, IngestSnapshot sha256 hmac_sha256 ecrit s d (Some snap) = Done (s', d', err) /\
    registre c F (fun j => G j ++ match err with None => recus [snap] j | Some _ => [] end) s' d' /\
    ((forall j, ecrit j = true) -> err = None /\ (chaine_tenue c s d -> chaine_tenue c s' d')).
Proof.
  intros Hc Hr Hsn. destruct (instantane_ok snap Hsn) as (code & Ev & Ee & Hok & Hp & Hday). pose proof Hsn as (Hts & _).
  assert (forall s1 d1, registre c F G s1 d1 -> hasCurrentDay s1 = true -> currentDay s1 = jour_instantane snap -> exists s', 
    incorporer s1 (etat_de snap code) (SeverityHigh <=? Severity snap) = Done s' /\ registre c F (fun j => G j ++ recus [snap] j) s' d1 /\ chaine s' = chaine s1) as Hinc.
  { intros s1 d1 H1 H2 H3. rewrite Ee, <- Hp. destruct (proj1 (wp_exists _ _) (registre_incorpore c F G s1 d1 _ H1 Hok H2)) as (s' & E & (_ & _ & _ & _ & M) & Hr').
    exists s'. split; [done|]. split; [|done]. eapply registre_ext; [|exact Hr']. intros j. cbv beta. f_equal. rewrite H3. unfold recus. rewrite filter_cons.
    rewrite Z.eqb_sym. destruct (Z.eqb_spec (jour_instantane snap) j); [by rewrite decide_True|by rewrite decide_False]. }
  unfold IngestSnapshot. fold (jour_instantane snap). destruct (hasCurrentDay s) eqn:Eh; cbn [negb].
  - destruct (Z.eqb_spec (jour_instantane snap) (currentDay s)) as [Ed|Ed]; cbn [negb].
    + rewrite run_bind_done, Ev, run_bind_done. destruct (Hinc s d Hr Eh (eq_sym Ed)) as (s' & -> & H & Ech). exists s', d, None. split; [done|]. split; [done|]. intros _. split; [done|].
      intros (L & T & L1 & L2 & L3). exists L, T. split; [done|]. split; [done|]. unfold memoire. by rewrite Ech.
    + destruct (sceller_ok ecrit c s d (TimestampSec snap) Hc (re_silo _ _ _ _ _ Hr) (re_dossier _ _ _ _ _ Hr) Hts) as (s1 & d1 & err & -> & Hsc & Hch).
      rewrite run_bind_done. pose proof (registre_scelle _ _ _ _ _ _ _ _ Hr Hsc) as Hr1. destruct err as [e|].
      * rewrite run_bind_done. exists s1, d1, (Some (ErrRotation e)). split; [done|]. split; [eapply registre_ext; [|exact Hr1]; intros j; by rewrite app_nil_r|].
        intros Hw. by destruct (Hch Hw).
      * rewrite run_bind_done, Ev, run_bind_done.
        destruct (Hinc (avec_rotation (openDayLocked s1 (jour_instantane snap) (TimestampSec snap))) d1) as (s' & -> & H & Ech); [|done..|].
        { apply registre_rotation, registre_ouvert; [done|by apply (sc_echec _ _ _ _ _ _ Hsc)|done..]. }
        exists s', d1, None. split; [done|]. split; [done|]. intros Hw. split; [done|]. intros Hct. destruct (proj2 (Hch Hw) Hct) as (L & T & L1 & L2 & L3).
        exists L, T. split; [done|]. split; [done|]. unfold memoire. by rewrite Ech.
  - rewrite run_bind_done, Ev, run_bind_done.
    destruct (Hinc (openDayLocked s (jour_instantane snap) (TimestampSec snap)) d) as (s' & -> & H & Ech); [|done..|].
    { apply registre_ouvert; [done|by apply (re_vierge _ _ _ _ _ Hr)|done..]. }
    exists s', d, None. split; [done|]. split; [done|]. intros _. split; [done|]. intros (L & T & L1 & L2 & L3). exists L, T. split; [done|]. split; [done|]. unfold memoire. by rewrite Ech.
Qed.

(** The calls, each with the writes the system accepts while it runs; the snapshots
    accepted, the errors returned. *)
Inductive operation := Ingerer (snap : ServerHealthSnapshot) | Sceller (endTsSec : Z).
Definition operation_ok (o : operation) : Prop := match o with Ingerer snap => snapshot_ok snap | Sceller t => is_u64 t end.
Definition appeler (ecrit : Z -> bool) (s : DailyOracleSilo) (d : disque) (o : operation) : run (DailyOracleSilo * disque * option erreur_silo) :=
  match o with
  | Ingerer snap => IngestSnapshot sha256 hmac_sha256 ecrit s d (Some snap)
  | Sceller t => SealDay sha256 hmac_sha256 ecrit s d t
  end.
Definition accepte (o : operation) (err : option erreur_silo) : list ServerHealthSnapshot := match o, err with Ingerer snap, None => [snap] | _, _ => [] end.
Fixpoint executer (s : DailyOracleSilo) (d : disque) (ops : list ((Z -> bool) * operation)) : run (DailyOracleSilo * disque * list ServerHealthSnapshot * list erreur_silo) :=
  match ops with
  | [] => Done (s, d, [], [])
  | (ecrit, o) :: ops =>
      '(s, d, err) ← appeler ecrit s d o;
      '(s, d, recu, errs) ← executer s d ops;
      Done (s, d, accepte o err ++ recu, match err with Some e => e :: errs | None => errs end)
  end.

Lemma recus_app l k j : recus (l ++ k) j = recus l j ++ recus k j.
Proof. unfold recus. by rewrite filter_app, fmap_app. Qed.

Lemma session_ok c F ops : config_ok c -> forall G s d, registre c F G s d -> Forall (fun o => operation_ok (snd o)) ops ->
  exists s' d' recu errs, executer s d ops = Done (s', d', recu, errs) /\ registre c F (fun j => G j ++ recus recu j) s' d' /\
    (Forall (fun o => forall j, fst o j = true) ops -> errs = [] /\ (chaine_tenue c s d -> chaine_tenue c s' d')).
Proof.
  intros Hc. induction ops as [|[ecrit o] ops IH]; intros G s d Hr Hok; cbn [executer].
  { exists s, d, [], []. split; [done|]. split; [|done]. eapply registre_ext; [|exact Hr]. intros j. by rewrite app_nil_r. }
  apply Forall_cons in Hok as [Ho Hok]. cbn in Ho.
  assert (exists s1 d1 err, appeler ecrit s d o = Done (s1, d1, err) /\ registre c F (fun j => G j ++ recus (accepte o err) j) s1 d1 /\
    ((forall j, ecrit j = true) -> err = None /\ (chaine_tenue c s d -> chaine_tenue c s1 d1))) as (s1 & d1 & err & -> & Hr1 & Hch1).
  { destruct o as [snap|t].
    - destruct (ingerer_ok ecrit c F G s d snap Hc Hr Ho) as (s1 & d1 & err & E & H & Hch). exists s1, d1, err. split; [done|]. split; [|done]. by destruct err.
    - destruct (sceller_ok ecrit c s d t Hc (re_silo _ _ _ _ _ Hr) (re_dossier _ _ _ _ _ Hr) Ho) as (s1 & d1 & err & E & Hsc & Hch). exists s1, d1, err. split; [done|].
      split; [|done]. eapply registre_ext; [|exact (registre_scelle _ _ _ _ _ _ _ _ Hr Hsc)]. intros j. by rewrite app_nil_r. }
  rewrite run_bind_done. destruct (IH _ _ _ Hr1 Hok) as (s2 & d2 & recu & errs & -> & Hr2 & Hch2). rewrite run_bind_done.
  do 4 eexists. split; [done|]. split.
  - eapply registre_ext; [|exact Hr2]. intros j. cbv beta. by rewrite recus_app, app_assoc.
  - intros [Hw Hws]%Forall_cons. destruct (Hch1 Hw) as [-> H1]. destruct (Hch2 Hws) as [-> H2]. split; [done|]. intros Hct. by apply H2, H1.
Qed.

Lemma depart_ok c0 s0 d0 : NewDailyOracleSilo c0 = inl s0 -> is_u64 (MachineID c0) -> dossier_sain (cfg s0) d0 ->
  config_ok (cfg s0) /\ registre (cfg s0) (signale (cfg s0) d0) (etats_scelles (cfg s0) d0) s0 d0 /\ chaine s0 = None.
Proof.
  unfold NewDailyOracleSilo, ValidateSealKey. cbn [HMACKey MachineID NominalDist MaxRetainedDays BaselineExcludeAnomalousDays]. set (c := Config _ _ _ _ _).
  destruct (checkSealKey (HMACKey c0)) eqn:Hk; [done|]. intros [= <-] Hm Hd. cbn [cfg] in *. split; [done|]. split; [|done].
  split; [by split|done|done|done|apply submseteq_nil_l|..].
  - intros j _ e He _. by left.
  - intros j _ e He. by left.
  - intros j _ Hf. unfold perte. rewrite Hf. cbn. by rewrite andb_false_r.
Qed.

(** C16: the journal of the days is durable.  In a directory whose files are sealed
    days, for any calls of ingestion and sealing, snapshots in any order, and whatever
    writes the system refuses, no call fails at run time, and after them: the files
    are still sealed days; every High or Critical event accepted for a day, and every
    one its file held, is in its file or waits in the day in progress, as long as the
    day has at most 2^19 of them; so is every event of a day that is not flagged as
    saturated; a day of at most 2^19 events is flagged only if its file was; and
    nothing is in a file that was not there or accepted for that day.  If every write
    is accepted, no call returns an error, and a chain of seals that verified at the
    start still verifies. *)
Theorem journal_durable c0 s0 d0 ops : NewDailyOracleSilo c0 = inl s0 -> is_u64 (MachineID c0) -> dossier_sain (cfg s0) d0 ->
  Forall (fun o => operation_ok (snd o)) ops ->
  exists s d recu errs, executer s0 d0 ops = Done (s, d, recu, errs) /\ cfg s = cfg s0 /\ dossier_sain (cfg s0) d /\
  (forall j, let connus := etats_scelles (cfg s0) d0 j ++ recus recu j in
    (nb_prioritaires connus <= OracleMaxVectorCount -> forall e, e ∈ connus -> prioritaire e = true -> gardee (cfg s0) s d j e) /\
    (perte (cfg s0) s d j = false -> forall e, e ∈ connus -> gardee (cfg s0) s d j e) /\
    (zlen connus <= OracleMaxVectorCount -> signale (cfg s0) d0 j = false -> perte (cfg s0) s d j = false) /\
    (forall e, gardee (cfg s0) s d j e -> e ∈ connus)) /\
  (Forall (fun o => forall j, fst o j = true) ops -> errs = [] /\
    (VerifyOracleChain sha256 hmac_sha256 s0 d0 = [] -> VerifyOracleChain sha256 hmac_sha256 s d = [])).
Proof.
  intros Hs Hm Hd Hops. destruct (depart_ok c0 s0 d0 Hs Hm Hd) as (Hc & Hr & Hch).
  destruct (session_ok _ _ ops Hc _ _ _ Hr Hops) as (s & d & recu & errs & E & Hr' & Hw). exists s, d, recu, errs.
  destruct Hr' as [S1 S2 _ S4 S5 S6 S7 S8]. split; [done|]. split; [apply (so_cfg _ _ S1)|]. split; [done|]. split.
  - intros j. split; [apply S6|]. split; [apply S7|]. split; [apply S8|]. intros e [He|[-> He]]; [by apply S4|by apply (elem_of_submseteq _ _ _ He)].
  - intros Ha. destruct (Hw Ha) as [He Hct]. split; [done|]. unfold VerifyOracleChain. intros Hv. destruct (liste_stockee d0) as [Ht Hl].
    destruct (chaine_intacte (cfg s0) (storedDayFilesLocked d0) None Hv) as [T HT].
    { intros [j l] Hf. apply Hl in Hf. destruct (Hd j l Hf) as (h & es & Hh & _). by exists h, es. }
    destruct Hct as (L & T' & L1 & L2 & _); [exists (storedDayFilesLocked d0), T; split; [done|]; split; [done|]; intros j x Hx; by rewrite Hch in Hx|].
    rewrite (liste_exacte d L L1), (so_cfg _ _ S1). by apply (chaine_verifiee _ _ _ T').
Qed.
End silos.

(** * Example *)

Definition config_exemple : SiloConfig := Config 99 0 0 false cle_exemple.
Definition silo_exemple : DailyOracleSilo :=
  match NewDailyOracleSilo config_exemple with inl s => s | inr _ => Silo config_exemple 0 false 0 [] [] 0 0 0 0 0 None 0 0 0 end.
Definition tout_accepte : Z -> bool := fun _ => true.
Definition rien_accepte : Z -> bool := fun _ => false.
Definition instantane (t severity : Z) : ServerHealthSnapshot := Snapshot t 3 7 900 severity 12 900 42 0 (octets "GET /index.html 200" ++ replicate 77 0).

Lemma instantane_exemple_ok t severity : is_u64 t -> is_u16 severity -> snapshot_ok (instantane t severity).
Proof.
  intros H1 H2. unfold snapshot_ok, is_u64, is_u32, is_u16 in *. cbn -[octets]. repeat split; try lia.
  by apply octets_valides_ok.
Qed.

(** A High event of day 20001, one of day 20000 that comes late, a write refused, an
    event of the day after. *)
Definition appels_exemple : list ((Z -> bool) * operation) :=
  [(tout_accepte, Ingerer (instantane 1728100000 3)); (tout_accepte, Ingerer (instantane 1728000000 3)); (rien_accepte, Ingerer (instantane 1728200000 1));
   (tout_accepte, Ingerer (instantane 1728200001 1))].

Lemma journal_durable_witness : exists s d errs, executer empreinte empreinte_cle silo_exemple (Disque ∅ ∅) appels_exemple =
    Done (s, d, [instantane 1728100000 3; instantane 1728000000 3; instantane 1728200001 1], errs) /\
  gardee empreinte empreinte_cle (cfg silo_exemple) s d 20000 (etat_instantane (instantane 1728000000 3)) /\
  gardee empreinte empreinte_cle (cfg silo_exemple) s d 20001 (etat_instantane (instantane 1728100000 3)).
Proof.
  destruct (journal_durable empreinte empreinte_cle config_exemple silo_exemple (Disque ∅ ∅) appels_exemple) as (s & d & recu & errs & E & _ & _ & H & _).
  - vm_compute. reflexivity.
  - unfold is_u64. cbn. lia.
  - intros j l Hj. discriminate Hj.
  - repeat (apply Forall_cons; split; [apply instantane_exemple_ok; [unfold is_u64|unfold is_u16]; lia|]). constructor.
  - assert (recu = [instantane 1728100000 3; instantane 1728000000 3; instantane 1728200001 1]) as ->.
    { pose proof (f_equal (fun r => match r with Done (_, _, x, _) => x | _ => [] end) E) as Hx. cbv beta iota in Hx. rewrite <- Hx. vm_compute. reflexivity. }
    exists s, d, errs. split; [exact E|]. split.
    + destruct (H 20000) as (Hp & _). apply Hp; [vm_compute; discriminate|apply list_elem_of_In; vm_compute; by left|vm_compute; reflexivity].
    + destruct (H 20001) as (Hp & _). apply Hp; [vm_compute; discriminate|apply list_elem_of_In; vm_compute; by left|vm_compute; reflexivity].
Defined.
